(* ===== verification/_CoqProject ===== *)
-Q . S2P
Prelude.v
Route.v
Clock.v
SlotAlloc.v
RouteRuntime.v
Room.v
Registry.v
Timer.v
TimerRefine.v
ShardUpdate.v
UpdateApply.v
Topology.v
Framing.v
Ufrag.v
Steer.v
Demux.v
Bits.v
Dd.v
DdCodec.v
Vla.v
H264.v
H264Codec.v
Rtp.v
Timeline.v
PacketCache.v
CacheLaws.v
Switcher.v
EgressGuard.v
SwitcherEgress.v
FeedbackReceiver.v
Pacer.v
ShardParts.v
Router.v
Shard.v
ShardLaws.v
ShardRun.v
Forwarding.v
FeedbackSender.v
SenderLaws.v
SenderRun.v
SenderProgress.v
Lifecycle.v
LifecycleLaws.v
LifecycleRemoval.v
LifecycleDeeds.v
LifecycleRun.v
RtpWire.v
RtpCodec.v
RtcpWire.v
RtcpCodec.v
ReceiveStream.v
ReceiveFeedback.v
SenderReports.v
