(* ===== verification/Prelude.v ===== *)
(** * PulseBeam: a verification library for the media server's core

    PulseBeam is a WebRTC media server. A node runs one control plane and a
    number of shards, each a thread that owns sockets and participants. The
    control plane keeps rooms, participants, tracks and subscriptions, compiles
    them into updates and sends each shard its own; the shard applies them and
    moves packets: from the socket through the demultiplexer to a participant's
    connection, from there as packets of a track to the participants of the
    shard that subscribe to it, and in numbered frames to the other shards the
    track's plan names. A participant's downstream side chooses encodings,
    switches between them and rewrites the packets into one output stream.

    ** The library

    Shared: this file (machine integers, bytes, results, time, tactics and the
    lemmas the components share).

    Addressing and time (sources under [crates/pulsebeam/src] unless a crate is
    named).
    - [Route]: packed routes, node addresses, the 16-byte envelope ([route.rs],
      [route/envelope.rs]). [SlotAlloc]: slots with epochs and quarantine
      ([route.rs], [SlotAllocator]). [RouteRuntime]: a shard's route table with
      loss accounting and deduplication of reverse requests ([route.rs],
      [RouteRuntime]; [participant/reverse.rs]).
    - [Clock]: NTP times, the wall anchor and the expander ([clock.rs]).
    - [Timer], [TimerRefine]: the timer wheel and its refinement to a map of
      timers ([shard/timer.rs]).

    Control plane.
    - [Room]: placement groups of a room ([control/room.rs]). [Registry]: the
      registry of participants over it ([control/registry.rs]).
    - [Topology]: tracks, subscriptions and who receives what
      ([control/topology.rs], [track.rs]).
    - [ShardUpdate]: staging and publication of updates ([shard_update.rs]).
      [UpdateApply]: their application in bounded slices ([shard/updates.rs]).

    Finding a participant for a datagram.
    - [Ufrag]: ICE username fragments (crate [pulsebeam-steer], [ufrag.rs];
      [control/ufrag.rs]). [Steer]: STUN parsing, bootstrap classification and
      flow affinity (crate [pulsebeam-steer]). [Demux]: the client cache
      ([shard/demux.rs]).

    The shard.
    - [ShardParts]: participant registry, dirty tracker, event pipeline and sink
      ([shard/participants.rs], [shard/dirty.rs], [shard/events.rs],
      [participant/effect.rs], [participant/packet.rs], [participant/event.rs]).
      [Router]: tracks, plans and forwarding ([shard/router.rs]). [Shard]: every
      operation of [ShardExecution] ([shard/core.rs]). It requires [Demux],
      [Timer], [RouteRuntime], [Clock], [PacketCache] and implements the
      interface [UpdateApply] applies updates through.
    - [ShardLaws]: the invariant of the whole shard, operation by operation.
      [ShardRun]: runs of a shard. [Forwarding]: media within and between
      shards.

    Media.
    - [Rtp]: packets, extensions, frame selection ([rtp/mod.rs],
      [rtp/extensions.rs], [rtp/time.rs], [rtp/frame_selector.rs]).
    - [Bits], [Dd], [DdCodec]: the AV1 dependency descriptor; [Vla]: the video
      layers allocation; [H264], [H264Codec]: H.264 payloads; [Framing]:
      fragmentation of opaque frames (crate [pulsebeam-core]).
    - [Timeline]: rewriting of sequence numbers and times ([rtp/timeline.rs]).
      [PacketCache], [CacheLaws]: the packet cache and its replay
      ([rtp/cache.rs]). [Switcher]: switching between encodings
      ([rtp/switcher.rs]). [EgressGuard]: what a subscriber may be sent
      ([rtp/egress_guard.rs]). [SwitcherEgress]: their composition.
    - [FeedbackReceiver]: receipt histories; [FeedbackSender], [SenderLaws],
      [SenderRun], [SenderProgress]: the history of packets sent, its invariant
      operation by operation, its runs, and what polling achieves (crate
      [pulsebeam-feedback], [receiver.rs], [sender.rs], [sender/feedback.rs]).
      [Pacer]: when the next packet may leave (crate [pulsebeam-cc]).

    ** How the code is modelled

    A struct is a [Record] with its fields, an enum an [Inductive]; an operation
    on [&mut self] takes the state and returns the new one with its result. A
    failed [assert!], [expect] or [fatal!] is [None]; an error is a value of
    [result]. [debug_assert!] is not executed: what it states is proved where a
    theorem needs it. Integers keep their width: where the source wraps,
    saturates or checks, so does the model. Hash maps are finite maps, ordered
    maps are sorted lists, an [Arc] is its value. What is given to a socket, a
    channel or a sink is returned in order.

    Third-party and environment: the bounded mailbox, the slot map, the
    connection of a participant and what the allocator grants are parameters,
    with the documented behaviour the code relies on as the laws of a class; the
    witnesses instantiate them. The current time is an argument.

    ** What is shown

    - Addresses: packed routes and envelopes round-trip; an epoch comes back
      only after 2^16 tenures of its slot; a stale address retires nothing;
      losses on a numbered link are counted exactly ([Route], [SlotAlloc],
      [RouteRuntime]).
    - Control plane: the registry's invariant over all runs, reservations
      honoured, indexes of the topology equivalent to the definition of
      matching, subscribers exact, nothing left of a participant that is gone.
    - Updates: published in order whatever the mailbox does; applying them in
      slices over many rounds refines applying each at once.
    - Datagrams: a request with a fragment handed out by the server reaches the
      transport it was made for; the demultiplexer's four intrusive lists refine
      one recency-ordered list; a misdirected flow moves to its owner.
    - The shard: no run aborts it and all keep its invariant; who has work is
      queued and who is queued is polled within the budget spent; incarnations
      of a participant do not overlap; media crosses shards to exactly the
      subscribers of the plan, and what that does to the loss counters.
    - Timers: the wheel refines a map, and drains exactly what is due.
    - Media: the dependency descriptor, H.264 access units and opaque frames
      survive their encodings; a replay is decodable; the switcher keeps the
      egress guard silent in every run without shedding, and an execution in
      which shedding does not.
    - Feedback and pacing: every receipt is reported once; every packet sent is
      settled once and for good, and polling settles all whose retention has
      passed; sending conforms to the configured rate and is never held back
      longer than half a second.

    ** Fuel and bounds

    Loops bounded by data recurse on it. The others have fuel, and theorems say
    it is enough: [Framing.walk] by the number of buffered packets
    ([push_terminates]); [Timer.drain_ticks] by the 256 slots, after which the
    wheel is scanned once; [Steer]'s attribute loop by the length of the
    message; [H264Codec]'s scans by the length of the payload;
    [PacketCache.walk_back] by the 512 slots of the window;
    [FeedbackReceiver]'s drain by the capacity; the loops of
    [FeedbackSender.expire] by the work they may spend; polls and flushes by the budget
    their caller passes. Sequence numbers that the code assumes not to run out
    are bounded by 2^62 and times by 2^62 ns (a century) where a theorem needs
    it, as hypotheses.

    ** Not modelled

    Bindings to libwebrtc and the client SDKs over them; the simulator, agents,
    command line tool and test data; socket and executor code (crates
    [pulsebeam-runtime], [pulsebeam-udp], [pulsebeam-tcp]), which is I/O; DTLS,
    SRTP and SCTP, which are bound to third-party cryptography and association
    state; the HTTP API, authentication and the node's startup, which are glue
    over third-party services; rate estimation and placement scores, which
    compute in floating point; the metrics, the recorder and statistics. The
    components list of the project says so part by part.

    ** Plan

    The inside of a participant's connection ([participant/core.rs],
    [participant/downstream], [participant/upstream]), the controller's
    lifecycle ([control/lifecycle.rs]) and the RTP sessions of [pulsebeam-rtc]
    are what remains of the program's own logic. *)

From stdpp Require Export base numbers list list_numbers option gmap strings.
From Stdlib Require Export ZArith Lia.

#[global] Open Scope Z_scope.

(** ** Machine integers

    Rust's [uN] values are integers in [0, 2^N); [usize] is 64 bits wide, as on
    the Linux targets the server supports. Release builds have overflow checks
    off, and the source spells the intended overflow behaviour with
    [wrapping_], [saturating_] and [checked_] operations; those are the
    operations below. *)

Definition fits (w z : Z) : Prop := 0 <= z < 2 ^ w.
Definition umax (w : Z) : Z := 2 ^ w - 1.
Definition wrap (w z : Z) : Z := z `mod` 2 ^ w.
Definition wrapping_add (w a b : Z) : Z := wrap w (a + b).
Definition wrapping_sub (w a b : Z) : Z := wrap w (a - b).
Definition saturating_add (w a b : Z) : Z := Z.min (a + b) (umax w).
Definition saturating_sub (a b : Z) : Z := Z.max 0 (a - b).
Definition saturating_mul (w a b : Z) : Z := Z.min (a * b) (umax w).
Definition checked_add (w a b : Z) : option Z :=
  if a + b <=? umax w then Some (a + b) else None.
Definition checked_sub (a b : Z) : option Z :=
  if a - b <? 0 then None else Some (a - b).

(** [x as iN] of an unsigned value, and [x as uN] of a signed one. *)
Definition cast_signed (w z : Z) : Z := if z <? 2 ^ (w - 1) then z else z - 2 ^ w.
Definition cast_unsigned (w z : Z) : Z := wrap w z.

(** Left shift at width [w]: bits shifted past the top are lost. *)
Definition shl (w a n : Z) : Z := wrap w (Z.shiftl a n).
Definition div_ceil (a b : Z) : Z := (a + b - 1) `div` b.

(** ** Bytes in network order *)

Fixpoint be_encode (n : nat) (v : Z) : list Z :=
  match n with
  | O => []
  | S n' => be_encode n' (Z.shiftr v 8) ++ [v `mod` 256]
  end.

Definition be_decode (l : list Z) : Z := foldl (fun acc b => acc * 256 + b) 0 l.

Definition is_byte (b : Z) : Prop := fits 8 b.
Definition bytes_ok (l : list Z) : Prop := Forall is_byte l.

(** A slice [l[off .. off+len]] that is in range, as [slice::get] returns it. *)
Definition slice (off len : nat) (l : list Z) : option (list Z) :=
  if decide (off + len <= length l)%nat then Some (take len (drop off l)) else None.

(** ** Results *)

Inductive result (E A : Type) : Type :=
| Ok (a : A)
| Err (e : E).
Arguments Ok {E A} a.
Arguments Err {E A} e.

#[export] Instance result_ret E : MRet (result E) := fun A a => Ok a.
#[export] Instance result_bind E : MBind (result E) :=
  fun A B k m => match m with Ok a => k a | Err e => Err e end.

Definition map_err {E F A} (f : E -> F) (m : result E A) : result F A :=
  match m with Ok a => Ok a | Err e => Err (f e) end.
Definition ok_or {E A} (o : option A) (e : E) : result E A :=
  match o with Some a => Ok a | None => Err e end.

(** ** Time

    [Instant] is a monotonic clock reading in nanoseconds, [Duration] a
    non-negative number of nanoseconds. A Linux [Instant] is a [timespec] with
    signed 64-bit seconds; [checked_add] fails past that range. *)

Definition NANOS_PER_SEC : Z := 1000000000.
Definition INSTANT_MAX : Z := 2 ^ 63 * NANOS_PER_SEC - 1.
Definition INSTANT_MIN : Z := - 2 ^ 63 * NANOS_PER_SEC.
Definition saturating_duration_since (a b : Z) : Z := Z.max 0 (a - b).
Definition instant_checked_add (a d : Z) : option Z :=
  if a + d <=? INSTANT_MAX then Some (a + d) else None.
Definition instant_checked_sub (a d : Z) : option Z :=
  if a - d <? INSTANT_MIN then None else Some (a - d).

(** ** Proof automation *)

Create HintDb rust.
Create Rewrite HintDb rust.

(** Case analysis on every boolean comparison an [if] of the goal or of a
    hypothesis tests; [lia] reads the resulting equations. *)
Ltac case_ifs :=
  repeat match goal with
  | |- context [if ?b then _ else _] =>
      lazymatch type of b with bool => destruct b eqn:? | sumbool _ _ => destruct b end
  | H : context [if ?b then _ else _] |- _ =>
      lazymatch type of b with bool => destruct b eqn:? | sumbool _ _ => destruct b end
  end.

(** Closed goals: evaluate, then compare constructors. *)
Ltac ground := vm_compute; intuition congruence.

(** [lia] with quotients and remainders by constants replaced by their
    defining equations. *)
Ltac dlia := Z.to_euclidean_division_equations; lia.

(** Unfold the width-indexed arithmetic so that [lia] sees integers. *)
Ltac unfold_arith :=
  unfold wrapping_add, wrapping_sub, saturating_add, saturating_sub, saturating_mul,
    checked_add, checked_sub, cast_signed, cast_unsigned, umax, fits,
    saturating_duration_since in *.

(** ** Lemmas on machine integers *)

Lemma pow2_pos w : 0 <= w -> 0 < 2 ^ w.
Proof. intros. apply Z.pow_pos_nonneg; lia. Qed.

Lemma wrap_fits w z : 0 <= w -> fits w (wrap w z).
Proof. intros. apply Z.mod_pos_bound, pow2_pos; lia. Qed.

Lemma wrap_small w z : fits w z -> wrap w z = z.
Proof. intros. apply Z.mod_small. done. Qed.

Lemma wrap_add_mul w z k : 0 <= w -> wrap w (z + k * 2 ^ w) = wrap w z.
Proof. intros. unfold wrap. rewrite Z.mod_add; [done|]. pose proof (pow2_pos w); lia. Qed.

Lemma byte_range b : is_byte b -> 0 <= b < 256.
Proof. done. Qed.

Lemma cast_signed_range w z :
  0 < w -> fits w z -> - 2 ^ (w - 1) <= cast_signed w z < 2 ^ (w - 1).
Proof.
  intros Hw Hz. assert (2 ^ w = 2 * 2 ^ (w - 1)) as E.
  { rewrite <- Z.pow_succ_r by lia. f_equal. lia. }
  unfold cast_signed, fits in *. case_ifs; lia.
Qed.

Lemma cast_signed_mod w z :
  0 < w -> fits w z -> wrap w (cast_signed w z) = z.
Proof.
  intros Hw Hz. unfold cast_signed. case_ifs.
  - by apply wrap_small.
  - replace (z - 2 ^ w) with (z + (-1) * 2 ^ w) by lia.
    rewrite wrap_add_mul by lia. by apply wrap_small.
Qed.

(** Reading a difference modulo [2^w] as signed recovers it whenever it is
    smaller than half the modulus in magnitude. *)
Lemma cast_signed_wrap w d :
  0 < w -> - 2 ^ (w - 1) <= d < 2 ^ (w - 1) -> cast_signed w (wrap w d) = d.
Proof.
  intros Hw Hd. assert (2 ^ w = 2 * 2 ^ (w - 1)) as E.
  { rewrite <- Z.pow_succ_r by lia. f_equal. lia. }
  unfold cast_signed. destruct (Z.ltb_spec d 0).
  - replace (wrap w d) with (d + 2 ^ w).
    + case_ifs; lia.
    + rewrite <- (wrap_add_mul w d 1) by lia. symmetry. rewrite wrap_small; unfold fits; lia.
  - rewrite wrap_small by (unfold fits; lia). case_ifs; lia.
Qed.

(** A shifted value and a value below the shift share no bits: [|] is [+]. *)
Lemma lor_shift_add a b n :
  0 <= n -> 0 <= b < 2 ^ n -> Z.lor (Z.shiftl a n) b = a * 2 ^ n + b.
Proof.
  intros Hn Hb. rewrite Z.shiftl_mul_pow2 by lia. symmetry. apply Z.add_nocarry_lor.
  apply Z.bits_inj'. intros i Hi. rewrite Z.land_spec, Z.bits_0.
  destruct (Z.ltb_spec i n).
  - rewrite Z.mul_pow2_bits_low by lia. done.
  - rewrite <- (Z.mod_small b (2 ^ n)) by lia.
    rewrite Z.mod_pow2_bits_high by lia. apply andb_false_r.
Qed.

Lemma land_ones_mod a n : 0 <= n -> Z.land a (2 ^ n - 1) = a `mod` 2 ^ n.
Proof. intros. rewrite <- Z.land_ones by lia. f_equal. rewrite Z.ones_equiv. lia. Qed.

Lemma split_high a b n :
  0 <= n -> 0 <= b < 2 ^ n -> Z.shiftr (a * 2 ^ n + b) n = a.
Proof.
  intros. rewrite Z.shiftr_div_pow2 by lia. pose proof (pow2_pos n).
  rewrite Z.div_add_l by lia. rewrite Z.div_small by lia. lia.
Qed.

Lemma split_low a b n :
  0 <= n -> 0 <= b < 2 ^ n -> (a * 2 ^ n + b) `mod` 2 ^ n = b.
Proof.
  intros. pose proof (pow2_pos n). rewrite Z.add_comm, Z.mod_add by lia.
  apply Z.mod_small. lia.
Qed.

(** ** Lemmas on byte codecs *)

Lemma length_be_encode n v : length (be_encode n v) = n.
Proof.
  revert v. induction n as [|n IH]; intros v; simpl; [done|].
  rewrite length_app, IH. simpl. lia.
Qed.

Lemma be_encode_bytes n v : bytes_ok (be_encode n v).
Proof.
  revert v. induction n as [|n IH]; intros v; simpl; [constructor|].
  apply Forall_app. split; [apply IH|]. constructor; [|constructor].
  apply Z.mod_pos_bound. lia.
Qed.

Lemma be_decode_snoc l b : be_decode (l ++ [b]) = be_decode l * 256 + b.
Proof. unfold be_decode. rewrite foldl_app. done. Qed.

Lemma be_decode_encode n v :
  fits (8 * Z.of_nat n) v -> be_decode (be_encode n v) = v.
Proof.
  revert v. induction n as [|n IH]; intros v Hv.
  - unfold fits in Hv. change (2 ^ (8 * Z.of_nat 0)) with 1 in Hv. cbn. lia.
  - cbn [be_encode]. rewrite be_decode_snoc, IH.
    + rewrite Z.shiftr_div_pow2 by lia. change (2 ^ 8) with 256.
      pose proof (Z.div_mod v 256 ltac:(lia)). lia.
    + unfold fits in *. rewrite Z.shiftr_div_pow2 by lia. change (2 ^ 8) with 256.
      replace (8 * Z.of_nat (S n)) with (8 * Z.of_nat n + 8) in Hv by lia.
      rewrite Z.pow_add_r in Hv by lia. change (2 ^ 8) with 256 in Hv.
      split; [apply Z.div_pos; lia|]. apply Z.div_lt_upper_bound; lia.
Qed.

Lemma be_decode_fits l : bytes_ok l -> fits (8 * Z.of_nat (length l)) (be_decode l).
Proof.
  induction l as [|b l IH] using rev_ind; intros Hl.
  - done.
  - apply Forall_app in Hl as [Hl Hb]. rewrite Forall_singleton in Hb.
    rewrite be_decode_snoc, length_app. specialize (IH Hl). apply byte_range in Hb.
    cbn [length]. replace (8 * Z.of_nat (length l + 1)) with (8 * Z.of_nat (length l) + 8) by lia.
    unfold fits in *. rewrite Z.pow_add_r by lia. change (2 ^ 8) with 256. lia.
Qed.

Lemma be_encode_decode l :
  bytes_ok l -> be_encode (length l) (be_decode l) = l.
Proof.
  induction l as [|b l IH] using rev_ind; intros Hl; [done|].
  apply Forall_app in Hl as [Hl Hb]. rewrite Forall_singleton in Hb.
  apply byte_range in Hb.
  rewrite length_app. cbn [length]. rewrite Nat.add_1_r. cbn [be_encode].
  rewrite be_decode_snoc, Z.shiftr_div_pow2 by lia. change (2 ^ 8) with 256.
  rewrite Z.div_add_l, Z.div_small, Z.add_0_r by lia. rewrite IH by done.
  rewrite Z.add_comm, Z.mod_add, Z.mod_small by lia. done.
Qed.

Lemma be_encode_inj n v1 v2 :
  fits (8 * Z.of_nat n) v1 -> fits (8 * Z.of_nat n) v2 ->
  be_encode n v1 = be_encode n v2 -> v1 = v2.
Proof.
  intros H1 H2 E. rewrite <- (be_decode_encode n v1), <- (be_decode_encode n v2) by done.
  by rewrite E.
Qed.

Lemma slice_app_exact (l1 l2 l3 : list Z) :
  slice (length l1) (length l2) (l1 ++ l2 ++ l3) = Some l2.
Proof.
  unfold slice. rewrite decide_True by (rewrite !length_app; lia).
  by rewrite drop_app_length, take_app_length.
Qed.

Lemma slice_is_Some off len (l : list Z) :
  is_Some (slice off len l) <-> (off + len <= length l)%nat.
Proof. unfold slice. case_decide; split; intros H'; try done; by destruct H'. Qed.

Lemma slice_length off len l s : slice off len l = Some s -> length s = len.
Proof.
  unfold slice. case_decide; intros E; inv E. rewrite length_take, length_drop. lia.
Qed.

Lemma slice_bytes off len l s : bytes_ok l -> slice off len l = Some s -> bytes_ok s.
Proof.
  unfold slice. case_decide; intros Hl E; inv E. apply Forall_take, Forall_drop, Hl.
Qed.

(** ** Lemmas on lists *)

Lemma list_lookup_insert_dec {A} (l : list A) i j x :
  (i < length l)%nat ->
  <[i:=x]> l !! j = if decide (i = j) then Some x else l !! j.
Proof.
  intros. case_decide; subst.
  - by apply list_lookup_insert_eq.
  - by apply list_lookup_insert_ne.
Qed.

Lemma NoDup_snoc {A} (l : list A) x : NoDup l -> x ∉ l -> NoDup (l ++ [x]).
Proof.
  intros. apply NoDup_app. split_and!; [done| |apply NoDup_singleton].
  intros y Hy Hx. apply list_elem_of_singleton in Hx. by subst.
Qed.

(** Distinct integers of an interval are no more than its length. *)
Lemma NoDup_Z_interval (l : list Z) a b :
  NoDup l -> Forall (fun x => a <= x <= b) l -> a <= b + 1 -> Z.of_nat (length l) <= b - a + 1.
Proof.
  intros Hnd Hin Hab. assert (l ⊆+ seqZ a (b - a + 1)) as Hsub.
  { apply NoDup_submseteq; [done|]. intros x Hx. apply elem_of_seqZ.
    rewrite Forall_forall in Hin. specialize (Hin x Hx). lia. }
  apply submseteq_length in Hsub. rewrite length_seqZ in Hsub. lia.
Qed.

#[export] Hint Resolve wrap_fits be_encode_bytes be_decode_fits : rust.
#[export] Hint Rewrite length_be_encode be_decode_snoc : rust.

#[global] Arguments be_encode : simpl never.
#[global] Arguments be_decode : simpl never.
