(* ===== verification/Route.v ===== *)
(** * Compiled route addresses and the inter-node envelope

    Models [crates/pulsebeam/src/route.rs] (packed routes, the two route
    families, node addresses, the typed envelope view) and
    [crates/pulsebeam/src/route/envelope.rs] (the 16-byte wire header).
    A Rust [assert!] that fails panics: the operations that assert return
    [option], with [None] for the panic. *)

From S2P Require Import Prelude.

(** ** [PackedRoute]: [shard(12) | slot(20)] in one [u32] *)

Abbreviation ShardId := Z.

Definition ROUTE_SLOT_BITS : Z := 20.
Definition ROUTE_SHARD_BITS : Z := 12.
Definition ROUTE_SLOT_MASK : Z := Z.shiftl 1 ROUTE_SLOT_BITS - 1.
Definition ROUTE_SHARD_MASK : Z := Z.shiftl 1 ROUTE_SHARD_BITS - 1.

Record PackedRoute := mkPackedRoute { packed_bits : Z }.

#[export] Instance PackedRoute_eq_dec : EqDecision PackedRoute.
Proof. solve_decision. Defined.

Module PackedRoute.

Definition MAX_SLOT : Z := ROUTE_SLOT_MASK.
Definition MAX_SHARD : Z := ROUTE_SHARD_MASK.

(** [None]: one of the two [assert!]s fails. *)
Definition new (shard : ShardId) (slot : Z) : option PackedRoute :=
  if negb (slot <=? MAX_SLOT) then None
  else if negb (shard <=? MAX_SHARD) then None
  else
    let shard_bits := wrap 32 shard in
    Some (mkPackedRoute (Z.lor (shl 32 shard_bits ROUTE_SLOT_BITS) slot)).

(** The [as u32] cast happens before the range check. *)
Definition try_new (shard : ShardId) (slot : Z) : option PackedRoute :=
  if MAX_SLOT <? slot then None
  else
    let shard_bits := wrap 32 shard in
    if MAX_SHARD <? shard_bits then None
    else Some (mkPackedRoute (Z.lor (shl 32 shard_bits ROUTE_SLOT_BITS) slot)).

Definition from_raw (bits : Z) : PackedRoute := mkPackedRoute bits.
Definition shard (p : PackedRoute) : ShardId := Z.shiftr (packed_bits p) ROUTE_SLOT_BITS.
Definition slot (p : PackedRoute) : Z := Z.land (packed_bits p) ROUTE_SLOT_MASK.
Definition index (p : PackedRoute) : nat := Z.to_nat (slot p).
Definition get (p : PackedRoute) : Z := packed_bits p.

(** Every [u32] bit pattern is a packed route. *)
Definition wf (p : PackedRoute) : Prop := fits 32 (packed_bits p).

End PackedRoute.

(** ** Route families

    [route_family!] declares two newtypes over [PackedRoute] that share every
    operation and are deliberately not convertible. The class carries the
    newtype's wrapper and projection; the operations are generic in it. *)

Class RouteFamily (R : Type) := {
  from_packed : PackedRoute -> R;
  packed : R -> PackedRoute;
  packed_from_packed : forall p, packed (from_packed p) = p;
  from_packed_packed : forall r, from_packed (packed r) = r;
}.

Section RouteFamilyOps.
Context {R : Type} `{!RouteFamily R}.

Definition route_new (shard : ShardId) (slot : Z) : option R :=
  from_packed <$> PackedRoute.new shard slot.
Definition route_try_new (shard : ShardId) (slot : Z) : option R :=
  match PackedRoute.try_new shard slot with
  | Some p => Some (from_packed p)
  | None => None
  end.
Definition route_from_raw (bits : Z) : R := from_packed (PackedRoute.from_raw bits).
Definition route_shard (r : R) : ShardId := PackedRoute.shard (packed r).
Definition route_slot (r : R) : Z := PackedRoute.slot (packed r).
Definition route_index (r : R) : nat := PackedRoute.index (packed r).
Definition route_get (r : R) : Z := PackedRoute.get (packed r).
End RouteFamilyOps.

Record TransportRoute := mkTransportRoute { transport_packed : PackedRoute }.
Record RouteId := mkRouteId { route_packed : PackedRoute }.

#[export, refine] Instance TransportRoute_family : RouteFamily TransportRoute :=
  {| from_packed := mkTransportRoute; packed := transport_packed |}.
Proof. all: by intros []. Defined.
#[export, refine] Instance RouteId_family : RouteFamily RouteId :=
  {| from_packed := mkRouteId; packed := route_packed |}.
Proof. all: by intros []. Defined.

#[export] Instance TransportRoute_eq_dec : EqDecision TransportRoute.
Proof. solve_decision. Defined.
#[export] Instance RouteId_eq_dec : EqDecision RouteId.
Proof. solve_decision. Defined.

(** ** Node addresses: a route and the epoch of its slot *)

Record NodeRouteAddress := mkNodeRouteAddress { address_route : RouteId; address_epoch : Z }.
Record NodeTransportAddress :=
  mkNodeTransportAddress { transport_route : TransportRoute; transport_epoch : Z }.

#[export] Instance NodeRouteAddress_eq_dec : EqDecision NodeRouteAddress.
Proof. solve_decision. Defined.
#[export] Instance NodeTransportAddress_eq_dec : EqDecision NodeTransportAddress.
Proof. solve_decision. Defined.

Definition address_shard (a : NodeRouteAddress) : ShardId := route_shard (address_route a).
Definition transport_shard (a : NodeTransportAddress) : ShardId :=
  route_shard (transport_route a).

(** ** The wire header ([route/envelope.rs]) *)

Definition ENVELOPE_LEN : nat := 16.
Definition ROUTE_OFFSET : nat := 4.
Definition ENVELOPE_VERSION : Z := 1.

Inductive EnvelopeType := Media | Feedback | Telemetry.

#[export] Instance EnvelopeType_eq_dec : EqDecision EnvelopeType.
Proof. solve_decision. Defined.

Definition from_u8 (v : Z) : option EnvelopeType :=
  match v with
  | 0 => Some Media
  | 1 => Some Feedback
  | 2 => Some Telemetry
  | _ => None
  end.

Definition as_u8 (t : EnvelopeType) : Z :=
  match t with Media => 0 | Feedback => 1 | Telemetry => 2 end.

Inductive EnvelopeError :=
| Truncated (len : Z)
| UnsupportedVersion (ver : Z)
| UnknownType (ty : Z).

Module wire.

Record Envelope := mkEnvelope { ty : EnvelopeType; epoch : Z; route : RouteId; extension : Z }.

(** [version | type | epoch | route | extension], all big-endian. *)
Definition encode (e : Envelope) : list Z :=
  [ENVELOPE_VERSION; as_u8 (ty e)]
    ++ be_encode 2 (epoch e)
    ++ be_encode 4 (route_get (route e))
    ++ be_encode 8 (extension e).

Definition decode (buf : list Z) : result EnvelopeError Envelope :=
  if decide (length buf < ENVELOPE_LEN)%nat then Err (Truncated (Z.of_nat (length buf)))
  else
    match buf with
    | version :: t :: e0 :: e1 :: r0 :: r1 :: r2 :: r3
        :: x0 :: x1 :: x2 :: x3 :: x4 :: x5 :: x6 :: x7 :: _rest =>
        if negb (version =? ENVELOPE_VERSION) then Err (UnsupportedVersion version)
        else
          kind ← ok_or (from_u8 t) (UnknownType t);
          Ok {| ty := kind;
                epoch := be_decode [e0; e1];
                route := route_from_raw (be_decode [r0; r1; r2; r3]);
                extension := be_decode [x0; x1; x2; x3; x4; x5; x6; x7] |}
    | _ => Err (Truncated (Z.of_nat (length buf)))
    end.

End wire.

(** Route hint from a plaintext frame, without header validation. *)
Definition peek_route (buf : list Z) : option RouteId :=
  bytes ← slice ROUTE_OFFSET 4 buf;
  Some (route_from_raw (be_decode bytes)).

Definition peek_shard (buf : list Z) : option ShardId := route_shard <$> peek_route buf.

(** ** The typed view ([route.rs]) *)

Record Envelope := mkEnv { env_ty : EnvelopeType; env_address : NodeRouteAddress; env_extension : Z }.

Inductive FrameBody :=
| MediaBody (link_seq playout_ntp32 : Z)
| FeedbackBody
| TelemetryBody.

Definition media (address : NodeRouteAddress) (link_seq playout_ntp32 : Z) : Envelope :=
  {| env_ty := Media; env_address := address;
     env_extension := Z.lor (shl 64 link_seq 32) playout_ntp32 |}.
Definition feedback (address : NodeRouteAddress) : Envelope :=
  {| env_ty := Feedback; env_address := address; env_extension := 0 |}.
Definition telemetry (address : NodeRouteAddress) : Envelope :=
  {| env_ty := Telemetry; env_address := address; env_extension := 0 |}.

Definition encode (e : Envelope) : list Z :=
  wire.encode {| wire.ty := env_ty e;
                 wire.epoch := address_epoch (env_address e);
                 wire.route := address_route (env_address e);
                 wire.extension := env_extension e |}.

Definition decode (buf : list Z) : result EnvelopeError Envelope :=
  w ← wire.decode buf;
  Ok {| env_ty := wire.ty w;
        env_address := mkNodeRouteAddress (wire.route w) (wire.epoch w);
        env_extension := wire.extension w |}.

Definition decode_frame (buf : list Z) : result EnvelopeError (Envelope * FrameBody) :=
  env ← decode buf;
  Ok (env, match env_ty env with
           | Media => MediaBody (wrap 32 (Z.shiftr (env_extension env) 32))
                                (wrap 32 (env_extension env))
           | Feedback => FeedbackBody
           | Telemetry => TelemetryBody
           end).

Definition peek_type (buf : list Z) : result EnvelopeError EnvelopeType :=
  env ← decode buf; Ok (env_ty env).

(** The machine ranges of an envelope's fields. *)
Definition address_wf (a : NodeRouteAddress) : Prop :=
  PackedRoute.wf (route_packed (address_route a)) /\ fits 16 (address_epoch a).
Definition envelope_wf (e : Envelope) : Prop :=
  address_wf (env_address e) /\ fits 64 (env_extension e).

(** ** Packing lemmas *)

Lemma packed_bits_split s k :
  0 <= s <= PackedRoute.MAX_SHARD -> 0 <= k <= PackedRoute.MAX_SLOT ->
  Z.lor (shl 32 (wrap 32 s) ROUTE_SLOT_BITS) k = s * 2 ^ 20 + k.
Proof.
  change PackedRoute.MAX_SHARD with 4095. change PackedRoute.MAX_SLOT with 1048575.
  intros Hs Hk. rewrite (wrap_small 32 s) by (unfold fits; lia).
  unfold shl, ROUTE_SLOT_BITS. rewrite wrap_small.
  - apply lor_shift_add; lia.
  - rewrite Z.shiftl_mul_pow2 by lia. unfold fits. lia.
Qed.

Lemma packed_mk_shard_slot s k :
  0 <= s <= PackedRoute.MAX_SHARD -> 0 <= k <= PackedRoute.MAX_SLOT ->
  let p := mkPackedRoute (s * 2 ^ 20 + k) in
  PackedRoute.wf p /\ PackedRoute.shard p = s /\ PackedRoute.slot p = k.
Proof.
  change PackedRoute.MAX_SHARD with 4095. change PackedRoute.MAX_SLOT with 1048575.
  intros Hs Hk. unfold PackedRoute.wf, PackedRoute.shard, PackedRoute.slot, ROUTE_SLOT_BITS, fits; cbn [packed_bits].
  split_and!; try lia.
  - apply split_high; lia.
  - change ROUTE_SLOT_MASK with (2 ^ 20 - 1). rewrite land_ones_mod by lia.
    apply split_low; lia.
Qed.

Lemma packed_new_spec s k :
  0 <= s <= PackedRoute.MAX_SHARD -> 0 <= k <= PackedRoute.MAX_SLOT ->
  PackedRoute.new s k = Some (mkPackedRoute (s * 2 ^ 20 + k)) /\
  PackedRoute.try_new s k = Some (mkPackedRoute (s * 2 ^ 20 + k)).
Proof.
  intros Hs Hk. unfold PackedRoute.new, PackedRoute.try_new. rewrite packed_bits_split by done.
  rewrite wrap_small by (unfold fits; change PackedRoute.MAX_SHARD with 4095 in Hs; lia).
  case_ifs; try done; lia.
Qed.

Lemma packed_wf_ranges p :
  PackedRoute.wf p ->
  0 <= PackedRoute.shard p <= PackedRoute.MAX_SHARD /\
  0 <= PackedRoute.slot p <= PackedRoute.MAX_SLOT /\
  packed_bits p = PackedRoute.shard p * 2 ^ 20 + PackedRoute.slot p.
Proof.
  unfold PackedRoute.wf, PackedRoute.shard, PackedRoute.slot, ROUTE_SLOT_BITS, fits.
  change ROUTE_SLOT_MASK with (2 ^ 20 - 1). change PackedRoute.MAX_SHARD with 4095.
  change PackedRoute.MAX_SLOT with 1048575.
  intros Hp. rewrite land_ones_mod, Z.shiftr_div_pow2 by lia.
  change (2 ^ 20) with 1048576. change (2 ^ 32) with 4294967296 in Hp.
  pose proof (Z.div_mod (packed_bits p) 1048576 ltac:(lia)).
  pose proof (Z.mod_pos_bound (packed_bits p) 1048576 ltac:(lia)).
  split_and!; try lia.
Qed.

(** ** Envelope lemmas *)

Lemma from_u8_as_u8 t : from_u8 (as_u8 t) = Some t.
Proof. by destruct t. Qed.

Lemma as_u8_from_u8 v t : from_u8 v = Some t -> as_u8 t = v.
Proof.
  intros H. unfold from_u8 in H. destruct v as [|[[]|[]|]|]; by inv H.
Qed.

Lemma wire_encode_length e : length (wire.encode e) = ENVELOPE_LEN.
Proof. unfold wire.encode. rewrite !length_app, !length_be_encode. done. Qed.

(** A buffer of at least sixteen bytes splits into the header fields. *)
Lemma header_split (buf : list Z) :
  (ENVELOPE_LEN <= length buf)%nat ->
  exists v t e r x rest,
    buf = v :: t :: e ++ r ++ x ++ rest /\
    length e = 2%nat /\ length r = 4%nat /\ length x = 8%nat.
Proof.
  intros H. destruct buf as [|v [|t buf]]; [simpl in H; unfold ENVELOPE_LEN in H; lia..|].
  exists v, t, (take 2 buf), (take 4 (drop 2 buf)), (take 8 (drop 6 buf)), (drop 14 buf).
  unfold ENVELOPE_LEN in H. cbn [length] in H. split_and!.
  - rewrite <- (take_drop 2 buf) at 1. f_equal. f_equal. f_equal.
    rewrite <- (take_drop 4 (drop 2 buf)) at 1. f_equal. rewrite drop_drop.
    rewrite <- (take_drop 8 (drop (2 + 4) buf)) at 1. f_equal. by rewrite drop_drop.
  - rewrite length_take; lia.
  - rewrite length_take, length_drop; lia.
  - rewrite length_take, length_drop; lia.
Qed.

Lemma wire_decode_fields v t e r x rest :
  length e = 2%nat -> length r = 4%nat -> length x = 8%nat ->
  wire.decode (v :: t :: e ++ r ++ x ++ rest) =
    if negb (v =? ENVELOPE_VERSION) then Err (UnsupportedVersion v)
    else kind ← ok_or (from_u8 t) (UnknownType t);
         Ok {| wire.ty := kind; wire.epoch := be_decode e;
               wire.route := route_from_raw (be_decode r);
               wire.extension := be_decode x |}.
Proof.
  intros He Hr Hx. unfold wire.decode.
  rewrite decide_False by (cbn [length]; rewrite !length_app; unfold ENVELOPE_LEN; lia).
  do 2 (destruct e as [|? e]; [discriminate He|]). destruct e; [|discriminate He].
  do 4 (destruct r as [|? r]; [discriminate Hr|]). destruct r; [|discriminate Hr].
  do 8 (destruct x as [|? x]; [discriminate Hx|]). destruct x; [|discriminate Hx].
  reflexivity.
Qed.

Lemma wire_decode_encode e rest :
  fits 16 (wire.epoch e) -> PackedRoute.wf (route_packed (wire.route e)) ->
  fits 64 (wire.extension e) ->
  wire.decode (wire.encode e ++ rest) = Ok e.
Proof.
  intros He Hr Hx. unfold wire.encode. rewrite <- !app_assoc. cbn [app].
  rewrite wire_decode_fields by apply length_be_encode.
  rewrite Z.eqb_refl, from_u8_as_u8. cbn.
  rewrite (be_decode_encode 2), (be_decode_encode 4), (be_decode_encode 8) by done.
  by destruct e as [? ? [[]] ?].
Qed.

Lemma peek_route_encode w rest :
  PackedRoute.wf (route_packed (wire.route w)) ->
  peek_route (wire.encode w ++ rest) = Some (wire.route w).
Proof.
  intros Hr. unfold peek_route.
  assert (slice ROUTE_OFFSET 4 (wire.encode w ++ rest)
          = Some (be_encode 4 (route_get (wire.route w)))) as ->.
  { pose proof (slice_app_exact
      ([ENVELOPE_VERSION; as_u8 (wire.ty w)] ++ be_encode 2 (wire.epoch w))
      (be_encode 4 (route_get (wire.route w)))
      (be_encode 8 (wire.extension w) ++ rest)) as Hsl.
    rewrite length_app, !length_be_encode, <- !app_assoc in Hsl.
    unfold wire.encode. rewrite <- !app_assoc. exact Hsl. }
  cbn. rewrite be_decode_encode by done. by destruct w as [? ? [[]] ?].
Qed.

Lemma bytes_ok_fields v t e r x rest :
  bytes_ok (v :: t :: e ++ r ++ x ++ rest) ->
  bytes_ok e /\ bytes_ok r /\ bytes_ok x.
Proof.
  unfold bytes_ok. rewrite !Forall_cons, !Forall_app. tauto.
Qed.

(** ** Properties *)

(** Packing a shard and a slot that satisfy the assertions yields a [u32]
    from which [shard] and [slot] read back exactly, the checked constructor
    agrees, and every [u32] bit pattern is the packing of its own shard and
    slot: [new] is a bijection between valid pairs and [u32]s. *)
Theorem packed_route_bijection :
  (forall s k, 0 <= s <= PackedRoute.MAX_SHARD -> 0 <= k <= PackedRoute.MAX_SLOT ->
     exists p, PackedRoute.new s k = Some p /\ PackedRoute.try_new s k = Some p /\
       PackedRoute.wf p /\ PackedRoute.shard p = s /\ PackedRoute.slot p = k) /\
  (forall bits, fits 32 bits ->
     let p := PackedRoute.from_raw bits in
     PackedRoute.new (PackedRoute.shard p) (PackedRoute.slot p) = Some p).
Proof.
  split.
  - intros s k Hs Hk. destruct (packed_new_spec s k Hs Hk) as [-> ->].
    destruct (packed_mk_shard_slot s k Hs Hk) as (? & ? & ?). eauto 10.
  - intros bits Hbits p. destruct (packed_wf_ranges p Hbits) as (Hs & Hk & Hp).
    destruct (packed_new_spec _ _ Hs Hk) as [-> _]. by rewrite <- Hp.
Qed.

(** [try_new] casts the shard index to [u32] before checking it, so a shard
    index of [2^32] or more is accepted whenever its low 32 bits are a valid
    shard, and addresses that other shard; [new] panics on the same input. *)
Theorem try_new_truncates_wide_shard s k hi :
  0 <= s <= PackedRoute.MAX_SHARD -> 0 <= k <= PackedRoute.MAX_SLOT -> 0 < hi ->
  (exists p, PackedRoute.try_new (hi * 2 ^ 32 + s) k = Some p /\ PackedRoute.shard p = s) /\
  PackedRoute.new (hi * 2 ^ 32 + s) k = None.
Proof.
  intros Hs Hk Hhi. split.
  - exists (mkPackedRoute (s * 2 ^ 20 + k)).
    destruct (packed_mk_shard_slot s k Hs Hk) as (_ & ? & _).
    destruct (packed_new_spec s k Hs Hk) as [_ <-]. split; [|done].
    unfold PackedRoute.try_new. rewrite Z.add_comm, wrap_add_mul by lia. done.
  - unfold PackedRoute.new. change PackedRoute.MAX_SHARD with 4095 in *. case_ifs; lia || done.
Qed.

Lemma try_new_truncates_wide_shard_witness :
  exists p, PackedRoute.try_new (2 ^ 32 + 7) 9 = Some p /\ PackedRoute.shard p = 7.
Proof.
  destruct (try_new_truncates_wide_shard 7 9 1) as [H _]; [ground..|]. exact H.
Defined.

(** A frame that starts with an encoded envelope decodes to that envelope,
    whatever payload follows, and the header is exactly [ENVELOPE_LEN] bytes. *)
Theorem envelope_roundtrip e payload :
  envelope_wf e ->
  decode (encode e ++ payload) = Ok e /\ length (encode e) = ENVELOPE_LEN.
Proof.
  intros [[Hr He] Hx]. split; [|apply wire_encode_length].
  unfold decode, encode. rewrite wire_decode_encode by done. by destruct e as [? [] ?].
Qed.

Lemma envelope_roundtrip_witness :
  decode (encode (media (mkNodeRouteAddress (mkRouteId (mkPackedRoute 3145733)) 9) 77 5) ++ [1; 2])
    = Ok (media (mkNodeRouteAddress (mkRouteId (mkPackedRoute 3145733)) 9) 77 5).
Proof. apply envelope_roundtrip. ground. Defined.

(** Decoding is canonical: a byte buffer that decodes starts with the
    encoding of what it decodes to, whose fields are all within their widths. *)
Theorem envelope_decode_canonical buf e :
  bytes_ok buf -> decode buf = Ok e -> envelope_wf e /\ take ENVELOPE_LEN buf = encode e.
Proof.
  intros Hb Hd. unfold decode in Hd.
  destruct (decide (ENVELOPE_LEN <= length buf)%nat) as [Hlen|Hlen]; cycle 1.
  { unfold wire.decode in Hd. rewrite decide_True in Hd by lia. done. }
  destruct (header_split buf Hlen) as (v & t & eb & rb & xb & rest & -> & Le & Lr & Lx).
  apply bytes_ok_fields in Hb as (Be & Br & Bx).
  rewrite wire_decode_fields in Hd by done.
  destruct (v =? ENVELOPE_VERSION) eqn:Hv; [|done]. apply Z.eqb_eq in Hv as ->.
  destruct (from_u8 t) as [kind|] eqn:Ht; [|done]. cbn in Hd. inv Hd.
  apply as_u8_from_u8 in Ht as <-.
  pose proof (be_decode_fits eb Be). pose proof (be_decode_fits rb Br).
  pose proof (be_decode_fits xb Bx). rewrite Le in *. rewrite Lr in *. rewrite Lx in *.
  split; [done|].
  unfold encode, wire.encode. cbn. rewrite <- Le at 2. rewrite <- Lr at 2. rewrite <- Lx at 2.
  rewrite !be_encode_decode by done.
  replace (eb ++ rb ++ xb ++ rest) with ((eb ++ rb ++ xb) ++ rest) by by rewrite <- !app_assoc.
  f_equal. f_equal. rewrite take_app_length' by (rewrite !length_app; lia). done.
Qed.

Lemma envelope_decode_canonical_witness :
  take ENVELOPE_LEN [1;2;0;9;0;16;0;1;0;0;0;0;0;0;0;0;255]
    = encode (telemetry (mkNodeRouteAddress (mkRouteId (mkPackedRoute 1048577)) 9)).
Proof.
  apply envelope_decode_canonical; [|reflexivity].
  repeat (constructor; [ground|]). constructor.
Defined.

(** A media envelope built from a link sequence number and a middle-32
    playout time gives both back through [decode_frame], and the shard a
    packet is steered by ([peek_shard]) is the shard of its address. *)
Theorem media_frame_roundtrip a seq ntp payload :
  address_wf a -> fits 32 seq -> fits 32 ntp ->
  let frame := encode (media a seq ntp) ++ payload in
  decode_frame frame = Ok (media a seq ntp, MediaBody seq ntp) /\
  peek_type frame = Ok Media /\
  peek_route frame = Some (address_route a) /\
  peek_shard frame = Some (address_shard a).
Proof.
  intros [Hr He] Hs Hn frame.
  assert (env_extension (media a seq ntp) = seq * 2 ^ 32 + ntp) as Hext.
  { cbn. unfold shl. rewrite wrap_small; [apply lor_shift_add; [lia|apply Hn]|].
    rewrite Z.shiftl_mul_pow2 by lia. unfold fits in *. lia. }
  assert (decode frame = Ok (media a seq ntp)) as Hd.
  { unfold decode, frame, encode. rewrite wire_decode_encode; cbn; try done.
    - by destruct a.
    - cbn in Hext. rewrite Hext. unfold fits in *. lia. }
  assert (peek_route frame = Some (address_route a)) as Hp.
  { apply (peek_route_encode (wire.mkEnvelope _ _ _ _)). done. }
  split_and!; [| |done|].
  - unfold decode_frame. rewrite Hd. unfold mbind, result_bind.
    change (env_ty (media a seq ntp)) with Media. cbv match beta.
    rewrite Hext. rewrite split_high by (lia || apply Hn).
    unfold wrap. rewrite split_low by (lia || apply Hn). fold (wrap 32 seq).
    by rewrite wrap_small.
  - unfold peek_type. by rewrite Hd.
  - unfold peek_shard. by rewrite Hp.
Qed.

Lemma media_frame_roundtrip_witness :
  decode_frame (encode (media (mkNodeRouteAddress (mkRouteId (mkPackedRoute 3145733)) 9) 77 5) ++ [8])
    = Ok (media (mkNodeRouteAddress (mkRouteId (mkPackedRoute 3145733)) 9) 77 5, MediaBody 77 5).
Proof. apply media_frame_roundtrip; ground. Defined.

(** Decoding never fails in any other way than the three the error type
    names, each exactly when it should: short buffer, wrong version, unknown
    type byte, in this order. *)
Theorem envelope_decode_errors buf :
  match decode buf with
  | Ok _ => (ENVELOPE_LEN <= length buf)%nat /\ buf !! 0%nat = Some ENVELOPE_VERSION /\
            exists t, (buf !! 1%nat) ≫= from_u8 = Some t
  | Err (Truncated n) => (length buf < ENVELOPE_LEN)%nat /\ n = Z.of_nat (length buf)
  | Err (UnsupportedVersion v) =>
      (ENVELOPE_LEN <= length buf)%nat /\ buf !! 0%nat = Some v /\ v <> ENVELOPE_VERSION
  | Err (UnknownType t) =>
      (ENVELOPE_LEN <= length buf)%nat /\ buf !! 0%nat = Some ENVELOPE_VERSION /\
      buf !! 1%nat = Some t /\ from_u8 t = None
  end.
Proof.
  destruct (decide (ENVELOPE_LEN <= length buf)%nat) as [Hlen|Hlen]; cycle 1.
  { unfold decode, wire.decode. rewrite decide_True by lia. cbn. lia. }
  destruct (header_split buf Hlen) as (v & t & eb & rb & xb & rest & -> & Le & Lr & Lx).
  unfold decode. rewrite wire_decode_fields by done.
  destruct (Z.eqb_spec v ENVELOPE_VERSION) as [->|Hv]; cbn; [|done].
  destruct (from_u8 t) as [kind|] eqn:Ht; cbn; eauto.
Qed.
