(* ===== verification/Clock.v ===== *)
(** * The NTP timeline

    Models [crates/pulsebeam/src/clock.rs]: 32.32 fixed-point NTP times, the
    conversions between nanoseconds and NTP units, the wall-clock anchor that
    bridges monotonic and wall time, and the expander that recovers full NTP
    times from the envelope's middle-32 field.

    [NtpTime] is a [u64]. A [SystemTime] is a signed number of nanoseconds
    relative to the Unix epoch, an [Instant] and a [Duration] are as in
    [Prelude]. The model is the release build. The [debug_assert!]s of [expand]
    are [expand_asserts]: when they hold is part of what is proved of a chain of
    expansions, and they do not always. The one of [frac_units] holds of every
    [subsec_nanos]; the one of [duration_to_units] bounds its argument, as the
    theorems that use it do. *)

From S2P Require Import Prelude.

Abbreviation NtpTime := Z.
Abbreviation SystemTime := Z.
Abbreviation Duration := Z.
Abbreviation Instant := Z.

Definition NTP_UNIX_OFFSET_SECS : Z := 2208988800.
Definition NTP_UNITS_PER_SEC : Z := Z.shiftl 1 32.
Definition MID_SHIFT : Z := 16.
Definition MAX_EXPANSION_GAP : Z := Z.shiftl 1 30.

Definition as_secs (d : Duration) : Z := d `div` NANOS_PER_SEC.
Definition subsec_nanos (d : Duration) : Z := d `mod` NANOS_PER_SEC.
(** [Duration::new] carries whole seconds out of [nanos]. *)
Definition duration_new (secs nanos : Z) : Duration := secs * NANOS_PER_SEC + nanos.

(** ** Fixed-point conversions *)

Definition frac_units (nanos : Z) : Z :=
  saturating_add 64 (shl 64 nanos 32) 500000000 `div` 1000000000.

Definition frac_nanos (raw : Z) : Z :=
  wrap 32 (Z.shiftr
    (saturating_add 64 (saturating_mul 64 (Z.land raw 0xFFFFFFFF) 1000000000) (Z.shiftl 1 31))
    32).

Definition duration_to_units (d : Duration) : Z :=
  saturating_add 64 (saturating_mul 64 (as_secs d) NTP_UNITS_PER_SEC)
                    (frac_units (subsec_nanos d)).

Definition units_to_duration (raw : Z) : Duration :=
  duration_new (Z.shiftr raw 32) (frac_nanos raw).

(** ** [NtpTime] *)

Definition from_system_time (t : SystemTime) : NtpTime :=
  let unix := Z.max 0 t in
  let secs := Z.land (wrapping_add 64 (as_secs unix) NTP_UNIX_OFFSET_SECS) 0xFFFFFFFF in
  Z.lor (shl 64 secs 32) (frac_units (subsec_nanos unix)).

(** [UNIX_EPOCH.checked_add] cannot leave [SystemTime]'s signed 64-bit seconds:
    the sum is below [2^32] seconds. *)
Definition to_system_time (t : NtpTime) : SystemTime :=
  let secs := saturating_sub (Z.shiftr t 32) NTP_UNIX_OFFSET_SECS in
  default 0 (instant_checked_add 0 (duration_new secs (frac_nanos t))).

Definition middle32 (t : NtpTime) : Z := wrap 32 (Z.shiftr t MID_SHIFT).

Definition units_since (t earlier : NtpTime) : Z := cast_signed 64 (wrapping_sub 64 t earlier).

Definition ntp_saturating_duration_since (t earlier : NtpTime) : Duration :=
  let units := units_since t earlier in
  if 0 <? units then units_to_duration (cast_unsigned 64 units) else 0.

Definition ntp_duration_since (t earlier : NtpTime) : result Duration Duration :=
  let units := units_since t earlier in
  if 0 <=? units then Ok (units_to_duration (cast_unsigned 64 units))
  else Err (units_to_duration (Z.abs units)).

Definition ntp_saturating_add (t : NtpTime) (d : Duration) : NtpTime :=
  saturating_add 64 t (duration_to_units d).
Definition ntp_saturating_sub (t : NtpTime) (d : Duration) : NtpTime :=
  saturating_sub t (duration_to_units d).
Definition ntp_checked_add (t : NtpTime) (d : Duration) : option NtpTime :=
  checked_add 64 t (duration_to_units d).
Definition ntp_checked_sub (t : NtpTime) (d : Duration) : option NtpTime :=
  checked_sub t (duration_to_units d).
Definition ntp_wrapping_add (t : NtpTime) (d : Duration) : NtpTime :=
  wrapping_add 64 t (duration_to_units d).
Definition ntp_wrapping_sub (t : NtpTime) (d : Duration) : NtpTime :=
  wrapping_sub 64 t (duration_to_units d).

(** Microseconds since 1900 without the era rollover, clamped to [u64]. *)
Definition full_ntp_micros (wall : SystemTime) : Z :=
  let ntp_epoch := - (NTP_UNIX_OFFSET_SECS * NANOS_PER_SEC) in
  let elapsed := Z.max 0 (wall - ntp_epoch) in
  Z.min (elapsed `div` 1000) (umax 64).

(** ** [WallAnchor] *)

Record ReceiveTime := mkReceiveTime { wall : SystemTime; monotonic : Instant }.
Record WallAnchor := mkWallAnchor { anchor_at : ReceiveTime }.

Definition anchor_new (w : SystemTime) (mono : Instant) : WallAnchor :=
  mkWallAnchor (mkReceiveTime w mono).

Definition observe_execution (a : WallAnchor) (at_ : ReceiveTime) : WallAnchor * ReceiveTime :=
  if monotonic at_ <? monotonic (anchor_at a) then (a, anchor_at a)
  else
    let at' := mkReceiveTime (Z.max (wall at_) (wall (anchor_at a))) (monotonic at_) in
    (mkWallAnchor at', at').

Definition ntp (a : WallAnchor) : NtpTime := from_system_time (wall (anchor_at a)).

Definition to_ntp (a : WallAnchor) (t : Instant) : NtpTime :=
  if monotonic (anchor_at a) <=? t then
    ntp_wrapping_add (ntp a) (saturating_duration_since t (monotonic (anchor_at a)))
  else
    ntp_wrapping_sub (ntp a) (saturating_duration_since (monotonic (anchor_at a)) t).

Definition to_instant (a : WallAnchor) (t : NtpTime) : Instant :=
  let units := units_since t (ntp a) in
  let mono := monotonic (anchor_at a) in
  if 0 <=? units then
    default mono (instant_checked_add mono (units_to_duration (cast_unsigned 64 units)))
  else
    default mono (instant_checked_sub mono (units_to_duration (Z.abs units))).

(** ** [NtpExpander] *)

Inductive ExpandError := Ambiguous (gap : Z).

Record NtpExpander := mkExpander { reference : NtpTime }.

Definition expander_new (r : NtpTime) : NtpExpander := mkExpander r.

Definition i64_saturating_add (a b : Z) : Z := Z.max (- 2 ^ 63) (Z.min (a + b) (2 ^ 63 - 1)).

Definition expand (x : NtpExpander) (mid : Z) : NtpExpander * result ExpandError NtpTime :=
  let gap := cast_signed 32 (wrapping_sub 32 mid (middle32 (reference x))) in
  if MAX_EXPANSION_GAP <=? Z.abs gap then (x, Err (Ambiguous gap))
  else
    let steps := i64_saturating_add (cast_signed 64 (Z.shiftr (reference x) MID_SHIFT)) gap in
    let expanded := shl 64 (cast_unsigned 64 steps) MID_SHIFT in
    (mkExpander expanded, Ok expanded).

(** The assertions of a debug build of [expand]: [false] is a panic. *)
Definition expand_asserts (x : NtpExpander) (mid : Z) : bool :=
  let gap := cast_signed 32 (wrapping_sub 32 mid (middle32 (reference x))) in
  if MAX_EXPANSION_GAP <=? Z.abs gap then true
  else
    let steps := i64_saturating_add (cast_signed 64 (Z.shiftr (reference x) MID_SHIFT)) gap in
    (0 <=? steps) && (middle32 (shl 64 (cast_unsigned 64 steps) MID_SHIFT) =? mid).

(** Expanding a sequence of middle-32 values, each against the previous
    result. *)
Fixpoint expand_all (x : NtpExpander) (mids : list Z) : result ExpandError (list NtpTime) :=
  match mids with
  | [] => Ok []
  | mid :: rest =>
      match expand x mid with
      | (x', Ok t) => ts ← expand_all x' rest; Ok (t :: ts)
      | (_, Err e) => Err e
      end
  end.

(** The assertions along the way. *)
Fixpoint asserts_all (x : NtpExpander) (mids : list Z) : bool :=
  match mids with
  | [] => true
  | mid :: rest => expand_asserts x mid && asserts_all (expand x mid).1 rest
  end.

(** The instant a middle-32 value stands for, at its [2^-16] s resolution. *)
Definition mid_floor (t : NtpTime) : NtpTime := t - t `mod` 2 ^ 16.

(** [t] is less than [2^46] NTP units (about 4.5 hours) from [r] on the modular
    timeline, at middle-32 resolution. *)
Definition within_window (r t : NtpTime) : Prop :=
  Z.abs (units_since (mid_floor t) (mid_floor r)) < 2 ^ 46.

(** Every time is within the window of the previous one. *)
Fixpoint chained (r : NtpTime) (ts : list NtpTime) : Prop :=
  match ts with
  | [] => True
  | t :: rest => fits 64 t /\ within_window r t /\ chained t rest
  end.

(** No step goes back across the era boundary: counted from the start of the
    era of the time before, no time is negative. *)
Fixpoint stays_in_era (r : NtpTime) (ts : list NtpTime) : Prop :=
  match ts with
  | [] => True
  | t :: rest => 0 <= mid_floor r + units_since (mid_floor t) (mid_floor r) /\ stays_in_era t rest
  end.

(** ** Conversion lemmas *)

Lemma frac_units_eq n :
  0 <= n < 1000000000 -> frac_units n = (n * 2 ^ 32 + 500000000) `div` 1000000000.
Proof.
  intros Hn. unfold frac_units, saturating_add, shl, umax.
  rewrite Z.shiftl_mul_pow2 by lia.
  rewrite wrap_small by (unfold fits; lia). rewrite Z.min_l by lia. done.
Qed.

Lemma frac_units_range n : 0 <= n < 1000000000 -> 0 <= frac_units n < 2 ^ 32.
Proof.
  intros Hn. rewrite frac_units_eq by done. split.
  - apply Z.div_pos; lia.
  - apply Z.div_lt_upper_bound; lia.
Qed.

Lemma frac_nanos_eq raw :
  0 <= raw ->
  frac_nanos raw = ((raw `mod` 2 ^ 32) * 1000000000 + 2 ^ 31) `div` 2 ^ 32.
Proof.
  intros Hr. unfold frac_nanos, saturating_add, saturating_mul, umax.
  change 0xFFFFFFFF with (2 ^ 32 - 1). rewrite land_ones_mod by lia.
  pose proof (Z.mod_pos_bound raw (2 ^ 32) ltac:(lia)) as Hm.
  change (Z.shiftl 1 31) with (2 ^ 31).
  rewrite (Z.min_l (_ * _)) by lia. rewrite Z.min_l by lia. rewrite Z.shiftr_div_pow2 by lia.
  apply wrap_small. unfold fits. split.
  - apply Z.div_pos; lia.
  - apply Z.div_lt_upper_bound; lia.
Qed.

(** Rounding to nearest in both directions is exact on nanoseconds. *)
Lemma frac_nanos_units n k :
  0 <= n < 1000000000 -> 0 <= k -> frac_nanos (k * 2 ^ 32 + frac_units n) = n.
Proof.
  intros Hn Hk. pose proof (frac_units_range n Hn).
  rewrite frac_nanos_eq by lia. rewrite split_low by lia. rewrite frac_units_eq by done.
  change (2 ^ 32) with 4294967296. change (2 ^ 31) with 2147483648.
  set (u := (n * 4294967296 + 500000000) `div` 1000000000).
  pose proof (Z.div_mod (n * 4294967296 + 500000000) 1000000000 ltac:(lia)) as Hdm.
  pose proof (Z.mod_pos_bound (n * 4294967296 + 500000000) 1000000000 ltac:(lia)) as Hmb.
  fold u in Hdm. symmetry. apply Z.div_unique with (u * 1000000000 + 2147483648 - n * 4294967296); lia.
Qed.

Lemma duration_split d : 0 <= d -> d = as_secs d * NANOS_PER_SEC + subsec_nanos d.
Proof. intros. unfold as_secs, subsec_nanos, NANOS_PER_SEC. dlia. Qed.

Lemma as_secs_nonneg d : 0 <= d -> 0 <= as_secs d.
Proof. intros. apply Z.div_pos; unfold NANOS_PER_SEC; lia. Qed.

Lemma subsec_nanos_range d : 0 <= subsec_nanos d < 1000000000.
Proof. unfold subsec_nanos, NANOS_PER_SEC. dlia. Qed.

Lemma duration_to_units_eq d :
  0 <= d -> as_secs d < 2 ^ 32 ->
  duration_to_units d = as_secs d * 2 ^ 32 + frac_units (subsec_nanos d).
Proof.
  intros Hd Hs. unfold duration_to_units, saturating_add, saturating_mul, umax.
  change NTP_UNITS_PER_SEC with (2 ^ 32).
  pose proof (frac_units_range _ (subsec_nanos_range d)).
  assert (0 <= as_secs d) by (apply as_secs_nonneg; lia).
  rewrite (Z.min_l (_ * _)) by lia. rewrite Z.min_l by lia. done.
Qed.

Lemma units_to_duration_to_units d :
  0 <= d -> as_secs d < 2 ^ 32 -> units_to_duration (duration_to_units d) = d.
Proof.
  intros Hd Hs. rewrite duration_to_units_eq by done. unfold units_to_duration, duration_new.
  assert (0 <= as_secs d) by (apply as_secs_nonneg; lia).
  rewrite split_high by (lia || apply frac_units_range, subsec_nanos_range).
  rewrite frac_nanos_units by (lia || apply subsec_nanos_range).
  symmetry. by apply duration_split.
Qed.

Lemma duration_to_units_small d :
  0 <= d -> as_secs d < 2 ^ 31 -> 0 <= duration_to_units d < 2 ^ 63.
Proof.
  intros Hd Hs. rewrite duration_to_units_eq by lia.
  pose proof (frac_units_range _ (subsec_nanos_range d)).
  assert (0 <= as_secs d) by (apply as_secs_nonneg; lia). lia.
Qed.

Lemma duration_to_units_pos d :
  0 < d -> as_secs d < 2 ^ 32 -> 0 < duration_to_units d.
Proof.
  intros Hd Hs. rewrite duration_to_units_eq by lia.
  pose proof (frac_units_range _ (subsec_nanos_range d)).
  assert (0 <= as_secs d) by (apply as_secs_nonneg; lia).
  destruct (decide (as_secs d = 0)) as [E|]; [|lia].
  rewrite E. rewrite frac_units_eq by apply subsec_nanos_range.
  assert (1 <= subsec_nanos d) by (unfold as_secs, subsec_nanos, NANOS_PER_SEC in *; dlia).
  pose proof (Z.div_le_lower_bound (subsec_nanos d * 2 ^ 32 + 500000000) 1000000000 1). lia.
Qed.

Lemma units_since_wrap_add t d :
  - 2 ^ 63 <= d < 2 ^ 63 -> units_since (wrap 64 (t + d)) t = d.
Proof.
  intros Hd. unfold units_since, wrapping_sub, wrap.
  rewrite Zminus_mod_idemp_l. replace (t + d - t) with d by lia.
  apply (cast_signed_wrap 64); lia.
Qed.

Lemma from_system_time_eq t :
  0 <= t -> as_secs t + NTP_UNIX_OFFSET_SECS < 2 ^ 64 ->
  from_system_time t =
    ((as_secs t + NTP_UNIX_OFFSET_SECS) `mod` 2 ^ 32) * 2 ^ 32 + frac_units (subsec_nanos t).
Proof.
  intros Ht Hs. unfold from_system_time, wrapping_add. rewrite Z.max_r by lia.
  assert (0 <= as_secs t) by (apply as_secs_nonneg; lia).
  rewrite wrap_small by (unfold fits, NTP_UNIX_OFFSET_SECS in *; lia).
  change 0xFFFFFFFF with (2 ^ 32 - 1). rewrite land_ones_mod by lia.
  pose proof (Z.mod_pos_bound (as_secs t + NTP_UNIX_OFFSET_SECS) (2 ^ 32) ltac:(lia)).
  unfold shl. rewrite wrap_small.
  - apply lor_shift_add; [lia|]. apply frac_units_range, subsec_nanos_range.
  - rewrite Z.shiftl_mul_pow2 by lia. unfold fits. lia.
Qed.

(** ** Expander lemmas *)

Lemma shiftr16_mod t : Z.shiftr t 16 = t `div` 2 ^ 16.
Proof. by rewrite Z.shiftr_div_pow2 by lia. Qed.

(** Within the window, expansion moves the reference by the signed distance
    between the middle-32 values, modulo the 64-bit timeline. *)
Lemma expansion_steps r d :
  fits 64 r -> Z.abs d < 2 ^ 30 ->
  let q := r `div` 2 ^ 16 in let s := (q + d) `mod` 2 ^ 48 in
  cast_signed 32 (wrapping_sub 32 (wrap 32 s) (middle32 r)) = d /\
  i64_saturating_add (cast_signed 64 (Z.shiftr r MID_SHIFT)) d = q + d /\
  shl 64 (cast_unsigned 64 (q + d)) MID_SHIFT = s * 2 ^ 16 /\ middle32 (s * 2 ^ 16) = wrap 32 s.
Proof.
  intros Hr Hd q s. unfold middle32, MID_SHIFT. rewrite !shiftr16_mod. fold q. unfold fits in Hr.
  assert (0 <= q < 2 ^ 48) as Hq.
  { unfold q. split; [apply Z.div_pos; lia|apply Z.div_lt_upper_bound; lia]. }
  assert (wrapping_sub 32 (wrap 32 s) (wrap 32 q) = wrap 32 d) as ->.
  { unfold wrapping_sub, wrap. rewrite <- Zminus_mod. unfold s.
    change (2 ^ 48) with (2 ^ 32 * 2 ^ 16).
    rewrite Z.rem_mul_r by lia.
    replace ((q + d) `mod` 2 ^ 32 + 2 ^ 32 * (((q + d) `div` 2 ^ 32) `mod` 2 ^ 16) - q)
      with ((q + d) `mod` 2 ^ 32 - q + (((q + d) `div` 2 ^ 32) `mod` 2 ^ 16) * 2 ^ 32) by lia.
    rewrite Z.mod_add by lia. rewrite Zminus_mod_idemp_l. f_equal. lia. }
  rewrite cast_signed_wrap by lia.
  assert (cast_signed 64 q = q) as -> by (unfold cast_signed; case_ifs; lia).
  split_and!; [done|unfold i64_saturating_add; lia| |by rewrite Z.div_mul by lia].
  unfold shl, cast_unsigned, wrap. rewrite Z.shiftl_mul_pow2 by lia.
  rewrite Zmult_mod_idemp_l. change (2 ^ 64) with (2 ^ 48 * 2 ^ 16).
  rewrite Zmult_mod_distr_r. done.
Qed.

Lemma expand_step r d :
  fits 64 r -> Z.abs d < 2 ^ 30 ->
  let s := (r `div` 2 ^ 16 + d) `mod` 2 ^ 48 in
  expand (mkExpander r) (wrap 32 s) = (mkExpander (s * 2 ^ 16), Ok (s * 2 ^ 16)) /\
  expand_asserts (mkExpander r) (wrap 32 s) = (0 <=? r `div` 2 ^ 16 + d).
Proof.
  intros Hr Hd s. destruct (expansion_steps r d Hr Hd) as (E1 & E2 & E3 & E4). unfold expand, expand_asserts. cbn [reference].
  fold s in E1, E3, E4. rewrite E1, E2, E3, E4. change MAX_EXPANSION_GAP with (2 ^ 30).
  destruct (Z.leb_spec (2 ^ 30) (Z.abs d)); [lia|]. by rewrite Z.eqb_refl, andb_true_r.
Qed.

Lemma expand_ok_mid x mid x' t :
  fits 64 (reference x) -> fits 32 mid -> expand x mid = (x', Ok t) ->
  middle32 t = mid /\ x' = mkExpander t /\ fits 64 t.
Proof.
  intros Hr Hm. destruct x as [r]. cbn [reference] in Hr. unfold expand. cbn [reference].
  set (gap := cast_signed 32 _). destruct (MAX_EXPANSION_GAP <=? Z.abs gap) eqn:Hg; [done|].
  change MAX_EXPANSION_GAP with (2 ^ 30) in Hg.
  destruct (expand_step r gap Hr ltac:(lia)) as [He _].
  set (s := (r `div` 2 ^ 16 + gap) `mod` 2 ^ 48) in He.
  assert (0 <= s < 2 ^ 48) as Hs by (apply Z.mod_pos_bound; lia).
  assert (wrap 32 s = mid) as Hsm.
  { unfold s, wrap. change (2 ^ 48) with (2 ^ 32 * 2 ^ 16). rewrite Z.rem_mul_r by lia.
    rewrite Z.mul_comm, Z.mod_add, Z.mod_mod by lia.
    assert (wrap 32 gap = wrap 32 (mid - middle32 r)) as Hgap.
    { unfold gap. rewrite cast_signed_mod; [done|lia|]. apply wrap_fits; lia. }
    unfold wrap in Hgap. rewrite <- Zplus_mod_idemp_r, Hgap, Zplus_mod_idemp_r.
    unfold middle32, wrap, MID_SHIFT. rewrite shiftr16_mod. set (q := r `div` 2 ^ 16).
    pose proof (Z.div_mod q (2 ^ 32) ltac:(lia)) as Hq.
    replace (q + (mid - q `mod` 2 ^ 32)) with (mid + q `div` 2 ^ 32 * 2 ^ 32) by lia.
    rewrite Z.mod_add by lia. apply Z.mod_small, Hm. }
  unfold expand in He. cbn [reference] in He. rewrite Hsm in He. fold gap in He.
  change MAX_EXPANSION_GAP with (2 ^ 30) in He. rewrite Hg in He. inv He.
  intros Heq. inv Heq. rewrite H0. split_and!.
  - unfold middle32, MID_SHIFT. rewrite shiftr16_mod, Z.div_mul by lia. done.
  - done.
  - unfold fits. lia.
Qed.

Lemma mid_floor_eq t : mid_floor t = (t `div` 2 ^ 16) * 2 ^ 16.
Proof. unfold mid_floor. pose proof (Z.div_mod t (2 ^ 16)). lia. Qed.

Lemma mid_floor_idem t : mid_floor (mid_floor t) = mid_floor t.
Proof. rewrite !mid_floor_eq, Z.div_mul by lia. done. Qed.

Lemma within_window_steps r t :
  fits 64 r -> fits 64 t -> within_window r t ->
  exists d, Z.abs d < 2 ^ 30 /\ (r `div` 2 ^ 16 + d) `mod` 2 ^ 48 = t `div` 2 ^ 16 /\
    units_since (mid_floor t) (mid_floor r) = d * 2 ^ 16.
Proof.
  intros Hr Ht Hw. unfold within_window, units_since, wrapping_sub in *.
  rewrite !mid_floor_eq in *. unfold fits in *.
  set (qr := r `div` 2 ^ 16) in *. set (qt := t `div` 2 ^ 16) in *.
  assert (0 <= qr < 2 ^ 48) as Hqr
    by (unfold qr; split; [apply Z.div_pos; lia|apply Z.div_lt_upper_bound; lia]).
  assert (0 <= qt < 2 ^ 48) as Hqt
    by (unfold qt; split; [apply Z.div_pos; lia|apply Z.div_lt_upper_bound; lia]).
  rewrite <- Z.mul_sub_distr_r in *. unfold wrap in *.
  change (2 ^ 64) with (2 ^ 48 * 2 ^ 16) in *. rewrite Zmult_mod_distr_r in *.
  exists (cast_signed 48 (wrap 48 (qt - qr))).
  assert (cast_signed 64 ((qt - qr) `mod` 2 ^ 48 * 2 ^ 16) = cast_signed 48 (wrap 48 (qt - qr)) * 2 ^ 16) as Hc.
  { unfold cast_signed, wrap. change (2 ^ (64 - 1)) with (2 ^ 47 * 2 ^ 16).
    change (2 ^ 64) with (2 ^ 48 * 2 ^ 16). change (2 ^ (48 - 1)) with (2 ^ 47). case_ifs; lia. }
  rewrite Hc in Hw. split_and!; [lia| |done].
  assert (cast_signed 48 (wrap 48 (qt - qr)) `mod` 2 ^ 48 = (qt - qr) `mod` 2 ^ 48) as E.
  { apply (cast_signed_mod 48); [lia|apply wrap_fits; lia]. }
  rewrite <- Zplus_mod_idemp_r, E, Zplus_mod_idemp_r.
  replace (qr + (qt - qr)) with qt by lia. apply Z.mod_small. lia.
Qed.

Lemma expand_within r t :
  fits 64 r -> fits 64 t -> within_window r t ->
  expand (mkExpander r) (middle32 t) = (mkExpander (mid_floor t), Ok (mid_floor t)) /\
  (expand_asserts (mkExpander r) (middle32 t) = true <-> 0 <= mid_floor r + units_since (mid_floor t) (mid_floor r)).
Proof.
  intros Hr Ht Hw. destruct (within_window_steps r t Hr Ht Hw) as (d & Hd & E & Eu).
  destruct (expand_step r d Hr Hd) as [He Ha]. rewrite E in He, Ha.
  unfold middle32, MID_SHIFT. rewrite shiftr16_mod, He, Ha, Eu, !mid_floor_eq. split; [done|]. rewrite Z.leb_le. lia.
Qed.

Lemma mid_floor_fits t : fits 64 t -> fits 64 (mid_floor t).
Proof. unfold fits, mid_floor. pose proof (Z.mod_pos_bound t (2 ^ 16)). pose proof (Z.mod_le t (2 ^ 16)). lia. Qed.

Lemma within_window_floor r t : within_window (mid_floor r) t <-> within_window r t.
Proof. unfold within_window. by rewrite mid_floor_idem. Qed.

(** ** Properties *)

(** Shifting an NTP time by a duration of less than half an era and
    measuring the distance gives back exactly that duration, to the
    nanosecond and across the era boundary; shifting back reports it as the
    error magnitude. *)
Theorem ntp_shift_measured_exactly t d :
  fits 64 t -> 0 <= d -> as_secs d < 2 ^ 31 ->
  ntp_duration_since (ntp_wrapping_add t d) t = Ok d /\
  (0 < d -> ntp_duration_since (ntp_wrapping_sub t d) t = Err d).
Proof.
  intros Ht Hd Hs. pose proof (duration_to_units_small d Hd Hs) as Hu.
  unfold ntp_duration_since, ntp_wrapping_add, ntp_wrapping_sub, wrapping_add, wrapping_sub. split.
  - rewrite units_since_wrap_add by lia. destruct (Z.leb_spec 0 (duration_to_units d)); [|lia].
    unfold cast_unsigned. rewrite wrap_small by (unfold fits; lia).
    by rewrite units_to_duration_to_units by lia.
  - intros Hpos. pose proof (duration_to_units_pos d Hpos ltac:(lia)).
    rewrite <- Z.add_opp_r, units_since_wrap_add by lia.
    destruct (Z.leb_spec 0 (- duration_to_units d)); [lia|].
    rewrite Z.abs_opp, Z.abs_eq by lia. by rewrite units_to_duration_to_units by lia.
Qed.

Lemma ntp_shift_measured_exactly_witness :
  ntp_duration_since (ntp_wrapping_add (2 ^ 64 - 5) 1234567891) (2 ^ 64 - 5) = Ok 1234567891.
Proof. apply ntp_shift_measured_exactly; ground. Defined.

(** A host time of the current NTP era survives the conversion to NTP and
    back to the nanosecond. *)
Theorem system_time_roundtrip t :
  0 <= t -> as_secs t + NTP_UNIX_OFFSET_SECS < 2 ^ 32 ->
  to_system_time (from_system_time t) = t /\ fits 64 (from_system_time t).
Proof.
  intros Ht Hs. rewrite from_system_time_eq by lia. pose proof (as_secs_nonneg t Ht).
  unfold NTP_UNIX_OFFSET_SECS in *.
  rewrite Z.mod_small by lia. pose proof (frac_units_range _ (subsec_nanos_range t)).
  split; [|unfold fits; lia].
  unfold to_system_time. rewrite split_high, frac_nanos_units by (lia || apply subsec_nanos_range).
  unfold saturating_sub, NTP_UNIX_OFFSET_SECS.
  replace (Z.max 0 (as_secs t + 2208988800 - 2208988800)) with (as_secs t) by lia.
  unfold duration_new. rewrite <- duration_split by done.
  unfold instant_checked_add, INSTANT_MAX. rewrite Z.add_0_l.
  destruct (Z.leb_spec t (2 ^ 63 * NANOS_PER_SEC - 1)); [done|].
  exfalso. unfold as_secs, NANOS_PER_SEC in *. dlia.
Qed.

Lemma system_time_roundtrip_witness :
  to_system_time (from_system_time 1700000000123456789) = 1700000000123456789.
Proof. apply system_time_roundtrip; ground. Defined.

(** The wall anchor is a bridge without drift: any local instant within
    half an era of the anchor is recovered exactly from its NTP image. *)
Theorem wall_anchor_roundtrip a t :
  let mono := monotonic (anchor_at a) in
  INSTANT_MIN <= t <= INSTANT_MAX ->
  as_secs (Z.abs (t - mono)) < 2 ^ 31 ->
  to_instant a (to_ntp a t) = t.
Proof.
  intros mono Hrange Hs. unfold to_ntp, to_instant. fold mono.
  unfold saturating_duration_since, ntp_wrapping_add, ntp_wrapping_sub, wrapping_add, wrapping_sub.
  destruct (Z.leb_spec mono t) as [Hle|Hlt].
  - rewrite Z.max_r by lia. rewrite Z.abs_eq in Hs by lia.
    pose proof (duration_to_units_small (t - mono) ltac:(lia) Hs).
    rewrite units_since_wrap_add by lia.
    destruct (Z.leb_spec 0 (duration_to_units (t - mono))); [|lia].
    unfold cast_unsigned. rewrite wrap_small by (unfold fits; lia).
    rewrite units_to_duration_to_units by lia. unfold instant_checked_add.
    destruct (Z.leb_spec (mono + (t - mono)) INSTANT_MAX); cbn; lia.
  - rewrite Z.max_r by lia. rewrite Z.abs_neq in Hs by lia.
    replace (- (t - mono)) with (mono - t) in Hs by lia.
    pose proof (duration_to_units_small (mono - t) ltac:(lia) Hs).
    pose proof (duration_to_units_pos (mono - t) ltac:(lia) ltac:(lia)).
    rewrite <- Z.add_opp_r, units_since_wrap_add by lia.
    destruct (Z.leb_spec 0 (- duration_to_units (mono - t))); [lia|].
    rewrite Z.abs_opp, Z.abs_eq, units_to_duration_to_units by lia.
    unfold instant_checked_sub.
    destruct (Z.ltb_spec (mono - (mono - t)) INSTANT_MIN); cbn; lia.
Qed.

Lemma wall_anchor_roundtrip_witness :
  let a := anchor_new 1700000000123456789 5000000000 in
  to_instant a (to_ntp a 4999999998) = 4999999998.
Proof. apply wall_anchor_roundtrip; ground. Defined.

(** Execution samples never regress: each observation leaves both clocks
    of the anchor at or after where they were, returns the anchor's sample,
    and follows the host's wall clock whenever it did not step back. *)
Theorem observe_execution_monotone a s :
  let '(a', out) := observe_execution a s in
  wall (anchor_at a) <= wall (anchor_at a') /\
  monotonic (anchor_at a) <= monotonic (anchor_at a') /\
  out = anchor_at a' /\
  (monotonic (anchor_at a) <= monotonic s -> wall (anchor_at a) <= wall s -> anchor_at a' = s).
Proof.
  unfold observe_execution. destruct (Z.ltb_spec (monotonic s) (monotonic (anchor_at a))); cbn.
  - split_and!; try done. lia.
  - split_and!; try done; [lia|]. intros _ Hw. destruct s. cbn in *. by rewrite Z.max_l by lia.
Qed.

(** C33. Chained expansion: from a full reference, the middle-32 values of any
    sequence of times, each less than [2^30] steps (about 4.5 hours) from the
    one before, are recovered to their [2^-16] s resolution, however far the
    sequence drifts in total and across the era boundary. In a build with debug
    assertions the chain gets through exactly when no step goes back across an
    era boundary: a step back over it is recovered too, but panics on the
    assertion that the number of steps is not negative. *)
Theorem expander_chain_recovers r ts :
  fits 64 r -> chained r ts ->
  expand_all (mkExpander r) (map middle32 ts) = Ok (map mid_floor ts) /\
  (asserts_all (mkExpander r) (map middle32 ts) = true <-> stays_in_era r ts).
Proof.
  revert r. induction ts as [|t ts IH]; intros r Hr Hc; [done|].
  destruct Hc as (Ht & Hw & Hc). cbn [map expand_all asserts_all stays_in_era].
  destruct (expand_within r t Hr Ht Hw) as [-> Ha]. cbn [fst].
  destruct (IH (mid_floor t)) as [-> IHa]; [by apply mid_floor_fits| |].
  - destruct ts as [|t' ts]; [done|]. destruct Hc as (? & ? & ?).
    split_and!; [done|by apply within_window_floor|done].
  - split; [done|]. rewrite andb_true_iff, Ha, IHa. destruct ts as [|t' ts]; [done|]. cbn [stays_in_era]. by rewrite mid_floor_idem.
Qed.

(** On the way over the era boundary and back: the way back is where the
    assertion fails. *)
Lemma expander_chain_recovers_witness :
  expand_all (mkExpander (2 ^ 64 - 1)) (map middle32 [70000; 2 ^ 64 - 3]) = Ok (map mid_floor [70000; 2 ^ 64 - 3]) /\
  asserts_all (mkExpander (2 ^ 64 - 1)) (map middle32 [70000]) = true /\
  asserts_all (mkExpander (2 ^ 64 - 1)) (map middle32 [70000; 2 ^ 64 - 3]) = false.
Proof.
  destruct (expander_chain_recovers (2 ^ 64 - 1) [70000; 2 ^ 64 - 3]) as [H1 H2]; [ground|ground|].
  destruct (expander_chain_recovers (2 ^ 64 - 1) [70000]) as [_ H3]; [ground|ground|].
  split_and!; [exact H1|apply H3; ground|]. apply not_true_is_false. intros [_ [H _]]%H2. vm_compute in H. by apply H.
Defined.

(** A single expansion either preserves the transmitted middle-32 value
    and moves the reference to the result, or refuses without touching the
    reference, and it refuses exactly when the signed gap is [2^30] steps or
    more. *)
Theorem expand_preserves_or_refuses x mid :
  fits 64 (reference x) -> fits 32 mid ->
  let gap := cast_signed 32 (wrapping_sub 32 mid (middle32 (reference x))) in
  match expand x mid with
  | (x', Ok t) => Z.abs gap < 2 ^ 30 /\ middle32 t = mid /\ reference x' = t /\ fits 64 t
  | (x', Err (Ambiguous g)) => 2 ^ 30 <= Z.abs gap /\ g = gap /\ x' = x
  end.
Proof.
  intros Hr Hm gap. destruct (expand x mid) as [x' [t|[g]]] eqn:E.
  - destruct (expand_ok_mid x mid x' t Hr Hm E) as (? & -> & ?).
    split_and!; try done. unfold expand in E. fold gap in E.
    change MAX_EXPANSION_GAP with (2 ^ 30) in E. destruct (Z.leb_spec (2 ^ 30) (Z.abs gap)); [done|lia].
  - unfold expand in E. fold gap in E. change MAX_EXPANSION_GAP with (2 ^ 30) in E.
    destruct (Z.leb_spec (2 ^ 30) (Z.abs gap)); by inv E.
Qed.

Lemma expand_preserves_or_refuses_witness :
  fst (expand (mkExpander 0) (2 ^ 30)) = mkExpander 0 /\ 2 ^ 30 <= 2 ^ 30.
Proof.
  pose proof (expand_preserves_or_refuses (mkExpander 0) (2 ^ 30) ltac:(ground) ltac:(ground)) as H.
  cbn zeta in H. split; [|lia]. destruct (expand _ _) as [x' [t|[g]]]; [|by destruct H as (_ & _ & ->)].
  exfalso. destruct H as [H _]. vm_compute in H. discriminate.
Defined.
