(* ===== verification/SlotAlloc.v ===== *)
(** * Slot allocation with quarantine and epochs

    Models [SlotAllocator] of [crates/pulsebeam/src/route.rs]: dense slots, a
    16-bit epoch per slot, and a FIFO quarantine that keeps a retired slot out
    of circulation for [ROUTE_QUARANTINE]. A failed [assert!] or [expect]
    panics and is [None].

    The step relation [alloc_step] runs the two operations under a clock that
    does not go back, and the theorems are about every run from an empty
    allocator. *)

From S2P Require Import Prelude Route.

(** [Duration::from_secs(2)] in nanoseconds. *)
Definition ROUTE_QUARANTINE : Z := 2 * NANOS_PER_SEC.

Record SlotAllocator := mkSlotAllocator {
  shard_id : ShardId;
  epochs : list Z;
  quarantine : list (Z * Z);
  quarantined : list bool;
  max_slots : Z
}.

Definition with_max_slots (shard : ShardId) (max : Z) : SlotAllocator :=
  {| shard_id := shard; epochs := []; quarantine := []; quarantined := []; max_slots := max |}.

(** The fresh-slot branch, and the whole operation: a quarantined slot is only
    taken from the front of the queue, once its two seconds are over. *)
Definition allocate_fresh (a : SlotAllocator) : option (SlotAllocator * (Z * Z)) :=
  let len := Z.of_nat (length (epochs a)) in
  let slot := if len <=? umax 32 then len else umax 32 in
  if (slot <? max_slots a) && (slot <=? PackedRoute.MAX_SLOT) then
    Some ({| shard_id := shard_id a;
             epochs := epochs a ++ [0];
             quarantine := quarantine a;
             quarantined := quarantined a ++ [false];
             max_slots := max_slots a |}, (slot, 0))
  else None.

Definition allocate_inner (a : SlotAllocator) (now : Z) : option (SlotAllocator * (Z * Z)) :=
  match quarantine a with
  | (slot, retired_at) :: rest =>
      if ROUTE_QUARANTINE <=? saturating_duration_since now retired_at then
        _ ← quarantined a !! Z.to_nat slot;
        epoch ← epochs a !! Z.to_nat slot;
        let epoch' := wrapping_add 16 epoch 1 in
        Some ({| shard_id := shard_id a;
                 epochs := <[Z.to_nat slot := epoch']> (epochs a);
                 quarantine := rest;
                 quarantined := <[Z.to_nat slot := false]> (quarantined a);
                 max_slots := max_slots a |}, (slot, epoch'))
      else allocate_fresh a
  | [] => allocate_fresh a
  end.

Definition allocate (a : SlotAllocator) (now : Z) := allocate_inner a now.
Definition allocate_transport (a : SlotAllocator) (now : Z) := allocate_inner a now.

(** A slot that is already quarantined, or outside the namespace, is refused. *)
Definition retire (a : SlotAllocator) (slot now : Z) : SlotAllocator :=
  match quarantined a !! Z.to_nat slot with
  | Some false =>
      {| shard_id := shard_id a;
         epochs := epochs a;
         quarantine := quarantine a ++ [(slot, now)];
         quarantined := <[Z.to_nat slot := true]> (quarantined a);
         max_slots := max_slots a |}
  | Some true => a
  | None => a
  end.

(** ** Well-formedness *)

Definition in_quarantine (a : SlotAllocator) (slot : Z) : Prop := slot ∈ (quarantine a).*1.

(** A slot is live when it was handed out and not retired since. *)
Definition live (a : SlotAllocator) (slot : Z) : Prop :=
  0 <= slot /\ quarantined a !! Z.to_nat slot = Some false.

Record alloc_wf (a : SlotAllocator) : Prop := mk_alloc_wf {
  wf_lengths : length (epochs a) = length (quarantined a);
  wf_bound : Z.of_nat (length (epochs a)) <= Z.min (max_slots a) (PackedRoute.MAX_SLOT + 1);
  wf_max : fits 32 (max_slots a);
  wf_epochs : Forall (fits 16) (epochs a);
  wf_nodup : NoDup (quarantine a).*1;
  wf_flag : forall slot, in_quarantine a slot <->
              0 <= slot /\ quarantined a !! Z.to_nat slot = Some true
}.

(** ** Runs *)

Inductive alloc_event :=
| Allocated (slot epoch at_ : Z)
| Retired (slot at_ : Z).

Definition event_time (e : alloc_event) : Z :=
  match e with Allocated _ _ t => t | Retired _ t => t end.

(** The owner of a slot retires it with its own slot number. *)
Inductive alloc_step : SlotAllocator -> alloc_event -> SlotAllocator -> Prop :=
| step_allocate a a' slot epoch now :
    allocate a now = Some (a', (slot, epoch)) -> alloc_step a (Allocated slot epoch now) a'
| step_retire a slot now :
    0 <= slot -> alloc_step a (Retired slot now) (retire a slot now).

(** A run whose event times start at [t] and never decrease. *)
Inductive alloc_run : Z -> SlotAllocator -> list alloc_event -> SlotAllocator -> Prop :=
| run_nil t a : alloc_run t a [] a
| run_cons t a e a' es a'' :
    t <= event_time e -> alloc_step a e a' -> alloc_run (event_time e) a' es a'' ->
    alloc_run t a (e :: es) a''.

(** ** Lemmas *)

Lemma with_max_slots_wf shard max : fits 32 max -> alloc_wf (with_max_slots shard max).
Proof.
  intros Hm. constructor; cbn; try done.
  - unfold fits in Hm. change PackedRoute.MAX_SLOT with 1048575. lia.
  - constructor.
  - unfold in_quarantine. cbn. intros slot. split; [intros H; inv H|].
    intros [_ H]. by rewrite lookup_nil in H.
Qed.

Lemma wf_in_quarantine_lookup a slot :
  alloc_wf a -> in_quarantine a slot ->
  0 <= slot /\ (Z.to_nat slot < length (epochs a))%nat /\
  exists e, epochs a !! Z.to_nat slot = Some e /\ fits 16 e.
Proof.
  intros Hwf Hq. apply (wf_flag a Hwf) in Hq as [H0 Hl].
  assert (Z.to_nat slot < length (epochs a))%nat as Hlt.
  { rewrite (wf_lengths a Hwf). by eapply lookup_lt_Some. }
  split_and!; try done. destruct (lookup_lt_is_Some_2 _ _ Hlt) as [e He].
  exists e. split; [done|]. eapply Forall_lookup_1; [apply (wf_epochs a Hwf)|done].
Qed.

Lemma allocate_fresh_spec a a' slot epoch :
  alloc_wf a -> allocate_fresh a = Some (a', (slot, epoch)) ->
  slot = Z.of_nat (length (epochs a)) /\ epoch = 0 /\ slot < max_slots a /\
  slot <= PackedRoute.MAX_SLOT /\
  a' = mkSlotAllocator (shard_id a) (epochs a ++ [0]) (quarantine a)
         (quarantined a ++ [false]) (max_slots a).
Proof.
  intros Hwf. unfold allocate_fresh.
  pose proof (wf_bound a Hwf) as Hb. change PackedRoute.MAX_SLOT with 1048575 in *.
  destruct (Z.leb_spec (Z.of_nat (length (epochs a))) (umax 32)); [|unfold umax in *; lia].
  destruct (_ && _) eqn:E; [|done]. intros H'; inv H'.
  apply andb_true_iff in E as [E1 E2]. split_and!; try done; lia.
Qed.

Lemma allocate_fresh_wf a a' r :
  alloc_wf a -> allocate_fresh a = Some (a', r) -> alloc_wf a'.
Proof.
  intros Hwf Ha. destruct r as [slot epoch].
  destruct (allocate_fresh_spec _ _ _ _ Hwf Ha) as (-> & -> & Hlt & Hle & ->).
  constructor; cbn.
  - rewrite !length_app, (wf_lengths a Hwf). done.
  - rewrite length_app. cbn. lia.
  - apply wf_max, Hwf.
  - apply Forall_app. split; [apply wf_epochs, Hwf|]. repeat constructor; done.
  - apply wf_nodup, Hwf.
  - intros slot. change (in_quarantine a slot <-> 0 <= slot /\
      (quarantined a ++ [false]) !! Z.to_nat slot = Some true).
    rewrite (wf_flag a Hwf). split; intros [H0 H1]; (split; [done|]).
    + by apply lookup_app_l_Some.
    + apply lookup_app_Some in H1 as [H1|[_ H1]]; [done|].
      apply list_lookup_singleton_Some in H1 as [_ H1]. done.
Qed.

(** The reuse branch: what is taken, from where, and the state after it. *)
Lemma allocate_reuse_spec a slot r rest now :
  alloc_wf a -> quarantine a = (slot, r) :: rest -> ROUTE_QUARANTINE <= now - r ->
  exists e, epochs a !! Z.to_nat slot = Some e /\ fits 16 e /\
    allocate a now =
      Some (mkSlotAllocator (shard_id a) (<[Z.to_nat slot := wrapping_add 16 e 1]> (epochs a)) rest
              (<[Z.to_nat slot := false]> (quarantined a)) (max_slots a),
            (slot, wrapping_add 16 e 1)).
Proof.
  intros Hwf Hq Hold. assert (in_quarantine a slot) as Hin.
  { unfold in_quarantine. rewrite Hq. cbn. left. }
  destruct (wf_in_quarantine_lookup _ _ Hwf Hin) as (H0 & Hlt & e & He & Hfe).
  exists e. split_and!; try done. apply (wf_flag a Hwf) in Hin as [_ Hfl].
  unfold allocate, allocate_inner. rewrite Hq, Hfl, He. unfold saturating_duration_since.
  unfold ROUTE_QUARANTINE, NANOS_PER_SEC in *.
  destruct (Z.leb_spec (2 * 1000000000) (Z.max 0 (now - r))); [done|lia].
Qed.

Lemma allocate_cases a now res :
  allocate a now = Some res ->
  (exists slot r rest, quarantine a = (slot, r) :: rest /\ ROUTE_QUARANTINE <= now - r) \/
  allocate_fresh a = Some res.
Proof.
  unfold allocate, allocate_inner. destruct (quarantine a) as [|[slot r] rest]; [by right|].
  destruct (Z.leb_spec ROUTE_QUARANTINE (saturating_duration_since now r)) as [H|H]; [|by right].
  intros _. left. exists slot, r, rest. split; [done|].
  unfold saturating_duration_since, ROUTE_QUARANTINE, NANOS_PER_SEC in *. lia.
Qed.

Lemma reuse_wf a slot r rest e :
  alloc_wf a -> quarantine a = (slot, r) :: rest -> fits 16 e ->
  alloc_wf (mkSlotAllocator (shard_id a) (<[Z.to_nat slot := wrapping_add 16 e 1]> (epochs a)) rest
              (<[Z.to_nat slot := false]> (quarantined a)) (max_slots a)).
Proof.
  intros Hwf Hq He. assert (in_quarantine a slot) as Hin.
  { unfold in_quarantine. rewrite Hq. cbn. left. }
  destruct (wf_in_quarantine_lookup _ _ Hwf Hin) as (H0 & Hlt & _).
  pose proof (wf_nodup a Hwf) as Hnd. rewrite Hq in Hnd. cbn in Hnd. apply NoDup_cons in Hnd as [Hni Hnd].
  constructor; cbn.
  - rewrite !length_insert. apply wf_lengths, Hwf.
  - rewrite length_insert. apply wf_bound, Hwf.
  - apply wf_max, Hwf.
  - apply Forall_insert; [apply wf_epochs, Hwf|]. apply wrap_fits. lia.
  - done.
  - intros s. unfold in_quarantine. cbn.
    pose proof (wf_flag a Hwf s) as Hf. unfold in_quarantine in Hf. rewrite Hq in Hf. cbn in Hf.
    rewrite elem_of_cons in Hf.
    rewrite list_lookup_insert_dec by (rewrite <- (wf_lengths a Hwf); done).
    case_decide as Heq.
    + split; [|intros [_ H']; done]. intros Hs. exfalso. apply Hni.
      assert (0 <= s) by (apply Hf; by right). replace slot with s by lia. done.
    + rewrite <- Hf. split; [by right|]. intros [->|?]; done.
Qed.

Lemma allocate_wf a now a' r : alloc_wf a -> allocate a now = Some (a', r) -> alloc_wf a'.
Proof.
  intros Hwf Ha. destruct (allocate_cases _ _ _ Ha) as [(slot & rt & rest & Hq & Hold)|Hf].
  - destruct (allocate_reuse_spec _ _ _ _ _ Hwf Hq Hold) as (e & _ & He & Ha').
    rewrite Ha' in Ha. inv Ha. by eapply reuse_wf.
  - by eapply allocate_fresh_wf.
Qed.

Lemma retire_wf a slot now : alloc_wf a -> 0 <= slot -> alloc_wf (retire a slot now).
Proof.
  intros Hwf H0. unfold retire. destruct (quarantined a !! Z.to_nat slot) as [[|]|] eqn:Hl; try done.
  assert (~ in_quarantine a slot) as Hni.
  { intros Hin. apply (wf_flag a Hwf) in Hin as [_ Hin]. congruence. }
  pose proof (lookup_lt_Some _ _ _ Hl) as Hlt.
  constructor; cbn.
  - rewrite length_insert. apply wf_lengths, Hwf.
  - apply wf_bound, Hwf.
  - apply wf_max, Hwf.
  - apply wf_epochs, Hwf.
  - rewrite fmap_app. apply NoDup_snoc; [apply wf_nodup, Hwf|done].
  - intros s. unfold in_quarantine. cbn. rewrite fmap_app, elem_of_app. cbn.
    rewrite list_elem_of_singleton. pose proof (wf_flag a Hwf s) as Hf. unfold in_quarantine in Hf.
    rewrite Hf. rewrite list_lookup_insert_dec by done. case_decide as Heq.
    + split; [|intros [? _]; right; lia]. intros [[? _]| ->]; done.
    + split; [intros [?| ->]; done|by left].
Qed.

Lemma alloc_step_wf a e a' : alloc_wf a -> alloc_step a e a' -> alloc_wf a'.
Proof.
  intros Hwf Hs. inv Hs; [by eapply allocate_wf|by apply retire_wf].
Qed.

#[export] Hint Resolve with_max_slots_wf allocate_wf retire_wf alloc_step_wf : rust.

(** ** Epoch reuse

    [tenure a s e0 t0 k now]: since slot [s] was handed out with epoch [e0] at
    [t0], it has been handed out [k] more times, the last time at most [now]. *)
Definition tenure (a : SlotAllocator) (s : Z) (e0 t0 k now : Z) : Prop :=
  epochs a !! Z.to_nat s = Some (wrap 16 (e0 + k)) /\
  exists t_k, t0 + k * ROUTE_QUARANTINE <= t_k /\ t_k <= now /\
    forall r, (s, r) ∈ quarantine a -> t_k <= r.

Lemma wrap_succ w x k : wrapping_add w (wrap w (x + k)) 1 = wrap w (x + (k + 1)).
Proof. unfold wrapping_add, wrap. rewrite Zplus_mod_idemp_l. f_equal. lia. Qed.

Lemma tenure_reuse a s e0 t0 k now slot r rest now' e :
  alloc_wf a -> 0 <= s -> tenure a s e0 t0 k now -> now <= now' ->
  quarantine a = (slot, r) :: rest -> ROUTE_QUARANTINE <= now' - r ->
  epochs a !! Z.to_nat slot = Some e ->
  let a' := mkSlotAllocator (shard_id a) (<[Z.to_nat slot := wrapping_add 16 e 1]> (epochs a)) rest
              (<[Z.to_nat slot := false]> (quarantined a)) (max_slots a) in
  (slot <> s /\ tenure a' s e0 t0 k now') \/
  (slot = s /\ wrapping_add 16 e 1 = wrap 16 (e0 + (k + 1)) /\
   t0 + (k + 1) * ROUTE_QUARANTINE <= now' /\ tenure a' s e0 t0 (k + 1) now').
Proof.
  intros Hwf H0 (He & t_k & Hk & Hkn & Hr) Hnow Hq Hold Hes a'.
  assert (in_quarantine a slot) as Hin by (unfold in_quarantine; rewrite Hq; left).
  destruct (wf_in_quarantine_lookup _ _ Hwf Hin) as (H0' & Hlt & _).
  destruct (decide (slot = s)) as [->|Hne].
  - right. rewrite Hes in He. inv He. rewrite wrap_succ. split_and!; try done.
    + pose proof (Hr r) as Hrr. rewrite Hq in Hrr. specialize (Hrr ltac:(left)). lia.
    + split.
      * cbn. by rewrite wrap_succ, list_lookup_insert_eq by done.
      * exists now'. pose proof (Hr r) as Hrr. rewrite Hq in Hrr. specialize (Hrr ltac:(left)).
        split_and!; [lia|lia|]. cbn. intros r' Hr'. exfalso.
        pose proof (wf_nodup a Hwf) as Hnd. rewrite Hq in Hnd. cbn in Hnd.
        apply NoDup_cons in Hnd as [Hni _]. apply Hni. apply list_elem_of_fmap. by exists (s, r').
  - left. split; [done|]. split.
    + cbn. rewrite list_lookup_insert_ne by lia. done.
    + exists t_k. split_and!; [done|lia|]. cbn. intros r' Hr'. apply Hr. rewrite Hq. by right.
Qed.

Lemma tenure_step a ev a' s e0 t0 k now :
  alloc_wf a -> 0 <= s -> tenure a s e0 t0 k now -> now <= event_time ev ->
  alloc_step a ev a' ->
  ((forall e t, ev <> Allocated s e t) /\ tenure a' s e0 t0 k (event_time ev)) \/
  (exists t, ev = Allocated s (wrap 16 (e0 + (k + 1))) t /\
     t0 + (k + 1) * ROUTE_QUARANTINE <= t /\ tenure a' s e0 t0 (k + 1) t).
Proof.
  intros Hwf H0 Hten Hnow Hs.
  inversion Hs as [? ? slot epoch now' Ha|? slot now' H0']; subst; clear Hs; cbn [event_time] in *.
  - destruct (allocate_cases _ _ _ Ha) as [(slot' & r & rest & Hq & Hold)|Hf].
    + destruct (allocate_reuse_spec _ _ _ _ _ Hwf Hq Hold) as (e & Hes & _ & Ha').
      rewrite Ha' in Ha. inv Ha.
      destruct (tenure_reuse _ _ _ _ _ _ _ _ _ _ _ Hwf H0 Hten Hnow Hq Hold Hes)
        as [[Hne Ht]|(-> & Hep & Htime & Ht)].
      * left. split; [congruence|done].
      * right. rewrite <- Hep. eauto.
    + left. destruct (allocate_fresh_spec _ _ _ _ Hwf Hf) as (-> & -> & _ & _ & ->).
      destruct Hten as (He & t_k & ? & ? & Hr). pose proof (lookup_lt_Some _ _ _ He).
      split; [intros ? ? Heq; inv Heq; lia|]. split.
      * cbn. by rewrite lookup_app_l by done.
      * exists t_k. split_and!; [done|lia|done].
  - left. split; [done|]. destruct Hten as (He & t_k & ? & ? & Hr).
    unfold retire. destruct (quarantined a !! _) as [[|]|];
      (split; [done|exists t_k; split_and!; [done|lia|]]); [done| |done].
    cbn. intros r Hin. apply elem_of_app in Hin as [?|Hin]; [by apply Hr|].
    apply list_elem_of_singleton in Hin. inv Hin. lia.
Qed.

Lemma tenure_run t a es a' s e0 t0 k t2 :
  alloc_wf a -> 0 <= s -> fits 16 e0 -> 0 <= k -> tenure a s e0 t0 k t ->
  alloc_run t a es a' -> Allocated s e0 t2 ∈ es ->
  t0 + 2 ^ 16 * ROUTE_QUARANTINE <= t2.
Proof.
  intros Hwf H0 He0 Hk Hten Hrun. revert k Hk Hten.
  induction Hrun as [t a|t a e a' es a'' Hle Hstep Hrun IH]; intros k Hk Hten Hin; [by inv Hin|].
  pose proof (alloc_step_wf _ _ _ Hwf Hstep) as Hwf'.
  destruct (tenure_step _ _ _ _ _ _ _ _ Hwf H0 Hten Hle Hstep) as [[Hno Ht]|(te & -> & Htime & Ht)].
  - apply elem_of_cons in Hin as [<-|Hin]; [by destruct (Hno e0 t2)|]. by apply (IH Hwf' k).
  - apply elem_of_cons in Hin as [Heq|Hin].
    + inv Heq. assert ((k + 1) `mod` 2 ^ 16 = 0) as Hz.
      { unfold wrap, fits in *. rewrite <- (Z.mod_small e0 (2 ^ 16)) in H1 at 1 by lia.
        replace (k + 1) with (e0 + (k + 1) - e0) by lia.
        rewrite Zminus_mod, <- H1, Z.sub_diag. done. }
      assert (2 ^ 16 <= k + 1) by (destruct (decide (k + 1 < 2 ^ 16)); [rewrite Z.mod_small in Hz|]; lia).
      unfold ROUTE_QUARANTINE, NANOS_PER_SEC in *. nia.
    + apply (IH Hwf' (k + 1)); [lia|done|done].
Qed.

Lemma run_wf t a es a' : alloc_wf a -> alloc_run t a es a' -> alloc_wf a'.
Proof. intros Hwf Hr. induction Hr; eauto using alloc_step_wf. Qed.

Lemma run_app_inv t a es1 e es2 a' :
  alloc_run t a (es1 ++ e :: es2) a' ->
  exists t1 a1 a2, alloc_run t a es1 a1 /\ t1 <= event_time e /\ alloc_step a1 e a2 /\
    alloc_run (event_time e) a2 es2 a'.
Proof.
  revert t a. induction es1 as [|e1 es1 IH]; intros t a H; cbn in H; inv H.
  - exists t, a, a'0. split_and!; try done. constructor.
  - match goal with H : alloc_run _ _ (_ ++ _) _ |- _ => apply IH in H end.
    destruct H7 as (t1 & a1 & a2 & ? & ? & ? & ?). exists t1, a1, a2. split_and!; try done.
    by econstructor.
Qed.

(** Just allocated: the tenure starts. *)
Lemma tenure_start a s e t a' :
  alloc_wf a -> alloc_step a (Allocated s e t) a' -> 0 <= s /\ fits 16 e /\ tenure a' s e t 0 t.
Proof.
  intros Hwf Hs. inversion Hs as [? ? ? ? ? Ha|]; subst; clear Hs.
  destruct (allocate_cases _ _ _ Ha) as [(slot' & r & rest & Hq & Hold)|Hf].
  - destruct (allocate_reuse_spec _ _ _ _ _ Hwf Hq Hold) as (ep & Hes & Hfe & Ha').
    rewrite Ha' in Ha. inv Ha.
    assert (in_quarantine a s) as Hin by (unfold in_quarantine; rewrite Hq; left).
    destruct (wf_in_quarantine_lookup _ _ Hwf Hin) as (H0' & Hlt & _).
    pose proof (wrap_fits 16 (ep + 1) ltac:(lia)) as Hfit.
    split_and!; [done|done|]. split.
    + cbn. rewrite list_lookup_insert_eq by done. by rewrite Z.add_0_r, wrap_small.
    + exists t. split_and!; [lia|lia|]. cbn. intros r' Hr'. exfalso.
      pose proof (wf_nodup a Hwf) as Hnd. rewrite Hq in Hnd. cbn in Hnd.
      apply NoDup_cons in Hnd as [Hni _]. apply Hni. apply list_elem_of_fmap. by exists (s, r').
  - destruct (allocate_fresh_spec _ _ _ _ Hwf Hf) as (-> & -> & _ & _ & ->).
    split_and!; [lia|done|]. split.
    + cbn. rewrite lookup_app_r by lia. rewrite Nat2Z.id, Nat.sub_diag. done.
    + exists t. split_and!; [lia|lia|]. cbn. intros r Hr.
      assert (in_quarantine a (Z.of_nat (length (epochs a)))) as Hin
        by (apply list_elem_of_fmap; by eexists (_, r)).
      destruct (wf_in_quarantine_lookup _ _ Hwf Hin) as (_ & ? & _). lia.
Qed.

(** A slot retired as soon as it is handed out and taken again as soon as its
    quarantine is over, [n] times from epoch [e] at time [t]: the fastest
    possible churn. *)
Fixpoint churn (n : nat) (e t : Z) : list alloc_event :=
  match n with
  | O => []
  | S n' => Retired 0 t :: Allocated 0 (wrapping_add 16 e 1) (t + ROUTE_QUARANTINE)
              :: churn n' (wrapping_add 16 e 1) (t + ROUTE_QUARANTINE)
  end.

Lemma churn_run n e t :
  fits 16 e ->
  exists a, alloc_run t (mkSlotAllocator 0 [e] [] [false] 8) (churn n e t) a /\
    ((0 < n)%nat -> Allocated 0 (wrap 16 (e + Z.of_nat n)) (t + Z.of_nat n * ROUTE_QUARANTINE)
                      ∈ churn n e t).
Proof.
  revert e t. induction n as [|n IH]; intros e t He.
  { eexists. split; [constructor|lia]. }
  destruct (IH (wrapping_add 16 e 1) (t + ROUTE_QUARANTINE)) as (a & Hr & Hin);
    [apply wrap_fits; lia|].
  exists a. split.
  - cbn [churn]. eapply run_cons; [cbn; lia|by apply step_retire|]. cbn.
    eapply run_cons; [cbn; unfold ROUTE_QUARANTINE, NANOS_PER_SEC; lia| |exact Hr].
    assert (saturating_duration_since (t + ROUTE_QUARANTINE) t = ROUTE_QUARANTINE) as E
      by (unfold saturating_duration_since, ROUTE_QUARANTINE, NANOS_PER_SEC; lia).
    apply step_allocate.
    change (retire _ 0 t) with (mkSlotAllocator 0 [e] [(0, t)] [true] 8).
    unfold allocate, allocate_inner. cbv beta iota delta [quarantine].
    by rewrite E, Z.leb_refl.
  - intros _. cbn [churn]. right. destruct n as [|n].
    + left.
    + right. replace (wrap 16 (e + Z.of_nat (S (S n))))
        with (wrap 16 (wrapping_add 16 e 1 + Z.of_nat (S n))).
      * replace (t + Z.of_nat (S (S n)) * ROUTE_QUARANTINE)
          with (t + ROUTE_QUARANTINE + Z.of_nat (S n) * ROUTE_QUARANTINE) by lia.
        apply Hin. lia.
      * unfold wrapping_add, wrap. rewrite Zplus_mod_idemp_l. f_equal. lia.
Qed.

(** ** Properties *)

(** The allocator's invariant holds in every state reached from an empty
    allocator, and in such a state an allocation panics only when the
    namespace is exhausted: while fewer slots than the limit were ever handed
    out, every allocation succeeds. *)
Theorem allocator_invariant shard max t es a :
  fits 32 max -> alloc_run t (with_max_slots shard max) es a ->
  alloc_wf a /\
  (Z.of_nat (length (epochs a)) < Z.min (max_slots a) (PackedRoute.MAX_SLOT + 1) ->
   forall now, is_Some (allocate a now)).
Proof.
  intros Hm Hr. pose proof (run_wf _ _ _ _ (with_max_slots_wf shard max Hm) Hr) as Hwf.
  split; [done|]. intros Hlt now.
  assert (is_Some (allocate_fresh a)) as Hfresh.
  { unfold allocate_fresh. change PackedRoute.MAX_SLOT with 1048575 in *.
    destruct (Z.leb_spec (Z.of_nat (length (epochs a))) (umax 32)); [|unfold umax in *; lia].
    destruct (_ && _) eqn:E; [done|]. apply andb_false_iff in E as [E|E]; lia. }
  unfold allocate, allocate_inner. destruct (quarantine a) as [|[slot r] rest] eqn:Hq; [done|].
  case_ifs; [|done]. assert (in_quarantine a slot) as Hin by (unfold in_quarantine; rewrite Hq; left).
  destruct (wf_in_quarantine_lookup _ _ Hwf Hin) as (_ & _ & e & He & _).
  apply (wf_flag a Hwf) in Hin as [_ Hfl]. rewrite Hfl, He. done.
Qed.

Lemma allocator_invariant_witness :
  alloc_wf (fst (default (with_max_slots 0 8, (0, 0)) (allocate (with_max_slots 0 8) 5))).
Proof.
  apply (allocator_invariant 0 8 0 [Allocated 0 0 5]); [ground|].
  eapply run_cons; [cbn; lia|by apply step_allocate|apply run_nil].
Defined.

(** Allocation never hands out a slot that is in use: the slot it returns
    was not live, becomes live, fits the packed route's 20 bits, and no other
    slot changes its status. *)
Theorem allocate_gives_unused_slot a now a' slot epoch :
  alloc_wf a -> allocate a now = Some (a', (slot, epoch)) ->
  ~ live a slot /\ live a' slot /\ 0 <= slot <= PackedRoute.MAX_SLOT /\ fits 16 epoch /\
  (forall s, s <> slot -> live a' s <-> live a s).
Proof.
  intros Hwf Ha. destruct (allocate_cases _ _ _ Ha) as [(slot' & r & rest & Hq & Hold)|Hf].
  - destruct (allocate_reuse_spec _ _ _ _ _ Hwf Hq Hold) as (e & Hes & He & Ha').
    rewrite Ha' in Ha. inv Ha. unfold live. cbn.
    assert (in_quarantine a slot) as Hin by (unfold in_quarantine; rewrite Hq; left).
    destruct (wf_in_quarantine_lookup _ _ Hwf Hin) as (H0 & Hlt & _).
    apply (wf_flag a Hwf) in Hin as [_ Hfl]. pose proof (lookup_lt_Some _ _ _ Hfl).
    pose proof (wf_bound a Hwf). split_and!; try done; try lia.
    + intros [_ ?]; congruence.
    + by apply list_lookup_insert_eq.
    + apply wrap_fits. lia.
    + intros s Hs. split; intros [? Hl]; (split; [done|]).
      * by rewrite list_lookup_insert_ne in Hl by lia.
      * by rewrite list_lookup_insert_ne by lia.
  - destruct (allocate_fresh_spec _ _ _ _ Hwf Hf) as (-> & -> & ? & ? & ->). unfold live. cbn.
    rewrite (wf_lengths a Hwf), Nat2Z.id in *. split_and!; try done; try lia.
    + intros [_ Hl]. apply lookup_lt_Some in Hl. lia.
    + by rewrite lookup_app_r, Nat.sub_diag by lia.
    + intros s Hs. split; intros [? Hl]; (split; [done|]).
      * apply lookup_app_Some in Hl as [?|[? Hl]]; [done|].
        apply list_lookup_singleton_Some in Hl as [? _]. lia.
      * by apply lookup_app_l_Some.
Qed.

Lemma allocate_gives_unused_slot_witness :
  live (fst (default (with_max_slots 0 8, (0, 0)) (allocate (with_max_slots 0 8) 5))) 0.
Proof.
  destruct (allocate_gives_unused_slot (with_max_slots 0 8) 5 _ _ _
              (with_max_slots_wf 0 8 ltac:(ground)) eq_refl) as (_ & H & _). exact H.
Defined.

(** Retiring a slot twice has the effect of retiring it once: the second
    call is refused, so no slot is ever queued for reuse twice. *)
Theorem retire_twice_is_once a slot t1 t2 :
  alloc_wf a -> 0 <= slot ->
  retire (retire a slot t1) slot t2 = retire a slot t1 /\
  ~ live (retire a slot t1) slot /\
  NoDup (quarantine (retire a slot t1)).*1.
Proof.
  intros Hwf H0. pose proof (wf_nodup _ (retire_wf a slot t1 Hwf H0)) as Hnd.
  unfold live, retire in *.
  destruct (quarantined a !! Z.to_nat slot) as [[|]|] eqn:Hl; cbn in *; rewrite ?Hl;
    try (split_and!; [done|intros [_ ?]; congruence|done]).
  pose proof (lookup_lt_Some _ _ _ Hl).
  rewrite !list_lookup_insert_eq by done. split_and!; [done|intros [_ ?]; done|done].
Qed.

Lemma retire_twice_is_once_witness :
  let a := fst (default (with_max_slots 0 8, (0, 0)) (allocate (with_max_slots 0 8) 5)) in
  retire (retire a 0 6) 0 7 = retire a 0 6.
Proof.
  apply retire_twice_is_once; [|lia].
  eapply (allocate_wf (with_max_slots 0 8) 5); [apply with_max_slots_wf; ground|reflexivity].
Defined.

(** C7. Stale addresses stay dead: in every run from an empty allocator under
    a clock that does not go back, the same (slot, epoch) pair is handed out a
    second time only after 65536 quarantine periods, about 36 hours. *)
Theorem epoch_reuse_interval shard max t es a es1 es2 s e t1 t2 :
  fits 32 max -> alloc_run t (with_max_slots shard max) es a ->
  es = es1 ++ Allocated s e t1 :: es2 -> Allocated s e t2 ∈ es2 ->
  t1 + 2 ^ 16 * ROUTE_QUARANTINE <= t2.
Proof.
  intros Hm Hr -> Hin. apply run_app_inv in Hr as (ta & a1 & a2 & Hr1 & _ & Hs & Hr2).
  pose proof (run_wf _ _ _ _ (with_max_slots_wf shard max Hm) Hr1) as Hwf1.
  destruct (tenure_start _ _ _ _ _ Hwf1 Hs) as (H0 & Hf & Hten).
  eapply (tenure_run t1 a2 es2 a s e t1 0 t2); try done.
  by eapply alloc_step_wf.
Qed.

Lemma epoch_reuse_interval_witness :
  5 + 2 ^ 16 * ROUTE_QUARANTINE <= 5 + Z.of_nat (Z.to_nat 65536) * ROUTE_QUARANTINE.
Proof.
  destruct (churn_run (Z.to_nat 65536) 0 5 ltac:(ground)) as (a & Hr & Hin).
  eapply (epoch_reuse_interval 0 8 0 _ a [] (churn (Z.to_nat 65536) 0 5) 0 0 5);
    [ground|eapply run_cons; [|by apply step_allocate|exact Hr]; cbn; lia|done|].
  replace 0 with (wrap 16 (0 + Z.of_nat (Z.to_nat 65536))) at 2 by (rewrite Z2Nat.id by lia; done).
  apply Hin. lia.
Defined.
