(* ===== verification/RouteRuntime.v ===== *)
(** * The shard's route table

    Models [RouteRuntime], [RouteRuntimeEntry] and [RouteAction] of
    [crates/pulsebeam/src/route.rs], [ReverseDedup] of
    [participant/reverse.rs], and the accounting part of the ingress path of
    [shard/core.rs] that drives them.

    [TrackHandle] is a key type of the [slotmap] crate, a parameter of the
    section with its null value. Rust's [fatal!] is [None]. *)

From S2P Require Import Prelude Route Clock.

(** ** Link accounting *)

Record RouteStats := mkStats { received : Z; lost : Z; reordered : Z; duplicated : Z }.
Definition stats_default : RouteStats := mkStats 0 0 0 0.

Definition REVERSE_DEDUP_CAPACITY : nat := 32.

(** A 32-byte digest and the instant the entry expires. *)
Record ReverseDedupEntry := mkDedupEntry { dedup_entry_key : list Z; expires_at : Z }.
Record ReverseDedup := mkDedup { dedup_key : list Z; dedup_window : Z }.

Section RouteRuntime.
Context {TrackHandle : Type} `{!EqDecision TrackHandle} (default_handle : TrackHandle).

Inductive RouteAction :=
| Forward (target : TrackHandle)
| Reverse (target : TrackHandle).

#[export] Instance RouteAction_eq_dec : EqDecision RouteAction.
Proof using EqDecision0. solve_decision. Defined.

Record RouteRuntimeEntry := mkEntry {
  epoch : Z;
  action : RouteAction;
  expander : NtpExpander;
  last_link_seq : option Z;
  stats : RouteStats
}.

Definition observe (e : RouteRuntimeEntry) (link_seq : Z) : RouteRuntimeEntry :=
  let st := stats e in
  let st := mkStats (saturating_add 64 (received st) 1) (lost st) (reordered st) (duplicated st) in
  match last_link_seq e with
  | None => mkEntry (epoch e) (action e) (expander e) (Some link_seq) st
  | Some last =>
      let delta := cast_signed 32 (wrapping_sub 32 link_seq last) in
      if delta =? 0 then
        mkEntry (epoch e) (action e) (expander e) (last_link_seq e)
          (mkStats (received st) (lost st) (reordered st) (saturating_add 64 (duplicated st) 1))
      else if 0 <? delta then
        mkEntry (epoch e) (action e) (expander e) (Some link_seq)
          (mkStats (received st)
             (saturating_add 64 (lost st) (saturating_sub (Z.abs delta) 1))
             (reordered st) (duplicated st))
      else
        mkEntry (epoch e) (action e) (expander e) (last_link_seq e)
          (mkStats (received st) (saturating_sub (lost st) 1)
             (saturating_add 64 (reordered st) 1) (duplicated st))
  end.

(** ** The table *)

Record RouteRuntime := mkRuntime {
  runtime_shard : ShardId;
  slots : list (option RouteRuntimeEntry);
  reverse_dedup : list (option (list ReverseDedupEntry))
}.

Definition runtime_new (shard : ShardId) : RouteRuntime := mkRuntime shard [] [].

Definition ensure_slot (rt : RouteRuntime) (index : nat) : RouteRuntime :=
  if decide (length (slots rt) <= index)%nat then
    mkRuntime (runtime_shard rt) (resize (S index) None (slots rt))
      (resize (S index) None (reverse_dedup rt))
  else rt.

Definition set_slot (rt : RouteRuntime) (index : nat) (e : option RouteRuntimeEntry) : RouteRuntime :=
  mkRuntime (runtime_shard rt) (<[index := e]> (slots rt)) (reverse_dedup rt).
Definition set_dedup (rt : RouteRuntime) (index : nat) (c : option (list ReverseDedupEntry))
  : RouteRuntime :=
  mkRuntime (runtime_shard rt) (slots rt) (<[index := c]> (reverse_dedup rt)).

Definition install (rt : RouteRuntime) (address : NodeRouteAddress) (ntp_ref : NtpTime)
  : RouteRuntime :=
  let idx := route_index (address_route address) in
  let rt := ensure_slot rt idx in
  match slots rt !! idx with
  | None => rt
  | Some _ =>
      set_slot rt idx (Some (mkEntry (address_epoch address) (Forward default_handle)
                               (expander_new ntp_ref) None stats_default))
  end.

(** [None]: the entry is missing after installing it ([fatal!]). The entry is
    returned as a value; writing it back is [set_slot]. *)
Definition accounting_mut (rt : RouteRuntime) (address : NodeRouteAddress) (ntp_ref : NtpTime)
  : option (RouteRuntime * RouteRuntimeEntry) :=
  let idx := route_index (address_route address) in
  let rt := ensure_slot rt idx in
  let stale := match mjoin (slots rt !! idx) with
               | None => true
               | Some e => negb (epoch e =? address_epoch address)
               end in
  let rt := if stale then install rt address ntp_ref else rt in
  match slots rt !! idx with
  | Some (Some e) =>
      let e := match last_link_seq e with
               | None => mkEntry (epoch e) (action e) (expander_new ntp_ref) None (stats e)
               | Some _ => e
               end in
      Some (set_slot rt idx (Some e), e)
  | _ => None
  end.

Definition install_action (rt : RouteRuntime) (address : NodeRouteAddress) (act : RouteAction)
  : RouteRuntime :=
  let idx := route_index (address_route address) in
  let rt := ensure_slot rt idx in
  let fresh rt :=
    set_slot (set_dedup rt idx None) idx
      (Some (mkEntry (address_epoch address) act (expander_new 0) None stats_default)) in
  match slots rt !! idx with
  | None => rt
  | Some None => fresh rt
  | Some (Some e) =>
      if epoch e =? address_epoch address then
        let rt := if decide (action e = act) then rt else set_dedup rt idx None in
        set_slot rt idx (Some (mkEntry (epoch e) act (expander e) (last_link_seq e) (stats e)))
      else fresh rt
  end.

Definition retire (rt : RouteRuntime) (address : NodeRouteAddress) : RouteRuntime * bool :=
  let idx := route_index (address_route address) in
  match slots rt !! idx with
  | Some (Some e) =>
      if epoch e =? address_epoch address then (set_dedup (set_slot rt idx None) idx None, true)
      else (rt, false)
  | Some None => (rt, false)
  | None => (rt, false)
  end.

Definition entry (rt : RouteRuntime) (address : NodeRouteAddress) : option RouteRuntimeEntry :=
  match slots rt !! route_index (address_route address) with
  | Some (Some e) => if epoch e =? address_epoch address then Some e else None
  | _ => None
  end.

Definition resolve (rt : RouteRuntime) (address : NodeRouteAddress) : option RouteAction :=
  action <$> entry rt address.

(** ** Reverse deduplication *)

Definition unexpired (now : Z) (c : list ReverseDedupEntry) : list ReverseDedupEntry :=
  filter (fun e => now < expires_at e) c.

Definition has_key (key : list Z) (c : list ReverseDedupEntry) : bool :=
  bool_decide (key ∈ dedup_entry_key <$> c).

Definition accept_reverse (rt : RouteRuntime) (address : NodeRouteAddress) (dedup : ReverseDedup)
  (now : Z) : RouteRuntime * bool :=
  match resolve rt address with
  | None => (rt, false)
  | Some (Forward _) => (rt, false)
  | Some (Reverse _) =>
      let index := route_index (address_route address) in
      match reverse_dedup rt !! index with
      | None => (rt, false)
      | Some cache_slot =>
          let cache := unexpired now (default [] cache_slot) in
          if has_key (dedup_key dedup) cache then (set_dedup rt index (Some cache), false)
          else
            let cache := if decide (REVERSE_DEDUP_CAPACITY <= length cache)%nat
                         then tail cache else cache in
            let expires := default now (instant_checked_add now (dedup_window dedup)) in
            (set_dedup rt index (Some (cache ++ [mkDedupEntry (dedup_key dedup) expires])), true)
      end
  end.

(** ** The accounting part of a remote media frame ([shard/core.rs])

    Resolve the route, account for the frame, expand its playout time. The
    result is the action and the playout time when the frame goes on to be
    forwarded, [None] when it is dropped here. *)
Definition account_media_frame (rt : RouteRuntime) (wall_ntp : NtpTime) (env : Envelope)
  : option (RouteRuntime * option (RouteAction * NtpTime)) :=
  let link_seq := wrap 32 (Z.shiftr (env_extension env) 32) in
  let playout_ntp32 := wrap 32 (env_extension env) in
  let address := env_address env in
  match resolve rt address with
  | None => Some (rt, None)
  | Some act =>
      '(rt, e) ← accounting_mut rt address wall_ntp;
      let e := observe e link_seq in
      let '(x, r) := Clock.expand (expander e) playout_ntp32 in
      let e := mkEntry (epoch e) (action e) x (last_link_seq e) (stats e) in
      let rt := set_slot rt (route_index (address_route address)) (Some e) in
      match r with
      | Ok playout => Some (rt, Some (act, playout))
      | Err _ => Some (rt, None)
      end
  end.

(** ** True sequence numbers

    Link sequence numbers on the wire are the sender's counter modulo [2^32].
    [observe_all] feeds an entry a list of true counter values; [windowed h ns]
    says that each is less than [2^31] away from the highest one before it. *)
Definition observe_all (e : RouteRuntimeEntry) (ns : list Z) : RouteRuntimeEntry :=
  foldl (fun e n => observe e (wrap 32 n)) e ns.

Fixpoint windowed (h : Z) (ns : list Z) : Prop :=
  match ns with
  | [] => True
  | n :: rest => - 2 ^ 31 <= n - h < 2 ^ 31 /\ windowed (Z.max h n) rest
  end.

Definition highest (n0 : Z) (ns : list Z) : Z := foldl Z.max n0 ns.

(** ** Invariant *)

Record runtime_wf (rt : RouteRuntime) : Prop := mk_runtime_wf {
  rwf_lengths : length (slots rt) = length (reverse_dedup rt);
  rwf_dedup : forall i c, reverse_dedup rt !! i = Some (Some c) ->
    (length c <= REVERSE_DEDUP_CAPACITY)%nat /\ NoDup (dedup_entry_key <$> c)
}.

(** ** Table lemmas *)

Lemma ensure_slot_length rt i :
  length (slots rt) = length (reverse_dedup rt) ->
  (i < length (slots (ensure_slot rt i)))%nat /\
  length (slots (ensure_slot rt i)) = length (reverse_dedup (ensure_slot rt i)).
Proof.
  intros Hl. unfold ensure_slot. case_decide; cbn; rewrite ?length_resize; lia.
Qed.

Lemma mjoin_resize_lookup {A} (l : list (option A)) n i :
  (length l <= n)%nat -> mjoin (resize n None l !! i) = mjoin (l !! i).
Proof.
  intros Hn. destruct (decide (i < length l)%nat) as [Hi|Hi].
  - rewrite lookup_resize by lia. done.
  - rewrite (lookup_ge_None_2 l) by lia. destruct (decide (i < n)%nat).
    + rewrite lookup_resize_new by lia. done.
    + rewrite lookup_resize_old by lia. done.
Qed.

Lemma ensure_slot_slots rt i j : mjoin (slots (ensure_slot rt i) !! j) = mjoin (slots rt !! j).
Proof.
  unfold ensure_slot. case_decide; cbn; [|done]. apply mjoin_resize_lookup. lia.
Qed.

Lemma ensure_slot_dedup rt i j :
  length (slots rt) = length (reverse_dedup rt) ->
  mjoin (reverse_dedup (ensure_slot rt i) !! j) = mjoin (reverse_dedup rt !! j).
Proof.
  intros. unfold ensure_slot. case_decide; cbn; [|done]. apply mjoin_resize_lookup. lia.
Qed.

Lemma entry_alt rt a :
  entry rt a = (e ← mjoin (slots rt !! route_index (address_route a));
                if epoch e =? address_epoch a then Some e else None).
Proof. unfold entry. by destruct (slots rt !! _) as [[e|]|]. Qed.

Lemma lookup_mjoin {A} (l : list (option A)) i x :
  mjoin (l !! i) = Some x <-> l !! i = Some (Some x).
Proof. destruct (l !! i) as [[?|]|]; naive_solver. Qed.

Lemma set_slot_lookup rt i e j :
  (i < length (slots rt))%nat ->
  mjoin (slots (set_slot rt i e) !! j) = if decide (i = j) then e else mjoin (slots rt !! j).
Proof.
  intros Hi. cbn. rewrite list_lookup_insert_dec by done. by case_decide.
Qed.

Lemma ensure_slot_wf rt i : runtime_wf rt -> runtime_wf (ensure_slot rt i).
Proof.
  intros Hwf. pose proof (rwf_lengths rt Hwf) as Hl. constructor.
  - by apply ensure_slot_length.
  - intros j c Hc. apply (rwf_dedup rt Hwf j). apply lookup_mjoin.
    rewrite <- (ensure_slot_dedup rt i j Hl). by apply lookup_mjoin.
Qed.

Lemma set_slot_wf rt i e : runtime_wf rt -> runtime_wf (set_slot rt i e).
Proof.
  intros Hwf. constructor; cbn; [rewrite length_insert; apply rwf_lengths, Hwf|apply rwf_dedup, Hwf].
Qed.

Lemma set_dedup_wf rt i c :
  runtime_wf rt ->
  (forall c', c = Some c' -> (length c' <= REVERSE_DEDUP_CAPACITY)%nat /\
     NoDup (dedup_entry_key <$> c')) ->
  runtime_wf (set_dedup rt i c).
Proof.
  intros Hwf Hc. constructor; cbn; [rewrite length_insert; apply rwf_lengths, Hwf|].
  intros j c' Hj. destruct (decide (i < length (reverse_dedup rt))%nat) as [Hi|Hi].
  - rewrite list_lookup_insert_dec in Hj by done. case_decide; [|by eapply rwf_dedup].
    apply Hc. congruence.
  - rewrite list_insert_ge in Hj by lia. by eapply rwf_dedup.
Qed.

#[local] Hint Resolve ensure_slot_wf set_slot_wf : rust.

Lemma install_wf rt a n : runtime_wf rt -> runtime_wf (install rt a n).
Proof. intros. unfold install. destruct (_ !! _); auto with rust. Qed.

Lemma install_action_wf rt a act : runtime_wf rt -> runtime_wf (install_action rt a act).
Proof.
  intros Hwf. unfold install_action.
  assert (forall rt' i, runtime_wf rt' -> runtime_wf (set_dedup rt' i None)) as Hd.
  { intros. apply set_dedup_wf; done. }
  destruct (slots _ !! _) as [[e|]|]; auto with rust. case_ifs; auto with rust.
Qed.

Lemma route_retire_wf rt a : runtime_wf rt -> runtime_wf (fst (retire rt a)).
Proof.
  intros. unfold retire. destruct (slots _ !! _) as [[e|]|]; cbn; auto.
  case_ifs; cbn; auto. apply set_dedup_wf; auto with rust. done.
Qed.

Lemma accounting_mut_wf rt a n rt' e :
  runtime_wf rt -> accounting_mut rt a n = Some (rt', e) -> runtime_wf rt'.
Proof.
  intros Hwf. unfold accounting_mut.
  match goal with |- context [if ?b then install ?r ?x ?y else _] =>
    assert (runtime_wf (if b then install r x y else r)) as H1
      by (destruct b; auto using install_wf with rust);
    set (rt1 := if b then _ else _) in * end.
  destruct (slots rt1 !! _) as [[e1|]|]; [|done|done].
  intros H'. inv H'. auto with rust.
Qed.

Lemma NoDup_fmap_filter {A B} (f : A -> B) (P : A -> Prop) `{!forall x, Decision (P x)} (l : list A) :
  NoDup (f <$> l) -> NoDup (f <$> filter P l).
Proof.
  intros Hnd. eapply sublist_NoDup; [exact Hnd|]. apply fmap_sublist. apply sublist_filter.
Qed.

Lemma accept_reverse_wf rt a d now : runtime_wf rt -> runtime_wf (fst (accept_reverse rt a d now)).
Proof.
  intros Hwf. unfold accept_reverse.
  destruct (resolve rt a) as [[|]|]; cbn; auto.
  destruct (reverse_dedup rt !! _) as [cs|] eqn:Hc; cbn; auto.
  set (cache := unexpired now (default [] cs)).
  assert ((length cache <= REVERSE_DEDUP_CAPACITY)%nat /\ NoDup (dedup_entry_key <$> cache)) as [Hlen Hnd].
  { destruct cs as [c|]; cbn in cache; [|unfold cache; cbn; split; [lia|constructor]].
    destruct (rwf_dedup rt Hwf _ _ Hc) as [Hl Hn]. split.
    - etransitivity; [apply length_filter|done].
    - by apply NoDup_fmap_filter. }
  clearbody cache. unfold has_key, REVERSE_DEDUP_CAPACITY in *. case_bool_decide as Hk; cbn.
  - apply set_dedup_wf; [done|]. intros c' E. by inv E.
  - apply set_dedup_wf; [done|]. intros c' E. inv E. rewrite fmap_app, length_app.
    unfold REVERSE_DEDUP_CAPACITY in *. cbn. case_decide as Hcap.
    + destruct cache as [|x cache]; cbn in *; [lia|]. split; [lia|].
      apply NoDup_cons in Hnd as [_ Hnd]. apply NoDup_snoc; [done|]. intros ?. apply Hk. by right.
    + split; [lia|]. by apply NoDup_snoc.
Qed.

(** ** Resolution lemmas *)

Lemma resolve_alt rt a :
  resolve rt a = (e ← mjoin (slots rt !! route_index (address_route a));
                  if epoch e =? address_epoch a then Some (action e) else None).
Proof.
  unfold resolve. rewrite entry_alt. destruct (mjoin _) as [e|]; cbn; [|done]. by case_ifs.
Qed.

(** What an [install_action] leaves in each slot. *)
Lemma install_action_slots rt a act :
  runtime_wf rt ->
  exists e, epoch e = address_epoch a /\ action e = act /\
    forall j, mjoin (slots (install_action rt a act) !! j) =
              if decide (route_index (address_route a) = j) then Some e else mjoin (slots rt !! j).
Proof.
  intros Hwf. set (i := route_index (address_route a)).
  destruct (ensure_slot_length rt i (rwf_lengths rt Hwf)) as [Hi Hl].
  unfold install_action. fold i.
  destruct (lookup_lt_is_Some_2 _ _ Hi) as [o Ho]. rewrite Ho.
  assert (forall rt' e, (forall j, mjoin (slots rt' !! j) = mjoin (slots rt !! j)) ->
            (i < length (slots rt'))%nat ->
            forall j, mjoin (slots (set_slot rt' i (Some e)) !! j) =
                      if decide (i = j) then Some e else mjoin (slots rt !! j)) as Hset.
  { intros rt' e Hs Hlt j. rewrite set_slot_lookup by done. case_decide; auto. }
  pose proof (ensure_slot_slots rt i) as Hes.
  destruct o as [e|]; [destruct (Z.eqb_spec (epoch e) (address_epoch a)) as [He|He]|];
    (eexists; split; [|split]; [| |apply Hset; [intros j; try case_decide; apply Hes|by try case_decide]]); done.
Qed.

Lemma retire_slots rt a :
  forall j, mjoin (slots (fst (retire rt a)) !! j) =
    if decide (route_index (address_route a) = j) then
      (if snd (retire rt a) then None else mjoin (slots rt !! j))
    else mjoin (slots rt !! j).
Proof.
  intros j. unfold retire. set (i := route_index (address_route a)).
  destruct (slots rt !! i) as [[e|]|] eqn:Hi; cbn; try by case_decide.
  pose proof (lookup_lt_Some _ _ _ Hi). destruct (epoch e =? address_epoch a); cbn; [|by case_decide].
  rewrite list_lookup_insert_dec by done. by case_decide.
Qed.

Lemma retire_flag rt a : snd (retire rt a) = bool_decide (is_Some (entry rt a)).
Proof.
  unfold retire, entry. destruct (slots rt !! _) as [[e|]|]; cbn; try done.
  by destruct (epoch e =? address_epoch a).
Qed.

(** What a frame's time is expanded against: the wall clock for the first. *)
Definition time_reference (e : RouteRuntimeEntry) (n : NtpTime) : NtpTime :=
  match last_link_seq e with None => n | Some _ => reference (expander e) end.

Lemma accounting_mut_some rt a n :
  runtime_wf rt ->
  exists rt' e, accounting_mut rt a n = Some (rt', e) /\
    mjoin (slots rt' !! route_index (address_route a)) = Some e /\
    epoch e = address_epoch a /\
    (forall e0, entry rt a = Some e0 ->
       action e = action e0 /\ stats e = stats e0 /\ last_link_seq e = last_link_seq e0 /\
       reference (expander e) = time_reference e0 n).
Proof.
  intros Hwf. set (i := route_index (address_route a)).
  destruct (ensure_slot_length rt i (rwf_lengths rt Hwf)) as [Hi _].
  unfold accounting_mut. fold i. rewrite entry_alt. fold i. rewrite <- (ensure_slot_slots rt i).
  destruct (lookup_lt_is_Some_2 _ _ Hi) as [o Ho]. rewrite Ho.
  assert (forall x, (slots (set_slot (ensure_slot rt i) i x)) !! i = Some x) as Hset.
  { intros. cbn. by apply list_lookup_insert_eq. }
  assert (install (ensure_slot rt i) a n = set_slot (ensure_slot rt i) i
     (Some (mkEntry (address_epoch a) (Forward default_handle) (expander_new n) None stats_default)))
    as Hinst.
  { unfold install. fold i. replace (ensure_slot (ensure_slot rt i) i) with (ensure_slot rt i).
    - by rewrite Ho.
    - unfold ensure_slot at 2. by rewrite decide_False by lia. }
  destruct o as [e|]; cbn [mjoin option_join].
  - destruct (Z.eqb_spec (epoch e) (address_epoch a)) as [He|He]; cbn [negb].
    + rewrite Ho. eexists _, _. split; [done|]. rewrite Hset. split_and!; [done| |].
      * by destruct (last_link_seq e).
      * intros e0 H'. cbn in H'. rewrite He, Z.eqb_refl in H'. injection H' as <-.
        unfold time_reference. by destruct (last_link_seq e) eqn:El; cbn; rewrite ?El.
    + rewrite Hinst, Hset. eexists _, _. split; [done|]. cbn.
      rewrite list_lookup_insert_eq by (cbn; by rewrite length_insert).
      split_and!; [done..|]. intros e0 H'. destruct (Z.eqb_spec (epoch e) (address_epoch a)); done.
  - rewrite Hinst, Hset. eexists _, _. split; [done|]. cbn.
    rewrite list_lookup_insert_eq by (cbn; by rewrite length_insert). split_and!; done.
Qed.

(** ** Loss accounting *)

(** The counters after the distinct values [seen] with highest [h] arrived,
    the lowest of them [n0]. *)
Record accounted (e : RouteRuntimeEntry) (n0 h : Z) (seen : list Z) : Prop := mk_accounted {
  acc_last : last_link_seq e = Some (wrap 32 h);
  acc_received : received (stats e) = Z.of_nat (length seen);
  acc_lost : lost (stats e) = h - n0 + 1 - Z.of_nat (length seen);
  acc_dup : duplicated (stats e) = 0;
  acc_nodup : NoDup seen;
  acc_in : h ∈ seen;
  acc_range : Forall (fun x => n0 <= x <= h) seen
}.

Lemma accounted_step e n0 h seen n :
  accounted e n0 h seen -> n ∉ seen -> n0 <= n -> - 2 ^ 31 <= n - h < 2 ^ 31 ->
  Z.max h n - n0 + 1 < 2 ^ 64 ->
  accounted (observe e (wrap 32 n)) n0 (Z.max h n) (n :: seen).
Proof.
  intros [Hl Hr Hlo Hd Hnd Hh Hrg] Hn Hn0 Hw Hs. unfold observe. rewrite Hl.
  assert (wrapping_sub 32 (wrap 32 n) (wrap 32 h) = wrap 32 (n - h)) as ->
    by (unfold wrapping_sub, wrap; by rewrite <- Zminus_mod).
  rewrite cast_signed_wrap by lia.
  assert (n0 <= h) as Hh0 by (rewrite Forall_forall in Hrg; by destruct (Hrg h Hh)).
  pose proof (NoDup_Z_interval seen n0 h Hnd Hrg ltac:(lia)) as Hlen.
  destruct (Z.eqb_spec (n - h) 0) as [He|He].
  { exfalso. apply Hn. by replace n with h by lia. }
  assert (Forall (fun x => n0 <= x <= Z.max h n) (n :: seen)) as Hrg'.
  { constructor; [lia|]. eapply Forall_impl; [exact Hrg|]. cbn. lia. }
  assert (NoDup (n :: seen)) as Hnd' by by constructor.
  pose proof (NoDup_Z_interval _ n0 (Z.max h n) Hnd' Hrg' ltac:(lia)) as Hlen'. cbn [length] in Hlen'.
  destruct (Z.ltb_spec 0 (n - h)) as [Hlt|Hge]; constructor;
    cbn [last_link_seq stats received lost duplicated length]; try done; unfold_arith;
    try lia; try (rewrite ?Hr, ?Hlo; lia).
  - by rewrite Z.max_r by lia.
  - rewrite Z.max_r by lia. left.
  - by rewrite Z.max_l by lia.
  - rewrite Z.max_l by lia. by right.
Qed.

Lemma accounted_run e n0 h seen ns :
  accounted e n0 h seen -> NoDup (ns ++ seen) -> Forall (fun n => n0 <= n) ns -> windowed h ns ->
  highest h ns - n0 + 1 < 2 ^ 64 ->
  accounted (observe_all e ns) n0 (highest h ns) (rev ns ++ seen).
Proof.
  revert e h seen. induction ns as [|n ns IH]; intros e h seen Ha Hnd Hge Hw Hs; [done|].
  cbn [observe_all foldl rev highest]. cbn in Hnd. apply NoDup_cons in Hnd as [Hni Hnd].
  inv Hge. destruct Hw as [Hw1 Hw2]. rewrite <- app_assoc. cbn.
  apply (IH _ (Z.max h n) (n :: seen)); try done.
  - apply accounted_step; try done.
    + intros Hin. apply Hni, elem_of_app. by right.
    + assert (forall l x, x <= highest x l) as Hmono.
      { clear. intros l. induction l as [|y l IH]; intros x; cbn; [lia|].
        unfold highest in IH. specialize (IH (Z.max x y)). lia. }
      specialize (Hmono ns (Z.max h n)). unfold highest in *. cbn in Hs. lia.
  - rewrite <- Permutation_middle. by constructor.
Qed.

(** ** Properties *)

(** A route resolves only for the incarnation that was installed:
    installing an action at an address makes exactly that action resolve
    there, makes every other epoch of the slot fail to resolve, and leaves
    every other slot alone. *)
Theorem install_action_resolves rt a act b :
  runtime_wf rt ->
  resolve (install_action rt a act) b =
    if decide (route_index (address_route b) = route_index (address_route a)) then
      if address_epoch b =? address_epoch a then Some act else None
    else resolve rt b.
Proof.
  intros Hwf. destruct (install_action_slots rt a act Hwf) as (e & He & Hact & Hslots).
  rewrite !resolve_alt, Hslots. case_decide as Hd; case_decide as Hd'; try congruence.
  cbn. rewrite He, Hact. by rewrite Z.eqb_sym.
Qed.

(** Teardown is idempotent and epoch-checked: retiring an address reports
    whether it was installed, makes it stop resolving, and changes no other
    address, in particular not the incarnation that replaced it. *)
Theorem retire_is_epoch_checked rt a b :
  let '(rt', ok) := retire rt a in
  ok = bool_decide (is_Some (resolve rt a)) /\
  retire rt' a = (rt', false) /\
  resolve rt' b =
    if decide (route_index (address_route b) = route_index (address_route a) /\
               address_epoch b = address_epoch a) then None
    else resolve rt b.
Proof.
  destruct (retire rt a) as [rt' ok] eqn:Hret.
  pose proof (retire_slots rt a) as Hs. pose proof (retire_flag rt a) as Hf. rewrite Hret in Hs, Hf.
  cbn [fst snd] in Hs, Hf.
  assert (forall b, resolve rt' b =
    if decide (route_index (address_route b) = route_index (address_route a) /\
               address_epoch b = address_epoch a) then None else resolve rt b) as Hres.
  { intros b'. rewrite !resolve_alt, Hs. rewrite entry_alt in Hf.
    destruct (decide (route_index (address_route a) = route_index (address_route b'))) as [Hi|Hi].
    - rewrite Hi in Hf. rewrite Hf. destruct (mjoin (slots rt !! _)) as [e|]; cbn; [|by case_decide].
      destruct (Z.eqb_spec (epoch e) (address_epoch a)) as [He|He]; cbn.
      + case_decide as Hd; [done|]. destruct (Z.eqb_spec (epoch e) (address_epoch b')); [|done].
        exfalso. apply Hd. split; congruence.
      + destruct (Z.eqb_spec (epoch e) (address_epoch b')); case_decide as Hd; try done.
        exfalso. destruct Hd. congruence.
    - case_decide as Hd; [by destruct Hd; congruence|done]. }
  split_and!; [| |apply Hres].
  - rewrite Hf. unfold resolve. by destruct (entry rt a).
  - assert (snd (retire rt' a) = false) as Hflag.
    { rewrite retire_flag. specialize (Hres a). rewrite decide_True in Hres by done.
      unfold resolve in Hres. by destruct (entry rt' a). }
    unfold retire in Hflag |- *. destruct (slots rt' !! _) as [[e|]|]; try done.
    by destruct (epoch e =? _).
Qed.

Lemma account_wf rt ref env :
  runtime_wf rt -> exists rt' r, account_media_frame rt ref env = Some (rt', r) /\ runtime_wf rt'.
Proof.
  intros Hwf. unfold account_media_frame. destruct (resolve rt (env_address env)); [|by eexists _, _].
  destruct (accounting_mut_some rt (env_address env) ref Hwf) as (rt1 & e1 & Ha & _). rewrite Ha. cbn.
  pose proof (accounting_mut_wf _ _ _ _ _ Hwf Ha).
  destruct (expand _ _) as [x [t|err]]; eexists _, _; (split; [done|]); auto with rust.
Qed.

(** Every operation of the table keeps its invariant: the two vectors
    have one length, and every reverse-deduplication cache holds at most 32
    entries with distinct keys. *)
Theorem route_table_invariant rt a act ref d now env rt' r :
  runtime_wf rt ->
  runtime_wf (install rt a ref) /\ runtime_wf (install_action rt a act) /\
  runtime_wf (fst (retire rt a)) /\ runtime_wf (fst (accept_reverse rt a d now)) /\
  (account_media_frame rt ref env = Some (rt', r) -> runtime_wf rt').
Proof.
  intros Hwf. split_and!; auto using install_wf, install_action_wf, route_retire_wf, accept_reverse_wf.
  destruct (account_wf rt ref env Hwf) as (rt1 & r1 & -> & Hwf1). intros E. by inv E.
Qed.

(** Accounting for a frame of an installed route never aborts the shard:
    it counts the frame once, keeps the route's action, and hands the frame on
    with that action exactly when its playout time expands. *)
Theorem account_media_frame_total rt ref env e :
  runtime_wf rt -> entry rt (env_address env) = Some e ->
  exists rt' e' out, account_media_frame rt ref env = Some (rt', out) /\
    entry rt' (env_address env) = Some e' /\ action e' = action e /\
    received (stats e') = saturating_add 64 (received (stats e)) 1 /\
    match out with
    | Some (act, playout) => act = action e /\ reference (expander e') = playout
    | None => True
    end /\
    (let ref' := time_reference e ref in forall t, fits 64 ref' -> fits 64 t -> within_window ref' t ->
       wrap 32 (env_extension env) = middle32 t -> out = Some (action e, mid_floor t)) /\
    (let o := observe e (wrap 32 (Z.shiftr (env_extension env) 32)) in stats e' = stats o /\ last_link_seq e' = last_link_seq o).
Proof.
  intros Hwf He.
  destruct (accounting_mut_some rt (env_address env) ref Hwf) as (rt1 & e1 & Ha & Hsl & Hep & Hsame).
  destruct (Hsame e He) as (Hact & Hst & Hls & Hxp).
  set (a := env_address env) in *. set (i := route_index (address_route a)) in *.
  assert (forall e2, epoch e2 = address_epoch a -> entry (set_slot rt1 i (Some e2)) a = Some e2) as Hset.
  { intros e2 He2. rewrite entry_alt. fold i.
    rewrite set_slot_lookup by (apply lookup_mjoin in Hsl; by eapply lookup_lt_Some).
    rewrite decide_True by done. cbn. by rewrite He2, Z.eqb_refl. }
  unfold account_media_frame. fold a i. unfold resolve. rewrite He. cbn. rewrite Ha. cbn.
  set (seq := wrap 32 _). assert (forall s, epoch (observe e1 s) = epoch e1 /\
    action (observe e1 s) = action e1 /\
    received (stats (observe e1 s)) = saturating_add 64 (received (stats e1)) 1 /\
    stats (observe e1 s) = stats (observe e s) /\ last_link_seq (observe e1 s) = last_link_seq (observe e s) /\
    expander (observe e1 s) = mkExpander (time_reference e ref)) as Hobs.
  { intros s. rewrite <- Hxp. destruct e1 as [? ? [?] ? ?]. cbn in Hls, Hst. subst. unfold observe. cbn. destruct (last_link_seq e); [case_ifs|]; done. }
  destruct (Hobs seq) as (Ho1 & Ho2 & Ho3 & Ho4 & Ho5 & Ho6). rewrite Ho6.
  assert (forall t, fits 64 (time_reference e ref) -> fits 64 t -> within_window (time_reference e ref) t ->
    wrap 32 (env_extension env) = middle32 t ->
    expand (mkExpander (time_reference e ref)) (wrap 32 (env_extension env)) = (mkExpander (mid_floor t), Ok (mid_floor t))) as Hon.
  { intros t H1 H2 H3 ->. by apply expand_within. }
  destruct (expand _ _) as [x [t|err]] eqn:Hx; eexists _, _, _; (split; [done|]);
    (split; [apply Hset; cbn; congruence|]); cbn; split_and!; try congruence; try done.
  - unfold expand in Hx. case_ifs; by inv Hx.
  - intros t' H1 H2 H3 H4. specialize (Hon t' H1 H2 H3 H4). congruence.
  - intros t' H1 H2 H3 H4. by specialize (Hon t' H1 H2 H3 H4).
Qed.

Lemma observed_run_counts e n0 ns :
  last_link_seq e = None -> stats e = stats_default ->
  NoDup (n0 :: ns) -> Forall (fun n => n0 <= n) ns -> windowed n0 ns ->
  highest n0 ns - n0 + 1 < 2 ^ 64 ->
  let s := stats (observe_all e (n0 :: ns)) in
  received s = Z.of_nat (length (n0 :: ns)) /\ duplicated s = 0 /\
  lost s = highest n0 ns - n0 + 1 - Z.of_nat (length (n0 :: ns)).
Proof.
  intros Hl Hs Hnd Hge Hw Hsp s.
  assert (accounted (observe e (wrap 32 n0)) n0 n0 [n0]) as H0.
  { unfold observe. rewrite Hl, Hs. constructor; cbn; try done; try lia.
    - apply NoDup_singleton.
    - by apply list_elem_of_singleton.
    - constructor; [lia|constructor]. }
  assert (NoDup (ns ++ [n0])) as Hnd'.
  { rewrite <- Permutation_cons_append. done. }
  destruct (accounted_run _ n0 n0 [n0] ns H0 Hnd' Hge Hw Hsp) as [_ Hr Hlo Hd _ _ _].
  unfold s. change (observe_all e (n0 :: ns)) with (observe_all (observe e (wrap 32 n0)) ns).
  rewrite Hr, Hlo, Hd. rewrite !length_app, length_rev. cbn [length]. split_and!; try done; lia.
Qed.

(** Loss accounting is exact: when distinct frames arrive in any order
    within half the sequence window, starting with the lowest, the loss
    counter is the number of values missing up to the highest one seen. *)
Theorem loss_accounting_exact e n0 ns :
  last_link_seq e = None -> stats e = stats_default ->
  NoDup (n0 :: ns) -> Forall (fun n => n0 <= n) ns -> windowed n0 ns ->
  highest n0 ns - n0 + 1 < 2 ^ 64 ->
  let s := stats (observe_all e (n0 :: ns)) in
  received s = Z.of_nat (length (n0 :: ns)) /\ duplicated s = 0 /\
  lost s = highest n0 ns - n0 + 1 - Z.of_nat (length (n0 :: ns)).
Proof. apply observed_run_counts. Qed.

(** Reverse deduplication: a request on a reverse route is accepted
    exactly when no unexpired entry has its key, and once accepted, the same
    request is refused at every later instant inside its window. *)
Theorem accept_reverse_spec rt a d now h :
  runtime_wf rt -> resolve rt a = Some (Reverse h) -> 0 <= now -> 0 < dedup_window d ->
  now + dedup_window d <= INSTANT_MAX ->
  exists cs, reverse_dedup rt !! route_index (address_route a) = Some cs /\
    snd (accept_reverse rt a d now) =
      negb (has_key (dedup_key d) (unexpired now (default [] cs))) /\
    (snd (accept_reverse rt a d now) = true ->
     forall now', now' < now + dedup_window d ->
       snd (accept_reverse (fst (accept_reverse rt a d now)) a d now') = false).
Proof.
  intros Hwf Hres Hnow Hwin Hmax. set (i := route_index (address_route a)).
  assert (i < length (reverse_dedup rt))%nat as Hi.
  { rewrite <- (rwf_lengths rt Hwf). rewrite resolve_alt in Hres. fold i in Hres.
    destruct (mjoin (slots rt !! i)) as [e|] eqn:He; [|done].
    apply lookup_mjoin in He. by eapply lookup_lt_Some. }
  destruct (lookup_lt_is_Some_2 _ _ Hi) as [cs Hcs]. exists cs. split; [done|].
  unfold accept_reverse. rewrite Hres. fold i. rewrite Hcs. cbn zeta.
  destruct (has_key (dedup_key d) (unexpired now (default [] cs))) eqn:Hk; cbn [fst snd]; [done|].
  split; [done|]. intros _ now' Hlt.
  unfold instant_checked_add. destruct (Z.leb_spec (now + dedup_window d) INSTANT_MAX); [|lia].
  cbn [default]. set (c := _ ++ _). unfold resolve, entry, set_dedup. cbn [slots reverse_dedup].
  unfold resolve, entry in Hres. rewrite Hres, list_lookup_insert_eq by done. cbn [default].
  assert (has_key (dedup_key d) (unexpired now' (id c)) = true) as ->; [|done].
  unfold has_key. apply bool_decide_eq_true. unfold unexpired, c, id. rewrite filter_app, fmap_app.
  apply elem_of_app. right. rewrite filter_cons_True by (cbn; lia). cbn. left.
Qed.

End RouteRuntime.

Arguments RouteAction TrackHandle : clear implicits.
Arguments RouteRuntimeEntry TrackHandle : clear implicits.
Arguments RouteRuntime TrackHandle : clear implicits.

(** ** Witnesses

    Handles are plain integers here; address [(slot 3, epoch 7)] of shard 0. *)

Definition demo_addr : NodeRouteAddress := mkNodeRouteAddress (mkRouteId (mkPackedRoute 3)) 7.
Definition demo_rt : RouteRuntime Z := install_action (runtime_new 0) demo_addr (Reverse 5).

Lemma runtime_new_wf : runtime_wf (TrackHandle := Z) (runtime_new 0).
Proof. constructor; cbn; [done|]. intros i c H. by rewrite lookup_nil in H. Qed.

Lemma demo_rt_wf : runtime_wf demo_rt.
Proof. apply install_action_wf, runtime_new_wf. Qed.

Lemma install_action_resolves_witness : resolve demo_rt demo_addr = Some (Reverse 5).
Proof.
  unfold demo_rt. rewrite (install_action_resolves (runtime_new 0) demo_addr (Reverse 5) demo_addr
    runtime_new_wf). reflexivity.
Defined.

Lemma route_table_invariant_witness :
  runtime_wf (fst (retire demo_rt demo_addr)).
Proof.
  apply (route_table_invariant 0 demo_rt demo_addr (Forward 1) 0 (mkDedup [] 1) 0
           (feedback demo_addr) demo_rt None demo_rt_wf).
Defined.

Lemma account_media_frame_total_witness :
  exists rt' e' out, account_media_frame 0 demo_rt 0 (media demo_addr 1 2) = Some (rt', out) /\
    entry rt' demo_addr = Some e' /\ received (stats e') = 1.
Proof.
  destruct (account_media_frame_total 0 demo_rt 0 (media demo_addr 1 2)
              (mkEntry 7 (Reverse 5) (expander_new 0) None stats_default) demo_rt_wf eq_refl)
    as (rt' & e' & out & H & He & _ & Hr & _).
  exists rt', e', out. split; [exact H|]. split; [exact He|]. rewrite Hr. reflexivity.
Defined.

Lemma loss_accounting_exact_witness :
  lost (stats (observe_all (mkEntry 7 (Forward 1) (expander_new 0) None stats_default)
                 (4294967290 :: [4294967300; 4294967295]))) = 8.
Proof.
  destruct (loss_accounting_exact (mkEntry 7 (Forward 1) (expander_new 0) None stats_default)
     4294967290 [4294967300; 4294967295] eq_refl eq_refl
     ltac:(by apply (bool_decide_unpack _)) ltac:(repeat constructor; lia) ltac:(cbn; lia)
     ltac:(cbn; lia)) as (_ & _ & Hl).
  exact Hl.
Defined.

Lemma accept_reverse_spec_witness :
  snd (accept_reverse (fst (accept_reverse demo_rt demo_addr (mkDedup [1] 100) 50))
         demo_addr (mkDedup [1] 100) 149) = false.
Proof.
  destruct (accept_reverse_spec demo_rt demo_addr (mkDedup [1] 100) 50 5 demo_rt_wf eq_refl
              ltac:(lia) ltac:(cbn; lia) ltac:(ground)) as (cs & _ & _ & H).
  apply H; [reflexivity|cbn; lia].
Defined.
