(* ===== verification/Room.v ===== *)
(** * Rooms

    The node-local part of a room ([control/room.rs], [RoomShard]): placement
    groups ("partitions") pinned to execution shards, held both by admitted
    participants and by reservations of connections that are still being
    negotiated. [Registry] is built on top of it.

    [assert!], [assert_eq!] and [expect] failures are the value [None]: the
    process ends there. [debug_assert!] is off in the builds that are shipped.
    Hash and index maps are finite maps; the iteration order of the
    participants of a room is left abstract ([participant_ids] is a set). *)

From S2P Require Import Prelude.
From S2P Require Import Route.

Record RoomPartition := mkPartition { shard_id : ShardId; occupants : Z }.

Inductive SignalingProtocol := State | Whip | Whep.
Inductive CommitCandidateError := Superseded.

(** ** The room *)

Section Room.
Context {ParticipantId : Type} `{!EqDecision ParticipantId, !Countable ParticipantId}.
Context {ConnectionId : Type} `{!EqDecision ConnectionId, !Countable ConnectionId}.

Record PendingPlacement := mkPending {
  partition_index : nat;
  connections : gset ConnectionId;
}.

Record RoomShard := mkRoom {
  participants : gmap ParticipantId nat;
  reservations : gmap ParticipantId PendingPlacement;
  partitions : list RoomPartition;
}.

Definition room_new : RoomShard := mkRoom ∅ ∅ [].

(** The first partition with room, or the next fresh index. *)
Fixpoint position_free (ps : list RoomPartition) (capacity : Z) (i : nat) : option nat :=
  match ps with
  | [] => None
  | p :: ps' => if occupants p <? capacity then Some i else position_free ps' capacity (S i)
  end.

Definition next_partition_index (r : RoomShard) (p : ParticipantId) (capacity : Z) : nat :=
  match participants r !! p with
  | Some index => index
  | None =>
      match reservations r !! p with
      | Some pending => partition_index pending
      | None => default (length (partitions r)) (position_free (partitions r) capacity 0)
      end
  end.

(** [partition_mut]: the partition list after the call and the partition the
    returned reference points to. *)
Definition partition_mut (ps : list RoomPartition) (shard : ShardId) (index : nat)
    : option (list RoomPartition * RoomPartition) :=
  let ps := if decide (index = length ps) then ps ++ [mkPartition shard 0] else ps in
  part ← ps !! index;
  let part := if occupants part =? 0 then mkPartition shard (occupants part) else part in
  if shard_id part =? shard then Some (<[index:=part]> ps, part) else None.

(** [partition.occupants = partition.occupants.saturating_add(1)] through the
    reference, unless the participant already holds the partition. *)
Definition hold (held : bool) (ps : list RoomPartition) (index : nat) (part : RoomPartition)
    : list RoomPartition :=
  if held then ps
  else <[index := mkPartition (shard_id part) (saturating_add 64 (occupants part) 1)]> ps.

Definition add_participant (r : RoomShard) (p : ParticipantId) (shard : ShardId) (index : nat)
    : option RoomShard :=
  match participants r !! p with
  | Some _ => Some r
  | None =>
      if match reservations r !! p with
         | Some pending => bool_decide (partition_index pending = index)
         | None => true
         end
      then
        let held := bool_decide (is_Some (reservations r !! p)) in
        '(ps, part) ← partition_mut (partitions r) shard index;
        Some (mkRoom (<[p:=index]> (participants r)) (reservations r) (hold held ps index part))
      else None
  end.

(** [partition.occupants = partition.occupants.saturating_sub(1)]. *)
Definition unhold (ps : list RoomPartition) (index : nat) (part : RoomPartition)
    : list RoomPartition :=
  <[index := mkPartition (shard_id part) (saturating_sub (occupants part) 1)]> ps.

Definition remove_participant (r : RoomShard) (p : ParticipantId) : option RoomShard :=
  match participants r !! p with
  | None => Some r
  | Some index =>
      part ← partitions r !! index;
      let ps := match reservations r !! p with
                | Some _ => partitions r
                | None => unhold (partitions r) index part
                end in
      Some (mkRoom (delete p (participants r)) (reservations r) ps)
  end.

Definition partition_owner (r : RoomShard) (index : nat) : option ShardId :=
  part ← partitions r !! index;
  if 0 <? occupants part then Some (shard_id part) else None.

Definition reserve (r : RoomShard) (p : ParticipantId) (c : ConnectionId) (shard : ShardId)
    (index : nat) : option RoomShard :=
  if match participants r !! p with
     | Some existing => bool_decide (existing = index)
     | None => true
     end &&
     match reservations r !! p with
     | Some pending => bool_decide (partition_index pending = index)
     | None => true
     end
  then
    let held := bool_decide (is_Some (participants r !! p)) ||
                bool_decide (is_Some (reservations r !! p)) in
    '(ps, part) ← partition_mut (partitions r) shard index;
    let pending := default (mkPending index ∅) (reservations r !! p) in
    Some (mkRoom (participants r)
            (<[p := mkPending (partition_index pending) ({[c]} ∪ connections pending)]>
               (reservations r))
            (hold held ps index part))
  else None.

Definition reserved (r : RoomShard) (p : ParticipantId) (c : ConnectionId) (shard : ShardId)
    (index : nat) : bool :=
  match reservations r !! p with
  | Some pending =>
      bool_decide (partition_index pending = index) &&
      bool_decide (c ∈ connections pending) &&
      bool_decide (partition_owner r index = Some shard)
  | None => false
  end.

Definition release (r : RoomShard) (p : ParticipantId) (c : ConnectionId) : RoomShard :=
  match reservations r !! p with
  | None => r
  | Some pending =>
      let left_ := connections pending ∖ {[c]} in
      if bool_decide (c ∉ connections pending) || bool_decide (left_ ≠ ∅) then
        mkRoom (participants r)
          (<[p := mkPending (partition_index pending) left_]> (reservations r)) (partitions r)
      else
        let index := partition_index pending in
        let ps := match participants r !! p, partitions r !! index with
                  | None, Some part => unhold (partitions r) index part
                  | _, _ => partitions r
                  end in
        mkRoom (participants r) (delete p (reservations r)) ps
  end.

Definition is_empty (r : RoomShard) : bool :=
  bool_decide (participants r = ∅) && bool_decide (reservations r = ∅).

Definition participant_count (r : RoomShard) : nat := size (participants r).
Definition participant_ids (r : RoomShard) : gset ParticipantId := dom (participants r).

(** ** Invariant

    Who holds which partition: a participant that is admitted, has a
    reservation, or both, holds exactly one. *)
Definition holders (r : RoomShard) : gmap ParticipantId nat :=
  participants r ∪ (partition_index <$> reservations r).

Definition holders_at (m : gmap ParticipantId nat) (i : nat) : nat :=
  size (filter (fun kv => kv.2 = i) m).

(** The occupancy counters of a partition table are those of [m]. *)
Definition slots_ok (ps : list RoomPartition) (m : gmap ParticipantId nat) : Prop :=
  map_Forall (fun _ i => (i < length ps)%nat) m /\
  forall i part, ps !! i = Some part -> occupants part = Z.of_nat (holders_at m i).

Record room_wf (r : RoomShard) : Prop := mk_room_wf {
  wf_slots : slots_ok (partitions r) (holders r);
  wf_agree : forall p i pending, participants r !! p = Some i ->
    reservations r !! p = Some pending -> partition_index pending = i;
  wf_connections : map_Forall (fun _ pending => connections pending ≠ ∅) (reservations r);
}.

(** Fewer holders than a [usize] counts; a node has no room for more. *)
Definition countable_room (r : RoomShard) : Prop := Z.of_nat (size (holders r)) < umax 64.

(** Held partitions keep their shard. *)
Definition shards_kept (ps ps' : list RoomPartition) : Prop :=
  forall i part, ps !! i = Some part -> 0 < occupants part ->
  exists part', ps' !! i = Some part' /\ shard_id part' = shard_id part.

(** ** Lemmas on occupancy *)

Lemma holders_lookup r p :
  holders r !! p =
    match participants r !! p with
    | Some i => Some i
    | None => partition_index <$> reservations r !! p
    end.
Proof.
  unfold holders. rewrite lookup_union, lookup_fmap.
  destruct (participants r !! p), (reservations r !! p); done.
Qed.

Lemma holders_at_insert m p i j :
  m !! p = None ->
  holders_at (<[p:=i]> m) j = (holders_at m j + if decide (i = j) then 1 else 0)%nat.
Proof.
  intros Hp. unfold holders_at. rewrite map_filter_insert. simpl. case_decide; subst.
  - rewrite map_size_insert_None; [lia|]. apply map_lookup_filter_None. by left.
  - rewrite delete_id by done. lia.
Qed.

Lemma holders_at_delete m p i j :
  m !! p = Some i ->
  holders_at m j = (holders_at (delete p m) j + if decide (i = j) then 1 else 0)%nat.
Proof.
  intros Hp. rewrite <- (insert_delete_id m p i Hp) at 1.
  apply holders_at_insert, lookup_delete_eq.
Qed.

Lemma holders_at_pos m p i : m !! p = Some i -> (0 < holders_at m i)%nat.
Proof. intros H. rewrite (holders_at_delete m p i i H), decide_True by done. lia. Qed.

Lemma holders_at_le m i : (holders_at m i <= size m)%nat.
Proof. apply map_size_filter. Qed.

Lemma holders_at_out ps m i : slots_ok ps m -> (length ps <= i)%nat -> holders_at m i = 0%nat.
Proof.
  intros [Hr _] Hl. destruct (decide (holders_at m i = 0%nat)) as [|Hpos]; [done|].
  apply map_size_ne_0_lookup_1 in Hpos as (p & j & Hp).
  apply map_lookup_filter_Some in Hp as [Hp Hj]. simpl in Hj. subst j.
  specialize (Hr p i Hp). simpl in Hr. lia.
Qed.

Lemma partition_mut_spec ps shard index ps' part m :
  slots_ok ps m -> partition_mut ps shard index = Some (ps', part) ->
  slots_ok ps' m /\ shards_kept ps ps' /\ ps' !! index = Some part /\ shard_id part = shard.
Proof.
  intros [Hr Ho]. unfold partition_mut. set (ps1 := if decide _ then _ else _).
  assert (slots_ok ps1 m /\ shards_kept ps ps1) as [[Hr1 Ho1] Hk1].
  { subst ps1. case_decide as E; [|split; [split; done|intros i q Hi _; eauto]].
    split; [split|].
    - intros p i Hp. rewrite length_app. specialize (Hr p i Hp). simpl in Hr. lia.
    - intros i q Hi. apply lookup_app_Some in Hi as [Hi|[Hge Hi]]; [by apply Ho|].
      apply list_lookup_singleton_Some in Hi as [Hi <-]. simpl.
      by rewrite (holders_at_out ps).
    - intros i q Hi _. exists q. split; [|done]. by apply lookup_app_l_Some. }
  clearbody ps1. destruct (ps1 !! index) as [q|] eqn:Eq; simpl; [|done].
  destruct (Z.eqb_spec (occupants q) 0); simpl; case_ifs; intros [= <- <-];
    assert (index < length ps1)%nat as Hl by (by eapply lookup_lt_Some).
  all: split_and!; try (by apply list_lookup_insert_eq); simpl; try lia.
  all: try split.
  all: try (intros p i Hp; rewrite length_insert; by eapply Hr1).
  all: try (intros i x; rewrite list_lookup_insert_dec by done; case_decide; subst;
            [intros [= <-]; simpl; by apply Ho1|apply Ho1]).
  all: intros i x Hi Hx; destruct (Hk1 i x Hi Hx) as (x' & Hi' & Hx');
       rewrite list_lookup_insert_dec by done; case_decide; subst; eauto.
  all: exists q; simplify_eq; rewrite ?Z.eqb_refl in *; try done.
  all: apply Ho in Hi; apply Ho1 in Eq; lia.
Qed.

(** Rewriting the counter of one partition, its shard kept. *)
Lemma recount_spec ps m m' index part n :
  slots_ok ps m -> ps !! index = Some part ->
  map_Forall (fun _ i => (i < length ps)%nat) m' ->
  n = Z.of_nat (holders_at m' index) ->
  (forall j, j <> index -> holders_at m' j = holders_at m j) ->
  slots_ok (<[index := mkPartition (shard_id part) n]> ps) m' /\
  shards_kept ps (<[index := mkPartition (shard_id part) n]> ps).
Proof.
  intros [Hr Ho] Hi Hr' Hn Hj. assert (index < length ps)%nat as Hl by (by eapply lookup_lt_Some).
  split; [split|].
  - intros p i Hp. rewrite length_insert. by eapply Hr'.
  - intros i q. rewrite list_lookup_insert_dec by done. case_decide as E; subst.
    + by intros [= <-].
    + intros Hq. rewrite Hj by done. by apply Ho.
  - intros i q Hq _. rewrite list_lookup_insert_dec by done.
    case_decide; simplify_eq; eauto.
Qed.

Lemma hold_spec ps m p index part :
  slots_ok ps m -> ps !! index = Some part -> m !! p = None ->
  Z.of_nat (size m) < umax 64 ->
  slots_ok (hold false ps index part) (<[p:=index]> m) /\
  shards_kept ps (hold false ps index part).
Proof.
  intros Hok Hi Hp Hn. unfold hold. apply (recount_spec ps m); try done.
  - destruct Hok as [Hr _]. apply map_Forall_insert_2; [|done].
    by eapply lookup_lt_Some.
  - rewrite (proj2 Hok _ _ Hi), holders_at_insert, decide_True by done.
    pose proof (holders_at_le m index). unfold_arith. lia.
  - intros j Hj. rewrite holders_at_insert, decide_False by done. lia.
Qed.

Lemma unhold_spec ps m p index part :
  slots_ok ps m -> ps !! index = Some part -> m !! p = Some index ->
  slots_ok (unhold ps index part) (delete p m) /\ shards_kept ps (unhold ps index part).
Proof.
  intros Hok Hi Hp. unfold unhold. apply (recount_spec ps m); try done.
  - destruct Hok as [Hr _]. by apply map_Forall_delete.
  - rewrite (proj2 Hok _ _ Hi), (holders_at_delete m p index index Hp), decide_True by done.
    unfold_arith. lia.
  - intros j Hj. rewrite (holders_at_delete m p index j Hp), decide_False by done. lia.
Qed.

Lemma shards_kept_refl ps : shards_kept ps ps.
Proof. intros i part Hi _. eauto. Qed.

Lemma shards_kept_trans ps1 ps2 ps3 m :
  slots_ok ps1 m -> slots_ok ps2 m ->
  shards_kept ps1 ps2 -> shards_kept ps2 ps3 -> shards_kept ps1 ps3.
Proof.
  intros [_ H1] [_ H2] H12 H23 i part Hi Hp.
  destruct (H12 i part Hi Hp) as (p2 & Hi2 & E2).
  destruct (H23 i p2 Hi2) as (p3 & Hi3 & E3).
  - apply H1 in Hi. apply H2 in Hi2. lia.
  - exists p3. split; [done|]. congruence.
Qed.

(** A partition somebody holds is in the table and has an owner. *)
Lemma held_owner ps m p i :
  slots_ok ps m -> m !! p = Some i ->
  exists part, ps !! i = Some part /\ 0 < occupants part.
Proof.
  intros [Hr Ho] Hp. specialize (Hr p i Hp). simpl in Hr.
  apply lookup_lt_is_Some_2 in Hr as [part Hi]. exists part. split; [done|].
  apply Ho in Hi. apply holders_at_pos in Hp. lia.
Qed.

Lemma owned_by r p i shard q :
  room_wf r -> holders r !! p = Some i -> partitions r !! i = Some q -> shard_id q = shard ->
  partition_owner r i = Some shard.
Proof.
  intros Hwf Hp Hq <-. destruct (held_owner _ _ p i (wf_slots _ Hwf) Hp) as (q' & Hq' & Hpos).
  unfold partition_owner. simplify_eq. rewrite Hq. simpl.
  by rewrite (proj2 (Z.ltb_lt _ _)) by lia.
Qed.

Lemma owner_inv r i shard :
  partition_owner r i = Some shard ->
  exists q, partitions r !! i = Some q /\ 0 < occupants q /\ shard_id q = shard.
Proof.
  unfold partition_owner. destruct (partitions r !! i) as [q|]; simpl; [|done].
  case_ifs; intros [= <-]. exists q. split_and!; [done|lia|done].
Qed.

(** A room operation that ends in [r'] keeps the invariant, keeps every held
    partition on its shard and changes who holds what only as [f] says. *)
Record room_step (r r' : RoomShard) (f : gmap ParticipantId nat -> gmap ParticipantId nat)
    : Prop := mk_room_step {
  step_wf : room_wf r';
  step_kept : shards_kept (partitions r) (partitions r');
  step_holders : holders r' = f (holders r);
}.

Lemma room_step_intro (r r' : RoomShard) f :
  (forall p i pending, participants r' !! p = Some i ->
     reservations r' !! p = Some pending -> partition_index pending = i) ->
  map_Forall (fun _ pending => connections pending ≠ ∅) (reservations r') ->
  holders r' = f (holders r) ->
  slots_ok (partitions r') (f (holders r)) /\ shards_kept (partitions r) (partitions r') ->
  room_step r r' f.
Proof. intros Ha Hc Hh [Hs Hk]. split; [split| |]; try done. by rewrite Hh. Qed.

Lemma room_step_id r r' :
  room_wf r ->
  (forall p i pending, participants r' !! p = Some i ->
     reservations r' !! p = Some pending -> partition_index pending = i) ->
  map_Forall (fun _ pending => connections pending ≠ ∅) (reservations r') ->
  holders r' = holders r -> partitions r' = partitions r -> room_step r r' id.
Proof.
  intros Hwf Ha Hc Hh Hp. apply room_step_intro; try done. rewrite Hp. split; [apply Hwf|].
  apply shards_kept_refl.
Qed.

(** Taking a partition through [partition_mut] and [hold]. *)
Lemma take_partition ps m p shard index ps' part (held : bool) :
  slots_ok ps m -> Z.of_nat (size m) < umax 64 ->
  partition_mut ps shard index = Some (ps', part) ->
  m !! p = (if held then Some index else None) ->
  slots_ok (hold held ps' index part) (<[p:=index]> m) /\
  shards_kept ps (hold held ps' index part) /\
  exists part', hold held ps' index part !! index = Some part' /\ shard_id part' = shard.
Proof.
  intros Hok Hn Hpm Hp. destruct (partition_mut_spec _ _ _ _ _ _ Hok Hpm) as (Hok' & Hk & Hi & Hs).
  destruct held.
  - rewrite insert_id by done. eauto.
  - destruct (hold_spec ps' m p index part) as [Hok2 Hk2]; try done. split_and!; [done| |].
    + by eapply shards_kept_trans.
    + unfold hold. exists (mkPartition (shard_id part) (saturating_add 64 (occupants part) 1)).
      split; [|done]. apply list_lookup_insert_eq. by eapply lookup_lt_Some.
Qed.

Lemma add_participant_step r p shard index r' :
  room_wf r -> countable_room r -> participants r !! p = None ->
  add_participant r p shard index = Some r' ->
  room_step r r' <[p:=index]> /\ partition_owner r' index = Some shard /\
  participants r' = <[p:=index]> (participants r) /\ reservations r' = reservations r.
Proof.
  intros Hwf Hn Hp. unfold add_participant. rewrite Hp. case_match eqn:Ea; [|done].
  destruct (partition_mut _ _ _) as [[ps' part]|] eqn:Epm; simpl; [|done]. intros [= <-].
  assert (holders r !! p = if bool_decide (is_Some (reservations r !! p)) then Some index else None)
    as Hh.
  { rewrite holders_lookup, Hp. destruct (reservations r !! p); simpl; [|done].
    apply bool_decide_eq_true in Ea. by subst. }
  destruct (take_partition _ _ _ _ _ _ _ _ (wf_slots _ Hwf) Hn Epm Hh) as (Hok & Hk & q & Hq & Hqs).
  assert (room_step r (mkRoom (<[p:=index]> (participants r)) (reservations r)
    (hold (bool_decide (is_Some (reservations r !! p))) ps' index part)) <[p:=index]>) as Hst.
  { apply room_step_intro; simpl; [| |symmetry; apply insert_union_l|done].
    - intros p' i pending. rewrite lookup_insert. case_decide; subst.
      + intros [= <-] Hr. rewrite Hr in Ea. by apply bool_decide_eq_true in Ea.
      + apply (wf_agree _ Hwf).
    - apply (wf_connections _ Hwf). }
  split_and!; try done. apply (owned_by _ p _ _ q); [apply Hst| |done..].
  rewrite (step_holders _ _ _ Hst). apply lookup_insert_eq.
Qed.

Lemma reserve_step r p c shard index r' :
  room_wf r -> countable_room r -> reserve r p c shard index = Some r' ->
  room_step r r' <[p:=index]> /\ partition_owner r' index = Some shard /\
  participants r' = participants r /\
  exists cs, reservations r' = <[p := mkPending index ({[c]} ∪ cs)]> (reservations r) /\
    (forall pending, reservations r !! p = Some pending ->
       cs = connections pending /\ partition_index pending = index).
Proof.
  intros Hwf Hn. unfold reserve. case_match eqn:Ea; [|done].
  apply andb_true_iff in Ea as [Ea1 Ea2].
  destruct (partition_mut _ _ _) as [[ps' part]|] eqn:Epm; simpl; [|done]. intros [= <-].
  set (held := _ || _). assert (holders r !! p = if held then Some index else None) as Hh.
  { subst held. rewrite holders_lookup. destruct (participants r !! p); simpl.
    - apply bool_decide_eq_true in Ea1. by subst.
    - destruct (reservations r !! p); simpl; [|done].
      apply bool_decide_eq_true in Ea2. by subst. }
  destruct (take_partition _ _ _ _ _ _ _ _ (wf_slots _ Hwf) Hn Epm Hh) as (Hok & Hk & q & Hq & Hqs).
  assert (partition_index (default (mkPending index ∅) (reservations r !! p)) = index) as Hpi.
  { destruct (reservations r !! p); simpl; [|done]. by apply bool_decide_eq_true in Ea2. }
  rewrite Hpi. match goal with |- room_step r ?r' _ /\ _ => assert (room_step r r' <[p:=index]>) as Hst end.
  { apply room_step_intro; simpl; [| | |done].
    - intros p' i pending Hp. rewrite lookup_insert. case_decide; subst.
      + intros [= <-]. simpl. rewrite Hp in Ea1. by apply bool_decide_eq_true in Ea1.
      + by apply (wf_agree _ Hwf).
    - apply map_Forall_insert_2; [set_solver|apply (wf_connections _ Hwf)].
    - apply map_eq. intros p'. rewrite lookup_insert, !holders_lookup. simpl.
      rewrite lookup_insert. case_decide; subst; simpl; [|done].
      destruct (participants r !! p') eqn:Ep; [|done]. apply bool_decide_eq_true in Ea1.
      by subst. }
  split_and!; try done.
  - apply (owned_by _ p _ _ q); [apply Hst| |done..].
    rewrite (step_holders _ _ _ Hst). apply lookup_insert_eq.
  - eexists. split; [done|]. intros pending Hp. rewrite Hp in Hpi |- *. done.
Qed.

Lemma remove_participant_step r p index :
  room_wf r -> participants r !! p = Some index ->
  exists r', remove_participant r p = Some r' /\
    room_step r r' (if reservations r !! p is Some _ then id else delete p) /\
    participants r' = delete p (participants r) /\ reservations r' = reservations r.
Proof.
  intros Hwf Hp. unfold remove_participant. rewrite Hp.
  assert (holders r !! p = Some index) as Hh by by rewrite holders_lookup, Hp.
  destruct (held_owner _ _ p index (wf_slots _ Hwf) Hh) as (part & Hi & Hpos).
  rewrite Hi. simpl. eexists. split; [done|]. split; [|done].
  assert (forall p' i pending, delete p (participants r) !! p' = Some i ->
    reservations r !! p' = Some pending -> partition_index pending = i) as Hag.
  { intros p' i pending. rewrite lookup_delete_Some. intros [_ ?]. by apply (wf_agree _ Hwf). }
  destruct (reservations r !! p) as [pending|] eqn:Er.
  - apply room_step_id; simpl; try done; [apply (wf_connections _ Hwf)|].
    apply map_eq. intros p'. rewrite !holders_lookup. simpl. rewrite lookup_delete.
    case_decide; subst; [|done]. rewrite Hp, Er. simpl. f_equal. by apply (wf_agree _ Hwf p').
  - apply room_step_intro; simpl; [done|apply (wf_connections _ Hwf)| |].
    + apply map_eq. intros p'. rewrite lookup_delete, !holders_lookup. simpl.
      rewrite lookup_delete. case_decide; subst; [|done]. by rewrite Er.
    + by apply (unhold_spec _ _ p); [apply Hwf| |].
Qed.

Lemma release_step r p c pending :
  room_wf r -> reservations r !! p = Some pending ->
  exists f, room_step r (release r p c) f /\
  (f = id \/ f = delete p) /\ participants (release r p c) = participants r /\
  forall p' c' pend', reservations r !! p' = Some pend' -> c' ∈ connections pend' ->
    (p', c') <> (p, c) ->
    exists pend2, reservations (release r p c) !! p' = Some pend2 /\
      partition_index pend2 = partition_index pend' /\ c' ∈ connections pend2.
Proof.
  intros Hwf Hr. unfold release. rewrite Hr. set (left_ := connections pending ∖ {[c]}).
  case_match eqn:Ec.
  - exists id. split; [|split_and!; [by left|done|]].
    + apply room_step_id; simpl; try done.
      * intros p' i pend. rewrite lookup_insert. destruct (decide (p = p')); subst.
        -- intros Hp [= <-]. simpl. by apply (wf_agree _ Hwf p').
        -- apply (wf_agree _ Hwf).
      * apply map_Forall_insert_2; [|apply (wf_connections _ Hwf)]. simpl.
        apply orb_true_iff in Ec as [Ec|Ec]; apply bool_decide_eq_true in Ec; [|done].
        subst left_. rewrite difference_disjoint_L by set_solver.
        by apply (wf_connections _ Hwf p).
      * unfold holders. simpl. rewrite fmap_insert. simpl. rewrite insert_id; [done|].
        by rewrite lookup_fmap, Hr.
    + intros p' c' pend' Hp' Hc' Hne. simpl. rewrite lookup_insert. destruct (decide (p = p')); subst.
      * simplify_eq. eexists. split; [done|]. split; [done|]. simpl. subst left_.
        assert (c' <> c) by congruence. set_solver.
      * eauto.
  - apply orb_false_iff in Ec as [Ec1 Ec2]. apply bool_decide_eq_false in Ec1, Ec2.
    assert (forall p' c' pend', reservations r !! p' = Some pend' -> c' ∈ connections pend' ->
      (p', c') <> (p, c) -> delete p (reservations r) !! p' = Some pend') as Hothers.
    { intros p' c' pend' Hp' Hc' Hne. rewrite lookup_delete. case_decide; subst; [|done].
      simplify_eq. assert (c' <> c) by congruence. exfalso. apply Ec2. intros E.
      assert (c' ∈ left_) by (subst left_; set_solver). set_solver. }
    assert (forall p' i pend, participants r !! p' = Some i ->
      delete p (reservations r) !! p' = Some pend -> partition_index pend = i) as Hag.
    { intros p' i pend Hp'. rewrite lookup_delete_Some. intros [_ ?]. by apply (wf_agree _ Hwf p'). }
    assert (map_Forall (fun _ pend => connections pend ≠ ∅) (delete p (reservations r))) as Hco
      by apply map_Forall_delete, (wf_connections _ Hwf).
    destruct (participants r !! p) as [i|] eqn:Ep.
    + exists id. split; [|split_and!; [by left|done|eauto]].
      apply room_step_id; try done. apply map_eq. intros p'. rewrite !holders_lookup. simpl.
      rewrite lookup_delete. case_decide; subst; [by rewrite Ep|done].
    + exists (delete p). assert (holders r !! p = Some (partition_index pending)) as Hh
        by by rewrite holders_lookup, Ep, Hr.
      destruct (held_owner _ _ _ _ (wf_slots _ Hwf) Hh) as (part & Hi & _). rewrite Hi.
      split; [|split_and!; [by right|done|eauto]].
      apply room_step_intro; simpl; [done|done| |].
      * apply map_eq. intros p'. rewrite lookup_delete, !holders_lookup. simpl.
        rewrite lookup_delete. case_decide; subst; [by rewrite Ep|done].
      * by apply (unhold_spec _ _ p); [apply Hwf| |].
Qed.

(** ** Reservations *)

Lemma reserved_spec r p c shard index :
  reserved r p c shard index = true <->
  exists pending, reservations r !! p = Some pending /\ partition_index pending = index /\
    c ∈ connections pending /\ partition_owner r index = Some shard.
Proof.
  unfold reserved. destruct (reservations r !! p) as [pending|].
  - rewrite !andb_true_iff, !bool_decide_eq_true. split; [naive_solver|].
    intros (? & [= <-] & ?). tauto.
  - split; [done|]. by intros (? & ? & _).
Qed.

Lemma owner_kept r r' f p i shard :
  room_step r r' f -> partition_owner r i = Some shard -> holders r' !! p = Some i ->
  partition_owner r' i = Some shard.
Proof.
  intros Hst Ho Hp. apply owner_inv in Ho as (q & Hq & Hpos & Hs).
  destruct (step_kept _ _ _ Hst i q Hq Hpos) as (q' & Hq' & Hs').
  apply (owned_by _ p _ _ q'); [apply Hst|done..|congruence].
Qed.

(** A reservation outlives every operation that keeps its claim in the map. *)
Lemma reserved_kept r r' f p c shard index :
  room_step r r' f -> reserved r p c shard index = true ->
  (forall pending, reservations r !! p = Some pending -> c ∈ connections pending ->
     exists pending', reservations r' !! p = Some pending' /\
       partition_index pending' = partition_index pending /\ c ∈ connections pending') ->
  reserved r' p c shard index = true.
Proof.
  intros Hst Hr Hkeep. apply reserved_spec in Hr as (pending & Hp & Hi & Hc & Ho).
  destruct (Hkeep pending Hp Hc) as (pending' & Hp' & Hi' & Hc').
  apply reserved_spec. exists pending'. split_and!; [done|congruence|done|].
  apply (owner_kept r r' f p); [done..|]. rewrite holders_lookup.
  destruct (participants r' !! p) as [j|] eqn:Ej; [|rewrite Hp'; simpl; congruence].
  rewrite <- (wf_agree _ (step_wf _ _ _ Hst) p j pending'); congruence.
Qed.

(** A partition that is free, or owned by the requested shard, can be taken. *)
Lemma partition_mut_total ps m shard index :
  slots_ok ps m -> (index <= length ps)%nat ->
  (forall q, ps !! index = Some q -> 0 < occupants q -> shard_id q = shard) ->
  exists ps' part, partition_mut ps shard index = Some (ps', part).
Proof.
  intros [_ Ho] Hl Hs. unfold partition_mut. case_decide as E; subst.
  - rewrite lookup_app_r, Nat.sub_diag by lia. simpl. rewrite Z.eqb_refl. eauto.
  - destruct (lookup_lt_is_Some_2 ps index) as [q Hq]; [lia|]. rewrite Hq. simpl.
    specialize (Hs q Hq). apply Ho in Hq.
    destruct (Z.eqb_spec (occupants q) 0); simpl; [rewrite Z.eqb_refl; eauto|].
    rewrite Hs, Z.eqb_refl by lia. eauto.
Qed.

Lemma position_free_spec ps capacity i j :
  position_free ps capacity i = Some j ->
  (i <= j)%nat /\ exists q, ps !! (j - i)%nat = Some q /\ occupants q < capacity.
Proof.
  revert i. induction ps as [|q ps IH]; simpl; [done|]. intros i. case_ifs.
  - intros [= <-]. split; [lia|]. exists q. rewrite Nat.sub_diag. split; [done|lia].
  - intros H. apply IH in H as [Hij (q' & Hq' & Hc)]. split; [lia|]. exists q'.
    replace (j - i)%nat with (S (j - S i)) by lia. done.
Qed.

Lemma next_partition_cases r p capacity :
  room_wf r ->
  let index := next_partition_index r p capacity in
  holders r !! p = Some index \/
  (holders r !! p = None /\
   (index = length (partitions r) \/
    exists q, partitions r !! index = Some q /\ occupants q < capacity)).
Proof.
  intros Hwf. unfold next_partition_index. rewrite holders_lookup.
  destruct (participants r !! p); [by left|]. destruct (reservations r !! p); [by left|].
  right. split; [done|]. destruct (position_free _ _ _) as [j|] eqn:E; simpl; [|by left].
  right. apply position_free_spec in E as [_ (q & Hq & Hc)]. rewrite Nat.sub_0_r in Hq. eauto.
Qed.

Lemma reserve_total r p c shard index :
  room_wf r -> (index <= length (partitions r))%nat ->
  (forall i, holders r !! p = Some i -> i = index) ->
  (forall o, partition_owner r index = Some o -> o = shard) ->
  exists r', reserve r p c shard index = Some r'.
Proof.
  intros Hwf Hl Hh Ho. unfold reserve.
  destruct (partition_mut_total _ _ shard index (wf_slots _ Hwf) Hl) as (ps' & part & ->).
  { intros q Hq Hpos. apply Ho. unfold partition_owner. rewrite Hq. simpl.
    by rewrite (proj2 (Z.ltb_lt _ _)). }
  rewrite holders_lookup in Hh. destruct (participants r !! p) as [i|] eqn:Ep; simpl.
  - rewrite (bool_decide_true _ (Hh i eq_refl)). simpl.
    destruct (reservations r !! p) as [pending|] eqn:Er; simpl; [|eauto].
    rewrite bool_decide_true; [simpl; eauto|]. rewrite <- (Hh i eq_refl).
    by apply (wf_agree _ Hwf p).
  - destruct (reservations r !! p) as [pending|] eqn:Er; simpl; [|eauto].
    rewrite bool_decide_true; [simpl; eauto|]. by apply Hh.
Qed.

Definition within_capacity (r : RoomShard) (capacity : Z) : Prop :=
  forall i q, partitions r !! i = Some q -> occupants q <= capacity.

Lemma holders_at_bound ps m i capacity :
  slots_ok ps m -> 0 < capacity ->
  (forall j q, ps !! j = Some q -> occupants q <= capacity) ->
  Z.of_nat (holders_at m i) <= capacity.
Proof.
  intros Hok Hcap Hin. destruct (ps !! i) as [q|] eqn:Hq.
  - rewrite <- (proj2 Hok i q Hq). by eapply Hin.
  - apply lookup_ge_None in Hq. rewrite (holders_at_out ps) by done. lia.
Qed.

(** Admission never aborts and never overfills: reserving the partition
    [next_partition_index] chooses, on the shard that owns it when it has an
    owner, succeeds, leaves the claim confirmed by [reserved], keeps every
    partition within the capacity, moves no held partition to another shard
    and leaves the other holders where they are. *)
Theorem admission_respects_capacity r p c capacity shard :
  room_wf r -> countable_room r -> 0 < capacity -> within_capacity r capacity ->
  (forall o, partition_owner r (next_partition_index r p capacity) = Some o -> o = shard) ->
  exists r', reserve r p c shard (next_partition_index r p capacity) = Some r' /\
    room_wf r' /\ within_capacity r' capacity /\
    reserved r' p c shard (next_partition_index r p capacity) = true /\
    shards_kept (partitions r) (partitions r') /\
    delete p (holders r') = delete p (holders r).
Proof.
  intros Hwf Hn Hcap Hin Ho. pose proof (next_partition_cases r p capacity Hwf) as Hc.
  cbv zeta in Hc. set (index := next_partition_index r p capacity) in *.
  destruct (reserve_total r p c shard index Hwf) as [r' Hr']; [| |done|].
  - destruct Hc as [Hc|[_ [->|(q & Hq & _)]]]; [|lia|].
    + pose proof (proj1 (wf_slots _ Hwf) p index Hc). simpl in *. lia.
    + apply lookup_lt_Some in Hq. lia.
  - intros i Hi. destruct Hc as [Hc|[Hc _]]; congruence.
  - destruct (reserve_step _ _ _ _ _ _ Hwf Hn Hr') as (Hst & Hown & Hps & cs & Hrs & _).
    exists r'. split_and!; try done; [apply Hst| |..].
    + intros i q Hq. rewrite (proj2 (wf_slots _ (step_wf _ _ _ Hst)) i q Hq).
      rewrite (step_holders _ _ _ Hst).
      pose proof (holders_at_bound _ _ i _ (wf_slots _ Hwf) Hcap Hin).
      destruct Hc as [Hc|[Hc Hfree]]; [by rewrite insert_id|].
      rewrite holders_at_insert by done. case_decide; subst; [|lia].
      enough (Z.of_nat (holders_at (holders r) index) < capacity) by lia.
      destruct Hfree as [->|(q0 & Hq0 & Hlt)]; [|by rewrite <- (proj2 (wf_slots _ Hwf) _ _ Hq0)].
      rewrite (holders_at_out _ _ _ (wf_slots _ Hwf)) by lia. lia.
    + apply reserved_spec. exists (mkPending index ({[c]} ∪ cs)). rewrite Hrs, lookup_insert_eq.
      simpl. split_and!; [done|done|set_solver|done].
    + apply Hst.
    + rewrite (step_holders _ _ _ Hst). apply delete_insert_eq.
Qed.
End Room.

(** Demonstration state: two participants on partitions of capacity one. *)
Definition demo_room : RoomShard (ParticipantId := Z) (ConnectionId := Z) :=
  default room_new (r ← reserve room_new 1 10 0 0; add_participant r 2 3 1).

Lemma demo_room_step :
  room_wf demo_room /\ countable_room demo_room.
Proof.
  assert (room_wf (ParticipantId := Z) (ConnectionId := Z) room_new) as H0.
  { split; [split| |]; done. }
  destruct (reserve room_new 1 10 0 0) as [r1|] eqn:E1; [|by vm_compute in E1].
  destruct (reserve_step _ _ _ _ _ _ H0 ltac:(done) E1) as (Hst & _).
  destruct (add_participant r1 2 3 1) as [r2|] eqn:E2; [|by vm_compute in E1; inv E1].
  assert (demo_room = r2) as ->.
  { unfold demo_room. rewrite E1. simpl. by rewrite E2. }
  assert (countable_room r1 /\ participants r1 !! 2 = None) as [Hc1 Hp1].
  { vm_compute in E1. inv E1. split; [|done]. vm_compute. done. }
  destruct (add_participant_step _ _ _ _ _ (step_wf _ _ _ Hst) Hc1 Hp1 E2) as (Hst2 & _).
  split; [apply Hst2|]. vm_compute in E1. inv E1. vm_compute in E2. inv E2. by vm_compute.
Qed.

Lemma admission_respects_capacity_witness :
  exists r', reserve demo_room 3 11 5 (next_partition_index demo_room 3 1) = Some r' /\
    within_capacity r' 1.
Proof.
  destruct demo_room_step as [Hwf Hc].
  destruct (admission_respects_capacity demo_room 3 11 1 5 Hwf Hc) as (r' & Hr & _ & Hin & _).
  - lia.
  - intros i q Hq. apply list_elem_of_lookup_2 in Hq. revert q Hq. apply Forall_forall.
    vm_compute. repeat constructor; done.
  - intros o. by vm_compute.
  - eauto.
Defined.
