(* ===== verification/Registry.v ===== *)
(** * The participant registry

    [control/registry.rs]: the control plane's single record of where each
    participant is ([ParticipantMeta]), and the rooms' partition tables
    ([Room]). A connection id is a version-7 UUID; its derived order is that of
    its sixteen bytes, here the integer they spell. [None] is a failed
    assertion of the room. *)

From S2P Require Import Prelude.
From S2P Require Import Route.
From S2P Require Import Room.

Section Registry.
Context {ParticipantId RoomId ParticipantExternalId AuthorizationLease : Type}.
Context `{!EqDecision ParticipantId, !Countable ParticipantId}.
Context `{!EqDecision RoomId, !Countable RoomId}.

#[local] Abbreviation ConnectionId := Z (only parsing).
#[local] Abbreviation RoomShard := (RoomShard (ParticipantId := ParticipantId) (ConnectionId := Z)).

Record ParticipantMeta := mkMeta {
  meta_shard : ShardId;
  meta_room : RoomId;
  meta_external : option ParticipantExternalId;
  meta_transport : option NodeTransportAddress;
  meta_connection : ConnectionId;
  meta_profile : SignalingProtocol;
  meta_authorization : option AuthorizationLease;
  meta_materialized : bool;
}.

Record RoomRegistry := mkRegistry {
  room_shards : gmap RoomId RoomShard;
  metas : gmap ParticipantId ParticipantMeta;
}.

Definition registry_new : RoomRegistry := mkRegistry ∅ ∅.

(** [room_shards.entry(room).or_insert_with(RoomShard::new)] *)
Definition room_or_new (g : RoomRegistry) (room : RoomId) : RoomShard :=
  default room_new (room_shards g !! room).

Definition reserve_partition (g : RoomRegistry) (room : RoomId) (p : ParticipantId)
    (c : ConnectionId) (shard : ShardId) (index : nat) : option RoomRegistry :=
  r ← reserve (room_or_new g room) p c shard index;
  Some (mkRegistry (<[room:=r]> (room_shards g)) (metas g)).

Definition partition_reserved (g : RoomRegistry) (room : RoomId) (p : ParticipantId)
    (c : ConnectionId) (shard : ShardId) (index : nat) : bool :=
  match room_shards g !! room with
  | Some r => reserved r p c shard index
  | None => false
  end.

(** The room written back, or dropped once nobody holds a place in it. *)
Definition put_room (g : RoomRegistry) (room : RoomId) (r : RoomShard) : RoomRegistry :=
  if is_empty r then mkRegistry (delete room (room_shards g)) (metas g)
  else mkRegistry (<[room:=r]> (room_shards g)) (metas g).

Definition release_partition (g : RoomRegistry) (room : RoomId) (p : ParticipantId)
    (c : ConnectionId) : RoomRegistry :=
  match room_shards g !! room with
  | Some r => put_room g room (release r p c)
  | None => g
  end.

Definition remove_from_room_shard (g : RoomRegistry) (room : RoomId) (p : ParticipantId)
    : option RoomRegistry :=
  match room_shards g !! room with
  | Some r => r' ← remove_participant r p; Some (put_room g room r')
  | None => Some g
  end.

Definition commit_candidate (g : RoomRegistry) (p : ParticipantId) (room : RoomId)
    (shard : ShardId) (index : nat) (transport : NodeTransportAddress) (c : ConnectionId)
    (profile : SignalingProtocol) (external : option ParticipantExternalId)
    : option (RoomRegistry * result CommitCandidateError (option ParticipantMeta)) :=
  let previous := metas g !! p in
  if match previous with Some current => c <=? meta_connection current | None => false end
  then Some (g, Err Superseded)
  else
    let meta := mkMeta shard room external (Some transport) c profile None true in
    let g1 := mkRegistry (room_shards g) (<[p:=meta]> (metas g)) in
    g2 ← match previous with
         | None => Some g1
         | Some prev =>
             if decide (meta_room prev = room) then
               match room_shards g1 !! room with
               | Some r => r' ← remove_participant r p;
                           Some (mkRegistry (<[room:=r']> (room_shards g1)) (metas g1))
               | None => Some g1
               end
             else remove_from_room_shard g1 (meta_room prev) p
         end;
    r ← add_participant (room_or_new g2 room) p shard index;
    Some (mkRegistry (<[room:=r]> (room_shards g2)) (metas g2), Ok previous).

Definition remove_incarnation (g : RoomRegistry) (p : ParticipantId) (c : ConnectionId)
    : option (RoomRegistry * option ParticipantMeta) :=
  match metas g !! p with
  | Some meta =>
      if meta_connection meta =? c then
        g' ← remove_from_room_shard (mkRegistry (room_shards g) (delete p (metas g)))
               (meta_room meta) p;
        Some (g', Some meta)
      else Some (g, None)
  | None => Some (g, None)
  end.

Definition update_authorization (g : RoomRegistry) (p : ParticipantId) (c : ConnectionId)
    (lease : AuthorizationLease) : RoomRegistry :=
  match metas g !! p with
  | Some m =>
      if meta_connection m =? c then
        mkRegistry (room_shards g)
          (<[p := mkMeta (meta_shard m) (meta_room m) (meta_external m) (meta_transport m)
                    (meta_connection m) (meta_profile m) (Some lease) (meta_materialized m)]>
             (metas g))
      else g
  | None => g
  end.

Definition get_participant (g : RoomRegistry) (p : ParticipantId) : option ParticipantMeta :=
  metas g !! p.
Definition local_participant_ids_in_room (g : RoomRegistry) (room : RoomId) : gset ParticipantId :=
  match room_shards g !! room with Some r => participant_ids r | None => ∅ end.

(** ** The registry as a transition system *)

Inductive reg_event :=
| EReserve (room : RoomId) (p : ParticipantId) (c : ConnectionId) (shard : ShardId) (index : nat)
| ERelease (room : RoomId) (p : ParticipantId) (c : ConnectionId)
| ECommit (p : ParticipantId) (room : RoomId) (shard : ShardId) (index : nat)
    (transport : NodeTransportAddress) (c : ConnectionId) (profile : SignalingProtocol)
    (external : option ParticipantExternalId)
| ERemove (p : ParticipantId) (c : ConnectionId)
| EAuthorize (p : ParticipantId) (c : ConnectionId) (lease : AuthorizationLease).

(** One call on the registry; [None] when the process aborts. *)
Definition reg_exec (g : RoomRegistry) (e : reg_event) : option RoomRegistry :=
  match e with
  | EReserve room p c shard index => reserve_partition g room p c shard index
  | ERelease room p c => Some (release_partition g room p c)
  | ECommit p room shard index transport c profile external =>
      fst <$> commit_candidate g p room shard index transport c profile external
  | ERemove p c => fst <$> remove_incarnation g p c
  | EAuthorize p c lease => Some (update_authorization g p c lease)
  end.

Definition countable_registry (g : RoomRegistry) : Prop :=
  map_Forall (fun _ r => countable_room r) (room_shards g).

#[export] Instance countable_registry_dec g : Decision (countable_registry g).
Proof. unfold countable_registry, countable_room. apply _. Defined.

Inductive reg_run : RoomRegistry -> list reg_event -> RoomRegistry -> Prop :=
| run_nil g : reg_run g [] g
| run_cons g e g1 es g2 :
    countable_registry g -> reg_exec g e = Some g1 -> reg_run g1 es g2 -> reg_run g (e :: es) g2.

(** A run computed from its events. *)
Fixpoint reg_replay (g : RoomRegistry) (es : list reg_event) : option RoomRegistry :=
  match es with
  | [] => Some g
  | e :: es' =>
      if decide (countable_registry g) then g1 ← reg_exec g e; reg_replay g1 es' else None
  end.

Lemma reg_replay_run g es g' : reg_replay g es = Some g' -> reg_run g es g'.
Proof.
  revert g. induction es as [|e es IH]; simpl; intros g.
  - intros [= <-]. apply run_nil.
  - case_decide; [|done]. destruct (reg_exec g e) as [g1|] eqn:E; simpl; [|done].
    intros. eapply run_cons; eauto.
Qed.

(** ** Invariant

    The registry and the rooms agree about where everybody is: a participant
    is recorded in a room exactly when that room's table lists it, in a
    partition owned by the recorded shard; no room is kept for nobody. *)
Definition placed (g : RoomRegistry) (p : ParticipantId) : Prop :=
  (forall meta, metas g !! p = Some meta -> exists r i,
     room_shards g !! meta_room meta = Some r /\ participants r !! p = Some i /\
     partition_owner r i = Some (meta_shard meta)) /\
  (forall room r i, room_shards g !! room = Some r -> participants r !! p = Some i ->
     exists meta, metas g !! p = Some meta /\ meta_room meta = room).

Record reg_located (g : RoomRegistry) : Prop := mk_reg_located {
  reg_rooms : map_Forall (fun _ r => room_wf r) (room_shards g);
  reg_placed : forall p, placed g p;
}.

Definition reg_wf (g : RoomRegistry) : Prop :=
  reg_located g /\ map_Forall (fun _ r => is_empty r = false) (room_shards g).

(** ** Lemmas *)

Lemma room_new_wf : room_wf (room_new : RoomShard).
Proof. split; [split| |]; done. Qed.

Lemma room_or_new_wf g room : reg_located g -> room_wf (room_or_new g room).
Proof.
  intros Hg. unfold room_or_new. destruct (room_shards g !! room) eqn:E; simpl.
  - by eapply (reg_rooms _ Hg).
  - apply room_new_wf.
Qed.

Lemma room_or_new_countable g room : countable_registry g -> countable_room (room_or_new g room).
Proof.
  intros Hg. unfold room_or_new. destruct (room_shards g !! room) eqn:E; simpl; [by eapply Hg|done].
Qed.

Lemma room_or_new_some g room r : room_shards g !! room = Some r -> room_or_new g room = r.
Proof. intros H. unfold room_or_new. by rewrite H. Qed.

Lemma is_empty_true (r : RoomShard) :
  is_empty r = true <-> participants r = ∅ /\ reservations r = ∅.
Proof. unfold is_empty. by rewrite andb_true_iff, !bool_decide_eq_true. Qed.

(** [g'] is [g] with one room replaced, or dropped when nobody is in it. *)
Record replaced (g g' : RoomRegistry) (room : RoomId) (r' : RoomShard) : Prop := mk_replaced {
  replaced_other : forall room2, room2 <> room -> room_shards g' !! room2 = room_shards g !! room2;
  replaced_room : room_shards g' !! room = Some r' \/
    room_shards g' !! room = None /\ is_empty r' = true;
}.

(** Replacing one room by the result of a room operation: everybody whose
    record and listing the operation does not touch stays placed. *)
Lemma reg_frame g g' room r' f :
  reg_located g -> room_step (room_or_new g room) r' f -> replaced g g' room r' ->
  (forall q, placed g' q \/ metas g' !! q = metas g !! q /\
     participants r' !! q = participants (room_or_new g room) !! q) ->
  reg_located g'.
Proof.
  intros Hg Hst [Hother Hroom] Hq. split.
  - intros room2 r2 H2. destruct (decide (room2 = room)) as [->|Hne].
    + destruct Hroom as [Hr|[Hr _]]; [|congruence]. replace r2 with r' by congruence. apply Hst.
    + rewrite Hother in H2 by done. by apply (reg_rooms _ Hg) in H2.
  - intros q. destruct (Hq q) as [|[Hm Hp]]; [done|]. destruct (reg_placed _ Hg q) as [Hl1 Hl2].
    split.
    + intros meta. rewrite Hm. intros Hmeta. destruct (Hl1 meta Hmeta) as (r & i & Hr & Hi & Ho).
      destruct (decide (meta_room meta = room)) as [<-|Hne]; [|exists r, i; by rewrite Hother].
      exists r', i. assert (room_or_new g (meta_room meta) = r) as E
        by (unfold room_or_new; by rewrite Hr). rewrite E in *. rewrite <- Hp in Hi.
      split_and!; [|done|].
      * destruct Hroom as [|[_ Hemp]]; [done|]. apply is_empty_true in Hemp as [Hemp _].
        by rewrite Hemp in Hi.
      * eapply owner_kept; [done..|]. by rewrite holders_lookup, Hi.
    + intros room2 r2 i Hr2 Hi. rewrite Hm. destruct (decide (room2 = room)) as [->|Hne].
      * destruct Hroom as [Hr|[Hr _]]; [|congruence]. simplify_eq. rewrite Hp in Hi.
        unfold room_or_new in Hi. destruct (room_shards g !! room) eqn:E; [|done].
        by eapply Hl2.
      * rewrite Hother in Hr2 by done. by eapply Hl2.
Qed.

Lemma frame_reserved g g' room r' f room2 p c shard index :
  room_step (room_or_new g room) r' f -> replaced g g' room r' ->
  (room2 = room -> forall pending, reservations (room_or_new g room) !! p = Some pending ->
     c ∈ connections pending -> exists pending', reservations r' !! p = Some pending' /\
       partition_index pending' = partition_index pending /\ c ∈ connections pending') ->
  partition_reserved g room2 p c shard index = true ->
  partition_reserved g' room2 p c shard index = true.
Proof.
  intros Hst [Hother Hroom] Hkeep. unfold partition_reserved.
  destruct (decide (room2 = room)) as [->|Hne]; [|by rewrite Hother].
  destruct (room_shards g !! room) as [r|] eqn:Er; [|done].
  rewrite (room_or_new_some _ _ _ Er) in *.
  intros Hr. specialize (Hkeep eq_refl). pose proof (reserved_kept _ _ _ _ _ _ _ Hst Hr Hkeep) as Hr'.
  destruct Hroom as [->|[_ Hemp]]; [done|]. apply is_empty_true in Hemp as [_ Hemp].
  unfold reserved in Hr'. by rewrite Hemp in Hr'.
Qed.

Lemma put_room_replaced g room r : replaced g (put_room g room r) room r.
Proof.
  unfold put_room. destruct (is_empty r) eqn:E; split; simpl; intros.
  - by apply lookup_delete_ne.
  - right. split; [apply lookup_delete_eq|done].
  - by apply lookup_insert_ne.
  - left. apply lookup_insert_eq.
Qed.

Lemma put_room_metas g room r : metas (put_room g room r) = metas g.
Proof. unfold put_room. by destruct (is_empty r). Qed.

Lemma insert_replaced g room (r : RoomShard) ms :
  replaced g (mkRegistry (<[room:=r]> (room_shards g)) ms) room r.
Proof. split; simpl; intros; [by apply lookup_insert_ne|left; apply lookup_insert_eq]. Qed.

Lemma put_room_nonempty g room (r : RoomShard) :
  map_Forall (fun _ r => is_empty r = false) (room_shards g) ->
  map_Forall (fun _ r => is_empty r = false) (room_shards (put_room g room r)).
Proof.
  intros Hg. unfold put_room. destruct (is_empty r) eqn:E; simpl.
  - by apply map_Forall_delete.
  - by apply map_Forall_insert_2.
Qed.

Lemma listed_nonempty (r : RoomShard) p i : participants r !! p = Some i -> is_empty r = false.
Proof.
  intros H. destruct (is_empty r) eqn:E; [|done]. apply is_empty_true in E as [E _].
  by rewrite E in H.
Qed.

Definition keeps_claims (e : reg_event) (g g' : RoomRegistry) : Prop :=
  forall room p c shard index, e <> ERelease room p c ->
  partition_reserved g room p c shard index = true ->
  partition_reserved g' room p c shard index = true.

Lemma reserve_partition_ok g room p c shard index g' :
  reg_wf g -> countable_registry g -> reserve_partition g room p c shard index = Some g' ->
  reg_wf g' /\ keeps_claims (EReserve room p c shard index) g g'.
Proof.
  intros [Hg Hne] Hc. unfold reserve_partition.
  destruct (reserve (room_or_new g room) p c shard index) as [r'|] eqn:E; simpl; [|done].
  intros [= <-]. apply reserve_step in E as (Hst & Ho & Hp & cs & Hrs & Hcs);
    [|by apply room_or_new_wf|by apply room_or_new_countable].
  split; [split|].
  - eapply reg_frame; [done..|apply insert_replaced|]. intros q. right. by rewrite Hp.
  - apply map_Forall_insert_2; [|done]. destruct (is_empty r') eqn:E; [|done].
    apply is_empty_true in E as [_ E]. rewrite Hrs in E. by apply insert_non_empty in E.
  - intros room2 p2 c2 shard2 index2 _. eapply frame_reserved; [done|apply insert_replaced|].
    intros -> pending Hpen Hin. rewrite Hrs. destruct (decide (p = p2)) as [->|Hne2].
    + rewrite lookup_insert_eq. eexists. split; [done|]. simpl. destruct (Hcs _ Hpen) as [-> ->].
      split; [done|set_solver].
    + rewrite lookup_insert_ne by done. eauto.
Qed.

Lemma release_partition_ok g room p c :
  reg_wf g -> reg_wf (release_partition g room p c) /\
  keeps_claims (ERelease room p c) g (release_partition g room p c).
Proof.
  intros [Hg Hne]. unfold release_partition.
  destruct (room_shards g !! room) as [r|] eqn:Er; [|by split; [split|intros ?]].
  destruct (reservations r !! p) as [pending|] eqn:Ep.
  - pose proof (reg_rooms _ Hg _ _ Er) as Hr. simpl in Hr.
    destruct (release_step r p c pending Hr Ep) as (f & Hst & _ & Hps & Hkeep).
    rewrite <- (room_or_new_some _ _ _ Er) in Hst at 1.
    split; [split; [|by apply put_room_nonempty]|].
    + eapply reg_frame; [done..|apply put_room_replaced|]. intros q. right.
      by rewrite put_room_metas, Hps, (room_or_new_some _ _ _ Er).
    + intros room2 p2 c2 shard2 index2 He. eapply frame_reserved; [done|apply put_room_replaced|].
      rewrite (room_or_new_some _ _ _ Er). intros -> pend2 H2 Hin. eapply Hkeep; [done..|congruence].
  - assert (put_room g room (release r p c) = g) as ->; [|by split; [split|intros ?]].
    unfold release, put_room. rewrite Ep, (Hne _ _ Er), insert_id by done. by destruct g.
Qed.

(** Taking a participant out of the room it is recorded in. *)
Lemma remove_ok g p meta :
  reg_located g -> metas g !! p = Some meta ->
  exists r r' f, room_shards g !! meta_room meta = Some r /\ remove_participant r p = Some r' /\
    room_step r r' f /\ (f = id \/ f = delete p) /\
    forall g', replaced g g' (meta_room meta) r' -> metas g' = delete p (metas g) ->
      reg_located g' /\
      forall room p2 c shard index, partition_reserved g room p2 c shard index = true ->
        partition_reserved g' room p2 c shard index = true.
Proof.
  intros Hg Hm. destruct (proj1 (reg_placed _ Hg p) meta Hm) as (r & i & Hr & Hi & Ho).
  pose proof (reg_rooms _ Hg _ _ Hr) as Hwf. simpl in Hwf.
  destruct (remove_participant_step r p i Hwf Hi) as (r' & Hr' & Hst & Hps & Hrs).
  exists r, r', (if reservations r !! p is Some _ then id else delete p).
  split_and!; [done..| |]; [case_match; [by left|by right]|].
  intros g' Hrep Hms. pose proof Hst as Hst'. rewrite <- (room_or_new_some _ _ _ Hr) in Hst' at 1.
  split.
  - eapply reg_frame; [done..|]. intros q. rewrite Hms, (room_or_new_some _ _ _ Hr).
    destruct (decide (p = q)) as [<-|Hne]; [left|right; by rewrite Hps, !lookup_delete_ne].
    split; [intros m2; rewrite Hms, lookup_delete_eq; done|].
    intros room2 r2 j H2 Hj. exfalso. destruct (decide (room2 = meta_room meta)) as [->|Hne].
    + destruct (replaced_room _ _ _ _ Hrep) as [H3|[H3 _]]; [|congruence].
      simplify_eq. by rewrite Hps, lookup_delete_eq in Hj.
    + rewrite (replaced_other _ _ _ _ Hrep) in H2 by done.
      destruct (proj2 (reg_placed _ Hg p) _ _ _ H2 Hj) as (m2 & ? & ?). simplify_eq.
  - intros room2 p2 c2 s2 i2. eapply frame_reserved; [done..|]. intros ->.
    rewrite (room_or_new_some _ _ _ Hr), Hrs. eauto.
Qed.

Lemma step_countable (r r' : RoomShard) f p :
  room_step r r' f -> f = id \/ f = delete p -> countable_room r -> countable_room r'.
Proof.
  intros Hst Hf. unfold countable_room. rewrite (step_holders _ _ _ Hst).
  destruct Hf as [-> | ->]; [done|]. rewrite map_size_delete. intros; case_match; unfold id; lia.
Qed.

(** Adding a participant that no room lists. *)
Lemma add_ok h p meta index r' :
  reg_located h -> metas h !! p = None -> countable_room (room_or_new h (meta_room meta)) ->
  add_participant (room_or_new h (meta_room meta)) p (meta_shard meta) index = Some r' ->
  let g' := mkRegistry (<[meta_room meta:=r']> (room_shards h)) (<[p:=meta]> (metas h)) in
  reg_located g' /\ is_empty r' = false /\
  forall room p2 c shard index2, partition_reserved h room p2 c shard index2 = true ->
    partition_reserved g' room p2 c shard index2 = true.
Proof.
  intros Hh Hm Hc Hadd.
  assert (forall room r, room_shards h !! room = Some r -> participants r !! p = None) as Hun.
  { intros room r Hr. destruct (participants r !! p) eqn:E; [|done].
    destruct (proj2 (reg_placed _ Hh p) _ _ _ Hr E) as (? & ? & _). congruence. }
  assert (participants (room_or_new h (meta_room meta)) !! p = None) as Hp0.
  { unfold room_or_new. destruct (room_shards h !! meta_room meta) eqn:E; [by eapply Hun|done]. }
  destruct (add_participant_step _ _ _ _ _ (room_or_new_wf _ _ Hh) Hc Hp0 Hadd)
    as (Hst & Ho & Hps & Hrs).
  split_and!.
  - eapply reg_frame; [done..|apply insert_replaced|]. simpl. intros q.
    destruct (decide (p = q)) as [<-|Hne]; [left|right; by rewrite Hps, !lookup_insert_ne].
    split; simpl.
    + intros m2. rewrite lookup_insert_eq. intros [= <-]. exists r', index.
      rewrite lookup_insert_eq, Hps, lookup_insert_eq. done.
    + intros room2 r2 i. rewrite lookup_insert. case_decide; subst.
      * intros _ _. rewrite lookup_insert_eq. eauto.
      * intros H2 Hi. by rewrite (Hun _ _ H2) in Hi.
  - apply (listed_nonempty _ p index). rewrite Hps. apply lookup_insert_eq.
  - intros room2 p2 c2 s2 i2. eapply frame_reserved; [done|apply insert_replaced|].
    intros ->. rewrite Hrs. eauto.
Qed.

Definition superseded (g : RoomRegistry) (p : ParticipantId) (c : ConnectionId) : bool :=
  match metas g !! p with Some current => c <=? meta_connection current | None => false end.

(** A commit that is not superseded is: take the previous incarnation out
    (the state [h]), then add the new one. *)
Lemma commit_factor g p room shard index transport c profile external :
  reg_wf g -> countable_registry g -> superseded g p c = false ->
  exists h, reg_located h /\ metas h = delete p (metas g) /\
    countable_room (room_or_new h room) /\
    (forall room2 r, room2 <> room -> room_shards h !! room2 = Some r -> is_empty r = false) /\
    (forall room2 p2 c2 shard2 i2, partition_reserved g room2 p2 c2 shard2 i2 = true ->
       partition_reserved h room2 p2 c2 shard2 i2 = true) /\
    commit_candidate g p room shard index transport c profile external =
      (r ← add_participant (room_or_new h room) p shard index;
       Some (mkRegistry (<[room:=r]> (room_shards h))
               (<[p:=mkMeta shard room external (Some transport) c profile None true]> (metas h)),
             Ok (metas g !! p))).
Proof.
  intros [Hg Hne] Hc Hs. unfold commit_candidate. fold (superseded g p c). rewrite Hs.
  destruct (metas g !! p) as [prev|] eqn:Em.
  - destruct (remove_ok g p prev Hg Em) as (r & r' & f & Hr & Hr' & Hst & Hf & Hok).
    assert (countable_room r') as Hcr by (eapply step_countable; [done..|by eapply Hc]).
    destruct (decide (meta_room prev = room)) as [<-|Hroom].
    + exists (mkRegistry (<[meta_room prev:=r']> (room_shards g)) (delete p (metas g))).
      destruct (Hok _ (insert_replaced g _ r' _) eq_refl) as [Hl Hk].
      split_and!; try done.
      * unfold room_or_new. simpl. by rewrite lookup_insert_eq.
      * simpl. intros room2 r2 Hn. rewrite lookup_insert_ne by done. apply Hne.
      * simpl. rewrite Hr. simpl. rewrite Hr'. simpl. by rewrite insert_delete_eq.
    + set (g1 := mkRegistry (room_shards g) (delete p (metas g))).
      exists (put_room g1 (meta_room prev) r').
      destruct (Hok (put_room g1 (meta_room prev) r')) as [Hl Hk].
      { pose proof (put_room_replaced g1 (meta_room prev) r') as [Ho Hr1]. by split. }
      { apply put_room_metas. }
      split_and!; try done.
      * apply put_room_metas.
      * assert (room_shards (put_room g1 (meta_room prev) r') !! room = room_shards g !! room) as E.
        { by rewrite (replaced_other _ _ _ _ (put_room_replaced g1 (meta_room prev) r')). }
        unfold room_or_new. rewrite E. by apply (room_or_new_countable g room).
      * intros room2 r2 _. apply put_room_nonempty. apply Hne.
      * unfold remove_from_room_shard. simpl. rewrite Hr, Hr'. simpl.
        rewrite put_room_metas. unfold put_room, room_or_new. subst g1. simpl.
        destruct (is_empty r'); simpl; by rewrite insert_delete_eq.
  - exists g. split_and!; try done; [by rewrite delete_id|by apply room_or_new_countable|].
    intros room2 r2 _. apply Hne.
Qed.

Lemma add_total (r : RoomShard) p c shard index :
  room_wf r -> reserved r p c shard index = true ->
  exists r', add_participant r p shard index = Some r'.
Proof.
  intros Hwf Hr. apply reserved_spec in Hr as (pending & Hp & Hi & _ & Ho).
  unfold add_participant. destruct (participants r !! p); [eauto|].
  rewrite Hp, bool_decide_true by done.
  apply owner_inv in Ho as (q & Hq & _ & Hs).
  destruct (partition_mut_total _ _ shard index (wf_slots _ Hwf)) as (ps' & part & ->).
  - apply lookup_lt_Some in Hq. lia.
  - intros q' Hq' _. congruence.
  - simpl. eauto.
Qed.

Lemma commit_candidate_ok g p room shard index transport c profile external g' res :
  reg_wf g -> countable_registry g ->
  commit_candidate g p room shard index transport c profile external = Some (g', res) ->
  reg_wf g' /\ keeps_claims (ECommit p room shard index transport c profile external) g g'.
Proof.
  intros Hwf Hc. destruct (superseded g p c) eqn:Es.
  - unfold commit_candidate. fold (superseded g p c). rewrite Es. intros [= <- _].
    by split; [|intros ?].
  - destruct (commit_factor g p room shard index transport c profile external Hwf Hc Es)
      as (h & Hh & Hms & Hcr & Hne & Hk & ->).
    destruct (add_participant _ _ _ _) as [r'|] eqn:Ea; simpl; [|done]. intros [= <- _].
    set (meta := mkMeta shard room external (Some transport) c profile None true).
    destruct (add_ok h p meta index r' Hh) as (Hl & Hemp & Hk2); try done.
    { by rewrite Hms, lookup_delete_eq. }
    split; [split; [done|]|].
    + intros room2 r2. simpl. rewrite lookup_insert. case_decide as E; subst.
      * by intros [= <-].
      * apply Hne. congruence.
    + intros room2 p2 c2 s2 i2 _ H2. by apply Hk2, Hk.
Qed.

Lemma remove_incarnation_ok g p c :
  reg_wf g -> exists g' m, remove_incarnation g p c = Some (g', m) /\
  reg_wf g' /\ keeps_claims (ERemove p c) g g' /\
  m = (if metas g !! p is Some meta then if meta_connection meta =? c then Some meta else None
       else None) /\
  metas g' = (if m is Some _ then delete p (metas g) else metas g).
Proof.
  intros [Hg Hne]. unfold remove_incarnation.
  assert (reg_wf g /\ keeps_claims (ERemove p c) g g) as [Hw Hk0] by (split; [done|intros ?; done]).
  destruct (metas g !! p) as [meta|] eqn:Em; [|eauto 10]. case_ifs; [|eauto 10].
  destruct (remove_ok g p meta Hg Em) as (r & r' & f & Hr & Hr' & Hst & Hf & Hok).
  unfold remove_from_room_shard. simpl. rewrite Hr, Hr'. simpl. eexists _, _. split; [done|].
  set (g1 := mkRegistry _ _). destruct (Hok (put_room g1 (meta_room meta) r')) as [Hl Hk].
  { pose proof (put_room_replaced g1 (meta_room meta) r') as [Ho Hr1]. by split. }
  { apply put_room_metas. }
  split_and!; [split; [done|]| |done|apply put_room_metas].
  - by apply put_room_nonempty.
  - intros room2 p2 c2 s2 i2 _. apply Hk.
Qed.

Lemma update_authorization_ok g p c lease :
  reg_wf g -> reg_wf (update_authorization g p c lease) /\
  keeps_claims (EAuthorize p c lease) g (update_authorization g p c lease).
Proof.
  intros [Hg Hne]. unfold update_authorization.
  destruct (metas g !! p) as [m|] eqn:Em; [|by split; [|intros ?]].
  case_ifs; [|by split; [|intros ?]]. split; [|intros ?; done]. split; [|done].
  split; [apply (reg_rooms _ Hg)|]. intros q. destruct (reg_placed _ Hg q) as [H1 H2].
  split; simpl.
  - intros meta. rewrite lookup_insert. case_decide; subst; [|apply H1].
    intros [= <-]. simpl. by apply H1.
  - intros room r i Hr Hi. destruct (H2 _ _ _ Hr Hi) as (meta & Hmeta & Hroom).
    rewrite lookup_insert. case_decide; subst; [|eauto]. simplify_eq. eauto.
Qed.

Lemma reg_exec_ok g e g' :
  reg_wf g -> countable_registry g -> reg_exec g e = Some g' -> reg_wf g' /\ keeps_claims e g g'.
Proof.
  intros Hwf Hc. destruct e; simpl.
  - by apply reserve_partition_ok.
  - intros [= <-]. by apply release_partition_ok.
  - destruct (commit_candidate _ _ _ _ _ _ _ _ _) as [[g1 res]|] eqn:E; simpl; [|done].
    intros [= <-]. by eapply commit_candidate_ok.
  - destruct (remove_incarnation_ok g p c Hwf) as (g1 & m & -> & ? & ? & _). simpl.
    by intros [= <-].
  - intros [= <-]. by apply update_authorization_ok.
Qed.

Lemma registry_new_wf : reg_wf registry_new.
Proof. split; [|done]. split; [done|]. intros p. by split. Qed.

Lemma reg_run_wf g es g' : reg_wf g -> reg_run g es g' -> reg_wf g'.
Proof. intros Hwf Hrun. induction Hrun; [done|]. apply IHHrun. by eapply reg_exec_ok. Qed.

Lemma reg_run_claims g es g' room p c shard index :
  reg_wf g -> reg_run g es g' -> ERelease room p c ∉ es ->
  partition_reserved g room p c shard index = true ->
  partition_reserved g' room p c shard index = true.
Proof.
  intros Hwf Hrun. induction Hrun as [|g e g1 es g2 Hc He Hrun IH]; [done|].
  intros Hni Hr. destruct (reg_exec_ok g e g1 Hwf Hc He) as [Hwf1 Hk].
  apply IH; [done|set_solver|]. apply Hk; [|done]. intros ->. set_solver.
Qed.

(** ** Theorems *)

(** C6. In every state the registry reaches, the registry and the rooms
    agree: the participants a room lists are exactly those recorded in it,
    each sits in a partition owned by the shard it is recorded on, every
    partition counts exactly its holders, and no room is kept for nobody. *)
Theorem registry_invariant es g :
  reg_run registry_new es g ->
  reg_wf g /\
  (forall p room, p ∈ local_participant_ids_in_room g room <->
     exists meta, get_participant g p = Some meta /\ meta_room meta = room) /\
  (forall room r i part, room_shards g !! room = Some r -> partitions r !! i = Some part ->
     occupants part = Z.of_nat (holders_at (holders r) i)).
Proof.
  intros Hrun. pose proof (reg_run_wf _ _ _ registry_new_wf Hrun) as Hwf.
  destruct Hwf as [Hg Hne]. split_and!; [done| |].
  - intros p room. unfold local_participant_ids_in_room, get_participant, participant_ids. split.
    + destruct (room_shards g !! room) as [r|] eqn:Er; [|set_solver].
      rewrite elem_of_dom. intros [i Hi]. by apply (proj2 (reg_placed _ Hg p) room r i).
    + intros (meta & Hm & <-).
      destruct (proj1 (reg_placed _ Hg p) meta Hm) as (r & i & Hr & Hi & _).
      rewrite Hr. apply elem_of_dom. eauto.
  - intros room r i part Hr. apply (wf_slots _ (reg_rooms _ Hg _ _ Hr)).
Qed.

(** A reservation is honoured: once a connection holds a partition, no
    sequence of joins, commits, departures and releases by others invalidates
    the claim, and committing the connection on it never trips an assertion. *)
Theorem reservation_honoured g es g' room p c shard index transport profile external :
  reg_wf g -> partition_reserved g room p c shard index = true ->
  reg_run g es g' -> ERelease room p c ∉ es -> countable_registry g' ->
  partition_reserved g' room p c shard index = true /\
  exists g'' res,
    commit_candidate g' p room shard index transport c profile external = Some (g'', res).
Proof.
  intros Hwf Hr Hrun Hni Hc. pose proof (reg_run_wf _ _ _ Hwf Hrun) as Hwf'.
  pose proof (reg_run_claims _ _ _ _ _ _ _ _ Hwf Hrun Hni Hr) as Hr'. split; [done|].
  destruct (superseded g' p c) eqn:Es.
  { unfold commit_candidate. fold (superseded g' p c). rewrite Es. eauto. }
  destruct (commit_factor g' p room shard index transport c profile external Hwf' Hc Es)
    as (h & Hh & Hms & Hcr & _ & Hk & ->).
  apply Hk in Hr'. unfold partition_reserved in Hr'.
  destruct (room_shards h !! room) as [r|] eqn:Er; [|done].
  rewrite (room_or_new_some _ _ _ Er).
  destruct (add_total r p c shard index (reg_rooms _ Hh _ _ Er) Hr') as [r' ->]. simpl. eauto.
Qed.

(** Incarnations are ordered and fenced: a commit succeeds only over an
    older connection, then records exactly the new incarnation and hands the
    previous one back, and otherwise changes nothing; removal acts only when
    the connection named is the current one, and never aborts. *)
Theorem incarnations_fenced g p room shard index transport c profile external g' res :
  reg_wf g -> countable_registry g ->
  commit_candidate g p room shard index transport c profile external = Some (g', res) ->
  match res with
  | Ok previous =>
      previous = get_participant g p /\
      (forall cur, previous = Some cur -> meta_connection cur < c) /\
      metas g' = <[p := mkMeta shard room external (Some transport) c profile None true]> (metas g)
  | Err Superseded =>
      g' = g /\ exists cur, get_participant g p = Some cur /\ c <= meta_connection cur
  end /\
  (forall q d, exists g2 removed, remove_incarnation g' q d = Some (g2, removed) /\ reg_wf g2 /\
     match removed with
     | Some meta => get_participant g' q = Some meta /\ meta_connection meta = d /\
         metas g2 = delete q (metas g')
     | None => metas g2 = metas g' /\
         forall meta, get_participant g' q = Some meta -> meta_connection meta <> d
     end).
Proof.
  intros Hwf Hc Hcommit. destruct (commit_candidate_ok _ _ _ _ _ _ _ _ _ _ _ Hwf Hc Hcommit)
    as [Hwf' _]. split.
  - destruct (superseded g p c) eqn:Es.
    + unfold commit_candidate in Hcommit. fold (superseded g p c) in Hcommit. rewrite Es in Hcommit.
      inv Hcommit. split; [done|]. unfold superseded, get_participant in *.
      destruct (metas g' !! p) as [cur|]; [|done]. exists cur. split; [done|lia].
    + destruct (commit_factor g p room shard index transport c profile external Hwf Hc Es)
        as (h & _ & Hms & _ & _ & _ & E). rewrite E in Hcommit.
      destruct (add_participant _ _ _ _) as [r'|]; [|done]. simpl in Hcommit. inv Hcommit.
      split_and!; [done| |].
      * intros cur Hcur. unfold superseded in Es. rewrite Hcur in Es. lia.
      * simpl. by rewrite Hms, insert_delete_eq.
  - intros q d. destruct (remove_incarnation_ok g' q d Hwf') as (g2 & m & Hg2 & Hw2 & _ & Hm & Hms).
    exists g2, m. split_and!; [done..|]. unfold get_participant.
    destruct (metas g' !! q) as [meta|]; [|subst m; naive_solver].
    destruct (Z.eqb_spec (meta_connection meta) d); subst m; naive_solver.
Qed.
End Registry.

(** ** Witnesses: a room with one admitted participant and a rejoin *)

Abbreviation DemoRegistry :=
  (RoomRegistry (ParticipantId := Z) (RoomId := Z) (ParticipantExternalId := Z)
     (AuthorizationLease := Z)).
Definition demo_transport : NodeTransportAddress :=
  mkNodeTransportAddress (mkTransportRoute (mkPackedRoute 3)) 0.
Definition demo_events : list (reg_event (ParticipantId := Z) (RoomId := Z)
    (ParticipantExternalId := Z) (AuthorizationLease := Z)) :=
  [EReserve 7 1 10 0 0; ECommit 1 7 0 0 demo_transport 10 State None; ERelease 7 1 10;
   EReserve 7 1 20 0 0].
Definition demo_registry : DemoRegistry :=
  default registry_new (reg_replay registry_new demo_events).

Lemma demo_run : reg_run registry_new demo_events demo_registry.
Proof.
  apply reg_replay_run. unfold demo_registry.
  destruct (reg_replay registry_new demo_events) eqn:E; [done|by vm_compute in E].
Qed.

Lemma registry_invariant_witness : reg_wf demo_registry.
Proof. apply (registry_invariant demo_events demo_registry demo_run). Defined.

Lemma reservation_honoured_witness :
  partition_reserved demo_registry 7 1 20 0 0 = true /\
  exists g'' res,
    commit_candidate demo_registry 1 7 0 0 demo_transport 20 Whip None = Some (g'', res).
Proof.
  apply (reservation_honoured demo_registry [] demo_registry).
  - apply (reg_run_wf _ _ _ registry_new_wf demo_run).
  - by vm_compute.
  - apply run_nil.
  - set_solver.
  - by refine (bool_decide_unpack _ _); vm_compute.
Defined.

Lemma incarnations_fenced_witness :
  exists g' prev, commit_candidate demo_registry 1 7 0 0 demo_transport 20 Whip None
      = Some (g', Ok (Some prev)) /\ meta_connection prev < 20.
Proof.
  assert (reg_wf demo_registry) as Hwf by apply (reg_run_wf _ _ _ registry_new_wf demo_run).
  assert (countable_registry demo_registry) as Hc by (by refine (bool_decide_unpack _ _); vm_compute).
  destruct (commit_candidate demo_registry 1 7 0 0 demo_transport 20 Whip None)
    as [[g' res]|] eqn:E; [|by vm_compute in E].
  pose proof (incarnations_fenced _ _ _ _ _ _ _ _ _ _ _ Hwf Hc E) as [H _].
  destruct res as [[prev|]|]; [|by vm_compute in E..].
  exists g', prev. split; [done|]. by apply (proj1 (proj2 H)).
Defined.
