(* ===== verification/Timer.v ===== *)
(** * The shard's timer wheel

    [shard/timer.rs]: a 256-slot hashed wheel of intrusive doubly linked lists,
    one list per slot and one for timers that are already due, with a bitmap of
    the occupied slots. [SecondaryMap] is a finite map over participant
    handles: a handle is taken out with [cancel] before its slot-map key is
    reused. [None] is [fatal!]: the process ends there.

    [TimerRefine] relates the wheel to what its user sees: a finite map from
    handles to the tick their timer fires at. *)

From S2P Require Import Prelude.

Definition SLOT_COUNT : Z := 256.
Definition OCCUPANCY_WORDS : Z := 4.
Definition DUE_LOCATION : Z := 256.
Definition DISARMED_LOCATION : Z := DUE_LOCATION + 1.
Definition SHARD_TIMER_QUANTUM : Z := 1000000.

Definition slot_of (tick : Z) : Z := Z.land tick 255.
Definition duration_for_ticks (ticks : Z) : Z := saturating_mul 64 ticks SHARD_TIMER_QUANTUM.

#[local] Arguments Nat.div : simpl never.
#[local] Arguments Nat.modulo : simpl never.

Section Timer.
Context {ParticipantHandle : Type} `{!EqDecision ParticipantHandle, !Countable ParticipantHandle}.

Record TimerNode := mkNode {
  node_tick : Z;
  node_prev : option ParticipantHandle;
  node_next : option ParticipantHandle;
  node_location : Z;
}.

Definition node_new : TimerNode := mkNode 0 None None DISARMED_LOCATION.
Definition is_armed (n : TimerNode) : bool := negb (node_location n =? DISARMED_LOCATION).

Record TimerWheel := mkWheel {
  epoch : Z;
  last_now : Z;
  current_tick : Z;
  heads : list (option ParticipantHandle);
  due_head : option ParticipantHandle;
  occupied : list Z;
  nodes : gmap ParticipantHandle TimerNode;
}.

Definition wheel_new (now : Z) : TimerWheel :=
  mkWheel now now 0 (replicate 256 None) None [0; 0; 0; 0] ∅.

(** Assignments to single fields. *)
Definition with_nodes w ns : TimerWheel :=
  mkWheel (epoch w) (last_now w) (current_tick w) (heads w) (due_head w) (occupied w) ns.
Definition with_due w h : TimerWheel :=
  mkWheel (epoch w) (last_now w) (current_tick w) (heads w) h (occupied w) (nodes w).
Definition with_heads w hs : TimerWheel :=
  mkWheel (epoch w) (last_now w) (current_tick w) hs (due_head w) (occupied w) (nodes w).
Definition with_occupied w o : TimerWheel :=
  mkWheel (epoch w) (last_now w) (current_tick w) (heads w) (due_head w) o (nodes w).
Definition with_tick w t : TimerWheel :=
  mkWheel (epoch w) (last_now w) t (heads w) (due_head w) (occupied w) (nodes w).
Definition with_now w t : TimerWheel :=
  mkWheel (epoch w) t (current_tick w) (heads w) (due_head w) (occupied w) (nodes w).

(** ** Occupancy bitmap *)

Definition set_occupied (w : TimerWheel) (slot : nat) : TimerWheel :=
  match occupied w !! (slot / 64)%nat with
  | Some word =>
      with_occupied w (<[(slot / 64)%nat :=
        Z.lor word (shl 64 1 (Z.of_nat (slot mod 64)))]> (occupied w))
  | None => w
  end.

(** [*word &= !(1 << (slot % 64))]: complement at 64 bits. *)
Definition clear_occupied (w : TimerWheel) (slot : nat) : TimerWheel :=
  match occupied w !! (slot / 64)%nat with
  | Some word =>
      with_occupied w (<[(slot / 64)%nat :=
        Z.land word (umax 64 - shl 64 1 (Z.of_nat (slot mod 64)))]> (occupied w))
  | None => w
  end.

Definition rotated_word (w : TimerWheel) (base : nat) : Z :=
  let base := (base mod 256)%nat in
  let word_idx := (base / 64)%nat in
  let bit := (base mod 64)%nat in
  let lo := default 0 (occupied w !! word_idx) in
  let hi := default 0 (occupied w !! ((word_idx + 1) mod 4)%nat) in
  if (bit =? 0)%nat then lo
  else Z.lor (Z.shiftr lo (Z.of_nat bit)) (shl 64 hi (64 - Z.of_nat bit)).

(** [u64::trailing_zeros]: the lowest set bit, 64 when there is none. *)
Fixpoint trailing_zeros_from (word : Z) (i : nat) (fuel : nat) : nat :=
  match fuel with
  | O => i
  | S fuel' => if Z.testbit word (Z.of_nat i) then i else trailing_zeros_from word (S i) fuel'
  end.
Definition trailing_zeros (word : Z) : nat := trailing_zeros_from word 0 64.

Fixpoint next_occupied_steps (w : TimerWheel) (start : nat) (steps : list nat) : option Z :=
  match steps with
  | [] => None
  | step :: steps' =>
      let word := rotated_word w (start + step * 64) in
      let distance := (step * 64 + trailing_zeros word)%nat in
      if negb (word =? 0) && (distance <? 256)%nat then Some (Z.of_nat distance)
      else next_occupied_steps w start steps'
  end.
Definition next_occupied_from (w : TimerWheel) (start : nat) : option Z :=
  next_occupied_steps w start (seq 0 5).

(** ** Lists *)

Definition head_at (w : TimerWheel) (location : Z) : option ParticipantHandle :=
  if location =? DUE_LOCATION then due_head w else mjoin (heads w !! Z.to_nat location).

Definition set_prev (n : TimerNode) p := mkNode (node_tick n) p (node_next n) (node_location n).
Definition set_next (n : TimerNode) x := mkNode (node_tick n) (node_prev n) x (node_location n).

Definition link (w : TimerWheel) (id : ParticipantHandle) (location tick : Z) : option TimerWheel :=
  let old_head := head_at w location in
  _ ← nodes w !! id;
  let w := with_nodes w (<[id := mkNode tick None old_head location]> (nodes w)) in
  w ← match old_head with
      | Some h => n ← nodes w !! h; Some (with_nodes w (<[h := set_prev n (Some id)]> (nodes w)))
      | None => Some w
      end;
  Some (if location =? DUE_LOCATION then with_due w (Some id)
        else match heads w !! Z.to_nat location with
             | Some _ => set_occupied (with_heads w (<[Z.to_nat location := Some id]> (heads w)))
                           (Z.to_nat location)
             | None => w
             end).

(** [unlink], in the order of its statements: the back link or the head of the
    list, the forward link, the occupancy bit, the node itself. *)
Definition detach_back (w : TimerWheel) (node : TimerNode) : option TimerWheel :=
  match node_prev node with
  | Some prev =>
      p ← nodes w !! prev;
      Some (with_nodes w (<[prev := set_next p (node_next node)]> (nodes w)))
  | None =>
      Some (if node_location node =? DUE_LOCATION then with_due w (node_next node)
            else match heads w !! Z.to_nat (node_location node) with
                 | Some _ => with_heads w
                     (<[Z.to_nat (node_location node) := node_next node]> (heads w))
                 | None => w
                 end)
  end.

Definition detach_forward (w : TimerWheel) (node : TimerNode) : option TimerWheel :=
  match node_next node with
  | Some next =>
      n ← nodes w !! next;
      Some (with_nodes w (<[next := set_prev n (node_prev node)]> (nodes w)))
  | None => Some w
  end.

Definition vacate (w : TimerWheel) (node : TimerNode) : TimerWheel :=
  if node_location node =? DUE_LOCATION then w
  else match mjoin (heads w !! Z.to_nat (node_location node)) with
       | None => clear_occupied w (Z.to_nat (node_location node))
       | Some _ => w
       end.

Definition disarm (w : TimerWheel) (id : ParticipantHandle) : option TimerWheel :=
  n ← nodes w !! id;
  Some (with_nodes w (<[id := mkNode (node_tick n) None None DISARMED_LOCATION]> (nodes w))).

Definition unlink (w : TimerWheel) (id : ParticipantHandle) : option TimerWheel :=
  node ← nodes w !! id;
  w ← detach_back w node;
  w ← detach_forward w node;
  disarm (vacate w node) id.

(** ** Operations *)

Definition deadline_tick (w : TimerWheel) (deadline : Z) : Z :=
  Z.min (div_ceil (saturating_duration_since deadline (epoch w)) SHARD_TIMER_QUANTUM) (umax 64).
Definition elapsed_ticks (w : TimerWheel) (now : Z) : Z :=
  Z.min (saturating_duration_since now (epoch w) `div` SHARD_TIMER_QUANTUM) (umax 64).

Definition target (w : TimerWheel) (deadline : Z) : Z * Z :=
  if deadline <=? last_now w then (DUE_LOCATION, current_tick w)
  else
    let tick := Z.min (deadline_tick w deadline)
                  (saturating_add 64 (current_tick w) (saturating_sub SLOT_COUNT 1)) in
    (slot_of tick, tick).

Definition schedule (w : TimerWheel) (key : ParticipantHandle) (deadline : Z)
    : option TimerWheel :=
  let '(location, tick) := target w deadline in
  match nodes w !! key with
  | Some node =>
      if (node_location node =? location) && (node_tick node =? tick) then Some w
      else
        w ← (if is_armed node then unlink w key else Some w);
        link w key location tick
  | None => link (with_nodes w (<[key := node_new]> (nodes w))) key location tick
  end.

Definition cancel (w : TimerWheel) (key : ParticipantHandle) : option TimerWheel :=
  match nodes w !! key with
  | None => Some w
  | Some node =>
      w ← (if is_armed node then unlink w key else Some w);
      Some (with_nodes w (delete key (nodes w)))
  end.

Definition next_deadline (w : TimerWheel) : option Z :=
  match due_head w with
  | Some _ => Some (last_now w)
  | None =>
      let start := Z.to_nat (slot_of (saturating_add 64 (current_tick w) 1)) in
      offset ← next_occupied_from w start;
      let tick := saturating_add 64 (saturating_add 64 (current_tick w) 1) offset in
      Some (default (epoch w) (instant_checked_add (epoch w) (duration_for_ticks tick)))
  end.

(** The loop of [drain_location], with the handles passed to the callback in
    order. Every turn disarms a node, so [size (nodes w)] turns are enough and
    one more sees the empty list. *)
Fixpoint drain_loop (fuel : nat) (w : TimerWheel) (location : Z)
    : option (TimerWheel * list ParticipantHandle) :=
  match fuel with
  | O => None
  | S fuel' =>
      match head_at w location with
      | None => Some (w, [])
      | Some id =>
          w ← unlink w id;
          '(w, fired) ← drain_loop fuel' w location;
          Some (w, id :: fired)
      end
  end.
Definition drain_location (w : TimerWheel) (location : Z) :=
  drain_loop (S (size (nodes w))) w location.

Fixpoint drain_locations (w : TimerWheel) (locations : list Z)
    : option (TimerWheel * list ParticipantHandle) :=
  match locations with
  | [] => Some (w, [])
  | l :: ls =>
      '(w, fired) ← drain_location w l;
      '(w, fired') ← drain_locations w ls;
      Some (w, fired ++ fired')
  end.

(** [while current_tick < target { current_tick += 1; drain slot }]; fewer
    than 256 turns, as the branch that reaches it checked. *)
Fixpoint drain_ticks (fuel : nat) (w : TimerWheel) (target : Z)
    : option (TimerWheel * list ParticipantHandle) :=
  if current_tick w <? target then
    match fuel with
    | O => None
    | S fuel' =>
        let w := with_tick w (saturating_add 64 (current_tick w) 1) in
        '(w, fired) ← drain_location w (slot_of (current_tick w));
        '(w, fired') ← drain_ticks fuel' w target;
        Some (w, fired ++ fired')
    end
  else Some (w, []).

Definition drain_expired (w : TimerWheel) (now : Z)
    : option (TimerWheel * list ParticipantHandle) :=
  '(w, fired) ← drain_location w DUE_LOCATION;
  let target := elapsed_ticks w now in
  '(w, fired') ←
    (if saturating_sub target (current_tick w) >=? SLOT_COUNT
     then drain_locations (with_tick w target) (seqZ 0 256)
     else drain_ticks 256 w target);
  Some (with_now w now, fired ++ fired').

(** ** The bitmap as a set of slots *)

Definition occ_bit (w : TimerWheel) (slot : nat) : bool :=
  Z.testbit (default 0 (occupied w !! (slot / 64)%nat)) (Z.of_nat (slot mod 64)).

Definition bitmap_ok (w : TimerWheel) : Prop :=
  length (occupied w) = 4%nat /\ Forall (fits 64) (occupied w).

Lemma slot_split slot : slot = (64 * (slot / 64) + slot mod 64)%nat.
Proof. apply Nat.div_mod_eq. Qed.

Lemma slot_word (slot : nat) : (slot < 256 -> slot / 64 < 4)%nat.
Proof. intros. apply Nat.Div0.div_lt_upper_bound. lia. Qed.

Lemma bit_mask i j :
  (i < 64)%nat -> Z.testbit (shl 64 1 (Z.of_nat i)) (Z.of_nat j) = bool_decide (i = j).
Proof.
  intros Hi. unfold shl. rewrite Z.shiftl_mul_pow2, Z.mul_1_l by lia. rewrite wrap_small.
  - rewrite Z.pow2_bits_eqb by lia. case_bool_decide; subst; lia.
  - split; [lia|]. apply Z.pow_lt_mono_r; lia.
Qed.

Lemma bit_mask_fits i : (i < 64)%nat -> fits 64 (shl 64 1 (Z.of_nat i)).
Proof. intros. unfold shl. by apply wrap_fits. Qed.

Lemma bit_unmask i j :
  (i < 64)%nat -> (j < 64)%nat ->
  Z.testbit (umax 64 - shl 64 1 (Z.of_nat i)) (Z.of_nat j) = negb (bool_decide (i = j)).
Proof.
  intros Hi Hj. change (umax 64) with (Z.ones 64).
  assert (Z.ldiff (shl 64 1 (Z.of_nat i)) (Z.ones 64) = 0) as Hl.
  { rewrite Z.ldiff_ones_r by lia. rewrite Z.shiftr_div_pow2, Z.div_small; [done| |lia].
    by apply bit_mask_fits. }
  rewrite Z.sub_nocarry_ldiff by done. rewrite Z.ldiff_spec, Z.ones_spec_low, bit_mask by lia. done.
Qed.

Lemma fits_testbit w z n : 0 <= w <= n -> fits w z -> Z.testbit z n = false.
Proof.
  intros Hn Hz. rewrite <- (wrap_small w z Hz). unfold wrap.
  apply Z.mod_pow2_bits_high. lia.
Qed.

Lemma fits_of_bits w z :
  0 <= w -> 0 <= z -> (forall n, w <= n -> Z.testbit z n = false) -> fits w z.
Proof.
  intros Hw Hz Hb. assert (wrap w z = z) as <-; [|by apply wrap_fits].
  unfold wrap. rewrite <- Z.land_ones by lia. apply Z.bits_inj'. intros n Hn.
  rewrite Z.land_spec, Z.testbit_ones_nonneg by lia. destruct (Z.ltb_spec n w).
  - apply andb_true_r.
  - rewrite Hb by lia. done.
Qed.

Lemma word_lookup w i : bitmap_ok w -> (i < 4)%nat -> exists word, occupied w !! i = Some word /\ fits 64 word.
Proof.
  intros [Hl Hf] Hi. destruct (lookup_lt_is_Some_2 (occupied w) i) as [word Hw]; [lia|].
  exists word. split; [done|]. by eapply Forall_lookup_1.
Qed.

(** Rewriting one bit. *)
Lemma write_bit w slot word' (f : bool -> bool) :
  bitmap_ok w -> (slot < 256)%nat -> fits 64 word' ->
  (forall word j, occupied w !! (slot / 64)%nat = Some word -> (j < 64)%nat ->
     Z.testbit word' (Z.of_nat j) =
       if decide (slot mod 64 = j)%nat then f (Z.testbit word (Z.of_nat j))
       else Z.testbit word (Z.of_nat j)) ->
  let w' := with_occupied w (<[(slot / 64)%nat := word']> (occupied w)) in
  bitmap_ok w' /\ forall slot', (slot' < 256)%nat ->
    occ_bit w' slot' = if decide (slot = slot') then f (occ_bit w slot') else occ_bit w slot'.
Proof.
  intros Hb Hs Hf Hw'. pose proof (slot_word slot Hs) as Hq.
  destruct (word_lookup w _ Hb Hq) as (word & Hword & _). destruct Hb as [Hl Hall]. split.
  - split; simpl; [by rewrite length_insert|]. by apply Forall_insert.
  - intros slot' Hs'. unfold occ_bit. simpl. rewrite list_lookup_insert_dec by lia.
    pose proof (slot_split slot). pose proof (slot_split slot').
    case_decide as E; simpl.
    + rewrite <- E, Hword. simpl.
      assert (slot' mod 64 < 64)%nat by (apply Nat.mod_upper_bound; lia).
      rewrite (Hw' word) by done. repeat case_decide; subst; try done; lia.
    + case_decide; [|done]. subst. done.
Qed.

Lemma set_occupied_spec w slot :
  bitmap_ok w -> (slot < 256)%nat ->
  exists o, set_occupied w slot = with_occupied w o /\ bitmap_ok (with_occupied w o) /\
  forall slot', (slot' < 256)%nat ->
    occ_bit (with_occupied w o) slot' = if decide (slot = slot') then true else occ_bit w slot'.
Proof.
  intros Hb Hs. unfold set_occupied. destruct (word_lookup w _ Hb (slot_word _ Hs)) as (word & Hw & Hf).
  rewrite Hw. eexists. split; [done|].
  assert (slot mod 64 < 64)%nat as Hm by (apply Nat.mod_upper_bound; lia).
  apply (write_bit w slot _ (fun _ => true)); try done.
  - apply fits_of_bits; [lia|apply Z.lor_nonneg; split; [apply Hf|by apply bit_mask_fits]|].
    intros n Hn. pose proof (bit_mask_fits _ Hm).
    by rewrite Z.lor_spec, !(fits_testbit 64) by (done || lia).
  - intros word2 j H2 Hj. simplify_eq. rewrite Z.lor_spec, bit_mask by done.
    case_bool_decide; case_decide; try done; [apply orb_true_r|apply orb_false_r].
Qed.

Lemma clear_occupied_spec w slot :
  bitmap_ok w -> (slot < 256)%nat ->
  exists o, clear_occupied w slot = with_occupied w o /\ bitmap_ok (with_occupied w o) /\
  forall slot', (slot' < 256)%nat ->
    occ_bit (with_occupied w o) slot' = if decide (slot = slot') then false else occ_bit w slot'.
Proof.
  intros Hb Hs. unfold clear_occupied. destruct (word_lookup w _ Hb (slot_word _ Hs)) as (word & Hw & Hf).
  rewrite Hw. eexists. split; [done|].
  assert (slot mod 64 < 64)%nat as Hm by (apply Nat.mod_upper_bound; lia).
  apply (write_bit w slot _ (fun _ => false)); try done.
  - apply fits_of_bits; [lia|apply Z.land_nonneg; left; apply Hf|].
    intros n Hn. rewrite Z.land_spec, (fits_testbit 64 word); [done|lia|done].
  - intros word2 j H2 Hj. simplify_eq. rewrite Z.land_spec, bit_unmask by done.
    case_bool_decide; case_decide; try done; [apply andb_false_r|apply andb_true_r].
Qed.

Lemma rotated_word_fits w base : bitmap_ok w -> fits 64 (rotated_word w base).
Proof.
  intros Hb. unfold rotated_word.
  assert (base mod 256 < 256)%nat as H256 by (apply Nat.mod_upper_bound; lia).
  destruct (word_lookup w _ Hb (slot_word _ H256)) as (lo & -> & Hlo). simpl.
  case_match; [done|]. set (bit := Z.of_nat _).
  apply fits_of_bits; [lia| |].
  - apply Z.lor_nonneg. split; [apply Z.shiftr_nonneg, Hlo|]. unfold shl. by apply wrap_fits.
  - intros n Hn. rewrite Z.lor_spec, Z.shiftr_spec by lia. unfold shl, wrap.
    rewrite Z.mod_pow2_bits_high, (fits_testbit 64 lo) by (done || lia). done.
Qed.

(** The rotated word shows the 64 slots from [base] on, wrapping around. *)
Lemma rotated_word_spec w base j :
  bitmap_ok w -> (j < 64)%nat ->
  Z.testbit (rotated_word w base) (Z.of_nat j) = occ_bit w ((base + j) mod 256).
Proof.
  intros Hb Hj. unfold rotated_word, occ_bit.
  rewrite <- (Nat.Div0.add_mod_idemp_l base j 256).
  assert (base mod 256 < 256)%nat as H256 by (apply Nat.mod_upper_bound; lia).
  set (b := (base mod 256)%nat) in *.
  assert (exists q r, b = 64 * q + r /\ q < 4 /\ r < 64)%nat as (q & r & Hbq & Hq & Hr).
  { exists (b / 64)%nat, (b mod 64)%nat. split_and!; [apply Nat.div_mod_eq|by apply slot_word|].
    apply Nat.mod_upper_bound. lia. }
  assert (b / 64 = q)%nat as ->.
  { rewrite Hbq, Nat.mul_comm, Nat.div_add_l, Nat.div_small by lia. lia. }
  assert (b mod 64 = r)%nat as ->.
  { rewrite Hbq, Nat.mul_comm, Nat.add_comm, Nat.Div0.mod_add, Nat.mod_small by lia. done. }
  destruct (word_lookup w q Hb Hq) as (lo & Hlo & Hlof). rewrite Hlo. simpl.
  destruct (decide (r + j < 64)%nat) as [Hlt|Hge].
  - assert ((b + j) mod 256 = 64 * q + (r + j))%nat as E by (rewrite Nat.mod_small; lia).
    rewrite E, (Nat.mul_comm 64 q), Nat.div_add_l, (Nat.div_small (r + j)), Nat.add_0_r, Hlo by lia.
    rewrite (Nat.add_comm (q * 64)), Nat.Div0.mod_add, (Nat.mod_small (r + j)) by lia. simpl.
    destruct (Nat.eqb_spec r 0); [by subst|].
    rewrite Z.lor_spec, Z.shiftr_spec by lia. unfold shl, wrap.
    rewrite Z.mod_pow2_bits_low, Z.shiftl_spec_low by lia. rewrite orb_false_r. f_equal. lia.
  - destruct (Nat.eqb_spec r 0); [lia|].
    assert ((b + j) mod 256 = 64 * ((q + 1) mod 4) + (r + j - 64))%nat as E.
    { destruct (decide (q = 3%nat)) as [->|].
      - replace (b + j)%nat with ((r + j - 64) + 1 * 256)%nat by lia.
        rewrite Nat.Div0.mod_add, Nat.mod_small by lia. change ((3 + 1) mod 4)%nat with 0%nat. lia.
      - rewrite (Nat.mod_small (b + j)), (Nat.mod_small (q + 1)) by lia. lia. }
    assert ((q + 1) mod 4 < 4)%nat as Hq' by (apply Nat.mod_upper_bound; lia).
    destruct (word_lookup w _ Hb Hq') as (hi & Hhi & Hhif).
    rewrite E, (Nat.mul_comm 64), Nat.div_add_l, (Nat.div_small (r + j - 64)), Nat.add_0_r, Hhi by lia.
    rewrite (Nat.add_comm (_ * 64)), Nat.Div0.mod_add, (Nat.mod_small (r + j - 64)) by lia. simpl.
    rewrite Z.lor_spec, Z.shiftr_spec by lia. unfold shl, wrap.
    rewrite Z.mod_pow2_bits_low, Z.shiftl_spec, (fits_testbit 64 lo) by (done || lia). simpl.
    f_equal. lia.
Qed.

Lemma trailing_zeros_from_spec word fuel i :
  let r := trailing_zeros_from word i fuel in
  (i <= r <= i + fuel)%nat /\
  (forall j, (i <= j < r)%nat -> Z.testbit word (Z.of_nat j) = false) /\
  ((r < i + fuel)%nat -> Z.testbit word (Z.of_nat r) = true).
Proof.
  revert i. induction fuel as [|fuel IH]; simpl; intros i.
  - split_and!; intros; lia.
  - destruct (Z.testbit word (Z.of_nat i)) eqn:E.
    + split_and!; intros; [lia..|done].
    + destruct (IH (S i)) as (H1 & H2 & H3). split_and!; [lia..| |].
      * intros j Hj. destruct (decide (j = i)) as [->|]; [done|]. apply H2. lia.
      * intros Hr. apply H3. lia.
Qed.

Lemma trailing_zeros_spec word :
  fits 64 word ->
  if decide (word = 0) then True
  else (trailing_zeros word < 64)%nat /\ Z.testbit word (Z.of_nat (trailing_zeros word)) = true /\
       forall j, (j < trailing_zeros word)%nat -> Z.testbit word (Z.of_nat j) = false.
Proof.
  intros Hf. case_decide as E; [done|].
  destruct (trailing_zeros_from_spec word 64 0) as (H1 & H2 & H3). fold (trailing_zeros word) in *.
  assert (trailing_zeros word < 64)%nat as Hlt.
  { destruct (decide (trailing_zeros word < 64)%nat); [done|]. exfalso. apply E.
    apply Z.bits_inj'. intros x Hx. rewrite Z.bits_0. destruct (decide (x < 64)).
    - replace x with (Z.of_nat (Z.to_nat x)) by lia. apply H2. lia.
    - apply (fits_testbit 64); [lia|done]. }
  split_and!; [done|by apply H3|]. intros j Hj. apply H2. lia.
Qed.

(** The scan finds the first occupied slot at or after [start]. *)
Lemma next_occupied_spec w start :
  bitmap_ok w -> (start < 256)%nat ->
  match next_occupied_from w start with
  | Some d => exists k, d = Z.of_nat k /\ (k < 256)%nat /\
      occ_bit w ((start + k) mod 256) = true /\
      forall j, (j < k)%nat -> occ_bit w ((start + j) mod 256) = false
  | None => forall j, (j < 256)%nat -> occ_bit w ((start + j) mod 256) = false
  end.
Proof.
  intros Hb Hs. unfold next_occupied_from.
  assert (forall n step, (step + n = 5)%nat ->
    (forall j, (j < 256)%nat -> (j < step * 64)%nat -> occ_bit w ((start + j) mod 256) = false) ->
    match next_occupied_steps w start (seq step n) with
    | Some d => exists k, d = Z.of_nat k /\ (k < 256)%nat /\
        occ_bit w ((start + k) mod 256) = true /\
        forall j, (j < k)%nat -> occ_bit w ((start + j) mod 256) = false
    | None => forall j, (j < 256)%nat -> occ_bit w ((start + j) mod 256) = false
    end) as H; [|apply H; [done|lia]].
  induction n as [|n IH]; intros step Hn Hbelow; cbn [seq next_occupied_steps].
  - intros j Hj. apply Hbelow; lia.
  - set (word := rotated_word w (start + step * 64)).
    pose proof (trailing_zeros_spec word (rotated_word_fits w _ Hb)) as Htz.
    assert (forall j, (j < 64)%nat -> Z.testbit word (Z.of_nat j) =
      occ_bit w ((start + (step * 64 + j)) mod 256)) as Hbits.
    { intros j Hj. subst word. rewrite rotated_word_spec by done. f_equal. f_equal. lia. }
    assert (forall m, (m <= 64)%nat -> (forall j, (j < m)%nat -> Z.testbit word (Z.of_nat j) = false) ->
      forall j, (j < step * 64 + m)%nat -> (j < 256)%nat -> occ_bit w ((start + j) mod 256) = false)
      as Hext.
    { intros m Hm Hz j Hj H256. destruct (decide (j < step * 64)%nat); [by apply Hbelow|].
      replace j with (step * 64 + (j - step * 64))%nat by lia.
      rewrite <- Hbits by lia. apply Hz. lia. }
    destruct (Z.eqb_spec word 0) as [E|E]; simpl.
    + apply IH; [lia|]. intros j H256 Hj. apply (Hext 64%nat); try lia.
      intros. rewrite E. apply Z.bits_0.
    + rewrite decide_False in Htz by done. destruct Htz as (Ht1 & Ht2 & Ht3).
      destruct (Nat.ltb_spec (step * 64 + trailing_zeros word) 256) as [Hlt|Hge].
      * exists (step * 64 + trailing_zeros word)%nat. split_and!; [done..| |].
        -- by rewrite <- Hbits.
        -- intros j Hj. eapply Hext; [|done|done|lia]. lia.
      * apply IH; [lia|]. intros j H256 Hj. apply (Hext (trailing_zeros word)); [lia|done|lia|done].
Qed.
End Timer.
