(* ===== verification/TimerRefine.v ===== *)
(** * The timer wheel refines a map of timers

    The representation invariant of [Timer]: every location's intrusive list
    spells a duplicate-free sequence of handles, each armed node is on exactly
    one of them, and the bitmap marks the non-empty slots. Over it, the
    operations of the wheel are those of a finite map from handles to firing
    times. *)

From S2P Require Import Prelude.
From S2P Require Import Timer.

#[local] Arguments seqZ : simpl never.

Section TimerRefine.
Context {ParticipantHandle : Type} `{!EqDecision ParticipantHandle, !Countable ParticipantHandle}.
#[local] Abbreviation TimerWheel := (TimerWheel (ParticipantHandle := ParticipantHandle)).
#[local] Abbreviation TimerNode := (TimerNode (ParticipantHandle := ParticipantHandle)).
Implicit Types (w : TimerWheel) (k x : ParticipantHandle) (n : TimerNode).

Definition lists := Z -> list ParticipantHandle.
Definition upd (ls : lists) (l : Z) (v : list ParticipantHandle) : lists :=
  fun l' => if decide (l' = l) then v else ls l'.

Definition location_ok (l : Z) : Prop := 0 <= l <= 256.

Definition pred_of (l : list ParticipantHandle) (i : nat) : option ParticipantHandle :=
  match i with O => None | S j => l !! j end.

Record wheel_rep (w : TimerWheel) (ls : lists) : Prop := mk_wheel_rep {
  rep_head : forall l, location_ok l -> head_at w l = ls l !! 0%nat;
  rep_chain : forall l i k, location_ok l -> ls l !! i = Some k ->
    exists n, nodes w !! k = Some n /\ node_location n = l /\
      node_prev n = pred_of (ls l) i /\ node_next n = ls l !! S i;
  rep_nodup : forall l, location_ok l -> NoDup (ls l);
  rep_armed : forall k n, nodes w !! k = Some n -> node_location n <> DISARMED_LOCATION ->
    location_ok (node_location n) /\ k ∈ ls (node_location n);
  rep_heads : length (heads w) = 256%nat;
  rep_bitmap : bitmap_ok w;
  rep_occ : forall slot, (slot < 256)%nat ->
    occ_bit w slot = bool_decide (ls (Z.of_nat slot) <> []);
}.

(** The clock fields are untouched. *)
Definition same_clock (w w' : TimerWheel) : Prop :=
  epoch w' = epoch w /\ last_now w' = last_now w /\ current_tick w' = current_tick w.

(** ** The steps of [unlink] *)

Lemma head_at_with_nodes w ns l : head_at (with_nodes w ns) l = head_at w l.
Proof. done. Qed.

Lemma set_head_at w l v l' :
  length (heads w) = 256%nat -> location_ok l -> location_ok l' ->
  let w' := if l =? DUE_LOCATION then with_due w v
            else match heads w !! Z.to_nat l with
                 | Some _ => with_heads w (<[Z.to_nat l := v]> (heads w))
                 | None => w
                 end in
  same_clock w w' /\ nodes w' = nodes w /\ occupied w' = occupied w /\
  length (heads w') = 256%nat /\ head_at w' l' = if decide (l' = l) then v else head_at w l'.
Proof.
  intros Hlen Hl Hl'. unfold location_ok, DUE_LOCATION in *.
  destruct (Z.eqb_spec l 256) as [->|Hne]; cbv zeta.
  - split_and!; try done. unfold head_at, DUE_LOCATION. simpl.
    destruct (Z.eqb_spec l' 256); case_decide; done || lia.
  - destruct (lookup_lt_is_Some_2 (heads w) (Z.to_nat l)) as [h Hh]; [lia|]. rewrite Hh.
    split_and!; try done; simpl; [by rewrite length_insert|].
    unfold head_at, DUE_LOCATION. simpl. destruct (Z.eqb_spec l' 256).
    + rewrite decide_False by lia. done.
    + rewrite list_lookup_insert_dec by lia. repeat case_decide; try done; lia.
Qed.

Lemma detach_back_spec w n :
  length (heads w) = 256%nat -> location_ok (node_location n) ->
  (forall p, node_prev n = Some p -> is_Some (nodes w !! p)) ->
  exists w', detach_back w n = Some w' /\ same_clock w w' /\ occupied w' = occupied w /\
    length (heads w') = 256%nat /\
    (forall x, nodes w' !! x = if decide (node_prev n = Some x)
                               then (fun m => set_next m (node_next n)) <$> nodes w !! x
                               else nodes w !! x) /\
    (forall l, location_ok l -> head_at w' l =
       if decide (node_prev n = None /\ l = node_location n) then node_next n else head_at w l).
Proof.
  intros Hlen Hl Hp. unfold detach_back. destruct (node_prev n) as [p|] eqn:E.
  - destruct (Hp p eq_refl) as [pn Hpn]. rewrite Hpn. simpl. eexists. split; [done|].
    split_and!; try done.
    intros x. simpl. rewrite lookup_insert. repeat case_decide; simplify_eq; try done.
    by rewrite Hpn.
  - eexists. split; [done|].
    pose proof (fun l' => set_head_at w (node_location n) (node_next n) l' Hlen Hl) as H.
    cbv zeta in H. split_and!; try apply (H 0); try done.
    + intros x. case_decide; [done|]. by rewrite (proj1 (proj2 (H 0 ltac:(done)))).
    + intros l Hl'. destruct (H l Hl') as (_ & _ & _ & _ & ->).
      repeat case_decide; naive_solver.
Qed.

Lemma detach_forward_spec w n :
  (forall x, node_next n = Some x -> is_Some (nodes w !! x)) ->
  exists ns, detach_forward w n = Some (with_nodes w ns) /\
    (forall x, ns !! x = if decide (node_next n = Some x)
                         then (fun m => set_prev m (node_prev n)) <$> nodes w !! x
                         else nodes w !! x).
Proof.
  intros Hn. unfold detach_forward. destruct (node_next n) as [x|] eqn:E.
  - destruct (Hn x eq_refl) as [xn Hxn]. rewrite Hxn. simpl. eexists. split; [done|].
    intros y. rewrite lookup_insert. repeat case_decide; simplify_eq; try done. by rewrite Hxn.
  - exists (nodes w). split; [by destruct w|]. intros x. by case_decide.
Qed.

Lemma vacate_spec w n :
  bitmap_ok w -> location_ok (node_location n) ->
  exists o, vacate w n = with_occupied w o /\ bitmap_ok (with_occupied w o) /\
    forall slot, (slot < 256)%nat -> occ_bit (with_occupied w o) slot =
      if decide (Z.of_nat slot = node_location n /\ head_at w (node_location n) = None)
      then false else occ_bit w slot.
Proof.
  intros Hb Hl. unfold vacate, location_ok, head_at, DUE_LOCATION in *.
  assert (with_occupied w (occupied w) = w) as Hid by by destruct w.
  destruct (Z.eqb_spec (node_location n) 256) as [E|E]; simpl.
  - exists (occupied w). rewrite Hid. split_and!; try done. intros slot Hs.
    rewrite decide_False by lia. done.
  - destruct (mjoin (heads w !! Z.to_nat (node_location n))) eqn:Eh.
    + exists (occupied w). rewrite Hid. split_and!; try done. intros slot Hs.
      rewrite decide_False by (intros [_ ?]; done). done.
    + destruct (clear_occupied_spec w (Z.to_nat (node_location n)) Hb) as (o & -> & Hbo & Ho); [lia|].
      exists o. split_and!; try done. intros slot Hs. rewrite Ho by done.
      destruct (decide (Z.to_nat (node_location n) = slot)).
      * rewrite decide_True by (split; [lia|done]). done.
      * rewrite decide_False by (intros [? _]; lia). done.
Qed.

(** ** Lists without one element *)

Lemma lookup_delete_index (l : list ParticipantHandle) i j :
  delete i l !! j = if decide (j < i)%nat then l !! j else l !! S j.
Proof.
  case_decide; [by apply list_lookup_delete_lt|]. apply list_lookup_delete_ge. lia.
Qed.

Lemma NoDup_index (l : list ParticipantHandle) i j x :
  NoDup l -> l !! i = Some x -> l !! j = Some x -> i = j.
Proof. intros Hn Hi Hj. by eapply NoDup_lookup. Qed.

Lemma elem_delete_index (l : list ParticipantHandle) i k x :
  NoDup l -> l !! i = Some k -> (x ∈ delete i l <-> x ∈ l /\ x <> k).
Proof.
  intros Hn Hi. rewrite !list_elem_of_lookup. split.
  - intros [j Hj]. rewrite lookup_delete_index in Hj. case_decide.
    + split; [eauto|]. intros ->. pose proof (NoDup_index l i j k Hn Hi Hj). lia.
    + split; [eauto|]. intros ->. pose proof (NoDup_index l i (S j) k Hn Hi Hj). lia.
  - intros [[j Hj] Hne]. assert (j <> i) by congruence.
    destruct (decide (j < i)%nat).
    + exists j. rewrite lookup_delete_index, decide_True by done. done.
    + exists (j - 1)%nat. rewrite lookup_delete_index, decide_False by lia.
      by replace (S (j - 1)) with j by lia.
Qed.

(** Nodes after [unlink]: the neighbours bypass [k], which is disarmed. *)
Definition bypassed (ns : gmap ParticipantHandle TimerNode) k n x : option TimerNode :=
  if decide (x = k) then Some (mkNode (node_tick n) None None DISARMED_LOCATION)
  else if decide (node_next n = Some x) then (fun m => set_prev m (node_prev n)) <$> ns !! x
  else if decide (node_prev n = Some x) then (fun m => set_next m (node_next n)) <$> ns !! x
  else ns !! x.

Lemma unlink_run w ls k n i :
  wheel_rep w ls -> nodes w !! k = Some n -> location_ok (node_location n) ->
  ls (node_location n) !! i = Some k ->
  exists w', unlink w k = Some w' /\ same_clock w w' /\ length (heads w') = 256%nat /\
    bitmap_ok w' /\ (forall x, nodes w' !! x = bypassed (nodes w) k n x) /\
    (forall l, location_ok l -> head_at w' l =
       if decide (node_prev n = None /\ l = node_location n) then node_next n else head_at w l) /\
    (forall slot, (slot < 256)%nat -> occ_bit w' slot =
       if decide (Z.of_nat slot = node_location n /\ head_at w' (node_location n) = None)
       then false else occ_bit w slot).
Proof.
  intros Hrep Hk Hl Hi. destruct (rep_chain _ _ Hrep _ _ _ Hl Hi) as (n' & Hk' & _ & Hp & Hn).
  simplify_eq. set (l := node_location n) in *.
  assert (forall j x, ls l !! j = Some x -> is_Some (nodes w !! x)) as Hin.
  { intros j x Hx. destruct (rep_chain _ _ Hrep _ _ _ Hl Hx) as (? & ? & _). eauto. }
  pose proof (rep_nodup _ _ Hrep l Hl) as Hnd.
  assert (forall x, node_prev n = Some x -> x <> k /\ node_next n <> Some x) as Hpk.
  { rewrite Hp, Hn. destruct i as [|i]; simpl; [done|]. intros x Hx. split.
    - intros ->. pose proof (NoDup_index _ _ _ _ Hnd Hx Hi). lia.
    - intros Hx'. pose proof (NoDup_index _ _ _ _ Hnd Hx Hx'). lia. }
  assert (node_next n <> Some k) as Hnk.
  { rewrite Hn. intros Hx. pose proof (NoDup_index _ _ _ _ Hnd Hx Hi). lia. }
  unfold unlink. rewrite Hk. simpl.
  destruct (detach_back_spec w n) as (w1 & -> & Hc1 & Ho1 & Hh1 & Hn1 & Hd1); [apply Hrep|done| |].
  { intros x Hx. rewrite Hp in Hx. destruct i; [done|]. by eapply Hin. }
  simpl. destruct (detach_forward_spec w1 n) as (ns & -> & Hn2).
  { intros x Hx. rewrite Hn1. rewrite Hn in Hx. apply Hin in Hx as [? ->]. case_decide; eauto. }
  simpl. destruct (vacate_spec (with_nodes w1 ns) n) as (o & -> & Hbo & Ho2); [|done|].
  { unfold bitmap_ok. simpl. rewrite Ho1. apply Hrep. }
  unfold disarm. simpl.
  assert (ns !! k = Some n) as Hnsk.
  { rewrite Hn2, decide_False by done. rewrite Hn1, decide_False; [done|]. intros E.
    by apply Hpk in E as [? _]. }
  rewrite Hnsk. simpl. eexists. split; [done|]. split_and!; try done.
  - intros x. simpl. rewrite lookup_insert. unfold bypassed.
    destruct (decide (x = k)) as [->|Hne]; [by rewrite decide_True|]. rewrite decide_False by done.
    rewrite Hn2, Hn1. destruct (decide (node_next n = Some x)) as [E|E]; [|done].
    rewrite decide_False; [done|]. intros E'. by apply Hpk in E' as [_ ?].
  - intros slot Hs. specialize (Ho2 slot Hs). unfold occ_bit in *. simpl in *. rewrite Ho1 in Ho2.
    exact Ho2.
Qed.

Lemma pred_of_delete (l : list ParticipantHandle) i j :
  (j <= i)%nat -> pred_of (delete i l) j = pred_of l j.
Proof. destruct j as [|j]; simpl; [done|]. intros. by rewrite lookup_delete_index, decide_True. Qed.

Lemma pred_of_delete_ge (l : list ParticipantHandle) i j :
  (i < j)%nat -> pred_of (delete i l) j = pred_of l (S j).
Proof.
  destruct j as [|j]; simpl; [lia|]. intros. rewrite lookup_delete_index, decide_False by lia. done.
Qed.

(** Nodes on other lists are not touched. *)
Lemma bypassed_other w ls k n i l j x :
  wheel_rep w ls -> nodes w !! k = Some n -> location_ok (node_location n) ->
  ls (node_location n) !! i = Some k -> location_ok l -> l <> node_location n ->
  ls l !! j = Some x -> bypassed (nodes w) k n x = nodes w !! x.
Proof.
  intros Hrep Hk Hl Hi Hl' Hne Hj.
  assert (forall j', ls (node_location n) !! j' <> Some x) as Hnot.
  { intros j' Hj'. destruct (rep_chain _ _ Hrep _ _ _ Hl Hj') as (? & ? & ? & _).
    destruct (rep_chain _ _ Hrep _ _ _ Hl' Hj) as (? & ? & ? & _). congruence. }
  destruct (rep_chain _ _ Hrep _ _ _ Hl Hi) as (n' & Hk' & _ & Hp & Hn). simplify_eq.
  unfold bypassed. rewrite decide_False by (intros ->; by eapply Hnot).
  rewrite decide_False by (rewrite Hn; apply Hnot). rewrite decide_False; [done|].
  rewrite Hp. destruct i; simpl; [done|apply Hnot].
Qed.

(** The list [k] was on closes over the gap. *)
Lemma bypassed_chain w ls k n i j x :
  let l := ls (node_location n) in
  wheel_rep w ls -> nodes w !! k = Some n -> location_ok (node_location n) ->
  l !! i = Some k -> delete i l !! j = Some x ->
  exists m, bypassed (nodes w) k n x = Some m /\ node_location m = node_location n /\
    node_prev m = pred_of (delete i l) j /\ node_next m = delete i l !! S j.
Proof.
  intros l Hrep Hk Hl Hi Hj. pose proof (rep_nodup _ _ Hrep _ Hl) as Hnd. fold l in Hnd.
  destruct (rep_chain _ _ Hrep _ _ _ Hl Hi) as (n' & Hk' & _ & Hp & Hn). simplify_eq. fold l in Hp, Hn.
  rewrite lookup_delete_index in Hj |- *. unfold bypassed. case_decide as Hji.
  - destruct (rep_chain _ _ Hrep _ _ _ Hl Hj) as (m & Hm & Hml & Hmp & Hmn). fold l in Hmp, Hmn.
    rewrite decide_False by (intros ->; pose proof (NoDup_index _ _ _ _ Hnd Hi Hj); lia).
    rewrite decide_False by (rewrite Hn; intros E; pose proof (NoDup_index _ _ _ _ Hnd E Hj); lia).
    rewrite Hm, pred_of_delete, Hp by lia. destruct i as [|i]; [lia|]. simpl.
    destruct (decide (l !! i = Some x)) as [E|E].
    + pose proof (NoDup_index _ _ _ _ Hnd E Hj) as ->. rewrite decide_False by lia.
      eexists. split; [done|]. simpl. done.
    + rewrite decide_True; [eauto|]. destruct (decide (j = i)) as [->|]; [done|lia].
  - destruct (rep_chain _ _ Hrep _ _ _ Hl Hj) as (m & Hm & Hml & Hmp & Hmn). fold l in Hmp, Hmn.
    rewrite decide_False by (intros ->; pose proof (NoDup_index _ _ _ _ Hnd Hi Hj); lia).
    rewrite (decide_False (P := (S j < i)%nat)) by lia. rewrite Hn, Hm. simpl.
    destruct (decide (l !! S i = Some x)) as [E|E].
    + pose proof (NoDup_index _ _ _ _ Hnd E Hj). assert (i = j) as <- by lia.
      eexists. split; [done|]. simpl. rewrite pred_of_delete by lia. done.
    + assert (i <> j) by congruence. rewrite pred_of_delete_ge by lia.
      rewrite decide_False; [eauto|]. rewrite Hp. destruct i as [|i]; simpl; [done|].
      intros E'. pose proof (NoDup_index _ _ _ _ Hnd E' Hj). lia.
Qed.

Lemma unlink_spec w ls k n :
  wheel_rep w ls -> nodes w !! k = Some n -> node_location n <> DISARMED_LOCATION ->
  exists w' i, unlink w k = Some w' /\ ls (node_location n) !! i = Some k /\
    wheel_rep w' (upd ls (node_location n) (delete i (ls (node_location n)))) /\ same_clock w w' /\
    (forall x, node_tick <$> nodes w' !! x = node_tick <$> nodes w !! x) /\
    (forall x, node_location <$> nodes w' !! x =
       if decide (x = k) then Some DISARMED_LOCATION else node_location <$> nodes w !! x).
Proof.
  intros Hrep Hk Harmed. destruct (rep_armed _ _ Hrep k n Hk Harmed) as [Hl Hin].
  apply list_elem_of_lookup in Hin as [i Hi].
  destruct (rep_chain _ _ Hrep _ _ _ Hl Hi) as (n' & Hk' & _ & Hp & Hn). simplify_eq.
  destruct (unlink_run w ls k n i Hrep Hk Hl Hi) as (w' & Hw' & Hc & Hh & Hb & Hns & Hhd & Ho).
  pose proof (rep_nodup _ _ Hrep _ Hl) as Hnd.
  assert (head_at w' (node_location n) = delete i (ls (node_location n)) !! 0%nat) as Hh0.
  { rewrite Hhd, lookup_delete_index by done. destruct i as [|i].
    - rewrite decide_True by done. done.
    - rewrite decide_False, decide_True by (lia || (intros [E _]; rewrite Hp in E; simpl in E;
        apply lookup_ge_None in E; apply lookup_lt_Some in Hi; lia)). by apply Hrep. }
  exists w', i. split_and!; try done.
  - split; try done; unfold upd.
    + intros l Hl'. case_decide; subst; [done|]. rewrite Hhd, decide_False by (done || by intros [_ ?]).
      by apply Hrep.
    + intros l j x Hl' Hj. case_decide; subst.
      * rewrite Hns. by apply (bypassed_chain w ls k n i j x).
      * rewrite Hns. erewrite bypassed_other by done. by apply (rep_chain _ _ Hrep).
    + intros l Hl'. case_decide; [|by apply Hrep]. subst. eapply sublist_NoDup; [done|apply sublist_delete].
    + intros x m Hx Hm. rewrite Hns in Hx. unfold bypassed in Hx.
      assert (x <> k) as Hxk.
      { intros ->. rewrite decide_True in Hx by done. by inv Hx. }
      assert (exists m0, nodes w !! x = Some m0 /\ node_location m0 = node_location m) as (m0 & H0 & E0).
      { rewrite decide_False in Hx by done. destruct (nodes w !! x) as [m0|]; [|by repeat case_decide].
        exists m0. split; [done|]. repeat case_decide; simpl in Hx; by inv Hx. }
      destruct (rep_armed _ _ Hrep x m0 H0) as [Hlx Hinx]; [congruence|]. rewrite E0 in *.
      split; [done|]. clear Hx. case_decide as E; [|done]. rewrite E in *. by apply (elem_delete_index _ _ k).
    + intros slot Hs. rewrite Ho, Hh0, (rep_occ _ _ Hrep) by done.
      destruct (decide (Z.of_nat slot = node_location n)) as [E|E];
        [|by rewrite decide_False by by intros [? _]].
      rewrite E. destruct (delete i (ls (node_location n))) as [|y l'] eqn:Ed.
      * by rewrite decide_True.
      * rewrite decide_False by (by intros [_ ?]). rewrite !bool_decide_true; [done..|].
        intros E2. by rewrite E2 in Hi.
  - intros x. rewrite Hns. unfold bypassed. repeat case_decide; subst; try done.
    + by rewrite Hk.
    + by destruct (nodes w !! x).
    + by destruct (nodes w !! x).
  - intros x. rewrite Hns. unfold bypassed. repeat case_decide; subst; try done.
    + by destruct (nodes w !! x).
    + by destruct (nodes w !! x).
Qed.

(** ** [link] *)

Lemma disarmed_unlisted w ls k n l :
  wheel_rep w ls -> nodes w !! k = Some n -> node_location n = DISARMED_LOCATION ->
  location_ok l -> k ∉ ls l.
Proof.
  intros Hrep Hk Hn Hl Hin. apply list_elem_of_lookup in Hin as [i Hi].
  destruct (rep_chain _ _ Hrep _ _ _ Hl Hi) as (m & Hm & E & _). simplify_eq.
  rewrite Hn in Hl. destruct Hl. unfold DISARMED_LOCATION, DUE_LOCATION in *. lia.
Qed.

Definition linked (ns : gmap ParticipantHandle TimerNode) k l tick (old : option ParticipantHandle) x :=
  if decide (x = k) then Some (mkNode tick None old l)
  else if decide (old = Some x) then (fun m => set_prev m (Some k)) <$> ns !! x
  else ns !! x.

Lemma link_run w ls k n l tick :
  wheel_rep w ls -> nodes w !! k = Some n -> node_location n = DISARMED_LOCATION -> location_ok l ->
  exists w', link w k l tick = Some w' /\ same_clock w w' /\ length (heads w') = 256%nat /\
    bitmap_ok w' /\ (forall x, nodes w' !! x = linked (nodes w) k l tick (ls l !! 0%nat) x) /\
    (forall l', location_ok l' -> head_at w' l' = if decide (l' = l) then Some k else head_at w l') /\
    (forall slot, (slot < 256)%nat -> occ_bit w' slot =
       if decide (Z.of_nat slot = l) then true else occ_bit w slot).
Proof.
  intros Hrep Hk Hn Hl. unfold link. rewrite (rep_head _ _ Hrep l Hl), Hk. simpl.
  pose proof (disarmed_unlisted w ls k n l Hrep Hk Hn Hl) as Hni.
  set (old := ls l !! 0%nat). set (ns0 := <[k := mkNode tick None old l]> (nodes w)).
  assert (exists ns, match old with
    | Some h => m ← ns0 !! h; Some (with_nodes (with_nodes w ns0) (<[h := set_prev m (Some k)]> ns0))
    | None => Some (with_nodes w ns0) end = Some (with_nodes w ns) /\
    forall x, ns !! x = linked (nodes w) k l tick old x) as (ns & -> & Hns).
  { unfold linked, ns0. destruct old as [h|] eqn:E; subst old.
    - assert (h <> k) as Hhk by (intros ->; apply Hni; by eapply list_elem_of_lookup_2).
      destruct (rep_chain _ _ Hrep _ _ _ Hl E) as (m & Hm & _).
      rewrite lookup_insert_ne, Hm by done. simpl. eexists. split; [done|].
      intros x. rewrite !lookup_insert. repeat case_decide; simplify_eq; try done. by rewrite Hm.
    - eexists. split; [done|]. intros x. rewrite lookup_insert. repeat case_decide; simplify_eq; done. }
  simpl. pose proof (fun l' => set_head_at (with_nodes w ns) l (Some k) l' (rep_heads _ _ Hrep) Hl) as H.
  cbv zeta in H. eexists. split; [done|]. unfold location_ok, DUE_LOCATION in *.
  destruct (Z.eqb_spec l 256) as [->|Hne].
  - split_and!; try done; try apply (rep_heads _ _ Hrep); [apply Hrep| |].
    + intros l' Hl'. exact (proj2 (proj2 (proj2 (proj2 (H l' Hl'))))).
    + intros slot Hs. rewrite decide_False by lia. done.
  - simpl in H |- *.
    destruct (lookup_lt_is_Some_2 (heads w) (Z.to_nat l)) as [h Hh].
    { rewrite (rep_heads _ _ Hrep). lia. }
    rewrite Hh in H |- *.
    destruct (set_occupied_spec (with_heads (with_nodes w ns) (<[Z.to_nat l:=Some k]> (heads w)))
      (Z.to_nat l)) as (o & -> & Hbo & Ho); [apply Hrep|lia|].
    split_and!; try done.
    + apply (H 0). done.
    + intros l' Hl'. exact (proj2 (proj2 (proj2 (proj2 (H l' Hl'))))).
    + intros slot Hs. rewrite Ho by done. repeat case_decide; try done; lia.
Qed.

Lemma link_spec w ls k n l tick :
  wheel_rep w ls -> nodes w !! k = Some n -> node_location n = DISARMED_LOCATION -> location_ok l ->
  exists w', link w k l tick = Some w' /\ wheel_rep w' (upd ls l (k :: ls l)) /\ same_clock w w' /\
    (forall x, node_tick <$> nodes w' !! x =
       if decide (x = k) then Some tick else node_tick <$> nodes w !! x) /\
    (forall x, node_location <$> nodes w' !! x =
       if decide (x = k) then Some l else node_location <$> nodes w !! x).
Proof.
  intros Hrep Hk Hn Hl.
  destruct (link_run w ls k n l tick Hrep Hk Hn Hl) as (w' & Hw' & Hc & Hh & Hb & Hns & Hhd & Ho).
  pose proof (fun l' => disarmed_unlisted w ls k n l' Hrep Hk Hn) as Hni.
  exists w'. split_and!; try done.
  - split; try done; unfold upd.
    + intros l' Hl'. rewrite Hhd by done. case_decide; [done|by apply Hrep].
    + intros l' j x Hl' Hj. rewrite Hns. unfold linked. destruct (decide (l' = l)) as [->|Hne].
      * destruct j as [|j]; simpl in Hj |- *.
        { inv Hj. rewrite decide_True by done. eexists. split; [done|]. done. }
        destruct (rep_chain _ _ Hrep _ _ _ Hl Hj) as (m & Hm & Hml & Hmp & Hmn).
        rewrite decide_False by (intros ->; eapply (Hni l); [done|by eapply list_elem_of_lookup_2]).
        rewrite Hm. destruct (decide (ls l !! 0%nat = Some x)) as [E|E]; simpl.
        -- pose proof (NoDup_index _ _ _ _ (rep_nodup _ _ Hrep l Hl) E Hj) as <-.
           eexists. split; [done|]. done.
        -- exists m. split_and!; try done. destruct j; [done|]. done.
      * destruct (rep_chain _ _ Hrep _ _ _ Hl' Hj) as (m & Hm & Hml & Hmp & Hmn).
        rewrite decide_False by (intros ->; eapply (Hni l'); [done|by eapply list_elem_of_lookup_2]).
        rewrite decide_False; [eauto|]. intros E.
        destruct (rep_chain _ _ Hrep _ _ _ Hl E) as (m' & Hm' & Hml' & _). congruence.
    + intros l' Hl'. case_decide; subst; [|by apply Hrep]. constructor; [by apply Hni|by apply Hrep].
    + intros x m Hx Hm. rewrite Hns in Hx. unfold linked in Hx.
      destruct (decide (x = k)) as [->|Hne].
      { inv Hx. simpl. split; [done|]. rewrite decide_True by done. left. }
      assert (exists m0, nodes w !! x = Some m0 /\ node_location m0 = node_location m) as (m0 & H0 & E0).
      { destruct (nodes w !! x) as [m0|]; [|by case_decide].
        exists m0. split; [done|]. case_decide; simpl in Hx; by inv Hx. }
      destruct (rep_armed _ _ Hrep x m0 H0) as [Hlx Hinx]; [congruence|]. rewrite E0 in *.
      split; [done|]. clear Hx. case_decide as E; [|done]. rewrite <- E. by right.
    + intros slot Hs. rewrite Ho by done. case_decide; [done|]. by apply (rep_occ _ _ Hrep).
  - intros x. rewrite Hns. unfold linked. repeat case_decide; try done. by destruct (nodes w !! x).
  - intros x. rewrite Hns. unfold linked. repeat case_decide; try done. by destruct (nodes w !! x).
Qed.

(** ** What the user of the wheel sees *)

Inductive timer := Due | At (tick : Z).
#[export] Instance timer_eq_dec : EqDecision timer.
Proof. solve_decision. Defined.

Definition view (tick location : Z) : option timer :=
  if location =? DISARMED_LOCATION then None
  else if location =? DUE_LOCATION then Some Due else Some (At tick).
Definition pending (w : TimerWheel) : gmap ParticipantHandle timer :=
  omap (fun n => view (node_tick n) (node_location n)) (nodes w).

Lemma pending_lookup w x :
  pending w !! x = t ← node_tick <$> nodes w !! x; l ← node_location <$> nodes w !! x; view t l.
Proof. unfold pending. rewrite lookup_omap. by destruct (nodes w !! x). Qed.

(** Slot nodes sit in the slot of their tick. *)
Definition slots_match (w : TimerWheel) : Prop :=
  forall x t l, node_tick <$> nodes w !! x = Some t -> node_location <$> nodes w !! x = Some l ->
  l = DISARMED_LOCATION \/ l = DUE_LOCATION \/ l = slot_of t.

(** Unlinking and linking, as the user sees them. *)
Lemma unlink_view w ls k n :
  wheel_rep w ls -> slots_match w -> nodes w !! k = Some n -> node_location n <> DISARMED_LOCATION ->
  exists w' i, unlink w k = Some w' /\ ls (node_location n) !! i = Some k /\
    wheel_rep w' (upd ls (node_location n) (delete i (ls (node_location n)))) /\ same_clock w w' /\
    slots_match w' /\ pending w' = delete k (pending w) /\ dom (nodes w') = dom (nodes w) /\
    node_location <$> nodes w' !! k = Some DISARMED_LOCATION.
Proof.
  intros Hrep Hsm Hk Hn.
  destruct (unlink_spec w ls k n Hrep Hk Hn) as (w' & i & Hw' & Hi & Hrep' & Hc & Ht & Hl).
  exists w', i. split_and!; try done.
  - intros x t l. rewrite Ht, Hl. case_decide; [|apply Hsm]. intros _ [= <-]. by left.
  - apply map_eq. intros x. rewrite pending_lookup, Ht, Hl, lookup_delete.
    destruct (decide (x = k)) as [->|Hne].
    + rewrite decide_True by done. by destruct (node_tick <$> _).
    + rewrite decide_False by done. by rewrite pending_lookup.
  - apply set_eq. intros x. rewrite !elem_of_dom. specialize (Ht x).
    destruct (nodes w' !! x), (nodes w !! x); simpl in Ht; try done; split; eauto.
  - by rewrite Hl, decide_True.
Qed.

Lemma link_view w ls k n l tick :
  wheel_rep w ls -> slots_match w -> nodes w !! k = Some n ->
  node_location n = DISARMED_LOCATION -> location_ok l -> l = DUE_LOCATION \/ l = slot_of tick ->
  exists w', link w k l tick = Some w' /\ wheel_rep w' (upd ls l (k :: ls l)) /\ same_clock w w' /\
    slots_match w' /\
    pending w' = <[k := if l =? DUE_LOCATION then Due else At tick]> (pending w).
Proof.
  intros Hrep Hsm Hk Hn Hl Htick.
  destruct (link_spec w ls k n l tick Hrep Hk Hn Hl) as (w' & Hw' & Hrep' & Hc & Ht & Hloc).
  exists w'. split_and!; try done.
  - intros x t l'. rewrite Ht, Hloc. case_decide; [|apply Hsm]. intros [= <-] [= <-]. tauto.
  - apply map_eq. intros x. rewrite pending_lookup, Ht, Hloc, lookup_insert.
    destruct (decide (x = k)) as [->|Hne].
    + rewrite decide_True by done. simpl. unfold view. destruct Hl.
      rewrite (proj2 (Z.eqb_neq l DISARMED_LOCATION)).
      * by case_match.
      * unfold DISARMED_LOCATION, DUE_LOCATION. lia.
    + rewrite decide_False by done. by rewrite pending_lookup.
Qed.

Lemma listed_view w ls k l :
  wheel_rep w ls -> slots_match w -> location_ok l -> k ∈ ls l ->
  exists t, pending w !! k = Some t /\
    match t with Due => l = DUE_LOCATION | At tick => l = slot_of tick /\ l <> DUE_LOCATION end.
Proof.
  intros Hrep Hsm Hl Hin. apply list_elem_of_lookup in Hin as [i Hi].
  destruct (rep_chain _ _ Hrep _ _ _ Hl Hi) as (n & Hk & Hn & _).
  assert (l <> DISARMED_LOCATION).
  { destruct Hl. unfold DISARMED_LOCATION, DUE_LOCATION. lia. }
  rewrite pending_lookup, Hk. simpl. unfold view. rewrite Hn.
  rewrite (proj2 (Z.eqb_neq l _)) by done. destruct (Z.eqb_spec l DUE_LOCATION); [eauto|].
  eexists. split; [done|]. simpl. split; [|done].
  destruct (Hsm k (node_tick n) l) as [|[|]]; try done; rewrite Hk; simpl; by rewrite ?Hn.
Qed.

Lemma view_listed w ls k t :
  wheel_rep w ls -> slots_match w -> pending w !! k = Some t ->
  k ∈ ls (match t with Due => DUE_LOCATION | At tick => slot_of tick end).
Proof.
  intros Hrep Hsm. rewrite pending_lookup. destruct (nodes w !! k) as [n|] eqn:Hk; simpl; [|done].
  unfold view. destruct (Z.eqb_spec (node_location n) DISARMED_LOCATION) as [|Hne]; [done|].
  destruct (rep_armed _ _ Hrep k n Hk Hne) as [Hl Hin].
  destruct (Z.eqb_spec (node_location n) DUE_LOCATION) as [E|E]; intros [= <-]; [congruence|].
  destruct (Hsm k (node_tick n) (node_location n)) as [|[|E2]]; rewrite ?Hk; try done. congruence.
Qed.

Lemma slot_of_mod t : slot_of t = t `mod` 256.
Proof. unfold slot_of. apply (land_ones_mod t 8). lia. Qed.
Lemma slot_of_ok t : location_ok (slot_of t) /\ slot_of t <> DUE_LOCATION.
Proof.
  rewrite slot_of_mod. pose proof (Z.mod_pos_bound t 256 ltac:(lia)).
  unfold location_ok, DUE_LOCATION. lia.
Qed.

(** ** Draining *)

Lemma rep_ext w ls ls' : (forall l, ls l = ls' l) -> wheel_rep w ls -> wheel_rep w ls'.
Proof.
  intros E Hrep. split; try apply Hrep.
  - intros l Hl. rewrite <- E. by apply Hrep.
  - intros l i k Hl. rewrite <- E. by apply Hrep.
  - intros l Hl. rewrite <- E. by apply Hrep.
  - intros k n. rewrite <- E. by apply Hrep.
  - intros slot Hs. rewrite <- E. by apply Hrep.
Qed.

Definition without (m : gmap ParticipantHandle timer) (fired : list ParticipantHandle) :=
  filter (fun kv => kv.1 ∉ fired) m.

Lemma without_lookup m fired x :
  without m fired !! x = if decide (x ∈ fired) then None else m !! x.
Proof.
  unfold without. rewrite map_lookup_filter. destruct (m !! x); simpl; [|by case_decide].
  repeat case_guard; repeat case_decide; done.
Qed.

Lemma without_app m f1 f2 : without (without m f1) f2 = without m (f1 ++ f2).
Proof.
  apply map_eq. intros x. rewrite !without_lookup. repeat case_decide; set_solver.
Qed.

Lemma drain_loop_spec fuel w ls l :
  wheel_rep w ls -> slots_match w -> location_ok l -> (length (ls l) < fuel)%nat ->
  exists w', drain_loop fuel w l = Some (w', ls l) /\ wheel_rep w' (upd ls l []) /\
    same_clock w w' /\ slots_match w' /\ pending w' = without (pending w) (ls l) /\
    dom (nodes w') = dom (nodes w).
Proof.
  revert w ls. induction fuel as [|fuel IH]; intros w ls Hrep Hsm Hl Hf; [lia|]. simpl.
  rewrite (rep_head _ _ Hrep l Hl). destruct (ls l) as [|k rest] eqn:Els; simpl.
  - exists w. split_and!; try done.
    + eapply rep_ext; [|done]. intros l'. unfold upd. by case_decide; subst.
    + apply map_eq. intros x. rewrite without_lookup. by rewrite decide_False by set_solver.
  - assert (ls l !! 0%nat = Some k) as H0 by by rewrite Els.
    destruct (rep_chain _ _ Hrep l 0 k Hl H0) as (n & Hk & Hn & _).
    destruct (unlink_view w ls k n Hrep Hsm Hk) as (w1 & i & -> & Hi & Hrep1 & Hc1 & Hsm1 & Hp1 & Hd1 & _).
    { rewrite Hn. destruct Hl. unfold DISARMED_LOCATION, DUE_LOCATION. lia. }
    rewrite Hn in *. pose proof (NoDup_index _ _ _ _ (rep_nodup _ _ Hrep l Hl) H0 Hi) as <-.
    rewrite Els in Hrep1. simpl in Hrep1. simpl.
    assert (upd ls l rest l = rest) as El by (unfold upd; by rewrite decide_True).
    destruct (IH w1 (upd ls l rest) Hrep1 Hsm1 Hl) as (w2 & Hw2 & Hrep2 & Hc2 & Hsm2 & Hp2 & Hd2).
    { rewrite El. simpl in Hf. lia. }
    rewrite El in *. rewrite Hw2. simpl. exists w2. split_and!; try done.
    + eapply rep_ext; [|done]. intros l'. unfold upd. by case_decide.
    + destruct Hc1 as (? & ? & ?), Hc2 as (? & ? & ?). split_and!; congruence.
    + rewrite Hp2, Hp1. apply map_eq. intros x. rewrite !without_lookup, lookup_delete.
      repeat case_decide; subst; set_solver.
    + congruence.
Qed.

Lemma drain_location_spec w ls l :
  wheel_rep w ls -> slots_match w -> location_ok l ->
  exists w', drain_location w l = Some (w', ls l) /\ wheel_rep w' (upd ls l []) /\
    same_clock w w' /\ slots_match w' /\ pending w' = without (pending w) (ls l).
Proof.
  intros Hrep Hsm Hl. unfold drain_location.
  destruct (drain_loop_spec (S (size (nodes w))) w ls l Hrep Hsm Hl) as (w' & ? & ? & ? & ? & ? & _).
  - pose proof (rep_nodup _ _ Hrep l Hl) as Hnd.
    assert (list_to_set (ls l) ⊆ dom (nodes w)) as Hsub.
    { intros x. rewrite elem_of_list_to_set, elem_of_dom. intros Hx.
      apply list_elem_of_lookup in Hx as [i Hi].
      destruct (rep_chain _ _ Hrep _ _ _ Hl Hi) as (? & ? & _). eauto. }
    apply subseteq_size in Hsub. rewrite size_list_to_set in Hsub by done.
    rewrite size_dom in Hsub. lia.
  - exists w'. done.
Qed.

Definition emptied (ls : lists) (locations : list Z) : lists :=
  fun l => if decide (l ∈ locations) then [] else ls l.

Lemma fmap_upd_other ls l (locations : list Z) :
  l ∉ locations -> (upd ls l []) <$> locations = ls <$> locations.
Proof.
  intros Hni. apply list_fmap_ext. intros i x Hx. unfold upd. rewrite decide_False; [done|].
  intros ->. apply Hni. by eapply list_elem_of_lookup_2.
Qed.

(** A drained state: [fired] gone from the user's view, lists emptied. *)
Record drained (w w' : TimerWheel) (ls : lists) (locations : list Z) : Prop := mk_drained {
  drained_rep : wheel_rep w' (emptied ls locations);
  drained_slots : slots_match w';
  drained_pending : pending w' = without (pending w) (mjoin (ls <$> locations));
  drained_epoch : epoch w' = epoch w;
  drained_now : last_now w' = last_now w;
}.

Lemma drained_cons w w1 w2 ls l locations :
  l ∉ locations -> wheel_rep w1 (upd ls l []) ->
  pending w1 = without (pending w) (ls l) -> epoch w1 = epoch w -> last_now w1 = last_now w ->
  drained w1 w2 (upd ls l []) locations -> drained w w2 ls (l :: locations).
Proof.
  intros Hni Hrep Hp He Hn [Hrep2 Hsm2 Hp2 He2 Hn2]. split; try done; try congruence.
  - eapply rep_ext; [|done]. intros l'. unfold emptied, upd. repeat case_decide; set_solver.
  - rewrite Hp2, Hp, without_app, fmap_upd_other by done. done.
Qed.

Lemma drained_nil w ls : wheel_rep w ls -> slots_match w -> drained w w ls [].
Proof.
  intros Hrep Hsm. split; try done.
  apply map_eq. intros x. rewrite without_lookup. by rewrite decide_False by set_solver.
Qed.

Lemma drain_locations_spec w ls locations :
  wheel_rep w ls -> slots_match w -> Forall location_ok locations -> NoDup locations ->
  exists w', drain_locations w locations = Some (w', mjoin (ls <$> locations)) /\
    drained w w' ls locations /\ current_tick w' = current_tick w.
Proof.
  revert w ls. induction locations as [|l locations IH]; intros w ls Hrep Hsm Hok Hnd; simpl.
  { exists w. split_and!; [done|by apply drained_nil|done]. }
  inv Hok. inv Hnd.
  destruct (drain_location_spec w ls l Hrep Hsm) as (w1 & -> & Hrep1 & (He & Hn & Hc) & Hsm1 & Hp1); [done|].
  simpl. destruct (IH w1 (upd ls l []) Hrep1 Hsm1) as (w2 & -> & Hd & Hc2); [done..|].
  simpl. rewrite fmap_upd_other by done. exists w2. split_and!; [done| |congruence].
  by eapply drained_cons.
Qed.

Lemma with_tick_rep w ls t : wheel_rep w ls -> wheel_rep (with_tick w t) ls.
Proof. intros Hrep. split; apply Hrep. Qed.

Lemma drain_ticks_spec fuel w ls T :
  wheel_rep w ls -> slots_match w -> T - current_tick w <= Z.of_nat fuel <= 256 ->
  0 <= current_tick w <= T -> T <= umax 64 -> T - current_tick w < 256 ->
  let locations := slot_of <$> seqZ (current_tick w + 1) (T - current_tick w) in
  exists w', drain_ticks fuel w T = Some (w', mjoin (ls <$> locations)) /\
    drained w w' ls locations /\ current_tick w' = T.
Proof.
  revert w ls. induction fuel as [|fuel IH]; intros w ls Hrep Hsm Hf Hc HT H256; simpl.
  - assert (current_tick w = T) as E by lia. rewrite (proj2 (Z.ltb_ge _ _)), E, Z.sub_diag by lia.
    exists w. split_and!; [done|by apply drained_nil|done].
  - destruct (Z.ltb_spec (current_tick w) T) as [Hlt|Hge].
    + replace (T - current_tick w) with (Z.succ (T - (current_tick w + 1))) by lia.
      rewrite seqZ_cons, Z.pred_succ by lia. simpl.
      replace (saturating_add 64 (current_tick w) 1) with (current_tick w + 1)
        by (unfold_arith; lia).
      set (l := slot_of (current_tick w + 1)). set (w0 := with_tick w (current_tick w + 1)).
      assert (l ∉ slot_of <$> seqZ (Z.succ (current_tick w + 1)) (T - (current_tick w + 1))) as Hni.
      { intros Hin. apply list_elem_of_fmap in Hin as (t & Ht & Hin). apply elem_of_seqZ in Hin.
        subst l. rewrite !slot_of_mod in Ht. dlia. }
      destruct (drain_location_spec w0 ls l) as (w1 & -> & Hrep1 & (He1 & Hn1 & Hc1) & Hsm1 & Hp1);
        [by apply with_tick_rep|done|apply slot_of_ok|].
      simpl in *. destruct (IH w1 (upd ls l []) Hrep1 Hsm1) as (w2 & Hw2 & Hd & Hc2);
        rewrite ?Hc1; try lia.
      rewrite Hw2. simpl. rewrite Hc1 in *. rewrite fmap_upd_other by done.
      exists w2. split_and!; [done| |done]. by eapply drained_cons.
    + assert (current_tick w = T) as -> by lia. rewrite Z.sub_diag. simpl.
      exists w. split_and!; [done|by apply drained_nil|lia].
Qed.

#[local] Arguments drain_locations : simpl never.
#[local] Arguments drain_ticks : simpl never.

(** ** The invariant of the wheel *)

(** A century of nanoseconds since the wheel was made: no tick saturates. *)
Definition HORIZON : Z := 2 ^ 62.

Record wheel_inv (w : TimerWheel) : Prop := mk_wheel_inv {
  inv_rep : exists ls, wheel_rep w ls;
  inv_slots : slots_match w;
  inv_window : forall k t, pending w !! k = Some (At t) ->
    current_tick w < t <= current_tick w + 255;
  inv_now : epoch w <= last_now w <= epoch w + HORIZON;
  inv_tick : current_tick w = elapsed_ticks w (last_now w);
}.

Lemma elapsed_ticks_eq w now :
  epoch w <= now <= epoch w + HORIZON ->
  elapsed_ticks w now = (now - epoch w) `div` SHARD_TIMER_QUANTUM /\
  0 <= elapsed_ticks w now <= HORIZON.
Proof.
  unfold elapsed_ticks, HORIZON, SHARD_TIMER_QUANTUM, saturating_duration_since, umax.
  intros H. rewrite Z.max_r by lia.
  assert ((now - epoch w) `div` 1000000 <= 2 ^ 62) by (apply Z.div_le_upper_bound; lia).
  assert (0 <= (now - epoch w) `div` 1000000) by (apply Z.div_pos; lia). lia.
Qed.

(** The tick a deadline asks for, when it is in the future. *)
Lemma deadline_tick_future w deadline :
  wheel_inv w -> last_now w < deadline -> current_tick w < deadline_tick w deadline.
Proof.
  intros Hinv Hd. destruct (elapsed_ticks_eq w (last_now w) (inv_now _ Hinv)) as [E Hb].
  rewrite <- (inv_tick _ Hinv) in E, Hb. pose proof (inv_now _ Hinv).
  unfold deadline_tick, div_ceil, SHARD_TIMER_QUANTUM, saturating_duration_since, umax, HORIZON in *.
  rewrite Z.max_r by lia. rewrite E in *. clear E.
  apply Z.min_glb_lt; [|lia]. dlia.
Qed.

(** What [schedule] arms: at once, or at the deadline's tick, at most a turn of
    the wheel away. *)
Definition asked (w : TimerWheel) (deadline : Z) : timer :=
  if deadline <=? last_now w then Due
  else At (Z.min (deadline_tick w deadline) (current_tick w + 255)).

Lemma inv_tick_bound w : wheel_inv w -> 0 <= current_tick w <= HORIZON.
Proof.
  intros Hinv. rewrite (inv_tick _ Hinv). by apply elapsed_ticks_eq, inv_now.
Qed.

Lemma target_spec w deadline :
  wheel_inv w ->
  let '(l, tick) := target w deadline in
  location_ok l /\ (l = DUE_LOCATION \/ l = slot_of tick) /\
  (if l =? DUE_LOCATION then Due else At tick) = asked w deadline /\
  view tick l = Some (asked w deadline).
Proof.
  intros Hinv. pose proof (inv_tick_bound w Hinv) as Hb. unfold target, asked.
  destruct (deadline <=? last_now w); [split_and!; try done; by left|].
  replace (saturating_add 64 (current_tick w) (saturating_sub SLOT_COUNT 1))
    with (current_tick w + 255) by (unfold_arith; unfold HORIZON, SLOT_COUNT in *; lia).
  set (tick := Z.min _ _). destruct (slot_of_ok tick) as [Hl Hne].
  unfold view. rewrite (proj2 (Z.eqb_neq (slot_of tick) DUE_LOCATION)) by done.
  rewrite (proj2 (Z.eqb_neq (slot_of tick) DISARMED_LOCATION)).
  - split_and!; try done. by right.
  - destruct Hl. unfold DISARMED_LOCATION, DUE_LOCATION. lia.
Qed.

(** Only the view of one handle changed, and to something in the window. *)
Lemma inv_after_link w w' ls' k t :
  wheel_inv w -> wheel_rep w' ls' -> slots_match w' -> same_clock w w' ->
  pending w' = <[k := t]> (pending w) ->
  (forall tick, t = At tick -> current_tick w < tick <= current_tick w + 255) -> wheel_inv w'.
Proof.
  intros Hinv Hrep Hsm (He & Hn & Hc) Hp Ht. split; try done.
  - eauto.
  - intros x tick. rewrite Hp, Hc, lookup_insert. case_decide; subst.
    + intros [= E]. by apply Ht.
    + apply (inv_window _ Hinv).
  - rewrite He, Hn. apply Hinv.
  - unfold elapsed_ticks. rewrite He, Hn, Hc. apply Hinv.
Qed.

Lemma inv_after_removal w w' ls' k :
  wheel_inv w -> wheel_rep w' ls' -> slots_match w' -> same_clock w w' ->
  pending w' = delete k (pending w) -> wheel_inv w'.
Proof.
  intros Hinv Hrep Hsm (He & Hn & Hc) Hp. split; try done.
  - eauto.
  - intros x tick. rewrite Hp, Hc, lookup_delete_Some. intros [_ ?]. by eapply (inv_window _ Hinv).
  - rewrite He, Hn. apply Hinv.
  - unfold elapsed_ticks. rewrite He, Hn, Hc. apply Hinv.
Qed.

Lemma asked_window w deadline tick :
  wheel_inv w -> asked w deadline = At tick -> current_tick w < tick <= current_tick w + 255.
Proof.
  intros Hinv. unfold asked. destruct (Z.leb_spec deadline (last_now w)) as [|Hd]; [done|].
  intros [= <-]. pose proof (deadline_tick_future w deadline Hinv Hd). lia.
Qed.

(** A node the wheel does not hold yet. *)
Lemma fresh_node_rep w ls k :
  wheel_rep w ls -> nodes w !! k = None ->
  wheel_rep (with_nodes w (<[k := node_new]> (nodes w))) ls.
Proof.
  intros Hrep Hk. split; try apply Hrep.
  - intros l i x Hl Hi. destruct (rep_chain _ _ Hrep _ _ _ Hl Hi) as (n & Hx & Hn).
    exists n. split; [|done]. simpl. rewrite lookup_insert_ne; [done|]. congruence.
  - intros x n. simpl. rewrite lookup_insert. case_decide; [|by apply Hrep].
    by intros [= <-].
Qed.

Lemma schedule_view w k deadline :
  wheel_inv w -> exists w', schedule w k deadline = Some w' /\ wheel_inv w' /\
    pending w' = <[k := asked w deadline]> (pending w) /\ same_clock w w'.
Proof.
  intros Hinv. destruct (inv_rep _ Hinv) as [ls Hrep]. pose proof (inv_slots _ Hinv) as Hsm.
  pose proof (target_spec w deadline Hinv) as Htg. unfold schedule.
  destruct (target w deadline) as [l tick] eqn:Etg. destruct Htg as (Hl & Hlt & Ha & Hv).
  destruct (nodes w !! k) as [n|] eqn:Hk.
  - destruct (_ && _) eqn:Esame.
    { apply andb_true_iff in Esame as [E1 E2]. apply Z.eqb_eq in E1, E2. exists w.
      split_and!; try done. rewrite insert_id; [done|].
      rewrite pending_lookup, Hk. simpl. by rewrite E1, E2. }
    destruct (is_armed n) eqn:Earm.
    + apply negb_true_iff, Z.eqb_neq in Earm.
      destruct (unlink_view w ls k n Hrep Hsm Hk Earm)
        as (w1 & i & -> & _ & Hrep1 & Hc1 & Hsm1 & Hp1 & _ & Hloc). simpl.
      destruct (nodes w1 !! k) as [n1|] eqn:Hk1; [|done]. simpl in Hloc. inv Hloc.
      destruct (link_view w1 _ k n1 l tick Hrep1 Hsm1 Hk1) as (w2 & -> & Hrep2 & Hc2 & Hsm2 & Hp2);
        [done..|].
      rewrite Hp1, insert_delete_eq, Ha in Hp2.
      assert (same_clock w w2) as Hc.
      { destruct Hc1 as (? & ? & ?), Hc2 as (? & ? & ?). split_and!; congruence. }
      exists w2. split_and!; try done; try apply Hc. eapply inv_after_link; try done.
      intros. by eapply asked_window.
    + apply negb_false_iff, Z.eqb_eq in Earm. simpl.
      destruct (link_view w _ k n l tick Hrep Hsm Hk) as (w2 & -> & Hrep2 & Hc2 & Hsm2 & Hp2); [done..|].
      rewrite Ha in Hp2. exists w2. split_and!; try done; try apply Hc2.
      eapply inv_after_link; try done. intros. by eapply asked_window.
  - set (w0 := with_nodes w _). pose proof (fresh_node_rep w ls k Hrep Hk) as Hrep0.
    assert (slots_match w0) as Hsm0.
    { intros x t l'. unfold w0. simpl. rewrite lookup_insert. case_decide; [|apply Hsm].
      intros _ [= <-]. by left. }
    assert (pending w0 = pending w) as Hp0.
    { apply map_eq. intros x. rewrite !pending_lookup. unfold w0. simpl. rewrite lookup_insert.
      case_decide; [|done]. subst. by rewrite Hk. }
    destruct (link_view w0 ls k node_new l tick) as (w2 & -> & Hrep2 & Hc2 & Hsm2 & Hp2); try done.
    { unfold w0. simpl. apply lookup_insert_eq. }
    rewrite Ha, Hp0 in Hp2. exists w2. split_and!; try done; try apply Hc2.
    eapply inv_after_link; try done. intros. by eapply asked_window.
Qed.

Lemma drop_disarmed_rep w ls k n :
  wheel_rep w ls -> nodes w !! k = Some n -> node_location n = DISARMED_LOCATION ->
  wheel_rep (with_nodes w (delete k (nodes w))) ls.
Proof.
  intros Hrep Hk Hn. split; try apply Hrep.
  - intros l i x Hl Hi. destruct (rep_chain _ _ Hrep _ _ _ Hl Hi) as (m & Hx & Hm).
    exists m. split; [|done]. simpl. rewrite lookup_delete_ne; [done|]. intros ->.
    apply (disarmed_unlisted w ls x n l Hrep Hk Hn Hl). by eapply list_elem_of_lookup_2.
  - intros x m. simpl. rewrite lookup_delete_Some. intros [_ ?]. by apply Hrep.
Qed.

Lemma cancel_view w k :
  wheel_inv w -> exists w', cancel w k = Some w' /\ wheel_inv w' /\
    pending w' = delete k (pending w) /\ nodes w' !! k = None.
Proof.
  intros Hinv. destruct (inv_rep _ Hinv) as [ls Hrep]. pose proof (inv_slots _ Hinv) as Hsm.
  unfold cancel. destruct (nodes w !! k) as [n|] eqn:Hk.
  2:{ exists w. split_and!; try done. rewrite delete_id; [done|]. by rewrite pending_lookup, Hk. }
  assert (exists w1 ls1 n1, (if is_armed n then unlink w k else Some w) = Some w1 /\
    wheel_rep w1 ls1 /\ slots_match w1 /\ same_clock w w1 /\ nodes w1 !! k = Some n1 /\
    node_location n1 = DISARMED_LOCATION /\ delete k (pending w1) = delete k (pending w))
    as (w1 & ls1 & n1 & -> & Hrep1 & Hsm1 & Hc1 & Hk1 & Hn1 & Hp1).
  { destruct (is_armed n) eqn:Earm.
    - apply negb_true_iff, Z.eqb_neq in Earm.
      destruct (unlink_view w ls k n Hrep Hsm Hk Earm)
        as (w1 & i & -> & _ & Hrep1 & Hc1 & Hsm1 & Hp1 & _ & Hloc).
      destruct (nodes w1 !! k) as [n1|] eqn:Hk1; [|done]. simpl in Hloc. inv Hloc.
      eexists w1, _, n1. split_and!; try done; try apply Hc1. by rewrite Hp1, delete_delete_eq.
    - apply negb_false_iff, Z.eqb_eq in Earm. exists w, ls, n. by split_and!. }
  simpl. eexists. split; [done|].
  assert (pending (with_nodes w1 (delete k (nodes w1))) = delete k (pending w)) as Hp.
  { rewrite <- Hp1. apply map_eq. intros x. rewrite pending_lookup. simpl.
    rewrite !lookup_delete. case_decide; [done|]. by rewrite pending_lookup. }
  split_and!; [|done|apply lookup_delete_eq].
  eapply inv_after_removal; [done|by eapply drop_disarmed_rep| |done..].
  intros x t l. simpl. rewrite lookup_delete. case_decide; [done|apply Hsm1].
Qed.

(** ** [drain_expired] *)

(** Each handle is on one list, so it fires at most once. *)
Lemma lists_disjoint w ls l l' x :
  wheel_rep w ls -> location_ok l -> location_ok l' -> x ∈ ls l -> x ∈ ls l' -> l = l'.
Proof.
  intros Hrep Hl Hl' Hx Hx'. apply list_elem_of_lookup in Hx as [i Hi], Hx' as [i' Hi'].
  destruct (rep_chain _ _ Hrep _ _ _ Hl Hi) as (n & Hn & <- & _).
  destruct (rep_chain _ _ Hrep _ _ _ Hl' Hi') as (n' & Hn' & <- & _). congruence.
Qed.

Lemma concat_lists_nodup w ls locations :
  wheel_rep w ls -> Forall location_ok locations -> NoDup locations ->
  NoDup (mjoin (ls <$> locations)).
Proof.
  intros Hrep Hok. induction locations as [|l locations IH]; intros Hnd; simpl; [constructor|].
  inv Hok. inv Hnd. apply NoDup_app. split_and!; [by apply Hrep| |by apply IH].
  intros x Hx Hin. apply list_elem_of_join in Hin as (ys & Hxy & Hys).
  apply list_elem_of_fmap in Hys as (l' & -> & Hl'). rewrite Forall_forall in *.
  assert (l = l') as -> by (eapply lists_disjoint; eauto). done.
Qed.

Lemma elem_concat_lists ls (locations : list Z) x :
  x ∈ mjoin (ls <$> locations) <-> exists l, l ∈ locations /\ x ∈ (ls l : list ParticipantHandle).
Proof.
  rewrite list_elem_of_join. split.
  - intros (ys & Hx & Hys). apply list_elem_of_fmap in Hys as (l & -> & Hl). eauto.
  - intros (l & Hl & Hx). exists (ls l). split; [done|]. apply list_elem_of_fmap. eauto.
Qed.

(** The locations one drain visits. *)
Definition drain_plan (w : TimerWheel) (T : Z) : list Z :=
  DUE_LOCATION :: (if decide (256 <= T - current_tick w) then seqZ 0 256
                   else slot_of <$> seqZ (current_tick w + 1) (T - current_tick w)).

Lemma drain_plan_ok w T : Forall location_ok (drain_plan w T) /\ NoDup (drain_plan w T).
Proof.
  unfold drain_plan. case_decide.
  - split.
    + constructor; [done|]. apply Forall_forall. intros l Hl. apply elem_of_seqZ in Hl.
      unfold location_ok. lia.
    + constructor; [|apply NoDup_seqZ]. intros Hin. apply elem_of_seqZ in Hin.
      unfold DUE_LOCATION in *. lia.
  - split.
    + constructor; [done|]. apply Forall_fmap, Forall_forall. intros t _. apply slot_of_ok.
    + constructor.
      * intros Hin. apply list_elem_of_fmap in Hin as (t & Ht & _). by destruct (slot_of_ok t).
      * apply NoDup_fmap_2_strong; [|apply NoDup_seqZ]. intros x y Hx Hy.
        rewrite !slot_of_mod. apply elem_of_seqZ in Hx, Hy. intros E. dlia.
Qed.

(** Which timers the plan reaches. *)
Lemma drain_plan_reaches w T t :
  current_tick w <= T ->
  (forall tick, t = At tick -> current_tick w < tick <= current_tick w + 255) ->
  (match t with Due => DUE_LOCATION | At tick => slot_of tick end ∈ drain_plan w T <->
   match t with Due => True | At tick => tick <= T end).
Proof.
  intros HT Hw. unfold drain_plan. destruct t as [|tick]; [split; [done|by left]|].
  specialize (Hw tick eq_refl). destruct (slot_of_ok tick) as [Hl Hne].
  rewrite elem_of_cons. case_decide as Hd.
  - rewrite elem_of_seqZ. unfold location_ok, DUE_LOCATION in *. lia.
  - rewrite list_elem_of_fmap. split.
    + intros [E|(t & E & Ht)]; [done|]. apply elem_of_seqZ in Ht. rewrite !slot_of_mod in E. dlia.
    + intros. right. exists tick. split; [done|]. apply elem_of_seqZ. lia.
Qed.

Lemma drain_expired_run w ls now :
  wheel_inv w -> wheel_rep w ls -> last_now w <= now <= epoch w + HORIZON ->
  exists w0 w', drain_expired w now = Some (w', mjoin (ls <$> drain_plan w (elapsed_ticks w now))) /\
    w' = with_now w0 now /\ drained w w0 ls (drain_plan w (elapsed_ticks w now)) /\
    current_tick w0 = elapsed_ticks w now.
Proof.
  intros Hinv Hrep Hnow. pose proof (inv_slots _ Hinv) as Hsm.
  pose proof (inv_now _ Hinv). pose proof (inv_tick_bound w Hinv) as Hcb.
  destruct (elapsed_ticks_eq w now) as [ET HT]; [lia|].
  destruct (elapsed_ticks_eq w (last_now w)) as [EC _]; [lia|].
  rewrite <- (inv_tick _ Hinv) in EC.
  assert (current_tick w <= elapsed_ticks w now) as Hle.
  { rewrite EC, ET. apply Z.div_le_mono; unfold SHARD_TIMER_QUANTUM; lia. }
  destruct (drain_plan_ok w (elapsed_ticks w now)) as [Hok Hnd].
  unfold drain_expired, drain_plan in *. inv Hok. inv Hnd. simpl.
  destruct (drain_location_spec w ls DUE_LOCATION Hrep Hsm) as (w1 & -> & Hrep1 & (He1 & Hn1 & Hc1) & Hsm1 & Hp1);
    [done|]. simpl.
  assert (elapsed_ticks w1 now = elapsed_ticks w now) as -> by (unfold elapsed_ticks; by rewrite He1).
  rewrite Hc1. replace (saturating_sub (elapsed_ticks w now) (current_tick w) >=? SLOT_COUNT)
    with (bool_decide (256 <= elapsed_ticks w now - current_tick w))
    by (case_bool_decide; unfold_arith; unfold SLOT_COUNT; lia).
  case_decide as Hd.
  - rewrite bool_decide_true by done.
    destruct (drain_locations_spec (with_tick w1 (elapsed_ticks w now)) (upd ls DUE_LOCATION [])
      (seqZ 0 256)) as (w2 & -> & Hdr & Hc2); [by apply with_tick_rep|done..|].
    cbn [mbind option_bind]. rewrite fmap_upd_other by done.
    exists w2. eexists. split_and!; [done|done| |done].
    eapply drained_cons; [done|by apply with_tick_rep|done..].
  - rewrite bool_decide_false by done.
    destruct (drain_ticks_spec 256 w1 (upd ls DUE_LOCATION []) (elapsed_ticks w now) Hrep1 Hsm1)
      as (w2 & Hw2 & Hdr & Hc2); rewrite ?Hc1; unfold umax, HORIZON in *; try lia.
    rewrite Hc1 in *. rewrite Hw2. cbn [mbind option_bind]. rewrite fmap_upd_other by done.
    exists w2. eexists. split_and!; [done|done| |done]. by eapply drained_cons.
Qed.

Lemma drain_expired_view w now :
  wheel_inv w -> last_now w <= now <= epoch w + HORIZON ->
  exists w' fired, drain_expired w now = Some (w', fired) /\ wheel_inv w' /\
    last_now w' = now /\ NoDup fired /\
    (forall k, k ∈ fired <-> exists t, pending w !! k = Some t /\
       match t with Due => True | At tick => tick <= elapsed_ticks w now end) /\
    pending w' = without (pending w) fired.
Proof.
  intros Hinv Hnow. destruct (inv_rep _ Hinv) as [ls Hrep]. pose proof (inv_slots _ Hinv) as Hsm.
  pose proof (inv_now _ Hinv). destruct (elapsed_ticks_eq w now) as [ET HT]; [lia|].
  destruct (elapsed_ticks_eq w (last_now w)) as [EC _]; [lia|]. rewrite <- (inv_tick _ Hinv) in EC.
  assert (current_tick w <= elapsed_ticks w now) as Hle.
  { rewrite EC, ET. apply Z.div_le_mono; unfold SHARD_TIMER_QUANTUM; lia. }
  destruct (drain_expired_run w ls now Hinv Hrep Hnow) as (w0 & w' & Hrun & -> & Hd & Hc).
  set (T := elapsed_ticks w now) in *. destruct (drain_plan_ok w T) as [Hok Hnd].
  assert (forall k, k ∈ mjoin (ls <$> drain_plan w T) <-> exists t, pending w !! k = Some t /\
    match t with Due => True | At tick => tick <= T end) as Hfired.
  { intros k. rewrite elem_concat_lists. split.
    - intros (l & Hl & Hk). destruct (listed_view w ls k l Hrep Hsm) as (t & Ht & El); [|done|].
      { by eapply Forall_forall in Hok. }
      exists t. split; [done|]. apply (drain_plan_reaches w T t Hle).
      + intros tick ->. by eapply (inv_window _ Hinv).
      + destruct t; [by subst|]. by destruct El as [-> _].
    - intros (t & Ht & Hdue). eexists. split; [|by apply (view_listed w ls k t)].
      apply drain_plan_reaches; [done| |done]. intros tick ->. by eapply (inv_window _ Hinv). }
  eexists _, _. split; [done|]. split_and!; [|done|by eapply concat_lists_nodup|done|apply Hd].
  split.
  - exists (emptied ls (drain_plan w T)). destruct (drained_rep _ _ _ _ Hd). by split.
  - apply Hd.
  - intros k tick. change (pending (with_now w0 now)) with (pending w0). simpl.
    rewrite (drained_pending _ _ _ _ Hd), without_lookup, Hc. case_decide as Hin; [done|].
    intros Hk. pose proof (inv_window _ Hinv _ _ Hk). rewrite Hfired in Hin.
    destruct (decide (tick <= T)); [|lia]. destruct Hin. eauto.
  - simpl. rewrite (drained_epoch _ _ _ _ Hd). lia.
  - simpl. unfold elapsed_ticks. simpl. rewrite (drained_epoch _ _ _ _ Hd). exact Hc.
Qed.

(** ** [next_deadline] *)

Lemma due_head_view w ls :
  wheel_rep w ls -> slots_match w ->
  (due_head w = None <-> forall k, pending w !! k <> Some Due).
Proof.
  intros Hrep Hsm. pose proof (rep_head _ _ Hrep DUE_LOCATION ltac:(done)) as Hh.
  unfold head_at in Hh. rewrite Z.eqb_refl in Hh. rewrite Hh. split.
  - intros Hn k Hk. pose proof (view_listed w ls k Due Hrep Hsm Hk) as Hin.
    destruct (ls DUE_LOCATION); [set_solver|done].
  - intros Hno. destruct (ls DUE_LOCATION) as [|k l] eqn:E; [done|]. exfalso.
    destruct (listed_view w ls k DUE_LOCATION Hrep Hsm) as (t & Ht & El); [done|rewrite E; left|].
    destruct t as [|tick]; [by apply (Hno k)|]. by destruct El.
Qed.

(** The slots after the current one, in order, are the ticks of the window. *)
Lemma window_slot w j :
  wheel_inv w -> (j < 256)%nat ->
  Z.of_nat ((Z.to_nat (slot_of (saturating_add 64 (current_tick w) 1)) + j) mod 256) =
  slot_of (current_tick w + 1 + Z.of_nat j).
Proof.
  intros Hinv Hj. pose proof (inv_tick_bound w Hinv).
  replace (saturating_add 64 (current_tick w) 1) with (current_tick w + 1)
    by (unfold_arith; unfold HORIZON in *; lia).
  rewrite !slot_of_mod, Nat2Z.inj_mod, Nat2Z.inj_add, Z2Nat.id by (apply Z.mod_pos_bound; lia).
  change (Z.of_nat 256) with 256. by rewrite Zplus_mod_idemp_l.
Qed.

Lemma window_occupied w ls j :
  wheel_inv w -> wheel_rep w ls -> (j < 256)%nat ->
  (occ_bit w ((Z.to_nat (slot_of (saturating_add 64 (current_tick w) 1)) + j) mod 256) = true <->
   exists k, pending w !! k = Some (At (current_tick w + 1 + Z.of_nat j))).
Proof.
  intros Hinv Hrep Hj. pose proof (inv_slots _ Hinv) as Hsm.
  rewrite (rep_occ _ _ Hrep), window_slot, bool_decide_eq_true by
    (done || apply Nat.mod_upper_bound; lia).
  set (tick := current_tick w + 1 + Z.of_nat j). split.
  - intros Hne. destruct (ls (slot_of tick)) as [|k l] eqn:E; [done|]. exists k.
    destruct (slot_of_ok tick) as [Hok Hnd].
    destruct (listed_view w ls k (slot_of tick) Hrep Hsm Hok) as (t & Ht & El); [rewrite E; left|].
    destruct t as [|tick']; [done|]. destruct El as [El _]. rewrite Ht. do 2 f_equal.
    pose proof (inv_window _ Hinv _ _ Ht). rewrite !slot_of_mod in El. subst tick. dlia.
  - intros (k & Hk) E. pose proof (view_listed w ls k _ Hrep Hsm Hk) as Hin. simpl in Hin.
    rewrite E in Hin. by apply elem_of_nil in Hin.
Qed.

Lemma slot_nat_lt t : (Z.to_nat (slot_of t) < 256)%nat.
Proof. rewrite slot_of_mod. pose proof (Z.mod_pos_bound t 256 ltac:(lia)). lia. Qed.

Lemma next_deadline_view w :
  wheel_inv w -> epoch w + 2 * HORIZON <= INSTANT_MAX ->
  match next_deadline w with
  | None => pending w = ∅
  | Some d =>
      (d = last_now w /\ exists k, pending w !! k = Some Due) \/
      (exists k tick, pending w !! k = Some (At tick) /\
         d = epoch w + tick * SHARD_TIMER_QUANTUM /\
         forall k' t', pending w !! k' = Some t' -> exists tick', t' = At tick' /\ tick <= tick')
  end.
Proof.
  intros Hinv Hmax. destruct (inv_rep _ Hinv) as [ls Hrep]. pose proof (inv_slots _ Hinv) as Hsm.
  pose proof (due_head_view w ls Hrep Hsm) as Hdue. unfold next_deadline.
  destruct (due_head w) as [h|] eqn:Eh.
  { left. split; [done|]. destruct (decide (map_Forall (fun _ t => t <> Due) (pending w))) as [Hf|Hf].
    - exfalso. enough (Some h = None) by done. apply Hdue. intros k Hk. by apply Hf in Hk.
    - apply map_not_Forall in Hf as (k & t & Hk & Ht); [|apply _]. exists k.
      destruct t; [done|]. by destruct Ht. }
  assert (forall k, pending w !! k <> Some Due) as Hno by by apply Hdue.
  pose proof (next_occupied_spec w _ (rep_bitmap _ _ Hrep)
    (slot_nat_lt (saturating_add 64 (current_tick w) 1))) as Hocc.
  destruct (next_occupied_from w _) as [d|] eqn:E; simpl.
  - right. destruct Hocc as (j & -> & Hj & Hbit & Hmin).
    apply (window_occupied w ls) in Hbit as (k & Hk); [|done..].
    exists k, (current_tick w + 1 + Z.of_nat j). split; [done|].
    pose proof (inv_tick_bound w Hinv) as Hb. pose proof (inv_now _ Hinv).
    destruct (elapsed_ticks_eq w (last_now w)) as [EC _]; [lia|]. rewrite <- (inv_tick _ Hinv) in EC.
    assert (current_tick w * SHARD_TIMER_QUANTUM <= HORIZON) as Hcq.
    { rewrite EC. unfold SHARD_TIMER_QUANTUM in *.
      pose proof (Z.mul_div_le (last_now w - epoch w) 1000000 ltac:(lia)). lia. }
    split.
    + unfold duration_for_ticks, instant_checked_add, SHARD_TIMER_QUANTUM in *.
      unfold HORIZON in *.
      replace (saturating_add 64 (saturating_add 64 (current_tick w) 1) (Z.of_nat j))
        with (current_tick w + 1 + Z.of_nat j) by (unfold_arith; lia).
      replace (saturating_mul 64 (current_tick w + 1 + Z.of_nat j) 1000000)
        with ((current_tick w + 1 + Z.of_nat j) * 1000000) by (unfold_arith; lia).
      rewrite (proj2 (Z.leb_le _ _)) by lia. done.
    + intros k' t' Hk'. destruct t' as [|tick']; [by apply Hno in Hk'|]. exists tick'.
      split; [done|]. pose proof (inv_window _ Hinv _ _ Hk').
      destruct (decide (current_tick w + 1 + Z.of_nat j <= tick')); [done|]. exfalso.
      specialize (Hmin (Z.to_nat (tick' - current_tick w - 1)) ltac:(lia)).
      apply not_true_iff_false in Hmin. apply Hmin. apply (window_occupied w ls); [done..|lia|].
      exists k'. rewrite Hk'. do 2 f_equal. lia.
  - apply map_empty. intros k. destruct (pending w !! k) as [[|tick]|] eqn:Ek; [|exfalso|done].
    { by apply Hno in Ek. }
    pose proof (inv_window _ Hinv _ _ Ek).
    specialize (Hocc (Z.to_nat (tick - current_tick w - 1)) ltac:(lia)).
    apply not_true_iff_false in Hocc. apply Hocc. apply (window_occupied w ls); [done..|lia|].
    exists k. rewrite Ek. do 2 f_equal. lia.
Qed.

(** ** Theorems *)

(** The wheel refines a map of timers. Scheduling never aborts and has the
    effect of writing the handle's entry of the map, cancelling that of
    deleting it, whatever was armed before, and both keep the invariant of the
    intrusive lists and of the bitmap. *)
Theorem wheel_refines_timer_map w k deadline :
  wheel_inv w ->
  (exists w', schedule w k deadline = Some w' /\ wheel_inv w' /\
     pending w' = <[k := asked w deadline]> (pending w)) /\
  (exists w', cancel w k = Some w' /\ wheel_inv w' /\ pending w' = delete k (pending w)).
Proof.
  intros Hinv. destruct (schedule_view w k deadline Hinv) as (w1 & H1 & H2 & H3 & _).
  destruct (cancel_view w k Hinv) as (w2 & H4 & H5 & H6 & _). eauto 10.
Qed.

(** C8. Draining fires exactly what is due: every turn of the loop terminates,
    no assertion of the lists fails, each handle fires at most once, and the
    handles fired are those already due or whose tick has come, which is what
    disappears from the map. *)
Theorem drain_expired_exact w now :
  wheel_inv w -> last_now w <= now <= epoch w + HORIZON ->
  exists w' fired, drain_expired w now = Some (w', fired) /\ wheel_inv w' /\ NoDup fired /\
    (forall k, k ∈ fired <-> exists t, pending w !! k = Some t /\
       match t with Due => True | At tick => tick <= elapsed_ticks w now end) /\
    pending w' = without (pending w) fired.
Proof.
  intros Hinv Hnow. destruct (drain_expired_view w now Hinv Hnow) as (w' & f & ? & ? & _ & ? & ? & ?).
  exists w', f. done.
Qed.

(** The next deadline is the earliest armed timer, found through the
    bitmap: there is none exactly when nothing is armed, and draining at the
    reported instant fires at least one timer, so the shard never spins. *)
Theorem next_deadline_earliest w :
  wheel_inv w -> epoch w + 2 * HORIZON <= INSTANT_MAX ->
  match next_deadline w with
  | None => pending w = ∅
  | Some d => d <= epoch w + HORIZON ->
      last_now w <= d /\
      exists w' k fired, drain_expired w d = Some (w', k :: fired) /\
        forall k' tick, pending w !! k' = Some (At tick) -> d <= epoch w + tick * SHARD_TIMER_QUANTUM
  end.
Proof.
  intros Hinv Hmax. pose proof (next_deadline_view w Hinv Hmax) as Hv.
  destruct (next_deadline w) as [d|]; [|done]. intros Hd.
  pose proof (inv_now _ Hinv) as Hnow.
  destruct (elapsed_ticks_eq w (last_now w)) as [EC _]; [lia|]. rewrite <- (inv_tick _ Hinv) in EC.
  assert (forall tick, current_tick w < tick -> last_now w <= epoch w + tick * SHARD_TIMER_QUANTUM) as Hfut.
  { unfold SHARD_TIMER_QUANTUM in *. intros tick. rewrite EC. intros. dlia. }
  assert (last_now w <= d) as Hle.
  { destruct Hv as [[-> _]|(k & tick & Hk & -> & _)]; [lia|]. apply Hfut.
    by eapply (inv_window _ Hinv). }
  split; [done|].
  destruct (drain_expired_view w d Hinv) as (w' & fired & Hrun & _ & _ & _ & Hf & _); [lia|].
  assert (exists k, k ∈ fired) as [k Hk].
  { destruct Hv as [[-> [k Hk]]|(k & tick & Hk & Ed & _)]; exists k; apply Hf; eexists; split; try done.
    destruct (elapsed_ticks_eq w d) as [-> _]; [lia|]. rewrite Ed.
    replace (epoch w + tick * SHARD_TIMER_QUANTUM - epoch w) with (tick * SHARD_TIMER_QUANTUM) by lia.
    by rewrite Z.div_mul. }
  destruct fired as [|k0 rest]; [by apply elem_of_nil in Hk|].
  exists w', k0, rest. split; [done|]. intros k' tick Hk'.
  destruct Hv as [[-> _]|(_ & t0 & _ & -> & Hmin)].
  - apply Hfut. by eapply (inv_window _ Hinv).
  - destruct (Hmin _ _ Hk') as (t' & [= <-] & Ht). unfold SHARD_TIMER_QUANTUM. lia.
Qed.

(** A timer fires on time: armed for a deadline within a turn of the
    wheel, it does not fire in a drain before the deadline, and fires in any
    drain that comes one quantum after it. *)
Theorem timer_fires_on_time w k deadline now w1 :
  wheel_inv w -> schedule w k deadline = Some w1 -> last_now w <= now <= epoch w + HORIZON ->
  deadline <= last_now w \/ deadline_tick w deadline <= current_tick w + 255 ->
  exists w' fired, drain_expired w1 now = Some (w', fired) /\
    (k ∈ fired -> deadline <= now) /\
    (deadline + SHARD_TIMER_QUANTUM <= now -> k ∈ fired).
Proof.
  intros Hinv Hs Hnow Hdl. destruct (schedule_view w k deadline Hinv) as (w1' & Hs' & Hinv1 & Hp & Hc).
  simplify_eq. destruct Hc as (He & Hn & Hct).
  destruct (drain_expired_view w1 now Hinv1) as (w' & fired & Hrun & _ & _ & _ & Hf & _); [lia|].
  exists w', fired. split; [done|]. rewrite (Hf k), Hp, lookup_insert_eq.
  destruct (elapsed_ticks_eq w1 now) as [-> _]; [pose proof (inv_now _ Hinv1); lia|].
  rewrite He. pose proof (inv_now _ Hinv). unfold asked.
  destruct (Z.leb_spec deadline (last_now w)) as [Hd|Hd].
  - split; [intros _; lia|]. intros _. by exists Due.
  - destruct Hdl as [|Hdl]; [lia|]. rewrite Z.min_l by done.
    assert (deadline_tick w deadline = div_ceil (deadline - epoch w) SHARD_TIMER_QUANTUM) as ->.
    { pose proof (inv_tick_bound w Hinv). unfold deadline_tick in *.
      unfold saturating_duration_since in *. rewrite Z.max_r in * by lia. unfold umax, HORIZON in *.
      lia. }
    unfold div_ceil, SHARD_TIMER_QUANTUM. split.
    + intros (t & [= <-] & Ht). dlia.
    + intros. eexists. split; [done|]. simpl. dlia.
Qed.
End TimerRefine.

(** ** Witnesses: a fresh wheel with timers on it *)

Lemma wheel_new_inv (now : Z) :
  wheel_inv (ParticipantHandle := Z) (wheel_new now).
Proof.
  split.
  - exists (fun _ => []). split; try done.
    + intros l Hl. unfold head_at, wheel_new. cbn [heads due_head]. case_match; [done|].
      unfold location_ok, DUE_LOCATION in *. by rewrite (lookup_replicate_2 256) by lia.
    + intros l _. constructor.
    + split; [done|]. repeat constructor; done.
    + intros slot Hs. unfold occ_bit, wheel_new. cbn [occupied].
      rewrite bool_decide_false by (intros H; by apply H).
      destruct (slot / 64)%nat as [|[|[|[|?]]]]; simpl; apply Z.bits_0.
  - intros x t l. unfold wheel_new. cbn [nodes]. by rewrite lookup_empty.
  - intros k t. rewrite pending_lookup. unfold wheel_new. cbn [nodes]. by rewrite lookup_empty.
  - simpl. unfold HORIZON. lia.
  - unfold elapsed_ticks, saturating_duration_since. simpl. by rewrite Z.sub_diag.
Qed.

Definition demo_wheel : TimerWheel (ParticipantHandle := Z) :=
  default (wheel_new 0) (w ← schedule (wheel_new 0) 1 5000000; schedule w 2 3000000).

Lemma demo_wheel_inv : wheel_inv demo_wheel.
Proof.
  destruct (schedule_view _ 1 5000000 (wheel_new_inv 0)) as (w1 & E1 & Hinv1 & _).
  destruct (schedule_view w1 2 3000000 Hinv1) as (w2 & E2 & Hinv2 & _).
  unfold demo_wheel. rewrite E1. simpl. by rewrite E2.
Qed.

Lemma wheel_refines_timer_map_witness :
  exists w', schedule demo_wheel 1 7000000 = Some w' /\ pending w' !! 1 = Some (At 7).
Proof.
  destruct (wheel_refines_timer_map demo_wheel 1 7000000 demo_wheel_inv)
    as [(w' & Hw & _ & Hp) _].
  exists w'. split; [done|]. rewrite Hp, lookup_insert_eq. by vm_compute.
Defined.

Lemma drain_expired_exact_witness :
  exists w' fired, drain_expired demo_wheel 4000000 = Some (w', fired) /\ 2 ∈ fired /\ 1 ∉ fired.
Proof.
  destruct (drain_expired_exact demo_wheel 4000000 demo_wheel_inv) as (w' & f & Hf & _ & _ & Hk & _).
  - split; vm_compute; discriminate.
  - exists w', f. split_and!; [done|apply Hk; exists (At 3); split; by vm_compute|].
    assert (pending demo_wheel !! 1 = Some (At 5)) as E by (vm_compute; reflexivity).
    rewrite Hk, E. intros (t & [= <-] & Hle). vm_compute in Hle. by apply Hle.
Defined.

Lemma next_deadline_earliest_witness :
  exists w' k fired, drain_expired demo_wheel 3000000 = Some (w', k :: fired).
Proof.
  pose proof (next_deadline_earliest demo_wheel demo_wheel_inv) as H.
  assert (next_deadline demo_wheel = Some 3000000) as E by by vm_compute.
  rewrite E in H. destruct H as (_ & w' & k & f & Hd & _); [by vm_compute|by vm_compute|eauto].
Defined.

Lemma timer_fires_on_time_witness :
  exists w1 w' fired, schedule demo_wheel 3 2500000 = Some w1 /\
    drain_expired w1 3600000 = Some (w', fired) /\ 3 ∈ fired.
Proof.
  destruct (schedule demo_wheel 3 2500000) as [w1|] eqn:E; [|by vm_compute in E].
  destruct (timer_fires_on_time demo_wheel 3 2500000 3600000 w1 demo_wheel_inv E)
    as (w' & f & Hf & _ & Hin).
  - split; vm_compute; discriminate.
  - right. vm_compute. discriminate.
  - exists w1, w', f. split_and!; [done..|]. apply Hin. unfold SHARD_TIMER_QUANTUM. lia.
Defined.
