(* ===== verification/ShardUpdate.v ===== *)
(** * Shard updates: from the control plane to a shard

    [shard_update.rs]: the plans and lifecycle operations the control plane
    stages, and the writer that publishes them over a bounded mailbox, keeping
    what does not fit in a backlog. [UpdateApply] is the receiving side.

    The mailbox is a third-party channel: a class states the part of its
    documented behaviour both sides rely on. What an update does to the shard
    (effects on participants, plans, lifecycle operations) is an interface too,
    so that the theorems hold whatever the shard's execution does with them.
    [None] is [fatal!]. *)

From S2P Require Import Prelude.
From S2P Require Import Route.

(** ** The mailbox interface *)

Inductive send_result := Sent | SendFull | SendClosed.

Class Mailbox (Q T : Type) := {
  contents : Q -> list T;
  try_send : Q -> T -> Q * send_result;
  try_recv : Q -> Q * option T;
}.

(** First in, first out; a refused value is handed back and changes nothing. *)
Class MailboxLaws (Q T : Type) `{!Mailbox Q T} : Prop := {
  try_send_contents : forall q v,
    contents (try_send q v).1 =
      match (try_send q v).2 with Sent => contents q ++ [v] | _ => contents q end;
  try_recv_contents : forall q,
    match (try_recv q).2 with
    | Some v => contents q = v :: contents (try_recv q).1
    | None => contents q = [] /\ contents (try_recv q).1 = []
    end;
}.

Section ShardUpdate.
Context {ParticipantId TrackId TrackKind SourceEncoding ParticipantEffect Ack : Type}.
Context `{!EqDecision ParticipantId, !Countable ParticipantId}.

(** ** Track plans *)

Record TrackPlan := mkPlan {
  local : list ParticipantId;
  remote : list NodeRouteAddress;
  reverse_route : option NodeRouteAddress;
}.

(** First occurrences; the set of values seen is the result so far. *)
Definition unique {K} `{!EqDecision K} (values : list K) : list K :=
  foldl (fun result v => if decide (v ∈ result) then result else result ++ [v]) [] values.

Definition plan_new (l : list ParticipantId) (r : list NodeRouteAddress)
    (rev : option NodeRouteAddress) : TrackPlan := mkPlan (unique l) (unique r) rev.

(** [values.iter().copied().all(|value| seen.insert(value))] *)
Fixpoint all_new {K} `{!EqDecision K} (seen values : list K) : bool :=
  match values with
  | [] => true
  | v :: vs => if decide (v ∈ seen) then false else all_new (v :: seen) vs
  end.

Definition is_valid (p : TrackPlan) : bool :=
  all_new [] (local p) && all_new [] (address_shard <$> remote p).

Record TrackPlanUpdate := mkPlanUpdate { plan_track : TrackId; plan : option TrackPlan }.

(** ** Updates *)

Inductive TrackRouteAction := Forward (track_id : TrackId) | Reverse (track_id : TrackId).

Record TrackDescriptor := mkDescriptor {
  origin : ParticipantId;
  kind : TrackKind;
  encodings : list SourceEncoding;
}.

Record TrackRuntime := mkTrackRuntime {
  descriptor : option TrackDescriptor;
  publisher : option ParticipantId;
  publisher_effect : option ParticipantEffect;
}.

Inductive ShardUpdateOp :=
| InstallRoute (address : NodeRouteAddress) (action : TrackRouteAction)
| RetireRoute (address : NodeRouteAddress)
| RetireTransport (address : NodeTransportAddress)
| RemoveParticipant (participant : ParticipantId) (address : NodeTransportAddress)
| InsertTrackRuntime (track_id : TrackId) (runtime : TrackRuntime)
| RemoveTrackRuntime (track_id : TrackId)
| Placeholder.

Record ShardUpdate := mkUpdate {
  shard : ShardId;
  generation : Z;
  participant_effects : list (ParticipantId * ParticipantEffect);
  lifecycle : list ShardUpdateOp;
  plans : list TrackPlanUpdate;
  cutoff_ack : option Ack;
}.

Definition update_new (s : ShardId) (g : Z) : ShardUpdate := mkUpdate s g [] [] [] None.

Definition update_is_empty (u : ShardUpdate) : bool :=
  match participant_effects u, lifecycle u, plans u, cutoff_ack u with
  | [], [], [], None => true
  | _, _, _, _ => false
  end.

Definition is_owned_by (op : ShardUpdateOp) (s : ShardId) : bool :=
  match op with
  | InstallRoute address _ | RetireRoute address => address_shard address =? s
  | RetireTransport address | RemoveParticipant _ address => transport_shard address =? s
  | InsertTrackRuntime _ _ | RemoveTrackRuntime _ | Placeholder => true
  end.

Definition validate_for (u : ShardUpdate) (s : ShardId) (current_revision : Z) : bool :=
  (shard u =? s) && (current_revision <? generation u) &&
  forallb (fun op => is_owned_by op s) (lifecycle u).

(** ** The writer *)

Section Writer.
Context {Q : Type} `{!Mailbox Q ShardUpdate}.

Record ShardUpdateWriter := mkWriter {
  w_shard : ShardId;
  tx : Q;
  staged : option ShardUpdate;
  backlog : list ShardUpdate;
  closed : bool;
}.

Definition writer_new (s : ShardId) (q : Q) : ShardUpdateWriter := mkWriter s q None [] false.

Definition with_staged (w : ShardUpdateWriter) (u : option ShardUpdate) : ShardUpdateWriter :=
  mkWriter (w_shard w) (tx w) u (backlog w) (closed w).

(** [self.staged.get_or_insert_with(..)] *)
Definition staged_or_new (w : ShardUpdateWriter) (g : Z) : ShardUpdate :=
  default (update_new (w_shard w) g) (staged w).

Definition stage_cutoff (w : ShardUpdateWriter) (g : Z) (ack : Ack) : option ShardUpdateWriter :=
  let c := staged_or_new w g in
  if negb (generation c =? g) || bool_decide (is_Some (cutoff_ack c)) then None
  else Some (with_staged w (Some (mkUpdate (shard c) (generation c) (participant_effects c)
                                    (lifecycle c) (plans c) (Some ack)))).

Definition stage (w : ShardUpdateWriter) (g : Z) (op : ShardUpdateOp) : option ShardUpdateWriter :=
  let c := staged_or_new w g in
  if negb (generation c =? g) then None
  else Some (with_staged w (Some (mkUpdate (shard c) (generation c) (participant_effects c)
                                    (lifecycle c ++ [op]) (plans c) (cutoff_ack c)))).

Definition stage_participant_effect (w : ShardUpdateWriter) (g : Z) (p : ParticipantId)
    (e : ParticipantEffect) : option ShardUpdateWriter :=
  let c := staged_or_new w g in
  if negb (generation c =? g) then None
  else Some (with_staged w (Some (mkUpdate (shard c) (generation c)
                                    (participant_effects c ++ [(p, e)])
                                    (lifecycle c) (plans c) (cutoff_ack c)))).

Definition stage_plans (w : ShardUpdateWriter) (g : Z) (ps : list TrackPlanUpdate)
    : option ShardUpdateWriter :=
  match ps with
  | [] => Some w
  | _ =>
      let c := staged_or_new w g in
      if negb (generation c =? g) then None
      else Some (with_staged w (Some (mkUpdate (shard c) (generation c) (participant_effects c)
                                        (lifecycle c) (plans c ++ ps) (cutoff_ack c))))
  end.

(** The loop of [flush_backlog], over the backlog it pops from. *)
Fixpoint flush_loop (q : Q) (bl : list ShardUpdate) : Q * list ShardUpdate * bool * bool :=
  match bl with
  | [] => (q, [], false, true)
  | c :: bl' =>
      match try_send q c with
      | (q', Sent) => flush_loop q' bl'
      | (q', SendFull) => (q', c :: bl', false, false)
      | (q', SendClosed) => (q', c :: bl', true, false)
      end
  end.

Definition flush_backlog (w : ShardUpdateWriter) : ShardUpdateWriter * bool :=
  if closed w then (w, false)
  else
    let '(q, bl, now_closed, flushed) := flush_loop (tx w) (backlog w) in
    (mkWriter (w_shard w) q (staged w) bl now_closed, flushed).

Definition push_back (w : ShardUpdateWriter) (u : ShardUpdate) : ShardUpdateWriter :=
  mkWriter (w_shard w) (tx w) (staged w) (backlog w ++ [u]) (closed w).

Definition publish (w : ShardUpdateWriter) : ShardUpdateWriter * option Z :=
  match staged w with
  | None => (w, None)
  | Some commit =>
      let w := with_staged w None in
      if update_is_empty commit then (w, None)
      else if closed w then (push_back w commit, None)
      else
        let '(w, flushed) := flush_backlog w in
        if negb flushed then (push_back w commit, None)
        else
          match try_send (tx w) commit with
          | (q, Sent) => (mkWriter (w_shard w) q (staged w) (backlog w) (closed w),
                          Some (generation commit))
          | (q, SendFull) =>
              (mkWriter (w_shard w) q (staged w) (backlog w ++ [commit]) (closed w),
               Some (generation commit))
          | (q, SendClosed) =>
              (mkWriter (w_shard w) q (staged w) (backlog w ++ [commit]) true, None)
          end
  end.

Definition flush_one (w : ShardUpdateWriter) : ShardUpdateWriter * bool :=
  if closed w then (w, false)
  else
    match backlog w with
    | [] => (w, true)
    | commit :: rest =>
        match try_send (tx w) commit with
        | (q, Sent) => (mkWriter (w_shard w) q (staged w) rest false, true)
        | (q, SendFull) => (mkWriter (w_shard w) q (staged w) (commit :: rest) false, false)
        | (q, SendClosed) => (mkWriter (w_shard w) q (staged w) (commit :: rest) true, false)
        end
    end.

Definition has_backlog (w : ShardUpdateWriter) : bool :=
  match backlog w with [] => false | _ => true end.

(** ** The channel as a transition system

    The writer, the shard's receiving end of the same mailbox, and two logs:
    what was published and what was received. *)

Record channel := mkChannel {
  ch_writer : ShardUpdateWriter;
  ch_published : list ShardUpdate;
  ch_received : list ShardUpdate;
}.

(** What [publish] takes out of the staging slot and accepts. *)
Definition accepted (w : ShardUpdateWriter) : list ShardUpdate :=
  match staged w with
  | Some u => if update_is_empty u then [] else [u]
  | None => []
  end.

Inductive ch_step : channel -> channel -> Prop :=
| ch_stage w w' p r g op : stage w g op = Some w' -> ch_step (mkChannel w p r) (mkChannel w' p r)
| ch_stage_cutoff w w' p r g ack :
    stage_cutoff w g ack = Some w' -> ch_step (mkChannel w p r) (mkChannel w' p r)
| ch_stage_effect w w' p r g q e :
    stage_participant_effect w g q e = Some w' -> ch_step (mkChannel w p r) (mkChannel w' p r)
| ch_stage_plans w w' p r g ps :
    stage_plans w g ps = Some w' -> ch_step (mkChannel w p r) (mkChannel w' p r)
| ch_publish w w' g p r :
    publish w = (w', g) -> ch_step (mkChannel w p r) (mkChannel w' (p ++ accepted w) r)
| ch_flush w w' b p r :
    flush_one w = (w', b) -> ch_step (mkChannel w p r) (mkChannel w' p r)
| ch_recv w q u p r :
    try_recv (tx w) = (q, Some u) ->
    ch_step (mkChannel w p r)
      (mkChannel (mkWriter (w_shard w) q (staged w) (backlog w) (closed w)) p (r ++ [u])).

Inductive ch_reach (c : channel) : channel -> Prop :=
| reach_refl : ch_reach c c
| reach_step c1 c2 : ch_reach c c1 -> ch_step c1 c2 -> ch_reach c c2.

Record ch_wf (s : ShardId) (c : channel) : Prop := mk_ch_wf {
  ch_order : ch_published c = ch_received c ++ contents (tx (ch_writer c)) ++ backlog (ch_writer c);
  ch_shard : w_shard (ch_writer c) = s;
  ch_staged : forall u, staged (ch_writer c) = Some u -> shard u = s;
  ch_targets : Forall (fun u => shard u = s /\ update_is_empty u = false) (ch_published c);
}.

Section Laws.
Context `{!MailboxLaws Q ShardUpdate}.

Lemma send_spec q v q' r :
  try_send q v = (q', r) ->
  contents q' = match r with Sent => contents q ++ [v] | _ => contents q end.
Proof. intros E. pose proof (try_send_contents q v) as H. by rewrite E in H. Qed.

Lemma flush_loop_spec q bl q' bl' cl fl :
  flush_loop q bl = (q', bl', cl, fl) ->
  contents q' ++ bl' = contents q ++ bl /\ (fl = true -> bl' = []).
Proof.
  revert q. induction bl as [|c bl IH]; simpl; intros q.
  - intros [= <- <- _ <-]. done.
  - destruct (try_send q c) as [q1 r] eqn:E. apply send_spec in E. destruct r.
    + intros H. apply IH in H as [-> ?]. rewrite E, <- app_assoc. done.
    + intros [= <- <- _ <-]. by rewrite E.
    + intros [= <- <- _ <-]. by rewrite E.
Qed.

Lemma publish_spec w w' g :
  publish w = (w', g) ->
  contents (tx w') ++ backlog w' = contents (tx w) ++ backlog w ++ accepted w /\
  w_shard w' = w_shard w /\ staged w' = None.
Proof.
  unfold publish, accepted. destruct (staged w) as [u|] eqn:Es;
    [|intros [= <- _]; rewrite app_nil_r; done].
  destruct (update_is_empty u); [intros [= <- _]; simpl; rewrite app_nil_r; done|]. simpl.
  destruct (closed w) eqn:Ec; [intros [= <- _]; done|].
  unfold flush_backlog. simpl. rewrite Ec.
  destruct (flush_loop (tx w) (backlog w)) as [[[q bl] cl] fl] eqn:Ef.
  apply flush_loop_spec in Ef as [Ef Hnil]. destruct fl; simpl.
  - rewrite (Hnil eq_refl) in *. rewrite app_nil_r in Ef. simpl.
    destruct (try_send q u) as [q1 r] eqn:E. apply send_spec in E.
    destruct r; intros [= <- _]; simpl; rewrite E, Ef, <- ?app_assoc; done.
  - intros [= <- _]. simpl. split; [|done]. by rewrite !app_assoc, Ef, <- app_assoc.
Qed.

Lemma flush_one_spec w w' b :
  flush_one w = (w', b) ->
  contents (tx w') ++ backlog w' = contents (tx w) ++ backlog w /\
  w_shard w' = w_shard w /\ staged w' = staged w.
Proof.
  unfold flush_one. destruct (closed w); [intros [= <- _]; done|].
  destruct (backlog w) as [|u rest] eqn:Eb; [intros [= <- _]; by rewrite Eb|].
  destruct (try_send (tx w) u) as [q1 r] eqn:E. apply send_spec in E.
  destruct r; intros [= <- _]; simpl; rewrite E, <- ?app_assoc; done.
Qed.

Lemma staged_or_new_shard w g s :
  w_shard w = s -> (forall u, staged w = Some u -> shard u = s) -> shard (staged_or_new w g) = s.
Proof. intros Hs Hu. unfold staged_or_new. destruct (staged w); simpl; [by apply Hu|done]. Qed.

Lemma ch_step_wf s c c' : ch_wf s c -> ch_step c c' -> ch_wf s c'.
Proof.
  intros [Ho Hs Hst Ht] Hstep.
  assert (forall g, shard (staged_or_new (ch_writer c) g) = s) as Hn
    by (intros g; by apply staged_or_new_shard).
  destruct Hstep as [w w' p r g op H|w w' p r g ack H|w w' p r g q e H|w w' p r g ps H
    |w w' g p r H|w w' b p r H|w q u p r H]; simpl in *.
  - unfold stage in H. case_ifs; [done|]. inv H. split; simpl; try done. intros u [= <-]; apply Hn.
  - unfold stage_cutoff in H. case_ifs; [done|]. inv H. split; simpl; try done. intros u [= <-]; apply Hn.
  - unfold stage_participant_effect in H. case_ifs; [done|]. inv H. split; simpl; try done.
    intros u [= <-]; apply Hn.
  - unfold stage_plans in H. destruct ps; [inv H; by split|]. case_ifs; [done|]. inv H.
    split; simpl; try done. intros u [= <-]; apply Hn.
  - apply publish_spec in H as (H1 & H2 & H3). split; simpl; try congruence.
    + rewrite H1, Ho, !app_assoc. done.
    + apply Forall_app. split; [done|]. unfold accepted. destruct (staged w) as [u|] eqn:E; [|done].
      destruct (update_is_empty u) eqn:Ee; [done|]. constructor; [|done]. auto.
  - apply flush_one_spec in H as (H1 & H2 & H3). split; simpl; try congruence. intros u. rewrite H3.
    apply Hst.
  - split; simpl; try done. pose proof (try_recv_contents (tx w)) as Hr. rewrite H in Hr. simpl in Hr.
    rewrite Ho, Hr, <- app_assoc. done.
Qed.

(** C30. Nothing published is lost, duplicated or reordered: in every state of
    the channel, whatever the mailbox refuses and even after it closes, the
    updates published so far are those the shard received, then those in the
    mailbox, then the writer's backlog, in publication order, and each is
    addressed to the writer's shard. *)
Theorem channel_preserves_order s q c :
  contents q = [] ->
  ch_reach (mkChannel (writer_new s q) [] []) c ->
  ch_published c = ch_received c ++ contents (tx (ch_writer c)) ++ backlog (ch_writer c) /\
  Forall (fun u => shard u = s /\ update_is_empty u = false) (ch_published c).
Proof.
  intros Hq Hr. enough (ch_wf s c) as [? ? ? ?] by done. induction Hr as [|c1 c2 _ IH Hstep].
  - split; simpl; try done. by rewrite Hq.
  - by eapply ch_step_wf.
Qed.
End Laws.
End Writer.

(** ** Plan validity *)

Lemma all_new_spec {K} `{!EqDecision K} (seen values : list K) :
  all_new seen values = true <-> NoDup values /\ (forall v, v ∈ values -> v ∉ seen).
Proof.
  revert seen. induction values as [|v vs IH]; simpl; intros seen.
  - split; [intros _; split; [constructor|set_solver]|done].
  - case_decide as Hin.
    + split; [done|]. intros [_ H]. destruct (H v); [left|done].
    + rewrite IH, NoDup_cons. set_solver.
Qed.

Lemma unique_spec {K} `{!EqDecision K} (values : list K) :
  NoDup (unique values) /\ forall v, v ∈ unique values <-> v ∈ values.
Proof.
  unfold unique. induction values as [|v vs IH] using rev_ind.
  - split; [constructor|done].
  - destruct IH as [IH1 IH2]. rewrite foldl_snoc. case_decide as Hin.
    + split; [done|]. intros x. rewrite IH2. set_solver.
    + split; [by apply NoDup_snoc|]. set_solver.
Qed.

(** Two remote addresses of a valid plan are on different shards, and a plan
    built by [new] is valid once its remote shards are distinct. *)
Lemma plan_is_valid_spec p :
  is_valid p = true <-> NoDup (local p) /\ NoDup (address_shard <$> remote p).
Proof.
  unfold is_valid. rewrite andb_true_iff, !all_new_spec. set_solver.
Qed.
End ShardUpdate.

(** ** A bounded queue is a mailbox *)

Record BoundedQueue (T : Type) := mkQueue { items : list T; capacity : nat; receiver_gone : bool }.
Arguments mkQueue {T} items capacity receiver_gone.
Arguments items {T} _.
Arguments capacity {T} _.
Arguments receiver_gone {T} _.

#[export] Instance BoundedQueue_mailbox T : Mailbox (BoundedQueue T) T := {|
  contents := items;
  try_send q v :=
    if receiver_gone q then (q, SendClosed)
    else if decide (length (items q) < capacity q)%nat
    then (mkQueue (items q ++ [v]) (capacity q) false, Sent) else (q, SendFull);
  try_recv q :=
    match items q with
    | [] => (q, None)
    | v :: vs => (mkQueue vs (capacity q) (receiver_gone q), Some v)
    end;
|}.

#[export] Instance BoundedQueue_laws T : MailboxLaws (BoundedQueue T) T.
Proof.
  split.
  - intros q v. simpl. destruct (receiver_gone q); [done|]. by case_decide.
  - intros q. simpl. by destruct (items q) eqn:E.
Qed.

Abbreviation DemoUpdate := (@ShardUpdate Z Z unit unit Z Z).
Lemma channel_preserves_order_witness :
  exists c : @channel Z Z unit unit Z Z (BoundedQueue DemoUpdate),
    length (ch_published c) = 1%nat /\
    ch_published c = ch_received c ++ contents (tx (ch_writer c)) ++ backlog (ch_writer c).
Proof.
  set (w0 := writer_new 0 (mkQueue [] 4 false) :
    @ShardUpdateWriter Z Z unit unit Z Z (BoundedQueue DemoUpdate)).
  destruct (stage w0 1 Placeholder) as [w1|] eqn:E1; [|by vm_compute in E1].
  destruct (publish w1) as [w2 g] eqn:E2.
  exists (mkChannel w2 ([] ++ accepted w1) []). split.
  - vm_compute in E1. injection E1 as <-. done.
  - apply (channel_preserves_order 0 (mkQueue [] 4 false)); [done|].
    eapply reach_step; [eapply reach_step; [apply reach_refl|eapply ch_stage; exact E1]|].
    eapply ch_publish. exact E2.
Defined.
