(* ===== verification/UpdateApply.v ===== *)
(** * Applying updates on the shard

    [shard/updates.rs], [ShardUpdateApplication]: an update is applied in
    slices of [SHARD_PLAN_OPERATION_BUDGET] plans, suspended between calls of
    [apply]. The reference definition [apply_atomic] applies an update in one
    go; the theorems relate the two. *)

From S2P Require Import Prelude.
From S2P Require Import Route.
From S2P Require Import ShardUpdate.

Definition SHARD_PLAN_OPERATION_BUDGET : nat := 256.

Section UpdateApply.
Context {ParticipantId TrackId TrackKind SourceEncoding ParticipantEffect Ack : Type}.
Context `{!EqDecision ParticipantId, !Countable ParticipantId}.
#[local] Abbreviation ShardUpdate :=
  (@ShardUpdate ParticipantId TrackId TrackKind SourceEncoding ParticipantEffect Ack).
#[local] Abbreviation ShardUpdateOp :=
  (@ShardUpdateOp ParticipantId TrackId TrackKind SourceEncoding ParticipantEffect).
#[local] Abbreviation TrackPlanUpdate := (@TrackPlanUpdate ParticipantId TrackId).
#[local] Abbreviation Effects := (list (ParticipantId * ParticipantEffect)).

(** What the application asks of [ShardExecution]: an effect reports whether
    its participant is there to take it, a plan reports the entries touched. *)
Class ShardExecution (X : Type) := {
  apply_participant_effect : X -> ParticipantId -> ParticipantEffect -> X * bool;
  apply_plan : X -> TrackPlanUpdate -> X * Z;
  execute_lifecycle_op : X -> ShardUpdateOp -> X;
}.

Context {Q : Type} `{!Mailbox Q ShardUpdate}.
Context {X : Type} `{!ShardExecution X}.

Record ShardUpdateApplication := mkApp {
  app_shard : ShardId;
  app_generation : Z;
  update_rx : Q;
  pending_update : option ShardUpdate;
  pending_update_lifecycle : bool;
  pending_plan_index : nat;
  pending_participant_effects : Effects;
  sent_acks : list Ack;  (** fences acknowledged so far *)
}.

Definition app_new (s : ShardId) (q : Q) : ShardUpdateApplication :=
  mkApp s 0 q None false 0 [] [].

(** ** The parts of one update *)

(** [if !execution.apply_participant_effect(..) { pending.push_back(..) }] *)
Definition try_effect (st : X * Effects) (pe : ParticipantId * ParticipantEffect) : X * Effects :=
  let '(x, kept) := st in
  let '(x', done_) := apply_participant_effect x pe.1 pe.2 in
  (x', if done_ then kept else kept ++ [pe]).

Definition apply_pending_participant_effects (st : X * Effects) : X * Effects :=
  foldl try_effect (st.1, []) st.2.

Definition apply_lifecycle_op (st : X * Effects) (op : ShardUpdateOp) : X * Effects :=
  (execute_lifecycle_op st.1 op,
   match op with
   | RemoveParticipant participant _ => filter (fun pe => pe.1 <> participant) st.2
   | _ => st.2
   end).

Definition is_retire (op : ShardUpdateOp) : bool :=
  match op with
  | RetireRoute _ | RetireTransport _ | RemoveParticipant _ _ | RemoveTrackRuntime _ => true
  | _ => false
  end.
Definition is_insert (op : ShardUpdateOp) : bool :=
  match op with InsertTrackRuntime _ _ => true | _ => false end.

Definition apply_ops (select : ShardUpdateOp -> bool) (u : ShardUpdate) (st : X * Effects)
    : X * Effects :=
  foldl apply_lifecycle_op st (filter (fun op => select op = true) (lifecycle u)).

(** Before the plans: retried effects, the update's effects, insertions, then
    the operations that neither insert nor retire. *)
Definition begin_update (u : ShardUpdate) (st : X * Effects) : X * Effects :=
  let st := apply_pending_participant_effects st in
  let st := foldl try_effect st (participant_effects u) in
  let st := apply_ops is_insert u st in
  apply_ops (fun op => negb (is_retire op) && negb (is_insert op)) u st.

Definition apply_plans (ops : list TrackPlanUpdate) (x : X) : X :=
  foldl (fun x op => (apply_plan x op).1) x ops.

(** After the plans: retirements, then effects whose participant has come. *)
Definition end_update (u : ShardUpdate) (st : X * Effects) : X * Effects :=
  apply_pending_participant_effects (apply_ops is_retire u st).

(** ** [apply] *)

(** [delta.plans.get(self.pending_plan_index..end).unwrap_or_default()] *)
Definition plan_slice (u : ShardUpdate) (index end_ : nat) : list TrackPlanUpdate :=
  if decide (index <= end_ /\ end_ <= length (plans u))%nat
  then take (end_ - index) (drop index (plans u)) else [].

(** One turn of the loop on an update taken from [pending_update]. *)
Inductive turn := Again (counted : bool) | Break.

Definition apply_turn (a : ShardUpdateApplication) (u : ShardUpdate) (x : X)
    : ShardUpdateApplication * X * turn :=
  if negb (validate_for u (app_shard a) (app_generation a)) then
    (mkApp (app_shard a) (app_generation a) (update_rx a) None false 0
       (pending_participant_effects a) (sent_acks a), x, Again false)
  else
    let '(x, effects) := if pending_update_lifecycle a
      then (x, pending_participant_effects a)
      else begin_update u (x, pending_participant_effects a) in
    let end_ := Nat.min (pending_plan_index a + SHARD_PLAN_OPERATION_BUDGET) (length (plans u)) in
    let x := apply_plans (plan_slice u (pending_plan_index a) end_) x in
    if (end_ <? length (plans u))%nat then
      (mkApp (app_shard a) (app_generation a) (update_rx a) (Some u) true end_ effects
         (sent_acks a), x, Break)
    else
      let '(x, effects) := end_update u (x, effects) in
      (mkApp (app_shard a) (generation u) (update_rx a) None false 0 effects
         (sent_acks a ++ option_list (cutoff_ack u)), x, Again true).

(** [while applied < budget]; every turn but the last takes an update from the
    mailbox, so the number of updates there bounds the turns. *)
Fixpoint apply_loop (fuel : nat) (a : ShardUpdateApplication) (x : X) (budget applied : nat)
    : option (ShardUpdateApplication * X * nat) :=
  if (applied <? budget)%nat then
    match fuel with
    | O => None
    | S fuel' =>
        let '(a, next) :=
          match pending_update a with
          | Some u => (a, Some u)
          | None =>
              let '(q, r) := try_recv (update_rx a) in
              (mkApp (app_shard a) (app_generation a) q r (pending_update_lifecycle a)
                 (pending_plan_index a) (pending_participant_effects a) (sent_acks a), r)
          end in
        match next with
        | None => Some (a, x, applied)
        | Some u =>
            match apply_turn a u x with
            | (a, x, Again counted) =>
                apply_loop fuel' a x budget (if counted then S applied else applied)
            | (a, x, Break) => Some (a, x, applied)
            end
        end
    end
  else Some (a, x, applied).

Definition apply (a : ShardUpdateApplication) (x : X) (budget : nat) :=
  apply_loop (S (S (length (contents (update_rx a))))) a x budget 0.

(** ** The reference: updates applied in one go *)

Record progress := mkProgress {
  p_generation : Z;
  p_exec : X;
  p_effects : Effects;
  p_acks : list Ack;
}.

(** The rest of an update from plan [index] on. *)
Definition conclude (u : ShardUpdate) (index : nat) (st : X * Effects) (acks : list Ack) : progress :=
  let '(x, effects) := end_update u (apply_plans (drop index (plans u)) st.1, st.2) in
  mkProgress (generation u) x effects (acks ++ option_list (cutoff_ack u)).

Definition apply_atomic (s : ShardId) (p : progress) (u : ShardUpdate) : progress :=
  if validate_for u s (p_generation p)
  then conclude u 0 (begin_update u (p_exec p, p_effects p)) (p_acks p)
  else p.

Definition progress_of (a : ShardUpdateApplication) (x : X) : progress :=
  mkProgress (app_generation a) x (pending_participant_effects a) (sent_acks a).

(** What remains to happen: the suspended update, then the mailbox in order. *)
Definition finish (a : ShardUpdateApplication) (x : X) : progress :=
  foldl (apply_atomic (app_shard a))
    match pending_update a with
    | Some u => conclude u (pending_plan_index a) (x, pending_participant_effects a) (sent_acks a)
    | None => progress_of a x
    end (contents (update_rx a)).

(** Between calls an update is pending only when it was suspended in its plans. *)
Definition app_ok (a : ShardUpdateApplication) : Prop :=
  match pending_update a with
  | Some u => pending_update_lifecycle a = true /\ (pending_plan_index a < length (plans u))%nat /\
      validate_for u (app_shard a) (app_generation a) = true
  | None => pending_update_lifecycle a = false /\ pending_plan_index a = 0%nat
  end.

(** Plans and updates still to go. *)
Definition work (a : ShardUpdateApplication) : nat :=
  match pending_update a with Some u => S (length (plans u) - pending_plan_index a) | None => 0 end
  + sum_list ((fun u => S (length (plans u))) <$> contents (update_rx a)).

(** ** Lemmas *)

Lemma apply_plans_app l1 l2 x : apply_plans (l1 ++ l2) x = apply_plans l2 (apply_plans l1 x).
Proof. apply foldl_app. Qed.

(** A slice and what follows it. *)
Lemma plan_slice_drop u index end_ :
  (index <= end_ <= length (plans u))%nat ->
  drop index (plans u) = plan_slice u index end_ ++ drop end_ (plans u).
Proof.
  intros H. unfold plan_slice. rewrite decide_True by lia.
  replace end_ with (index + (end_ - index))%nat at 2 by lia.
  by rewrite <- drop_drop, take_drop.
Qed.

(** The outcome a turn works towards, from the update it took. *)
Definition turn_goal (a : ShardUpdateApplication) (u : ShardUpdate) (x : X) : progress :=
  if pending_update_lifecycle a
  then conclude u (pending_plan_index a) (x, pending_participant_effects a) (sent_acks a)
  else apply_atomic (app_shard a) (progress_of a x) u.

Definition turn_ok (a : ShardUpdateApplication) (u : ShardUpdate) : Prop :=
  (pending_update_lifecycle a = true /\
     validate_for u (app_shard a) (app_generation a) = true /\
     (pending_plan_index a < length (plans u))%nat) \/
  (pending_update_lifecycle a = false /\ pending_plan_index a = 0%nat).

Lemma apply_turn_spec a u x a' x' t :
  turn_ok a u -> apply_turn a u x = (a', x', t) ->
  app_ok a' /\ app_shard a' = app_shard a /\ update_rx a' = update_rx a /\
  finish a' x' = foldl (apply_atomic (app_shard a)) (turn_goal a u x) (contents (update_rx a)) /\
  match t with
  | Again _ => pending_update a' = None
  | Break => pending_update a' = Some u /\ (pending_plan_index a < pending_plan_index a')%nat
  end.
Proof.
  intros Hok. unfold apply_turn. destruct (validate_for u (app_shard a) (app_generation a)) eqn:Ev.
  2:{ simpl. intros [= <- <- <-]. split_and!; try done.
      destruct Hok as [(_ & ? & _)|[Hl _]]; [congruence|].
      unfold finish, turn_goal, apply_atomic. simpl. by rewrite Hl, Ev. }
  simpl. set (st := if pending_update_lifecycle a then _ else _).
  destruct st as [x1 effects] eqn:Est. subst st.
  assert (turn_goal a u x = conclude u (pending_plan_index a) (x1, effects) (sent_acks a)) as Hgoal.
  { unfold turn_goal, apply_atomic, progress_of. simpl. rewrite Ev.
    destruct Hok as [(Hl & _)|[Hl Hi]]; rewrite Hl in *; [by inv Est|]. by rewrite Hi, Est. }
  assert (pending_plan_index a <= length (plans u))%nat as Hle
    by (destruct Hok as [(_ & _ & ?)|[_ ->]]; lia).
  unfold SHARD_PLAN_OPERATION_BUDGET. set (end_ := Nat.min (pending_plan_index a + 256) (length (plans u))).
  assert (pending_plan_index a <= end_ <= length (plans u))%nat as Hend by (subst end_; lia).
  rewrite Hgoal. unfold conclude. simpl. rewrite (plan_slice_drop u _ _ Hend), apply_plans_app.
  destruct (Nat.ltb_spec end_ (length (plans u))) as [Hlt|Hge].
  - intros [= <- <- <-]. split_and!; try done. simpl. subst end_. lia.
  - assert (drop end_ (plans u) = []) as -> by (apply drop_ge; lia). simpl.
    destruct (end_update u _) as [x2 effects2]. intros [= <- <- <-]. split_and!; done.
Qed.

Context `{!MailboxLaws Q ShardUpdate}.

Definition pending_count (a : ShardUpdateApplication) : nat :=
  match pending_update a with Some _ => 1 | None => 0 end.

Lemma apply_loop_spec fuel a x budget applied :
  app_ok a -> (length (contents (update_rx a)) + pending_count a < fuel)%nat ->
  exists a' x' n, apply_loop fuel a x budget applied = Some (a', x', n) /\ app_ok a' /\
    app_shard a' = app_shard a /\ finish a' x' = finish a x /\ (work a' <= work a)%nat /\
    ((applied < budget)%nat -> (0 < work a)%nat -> (work a' < work a)%nat).
Proof.
  revert a x applied. induction fuel as [|fuel IH]; intros a x applied Hok Hf; [lia|].
  cbn [apply_loop]. destruct (Nat.ltb_spec applied budget) as [Hb|Hb];
    [|exists a, x, applied; split_and!; done || lia].
  assert (forall a0 u, turn_ok a0 u -> app_shard a0 = app_shard a ->
    (length (contents (update_rx a0)) < fuel)%nat ->
    foldl (apply_atomic (app_shard a)) (turn_goal a0 u x) (contents (update_rx a0)) = finish a x ->
    work a = (S (length (plans u) - pending_plan_index a0) +
      sum_list ((fun u => S (length (plans u))) <$> contents (update_rx a0)))%nat ->
    exists a' x' n, match apply_turn a0 u x with
      | (a2, x2, Again counted) => apply_loop fuel a2 x2 budget (if counted then S applied else applied)
      | (a2, x2, Break) => Some (a2, x2, applied) end = Some (a', x', n) /\ app_ok a' /\
      app_shard a' = app_shard a /\ finish a' x' = finish a x /\ (work a' < work a)%nat) as Hturn.
  { intros a0 u Htok Hs Hlen Hfin Hw. destruct (apply_turn a0 u x) as [[a1 x1] t] eqn:Et.
    destruct (apply_turn_spec a0 u x a1 x1 t Htok Et) as (Hok1 & Hs1 & Hq1 & Hf1 & Ht).
    rewrite Hs in *. destruct t as [counted|].
    - destruct (IH a1 x1 (if counted then S applied else applied) Hok1) as (a2 & x2 & n & H1 & H2 & H3 & H4 & H5 & _).
      { unfold pending_count. rewrite Ht, Hq1. lia. }
      exists a2, x2, n. split_and!; try done; try congruence.
      enough (work a1 < work a)%nat by lia. unfold work at 1. rewrite Ht, Hq1, Hw. lia.
    - exists a1, x1, applied. destruct Ht as [Hp Hi]. split_and!; try done; try congruence.
      unfold work at 1. rewrite Hp, Hq1, Hw. unfold app_ok in Hok1. rewrite Hp in Hok1. lia. }
  unfold app_ok in Hok. destruct (pending_update a) as [u|] eqn:Ep.
  - destruct Hok as (Hl & Hi & Hv).
    destruct (Hturn a u) as (a' & x' & n & H1 & H2 & H3 & H4 & H5); try done.
    + by left.
    + unfold pending_count in Hf. rewrite Ep in Hf. lia.
    + unfold turn_goal, finish. by rewrite Hl, Ep.
    + unfold work. by rewrite Ep.
    + exists a', x', n. split_and!; try done; lia.
  - destruct Hok as [Hl Hi]. pose proof (try_recv_contents (update_rx a)) as Hr.
    destruct (try_recv (update_rx a)) as [q [u|]]; simpl in Hr.
    + match goal with |- context [apply_turn ?a0 u x] =>
        destruct (Hturn a0 u) as (a' & x' & n & H1 & H2 & H3 & H4 & H5); simpl; try done end.
      * by right.
      * unfold pending_count in Hf. rewrite Ep, Hr in Hf. simpl in Hf. lia.
      * unfold turn_goal, finish, progress_of. simpl. rewrite Hl, Ep, Hr. done.
      * unfold work. rewrite Ep, Hr, Hi, Nat.sub_0_r. reflexivity.
      * exists a', x', n. split_and!; try done; lia.
    + destruct Hr as [Hr1 Hr2]. eexists _, x, applied. split; [done|]. unfold app_ok, finish, work. simpl.
      rewrite Ep, Hr1, Hr2. split_and!; try done; simpl; lia.
Qed.

(** Calling [apply] again and again, as the worker does each cycle. *)
Fixpoint apply_rounds (n : nat) (a : ShardUpdateApplication) (x : X) (budget : nat)
    : option (ShardUpdateApplication * X) :=
  match n with
  | O => Some (a, x)
  | S n' => '(a, x, _) ← apply a x budget; apply_rounds n' a x budget
  end.

Lemma apply_rounds_spec n a x budget :
  app_ok a -> (0 < budget)%nat -> (work a <= n)%nat ->
  exists a' x', apply_rounds n a x budget = Some (a', x') /\ app_ok a' /\
    finish a' x' = finish a x /\ work a' = 0%nat.
Proof.
  intros Hok Hb. revert a x Hok. induction n as [|n IH]; intros a x Hok Hw; cbn [apply_rounds].
  - exists a, x. split_and!; try done. lia.
  - unfold apply. destruct (apply_loop_spec (S (S (length (contents (update_rx a))))) a x budget 0 Hok)
      as (a1 & x1 & k & -> & Hok1 & Hs1 & Hf1 & Hle & Hlt).
    { unfold pending_count. case_match; lia. }
    simpl. destruct (IH a1 x1 Hok1) as (a2 & x2 & H1 & H2 & H3 & H4).
    { destruct (decide (work a = 0%nat)); [lia|]. specialize (Hlt Hb ltac:(lia)). lia. }
    exists a2, x2. split_and!; try done. congruence.
Qed.

Lemma idle_finish a x :
  work a = 0%nat -> pending_update a = None /\ contents (update_rx a) = [] /\
  finish a x = progress_of a x.
Proof.
  unfold work, finish. destruct (pending_update a); simpl; [lia|].
  destruct (contents (update_rx a)); simpl; [done|lia].
Qed.

(** C9. Slicing is invisible: whatever the budget, calling [apply] as many
    times as there are updates and plans to go never gets stuck, empties the
    mailbox, and leaves the shard, the retained effects, the generation and
    the acknowledged fences exactly as if each valid update had been applied
    in one go, in the order of the mailbox. *)
Theorem sliced_application_is_atomic s q x budget n :
  (0 < budget)%nat -> (sum_list ((fun u => S (length (plans u))) <$> contents q) <= n)%nat ->
  exists a' x', apply_rounds n (app_new s q) x budget = Some (a', x') /\
    pending_update a' = None /\ contents (update_rx a') = [] /\
    progress_of a' x' = foldl (apply_atomic s) (mkProgress 0 x [] []) (contents q).
Proof.
  intros Hb Hn. destruct (apply_rounds_spec n (app_new s q) x budget) as (a' & x' & H1 & H2 & H3 & H4);
    [done|done|done|].
  destruct (idle_finish a' x' H4) as (H5 & H6 & H7). exists a', x'. split_and!; try done.
  rewrite <- H7, H3. done.
Qed.

(** ** Ordered generations *)

(** Updates for the shard, in strictly increasing generation above [g]. *)
Fixpoint increasing (s : ShardId) (g : Z) (us : list ShardUpdate) : Prop :=
  match us with
  | [] => True
  | u :: us' => shard u = s /\ g < generation u /\
      forallb (fun op => is_owned_by op s) (lifecycle u) = true /\ increasing s (generation u) us'
  end.

Lemma increasing_all_apply s p us :
  increasing s (p_generation p) us ->
  let p' := foldl (apply_atomic s) p us in
  p_generation p' = default (p_generation p) (last (generation <$> us)) /\
  p_acks p' = p_acks p ++ (us ≫= fun u => option_list (cutoff_ack u)).
Proof.
  revert p. induction us as [|u us IH]; intros p; simpl.
  - intros _. by rewrite app_nil_r.
  - intros (Hs & Hg & Ho & Hinc). set (p1 := apply_atomic s p u).
    assert (p_generation p1 = generation u /\
      p_acks p1 = p_acks p ++ option_list (cutoff_ack u)) as [E1 E2].
    { subst p1. unfold apply_atomic, validate_for, conclude.
      rewrite Hs, Z.eqb_refl, (proj2 (Z.ltb_lt _ _) Hg), Ho. simpl. by destruct (end_update u _). }
    destruct (IH p1) as [H1 H2]; [by rewrite E1|]. rewrite H1, H2, E1, E2, <- app_assoc.
    split; [|done].
    change (default (generation u) (last (generation <$> us)) =
            default (p_generation p) (last (generation u :: (generation <$> us)))).
    rewrite last_cons. by destruct (last _).
Qed.

(** Updates published in strictly increasing generations are all applied:
    none is rejected as stale, the shard ends at the last generation and every
    fence is acknowledged once, in order. *)
Theorem increasing_updates_all_apply s q x budget n :
  (0 < budget)%nat -> (sum_list ((fun u => S (length (plans u))) <$> contents q) <= n)%nat ->
  increasing s 0 (contents q) ->
  exists a' x', apply_rounds n (app_new s q) x budget = Some (a', x') /\
    app_generation a' = default 0 (last (generation <$> contents q)) /\
    sent_acks a' = contents q ≫= fun u => option_list (cutoff_ack u).
Proof.
  intros Hb Hn Hinc. destruct (apply_rounds_spec n (app_new s q) x budget) as (a' & x' & H1 & H2 & H3 & H4);
    [done|done|done|].
  destruct (idle_finish a' x' H4) as (_ & _ & H7). exists a', x'. split; [done|].
  rewrite H3 in H7. unfold finish in H7. simpl in H7.
  destruct (increasing_all_apply s (progress_of (app_new s q) x) (contents q) Hinc) as [E1 E2].
  rewrite H7 in E1, E2. done.
Qed.
End UpdateApply.

(** ** Witnesses: an execution that logs what it is asked *)

Definition demo_update (g : Z) (ack : option Z) : DemoUpdate :=
  mkUpdate 0 g [(1, g)] [RemoveTrackRuntime g] [mkPlanUpdate g None; mkPlanUpdate (g + 1) None] ack.
Definition demo_queue : BoundedQueue DemoUpdate :=
  mkQueue [demo_update 1 None; demo_update 2 (Some 7)] 4 false.

(** Effects are refused until participant 1 is known to the log. *)
#[export] Instance demo_execution :
  ShardExecution (ParticipantId := Z) (TrackId := Z) (TrackKind := unit)
    (SourceEncoding := unit) (ParticipantEffect := Z) (list Z) := {|
  apply_participant_effect x p e := if decide (x = []) then (x, false) else (x ++ [e], true);
  apply_plan x u := (x ++ [plan_track u], 1);
  execute_lifecycle_op x op := match op with RemoveTrackRuntime t => x ++ [100 + t] | _ => x end;
|}.

Lemma sliced_application_is_atomic_witness :
  exists a' x', apply_rounds 6 (app_new 0 demo_queue) ([] : list Z) 1 = Some (a', x') /\
    x' = [1; 2; 101; 1; 2; 2; 3; 102] /\ sent_acks a' = [7].
Proof.
  destruct (sliced_application_is_atomic 0 demo_queue ([] : list Z) 1 6) as (a' & x' & H & _ & _ & Hp);
    [lia|by vm_compute|].
  exists a', x'. split; [done|].
  assert (foldl (apply_atomic 0) (mkProgress 0 ([] : list Z) [] []) (contents demo_queue) =
    mkProgress 2 [1; 2; 101; 1; 2; 2; 3; 102] [] [7]) as E by (vm_compute; reflexivity).
  rewrite E in Hp. unfold progress_of in Hp. by inv Hp.
Defined.

Lemma increasing_updates_all_apply_witness :
  exists a' x', apply_rounds 6 (app_new 0 demo_queue) ([] : list Z) 1 = Some (a', x') /\
    app_generation a' = 2.
Proof.
  destruct (increasing_updates_all_apply 0 demo_queue ([] : list Z) 1 6) as (a' & x' & H & Hg & _);
    [lia|by vm_compute|by vm_compute|eauto].
Defined.
