(* ===== verification/Topology.v ===== *)
(** * Who is subscribed to what

    [control/topology.rs]: the catalogue of published tracks of a room, the
    standing subscriptions over it, the indexes that find the subscriptions
    matching a track and the tracks matching a subscription, and the reasons
    for which a participant receives a track. Selector matching is
    [track.rs], [TrackSelector].

    Hash maps and sets are finite maps and sets; an iteration over one is an
    iteration over a set of elements. A slot-map key is an argument of the
    operation that inserts with it: the slot map promises a key that is not in
    use. A track is what the topology reads of it (room, identity, publisher
    and publication label) and the rest, which it carries. *)

From S2P Require Import Prelude.
From S2P Require Import Route.
From S2P Require Import SlotAlloc.

Inductive TrackKind := Audio | Video | Data.
#[export] Instance TrackKind_eq_dec : EqDecision TrackKind.
Proof. solve_decision. Defined.
#[export] Instance TrackKind_countable : Countable TrackKind.
Proof.
  refine (inj_countable' (fun k => match k with Audio => 0 | Video => 1 | Data => 2 end)
    (fun n => match n with 0 => Audio | 1 => Video | _ => Data end) _). by intros [].
Defined.

Inductive SelectionPolicy := All | Allocated.
#[export] Instance SelectionPolicy_eq_dec : EqDecision SelectionPolicy.
Proof. solve_decision. Defined.

(** ** Indexes: a map from keys to non-empty sets *)

Section Index.
Context {K V : Type} `{!EqDecision K, !Countable K, !EqDecision V, !Countable V}.
Implicit Types (m : gmap K (gset V)).

(** [index.get(&key).into_iter().flatten()] *)
Definition at_key m (k : K) : gset V := default ∅ (m !! k).

(** [index.entry(key).or_default().insert(value)] *)
Definition insert_indexed m (k : K) (v : V) : gmap K (gset V) :=
  <[k := {[v]} ∪ at_key m k]> m.

(** [remove_indexed] and [remove_reason]: the set is dropped with its last
    element. *)
Definition remove_indexed m (k : K) (v : V) : gmap K (gset V) :=
  match m !! k with
  | None => m
  | Some values =>
      let values := values ∖ {[v]} in
      if decide (values = ∅) then delete k m else <[k := values]> m
  end.

Definition index_ok m : Prop := map_Forall (fun _ vs => vs ≠ ∅) m.

Lemma at_key_insert m k v k' v' :
  v' ∈ at_key (insert_indexed m k v) k' <-> (k' = k /\ v' = v) \/ v' ∈ at_key m k'.
Proof.
  unfold insert_indexed, at_key. rewrite lookup_insert. case_decide; simpl; set_solver.
Qed.

Lemma at_key_remove m k v k' v' :
  v' ∈ at_key (remove_indexed m k v) k' <-> v' ∈ at_key m k' /\ ~ (k' = k /\ v' = v).
Proof.
  unfold remove_indexed, at_key. destruct (m !! k) as [vs|] eqn:E.
  - case_decide as Hd.
    + rewrite lookup_delete. case_decide; subst; simpl; [rewrite E; simpl; set_solver|set_solver].
    + rewrite lookup_insert. case_decide; subst; simpl; [rewrite E; simpl; set_solver|set_solver].
  - split; [|tauto]. intros Hv. split; [done|]. intros [-> ->]. rewrite E in Hv. set_solver.
Qed.

Lemma insert_indexed_ok m k v : index_ok m -> index_ok (insert_indexed m k v).
Proof. intros H. apply map_Forall_insert_2; [set_solver|done]. Qed.

Lemma remove_indexed_ok m k v : index_ok m -> index_ok (remove_indexed m k v).
Proof.
  intros H. unfold remove_indexed. destruct (m !! k); [|done].
  case_decide; [by apply map_Forall_delete|by apply map_Forall_insert_2].
Qed.

Lemma index_ok_key m k : index_ok m -> (is_Some (m !! k) <-> exists v, v ∈ at_key m k).
Proof.
  intros H. unfold at_key. destruct (m !! k) as [vs|] eqn:E; simpl.
  - split; [|eauto]. intros _. apply set_choose_L. by eapply H.
  - split; [by intros []|]. intros [v Hv]. set_solver.
Qed.

(** [retain] on the keys. *)
Lemma at_key_filter m (P : K -> Prop) `{!forall k, Decision (P k)} k v :
  v ∈ at_key (filter (fun kv => P kv.1) m) k <-> v ∈ at_key m k /\ P k.
Proof.
  unfold at_key. rewrite map_lookup_filter. destruct (m !! k); simpl; [|set_solver].
  case_guard; simpl; set_solver.
Qed.

Lemma index_ok_filter m (P : K -> Prop) `{!forall k, Decision (P k)} :
  index_ok m -> index_ok (filter (fun kv => P kv.1) m).
Proof. intros Hok k' vs Hk. apply map_lookup_filter_Some in Hk as [Hk _]. by eapply Hok. Qed.
End Index.

Section Topology.
Context {ParticipantId RoomId TrackId SubscriptionKey Body : Type}.
Context `{!EqDecision ParticipantId, !Countable ParticipantId}.
Context `{!EqDecision RoomId, !Countable RoomId}.
Context `{!EqDecision TrackId, !Countable TrackId}.
Context `{!EqDecision SubscriptionKey, !Countable SubscriptionKey}.
Context (track_kind : TrackId -> TrackKind).

(** ** Tracks and selectors *)

Record Track := mkTrack {
  track_room : RoomId;
  track_id : TrackId;
  track_origin : ParticipantId;
  publication_label : option string;
  track_body : Body;
}.

Record TrackAncestry := mkAncestry {
  anc_room : RoomId;
  anc_publisher : ParticipantId;
  anc_track : TrackId;
}.
Definition from_track (t : Track) : TrackAncestry :=
  mkAncestry (track_room t) (track_origin t) (track_id t).

Record TrackSelector := mkSelector {
  sel_track : option TrackId;
  sel_publisher : option ParticipantId;
  sel_kind : option TrackKind;
  sel_label : option string;
}.
#[export] Instance TrackSelector_eq_dec : EqDecision TrackSelector.
Proof. solve_decision. Defined.

Definition selector_track (t : TrackId) : TrackSelector := mkSelector (Some t) None None None.
Definition selector_kind (k : TrackKind) : TrackSelector := mkSelector None None (Some k) None.
Definition data_topic (publisher : option ParticipantId) (label : string) : TrackSelector :=
  mkSelector None publisher (Some Data) (Some label).

(** [Option::is_none_or] *)
Definition is_none_or {A} (o : option A) (f : A -> bool) : bool :=
  match o with None => true | Some a => f a end.

Definition matches (s : TrackSelector) (t : Track) : bool :=
  is_none_or (sel_track s) (fun expected => bool_decide (track_id t = expected)) &&
  is_none_or (sel_publisher s) (fun expected => bool_decide (track_origin t = expected)) &&
  is_none_or (sel_kind s) (fun expected => bool_decide (track_kind (track_id t) = expected)) &&
  is_none_or (sel_label s) (fun expected => bool_decide (publication_label t = Some expected)).

Record Subscription := mkSubscription {
  sub_id : SubscriptionKey;
  subscriber : ParticipantId;
  selector : TrackSelector;
  selection : SelectionPolicy;
  owned_ref : option Z;
}.

Record Publication := mkPublication { pub_track : Track; pub_label : option string }.

Inductive SubscriptionAnchor :=
| AnchorTrack (t : TrackId)
| AnchorPublisher (p : ParticipantId)
| AnchorLabel (l : string)
| AnchorKind (k : TrackKind)
| AnchorAny.
#[export] Instance SubscriptionAnchor_eq_dec : EqDecision SubscriptionAnchor.
Proof. solve_decision. Defined.

(** ** The room's topology

    The fields of [RoomTrackTopology] in three groups: the catalogue, the
    subscriptions, and the reasons that follow from both. *)

Record Catalog := mkCatalog {
  tracks : gmap TrackId Publication;
  by_publisher : gmap ParticipantId (gset TrackId);
  by_kind : gmap TrackKind (gset TrackId);
  by_label : gmap string (gset TrackId);
}.

Record Interests := mkInterests {
  subscriptions : gmap SubscriptionKey Subscription;
  owned : gmap (ParticipantId * Z) SubscriptionKey;
  by_track : gmap TrackId (gset SubscriptionKey);
  by_subscriber_publisher : gmap ParticipantId (gset SubscriptionKey);
  by_subscription_kind : gmap TrackKind (gset SubscriptionKey);
  by_subscription_label : gmap string (gset SubscriptionKey);
  unconstrained : gset SubscriptionKey;
}.

Record Reasons := mkReasons {
  candidate_reasons : gmap (ParticipantId * TrackId) (gset SubscriptionKey);
  automatic_reasons : gmap (ParticipantId * TrackId) (gset SubscriptionKey);
  allocated : gset (ParticipantId * TrackId);
}.

Record RoomTrackTopology := mkRoomTopology {
  catalog : Catalog;
  interests : Interests;
  reasons : Reasons;
}.

Definition room_default : RoomTrackTopology :=
  mkRoomTopology (mkCatalog ∅ ∅ ∅ ∅) (mkInterests ∅ ∅ ∅ ∅ ∅ ∅ ∅) (mkReasons ∅ ∅ ∅).

Definition index_track (c : Catalog) (i : TrackAncestry) (label : option string) : Catalog :=
  mkCatalog (tracks c)
    (insert_indexed (by_publisher c) (anc_publisher i) (anc_track i))
    (insert_indexed (by_kind c) (track_kind (anc_track i)) (anc_track i))
    (match label with
     | Some l => insert_indexed (by_label c) l (anc_track i)
     | None => by_label c
     end).

Definition unindex_track (c : Catalog) (i : TrackAncestry) (label : option string) : Catalog :=
  mkCatalog (tracks c)
    (remove_indexed (by_publisher c) (anc_publisher i) (anc_track i))
    (remove_indexed (by_kind c) (track_kind (anc_track i)) (anc_track i))
    (match label with
     | Some l => remove_indexed (by_label c) l (anc_track i)
     | None => by_label c
     end).

Definition selector_tracks (c : Catalog) (s : TrackSelector) : gset TrackId :=
  let candidates : gset TrackId :=
    match sel_track s, sel_publisher s, sel_label s, sel_kind s with
    | Some t, _, _, _ => if decide (is_Some (tracks c !! t)) then {[t]} else ∅
    | None, Some p, _, _ => at_key (by_publisher c) p
    | None, None, Some l, _ => at_key (by_label c) l
    | None, None, None, Some k => at_key (by_kind c) k
    | None, None, None, None => dom (tracks c)
    end in
  filter (fun t => match tracks c !! t with
                   | Some publication => matches s (pub_track publication)
                   | None => false
                   end = true) candidates.

Definition anchor (s : TrackSelector) : SubscriptionAnchor :=
  match sel_track s, sel_publisher s, sel_label s, sel_kind s with
  | Some t, _, _, _ => AnchorTrack t
  | None, Some p, _, _ => AnchorPublisher p
  | None, None, Some l, _ => AnchorLabel l
  | None, None, None, Some k => AnchorKind k
  | None, None, None, None => AnchorAny
  end.

Definition index_subscription (n : Interests) (s : TrackSelector) (id : SubscriptionKey) : Interests :=
  let '(mkInterests subs own bt bp bk bl un) := n in
  match anchor s with
  | AnchorTrack t => mkInterests subs own (insert_indexed bt t id) bp bk bl un
  | AnchorPublisher p => mkInterests subs own bt (insert_indexed bp p id) bk bl un
  | AnchorLabel l => mkInterests subs own bt bp bk (insert_indexed bl l id) un
  | AnchorKind k => mkInterests subs own bt bp (insert_indexed bk k id) bl un
  | AnchorAny => mkInterests subs own bt bp bk bl ({[id]} ∪ un)
  end.

Definition unindex_subscription (n : Interests) (s : TrackSelector) (id : SubscriptionKey) : Interests :=
  let '(mkInterests subs own bt bp bk bl un) := n in
  match anchor s with
  | AnchorTrack t => mkInterests subs own (remove_indexed bt t id) bp bk bl un
  | AnchorPublisher p => mkInterests subs own bt (remove_indexed bp p id) bk bl un
  | AnchorLabel l => mkInterests subs own bt bp bk (remove_indexed bl l id) un
  | AnchorKind k => mkInterests subs own bt bp (remove_indexed bk k id) bl un
  | AnchorAny => mkInterests subs own bt bp bk bl (un ∖ {[id]})
  end.

Definition matching_subscription_keys (c : Catalog) (n : Interests) (i : TrackAncestry)
    : gset SubscriptionKey :=
  match tracks c !! anc_track i with
  | None => ∅
  | Some publication =>
      let candidates := unconstrained n
        ∪ at_key (by_track n) (anc_track i)
        ∪ at_key (by_subscriber_publisher n) (anc_publisher i)
        ∪ at_key (by_subscription_kind n) (track_kind (anc_track i))
        ∪ match pub_label publication with
          | Some l => at_key (by_subscription_label n) l
          | None => ∅
          end in
      filter (fun id => match subscriptions n !! id with
                        | Some s => matches (selector s) (pub_track publication)
                        | None => false
                        end = true) candidates
  end.

Definition add_reason (n : Interests) (r : Reasons) (t : TrackId) (id : SubscriptionKey) : Reasons :=
  match subscriptions n !! id with
  | None => r
  | Some s =>
      mkReasons (insert_indexed (candidate_reasons r) (subscriber s, t) id)
        (if decide (selection s = All)
         then insert_indexed (automatic_reasons r) (subscriber s, t) id else automatic_reasons r)
        (allocated r)
  end.

Definition add_publication_reasons (g : RoomTrackTopology) (i : TrackAncestry) : RoomTrackTopology :=
  mkRoomTopology (catalog g) (interests g)
    (foldl (fun r id => add_reason (interests g) r (anc_track i) id) (reasons g)
       (elements (matching_subscription_keys (catalog g) (interests g) i))).

Definition add_subscription_reasons (g : RoomTrackTopology) (id : SubscriptionKey)
    : RoomTrackTopology :=
  match subscriptions (interests g) !! id with
  | None => g
  | Some s =>
      mkRoomTopology (catalog g) (interests g)
        (foldl (fun r t => add_reason (interests g) r t id) (reasons g)
           (elements (selector_tracks (catalog g) (selector s))))
  end.

(** Some live subscription among [ids] leaves the choice to the allocator. *)
Definition allocated_candidate (n : Interests) (ids : gset SubscriptionKey) : bool :=
  bool_decide (set_Exists (fun id => selection <$> subscriptions n !! id = Some Allocated) ids).

(** The body of the loop of [unsubscribe] for one affected track. *)
Definition drop_reason (n : Interests) (s : Subscription) (id : SubscriptionKey) (r : Reasons)
    (t : TrackId) : Reasons :=
  let key := (subscriber s, t) in
  let candidates := remove_indexed (candidate_reasons r) key id in
  mkReasons candidates
    (if decide (selection s = All) then remove_indexed (automatic_reasons r) key id
     else automatic_reasons r)
    (if allocated_candidate n (at_key candidates key) then allocated r else allocated r ∖ {[key]}).

Definition forget (n : Interests) (s : Subscription) (id : SubscriptionKey) : Interests :=
  let '(mkInterests subs own bt bp bk bl un) := n in
  mkInterests (delete id subs)
    (match owned_ref s with Some ref => delete (subscriber s, ref) own | None => own end)
    bt bp bk bl un.

Definition unsubscribe (g : RoomTrackTopology) (id : SubscriptionKey)
    : RoomTrackTopology * option Subscription :=
  match subscriptions (interests g) !! id with
  | None => (g, None)
  | Some s =>
      let n := unindex_subscription (forget (interests g) s id) (selector s) id in
      let r := foldl (drop_reason n s id) (reasons g)
                 (elements (selector_tracks (catalog g) (selector s))) in
      (mkRoomTopology (catalog g) n r, Some s)
  end.

Definition candidate_subscribers (g : RoomTrackTopology) (t : TrackId) : gset ParticipantId :=
  set_map fst (filter (fun key => key.2 = t) (dom (candidate_reasons (reasons g)))).

Definition active_subscribers (g : RoomTrackTopology) (t : TrackId) : gset ParticipantId :=
  filter (fun s => is_Some (automatic_reasons (reasons g) !! (s, t)) \/
                   (s, t) ∈ allocated (reasons g)) (candidate_subscribers g t).

Definition activate (g : RoomTrackTopology) (t : TrackId) (s : ParticipantId)
    : RoomTrackTopology * bool :=
  let key := (s, t) in
  let r := reasons g in
  if allocated_candidate (interests g) (at_key (candidate_reasons r) key) then
    (mkRoomTopology (catalog g) (interests g)
       (mkReasons (candidate_reasons r) (automatic_reasons r) ({[key]} ∪ allocated r)),
     bool_decide (key ∉ allocated r))
  else (g, false).

Definition deactivate (g : RoomTrackTopology) (t : TrackId) (s : ParticipantId)
    : RoomTrackTopology * bool :=
  let key := (s, t) in
  let r := reasons g in
  (mkRoomTopology (catalog g) (interests g)
     (mkReasons (candidate_reasons r) (automatic_reasons r) (allocated r ∖ {[key]})),
   bool_decide (key ∈ allocated r)).

(** The three [retain]s that forget a track. *)
Definition forget_track (r : Reasons) (t : TrackId) : Reasons :=
  mkReasons (filter (fun kv => kv.1.2 <> t) (candidate_reasons r))
    (filter (fun kv => kv.1.2 <> t) (automatic_reasons r))
    (filter (fun key => key.2 <> t) (allocated r)).

Definition remove_track (g : RoomTrackTopology) (t : TrackId) : RoomTrackTopology :=
  let c := catalog g in
  match tracks c !! t with
  | None => g
  | Some publication =>
      let c := mkCatalog (delete t (tracks c)) (by_publisher c) (by_kind c) (by_label c) in
      mkRoomTopology (unindex_track c (from_track (pub_track publication)) (pub_label publication))
        (interests g) (forget_track (reasons g) t)
  end.

Definition remove_subscriber (g : RoomTrackTopology) (p : ParticipantId) : RoomTrackTopology :=
  let mine : gset SubscriptionKey :=
    dom (filter (fun kv => subscriber kv.2 = p) (subscriptions (interests g))) in
  let g := foldl (fun g id => (unsubscribe g id).1) g (elements mine) in
  mkRoomTopology (catalog g) (interests g)
    (mkReasons (candidate_reasons (reasons g)) (automatic_reasons (reasons g))
       (filter (fun key => key.1 <> p) (allocated (reasons g)))).

(** ** The operations of [TrackTopology] on one room *)

Definition publish (g : RoomTrackTopology) (t : Track) : RoomTrackTopology * option TrackAncestry :=
  let i := from_track t in
  let label := publication_label t in
  match tracks (catalog g) !! anc_track i with
  | Some _ => (g, None)
  | None =>
      let c := index_track (catalog g) i label in
      let c := mkCatalog (<[anc_track i := mkPublication t label]> (tracks c)) (by_publisher c)
                 (by_kind c) (by_label c) in
      (add_publication_reasons (mkRoomTopology c (interests g) (reasons g)) i, Some i)
  end.

Definition unpublish (g : RoomTrackTopology) (i : TrackAncestry) : RoomTrackTopology * option Track :=
  let c := catalog g in
  match tracks c !! anc_track i with
  | None => (g, None)
  | Some publication =>
      let c := mkCatalog (delete (anc_track i) (tracks c)) (by_publisher c) (by_kind c) (by_label c) in
      (mkRoomTopology (unindex_track c i (pub_label publication)) (interests g)
         (forget_track (reasons g) (anc_track i)), Some (pub_track publication))
  end.

(** Insertion of a subscription under the key [id] the slot map chose. *)
Definition insert_subscription (n : Interests) (id : SubscriptionKey) (s : Subscription) : Interests :=
  let '(mkInterests subs own bt bp bk bl un) := n in
  mkInterests (<[id := s]> subs)
    (match owned_ref s with Some ref => <[(subscriber s, ref) := id]> own | None => own end)
    bt bp bk bl un.

Definition add_subscription (g : RoomTrackTopology) (id : SubscriptionKey) (s : Subscription)
    : RoomTrackTopology :=
  let n := index_subscription (insert_subscription (interests g) id s) (selector s) id in
  add_subscription_reasons (mkRoomTopology (catalog g) n (reasons g)) id.

Definition subscribe (g : RoomTrackTopology) (id : SubscriptionKey) (p : ParticipantId)
    (s : TrackSelector) (policy : SelectionPolicy) : RoomTrackTopology :=
  add_subscription g id (mkSubscription id p s policy None).

Definition set_owned (g : RoomTrackTopology) (id : SubscriptionKey) (p : ParticipantId)
    (reference : Z) (t : TrackId) (enabled : bool) : RoomTrackTopology * bool :=
  let s := mkSubscription id p (selector_track t) (if enabled then All else Allocated)
             (Some reference) in
  match owned (interests g) !! (p, reference) with
  | Some previous =>
      match subscriptions (interests g) !! previous with
      | Some old =>
          if decide (selector old = selector_track t)
          then (add_subscription (unsubscribe g previous).1 id s, true) else (g, false)
      | None => (g, false)
      end
  | None => (add_subscription g id s, true)
  end.

Definition remove_owned (g : RoomTrackTopology) (p : ParticipantId) (reference : Z)
    : RoomTrackTopology * option Subscription :=
  match owned (interests g) !! (p, reference) with
  | None => (g, None)
  | Some id => unsubscribe g id
  end.

(** The first subscription found, in the order of iteration. *)
Definition remove_matching (g : RoomTrackTopology) (p : ParticipantId) (s : TrackSelector)
    : RoomTrackTopology * option Subscription :=
  let found : gset SubscriptionKey :=
    dom (filter (fun kv => owned_ref kv.2 = None /\ subscriber kv.2 = p /\ selector kv.2 = s)
           (subscriptions (interests g))) in
  match elements found with
  | [] => (g, None)
  | id :: _ => unsubscribe g id
  end.

Definition remove_participant (g : RoomTrackTopology) (p : ParticipantId) : RoomTrackTopology :=
  let g := remove_subscriber g p in
  let published : gset TrackId :=
    dom (filter (fun kv => track_origin (pub_track kv.2) = p) (tracks (catalog g))) in
  foldl remove_track g (elements published).

(** ** Invariants *)

Record cat_ok (c : Catalog) : Prop := mk_cat_ok {
  cat_id : forall t pub, tracks c !! t = Some pub ->
    track_id (pub_track pub) = t /\ pub_label pub = publication_label (pub_track pub);
  cat_publisher : forall p t, t ∈ at_key (by_publisher c) p <->
    exists pub, tracks c !! t = Some pub /\ track_origin (pub_track pub) = p;
  cat_kind : forall k t, t ∈ at_key (by_kind c) k <-> is_Some (tracks c !! t) /\ track_kind t = k;
  cat_label : forall l t, t ∈ at_key (by_label c) l <->
    exists pub, tracks c !! t = Some pub /\ pub_label pub = Some l;
}.

(** The subscriptions filed under an anchor. *)
Definition anchored (n : Interests) (a : SubscriptionAnchor) : gset SubscriptionKey :=
  match a with
  | AnchorTrack t => at_key (by_track n) t
  | AnchorPublisher p => at_key (by_subscriber_publisher n) p
  | AnchorLabel l => at_key (by_subscription_label n) l
  | AnchorKind k => at_key (by_subscription_kind n) k
  | AnchorAny => unconstrained n
  end.

Record int_ok (n : Interests) : Prop := mk_int_ok {
  int_anchor : forall a id, id ∈ anchored n a <->
    exists s, subscriptions n !! id = Some s /\ anchor (selector s) = a;
  int_owned : forall p ref id, owned n !! (p, ref) = Some id <->
    exists s, subscriptions n !! id = Some s /\ subscriber s = p /\ owned_ref s = Some ref;
}.

(** Subscription [s], live under [id], is [p]'s and selects the published [t]. *)
Definition wants (c : Catalog) (n : Interests) (id : SubscriptionKey) (s : Subscription)
    (p : ParticipantId) (t : TrackId) : Prop :=
  subscriptions n !! id = Some s /\ subscriber s = p /\
  exists pub, tracks c !! t = Some pub /\ matches (selector s) (pub_track pub) = true.

Record rea_ok (c : Catalog) (n : Interests) (r : Reasons) : Prop := mk_rea_ok {
  rea_candidate : forall p t id, id ∈ at_key (candidate_reasons r) (p, t) <->
    exists s, wants c n id s p t;
  rea_automatic : forall p t id, id ∈ at_key (automatic_reasons r) (p, t) <->
    exists s, wants c n id s p t /\ selection s = All;
  rea_candidate_index : index_ok (candidate_reasons r);
  rea_automatic_index : index_ok (automatic_reasons r);
  rea_allocated : forall p t, (p, t) ∈ allocated r ->
    exists id s, wants c n id s p t /\ selection s = Allocated;
}.

Record topo_ok (g : RoomTrackTopology) : Prop := mk_topo_ok {
  topo_catalog : cat_ok (catalog g);
  topo_interests : int_ok (interests g);
  topo_reasons : rea_ok (catalog g) (interests g) (reasons g);
}.

(** ** Matching through the indexes is matching *)

Lemma matches_spec s t :
  matches s t = true <->
  (forall x, sel_track s = Some x -> track_id t = x) /\
  (forall x, sel_publisher s = Some x -> track_origin t = x) /\
  (forall x, sel_kind s = Some x -> track_kind (track_id t) = x) /\
  (forall x, sel_label s = Some x -> publication_label t = Some x).
Proof.
  assert (forall A (o : option A) (P : A -> Prop) `{!forall a, Decision (P a)},
    is_none_or o (fun a => bool_decide (P a)) = true <-> forall x, o = Some x -> P x) as H.
  { intros A [a|] P HP; simpl.
    - rewrite bool_decide_eq_true. split; [by intros ? ? [= <-]|by auto].
    - split; [by intros _ ?|done]. }
  unfold matches. rewrite !andb_true_iff, !H. tauto.
Qed.

Lemma elem_selector_tracks c s t :
  cat_ok c ->
  (t ∈ selector_tracks c s <->
   exists pub, tracks c !! t = Some pub /\ matches s (pub_track pub) = true).
Proof.
  intros Hc. unfold selector_tracks. rewrite elem_of_filter. split.
  - intros [Hm _]. destruct (tracks c !! t) as [pub|]; [eauto|done].
  - intros (pub & Ht & Hm). rewrite Ht. split; [done|].
    destruct (cat_id _ Hc t pub Ht) as [Hid Hl]. apply matches_spec in Hm as (H1 & H2 & H3 & H4).
    destruct (sel_track s) as [x|]; [rewrite <- (H1 x), Hid by done; rewrite decide_True by eauto; set_solver|].
    destruct (sel_publisher s) as [x|]; [apply (cat_publisher _ Hc); eauto|].
    destruct (sel_label s) as [x|]; [apply (cat_label _ Hc); exists pub; split; [done|]; rewrite Hl; auto|].
    destruct (sel_kind s) as [x|]; [apply (cat_kind _ Hc); rewrite Ht, <- Hid; eauto|].
    apply elem_of_dom. eauto.
Qed.

(** A selector can only match tracks filed under its anchor. *)
Definition anchor_hits (a : SubscriptionAnchor) (pub : Publication) : Prop :=
  match a with
  | AnchorTrack t => track_id (pub_track pub) = t
  | AnchorPublisher p => track_origin (pub_track pub) = p
  | AnchorLabel l => publication_label (pub_track pub) = Some l
  | AnchorKind k => track_kind (track_id (pub_track pub)) = k
  | AnchorAny => True
  end.

Lemma matches_anchor s pub : matches s (pub_track pub) = true -> anchor_hits (anchor s) pub.
Proof.
  rewrite matches_spec. intros (H1 & H2 & H3 & H4). unfold anchor, anchor_hits.
  destruct (sel_track s), (sel_publisher s), (sel_label s), (sel_kind s); auto.
Qed.

Lemma elem_matching_keys c n t pub id :
  cat_ok c -> int_ok n -> tracks c !! t = Some pub ->
  (id ∈ matching_subscription_keys c n (from_track (pub_track pub)) <->
   exists s, subscriptions n !! id = Some s /\ matches (selector s) (pub_track pub) = true).
Proof.
  intros Hc Hn Ht. destruct (cat_id _ Hc t pub Ht) as [Hid Hl].
  unfold matching_subscription_keys. simpl. rewrite Hid, Ht, elem_of_filter. split.
  - intros [Hm _]. destruct (subscriptions n !! id) as [s|]; [eauto|done].
  - intros (s & Hs & Hm). rewrite Hs. split; [done|].
    pose proof (matches_anchor _ _ Hm) as Ha.
    assert (id ∈ anchored n (anchor (selector s))) as Hin by (apply (int_anchor _ Hn); eauto).
    rewrite !elem_of_union, Hl. destruct (anchor (selector s)); simpl in *; subst; try tauto.
    rewrite Ha. tauto.
Qed.

(** ** The catalogue *)

Lemma index_track_ok c t label :
  cat_ok c -> tracks c !! track_id t = None -> label = publication_label t ->
  let c1 := index_track c (from_track t) label in
  cat_ok (mkCatalog (<[track_id t := mkPublication t label]> (tracks c1)) (by_publisher c1)
            (by_kind c1) (by_label c1)).
Proof.
  intros Hc Hnone Hlab. split; simpl.
  - intros x pub. rewrite lookup_insert. case_decide; [intros [= <-]; subst; done|apply (cat_id _ Hc)].
  - intros p x. rewrite at_key_insert, (cat_publisher _ Hc), lookup_insert. case_decide; subst.
    + rewrite Hnone. split; [|intros (? & [= <-] & <-); by left]. intros [[-> _]|(? & ? & _)]; [eauto|done].
    + split; [intros [[_ ->]|?]; done|tauto].
  - intros k x. rewrite at_key_insert, (cat_kind _ Hc), lookup_insert. case_decide; subst.
    + rewrite Hnone. split; [|intros [_ <-]; by left]. intros [[-> _]|[[? ?] _]]; [eauto|done].
    + split; [intros [[_ ->]|?]; done|tauto].
  - intros l x. rewrite lookup_insert. destruct label as [l0|].
    + rewrite at_key_insert, (cat_label _ Hc). case_decide; subst.
      * rewrite Hnone. split; [|intros (? & [= <-] & [= <-]); by left].
        intros [[-> _]|(? & ? & _)]; [eauto|done].
      * split; [intros [[_ ->]|?]; done|tauto].
    + rewrite (cat_label _ Hc). case_decide; subst; [|done]. rewrite Hnone.
      split; [by intros (? & ? & _)|]. by intros (? & [= <-] & ?).
Qed.

Lemma unindex_track_ok c t pub i :
  cat_ok c -> tracks c !! t = Some pub -> i = from_track (pub_track pub) ->
  cat_ok (unindex_track (mkCatalog (delete t (tracks c)) (by_publisher c) (by_kind c) (by_label c))
            i (pub_label pub)).
Proof.
  intros Hc Ht ->. destruct (cat_id _ Hc t pub Ht) as [Hid Hl]. split; simpl; rewrite ?Hid.
  - intros x q. rewrite lookup_delete_Some. intros [_ ?]. by apply (cat_id _ Hc).
  - intros p x. rewrite at_key_remove, (cat_publisher _ Hc), lookup_delete. case_decide; subst.
    + split; [|by intros (? & ? & _)]. intros [(q & Hq & <-) Hne]. simplify_eq. by destruct Hne.
    + split; [tauto|]. intros Hx. split; [done|]. intros [_ ->]. done.
  - intros k x. rewrite at_key_remove, (cat_kind _ Hc), lookup_delete. case_decide; subst.
    + split; [|by intros [[? ?] _]]. intros [[_ <-] Hne]. by destruct Hne.
    + split; [tauto|]. intros Hx. split; [done|]. intros [_ ->]. done.
  - intros l x. rewrite lookup_delete. destruct (pub_label pub) as [l0|] eqn:El.
    + rewrite at_key_remove, (cat_label _ Hc). case_decide; subst.
      * split; [|by intros (? & ? & _)]. intros [(q & Hq & Hlq) Hne]. simplify_eq. by destruct Hne.
      * split; [tauto|]. intros Hx. split; [done|]. intros [_ ->]. done.
    + rewrite (cat_label _ Hc). case_decide; subst; [|done].
      split; [|by intros (? & ? & _)]. intros (q & Hq & Hlq). simplify_eq.
Qed.

(** ** The subscriptions *)

Lemma index_subscription_fields n s id :
  subscriptions (index_subscription n s id) = subscriptions n /\
  owned (index_subscription n s id) = owned n.
Proof. destruct n. simpl. by destruct (anchor s). Qed.

Lemma unindex_subscription_fields n s id :
  subscriptions (unindex_subscription n s id) = subscriptions n /\
  owned (unindex_subscription n s id) = owned n.
Proof. destruct n. simpl. by destruct (anchor s). Qed.

Lemma anchored_index n s id a id' :
  id' ∈ anchored (index_subscription n s id) a <-> (a = anchor s /\ id' = id) \/ id' ∈ anchored n a.
Proof.
  destruct n. simpl. destruct (anchor s), a; simpl; rewrite ?at_key_insert; try naive_solver.
  set_solver.
Qed.

Lemma anchored_unindex n s id a id' :
  id' ∈ anchored (unindex_subscription n s id) a <-> id' ∈ anchored n a /\ ~ (a = anchor s /\ id' = id).
Proof.
  destruct n. simpl. destruct (anchor s), a; simpl; rewrite ?at_key_remove; try naive_solver.
  set_solver.
Qed.

Lemma insert_subscription_ok n id s :
  int_ok n -> subscriptions n !! id = None ->
  (forall ref, owned_ref s = Some ref -> owned n !! (subscriber s, ref) = None) ->
  int_ok (index_subscription (insert_subscription n id s) (selector s) id).
Proof.
  intros Hn Hid Hown.
  destruct (index_subscription_fields (insert_subscription n id s) (selector s) id) as [Es Eo].
  assert (subscriptions (insert_subscription n id s) = <[id := s]> (subscriptions n)) as Es1 by by destruct n.
  assert (owned (insert_subscription n id s) = match owned_ref s with
    Some ref => <[(subscriber s, ref) := id]> (owned n) | None => owned n end) as Eo1 by by destruct n.
  rewrite Es1 in Es. rewrite Eo1 in Eo. split.
  - intros a id'. rewrite anchored_index, Es.
    assert (anchored (insert_subscription n id s) a = anchored n a) as -> by (destruct n; by destruct a).
    rewrite (int_anchor _ Hn), lookup_insert. case_decide; subst.
    + rewrite Hid. split; [|intros (? & [= <-] & <-); by left].
      intros [[-> _]|(? & ? & _)]; [eauto|done].
    + split; [intros [[_ ->]|?]; done|tauto].
  - intros p ref id'. rewrite Eo, Es, lookup_insert. case_decide as Hd; subst.
    + split.
      * intros Ho. exists s. split; [done|]. destruct (owned_ref s) as [ref0|].
        -- rewrite lookup_insert in Ho. case_decide as Hk; [by inv Hk|].
           apply (int_owned _ Hn) in Ho as (? & ? & _). congruence.
        -- apply (int_owned _ Hn) in Ho as (? & ? & _). congruence.
      * intros (? & [= <-] & <- & Hr). rewrite Hr. apply lookup_insert_eq.
    + rewrite <- (int_owned _ Hn). destruct (owned_ref s) as [ref0|]; [|done].
      rewrite lookup_insert. case_decide as Hk; [|done]. inv Hk. rewrite Hown by done.
      split; [congruence|done].
Qed.

Lemma forget_ok n id s :
  int_ok n -> subscriptions n !! id = Some s ->
  let n' := unindex_subscription (forget n s id) (selector s) id in
  int_ok n' /\ subscriptions n' = delete id (subscriptions n).
Proof.
  intros Hn Hid n'.
  destruct (unindex_subscription_fields (forget n s id) (selector s) id) as [Es Eo].
  assert (subscriptions (forget n s id) = delete id (subscriptions n)) as Es1 by by destruct n.
  assert (owned (forget n s id) = match owned_ref s with
    Some ref => delete (subscriber s, ref) (owned n) | None => owned n end) as Eo1 by by destruct n.
  rewrite Es1 in Es. rewrite Eo1 in Eo. fold n' in Es, Eo. split; [|done]. split.
  - intros a id'. rewrite (anchored_unindex (forget n s id) (selector s) id a id' : _ ∈ anchored n' a <-> _), Es.
    assert (anchored (forget n s id) a = anchored n a) as -> by (destruct n; by destruct a).
    rewrite (int_anchor _ Hn), lookup_delete. case_decide; subst.
    + split; [|by intros (? & ? & _)]. intros [(s' & Hs' & <-) Hne]. simplify_eq. by destruct Hne.
    + split; [tauto|]. intros Hx. split; [done|]. intros [_ ->]. done.
  - intros p ref id'. rewrite Eo, Es, lookup_delete. case_decide as Hd; subst.
    + split; [|by intros (? & ? & _)]. intros Ho. exfalso.
      destruct (owned_ref s) as [ref0|] eqn:Er.
      * rewrite lookup_delete in Ho. case_decide as Hk; [done|].
        apply (int_owned _ Hn) in Ho as (s' & Hs' & <- & Hr'). simplify_eq.
      * apply (int_owned _ Hn) in Ho as (s' & Hs' & _ & Hr'). simplify_eq.
    + rewrite <- (int_owned _ Hn). destruct (owned_ref s) as [ref0|] eqn:Er; [|done].
      rewrite lookup_delete. case_decide as Hk; [|done]. inv Hk. split; [done|]. intros Ho. exfalso.
      assert (owned n !! (subscriber s, ref) = Some id) as Ho' by (apply (int_owned _ Hn); eauto).
      congruence.
Qed.

(** ** The reasons *)

Lemma add_reasons_spec n l r :
  let r' := foldl (fun r '(t, id) => add_reason n r t id) r l in
  (forall p t id, id ∈ at_key (candidate_reasons r') (p, t) <->
     id ∈ at_key (candidate_reasons r) (p, t) \/
     ((t, id) ∈ l /\ exists s, subscriptions n !! id = Some s /\ subscriber s = p)) /\
  (forall p t id, id ∈ at_key (automatic_reasons r') (p, t) <->
     id ∈ at_key (automatic_reasons r) (p, t) \/
     ((t, id) ∈ l /\ exists s, subscriptions n !! id = Some s /\ subscriber s = p /\ selection s = All)) /\
  (index_ok (candidate_reasons r) -> index_ok (candidate_reasons r')) /\
  (index_ok (automatic_reasons r) -> index_ok (automatic_reasons r')) /\
  allocated r' = allocated r.
Proof.
  revert r. induction l as [|[t0 id0] l IH]; intros r; cbn [foldl].
  { split_and!; try done; intros; set_solver. }
  destruct (IH (add_reason n r t0 id0)) as (H1 & H2 & H3 & H4 & H5). clear IH.
  unfold add_reason in *. destruct (subscriptions n !! id0) as [s0|] eqn:E0; simpl in *.
  - split_and!; [| | | |done].
    + intros p t id. rewrite H1, at_key_insert, elem_of_cons. naive_solver.
    + intros p t id. rewrite H2, elem_of_cons. case_decide; [rewrite at_key_insert|]; naive_solver.
    + intros. by apply H3, insert_indexed_ok.
    + intros. apply H4. case_decide; [by apply insert_indexed_ok|done].
  - split_and!; try done.
    + intros p t id. rewrite H1, elem_of_cons. naive_solver.
    + intros p t id. rewrite H2, elem_of_cons. naive_solver.
Qed.

Lemma drop_reasons_spec n s id l r :
  subscriptions n !! id = None ->
  let r' := foldl (drop_reason n s id) r l in
  (forall p t id', id' ∈ at_key (candidate_reasons r') (p, t) <->
     id' ∈ at_key (candidate_reasons r) (p, t) /\ ~ (p = subscriber s /\ t ∈ l /\ id' = id)) /\
  (forall p t id', id' ∈ at_key (automatic_reasons r') (p, t) <->
     id' ∈ at_key (automatic_reasons r) (p, t) /\
     ~ (selection s = All /\ p = subscriber s /\ t ∈ l /\ id' = id)) /\
  (index_ok (candidate_reasons r) -> index_ok (candidate_reasons r')) /\
  (index_ok (automatic_reasons r) -> index_ok (automatic_reasons r')) /\
  (forall p t, (p, t) ∈ allocated r' <-> (p, t) ∈ allocated r /\
     (p = subscriber s -> t ∈ l -> exists id' s', id' ∈ at_key (candidate_reasons r) (p, t) /\
        subscriptions n !! id' = Some s' /\ selection s' = Allocated)).
Proof.
  intros Hid. revert r. induction l as [|t0 l IH]; intros r; cbn [foldl].
  { split_and!; try done; intros; set_solver. }
  destruct (IH (drop_reason n s id r t0)) as (H1 & H2 & H3 & H4 & H5). clear IH.
  unfold drop_reason in *. cbn [candidate_reasons automatic_reasons allocated] in *.
  assert (forall key id' s', subscriptions n !! id' = Some s' ->
    (id' ∈ at_key (remove_indexed (candidate_reasons r) (subscriber s, t0) id) key <->
     id' ∈ at_key (candidate_reasons r) key)) as Hother.
  { intros key id' s' Hs'. rewrite at_key_remove. split; [tauto|]. intros. split; [done|].
    intros [_ ->]. congruence. }
  split_and!.
  - intros p t id'. rewrite H1, at_key_remove, elem_of_cons. naive_solver.
  - intros p t id'. rewrite H2, elem_of_cons. case_decide; [rewrite at_key_remove|]; naive_solver.
  - intros. by apply H3, remove_indexed_ok.
  - intros. apply H4. case_decide; [by apply remove_indexed_ok|done].
  - intros p t. rewrite H5, elem_of_cons.
    assert ((p, t) ∈ (if allocated_candidate n (at_key (remove_indexed (candidate_reasons r)
        (subscriber s, t0) id) (subscriber s, t0)) then allocated r else allocated r ∖ {[(subscriber s, t0)]}) <->
      (p, t) ∈ allocated r /\ (p = subscriber s -> t = t0 -> exists id' s',
        id' ∈ at_key (candidate_reasons r) (p, t) /\ subscriptions n !! id' = Some s' /\
        selection s' = Allocated)) as Hstep.
    { unfold allocated_candidate. case_bool_decide as Hd.
      - split; [|tauto]. intros Ha. split; [done|]. intros -> ->.
        destruct Hd as (id' & Hin & Hsel). destruct (subscriptions n !! id') as [s'|] eqn:Es; [|done].
        simpl in Hsel. inv Hsel. exists id', s'. split_and!; [by eapply Hother|done|done].
      - rewrite elem_of_difference, elem_of_singleton. split.
        + intros [Ha Hne]. split; [done|]. intros -> ->. done.
        + intros [Ha Hex]. split; [done|]. intros [= -> ->].
          destruct (Hex eq_refl eq_refl) as (id' & s' & Hin & Hs' & Hsel). apply Hd. exists id'.
          split; [by eapply Hother|]. rewrite Hs'. simpl. by rewrite Hsel. }
    rewrite Hstep. clear Hstep. split.
    + intros [[Ha Hex] Hex2]. split; [done|]. intros Hp [Ht|Ht]; [by apply Hex|].
      destruct (Hex2 Hp Ht) as (id' & s' & Hin & Hs' & Hsel). exists id', s'.
      split_and!; [by eapply Hother|done|done].
    + intros [Ha Hex]. split; [split; [done|]|].
      * intros Hp Ht. apply Hex; [done|by left].
      * intros Hp Ht. destruct (Hex Hp (or_intror Ht)) as (id' & s' & Hin & Hs' & Hsel).
        exists id', s'. split_and!; [by eapply Hother|done|done].
Qed.

(** ** The operations keep the invariant *)

Lemma room_default_ok : topo_ok room_default.
Proof.
  split; split; simpl; try done; unfold at_key; intros; rewrite ?lookup_empty; simpl.
  all: try (split; [set_solver|naive_solver]).
  all: try set_solver.
  - destruct a; simpl; unfold at_key; rewrite ?lookup_empty; simpl; split; [set_solver|naive_solver|..];
      set_solver.
  - unfold wants. simpl. split; [set_solver|]. intros (? & ? & _). by rewrite lookup_empty in *.
  - unfold wants. simpl. split; [set_solver|]. intros (? & (? & _) & _). by rewrite lookup_empty in *.
Qed.

Lemma publish_ok g t : topo_ok g -> topo_ok (publish g t).1.
Proof.
  intros [Hc Hn Hr]. unfold publish. cbn [from_track anc_track].
  destruct (tracks (catalog g) !! track_id t) as [?|] eqn:Et; [by split|].
  pose proof (index_track_ok (catalog g) t _ Hc Et eq_refl) as Hc'.
  set (c' := mkCatalog _ _ _ _) in *. simpl in *. unfold add_publication_reasons. simpl.
  split; [done|done|]. cbn [catalog interests reasons].
  assert (tracks c' = <[track_id t := mkPublication t (publication_label t)]> (tracks (catalog g))) as Etr by done.
  set (ids := elements _).
  assert (forall id, id ∈ ids <-> exists s, subscriptions (interests g) !! id = Some s /\
    matches (selector s) t = true) as Hids.
  { intros id. subst ids. rewrite elem_of_elements.
    apply (elem_matching_keys c' (interests g) (track_id t) (mkPublication t (publication_label t))); try done.
    rewrite Etr. apply lookup_insert_eq. }
  rewrite <- (foldl_fmap (fun r '(t, id) => add_reason (interests g) r t id) _ ids (fun id => (track_id t, id))).
  destruct (add_reasons_spec (interests g) ((fun id => (track_id t, id)) <$> ids) (reasons g))
    as (H1 & H2 & H3 & H4 & H5).
  assert (forall x id, (x, id) ∈ (fun id => (track_id t, id)) <$> ids <-> x = track_id t /\ id ∈ ids) as Hpair.
  { intros x id. rewrite list_elem_of_fmap. naive_solver. }
  assert (forall id s p x, wants c' (interests g) id s p x <->
    wants (catalog g) (interests g) id s p x \/ (x = track_id t /\ subscriptions (interests g) !! id = Some s /\
      subscriber s = p /\ matches (selector s) t = true)) as Hw.
  { intros id s p x. unfold wants. rewrite Etr, lookup_insert. case_decide; subst; [rewrite Et|]; naive_solver. }
  split.
  - intros p x id. rewrite H1, (rea_candidate _ _ _ Hr), Hpair, Hids. setoid_rewrite Hw. naive_solver.
  - intros p x id. rewrite H2, (rea_automatic _ _ _ Hr), Hpair, Hids. setoid_rewrite Hw. naive_solver.
  - apply H3, Hr.
  - apply H4, Hr.
  - intros p x. rewrite H5. intros Ha. destruct (rea_allocated _ _ _ Hr p x Ha) as (id & s & Hs & Hsel).
    exists id, s. rewrite Hw. tauto.
Qed.

(** Forgetting a track that is taken out of the catalogue. *)
Lemma drop_track_ok g t pub i :
  topo_ok g -> tracks (catalog g) !! t = Some pub -> i = from_track (pub_track pub) ->
  topo_ok (mkRoomTopology (unindex_track (mkCatalog (delete t (tracks (catalog g)))
    (by_publisher (catalog g)) (by_kind (catalog g)) (by_label (catalog g))) i (pub_label pub))
    (interests g) (forget_track (reasons g) t)).
Proof.
  intros [Hc Hn Hr] Ht Hi. pose proof (unindex_track_ok _ _ _ _ Hc Ht Hi) as Hc'.
  set (c' := unindex_track _ _ _) in *. split; [done|done|].
  assert (forall id s p x, wants c' (interests g) id s p x <->
    wants (catalog g) (interests g) id s p x /\ x <> t) as Hw.
  { intros id s p x. unfold wants. change (tracks c') with (delete t (tracks (catalog g))).
    setoid_rewrite lookup_delete_Some. naive_solver. }
  unfold forget_track. split; cbn [reasons candidate_reasons automatic_reasons allocated catalog interests].
  - intros p x id.
    etransitivity; [exact (at_key_filter (candidate_reasons (reasons g)) (fun k => k.2 <> t) (p, x) id)|].
    rewrite (rea_candidate _ _ _ Hr). setoid_rewrite Hw. naive_solver.
  - intros p x id.
    etransitivity; [exact (at_key_filter (automatic_reasons (reasons g)) (fun k => k.2 <> t) (p, x) id)|].
    rewrite (rea_automatic _ _ _ Hr). setoid_rewrite Hw. naive_solver.
  - exact (index_ok_filter (candidate_reasons (reasons g)) (fun k => k.2 <> t) (rea_candidate_index _ _ _ Hr)).
  - exact (index_ok_filter (automatic_reasons (reasons g)) (fun k => k.2 <> t) (rea_automatic_index _ _ _ Hr)).
  - intros p x Ha. apply elem_of_filter in Ha as [Hx Ha]. simpl in Hx.
    destruct (rea_allocated _ _ _ Hr p x Ha) as (id & s & Hs & Hsel). exists id, s. by rewrite Hw.
Qed.

Lemma unpublish_ok g i :
  topo_ok g ->
  (forall pub, tracks (catalog g) !! anc_track i = Some pub -> from_track (pub_track pub) = i) ->
  topo_ok (unpublish g i).1.
Proof.
  intros Hg Hi. unfold unpublish. destruct (tracks (catalog g) !! anc_track i) as [pub|] eqn:Et; [|done].
  simpl. apply drop_track_ok; [done..|]. symmetry. by apply Hi.
Qed.

Lemma remove_track_ok g t : topo_ok g -> topo_ok (remove_track g t).
Proof.
  intros Hg. unfold remove_track. destruct (tracks (catalog g) !! t) as [pub|] eqn:Et; [|done].
  by apply drop_track_ok.
Qed.

Lemma add_subscription_ok g id s :
  topo_ok g -> subscriptions (interests g) !! id = None ->
  (forall ref, owned_ref s = Some ref -> owned (interests g) !! (subscriber s, ref) = None) ->
  topo_ok (add_subscription g id s).
Proof.
  intros [Hc Hn Hr] Hid Hown. unfold add_subscription.
  pose proof (insert_subscription_ok (interests g) id s Hn Hid Hown) as Hn'.
  set (n' := index_subscription _ _ _) in *.
  assert (subscriptions n' = <[id := s]> (subscriptions (interests g))) as En.
  { subst n'. rewrite (proj1 (index_subscription_fields _ _ _)). by destruct (interests g). }
  unfold add_subscription_reasons. cbn [interests catalog reasons].
  rewrite En, lookup_insert_eq. set (ts := elements _).
  assert (forall t, t ∈ ts <-> exists pub, tracks (catalog g) !! t = Some pub /\
    matches (selector s) (pub_track pub) = true) as Hts.
  { intros t. subst ts. rewrite elem_of_elements. by apply elem_selector_tracks. }
  rewrite <- (foldl_fmap (fun r '(t, id) => add_reason n' r t id) _ ts (fun t => (t, id))).
  destruct (add_reasons_spec n' ((fun t => (t, id)) <$> ts) (reasons g)) as (H1 & H2 & H3 & H4 & H5).
  assert (forall x id', (x, id') ∈ (fun t => (t, id)) <$> ts <-> x ∈ ts /\ id' = id) as Hpair.
  { intros x id'. rewrite list_elem_of_fmap. naive_solver. }
  assert (forall id' s' p x, wants (catalog g) n' id' s' p x <->
    (id' <> id /\ wants (catalog g) (interests g) id' s' p x) \/
    (id' = id /\ s' = s /\ subscriber s = p /\ x ∈ ts)) as Hw.
  { intros id' s' p x. unfold wants. rewrite Hts, En, lookup_insert. case_decide; naive_solver. }
  assert (forall s' p x, ~ wants (catalog g) (interests g) id s' p x) as Hnw.
  { intros s' p x (? & _). congruence. }
  split; [done|done|]. split; cbn [reasons catalog interests].
  - intros p x id'. rewrite H1, (rea_candidate _ _ _ Hr), Hpair. setoid_rewrite Hw. rewrite En.
    setoid_rewrite lookup_insert. destruct (decide (id = id')) as [<-|]; naive_solver.
  - intros p x id'. rewrite H2, (rea_automatic _ _ _ Hr), Hpair. setoid_rewrite Hw. rewrite En.
    setoid_rewrite lookup_insert. destruct (decide (id = id')) as [<-|]; naive_solver.
  - apply H3, Hr.
  - apply H4, Hr.
  - intros p x. rewrite H5. intros Ha. destruct (rea_allocated _ _ _ Hr p x Ha) as (id' & s' & Hs & Hsel).
    exists id', s'. rewrite Hw. split; [|done]. left. split; [|done]. intros ->. by eapply Hnw.
Qed.

Lemma unsubscribe_ok g id :
  topo_ok g -> topo_ok (unsubscribe g id).1 /\
  subscriptions (interests (unsubscribe g id).1) = delete id (subscriptions (interests g)) /\
  catalog (unsubscribe g id).1 = catalog g.
Proof.
  intros [Hc Hn Hr]. unfold unsubscribe.
  destruct (subscriptions (interests g) !! id) as [s|] eqn:Es; [|simpl; rewrite delete_id by done; by split; [split|]].
  destruct (forget_ok (interests g) id s Hn Es) as [Hn' En]. set (n' := unindex_subscription _ _ _) in *.
  simpl. split; [|done]. split; [done|done|]. cbn [reasons catalog interests].
  destruct (drop_reasons_spec n' s id (elements (selector_tracks (catalog g) (selector s))) (reasons g))
    as (H1 & H2 & H3 & H4 & H5); [by rewrite En, lookup_delete_eq|].
  assert (forall t, t ∈ elements (selector_tracks (catalog g) (selector s)) <->
    exists pub, tracks (catalog g) !! t = Some pub /\ matches (selector s) (pub_track pub) = true) as Hts.
  { intros t. rewrite elem_of_elements. by apply elem_selector_tracks. }
  assert (forall id' s' p x, wants (catalog g) n' id' s' p x <->
    wants (catalog g) (interests g) id' s' p x /\ id' <> id) as Hw.
  { intros id' s' p x. unfold wants. rewrite En, lookup_delete_Some. naive_solver. }
  assert (forall s' p x, wants (catalog g) (interests g) id s' p x ->
    s' = s /\ p = subscriber s /\ x ∈ elements (selector_tracks (catalog g) (selector s))) as Hid.
  { intros s' p x (E & <- & Hm). rewrite Es in E. inv E. by rewrite Hts. }
  split.
  - intros p x id'. rewrite H1, (rea_candidate _ _ _ Hr). setoid_rewrite Hw.
    destruct (decide (id' = id)) as [->|]; naive_solver.
  - intros p x id'. rewrite H2, (rea_automatic _ _ _ Hr). setoid_rewrite Hw.
    destruct (decide (id' = id)) as [->|]; naive_solver.
  - apply H3, Hr.
  - apply H4, Hr.
  - intros p x Ha. apply H5 in Ha as [Ha Hex].
    destruct (rea_allocated _ _ _ Hr p x Ha) as (id' & s' & Hs & Hsel).
    destruct (decide (id' = id)) as [->|]; [|exists id', s'; by rewrite Hw].
    destruct (Hid _ _ _ Hs) as (-> & Hp & Hx). destruct (Hex Hp Hx) as (id2 & s2 & Hin & Hs2 & Hsel2).
    apply (rea_candidate _ _ _ Hr) in Hin as (s3 & Hw3). exists id2, s3. rewrite Hw.
    destruct Hw3 as (E3 & ?). rewrite En in Hs2. apply lookup_delete_Some in Hs2 as [Hne E2].
    split; [|congruence]. split; [by split|done].
Qed.

(** Operations that only touch [allocated]. *)
Lemma set_allocated_ok g a :
  topo_ok g ->
  (forall p t, (p, t) ∈ a -> exists id s, wants (catalog g) (interests g) id s p t /\ selection s = Allocated) ->
  topo_ok (mkRoomTopology (catalog g) (interests g)
    (mkReasons (candidate_reasons (reasons g)) (automatic_reasons (reasons g)) a)).
Proof. intros [Hc Hn Hr] Ha. split; [done|done|]. split; simpl; try apply Hr. done. Qed.

Lemma allocated_candidate_spec g p t :
  topo_ok g ->
  (allocated_candidate (interests g) (at_key (candidate_reasons (reasons g)) (p, t)) = true <->
   exists id s, wants (catalog g) (interests g) id s p t /\ selection s = Allocated).
Proof.
  intros Hg. unfold allocated_candidate. rewrite bool_decide_eq_true. split.
  - intros (id & Hin & Hsel). apply (rea_candidate _ _ _ (topo_reasons _ Hg)) in Hin as (s & Hs).
    exists id, s. split; [done|]. destruct Hs as (E & _). rewrite E in Hsel. by inv Hsel.
  - intros (id & s & Hs & Hsel). exists id. split.
    + apply (rea_candidate _ _ _ (topo_reasons _ Hg)). eauto.
    + destruct Hs as (E & _). rewrite E. simpl. by rewrite Hsel.
Qed.

Lemma activate_ok g t p : topo_ok g -> topo_ok (activate g t p).1.
Proof.
  intros Hg. unfold activate. destruct (allocated_candidate _ _) eqn:E; [|done]. simpl.
  apply set_allocated_ok; [done|]. intros q x Ha. apply elem_of_union in Ha as [Ha|Ha].
  - apply elem_of_singleton in Ha. inv Ha. by apply allocated_candidate_spec.
  - by apply (rea_allocated _ _ _ (topo_reasons _ Hg)).
Qed.

Lemma deactivate_ok g t p : topo_ok g -> topo_ok (deactivate g t p).1.
Proof.
  intros Hg. apply set_allocated_ok; [done|]. intros q x Ha. apply elem_of_difference in Ha as [Ha _].
  by apply (rea_allocated _ _ _ (topo_reasons _ Hg)).
Qed.

Lemma unsubscribe_all_ok g ids :
  topo_ok g ->
  let g' := foldl (fun g id => (unsubscribe g id).1) g ids in
  topo_ok g' /\ catalog g' = catalog g /\
  forall id s, subscriptions (interests g') !! id = Some s <->
    subscriptions (interests g) !! id = Some s /\ id ∉ ids.
Proof.
  revert g. induction ids as [|id0 ids IH]; intros g Hg; simpl; [split_and!; [done..|set_solver]|].
  destruct (unsubscribe_ok g id0 Hg) as (Hg1 & Es & Ec). destruct (IH _ Hg1) as (H1 & H2 & H3).
  split_and!; [done|congruence|]. intros id s. rewrite H3, Es, lookup_delete_Some, elem_of_cons.
  naive_solver.
Qed.

Lemma remove_subscriber_ok g p :
  topo_ok g -> topo_ok (remove_subscriber g p) /\
  catalog (remove_subscriber g p) = catalog g /\
  (forall id s, subscriptions (interests (remove_subscriber g p)) !! id = Some s <->
     subscriptions (interests g) !! id = Some s /\ subscriber s <> p) /\
  forall t, (p, t) ∉ allocated (reasons (remove_subscriber g p)).
Proof.
  intros Hg. unfold remove_subscriber. set (ids := elements _).
  destruct (unsubscribe_all_ok g ids Hg) as (H1 & H2 & H3).
  set (g1 := foldl _ g ids) in *. split_and!; [|done| |].
  - apply set_allocated_ok; [done|]. intros q x Ha. apply elem_of_filter in Ha as [_ Ha].
    by apply (rea_allocated _ _ _ (topo_reasons _ H1)).
  - intros id s. simpl. rewrite H3. subst ids. rewrite elem_of_elements, elem_of_dom.
    split.
    + intros [Hs Hni]. split; [done|]. intros Hp. apply Hni. exists s.
      by apply map_lookup_filter_Some.
    + intros [Hs Hne]. split; [done|]. intros [s' Hs']. apply map_lookup_filter_Some in Hs' as [Hs' Hp].
      simpl in Hp. congruence.
  - intros t Ha. simpl in Ha. apply elem_of_filter in Ha as [Hne _]. done.
Qed.

Lemma remove_tracks_ok g ts :
  topo_ok g ->
  let g' := foldl remove_track g ts in
  topo_ok g' /\ interests g' = interests g /\
  (forall t pub, tracks (catalog g') !! t = Some pub <-> tracks (catalog g) !! t = Some pub /\ t ∉ ts) /\
  allocated (reasons g') ⊆ allocated (reasons g).
Proof.
  revert g. induction ts as [|t0 ts IH]; intros g Hg; simpl; [split_and!; [done..|set_solver|done]|].
  destruct (IH (remove_track g t0) (remove_track_ok g t0 Hg)) as (H1 & H2 & H3 & H4). clear IH.
  split_and!; [done| | |].
  - rewrite H2. unfold remove_track. by destruct (tracks (catalog g) !! t0).
  - intros t pub. rewrite H3, elem_of_cons. unfold remove_track.
    destruct (tracks (catalog g) !! t0) as [pub0|] eqn:E; simpl; [rewrite lookup_delete_Some; naive_solver|].
    split; [intros [? ?]; split; [done|]; intros [->|]; congruence|tauto].
  - etransitivity; [exact H4|]. unfold remove_track. destruct (tracks (catalog g) !! t0); simpl; [|done].
    intros x Hx. by apply elem_of_filter in Hx as [_ ?].
Qed.

Lemma set_owned_ok g id p ref t enabled :
  topo_ok g -> subscriptions (interests g) !! id = None -> topo_ok (set_owned g id p ref t enabled).1.
Proof.
  intros Hg Hid. unfold set_owned. destruct (owned (interests g) !! (p, ref)) as [prev|] eqn:Eo.
  - destruct (subscriptions (interests g) !! prev) as [old|] eqn:Ep; [|done]. case_decide; [|done]. simpl.
    destruct (unsubscribe_ok g prev Hg) as (Hg1 & Es & _). apply add_subscription_ok; [done| |].
    + rewrite Es. apply lookup_delete_None. by right.
    + simpl. intros ref' [= <-].
      destruct (owned (interests (unsubscribe g prev).1) !! (p, ref)) as [id'|] eqn:E'; [|done]. exfalso.
      apply (int_owned _ (topo_interests _ Hg1)) in E' as (s & Hs & Hp & Hr).
      rewrite Es in Hs. apply lookup_delete_Some in Hs as [Hne Hs].
      assert (owned (interests g) !! (p, ref) = Some id') by
        (apply (int_owned _ (topo_interests _ Hg)); eauto). congruence.
  - simpl. apply add_subscription_ok; [done..|]. simpl. by intros ref' [= <-].
Qed.

(** ** The room's topology as a transition system *)

Inductive topo_event :=
| EPublish (t : Track)
| EUnpublish (i : TrackAncestry)
| ESubscribe (id : SubscriptionKey) (p : ParticipantId) (s : TrackSelector) (policy : SelectionPolicy)
| ESetOwned (id : SubscriptionKey) (p : ParticipantId) (ref : Z) (t : TrackId) (enabled : bool)
| ERemoveOwned (p : ParticipantId) (ref : Z)
| ERemoveMatching (p : ParticipantId) (s : TrackSelector)
| EActivate (t : TrackId) (p : ParticipantId)
| EDeactivate (t : TrackId) (p : ParticipantId)
| ERemoveParticipant (p : ParticipantId).

Definition topo_exec (g : RoomTrackTopology) (e : topo_event) : RoomTrackTopology :=
  match e with
  | EPublish t => (publish g t).1
  | EUnpublish i => (unpublish g i).1
  | ESubscribe id p s policy => subscribe g id p s policy
  | ESetOwned id p ref t enabled => (set_owned g id p ref t enabled).1
  | ERemoveOwned p ref => (remove_owned g p ref).1
  | ERemoveMatching p s => (remove_matching g p s).1
  | EActivate t p => (activate g t p).1
  | EDeactivate t p => (deactivate g t p).1
  | ERemoveParticipant p => remove_participant g p
  end.

(** A new subscription gets a key that is not in use, and a track is taken out
    under the identity it was published with. *)
Definition enabled_event (g : RoomTrackTopology) (e : topo_event) : Prop :=
  match e with
  | EUnpublish i =>
      forall pub, tracks (catalog g) !! anc_track i = Some pub -> from_track (pub_track pub) = i
  | ESubscribe id _ _ _ | ESetOwned id _ _ _ _ => subscriptions (interests g) !! id = None
  | _ => True
  end.

Inductive topo_reach : RoomTrackTopology -> Prop :=
| topo_start : topo_reach room_default
| topo_step g e : topo_reach g -> enabled_event g e -> topo_reach (topo_exec g e).

Lemma topo_exec_ok g e : topo_ok g -> enabled_event g e -> topo_ok (topo_exec g e).
Proof.
  intros Hg He. destruct e; simpl in *.
  - by apply publish_ok.
  - by apply unpublish_ok.
  - by apply add_subscription_ok.
  - by apply set_owned_ok.
  - unfold remove_owned. case_match; [by apply unsubscribe_ok|done].
  - unfold remove_matching. case_match; [done|by apply unsubscribe_ok].
  - by apply activate_ok.
  - by apply deactivate_ok.
  - by apply remove_tracks_ok, remove_subscriber_ok.
Qed.

Lemma topo_reach_ok g : topo_reach g -> topo_ok g.
Proof. induction 1; [apply room_default_ok|by apply topo_exec_ok]. Qed.

Lemma elem_candidate_subscribers g p t :
  topo_ok g ->
  (p ∈ candidate_subscribers g t <-> exists id s, wants (catalog g) (interests g) id s p t).
Proof.
  intros Hg. unfold candidate_subscribers. rewrite elem_of_map. split.
  - intros ([q x] & -> & Hin). apply elem_of_filter in Hin as [Hx Hin]. simpl in *. subst x.
    apply elem_of_dom, index_ok_key in Hin as [id Hid]; [|apply (topo_reasons _ Hg)].
    apply (rea_candidate _ _ _ (topo_reasons _ Hg)) in Hid as [s Hs]. eauto.
  - intros (id & s & Hs). exists (p, t). split; [done|]. apply elem_of_filter. split; [done|].
    apply elem_of_dom, index_ok_key; [apply (topo_reasons _ Hg)|]. exists id.
    apply (rea_candidate _ _ _ (topo_reasons _ Hg)). eauto.
Qed.

(** ** Theorems *)

(** Looking up through the indexes is matching: in every reachable state
    the tracks found for a selector and the subscriptions found for a track
    are exactly those a full scan with [matches] would find. *)
Theorem indexed_matching_is_exact g :
  topo_reach g ->
  (forall s t, t ∈ selector_tracks (catalog g) s <->
     exists pub, tracks (catalog g) !! t = Some pub /\ matches s (pub_track pub) = true) /\
  (forall t pub id, tracks (catalog g) !! t = Some pub ->
     (id ∈ matching_subscription_keys (catalog g) (interests g) (from_track (pub_track pub)) <->
      exists s, subscriptions (interests g) !! id = Some s /\
        matches (selector s) (pub_track pub) = true)).
Proof.
  intros Hr. apply topo_reach_ok in Hr as [Hc Hn _]. split.
  - intros s t. by apply elem_selector_tracks.
  - intros t pub id Ht. by eapply elem_matching_keys.
Qed.

(** C1. Subscribers are exact: after any sequence of publications,
    subscriptions, activations and departures, a participant is a candidate
    for a track exactly when one of its live subscriptions matches it, and
    active exactly when an automatic subscription matches or the allocator
    activated it; an activation never outlives the last allocated
    subscription that justifies it. *)
Theorem subscribers_are_exact g p t :
  topo_reach g ->
  (p ∈ candidate_subscribers g t <-> exists id s, wants (catalog g) (interests g) id s p t) /\
  (p ∈ active_subscribers g t <->
     (exists id s, wants (catalog g) (interests g) id s p t /\ selection s = All) \/
     (p, t) ∈ allocated (reasons g)) /\
  ((p, t) ∈ allocated (reasons g) ->
     exists id s, wants (catalog g) (interests g) id s p t /\ selection s = Allocated).
Proof.
  intros Hr. apply topo_reach_ok in Hr as Hg. pose proof (topo_reasons _ Hg) as Hrea.
  split_and!; [by apply elem_candidate_subscribers| |apply Hrea].
  unfold active_subscribers. rewrite elem_of_filter, elem_candidate_subscribers by done.
  rewrite (index_ok_key (automatic_reasons (reasons g)) (p, t)) by apply Hrea.
  setoid_rewrite (rea_automatic _ _ _ Hrea p t). split; [tauto|].
  intros [(id & s & Hs & Hsel)|Ha].
  - split; [left|]; eauto.
  - split; [by right|]. destruct (rea_allocated _ _ _ Hrea p t Ha) as (id & s & Hs & _). eauto.
Qed.

(** A departed participant leaves nothing behind: no subscription, no
    track, no activation, and it is a candidate for no track; the
    subscriptions of the others survive. *)
Theorem removed_participant_leaves_nothing g p :
  topo_reach g ->
  let g' := remove_participant g p in
  (forall id s, subscriptions (interests g') !! id = Some s <->
     subscriptions (interests g) !! id = Some s /\ subscriber s <> p) /\
  (forall t pub, tracks (catalog g') !! t = Some pub <->
     tracks (catalog g) !! t = Some pub /\ track_origin (pub_track pub) <> p) /\
  (forall t, (p ∉ candidate_subscribers g' t) /\ ((p, t) ∉ allocated (reasons g'))).
Proof.
  intros Hr. apply topo_reach_ok in Hr as Hg. unfold remove_participant.
  destruct (remove_subscriber_ok g p Hg) as (Hg1 & Ec & Hsub & Hal).
  set (ts := elements _). destruct (remove_tracks_ok _ ts Hg1) as (Hg2 & En & Ht & Ha).
  assert (forall id s, subscriptions (interests (foldl remove_track (remove_subscriber g p) ts)) !! id = Some s <->
    subscriptions (interests g) !! id = Some s /\ subscriber s <> p) as Hs.
  { intros id s. rewrite En. apply Hsub. }
  split_and!; [done| |].
  - intros t pub. rewrite Ht, Ec. subst ts. rewrite elem_of_elements, elem_of_dom, Ec. split.
    + intros [Hpub Hni]. split; [done|]. intros Ho. apply Hni. exists pub. by apply map_lookup_filter_Some.
    + intros [Hpub Hne]. split; [done|]. intros [pub' Hp']. apply map_lookup_filter_Some in Hp' as [? Ho].
      simpl in Ho. congruence.
  - intros t. split.
    + rewrite elem_candidate_subscribers by done. intros (id & s & Hw & Hp & _).
      apply Hs in Hw as [_ Hne]. done.
    + intros Hin. by apply Ha, Hal in Hin.
Qed.

(** ** All rooms of the node: [TrackTopology] *)

Definition TrackTopology : Type := gmap RoomId RoomTrackTopology.

(** [self.rooms.entry(room_id).or_default()] and [self.rooms.get_mut(&room_id)] *)
Definition room_entry (T : TrackTopology) (room : RoomId) : RoomTrackTopology :=
  default room_default (T !! room).
Definition in_room {A} (T : TrackTopology) (room : RoomId) (missing : A)
    (f : RoomTrackTopology -> RoomTrackTopology * A) : TrackTopology * A :=
  match T !! room with
  | None => (T, missing)
  | Some g => let '(g', a) := f g in (<[room := g']> T, a)
  end.

Definition topology_publish (T : TrackTopology) (t : Track) : TrackTopology * option TrackAncestry :=
  let '(g, r) := publish (room_entry T (track_room t)) t in (<[track_room t := g]> T, r).
Definition topology_unpublish (T : TrackTopology) (i : TrackAncestry) : TrackTopology * option Track :=
  in_room T (anc_room i) None (fun g => unpublish g i).
Definition topology_subscribe (T : TrackTopology) (room : RoomId) (id : SubscriptionKey)
    (p : ParticipantId) (s : TrackSelector) (policy : SelectionPolicy) : TrackTopology * SubscriptionKey :=
  (<[room := subscribe (room_entry T room) id p s policy]> T, id).
Definition topology_set_owned (T : TrackTopology) (room : RoomId) (id : SubscriptionKey)
    (p : ParticipantId) (ref : Z) (t : TrackId) (enabled : bool) : TrackTopology * bool :=
  let '(g, r) := set_owned (room_entry T room) id p ref t enabled in (<[room := g]> T, r).
Definition topology_remove_owned (T : TrackTopology) (room : RoomId) (p : ParticipantId) (ref : Z) :=
  in_room T room None (fun g => remove_owned g p ref).
Definition topology_remove_matching (T : TrackTopology) (room : RoomId) (p : ParticipantId)
    (s : TrackSelector) := in_room T room None (fun g => remove_matching g p s).
Definition topology_activate (T : TrackTopology) (i : TrackAncestry) (p : ParticipantId) :=
  in_room T (anc_room i) false (fun g => activate g (anc_track i) p).
Definition topology_deactivate (T : TrackTopology) (i : TrackAncestry) (p : ParticipantId) :=
  in_room T (anc_room i) false (fun g => deactivate g (anc_track i) p).
Definition topology_remove_participant (T : TrackTopology) (p : ParticipantId) : TrackTopology :=
  (fun g => remove_participant g p) <$> T.

Definition source (T : TrackTopology) (room : RoomId) (t : TrackId) : option Track :=
  g ← T !! room; pub_track <$> tracks (catalog g) !! t.
Definition contains (T : TrackTopology) (i : TrackAncestry) : bool :=
  match T !! anc_room i with
  | Some g => bool_decide (is_Some (tracks (catalog g) !! anc_track i))
  | None => false
  end.

Definition topology_track (T : TrackTopology) (i : TrackAncestry) : option Track := source T (anc_room i) (anc_track i).

Definition with_body (b : Body) (t : Track) : Track := mkTrack (track_room t) (track_id t) (track_origin t) (publication_label t) b.

(** [track_mut(identity)], through which only the body changes. *)
Definition topology_put_body (T : TrackTopology) (i : TrackAncestry) (b : Body) : TrackTopology :=
  match T !! anc_room i with
  | None => T
  | Some g =>
      match tracks (catalog g) !! anc_track i with
      | None => T
      | Some publication =>
          let c := catalog g in
          <[anc_room i := mkRoomTopology
             (mkCatalog (<[anc_track i := mkPublication (with_body b (pub_track publication)) (pub_label publication)]> (tracks c))
                (by_publisher c) (by_kind c) (by_label c)) (interests g) (reasons g)]> T
      end
  end.

Definition topology_candidates (T : TrackTopology) (i : TrackAncestry) : gset ParticipantId :=
  match T !! anc_room i with Some g => candidate_subscribers g (anc_track i) | None => ∅ end.
Definition topology_active (T : TrackTopology) (i : TrackAncestry) : gset ParticipantId :=
  match T !! anc_room i with Some g => active_subscribers g (anc_track i) | None => ∅ end.

(** [room.identity(room_id, track)] *)
Definition identity (g : RoomTrackTopology) (room : RoomId) (t : TrackId) : option TrackAncestry :=
  (fun publication => mkAncestry room (track_origin (pub_track publication)) t) <$> tracks (catalog g) !! t.

Definition matching_tracks (T : TrackTopology) (room : RoomId) (s : TrackSelector) : list TrackAncestry :=
  match T !! room with
  | Some g => omap (identity g room) (elements (selector_tracks (catalog g) s))
  | None => []
  end.

Definition identities (T : TrackTopology) : list TrackAncestry :=
  map_to_list T ≫= fun '(room, g) => omap (identity g room) (map_to_list (tracks (catalog g))).*1.

Definition sources_in_room (T : TrackTopology) (room : RoomId) : list Track :=
  match T !! room with Some g => pub_track <$> (map_to_list (tracks (catalog g))).*2 | None => [] end.

(** Every room of the node keeps its invariant. *)
Definition topology_ok (T : TrackTopology) : Prop := map_Forall (fun _ g => topo_ok g) T.

Lemma room_entry_ok T room : topology_ok T -> topo_ok (room_entry T room).
Proof.
  intros HT. unfold room_entry. destruct (T !! room) eqn:E; [by apply HT in E|apply room_default_ok].
Qed.

Lemma in_room_ok {A} T room (missing : A) f :
  topology_ok T -> (forall g, T !! room = Some g -> topo_ok g -> topo_ok (f g).1) ->
  topology_ok (in_room T room missing f).1.
Proof.
  intros HT Hf. unfold in_room. destruct (T !! room) as [g|] eqn:E; [|done].
  specialize (Hf g eq_refl). destruct (f g) as [g' a]. simpl in *.
  apply map_Forall_insert_2; [|done]. apply Hf. by apply HT in E.
Qed.

Lemma topology_operations_ok T room id p s policy ref t b tr i :
  topology_ok T -> subscriptions (interests (room_entry T room)) !! id = None ->
  topology_ok (topology_publish T tr).1 /\ topology_ok (topology_subscribe T room id p s policy).1 /\
  topology_ok (topology_set_owned T room id p ref t b).1 /\
  topology_ok (topology_remove_owned T room p ref).1 /\
  topology_ok (topology_remove_matching T room p s).1 /\
  topology_ok (topology_activate T i p).1 /\ topology_ok (topology_deactivate T i p).1 /\
  topology_ok (topology_remove_participant T p).
Proof.
  intros HT Hid. pose proof (room_entry_ok T room HT) as Hroom.
  pose proof (room_entry_ok T (track_room tr) HT) as Hroom2. split_and!.
  - unfold topology_publish. pose proof (publish_ok _ tr Hroom2) as Hp.
    destruct (publish _ tr). by apply map_Forall_insert_2.
  - apply map_Forall_insert_2; [|done].
    exact (topo_exec_ok _ (ESubscribe id p s policy) Hroom Hid).
  - unfold topology_set_owned. pose proof (set_owned_ok _ id p ref t b Hroom Hid) as Hp.
    destruct (set_owned _ _ _ _ _ _). by apply map_Forall_insert_2.
  - apply in_room_ok; [done|]. intros g _ Hg. exact (topo_exec_ok g (ERemoveOwned p ref) Hg I).
  - apply in_room_ok; [done|]. intros g _ Hg. exact (topo_exec_ok g (ERemoveMatching p s) Hg I).
  - apply in_room_ok; [done|]. intros g _ Hg. by apply activate_ok.
  - apply in_room_ok; [done|]. intros g _ Hg. by apply deactivate_ok.
  - intros k g Hk. apply lookup_fmap_Some in Hk as (g0 & <- & Hk). apply HT in Hk.
    exact (topo_exec_ok g0 (ERemoveParticipant p) Hk I).
Qed.

(** *** What each operation leaves published *)

Lemma source_insert T room g : catalog g = catalog (room_entry T room) -> forall r t, source (<[room := g]> T) r t = source T r t.
Proof.
  intros Hc r t. unfold source, room_entry, TrackTopology in *. destruct (decide (r = room)) as [->|Hne]; [rewrite lookup_insert_eq|by rewrite lookup_insert_ne].
  cbn. rewrite Hc. destruct (T !! room); cbn; [done|]. by rewrite lookup_empty.
Qed.
Lemma source_in_room {A} T room (missing : A) f :
  (forall g, catalog (f g).1 = catalog g) -> forall r t, source (in_room T room missing f).1 r t = source T r t.
Proof.
  intros Hf r t. unfold in_room. destruct (T !! room) as [g|] eqn:HT; [|done]. specialize (Hf g). destruct (f g) as [g' a]. cbn in *.
  apply source_insert. unfold room_entry. by rewrite HT.
Qed.

Lemma unsubscribe_catalog g id : catalog (unsubscribe g id).1 = catalog g.
Proof. unfold unsubscribe. by case_match. Qed.
Lemma add_subscription_catalog g id s : catalog (add_subscription g id s) = catalog g.
Proof. unfold add_subscription, add_subscription_reasons. by case_match. Qed.
Lemma set_owned_catalog g id p ref t b : catalog (set_owned g id p ref t b).1 = catalog g.
Proof. unfold set_owned. repeat case_match; cbn; rewrite ?add_subscription_catalog, ?unsubscribe_catalog; done. Qed.
Lemma remove_owned_catalog g p ref : catalog (remove_owned g p ref).1 = catalog g.
Proof. unfold remove_owned. case_match; [apply unsubscribe_catalog|done]. Qed.
Lemma remove_matching_catalog g p s : catalog (remove_matching g p s).1 = catalog g.
Proof. unfold remove_matching. case_match; [done|apply unsubscribe_catalog]. Qed.
Lemma remove_subscriber_catalog g p : catalog (remove_subscriber g p) = catalog g.
Proof.
  unfold remove_subscriber. cbn. generalize (elements (dom (filter (fun kv : SubscriptionKey * Subscription => subscriber kv.2 = p) (subscriptions (interests g))) : gset SubscriptionKey)).
  intros ids. revert g. induction ids as [|id ids IH]; intros g; cbn; [done|]. by rewrite IH, unsubscribe_catalog.
Qed.

(** Operations on subscriptions publish and unpublish nothing. *)
Lemma source_subscriptions T room id p s policy ref t b i r x :
  source (topology_subscribe T room id p s policy).1 r x = source T r x /\
  source (topology_set_owned T room id p ref t b).1 r x = source T r x /\
  source (topology_remove_owned T room p ref).1 r x = source T r x /\
  source (topology_remove_matching T room p s).1 r x = source T r x /\
  source (topology_activate T i p).1 r x = source T r x /\ source (topology_deactivate T i p).1 r x = source T r x.
Proof.
  split_and!.
  - apply source_insert. apply add_subscription_catalog.
  - unfold topology_set_owned. pose proof (set_owned_catalog (room_entry T room) id p ref t b). destruct (set_owned _ _ _ _ _ _). by apply source_insert.
  - apply source_in_room. intros g. apply remove_owned_catalog.
  - apply source_in_room. intros g. apply remove_matching_catalog.
  - apply source_in_room. intros g. unfold activate. by case_match.
  - by apply source_in_room.
Qed.

Lemma source_publish T t r x :
  source (topology_publish T t).1 r x =
    match (topology_publish T t).2 with Some _ => if decide ((r, x) = (track_room t, track_id t)) then Some t else source T r x | None => source T r x end /\
  (forall i, (topology_publish T t).2 = Some i -> i = from_track t /\ source T (track_room t) (track_id t) = None).
Proof.
  unfold topology_publish, publish. cbn [from_track anc_track]. set (g := room_entry T (track_room t)). destruct (tracks (catalog g) !! track_id t) as [pub|] eqn:Ht; cbn [fst snd].
  - split; [|done]. by apply source_insert.
  - split; [|intros i [= <-]; split; [done|]; unfold source, g, room_entry, TrackTopology in *; destruct (T !! track_room t); cbn in *; [by rewrite Ht|done]]. unfold source, TrackTopology in *. destruct (decide (r = track_room t)) as [->|Hne].
    + rewrite lookup_insert_eq. cbn. destruct (decide (x = track_id t)) as [->|Hx]; [by rewrite lookup_insert_eq, decide_True|].
      rewrite lookup_insert_ne, decide_False by congruence. unfold g, room_entry, TrackTopology. destruct (T !! track_room t); cbn; [done|]. by rewrite lookup_empty.
    + rewrite lookup_insert_ne, decide_False by congruence. done.
Qed.

Lemma unpublish_tracks g i : tracks (catalog (unpublish g i).1) = delete (anc_track i) (tracks (catalog g)).
Proof. unfold unpublish. destruct (tracks (catalog g) !! anc_track i) eqn:Hi; [done|]. cbn. by rewrite delete_id. Qed.

Lemma source_unpublish T i r x :
  source (topology_unpublish T i).1 r x = if decide ((r, x) = (anc_room i, anc_track i)) then None else source T r x.
Proof.
  unfold topology_unpublish, in_room, source, TrackTopology in *. destruct (T !! anc_room i) as [g|] eqn:HT; [|cbn [fst]; case_decide as Hd; [injection Hd as -> ->; by rewrite HT|done]].
  pose proof (unpublish_tracks g i) as Htr. destruct (unpublish g i) as [g' t]. cbn [fst] in *. destruct (decide (r = anc_room i)) as [->|Hne].
  - rewrite lookup_insert_eq, HT. cbn. rewrite Htr. destruct (decide (x = anc_track i)) as [->|Hx].
    + by rewrite lookup_delete_eq, decide_True.
    + by rewrite lookup_delete_ne, decide_False by congruence.
  - by rewrite lookup_insert_ne, decide_False by congruence.
Qed.

Lemma remove_tracks_catalog g ts x :
  tracks (catalog (foldl remove_track g ts)) !! x = if decide (x ∈ ts) then None else tracks (catalog g) !! x.
Proof.
  revert g. induction ts as [|t ts IH]; intros g; cbn; [done|]. rewrite IH.
  assert (tracks (catalog (remove_track g t)) = delete t (tracks (catalog g))) as ->.
  { unfold remove_track. destruct (tracks (catalog g) !! t) eqn:Ht; [done|]. by rewrite delete_id. }
  destruct (decide (x = t)) as [->|Hne]; [rewrite lookup_delete_eq; repeat case_decide; set_solver|].
  rewrite lookup_delete_ne by done. repeat case_decide; (done || set_solver).
Qed.

Lemma source_remove_participant T p r x :
  source (topology_remove_participant T p) r x = (t ← source T r x; if decide (track_origin t = p) then None else Some t).
Proof.
  unfold source, topology_remove_participant, TrackTopology in *. rewrite lookup_fmap. destruct (T !! r) as [g|]; [|done]. cbn.
  unfold remove_participant. rewrite remove_tracks_catalog, remove_subscriber_catalog.
  destruct (tracks (catalog g) !! x) as [pub|] eqn:Hx; cbn; [|by case_decide]. case_decide as Hin.
  - apply elem_of_elements, elem_of_dom in Hin as [pub' Hp]. apply map_lookup_filter_Some in Hp as [Hp Ho]. cbn in Ho. rewrite Hx in Hp. injection Hp as <-. by rewrite decide_True.
  - rewrite decide_False; [done|]. intros Ho. apply Hin, elem_of_elements, elem_of_dom. exists pub. by apply map_lookup_filter_Some.
Qed.

Lemma source_put_body T i b r x :
  source (topology_put_body T i b) r x = if decide ((r, x) = (anc_room i, anc_track i)) then with_body b <$> source T r x else source T r x.
Proof.
  unfold topology_put_body, source, TrackTopology in *. destruct (T !! anc_room i) as [g|] eqn:HT; [|case_decide as Hd; [injection Hd as -> ->; by rewrite HT|done]].
  destruct (tracks (catalog g) !! anc_track i) as [pub|] eqn:Hi; [|case_decide as Hd; [injection Hd as -> ->; rewrite HT; cbn; by rewrite Hi|done]].
  destruct (decide (r = anc_room i)) as [->|Hne].
  - rewrite lookup_insert_eq, HT. cbn. destruct (decide (x = anc_track i)) as [->|Hx].
    + by rewrite lookup_insert_eq, Hi, decide_True.
    + by rewrite lookup_insert_ne, decide_False by congruence.
  - by rewrite lookup_insert_ne, decide_False by congruence.
Qed.

Lemma identity_spec g room t i : identity g room t = Some i <-> exists pub, tracks (catalog g) !! t = Some pub /\ i = mkAncestry room (track_origin (pub_track pub)) t.
Proof.
  unfold identity. destruct (tracks (catalog g) !! t) as [pub|]; cbn; split.
  - intros [= <-]. eauto.
  - by intros (pub' & [= <-] & ->).
  - done.
  - by intros (? & ? & _).
Qed.

Lemma elem_of_matching_tracks T room s i :
  i ∈ matching_tracks T room s -> exists t, source T room (anc_track i) = Some t /\ i = mkAncestry room (track_origin t) (anc_track i).
Proof.
  unfold matching_tracks, source, TrackTopology in *. destruct (T !! room) as [g|]; [|by intros ?%elem_of_nil].
  intros (t & _ & (pub & Ht & ->)%identity_spec)%list_elem_of_omap. cbn. rewrite Ht. eauto.
Qed.

Lemma elem_of_identities T i : i ∈ identities T <-> exists t, source T (anc_room i) (anc_track i) = Some t /\ track_origin t = anc_publisher i.
Proof.
  unfold identities, source, TrackTopology in *. rewrite list_elem_of_bind. split.
  - intros ([room g] & (t & _ & (pub & Ht & ->)%identity_spec)%list_elem_of_omap & HT%elem_of_map_to_list). cbn. rewrite HT. cbn. rewrite Ht. eauto.
  - intros (t & Ht & Ho). destruct (T !! anc_room i) as [g|] eqn:HT; [|done]. cbn in Ht. destruct (tracks (catalog g) !! anc_track i) as [pub|] eqn:Hp; [|done]. injection Ht as <-.
    exists (anc_room i, g). split; [|by apply elem_of_map_to_list]. apply list_elem_of_omap. exists (anc_track i). split.
    + apply list_elem_of_fmap. exists (anc_track i, pub). split; [done|by apply elem_of_map_to_list].
    + apply identity_spec. exists pub. split; [done|]. rewrite Ho. by destruct i.
Qed.

Lemma NoDup_identities T : NoDup (identities T).
Proof.
  unfold identities, TrackTopology in *. assert (forall room (g : RoomTrackTopology) ts, NoDup ts -> NoDup (omap (identity g room) ts)) as Hone.
  { intros room g ts. induction 1 as [|t ts Ht _ IH]; [constructor|]. cbn. destruct (identity g room t) as [i|] eqn:Hi; [|done]. constructor; [|done].
    intros (t' & Ht' & Hi')%list_elem_of_omap. apply identity_spec in Hi as (? & _ & ->). apply identity_spec in Hi' as (? & _ & E). injection E as _ <-. done. }
  apply NoDup_bind; [| |apply NoDup_map_to_list].
  - intros [r1 g1] [r2 g2] i H1%elem_of_map_to_list H2%elem_of_map_to_list (t1 & _ & (? & _ & ->)%identity_spec)%list_elem_of_omap (t2 & _ & (? & _ & E)%identity_spec)%list_elem_of_omap.
    injection E as <- _ _. congruence.
  - intros [r g] _. apply Hone, NoDup_fst_map_to_list.
Qed.
End Topology.

(** ** Placements: routes for the tracks of each shard *)

Section Placement.
Context {TrackId : Type}.

Record TrackPlacement := mkPlacement { placement_track : TrackId; placement_route : NodeRouteAddress }.

Definition placement_new (shard_count : nat) : list SlotAllocator :=
  (fun index => with_max_slots (Z.of_nat index) (saturating_add 32 PackedRoute.MAX_SLOT 1)) <$>
    seq 0 shard_count.

(** [None]: the shard is not configured, its slots are exhausted, or the pair
    does not pack. *)
Definition placement_allocate (routes : list SlotAllocator) (shard : ShardId) (t : TrackId) (now : Z)
    : option (list SlotAllocator * TrackPlacement) :=
  allocator ← routes !! Z.to_nat shard;
  '(allocator, (slot, epoch)) ← allocate allocator now;
  route ← route_new shard slot;
  Some (<[Z.to_nat shard := allocator]> routes, mkPlacement t (mkNodeRouteAddress route epoch)).

Definition placement_release (routes : list SlotAllocator) (placement : TrackPlacement) (now : Z)
    : list SlotAllocator :=
  let address := placement_route placement in
  let index := Z.to_nat (address_shard address) in
  match routes !! index with
  | None => routes
  | Some allocator => <[index := retire allocator (route_slot (address_route address)) now]> routes
  end.
End Placement.

(** ** Witnesses: two participants, an audio track and a default subscription *)

Definition demo_kind (t : Z) : TrackKind := if t <? 10 then Audio else Video.
Definition demo_track : Track (ParticipantId := Z) (RoomId := Z) (TrackId := Z) (Body := ()) := mkTrack 0 1 5 None ().
Definition demo_topology :
    RoomTrackTopology (ParticipantId := Z) (RoomId := Z) (TrackId := Z) (SubscriptionKey := Z) (Body := ()) :=
  topo_exec demo_kind (topo_exec demo_kind room_default (EPublish demo_track))
    (ESubscribe 100 6 (selector_kind Audio) All).

Lemma demo_reach : topo_reach demo_kind demo_topology.
Proof.
  apply topo_step; [|by vm_compute]. apply topo_step; [apply topo_start|done].
Qed.

Lemma indexed_matching_is_exact_witness :
  1 ∈ selector_tracks demo_kind (catalog demo_topology) (selector_kind Audio).
Proof.
  apply (proj1 (indexed_matching_is_exact demo_kind demo_topology demo_reach)).
  exists (mkPublication demo_track None). split; by vm_compute.
Defined.

Lemma subscribers_are_exact_witness : 6 ∈ active_subscribers demo_topology 1.
Proof.
  apply (subscribers_are_exact demo_kind demo_topology 6 1 demo_reach). left.
  exists 100, (mkSubscription 100 6 (selector_kind Audio) All None). split; [|done].
  split; [by vm_compute|]. split; [done|]. exists (mkPublication demo_track None).
  split; by vm_compute.
Defined.

Lemma removed_participant_leaves_nothing_witness :
  6 ∉ candidate_subscribers (remove_participant demo_kind demo_topology 6) 1.
Proof. apply (removed_participant_leaves_nothing demo_kind demo_topology 6 demo_reach). Defined.
