(* ===== verification/Framing.v ===== *)
(** * Frames in packets

    [pulsebeam-core/src/framing.rs]: an opaque frame is cut into packets and
    put together again from sequence numbers and start and end flags. A
    [BTreeMap] is its list of entries in key order. The walk over sequence
    numbers in [try_emit_earliest] has no bound of its own in the code: the
    model gives it fuel, [None] when it runs out, and the theorems say when it
    cannot. *)

From Stdlib Require Import Sorting.Sorted.
From S2P Require Import Prelude.

Record FrameChunk := mkChunk {
  chunk_data : list Z;
  chunk_start : bool;
  chunk_end : bool;
}.

Record ReassembledFrame := mkFrame { data : list Z; first_seq : Z; last_seq : Z }.

(** ** Packetizer *)

Definition packetizer_new (mtu : nat) : nat := Nat.max mtu 1.
Definition packet_count (mtu : nat) (frame : list Z) : nat :=
  Nat.max ((length frame + mtu - 1) / mtu) 1.

(** [frame.get(start..end).unwrap_or_default()] *)
Definition get_range (frame : list Z) (start end_ : nat) : list Z :=
  if decide (start <= end_ /\ end_ <= length frame)%nat then take (end_ - start) (drop start frame)
  else [].

Definition packetize (mtu : nat) (frame : list Z) : list FrameChunk :=
  let total := packet_count mtu frame in
  (fun i =>
     let start := (i * mtu)%nat in
     let end_ := Nat.min ((i + 1) * mtu) (length frame) in
     mkChunk (get_range frame start end_) (i =? 0)%nat (i =? total - 1)%nat) <$> seq 0 total.

(** ** Depacketizer *)

Record BufferedPacket := mkPacket {
  payload : list Z;
  start_of_frame : bool;
  end_of_frame : bool;
}.

Abbreviation parts_map := (list (Z * BufferedPacket)).

Record FrameDepacketizer := mkDepacketizer {
  parts : parts_map;
  newest : option Z;
  window : Z;
}.

Definition depacketizer_new (w : Z) : FrameDepacketizer := mkDepacketizer [] None (Z.max w 1).

(** [BTreeMap] operations *)
Fixpoint map_get (m : parts_map) (k : Z) : option BufferedPacket :=
  match m with
  | [] => None
  | (k', p) :: m' => if k =? k' then Some p else map_get m' k
  end.
Fixpoint map_insert (m : parts_map) (k : Z) (p : BufferedPacket) : parts_map :=
  match m with
  | [] => [(k, p)]
  | (k', p') :: m' =>
      if k <? k' then (k, p) :: (k', p') :: m'
      else if k =? k' then (k, p) :: m'
      else (k', p') :: map_insert m' k p
  end.
Definition map_remove (m : parts_map) (k : Z) : parts_map := filter (fun kp => kp.1 <> k) m.

(** [while let Some(oldest) = first { if oldest >= floor { break } remove }] *)
Fixpoint evict_below (m : parts_map) (floor : Z) : parts_map :=
  match m with
  | [] => []
  | (oldest, p) :: m' => if floor <=? oldest then m else evict_below m' floor
  end.

Definition evict_stale (d : FrameDepacketizer) : FrameDepacketizer :=
  match newest d with
  | None => d
  | Some n =>
      mkDepacketizer (evict_below (parts d) (saturating_sub n (window d))) (newest d) (window d)
  end.

(** The first entry, in key order, that starts a frame. *)
Fixpoint find_start (m : parts_map) : option Z :=
  match m with
  | [] => None
  | (k, p) :: m' => if start_of_frame p then Some k else find_start m'
  end.

(** The inclusive range [a..=b] of sequence numbers. *)
Definition seq_range (a b : Z) : list Z := seqZ a (b - a + 1).

(** How the walk from the start packet ends: a gap stalls it, an end packet
    completes the frame, or the fuel is gone. *)
Inductive walk_result := Stalled | Complete (last : Z) | OutOfFuel.

Fixpoint walk (fuel : nat) (m : parts_map) (seq : Z) : walk_result :=
  match fuel with
  | O => OutOfFuel
  | S fuel' =>
      match map_get m seq with
      | None => Stalled
      | Some p => if end_of_frame p then Complete seq else walk fuel' m (saturating_add 64 seq 1)
      end
  end.

(** [None]: the walk did not end within the fuel. *)
Definition try_emit_earliest (fuel : nat) (d : FrameDepacketizer)
    : option (FrameDepacketizer * option ReassembledFrame) :=
  match find_start (parts d) with
  | None => Some (d, None)
  | Some start =>
      match walk fuel (parts d) start with
      | OutOfFuel => None
      | Stalled => Some (d, None)
      | Complete last =>
          match mapM (map_get (parts d)) (seq_range start last) with
          | None => Some (d, None)
          | Some run =>
              let frame := mjoin (payload <$> run) in
              Some (mkDepacketizer (foldl map_remove (parts d) (seq_range start last)) (newest d)
                      (window d), Some (mkFrame frame start last))
          end
      end
  end.

(** One turn more than there are packets: a walk that ends visits each at most
    once. *)
Definition push (d : FrameDepacketizer) (seq : Z) (data : list Z) (s e : bool)
    : option (FrameDepacketizer * option ReassembledFrame) :=
  let d := mkDepacketizer (map_insert (parts d) seq (mkPacket data s e))
             (Some (match newest d with Some n => Z.max n seq | None => seq end)) (window d) in
  let d := evict_stale d in
  try_emit_earliest (S (length (parts d))) d.

(** Packets pushed one after the other, with what each push returned. *)
Fixpoint push_all (d : FrameDepacketizer) (ps : list (Z * FrameChunk))
    : option (FrameDepacketizer * list (option ReassembledFrame)) :=
  match ps with
  | [] => Some (d, [])
  | (seq, c) :: ps' =>
      '(d, r) ← push d seq (chunk_data c) (chunk_start c) (chunk_end c);
      '(d, rs) ← push_all d ps';
      Some (d, r :: rs)
  end.

(** ** Lemmas on the packetizer *)

Definition packetized (mtu : nat) (frame : list Z) (start : Z) : list (Z * FrameChunk) :=
  imap (fun i c => (start + Z.of_nat i, c)) (packetize mtu frame).

Lemma packetize_length mtu frame : length (packetize mtu frame) = packet_count mtu frame.
Proof. unfold packetize. by rewrite length_fmap, length_seq. Qed.

Lemma packetize_lookup mtu frame i :
  (i < packet_count mtu frame)%nat ->
  packetize mtu frame !! i =
    Some (mkChunk (get_range frame (i * mtu) (Nat.min ((i + 1) * mtu) (length frame)))
            (i =? 0)%nat (i =? packet_count mtu frame - 1)%nat).
Proof.
  intros Hi. unfold packetize. rewrite list_lookup_fmap, lookup_seq_lt by done. done.
Qed.

(** Chunk [i] is bytes [i * mtu] up to the next multiple or the end. *)
Lemma chunk_range mtu frame i :
  (0 < mtu)%nat -> (i < packet_count mtu frame)%nat ->
  get_range frame (i * mtu) (Nat.min ((i + 1) * mtu) (length frame)) = take mtu (drop (i * mtu) frame).
Proof.
  intros Hm Hi. unfold get_range.
  assert (i * mtu <= length frame)%nat as Hle.
  { unfold packet_count in Hi. destruct (decide (i = 0%nat)) as [->|Hne]; [lia|].
    assert (i <= (length frame + mtu - 1) / mtu - 1)%nat as Hi' by lia.
    pose proof (Nat.Div0.mul_div_le (length frame + mtu - 1) mtu). nia. }
  rewrite decide_True by lia. destruct (decide ((i + 1) * mtu <= length frame)%nat).
  - f_equal. lia.
  - rewrite !take_ge; [done|rewrite length_drop; nia|rewrite length_drop; nia].
Qed.

Lemma join_chunks mtu (frame : list Z) n i :
  (0 < mtu)%nat -> (length frame <= (i + n) * mtu)%nat ->
  mjoin ((fun j => take mtu (drop (j * mtu) frame)) <$> seq i n) = drop (i * mtu) frame.
Proof.
  intros Hm. revert i. induction n as [|n IH]; intros i Hl; simpl.
  - symmetry. apply drop_ge. lia.
  - rewrite IH by lia. replace (S i * mtu)%nat with (i * mtu + mtu)%nat by lia.
    rewrite <- drop_drop. apply take_drop.
Qed.

Lemma packet_count_covers mtu frame :
  (0 < mtu)%nat -> (length frame <= packet_count mtu frame * mtu)%nat.
Proof.
  intros Hm. unfold packet_count.
  pose proof (Nat.div_mod_eq (length frame + mtu - 1) mtu).
  pose proof (Nat.mod_upper_bound (length frame + mtu - 1) mtu ltac:(lia)). nia.
Qed.

Lemma packetize_join mtu frame :
  (0 < mtu)%nat -> mjoin (chunk_data <$> packetize mtu frame) = frame.
Proof.
  intros Hm. unfold packetize. rewrite <- list_fmap_compose.
  rewrite (list_fmap_ext _ (fun j => take mtu (drop (j * mtu) frame))).
  - rewrite join_chunks; [done|done|]. pose proof (packet_count_covers mtu frame Hm). lia.
  - intros i x Hx. apply lookup_seq in Hx as [-> Hi]. simpl. by apply chunk_range.
Qed.

(** ** The buffer as a map *)

Definition keys_sorted (m : parts_map) : Prop := StronglySorted Z.lt m.*1.

Lemma map_get_insert m k p k' :
  map_get (map_insert m k p) k' = if k' =? k then Some p else map_get m k'.
Proof.
  induction m as [|[k0 p0] m IH]; simpl; [done|].
  destruct (Z.ltb_spec k k0); simpl; [done|]. destruct (Z.eqb_spec k k0); simpl.
  - subst. by destruct (k' =? k0).
  - rewrite IH. destruct (Z.eqb_spec k' k0), (Z.eqb_spec k' k); try done. lia.
Qed.

Lemma map_insert_sorted m k p : keys_sorted m -> keys_sorted (map_insert m k p).
Proof.
  unfold keys_sorted. induction m as [|[k0 p0] m IH]; simpl; intros Hs; [by repeat constructor|].
  inversion Hs as [|? ? Hs' Hf]; subst. destruct (Z.ltb_spec k k0); simpl.
  - constructor; [done|]. constructor; [done|]. eapply Forall_impl; [exact Hf|]. intros; lia.
  - destruct (Z.eqb_spec k k0); simpl; [subst; by constructor|].
    constructor; [by apply IH|]. clear IH Hs Hs'. induction m as [|[k1 p1] m IHm]; simpl.
    + constructor; [lia|done].
    + inversion Hf; subst. destruct (Z.ltb_spec k k1); simpl; [constructor; [lia|done]|].
      destruct (Z.eqb_spec k k1); simpl; [constructor; [lia|done]|constructor; [done|by apply IHm]].
Qed.

Lemma sorted_get m k p : keys_sorted m -> ((k, p) ∈ m <-> map_get m k = Some p).
Proof.
  unfold keys_sorted. induction m as [|[k0 p0] m IH]; simpl; intros Hs; [split; [set_solver|done]|].
  inversion Hs as [|? ? Hs' Hf]; subst. rewrite elem_of_cons, IH by done.
  destruct (Z.eqb_spec k k0) as [->|Hne].
  - split; [|intros [= <-]; by left]. intros [[= <-]|Hg]; [done|]. exfalso. apply IH in Hg; [|done].
    rewrite Forall_forall in Hf. specialize (Hf k0 (list_elem_of_fmap_2 fst _ _ Hg)). lia.
  - split; [intros [[= -> _]|?]; done|by right].
Qed.

Lemma evict_keep m floor :
  (forall k p, map_get m k = Some p -> floor <= k) -> evict_below m floor = m.
Proof.
  destruct m as [|[k p] m]; simpl; [done|]. intros H.
  rewrite (proj2 (Z.leb_le _ _)); [done|]. apply (H k p). by rewrite Z.eqb_refl.
Qed.

Lemma evict_sorted m floor : keys_sorted m -> keys_sorted (evict_below m floor).
Proof.
  unfold keys_sorted. induction m as [|[k p] m IH]; simpl; intros Hs; [done|].
  destruct (floor <=? k); [done|]. apply IH. by inversion Hs.
Qed.

Lemma evict_get m floor k :
  keys_sorted m -> map_get (evict_below m floor) k = if floor <=? k then map_get m k else None.
Proof.
  unfold keys_sorted. induction m as [|[k0 p0] m IH]; simpl; intros Hs; [by destruct (floor <=? k)|].
  inversion Hs as [|? ? Hs' Hf]; subst. destruct (Z.leb_spec floor k0).
  - simpl. destruct (Z.leb_spec floor k); [done|]. destruct (Z.eqb_spec k k0); [lia|].
    destruct (map_get m k) eqn:E; [|done]. apply sorted_get in E; [|done].
    rewrite Forall_forall in Hf. specialize (Hf k (list_elem_of_fmap_2 fst _ _ E)). lia.
  - rewrite IH by done. destruct (Z.leb_spec floor k); [|done]. destruct (Z.eqb_spec k k0); [lia|done].
Qed.

Lemma map_remove_sorted m k : keys_sorted m -> keys_sorted (map_remove m k).
Proof.
  unfold keys_sorted, map_remove. induction m as [|[k0 p0] m IH]; simpl; intros Hs; [done|].
  inversion Hs as [|? ? Hs' Hf]; subst. rewrite filter_cons. case_decide; [|by apply IH].
  simpl. constructor; [by apply IH|]. rewrite Forall_forall in *. intros x Hx.
  apply list_elem_of_fmap in Hx as ([k1 p1] & -> & Hx). apply list_elem_of_filter in Hx as [_ Hx].
  apply Hf. by apply (list_elem_of_fmap_2 fst) in Hx.
Qed.

Lemma map_get_remove m k k' : map_get (map_remove m k) k' = if k' =? k then None else map_get m k'.
Proof.
  unfold map_remove. induction m as [|[k0 p0] m IH]; simpl; [by destruct (k' =? k)|].
  rewrite filter_cons. case_decide as Hd; simpl in *; rewrite IH.
  - destruct (Z.eqb_spec k' k0), (Z.eqb_spec k' k); try done. lia.
  - subst k0. by destruct (k' =? k).
Qed.

Lemma map_get_remove_all m ks k :
  map_get (foldl map_remove m ks) k = if bool_decide (k ∈ ks) then None else map_get m k.
Proof.
  revert m. induction ks as [|k0 ks IH]; intros m; [done|]. cbn [foldl].
  rewrite IH, map_get_remove. destruct (Z.eqb_spec k k0).
  - subst. rewrite (bool_decide_true (k0 ∈ k0 :: ks)) by set_solver. by case_bool_decide.
  - repeat case_bool_decide; set_solver.
Qed.

(** ** The walk *)

Lemma find_start_some m k :
  keys_sorted m -> find_start m = Some k ->
  (exists p, map_get m k = Some p /\ start_of_frame p = true) /\
  forall k' p', k' < k -> map_get m k' = Some p' -> start_of_frame p' = false.
Proof.
  unfold keys_sorted. induction m as [|[k0 p0] m IH]; simpl; intros Hs; [done|].
  inversion Hs as [|? ? Hs' Hf]; subst. destruct (start_of_frame p0) eqn:E.
  - intros [= ->]. rewrite Z.eqb_refl. split; [eauto|]. intros k' p' Hlt. rewrite (proj2 (Z.eqb_neq _ _)) by lia.
    intros Hg. apply sorted_get in Hg; [|done]. rewrite Forall_forall in Hf.
    specialize (Hf k' (list_elem_of_fmap_2 fst _ _ Hg)). lia.
  - intros H. destruct (IH Hs' H) as [(p & Hp & Hst) Hmin]. split.
    + exists p. destruct (Z.eqb_spec k k0); [|done]. subst. exfalso. apply sorted_get in Hp; [|done].
      rewrite Forall_forall in Hf. specialize (Hf k0 (list_elem_of_fmap_2 fst _ _ Hp)). lia.
    + intros k' p' Hlt. destruct (Z.eqb_spec k' k0); [by intros [= <-]|by apply Hmin].
Qed.

Lemma find_start_none m :
  keys_sorted m -> find_start m = None -> forall k p, map_get m k = Some p -> start_of_frame p = false.
Proof.
  intros Hs Hn k p Hg. apply sorted_get in Hg; [|done]. clear Hs.
  induction m as [|[k0 p0] m IH]; simpl in *; [set_solver|].
  destruct (start_of_frame p0) eqn:E; [done|]. apply elem_of_cons in Hg as [[= -> ->]|Hg]; auto.
Qed.

(** A completed walk found every sequence number up to the first end packet. *)
Lemma walk_complete fuel m seq last :
  fits 64 seq -> walk fuel m seq = Complete last ->
  seq <= last /\ fits 64 last /\ forall s, seq <= s <= last ->
    exists p, map_get m s = Some p /\ (end_of_frame p = true <-> s = last).
Proof.
  revert seq. induction fuel as [|fuel IH]; simpl; intros seq Hseq; [done|].
  destruct (map_get m seq) as [p|] eqn:Eg; [|done]. destruct (end_of_frame p) eqn:Ee.
  - intros [= <-]. split_and!; [lia|done|]. intros s Hs. assert (s = seq) as -> by lia.
    exists p. split; [done|]. split; [done|]. intros _. exact Ee.
  - unfold saturating_add. destruct (decide (seq = umax 64)) as [->|Hne].
    + rewrite Z.min_r by lia. intros H. apply IH in H as (Hle & Hf & Hall); [|done].
      destruct (Hall (umax 64)) as (p' & Hp' & Hiff); [lia|]. simplify_eq.
      assert (last = umax 64) by (unfold fits, umax in *; lia). subst. exfalso.
      assert (end_of_frame p = true) by by apply Hiff. congruence.
    + unfold fits, umax in *. rewrite Z.min_l by lia. intros H.
      apply IH in H as (Hle & Hf & Hall); [|lia]. split_and!; try lia. intros s Hs.
      destruct (decide (s = seq)) as [->|]; [|apply Hall; lia].
      exists p. split; [done|]. split; [congruence|lia].
Qed.

Definition keys_from (m : parts_map) (seq : Z) : nat := length (filter (fun kp => seq <= kp.1) m).

Lemma keys_from_step m seq :
  is_Some (map_get m seq) -> (S (keys_from m (seq + 1)) <= keys_from m seq)%nat.
Proof.
  unfold keys_from. induction m as [|[k p] m IH]; simpl; [by intros []|].
  rewrite !filter_cons. simpl. destruct (Z.eqb_spec seq k) as [->|Hne].
  - intros _. rewrite decide_False, decide_True by lia. simpl. clear IH.
    induction m as [|[k0 p0] m IHm]; simpl; [lia|]. rewrite !filter_cons. simpl.
    repeat case_decide; simpl in *; lia.
  - intros H. apply IH in H. repeat case_decide; simpl in *; lia.
Qed.

Lemma walk_fuel fuel m seq :
  (forall k p, map_get m k = Some p -> k < umax 64) ->
  walk fuel m seq = OutOfFuel -> (fuel <= keys_from m seq)%nat.
Proof.
  intros Hk. revert seq. induction fuel as [|fuel IH]; simpl; intros seq; [lia|].
  destruct (map_get m seq) as [p|] eqn:Eg; [|done]. destruct (end_of_frame p); [done|].
  unfold saturating_add. pose proof (Hk seq p Eg). rewrite Z.min_l by lia. intros H'.
  apply IH in H'. pose proof (keys_from_step m seq ltac:(eauto)). lia.
Qed.

Lemma walk_ends m seq :
  (forall k p, map_get m k = Some p -> k < umax 64) -> walk (S (length m)) m seq <> OutOfFuel.
Proof.
  intros Hk H. apply walk_fuel in H; [|done]. unfold keys_from in H.
  pose proof (length_filter (fun kp : Z * BufferedPacket => seq <= kp.1) m). lia.
Qed.

(** ** Pushing a packet *)

(** The depacketizer after the packet is buffered and stale ones are gone. *)
Definition buffered (d : FrameDepacketizer) (seq : Z) (bytes : list Z) (s e : bool) : FrameDepacketizer :=
  evict_stale (mkDepacketizer (map_insert (parts d) seq (mkPacket bytes s e))
    (Some (match newest d with Some n => Z.max n seq | None => seq end)) (window d)).

(** Keys in order, all below [bound]. *)
Definition buffer_ok (bound : Z) (d : FrameDepacketizer) : Prop :=
  keys_sorted (parts d) /\ forall k p, map_get (parts d) k = Some p -> 0 <= k < bound.

Lemma buffered_ok bound d seq bytes s e :
  buffer_ok bound d -> 0 <= seq < bound -> buffer_ok bound (buffered d seq bytes s e).
Proof.
  intros [Hs Hk] Hseq. unfold buffered, evict_stale. simpl. split; simpl.
  - by apply evict_sorted, map_insert_sorted.
  - intros k p. rewrite evict_get by by apply map_insert_sorted. destruct (_ <=? k); [|done].
    rewrite map_get_insert. destruct (Z.eqb_spec k seq); [by subst|apply Hk].
Qed.

Lemma seq_range_elem a b k : a <= b -> (k ∈ seq_range a b <-> a <= k <= b).
Proof. intros. unfold seq_range. rewrite elem_of_seqZ. lia. Qed.

Lemma mapM_run m (ks : list Z) :
  (forall k, k ∈ ks -> is_Some (map_get m k)) -> is_Some (mapM (map_get m) ks).
Proof. intros H. apply mapM_is_Some. by apply Forall_forall. Qed.

Lemma emit_spec bound d fuel d' r :
  buffer_ok bound d -> bound <= 2 ^ 64 -> try_emit_earliest fuel d = Some (d', r) ->
  match r with
  | None => d' = d
  | Some f =>
      find_start (parts d) = Some (first_seq f) /\ first_seq f <= last_seq f /\
      (exists run, mapM (map_get (parts d)) (seq_range (first_seq f) (last_seq f)) = Some run /\
         data f = mjoin (payload <$> run)) /\
      (forall k, first_seq f <= k <= last_seq f -> exists p, map_get (parts d) k = Some p /\
         (end_of_frame p = true <-> k = last_seq f)) /\
      (forall k, map_get (parts d') k =
         if bool_decide (first_seq f <= k <= last_seq f) then None else map_get (parts d) k)
  end /\ buffer_ok bound d'.
Proof.
  intros [Hs Hk] Hb. unfold try_emit_earliest. destruct (find_start (parts d)) as [start|] eqn:Ef.
  2:{ intros [= <- <-]. done. }
  destruct (walk fuel (parts d) start) as [|last|] eqn:Ew; [by intros [= <- <-]| |done].
  destruct (find_start_some _ _ Hs Ef) as [(p0 & Hp0 & _) _].
  destruct (walk_complete fuel (parts d) start last) as (Hle & Hf & Hall); [|done|].
  { apply Hk in Hp0. unfold fits. lia. }
  destruct (mapM_run (parts d) (seq_range start last)) as [run Hrun].
  { intros k Hin. apply seq_range_elem in Hin; [|done]. destruct (Hall k Hin) as (p & Hp & _). eauto. }
  rewrite Hrun. intros [= <- <-].
  assert (forall k, map_get (foldl map_remove (parts d) (seq_range start last)) k =
    if bool_decide (start <= k <= last) then None else map_get (parts d) k) as Hget.
  { intros k. rewrite map_get_remove_all.
    by rewrite (bool_decide_ext _ _ (seq_range_elem start last k Hle)). }
  split; [simpl; split_and!; eauto|]. split; simpl.
  - clear - Hs. revert Hs. generalize (parts d). induction (seq_range start last) as [|k ks IH]; simpl; [done|].
    intros m Hm. by apply IH, map_remove_sorted.
  - intros k p. rewrite Hget. case_bool_decide; [done|apply Hk].
Qed.

(** Below the last sequence number, a turn per buffered packet is enough. *)
Lemma emit_ends d : buffer_ok (umax 64) d -> exists d' r, try_emit_earliest (S (length (parts d))) d = Some (d', r).
Proof.
  intros [_ Hk]. destruct (try_emit_earliest _ d) as [[d' r]|] eqn:E; [eauto|]. exfalso.
  unfold try_emit_earliest in E. destruct (find_start _) as [start|]; [|done].
  destruct (walk _ _ start) eqn:Ew; try done; [by destruct (mapM _ _)|].
  apply walk_ends in Ew; [done|]. intros k p Hp. apply Hk in Hp. lia.
Qed.

(** ** Theorems *)

(** Frames are never torn: whatever packets arrive in whatever order, an
    emitted frame is the payloads of consecutive sequence numbers, the first
    of which starts a frame and is the earliest start buffered, the last of
    which and no other ends one, and exactly those packets leave the buffer. *)
Theorem emitted_frame_is_whole d seq bytes s e d' f :
  buffer_ok (2 ^ 64) d -> fits 64 seq -> push d seq bytes s e = Some (d', Some f) ->
  let m := parts (buffered d seq bytes s e) in
  find_start m = Some (first_seq f) /\
  (exists run, mapM (map_get m) (seq_range (first_seq f) (last_seq f)) = Some run /\
     data f = mjoin (payload <$> run)) /\
  (forall k, first_seq f <= k <= last_seq f -> exists p, map_get m k = Some p /\
     (end_of_frame p = true <-> k = last_seq f)) /\
  (forall k, map_get (parts d') k =
     if bool_decide (first_seq f <= k <= last_seq f) then None else map_get m k).
Proof.
  intros Hd Hseq Hpush. unfold push in Hpush. fold (buffered d seq bytes s e) in Hpush.
  pose proof (buffered_ok _ d seq bytes s e Hd Hseq) as Hb.
  destruct (emit_spec _ _ _ _ _ Hb ltac:(lia) Hpush) as [(H1 & _ & H2 & H3 & H4) _]. done.
Qed.

(** C34. Reassembly always terminates below the last sequence number, and keeps
    the buffer within it. *)
Theorem push_terminates d seq bytes s e :
  buffer_ok (umax 64) d -> 0 <= seq < umax 64 ->
  exists d' r, push d seq bytes s e = Some (d', r) /\ buffer_ok (umax 64) d'.
Proof.
  intros Hd Hseq. pose proof (buffered_ok _ d seq bytes s e Hd Hseq) as Hb.
  destruct (emit_ends _ Hb) as (d' & r & E). exists d', r. split; [exact E|]. eapply emit_spec; [exact Hb|done|exact E].
Qed.

(** C40. At the last sequence number the walk does not advance: a buffered
    packet that starts a frame there and does not end it keeps
    [try_emit_earliest] turning for ever. *)
Theorem walk_stuck_at_last_sequence_number bytes w fuel :
  try_emit_earliest fuel
    (mkDepacketizer [(umax 64, mkPacket bytes true false)] (Some (umax 64)) w) = None.
Proof.
  assert (walk fuel [(umax 64, mkPacket bytes true false)] (umax 64) = OutOfFuel) as H.
  { induction fuel as [|fuel IH]; [done|]. simpl. exact IH. }
  unfold try_emit_earliest. cbn [parts find_start start_of_frame]. by rewrite H.
Qed.

(** ** Round trip *)

Definition packet_of (c : FrameChunk) : BufferedPacket :=
  mkPacket (chunk_data c) (chunk_start c) (chunk_end c).

Lemma elem_packetized mtu frame start k c :
  (k, c) ∈ packetized mtu frame start <->
  exists i, k = start + Z.of_nat i /\ packetize mtu frame !! i = Some c.
Proof.
  unfold packetized. rewrite elem_of_lookup_imap. naive_solver.
Qed.

Lemma packetized_chunk mtu frame start k c :
  (k, c) ∈ packetized mtu frame start ->
  start <= k < start + Z.of_nat (packet_count mtu frame) /\
  (chunk_start c = true <-> k = start) /\
  (chunk_end c = true <-> k = start + Z.of_nat (packet_count mtu frame) - 1).
Proof.
  rewrite elem_packetized. intros (i & -> & Hi).
  assert (i < packet_count mtu frame)%nat as Hlt
    by (rewrite <- packetize_length; by eapply lookup_lt_Some).
  rewrite packetize_lookup in Hi by done. inv Hi. simpl. rewrite !Nat.eqb_eq. lia.
Qed.

Lemma packetized_functional mtu frame start k c c' :
  (k, c) ∈ packetized mtu frame start -> (k, c') ∈ packetized mtu frame start -> c = c'.
Proof.
  rewrite !elem_packetized. intros (i & -> & Hi) (j & Hj & Hj').
  assert (i = j) as <- by lia. congruence.
Qed.

Lemma packetized_nodup mtu frame start : NoDup (packetized mtu frame start).*1.
Proof.
  apply NoDup_alt. intros i j x Hi Hj. unfold packetized in *.
  rewrite list_lookup_fmap, list_lookup_imap in Hi, Hj.
  destruct (packetize mtu frame !! i), (packetize mtu frame !! j); simpl in *; try done.
  inv Hi. inv Hj. lia.
Qed.

Lemma walk_stalled fuel m seq :
  (forall k p, map_get m k = Some p -> k < umax 64) -> walk fuel m seq = Stalled ->
  exists s, seq <= s /\ map_get m s = None /\
    forall k, seq <= k < s -> exists p, map_get m k = Some p /\ end_of_frame p = false.
Proof.
  intros Hk. revert seq. induction fuel as [|fuel IH]; simpl; intros seq; [done|].
  destruct (map_get m seq) as [p|] eqn:Eg.
  - destruct (end_of_frame p) eqn:Ee; [done|]. unfold saturating_add.
    pose proof (Hk seq p Eg). rewrite Z.min_l by lia. intros Hw.
    apply IH in Hw as (s & Hs & Hn & Hall). exists s. split_and!; [lia|done|].
    intros k Hks. destruct (decide (k = seq)) as [->|]; [eauto|apply Hall; lia].
  - intros _. exists seq. split_and!; [lia|done|lia].
Qed.

Section RoundTrip.
Context (mtu : nat) (frame : list Z) (start w : Z).
Context (Hmtu : (0 < mtu)%nat) (Hstart : 0 <= start)
  (Hroom : start + Z.of_nat (packet_count mtu frame) <= umax 64)
  (Hwindow : Z.of_nat (packet_count mtu frame) - 1 <= w).
Let P := packetized mtu frame start.
Let last_ := start + Z.of_nat (packet_count mtu frame) - 1.

(** The buffer holds exactly the packets of [pushed]. *)
Record holds (d : FrameDepacketizer) (pushed : list (Z * FrameChunk)) : Prop := mk_holds {
  holds_sorted : keys_sorted (parts d);
  holds_packets : forall k p, map_get (parts d) k = Some p <->
    exists c, (k, c) ∈ pushed /\ p = packet_of c;
  holds_window : window d = w;
  holds_newest : forall n, newest d = Some n -> n <= last_;
}.

Lemma holds_buffered d pushed k c rest :
  holds d pushed -> pushed ++ (k, c) :: rest ≡ₚ P ->
  holds (buffered d k (chunk_data c) (chunk_start c) (chunk_end c)) (pushed ++ [(k, c)]).
Proof.
  intros [Hs Hp Hw Hn] Hperm.
  assert (forall x, x ∈ pushed ++ [(k, c)] -> x ∈ P) as Hin.
  { intros x Hx. rewrite <- Hperm. set_solver. }
  destruct (packetized_chunk mtu frame start k c) as [Hk _]; [apply Hin; set_solver|].
  set (m := map_insert (parts d) k (packet_of c)).
  assert (forall k' p, map_get m k' = Some p <-> exists c', (k', c') ∈ pushed ++ [(k, c)] /\ p = packet_of c') as Hm.
  { intros k' p. subst m. rewrite map_get_insert. destruct (Z.eqb_spec k' k) as [->|Hne].
    - split; [intros [= <-]; exists c; split; [set_solver|done]|].
      intros (c' & Hc' & ->). f_equal. f_equal.
      apply (packetized_functional mtu frame start k); apply Hin; set_solver.
    - rewrite Hp. split; intros (c' & Hc' & ->); exists c'; set_solver. }
  assert (buffered d k (chunk_data c) (chunk_start c) (chunk_end c) =
    mkDepacketizer m (Some (match newest d with Some n => Z.max n k | None => k end)) (window d)) as ->.
  { unfold buffered, evict_stale. cbn [newest parts window]. f_equal. apply evict_keep.
    intros k' p Hk'. apply Hm in Hk' as (c' & Hc' & _). apply Hin, packetized_chunk in Hc' as [Hc' _].
    assert ((match newest d with Some n => Z.max n k | None => k end) <= last_) as Hle.
    { destruct (newest d) as [n|]; [specialize (Hn n eq_refl)|]; unfold last_ in *; lia. }
    rewrite Hw. unfold saturating_sub, last_ in *. lia. }
  split; simpl; try done.
  - by apply map_insert_sorted.
  - intros n [= <-]. destruct (newest d) as [n|]; [specialize (Hn n eq_refl)|]; unfold last_ in *; lia.
Qed.

Lemma holds_buffer_ok d pushed :
  holds d pushed -> pushed ⊆ P -> buffer_ok (umax 64) d.
Proof.
  intros Hh Hin. split; [apply Hh|]. intros k p Hk. apply (holds_packets _ _ Hh) in Hk as (c & Hc & _).
  apply Hin, packetized_chunk in Hc as [? _]. lia.
Qed.

(** A frame that is emitted is the whole frame. *)
Lemma holds_start d pushed k :
  holds d pushed -> pushed ⊆ P -> find_start (parts d) = Some k -> k = start.
Proof.
  intros Hh Hin Hf. destruct (find_start_some _ _ (holds_sorted _ _ Hh) Hf) as [(p & Hp & Hst) _].
  apply (holds_packets _ _ Hh) in Hp as (c & Hc & ->).
  apply Hin, packetized_chunk in Hc as (_ & Hs & _). by apply Hs.
Qed.

Lemma holds_end d pushed k p :
  holds d pushed -> pushed ⊆ P -> map_get (parts d) k = Some p -> end_of_frame p = true -> k = last_.
Proof.
  intros Hh Hin Hp He. apply (holds_packets _ _ Hh) in Hp as (c & Hc & ->).
  apply Hin, packetized_chunk in Hc as (_ & _ & Hs). by apply Hs.
Qed.

(** An incomplete buffer emits nothing. *)
Lemma incomplete_emits_nothing d pushed x d' r fuel :
  holds d pushed -> pushed ++ [x] ⊆ P -> NoDup (pushed ++ [x]).*1 ->
  try_emit_earliest fuel d = Some (d', r) -> r = None /\ d' = d.
Proof.
  intros Hh Hin Hnd Hem. assert (pushed ⊆ P) as Hin' by set_solver.
  pose proof (holds_buffer_ok d pushed Hh Hin') as Hok.
  destruct (emit_spec (umax 64) d fuel d' r Hok ltac:(done) Hem) as [Hr _].
  destruct r as [f|]; [|done]. exfalso. destruct Hr as (Hf & Hle & _ & Hall & _).
  pose proof (holds_start _ _ _ Hh Hin' Hf) as E.
  destruct (Hall (last_seq f)) as (p & Hp & He); [lia|].
  pose proof (holds_end _ _ _ _ Hh Hin' Hp (proj2 He eq_refl)) as El.
  destruct x as [kx cx]. assert ((kx, cx) ∈ P) as Hx by (apply Hin; set_solver).
  destruct (packetized_chunk _ _ _ _ _ Hx) as [Hkx _].
  destruct (Hall kx) as (px & Hpx & _); [unfold last_ in *; lia|].
  apply (holds_packets _ _ Hh) in Hpx as (c' & Hc' & _).
  rewrite fmap_app in Hnd. apply NoDup_app in Hnd as (_ & Hd & _).
  apply (Hd kx); [by apply (list_elem_of_fmap_2 fst) in Hc'|simpl; set_solver].
Qed.

(** A complete buffer emits the frame. *)
Lemma complete_emits_frame d pushed :
  holds d pushed -> pushed ≡ₚ P ->
  exists d', try_emit_earliest (S (length (parts d))) d = Some (d', Some (mkFrame frame start last_)).
Proof.
  intros Hh Hperm. assert (pushed ⊆ P) as Hin by (intros x; by rewrite Hperm).
  pose proof (holds_buffer_ok d pushed Hh Hin) as Hok.
  assert (forall i c, packetize mtu frame !! i = Some c ->
    map_get (parts d) (start + Z.of_nat i) = Some (packet_of c)) as Hall.
  { intros i c Hi. apply (holds_packets _ _ Hh). exists c. split; [|done]. rewrite Hperm.
    apply elem_packetized. eauto. }
  assert (0 < packet_count mtu frame)%nat as Hpos by (unfold packet_count; lia).
  unfold try_emit_earliest. destruct (find_start (parts d)) as [k|] eqn:Ef.
  2:{ pose proof (packetize_lookup mtu frame 0 Hpos) as H0. apply Hall in H0.
      apply (find_start_none _ (holds_sorted _ _ Hh) Ef) in H0. done. }
  pose proof (holds_start _ _ _ Hh Hin Ef) as ->.
  assert (forall k p, map_get (parts d) k = Some p -> k < umax 64) as Hb by (intros k p Hk; apply Hok in Hk; lia).
  destruct (walk (S (length (parts d))) (parts d) start) as [|last|] eqn:Ew;
    [exfalso| |by apply walk_ends in Ew].
  { apply walk_stalled in Ew as (s & Hs & Hnone & Hrun); [|done].
    destruct (decide (s <= last_)) as [Hle|Hgt].
    - assert (Z.to_nat (s - start) < packet_count mtu frame)%nat as Hlt by (unfold last_ in *; lia).
      pose proof (packetize_lookup mtu frame _ Hlt) as Hc. apply Hall in Hc.
      replace (start + Z.of_nat (Z.to_nat (s - start))) with s in Hc by lia. congruence.
    - destruct (Hrun last_) as (p & Hp & He); [unfold last_ in *; lia|].
      assert (packet_count mtu frame - 1 < packet_count mtu frame)%nat as Hlt by lia.
      pose proof (packetize_lookup mtu frame _ Hlt) as Hc. apply Hall in Hc.
      replace (start + Z.of_nat (packet_count mtu frame - 1)) with last_ in Hc by (unfold last_; lia).
      rewrite Hc in Hp. inv Hp. simpl in He. by rewrite Nat.eqb_refl in He. }
  apply walk_complete in Ew as (Hle & _ & Hrun); [|unfold fits, umax in *; lia].
  destruct (Hrun last) as (p & Hp & He); [lia|].
  pose proof (holds_end _ _ _ _ Hh Hin Hp (proj2 He eq_refl)) as ->.
  assert (mapM (map_get (parts d)) (seq_range start last_) = Some (packet_of <$> packetize mtu frame)) as ->.
  { apply mapM_Some. apply Forall2_same_length_lookup. split.
    - rewrite length_fmap, packetize_length. unfold seq_range. rewrite length_seqZ. unfold last_. lia.
    - intros i s q Hs Hq. unfold seq_range in Hs. apply lookup_seqZ in Hs as [-> _].
      rewrite list_lookup_fmap in Hq. destruct (packetize mtu frame !! i) as [c|] eqn:Ec; [|done].
      simpl in Hq. inv Hq. by apply Hall. }
  eexists. do 4 f_equal. rewrite <- list_fmap_compose. by apply packetize_join.
Qed.

Lemma push_all_in_order pushed rest d :
  holds d pushed -> pushed ++ rest ≡ₚ P -> rest <> [] ->
  exists d' rs, push_all d rest = Some (d', rs ++ [Some (mkFrame frame start last_)]) /\
    Forall (eq None) rs.
Proof.
  revert pushed d. induction rest as [|[k c] rest IH]; intros pushed d Hh Hperm Hne; [done|]. clear Hne.
  pose proof (holds_buffered d pushed k c rest Hh Hperm) as Hb. simpl. unfold push.
  fold (buffered d k (chunk_data c) (chunk_start c) (chunk_end c)).
  set (d1 := buffered _ _ _ _ _) in *.
  assert ((pushed ++ [(k, c)]) ++ rest ≡ₚ P) as Hperm' by by rewrite <- app_assoc.
  destruct rest as [|x rest].
  - rewrite app_nil_r in Hperm'. destruct (complete_emits_frame d1 _ Hb Hperm') as [d' ->]. simpl.
    exists d', []. done.
  - assert (pushed ++ [(k, c)] ⊆ P) as Hsub by (intros y Hy; rewrite <- Hperm'; set_solver).
    destruct (emit_ends d1 (holds_buffer_ok d1 _ Hb Hsub)) as (d' & r & E). rewrite E.
    edestruct (incomplete_emits_nothing d1 (pushed ++ [(k, c)]) x d' r (S (length (parts d1))) Hb) as [-> ->]; [| |exact E|].
    + intros y Hy. rewrite <- Hperm'. set_solver.
    + pose proof (packetized_nodup mtu frame start) as Hnd. fold P in Hnd.
      rewrite <- Hperm' in Hnd. replace ((pushed ++ [(k, c)]) ++ x :: rest) with
        (((pushed ++ [(k, c)]) ++ [x]) ++ rest) in Hnd by (by rewrite <- !app_assoc).
      rewrite fmap_app in Hnd. by apply NoDup_app in Hnd as (? & _ & _).
    + cbn [mbind option_bind]. destruct (IH (pushed ++ [(k, c)]) d1 Hb Hperm') as (d'' & rs & -> & Hrs); [done|].
      simpl. exists d'', (None :: rs). split; [done|by constructor].
Qed.
End RoundTrip.

(** ** Frames wider than the window *)

Section TooWide.
Context (mtu : nat) (frame : list Z) (start w : Z).
Context (Hmtu : (0 < mtu)%nat) (Hstart : 0 <= start)
  (Hroom : start + Z.of_nat (packet_count mtu frame) <= umax 64)
  (Hwindow : 1 <= w < Z.of_nat (packet_count mtu frame) - 1).
Let P := packetized mtu frame start.

(** The buffer holds packets of the frame, none after the newest. *)
Record holds_some (d : FrameDepacketizer) : Prop := mk_holds_some {
  hs_sorted : keys_sorted (parts d);
  hs_packets : forall k p, map_get (parts d) k = Some p ->
    (exists n, newest d = Some n /\ k <= n) /\ exists c, (k, c) ∈ P /\ p = packet_of c;
  hs_window : window d = w;
}.

Lemma buffered_some d k c :
  holds_some d -> (k, c) ∈ P ->
  let d' := buffered d k (chunk_data c) (chunk_start c) (chunk_end c) in
  holds_some d' /\ forall k' p n, newest d' = Some n -> map_get (parts d') k' = Some p -> n - w <= k'.
Proof.
  intros [Hs Hp Hw] Hin. cbv zeta. unfold buffered, evict_stale. cbn [newest parts window].
  set (m := map_insert _ _ _). assert (keys_sorted m) as Hm by by apply map_insert_sorted.
  set (n := match newest d with Some n => Z.max n k | None => k end). split; [split; cbn [parts newest window]|]; try done.
  - by apply evict_sorted.
  - intros k' p. rewrite evict_get by done. destruct (_ <=? k'); [|done]. unfold m. rewrite map_get_insert.
    destruct (Z.eqb_spec k' k) as [->|Hne].
    + intros [= <-]. split; [|by exists c]. exists n. split; [done|]. unfold n. destruct (newest d); lia.
    + intros H. destruct (Hp _ _ H) as [(n0 & E & Hle) Hc]. split; [|done]. exists n. split; [done|]. unfold n. rewrite E. lia.
  - intros k' p n' [= <-]. rewrite evict_get by done. rewrite Hw. unfold saturating_sub. destruct (Z.leb_spec (Z.max 0 (n - w)) k'); [lia|done].
Qed.

Lemma wide_emits_nothing d k c :
  holds_some d -> (k, c) ∈ P -> exists d', push d k (chunk_data c) (chunk_start c) (chunk_end c) = Some (d', None) /\ holds_some d'.
Proof.
  intros Hd Hin. destruct (buffered_some d k c Hd Hin) as [Hb Hfloor].
  unfold push. fold (buffered d k (chunk_data c) (chunk_start c) (chunk_end c)). set (d1 := buffered _ _ _ _ _) in *.
  assert (buffer_ok (umax 64) d1) as Hok.
  { split; [apply (hs_sorted _ Hb)|]. intros k' p Hp. apply (hs_packets _ Hb) in Hp as (_ & c' & Hc' & _).
    apply packetized_chunk in Hc' as [? _]. lia. }
  destruct (emit_ends d1 Hok) as (d' & r & E). destruct (emit_spec _ _ _ _ _ Hok ltac:(done) E) as [Hr _]. rewrite E.
  destruct r as [f|]; [|subst d'; eauto]. exfalso. destruct Hr as (Hf & Hle & _ & Hall & _).
  destruct (find_start_some _ _ (hs_sorted _ Hb) Hf) as [(p1 & Hp1 & Hst) _]. destruct (Hall (last_seq f)) as (p2 & Hp2 & He); [lia|].
  destruct (hs_packets _ Hb _ _ Hp1) as (_ & c1 & Hc1 & ->). destruct (hs_packets _ Hb _ _ Hp2) as ((n & En & Hn) & c2 & Hc2 & ->).
  apply packetized_chunk in Hc1 as (_ & Hs1 & _). apply packetized_chunk in Hc2 as (_ & _ & Hs2).
  apply Hs1 in Hst. pose proof (proj1 Hs2 (proj2 He eq_refl)). pose proof (Hfloor _ _ _ En Hp1). lia.
Qed.

Lemma wide_push_all ps d : holds_some d -> ps ⊆ P -> exists d' rs, push_all d ps = Some (d', rs) /\ Forall (eq None) rs.
Proof.
  revert d. induction ps as [|[k c] ps IH]; intros d Hd Hin; [by exists d, []|].
  destruct (wide_emits_nothing d k c Hd ltac:(apply Hin; set_solver)) as (d1 & E & Hd1). cbn [push_all]. rewrite E. cbn [mbind option_bind].
  destruct (IH d1 Hd1 ltac:(set_solver)) as (d2 & rs & -> & Hrs). exists d2, (None :: rs). split; [done|by constructor].
Qed.
End TooWide.


(** ** Witnesses *)

Definition demo_frame : list Z := [1; 2; 3; 4; 5].

Lemma buffer_ok_new bound w : buffer_ok bound (depacketizer_new w).
Proof. split; [constructor|done]. Qed.

Lemma emitted_frame_is_whole_witness :
  exists d' f, push (depacketizer_new 4) 9 [7; 8] true true = Some (d', Some f) /\
    find_start (parts (buffered (depacketizer_new 4) 9 [7; 8] true true)) = Some (first_seq f).
Proof.
  destruct (push (depacketizer_new 4) 9 [7; 8] true true) as [[d' [f|]]|] eqn:E; [|by vm_compute in E..].
  exists d', f. split; [done|].
  apply (emitted_frame_is_whole _ 9 _ _ _ _ _ (buffer_ok_new _ 4) ltac:(done) E).
Defined.

Lemma push_terminates_witness :
  exists d' r, push (depacketizer_new 4) 9 [7; 8] true false = Some (d', r).
Proof.
  destruct (push_terminates (depacketizer_new 4) 9 [7; 8] true false (buffer_ok_new _ 4))
    as (d' & r & H & _); [done|eauto].
Defined.

