(* ===== verification/Ufrag.v ===== *)
(** * The ICE username fragment

    Models [crates/pulsebeam-steer/src/lib.rs] (the steering crate's transport
    route), [crates/pulsebeam-steer/src/ufrag.rs] (the ten-byte layout and its
    sixteen-character Crockford base32 text) in [Module steer], and the typed
    adapter of [crates/pulsebeam/src/control/ufrag.rs] in [Module control].
    Bytes are integers in [0, 256). A Rust [String] of ASCII characters is the
    list of its bytes. The theorems say that the text form is lossless and that
    decoding accepts nothing but the spellings of a valid fragment. *)

From S2P Require Import Prelude Route.
From Stdlib Require Import Ascii.
From Stdlib Require String.

Module steer.

(** ** [lib.rs]: [TransportRoute] *)

Record TransportRoute := mkRoute { bits : Z }.

#[export] Instance TransportRoute_eq_dec : EqDecision TransportRoute.
Proof. solve_decision. Defined.

Definition try_new_route (shard slot : Z) : option TransportRoute :=
  if (ROUTE_SLOT_MASK <? slot) || (ROUTE_SHARD_MASK <? shard) then None
  else Some (mkRoute (Z.lor (shl 32 shard ROUTE_SLOT_BITS) slot)).

Definition from_raw (b : Z) : TransportRoute := mkRoute b.
Definition shard (r : TransportRoute) : Z := wrap 16 (Z.shiftr (bits r) ROUTE_SLOT_BITS).
Definition slot (r : TransportRoute) : Z := Z.land (bits r) ROUTE_SLOT_MASK.
Definition get (r : TransportRoute) : Z := bits r.

(** ** [ufrag.rs]: the fragment and its layout *)

Definition VERSION : Z := 0.
Definition RAW_LEN : nat := 10.
Definition ENCODED_LEN : nat := 16.

Record IceUfrag := mkUfrag {
  cluster_id : Z;
  node_id : Z;
  transport : TransportRoute;
  epoch : Z;
}.

#[export] Instance IceUfrag_eq_dec : EqDecision IceUfrag.
Proof. solve_decision. Defined.

Inductive UfragError := InvalidCluster | BadEncoding | BadVersion.

#[export] Instance UfragError_eq_dec : EqDecision UfragError.
Proof. solve_decision. Defined.

(** [None]: the cluster assertion fails. *)
Definition new (cluster node : Z) (t : TransportRoute) (e : Z) : option IceUfrag :=
  if cluster <=? 0xFFF then Some (mkUfrag cluster node t e) else None.

Definition try_new (cluster node : Z) (t : TransportRoute) (e : Z) : result UfragError IceUfrag :=
  if 0xFFF <? cluster then Err InvalidCluster else Ok (mkUfrag cluster node t e).

(** The [i]-th byte of an array literal's source, as [to_be_bytes()[i]]. *)
Definition byte_at (l : list Z) (i : nat) : Z := nth i l 0.

Definition encode_raw (u : IceUfrag) : list Z :=
  let cluster_bytes := be_encode 2 (cluster_id u) in
  let node_bytes := be_encode 2 (node_id u) in
  let route_bytes := be_encode 4 (get (transport u)) in
  let epoch_bytes := be_encode 2 (epoch u) in
  [ Z.lor (shl 8 VERSION 4) (Z.land (byte_at cluster_bytes 0) 0x0F);
    byte_at cluster_bytes 1;
    byte_at node_bytes 0; byte_at node_bytes 1;
    byte_at route_bytes 0; byte_at route_bytes 1; byte_at route_bytes 2; byte_at route_bytes 3;
    byte_at epoch_bytes 0; byte_at epoch_bytes 1 ].

(** The function takes an array of ten bytes; other lengths cannot be passed. *)
Definition decode_raw_detailed (raw : list Z) : result UfragError IceUfrag :=
  match raw with
  | [c_hi; c_lo; n0; n1; r0; r1; r2; r3; e0; e1] =>
      if negb (Z.shiftr c_hi 4 =? VERSION) then Err BadVersion
      else
        let cluster := Z.lor (shl 16 (Z.land c_hi 0x0F) 8) c_lo in
        Ok (mkUfrag cluster (be_decode [n0; n1]) (from_raw (be_decode [r0; r1; r2; r3]))
              (be_decode [e0; e1]))
  | _ => Err BadEncoding
  end.

(** ** Crockford base32 *)

Definition CROCKFORD_ALPHABET : list ascii :=
  String.list_ascii_of_string "0123456789ABCDEFGHJKMNPQRSTVWXYZ".

Definition byte_of (c : ascii) : Z := Z.of_N (N_of_ascii c).
Definition char_of (b : Z) : ascii := ascii_of_N (Z.to_N b).

Definition crockford_char (value : Z) : Z :=
  byte_of (nth (Z.to_nat (Z.land value 0x1F)) CROCKFORD_ALPHABET zero).

(** The arms of [crockford_value] in order: row [v] lists the characters read as
    the digit [v]. *)
Definition CROCKFORD_ARMS : list (list ascii) :=
  map String.list_ascii_of_string
    ["0Oo"; "1IiLl"; "2"; "3"; "4"; "5"; "6"; "7"; "8"; "9"; "Aa"; "Bb"; "Cc"; "Dd"; "Ee"; "Ff";
     "Gg"; "Hh"; "Jj"; "Kk"; "Mm"; "Nn"; "Pp"; "Qq"; "Rr"; "Ss"; "Tt"; "Vv"; "Ww"; "Xx"; "Yy"; "Zz"]%string.

Definition crockford_value (c : Z) : option Z :=
  (fun '(v, _) => Z.of_nat v) <$> list_find (fun arm => char_of c ∈ arm) CROCKFORD_ARMS.

#[global] Arguments crockford_value : simpl never.

Definition encode_chunk (b0 b1 b2 b3 b4 : Z) : list Z :=
  [ crockford_char (Z.shiftr b0 3);
    crockford_char (Z.lor (shl 8 (Z.land b0 0x07) 2) (Z.shiftr b1 6));
    crockford_char (Z.land (Z.shiftr b1 1) 0x1F);
    crockford_char (Z.lor (shl 8 (Z.land b1 0x01) 4) (Z.shiftr b2 4));
    crockford_char (Z.lor (shl 8 (Z.land b2 0x0F) 1) (Z.shiftr b3 7));
    crockford_char (Z.land (Z.shiftr b3 2) 0x1F);
    crockford_char (Z.lor (shl 8 (Z.land b3 0x03) 3) (Z.shiftr b4 5));
    crockford_char (Z.land b4 0x1F) ].

Definition decode_chunk (v0 v1 v2 v3 v4 v5 v6 v7 : Z) : list Z :=
  [ Z.lor (shl 8 v0 3) (Z.shiftr v1 2);
    Z.lor (Z.lor (shl 8 v1 6) (shl 8 v2 1)) (Z.shiftr v3 4);
    Z.lor (shl 8 v3 4) (Z.shiftr v4 1);
    Z.lor (Z.lor (shl 8 v4 7) (shl 8 v5 2)) (Z.shiftr v6 3);
    Z.lor (shl 8 v6 5) v7 ].

(** The array patterns are irrefutable on arrays of the declared length. *)
Definition encode_ascii_raw_bytes (raw : list Z) : list Z :=
  match raw with
  | [b0; b1; b2; b3; b4; b5; b6; b7; b8; b9] =>
      encode_chunk b0 b1 b2 b3 b4 ++ encode_chunk b5 b6 b7 b8 b9
  | _ => []
  end.

Definition decode_ascii_detailed (s : list Z) : result UfragError IceUfrag :=
  match s with
  | [c0; c1; c2; c3; c4; c5; c6; c7; c8; c9; c10; c11; c12; c13; c14; c15] =>
      v0 ← ok_or (crockford_value c0) BadEncoding;
      v1 ← ok_or (crockford_value c1) BadEncoding;
      v2 ← ok_or (crockford_value c2) BadEncoding;
      v3 ← ok_or (crockford_value c3) BadEncoding;
      v4 ← ok_or (crockford_value c4) BadEncoding;
      v5 ← ok_or (crockford_value c5) BadEncoding;
      v6 ← ok_or (crockford_value c6) BadEncoding;
      v7 ← ok_or (crockford_value c7) BadEncoding;
      v8 ← ok_or (crockford_value c8) BadEncoding;
      v9 ← ok_or (crockford_value c9) BadEncoding;
      v10 ← ok_or (crockford_value c10) BadEncoding;
      v11 ← ok_or (crockford_value c11) BadEncoding;
      v12 ← ok_or (crockford_value c12) BadEncoding;
      v13 ← ok_or (crockford_value c13) BadEncoding;
      v14 ← ok_or (crockford_value c14) BadEncoding;
      v15 ← ok_or (crockford_value c15) BadEncoding;
      decode_raw_detailed (decode_chunk v0 v1 v2 v3 v4 v5 v6 v7 ++
                           decode_chunk v8 v9 v10 v11 v12 v13 v14 v15)
  | _ => Err BadEncoding
  end.

Definition encode_ascii (u : IceUfrag) : list Z := encode_ascii_raw_bytes (encode_raw u).

Definition ok {E A} (r : result E A) : option A :=
  match r with Ok a => Some a | Err _ => None end.

Definition decode_raw (raw : list Z) : option IceUfrag :=
  if decide (length raw = RAW_LEN) then ok (decode_raw_detailed raw) else None.
Definition decode_ascii (s : list Z) : option IceUfrag := ok (decode_ascii_detailed s).

(** The ranges of the field types. *)
Definition ufrag_wf (u : IceUfrag) : Prop :=
  fits 12 (cluster_id u) /\ fits 16 (node_id u) /\ fits 32 (bits (transport u)) /\ fits 16 (epoch u).

End steer.

Module control.

Record IceUfrag := mkIceUfrag {
  cluster_id : Z;
  node_id : Z;
  transport : TransportRoute;
  epoch : Z;
}.

(** [None]: the cluster assertion fails. *)
Definition new (cluster node : Z) (t : TransportRoute) (e : Z) : option IceUfrag :=
  if cluster <? 4096 then Some (mkIceUfrag cluster node t e) else None.

Definition node_address (u : IceUfrag) : NodeTransportAddress :=
  mkNodeTransportAddress (transport u) (epoch u).

Definition to_shared (u : IceUfrag) : option steer.IceUfrag :=
  steer.new (cluster_id u) (node_id u) (steer.from_raw (route_get (transport u))) (epoch u).

Definition from_shared (s : steer.IceUfrag) : IceUfrag :=
  mkIceUfrag (steer.cluster_id s) (steer.node_id s)
    (route_from_raw (steer.get (steer.transport s))) (steer.epoch s).

Definition encode (u : IceUfrag) : option (list Z) := steer.encode_ascii <$> to_shared u.
Definition decode (s : list Z) : option IceUfrag := from_shared <$> steer.decode_ascii s.

End control.

Import steer.

(** ** Base32 arithmetic *)

Lemma lor_shl_add w a b n :
  0 <= n <= w -> 0 <= b < 2 ^ n -> Z.lor (shl w a n) b = (a `mod` 2 ^ (w - n)) * 2 ^ n + b.
Proof.
  intros Hn Hb. unfold shl, wrap. rewrite Z.shiftl_mul_pow2 by lia.
  replace (2 ^ w) with (2 ^ (w - n) * 2 ^ n) by (rewrite <- Z.pow_add_r by lia; f_equal; lia).
  pose proof (pow2_pos n). pose proof (pow2_pos (w - n)).
  rewrite Z.mul_mod_distr_r by lia. rewrite <- lor_shift_add by lia.
  by rewrite Z.shiftl_mul_pow2 by lia.
Qed.

Lemma land_mask a n m : 0 <= n -> m = 2 ^ n - 1 -> Z.land a m = a `mod` 2 ^ n.
Proof. intros ? ->. by apply land_ones_mod. Qed.

Definition digits (b0 b1 b2 b3 b4 : Z) : list Z :=
  [ b0 `div` 8; b0 `mod` 8 * 4 + b1 `div` 64; (b1 `div` 2) `mod` 32; b1 `mod` 2 * 16 + b2 `div` 16;
    b2 `mod` 16 * 2 + b3 `div` 128; (b3 `div` 4) `mod` 32; b3 `mod` 4 * 8 + b4 `div` 32; b4 `mod` 32 ].

(** Equal lists of integers, element by element. *)
Ltac list_dlia := repeat first [reflexivity | apply (f_equal2 cons); [dlia|]].

Lemma encode_chunk_digits b0 b1 b2 b3 b4 :
  is_byte b0 -> is_byte b1 -> is_byte b2 -> is_byte b3 -> is_byte b4 ->
  encode_chunk b0 b1 b2 b3 b4 = map crockford_char (digits b0 b1 b2 b3 b4).
Proof.
  intros H0%byte_range H1%byte_range H2%byte_range H3%byte_range H4%byte_range.
  unfold encode_chunk, digits. cbn [map].
  rewrite (land_mask b0 3), (land_mask b1 1), (land_mask b2 4), (land_mask b3 2),
    (land_mask b4 5), (land_mask (Z.shiftr b1 1) 5), (land_mask (Z.shiftr b3 2) 5) by lia.
  rewrite !Z.shiftr_div_pow2 by lia.
  rewrite !lor_shl_add by (split; dlia).
  repeat first [reflexivity | apply (f_equal2 cons); [f_equal; cbn; dlia|]].
Qed.

Lemma decode_chunk_arith v0 v1 v2 v3 v4 v5 v6 v7 :
  Forall (fits 5) [v0; v1; v2; v3; v4; v5; v6; v7] ->
  decode_chunk v0 v1 v2 v3 v4 v5 v6 v7 =
  [ v0 * 8 + v1 `div` 4; v1 `mod` 4 * 64 + v2 * 2 + v3 `div` 16; v3 `mod` 16 * 16 + v4 `div` 2;
    v4 `mod` 2 * 128 + v5 * 4 + v6 `div` 8; v6 `mod` 8 * 32 + v7 ].
Proof.
  rewrite !Forall_cons. unfold fits. change (2 ^ 5) with 32.
  intros (H0 & H1 & H2 & H3 & H4 & H5 & H6 & H7 & _). unfold decode_chunk.
  rewrite <- !Z.lor_assoc. rewrite !Z.shiftr_div_pow2 by lia.
  assert (forall a b n, 0 <= n <= 8 -> 0 <= b < 2 ^ n ->
    Z.lor (shl 8 a n) b = (a `mod` 2 ^ (8 - n)) * 2 ^ n + b) as L by (intros; by apply lor_shl_add).
  rewrite (L v2 _ 1), (L v5 _ 2) by (split; cbn; dlia).
  rewrite !L by (split; cbn; dlia). cbn.
  list_dlia.
Qed.

Lemma digits_fit b0 b1 b2 b3 b4 :
  is_byte b0 -> is_byte b1 -> is_byte b2 -> is_byte b3 -> is_byte b4 ->
  Forall (fits 5) (digits b0 b1 b2 b3 b4).
Proof.
  intros H0%byte_range H1%byte_range H2%byte_range H3%byte_range H4%byte_range.
  unfold fits. change (2 ^ 5) with 32. repeat constructor; dlia.
Qed.

Lemma decode_chunk_digits b0 b1 b2 b3 b4 v0 v1 v2 v3 v4 v5 v6 v7 :
  is_byte b0 -> is_byte b1 -> is_byte b2 -> is_byte b3 -> is_byte b4 ->
  digits b0 b1 b2 b3 b4 = [v0; v1; v2; v3; v4; v5; v6; v7] ->
  decode_chunk v0 v1 v2 v3 v4 v5 v6 v7 = [b0; b1; b2; b3; b4].
Proof.
  intros H0 H1 H2 H3 H4 E. rewrite decode_chunk_arith
    by (rewrite <- E; by apply digits_fit).
  apply byte_range in H0, H1, H2, H3, H4. inv E. list_dlia.
Qed.

Lemma decode_chunk_surj v0 v1 v2 v3 v4 v5 v6 v7 :
  Forall (fits 5) [v0; v1; v2; v3; v4; v5; v6; v7] ->
  exists b0 b1 b2 b3 b4,
    decode_chunk v0 v1 v2 v3 v4 v5 v6 v7 = [b0; b1; b2; b3; b4] /\
    bytes_ok [b0; b1; b2; b3; b4] /\
    digits b0 b1 b2 b3 b4 = [v0; v1; v2; v3; v4; v5; v6; v7].
Proof.
  intros Hv. rewrite decode_chunk_arith by done. do 5 eexists. split; [done|].
  rewrite !Forall_cons in Hv. unfold fits in Hv. change (2 ^ 5) with 32 in Hv.
  destruct Hv as (H0 & H1 & H2 & H3 & H4 & H5 & H6 & H7 & _). split.
  - unfold bytes_ok, is_byte, fits. change (2 ^ 8) with 256. repeat constructor; dlia.
  - unfold digits. list_dlia.
Qed.

(** The alphabet: every digit has a character that reads back as the digit,
    and every character read is a digit. *)

Lemma crockford_value_char v : fits 5 v -> crockford_value (crockford_char v) = Some v.
Proof.
  intros Hv. assert (Forall (fun v => crockford_value (crockford_char v) = Some v) (seqZ 0 32)) as F
    by (repeat constructor).
  rewrite Forall_forall in F. apply F, elem_of_seqZ. unfold fits in Hv. lia.
Qed.

Lemma crockford_value_fits c v : crockford_value c = Some v -> fits 5 v.
Proof.
  unfold crockford_value, fits. destruct (list_find _ _) as [[i arm]|] eqn:E; intros [= <-].
  apply list_find_Some in E as (E%lookup_lt_Some & _). cbn in E. lia.
Qed.

(** ** The ten-byte layout *)

Definition values (s : list Z) : list (option Z) := map crockford_value s.

Lemma values_chars ds : Forall (fits 5) ds -> values (map crockford_char ds) = map Some ds.
Proof.
  induction 1 as [|d ds Hd _ IH]; [done|]. cbn. rewrite crockford_value_char by done. by f_equal.
Qed.

Lemma length_encode_raw u : length (encode_raw u) = RAW_LEN.
Proof. done. Qed.

Lemma raw_list (raw : list Z) :
  length raw = RAW_LEN ->
  exists b0 b1 b2 b3 b4 b5 b6 b7 b8 b9, raw = [b0; b1; b2; b3; b4; b5; b6; b7; b8; b9].
Proof.
  intros H. do 10 (destruct raw as [|? raw]; [done|]). destruct raw; [|done]. by do 10 eexists.
Qed.

(** Decoding the text whose digits spell ten bytes decodes those bytes. *)
Lemma decode_ascii_spelling s raw :
  length raw = RAW_LEN -> bytes_ok raw ->
  values s = values (encode_ascii_raw_bytes raw) ->
  decode_ascii_detailed s = decode_raw_detailed raw.
Proof.
  intros (b0 & b1 & b2 & b3 & b4 & b5 & b6 & b7 & b8 & b9 & ->)%raw_list Hb.
  unfold bytes_ok in Hb. rewrite !Forall_cons in Hb.
  destruct Hb as (H0 & H1 & H2 & H3 & H4 & H5 & H6 & H7 & H8 & H9 & _).
  cbn [encode_ascii_raw_bytes]. rewrite !encode_chunk_digits by done.
  rewrite <- map_app, values_chars by (apply Forall_app; split; by apply digits_fit).
  rewrite map_app. destruct (digits b0 b1 b2 b3 b4) as [|? [|? [|? [|? [|? [|? [|? [|? []]]]]]]]] eqn:E1;
    try discriminate E1.
  destruct (digits b5 b6 b7 b8 b9) as [|? [|? [|? [|? [|? [|? [|? [|? []]]]]]]]] eqn:E2;
    try discriminate E2.
  intros E. do 16 (destruct s as [|? s]; [discriminate E|]). destruct s; [|discriminate E].
  injection E as ? ? ? ? ? ? ? ? ? ? ? ? ? ? ? ?. cbn [decode_ascii_detailed].
  repeat match goal with H : crockford_value ?c = Some _ |- _ => rewrite H; clear H end.
  cbn [ok_or mbind result_bind]. erewrite !decode_chunk_digits; try done.
Qed.

Lemma be_encode_2 v : exists a b, be_encode 2 v = [a; b] /\ is_byte a /\ is_byte b.
Proof.
  pose proof (length_be_encode 2 v). pose proof (be_encode_bytes 2 v) as B. unfold bytes_ok in B.
  destruct (be_encode 2 v) as [|a [|b []]]; try done.
  rewrite !Forall_cons in B. exists a, b. naive_solver.
Qed.

Lemma be_encode_4 v : exists a b c d, be_encode 4 v = [a; b; c; d] /\ bytes_ok [a; b; c; d].
Proof.
  pose proof (length_be_encode 4 v). pose proof (be_encode_bytes 4 v) as B.
  destruct (be_encode 4 v) as [|a [|b [|c [|d []]]]]; try done. by exists a, b, c, d.
Qed.

Lemma be_decode_2 a b : be_decode [a; b] = a * 256 + b.
Proof. unfold be_decode. cbn [foldl]. lia. Qed.

(** The version nibble is zero exactly when the first byte is below sixteen,
    and the two cluster bytes are then the cluster number in network order. *)
Lemma cluster_bytes hi lo :
  is_byte hi -> is_byte lo ->
  (Z.shiftr hi 4 = VERSION <-> hi < 16) /\
  (hi < 16 -> Z.lor (shl 16 (Z.land hi 0x0F) 8) lo = be_decode [hi; lo]) /\
  (hi < 16 -> Z.lor (shl 8 VERSION 4) (Z.land hi 0x0F) = hi).
Proof.
  intros Hh%byte_range Hl%byte_range. unfold VERSION.
  rewrite (land_mask hi 4), be_decode_2, Z.shiftr_div_pow2 by lia.
  rewrite !lor_shl_add by (cbn; dlia). cbn. split_and!; dlia.
Qed.

Lemma encode_raw_bytes u : ufrag_wf u -> bytes_ok (encode_raw u).
Proof.
  intros (Hc & Hn & Hr & He). unfold encode_raw.
  destruct (be_encode_2 (cluster_id u)) as (c0 & c1 & -> & B0 & B1).
  destruct (be_encode_2 (node_id u)) as (n0 & n1 & -> & ? & ?).
  destruct (be_encode_4 (get (transport u))) as (r0 & r1 & r2 & r3 & -> & Br).
  destruct (be_encode_2 (epoch u)) as (e0 & e1 & -> & ? & ?).
  unfold bytes_ok in *. rewrite !Forall_cons in Br. cbn [byte_at nth].
  rewrite !Forall_cons. split_and!; try tauto; try constructor.
  all: unfold VERSION; rewrite (land_mask c0 4), lor_shl_add by (cbn; dlia);
    apply byte_range in B0; cbn; dlia.
Qed.

Lemma decode_raw_encode u : ufrag_wf u -> decode_raw_detailed (encode_raw u) = Ok u.
Proof.
  intros (Hc & Hn & Hr & He). unfold encode_raw.
  destruct (be_encode_2 (cluster_id u)) as (c0 & c1 & Ec & B0 & B1).
  destruct (be_encode_2 (node_id u)) as (n0 & n1 & En & _).
  destruct (be_encode_4 (get (transport u))) as (r0 & r1 & r2 & r3 & Er & _).
  destruct (be_encode_2 (epoch u)) as (e0 & e1 & Ee & _).
  assert (be_decode [c0; c1] = cluster_id u) as Dc.
  { rewrite <- Ec. apply be_decode_encode. unfold fits in *. cbn in *. lia. }
  assert (c0 < 16) as Hc0.
  { unfold fits in Hc. rewrite be_decode_2 in Dc. apply byte_range in B1. cbn in Hc. lia. }
  destruct (cluster_bytes c0 c1 B0 B1) as (Ev & Ecl & Efirst).
  rewrite Ec, En, Er, Ee. cbn [byte_at nth decode_raw_detailed].
  rewrite Efirst, Ecl by done. rewrite (proj2 Ev) by done. cbn [negb Z.eqb VERSION].
  rewrite Dc, <- En, <- Er, <- Ee, !be_decode_encode by done. by destruct u as [? ? [] ?].
Qed.

Lemma decode_raw_canonical raw u :
  length raw = RAW_LEN -> bytes_ok raw -> decode_raw_detailed raw = Ok u ->
  ufrag_wf u /\ encode_raw u = raw.
Proof.
  intros (c0 & c1 & n0 & n1 & r0 & r1 & r2 & r3 & e0 & e1 & ->)%raw_list Hb.
  unfold bytes_ok in Hb. rewrite !Forall_cons in Hb. destruct Hb as (B0 & B1 & Hb).
  destruct (cluster_bytes c0 c1 B0 B1) as (Ev & Ecl & Efirst).
  cbn [decode_raw_detailed]. destruct (Z.eqb_spec (Z.shiftr c0 4) VERSION) as [E|]; [|done].
  cbn [negb]. apply Ev in E. rewrite Ecl by done. intros Eu. inv Eu.
  pose proof (be_encode_decode [c0; c1]) as Rc. pose proof (be_encode_decode [n0; n1]) as Rn.
  pose proof (be_encode_decode [r0; r1; r2; r3]) as Rr. pose proof (be_encode_decode [e0; e1]) as Re.
  pose proof (be_decode_fits [n0; n1]). pose proof (be_decode_fits [r0; r1; r2; r3]).
  pose proof (be_decode_fits [e0; e1]). unfold bytes_ok in *. rewrite !Forall_cons in *. split.
  - unfold ufrag_wf. cbn. split_and!; [|naive_solver..].
    rewrite be_decode_2. unfold fits. apply byte_range in B0, B1. cbn. lia.
  - unfold encode_raw. cbn [cluster_id node_id transport epoch get from_raw bits].
    cbn [length] in Rc, Rn, Rr, Re. rewrite Rc, Rn, Rr, Re by naive_solver.
    cbn [byte_at nth]. by rewrite Efirst.
Qed.

(** ** The text form *)

Lemma values_all_some s : None ∉ values s -> exists ds, values s = map Some ds /\ Forall (fits 5) ds.
Proof.
  unfold values. induction s as [|c s IH]; [by exists []|]. cbn [map]. rewrite not_elem_of_cons. intros [Hc Hs].
  destruct (IH Hs) as (ds & E & F). destruct (crockford_value c) as [v|] eqn:Ev; [|done].
  exists (v :: ds). rewrite E. split; [done|]. constructor; [|done]. by eapply crockford_value_fits.
Qed.

Lemma bad_char_rejected s : None ∈ values s -> decode_ascii_detailed s = Err BadEncoding.
Proof.
  intros H. destruct s as [|? [|? [|? [|? [|? [|? [|? [|? [|? [|? [|? [|? [|? [|? [|? [|? []]]]]]]]]]]]]]]]];
    try done.
  cbn [decode_ascii_detailed]. unfold values in H. cbn [map] in H.
  repeat match goal with
  | |- context [crockford_value ?c] =>
      destruct (crockford_value c) eqn:?; [cbn [ok_or mbind result_bind]|done]
  end.
  exfalso. rewrite !list_elem_of_In in H. cbn in H. naive_solver.
Qed.

(** A text is rejected as badly encoded, or it spells ten bytes. *)
Lemma decode_ascii_cases s :
  ((length s <> ENCODED_LEN \/ (None ∈ values s)) /\ decode_ascii_detailed s = Err BadEncoding) \/
  (length s = ENCODED_LEN /\ (None ∉ values s) /\
   exists raw, length raw = RAW_LEN /\ bytes_ok raw /\
     values s = values (encode_ascii_raw_bytes raw)).
Proof.
  destruct (decide (None ∈ values s)) as [Hn|Hn]; [left; split; [tauto|by apply bad_char_rejected]|].
  destruct (decide (length s = ENCODED_LEN)) as [Hl|Hl].
  - right. split_and!; [done..|]. destruct (values_all_some s Hn) as (ds & E & F).
    assert (length ds = ENCODED_LEN) as Hd.
    { rewrite <- Hl, <- (length_map Some ds), <- E. unfold values. by rewrite length_map. }
    do 16 (destruct ds as [|? ds]; [done|]). destruct ds; [|done].
    pose proof F as F1. apply (Forall_app _ [_;_;_;_;_;_;_;_] [_;_;_;_;_;_;_;_]) in F1 as [F1 F2].
    destruct (decode_chunk_surj _ _ _ _ _ _ _ _ F1) as (b0 & b1 & b2 & b3 & b4 & _ & B1 & D1).
    destruct (decode_chunk_surj _ _ _ _ _ _ _ _ F2) as (b5 & b6 & b7 & b8 & b9 & _ & B2 & D2).
    exists ([b0; b1; b2; b3; b4] ++ [b5; b6; b7; b8; b9]). split; [done|].
    split; [by apply Forall_app|]. rewrite E. cbn [app encode_ascii_raw_bytes].
    unfold bytes_ok in B1, B2. rewrite !Forall_cons in B1, B2.
    rewrite !encode_chunk_digits, D1, D2, <- map_app, values_chars by tauto. done.
  - left. split; [tauto|].
    destruct s as [|? [|? [|? [|? [|? [|? [|? [|? [|? [|? [|? [|? [|? [|? [|? [|? []]]]]]]]]]]]]]]]]; done.
Qed.

(** A sixteen-character text decodes to a fragment exactly when the
    fragment's fields are in range and the text spells the fragment's encoding
    up to Crockford's equivalent characters; it is refused as badly encoded
    exactly when its length is wrong or a character is not a digit. In
    particular the encoding of an in-range fragment decodes to it. *)
Theorem ufrag_text_exact s :
  (forall u, decode_ascii_detailed s = Ok u <->
             ufrag_wf u /\ values s = values (encode_ascii u)) /\
  (decode_ascii_detailed s = Err BadEncoding <-> length s <> ENCODED_LEN \/ (None ∈ values s)) /\
  decode_ascii_detailed s <> Err InvalidCluster.
Proof.
  assert (forall u, ufrag_wf u -> values s = values (encode_ascii u) ->
                    decode_ascii_detailed s = Ok u) as Enc.
  { intros u Hu E. rewrite (decode_ascii_spelling s (encode_raw u)); [|done| |done].
    - by apply decode_raw_encode.
    - by apply encode_raw_bytes. }
  destruct (decode_ascii_cases s) as [[Hbad E]|(Hl & Hn & raw & Lr & Br & Hv)].
  - split_and!; [|tauto|congruence]. intros u. split; [congruence|]. intros []. by apply Enc.
  - pose proof (decode_ascii_spelling s raw Lr Br Hv) as E. split_and!.
    + intros u. split; [|intros []; by apply Enc]. rewrite E. intros Hd.
      destruct (decode_raw_canonical raw u Lr Br Hd) as [Hu <-]. done.
    + split; [|tauto]. rewrite E. apply raw_list in Lr as (? & ? & ? & ? & ? & ? & ? & ? & ? & ? & ->).
      cbn. case_ifs; done.
    + rewrite E. apply raw_list in Lr as (? & ? & ? & ? & ? & ? & ? & ? & ? & ? & ->).
      cbn. case_ifs; done.
Qed.

(** The typed adapter's fragments. *)
Definition adapter_wf (u : control.IceUfrag) : Prop :=
  0 <= control.cluster_id u /\ fits 16 (control.node_id u) /\
  fits 32 (route_get (control.transport u)) /\ fits 16 (control.epoch u).

(** A fragment the server constructs can be written down, and its text decodes to a fragment of
    the steering crate with the same shard and slot. *)
Lemma adapter_encode c n t e u :
  control.new c n t e = Some u -> adapter_wf u ->
  exists sh, control.to_shared u = Some sh /\ ufrag_wf sh /\ control.from_shared sh = u /\
    shard (transport sh) = route_shard t /\ slot (transport sh) = route_slot t.
Proof.
  unfold control.new, control.to_shared, new. destruct (Z.ltb_spec c 4096) as [Hc4|]; [|done].
  intros E (Hc & Hn & Hr & He). inv E.
  cbn in *. rewrite (proj2 (Z.leb_le c 4095)) by lia.
  eexists. split; [done|]. unfold ufrag_wf, control.from_shared. cbn. split_and!; try done.
  - destruct t as [[b]]. done.
  - apply wrap_small. change (fits 16 (Z.shiftr (route_get t) 20)). unfold fits in *.
    rewrite Z.shiftr_div_pow2 by lia. change (2 ^ 32) with (2 ^ 12 * 2 ^ 20) in Hr. dlia.
Qed.

(** A fragment the server constructs for a client encodes to sixteen
    characters, and decoding that text, in any spelling, gives back the same
    cluster, node, epoch and transport address, with the shard and slot the
    steering crate reads equal to those the address names. *)
Theorem ufrag_adapter_roundtrip c n t e u s' :
  control.new c n t e = Some u -> adapter_wf u ->
  exists s, control.encode u = Some s /\ length s = ENCODED_LEN /\ control.decode s = Some u /\
    control.node_address u = mkNodeTransportAddress t e /\
    (values s' = values s -> control.decode s' = Some u /\
      exists sh, decode_ascii s' = Some sh /\
        shard (transport sh) = route_shard t /\ slot (transport sh) = route_slot t).
Proof.
  intros Hu Hwf. destruct (adapter_encode c n t e u Hu Hwf) as (sh & Es & Hw & Ef & Hsh & Hsl).
  assert (forall x, values x = values (encode_ascii sh) -> decode_ascii x = Some sh) as D.
  { intros x Ex. unfold decode_ascii.
    rewrite (decode_ascii_spelling x (encode_raw sh)); [|done|by apply encode_raw_bytes|done].
    by rewrite decode_raw_encode. }
  exists (encode_ascii sh). unfold control.encode, control.decode. rewrite Es. cbn [fmap option_fmap option_map].
  split_and!; [done|done|..].
  - rewrite D by done. cbn. by rewrite Ef.
  - unfold control.new in Hu. case_ifs; [|done]. by inv Hu.
  - intros Ex. rewrite D by done. cbn. rewrite Ef. split; [done|]. by exists sh.
Qed.

Lemma ufrag_adapter_roundtrip_witness :
  exists u s, control.new 0xABC 0x1234 (route_from_raw (7 * 2 ^ 20 + 12345)) 42 = Some u /\
    control.encode u = Some s /\
    s = map byte_of (String.list_ascii_of_string "1AY14D00E0R3J01A") /\ control.decode s = Some u.
Proof.
  eexists. edestruct (ufrag_adapter_roundtrip 0xABC 0x1234 (route_from_raw (7 * 2 ^ 20 + 12345)) 42)
    as (s & E & _ & D & _); [reflexivity|repeat split; vm_compute; congruence|].
  exists s. split; [reflexivity|]. split; [exact E|]. split; [|exact D]. vm_compute in E. by inv E.
  Unshelve. exact [].
Defined.
