(* ===== verification/Steer.v ===== *)
(** * Steering: STUN parsing, bootstrap classification, flow affinity

    Models [crates/pulsebeam-steer/src/stun.rs], [classify.rs] and [steer.rs].
    A payload is the list of its bytes; positions are [usize] values kept as
    integers, with [checked_add] at 64 bits. [slice::get] out of range is
    [None], and [?] returns it.

    The reference is a writer of STUN messages ([stun_message]): the parser
    finds exactly the first USERNAME such a message carries, and a message that
    carries a fragment the server handed out is classified to the shard, slot
    and epoch the fragment was made for. *)

From S2P Require Import Prelude Route Ufrag.
Import steer.

(** ** [stun.rs] *)

Definition MAGIC_COOKIE : Z := 0x2112A442.
Definition MIN_STUN_HEADER_SIZE : Z := 20.
Definition MAGIC_COOKIE_BYTES : list Z := be_encode 4 MAGIC_COOKIE.
Definition ATTRIBUTE_HEADER_SIZE : Z := 4.
Definition USERNAME_ATTRIBUTE_TYPE : Z := 6.

Definition len (l : list Z) : Z := Z.of_nat (length l).

(** [data.get(i)] and [data.get(a..b)]; a range that ends before it starts is
    out of range. *)
Definition get_at (data : list Z) (i : Z) : option Z := data !! Z.to_nat i.
Definition get_range (data : list Z) (a b : Z) : option (list Z) :=
  if a <=? b then slice (Z.to_nat a) (Z.to_nat (b - a)) data else None.

Definition is_stun (buf : list Z) : bool :=
  if len buf <? MIN_STUN_HEADER_SIZE then false
  else match get_at buf 0 with
       | None => false
       | Some first =>
           if negb (Z.land first 0xC0 =? 0) then false
           else bool_decide (get_range buf 4 8 = Some MAGIC_COOKIE_BYTES)
       end.

(** One pass of the attribute loop of [find_username_slice]: leave the
    function with a result, or continue at a later position. *)
Inductive attr_step := Return (r : option (list Z)) | Continue (pos : Z).

Definition or_return {A} (o : option A) (k : A -> attr_step) : attr_step :=
  match o with Some a => k a | None => Return None end.

Definition read_attribute (data : list Z) (attributes_end current_pos : Z) : attr_step :=
  or_return (checked_add 64 current_pos ATTRIBUTE_HEADER_SIZE) (fun header_end =>
  if attributes_end <? header_end then Return None else
  or_return (get_at data current_pos) (fun t0 =>
  or_return (get_at data (saturating_add 64 current_pos 1)) (fun t1 =>
  let attr_type := be_decode [t0; t1] in
  or_return (get_at data (saturating_add 64 current_pos 2)) (fun l0 =>
  or_return (get_at data (saturating_add 64 current_pos 3)) (fun l1 =>
  let attr_value_len := be_decode [l0; l1] in
  let value_pos := saturating_add 64 current_pos ATTRIBUTE_HEADER_SIZE in
  or_return (checked_add 64 value_pos attr_value_len) (fun end_of_value =>
  if attributes_end <? end_of_value then Return None
  else if attr_type =? USERNAME_ATTRIBUTE_TYPE then Return (get_range data value_pos end_of_value)
  else
    let padded_len := Z.land (saturating_add 64 attr_value_len 3) (umax 64 - 3) in
    or_return (checked_add 64 value_pos padded_len) (fun next_pos =>
    if attributes_end <? next_pos then Return None else Continue next_pos))))))).

(** The loop. [None]: out of fuel. *)
Fixpoint attribute_loop (fuel : nat) (data : list Z) (attributes_end current_pos : Z)
    : option (option (list Z)) :=
  match fuel with
  | O => None
  | S fuel' =>
      if current_pos <? attributes_end then
        match read_attribute data attributes_end current_pos with
        | Return r => Some r
        | Continue pos => attribute_loop fuel' data attributes_end pos
        end
      else Some None
  end.

(** Each pass moves forward, so one pass per byte is enough
    ([attribute_loop_total]). *)
Definition find_username_slice (data : list Z) : option (list Z) :=
  if len data <? MIN_STUN_HEADER_SIZE then None
  else
    first ← get_at data 0;
    if negb (Z.land first 0xC0 =? 0) then None
    else if negb (bool_decide (get_range data 4 8 = Some MAGIC_COOKIE_BYTES)) then None
    else
      l0 ← get_at data 2;
      l1 ← get_at data 3;
      let message_length := be_decode [l0; l1] in
      expected_total_len ← checked_add 64 MIN_STUN_HEADER_SIZE message_length;
      if (len data <? expected_total_len) || (message_length =? 0) then None
      else mjoin (attribute_loop (S (length data)) data expected_total_len MIN_STUN_HEADER_SIZE).

(** The index loop of [first_token]; the index stays below the length, so the
    [checked_add] cannot fail. *)
Fixpoint first_token_from (fuel : nat) (input : list Z) (delimiter i : Z) : option (list Z) :=
  match fuel with
  | O => None
  | S fuel' =>
      if i <? len input then
        if bool_decide (get_at input i = Some delimiter) then get_range input 0 i
        else i' ← checked_add 64 i 1; first_token_from fuel' input delimiter i'
      else None
  end.

Definition first_token (input : list Z) (delimiter : Z) : option (list Z) :=
  first_token_from (S (length input)) input delimiter 0.

Definition COLON : Z := 58.

Definition server_ufrag (buf : list Z) : option (list Z) :=
  username ← find_username_slice buf; first_token username COLON.

(** ** [classify.rs] *)

Inductive DropReason :=
| NoUsername | BadUfragLen | BadUfragEncoding | BadUfragVersion
| WrongCluster | WrongNode | InvalidShard.

Record NodeScope := mkScope { scope_cluster : Z; scope_node : Z; shard_count : Z }.

Inductive Bootstrap :=
| NotStun
| RouteTo (shard slot epoch : Z)
| Reject (reason : DropReason).

Definition decode_ufrag_token (token : list Z) : result DropReason IceUfrag :=
  if negb (len token =? Z.of_nat ENCODED_LEN) then Err BadUfragLen
  else map_err (fun e => match e with
                         | BadEncoding => BadUfragEncoding
                         | BadVersion => BadUfragVersion
                         | InvalidCluster => WrongCluster
                         end) (decode_ascii_detailed token).

Definition classify_bootstrap (payload : list Z) (scope : NodeScope) : Bootstrap :=
  if negb (is_stun payload) then NotStun
  else match server_ufrag payload with
  | None => Reject NoUsername
  | Some username =>
      match decode_ufrag_token username with
      | Err reason => Reject reason
      | Ok u =>
          if negb (cluster_id u =? scope_cluster scope) then Reject WrongCluster
          else if negb (node_id u =? scope_node scope) then Reject WrongNode
          else if shard_count scope <=? shard (transport u) then Reject InvalidShard
          else RouteTo (shard (transport u)) (slot (transport u)) (epoch u)
      end
  end.

(** ** [steer.rs] *)

Definition MAX_SHARDS : Z := Z.shiftl 1 ROUTE_SHARD_BITS.
Definition FLOW_KEY_LEN : nat := 40.

Record FlowKey := mkFlow {
  src_addr : list Z;
  dst_addr : list Z;
  src_port : Z;
  dst_port : Z;
  is_ipv6 : Z;
  pad : list Z;
}.

(** The closure [write] of [to_ne_bytes]: [get_mut] of a range outside the
    array writes nothing. *)
Definition write (bytes : list Z) (offset : nat) (source : list Z) : list Z :=
  if decide (offset + length source <= length bytes)%nat
  then take offset bytes ++ source ++ drop (offset + length source) bytes
  else bytes.

(** [u16::to_ne_bytes] on the little-endian targets. *)
Definition ne_bytes (v : Z) : list Z := rev (be_encode 2 v).

Definition to_ne_bytes (k : FlowKey) : list Z :=
  let bytes := replicate FLOW_KEY_LEN 0 in
  let bytes := write bytes 0 (src_addr k) in
  let bytes := write bytes 16 (dst_addr k) in
  let bytes := write bytes 32 (ne_bytes (src_port k)) in
  let bytes := write bytes 34 (ne_bytes (dst_port k)) in
  write bytes 36 [is_ipv6 k].

Inductive Verdict := Select (shard : Z) | Pass | Drop (reason : DropReason).

(** The trait [FlowLookup]: the caller's map from flows to shards. *)
Class FlowLookup (L : Type) := { lookup_flow : L -> FlowKey -> option Z }.

Definition steer_flow {L} `{!FlowLookup L} (l : L) (key : FlowKey) (shards : Z) : Verdict :=
  match lookup_flow l key with
  | Some s => if (s <? shards) && (s <? MAX_SHARDS) then Select s else Pass
  | None => Pass
  end.

(** ** Writing STUN messages *)

Record attribute := mkAttr { attr_type : Z; attr_value : list Z; attr_padding : list Z }.

Definition attribute_wf (a : attribute) : Prop :=
  fits 16 (attr_type a) /\ bytes_ok (attr_value a) /\
  (len (attr_value a) + len (attr_padding a)) `mod` 4 = 0 /\ len (attr_padding a) < 4.

Definition attribute_bytes (a : attribute) : list Z :=
  be_encode 2 (attr_type a) ++ be_encode 2 (len (attr_value a)) ++ attr_value a ++ attr_padding a.

Definition body (attrs : list attribute) : list Z := concat (map attribute_bytes attrs).

Definition stun_message (msg_type : Z) (tx_id : list Z) (attrs : list attribute) : list Z :=
  be_encode 2 msg_type ++ be_encode 2 (len (body attrs)) ++ MAGIC_COOKIE_BYTES ++ tx_id ++ body attrs.

(** A message type has its two top bits clear, and lengths fit their fields. *)
Definition message_wf (msg_type : Z) (tx_id : list Z) (attrs : list attribute) : Prop :=
  fits 14 msg_type /\ length tx_id = 12%nat /\ Forall attribute_wf attrs /\ fits 16 (len (body attrs)).

Fixpoint first_username (attrs : list attribute) : option (list Z) :=
  match attrs with
  | [] => None
  | a :: attrs' =>
      if attr_type a =? USERNAME_ATTRIBUTE_TYPE then Some (attr_value a) else first_username attrs'
  end.

(** ** Reading what was written *)

Lemma len_app l1 l2 : len (l1 ++ l2) = len l1 + len l2.
Proof. unfold len. rewrite length_app. lia. Qed.
Lemma len_nonneg l : 0 <= len l.
Proof. unfold len. lia. Qed.
Lemma len_be_encode n v : len (be_encode n v) = Z.of_nat n.
Proof. unfold len. by rewrite length_be_encode. Qed.

#[local] Hint Rewrite len_app len_be_encode : rust.
#[local] Hint Resolve len_nonneg : rust.

Lemma get_at_app pre l i : 0 <= i -> get_at (pre ++ l) (len pre + i) = get_at l i.
Proof.
  intros. unfold get_at, len. rewrite lookup_app_r by lia. f_equal. lia.
Qed.

Lemma get_range_app pre l post :
  get_range (pre ++ l ++ post) (len pre) (len pre + len l) = Some l.
Proof.
  unfold get_range. pose proof (len_nonneg l). rewrite (proj2 (Z.leb_le _ _)) by lia.
  unfold len. replace (Z.to_nat (Z.of_nat (length pre) + _ - _)) with (length l) by lia.
  rewrite Nat2Z.id. apply slice_app_exact.
Qed.

Lemma saturating_add_small a b : a + b < 2 ^ 64 -> saturating_add 64 a b = a + b.
Proof. unfold saturating_add, umax. lia. Qed.
Lemma checked_add_small a b : a + b < 2 ^ 64 -> checked_add 64 a b = Some (a + b).
Proof. unfold checked_add, umax. intros. rewrite (proj2 (Z.leb_le _ _)) by lia. done. Qed.

(** Rounding up to a multiple of four: [(n + 3) & !3]. *)
Lemma round_up n : 0 <= n < 2 ^ 63 -> Z.land (n + 3) (umax 64 - 3) = (n + 3) `div` 4 * 4.
Proof.
  intros Hn. change (umax 64 - 3) with (Z.shiftl (Z.ones 62) 2).
  change 4 with (2 ^ 2). rewrite <- Z.shiftr_div_pow2, <- Z.shiftl_mul_pow2 by lia.
  apply Z.bits_inj'. intros i Hi. rewrite Z.land_spec, !Z.shiftl_spec by lia.
  destruct (Z.ltb_spec i 2).
  - rewrite (Z.testbit_neg_r _ (i - 2)), andb_false_r, Z.testbit_neg_r by lia. done.
  - rewrite Z.shiftr_spec by lia. replace (i - 2 + 2) with i by lia.
    destruct (Z.ltb_spec i 64).
    + rewrite Z.ones_spec_low, andb_true_r by lia. done.
    + rewrite Z.ones_spec_high, andb_false_r by lia. symmetry.
      apply Z.bits_above_log2; [lia|]. apply Z.log2_lt_pow2; [lia|].
      pose proof (Z.pow_le_mono_r 2 64 i). lia.
Qed.

(** Two bytes of a message, read as a [u16]. *)
Lemma read_u16 pre v post i :
  i = len pre -> fits 16 v ->
  exists b0 b1, get_at (pre ++ be_encode 2 v ++ post) i = Some b0 /\
    get_at (pre ++ be_encode 2 v ++ post) (i + 1) = Some b1 /\ be_decode [b0; b1] = v.
Proof.
  intros -> Hv. destruct (be_encode_2 v) as (b0 & b1 & E & _). exists b0, b1.
  rewrite E, get_at_app by lia. replace (len pre) with (len pre + 0) at 1 by lia.
  rewrite get_at_app by lia. split_and!; [done..|]. rewrite <- E. by apply be_decode_encode.
Qed.

Lemma len_attribute a : len (attribute_bytes a) = 4 + len (attr_value a) + len (attr_padding a).
Proof. unfold attribute_bytes. autorewrite with rust. lia. Qed.

Lemma read_attribute_written pre a post stop :
  attribute_wf a -> len (attr_value a) < 2 ^ 16 ->
  len pre + len (attribute_bytes a) <= stop -> stop < 2 ^ 63 ->
  read_attribute (pre ++ attribute_bytes a ++ post) stop (len pre) =
  if attr_type a =? USERNAME_ATTRIBUTE_TYPE then Return (Some (attr_value a))
  else Continue (len pre + len (attribute_bytes a)).
Proof.
  intros (Ht & Hv & Hpad & Hpl) Hlen Hstop Hbig. rewrite len_attribute in *.
  pose proof (len_nonneg pre). pose proof (len_nonneg (attr_value a)).
  pose proof (len_nonneg (attr_padding a)). unfold read_attribute, ATTRIBUTE_HEADER_SIZE.
  rewrite !checked_add_small, !saturating_add_small by lia. cbn [or_return].
  rewrite (proj2 (Z.ltb_ge _ _)) by lia.
  set (rest := be_encode 2 (len (attr_value a)) ++ attr_value a ++ attr_padding a ++ post).
  replace (pre ++ attribute_bytes a ++ post) with (pre ++ be_encode 2 (attr_type a) ++ rest)
    by (unfold rest, attribute_bytes; by rewrite <- !app_assoc).
  destruct (read_u16 pre (attr_type a) rest (len pre)) as (t0 & t1 & -> & -> & Et); [done..|].
  cbn [or_return]. rewrite Et.
  replace (pre ++ be_encode 2 (attr_type a) ++ rest)
    with ((pre ++ be_encode 2 (attr_type a)) ++ be_encode 2 (len (attr_value a)) ++
          attr_value a ++ attr_padding a ++ post) by (unfold rest; by rewrite <- !app_assoc).
  destruct (read_u16 (pre ++ be_encode 2 (attr_type a)) (len (attr_value a))
             (attr_value a ++ attr_padding a ++ post) (len pre + 2)) as (l0 & l1 & E0 & E1 & El).
  { autorewrite with rust. lia. } { unfold fits. lia. }
  rewrite E0. replace (len pre + 3) with (len pre + 2 + 1) by lia. rewrite E1.
  cbn [or_return]. rewrite El, checked_add_small by lia. cbn [or_return].
  rewrite (proj2 (Z.ltb_ge _ _)) by lia. destruct (Z.eqb_spec (attr_type a) USERNAME_ATTRIBUTE_TYPE).
  - f_equal. rewrite app_assoc.
    replace (len pre + 4) with (len ((pre ++ be_encode 2 (attr_type a)) ++ be_encode 2 (len (attr_value a))))
      by (autorewrite with rust; lia).
    apply get_range_app.
  - rewrite saturating_add_small, round_up by lia.
    rewrite checked_add_small by dlia. cbn [or_return].
    rewrite (proj2 (Z.ltb_ge _ _)) by dlia. f_equal. dlia.
Qed.

Lemma body_cons a attrs : body (a :: attrs) = attribute_bytes a ++ body attrs.
Proof. done. Qed.

Lemma attribute_loop_written fuel pre attrs post :
  Forall attribute_wf attrs -> len (body attrs) < 2 ^ 16 ->
  len pre + len (body attrs) < 2 ^ 63 ->
  (length attrs < fuel)%nat ->
  attribute_loop fuel (pre ++ body attrs ++ post) (len pre + len (body attrs)) (len pre) =
  Some (first_username attrs).
Proof.
  revert fuel pre. induction attrs as [|a attrs IH]; intros fuel pre Hwf Hl Hp Hf;
    (destruct fuel as [|fuel]; [cbn in Hf; lia|]); cbn [attribute_loop first_username].
  - rewrite (proj2 (Z.ltb_ge _ _)) by (change (len (body [])) with 0; lia). done.
  - rewrite Forall_cons in Hwf. destruct Hwf as [Ha Hwf]. rewrite body_cons, len_app in *.
    pose proof (len_attribute a). pose proof (len_nonneg (attr_value a)).
    pose proof (len_nonneg (attr_padding a)). pose proof (len_nonneg (body attrs)).
    rewrite (proj2 (Z.ltb_lt _ _)) by lia. rewrite <- !app_assoc.
    rewrite read_attribute_written; [|done|lia|lia|lia].
    destruct (attr_type a =? USERNAME_ATTRIBUTE_TYPE); [done|].
    rewrite app_assoc, Z.add_assoc, <- (len_app pre).
    apply IH; [done|lia|rewrite len_app; lia|cbn in Hf; lia].
Qed.

Lemma top_bits_clear b : 0 <= b < 64 -> Z.land b 0xC0 = 0.
Proof.
  intros Hb. assert (Forall (fun b => Z.land b 0xC0 = 0) (seqZ 0 64)) as F by (repeat constructor).
  rewrite Forall_forall in F. apply F, elem_of_seqZ. lia.
Qed.

Lemma attrs_fit_body attrs : (4 * length attrs <= length (body attrs))%nat.
Proof.
  induction attrs as [|a attrs IH]; [done|]. rewrite body_cons, length_app. cbn [length].
  pose proof (len_attribute a). unfold len in *. lia.
Qed.

(** What the fixed header of a written message says. *)
Lemma written_header mt tx attrs trailing :
  message_wf mt tx attrs ->
  let data := stun_message mt tx attrs ++ trailing in
  20 + len (body attrs) <= len data /\
  (exists b, get_at data 0 = Some b /\ Z.land b 0xC0 = 0) /\
  get_range data 4 8 = Some MAGIC_COOKIE_BYTES /\
  (exists l0 l1, get_at data 2 = Some l0 /\ get_at data 3 = Some l1 /\
                 be_decode [l0; l1] = len (body attrs)) /\
  exists pre, data = pre ++ body attrs ++ trailing /\ len pre = 20.
Proof.
  intros (Hm & Htx & Hwf & Hl) data.
  assert (len tx = 12) as Htx' by (unfold len; lia).
  assert (len MAGIC_COOKIE_BYTES = 4) as Hmc by done.
  split_and!.
  - unfold data, stun_message. autorewrite with rust. pose proof (len_nonneg trailing). lia.
  - unfold data, stun_message. destruct (be_encode_2 mt) as (b0 & b1 & E & H0 & H1).
    exists b0. rewrite E. split; [done|]. apply top_bits_clear.
    assert (be_decode [b0; b1] = mt) as D
      by (rewrite <- E; apply be_decode_encode; unfold fits in *; cbn in *; lia).
    rewrite be_decode_2 in D. apply byte_range in H0, H1. unfold fits in Hm. cbn in Hm. lia.
  - pose proof (get_range_app (be_encode 2 mt ++ be_encode 2 (len (body attrs))) MAGIC_COOKIE_BYTES
                  (tx ++ body attrs ++ trailing)) as R.
    autorewrite with rust in R. rewrite Hmc in R. unfold data, stun_message.
    rewrite <- !app_assoc in *. exact R.
  - destruct (read_u16 (be_encode 2 mt) (len (body attrs))
                (MAGIC_COOKIE_BYTES ++ tx ++ body attrs ++ trailing) 2) as (l0 & l1 & R0 & R1 & D);
      [by rewrite len_be_encode|done|].
    exists l0, l1. unfold data, stun_message. rewrite <- !app_assoc. done.
  - exists (be_encode 2 mt ++ be_encode 2 (len (body attrs)) ++ MAGIC_COOKIE_BYTES ++ tx).
    unfold data, stun_message. rewrite <- !app_assoc. split; [done|]. autorewrite with rust. lia.
Qed.

Lemma written_is_stun mt tx attrs trailing :
  message_wf mt tx attrs -> is_stun (stun_message mt tx attrs ++ trailing) = true.
Proof.
  intros H. destruct (written_header mt tx attrs trailing H) as (Hl & (b & Hb & Z0) & Hm & _ & _).
  unfold is_stun, MIN_STUN_HEADER_SIZE. pose proof (len_nonneg (body attrs)).
  rewrite (proj2 (Z.ltb_ge _ _)) by lia. rewrite Hb, Z0, Hm. cbn [negb Z.eqb]. by apply bool_decide_eq_true.
Qed.

Lemma written_username mt tx attrs trailing :
  message_wf mt tx attrs ->
  find_username_slice (stun_message mt tx attrs ++ trailing) = first_username attrs.
Proof.
  intros H. pose proof (written_header mt tx attrs trailing H) as Hh. cbv zeta in Hh.
  destruct Hh as (Hl & (b & Hb & Z0) & Hm & (l0 & l1 & H2 & H3 & D) & pre & Epre & Hpre).
  destruct H as (_ & _ & Hwf & Hfit). unfold fits in Hfit.
  unfold find_username_slice, MIN_STUN_HEADER_SIZE.
  rewrite (proj2 (Z.ltb_ge _ _)) by lia. rewrite Hb. cbn [mbind option_bind]. rewrite Z0, Hm.
  rewrite bool_decide_eq_true_2 by done. cbn [negb Z.eqb]. rewrite H2, H3. cbn [mbind option_bind].
  rewrite D, checked_add_small by lia. cbn [mbind option_bind]. rewrite (proj2 (Z.ltb_ge _ _)) by lia.
  pose proof (attrs_fit_body attrs). destruct (Z.eqb_spec (len (body attrs)) 0) as [E0|E0]; cbn [orb].
  - destruct attrs; [done|]. unfold len in E0. cbn [length] in *. lia.
  - rewrite Epre at 2. rewrite <- Hpre, attribute_loop_written; [done|done|lia|lia|].
    rewrite Epre, !length_app. lia.
Qed.

(** ** The token before the delimiter *)

Lemma get_at_Some l i x : 0 <= i -> get_at l i = Some x -> i < len l.
Proof. intros Hi E%lookup_lt_Some. unfold len. lia. Qed.

Lemma get_at_here pre x l : get_at (pre ++ x :: l) (len pre) = Some x.
Proof. rewrite <- (Z.add_0_r (len pre)). by rewrite get_at_app. Qed.

Lemma first_token_from_spec fuel tok d rest :
  d ∉ tok -> len (tok ++ d :: rest) < 2 ^ 63 ->
  forall i, 0 <= i <= len tok -> len tok - i < Z.of_nat fuel ->
  first_token_from fuel (tok ++ d :: rest) d i = Some tok.
Proof.
  intros Hd Hl. induction fuel as [|fuel IH]; intros i Hi Hf; [lia|]. cbn [first_token_from].
  assert (len (d :: rest) = 1 + len rest) as E1 by (unfold len; cbn [length]; lia).
  pose proof (len_nonneg rest). rewrite len_app in *.
  rewrite (proj2 (Z.ltb_lt _ _)) by lia. destruct (Z.eqb_spec i (len tok)) as [->|Hne].
  - rewrite bool_decide_eq_true_2 by apply get_at_here.
    pose proof (get_range_app [] tok (d :: rest)) as R. change (len []) with 0 in R. done.
  - rewrite bool_decide_eq_false_2.
    + rewrite checked_add_small by lia. cbn [mbind option_bind]. apply IH; lia.
    + unfold get_at, len in *. rewrite lookup_app_l by lia. intros E.
      apply Hd. by eapply list_elem_of_lookup_2.
Qed.

Lemma first_token_from_none fuel input d :
  d ∉ input -> forall i, 0 <= i -> first_token_from fuel input d i = None.
Proof.
  intros Hd. induction fuel as [|fuel IH]; intros i Hi; [done|]. cbn [first_token_from].
  destruct (i <? len input); [|done]. case_bool_decide as Ei.
  - destruct Hd. by eapply list_elem_of_lookup_2.
  - unfold checked_add. destruct (i + 1 <=? umax 64); [|done]. apply IH. lia.
Qed.

Lemma first_token_spec input d tok :
  len input < 2 ^ 63 ->
  (first_token input d = Some tok <-> exists rest, input = tok ++ d :: rest /\ (d ∉ tok)).
Proof.
  intros Hl. split.
  - intros E. destruct (decide (d ∈ input)) as [Hin|Hin].
    + apply list_elem_of_split_l in Hin as (l1 & l2 & -> & Hd). exists l2.
      unfold first_token in E. rewrite first_token_from_spec in E; [by inv E|done..| |].
      * pose proof (len_nonneg l1). lia.
      * unfold len. rewrite length_app. lia.
    + unfold first_token in E. by rewrite first_token_from_none in E.
  - intros (rest & -> & Hd). apply first_token_from_spec; [done..| |].
    + pose proof (len_nonneg tok). lia.
    + unfold len. rewrite length_app. lia.
Qed.

(** ** Termination and bounds of the attribute loop *)

Lemma read_attribute_progress data stop pos pos' :
  read_attribute data stop pos = Continue pos' -> pos + 4 <= pos' <= stop.
Proof.
  unfold read_attribute, or_return, ATTRIBUTE_HEADER_SIZE.
  destruct (checked_add 64 pos 4) as [he|] eqn:Eh; [|done].
  repeat case_match; intros E; inv E.
  match goal with _ : context [Z.land ?n (umax 64 - 3)] |- _ =>
    assert (0 <= Z.land n (umax 64 - 3)) by (apply Z.land_nonneg; right; unfold umax; lia) end.
  unfold checked_add, saturating_add in *. case_ifs; simplify_eq. lia.
Qed.

Lemma attribute_loop_total fuel data stop pos :
  (0 < fuel)%nat -> stop - pos < Z.of_nat fuel -> is_Some (attribute_loop fuel data stop pos).
Proof.
  revert pos. induction fuel as [|fuel IH]; intros pos Hz Hf; [lia|]. cbn [attribute_loop].
  destruct (Z.ltb_spec pos stop); [|done].
  destruct (read_attribute data stop pos) as [r|pos'] eqn:E; [done|].
  apply read_attribute_progress in E. apply IH; lia.
Qed.

(** [s] lies between positions [lo] and [hi] of [data]. *)
Definition within (data s : list Z) (lo hi : Z) : Prop :=
  exists pre post, data = pre ++ s ++ post /\ lo <= len pre /\ len pre + len s <= hi.

Lemma get_range_within data a b s : 0 <= a -> get_range data a b = Some s -> within data s a b.
Proof.
  intros Ha. unfold get_range. destruct (Z.leb_spec a b); [|done]. unfold slice. case_decide; [|done].
  intros E. inv E. exists (take (Z.to_nat a) data), (drop (Z.to_nat (b - a)) (drop (Z.to_nat a) data)).
  rewrite take_drop, take_drop. split; [done|]. unfold len. rewrite !length_take, length_drop. lia.
Qed.

Lemma within_weaken data s lo hi lo' hi' :
  within data s lo hi -> lo' <= lo -> hi <= hi' -> within data s lo' hi'.
Proof. intros (pre & post & -> & ? & ?) ? ?. exists pre, post. split; [done|lia]. Qed.

Lemma read_attribute_within data stop pos s :
  0 <= pos -> read_attribute data stop pos = Return (Some s) -> within data s pos stop.
Proof.
  intros Hp. unfold read_attribute, or_return, ATTRIBUTE_HEADER_SIZE.
  destruct (checked_add 64 pos 4) as [he|] eqn:Eh; [|done].
  repeat case_match; intros E; inv E.
  all: match goal with H : get_range _ _ _ = Some _ |- _ => apply get_range_within in H end.
  all: unfold checked_add, saturating_add in *; case_ifs; simplify_eq; try lia.
  all: eapply within_weaken; [done|lia|lia].
Qed.

Lemma attribute_loop_within fuel data stop pos s :
  0 <= pos -> attribute_loop fuel data stop pos = Some (Some s) -> within data s pos stop.
Proof.
  revert pos. induction fuel as [|fuel IH]; intros pos Hp; [done|]. cbn [attribute_loop].
  destruct (pos <? stop); [|done].
  destruct (read_attribute data stop pos) as [r|pos'] eqn:E; intros E'.
  - inv E'. by apply read_attribute_within.
  - apply read_attribute_progress in E. eapply within_weaken; [apply IH|..]; [|done|lia|lia]. lia.
Qed.

(** The attribute loop always ends, and a USERNAME it finds is a piece of the
    payload between the fixed header and the end the header declares, which
    lies inside the payload; nothing outside the declared message is read as a
    username. *)
Theorem username_within_message data :
  (forall stop, stop <= len data ->
     is_Some (attribute_loop (S (length data)) data stop MIN_STUN_HEADER_SIZE)) /\
  (forall s, find_username_slice data = Some s ->
     is_stun data = true /\
     exists l0 l1, get_at data 2 = Some l0 /\ get_at data 3 = Some l1 /\
       20 + be_decode [l0; l1] <= len data /\ within data s 20 (20 + be_decode [l0; l1])).
Proof.
  split.
  { intros stop Hs. apply attribute_loop_total; [lia|]. unfold len, MIN_STUN_HEADER_SIZE in *. lia. }
  intros s. unfold find_username_slice, is_stun. destruct (len data <? MIN_STUN_HEADER_SIZE); [done|].
  destruct (get_at data 0) as [b|]; [|done]. cbn [mbind option_bind].
  destruct (negb (Z.land b 192 =? 0)); [done|].
  destruct (bool_decide (get_range data 4 8 = Some MAGIC_COOKIE_BYTES)); [|done]. cbn [negb].
  destruct (get_at data 2) as [l0|]; [|done]. destruct (get_at data 3) as [l1|]; [|done].
  cbn [mbind option_bind].
  destruct (checked_add 64 MIN_STUN_HEADER_SIZE (be_decode [l0; l1])) as [total|] eqn:Et; [|done].
  cbn [mbind option_bind].
  assert (total = 20 + be_decode [l0; l1]) as -> by (unfold checked_add in Et; case_ifs; by inv Et).
  destruct (Z.ltb_spec (len data) (20 + be_decode [l0; l1])); [done|].
  destruct (be_decode [l0; l1] =? 0); [done|]. cbn [orb].
  destruct (attribute_loop _ _ _ _) as [[s'|]|] eqn:El; try done. intros E. inv E.
  split; [done|]. exists l0, l1. split_and!; try done. by eapply (attribute_loop_within _ _ _ 20).
Qed.

Lemma first_username_app before a after :
  Forall (fun b => attr_type b <> USERNAME_ATTRIBUTE_TYPE) before ->
  attr_type a = USERNAME_ATTRIBUTE_TYPE ->
  first_username (before ++ a :: after) = Some (attr_value a).
Proof.
  intros Hb Ha. induction Hb as [|b before Hb _ IH]; cbn.
  - by rewrite Ha.
  - by rewrite (proj2 (Z.eqb_neq _ _)).
Qed.

Lemma first_username_in attrs v : first_username attrs = Some v -> len v <= len (body attrs).
Proof.
  induction attrs as [|a attrs IH]; [done|]. cbn [first_username]. rewrite body_cons, len_app, len_attribute.
  pose proof (len_nonneg (attr_padding a)). pose proof (len_nonneg (attr_value a)).
  pose proof (len_nonneg (body attrs)). case_match; [intros [= <-]; lia|]. intros E%IH. lia.
Qed.

(** In a well-formed STUN message, with any attributes in any order, any
    padding bytes and any bytes after it, the server fragment found is the part
    before the first colon of the first USERNAME attribute; there is none
    exactly when there is no such attribute or it has no colon. *)
Theorem server_ufrag_exact mt tx attrs trailing tok :
  message_wf mt tx attrs ->
  (server_ufrag (stun_message mt tx attrs ++ trailing) = Some tok <->
   exists rest, first_username attrs = Some (tok ++ COLON :: rest) /\ (COLON ∉ tok)).
Proof.
  intros H. unfold server_ufrag. rewrite written_username by done.
  destruct H as (_ & _ & _ & Hfit). unfold fits in Hfit.
  destruct (first_username attrs) as [v|] eqn:Ev; cbn [mbind option_bind].
  - apply first_username_in in Ev. rewrite first_token_spec by lia.
    split; intros (rest & E & Hc); exists rest; by simplify_eq.
  - split; [done|]. intros (? & ? & _). done.
Qed.

(** The colon is not a base32 digit, so no fragment contains it. *)
Lemma colon_not_in_ufrag u : ufrag_wf u -> COLON ∉ encode_ascii u.
Proof.
  intros Hu Hin. destruct (decode_ascii_cases (encode_ascii u)) as [[Hbad _]|(_ & Hn & _)].
  - pose proof (decode_ascii_spelling (encode_ascii u) (encode_raw u) eq_refl (encode_raw_bytes u Hu) eq_refl) as E.
    rewrite decode_raw_encode in E by done. destruct Hbad as [Hl|Hn]; [done|].
    rewrite bad_char_rejected in E; done.
  - apply Hn. unfold values. apply list_elem_of_In, in_map_iff. exists COLON.
    split; [done|]. by apply list_elem_of_In.
Qed.

Lemma decode_ufrag_token_ok token u :
  decode_ufrag_token token = Ok u <-> ufrag_wf u /\ values token = values (encode_ascii u).
Proof.
  unfold decode_ufrag_token. split.
  - destruct (Z.eqb_spec (len token) (Z.of_nat ENCODED_LEN)); [|done]. cbn [negb].
    destruct (decode_ascii_detailed token) as [u'|] eqn:E; [|done]. intros [= ->].
    destruct (decode_ascii_cases token) as [[_ E']|(_ & _ & raw & Lr & Br & Hv)]; [congruence|].
    rewrite (decode_ascii_spelling token raw) in E by done.
    by destruct (decode_raw_canonical raw u Lr Br E) as [? <-].
  - intros [Hu Hv]. rewrite (decode_ascii_spelling token (encode_raw u)), decode_raw_encode;
      [|done|done|by apply encode_raw_bytes|done].
    assert (len token = Z.of_nat ENCODED_LEN) as ->; [|done]. unfold len. f_equal.
    rewrite <- (length_map crockford_value token). fold (values token). by rewrite Hv.
Qed.

(** A route is determined by its shard and slot. *)
Lemma route_rebuild (t : Route.TransportRoute) :
  fits 32 (route_get t) -> route_new (route_shard t) (route_slot t) = Some t.
Proof.
  destruct t as [p]. intros Hr. destruct (packed_wf_ranges p Hr) as (Hs & Hk & Ep).
  unfold route_new, route_shard, route_slot. cbn [packed TransportRoute_family transport_packed].
  destruct (packed_new_spec _ _ Hs Hk) as [-> _]. rewrite <- Ep. by destruct p.
Qed.

Lemma steer_route_ranges r :
  fits 32 (bits r) -> 0 <= shard r <= ROUTE_SHARD_MASK /\ 0 <= slot r <= ROUTE_SLOT_MASK.
Proof.
  intros Hr. destruct (packed_wf_ranges (mkPackedRoute (bits r)) Hr) as (Hs & Hk & _).
  split; [|exact Hk]. unfold shard. rewrite wrap_small; [exact Hs|].
  unfold PackedRoute.shard in Hs. cbn [packed_bits] in Hs.
  change PackedRoute.MAX_SHARD with 4095 in Hs. unfold fits. lia.
Qed.

(** The verdict a scope gives on a decoded fragment. *)
Definition scope_verdict (scope : NodeScope) (c n s k e : Z) : Bootstrap :=
  if negb (c =? scope_cluster scope) then Reject WrongCluster
  else if negb (n =? scope_node scope) then Reject WrongNode
  else if shard_count scope <=? s then Reject InvalidShard
  else RouteTo s k e.

(** C10. A STUN request that names a fragment the server handed out for a
    transport address is classified, on the node and cluster the fragment names,
    to exactly the shard, slot and epoch of that address (rebuilding the route
    from them gives the address's route), and is rejected for its cluster, its
    node or its shard everywhere else. *)
Theorem bootstrap_reaches_owner c n t e u text scope mt tx before client padding after trailing :
  control.new c n t e = Some u -> adapter_wf u -> control.encode u = Some text ->
  Forall (fun b => attr_type b <> USERNAME_ATTRIBUTE_TYPE) before ->
  let username := mkAttr USERNAME_ATTRIBUTE_TYPE (text ++ COLON :: client) padding in
  message_wf mt tx (before ++ username :: after) ->
  classify_bootstrap (stun_message mt tx (before ++ username :: after) ++ trailing) scope =
    scope_verdict scope c n (route_shard t) (route_slot t) e /\
  route_new (route_shard t) (route_slot t) = Some t.
Proof.
  intros Hu Hwf Et Hb username Hm.
  destruct (adapter_encode c n t e u Hu Hwf) as (sh & Es & Hw & Ef & Hsh & Hsl).
  unfold control.encode in Et. rewrite Es in Et. injection Et as <-.
  assert (cluster_id sh = c /\ node_id sh = n /\ epoch sh = e) as (Ec & En & Ee).
  { unfold control.new in Hu. case_ifs; [|done]. rewrite <- Ef in Hu. by inv Hu. }
  assert (len (attr_value username) < 2 ^ 63) as Hlen.
  { destruct Hm as (_ & _ & _ & Hf). unfold fits in Hf.
    pose proof (first_username_in _ _ (first_username_app before username after Hb eq_refl)). lia. }
  split.
  - unfold classify_bootstrap. rewrite written_is_stun by done. cbn [negb].
    unfold server_ufrag. rewrite written_username, first_username_app by done. cbn [mbind option_bind].
    rewrite (proj2 (first_token_spec _ _ (encode_ascii sh) Hlen)).
    + rewrite (proj2 (decode_ufrag_token_ok (encode_ascii sh) sh)) by done.
      rewrite Ec, En, Hsh, Hsl, Ee. done.
    + exists client. split; [done|]. by apply colon_not_in_ufrag.
  - destruct Hwf as (_ & _ & Hr & _). apply route_rebuild.
    unfold control.new in Hu. case_ifs; [|done]. by injection Hu as <-.
Qed.

(** A routed payload names a shard, slot and epoch that fit their fields. *)
Lemma classify_route_ranges payload scope s k e :
  classify_bootstrap payload scope = RouteTo s k e ->
  0 <= s <= ROUTE_SHARD_MASK /\ 0 <= k <= ROUTE_SLOT_MASK /\ fits 16 e.
Proof.
  unfold classify_bootstrap. destruct (is_stun payload); [|done]. cbn [negb].
  destruct (server_ufrag payload) as [token|]; [|done].
  destruct (decode_ufrag_token token) as [u|err] eqn:Ed; [|done].
  apply decode_ufrag_token_ok in Ed as [(_ & _ & Hr & He) _].
  case_ifs; intros E; inv E. by apply steer_route_ranges in Hr as [? ?].
Qed.

(** Only a STUN payload whose USERNAME spells an in-range fragment for this
    cluster and node is routed, and then to a shard the node has, with a slot
    and epoch that fit their fields; a payload is left to the established
    flows exactly when it is not STUN. *)
Theorem bootstrap_route_sound payload scope :
  (classify_bootstrap payload scope = NotStun <-> is_stun payload = false) /\
  (forall s k e, classify_bootstrap payload scope = RouteTo s k e <->
     is_stun payload = true /\
     exists u token, server_ufrag payload = Some token /\ ufrag_wf u /\
       values token = values (encode_ascii u) /\
       cluster_id u = scope_cluster scope /\ node_id u = scope_node scope /\
       s = shard (transport u) /\ k = slot (transport u) /\ e = epoch u /\ s < shard_count scope) /\
  (forall s k e, classify_bootstrap payload scope = RouteTo s k e ->
     0 <= s <= ROUTE_SHARD_MASK /\ 0 <= k <= ROUTE_SLOT_MASK /\ fits 16 e).
Proof.
  unfold classify_bootstrap. destruct (is_stun payload) eqn:Es; cbn [negb]; [|split_and!; naive_solver].
  destruct (server_ufrag payload) as [token|] eqn:Et; [|split_and!; naive_solver].
  destruct (decode_ufrag_token token) as [u|err] eqn:Ed.
  - pose proof Ed as [Hu Hv]%decode_ufrag_token_ok.
    assert (forall u', ufrag_wf u' -> values token = values (encode_ascii u') -> u' = u) as Uniq.
    { intros u' Hu' Hv'. pose proof (proj2 (decode_ufrag_token_ok token u) (conj Hu Hv)).
      pose proof (proj2 (decode_ufrag_token_ok token u') (conj Hu' Hv')). congruence. }
    split_and!.
    + case_ifs; done.
    + intros s k e. split.
      * case_ifs; intros E; inv E. split; [done|]. exists u, token. split_and!; try done; lia.
      * intros (_ & u' & token' & [= <-] & Hu' & Hv' & Hc & Hn & -> & -> & -> & Hs).
        rewrite (Uniq u') in * by done. rewrite Hc, Hn, !Z.eqb_refl. cbn [negb].
        by rewrite (proj2 (Z.leb_gt _ _)).
    + intros s k e E. apply (classify_route_ranges payload scope s k e). revert E.
      unfold classify_bootstrap. by rewrite Es, Et, Ed.
  - split_and!; [naive_solver| |naive_solver]. intros s k e. split; [done|].
    intros (_ & u & token' & [= <-] & Hu & Hv & _).
    pose proof (proj2 (decode_ufrag_token_ok token u) (conj Hu Hv)). congruence.
Qed.

(** ** Flow affinity *)

Definition flow_wf (k : FlowKey) : Prop :=
  length (src_addr k) = 16%nat /\ length (dst_addr k) = 16%nat /\
  fits 16 (src_port k) /\ fits 16 (dst_port k) /\ pad k = [0; 0; 0].

Lemma length_ne_bytes v : length (ne_bytes v) = 2%nat.
Proof. unfold ne_bytes. by rewrite length_rev, length_be_encode. Qed.

Lemma write_app pre old post source :
  length source = length old ->
  write (pre ++ old ++ post) (length pre) source = pre ++ source ++ post.
Proof.
  intros Hl. unfold write. rewrite decide_True by (rewrite !length_app; lia).
  rewrite take_app_length, Hl, <- drop_drop, drop_app_length, drop_app_length. done.
Qed.

(** The key is its fields one after the other, with zeroed padding. *)
Lemma to_ne_bytes_layout k :
  flow_wf k ->
  to_ne_bytes k = src_addr k ++ dst_addr k ++ ne_bytes (src_port k) ++ ne_bytes (dst_port k) ++
                  [is_ipv6 k] ++ pad k.
Proof.
  intros (Hs & Hd & _ & _ & ->). unfold to_ne_bytes.
  pose proof (write_app [] (replicate 16 0) (replicate 24 0) (src_addr k) Hs) as E1.
  pose proof (write_app (src_addr k) (replicate 16 0) (replicate 8 0) (dst_addr k) Hd) as E2.
  pose proof (write_app (src_addr k ++ dst_addr k) [0; 0] (replicate 6 0) (ne_bytes (src_port k))
                (length_ne_bytes _)) as E3.
  pose proof (write_app (src_addr k ++ dst_addr k ++ ne_bytes (src_port k)) [0; 0] (replicate 4 0)
                (ne_bytes (dst_port k)) (length_ne_bytes _)) as E4.
  pose proof (write_app (src_addr k ++ dst_addr k ++ ne_bytes (src_port k) ++ ne_bytes (dst_port k))
                [0] [0; 0; 0] [is_ipv6 k] eq_refl) as E5.
  rewrite !length_app, Hs, ?Hd, ?length_ne_bytes in *. rewrite <- !app_assoc in *.
  cbn [Nat.add app length] in *.
  change (replicate FLOW_KEY_LEN 0) with (replicate 16 0 ++ replicate 24 0). rewrite E1.
  change (replicate 24 0) with (replicate 16 0 ++ replicate 8 0). rewrite E2.
  change (replicate 8 0) with ([0; 0] ++ replicate 6 0). cbn [app] in *. rewrite E3.
  change (replicate 6 0) with ([0; 0] ++ replicate 4 0). cbn [app] in *. rewrite E4. exact E5.
Qed.

(** Different flows have different map keys. *)
Lemma to_ne_bytes_inj k k' :
  flow_wf k -> flow_wf k' -> to_ne_bytes k = to_ne_bytes k' -> k = k'.
Proof.
  intros Hk Hk'. rewrite !to_ne_bytes_layout by done.
  destruct k as [s d sp dp v6 p], k' as [s' d' sp' dp' v6' p'].
  destruct Hk as (Hs & Hd & Hsp & Hdp & Ep), Hk' as (Hs' & Hd' & Hsp' & Hdp' & Ep').
  cbn [src_addr dst_addr src_port dst_port is_ipv6 pad] in *. subst p p'.
  intros E. apply app_inj_1 in E as [-> E]; [|congruence]. apply app_inj_1 in E as [-> E]; [|congruence].
  apply app_inj_1 in E as [E1 E]; [|by rewrite !length_ne_bytes].
  apply app_inj_1 in E as [E2 E]; [|by rewrite !length_ne_bytes].
  injection E as ->.
  apply rev_inj, (be_encode_inj 2) in E1 as ->; [|done..].
  apply rev_inj, (be_encode_inj 2) in E2 as ->; [|done..]. done.
Qed.

(** A flow is sent to a shard only if the node has that shard. *)
Lemma steer_flow_spec {L} `{!FlowLookup L} (l : L) k n s :
  steer_flow l k n = Select s <-> lookup_flow l k = Some s /\ s < n /\ s < 2 ^ 12.
Proof.
  unfold steer_flow. change MAX_SHARDS with (2 ^ 12). destruct (lookup_flow l k) as [s'|].
  - destruct (Z.ltb_spec s' n), (Z.ltb_spec s' (2 ^ 12)); cbn [andb]; split; intros H';
      (discriminate H' || (destruct H' as ([= ->] & ? & ?); lia) || idtac).
    + injection H' as ->. done.
    + destruct H' as ([= ->] & _). done.
  - split; [done|]. by intros [? _].
Qed.

(** ** Concrete runs *)

Definition demo_before : list attribute := [mkAttr 0x24 [110; 0; 1; 255] []].
Definition demo_client : list Z := [112; 101; 101; 114].
Definition demo_route : Route.TransportRoute := route_from_raw (7 * 2 ^ 20 + 12345).
Definition demo_ufrag : control.IceUfrag := control.mkIceUfrag 0xABC 0x1234 demo_route 42.
Definition demo_text : list Z := default [] (control.encode demo_ufrag).
Definition demo_username : attribute :=
  mkAttr USERNAME_ATTRIBUTE_TYPE (demo_text ++ COLON :: demo_client) [0; 0; 0].

Lemma demo_message_wf :
  message_wf 1 (replicate 12 7) (demo_before ++ demo_username :: []).
Proof. repeat split; try (vm_compute; congruence); repeat constructor; vm_compute; congruence. Qed.

Lemma server_ufrag_exact_witness :
  server_ufrag (stun_message 1 (replicate 12 7) (demo_before ++ demo_username :: []) ++ [9; 9]) =
  Some demo_text.
Proof.
  apply (server_ufrag_exact 1 (replicate 12 7) _ [9; 9] demo_text demo_message_wf).
  exists demo_client. split; [reflexivity|]. refine (bool_decide_unpack (COLON ∉ demo_text) _). vm_compute. exact I.
Defined.

Lemma bootstrap_reaches_owner_witness :
  classify_bootstrap
    (stun_message 1 (replicate 12 7) (demo_before ++ demo_username :: []) ++ [9; 9])
    (mkScope 0xABC 0x1234 16) = RouteTo 7 12345 42.
Proof.
  pose proof (bootstrap_reaches_owner 0xABC 0x1234 demo_route 42 demo_ufrag demo_text
    (mkScope 0xABC 0x1234 16) 1 (replicate 12 7) demo_before demo_client [0; 0; 0] [] [9; 9]
    eq_refl) as [E _].
  - repeat split; vm_compute; congruence.
  - reflexivity.
  - repeat constructor. vm_compute. congruence.
  - exact demo_message_wf.
  - exact E.
Defined.
