(* ===== verification/Demux.v ===== *)
(** * The UDP demultiplexer

    Models [Demuxer] of [crates/pulsebeam/src/shard/demux.rs]: a cache from
    client socket addresses to transport addresses, with a recency list per
    authentication class and, for every route, one more per class, all four
    threaded through the cache's entries as intrusive doubly linked lists.
    A [HashMap] is a [gmap]. A missing entry where the code has a failing
    [debug_assert!] takes the branch of the release build. [None] is a panic:
    a route out of range, or an [ArrayVec] pushed past its capacity.

    The reference is one list of cached clients, most recent first
    ([lru_demux] and its companions). The theorems say that the four lists
    implement it, that the cache's bounds hold in every run, and whom an
    eviction may displace. *)

From S2P Require Import Prelude Route Ufrag Steer.

Definition MAX_ADDRS_PER_ROUTE : nat := 16.
Definition MAX_ADDR_ENTRIES : Z := 16 * 4096.

#[export] Instance TransportRoute_countable : Countable Route.TransportRoute.
Proof.
  refine (inj_countable' route_get route_from_raw _). by intros [[]].
Defined.

Section Demux.
Context {SocketAddr : Type} `{!EqDecision SocketAddr, !Countable SocketAddr}.

Record LruList := mkLru { lru_head : option SocketAddr; lru_tail : option SocketAddr; lru_len : Z }.

Definition lru_default : LruList := mkLru None None 0.

Record CachedRoute := mkCached {
  address : NodeTransportAddress;
  authenticated : bool;
  global_prev : option SocketAddr;
  global_next : option SocketAddr;
  route_prev : option SocketAddr;
  route_next : option SocketAddr;
}.

Record RouteLists := mkRouteLists { route_unauthenticated : LruList; route_authenticated : LruList }.

Record Demuxer := mkDemuxer {
  addr_map : gmap SocketAddr CachedRoute;
  route_addrs : gmap Route.TransportRoute RouteLists;
  all_unauthenticated : LruList;
  all_authenticated : LruList;
  cluster_id : Z;
  node_id : Z;
  shard_count : Z;
}.

Definition for_node (cluster node shards : Z) : Demuxer :=
  mkDemuxer ∅ ∅ lru_default lru_default cluster node shards.

Definition demuxer_new : Demuxer := for_node 0 0 (Z.min MAX_SHARDS (umax 16)).

Definition with_map (d : Demuxer) m : Demuxer :=
  mkDemuxer m (route_addrs d) (all_unauthenticated d) (all_authenticated d)
    (cluster_id d) (node_id d) (shard_count d).
Definition with_routes (d : Demuxer) rs : Demuxer :=
  mkDemuxer (addr_map d) rs (all_unauthenticated d) (all_authenticated d)
    (cluster_id d) (node_id d) (shard_count d).

(** [list_mut] and [route_list_mut]: reading the list and writing it back;
    [route_list_mut] creates the route's entry ([or_default]). *)
Definition list_of (d : Demuxer) (auth : bool) : LruList :=
  if auth then all_authenticated d else all_unauthenticated d.
Definition set_list (d : Demuxer) (auth : bool) (l : LruList) : Demuxer :=
  mkDemuxer (addr_map d) (route_addrs d)
    (if auth then all_unauthenticated d else l) (if auth then l else all_authenticated d)
    (cluster_id d) (node_id d) (shard_count d).

Definition route_entry (d : Demuxer) (r : Route.TransportRoute) : RouteLists :=
  default (mkRouteLists lru_default lru_default) (route_addrs d !! r).
Definition route_list_of (d : Demuxer) (r : Route.TransportRoute) (auth : bool) : LruList :=
  if auth then route_authenticated (route_entry d r) else route_unauthenticated (route_entry d r).
Definition set_route_list (d : Demuxer) (r : Route.TransportRoute) (auth : bool) (l : LruList) : Demuxer :=
  let e := route_entry d r in
  with_routes d
    (<[r := if auth then mkRouteLists (route_unauthenticated e) l
            else mkRouteLists l (route_authenticated e)]> (route_addrs d)).

(** ** The two intrusive chains

    [unlink_global]/[link_global_front] and [unlink_route]/[link_route_front]
    are the same list surgery on different link fields. *)
Inductive chain := GlobalChain | RouteChain.

Definition prev_of (h : chain) (c : CachedRoute) : option SocketAddr :=
  match h with GlobalChain => global_prev c | RouteChain => route_prev c end.
Definition next_of (h : chain) (c : CachedRoute) : option SocketAddr :=
  match h with GlobalChain => global_next c | RouteChain => route_next c end.
Definition set_links (h : chain) (p n : option SocketAddr) (c : CachedRoute) : CachedRoute :=
  match h with
  | GlobalChain => mkCached (address c) (authenticated c) p n (route_prev c) (route_next c)
  | RouteChain => mkCached (address c) (authenticated c) (global_prev c) (global_next c) p n
  end.
Definition set_prev (h : chain) (p : option SocketAddr) (c : CachedRoute) : CachedRoute :=
  set_links h p (next_of h c) c.
Definition set_next (h : chain) (n : option SocketAddr) (c : CachedRoute) : CachedRoute :=
  set_links h (prev_of h c) n c.

Definition unlink_list (l : LruList) (addr : SocketAddr) (prev next : option SocketAddr) : LruList :=
  mkLru (if decide (lru_head l = Some addr) then next else lru_head l)
        (if decide (lru_tail l = Some addr) then prev else lru_tail l)
        (saturating_sub (lru_len l) 1).

Definition link_list (l : LruList) (addr : SocketAddr) : LruList :=
  mkLru (Some addr) (match lru_tail l with None => Some addr | t => t end)
        (saturating_add 64 (lru_len l) 1).

Definition alter_at (o : option SocketAddr) (f : CachedRoute -> CachedRoute)
    (m : gmap SocketAddr CachedRoute) : gmap SocketAddr CachedRoute :=
  match o with Some k => alter f k m | None => m end.

Definition unlink_map (h : chain) (m : gmap SocketAddr CachedRoute) (addr : SocketAddr)
    (entry : CachedRoute) : gmap SocketAddr CachedRoute :=
  let m := alter_at (prev_of h entry) (set_next h (next_of h entry)) m in
  let m := alter_at (next_of h entry) (set_prev h (prev_of h entry)) m in
  alter (set_links h None None) addr m.

Definition link_map (h : chain) (m : gmap SocketAddr CachedRoute) (addr : SocketAddr)
    (head : option SocketAddr) : gmap SocketAddr CachedRoute :=
  alter_at head (set_prev h (Some addr)) (alter (set_links h None head) addr m).

Definition unlink_global (d : Demuxer) (addr : SocketAddr) : Demuxer :=
  match addr_map d !! addr with
  | None => d
  | Some e =>
      let d := set_list d (authenticated e)
                 (unlink_list (list_of d (authenticated e)) addr (global_prev e) (global_next e)) in
      with_map d (unlink_map GlobalChain (addr_map d) addr e)
  end.

Definition link_global_front (d : Demuxer) (addr : SocketAddr) (auth : bool) : Demuxer :=
  match addr_map d !! addr with
  | None => d
  | Some _ =>
      let d' := with_map d (link_map GlobalChain (addr_map d) addr (lru_head (list_of d auth))) in
      set_list d' auth (link_list (list_of d auth) addr)
  end.

Definition unlink_route (d : Demuxer) (addr : SocketAddr) (route : Route.TransportRoute) : Demuxer :=
  match addr_map d !! addr with
  | None => d
  | Some e =>
      let d := set_route_list d route (authenticated e)
                 (unlink_list (route_list_of d route (authenticated e)) addr
                    (route_prev e) (route_next e)) in
      let d := with_map d (unlink_map RouteChain (addr_map d) addr e) in
      match route_addrs d !! route with
      | Some ls =>
          if (lru_len (route_unauthenticated ls) =? 0) && (lru_len (route_authenticated ls) =? 0)
          then with_routes d (delete route (route_addrs d)) else d
      | None => d
      end
  end.

(** [route_list_mut(..).head] creates the route's entry before the cache is
    consulted. *)
Definition link_route_front (d : Demuxer) (addr : SocketAddr) (route : Route.TransportRoute)
    (auth : bool) : Demuxer :=
  let l := route_list_of d route auth in
  let d := set_route_list d route auth l in
  match addr_map d !! addr with
  | None => d
  | Some _ =>
      let d := with_map d (link_map RouteChain (addr_map d) addr (lru_head l)) in
      set_route_list d route auth (link_list l addr)
  end.

(** ** Operations *)

Definition route_of (a : NodeTransportAddress) : Route.TransportRoute := transport_route a.

Definition touch (d : Demuxer) (addr : SocketAddr) : Demuxer :=
  match addr_map d !! addr with
  | None => d
  | Some e =>
      let d := unlink_global d addr in
      let d := unlink_route d addr (route_of (address e)) in
      let d := link_global_front d addr (authenticated e) in
      link_route_front d addr (route_of (address e)) (authenticated e)
  end.

Definition remove_entry (d : Demuxer) (addr : SocketAddr) : Demuxer * option CachedRoute :=
  match addr_map d !! addr with
  | None => (d, None)
  | Some e =>
      let d := unlink_global d addr in
      let d := unlink_route d addr (route_of (address e)) in
      (with_map d (delete addr (addr_map d)), addr_map d !! addr)
  end.

Definition option_or {A} (x y : option A) : option A := match x with Some _ => x | None => y end.

Definition evict_global (d : Demuxer) : Demuxer :=
  match option_or (lru_tail (all_unauthenticated d)) (lru_tail (all_authenticated d)) with
  | None => d
  | Some victim => (remove_entry d victim).1
  end.

Definition evict_route (d : Demuxer) (route : Route.TransportRoute) : Demuxer :=
  match (ls ← route_addrs d !! route;
         option_or (lru_tail (route_unauthenticated ls)) (lru_tail (route_authenticated ls))) with
  | None => d
  | Some victim => (remove_entry d victim).1
  end.

(** The loop of [unregister]. The outer [None] is the panic of [freed.push];
    each turn removes an entry, so one turn more than there are entries is
    enough ([unregister_spec]). *)
Fixpoint unregister_loop (fuel : nat) (d : Demuxer) (route : Route.TransportRoute)
    (freed : list SocketAddr) : option (Demuxer * list SocketAddr) :=
  match (ls ← route_addrs d !! route;
         option_or (lru_head (route_unauthenticated ls)) (lru_head (route_authenticated ls))) with
  | None => Some (d, freed)
  | Some addr =>
      match fuel with
      | O => None
      | S fuel' =>
          let d := (remove_entry d addr).1 in
          if (length freed <? MAX_ADDRS_PER_ROUTE)%nat
          then unregister_loop fuel' d route (freed ++ [addr]) else None
      end
  end.

Definition unregister (d : Demuxer) (route : Route.TransportRoute) : option (Demuxer * list SocketAddr) :=
  unregister_loop (size (addr_map d)) d route [].

Definition cached (d : Demuxer) (src : SocketAddr) : Demuxer * option NodeTransportAddress :=
  match addr_map d !! src with
  | None => (d, None)
  | Some e => (touch d src, Some (address e))
  end.

Definition forget (d : Demuxer) (src : SocketAddr) : Demuxer := (remove_entry d src).1.

Definition route_len (d : Demuxer) (route : Route.TransportRoute) : Z :=
  match route_addrs d !! route with
  | None => 0
  | Some ls => saturating_add 64 (lru_len (route_unauthenticated ls)) (lru_len (route_authenticated ls))
  end.

Definition admit_entry (d : Demuxer) (src : SocketAddr) (a : NodeTransportAddress) (auth : bool) : Demuxer :=
  let d := if MAX_ADDR_ENTRIES <=? Z.of_nat (size (addr_map d)) then evict_global d else d in
  let d := if Z.of_nat MAX_ADDRS_PER_ROUTE <=? route_len d (route_of a)
           then evict_route d (route_of a) else d in
  if Z.of_nat MAX_ADDRS_PER_ROUTE <=? route_len d (route_of a) then d
  else
    let d := with_map d (<[src := mkCached a auth None None None None]> (addr_map d)) in
    let d := link_global_front d src auth in
    link_route_front d src (route_of a) auth.

Definition demux (d : Demuxer) (src : SocketAddr) (data : list Z)
    : option (Demuxer * option NodeTransportAddress) :=
  if negb (is_stun data) then Some (cached d src)
  else
    match classify_bootstrap data (mkScope (cluster_id d) (node_id d) (shard_count d)) with
    | RouteTo shard slot epoch =>
        route ← route_new shard slot;
        let a := mkNodeTransportAddress route epoch in
        if decide (address <$> addr_map d !! src = Some a) then Some (touch d src, Some a)
        else Some (admit_entry (forget d src) src a false, Some a)
    | NotStun | Reject _ => Some (cached d src)
    end.

(** Writing the address and class of a cached entry between unlinking and
    linking. *)
Definition rewrite_entry (a : NodeTransportAddress) (auth : bool) (c : CachedRoute) : CachedRoute :=
  mkCached a auth (global_prev c) (global_next c) (route_prev c) (route_next c).

Definition learn (d : Demuxer) (src : SocketAddr) (a : NodeTransportAddress) : Demuxer :=
  match addr_map d !! src with
  | Some e =>
      if decide (route_of (address e) = route_of a) then
        let auth := authenticated e && (transport_epoch (address e) =? transport_epoch a) in
        let d := unlink_global d src in
        let d := unlink_route d src (route_of a) in
        let d := with_map d (alter (rewrite_entry a auth) src (addr_map d)) in
        let d := link_global_front d src auth in
        link_route_front d src (route_of a) auth
      else admit_entry (forget d src) src a false
  | None => admit_entry d src a false
  end.

Definition authenticate (d : Demuxer) (src : SocketAddr) (a : NodeTransportAddress) : Demuxer :=
  match addr_map d !! src with
  | Some e =>
      if decide (address e = a) then
        if negb (authenticated e) then
          let d := unlink_global d src in
          let d := unlink_route d src (route_of a) in
          let d := with_map d (alter (rewrite_entry a true) src (addr_map d)) in
          let d := link_global_front d src true in
          link_route_front d src (route_of a) true
        else touch d src
      else d
  | None => d
  end.

(** ** Linked segments

    [seg h m p l n]: the entries [l] of the map form a chain whose first entry
    points back to [p] and whose last one points on to [n]. *)

Definition first_or (l : list SocketAddr) (n : option SocketAddr) : option SocketAddr :=
  match l with [] => n | x :: _ => Some x end.
Definition last_or (p : option SocketAddr) (l : list SocketAddr) : option SocketAddr :=
  option_or (last l) p.

Fixpoint seg (h : chain) (m : gmap SocketAddr CachedRoute) (p : option SocketAddr)
    (l : list SocketAddr) (n : option SocketAddr) : Prop :=
  match l with
  | [] => True
  | x :: l' =>
      (exists c, m !! x = Some c /\ prev_of h c = p /\ next_of h c = first_or l' n) /\
      seg h m (Some x) l' n
  end.

Lemma links_set h p n c : prev_of h (set_links h p n c) = p /\ next_of h (set_links h p n c) = n.
Proof. by destruct h. Qed.

Lemma links_other h h' p n c :
  h <> h' -> prev_of h (set_links h' p n c) = prev_of h c /\ next_of h (set_links h' p n c) = next_of h c.
Proof. by destruct h, h'. Qed.

Lemma last_or_snoc p l x : last_or p (l ++ [x]) = Some x.
Proof. unfold last_or. by rewrite last_snoc. Qed.

Lemma last_or_cons p x l : last_or p (x :: l) = last_or (Some x) l.
Proof. unfold last_or. rewrite last_cons. by destruct (last l). Qed.

Lemma seg_app h m p l1 l2 n :
  seg h m p (l1 ++ l2) n <-> seg h m p l1 (first_or l2 n) /\ seg h m (last_or p l1) l2 n.
Proof.
  revert p. induction l1 as [|x l1 IH]; intros p; cbn [seg app]; [tauto|].
  rewrite IH, last_or_cons. destruct l1; cbn [first_or app]; tauto.
Qed.

(** A segment depends only on the links of its own entries. *)
Lemma seg_agree h m m' p l n :
  (forall x c, x ∈ l -> m !! x = Some c ->
     exists c', m' !! x = Some c' /\ prev_of h c' = prev_of h c /\ next_of h c' = next_of h c) ->
  seg h m p l n -> seg h m' p l n.
Proof.
  revert p. induction l as [|x l IH]; intros p Ha; cbn [seg]; [done|].
  intros [(c & Hx & Hp & Hn) Hs]. split.
  - destruct (Ha x c) as (c' & Hx' & Ep & En); [set_solver|done|]. exists c'. by rewrite Ep, En.
  - apply IH; [|done]. intros y cy Hy. apply Ha. set_solver.
Qed.

Lemma seg_frame h m p l n f x : x ∉ l -> seg h m p l n -> seg h (alter f x m) p l n.
Proof.
  intros Hx. apply seg_agree. intros y c Hy Ey. exists c. rewrite lookup_alter_ne; [done|]. by intros ->.
Qed.

(** Changing something other than the chain's links keeps its segments. *)
Lemma seg_keep h m p l n f x :
  (forall c, prev_of h (f c) = prev_of h c /\ next_of h (f c) = next_of h c) ->
  seg h m p l n -> seg h (alter f x m) p l n.
Proof.
  intros Hf. apply seg_agree. intros y c _ Ey. destruct (decide (x = y)) as [->|Hne].
  - exists (f c). rewrite lookup_alter_eq, Ey. split; [done|]. apply Hf.
  - exists c. by rewrite lookup_alter_ne.
Qed.

Lemma seg_set_next h m p l x n n' :
  NoDup (l ++ [x]) -> seg h m p (l ++ [x]) n -> seg h (alter (set_next h n') x m) p (l ++ [x]) n'.
Proof.
  intros [_ [Hd _]]%NoDup_app. rewrite !seg_app. cbn [first_or seg]. intros [Hs [(c & Hx & Hp & _) _]].
  split; [apply seg_frame; [|done]; intros H'; specialize (Hd x H'); set_solver|]. split; [|done].
  exists (set_next h n' c). rewrite lookup_alter_eq, Hx. split; [done|].
  unfold set_next. destruct (links_set h (prev_of h c) n' c) as [-> ->]. done.
Qed.

Lemma seg_set_prev h m p p' x l n :
  x ∉ l -> seg h m p (x :: l) n -> seg h (alter (set_prev h p') x m) p' (x :: l) n.
Proof.
  intros Hx [(c & Ex & _ & Hn) Hs]. split; [|by apply seg_frame].
  exists (set_prev h p' c). rewrite lookup_alter_eq, Ex. split; [done|].
  unfold set_prev. destruct (links_set h p' (next_of h c) c) as [-> ->]. done.
Qed.

Lemma seg_alter_last h m p l n n' :
  NoDup l -> seg h m p l n ->
  seg h (alter_at (last_or None l) (set_next h n') m) p l n'.
Proof.
  intros Hnd Hs. destruct (decide (l = [])) as [->|Hne]; [done|].
  destruct (exists_last Hne) as (l' & x & ->). rewrite last_or_snoc. cbn [alter_at].
  by eapply seg_set_next.
Qed.

Lemma seg_alter_first h m p p' l n :
  NoDup l -> seg h m p l n -> seg h (alter_at (first_or l None) (set_prev h p') m) p' l n.
Proof.
  intros Hnd Hs. destruct l as [|x l]; [done|]. apply NoDup_cons in Hnd as [Hx _]. by eapply seg_set_prev.
Qed.

Lemma seg_frame_at h m p l n f o : (forall x, o = Some x -> x ∉ l) -> seg h m p l n -> seg h (alter_at o f m) p l n.
Proof. intros Ho Hs. destruct o as [x|]; [|done]. apply seg_frame; [|done]. by apply Ho. Qed.

Lemma seg_keep_at h m p l n f o :
  (forall c, prev_of h (f c) = prev_of h c /\ next_of h (f c) = next_of h c) ->
  seg h m p l n -> seg h (alter_at o f m) p l n.
Proof. intros Hf Hs. destruct o as [x|]; [|done]. by apply seg_keep. Qed.

(** ** Unlinking and linking *)

Lemma first_or_elem l x : first_or l None = Some x -> x ∈ l.
Proof. destruct l; [done|]. intros [= ->]. set_solver. Qed.

Lemma last_or_elem l x : last_or None l = Some x -> x ∈ l.
Proof.
  unfold last_or. destruct (last l) as [y|] eqn:E; [|done]. intros [= ->].
  apply last_Some in E as [l' ->]. set_solver.
Qed.

Lemma unlink_seg h m l1 a l2 c :
  NoDup (l1 ++ a :: l2) -> seg h m None (l1 ++ a :: l2) None -> m !! a = Some c ->
  prev_of h c = last_or None l1 /\ next_of h c = first_or l2 None /\
  seg h (unlink_map h m a c) None (l1 ++ l2) None.
Proof.
  intros Hnd Hs Ha. apply seg_app in Hs as [H1 [(c' & Ha' & Hp & Hn) H2]]. simplify_eq.
  split_and!; [done..|]. unfold unlink_map. rewrite Hp, Hn.
  apply NoDup_app in Hnd as (N1 & Hd & [Ha2 N2]%NoDup_cons).
  assert (a ∉ l1) as Ha1 by (intros H'; specialize (Hd a H'); set_solver).
  apply seg_app. split; (apply seg_frame; [done|]).
  - apply seg_frame_at.
    { intros x Hx%first_or_elem H'. specialize (Hd x H'). set_solver. }
    by eapply seg_alter_last.
  - eapply seg_alter_first; [done|]. apply seg_frame_at; [|exact H2].
    intros x Hx%last_or_elem H'. specialize (Hd x Hx). set_solver.
Qed.

Lemma unlink_frame h m a c p l n :
  a ∉ l -> (forall x, prev_of h c = Some x -> x ∉ l) -> (forall x, next_of h c = Some x -> x ∉ l) ->
  seg h m p l n -> seg h (unlink_map h m a c) p l n.
Proof. intros. by apply seg_frame, seg_frame_at, seg_frame_at. Qed.

Lemma unlink_keep h h' m a c p l n : h <> h' -> seg h m p l n -> seg h (unlink_map h' m a c) p l n.
Proof.
  intros Hh Hs. apply seg_keep; [intros; by apply links_other|].
  apply seg_keep_at; [intros; by apply links_other|]. apply seg_keep_at; [intros; by apply links_other|done].
Qed.

Lemma link_seg h m l a c :
  NoDup (a :: l) -> m !! a = Some c -> seg h m None l None ->
  seg h (link_map h m a (first_or l None)) None (a :: l) None.
Proof.
  intros [Ha Hnd]%NoDup_cons Em Hs. split.
  - exists (set_links h None (first_or l None) c). split; [|apply links_set]. unfold link_map.
    destruct l as [|x l]; cbn [first_or alter_at].
    + by rewrite lookup_alter_eq, Em.
    + rewrite lookup_alter_ne by (intros ->; set_solver). by rewrite lookup_alter_eq, Em.
  - unfold link_map. eapply seg_alter_first; [done|]. apply seg_frame; [done|exact Hs].
Qed.

Lemma link_frame h m a o p l n :
  a ∉ l -> (forall x, o = Some x -> x ∉ l) -> seg h m p l n -> seg h (link_map h m a o) p l n.
Proof. intros. by apply seg_frame_at, seg_frame. Qed.

Lemma link_keep h h' m a o p l n : h <> h' -> seg h m p l n -> seg h (link_map h' m a o) p l n.
Proof.
  intros Hh Hs. apply seg_keep_at; [intros; by apply links_other|].
  apply seg_keep; [intros; by apply links_other|done].
Qed.

(** The list header of a chain. *)
Definition lru_for (l : list SocketAddr) : LruList :=
  mkLru (first_or l None) (last_or None l) (Z.of_nat (length l)).

Lemma unlink_list_ok l1 a l2 :
  NoDup (l1 ++ a :: l2) ->
  unlink_list (lru_for (l1 ++ a :: l2)) a (last_or None l1) (first_or l2 None) = lru_for (l1 ++ l2).
Proof.
  intros Hnd. apply NoDup_app in Hnd as (N1 & Hd & [Ha2 N2]%NoDup_cons).
  unfold unlink_list, lru_for. cbn [lru_head lru_tail lru_len]. f_equal.
  - destruct l1 as [|x l1]; cbn; [by rewrite decide_True|]. rewrite decide_False; [done|].
    intros [= ->]. specialize (Hd a). set_solver.
  - unfold last_or. rewrite !last_app, last_cons. destruct (last l2) as [y|] eqn:E; cbn [option_or].
    + rewrite decide_False; [done|]. intros [= ->]. apply last_Some in E as [l' ->]. set_solver.
    + rewrite decide_True by done. by destruct (last l1).
  - unfold saturating_sub. rewrite !length_app. cbn [length]. lia.
Qed.

Lemma link_list_ok l a :
  Z.of_nat (length l) < 2 ^ 63 -> link_list (lru_for l) a = lru_for (a :: l).
Proof.
  intros Hl. unfold link_list, lru_for. cbn [lru_head lru_tail lru_len first_or length]. f_equal.
  - rewrite last_or_cons. unfold last_or. by destruct (last l).
  - rewrite saturating_add_small; lia.
Qed.

(** ** Payloads *)

Definition payload (c : CachedRoute) : NodeTransportAddress * bool := (address c, authenticated c).
Definition view (m : gmap SocketAddr CachedRoute) : gmap SocketAddr (NodeTransportAddress * bool) :=
  payload <$> m.

Lemma view_alter f x m : (forall c, payload (f c) = payload c) -> view (alter f x m) = view m.
Proof.
  intros Hf. apply map_eq. intros y. unfold view. rewrite !lookup_fmap.
  destruct (decide (x = y)) as [->|]; [|by rewrite lookup_alter_ne].
  rewrite lookup_alter_eq. destruct (m !! y); cbn; [|done]. by rewrite Hf.
Qed.

Lemma payload_links h p n c : payload (set_links h p n c) = payload c.
Proof. by destruct h. Qed.

Lemma view_alter_at f o m : (forall c, payload (f c) = payload c) -> view (alter_at o f m) = view m.
Proof. intros. destruct o; [by apply view_alter|done]. Qed.

Lemma view_unlink h m a c : view (unlink_map h m a c) = view m.
Proof.
  unfold unlink_map. rewrite view_alter, !view_alter_at; intros; first [done | apply payload_links].
Qed.

Lemma view_link h m a o : view (link_map h m a o) = view m.
Proof. unfold link_map. rewrite view_alter_at, view_alter; intros; first [done | apply payload_links]. Qed.

Lemma view_Some m a v : view m !! a = Some v <-> exists c, m !! a = Some c /\ payload c = v.
Proof. unfold view. rewrite lookup_fmap_Some. naive_solver. Qed.

(** ** The four families of lists

    [links d g ro]: the global list of class [b] is [g b] and the list of class
    [b] of route [r] is [ro r b]; different lists share no entry, and a route
    is indexed only while it has an entry. *)

Record links (d : Demuxer) (g : bool -> list SocketAddr)
    (ro : Route.TransportRoute -> bool -> list SocketAddr) : Prop := mk_links {
  lk_global b : list_of d b = lru_for (g b) /\ seg GlobalChain (addr_map d) None (g b) None;
  lk_route r b : route_list_of d r b = lru_for (ro r b) /\ seg RouteChain (addr_map d) None (ro r b) None;
  lk_gnd b : NoDup (g b);
  lk_rnd r b : NoDup (ro r b);
  lk_gdis b b' x : x ∈ g b -> x ∈ g b' -> b = b';
  lk_rdis r b r' b' x : x ∈ ro r b -> x ∈ ro r' b' -> r = r' /\ b = b';
  lk_indexed r : is_Some (route_addrs d !! r) -> ro r false ++ ro r true <> [];
}.

Lemma links_ext d g g' ro ro' :
  (forall b, g b = g' b) -> (forall r b, ro r b = ro' r b) -> links d g ro -> links d g' ro'.
Proof.
  intros Eg Er [G R N1 N2 D1 D2 I].
  split; intros; rewrite <- ?Eg, <- ?Er in *; eauto.
Qed.

Definition gput (g : bool -> list SocketAddr) (b : bool) (l : list SocketAddr) (b' : bool) :=
  if decide (b' = b) then l else g b'.
Definition rput (ro : Route.TransportRoute -> bool -> list SocketAddr) r b l r' b' :=
  if decide (r' = r /\ b' = b) then l else ro r' b'.

Lemma list_of_set d b l b' : list_of (set_list d b l) b' = if decide (b' = b) then l else list_of d b'.
Proof. by destruct b, b'. Qed.

Lemma route_list_of_set d r b l r' b' :
  route_list_of (set_route_list d r b l) r' b' =
  if decide (r' = r /\ b' = b) then l else route_list_of d r' b'.
Proof.
  unfold route_list_of, set_route_list, route_entry. cbn [route_addrs with_routes].
  destruct (decide (r' = r)) as [->|Hr].
  - rewrite lookup_insert_eq. cbn [default]. destruct b, b'; case_decide; naive_solver.
  - rewrite lookup_insert_ne by congruence. rewrite (decide_False (P := r' = r /\ b' = b)) by tauto. done.
Qed.

(** Frames: what a step on one chain does to the lists it does not edit. *)
Lemma unlink_global_links d g ro a c l1 l2 :
  links d g ro -> addr_map d !! a = Some c -> g (authenticated c) = l1 ++ a :: l2 ->
  links (unlink_global d a) (gput g (authenticated c) (l1 ++ l2)) ro /\
  view (addr_map (unlink_global d a)) = view (addr_map d).
Proof.
  intros [G R N1 N2 D1 D2 I] Ha Eg. set (b0 := authenticated c) in *.
  destruct (G b0) as [GL GS]. rewrite Eg in GS, GL. pose proof (N1 b0) as Nb. rewrite Eg in Nb.
  destruct (unlink_seg _ _ _ _ _ _ Nb GS Ha) as (Hp & Hn & Hs).
  unfold unlink_global. rewrite Ha. fold b0. cbn [prev_of next_of] in Hp, Hn. split.
  - assert (forall x, x ∈ l1 ++ l2 -> x ∈ g b0) as Sub by (rewrite Eg; set_solver).
    split; unfold gput.
    + intros b. cbn [with_map addr_map]. destruct (decide (b = b0)) as [->|Hb].
      * split; [|exact Hs]. change (list_of (with_map ?x _) b0) with (list_of x b0).
        rewrite list_of_set, decide_True, GL, Hp, Hn by done. by apply unlink_list_ok.
      * destruct (G b) as [GL' GS']. split.
        -- change (list_of (with_map ?x _) b) with (list_of x b). by rewrite list_of_set, decide_False.
        -- assert (forall x, x ∈ l1 ++ a :: l2 -> x ∉ g b) as Hout.
           { intros x Hx Hx'. rewrite <- Eg in Hx. by destruct Hb; eapply D1. }
           apply unlink_frame; [apply Hout; set_solver| | |exact GS']; cbn [prev_of next_of].
           ++ intros x. rewrite Hp. intros Hx%last_or_elem. apply Hout. set_solver.
           ++ intros x. rewrite Hn. intros Hx%first_or_elem. apply Hout. set_solver.
    + intros r b. destruct (R r b) as [RL RS]. split; [exact RL|]. by apply unlink_keep.
    + intros b. case_decide; [|apply N1]. apply NoDup_app in Nb as (? & ? & [? ?]%NoDup_cons).
      apply NoDup_app. split_and!; [done| |done]. set_solver.
    + apply N2.
    + intros b b' x Hx Hx'. apply (D1 b b' x); repeat case_decide; subst; auto.
    + apply D2.
    + apply I.
  - cbn [with_map addr_map set_list]. apply view_unlink.
Qed.

Lemma link_global_links d g ro a c b0 :
  links d g ro -> addr_map d !! a = Some c -> (forall b, a ∉ g b) ->
  Z.of_nat (length (g b0)) < 2 ^ 63 ->
  links (link_global_front d a b0) (gput g b0 (a :: g b0)) ro /\
  view (addr_map (link_global_front d a b0)) = view (addr_map d).
Proof.
  intros [G R N1 N2 D1 D2 I] Ha Hout Hl. unfold link_global_front. rewrite Ha.
  destruct (G b0) as [GL GS]. rewrite GL. cbn [lru_head lru_for].
  assert (NoDup (a :: g b0)) as Nb by (constructor; auto).
  split; [|cbn [with_map addr_map set_list]; apply view_link]. split; unfold gput.
  - intros b. cbn [with_map addr_map set_list]. rewrite list_of_set.
    destruct (decide (b = b0)) as [->|Hb].
    + split; [by apply link_list_ok|]. by eapply link_seg.
    + destruct (G b) as [GL' GS']. split; [exact GL'|]. apply link_frame; [by apply Hout| |done].
      intros x Hx%first_or_elem Hx'. by destruct Hb; eapply D1.
  - intros r b. destruct (R r b) as [RL RS]. split; [exact RL|]. by apply link_keep.
  - intros b. case_decide; [done|apply N1].
  - apply N2.
  - intros b b' x. pose proof (Hout b). pose proof (Hout b'). repeat case_decide; subst; auto;
      rewrite ?elem_of_cons; intros Hx Hx'; destruct_or?; subst; try done; eauto.
  - apply D2.
  - apply I.
Qed.

(** Dropping a route whose two lists are empty changes no list. *)
Definition drop_empty (d : Demuxer) (route : Route.TransportRoute) : Demuxer :=
  match route_addrs d !! route with
  | Some ls =>
      if (lru_len (route_unauthenticated ls) =? 0) && (lru_len (route_authenticated ls) =? 0)
      then with_routes d (delete route (route_addrs d)) else d
  | None => d
  end.

Lemma lru_len_0 l : lru_len (lru_for l) = 0 -> l = [].
Proof. destruct l; [done|]. cbn [lru_for lru_len length]. lia. Qed.

Lemma route_list_of_drop d route (ro : Route.TransportRoute -> bool -> list SocketAddr) :
  (forall r b, route_list_of d r b = lru_for (ro r b)) ->
  (forall r b, route_list_of (drop_empty d route) r b = lru_for (ro r b)) /\
  (forall r, is_Some (route_addrs (drop_empty d route) !! r) ->
     is_Some (route_addrs d !! r) /\ (r = route -> ro r false ++ ro r true <> [])).
Proof.
  intros H. unfold drop_empty. destruct (route_addrs d !! route) as [ls|] eqn:E; [|by split; [|intros r [? ?]; split; [done|congruence]]].
  assert (route_unauthenticated ls = lru_for (ro route false)) as Eu
    by (rewrite <- H; unfold route_list_of, route_entry; by rewrite E).
  assert (route_authenticated ls = lru_for (ro route true)) as Ea
    by (rewrite <- H; unfold route_list_of, route_entry; by rewrite E).
  rewrite Eu, Ea. destruct (Z.eqb_spec (lru_len (lru_for (ro route false))) 0) as [Z0|Z0];
    [destruct (Z.eqb_spec (lru_len (lru_for (ro route true))) 0) as [Z1|Z1]|]; cbn [andb].
  - apply lru_len_0 in Z0, Z1. split.
    + intros r b. destruct (decide (r = route)) as [->|Hr].
      * unfold route_list_of, route_entry. cbn [with_routes route_addrs]. rewrite lookup_delete_eq.
        destruct b; cbn; by rewrite ?Z0, ?Z1.
      * rewrite <- H. unfold route_list_of, route_entry. cbn [with_routes route_addrs].
        by rewrite lookup_delete_ne.
    + intros r. cbn [with_routes route_addrs]. rewrite lookup_delete_is_Some. intros [Hr Hs].
      split; [done|]. by intros ->.
  - split; [done|]. intros r Hr. split; [done|]. intros ->. destruct (ro route true); [done|]. by destruct (ro route false).
  - split; [done|]. intros r Hr. split; [done|]. intros ->. by destruct (ro route false).
Qed.

Lemma unlink_route_links d g ro a c l1 l2 r0 :
  links d g ro -> addr_map d !! a = Some c -> ro r0 (authenticated c) = l1 ++ a :: l2 ->
  links (unlink_route d a r0) g (rput ro r0 (authenticated c) (l1 ++ l2)) /\
  view (addr_map (unlink_route d a r0)) = view (addr_map d).
Proof.
  intros [G R N1 N2 D1 D2 I] Ha Er. set (b0 := authenticated c) in *.
  destruct (R r0 b0) as [RL RS]. rewrite Er in RS, RL. pose proof (N2 r0 b0) as Nb. rewrite Er in Nb.
  destruct (unlink_seg _ _ _ _ _ _ Nb RS Ha) as (Hp & Hn & Hs). cbn [prev_of next_of] in Hp, Hn.
  unfold unlink_route. rewrite Ha. fold b0.
  set (d1 := with_map _ _). fold (drop_empty d1 r0).
  assert (addr_map (drop_empty d1 r0) = unlink_map RouteChain (addr_map d) a c) as Em.
  { unfold drop_empty. repeat case_match; done. }
  assert (forall b, list_of (drop_empty d1 r0) b = list_of d b) as El.
  { intros b. unfold drop_empty. repeat case_match; by destruct b. }
  destruct (route_list_of_drop d1 r0 (rput ro r0 b0 (l1 ++ l2))) as [Rl Ri].
  { intros r b. unfold d1. change (route_list_of (with_map ?x _) r b) with (route_list_of x r b).
    rewrite route_list_of_set. unfold rput. case_decide as Hc; [|by destruct (R r b)].
    rewrite RL, Hp, Hn. by apply unlink_list_ok. }
  split; [|rewrite Em; apply view_unlink].
  assert (forall x, x ∈ l1 ++ l2 -> x ∈ ro r0 b0) as Sub by (rewrite Er; set_solver).
  split.
  - intros b. rewrite El, Em. destruct (G b). split; [done|]. by apply unlink_keep.
  - intros r b. split; [apply Rl|]. rewrite Em. unfold rput. case_decide as Hc; [done|].
    assert (forall x, x ∈ l1 ++ a :: l2 -> x ∉ ro r b) as Hout.
    { intros x Hx Hx'. rewrite <- Er in Hx. destruct Hc. by eapply D2. }
    apply unlink_frame; [apply Hout; set_solver| | |by destruct (R r b)]; cbn [prev_of next_of].
    + intros x. rewrite Hp. intros Hx%last_or_elem. apply Hout. set_solver.
    + intros x. rewrite Hn. intros Hx%first_or_elem. apply Hout. set_solver.
  - apply N1.
  - intros r b. unfold rput. case_decide; [|apply N2]. apply NoDup_app in Nb as (? & ? & [? ?]%NoDup_cons).
    apply NoDup_app. split_and!; [done| |done]. set_solver.
  - apply D1.
  - intros r b r' b' x Hx Hx'. apply (D2 r b r' b' x); unfold rput in *; repeat case_decide;
      destruct_and?; subst; auto.
  - intros r Hr. destruct (Ri r Hr) as [Hr' Hne]. destruct (decide (r = r0)) as [->|Hrne]; [by apply Hne|].
    unfold rput. rewrite !decide_False by tauto. apply I. unfold d1 in Hr'.
    cbn [with_map route_addrs set_route_list with_routes] in Hr'. by rewrite lookup_insert_ne in Hr'.
Qed.

Lemma link_route_links d g ro a c r0 b0 :
  links d g ro -> addr_map d !! a = Some c -> (forall r b, a ∉ ro r b) ->
  Z.of_nat (length (ro r0 b0)) < 2 ^ 63 ->
  links (link_route_front d a r0 b0) g (rput ro r0 b0 (a :: ro r0 b0)) /\
  view (addr_map (link_route_front d a r0 b0)) = view (addr_map d).
Proof.
  intros [G R N1 N2 D1 D2 I] Ha Hout Hl. unfold link_route_front.
  cbn [set_route_list with_routes addr_map]. rewrite Ha.
  destruct (R r0 b0) as [RL RS]. rewrite RL. cbn [lru_head lru_for].
  assert (NoDup (a :: ro r0 b0)) as Nb by (constructor; auto).
  split; [|cbn [with_map addr_map]; apply view_link]. split.
  - intros b. cbn [with_map addr_map]. destruct (G b). split; [done|]. by apply link_keep.
  - intros r b. unfold rput.
    change (with_routes ?x ?y) with (set_route_list (with_map (set_route_list d r0 b0 (lru_for (ro r0 b0)))
       (link_map RouteChain (addr_map d) a (first_or (ro r0 b0) None))) r0 b0 (link_list (lru_for (ro r0 b0)) a)).
    rewrite route_list_of_set. case_decide as Hc.
    + destruct Hc as [-> ->]. split; [by apply link_list_ok|]. by eapply link_seg.
    + change (route_list_of (with_map ?x _) r b) with (route_list_of x r b).
      rewrite route_list_of_set, decide_False by done. destruct (R r b) as [RL' RS']. split; [done|].
      apply link_frame; [by apply Hout| |done].
      intros x Hx%first_or_elem Hx'. destruct Hc. by eapply D2.
  - apply N1.
  - intros r b. unfold rput. case_decide; [done|apply N2].
  - apply D1.
  - intros r b r' b' x. pose proof (Hout r b). pose proof (Hout r' b'). unfold rput.
    repeat case_decide; destruct_and?; subst; auto;
      rewrite ?elem_of_cons; intros Hx Hx'; destruct_or?; subst; try done; eauto.
  - intros r. unfold rput. destruct (decide (r = r0)) as [->|Hr].
    + intros _. destruct b0; [rewrite (decide_True (P := r0 = r0 /\ true = true)) by done; by destruct (decide _), (ro r0 false)|].
      by rewrite (decide_True (P := r0 = r0 /\ false = false)).
    + rewrite !decide_False by tauto. cbn. rewrite !lookup_insert_ne by congruence. apply I.
Qed.

(** An entry on no list may come, go or change its payload. *)
Lemma links_delete d g ro a :
  links d g ro -> (forall b, a ∉ g b) -> (forall r b, a ∉ ro r b) ->
  links (with_map d (delete a (addr_map d))) g ro.
Proof.
  intros [G R N1 N2 D1 D2 I] Hg Hr.
  assert (forall h l, a ∉ l -> seg h (addr_map d) None l None ->
            seg h (delete a (addr_map d)) None l None) as F.
  { intros h l Hl. apply seg_agree. intros x c Hx E. exists c.
    rewrite lookup_delete_ne by (by intros ->). done. }
  split; try done; intros; cbn [with_map addr_map].
  - destruct (G b). auto.
  - destruct (R r b). auto.
Qed.

Lemma links_insert d g ro a c :
  links d g ro -> (forall b, a ∉ g b) -> (forall r b, a ∉ ro r b) ->
  links (with_map d (<[a := c]> (addr_map d))) g ro.
Proof.
  intros [G R N1 N2 D1 D2 I] Hg Hr.
  assert (forall h l, a ∉ l -> seg h (addr_map d) None l None ->
            seg h (<[a := c]> (addr_map d)) None l None) as F.
  { intros h l Hl. apply seg_agree. intros x c' Hx E. exists c'.
    rewrite lookup_insert_ne by (by intros ->). done. }
  split; try done; intros; cbn [with_map addr_map].
  - destruct (G b). auto.
  - destruct (R r b). auto.
Qed.

Lemma links_rewrite d g ro a addr auth :
  links d g ro -> links (with_map d (alter (rewrite_entry addr auth) a (addr_map d))) g ro.
Proof.
  intros [G R N1 N2 D1 D2 I]. split; try done; intros; cbn [with_map addr_map].
  - destruct (G b). split; [done|]. by apply seg_keep.
  - destruct (R r b). split; [done|]. by apply seg_keep.
Qed.

(** ** The reference: one recency list *)

Abbreviation entry := (SocketAddr * (NodeTransportAddress * bool))%type.

Definition has_auth (b : bool) (e : entry) : Prop := e.2.2 = b.
Definition on_route (r : Route.TransportRoute) (e : entry) : Prop := route_of e.2.1 = r.
#[local] Instance has_auth_dec b e : Decision (has_auth b e) := decide (e.2.2 = b).
#[local] Instance on_route_dec r e : Decision (on_route r e) := decide (route_of e.2.1 = r).

Definition drop_addr (a : SocketAddr) (L : list entry) : list entry := filter (fun e => e.1 <> a) L.
Definition find_addr (a : SocketAddr) (L : list entry) : option (NodeTransportAddress * bool) :=
  (list_to_map L : gmap _ _) !! a.

(** Moving a client to the front, if it is cached. *)
Definition lru_touch (a : SocketAddr) (L : list entry) : list entry :=
  match find_addr a L with Some v => (a, v) :: drop_addr a L | None => L end.

(** The least recent unauthenticated client among those selected, or else the
    least recent authenticated one. *)
Definition victim (P : entry -> Prop) `{!forall e, Decision (P e)} (L : list entry) : option entry :=
  option_or (last (filter (fun e => P e /\ has_auth false e) L))
            (last (filter (fun e => P e /\ has_auth true e) L)).
Definition lru_evict (P : entry -> Prop) `{!forall e, Decision (P e)} (L : list entry) : list entry :=
  match victim P L with Some e => drop_addr e.1 L | None => L end.

Definition lru_make_room (r : Route.TransportRoute) (L : list entry) : list entry :=
  let L := if MAX_ADDR_ENTRIES <=? Z.of_nat (length L) then lru_evict (fun _ => True) L else L in
  if (MAX_ADDRS_PER_ROUTE <=? length (filter (on_route r) L))%nat then lru_evict (on_route r) L else L.

Definition lru_insert (a : SocketAddr) (addr : NodeTransportAddress) (L : list entry) : list entry :=
  (a, (addr, false)) :: lru_make_room (route_of addr) (drop_addr a L).

Definition lru_cached (a : SocketAddr) (L : list entry) : list entry * option NodeTransportAddress :=
  (lru_touch a L, fst <$> find_addr a L).

(** The transport address a packet names, if it is a request for this node. *)
Definition named_address (scope : NodeScope) (data : list Z) : option NodeTransportAddress :=
  match classify_bootstrap data scope with
  | RouteTo shard slot epoch =>
      route ← route_new shard slot; Some (mkNodeTransportAddress route epoch)
  | NotStun | Reject _ => None
  end.

Definition lru_demux (scope : NodeScope) (a : SocketAddr) (data : list Z) (L : list entry)
    : list entry * option NodeTransportAddress :=
  match named_address scope data with
  | Some addr =>
      (if decide (fst <$> find_addr a L = Some addr) then lru_touch a L else lru_insert a addr L, Some addr)
  | None => lru_cached a L
  end.

Definition lru_learn (a : SocketAddr) (addr : NodeTransportAddress) (L : list entry) : list entry :=
  match find_addr a L with
  | Some (old, auth) =>
      if decide (route_of old = route_of addr)
      then (a, (addr, auth && bool_decide (old = addr))) :: drop_addr a L
      else lru_insert a addr L
  | None => lru_insert a addr L
  end.

Definition lru_authenticate (a : SocketAddr) (addr : NodeTransportAddress) (L : list entry) : list entry :=
  match find_addr a L with
  | Some (old, _) => if decide (old = addr) then (a, (addr, true)) :: drop_addr a L else L
  | None => L
  end.

Definition lru_unregister (r : Route.TransportRoute) (L : list entry) : list entry * list SocketAddr :=
  (filter (fun e => ~ on_route r e) L,
   (filter (fun e => on_route r e /\ has_auth false e) L ++
    filter (fun e => on_route r e /\ has_auth true e) L).*1).

(** ** Facts about the recency list *)

Definition on_route_auth (r : Route.TransportRoute) (b : bool) (e : entry) : Prop :=
  on_route r e /\ has_auth b e.

Definition glob (L : list entry) (b : bool) : list SocketAddr := (filter (has_auth b) L).*1.
Definition rout (L : list entry) (r : Route.TransportRoute) (b : bool) : list SocketAddr :=
  (filter (fun e => on_route r e /\ has_auth b e) L).*1.

Record lru_ok (L : list entry) : Prop := mk_lru_ok {
  lo_nodup : NoDup L.*1;
  lo_size : Z.of_nat (length L) <= MAX_ADDR_ENTRIES;
  lo_route r : (length (filter (on_route r) L) <= MAX_ADDRS_PER_ROUTE)%nat;
}.

Lemma find_addr_Some L a v : NoDup L.*1 -> (find_addr a L = Some v <-> (a, v) ∈ L).
Proof. intros. symmetry. by apply elem_of_list_to_map. Qed.

Lemma find_addr_None L a : find_addr a L = None <-> a ∉ L.*1.
Proof. symmetry. apply not_elem_of_list_to_map. Qed.

Lemma drop_addr_not_in a L : a ∉ (drop_addr a L).*1.
Proof. unfold drop_addr. rewrite list_elem_of_fmap. intros (e & -> & He). apply list_elem_of_filter in He. naive_solver. Qed.

Lemma filter_keep_all {A} (P : A -> Prop) `{!forall x, Decision (P x)} (l : list A) :
  (forall x, x ∈ l -> P x) -> filter P l = l.
Proof.
  intros Hall. induction l as [|x l IH]; [done|]. rewrite filter_cons_True by (apply Hall; set_solver).
  f_equal. apply IH. set_solver.
Qed.

Lemma drop_addr_id a L : a ∉ L.*1 -> drop_addr a L = L.
Proof.
  intros Ha. unfold drop_addr. apply filter_keep_all. intros e He E.
  apply Ha. rewrite <- E. apply list_elem_of_fmap. by exists e.
Qed.

Lemma filter_names P `{!forall e, Decision (P e)} a (L : list entry) :
  (filter P (drop_addr a L)).*1 = filter (fun x => x <> a) (filter P L).*1.
Proof.
  unfold drop_addr. induction L as [|e L IH]; [done|].
  rewrite !filter_cons. destruct (decide (e.1 <> a)), (decide (P e)); cbn [fmap list_fmap];
    rewrite ?filter_cons; repeat case_decide; cbn [fmap list_fmap]; try done; by f_equal.
Qed.

Lemma filter_ne_split (l1 l2 : list SocketAddr) a :
  NoDup (l1 ++ a :: l2) -> filter (fun x => x <> a) (l1 ++ a :: l2) = l1 ++ l2.
Proof.
  intros (N1 & Hd & [Ha2 N2]%NoDup_cons)%NoDup_app.
  rewrite filter_app, filter_cons_False by tauto. f_equal; apply filter_keep_all.
  - intros x Hx ->. specialize (Hd a Hx). set_solver.
  - intros x Hx ->. done.
Qed.

Lemma filter_ne_id (l : list SocketAddr) a : a ∉ l -> filter (fun x => x <> a) l = l.
Proof. intros Ha. apply filter_keep_all. intros x Hx ->. done. Qed.

Lemma NoDup_names P `{!forall e, Decision (P e)} (L : list entry) : NoDup L.*1 -> NoDup (filter P L).*1.
Proof.
  intros Hnd. eapply sublist_NoDup; [exact Hnd|]. apply fmap_sublist, sublist_filter.
Qed.

Lemma NoDup_drop a L : NoDup L.*1 -> NoDup (drop_addr a L).*1.
Proof. apply NoDup_names. Qed.

Lemma list_to_map_drop a L :
  (list_to_map (drop_addr a L) : gmap SocketAddr (NodeTransportAddress * bool)) = delete a (list_to_map L).
Proof.
  induction L as [|[x v] L IH]; [symmetry; apply delete_empty|]. unfold drop_addr in *. rewrite filter_cons.
  case_decide as Hx; cbn [fst] in Hx; rewrite !list_to_map_cons, IH.
  - by rewrite delete_insert_ne by congruence.
  - subst x. by rewrite delete_insert_eq.
Qed.

Lemma elem_glob L b a : NoDup L.*1 -> (a ∈ glob L b <-> exists addr, find_addr a L = Some (addr, b)).
Proof.
  intros Hnd. unfold glob. rewrite list_elem_of_fmap. split.
  - intros ([x [addr b']] & -> & [Hb He]%list_elem_of_filter). unfold has_auth in Hb. cbn in *. subst b'.
    exists addr. by apply find_addr_Some.
  - intros (addr & He%find_addr_Some); [|done]. exists (a, (addr, b)). split; [done|].
    by apply list_elem_of_filter.
Qed.

Lemma elem_rout L r b a :
  NoDup L.*1 -> (a ∈ rout L r b <-> exists addr, find_addr a L = Some (addr, b) /\ route_of addr = r).
Proof.
  intros Hnd. unfold rout. rewrite list_elem_of_fmap. split.
  - intros ([x [addr b']] & -> & [[Hr Hb] He]%list_elem_of_filter). unfold has_auth, on_route in *. cbn in *.
    subst. exists addr. split; [|done]. by apply find_addr_Some.
  - intros (addr & He%find_addr_Some & Hr); [|done]. exists (a, (addr, b)). split; [done|].
    apply list_elem_of_filter. by split.
Qed.

(** ** The representation relation *)

Record rep (d : Demuxer) (L : list entry) : Prop := mk_rep {
  rp_links : links d (glob L) (rout L);
  rp_view : view (addr_map d) = list_to_map L;
  rp_ok : lru_ok L;
}.

(** An entry taken off its two lists, still in the map. *)
Record detached (d : Demuxer) (a : SocketAddr) (v : NodeTransportAddress * bool) (L : list entry)
    (m : gmap SocketAddr (NodeTransportAddress * bool)) : Prop := mk_detached {
  dt_links : links d (glob (drop_addr a L)) (rout (drop_addr a L));
  dt_view : view (addr_map d) = m;
  dt_entry : view (addr_map d) !! a = Some v;
}.

Lemma names_drop_at P `{!forall e, Decision (P e)} a L l1 l2 :
  NoDup L.*1 -> (filter P L).*1 = l1 ++ a :: l2 -> (filter P (drop_addr a L)).*1 = l1 ++ l2.
Proof.
  intros Hnd E. rewrite filter_names, E. apply filter_ne_split. rewrite <- E. by apply NoDup_names.
Qed.

Lemma names_drop_none P `{!forall e, Decision (P e)} a L :
  a ∉ (filter P L).*1 -> (filter P (drop_addr a L)).*1 = (filter P L).*1.
Proof. intros Ha. rewrite filter_names. by apply filter_ne_id. Qed.

Lemma detach d L a addr b :
  rep d L -> find_addr a L = Some (addr, b) ->
  detached (unlink_route (unlink_global d a) a (route_of addr)) a (addr, b) L (list_to_map L).
Proof.
  intros [Hl Hv [Hnd _ _]] Hf.
  assert (view (addr_map d) !! a = Some (addr, b)) as Hva by (by rewrite Hv).
  apply view_Some in Hva as (c & Hc & Ec). inversion Ec as [[Eaddr Eb]].
  destruct (list_elem_of_split (glob L b) a) as (l1 & l2 & Eg); [apply elem_glob; eauto|].
  destruct (unlink_global_links d _ _ a c l1 l2 Hl Hc) as [Hl1 Hv1]; [by rewrite Eb|].
  rewrite Eb in Hl1. rewrite Hv in Hv1. set (d1 := unlink_global d a) in *.
  assert (view (addr_map d1) !! a = Some (addr, b)) as Hva1 by (by rewrite Hv1).
  apply view_Some in Hva1 as (c1 & Hc1 & Ec1). inversion Ec1 as [[Eaddr1 Eb1]].
  rewrite Eaddr, Eb in *.
  destruct (list_elem_of_split (rout L (route_of addr) b) a) as (k1 & k2 & Er);
    [apply elem_rout; eauto|].
  destruct (unlink_route_links d1 _ _ a c1 k1 k2 (route_of addr) Hl1 Hc1) as [Hl2 Hv2]; [by rewrite Eb1|].
  rewrite Eb1 in Hl2. split; [|by rewrite Hv2|by rewrite Hv2, Hv1].
  eapply links_ext; [| |exact Hl2].
  - intros b'. unfold gput. case_decide as Hb.
    + subst b'. symmetry. by apply names_drop_at.
    + symmetry. apply names_drop_none. intros (addr' & Hf')%(elem_glob L b' a); [|done]. congruence.
  - intros r b'. unfold rput. case_decide as Hb.
    + destruct Hb as [-> ->]. symmetry. by apply names_drop_at.
    + symmetry. apply names_drop_none.
      intros (addr' & Hf' & Hr)%(elem_rout L r b' a); [|done]. apply Hb. simplify_eq. done.
Qed.

Lemma attach d L a addr b m :
  links d (glob L) (rout L) -> NoDup L.*1 -> Z.of_nat (length L) <= MAX_ADDR_ENTRIES ->
  a ∉ L.*1 -> view (addr_map d) = m -> m !! a = Some (addr, b) ->
  let d' := link_route_front (link_global_front d a b) a (route_of addr) b in
  links d' (glob ((a, (addr, b)) :: L)) (rout ((a, (addr, b)) :: L)) /\ view (addr_map d') = m.
Proof.
  intros Hl Hnd Hsz Ha <- Hva d'. unfold MAX_ADDR_ENTRIES in Hsz.
  assert (forall P `{!forall e, Decision (P e)}, a ∉ (filter P L).*1) as Hout.
  { intros P ? (e & Ee & [_ He]%list_elem_of_filter)%list_elem_of_fmap. apply Ha. rewrite Ee.
    apply list_elem_of_fmap. eauto. }
  assert (forall P `{!forall e, Decision (P e)}, Z.of_nat (length (filter P L).*1) < 2 ^ 63) as Hlen.
  { intros P ?. rewrite length_fmap. pose proof (length_filter P L). lia. }
  pose proof Hva as (c & Hc & _)%view_Some.
  destruct (link_global_links d _ _ a c b Hl Hc) as [Hl1 Hv1]; [intros; apply Hout|apply Hlen|].
  assert (view (addr_map (link_global_front d a b)) !! a = Some (addr, b)) as Hva1 by (by rewrite Hv1).
  apply view_Some in Hva1 as (c1 & Hc1 & _).
  destruct (link_route_links _ _ _ a c1 (route_of addr) b Hl1 Hc1) as [Hl2 Hv2];
    [intros; apply Hout|apply Hlen|].
  split; [|unfold d'; by rewrite Hv2, Hv1]. eapply links_ext; [| |exact Hl2].
  - intros b'. unfold gput, glob. case_decide as Hb.
    + subst b'. by rewrite filter_cons_True.
    + rewrite filter_cons_False; [done|]. intros E. by destruct Hb.
  - intros r b'. unfold rput, rout. case_decide as Hb.
    + destruct Hb as [-> ->]. by rewrite filter_cons_True.
    + rewrite filter_cons_False; [done|]. intros [Er Eb]. by destruct Hb.
Qed.

(** ** The bounds of the recency list *)

Lemma count_drop P `{!forall e, Decision (P e)} a v L :
  NoDup L.*1 -> (a, v) ∈ L -> P (a, v) ->
  S (length (filter P (drop_addr a L))) = length (filter P L).
Proof.
  intros Hnd Hin HP. destruct (list_elem_of_split (filter P L).*1 a) as (l1 & l2 & E).
  { apply list_elem_of_fmap. exists (a, v). split; [done|]. by apply list_elem_of_filter. }
  rewrite <- (length_fmap fst (filter P L)), <- (length_fmap fst (filter P (drop_addr a L))).
  rewrite (names_drop_at P a L l1 l2), E by done. rewrite !length_app. cbn [length]. lia.
Qed.

Lemma length_drop_addr a v L : NoDup L.*1 -> (a, v) ∈ L -> S (length (drop_addr a L)) = length L.
Proof.
  intros Hnd Hin. pose proof (count_drop (fun _ => True) a v L Hnd Hin I) as E.
  by rewrite !filter_keep_all in E.
Qed.

Lemma count_drop_le P `{!forall e, Decision (P e)} a L :
  (length (filter P (drop_addr a L)) <= length (filter P L))%nat.
Proof.
  rewrite <- (length_fmap fst (filter P L)), <- (length_fmap fst (filter P (drop_addr a L))), filter_names.
  apply length_filter.
Qed.

Lemma lru_ok_drop a L : lru_ok L -> lru_ok (drop_addr a L).
Proof.
  intros [Hnd Hs Hr]. split.
  - by apply NoDup_drop.
  - pose proof (length_filter (fun e => e.1 <> a) L). unfold drop_addr. lia.
  - intros r. pose proof (count_drop_le (on_route r) a L). specialize (Hr r). lia.
Qed.

Lemma lru_ok_front a addr b L :
  lru_ok L -> a ∉ L.*1 -> Z.of_nat (length L) < MAX_ADDR_ENTRIES ->
  (length (filter (on_route (route_of addr)) L) < MAX_ADDRS_PER_ROUTE)%nat ->
  lru_ok ((a, (addr, b)) :: L).
Proof.
  intros [Hnd Hs Hr] Ha Hlen Hcount. split.
  - cbn. by constructor.
  - cbn [length]. lia.
  - intros r. destruct (decide (route_of addr = r)) as [<-|Hne].
    + rewrite filter_cons_True by done. cbn [length]. lia.
    + by rewrite filter_cons_False.
Qed.

Lemma lru_ok_refresh a addr b old v L :
  lru_ok L -> find_addr a L = Some (old, v) -> route_of old = route_of addr ->
  lru_ok ((a, (addr, b)) :: drop_addr a L).
Proof.
  intros Hok Hf%find_addr_Some E; [|apply Hok]. apply lru_ok_front.
  - by apply lru_ok_drop.
  - apply drop_addr_not_in.
  - pose proof (length_drop_addr a _ L (lo_nodup _ Hok) Hf). pose proof (lo_size _ Hok). lia.
  - pose proof (count_drop (on_route (route_of addr)) a (old, v) L (lo_nodup _ Hok) Hf E).
    pose proof (lo_route _ Hok (route_of addr)). lia.
Qed.

Lemma victim_elem P `{!forall e, Decision (P e)} L e : victim P L = Some e -> e ∈ L /\ P e.
Proof.
  unfold victim. assert (forall b, last (filter (fun e => P e /\ has_auth b e) L) = Some e -> e ∈ L /\ P e) as Hl.
  { intros b E. apply last_Some in E as [l' E].
    assert (e ∈ filter (fun e => P e /\ has_auth b e) L) as He%list_elem_of_filter by (rewrite E; set_solver).
    tauto. }
  destruct (last (filter _ L)) as [x|] eqn:E; cbn [option_or]; [intros [= ->]; by eapply Hl|apply Hl].
Qed.

Lemma victim_None P `{!forall e, Decision (P e)} L e : victim P L = None -> e ∈ L -> ~ P e.
Proof.
  unfold victim. destruct (last _) as [x|] eqn:E1; cbn [option_or]; [done|]. intros E2 He HP.
  apply last_None in E1, E2. destruct (e.2.2) eqn:Eb.
  - assert (e ∈ filter (fun e => P e /\ has_auth true e) L) as H' by (by apply list_elem_of_filter).
    rewrite E2 in H'. set_solver.
  - assert (e ∈ filter (fun e => P e /\ has_auth false e) L) as H' by (by apply list_elem_of_filter).
    rewrite E1 in H'. set_solver.
Qed.

Lemma lru_ok_evict P `{!forall e, Decision (P e)} L : lru_ok L -> lru_ok (lru_evict P L).
Proof. intros. unfold lru_evict. destruct (victim P L); [by apply lru_ok_drop|done]. Qed.

Lemma evict_count P Q `{!forall e, Decision (P e), !forall e, Decision (Q e)} L :
  lru_ok L -> (forall e, P e -> Q e) -> (0 < length (filter P L))%nat ->
  (length (filter Q (lru_evict P L)) < length (filter Q L))%nat.
Proof.
  intros Hok HPQ Hpos. unfold lru_evict. destruct (victim P L) as [e|] eqn:Ev.
  - apply victim_elem in Ev as [He HP]. destruct e as [a v].
    pose proof (count_drop Q a v L (lo_nodup _ Hok) He (HPQ _ HP)). cbn [fst]. lia.
  - destruct (filter P L) as [|e l] eqn:E; [cbn in Hpos; lia|].
    assert (e ∈ filter P L) as [HP He]%list_elem_of_filter by (rewrite E; set_solver).
    by destruct (victim_None P L e Ev He).
Qed.

Lemma evict_count_le P Q `{!forall e, Decision (P e), !forall e, Decision (Q e)} L :
  (length (filter Q (lru_evict P L)) <= length (filter Q L))%nat.
Proof. unfold lru_evict. destruct (victim P L); [apply count_drop_le|done]. Qed.

Lemma lru_evict_subset P `{!forall e, Decision (P e)} L : (lru_evict P L).*1 ⊆ L.*1.
Proof.
  unfold lru_evict. destruct (victim P L); [|done]. intros x (e' & -> & [_ He]%list_elem_of_filter)%list_elem_of_fmap.
  apply list_elem_of_fmap. eauto.
Qed.

(** Making room leaves a free place in the cache and on the route. *)
Lemma make_room_ok r L :
  lru_ok L ->
  lru_ok (lru_make_room r L) /\ Z.of_nat (length (lru_make_room r L)) < MAX_ADDR_ENTRIES /\
  (length (filter (on_route r) (lru_make_room r L)) < MAX_ADDRS_PER_ROUTE)%nat /\
  (lru_make_room r L).*1 ⊆ L.*1.
Proof.
  intros Hok. unfold lru_make_room.
  set (L1 := if MAX_ADDR_ENTRIES <=? Z.of_nat (length L) then _ else _).
  assert (lru_ok L1 /\ Z.of_nat (length L1) < MAX_ADDR_ENTRIES /\ L1.*1 ⊆ L.*1) as (Ok1 & S1 & Sub1).
  { unfold L1. destruct (Z.leb_spec MAX_ADDR_ENTRIES (Z.of_nat (length L))) as [Hfull|]; [|done].
    split_and!; [by apply lru_ok_evict| |apply lru_evict_subset].
    pose proof (evict_count (fun _ => True) (fun _ => True) L Hok) as Hc. rewrite !filter_keep_all in Hc by done.
    pose proof (lo_size _ Hok). unfold MAX_ADDR_ENTRIES in *.
    specialize (Hc (fun _ _ => I)). lia. }
  destruct (Nat.leb_spec MAX_ADDRS_PER_ROUTE (length (filter (on_route r) L1))) as [Hfull|]; [|done].
  split_and!.
  - by apply lru_ok_evict.
  - pose proof (evict_count_le (on_route r) (fun _ => True) L1) as Hc. rewrite !filter_keep_all in Hc by done. lia.
  - pose proof (evict_count (on_route r) (on_route r) L1 Ok1) as Hc. pose proof (lo_route _ Ok1 r).
    unfold MAX_ADDRS_PER_ROUTE in *. specialize (Hc (fun _ H => H)). lia.
  - etransitivity; [apply lru_evict_subset|done].
Qed.

(** ** Every operation implements its counterpart on the recency list *)

Lemma rep_lookup d L a :
  rep d L -> payload <$> addr_map d !! a = find_addr a L.
Proof. intros [_ Hv _]. unfold find_addr. rewrite <- Hv. unfold view. by rewrite lookup_fmap. Qed.

Lemma rep_entry d L a c :
  rep d L -> addr_map d !! a = Some c -> find_addr a L = Some (address c, authenticated c).
Proof. intros Hr E. rewrite <- (rep_lookup d L a Hr), E. done. Qed.

Lemma rep_missing d L a : rep d L -> addr_map d !! a = None -> find_addr a L = None.
Proof. intros Hr E. by rewrite <- (rep_lookup d L a Hr), E. Qed.

Lemma detached_absent d a v L m : detached d a v L m ->
  (forall b, a ∉ glob (drop_addr a L) b) /\ (forall r b, a ∉ rout (drop_addr a L) r b).
Proof.
  intros _. split; intros; unfold glob, rout; rewrite filter_names, list_elem_of_filter; tauto.
Qed.

Lemma remove_refines d L a : rep d L -> rep (remove_entry d a).1 (drop_addr a L).
Proof.
  intros Hr. unfold remove_entry. destruct (addr_map d !! a) as [c|] eqn:E.
  - pose proof (detach d L a _ _ Hr (rep_entry d L a c Hr E)) as Hd.
    destruct (detached_absent _ _ _ _ _ Hd) as [Ng Nr]. destruct Hd as [Hl Hv _]. cbn [fst]. split.
    + by apply links_delete.
    + cbn [with_map addr_map]. unfold view in *. rewrite fmap_delete, Hv. symmetry. apply list_to_map_drop.
    + apply lru_ok_drop, Hr.
  - cbn [fst]. rewrite drop_addr_id; [done|]. apply find_addr_None. by eapply rep_missing.
Qed.

(** Unlink, write the payload, link again. *)
Lemma relink_refines d L a addr b old v :
  rep d L -> find_addr a L = Some (old, v) -> route_of old = route_of addr ->
  let d1 := unlink_route (unlink_global d a) a (route_of addr) in
  let d2 := with_map d1 (alter (rewrite_entry addr b) a (addr_map d1)) in
  rep (link_route_front (link_global_front d2 a b) a (route_of addr) b)
      ((a, (addr, b)) :: drop_addr a L).
Proof.
  intros Hr Hf Er d1 d2. pose proof (detach d L a _ _ Hr Hf) as Hd. rewrite Er in Hd. fold d1 in Hd.
  destruct Hd as [Hl Hv He]. pose proof (lru_ok_refresh a addr b old v L (rp_ok _ _ Hr) Hf Er) as Hok.
  assert (view (addr_map d2) = <[a := (addr, b)]> (list_to_map L)) as Hv2.
  { unfold d2. cbn [with_map addr_map]. rewrite <- Hv. apply map_eq. intros x. unfold view.
    rewrite lookup_fmap. destruct (decide (x = a)) as [->|Hx].
    - rewrite lookup_alter_eq, lookup_insert_eq. apply view_Some in He as (c & -> & _). done.
    - by rewrite lookup_alter_ne, lookup_insert_ne, lookup_fmap. }
  destruct (attach d2 (drop_addr a L) a addr b (<[a := (addr, b)]> (list_to_map L))) as [Hl' Hv'].
  - by apply links_rewrite.
  - apply lru_ok_drop, Hr.
  - apply lru_ok_drop, Hr.
  - apply drop_addr_not_in.
  - done.
  - by rewrite lookup_insert_eq.
  - split; [done| |done]. rewrite Hv', list_to_map_cons, list_to_map_drop. cbn [fst snd].
    by rewrite insert_delete_eq.
Qed.

(** [touch] links again without writing. *)
Lemma touch_refines d L a : rep d L -> rep (touch d a) (lru_touch a L).
Proof.
  intros Hr. unfold touch, lru_touch. destruct (addr_map d !! a) as [c|] eqn:E.
  - pose proof (rep_entry d L a c Hr E) as Hf. rewrite Hf.
    pose proof (relink_refines d L a (address c) (authenticated c) _ _ Hr Hf eq_refl) as H'. cbv zeta in H'.
    pose proof (detach d L a _ _ Hr Hf) as [_ _ He]. apply view_Some in He as (c1 & Hc1 & Ec).
    rewrite alter_id in H'; [|intros c2 Hc2; rewrite Hc1 in Hc2; injection Hc2 as <-;
      inversion Ec; by destruct c1].
    by destruct (unlink_route (unlink_global d a) a (route_of (address c))).
  - by rewrite (rep_missing d L a Hr E).
Qed.

Lemma lru_tail_for l : lru_tail (lru_for l) = last l.
Proof. unfold lru_for, last_or. cbn. by destruct (last l). Qed.

Lemma option_or_fmap {A B} (f : A -> B) (x y : option A) :
  option_or (f <$> x) (f <$> y) = f <$> option_or x y.
Proof. by destruct x. Qed.

Lemma victim_names P `{!forall e, Decision (P e)} L :
  option_or (last (filter (fun e => P e /\ has_auth false e) L).*1)
            (last (filter (fun e => P e /\ has_auth true e) L).*1) = fst <$> victim P L.
Proof. rewrite !fmap_last. apply option_or_fmap. Qed.

Lemma evict_by_refines P `{!forall e, Decision (P e)} d L o :
  rep d L -> o = fst <$> victim P L ->
  rep (match o with None => d | Some x => (remove_entry d x).1 end) (lru_evict P L).
Proof.
  intros Hr ->. unfold lru_evict. destruct (victim P L); [by apply remove_refines|done].
Qed.

Lemma evict_global_refines d L : rep d L -> rep (evict_global d) (lru_evict (fun _ => True) L).
Proof.
  intros Hr. apply (evict_by_refines (fun _ => True)); [done|]. rewrite <- victim_names.
  destruct (lk_global _ _ _ (rp_links _ _ Hr) false) as [E0 _].
  destruct (lk_global _ _ _ (rp_links _ _ Hr) true) as [E1 _]. cbn [list_of] in E0, E1.
  rewrite E0, E1, !lru_tail_for. unfold glob.
  assert (forall b, filter (has_auth b) L = filter (fun e => True /\ has_auth b e) L) as Ef
    by (intros b; apply list_filter_iff; tauto).
  by rewrite !Ef.
Qed.

(** Reading a route's lists through the index, present or not. *)
Lemma route_read {A} (d : Demuxer) r (f : RouteLists -> A) (z : A) :
  f (mkRouteLists lru_default lru_default) = z ->
  match route_addrs d !! r with Some ls => f ls | None => z end =
  f (mkRouteLists (route_list_of d r false) (route_list_of d r true)).
Proof.
  intros <-. unfold route_list_of, route_entry. by destruct (route_addrs d !! r) as [[]|].
Qed.

Lemma rep_route_list d L r b : rep d L -> route_list_of d r b = lru_for (rout L r b).
Proof. intros Hr. by destruct (lk_route _ _ _ (rp_links _ _ Hr) r b). Qed.

Lemma evict_route_refines d L r : rep d L -> rep (evict_route d r) (lru_evict (on_route r) L).
Proof.
  intros Hr. apply (evict_by_refines (on_route r)); [done|]. rewrite <- victim_names.
  unfold mbind, option_bind. rewrite (route_read d r (fun ls => option_or _ _)) by done.
  cbn [route_unauthenticated route_authenticated]. by rewrite !(rep_route_list d L), !lru_tail_for.
Qed.

Lemma count_classes P `{!forall e, Decision (P e)} (L : list entry) :
  length (filter P L) =
  (length (filter (fun e => P e /\ has_auth false e) L) +
   length (filter (fun e => P e /\ has_auth true e) L))%nat.
Proof.
  induction L as [|e L IH]; [done|]. rewrite !filter_cons. unfold has_auth in *.
  destruct (decide (P e)), e as [x [ad b]]; cbn [fst snd] in *; destruct b;
    repeat case_decide; cbn [length]; try lia; naive_solver.
Qed.

Lemma route_len_count d L r : rep d L -> route_len d r = Z.of_nat (length (filter (on_route r) L)).
Proof.
  intros Hr. unfold route_len. rewrite (route_read d r (fun ls => saturating_add 64 _ _)) by done.
  cbn [route_unauthenticated route_authenticated]. rewrite !(rep_route_list d L) by done.
  cbn [lru_for lru_len]. unfold rout. rewrite !length_fmap.
  pose proof (lo_route _ (rp_ok _ _ Hr) r) as Hb. pose proof (count_classes (on_route r) L).
  unfold MAX_ADDRS_PER_ROUTE in Hb. rewrite saturating_add_small; lia.
Qed.

Lemma map_count d L : rep d L -> size (addr_map d) = length L.
Proof.
  intros [_ Hv Hok]. rewrite <- (map_size_fmap payload (addr_map d)). fold (view (addr_map d)). rewrite Hv.
  by rewrite map_size_list_to_map by apply Hok.
Qed.

Lemma admit_refines d L a addr b :
  rep d L -> a ∉ L.*1 ->
  rep (admit_entry d a addr b) ((a, (addr, b)) :: lru_make_room (route_of addr) L).
Proof.
  intros Hr Ha. destruct (make_room_ok (route_of addr) L (rp_ok _ _ Hr)) as (Hok & Hsz & Hcnt & Hsub).
  unfold admit_entry. rewrite (map_count d L Hr).
  assert (exists d2, rep d2 (lru_make_room (route_of addr) L) /\
    (let d := if MAX_ADDR_ENTRIES <=? Z.of_nat (length L) then evict_global d else d in
     if Z.of_nat MAX_ADDRS_PER_ROUTE <=? route_len d (route_of addr)
     then evict_route d (route_of addr) else d) = d2) as (d2 & Hr2 & E2).
  { eexists. split; [|done]. unfold lru_make_room. cbv zeta.
    set (full := MAX_ADDR_ENTRIES <=? Z.of_nat (length L)).
    set (d1 := if full then evict_global d else d).
    set (L1 := if full then lru_evict (fun _ => True) L else L).
    assert (rep d1 L1) as Hr1 by (unfold d1, L1; destruct full; [by apply evict_global_refines|done]).
    rewrite (route_len_count d1 L1) by done.
    destruct (Z.leb_spec (Z.of_nat MAX_ADDRS_PER_ROUTE) (Z.of_nat (length (filter (on_route (route_of addr)) L1))));
      destruct (Nat.leb_spec MAX_ADDRS_PER_ROUTE (length (filter (on_route (route_of addr)) L1)));
      try lia; [by apply evict_route_refines|done]. }
  cbv zeta in *. rewrite E2, (route_len_count d2 _ _ Hr2).
  rewrite (proj2 (Z.leb_gt _ _)) by lia. set (L2 := lru_make_room _ L) in *.
  assert (a ∉ L2.*1) as Ha2 by set_solver.
  assert (forall P `{!forall e, Decision (P e)}, a ∉ (filter P L2).*1) as Hout.
  { intros P ? (e & Ee & [_ He]%list_elem_of_filter)%list_elem_of_fmap. apply Ha2. rewrite Ee.
    apply list_elem_of_fmap. eauto. }
  destruct (attach (with_map d2 (<[a := mkCached addr b None None None None]> (addr_map d2))) L2 a addr b
    (<[a := (addr, b)]> (list_to_map L2))) as [Hl Hv].
  - apply links_insert; [apply Hr2|intros; apply Hout..].
  - apply Hok.
  - apply Hok.
  - done.
  - cbn [with_map addr_map]. unfold view. rewrite fmap_insert. f_equal. apply Hr2.
  - by rewrite lookup_insert_eq.
  - split; [done|done|]. by apply lru_ok_front.
Qed.

Lemma insert_refines d L a addr : rep d L -> rep (admit_entry (forget d a) a addr false) (lru_insert a addr L).
Proof. intros Hr. apply admit_refines; [by apply remove_refines|apply drop_addr_not_in]. Qed.

Lemma cached_refines d L a :
  rep d L -> rep (cached d a).1 (lru_cached a L).1 /\ (cached d a).2 = (lru_cached a L).2.
Proof.
  intros Hr. pose proof (touch_refines d L a Hr) as Ht. unfold cached, lru_cached. cbn [fst snd].
  rewrite <- (rep_lookup d L a Hr). destruct (addr_map d !! a) as [c|] eqn:E; [done|].
  unfold touch in Ht. by rewrite E in Ht.
Qed.

Definition scope_of (d : Demuxer) : NodeScope := mkScope (cluster_id d) (node_id d) (shard_count d).

Lemma demux_refines d L a data :
  rep d L ->
  exists d', demux d a data = Some (d', (lru_demux (scope_of d) a data L).2) /\
             rep d' (lru_demux (scope_of d) a data L).1.
Proof.
  intros Hr. destruct (cached_refines d L a Hr) as [Hc Ec].
  assert (exists d', Some (cached d a) = Some (d', (lru_cached a L).2) /\ rep d' (lru_cached a L).1) as Hcached.
  { exists (cached d a).1. split; [|done]. rewrite <- Ec. by destruct (cached d a). }
  unfold demux, lru_demux, named_address. fold (scope_of d).
  destruct (is_stun data) eqn:Es; cbn [negb].
  - destruct (classify_bootstrap data (scope_of d)) as [|s k e|] eqn:Ek; [done| |done].
    apply classify_route_ranges in Ek as (Hs & Hk & _).
    destruct (packed_new_spec s k Hs Hk) as [Ep _]. unfold route_new. rewrite Ep. cbn [fmap option_fmap option_map mbind option_bind].
    set (addr := mkNodeTransportAddress _ e).
    assert (address <$> addr_map d !! a = fst <$> find_addr a L) as ->.
    { rewrite <- (rep_lookup d L a Hr). by destruct (addr_map d !! a). }
    case_decide; (eexists; split; [done|]); [by apply touch_refines|by apply insert_refines].
  - unfold classify_bootstrap. rewrite Es. cbn [negb]. done.
Qed.

Lemma transport_eq_epoch (x y : NodeTransportAddress) :
  route_of x = route_of y -> (transport_epoch x =? transport_epoch y) = bool_decide (x = y).
Proof.
  destruct x as [rx ex], y as [ry ey]. unfold route_of. cbn. intros ->.
  destruct (Z.eqb_spec ex ey); symmetry; [apply bool_decide_eq_true|apply bool_decide_eq_false]; congruence.
Qed.

Lemma learn_refines d L a addr : rep d L -> rep (learn d a addr) (lru_learn a addr L).
Proof.
  intros Hr. unfold learn, lru_learn. destruct (addr_map d !! a) as [c|] eqn:E.
  - pose proof (rep_entry d L a c Hr E) as Hf. rewrite Hf. case_decide as Hrt.
    + rewrite transport_eq_epoch by done. eapply relink_refines; [done..|]. done.
    + by apply insert_refines.
  - pose proof (rep_missing d L a Hr E) as Hf. rewrite Hf. unfold lru_insert.
    apply find_addr_None in Hf. rewrite (drop_addr_id a L) by done. by apply admit_refines.
Qed.

Lemma authenticate_refines d L a addr : rep d L -> rep (authenticate d a addr) (lru_authenticate a addr L).
Proof.
  intros Hr. unfold authenticate, lru_authenticate. destruct (addr_map d !! a) as [c|] eqn:E.
  - pose proof (rep_entry d L a c Hr E) as Hf. rewrite Hf. case_decide as Ha; [|done].
    destruct (authenticated c) eqn:Eb; cbn [negb].
    + pose proof (touch_refines d L a Hr) as Ht. unfold lru_touch in Ht. by rewrite Hf, Ha in Ht.
    + eapply relink_refines; [done..|]. by rewrite Ha.
  - by rewrite (rep_missing d L a Hr E).
Qed.

(** ** Unregistering a route *)

Lemma drop_addr_other P `{!forall e, Decision (P e)} a v L :
  NoDup L.*1 -> (a, v) ∈ L -> ~ P (a, v) -> filter P (drop_addr a L) = filter P L.
Proof.
  intros Hnd Hin HP. unfold drop_addr.
  rewrite list_filter_filter, (list_filter_iff _ (fun e => e.1 <> a /\ P e)) by tauto.
  rewrite <- list_filter_filter. apply filter_keep_all.
  intros [x w] [Hw Hx]%list_elem_of_filter. cbn [fst]. intros ->.
  apply (find_addr_Some L) in Hin, Hx; [|done..]. congruence.
Qed.

Lemma rout_NoDup L r : NoDup L.*1 -> NoDup (rout L r false ++ rout L r true).
Proof.
  intros Hnd. apply NoDup_app. split_and!; [by apply NoDup_names| |by apply NoDup_names].
  intros x (? & Hx & _)%elem_rout (? & Hx' & _)%elem_rout; [congruence|done..].
Qed.

Lemma lru_head_for l : lru_head (lru_for l) = head l.
Proof. by destruct l. Qed.

Lemma head_app_or {A} (l1 l2 : list A) : head (l1 ++ l2) = option_or (head l1) (head l2).
Proof. by destruct l1. Qed.

(** The next client the loop frees is the first of the route's two lists. *)
Lemma unregister_next d L r :
  rep d L ->
  (ls ← route_addrs d !! r;
   option_or (lru_head (route_unauthenticated ls)) (lru_head (route_authenticated ls))) =
  head (rout L r false ++ rout L r true).
Proof.
  intros Hr. unfold mbind, option_bind. rewrite (route_read d r (fun ls => option_or _ _)) by done.
  cbn [route_unauthenticated route_authenticated].
  by rewrite !(rep_route_list d L), !lru_head_for, head_app_or.
Qed.

Lemma unregister_loop_refines fuel d L r freed :
  rep d L -> (length (rout L r false ++ rout L r true) <= fuel)%nat ->
  (length freed + length (rout L r false ++ rout L r true) <= MAX_ADDRS_PER_ROUTE)%nat ->
  exists d', unregister_loop fuel d r freed = Some (d', freed ++ rout L r false ++ rout L r true) /\
             rep d' (filter (fun e => ~ on_route r e) L).
Proof.
  revert d L freed. induction fuel as [|fuel IH]; intros d L freed Hr Hf Hc;
    cbn [unregister_loop]; rewrite (unregister_next d L r Hr);
    destruct (rout L r false ++ rout L r true) as [|a rest] eqn:E; cbn [head]; try (cbn in Hf; lia).
  1, 2: exists d; rewrite app_nil_r; split; [done|]; rewrite filter_keep_all; [done|];
    intros [x [addr b]] He Hx; assert (x ∈ rout L r b) as H'
      by (apply elem_rout; [apply Hr|]; exists addr; split; [|done]; apply find_addr_Some; [apply Hr|done]);
    apply app_nil in E as [E0 E1]; destruct b; rewrite ?E0, ?E1 in H'; set_solver.
  pose proof (rout_NoDup L r (lo_nodup _ (rp_ok _ _ Hr))) as Hnd. rewrite E in Hnd.
  assert (rout (drop_addr a L) r false ++ rout (drop_addr a L) r true = rest) as E'.
  { unfold rout in *. rewrite !filter_names, <- filter_app, E. by apply (filter_ne_split []). }
  assert (exists addr b, (a, (addr, b)) ∈ L /\ route_of addr = r) as (addr & b & Hin & Hrt).
  { assert (a ∈ rout L r false ++ rout L r true) as [H'|H']%elem_of_app by (rewrite E; set_solver).
    all: apply elem_rout in H' as (addr & H'%find_addr_Some & Hrt); [eauto|apply Hr..]. }
  cbn [length] in Hf, Hc. rewrite (proj2 (Nat.ltb_lt _ _)) by lia.
  destruct (IH (remove_entry d a).1 (drop_addr a L) (freed ++ [a])) as (d' & E1 & Hr').
  - by apply remove_refines.
  - rewrite E'. lia.
  - rewrite E', length_app. cbn [length]. lia.
  - exists d'. rewrite E1, E', <- app_assoc. split; [done|].
    rewrite (drop_addr_other _ a (addr, b)) in Hr'; [done|apply Hr|done|].
    intros H'. by apply H'.
Qed.

Lemma unregister_spec d L r :
  rep d L ->
  exists d', unregister d r = Some (d', (lru_unregister r L).2) /\ rep d' (lru_unregister r L).1.
Proof.
  intros Hr. assert (length (rout L r false ++ rout L r true) = length (filter (on_route r) L)) as E.
  { rewrite length_app. unfold rout. rewrite !length_fmap. symmetry. apply count_classes. }
  destruct (unregister_loop_refines (size (addr_map d)) d L r []) as (d' & E' & Hr'); [done|..].
  - rewrite (map_count d L Hr), E. apply length_filter.
  - rewrite E. apply Hr.
  - exists d'. split; [|done]. unfold unregister. rewrite E'. unfold lru_unregister, rout. cbn [snd].
    by rewrite fmap_app.
Qed.

(** ** The node the demultiplexer serves never changes *)

Lemma scope_unlink_global d a : scope_of (unlink_global d a) = scope_of d.
Proof. unfold unlink_global. by destruct (addr_map d !! a). Qed.
Lemma scope_unlink_route d a r : scope_of (unlink_route d a r) = scope_of d.
Proof. unfold unlink_route. repeat case_match; done. Qed.
Lemma scope_link_global d a b : scope_of (link_global_front d a b) = scope_of d.
Proof. unfold link_global_front. by destruct (addr_map d !! a). Qed.
Lemma scope_link_route d a r b : scope_of (link_route_front d a r b) = scope_of d.
Proof. unfold link_route_front. cbn. by destruct (addr_map d !! a). Qed.
Lemma scope_with_map d m : scope_of (with_map d m) = scope_of d.
Proof. done. Qed.

#[local] Hint Rewrite scope_unlink_global scope_unlink_route scope_link_global scope_link_route
  scope_with_map : rust.

Lemma scope_touch d a : scope_of (touch d a) = scope_of d.
Proof. unfold touch. destruct (addr_map d !! a); by autorewrite with rust. Qed.
Lemma scope_remove d a : scope_of (remove_entry d a).1 = scope_of d.
Proof. unfold remove_entry. destruct (addr_map d !! a); cbn [fst]; by autorewrite with rust. Qed.

#[local] Hint Rewrite scope_touch scope_remove : rust.

Lemma scope_evict_global d : scope_of (evict_global d) = scope_of d.
Proof. unfold evict_global. case_match; by autorewrite with rust. Qed.
Lemma scope_evict_route d r : scope_of (evict_route d r) = scope_of d.
Proof. unfold evict_route. case_match; by autorewrite with rust. Qed.

#[local] Hint Rewrite scope_evict_global scope_evict_route : rust.

Lemma scope_admit d a addr b : scope_of (admit_entry d a addr b) = scope_of d.
Proof. unfold admit_entry, forget. repeat case_match; by autorewrite with rust. Qed.

#[local] Hint Rewrite scope_admit : rust.

Lemma scope_learn d a addr : scope_of (learn d a addr) = scope_of d.
Proof. unfold learn, forget. repeat case_match; by autorewrite with rust. Qed.
Lemma scope_authenticate d a addr : scope_of (authenticate d a addr) = scope_of d.
Proof. unfold authenticate. repeat case_match; by autorewrite with rust. Qed.

Lemma scope_cached d a : scope_of (cached d a).1 = scope_of d.
Proof. unfold cached. case_match; cbn [fst]; by autorewrite with rust. Qed.

Lemma scope_demux d a data d' o : demux d a data = Some (d', o) -> scope_of d' = scope_of d.
Proof.
  pose proof (scope_cached d a) as Hc. unfold demux, forget.
  assert (Some (cached d a) = Some (d', o) -> scope_of d' = scope_of d) as Hcached
    by (intros E; injection E as E; by rewrite E in Hc).
  destruct (negb (is_stun data)); [done|]. destruct (classify_bootstrap _ _) as [|s k e|]; [done| |done].
  destruct (route_new s k) as [r|]; [|done]. cbn [mbind option_bind].
  case_decide; intros E; injection E as <- _; by autorewrite with rust.
Qed.

Lemma scope_unregister_loop fuel d r freed d' out :
  unregister_loop fuel d r freed = Some (d', out) -> scope_of d' = scope_of d.
Proof.
  revert d freed. induction fuel as [|fuel IH]; intros d freed; cbn [unregister_loop];
    destruct (route_addrs d !! r ≫= _) as [x|]; try done; try (intros E; by injection E as <- _).
  destruct (length freed <? MAX_ADDRS_PER_ROUTE)%nat; [|done]. intros E%IH. by rewrite E, scope_remove.
Qed.

(** ** Runs *)

Inductive demux_op :=
| Packet (src : SocketAddr) (data : list Z)
| Learn (src : SocketAddr) (a : NodeTransportAddress)
| Authenticate (src : SocketAddr) (a : NodeTransportAddress)
| Unregister (route : Route.TransportRoute).

Inductive demux_output :=
| Delivered (to : option NodeTransportAddress)
| Freed (addrs : list SocketAddr)
| Silent.

Definition demux_step (d : Demuxer) (op : demux_op) : option (Demuxer * demux_output) :=
  match op with
  | Packet src data => '(d, o) ← demux d src data; Some (d, Delivered o)
  | Learn src a => Some (learn d src a, Silent)
  | Authenticate src a => Some (authenticate d src a, Silent)
  | Unregister r => '(d, l) ← unregister d r; Some (d, Freed l)
  end.

Fixpoint demux_run (d : Demuxer) (ops : list demux_op) : option (Demuxer * list demux_output) :=
  match ops with
  | [] => Some (d, [])
  | op :: ops => '(d, o) ← demux_step d op; '(d, os) ← demux_run d ops; Some (d, o :: os)
  end.

Definition lru_step (scope : NodeScope) (L : list entry) (op : demux_op) : list entry * demux_output :=
  match op with
  | Packet src data => let '(L, o) := lru_demux scope src data L in (L, Delivered o)
  | Learn src a => (lru_learn src a L, Silent)
  | Authenticate src a => (lru_authenticate src a L, Silent)
  | Unregister r => let '(L, l) := lru_unregister r L in (L, Freed l)
  end.

Fixpoint lru_run (scope : NodeScope) (L : list entry) (ops : list demux_op)
    : list entry * list demux_output :=
  match ops with
  | [] => (L, [])
  | op :: ops =>
      let '(L, o) := lru_step scope L op in
      let '(L, os) := lru_run scope L ops in (L, o :: os)
  end.

Lemma step_refines d L op :
  rep d L ->
  exists d', demux_step d op = Some (d', (lru_step (scope_of d) L op).2) /\
    rep d' (lru_step (scope_of d) L op).1 /\ scope_of d' = scope_of d.
Proof.
  intros Hr. destruct op as [src data|src a|src a|r]; cbn [demux_step lru_step].
  - destruct (demux_refines d L src data Hr) as (d' & E & Hr'). rewrite E. cbn [mbind option_bind].
    apply scope_demux in E. exists d'. by destruct (lru_demux (scope_of d) src data L).
  - eexists. split; [done|]. split; [by apply learn_refines|apply scope_learn].
  - eexists. split; [done|]. split; [by apply authenticate_refines|apply scope_authenticate].
  - destruct (unregister_spec d L r Hr) as (d' & E & Hr'). rewrite E. cbn [mbind option_bind].
    apply scope_unregister_loop in E. exists d'. by destruct (lru_unregister r L).
Qed.

Lemma run_refines ops d L :
  rep d L ->
  exists d', demux_run d ops = Some (d', (lru_run (scope_of d) L ops).2) /\
    rep d' (lru_run (scope_of d) L ops).1 /\ scope_of d' = scope_of d.
Proof.
  revert d L. induction ops as [|op ops IH]; intros d L Hr; [by exists d|]. cbn [demux_run lru_run].
  destruct (step_refines d L op Hr) as (d1 & E1 & Hr1 & Es1). rewrite E1. cbn [mbind option_bind].
  destruct (lru_step (scope_of d) L op) as [L1 o1]. cbn [fst snd] in *.
  destruct (IH d1 L1 Hr1) as (d2 & E2 & Hr2 & Es2). rewrite E2. cbn [mbind option_bind]. rewrite Es1 in *.
  exists d2. by destruct (lru_run (scope_of d) L1 ops).
Qed.

Lemma rep_empty c n s : rep (for_node c n s) [].
Proof.
  split.
  - split; cbn.
    + intros []; done.
    + intros r []; unfold route_list_of, route_entry; cbn; by rewrite lookup_empty.
    + intros; constructor.
    + intros; constructor.
    + intros b b' x H'. set_solver.
    + intros r b r' b' x H'. set_solver.
    + intros r [? H']. by rewrite lookup_empty in H'.
  - apply fmap_empty.
  - split; [constructor|done|]. intros r. cbn. lia.
Qed.

(** ** Whom an eviction displaces *)

Lemma victim_authenticated P `{!forall e, Decision (P e)} L x addr :
  victim P L = Some (x, (addr, true)) -> forall e, e ∈ L -> P e -> has_auth true e.
Proof.
  unfold victim. destruct (last (filter (fun e => P e /\ has_auth false e) L)) as [y|] eqn:E0; cbn [option_or].
  - intros [= ->]. apply last_Some in E0 as [l' E0].
    assert ((x, (addr, true)) ∈ filter (fun e => P e /\ has_auth false e) L) as [[_ H'] _]%list_elem_of_filter
      by (rewrite E0; set_solver). done.
  - intros _ e He HP. apply last_None in E0. destruct e as [y [ad [|]]]; [done|].
    assert ((y, (ad, false)) ∈ filter (fun e => P e /\ has_auth false e) L) as H'
      by (by apply list_elem_of_filter). rewrite E0 in H'. set_solver.
Qed.

Lemma evicted_is_victim P `{!forall e, Decision (P e)} L e :
  NoDup L.*1 -> e ∈ L -> e ∉ lru_evict P L -> victim P L = Some e.
Proof.
  intros Hnd He Hout. unfold lru_evict in Hout. destruct (victim P L) as [v|] eqn:Ev; [|done].
  apply victim_elem in Ev as [Hv _]. unfold drop_addr in Hout. rewrite list_elem_of_filter in Hout.
  assert (e.1 = v.1) as E1 by (apply dec_stable; tauto). destruct e as [x w], v as [x' w']. cbn in E1. subst x'.
  apply (find_addr_Some L) in He, Hv; [|done..]. congruence.
Qed.

(** An authenticated client that makes room had no unauthenticated company:
    nowhere in a full cache, or not on its own full route. *)
Lemma make_room_displaces r L x addr :
  lru_ok L -> (x, (addr, true)) ∈ L -> (x, (addr, true)) ∉ lru_make_room r L ->
  (MAX_ADDR_ENTRIES <= Z.of_nat (length L) /\ forall e, e ∈ L -> has_auth true e) \/
  (route_of addr = r /\ (MAX_ADDRS_PER_ROUTE <= length (filter (on_route r) L))%nat /\
   forall e, e ∈ L -> on_route r e -> has_auth true e).
Proof.
  intros Hok Hin Hout. unfold lru_make_room in Hout.
  destruct (Z.leb_spec MAX_ADDR_ENTRIES (Z.of_nat (length L))) as [Hfull|Hfree].
  - destruct (decide ((x, (addr, true)) ∈ lru_evict (fun _ => True) L)) as [H1|H1].
    + right. set (L1 := lru_evict (fun _ => True) L) in *.
      destruct (Nat.leb_spec MAX_ADDRS_PER_ROUTE (length (filter (on_route r) L1))) as [Hf1|]; [|done].
      pose proof (lru_ok_evict (fun _ => True) L Hok) as Hok1. fold L1 in Hok1.
      pose proof (evicted_is_victim _ _ _ (lo_nodup _ Hok1) H1 Hout) as Hv.
      pose proof (victim_elem _ _ _ Hv) as [_ Hr]. pose proof (victim_authenticated _ _ _ _ Hv) as Ha.
      pose proof (lo_route _ Hok r) as Hb.
      assert (filter (on_route r) L1 = filter (on_route r) L) as E.
      { unfold L1, lru_evict in *. destruct (victim (fun _ => True) L) as [[y w]|] eqn:Ev; [|done].
        apply victim_elem in Ev as [Hy _]. apply (drop_addr_other _ y w); [apply Hok|done|].
        intros Hy'. pose proof (count_drop (on_route r) y w L (lo_nodup _ Hok) Hy Hy'). cbn [fst] in *. lia. }
      split_and!; [done|by rewrite <- E|]. intros e He Hre. apply Ha; [|done].
      assert (e ∈ filter (on_route r) L1) as H'%list_elem_of_filter
        by (rewrite E; by apply list_elem_of_filter). tauto.
    + left. pose proof (evicted_is_victim _ _ _ (lo_nodup _ Hok) Hin H1) as Hv.
      split; [done|]. intros e He. by eapply (victim_authenticated _ _ _ _ Hv).
  - right. destruct (Nat.leb_spec MAX_ADDRS_PER_ROUTE (length (filter (on_route r) L))); [|done].
    pose proof (evicted_is_victim _ _ _ (lo_nodup _ Hok) Hin Hout) as Hv.
    pose proof (victim_elem _ _ _ Hv) as [_ Hr]. split_and!; [done..|].
    intros e He Hre. by eapply (victim_authenticated _ _ _ _ Hv).
Qed.

Lemma rep_find d L x v : rep d L -> (view (addr_map d) !! x = Some v <-> (x, v) ∈ L).
Proof. intros [_ Hv Hok]. rewrite Hv. apply find_addr_Some, Hok. Qed.

Lemma route_clients d L r :
  rep d L ->
  size (filter (fun e => route_of (address e.2) = r) (addr_map d)) = length (filter (on_route r) L).
Proof.
  intros Hr. assert (payload <$> filter (fun e => route_of (address e.2) = r) (addr_map d) =
    (list_to_map (filter (on_route r) L) : gmap SocketAddr (NodeTransportAddress * bool))) as E.
  { assert (NoDup (filter (on_route r) L).*1) as Hnd by apply NoDup_names, Hr.
    apply map_eq. intros x. apply option_eq. intros v.
    rewrite lookup_fmap_Some. fold (find_addr x (filter (on_route r) L)). rewrite find_addr_Some by done.
    rewrite list_elem_of_filter, <- (rep_find d L x v Hr), view_Some.
    setoid_rewrite map_lookup_filter_Some. unfold on_route. cbn [fst snd].
    split; [intros (e & <- & He & <-)|intros (Hrt & e & He & <-)]; eauto. }
  rewrite <- (map_size_fmap payload), E. apply map_size_list_to_map, NoDup_names, Hr.
Qed.

Lemma route_indexed d L r :
  rep d L ->
  (is_Some (route_addrs d !! r) <-> exists a e, addr_map d !! a = Some e /\ route_of (address e) = r).
Proof.
  intros Hr. pose proof (lo_nodup _ (rp_ok _ _ Hr)) as Hnd. split.
  - intros Hs. pose proof (lk_indexed _ _ _ (rp_links _ _ Hr) r Hs) as Hne.
    destruct (rout L r false ++ rout L r true) as [|x l] eqn:E; [done|].
    assert (exists b, x ∈ rout L r b) as [b Hb].
    { assert (x ∈ rout L r false ++ rout L r true) as [H'|H']%elem_of_app by (rewrite E; set_solver); eauto. }
    apply elem_rout in Hb as (addr & Hf & Hrt); [|done].
    rewrite <- (rep_lookup d L x Hr) in Hf. destruct (addr_map d !! x) as [e|] eqn:Ee; [|done].
    injection Hf as Ha _. exists x, e. by rewrite Ha.
  - intros (a & e & He & Hrt). pose proof (rep_entry d L a e Hr He) as Hf.
    assert (a ∈ rout L r (authenticated e)) as Hin by (apply elem_rout; [done|]; eauto).
    pose proof (rep_route_list d L r (authenticated e) Hr) as El.
    unfold route_list_of, route_entry in El. destruct (route_addrs d !! r); [done|].
    destruct (rout L r (authenticated e)); [set_solver|]. by destruct (authenticated e).
Qed.

(** ** Theorems *)

(** C17. The demultiplexer implements a recency list. Whatever packets arrive,
    whatever addresses are learned, authenticated and unregistered, and in
    whatever order, no operation panics, every packet is delivered and every
    unregistration frees exactly as one list of clients, most recent first,
    prescribes, and the four intrusive lists always represent that list. *)
Theorem demuxer_refines_lru c n s ops :
  exists d, demux_run (for_node c n s) ops = Some (d, (lru_run (mkScope c n s) [] ops).2) /\
            rep d (lru_run (mkScope c n s) [] ops).1.
Proof.
  destruct (run_refines ops (for_node c n s) [] (rep_empty c n s)) as (d & E & Hr & _). by exists d.
Qed.

(** In every run the cache holds at most 65536 clients and a route at most
    sixteen, the length kept for a route is the number of clients cached on
    it, and the route index holds exactly the routes with a cached client. *)
Theorem demuxer_bounded c n s ops d outs :
  demux_run (for_node c n s) ops = Some (d, outs) ->
  Z.of_nat (size (addr_map d)) <= MAX_ADDR_ENTRIES /\
  (forall r, 0 <= route_len d r <= Z.of_nat MAX_ADDRS_PER_ROUTE /\
     route_len d r = Z.of_nat (size (filter (fun e => route_of (address e.2) = r) (addr_map d)))) /\
  (forall r, is_Some (route_addrs d !! r) <->
     exists a e, addr_map d !! a = Some e /\ route_of (address e) = r).
Proof.
  intros Hrun. destruct (run_refines ops (for_node c n s) [] (rep_empty c n s)) as (d0 & E & Hr & _).
  rewrite Hrun in E. injection E as <- _. set (L := (lru_run _ [] ops).1) in *. split_and!.
  - rewrite (map_count d L Hr). apply Hr.
  - intros r. rewrite (route_len_count d L r Hr), (route_clients d L r Hr).
    pose proof (lo_route _ (rp_ok _ _ Hr) r). lia.
  - intros r. by apply (route_indexed d L).
Qed.

(** A packet displaces an authenticated client other than its sender only
    when the cache is full and every other client in it is authenticated, or
    the route the packet names is full, the client is on it, and every other
    client on it is authenticated. *)
Theorem authenticated_displaced_last c n s ops d outs src data d' o x addr :
  demux_run (for_node c n s) ops = Some (d, outs) ->
  demux d src data = Some (d', o) -> x <> src ->
  view (addr_map d) !! x = Some (addr, true) -> view (addr_map d') !! x = None ->
  (MAX_ADDR_ENTRIES <= Z.of_nat (size (addr_map d)) /\
   forall y v, y <> src -> view (addr_map d) !! y = Some v -> v.2 = true) \/
  (exists named, o = Some named /\ route_of addr = route_of named /\
   Z.of_nat MAX_ADDRS_PER_ROUTE <= route_len d (route_of named) /\
   forall y v, y <> src -> view (addr_map d) !! y = Some v -> route_of v.1 = route_of named -> v.2 = true).
Proof.
  intros Hrun Hd Hx Hin Hout.
  destruct (run_refines ops (for_node c n s) [] (rep_empty c n s)) as (d0 & E & Hr & _).
  rewrite Hrun in E. injection E as <- _. set (L := (lru_run _ [] ops).1) in *.
  destruct (demux_refines d L src data Hr) as (d1 & E & Hr1). rewrite Hd in E. injection E as <- Eo.
  apply (rep_find _ _ _ _ Hr) in Hin.
  assert ((x, (addr, true)) ∉ (lru_demux (scope_of d) src data L).1) as Hout'.
  { intros H'%(rep_find _ _ _ _ Hr1). congruence. }
  assert ((x, (addr, true)) ∉ lru_touch src L -> False) as Htouch.
  { intros H'. apply H'. unfold lru_touch. destruct (find_addr src L); [|done].
    apply list_elem_of_further, list_elem_of_filter. done. }
  unfold lru_demux in *. destruct (named_address (scope_of d) data) as [named|] eqn:En; [|by destruct Htouch].
  cbn [fst snd] in *. case_decide; [by destruct Htouch|]. unfold lru_insert in Hout'.
  assert ((x, (addr, true)) ∈ drop_addr src L) as Hin' by (by apply list_elem_of_filter).
  assert ((x, (addr, true)) ∉ lru_make_room (route_of named) (drop_addr src L)) as Hroom by set_solver.
  pose proof (lru_ok_drop src L (rp_ok _ _ Hr)) as Hok'.
  destruct (make_room_displaces _ _ _ _ Hok' Hin' Hroom) as [[Hfull Hall]|(Hrt & Hfull & Hall)].
  - left. rewrite (map_count d L Hr). split.
    + pose proof (length_filter (fun e => e.1 <> src) L). unfold drop_addr in Hfull. lia.
    + intros y v Hy Hv%(rep_find _ _ _ _ Hr). apply (Hall (y, v)). by apply list_elem_of_filter.
  - right. exists named. rewrite (route_len_count d L) by done. split_and!; [done..| |].
    + pose proof (count_drop_le (on_route (route_of named)) src L). lia.
    + intros y v Hy Hv%(rep_find _ _ _ _ Hr) Hvr. apply (Hall (y, v)); [|done]. by apply list_elem_of_filter.
Qed.

End Demux.

(** ** Concrete runs *)

Definition demo_address : NodeTransportAddress := mkNodeTransportAddress demo_route 42.
Definition demo_ops : list (demux_op (SocketAddr := Z)) :=
  flat_map (fun i => [Learn i demo_address; Authenticate i demo_address]) (seqZ 1 16).
Definition demo_request : list Z :=
  stun_message 1 (replicate 12 7) (demo_before ++ demo_username :: []).
Definition demo_start : Demuxer (SocketAddr := Z) := for_node 0xABC 0x1234 16.
Definition demo_full : Demuxer * list demux_output := default (demo_start, []) (demux_run demo_start demo_ops).
Definition demo_after : Demuxer * option NodeTransportAddress :=
  default (demo_full.1, None) (demux demo_full.1 99 demo_request).

Lemma demuxer_bounded_witness :
  route_len demo_full.1 demo_route = 16 /\ is_Some (route_addrs demo_full.1 !! demo_route).
Proof.
  destruct (demuxer_bounded 0xABC 0x1234 16 demo_ops demo_full.1 demo_full.2) as (_ & Hr & Hi);
    [vm_compute; reflexivity|].
  split; [vm_compute; reflexivity|]. apply Hi.
  exists 1. eexists. split; vm_compute; reflexivity.
Defined.

(** Sixteen authenticated clients on one route; the seventeenth, with a valid
    request, displaces the least recent of them. *)
Lemma authenticated_displaced_last_witness :
  demo_after.2 = Some demo_address /\
  exists named, demo_after.2 = Some named /\ route_of demo_address = route_of named /\
    16 <= route_len demo_full.1 (route_of named).
Proof.
  split; [vm_compute; reflexivity|].
  destruct (authenticated_displaced_last 0xABC 0x1234 16 demo_ops demo_full.1 demo_full.2 99 demo_request
    demo_after.1 demo_after.2 1 demo_address) as [[Hf _]|(named & E & Er & Hf & _)].
  - vm_compute. reflexivity.
  - vm_compute. reflexivity.
  - lia.
  - vm_compute. reflexivity.
  - vm_compute. reflexivity.
  - exfalso. revert Hf. vm_compute. congruence.
  - exists named. split_and!; [exact E|exact Er|exact Hf].
Defined.
