(* ===== verification/Bits.v ===== *)
(** * The bit reader and writer of the dependency descriptor

    Models [crates/pulsebeam-core/src/dd/bits.rs]: [BitReader] and [BitWriter],
    which move up to eight bits at a time between a byte buffer and a [u32],
    and AV1's non-symmetric code [ns(n)]. Positions and widths are [usize] and
    [u32] values kept as integers; [debug_assert!]s are not executed.

    The reference is the buffer as a list of bits, most significant first.
    [consumes] and [produces] say what a reading or writing action does to that
    list; they compose along the monadic bind, and the codecs above this file
    are proved with them alone. *)

From S2P Require Import Prelude.

Inductive Truncated := truncated.
Inductive Overflow := overflow.

(** [a << n] on [u32] in a release build: the shift amount is taken modulo 32. *)
Definition u32_shl (a n : Z) : Z := wrap 32 (Z.shiftl a (n `mod` 32)).

Definition len8 (buf : list Z) : Z := saturating_mul 64 (Z.of_nat (length buf)) 8.

(** ** Reading *)

Record BitReader := mkReader { rbuf : list Z; rpos : Z }.

Definition reader (E A : Type) : Type := BitReader -> result E (A * BitReader).

#[export] Instance reader_ret E : MRet (reader E) := fun A a r => Ok (a, r).
#[export] Instance reader_bind E : MBind (reader E) :=
  fun A B k p r => match p r with Ok (a, r') => k a r' | Err e => Err e end.

Definition fail {E A} (e : E) : reader E A := fun _ => Err e.

Definition reader_new (buf : list Z) : BitReader := mkReader buf 0.
Definition with_offset (buf : list Z) (bit_offset : Z) : BitReader :=
  mkReader buf (Z.min bit_offset (len8 buf)).
Definition bits_read (r : BitReader) : Z := rpos r.
Definition remaining (r : BitReader) : Z := saturating_sub (len8 (rbuf r)) (rpos r).

(** The loop of [read_bits]; each turn takes at least one bit. *)
Fixpoint read_loop (fuel : nat) (buf : list Z) (out left pos : Z) : result Truncated (Z * Z) :=
  if 0 <? left then
    match fuel with
    | O => Err truncated
    | S fuel' =>
        match buf !! Z.to_nat (Z.shiftr pos 3) with
        | None => Err truncated
        | Some byte =>
            let bit_in_byte := Z.land pos 7 in
            let avail := saturating_sub 8 bit_in_byte in
            let take := Z.min avail left in
            let shift := saturating_sub avail take in
            let mask := if take =? 8 then 0xff else saturating_sub (u32_shl 1 take) 1 in
            read_loop fuel' buf (Z.lor (u32_shl out take) (Z.land (Z.shiftr byte shift) mask))
              (saturating_sub left take) (saturating_add 64 pos take)
        end
    end
  else Ok (out, pos).

Definition read_bits (n : Z) : reader Truncated Z := fun r =>
  if n =? 0 then Ok (0, r)
  else if remaining r <? n then Err truncated
  else match read_loop (Z.to_nat n) (rbuf r) 0 n (rpos r) with
       | Ok (out, pos) => Ok (out, mkReader (rbuf r) pos)
       | Err e => Err e
       end.

Definition read_bit : reader Truncated Z := read_bits 1.

(** The casts [as u8] and [as u16] of values read with at most that many bits. *)
Definition read_bits_u8 (n : Z) : reader Truncated Z := v ← read_bits (Z.min n 8); mret (wrap 8 v).
Definition read_bits_u16 (n : Z) : reader Truncated Z := v ← read_bits (Z.min n 16); mret (wrap 16 v).

Definition leading_zeros (v : Z) : Z := if v =? 0 then 32 else 31 - Z.log2 v.
Definition floor_log2 (v : Z) : Z := saturating_sub (saturating_sub 32 1) (leading_zeros v).

Definition read_ns (n : Z) : reader Truncated Z :=
  if n <=? 1 then mret 0
  else
    let w := saturating_add 32 (floor_log2 n) 1 in
    let m := saturating_sub (u32_shl 1 w) n in
    v ← read_bits (saturating_sub w 1);
    if v <? m then mret v
    else b ← read_bit; mret (saturating_add 32 (saturating_sub (u32_shl v 1) m) b).

Definition read_ns_u8 (n : Z) : reader Truncated Z := v ← read_ns (Z.min n 256); mret (wrap 8 v).

Definition skip (n : Z) : reader Truncated unit := fun r =>
  if remaining r <? n then Err truncated
  else Ok (tt, mkReader (rbuf r) (saturating_add 64 (rpos r) n)).

(** ** Writing *)

Record BitWriter := mkWriter { wbuf : list Z; wpos : Z }.

Definition writer (E : Type) : Type := BitWriter -> result E BitWriter.

(** [a?; b] *)
Definition and_then {E} (p q : writer E) : writer E := fun w => match p w with Ok w' => q w' | Err e => Err e end.
Definition done_writing {E} : writer E := fun w => Ok w.
Definition refuse {E} (e : E) : writer E := fun _ => Err e.

Definition writer_new (buf : list Z) : BitWriter := mkWriter (replicate (length buf) 0) 0.
Definition bits_written (w : BitWriter) : Z := wpos w.

(** The loop of [write_bits]; an error leaves the bytes already written, which
    no caller looks at. *)
Fixpoint write_loop (fuel : nat) (buf : list Z) (v left pos : Z) : result Overflow BitWriter :=
  if 0 <? left then
    match fuel with
    | O => Err overflow
    | S fuel' =>
        let i := Z.to_nat (Z.shiftr pos 3) in
        match buf !! i with
        | None => Err overflow
        | Some byte =>
            let bit_in_byte := Z.land pos 7 in
            let avail := saturating_sub 8 bit_in_byte in
            let take := Z.min avail left in
            let chunk := wrap 8 (Z.land (Z.shiftr v (saturating_sub left take))
                                   (saturating_sub (u32_shl 1 take) 1)) in
            let byte' := Z.lor byte (shl 8 chunk (saturating_sub avail take)) in
            write_loop fuel' (<[i := byte']> buf) v (saturating_sub left take) (saturating_add 64 pos take)
        end
    end
  else Ok (mkWriter buf pos).

Definition write_bits (v n : Z) : writer Overflow := fun w =>
  if n =? 0 then Ok w
  else if saturating_sub (len8 (wbuf w)) (wpos w) <? n then Err overflow
  else
    let v := if n =? 32 then v else Z.land v (saturating_sub (u32_shl 1 n) 1) in
    write_loop (Z.to_nat n) (wbuf w) v n (wpos w).

Definition write_bit (b : bool) : writer Overflow := write_bits (Z.b2z b) 1.

Definition write_ns (v n : Z) : writer Overflow :=
  if n <=? 1 then done_writing
  else
    let w := saturating_add 32 (floor_log2 n) 1 in
    let m := saturating_sub (u32_shl 1 w) n in
    if v <? m then write_bits v (saturating_sub w 1)
    else
      let x := saturating_add 32 v m in
      and_then (write_bits (Z.shiftr x 1) (saturating_sub w 1)) (write_bit (Z.land x 1 =? 1)).

Definition finish (w : BitWriter) : Z := div_ceil (wpos w) 8.

(** ** Bit lists *)

Fixpoint to_bits (n : nat) (v : Z) : list bool :=
  match n with O => [] | S n' => Z.testbit v (Z.of_nat n') :: to_bits n' v end.

Definition num (bs : list bool) : Z := foldl (fun acc b => 2 * acc + Z.b2z b) 0 bs.

Definition bits_of (buf : list Z) : list bool := concat (map (to_bits 8) buf).

Lemma length_to_bits n v : length (to_bits n v) = n.
Proof. induction n as [|n IH]; cbn; congruence. Qed.

Lemma to_bits_ext n x y :
  (forall i, 0 <= i < Z.of_nat n -> Z.testbit x i = Z.testbit y i) -> to_bits n x = to_bits n y.
Proof.
  induction n as [|n IH]; intros H; cbn; [done|]. f_equal; [apply H; lia|]. apply IH. intros. apply H. lia.
Qed.

(** The high [a] bits and the low [b] bits. *)
Lemma to_bits_split a b v : to_bits (a + b) v = to_bits a (Z.shiftr v (Z.of_nat b)) ++ to_bits b v.
Proof.
  induction a as [|a IH]; cbn [Nat.add to_bits app]; [done|]. f_equal; [|done].
  rewrite Z.shiftr_spec by lia. f_equal. lia.
Qed.

Lemma num_app bs c : num (bs ++ c) = num bs * 2 ^ Z.of_nat (length c) + num c.
Proof.
  unfold num. rewrite foldl_app. generalize (foldl (fun acc b => 2 * acc + Z.b2z b) 0 bs).
  induction c as [|b c IH]; intros z; cbn [foldl length]; [lia|].
  rewrite IH, (IH (2 * 0 + Z.b2z b)). rewrite Nat2Z.inj_succ, Z.pow_succ_r by lia. ring.
Qed.

Lemma num_to_bits n v : num (to_bits n v) = v `mod` 2 ^ Z.of_nat n.
Proof.
  induction n as [|n IH]; [cbn; by rewrite Z.mod_1_r|].
  change (to_bits (S n) v) with ([Z.testbit v (Z.of_nat n)] ++ to_bits n v).
  rewrite num_app, length_to_bits, IH. change (num [Z.testbit v (Z.of_nat n)]) with (Z.b2z (Z.testbit v (Z.of_nat n))).
  rewrite Z.testbit_spec' by lia. rewrite Nat2Z.inj_succ, Z.pow_succ_r by lia.
  pose proof (pow2_pos (Z.of_nat n)). rewrite (Z.mul_comm 2), Z.rem_mul_r by lia. ring.
Qed.

Lemma num_range bs : 0 <= num bs < 2 ^ Z.of_nat (length bs).
Proof.
  induction bs as [|b bs IH]; [cbn; lia|]. change (b :: bs) with ([b] ++ bs). rewrite num_app.
  cbn [length app]. rewrite Nat2Z.inj_succ, Z.pow_succ_r by lia.
  change (num [b]) with (Z.b2z b). destruct b; cbn [Z.b2z]; lia.
Qed.

Lemma to_bits_num bs : to_bits (length bs) (num bs) = bs.
Proof.
  induction bs as [|b bs IH] using rev_ind; [done|].
  rewrite num_app, length_app. cbn [length]. change (num [b]) with (Z.b2z b). change (2 ^ Z.of_nat 1) with 2.
  rewrite to_bits_split. change (to_bits 1 ?x) with [Z.testbit x 0]. f_equal.
  - rewrite Z.shiftr_div_pow2 by lia. change (2 ^ Z.of_nat 1) with 2.
    rewrite Z.div_add_l, Z.div_small, Z.add_0_r by (destruct b; cbn; lia). done.
  - f_equal. rewrite Z.bit0_odd, Z.odd_add, Z.odd_mul, andb_false_r. by destruct b.
Qed.

Lemma length_bits_of buf : length (bits_of buf) = (8 * length buf)%nat.
Proof.
  unfold bits_of. induction buf as [|b buf IH]; [done|]. cbn [map concat]. rewrite length_app, IH, length_to_bits.
  cbn [length]. lia.
Qed.

Lemma bits_of_app l1 l2 : bits_of (l1 ++ l2) = bits_of l1 ++ bits_of l2.
Proof. unfold bits_of. by rewrite map_app, concat_app. Qed.

(** The bits of a byte from position [k] on. *)
Lemma drop_to_bits k n v : drop k (to_bits n v) = to_bits (n - k) v.
Proof.
  revert n. induction k as [|k IH]; intros n; [by rewrite Nat.sub_0_r|].
  destruct n as [|n]; [done|]. cbn [to_bits drop]. rewrite IH. done.
Qed.

Lemma drop_bits_of buf i k byte :
  (k <= 8)%nat -> buf !! i = Some byte ->
  drop (8 * i + k) (bits_of buf) = to_bits (8 - k) byte ++ bits_of (drop (S i) buf).
Proof.
  intros Hk Hi. rewrite <- (take_drop_middle buf i byte Hi) at 1.
  pose proof (lookup_lt_Some _ _ _ Hi). rewrite bits_of_app, drop_app_ge by (rewrite length_bits_of, length_take; lia).
  rewrite length_bits_of, length_take, Nat.min_l by lia.
  replace (8 * i + k - 8 * i)%nat with k by lia.
  change (bits_of (byte :: drop (S i) buf)) with (to_bits 8 byte ++ bits_of (drop (S i) buf)).
  rewrite drop_app_le by (rewrite length_to_bits; lia). by rewrite drop_to_bits.
Qed.

(** ** What reading actions consume *)

Definition rest (r : BitReader) : list bool := drop (Z.to_nat (rpos r)) (bits_of (rbuf r)).
Definition advance (r : BitReader) (n : nat) : BitReader := mkReader (rbuf r) (rpos r + Z.of_nat n).
Definition reader_ok (r : BitReader) : Prop :=
  0 <= rpos r <= 8 * Z.of_nat (length (rbuf r)) /\ 8 * Z.of_nat (length (rbuf r)) < 2 ^ 62.

(** On input that starts with [bs], the action returns [a] and leaves what follows. *)
Definition consumes {E A} (p : reader E A) (bs : list bool) (a : A) : Prop :=
  forall r tail, reader_ok r -> rest r = bs ++ tail -> p r = Ok (a, advance r (length bs)).

Lemma rest_advance r bs tail : reader_ok r -> rest r = bs ++ tail ->
  reader_ok (advance r (length bs)) /\ rest (advance r (length bs)) = tail.
Proof.
  unfold rest, reader_ok, advance. cbn [rbuf rpos]. intros Hr E.
  pose proof (f_equal length E) as El. rewrite length_drop, length_bits_of, length_app in El. split; [lia|].
  rewrite Z2Nat.inj_add, Nat2Z.id, <- drop_drop, E by lia. apply drop_app_length.
Qed.

Lemma consumes_ret {E A} (a : A) : consumes (E := E) (mret a) [] a.
Proof.
  intros r tail Hr _. unfold mret, reader_ret. do 2 f_equal. unfold advance. destruct r. cbn. f_equal. lia.
Qed.

Lemma consumes_bind {E A B} (p : reader E A) (k : A -> reader E B) bs1 bs2 a b :
  consumes p bs1 a -> consumes (k a) bs2 b -> consumes (p ≫= k) (bs1 ++ bs2) b.
Proof.
  intros Hp Hk r tail Hr Eb. rewrite <- app_assoc in Eb. unfold mbind, reader_bind.
  rewrite (Hp r (bs2 ++ tail)) by done. destruct (rest_advance r bs1 (bs2 ++ tail) Hr Eb) as [Hr' E'].
  rewrite (Hk _ tail) by done. do 2 f_equal. unfold advance. cbn. rewrite length_app. f_equal. lia.
Qed.

(** A last step that consumes nothing more. *)
Lemma consumes_bind_ret {E A B} (p : reader E A) (f : A -> B) bs a :
  consumes p bs a -> consumes (x ← p; mret (f x)) bs (f a).
Proof.
  intros Hp. rewrite <- (app_nil_r bs). eapply consumes_bind; [done|]. apply consumes_ret.
Qed.

(** ** [read_bits] reads bits *)

Lemma u32_shl_small a n : 0 <= a -> 0 <= n < 32 -> a * 2 ^ n < 2 ^ 32 -> u32_shl a n = a * 2 ^ n.
Proof.
  intros Ha Hn Hs. unfold u32_shl. rewrite (Z.mod_small n) by lia. rewrite Z.shiftl_mul_pow2 by lia.
  apply wrap_small. unfold fits. pose proof (pow2_pos n). nia.
Qed.

Lemma low_mask n : 0 <= n < 32 -> saturating_sub (u32_shl 1 n) 1 = 2 ^ n - 1.
Proof.
  intros Hn. rewrite u32_shl_small; [|lia..|].
  - unfold saturating_sub. pose proof (pow2_pos n). lia.
  - pose proof (Z.pow_lt_mono_r 2 n 32). lia.
Qed.

Lemma pos_split pos : 0 <= pos -> Z.to_nat pos = (8 * Z.to_nat (Z.shiftr pos 3) + Z.to_nat (Z.land pos 7))%nat.
Proof.
  intros. change 7 with (2 ^ 3 - 1). rewrite land_ones_mod, Z.shiftr_div_pow2 by lia. change (2 ^ 3) with 8. dlia.
Qed.

Lemma bit_in_byte_range pos : 0 <= pos -> 0 <= Z.land pos 7 < 8.
Proof. intros. change 7 with (2 ^ 3 - 1). rewrite land_ones_mod by lia. change (2 ^ 3) with 8. dlia. Qed.

(** The byte a position falls in. *)
Lemma byte_under (buf : list Z) pos :
  0 <= pos < 8 * Z.of_nat (length buf) -> is_Some (buf !! Z.to_nat (Z.shiftr pos 3)).
Proof.
  intros Hp. apply lookup_lt_is_Some. pose proof (pos_split pos). pose proof (bit_in_byte_range pos). lia.
Qed.

Lemma take_byte_bits k t byte :
  (k + t <= 8)%nat -> take t (to_bits (8 - k) byte) = to_bits t (Z.shiftr byte (Z.of_nat (8 - k - t))).
Proof.
  intros Hk. replace (8 - k)%nat with (t + (8 - k - t))%nat at 1 by lia.
  rewrite to_bits_split, take_app_le by (rewrite length_to_bits; lia).
  by rewrite take_ge by (rewrite length_to_bits; lia).
Qed.

Lemma read_loop_spec fuel buf out left pos :
  0 <= pos -> 0 <= left <= Z.of_nat fuel -> pos + left <= 8 * Z.of_nat (length buf) ->
  8 * Z.of_nat (length buf) < 2 ^ 62 -> 0 <= out -> (out + 1) * 2 ^ left <= 2 ^ 32 ->
  read_loop fuel buf out left pos =
  Ok (out * 2 ^ left + num (take (Z.to_nat left) (drop (Z.to_nat pos) (bits_of buf))), pos + left).
Proof.
  revert out left pos. induction fuel as [|fuel IH]; intros out left pos Hp Hl Hr Hb Ho Hout;
    cbn [read_loop]; (destruct (Z.ltb_spec 0 left) as [Hlt|Hge];
      [|replace left with 0 by lia; apply f_equal, (f_equal2 pair); [rewrite take_0; cbn; lia|lia]]); [lia|].
  destruct (byte_under buf pos) as [byte Hbyte]; [lia|]. rewrite Hbyte.
  pose proof (bit_in_byte_range pos Hp) as Hk. pose proof (pos_split pos Hp) as Hsplit.
  set (k := Z.land pos 7) in *. cbv zeta.
  replace (saturating_sub 8 k) with (8 - k) by (unfold saturating_sub; lia).
  set (t := Z.min (8 - k) left). assert (1 <= t <= 8 /\ k + t <= 8 /\ t <= left) as Ht by lia.
  assert ((if t =? 8 then 0xff else saturating_sub (u32_shl 1 t) 1) = 2 ^ t - 1) as ->.
  { destruct (Z.eqb_spec t 8) as [->|]; [done|]. apply low_mask. lia. }
  rewrite land_ones_mod by lia. replace (saturating_sub left t) with (left - t) by (unfold saturating_sub; lia).
  replace (saturating_add 64 pos t) with (pos + t) by (unfold saturating_add, umax; lia).
  assert (2 ^ left = 2 ^ t * 2 ^ (left - t)) as Epow by (rewrite <- Z.pow_add_r by lia; f_equal; lia).
  pose proof (pow2_pos t). pose proof (pow2_pos (left - t)).
  assert (out * 2 ^ t < 2 ^ 32) as Hsmall by nia.
  rewrite u32_shl_small by lia. rewrite <- (Z.shiftl_mul_pow2 out t), lor_shift_add by (try apply Z.mod_pos_bound; lia).
  set (c := (Z.shiftr byte (8 - k - t)) `mod` 2 ^ t).
  assert (0 <= c < 2 ^ t) as Hc by (apply Z.mod_pos_bound; lia).
  replace (saturating_sub (8 - k) t) with (8 - k - t) by (unfold saturating_sub; lia). fold c.
  rewrite IH by nia. do 2 f_equal; [|lia].
  rewrite Epow. rewrite Z.mul_add_distr_r, <- !Z.mul_assoc, <- Z.add_assoc. f_equal.
  rewrite Hsplit, (drop_bits_of buf _ _ byte) by (try done; lia).
  set (R := to_bits _ byte ++ _). assert (take (Z.to_nat t) R = to_bits (Z.to_nat t) (Z.shiftr byte (8 - k - t))) as Etake.
  { unfold R. rewrite take_app_le by (rewrite length_to_bits; lia). rewrite take_byte_bits by lia. do 2 f_equal. lia. }
  replace (Z.to_nat left) with (Z.to_nat t + Z.to_nat (left - t))%nat by lia.
  rewrite <- (take_take_drop R), num_app, Etake, num_to_bits, Z2Nat.id by lia. fold c.
  f_equal.
  all: assert (drop (Z.to_nat pos) (bits_of buf) = R) as ER
    by (rewrite Hsplit, (drop_bits_of buf _ _ byte) by (try done; lia); done).
  - do 2 f_equal. rewrite <- ER, length_take, !length_drop, length_bits_of. lia.
  - rewrite <- ER, drop_drop. do 3 f_equal. lia.
Qed.

Lemma read_bits_spec n v : 0 <= n <= 32 -> fits n v -> consumes (read_bits n) (to_bits (Z.to_nat n) v) v.
Proof.
  intros Hn Hv r tail Hr E. unfold read_bits. destruct (Z.eqb_spec n 0) as [->|Hn0].
  { unfold fits in Hv. change (2 ^ 0) with 1 in Hv. replace v with 0 by lia. apply (consumes_ret 0 r tail Hr E). }
  pose proof (f_equal length E) as El. unfold rest in *. rewrite length_drop, length_bits_of, length_app, length_to_bits in El.
  unfold reader_ok in Hr. unfold remaining, len8, saturating_mul, saturating_sub, umax.
  rewrite (proj2 (Z.ltb_ge _ _)) by lia.
  pose proof (Z.pow_le_mono_r 2 n 32). rewrite read_loop_spec by lia.
  rewrite E, take_app_le, take_ge by (rewrite length_to_bits; lia). rewrite num_to_bits, Z2Nat.id, Z.mod_small by (done || lia).
  unfold advance. rewrite length_to_bits. do 3 f_equal. lia.
Qed.

(** Running out of bits is reported, and nothing else is. *)
Lemma read_bits_total n r :
  0 <= n <= 32 -> reader_ok r ->
  if Z.of_nat (length (rest r)) <? n then read_bits n r = Err truncated
  else read_bits n r = Ok (num (take (Z.to_nat n) (rest r)), advance r (Z.to_nat n)).
Proof.
  intros Hn Hr. destruct (Z.ltb_spec (Z.of_nat (length (rest r))) n) as [Hs|Hl].
  - unfold rest in Hs. rewrite length_drop, length_bits_of in Hs. unfold reader_ok in Hr.
    unfold read_bits, remaining, len8, saturating_mul, saturating_sub, umax.
    destruct (Z.eqb_spec n 0); [lia|]. by rewrite (proj2 (Z.ltb_lt _ _)) by lia.
  - set (bs := take (Z.to_nat n) (rest r)). assert (length bs = Z.to_nat n) as El by (unfold bs; rewrite length_take; lia).
    pose proof (num_range bs) as Hr'. rewrite El, Z2Nat.id in Hr' by lia.
    pose proof (read_bits_spec n (num bs) Hn) as H. rewrite <- El in H. rewrite to_bits_num in H.
    rewrite (H ltac:(unfold fits; lia) r (drop (Z.to_nat n) (rest r)) Hr) by (unfold bs; by rewrite take_drop). by rewrite El.
Qed.

Lemma to_bits_mod n v : to_bits n (v `mod` 2 ^ Z.of_nat n) = to_bits n v.
Proof. apply to_bits_ext. intros i Hi. by rewrite Z.mod_pow2_bits_low by lia. Qed.

Abbreviation zeros n := (replicate n false).

Lemma to_bits_0 n : to_bits n 0 = zeros n.
Proof. induction n as [|n IH]; [done|]. cbn [to_bits replicate]. by rewrite Z.bits_0, IH. Qed.

(** The non-symmetric code of [v] in [0, n). *)
Definition ns_bits (n v : Z) : list bool :=
  if n <=? 1 then []
  else
    let k := Z.log2 n in
    let m := 2 ^ (k + 1) - n in
    if v <? m then to_bits (Z.to_nat k) v
    else to_bits (Z.to_nat k) (Z.shiftr (v + m) 1) ++ to_bits 1 (v + m).

Lemma floor_log2_spec n : 0 < n < 2 ^ 32 -> floor_log2 n = Z.log2 n.
Proof.
  intros Hn. unfold floor_log2, leading_zeros, saturating_sub. rewrite (proj2 (Z.eqb_neq _ _)) by lia.
  pose proof (Z.log2_nonneg n). assert (Z.log2 n < 32) by (apply Z.log2_lt_pow2; lia). lia.
Qed.

(** The width and the number of short codes of [ns(n)]. *)
Lemma ns_params n :
  1 < n <= 256 ->
  saturating_add 32 (floor_log2 n) 1 = Z.log2 n + 1 /\
  saturating_sub (u32_shl 1 (Z.log2 n + 1)) n = 2 ^ (Z.log2 n + 1) - n /\
  1 <= Z.log2 n <= 8 /\ 2 ^ Z.log2 n <= n < 2 * 2 ^ Z.log2 n /\ 2 ^ (Z.log2 n + 1) = 2 * 2 ^ Z.log2 n.
Proof.
  intros Hn. pose proof (Z.log2_spec n ltac:(lia)) as Hs. rewrite Z.pow_succ_r in Hs by apply Z.log2_nonneg.
  pose proof (Z.log2_pos n ltac:(lia)). assert (Z.log2 n <= 8) by (change 8 with (Z.log2 256); apply Z.log2_le_mono; lia).
  assert (2 ^ (Z.log2 n + 1) = 2 * 2 ^ Z.log2 n) as E by (rewrite Z.pow_add_r by lia; lia).
  rewrite floor_log2_spec by lia. split_and!; try lia.
  - unfold saturating_add, umax. lia.
  - rewrite u32_shl_small; [unfold saturating_sub; lia|lia|lia|]. pose proof (Z.pow_le_mono_r 2 (Z.log2 n) 8). lia.
Qed.

Lemma read_ns_spec n v : 0 < n <= 256 -> 0 <= v < n -> consumes (read_ns n) (ns_bits n v) v.
Proof.
  intros Hn Hv. unfold read_ns, ns_bits. destruct (Z.leb_spec n 1).
  { replace v with 0 by lia. apply consumes_ret. }
  destruct (ns_params n) as (-> & -> & Hk & Hp & Ep); [lia|]. cbv zeta.
  replace (saturating_sub (Z.log2 n + 1) 1) with (Z.log2 n) by (unfold saturating_sub; lia).
  set (k := Z.log2 n) in *. set (m := 2 ^ (k + 1) - n) in *.
  assert (2 ^ k <= 256) by (change 256 with (2 ^ 8); apply Z.pow_le_mono_r; lia).
  destruct (Z.ltb_spec v m) as [Hs|Hl].
  - rewrite <- (app_nil_r (to_bits _ v)). eapply consumes_bind; [apply read_bits_spec; unfold fits; lia|]. cbv beta.
    rewrite (proj2 (Z.ltb_lt v m)) by done. apply consumes_ret.
  - rewrite (Z.shiftr_div_pow2 _ 1) by lia. change (2 ^ 1) with 2. set (x := v + m) in *.
    eapply consumes_bind; [apply (read_bits_spec k (x `div` 2)); unfold fits; dlia|]. cbv beta.
    rewrite (proj2 (Z.ltb_ge _ m)) by dlia.
    assert (saturating_add 32 (saturating_sub (u32_shl (x `div` 2) 1) m) (x `mod` 2) = v) as Ev.
    { rewrite u32_shl_small by dlia. unfold saturating_add, saturating_sub, umax. dlia. }
    rewrite <- (to_bits_mod 1 x). rewrite <- Ev at 1.
    apply (consumes_bind_ret read_bit (fun b => saturating_add 32 (saturating_sub (u32_shl (x `div` 2) 1) m) b)).
    apply (read_bits_spec 1 (x `mod` 2)); [lia|]. unfold fits. change (2 ^ 1) with 2. dlia.
Qed.

(** ** What writing actions produce *)

Record holds (w : BitWriter) (bs : list bool) : Prop := mk_holds {
  hd_pos : wpos w = Z.of_nat (length bs);
  hd_bytes : bytes_ok (wbuf w);
  hd_size : 8 * Z.of_nat (length (wbuf w)) < 2 ^ 62;
  hd_bits : exists k, bits_of (wbuf w) = bs ++ zeros k;
}.

(** If the action succeeds it appends [bs]; it fails only by refusing. *)
Definition produces {E} (q : writer E) (bs : list bool) : Prop :=
  forall w ws w', holds w ws -> q w = Ok w' -> holds w' (ws ++ bs) /\ length (wbuf w') = length (wbuf w).

Lemma produces_done {E} : produces (E := E) done_writing [].
Proof. intros w ws w' Hw [= <-]. by rewrite app_nil_r. Qed.

Lemma produces_then {E} (p q : writer E) b1 b2 :
  produces p b1 -> produces q b2 -> produces (and_then p q) (b1 ++ b2).
Proof.
  intros Hp Hq w ws w'' Hw. unfold and_then. destruct (p w) as [w'|] eqn:Ep; [|done]. intros Eq.
  destruct (Hp w ws w' Hw Ep) as [Hw' L1]. destruct (Hq w' _ w'' Hw' Eq) as [Hw'' L2].
  rewrite app_assoc. split; [done|congruence].
Qed.

(** ** [write_bits] writes bits *)

Lemma zeros_app a b : zeros (a + b) = zeros a ++ zeros b.
Proof. apply replicate_add. Qed.

Lemma num_zeros n : num (zeros n) = 0.
Proof. rewrite <- to_bits_0, num_to_bits. by apply Z.mod_0_l, Z.pow_nonzero; lia. Qed.

Lemma zero_bits_mod n v : to_bits n v = zeros n -> v `mod` 2 ^ Z.of_nat n = 0.
Proof. intros H. by rewrite <- num_to_bits, H, num_zeros. Qed.

(** Filling [t] zero bits of a byte. *)
Lemma fill_byte b c (k t : nat) :
  is_byte b -> (k + t <= 8)%nat -> to_bits (8 - k) b = zeros (8 - k) -> 0 <= c < 2 ^ Z.of_nat t ->
  let b' := Z.lor b (shl 8 c (8 - Z.of_nat k - Z.of_nat t)) in
  is_byte b' /\ to_bits 8 b' = take k (to_bits 8 b) ++ to_bits t c ++ zeros (8 - k - t).
Proof.
  intros Hb Hkt Hz Hc b'. apply byte_range in Hb. apply zero_bits_mod in Hz.
  set (s := (8 - k - t)%nat). assert (8 - Z.of_nat k - Z.of_nat t = Z.of_nat s) as Es by lia.
  assert (2 ^ Z.of_nat (8 - k) = 2 ^ Z.of_nat t * 2 ^ Z.of_nat s) as E1
    by (rewrite <- Z.pow_add_r by lia; f_equal; lia).
  assert (2 ^ Z.of_nat k * 2 ^ Z.of_nat (8 - k) = 256) as E2
    by (rewrite <- Z.pow_add_r by lia; replace (Z.of_nat k + Z.of_nat (8 - k)) with 8 by lia; done).
  pose proof (pow2_pos (Z.of_nat t)). pose proof (pow2_pos (Z.of_nat s)).
  pose proof (pow2_pos (Z.of_nat k)). pose proof (pow2_pos (Z.of_nat (8 - k))).
  set (hi := b `div` 2 ^ Z.of_nat (8 - k)).
  assert (b = hi * 2 ^ Z.of_nat (8 - k)) as Ebhi
    by (pose proof (Z.div_mod b (2 ^ Z.of_nat (8 - k))); unfold hi; lia).
  assert (0 <= c * 2 ^ Z.of_nat s < 2 ^ Z.of_nat (8 - k)) as Hcs by nia.
  assert (0 <= hi < 2 ^ Z.of_nat k) as Hhi by nia.
  assert (b' = hi * 2 ^ Z.of_nat (8 - k) + c * 2 ^ Z.of_nat s) as Eb'.
  { unfold b'. rewrite Es. unfold shl. rewrite Z.shiftl_mul_pow2 by lia.
    rewrite wrap_small by (unfold fits; change (2 ^ 8) with 256; nia).
    rewrite <- lor_shift_add by lia. f_equal. by rewrite Z.shiftl_mul_pow2 by lia. }
  split; [unfold is_byte, fits; change (2 ^ 8) with 256; nia|].
  replace 8%nat with (k + (8 - k))%nat at 1 2 by lia.
  rewrite !to_bits_split, take_app_le, take_ge by (rewrite length_to_bits; lia). f_equal.
  - f_equal. rewrite !Z.shiftr_div_pow2 by lia. rewrite Eb'. rewrite Z.div_add_l, (Z.div_small (c * _)) by lia.
    unfold hi. lia.
  - replace (8 - k)%nat with (t + s)%nat by lia. rewrite to_bits_split. f_equal.
    + rewrite <- (to_bits_mod t (Z.shiftr b' _)). f_equal. rewrite Z.shiftr_div_pow2 by lia.
      replace b' with ((hi * 2 ^ Z.of_nat t + c) * 2 ^ Z.of_nat s) by (rewrite Eb', E1; ring).
      rewrite Z.div_mul, Z.add_comm, Z.mod_add, Z.mod_small by lia. done.
    + rewrite <- to_bits_0, <- (to_bits_mod s b'). f_equal.
      replace b' with ((hi * 2 ^ Z.of_nat t + c) * 2 ^ Z.of_nat s) by (rewrite Eb', E1; ring).
      apply Z.mod_mul. lia.
Qed.

Lemma bytes_ok_insert buf i b : bytes_ok buf -> is_byte b -> bytes_ok (<[i := b]> buf).
Proof. intros. by apply Forall_insert. Qed.

Lemma write_loop_spec fuel buf v left bs k :
  bytes_ok buf -> bits_of buf = bs ++ zeros k -> 8 * Z.of_nat (length buf) < 2 ^ 62 ->
  0 <= left <= 32 -> left <= Z.of_nat fuel -> left <= Z.of_nat k ->
  exists buf', write_loop fuel buf v left (Z.of_nat (length bs)) =
      Ok (mkWriter buf' (Z.of_nat (length bs) + left)) /\
    bytes_ok buf' /\ length buf' = length buf /\
    bits_of buf' = bs ++ to_bits (Z.to_nat left) v ++ zeros (k - Z.to_nat left).
Proof.
  revert buf left bs k. induction fuel as [|fuel IH]; intros buf left bs k Hb Hbits Hsz Hl Hf Hk;
    cbn [write_loop]; (destruct (Z.ltb_spec 0 left) as [Hlt|Hge];
      [|exists buf; replace left with 0 by lia; rewrite Z.add_0_r; cbn [Z.to_nat to_bits app];
        rewrite Nat.sub_0_r; done]); [lia|].
  pose proof (f_equal length Hbits) as El. rewrite length_bits_of, length_app, length_replicate in El.
  set (pos := Z.of_nat (length bs)). destruct (byte_under buf pos) as [byte Hbyte]; [lia|]. rewrite Hbyte.
  pose proof (bit_in_byte_range pos ltac:(lia)) as Hkr. pose proof (pos_split pos ltac:(lia)) as Hsplit.
  set (i := Z.to_nat (Z.shiftr pos 3)) in *. set (j := Z.land pos 7) in *. cbv zeta.
  replace (saturating_sub 8 j) with (8 - j) by (unfold saturating_sub; lia).
  set (t := Z.min (8 - j) left). assert (1 <= t <= 8 /\ j + t <= 8 /\ t <= left) as Ht by lia.
  replace (saturating_sub left t) with (left - t) by (unfold saturating_sub; lia).
  replace (saturating_add 64 pos t) with (pos + t) by (unfold saturating_add, umax; lia).
  replace (saturating_sub (8 - j) t) with (8 - j - t) by (unfold saturating_sub; lia).
  rewrite low_mask, land_ones_mod by lia. pose proof (pow2_pos t).
  assert (2 ^ t <= 256) by (change 256 with (2 ^ 8); apply Z.pow_le_mono_r; lia).
  rewrite (wrap_small 8) by (unfold fits; change (2 ^ 8) with 256;
    pose proof (Z.mod_pos_bound (Z.shiftr v (left - t)) (2 ^ t)); lia).
  set (c := Z.shiftr v (left - t) `mod` 2 ^ t). assert (0 <= c < 2 ^ t) as Hc by (apply Z.mod_pos_bound; lia).
  (* the buffer around the byte being filled *)
  pose proof (drop_bits_of buf i (Z.to_nat j) byte ltac:(lia) Hbyte) as Hdrop.
  rewrite <- Hsplit, Hbits in Hdrop. replace (Z.to_nat pos) with (length bs) in Hdrop by lia.
  rewrite drop_app_length in Hdrop.
  assert (to_bits (8 - Z.to_nat j) byte = zeros (8 - Z.to_nat j)) as Hz.
  { pose proof (f_equal (take (8 - Z.to_nat j)) Hdrop) as Ht'.
    rewrite take_app_le, (take_ge (to_bits _ _)) in Ht' by (rewrite length_to_bits; lia).
    rewrite take_replicate in Ht'. rewrite <- Ht'. f_equal.
    pose proof (f_equal length Hdrop) as Hlen. rewrite length_replicate, length_app, length_to_bits in Hlen. lia. }
  assert (is_byte byte) as Hby by (eapply Forall_lookup_1; [exact Hb|exact Hbyte]).
  destruct (fill_byte byte c (Z.to_nat j) (Z.to_nat t) Hby ltac:(lia) Hz) as [Hb' Hbits'];
    [rewrite Z2Nat.id; lia|]. rewrite !Z2Nat.id in Hb', Hbits' by lia. set (byte' := Z.lor byte _) in *.
  assert (bits_of (<[i := byte']> buf) =
          (bs ++ to_bits (Z.to_nat t) c) ++ zeros (k - Z.to_nat t)) as Hnew.
  { pose proof (lookup_lt_Some _ _ _ Hbyte) as Hi.
    rewrite insert_take_drop, bits_of_app by done.
    change (bits_of (byte' :: ?l)) with (to_bits 8 byte' ++ bits_of l). rewrite Hbits'.
    assert (bits_of (drop (S i) buf) = zeros (k - (8 - Z.to_nat j))) as ->.
    { pose proof (f_equal (drop (8 - Z.to_nat j)) Hdrop) as Hd. rewrite drop_replicate in Hd.
      rewrite drop_app_ge, length_to_bits, Nat.sub_diag in Hd by (rewrite length_to_bits; lia). by rewrite Hd. }
    assert (bs = bits_of (take i buf) ++ take (Z.to_nat j) (to_bits 8 byte)) as Ebs.
    { pose proof (f_equal (take (length bs)) Hbits) as Ht'. rewrite take_app_length in Ht'. rewrite <- Ht'.
      rewrite <- (take_drop_middle buf i byte Hbyte) at 1. rewrite bits_of_app.
      change (bits_of (byte :: ?l)) with (to_bits 8 byte ++ bits_of l).
      rewrite take_app_ge by (rewrite length_bits_of, length_take; lia). f_equal.
      rewrite length_bits_of, length_take, Nat.min_l, take_app_le by (rewrite ?length_to_bits; lia). f_equal. lia. }
    rewrite Ebs, <- !app_assoc. do 3 f_equal. rewrite <- replicate_add. f_equal.
    pose proof (f_equal length Hdrop) as Hlen. rewrite length_replicate, length_app, length_to_bits in Hlen. lia. }
  destruct (IH (<[i := byte']> buf) (left - t) (bs ++ to_bits (Z.to_nat t) c) (k - Z.to_nat t)%nat)
    as (buf' & E & Hb'' & Hlen'' & Hbits''); [by apply bytes_ok_insert|done|by rewrite length_insert|lia..|].
  rewrite length_app, length_to_bits, Nat2Z.inj_add, Z2Nat.id in E by lia. fold pos in E.
  exists buf'. rewrite E, length_insert in *. split_and!; [do 2 f_equal; lia|done|done|].
  rewrite Hbits'', <- !app_assoc. f_equal.
  replace (Z.to_nat left) with (Z.to_nat t + Z.to_nat (left - t))%nat by lia.
  rewrite to_bits_split, <- app_assoc. f_equal; [|do 2 f_equal; lia].
  unfold c. rewrite <- (to_bits_mod _ (Z.shiftr v (Z.of_nat _))), !Z2Nat.id by lia. done.
Qed.

Lemma write_bits_writes v n w ws :
  0 <= n <= 32 -> holds w ws ->
  if 8 * Z.of_nat (length (wbuf w)) <? Z.of_nat (length ws) + n then write_bits v n w = Err overflow \/ n = 0
  else exists w', write_bits v n w = Ok w' /\ holds w' (ws ++ to_bits (Z.to_nat n) v) /\
                  length (wbuf w') = length (wbuf w).
Proof.
  intros Hn [Hp Hb Hs [k Hk]]. pose proof (f_equal length Hk) as El.
  rewrite length_bits_of, length_app, length_replicate in El. unfold write_bits.
  destruct (Z.eqb_spec n 0) as [->|Hn0].
  - case_match; [by right|]. exists w. cbn [Z.to_nat to_bits]. rewrite app_nil_r. split_and!; [done| |done].
    split; eauto.
  - unfold len8, saturating_mul, saturating_sub, umax. rewrite Hp.
    destruct (Z.ltb_spec (8 * Z.of_nat (length (wbuf w))) (Z.of_nat (length ws) + n)).
    + left. by rewrite (proj2 (Z.ltb_lt _ _)) by lia.
    + rewrite (proj2 (Z.ltb_ge _ n)) by lia.
      set (v' := if n =? 32 then v else _).
      assert (to_bits (Z.to_nat n) v' = to_bits (Z.to_nat n) v) as Ev.
      { unfold v'. destruct (Z.eqb_spec n 32); [done|]. fold (saturating_sub (u32_shl 1 n) 1).
        rewrite low_mask, land_ones_mod by lia.
        rewrite <- (to_bits_mod (Z.to_nat n) v), Z2Nat.id by lia. done. }
      destruct (write_loop_spec (Z.to_nat n) (wbuf w) v' n ws k) as (buf' & E & Hb' & Hl' & Hbits); [done..|lia|lia|lia|].
      exists (mkWriter buf' (Z.of_nat (length ws) + n)). rewrite E. split_and!; [done| |done]. split; cbn [wpos wbuf].
      * rewrite length_app, length_to_bits. lia.
      * done.
      * by rewrite Hl'.
      * rewrite Ev in Hbits. eexists. by rewrite <- app_assoc.
Qed.

Lemma write_bits_spec v n : 0 <= n <= 32 -> produces (write_bits v n) (to_bits (Z.to_nat n) v).
Proof.
  intros Hn w ws w' Hw E. pose proof (write_bits_writes v n w ws Hn Hw) as H.
  case_match; [destruct H as [H| ->]; [congruence|]|].
  - unfold write_bits in E. cbn in E. injection E as <-. cbn [Z.to_nat to_bits]. by rewrite app_nil_r.
  - destruct H as (w'' & E' & Hw' & Hl). rewrite E in E'. by injection E' as <-.
Qed.

Lemma write_bit_spec b : produces (write_bit b) [b].
Proof. pose proof (write_bits_spec (Z.b2z b) 1) as H. unfold write_bit. destruct b; apply H; lia. Qed.

Lemma write_ns_spec v n : 0 < n <= 256 -> 0 <= v < n -> produces (write_ns v n) (ns_bits n v).
Proof.
  intros Hn Hv. unfold write_ns, ns_bits. destruct (Z.leb_spec n 1); [apply produces_done|].
  destruct (ns_params n) as (-> & -> & Hk & Hp & Ep); [lia|]. cbv zeta.
  replace (saturating_sub (Z.log2 n + 1) 1) with (Z.log2 n) by (unfold saturating_sub; lia).
  destruct (Z.ltb_spec v (2 ^ (Z.log2 n + 1) - n)); [apply write_bits_spec; lia|].
  set (x := v + (2 ^ (Z.log2 n + 1) - n)).
  assert (2 ^ Z.log2 n <= 256) by (change 256 with (2 ^ 8); apply Z.pow_le_mono_r; lia).
  replace (saturating_add 32 v (2 ^ (Z.log2 n + 1) - n)) with x by (unfold saturating_add, umax; lia).
  apply produces_then; [apply write_bits_spec; lia|].
  replace (to_bits 1 x) with [Z.land x 1 =? 1]; [apply write_bit_spec|]. cbn [to_bits].
  change 1 with (Z.ones 1) at 1. rewrite Z.land_ones by lia. change (2 ^ 1) with 2.
  f_equal. change (Z.of_nat 0) with 0. rewrite Z.bit0_odd, Zmod_odd. by destruct (Z.odd x).
Qed.

Lemma writer_new_holds out : 8 * Z.of_nat (length out) < 2 ^ 62 -> holds (writer_new out) [].
Proof.
  intros Hs. split; cbn [writer_new wpos wbuf].
  - done.
  - apply Forall_replicate. unfold is_byte, fits. lia.
  - by rewrite length_replicate.
  - exists (8 * length out)%nat. clear Hs. induction out as [|x out IH]; [done|]. cbn [length replicate].
    change (bits_of (0 :: ?l)) with (to_bits 8 0 ++ bits_of l). cbn [app] in IH. rewrite IH, to_bits_0, <- replicate_add.
    cbn [app]. f_equal. lia.
Qed.

(** ** Sequences of fields *)

Inductive field := Plain (v n : Z) | NonSymmetric (v n : Z).

Definition field_ok (f : field) : Prop :=
  match f with
  | Plain v n => 0 <= n <= 32 /\ fits n v
  | NonSymmetric v n => 0 < n <= 256 /\ 0 <= v < n
  end.
Definition field_value (f : field) : Z := match f with Plain v _ | NonSymmetric v _ => v end.
Definition field_bits (f : field) : list bool :=
  match f with Plain v n => to_bits (Z.to_nat n) v | NonSymmetric v n => ns_bits n v end.
Definition write_field (f : field) : writer Overflow :=
  match f with Plain v n => write_bits v n | NonSymmetric v n => write_ns v n end.
Definition read_field (f : field) : reader Truncated Z :=
  match f with Plain _ n => read_bits n | NonSymmetric _ n => read_ns n end.

Fixpoint write_fields (fs : list field) : writer Overflow :=
  match fs with [] => done_writing | f :: fs => and_then (write_field f) (write_fields fs) end.
Fixpoint read_fields (fs : list field) : reader Truncated (list Z) :=
  match fs with [] => mret [] | f :: fs => v ← read_field f; vs ← read_fields fs; mret (v :: vs) end.

Lemma write_fields_spec fs : Forall field_ok fs -> produces (write_fields fs) (concat (map field_bits fs)).
Proof.
  induction 1 as [|f fs Hf _ IH]; cbn [write_fields map concat]; [apply produces_done|].
  apply produces_then; [|done]. destruct f; cbn in *; [apply write_bits_spec|apply write_ns_spec]; tauto.
Qed.

Lemma read_fields_spec fs :
  Forall field_ok fs -> consumes (read_fields fs) (concat (map field_bits fs)) (map field_value fs).
Proof.
  induction 1 as [|f fs Hf _ IH]; cbn [read_fields map concat]; [apply consumes_ret|].
  apply (consumes_bind _ _ _ _ (field_value f));
    [destruct f; cbn in *; [apply read_bits_spec|apply read_ns_spec]; tauto|].
  by apply (consumes_bind_ret (read_fields fs) (cons (field_value f))).
Qed.

(** Reading from the start of what a writer holds. *)
Lemma rest_of_written w bs : holds w bs -> exists tail, rest (reader_new (wbuf w)) = bs ++ tail.
Proof. intros [_ _ _ [k Hk]]. exists (zeros k). unfold rest. cbn. by rewrite drop_0. Qed.

(** Whatever sequence of fixed-width and non-symmetric fields the bit
    writer accepts, the bit reader, told the same widths, reads back exactly
    the values, across byte boundaries and for every width up to thirty-two. *)
Theorem bit_fields_roundtrip fs out w :
  Forall field_ok fs -> 8 * Z.of_nat (length out) < 2 ^ 62 ->
  write_fields fs (writer_new out) = Ok w ->
  length (wbuf w) = length out /\
  exists r, read_fields fs (reader_new (wbuf w)) = Ok (map field_value fs, r) /\
            finish w = div_ceil (bits_read r) 8.
Proof.
  intros Hf Hs Hw.
  destruct (write_fields_spec fs Hf _ [] w (writer_new_holds out Hs) Hw) as [Hh Hl]. cbn [app writer_new wbuf] in Hh, Hl.
  rewrite length_replicate in Hl. split; [done|]. destruct (rest_of_written w _ Hh) as [tail Et].
  rewrite (read_fields_spec fs Hf _ tail); [|unfold reader_ok; cbn; lia|done].
  eexists. split; [done|]. unfold finish, bits_read, advance. cbn. by rewrite (hd_pos _ _ Hh).
Qed.

Lemma bit_fields_roundtrip_witness :
  exists w r, write_fields [Plain 5 3; NonSymmetric 4 5; Plain 0xDEADBEEF 32] (writer_new (replicate 6 7)) = Ok w /\
    read_fields [Plain 5 3; NonSymmetric 4 5; Plain 0xDEADBEEF 32] (reader_new (wbuf w)) =
      Ok ([5; 4; 0xDEADBEEF], r).
Proof.
  eexists. edestruct (bit_fields_roundtrip [Plain 5 3; NonSymmetric 4 5; Plain 0xDEADBEEF 32] (replicate 6 7))
    as (_ & r & E & _); [repeat constructor; vm_compute; congruence|vm_compute; congruence|vm_compute; reflexivity|].
  exists r. split; [vm_compute; reflexivity|exact E].
Defined.
