(* ===== verification/Dd.v ===== *)
(** * The AV1 dependency descriptor

    Models [crates/pulsebeam-core/src/dd/model.rs], [read.rs] and [write.rs]:
    the descriptor and its template structure, the stateful reader and the
    stateful writer. [u8], [u16] and [u32] fields are integers; an [ArrayVec]
    is a list, and the capacity checks are those the code makes ([try_push]).
    A loop bounded by such a capacity recurses on the room that is left. *)

From S2P Require Import Prelude Bits.

(** ** [model.rs] *)

Definition MAX_TEMPLATES : nat := 64.
Definition MAX_DECODE_TARGETS : nat := 32.
Definition MAX_SPATIAL_IDS : nat := 4.
Definition MAX_TEMPORAL_IDS : nat := 8.
Definition MAX_FRAME_DIFFS : nat := 8.
Definition MAX_DD_LEN : nat := 255.
Definition MANDATORY_LEN : nat := 3.
Definition TEMPLATE_ID_MODULUS : Z := 64.

Inductive DecodeTargetIndication := NotPresent | Discardable | Switch | Required.

#[export] Instance DecodeTargetIndication_eq_dec : EqDecision DecodeTargetIndication.
Proof. solve_decision. Defined.

Definition dti_from_bits (v : Z) : DecodeTargetIndication :=
  let b := Z.land v 3 in
  if b =? 0 then NotPresent else if b =? 1 then Discardable else if b =? 2 then Switch else Required.

Definition dti_bits (d : DecodeTargetIndication) : Z :=
  match d with NotPresent => 0 | Discardable => 1 | Switch => 2 | Required => 3 end.

Record FrameDependencyTemplate := mkTemplate {
  spatial_id : Z;
  temporal_id : Z;
  dtis : list DecodeTargetIndication;
  frame_diffs : list Z;
  chain_diffs : list Z;
}.

Record RenderResolution := mkResolution { width : Z; height : Z }.

Record TemplateDependencyStructure := mkStructure {
  template_id_offset : Z;
  decode_target_count : Z;
  chain_count : Z;
  decode_target_protected_by : list Z;
  templates : list FrameDependencyTemplate;
  resolutions : list RenderResolution;
}.

Definition template_index (s : TemplateDependencyStructure) (wire_id : Z) : nat :=
  Z.to_nat (wrapping_sub 16 (wrapping_add 16 wire_id TEMPLATE_ID_MODULUS) (template_id_offset s)
            `mod` TEMPLATE_ID_MODULUS).

Definition template (s : TemplateDependencyStructure) (wire_id : Z) : option FrameDependencyTemplate :=
  templates s !! template_index s wire_id.

Definition all_decode_targets_bitmask (s : TemplateDependencyStructure) : Z :=
  let n := decode_target_count s in
  if n =? 0 then 0
  else if Z.of_nat MAX_DECODE_TARGETS <=? n then umax 32
  else saturating_sub (u32_shl 1 n) 1.

Definition spatial_layer_count (s : TemplateDependencyStructure) : Z :=
  foldr Z.max 0 (map (fun t => spatial_id t + 1) (templates s)).

(** [DdFields]: three flags in a byte. *)
Definition FIELD_CUSTOM_DTIS : Z := 1.
Definition FIELD_CUSTOM_FDIFFS : Z := 2.
Definition FIELD_CUSTOM_CHAINS : Z := 4.

Definition fields_empty : Z := 0.
Definition fields_is_empty (f : Z) : bool := f =? 0.
Definition custom_dtis (f : Z) : bool := negb (Z.land f FIELD_CUSTOM_DTIS =? 0).
Definition custom_fdiffs (f : Z) : bool := negb (Z.land f FIELD_CUSTOM_FDIFFS =? 0).
Definition custom_chains (f : Z) : bool := negb (Z.land f FIELD_CUSTOM_CHAINS =? 0).
Definition fields_set (f flag : Z) (v : bool) : Z :=
  if v then Z.lor f flag else Z.land f (255 - flag).

Record MandatoryFields := mkMandatory {
  m_start_of_frame : bool;
  m_end_of_frame : bool;
  m_template_id : Z;
  m_frame_number : Z;
}.

Record DependencyDescriptor := mkDescriptor {
  start_of_frame : bool;
  end_of_frame : bool;
  template_id : Z;
  frame_number : Z;
  attached_structure : option TemplateDependencyStructure;
  active_decode_targets : option Z;
  fields : Z;
  frame_dependencies : FrameDependencyTemplate;
  resolution : option RenderResolution;
}.

Definition is_in_decode_target (d : DependencyDescriptor) (i : nat) : bool :=
  match dtis (frame_dependencies d) !! i with
  | Some t => bool_decide (t <> NotPresent)
  | None => false
  end.

(** ** [read.rs] *)

Inductive DdReadError :=
| ReadTruncated
| TooLong (n : Z)
| NoStructure
| UnknownTemplateId (id : Z)
| TooManyTemplates
| TooManyFrameDiffs
| TooManySpatialLayers
| TooManyTemporalLayers
| TrailingBytes (n : Z).

(** [?] on a [Truncated] converts the error. *)
Definition up {A} (p : reader Truncated A) : reader DdReadError A :=
  fun r => map_err (fun _ => ReadTruncated) (p r).

(** [for _ in 0..n] collecting what each pass reads. *)
Fixpoint read_times {E A} (n : nat) (p : reader E A) : reader E (list A) :=
  match n with
  | O => mret []
  | S n' => a ← p; l ← read_times n' p; mret (a :: l)
  end.

Definition read_mandatory (buf : list Z) : result DdReadError MandatoryFields :=
  match buf with
  | flags :: frame_hi :: frame_lo :: _ =>
      Ok (mkMandatory (negb (Z.land flags 0x80 =? 0)) (negb (Z.land flags 0x40 =? 0))
            (Z.land flags 0x3F) (be_decode [frame_hi; frame_lo]))
  | _ => Err ReadTruncated
  end.

Definition read_dti : reader DdReadError DecodeTargetIndication :=
  v ← up (read_bits 2); mret (dti_from_bits v).

(** [while size > 0 { .. try_push .. }]: [room] is what the array still takes. *)
Fixpoint read_custom_fdiffs (room : nat) (size : Z) (acc : list Z) : reader DdReadError (list Z) :=
  if 0 <? size then
    v ← up (read_bits_u16 (saturating_mul 32 4 size));
    match room with
    | O => fail TooManyFrameDiffs
    | S room' =>
        size ← up (read_bits 2);
        read_custom_fdiffs room' size (acc ++ [saturating_add 16 v 1])
    end
  else mret acc.

Definition read_frame_dependencies (active : TemplateDependencyStructure) (m : MandatoryFields)
    (f : Z) : reader DdReadError FrameDependencyTemplate :=
  match templates active !! template_index active (m_template_id m) with
  | None => fail (UnknownTemplateId (m_template_id m))
  | Some deps =>
      ds ← (if custom_dtis f then read_times (length (dtis deps)) read_dti else mret (dtis deps));
      fd ← (if custom_fdiffs f
            then size ← up (read_bits 2); read_custom_fdiffs MAX_FRAME_DIFFS size []
            else mret (frame_diffs deps));
      cd ← (if custom_chains f
            then read_times (length (chain_diffs deps)) (up (read_bits_u8 8))
            else mret (chain_diffs deps));
      mret (mkTemplate (spatial_id deps) (temporal_id deps) ds fd cd)
  end.

(** The loop of [read_template_layers]. *)
Fixpoint read_layers (room : nat) (spatial temporal : Z) (acc : list FrameDependencyTemplate)
    : reader DdReadError (list FrameDependencyTemplate) :=
  match room with
  | O => fail TooManyTemplates
  | S room' =>
      let acc := acc ++ [mkTemplate spatial temporal [] [] []] in
      idc ← up (read_bits 2);
      if idc =? 0 then read_layers room' spatial temporal acc
      else if idc =? 1 then
        let temporal := saturating_add 8 temporal 1 in
        if Z.of_nat MAX_TEMPORAL_IDS <=? temporal then fail TooManyTemporalLayers
        else read_layers room' spatial temporal acc
      else if idc =? 2 then
        let spatial := saturating_add 8 spatial 1 in
        if Z.of_nat MAX_SPATIAL_IDS <=? spatial then fail TooManySpatialLayers
        else read_layers room' spatial 0 acc
      else mret acc
  end.

Definition read_template_layers : reader DdReadError (list FrameDependencyTemplate) :=
  read_layers MAX_TEMPLATES 0 0 [].

(** [for t in &mut s.templates] *)
Fixpoint read_templates (p : FrameDependencyTemplate -> reader DdReadError FrameDependencyTemplate)
    (ts : list FrameDependencyTemplate) : reader DdReadError (list FrameDependencyTemplate) :=
  match ts with
  | [] => mret []
  | t :: ts => t' ← p t; ts' ← read_templates p ts; mret (t' :: ts')
  end.

Definition push_dtis (t : FrameDependencyTemplate) ds :=
  mkTemplate (spatial_id t) (temporal_id t) (dtis t ++ ds) (frame_diffs t) (chain_diffs t).
Definition push_fdiffs (t : FrameDependencyTemplate) fd :=
  mkTemplate (spatial_id t) (temporal_id t) (dtis t) (frame_diffs t ++ fd) (chain_diffs t).
Definition push_chains (t : FrameDependencyTemplate) cd :=
  mkTemplate (spatial_id t) (temporal_id t) (dtis t) (frame_diffs t) (chain_diffs t ++ cd).

Definition read_template_dtis (dt_cnt : Z) :=
  read_templates (fun t => ds ← read_times (Z.to_nat dt_cnt) read_dti; mret (push_dtis t ds)).

Fixpoint read_fdiffs (room : nat) (acc : list Z) : reader DdReadError (list Z) :=
  more ← up read_bit;
  if more =? 0 then mret acc
  else
    v ← up (read_bits_u16 4);
    match room with
    | O => fail TooManyFrameDiffs
    | S room' => read_fdiffs room' (acc ++ [saturating_add 16 v 1])
    end.

Definition read_template_fdiffs :=
  read_templates (fun t =>
    fd ← read_fdiffs (MAX_FRAME_DIFFS - length (frame_diffs t)) []; mret (push_fdiffs t fd)).

(** Returns the chain count, the protections and the templates. *)
Definition read_template_chains (dt_cnt : Z) (ts : list FrameDependencyTemplate)
    : reader DdReadError (Z * list Z * list FrameDependencyTemplate) :=
  count ← up (read_ns_u8 (saturating_add 32 dt_cnt 1));
  if count =? 0 then mret (0, [], ts)
  else
    prot ← read_times (Z.to_nat dt_cnt) (up (read_ns_u8 count));
    ts ← read_templates (fun t =>
           cd ← read_times (Z.to_nat count) (up (read_bits_u8 4)); mret (push_chains t cd)) ts;
    mret (count, prot, ts).

Definition read_dimension : reader DdReadError Z :=
  v ← up (read_bits 16);
  let coded := saturating_add 32 v 1 in
  mret (if coded <=? umax 16 then coded else umax 16).

Definition read_resolutions (spatial_layers : Z) : reader DdReadError (list RenderResolution) :=
  if Z.of_nat MAX_SPATIAL_IDS <? spatial_layers then fail TooManySpatialLayers
  else read_times (Z.to_nat spatial_layers)
         (w ← read_dimension; h ← read_dimension; mret (mkResolution w h)).

Definition read_structure : reader DdReadError TemplateDependencyStructure :=
  offset ← up (read_bits_u8 6);
  n ← up (read_bits_u8 5);
  let dt_cnt := saturating_add 8 n 1 in
  ts ← read_template_layers;
  ts ← read_template_dtis dt_cnt ts;
  ts ← read_template_fdiffs ts;
  '(count, prot, ts) ← read_template_chains dt_cnt ts;
  more ← up read_bit;
  let s := mkStructure offset dt_cnt count prot ts [] in
  if more =? 0 then mret s
  else
    rs ← read_resolutions (spatial_layer_count s);
    mret (mkStructure offset dt_cnt count prot ts rs).

Record DependencyDescriptorReader := mkDdReader {
  r_structure : option TemplateDependencyStructure;
  r_active_decode_targets : Z;
}.

Definition dd_reader_new : DependencyDescriptorReader := mkDdReader None 0.
Definition dd_reader_reset (d : DependencyDescriptorReader) : DependencyDescriptorReader := mkDdReader None 0.

(** The five flags after the mandatory fields. *)
Definition read_flags : reader DdReadError (bool * bool * Z) :=
  s ← up read_bit; t ← up read_bit; a ← up read_bit; b ← up read_bit; c ← up read_bit;
  mret (negb (s =? 0), negb (t =? 0),
        fields_set (fields_set (fields_set fields_empty FIELD_CUSTOM_DTIS (negb (a =? 0)))
                      FIELD_CUSTOM_FDIFFS (negb (b =? 0))) FIELD_CUSTOM_CHAINS (negb (c =? 0))).

(** [parse] after the flags, up to the check for trailing bytes. *)
Definition parse_rest (context : option TemplateDependencyStructure) (m : MandatoryFields)
    (flags : bool * bool * Z) : reader DdReadError DependencyDescriptor :=
  let '(structure_present, targets_present, f) := flags in
  attached ← (if structure_present : bool then s ← read_structure; mret (Some s) else mret None);
  match (match attached with Some s => Some s | None => context end) with
  | None => fail NoStructure
  | Some active =>
      targets ← (if targets_present : bool
                 then v ← up (read_bits (decode_target_count active)); mret (Some v) else mret None);
      deps ← read_frame_dependencies active m f;
      let res := resolutions active !! Z.to_nat (spatial_id deps) in
      mret (mkDescriptor (m_start_of_frame m) (m_end_of_frame m) (m_template_id m) (m_frame_number m)
              attached targets f deps res)
  end.

Definition parse_body (context : option TemplateDependencyStructure) (extended : bool) (m : MandatoryFields)
    : reader DdReadError DependencyDescriptor :=
  flags ← (if extended then read_flags else mret (false, false, fields_empty));
  parse_rest context m flags.

Definition parse (d : DependencyDescriptorReader) (buf : list Z) : result DdReadError DependencyDescriptor :=
  if (MAX_DD_LEN <? length buf)%nat then Err (TooLong (Z.of_nat (length buf)))
  else
    m ← read_mandatory buf;
    match parse_body (r_structure d) (MANDATORY_LEN <? length buf)%nat m
            (with_offset buf (Z.of_nat (MANDATORY_LEN * 8))) with
    | Err e => Err e
    | Ok (dd, r) =>
        let trailing := remaining r `div` 8 in
        if 0 <? trailing then Err (TrailingBytes trailing) else Ok dd
    end.

Definition commit (d : DependencyDescriptorReader) (dd : DependencyDescriptor) : DependencyDescriptorReader :=
  let d := match attached_structure dd with
           | Some s => mkDdReader (Some s) (all_decode_targets_bitmask s)
           | None => d
           end in
  match active_decode_targets dd with
  | Some mask => mkDdReader (r_structure d) mask
  | None => d
  end.

Definition read (d : DependencyDescriptorReader) (buf : list Z)
    : DependencyDescriptorReader * result DdReadError DependencyDescriptor :=
  match parse d buf with
  | Ok dd => (commit d dd, Ok dd)
  | Err e => (d, Err e)
  end.

(** ** [write.rs] *)

Inductive DdWriteError :=
| WriteOverflow
| WriteNoStructure
| WriteUnknownTemplateId (id : Z)
| Inconsistent
| OutOfRange.

Definition out (q : writer Overflow) : writer DdWriteError := fun w => map_err (fun _ => WriteOverflow) (q w).

Definition write_each {A} (q : A -> writer DdWriteError) : list A -> writer DdWriteError :=
  fix go l := match l with [] => done_writing | a :: l => and_then (q a) (go l) end.

Definition write_dti (d : DecodeTargetIndication) : writer DdWriteError := out (write_bits (dti_bits d) 2).

Definition write_custom_fdiff (fdiff : Z) : writer DdWriteError :=
  if (fdiff =? 0) || (Z.shiftl 1 12 <? fdiff) then refuse OutOfRange
  else
    let value := saturating_sub fdiff 1 in
    let size := if fdiff <=? Z.shiftl 1 4 then 1 else if fdiff <=? Z.shiftl 1 8 then 2 else 3 in
    and_then (out (write_bits size 2)) (out (write_bits value (saturating_mul 32 4 size))).

Definition write_frame_dependencies (f : Z) (deps : FrameDependencyTemplate) : writer DdWriteError :=
  and_then (if custom_dtis f then write_each write_dti (dtis deps) else done_writing)
 (and_then (if custom_fdiffs f
            then and_then (write_each write_custom_fdiff (frame_diffs deps)) (out (write_bits 0 2))
            else done_writing)
           (if custom_chains f then write_each (fun c => out (write_bits c 8)) (chain_diffs deps)
            else done_writing)).

Definition next_layer_idc (prev next : FrameDependencyTemplate) : option Z :=
  if (spatial_id next =? spatial_id prev) && (temporal_id next =? temporal_id prev) then Some 0
  else if (spatial_id next =? spatial_id prev) && (temporal_id next =? saturating_add 8 (temporal_id prev) 1)
  then Some 1
  else if (spatial_id next =? saturating_add 8 (spatial_id prev) 1) && (temporal_id next =? 0) then Some 2
  else None.

(** [for pair in s.templates.windows(2)], then the end marker. *)
Fixpoint write_layers (ts : list FrameDependencyTemplate) : writer DdWriteError :=
  match ts with
  | prev :: ((next :: _) as rest) =>
      match next_layer_idc prev next with
      | Some idc => and_then (out (write_bits idc 2)) (write_layers rest)
      | None => refuse Inconsistent
      end
  | _ => out (write_bits 3 2)
  end.

Definition write_template_dtis (dt_cnt : Z) (ts : list FrameDependencyTemplate) : writer DdWriteError :=
  write_each (fun t =>
    if negb (Z.of_nat (length (dtis t)) =? dt_cnt) then refuse Inconsistent
    else write_each write_dti (dtis t)) ts.

Definition write_fdiff (fdiff : Z) : writer DdWriteError :=
  if (fdiff =? 0) || (Z.shiftl 1 4 <? fdiff) then refuse OutOfRange
  else and_then (out (write_bit true)) (out (write_bits (saturating_sub fdiff 1) 4)).

Definition write_template_fdiffs (ts : list FrameDependencyTemplate) : writer DdWriteError :=
  write_each (fun t => and_then (write_each write_fdiff (frame_diffs t)) (out (write_bit false))) ts.

Definition write_template_chains (s : TemplateDependencyStructure) : writer DdWriteError :=
  and_then (out (write_ns (chain_count s) (saturating_add 32 (decode_target_count s) 1)))
    (if chain_count s =? 0 then done_writing
     else if negb (Z.of_nat (length (decode_target_protected_by s)) =? decode_target_count s)
     then refuse Inconsistent
     else and_then
       (write_each (fun p => if chain_count s <=? p then refuse OutOfRange
                             else out (write_ns p (chain_count s))) (decode_target_protected_by s))
       (write_each (fun t =>
          if negb (Z.of_nat (length (chain_diffs t)) =? chain_count s) then refuse Inconsistent
          else write_each (fun c => if Z.shiftl 1 4 <=? c then refuse OutOfRange
                                    else out (write_bits c 4)) (chain_diffs t)) (templates s))).

Definition write_resolutions (s : TemplateDependencyStructure) : writer DdWriteError :=
  if negb (Z.of_nat (length (resolutions s)) =? spatial_layer_count s) then refuse Inconsistent
  else write_each (fun r =>
    if (width r =? 0) || (height r =? 0) then refuse OutOfRange
    else and_then (out (write_bits (saturating_sub (width r) 1) 16))
                  (out (write_bits (saturating_sub (height r) 1) 16))) (resolutions s).

Definition write_structure (s : TemplateDependencyStructure) : writer DdWriteError :=
  match templates s with
  | [] => refuse Inconsistent
  | first :: _ =>
      if (decode_target_count s =? 0) || (Z.of_nat MAX_DECODE_TARGETS <? decode_target_count s)
         || (decode_target_count s <? chain_count s) then refuse Inconsistent
      else if negb (spatial_id first =? 0) || negb (temporal_id first =? 0) then refuse Inconsistent
      else
        and_then (out (write_bits (template_id_offset s) 6))
       (and_then (out (write_bits (saturating_sub (decode_target_count s) 1) 5))
       (and_then (write_layers (templates s))
       (and_then (write_template_dtis (decode_target_count s) (templates s))
       (and_then (write_template_fdiffs (templates s))
       (and_then (write_template_chains s)
       (and_then (out (write_bit (negb (bool_decide (resolutions s = [])))))
                 (if bool_decide (resolutions s = []) then done_writing else write_resolutions s)))))))
  end.

Definition validate (dd : DependencyDescriptor) (active : TemplateDependencyStructure) : result DdWriteError unit :=
  match template active (template_id dd) with
  | None => Err (WriteUnknownTemplateId (template_id dd))
  | Some _ =>
      if negb (Z.of_nat (length (dtis (frame_dependencies dd))) =? decode_target_count active) then Err Inconsistent
      else if negb (Z.of_nat (length (chain_diffs (frame_dependencies dd))) =? chain_count active) then Err Inconsistent
      else match active_decode_targets dd with
           | Some mask =>
               if negb (Z.land mask (Z.lxor (umax 32) (all_decode_targets_bitmask active)) =? 0)
               then Err OutOfRange else Ok tt
           | None => Ok tt
           end
  end.

Definition is_some {A} (o : option A) : bool := match o with Some _ => true | None => false end.

Definition has_extended (dd : DependencyDescriptor) : bool :=
  is_some (attached_structure dd) || is_some (active_decode_targets dd) || negb (fields_is_empty (fields dd)).

(** The block [if has_extended { .. }]. *)
Definition write_extended (dd : DependencyDescriptor) (active : TemplateDependencyStructure) : writer DdWriteError :=
  if has_extended dd then
    and_then (out (write_bit (is_some (attached_structure dd))))
   (and_then (out (write_bit (is_some (active_decode_targets dd))))
   (and_then (out (write_bit (custom_dtis (fields dd))))
   (and_then (out (write_bit (custom_fdiffs (fields dd))))
   (and_then (out (write_bit (custom_chains (fields dd))))
   (and_then (match attached_structure dd with Some s => write_structure s | None => done_writing end)
   (and_then (match active_decode_targets dd with
              | Some mask => out (write_bits mask (decode_target_count active))
              | None => done_writing end)
             (write_frame_dependencies (fields dd) (frame_dependencies dd))))))))
  else done_writing.

Definition write_body (dd : DependencyDescriptor) (active : TemplateDependencyStructure) : writer DdWriteError :=
  and_then (out (write_bit (start_of_frame dd)))
 (and_then (out (write_bit (end_of_frame dd)))
 (and_then (out (write_bits (template_id dd) 6))
 (and_then (out (write_bits (frame_number dd) 16))
           (write_extended dd active)))).

(** [DependencyDescriptorWriter] is its structure. On success: the new
    structure, the output buffer and the number of bytes written. *)
Definition write (structure : option TemplateDependencyStructure) (dd : DependencyDescriptor) (buf : list Z)
    : result DdWriteError (option TemplateDependencyStructure * list Z * Z) :=
  match (match attached_structure dd with Some s => Some s | None => structure end) with
  | None => Err WriteNoStructure
  | Some active =>
      _ ← validate dd active;
      match write_body dd active (writer_new buf) with
      | Err e => Err e
      | Ok w =>
          Ok (match attached_structure dd with Some s => Some s | None => structure end, wbuf w, finish w)
      end
  end.
