(* ===== verification/DdCodec.v ===== *)
(** * The dependency descriptor survives the wire

    The proofs about [Dd]: what [DependencyDescriptorWriter::write] puts in a
    buffer, [DependencyDescriptorReader::read] takes out of it again, field by
    field, and a reader that follows a writer stays in step with it.

    [transports q p a] pairs a writing action with the reading action that
    undoes it. It composes along [and_then] and the reader's bind, so each
    component of the format is one lemma. *)

From S2P Require Import Prelude Bits Dd.

(** Whenever [q] succeeds, [p] reads [a] out of what it appended. *)
Definition transports {E F A} (q : writer E) (p : reader F A) (a : A) : Prop :=
  forall w ws w', holds w ws -> q w = Ok w' ->
  exists bs, holds w' (ws ++ bs) /\ length (wbuf w') = length (wbuf w) /\ consumes p bs a.

Section Combinators.
  Context {E F : Type}.
  Implicit Types q : writer E.

Lemma t_done {A} (a : A) : transports (E := E) (F := F) done_writing (mret a) a.
  Proof. intros w ws w' Hw [= <-]. exists []. rewrite app_nil_r. eauto using consumes_ret. Qed.

Lemma t_then {A B} q1 q2 (p : reader F A) (k : A -> reader F B) a b :
    transports q1 p a -> transports q2 (k a) b -> transports (and_then q1 q2) (p ≫= k) b.
  Proof.
    intros H1 H2 w ws w'' Hw. unfold and_then. destruct (q1 w) as [w'|] eqn:E1; [|done]. intros E2.
    destruct (H1 w ws w' Hw E1) as (b1 & Hw1 & L1 & C1). destruct (H2 w' _ w'' Hw1 E2) as (b2 & Hw2 & L2 & C2).
    exists (b1 ++ b2). rewrite app_assoc. split_and!; [done|congruence|]. by eapply consumes_bind.
  Qed.

  (** The reader applies a function to what it read. *)
Lemma t_map {A B} q (p : reader F A) (f : A -> B) a :
    transports q p a -> transports q (x ← p; mret (f x)) (f a).
  Proof.
    intros H w ws w' Hw Ew. destruct (H w ws w' Hw Ew) as (bs & Hh & L & C).
    exists bs. split_and!; [done..|]. by apply consumes_bind_ret.
  Qed.

Lemma t_refuse {A} e (p : reader F A) a : transports (refuse (E := E) e) p a.
  Proof. by intros w ws w' _ [=]. Qed.

Lemma t_assoc {A} q1 q2 q3 (p : reader F A) a :
    transports (and_then q1 (and_then q2 q3)) p a -> transports (and_then (and_then q1 q2) q3) p a.
  Proof. intros H w ws w' Hw Ew. apply (H w ws w' Hw). rewrite <- Ew. unfold and_then. by destruct (q1 w). Qed.

Lemma t_assoc_rev {A} q1 q2 q3 (p : reader F A) a :
    transports (and_then (and_then q1 q2) q3) p a -> transports (and_then q1 (and_then q2 q3)) p a.
  Proof. intros H w ws w' Hw Ew. apply (H w ws w' Hw). rewrite <- Ew. unfold and_then. by destruct (q1 w). Qed.

  (** Nothing is written after the last field. *)
Lemma t_then_done {A} q (p : reader F A) a : transports (and_then q done_writing) p a -> transports q p a.
  Proof. intros H w ws w' Hw Ew. apply (H w ws w' Hw). unfold and_then. by rewrite Ew. Qed.

Lemma t_skip {A} q (p : reader F A) a : transports q p a -> transports (and_then done_writing q) p a.
  Proof. done. Qed.
End Combinators.

Lemma consumes_up {A} (p : reader Truncated A) bs a : consumes p bs a -> consumes (up p) bs a.
Proof. intros H r tail Hr Er. unfold up. by rewrite (H r tail). Qed.

Lemma t_lift {A} (q : writer Overflow) (p : reader Truncated A) bs a :
  produces q bs -> consumes p bs a -> transports (out q) (up p) a.
Proof.
  intros Hq Hp w ws w' Hw. unfold out. destruct (q w) as [w1|] eqn:Eq; [|done]. intros [= <-].
  destruct (Hq w ws w1 Hw Eq) as [Hh L]. eauto using consumes_up.
Qed.

(** ** Fields *)

Lemma t_bits v n : 0 <= n <= 32 -> fits n v -> transports (out (write_bits v n)) (up (read_bits n)) v.
Proof. intros. eapply t_lift; [by apply write_bits_spec|by apply read_bits_spec]. Qed.

Lemma t_bit b : transports (out (write_bit b)) (up read_bit) (Z.b2z b).
Proof.
  eapply t_lift; [apply write_bit_spec|]. pose proof (read_bits_spec 1 (Z.b2z b)) as H.
  unfold read_bit. destruct b; apply H; unfold fits; cbn; lia.
Qed.

(** A cast of a value that fits changes nothing. *)
Lemma consumes_cast (p : reader Truncated Z) w bs v :
  fits w v -> consumes p bs v -> consumes (x ← p; mret (wrap w x)) bs v.
Proof. intros Hv Hp. rewrite <- (wrap_small w v Hv) at 1. by apply (consumes_bind_ret p (wrap w)). Qed.

Lemma fits_le a b v : a <= b -> fits a v -> fits b v.
Proof. intros H [? ?]. pose proof (Z.pow_le_mono_r 2 a b ltac:(lia) H). unfold fits. lia. Qed.

Lemma t_u8 v n : 0 <= n <= 8 -> fits n v -> transports (out (write_bits v n)) (up (read_bits_u8 n)) v.
Proof.
  intros Hn Hv. eapply t_lift; [apply write_bits_spec; lia|]. unfold read_bits_u8. rewrite Z.min_l by lia.
  apply consumes_cast; [apply (fits_le n); [lia|done]|]. apply read_bits_spec; [lia|done].
Qed.

Lemma t_u16 v n : 0 <= n <= 16 -> fits n v -> transports (out (write_bits v n)) (up (read_bits_u16 n)) v.
Proof.
  intros Hn Hv. eapply t_lift; [apply write_bits_spec; lia|]. unfold read_bits_u16. rewrite Z.min_l by lia.
  apply consumes_cast; [apply (fits_le n); [lia|done]|]. apply read_bits_spec; [lia|done].
Qed.

Lemma t_ns v n : 0 < n <= 256 -> 0 <= v < n -> transports (out (write_ns v n)) (up (read_ns_u8 n)) v.
Proof.
  intros Hn Hv. eapply t_lift; [apply write_ns_spec; lia|]. unfold read_ns_u8. rewrite Z.min_l by lia.
  apply consumes_cast; [unfold fits; lia|]. apply read_ns_spec; lia.
Qed.

Lemma dti_roundtrip d : dti_from_bits (dti_bits d) = d.
Proof. by destruct d. Qed.

Lemma t_dti d : transports (write_dti d) read_dti d.
Proof.
  rewrite <- (dti_roundtrip d) at 2. apply (t_map _ _ dti_from_bits), t_bits; [lia|].
  destruct d; unfold fits; cbn; lia.
Qed.

(** Lists written one after another and read by count. *)
Lemma t_times {A B} (q : A -> writer DdWriteError) (p : reader DdReadError B) (f : A -> B) l :
  Forall (fun a => transports (q a) p (f a)) l -> transports (write_each q l) (read_times (length l) p) (map f l).
Proof.
  induction 1 as [|a l Ha _ IH]; cbn [write_each read_times length map]; [apply t_done|].
  eapply t_then; [exact Ha|]. by apply (t_map _ _ (cons (f a))).
Qed.

Lemma t_times_id {A} (q : A -> writer DdWriteError) (p : reader DdReadError A) n l :
  length l = n -> Forall (fun a => transports (q a) p a) l -> transports (write_each q l) (read_times n p) l.
Proof. intros <- H. rewrite <- (map_id l) at 3. by apply (t_times q p (fun a => a)). Qed.

(** One pass over the templates: [from] is what the reader has of each so far,
    [to] what it has afterwards. *)
Lemma t_templates q p (from to : FrameDependencyTemplate -> FrameDependencyTemplate) ts :
  Forall (fun t => transports (q t) (p (from t)) (to t)) ts ->
  transports (write_each q ts) (read_templates p (map from ts)) (map to ts).
Proof.
  induction 1 as [|t ts Ht _ IH]; cbn [write_each read_templates map]; [apply t_done|].
  eapply t_then; [exact Ht|]. by apply (t_map _ _ (cons (to t))).
Qed.

(** ** Frame dependencies *)

Lemma t_custom_fdiffs room l acc :
  (length l <= room)%nat -> Forall (fits 16) l ->
  transports (and_then (write_each write_custom_fdiff l) (out (write_bits 0 2)))
    (size ← up (read_bits 2); read_custom_fdiffs room size acc) (acc ++ l).
Proof.
  revert room acc. induction l as [|x l IH]; intros room acc Hl Hf.
  - rewrite app_nil_r. apply t_skip, t_then_done. eapply t_then; [by apply (t_bits 0 2)|]. cbn beta.
    destruct room; cbn; apply t_done.
  - apply Forall_cons in Hf as [Hx Hf]. cbn [length] in Hl. destruct room as [|room]; [lia|].
    cbn [write_each]. apply t_assoc. unfold write_custom_fdiff at 1.
    change (Z.shiftl 1 12) with 4096. change (Z.shiftl 1 8) with 256. change (Z.shiftl 1 4) with 16.
    destruct (_ || _) eqn:Hr; [apply t_refuse|]. apply orb_false_iff in Hr as [H0 Hmax].
    set (size := if x <=? 16 then _ else _).
    assert (1 <= size <= 3 /\ x <= 2 ^ (4 * size)) as [Hs Hx']
      by (unfold size; case_ifs; split; try lia; cbn; lia).
    assert (saturating_mul 32 4 size = 4 * size) as Em by (unfold saturating_mul, umax; lia).
    apply t_assoc. eapply t_then; [apply t_bits; [lia|unfold fits; cbn; lia]|]. cbn [read_custom_fdiffs].
    rewrite (proj2 (Z.ltb_lt 0 size)), Em by lia. unfold fits, saturating_sub in *.
    eapply t_then; [apply t_u16; [lia|unfold fits; lia]|]. cbv beta.
    replace (saturating_add 16 (Z.max 0 (x - 1)) 1) with x by (unfold saturating_add, umax; lia).
    replace (acc ++ x :: l) with ((acc ++ [x]) ++ l) by (by rewrite <- app_assoc).
    apply IH; [lia|done].
Qed.

(** What the types of the fields and the capacities of the arrays promise of a
    template, and that it has one entry per decode target and per chain. *)
Record template_ok (targets chains : Z) (t : FrameDependencyTemplate) : Prop := mk_template_ok {
  to_spatial : 0 <= spatial_id t < Z.of_nat MAX_SPATIAL_IDS;
  to_temporal : 0 <= temporal_id t < Z.of_nat MAX_TEMPORAL_IDS;
  to_dtis : Z.of_nat (length (dtis t)) = targets;
  to_room : (length (frame_diffs t) <= MAX_FRAME_DIFFS)%nat;
  to_fdiffs : Forall (fits 16) (frame_diffs t);
  to_chains : Z.of_nat (length (chain_diffs t)) = chains;
  to_chain_diffs : Forall (fits 8) (chain_diffs t);
}.

Definition resolution_ok (r : RenderResolution) : Prop := fits 16 (width r) /\ fits 16 (height r).

Record structure_ok (s : TemplateDependencyStructure) : Prop := mk_structure_ok {
  so_offset : fits 6 (template_id_offset s);
  so_targets : 1 <= decode_target_count s <= Z.of_nat MAX_DECODE_TARGETS;
  so_chains : 0 <= chain_count s <= decode_target_count s;
  so_protected : Forall (fits 8) (decode_target_protected_by s);
  so_unprotected : chain_count s = 0 -> decode_target_protected_by s = [];
  so_room : (0 < length (templates s) <= MAX_TEMPLATES)%nat;
  so_templates : Forall (template_ok (decode_target_count s) (chain_count s)) (templates s);
  so_resolutions : Forall resolution_ok (resolutions s);
}.

(** A descriptor of a frame under structure [active]: what it does not code
    explicitly is its template's. *)
Record descriptor_ok (active : TemplateDependencyStructure) (dd : DependencyDescriptor) : Prop := mk_descriptor_ok {
  do_template_id : fits 6 (template_id dd);
  do_frame_number : fits 16 (frame_number dd);
  do_fields : fits 3 (fields dd);
  do_mask : forall mask, active_decode_targets dd = Some mask -> fits 32 mask;
  do_deps : template_ok (decode_target_count active) (chain_count active) (frame_dependencies dd);
  do_inherits : forall t, template active (template_id dd) = Some t ->
    let d := frame_dependencies dd in
    spatial_id d = spatial_id t /\ temporal_id d = temporal_id t /\
    (custom_dtis (fields dd) = false -> dtis d = dtis t) /\
    (custom_fdiffs (fields dd) = false -> frame_diffs d = frame_diffs t) /\
    (custom_chains (fields dd) = false -> chain_diffs d = chain_diffs t);
  do_resolution : resolution dd = resolutions active !! Z.to_nat (spatial_id (frame_dependencies dd));
}.

Lemma template_of active id t :
  structure_ok active -> template active id = Some t ->
  template_ok (decode_target_count active) (chain_count active) t.
Proof. intros Hs Ht. eapply Forall_lookup_1; [apply so_templates, Hs|exact Ht]. Qed.

Lemma t_frame_dependencies active dd m :
  structure_ok active -> descriptor_ok active dd -> is_Some (template active (template_id dd)) ->
  m_template_id m = template_id dd ->
  transports (write_frame_dependencies (fields dd) (frame_dependencies dd))
    (read_frame_dependencies active m (fields dd)) (frame_dependencies dd).
Proof.
  intros Hs Hd [t Ht] Em. unfold write_frame_dependencies, read_frame_dependencies. rewrite Em.
  unfold template in Ht. rewrite Ht. pose proof (template_of _ _ _ Hs Ht) as Ok_t.
  destruct (do_inherits _ _ Hd t Ht) as (Es & Et & Ei1 & Ei2 & Ei3).
  pose proof (do_deps _ _ Hd) as Ok_d. destruct (frame_dependencies dd) as [sp tp ds fd cd].
  cbn [spatial_id temporal_id dtis frame_diffs chain_diffs] in *. subst sp tp.
  destruct Ok_t as [_ _ Lt _ _ Ct _]. destruct Ok_d as [_ _ Ld Rd Fd Cd Bd].
  cbn [dtis frame_diffs chain_diffs] in *.
  eapply (t_then _ _ _ _ ds).
  { destruct (custom_dtis _); [|rewrite <- Ei1 by done; apply t_done].
    apply t_times_id; [lia|]. apply Forall_true. intros. apply t_dti. }
  eapply (t_then _ _ _ _ fd).
  { destruct (custom_fdiffs _); [|rewrite <- Ei2 by done; apply t_done]. by apply (t_custom_fdiffs MAX_FRAME_DIFFS fd []). }
  apply (t_map _ _ (mkTemplate (spatial_id t) (temporal_id t) ds fd)).
  destruct (custom_chains _); [|rewrite <- Ei3 by done; apply t_done].
  apply t_times_id; [lia|]. eapply Forall_impl; [exact Bd|]. intros c Hc. by apply t_u8.
Qed.

(** ** The template structure *)

(** The reader's four passes over the templates. *)
Definition stage0 (t : FrameDependencyTemplate) := mkTemplate (spatial_id t) (temporal_id t) [] [] [].
Definition stage1 (t : FrameDependencyTemplate) := mkTemplate (spatial_id t) (temporal_id t) (dtis t) [] [].
Definition stage2 (t : FrameDependencyTemplate) :=
  mkTemplate (spatial_id t) (temporal_id t) (dtis t) (frame_diffs t) [].

Lemma t_layers room t ts acc :
  (length (t :: ts) <= room)%nat ->
  Forall (fun t => 0 <= spatial_id t < Z.of_nat MAX_SPATIAL_IDS /\ 0 <= temporal_id t < Z.of_nat MAX_TEMPORAL_IDS)
    (t :: ts) ->
  transports (write_layers (t :: ts)) (read_layers room (spatial_id t) (temporal_id t) acc)
    (acc ++ map stage0 (t :: ts)).
Proof.
  revert room t acc. induction ts as [|t' ts IH]; intros [|room] t acc Hl Hf; cbn [length] in Hl; try lia.
  - cbn [write_layers read_layers]. apply t_then_done. eapply t_then; [by apply (t_bits 3 2)|]. apply t_done.
  - apply Forall_cons in Hf as [Ht Hf]. pose proof Hf as [Ht' _]%Forall_cons.
    assert (forall sp tp, sp = spatial_id t' -> tp = temporal_id t' ->
      transports (write_layers (t' :: ts)) (read_layers room sp tp (acc ++ [stage0 t]))
        (acc ++ map stage0 (t :: t' :: ts))) as Hnext.
    { intros sp tp -> ->. replace (acc ++ map stage0 (t :: t' :: ts)) with ((acc ++ [stage0 t]) ++ map stage0 (t' :: ts))
        by (by rewrite <- app_assoc). apply IH; [cbn [length]; lia|done]. }
    clear IH. change (write_layers (t :: t' :: ts)) with
      (match next_layer_idc t t' with
       | Some idc => and_then (out (write_bits idc 2)) (write_layers (t' :: ts)) | None => refuse Inconsistent end).
    unfold next_layer_idc, saturating_add, umax, MAX_SPATIAL_IDS, MAX_TEMPORAL_IDS in *.
    match goal with |- context [if ?a then _ else if ?b then _ else if ?c then _ else _] =>
      destruct a eqn:?; [|destruct b eqn:?; [|destruct c eqn:?; [|apply t_refuse]]] end;
      cbn [read_layers]; unfold saturating_add, umax, MAX_SPATIAL_IDS, MAX_TEMPORAL_IDS;
      (eapply t_then; [apply t_bits; [lia|done]|]); cbn [Z.eqb Pos.eqb];
      rewrite ?(proj2 (Z.leb_gt _ _)) by lia; apply Hnext; lia.
Qed.

Lemma t_template_layers s :
  structure_ok s -> match templates s with t :: _ => spatial_id t = 0 /\ temporal_id t = 0 | [] => False end ->
  transports (write_layers (templates s)) read_template_layers (map stage0 (templates s)).
Proof.
  intros Hs Hf. pose proof (so_room _ Hs) as Hr. pose proof (so_templates _ Hs) as Ht.
  destruct (templates s) as [|t ts]; [done|]. destruct Hf as [E1 E2]. unfold read_template_layers.
  rewrite <- E1 at 1. rewrite <- E2 at 1. apply (t_layers _ t ts []); [apply Hr|].
  eapply Forall_impl; [exact Ht|]. intros x Hx. split; apply Hx.
Qed.

Lemma t_template_dtis dt ts :
  0 <= dt -> transports (write_template_dtis dt ts) (read_template_dtis dt (map stage0 ts)) (map stage1 ts).
Proof.
  intros Hdt. apply t_templates, Forall_true. intros t. destruct (negb _) eqn:?; [apply t_refuse|].
  apply (t_map _ _ (push_dtis (stage0 t)) (dtis t)). apply t_times_id; [lia|]. apply Forall_true. intros. apply t_dti.
Qed.

Lemma t_fdiffs room l acc :
  (length l <= room)%nat -> Forall (fits 16) l ->
  transports (and_then (write_each write_fdiff l) (out (write_bit false))) (read_fdiffs room acc) (acc ++ l).
Proof.
  revert room acc. induction l as [|x l IH]; intros room acc Hl Hf.
  - rewrite app_nil_r. apply t_skip, t_then_done. destruct room; (eapply t_then; [apply (t_bit false)|]; apply t_done).
  - apply Forall_cons in Hf as [Hx Hf]. cbn [length] in Hl. destruct room as [|room]; [lia|].
    cbn [write_each]. apply t_assoc. unfold write_fdiff at 1. change (Z.shiftl 1 4) with 16.
    destruct (_ || _) eqn:Hr; [apply t_refuse|]. apply orb_false_iff in Hr as [H0 Hmax].
    apply t_assoc. cbn [read_fdiffs]. eapply t_then; [apply (t_bit true)|]. cbn [Z.b2z Z.eqb].
    unfold fits, saturating_sub in *. eapply t_then; [apply t_u16; [lia|unfold fits; cbn; lia]|]. cbv beta.
    replace (saturating_add 16 (Z.max 0 (x - 1)) 1) with x by (unfold saturating_add, umax; lia).
    replace (acc ++ x :: l) with ((acc ++ [x]) ++ l) by (by rewrite <- app_assoc).
    apply IH; [lia|done].
Qed.

Lemma t_template_fdiffs dt cc ts :
  Forall (template_ok dt cc) ts ->
  transports (write_template_fdiffs ts) (read_template_fdiffs (map stage1 ts)) (map stage2 ts).
Proof.
  intros Hts. apply t_templates. eapply Forall_impl; [exact Hts|]. intros t Ht.
  apply (t_map _ _ (push_fdiffs (stage1 t)) (frame_diffs t)), (t_fdiffs _ _ []); apply Ht.
Qed.

Lemma stage2_full dt ts : Forall (template_ok dt 0) ts -> map stage2 ts = ts.
Proof.
  induction 1 as [|[sp tp ds fd cd] ts Ht _ IH]; [done|]. cbn [map]. rewrite IH. f_equal.
  pose proof (to_chains _ _ _ Ht) as Hc. cbn in Hc. destruct cd; [done|cbn in Hc; lia].
Qed.

Lemma t_template_chains s :
  structure_ok s ->
  transports (write_template_chains s) (read_template_chains (decode_target_count s) (map stage2 (templates s)))
    (chain_count s, decode_target_protected_by s, templates s).
Proof.
  intros [_ Hdt Hcc Hp Hu _ Hts _]. unfold write_template_chains, read_template_chains. unfold MAX_DECODE_TARGETS in Hdt.
  replace (saturating_add 32 (decode_target_count s) 1) with (decode_target_count s + 1)
    by (unfold saturating_add, umax; lia).
  eapply t_then; [apply t_ns; lia|]. cbv beta. destruct (Z.eqb_spec (chain_count s) 0) as [E0|Hne].
  { rewrite E0, Hu by done. rewrite E0 in Hts. rewrite (stage2_full _ _ Hts). apply t_done. }
  destruct (negb _) eqn:El; [apply t_refuse|].
  eapply t_then.
  { apply t_times_id; [lia|]. eapply Forall_impl; [exact Hp|]. intros p Hp'.
    destruct (Z.leb_spec (chain_count s) p); [apply t_refuse|]. unfold fits in Hp'. apply t_ns; lia. }
  cbv beta. apply (t_map _ _ (fun ts => (chain_count s, decode_target_protected_by s, ts))).
  rewrite <- (map_id (templates s)) at 3. apply t_templates. eapply Forall_impl; [exact Hts|].
  intros [sp tp ds fd cd] [_ _ _ _ _ Hl Hb]. cbn [chain_diffs] in *.
  rewrite Hl, Z.eqb_refl. cbn [negb].
  apply (t_map _ _ (push_chains (stage2 (mkTemplate sp tp ds fd cd))) cd). apply t_times_id; [lia|].
  eapply Forall_impl; [exact Hb|]. intros c Hc. change (Z.shiftl 1 4) with 16.
  destruct (Z.leb_spec 16 c); [apply t_refuse|]. unfold fits in Hc. apply t_u8; [lia|unfold fits; cbn; lia].
Qed.

Lemma t_dimension d : fits 16 d -> d <> 0 -> transports (out (write_bits (saturating_sub d 1) 16)) read_dimension d.
Proof.
  intros [Hd Hd'] H0. unfold read_dimension.
  replace d with ((fun v => if saturating_add 32 v 1 <=? umax 16 then saturating_add 32 v 1 else umax 16)
                    (saturating_sub d 1)) at 2.
  - apply (t_map _ _ (fun v => if saturating_add 32 v 1 <=? umax 16 then saturating_add 32 v 1 else umax 16)).
    apply t_bits; [lia|]. unfold fits, saturating_sub. lia.
  - cbv beta. unfold saturating_add, saturating_sub, umax. destruct (Z.leb_spec (Z.min (Z.max 0 (d - 1) + 1) (2 ^ 32 - 1)) (2 ^ 16 - 1)); lia.
Qed.

Lemma spatial_layer_count_bound s n :
  0 <= n -> Forall (fun t => 0 <= spatial_id t < n) (templates s) -> 0 <= spatial_layer_count s <= n.
Proof. intros Hn. unfold spatial_layer_count. induction 1; cbn [map foldr]; lia. Qed.

Lemma structure_layers s : structure_ok s -> 0 <= spatial_layer_count s <= Z.of_nat MAX_SPATIAL_IDS.
Proof.
  intros Hs. apply spatial_layer_count_bound; [lia|]. eapply Forall_impl; [apply so_templates, Hs|].
  intros t Ht. apply Ht.
Qed.

Lemma t_resolutions s :
  structure_ok s -> transports (write_resolutions s) (read_resolutions (spatial_layer_count s)) (resolutions s).
Proof.
  intros Hs. pose proof (structure_layers s Hs). unfold write_resolutions, read_resolutions.
  destruct (negb _) eqn:El; [apply t_refuse|]. rewrite (proj2 (Z.ltb_ge _ _)) by lia.
  apply t_times_id; [lia|]. eapply Forall_impl; [apply so_resolutions, Hs|]. intros [w h] [Hw Hh]. cbn [width height] in *.
  destruct ((w =? 0) || (h =? 0)) eqn:?; [apply t_refuse|].
  eapply t_then; [apply t_dimension; [done|lia]|]. apply (t_map _ _ (mkResolution w)), t_dimension; [done|lia].
Qed.

Lemma t_structure s : structure_ok s -> transports (write_structure s) read_structure s.
Proof.
  intros Hs. unfold write_structure. destruct (templates s) as [|first ts] eqn:Ets; [apply t_refuse|]. rewrite <- Ets.
  destruct (_ || _) eqn:Hg1; [apply t_refuse|]. destruct (negb (spatial_id first =? 0) || _) eqn:Hg2; [apply t_refuse|].
  pose proof (so_targets _ Hs) as Hdt. unfold MAX_DECODE_TARGETS in Hdt.
  eapply t_then; [apply t_u8; [lia|apply Hs]|]. cbv beta.
  eapply t_then; [apply t_u8; [lia|unfold fits, saturating_sub; cbn; lia]|]. cbv beta zeta.
  replace (saturating_add 8 (saturating_sub (decode_target_count s) 1) 1) with (decode_target_count s)
    by (unfold saturating_add, saturating_sub, umax; lia).
  eapply t_then; [apply t_template_layers; [done|rewrite Ets; lia]|].
  eapply t_then; [apply t_template_dtis; lia|].
  eapply t_then; [eapply t_template_fdiffs, so_templates, Hs|].
  eapply t_then; [by apply t_template_chains|]. cbv beta iota.
  eapply t_then; [apply t_bit|]. cbv beta. case_bool_decide as Er.
  - cbn [negb Z.b2z Z.eqb]. destruct s. cbn in Er. subst. apply t_done.
  - pose proof (t_map _ _ (mkStructure (template_id_offset s) (decode_target_count s) (chain_count s)
      (decode_target_protected_by s) (templates s)) _ (t_resolutions s Hs)) as H.
    destruct s. exact H.
Qed.

(** ** The descriptor *)

Lemma fields_of_flags f :
  fits 3 f ->
  fields_set (fields_set (fields_set fields_empty FIELD_CUSTOM_DTIS (custom_dtis f))
                FIELD_CUSTOM_FDIFFS (custom_fdiffs f)) FIELD_CUSTOM_CHAINS (custom_chains f) = f.
Proof.
  unfold fits. change (2 ^ 3) with 8. intros Hf.
  assert (f = 0 \/ f = 1 \/ f = 2 \/ f = 3 \/ f = 4 \/ f = 5 \/ f = 6 \/ f = 7) as H by lia.
  by destruct_or! H; subst f.
Qed.

Lemma bit_flag b : negb (Z.b2z b =? 0) = b.
Proof. by destruct b. Qed.

(** A mask within the decode targets has no bit above them. *)
Lemma mask_fits active mask :
  1 <= decode_target_count active <= 32 -> fits 32 mask ->
  Z.land mask (Z.lxor (umax 32) (all_decode_targets_bitmask active)) = 0 -> fits (decode_target_count active) mask.
Proof.
  intros Hn Hm H0. unfold all_decode_targets_bitmask, MAX_DECODE_TARGETS in H0. set (n := decode_target_count active) in *.
  rewrite (proj2 (Z.eqb_neq n 0)) in H0 by lia. destruct (Z.leb_spec (Z.of_nat 32) n).
  { by replace n with 32 by lia. }
  rewrite low_mask in H0 by lia. unfold umax in H0.
  replace (2 ^ n - 1) with (Z.ones n) in H0 by (rewrite Z.ones_equiv; lia).
  change (2 ^ 32 - 1) with (Z.ones 32) in H0.
  rewrite <- (Z.mod_small mask (2 ^ n)); [apply Z.mod_pos_bound, pow2_pos; lia|].
  enough (mask `mod` 2 ^ n = mask) as <- by (apply Z.mod_pos_bound, pow2_pos; lia).
  apply Z.bits_inj'. intros i Hi. destruct (Z.ltb_spec i n); [by rewrite Z.mod_pow2_bits_low by lia|].
  rewrite Z.mod_pow2_bits_high by lia. symmetry. destruct (Z.ltb_spec i 32).
  - pose proof (f_equal (fun z => Z.testbit z i) H0) as Hb. cbv beta in Hb.
    rewrite Z.land_spec, Z.lxor_spec, !Z.testbit_ones_nonneg, Z.bits_0 in Hb by lia.
    rewrite (proj2 (Z.ltb_lt i 32)), (proj2 (Z.ltb_ge i n)) in Hb by lia. by rewrite andb_true_r in Hb.
  - rewrite <- (Z.mod_small mask (2 ^ 32)) by done. by apply Z.mod_pow2_bits_high; lia.
Qed.

Lemma validate_inv dd active :
  validate dd active = Ok tt -> structure_ok active -> descriptor_ok active dd ->
  is_Some (template active (template_id dd)) /\
  forall mask, active_decode_targets dd = Some mask -> fits (decode_target_count active) mask.
Proof.
  unfold validate. intros Hv Hs Hd. destruct (template active (template_id dd)) eqn:Et; [|done]. split; [done|].
  case_ifs; try done. intros mask Em. rewrite Em in Hv. case_ifs; [done|].
  pose proof (so_targets _ Hs). apply mask_fits; [done|by eapply do_mask|].
  by apply Z.eqb_eq, negb_false_iff.
Qed.

Definition mandatory_of (dd : DependencyDescriptor) : MandatoryFields :=
  mkMandatory (start_of_frame dd) (end_of_frame dd) (template_id dd) (frame_number dd).

(** The structure a descriptor is read under. *)
Definition active_under (context : option TemplateDependencyStructure) (dd : DependencyDescriptor) :=
  match attached_structure dd with Some s => Some s | None => context end.

Lemma t_flags s t f :
  fits 3 f ->
  transports (and_then (out (write_bit s)) (and_then (out (write_bit t)) (and_then (out (write_bit (custom_dtis f)))
    (and_then (out (write_bit (custom_fdiffs f))) (out (write_bit (custom_chains f))))))) read_flags (s, t, f).
Proof.
  intros Hf. rewrite <- (fields_of_flags f Hf) at 4. unfold read_flags.
  do 5 (try apply t_then_done; repeat apply t_assoc; eapply t_then; [apply t_bit|]; cbv beta).
  rewrite !bit_flag. apply t_done.
Qed.

Lemma t_rest context dd active :
  active_under context dd = Some active -> structure_ok active -> descriptor_ok active dd ->
  validate dd active = Ok tt ->
  transports
    (and_then (match attached_structure dd with Some s => write_structure s | None => done_writing end)
    (and_then (match active_decode_targets dd with
               | Some mask => out (write_bits mask (decode_target_count active)) | None => done_writing end)
       (write_frame_dependencies (fields dd) (frame_dependencies dd))))
    (parse_rest context (mandatory_of dd)
       (is_some (attached_structure dd), is_some (active_decode_targets dd), fields dd)) dd.
Proof.
  intros Ea Hs Hd Hv. destruct (validate_inv dd active Hv Hs Hd) as [Ht Hm].
  pose proof (t_frame_dependencies active dd (mandatory_of dd) Hs Hd Ht eq_refl) as Hf.
  pose proof (do_resolution _ _ Hd) as Er. unfold parse_rest. eapply (t_then _ _ _ _ (attached_structure dd)).
  { unfold active_under in Ea. destruct (attached_structure dd) as [s|]; cbn [is_some]; [|apply t_done].
    injection Ea as <-. by apply (t_map _ _ Some), t_structure. }
  fold (active_under context dd). cbv beta. rewrite Ea. eapply (t_then _ _ _ _ (active_decode_targets dd)).
  { destruct (active_decode_targets dd) as [mask|]; cbn [is_some]; [|apply t_done].
    pose proof (so_targets _ Hs). unfold MAX_DECODE_TARGETS in *. apply (t_map _ _ Some), t_bits; [lia|by apply Hm]. }
  cbv beta zeta. pose proof (t_map _ _ (fun deps => mkDescriptor (start_of_frame dd) (end_of_frame dd) (template_id dd)
    (frame_number dd) (attached_structure dd) (active_decode_targets dd) (fields dd) deps
    (resolutions active !! Z.to_nat (spatial_id deps))) _ Hf) as H.
  cbv beta in H. rewrite <- Er in H. destruct dd. exact H.
Qed.

Lemma t_extended context dd active :
  active_under context dd = Some active -> structure_ok active -> descriptor_ok active dd ->
  validate dd active = Ok tt ->
  transports (write_extended dd active) (parse_body context (has_extended dd) (mandatory_of dd)) dd.
Proof.
  intros Ea Hs Hd Hv. pose proof (t_rest context dd active Ea Hs Hd Hv) as Hr.
  unfold write_extended, parse_body. destruct (has_extended dd) eqn:Hx.
  - do 4 apply t_assoc_rev. eapply t_then; [|exact Hr]. do 3 apply t_assoc. by apply t_flags, (do_fields active).
  - unfold has_extended in Hx. rewrite !orb_false_iff, negb_false_iff in Hx. destruct Hx as [[Ha Ht] Hf].
    destruct (attached_structure dd), (active_decode_targets dd); try done.
    apply Z.eqb_eq in Hf. rewrite Hf in Hr. exact Hr.
Qed.

(** ** Bytes on the wire *)

Lemma bits_of_take n buf : bits_of (take n buf) = take (8 * n) (bits_of buf).
Proof.
  destruct (decide (n <= length buf)%nat).
  - rewrite <- (take_drop n buf) at 2. rewrite bits_of_app. symmetry. apply take_app_length'.
    rewrite length_bits_of, length_take. lia.
  - rewrite (take_ge buf) by lia. by rewrite take_ge by (rewrite length_bits_of; lia).
Qed.

Definition mandatory_bits (dd : DependencyDescriptor) : list bool :=
  start_of_frame dd :: end_of_frame dd :: to_bits 6 (template_id dd) ++ to_bits 16 (frame_number dd).

(** The first byte: two flags above a six-bit template id. *)
Lemma first_byte_flags s e t :
  fits 6 t ->
  let b := num [s; e] * 2 ^ 6 + t in
  negb (Z.land b 0x80 =? 0) = s /\ negb (Z.land b 0x40 =? 0) = e /\ Z.land b 0x3F = t.
Proof.
  intros Ht. assert (Forall (fun t => let b := num [s; e] * 2 ^ 6 + t in
    negb (Z.land b 0x80 =? 0) = s /\ negb (Z.land b 0x40 =? 0) = e /\ Z.land b 0x3F = t) (seqZ 0 64)) as H.
  { destruct s, e; repeat constructor. }
  rewrite Forall_forall in H. apply H, elem_of_seqZ. unfold fits in Ht. lia.
Qed.

Lemma byte_bits b : is_byte b -> b = num (to_bits 8 b).
Proof. intros Hb. rewrite num_to_bits. by rewrite Z.mod_small. Qed.

(** The three mandatory bytes. *)
Lemma read_mandatory_bits dd buf tail :
  bytes_ok buf -> fits 6 (template_id dd) -> fits 16 (frame_number dd) ->
  bits_of buf = mandatory_bits dd ++ tail -> read_mandatory buf = Ok (mandatory_of dd).
Proof.
  intros Hb Ht Hf Eb. pose proof (f_equal length Eb) as El. rewrite length_bits_of, length_app in El.
  unfold mandatory_bits in El. cbn [length] in El. rewrite length_app, !length_to_bits in El.
  destruct buf as [|b0 [|b1 [|b2 buf]]]; cbn [length] in El; try lia.
  apply Forall_cons in Hb as [H0 Hb]. apply Forall_cons in Hb as [H1 Hb]. apply Forall_cons in Hb as [H2 _].
  assert (to_bits 8 b0 ++ (to_bits 8 b1 ++ to_bits 8 b2) ++ bits_of buf =
    (start_of_frame dd :: end_of_frame dd :: to_bits 6 (template_id dd)) ++ to_bits 16 (frame_number dd) ++ tail) as Eb'.
  { rewrite <- app_assoc. etrans; [exact Eb|]. unfold mandatory_bits. cbn [app]. by rewrite <- app_assoc. }
  clear Eb. apply app_inj_1 in Eb' as [E0 Eb]; [|cbn [length]; by rewrite !length_to_bits].
  apply app_inj_1 in Eb as [E12 _]; [|rewrite length_app, !length_to_bits; lia].
  assert (be_decode [b1; b2] = frame_number dd) as Efn.
  { rewrite <- (Z.mod_small (frame_number dd) (2 ^ 16)) by done. change 16 with (Z.of_nat 16) at 1.
    rewrite <- num_to_bits, <- E12, num_app, length_to_bits, !num_to_bits, !Z.mod_small by done. by cbn. }
  assert (b0 = num (start_of_frame dd :: end_of_frame dd :: to_bits 6 (template_id dd))) as Eb0
    by (rewrite <- E0; by apply byte_bits).
  change (start_of_frame dd :: end_of_frame dd :: to_bits 6 (template_id dd))
    with ([start_of_frame dd; end_of_frame dd] ++ to_bits 6 (template_id dd)) in Eb0.
  rewrite num_app, length_to_bits, num_to_bits, Z.mod_small in Eb0 by done.
  destruct (first_byte_flags (start_of_frame dd) (end_of_frame dd) (template_id dd) Ht) as (F1 & F2 & F3).
  change (Z.of_nat 6) with 6 in Eb0. unfold read_mandatory, mandatory_of. rewrite Efn, Eb0. by rewrite F1, F2, F3.
Qed.

Lemma produces_out q bs : produces q bs -> produces (out q) bs.
Proof.
  intros H w ws w' Hw. unfold out. destruct (q w) eqn:Eq; [|done]. intros [= <-]. by apply (H w).
Qed.

Lemma produces_mandatory dd :
  produces (and_then (out (write_bit (start_of_frame dd))) (and_then (out (write_bit (end_of_frame dd)))
    (and_then (out (write_bits (template_id dd) 6)) (out (write_bits (frame_number dd) 16))))) (mandatory_bits dd).
Proof.
  apply (produces_then _ _ [_]); [apply produces_out, write_bit_spec|].
  apply (produces_then _ _ [_]); [apply produces_out, write_bit_spec|].
  apply produces_then; by apply produces_out, write_bits_spec.
Qed.

(** An extended descriptor has at least one more bit. *)
Lemma extended_nonempty context m bs dd : consumes (parse_body context true m) bs dd -> bs <> [].
Proof.
  intros H ->. specialize (H (mkReader [] 0) []). unfold reader_ok in H. cbn in H.
  specialize (H ltac:(lia) eq_refl). discriminate H.
Qed.

Lemma length_mandatory_bits dd : length (mandatory_bits dd) = 24%nat.
Proof. unfold mandatory_bits. cbn [length]. by rewrite length_app, !length_to_bits. Qed.

Lemma write_inv W dd buf W' buf' len :
  write W dd buf = Ok (W', buf', len) ->
  exists active w, active_under W dd = Some active /\ validate dd active = Ok tt /\
    write_body dd active (writer_new buf) = Ok w /\ W' = Some active /\ buf' = wbuf w /\ len = finish w.
Proof.
  unfold write. fold (active_under W dd). destruct (active_under W dd) as [active|] eqn:Ea; [|done].
  unfold mbind, result_bind. destruct (validate dd active) as [[]|] eqn:Ev; [|done].
  destruct (write_body dd active (writer_new buf)) as [w|] eqn:Ew; [|done]. intros [= <- <- <-]. eauto 10.
Qed.

(** The bits a successful [write] leaves: the mandatory fields, then an
    extension the reader consumes, then zeros. *)
Lemma write_body_bits context dd active buf w :
  active_under context dd = Some active -> structure_ok active -> descriptor_ok active dd ->
  validate dd active = Ok tt -> 8 * Z.of_nat (length buf) < 2 ^ 62 ->
  write_body dd active (writer_new buf) = Ok w ->
  exists bs, holds w (mandatory_bits dd ++ bs) /\ length (wbuf w) = length buf /\
    consumes (parse_body context (has_extended dd) (mandatory_of dd)) bs dd /\
    (has_extended dd = false -> bs = []).
Proof.
  intros Ea Hs Hd Hv Hbuf Hw. set (mand := and_then (out (write_bit (start_of_frame dd)))
    (and_then (out (write_bit (end_of_frame dd)))
    (and_then (out (write_bits (template_id dd) 6)) (out (write_bits (frame_number dd) 16))))).
  assert (write_body dd active (writer_new buf) = and_then mand (write_extended dd active) (writer_new buf)) as E.
  { unfold write_body, mand, and_then. repeat (case_match; try done). }
  rewrite E in Hw. unfold and_then at 1 in Hw. destruct (mand (writer_new buf)) as [w1|] eqn:E1; [|done].
  destruct (produces_mandatory dd _ [] w1 (writer_new_holds buf Hbuf) E1) as [H1 L1]. cbn [app] in H1.
  cbn [writer_new wbuf] in L1. rewrite length_replicate in L1. destruct (has_extended dd) eqn:Hx.
  - destruct (t_extended context dd active Ea Hs Hd Hv w1 _ w H1 Hw) as (bs & Hh & L & C).
    rewrite Hx in C. exists bs. split_and!; [done|congruence|done|done].
  - destruct (t_extended context dd active Ea Hs Hd Hv w1 _ w H1 Hw) as (bs & Hh & L & C).
    assert (bs = []) as ->.
    { unfold write_extended in Hw. rewrite Hx in Hw. injection Hw as <-. pose proof (hd_pos _ _ H1) as P1.
      pose proof (hd_pos _ _ Hh) as P2. rewrite length_app in P2. destruct bs; [done|cbn [length] in P2; lia]. }
    rewrite Hx in C. exists []. split_and!; [done|congruence|done|done].
Qed.

(** What follows the mandatory bytes is parsed up to the padding of the last byte. *)
Lemma parse_written d dd bs buf pad :
  bytes_ok buf -> (length buf <= MAX_DD_LEN)%nat -> fits 6 (template_id dd) -> fits 16 (frame_number dd) ->
  bits_of buf = mandatory_bits dd ++ bs ++ zeros pad -> (pad < 8)%nat ->
  consumes (parse_body (r_structure d) (has_extended dd) (mandatory_of dd)) bs dd ->
  (has_extended dd = false -> bs = []) ->
  parse d buf = Ok dd.
Proof.
  intros Hb Hl Ht Hf Eb Hpad C Hbs. pose proof (f_equal length Eb) as El.
  rewrite length_bits_of, !length_app, length_mandatory_bits, length_replicate in El. unfold MAX_DD_LEN, MANDATORY_LEN in *.
  unfold parse. rewrite (proj2 (Nat.ltb_ge _ _)) by done. unfold mbind, result_bind.
  rewrite (read_mandatory_bits dd buf (bs ++ zeros pad)) by done.
  assert ((MANDATORY_LEN <? length buf)%nat = has_extended dd) as ->.
  { unfold MANDATORY_LEN. destruct (has_extended dd) eqn:Hx; [|rewrite Hbs in El by done; apply Nat.ltb_ge; cbn in El; lia].
    apply extended_nonempty in C. destruct bs; [done|]. cbn [length] in El. apply Nat.ltb_lt. lia. }
  assert (with_offset buf (Z.of_nat (MANDATORY_LEN * 8)) = mkReader buf 24) as ->.
  { unfold with_offset, len8, saturating_mul, umax, MANDATORY_LEN. f_equal. lia. }
  rewrite (C _ (zeros pad)).
  - unfold remaining, len8, saturating_mul, saturating_sub, umax, advance. cbn [rbuf rpos].
    rewrite (proj2 (Z.ltb_ge _ _)); [done|]. Z.to_euclidean_division_equations; lia.
  - unfold reader_ok. cbn [rbuf rpos]. lia.
  - unfold rest. cbn [rbuf rpos]. rewrite Eb. rewrite drop_app_length'; [done|by rewrite length_mandatory_bits].
Qed.

Lemma written_parses W dd active buf W' buf' len d :
  active_under W dd = Some active -> structure_ok active -> descriptor_ok active dd ->
  8 * Z.of_nat (length buf) < 2 ^ 62 -> write W dd buf = Ok (W', buf', len) -> len <= Z.of_nat MAX_DD_LEN ->
  r_structure d = W -> parse d (take (Z.to_nat len) buf') = Ok dd.
Proof.
  intros Ea Hs Hd Hbuf Hw Hlen Er. destruct (write_inv _ _ _ _ _ _ Hw) as (a & w & Ea' & Hv & Eb & _ & -> & ->).
  rewrite Ea in Ea'. injection Ea' as <-.
  destruct (write_body_bits W dd active buf w Ea Hs Hd Hv Hbuf Eb) as (bs & Hh & L & C & Hbs).
  destruct Hh as [Hp Hbytes Hsz [k Hk]]. rewrite length_app, length_mandatory_bits in Hp.
  pose proof (f_equal length Hk) as Lk. rewrite length_bits_of, !length_app, length_mandatory_bits, length_replicate in Lk.
  unfold finish, div_ceil in *. set (n := Z.to_nat ((wpos w + 8 - 1) `div` 8)) in *.
  assert (24 + length bs <= 8 * n < 24 + length bs + 8)%nat as Hn by (unfold n; dlia).
  apply (parse_written d dd bs _ (8 * n - (24 + length bs))).
  - by apply Forall_take.
  - rewrite length_take. unfold n. lia.
  - by apply (do_template_id active).
  - by apply (do_frame_number active).
  - rewrite bits_of_take, Hk, app_assoc.
    rewrite take_app_ge by (rewrite length_app, length_mandatory_bits; lia). f_equal.
    rewrite take_replicate, length_app, length_mandatory_bits. f_equal. lia.
  - lia.
  - by rewrite Er.
  - done.
Qed.

Lemma commit_structure d dd : r_structure (commit d dd) = active_under (r_structure d) dd.
Proof. unfold commit, active_under. by destruct (attached_structure dd), (active_decode_targets dd). Qed.

(** ** Streams of descriptors *)

(** A sender encodes each descriptor into a buffer of [n] bytes and sends the
    bytes [write] reports; a receiver reads them in turn. *)
Fixpoint write_stream (W : option TemplateDependencyStructure) (n : nat) (dds : list DependencyDescriptor)
    : result DdWriteError (option TemplateDependencyStructure * list (list Z)) :=
  match dds with
  | [] => Ok (W, [])
  | dd :: dds =>
      '(W', buf, len) ← write W dd (replicate n 0);
      '(W'', msgs) ← write_stream W' n dds;
      mret (W'', take (Z.to_nat len) buf :: msgs)
  end.

Fixpoint read_stream (d : DependencyDescriptorReader) (msgs : list (list Z))
    : DependencyDescriptorReader * list (result DdReadError DependencyDescriptor) :=
  match msgs with
  | [] => (d, [])
  | m :: msgs =>
      let '(d', x) := read d m in
      let '(d'', xs) := read_stream d' msgs in
      (d'', x :: xs)
  end.

(** Every descriptor agrees with the structure in force when it is sent. *)
Fixpoint stream_ok (W : option TemplateDependencyStructure) (dds : list DependencyDescriptor) : Prop :=
  match dds with
  | [] => True
  | dd :: dds =>
      (exists active, active_under W dd = Some active /\ structure_ok active /\ descriptor_ok active dd) /\
      stream_ok (active_under W dd) dds
  end.

Lemma finish_le W dd buf W' buf' len :
  8 * Z.of_nat (length buf) < 2 ^ 62 ->
  (exists active, active_under W dd = Some active /\ structure_ok active /\ descriptor_ok active dd) ->
  write W dd buf = Ok (W', buf', len) -> len <= Z.of_nat (length buf).
Proof.
  intros Hbuf (active & Ea & Hs & Hd) Hw. destruct (write_inv _ _ _ _ _ _ Hw) as (a & w & Ea' & Hv & Eb & _ & -> & ->).
  rewrite Ea in Ea'. injection Ea' as <-.
  destruct (write_body_bits W dd active buf w Ea Hs Hd Hv Hbuf Eb) as (bs & [Hp _ _ [k Hk]] & L & _).
  apply (f_equal length) in Hk. rewrite length_bits_of, length_app, length_replicate in Hk.
  unfold finish, div_ceil. rewrite Hp. dlia.
Qed.

Lemma stream_roundtrip W n dds W' msgs d :
  (n <= MAX_DD_LEN)%nat -> stream_ok W dds -> write_stream W n dds = Ok (W', msgs) -> r_structure d = W ->
  exists d', read_stream d msgs = (d', map Ok dds) /\ r_structure d' = W'.
Proof.
  intros Hn. revert W W' msgs d. induction dds as [|dd dds IH]; intros W W' msgs d Hok Hw Hd; cbn in *.
  { injection Hw as <- <-. by exists d. }
  destruct Hok as [Hok Hrest]. destruct (write W dd (replicate n 0)) as [[[W1 buf] len]|] eqn:E1; [|done]. cbn in Hw.
  destruct (write_stream W1 n dds) as [[W2 msgs2]|] eqn:E2; [|done]. cbn in Hw. injection Hw as <- <-.
  assert (8 * Z.of_nat (length (replicate n 0)) < 2 ^ 62) as Hsz by (rewrite length_replicate; unfold MAX_DD_LEN in *; lia).
  pose proof (finish_le _ _ _ _ _ _ Hsz Hok E1) as Hlen. rewrite length_replicate in Hlen.
  pose proof (write_inv _ _ _ _ _ _ E1) as (a & _ & Ea & _ & _ & -> & _).
  destruct Hok as (active & Ea' & Hs & Hdd). rewrite Ea in Ea'. injection Ea' as <-.
  pose proof (written_parses W dd a _ _ _ _ d Ea Hs Hdd Hsz E1 ltac:(lia) Hd) as Hp.
  cbn [read_stream]. unfold read. rewrite Hp. rewrite Ea in Hrest.
  destruct (IH (Some a) W2 msgs2 (commit d dd) Hrest E2) as (d' & Er & Es); [by rewrite commit_structure, Hd|].
  rewrite Er. by exists d'.
Qed.

(** C18. A receiver that reads, in order, the bytes a sender's dependency
    descriptor writer produced gets exactly the descriptors that were sent,
    through every change of the template structure, and ends with the
    structure the writer holds. *)
Theorem dependency_descriptor_roundtrip n dds W' msgs :
  (n <= MAX_DD_LEN)%nat -> stream_ok None dds -> write_stream None n dds = Ok (W', msgs) ->
  exists d', read_stream dd_reader_new msgs = (d', map Ok dds) /\ r_structure d' = W'.
Proof. intros Hn Hok Hw. by apply (stream_roundtrip None n dds W' msgs dd_reader_new). Qed.

(** Two temporal layers with one chain, then a frame with its own diffs. *)
Definition example_structure : TemplateDependencyStructure :=
  mkStructure 60 2 1 [0; 0]
    [mkTemplate 0 0 [Switch; Switch] [] [0]; mkTemplate 0 0 [Required; Required] [4] [4];
     mkTemplate 0 1 [Discardable; NotPresent] [2] [2]] [mkResolution 1280 720].
Definition example_frames : list DependencyDescriptor :=
  [mkDescriptor true true 60 7 (Some example_structure) (Some 3) 0
     (mkTemplate 0 0 [Switch; Switch] [] [0]) (Some (mkResolution 1280 720));
   mkDescriptor true true 62 8 None None 6
     (mkTemplate 0 1 [Discardable; NotPresent] [300; 2] [200]) (Some (mkResolution 1280 720))].

Lemma example_structure_ok : structure_ok example_structure.
Proof. split; cbn; try (unfold fits; lia); try done; repeat constructor; cbn; try done; unfold MAX_FRAME_DIFFS; lia. Qed.

Lemma example_frames_ok : stream_ok None example_frames.
Proof.
  cbn [stream_ok example_frames]. split_and!; [| |done];
  exists example_structure; (split_and!; [done|apply example_structure_ok|]).
  all: split; cbn; try (unfold fits; cbn; lia); try done.
  all: try (intros mask [= <-]; done).
  all: try (repeat constructor; cbn; try done; unfold MAX_FRAME_DIFFS; lia).
  all: intros t [= <-]; cbn; done.
Qed.

Lemma dependency_descriptor_roundtrip_witness :
  exists W' msgs d', write_stream None 64 example_frames = Ok (W', msgs) /\
    map length msgs = [15; 8]%nat /\ read_stream dd_reader_new msgs = (d', map Ok example_frames).
Proof.
  destruct (write_stream None 64 example_frames) as [[W' msgs]|] eqn:E; [|vm_compute in E; discriminate E].
  destruct (dependency_descriptor_roundtrip 64 example_frames W' msgs) as (d' & H & _);
    [unfold MAX_DD_LEN; lia|apply example_frames_ok|exact E|].
  exists W', msgs, d'. split; [reflexivity|]. split; [|exact H].
  vm_compute in E. injection E as <- <-. vm_compute. reflexivity.
Defined.

(** ** What the reader accepts is well formed *)

Definition yields {E A} (p : reader E A) (P : A -> Prop) : Prop :=
  forall r a r', reader_ok r -> p r = Ok (a, r') -> reader_ok r' /\ P a.

Lemma y_ret {E A} (a : A) (P : A -> Prop) : P a -> yields (E := E) (mret a) P.
Proof. by intros Ha r x r' Hr [= <- <-]. Qed.

Lemma y_fail {E A} (e : E) (P : A -> Prop) : yields (fail e) P.
Proof. by intros r a r' _ [=]. Qed.

Lemma y_bind {E A B} (p : reader E A) (k : A -> reader E B) P Q :
  yields p P -> (forall a, P a -> yields (k a) Q) -> yields (p ≫= k) Q.
Proof.
  intros Hp Hk r b r'' Hr. unfold mbind, reader_bind. destruct (p r) as [[a r']|] eqn:Ep; [|done]. intros Ek.
  destruct (Hp r a r' Hr Ep) as [Hr' Ha]. by apply (Hk a Ha r').
Qed.

Lemma y_up {A} (p : reader Truncated A) P : yields p P -> yields (up p) P.
Proof. intros H r a r' Hr. unfold up. destruct (p r) as [[x y]|] eqn:Ep; [|done]. intros [= <- <-]. by apply (H r). Qed.

Lemma y_true {E A} (p : reader E A) P : yields p P -> yields p (fun _ => True).
Proof. intros H r a r' Hr Ep. by destruct (H r a r' Hr Ep). Qed.

Lemma y_bits n : 0 <= n <= 32 -> yields (read_bits n) (fits n).
Proof.
  intros Hn r v r' Hr E. pose proof (read_bits_total n r Hn Hr) as H. case_match; [congruence|]. rewrite E in H.
  injection H as -> ->. set (bs := take (Z.to_nat n) (rest r)).
  assert (Z.of_nat (length bs) = n) as El by (unfold bs; rewrite length_take; lia). split.
  - replace (Z.to_nat n) with (length bs) by lia. eapply rest_advance; [done|]. symmetry. apply take_drop.
  - pose proof (num_range bs) as Hb. by rewrite El in Hb.
Qed.

Lemma y_u8 n : 0 <= n <= 8 -> yields (up (read_bits_u8 n)) (fits n).
Proof.
  intros Hn. apply y_up. unfold read_bits_u8. rewrite Z.min_l by lia. eapply y_bind; [apply y_bits; lia|].
  intros v Hv. apply y_ret. rewrite wrap_small; [done|by eapply fits_le, Hv; lia].
Qed.

Lemma y_u16 n : 0 <= n <= 16 -> yields (up (read_bits_u16 n)) (fits n).
Proof.
  intros Hn. apply y_up. unfold read_bits_u16. rewrite Z.min_l by lia. eapply y_bind; [apply y_bits; lia|].
  intros v Hv. apply y_ret. rewrite wrap_small; [done|by eapply fits_le, Hv; lia].
Qed.

Lemma y_ns n : 0 < n <= 256 -> yields (up (read_ns_u8 n)) (fun v => 0 <= v < n).
Proof.
  intros Hn. apply y_up. unfold read_ns_u8. rewrite Z.min_l by lia. eapply (y_bind _ _ (fun v => 0 <= v < n)).
  - unfold read_ns. destruct (Z.leb_spec n 1); [apply y_ret; lia|].
    destruct (ns_params n) as (-> & -> & Hk & Hp & Ep); [lia|]. cbv zeta.
    replace (saturating_sub (Z.log2 n + 1) 1) with (Z.log2 n) by (unfold saturating_sub; lia).
    eapply y_bind; [apply y_bits; lia|]. intros v Hv. unfold fits in Hv. destruct (Z.ltb_spec v (2 ^ (Z.log2 n + 1) - n)).
    + apply y_ret. lia.
    + eapply y_bind; [apply (y_bits 1); lia|]. intros b Hb. apply y_ret. unfold fits in Hb. change (2 ^ 1) with 2 in Hb.
      assert (2 ^ Z.log2 n <= 256) by (change 256 with (2 ^ 8); apply Z.pow_le_mono_r; lia).
      rewrite u32_shl_small by lia. unfold saturating_add, saturating_sub, umax. lia.
  - intros v Hv. apply y_ret. rewrite wrap_small; [done|]. unfold fits. lia.
Qed.

Lemma y_times {E A} n (p : reader E A) P :
  yields p P -> yields (read_times n p) (fun l => length l = n /\ Forall P l).
Proof.
  intros Hp. induction n as [|n IH]; cbn [read_times]; [by apply y_ret|].
  eapply y_bind; [exact Hp|]. intros a Ha. eapply y_bind; [exact IH|]. intros l [Hl Hf]. apply y_ret.
  cbn [length]. auto.
Qed.

Lemma y_templates p (P Q : FrameDependencyTemplate -> Prop) ts :
  (forall t, P t -> yields (p t) Q) -> Forall P ts ->
  yields (read_templates p ts) (fun ts' => length ts' = length ts /\ Forall Q ts').
Proof.
  intros Hp. induction 1 as [|t ts Ht _ IH]; cbn [read_templates]; [by apply y_ret|].
  eapply y_bind; [by apply Hp|]. intros a Ha. eapply y_bind; [exact IH|]. intros l [Hl Hf]. apply y_ret.
  cbn [length]. auto.
Qed.

Lemma y_dti : yields read_dti (fun _ => True).
Proof. eapply y_bind; [apply y_up, y_bits; lia|]. intros. by apply y_ret. Qed.

Lemma y_custom_fdiffs room size acc :
  0 <= size < 4 -> Forall (fits 16) acc ->
  yields (read_custom_fdiffs room size acc) (fun l => (length l <= length acc + room)%nat /\ Forall (fits 16) l).
Proof.
  revert size acc. induction room as [|room IH]; intros size acc Hs Ha; cbn [read_custom_fdiffs];
    (destruct (Z.ltb_spec 0 size); [|apply y_ret; split; [lia|done]]);
    (assert (saturating_mul 32 4 size = 4 * size) as -> by (unfold saturating_mul, umax; lia));
    (eapply y_bind; [apply y_u16; lia|]); intros v Hv; [apply y_fail|].
  eapply y_bind; [apply y_up, y_bits; lia|]. intros size' Hs'. unfold fits in Hs'. change (2 ^ 2) with 4 in Hs'.
  eapply (fits_le _ 12) in Hv; [|lia]. unfold fits in Hv.
  assert (fits 16 (saturating_add 16 v 1)) by (unfold fits, saturating_add, umax; lia).
  intros r l r' Hr El. destruct (IH size' (acc ++ [saturating_add 16 v 1]) Hs') with r l r' as (Hr' & Hl & Hf); [|done..|].
  - apply Forall_app. auto.
  - rewrite length_app in Hl. cbn [length] in Hl. split_and!; [done|lia|done].
Qed.

Lemma y_fdiffs room acc :
  Forall (fits 16) acc ->
  yields (read_fdiffs room acc) (fun l => (length l <= length acc + room)%nat /\ Forall (fits 16) l).
Proof.
  revert acc. induction room as [|room IH]; intros acc Ha; cbn [read_fdiffs];
    (eapply y_bind; [apply y_up, (y_bits 1); lia|]); intros more _;
    (destruct (more =? 0); [apply y_ret; split; [lia|done]|]);
    (eapply y_bind; [apply y_u16; lia|]); intros v Hv; [apply y_fail|].
  unfold fits in Hv. change (2 ^ 4) with 16 in Hv.
  assert (fits 16 (saturating_add 16 v 1)) by (unfold fits, saturating_add, umax; lia).
  intros r l r' Hr El. destruct (IH (acc ++ [saturating_add 16 v 1])) with r l r' as (Hr' & Hl & Hf); [|done..|].
  - apply Forall_app. auto.
  - rewrite length_app in Hl. cbn [length] in Hl. split_and!; [done|lia|done].
Qed.

(** The templates after each pass. *)
Definition layer_ok (t : FrameDependencyTemplate) : Prop :=
  0 <= spatial_id t < Z.of_nat MAX_SPATIAL_IDS /\ 0 <= temporal_id t < Z.of_nat MAX_TEMPORAL_IDS.
Definition blank (t : FrameDependencyTemplate) : Prop :=
  layer_ok t /\ dtis t = [] /\ frame_diffs t = [] /\ chain_diffs t = [].
Definition with_dtis (dt : Z) (t : FrameDependencyTemplate) : Prop :=
  layer_ok t /\ Z.of_nat (length (dtis t)) = dt /\ frame_diffs t = [] /\ chain_diffs t = [].

Lemma y_layers room sp tp acc :
  0 <= sp < Z.of_nat MAX_SPATIAL_IDS -> 0 <= tp < Z.of_nat MAX_TEMPORAL_IDS -> Forall blank acc ->
  yields (read_layers room sp tp acc) (fun ts => (0 < length ts <= length acc + room)%nat /\ Forall blank ts).
Proof.
  revert sp tp acc. induction room as [|room IH]; intros sp tp acc Hs Ht Ha; cbn [read_layers]; [apply y_fail|].
  eapply y_bind; [apply y_up, y_bits; lia|]. intros idc _. set (acc' := acc ++ [mkTemplate sp tp [] [] []]).
  assert (Forall blank acc') as Ha' by (apply Forall_app; split; [done|repeat constructor; cbn; lia]).
  assert (length acc' = S (length acc)) as El by (unfold acc'; rewrite length_app; cbn; lia).
  assert (forall sp tp, 0 <= sp < Z.of_nat MAX_SPATIAL_IDS -> 0 <= tp < Z.of_nat MAX_TEMPORAL_IDS ->
    yields (read_layers room sp tp acc') (fun ts => (0 < length ts <= length acc + S room)%nat /\ Forall blank ts)) as Hn.
  { intros sp' tp' Hs' Ht' r l r' Hr E. destruct (IH sp' tp' acc' Hs' Ht' Ha' r l r' Hr E) as (? & ? & ?).
    split_and!; [done|lia..|done]. }
  unfold saturating_add, umax, MAX_SPATIAL_IDS, MAX_TEMPORAL_IDS in *.
  destruct (idc =? 0); [by apply Hn|]. destruct (idc =? 1).
  { destruct (Z.leb_spec (Z.of_nat 8) (Z.min (tp + 1) (2 ^ 8 - 1))); [apply y_fail|]. apply Hn; lia. }
  destruct (idc =? 2).
  { destruct (Z.leb_spec (Z.of_nat 4) (Z.min (sp + 1) (2 ^ 8 - 1))); [apply y_fail|]. apply Hn; lia. }
  apply y_ret. split; [lia|done].
Qed.

Lemma y_template_dtis dt ts :
  0 <= dt -> Forall blank ts ->
  yields (read_template_dtis dt ts) (fun ts' => length ts' = length ts /\ Forall (with_dtis dt) ts').
Proof.
  intros Hdt. apply y_templates. intros t (Hl & Ed & Ef & Ec). eapply y_bind; [apply y_times, y_dti|].
  intros ds [Hds _]. apply y_ret. unfold with_dtis, layer_ok, push_dtis in *. cbn. rewrite Ed. split_and!; try done; try lia.
  cbn [app]. lia.
Qed.

Lemma y_template_fdiffs dt ts :
  Forall (with_dtis dt) ts ->
  yields (read_template_fdiffs ts) (fun ts' => length ts' = length ts /\ Forall (template_ok dt 0) ts').
Proof.
  apply y_templates. intros t ((Hs & Ht) & Ed & Ef & Ec). eapply y_bind; [by apply y_fdiffs|].
  intros fd [Hl Hf]. apply y_ret. rewrite Ef in Hl. cbn [length] in Hl.
  unfold push_fdiffs. rewrite Ef, Ec. split; cbn; try done; try lia.
Qed.

Lemma template_ok_chains dt cc t cd :
  template_ok dt 0 t -> length cd = Z.to_nat cc -> 0 <= cc -> Forall (fits 8) cd -> template_ok dt cc (push_chains t cd).
Proof.
  intros [Hs Ht Hd Hr Hf Hc _] Hl Hcc Hb. destruct (chain_diffs t) as [|] eqn:Ec; [|cbn in Hc; lia].
  unfold push_chains. rewrite Ec. split; cbn; try done; try lia.
Qed.

Lemma y_template_chains dt ts :
  1 <= dt <= 32 -> Forall (template_ok dt 0) ts ->
  yields (read_template_chains dt ts) (fun '(count, prot, ts') =>
    0 <= count <= dt /\ Forall (fits 8) prot /\ (count = 0 -> prot = []) /\ length ts' = length ts /\
    Forall (template_ok dt count) ts').
Proof.
  intros Hdt Hts. unfold read_template_chains.
  replace (saturating_add 32 dt 1) with (dt + 1) by (unfold saturating_add, umax; lia).
  eapply y_bind; [apply y_ns; lia|]. intros count Hc. cbv beta in Hc. destruct (Z.eqb_spec count 0) as [->|Hne].
  { apply y_ret. split_and!; try done; lia. }
  eapply y_bind; [apply y_times, y_ns; lia|]. intros prot [_ Hp].
  eapply y_bind.
  { apply (y_templates _ (template_ok dt 0) (template_ok dt count)); [|done]. intros t Ht.
    eapply y_bind; [apply y_times, y_u8; lia|]. intros cd [Hl Hf]. apply y_ret.
    apply template_ok_chains; [done|done|lia|]. eapply Forall_impl; [exact Hf|]. intros c Hc'. eapply fits_le, Hc'; lia. }
  intros ts' [Hl Hf]. apply y_ret. split_and!; try done; try lia.
  eapply Forall_impl; [exact Hp|]. intros p Hp'. cbn in Hp'. unfold fits. lia.
Qed.

Lemma y_dimension : yields read_dimension (fits 16).
Proof.
  unfold read_dimension. eapply y_bind; [apply y_up, y_bits; lia|]. intros v Hv. apply y_ret.
  unfold fits, saturating_add, umax in *. destruct (Z.leb_spec (Z.min (v + 1) (2 ^ 32 - 1)) (2 ^ 16 - 1)); lia.
Qed.

Lemma y_resolutions n : yields (read_resolutions n) (Forall resolution_ok).
Proof.
  unfold read_resolutions. case_ifs; [apply y_fail|]. intros r l r' Hr E.
  edestruct (y_times (Z.to_nat n) (w ← read_dimension; h ← read_dimension; mret (mkResolution w h)) resolution_ok)
    as (? & ? & ?); [|done|exact E|done].
  eapply y_bind; [apply y_dimension|]. intros w Hw. eapply y_bind; [apply y_dimension|]. intros h Hh.
  by apply y_ret.
Qed.

Lemma y_structure : yields read_structure structure_ok.
Proof.
  unfold read_structure. eapply y_bind; [apply y_u8; lia|]. intros offset Hoff.
  eapply y_bind; [apply y_u8; lia|]. intros n Hn. cbv zeta. unfold fits in Hn. change (2 ^ 5) with 32 in Hn.
  replace (saturating_add 8 n 1) with (n + 1) by (unfold saturating_add, umax; lia).
  eapply y_bind; [apply (y_layers MAX_TEMPLATES 0 0 []); [by cbn..|constructor]|]. intros ts0 [L0 H0].
  eapply y_bind; [apply y_template_dtis; [lia|done]|]. intros ts1 [L1 H1].
  eapply y_bind; [by apply y_template_fdiffs|]. intros ts2 [L2 H2].
  eapply y_bind; [by apply y_template_chains; [lia|]|]. intros [[count prot] ts3] (Hc & Hp & Hu & L3 & H3).
  eapply y_bind; [eapply y_up, (y_bits 1); lia|]. intros more _.
  assert (forall rs, Forall resolution_ok rs -> structure_ok (mkStructure offset (n + 1) count prot ts3 rs)) as Hok.
  { intros rs Hrs. cbn [length] in L0. split; cbn [template_id_offset decode_target_count chain_count decode_target_protected_by templates resolutions];
      try done; unfold MAX_DECODE_TARGETS; lia. }
  destruct (more =? 0); [apply y_ret, Hok; constructor|].
  eapply y_bind; [apply y_resolutions|]. intros rs Hrs. by apply y_ret, Hok.
Qed.

(** What a frame inherits from its template. *)
Definition inherits (f : Z) (t d : FrameDependencyTemplate) : Prop :=
  spatial_id d = spatial_id t /\ temporal_id d = temporal_id t /\
  (custom_dtis f = false -> dtis d = dtis t) /\
  (custom_fdiffs f = false -> frame_diffs d = frame_diffs t) /\
  (custom_chains f = false -> chain_diffs d = chain_diffs t).

Lemma y_frame_dependencies active m f :
  structure_ok active ->
  yields (read_frame_dependencies active m f) (fun d =>
    template_ok (decode_target_count active) (chain_count active) d /\
    exists t, template active (m_template_id m) = Some t /\ inherits f t d).
Proof.
  intros Hs. unfold read_frame_dependencies.
  destruct (templates active !! template_index active (m_template_id m)) as [t|] eqn:Et; [|apply y_fail].
  pose proof (template_of active (m_template_id m) t Hs Et) as [T1 T2 T3 T4 T5 T6 T7].
  eapply (y_bind _ _ (fun ds => length ds = length (dtis t) /\ (custom_dtis f = false -> ds = dtis t))).
  { destruct (custom_dtis f); [|by apply y_ret]. intros r a r' Hr E.
    by destruct (y_times _ _ _ y_dti r a r' Hr E) as (? & ? & _). }
  intros ds [L1 I1].
  eapply (y_bind _ _ (fun fd => ((length fd <= MAX_FRAME_DIFFS)%nat /\ Forall (fits 16) fd) /\
                                (custom_fdiffs f = false -> fd = frame_diffs t))).
  { destruct (custom_fdiffs f); [|by apply y_ret]. eapply y_bind; [apply y_up, y_bits; lia|].
    intros size Hsz r a r' Hr E.
    by destruct (y_custom_fdiffs MAX_FRAME_DIFFS size [] Hsz (Forall_nil_2 _) r a r' Hr E). }
  intros fd [[L2 F2] I2].
  eapply (y_bind _ _ (fun cd => (length cd = length (chain_diffs t) /\ Forall (fits 8) cd) /\
                                (custom_chains f = false -> cd = chain_diffs t))).
  { destruct (custom_chains f); [|by apply y_ret]. intros r a r' Hr E.
    by destruct (y_times (length (chain_diffs t)) _ _ (y_u8 8 ltac:(lia)) r a r' Hr E). }
  intros cd [[L3 F3] I3]. apply y_ret. split; [split; cbn; try done; lia|]. by exists t.
Qed.

Lemma y_flags : yields read_flags (fun '(_, _, f) => fits 3 f).
Proof.
  unfold read_flags. do 5 (eapply y_bind; [eapply y_up, (y_bits 1); lia|]; intros ? _). apply y_ret.
  repeat (match goal with |- context [negb ?b] => destruct (negb b) end); done.
Qed.

(** Everything but the mandatory fields of [descriptor_ok]. *)
Lemma y_rest context m flags :
  (forall s, context = Some s -> structure_ok s) -> fits 3 flags.2 -> fits 6 (m_template_id m) ->
  fits 16 (m_frame_number m) ->
  yields (parse_rest context m flags) (fun dd => exists active,
    active_under context dd = Some active /\ structure_ok active /\ descriptor_ok active dd /\
    is_Some (template active (template_id dd))).
Proof.
  destruct flags as [[sp tp] f]. cbn [snd]. intros Hc Hf Hid Hfn. unfold parse_rest.
  eapply (y_bind _ _ (fun o => forall s, o = Some s -> structure_ok s)).
  { destruct sp; [|by apply y_ret]. eapply y_bind; [apply y_structure|]. intros s Hs. apply y_ret. by intros ? [= <-]. }
  intros attached Ha. destruct (match attached with Some s => Some s | None => context end) as [active|] eqn:Ea;
    [|apply y_fail].
  assert (structure_ok active) as Hs by (destruct attached; [apply Ha; congruence|apply Hc; congruence]).
  eapply (y_bind _ _ (fun o => forall v, o = Some v -> fits 32 v)).
  { destruct tp; [|by apply y_ret]. pose proof (so_targets _ Hs) as Hd. unfold MAX_DECODE_TARGETS in Hd.
    eapply y_bind; [apply y_up, y_bits; lia|]. intros v Hv. apply y_ret. intros ? [= <-]. eapply fits_le, Hv. lia. }
  intros targets Ht. eapply y_bind; [by apply y_frame_dependencies|]. intros deps (Hd & t & Et & Hi).
  apply y_ret. exists active. unfold active_under. cbn [attached_structure template_id]. split_and!; [done|done| |by exists t].
  split; cbn; try done. intros t' Et'. rewrite Et in Et'. by injection Et' as <-.
Qed.

Lemma read_mandatory_ok buf m :
  bytes_ok buf -> read_mandatory buf = Ok m -> fits 6 (m_template_id m) /\ fits 16 (m_frame_number m).
Proof.
  intros Hb. destruct buf as [|b0 [|b1 [|b2 buf]]]; [done..|]. intros [= <-]. cbn [m_template_id m_frame_number].
  apply Forall_cons in Hb as [H0 Hb]. apply Forall_cons in Hb as [H1 Hb]. apply Forall_cons in Hb as [H2 _]. split.
  - change 0x3F with (2 ^ 6 - 1). rewrite land_ones_mod by lia. by apply Z.mod_pos_bound.
  - apply (be_decode_fits [b1; b2]). apply Forall_cons_2; [done|]. by apply Forall_singleton.
Qed.

Definition reader_inv (d : DependencyDescriptorReader) : Prop :=
  forall s, r_structure d = Some s -> structure_ok s.

Lemma parse_ok d buf dd :
  reader_inv d -> bytes_ok buf -> parse d buf = Ok dd ->
  exists active, active_under (r_structure d) dd = Some active /\ structure_ok active /\ descriptor_ok active dd /\
    is_Some (template active (template_id dd)).
Proof.
  intros Hd Hb. unfold parse. destruct (Nat.ltb_spec MAX_DD_LEN (length buf)) as [|Hl]; [done|].
  unfold mbind, result_bind. destruct (read_mandatory buf) as [m|] eqn:Em; [|done].
  destruct (read_mandatory_ok buf m Hb Em) as [Hid Hfn].
  destruct (parse_body _ _ m _) as [[x r]|] eqn:Ep; [|done]. case_ifs; [done|]. intros [= <-].
  unfold MAX_DD_LEN in Hl. assert (yields (parse_body (r_structure d) (MANDATORY_LEN <? length buf)%nat m)
    (fun dd => exists active, active_under (r_structure d) dd = Some active /\ structure_ok active /\
       descriptor_ok active dd /\ is_Some (template active (template_id dd)))) as Hy.
  { unfold parse_body. eapply (y_bind _ _ (fun fl => fits 3 fl.2)).
    - case_match; [|by apply y_ret]. intros r0 [[? ?] f] r1 Hr E. exact (y_flags r0 _ r1 Hr E).
    - intros fl Hfl. by apply y_rest. }
  eapply Hy; [|exact Ep]. unfold reader_ok, with_offset, len8, saturating_mul, umax, MANDATORY_LEN. cbn [rpos rbuf]. lia.
Qed.

(** Whatever bytes arrive, the reader keeps only well-formed structures:
    a descriptor it accepts has every field within its type, one indication
    per decode target, one difference per chain and no more entries than the
    arrays hold, all under a well-formed structure; a descriptor it refuses
    leaves its state as it was. *)
Theorem read_keeps_wellformed d buf d' x :
  reader_inv d -> bytes_ok buf -> read d buf = (d', x) ->
  reader_inv d' /\
  match x with
  | Ok dd => exists active, r_structure d' = Some active /\ structure_ok active /\ descriptor_ok active dd /\
               is_Some (template active (template_id dd))
  | Err _ => d' = d
  end.
Proof.
  intros Hd Hb. unfold read. destruct (parse d buf) as [dd|e] eqn:Ep; intros [= <- <-]; [|done].
  destruct (parse_ok d buf dd Hd Hb Ep) as (active & Ea & Hs & Hok & Ht). split.
  - intros s. rewrite commit_structure, Ea. by intros [= <-].
  - exists active. by rewrite commit_structure.
Qed.

Lemma read_keeps_wellformed_witness :
  exists d' dd, read dd_reader_new [252; 0; 7; 199; 129; 30; 189; 19; 69; 2; 20; 19; 252; 11; 63] = (d', Ok dd) /\
    reader_inv d'.
Proof.
  destruct (read dd_reader_new [252; 0; 7; 199; 129; 30; 189; 19; 69; 2; 20; 19; 252; 11; 63]) as [d' x] eqn:E.
  destruct (read_keeps_wellformed dd_reader_new [252; 0; 7; 199; 129; 30; 189; 19; 69; 2; 20; 19; 252; 11; 63] d' x) as [Hi _].
  - intros s [=].
  - repeat constructor; vm_compute; congruence.
  - exact E.
  - vm_compute in E. injection E as <- <-. do 2 eexists. split; [reflexivity|exact Hi].
Defined.

(** ** Relaying *)

Lemma read_stream_ok d msgs d' dds :
  reader_inv d -> Forall bytes_ok msgs -> read_stream d msgs = (d', map Ok dds) ->
  stream_ok (r_structure d) dds.
Proof.
  revert d dds. induction msgs as [|m msgs IH]; intros d dds Hd Hm Hr; cbn [read_stream] in Hr.
  { injection Hr as _ Er. by destruct dds. }
  apply Forall_cons in Hm as [Hb Hm]. unfold read in Hr. destruct (parse d m) as [x|e] eqn:Ep.
  - destruct (read_stream (commit d x) msgs) as [d2 xs] eqn:E2. injection Hr as <- Ex.
    destruct dds as [|dd dds]; [done|]. injection Ex as <- ->.
    destruct (parse_ok d m x Hd Hb Ep) as (active & Ea & Hs & Hok & _). cbn [stream_ok]. split; [by exists active|].
    rewrite <- commit_structure. eapply IH; [|done|exact E2]. intros s. rewrite commit_structure, Ea. by intros [= <-].
  - destruct (read_stream d msgs) as [d2 xs]. injection Hr as _ Ex. by destruct dds.
Qed.

(** Relaying loses nothing: descriptors taken from any publisher's bytes
    and written again are read by the next receiver as the descriptors the
    relay saw, even where the publisher's own encoding was not the one the
    writer chooses. *)
Theorem relayed_descriptors_unchanged msgs d dds n W msgs' :
  Forall bytes_ok msgs -> read_stream dd_reader_new msgs = (d, map Ok dds) ->
  (n <= MAX_DD_LEN)%nat -> write_stream None n dds = Ok (W, msgs') ->
  exists d', read_stream dd_reader_new msgs' = (d', map Ok dds).
Proof.
  intros Hb Hr Hn Hw. assert (stream_ok None dds) as Hok
    by (eapply (read_stream_ok dd_reader_new); [by intros s [=]|exact Hb|exact Hr]).
  destruct (stream_roundtrip None n dds W msgs' dd_reader_new Hn Hok Hw eq_refl) as (d' & E & _). by exists d'.
Qed.

(** The second message codes its difference in more bits than needed. *)
Definition relayed : list (list Z) :=
  [[252; 0; 7; 199; 129; 30; 189; 19; 69; 2; 20; 19; 252; 11; 63]; [254; 0; 8; 20; 12; 0]].
Definition relayed_frames : list DependencyDescriptor :=
  take 1 example_frames ++
  [mkDescriptor true true 62 8 None None 2
     (mkTemplate 0 1 [Discardable; NotPresent] [7] [2]) (Some (mkResolution 1280 720))].

Lemma relayed_descriptors_unchanged_witness :
  exists W msgs' d', write_stream None 64 relayed_frames = Ok (W, msgs') /\ map length msgs' = [15; 5]%nat /\
    read_stream dd_reader_new msgs' = (d', map Ok relayed_frames).
Proof.
  destruct (write_stream None 64 relayed_frames) as [[W msgs']|] eqn:E; [|vm_compute in E; discriminate E].
  destruct (relayed_descriptors_unchanged relayed (read_stream dd_reader_new relayed).1 relayed_frames 64 W msgs') as (d' & H);
    [repeat constructor; vm_compute; congruence|vm_compute; reflexivity|unfold MAX_DD_LEN; lia|exact E|].
  exists W, msgs', d'. split; [reflexivity|]. split; [|exact H].
  vm_compute in E. injection E as <- <-. vm_compute. reflexivity.
Defined.
