(* ===== verification/Vla.v ===== *)
(** * The video layers allocation extension

    Models [crates/pulsebeam-core/src/vla.rs]: the decoder of the RTP header
    extension in which a sender announces its simulcast streams, their spatial
    positions and the cumulative rate of each temporal layer. Bytes are
    integers; the reader is the slice that is left. *)

From S2P Require Import Prelude.

Definition MAX_VLA_LEN : nat := 255.

Record ResolutionAndFramerate := mkRnF { vla_width : Z; vla_height : Z; framerate : Z }.
Record TemporalLayerAllocation := mkTemporal { cumulative_kbps : Z }.
Record SpatialLayerAllocation := mkSpatial {
  temporal_layers : list TemporalLayerAllocation;
  resolution_and_framerate : option ResolutionAndFramerate;
}.
Record SimulcastStreamAllocation := mkSimulcast { spatial_layers : list SpatialLayerAllocation }.
Record VideoLayersAllocation := mkVla {
  current_simulcast_stream_index : Z;
  simulcast_streams : list SimulcastStreamAllocation;
}.

Inductive VlaReadError := VlaTooLong | VlaTruncated | VlaInvalid | VlaTrailingBytes.

(** [Reader]: actions on the slice that is left. *)
Definition vread (A : Type) : Type := list Z -> result VlaReadError (A * list Z).
#[export] Instance vread_ret : MRet vread := fun A a l => Ok (a, l).
#[export] Instance vread_bind : MBind vread :=
  fun A B k p l => match p l with Ok (a, l') => k a l' | Err e => Err e end.
Definition vfail {A} (e : VlaReadError) : vread A := fun _ => Err e.

Definition byte : vread Z := fun l => match l with b :: rest => Ok (b, rest) | [] => Err VlaTruncated end.
Definition take_bytes (n : nat) : vread (list Z) := fun l =>
  if (n <=? length l)%nat then Ok (take n l, drop n l) else Err VlaTruncated.

(** [rate]: seven bits a byte, least significant first, at most nine bytes.
    The shift never reaches 64, so [checked_shl] succeeds. *)
Fixpoint rate_loop (shifts : list Z) (value : Z) : vread Z :=
  match shifts with
  | [] => vfail VlaInvalid
  | shift :: shifts =>
      b ← byte;
      let value := Z.lor value (shl 64 (Z.land b 127) shift) in
      if Z.land b 128 =? 0 then mret value else rate_loop shifts value
  end.
Definition rate : vread Z := rate_loop [0; 7; 14; 21; 28; 35; 42; 49; 56] 0.

(** [u8::BITS - mask.leading_zeros()] *)
Definition bit_length (mask : Z) : Z := if mask =? 0 then 0 else Z.log2 mask + 1.

Fixpoint read_rates (n : nat) : vread (list TemporalLayerAllocation) :=
  match n with
  | O => mret []
  | S n => v ← rate; l ← read_rates n; mret (mkTemporal v :: l)
  end.

(** [for spatial in 0..spatial_count], with the temporal counts not yet used. *)
Fixpoint read_spatial (spatials : list Z) (mask : Z) (counts : list Z)
    : vread (list SpatialLayerAllocation * list Z) :=
  match spatials with
  | [] => mret ([], counts)
  | spatial :: spatials =>
      if negb (Z.land mask (shl 8 1 spatial) =? 0) then
        match counts with
        | [] => vfail VlaTruncated
        | count :: counts =>
            ts ← read_rates (Z.to_nat count);
            '(l, counts) ← read_spatial spatials mask counts;
            mret (mkSpatial ts None :: l, counts)
        end
      else
        '(l, counts) ← read_spatial spatials mask counts;
        mret (mkSpatial [] None :: l, counts)
  end.

Fixpoint read_streams (masks : list Z) (counts : list Z) : vread (list SimulcastStreamAllocation) :=
  match masks with
  | [] => mret []
  | mask :: masks =>
      '(l, counts) ← read_spatial (seqZ 0 (bit_length mask)) mask counts;
      rest ← read_streams masks counts;
      mret (mkSimulcast l :: rest)
  end.

Definition read_resolution (s : SpatialLayerAllocation) : vread SpatialLayerAllocation :=
  match temporal_layers s with
  | [] => mret s
  | ts =>
      l ← take_bytes 5;
      match l with
      | [wh; wl; hh; hl; f] =>
          mret (mkSpatial ts (Some (mkRnF (saturating_add 32 (be_decode [wh; wl]) 1)
                                          (saturating_add 32 (be_decode [hh; hl]) 1) f)))
      | _ => vfail VlaTruncated
      end
  end.

Fixpoint read_each {A} (f : A -> vread A) (l : list A) : vread (list A) :=
  match l with [] => mret [] | a :: l => a' ← f a; l' ← read_each f l; mret (a' :: l') end.

Definition read_vla_resolutions (streams : list SimulcastStreamAllocation) : vread (list SimulcastStreamAllocation) :=
  read_each (fun s => l ← read_each read_resolution (spatial_layers s); mret (mkSimulcast l)) streams.

Definition mask_bits (mask : Z) : list bool := map (fun bit => negb (Z.land mask (Z.shiftl 1 bit) =? 0)) [0; 1; 2; 3].
Definition active_count (masks : list Z) : nat := length (filter (fun b : bool => b = true) (masks ≫= mask_bits)).
Definition temporal_counts (counts : list Z) : list Z :=
  map (fun bits => saturating_add 8 (Z.land bits 3) 1)
    (counts ≫= fun b => [Z.shiftr b 6; Z.shiftr b 4; Z.shiftr b 2; b]).

Definition read_masks (stream_count shared_mask : Z) : vread (list Z) :=
  if negb (shared_mask =? 0) then mret (replicate (Z.to_nat stream_count) shared_mask)
  else
    l ← take_bytes (Z.to_nat (div_ceil stream_count 2));
    mret (take (Z.to_nat stream_count) (l ≫= fun b => [Z.shiftr b 4; Z.land b 15])).

Definition vla_parse (bytes : list Z) : result VlaReadError VideoLayersAllocation :=
  if (MAX_VLA_LEN <? length bytes)%nat then Err VlaTooLong
  else
    match byte bytes with
    | Err e => Err e
    | Ok (header, remaining) =>
        if (header =? 0) && bool_decide (remaining = []) then Ok (mkVla 0 [])
        else
          let index := Z.shiftr header 6 in
          let stream_count := saturating_add 8 (Z.land (Z.shiftr header 4) 3) 1 in
          if stream_count <=? index then Err VlaInvalid
          else
            let body : vread (list SimulcastStreamAllocation) :=
              masks ← read_masks stream_count (Z.land header 15);
              counts ← take_bytes (Z.to_nat (div_ceil (Z.of_nat (active_count masks)) 4));
              read_streams masks (temporal_counts counts) in
            match body remaining with
            | Err e => Err e
            | Ok (streams, []) => Ok (mkVla index streams)
            | Ok (streams, remaining) =>
                match read_vla_resolutions streams remaining with
                | Err e => Err e
                | Ok (streams, []) => Ok (mkVla index streams)
                | Ok (_, _) => Err VlaTrailingBytes
                end
            end
    end.

(** ** What a decoded allocation can hold *)

Definition temporal_ok (t : TemporalLayerAllocation) : Prop := fits 64 (cumulative_kbps t).
Definition rnf_ok (r : ResolutionAndFramerate) : Prop :=
  1 <= vla_width r <= 65536 /\ 1 <= vla_height r <= 65536 /\ fits 8 (framerate r).

Record spatial_ok (s : SpatialLayerAllocation) : Prop := mk_spatial_ok {
  sp_temporal : (length (temporal_layers s) <= 4)%nat;
  sp_rates : Forall temporal_ok (temporal_layers s);
  sp_resolution : match resolution_and_framerate s with
                  | Some r => rnf_ok r /\ temporal_layers s <> []
                  | None => True
                  end;
}.
Definition stream_bounded (s : SimulcastStreamAllocation) : Prop :=
  (length (spatial_layers s) <= 4)%nat /\ Forall spatial_ok (spatial_layers s).
Definition vla_bounded (v : VideoLayersAllocation) : Prop :=
  (length (simulcast_streams v) <= 4)%nat /\ Forall stream_bounded (simulcast_streams v) /\
  (simulcast_streams v = [] \/ 0 <= current_simulcast_stream_index v < Z.of_nat (length (simulcast_streams v))).

(** On bytes, [p] returns what satisfies [P] and leaves bytes. *)
Definition gives {A} (p : vread A) (P : A -> Prop) : Prop :=
  forall l a l', bytes_ok l -> p l = Ok (a, l') -> bytes_ok l' /\ P a.

Lemma g_ret {A} (a : A) (P : A -> Prop) : P a -> gives (mret a) P.
Proof. by intros Ha l x l' Hl [= <- <-]. Qed.
Lemma g_fail {A} e (P : A -> Prop) : gives (vfail e) P.
Proof. by intros l a l' _ [=]. Qed.
Lemma g_bind {A B} (p : vread A) (k : A -> vread B) P Q :
  gives p P -> (forall a, P a -> gives (k a) Q) -> gives (p ≫= k) Q.
Proof.
  intros Hp Hk l b l'' Hl. unfold mbind, vread_bind. destruct (p l) as [[a l']|] eqn:Ep; [|done]. intros Ek.
  destruct (Hp l a l' Hl Ep) as [Hl' Ha]. by apply (Hk a Ha l').
Qed.

Lemma g_byte : gives byte is_byte.
Proof. intros [|b l] x l' Hl [=]. subst. by apply Forall_cons in Hl as [? ?]. Qed.
Lemma g_take n : gives (take_bytes n) (fun l => length l = n /\ bytes_ok l).
Proof.
  intros l a l' Hl. unfold take_bytes. destruct (Nat.leb_spec n (length l)); [|done]. intros [= <- <-].
  rewrite length_take. split_and!; [by apply Forall_drop|lia|by apply Forall_take].
Qed.

Lemma g_rate_loop shifts v : fits 64 v -> gives (rate_loop shifts v) (fits 64).
Proof.
  revert v. induction shifts as [|s shifts IH]; intros v Hv; cbn [rate_loop]; [apply g_fail|].
  eapply g_bind; [apply g_byte|]. intros b _. cbv zeta.
  assert (fits 64 (Z.lor v (shl 64 (Z.land b 127) s))) as Hn.
  { unfold shl. pose proof (wrap_fits 64 (Z.shiftl (Z.land b 127) s) ltac:(lia)) as Hs. unfold fits in *.
    set (x := wrap 64 _) in *. assert (0 <= Z.lor v x) by (apply Z.lor_nonneg; lia). split; [lia|].
    destruct (decide (Z.lor v x = 0)) as [->|]; [lia|]. apply Z.log2_lt_pow2; [lia|]. rewrite Z.log2_lor by lia.
    apply Z.max_lub_lt; (destruct (decide (0 < v)); destruct (decide (0 < x));
      try (apply Z.log2_lt_pow2; lia); rewrite Z.log2_nonpos; lia). }
  case_ifs; [by apply g_ret|by apply IH].
Qed.

Lemma g_rates n : gives (read_rates n) (fun l => length l = n /\ Forall temporal_ok l).
Proof.
  induction n as [|n IH]; cbn [read_rates]; [by apply g_ret|]. eapply g_bind; [by apply g_rate_loop|].
  intros v Hv. eapply g_bind; [exact IH|]. intros l [Hl Hf]. apply g_ret. cbn [length]. auto.
Qed.

Lemma g_spatial spatials mask counts :
  Forall (fun c => 1 <= c <= 4) counts ->
  gives (read_spatial spatials mask counts) (fun '(l, counts') =>
    length l = length spatials /\ Forall spatial_ok l /\ Forall (fun c => 1 <= c <= 4) counts').
Proof.
  revert counts. induction spatials as [|s spatials IH]; intros counts Hc; cbn [read_spatial]; [by apply g_ret|].
  destruct (negb _).
  - destruct counts as [|c counts]; [apply g_fail|]. apply Forall_cons in Hc as [H1 Hc].
    eapply g_bind; [apply g_rates|]. intros ts [Lt Ft]. eapply g_bind; [by apply IH|].
    intros [l counts'] (L & F & C). apply g_ret. cbn [length]. split_and!; [congruence| |done].
    constructor; [|done]. split; cbn; [lia|done|done].
  - eapply g_bind; [by apply IH|]. intros [l counts'] (L & F & C). apply g_ret. cbn [length].
    split_and!; [congruence| |done]. constructor; [|done]. split; cbn; [lia|done|done].
Qed.

Lemma g_streams masks counts :
  Forall (fun m => 0 <= m < 16) masks -> Forall (fun c => 1 <= c <= 4) counts ->
  gives (read_streams masks counts) (fun l => length l = length masks /\ Forall stream_bounded l).
Proof.
  revert counts. induction masks as [|m masks IH]; intros counts Hm Hc; cbn [read_streams]; [by apply g_ret|].
  apply Forall_cons in Hm as [H1 Hm]. eapply g_bind; [by apply g_spatial|]. intros [l counts'] (L & F & C).
  eapply g_bind; [by apply IH|]. intros rest [Lr Fr]. apply g_ret. cbn [length]. split; [congruence|].
  constructor; [|done]. split; [|done]. cbn [spatial_layers]. rewrite L, length_seqZ. unfold bit_length.
  destruct (Z.eqb_spec m 0); [lia|]. assert (Z.log2 m < 4) by (apply Z.log2_lt_pow2; lia). lia.
Qed.

Lemma g_each {A} (f : A -> vread A) (P : A -> Prop) l :
  (forall a, P a -> gives (f a) P) -> Forall P l ->
  gives (read_each f l) (fun l' => length l' = length l /\ Forall P l').
Proof.
  intros Hf. induction 1 as [|a l Ha _ IH]; cbn [read_each]; [by apply g_ret|].
  eapply g_bind; [by apply Hf|]. intros a' Ha'. eapply g_bind; [exact IH|]. intros l' [L F]. apply g_ret.
  cbn [length]. auto.
Qed.

Lemma g_resolution s : spatial_ok s -> gives (read_resolution s) spatial_ok.
Proof.
  intros [H1 H2 H3]. unfold read_resolution. destruct (temporal_layers s) as [|t ts] eqn:Et.
  { apply g_ret. by split; rewrite Et. }
  eapply g_bind; [apply g_take|]. intros l [Hl Hb]. destruct l as [|a [|b [|c [|d [|e [|]]]]]]; try apply g_fail.
  unfold bytes_ok in Hb. rewrite !Forall_cons in Hb. destruct Hb as (Ha & Hb & Hc & Hd & He & _). apply g_ret. split; cbn -[be_decode]; [done|done|].
  split; [|done]. pose proof (be_decode_fits [a; b]) as D1. pose proof (be_decode_fits [c; d]) as D2.
  cbn [length] in D1, D2. unfold fits in D1, D2. unfold rnf_ok, saturating_add, umax. cbn -[be_decode].
  change (8 * Z.of_nat 2) with 16 in *. change (2 ^ 16) with 65536 in *.
  specialize (D1 ltac:(by repeat (apply Forall_cons_2; [done|])) ). specialize (D2 ltac:(by repeat (apply Forall_cons_2; [done|]))).
  split_and!; try lia; apply He.
Qed.

Lemma g_resolutions l :
  Forall stream_bounded l -> gives (read_vla_resolutions l) (fun l' => length l' = length l /\ Forall stream_bounded l').
Proof.
  apply g_each. intros s [L F]. eapply g_bind; [apply g_each; [apply g_resolution|exact F]|].
  intros l' [L' F']. apply g_ret. split; [cbn; lia|done].
Qed.

Lemma g_masks n shared :
  1 <= n <= 4 -> 0 <= shared < 16 ->
  gives (read_masks n shared) (fun l => (length l = Z.to_nat n) /\ Forall (fun m => 0 <= m < 16) l).
Proof.
  intros Hn Hs. unfold read_masks. case_ifs.
  - apply g_ret. rewrite length_replicate. split; [done|]. by apply Forall_replicate.
  - eapply g_bind; [apply g_take|]. intros l [Hl Hb]. apply g_ret. split.
    + rewrite length_take. enough (length (l ≫= fun b => [Z.shiftr b 4; Z.land b 15]) = (2 * length l)%nat) as ->.
      { rewrite Hl. unfold div_ceil. dlia. }
      clear. induction l as [|b l IH]; [done|]. rewrite bind_cons, length_app, IH. cbn [length]. lia.
    + apply Forall_take, Forall_bind. eapply Forall_impl; [exact Hb|]. intros b Hb'. apply byte_range in Hb'.
      unfold compose. apply Forall_cons_2; [|apply Forall_cons_2; [|done]].
      * rewrite Z.shiftr_div_pow2 by lia. change (2 ^ 4) with 16. dlia.
      * change 15 with (2 ^ 4 - 1). rewrite land_ones_mod by lia. apply Z.mod_pos_bound. lia.
Qed.

Lemma temporal_counts_bounded counts : Forall (fun c => 1 <= c <= 4) (temporal_counts counts).
Proof.
  unfold temporal_counts. apply Forall_map, Forall_true. intros b. cbn.
  change 3 with (2 ^ 2 - 1). rewrite land_ones_mod by lia. pose proof (Z.mod_pos_bound b (2 ^ 2)).
  unfold saturating_add, umax. lia.
Qed.

(** Whatever a sender puts in the extension, a decoded allocation has at
    most four streams of at most four spatial positions with at most four
    rates each, its current stream is one of them, dimensions are 1 to 65536
    and only an active position has one. *)
Theorem vla_parse_bounded bytes v :
  bytes_ok bytes -> vla_parse bytes = Ok v -> vla_bounded v.
Proof.
  intros Hb. unfold vla_parse. case_ifs; [done|]. destruct (byte bytes) as [[header l]|] eqn:Eb; [|done].
  destruct (g_byte bytes header l Hb Eb) as [Hl Hh]. apply byte_range in Hh. destruct (_ && _).
  { intros [= <-]. split_and!; [cbn; lia|constructor|by left]. }
  set (n := saturating_add 8 _ 1). assert (1 <= n <= 4) as Hn.
  { unfold n. change 3 with (2 ^ 2 - 1). rewrite land_ones_mod by lia.
    pose proof (Z.mod_pos_bound (Z.shiftr header 4) (2 ^ 2)). unfold saturating_add, umax. lia. }
  assert (0 <= Z.shiftr header 6) as Hi by (apply Z.shiftr_nonneg; lia).
  destruct (Z.leb_spec n (Z.shiftr header 6)); [done|].
  match goal with |- match ?b _ with _ => _ end = _ -> _ =>
    assert (gives b (fun ss => length ss = Z.to_nat n /\ Forall stream_bounded ss)) as Hbody end.
  { eapply g_bind; [apply g_masks; [done|]|].
    { change 15 with (2 ^ 4 - 1). rewrite land_ones_mod by lia. by apply Z.mod_pos_bound. }
    intros masks [Lm Fm]. eapply g_bind; [apply g_take|]. intros counts _. rewrite <- Lm.
    apply g_streams; [done|apply temporal_counts_bounded]. }
  assert (forall ss, length ss = Z.to_nat n /\ Forall stream_bounded ss ->
    vla_bounded (mkVla (Z.shiftr header 6) ss)) as Hok.
  { intros ss [L F]. split_and!; cbn [simulcast_streams current_simulcast_stream_index]; [lia|done|right; lia]. }
  match goal with |- match ?b _ with _ => _ end = _ -> _ => destruct (b l) as [[ss rest]|] eqn:Es; [|done] end.
  destruct (Hbody _ _ _ Hl Es) as [Hr Hss]. destruct rest as [|r rest]; [intros [= <-]; by apply Hok|].
  destruct (read_vla_resolutions ss (r :: rest)) as [[ss' rest']|] eqn:Er; [|done].
  destruct (g_resolutions ss (proj2 Hss) _ _ _ Hr Er) as [_ [L' F']]. destruct rest'; [|done].
  intros [= <-]. apply Hok. split; [rewrite L'; apply Hss|done].
Qed.

Lemma vla_parse_bounded_witness :
  exists v, vla_parse [0x53; 0x04; 100; 200; 1; 100; 100; 50; 4; 255; 2; 207; 30; 4; 255; 2; 207; 30;
                       0; 0; 0; 0; 1; 0; 0; 0; 0; 1] = Ok v /\ vla_bounded v.
Proof.
  destruct (vla_parse [0x53; 0x04; 100; 200; 1; 100; 100; 50; 4; 255; 2; 207; 30; 4; 255; 2; 207; 30;
    0; 0; 0; 0; 1; 0; 0; 0; 0; 1]) as [v|] eqn:E.
  - exists v. split; [reflexivity|]. eapply vla_parse_bounded; [|exact E].
    repeat constructor; vm_compute; congruence.
  - vm_compute in E. discriminate E.
Defined.
