(* ===== verification/H264.v ===== *)
(** * H.264 payloads

    Models [crates/pulsebeam-core/src/h264.rs]: the classification of a payload
    by the NAL units it carries. Bytes are integers; lengths are natural numbers,
    since a [usize] sum of two lengths of slices does not overflow and the
    code's [saturating_] and [checked_] additions are those sums. *)

From S2P Require Import Prelude.

Definition NALU_TYPE_MASK : Z := 0x1F.
Definition IDR_NALU_TYPE : Z := 5.
Definition SPS_NALU_TYPE : Z := 7.
Definition PPS_NALU_TYPE : Z := 8.
Definition STAPA_NALU_TYPE : Z := 24.
Definition FUA_NALU_TYPE : Z := 28.
Definition FUB_NALU_TYPE : Z := 29.
Definition STAPA_HEADER_SIZE : nat := 1.
Definition STAPA_NALU_LENGTH_SIZE : nat := 2.
Definition FUA_HEADER_SIZE : nat := 2.
Definition FUB_HEADER_SIZE : nat := 4.
Definition FU_START_MASK : Z := 0x80.
Definition FU_END_MASK : Z := 0x40.
Definition FU_RESERVED_MASK : Z := 0x20.
Definition ANNEX_B_START_CODE : list Z := [0; 0; 0; 1].

Definition has (v flag : Z) : bool := negb (Z.land v flag =? 0).

(** [NalFlags]: three flags in a byte. *)
Definition FLAG_SPS : Z := 1.
Definition FLAG_PPS : Z := 2.
Definition FLAG_IDR : Z := 4.
Definition nal_empty : Z := 0.
Definition nal_sps (f : Z) : bool := has f FLAG_SPS.
Definition nal_pps (f : Z) : bool := has f FLAG_PPS.
Definition nal_idr (f : Z) : bool := has f FLAG_IDR.

Definition note_nalu_type (f ty : Z) : Z :=
  if ty =? IDR_NALU_TYPE then Z.lor f FLAG_IDR
  else if ty =? SPS_NALU_TYPE then Z.lor f FLAG_SPS
  else if ty =? PPS_NALU_TYPE then Z.lor f FLAG_PPS
  else f.

(** The [while] of the STAP-A case, on what is left from [offset] on; each turn
    takes at least three bytes. *)
Fixpoint classify_stap (fuel : nat) (rest : list Z) (f : Z) : Z :=
  match fuel, rest with
  | S fuel', hi :: lo :: body =>
      let size := Z.to_nat (Z.lor (Z.shiftl hi 8) lo) in
      if (size =? 0)%nat || (length body <? size)%nat then f
      else match body with
           | nalu :: _ => classify_stap fuel' (drop size body) (note_nalu_type f (Z.land nalu NALU_TYPE_MASK))
           | [] => f
           end
  | _, _ => f
  end.

Definition classify (payload : list Z) : Z :=
  match payload with
  | [] => nal_empty
  | first :: rest =>
      let ty := Z.land first NALU_TYPE_MASK in
      if (1 <=? ty) && (ty <=? 23) then note_nalu_type nal_empty ty
      else if ty =? STAPA_NALU_TYPE then classify_stap (length payload) rest nal_empty
      else if (ty =? FUA_NALU_TYPE) || (ty =? FUB_NALU_TYPE) then
        let header_size := if ty =? FUA_NALU_TYPE then FUA_HEADER_SIZE else FUB_HEADER_SIZE in
        if (length payload <? header_size)%nat then nal_empty
        else match rest with
             | [] => nal_empty
             | fu_header :: _ =>
                 if has fu_header FU_START_MASK
                 then note_nalu_type nal_empty (Z.land fu_header NALU_TYPE_MASK) else nal_empty
             end
      else nal_empty
  end.
