(* ===== verification/H264Codec.v ===== *)
(** * H.264 access units in RTP payloads

    The packetizer and the depacketizer of [crates/pulsebeam-core/src/h264.rs]:
    an Annex-B access unit is cut into single NAL units and FU-A fragments, and
    put together again from those and from STAP-A aggregates. Lengths and
    offsets are natural numbers: the code's [saturating_] and [checked_]
    additions are of lengths of slices in memory, which do not overflow. *)

From S2P Require Import Prelude H264.

(** ** Packetizer *)

Record PacketizedChunk := mkChunk {
  payload : list Z;
  start_of_frame : bool;
  end_of_frame : bool;
}.

(** The start codes of an Annex-B stream: where each begins and ends. Each turn
    of the [while] moves on by at least one byte. *)
Definition start_code_at (au : list Z) (i : nat) : option nat :=
  match au !! i, au !! (i + 1)%nat, au !! (i + 2)%nat, au !! (i + 3)%nat with
  | Some 0, Some 0, Some 1, _ => Some (i + 3)%nat
  | Some 0, Some 0, Some 0, Some 1 => Some (i + 4)%nat
  | _, _, _, _ => None
  end.

Fixpoint start_codes (fuel : nat) (au : list Z) (i : nat) : list (nat * nat) :=
  match fuel with
  | O => []
  | S fuel =>
      if (i + 3 <? length au)%nat then
        match start_code_at au i with
        | Some start => (i, start) :: start_codes fuel au start
        | None => start_codes fuel au (i + 1)
        end
      else []
  end.

Definition annex_b_nalus (au : list Z) : list (list Z) :=
  let starts := start_codes (length au) au 0 in
  omap (fun index =>
    '(_, start) ← starts !! index;
    let end_ := match starts !! (index + 1)%nat with Some (next, _) => next | None => length au end in
    nalu ← (if (start <=? end_)%nat then slice start (end_ - start) au else None);
    match nalu with [] => None | _ => Some nalu end) (seq 0 (length starts)).

Definition packetizer_new (mtu : nat) : nat := Nat.max mtu (FUA_HEADER_SIZE + 1).

Definition fragment (mtu : nat) (header : Z) (body : list Z) (fragments index : nat) : option PacketizedChunk :=
  let room := Nat.max (mtu - FUA_HEADER_SIZE) 1 in
  let start := (index * room)%nat in
  let end_ := Nat.min ((index + 1) * room) (length body) in
  part ← (if (start <=? end_)%nat then slice start (end_ - start) body else None);
  Some (mkChunk
    (Z.lor (Z.land header 0xe0) FUA_NALU_TYPE ::
     Z.lor (Z.lor (Z.land header NALU_TYPE_MASK) (if (index =? 0)%nat then FU_START_MASK else 0))
       (if (index + 1 =? fragments)%nat then FU_END_MASK else 0) :: part) false false).

Definition packetize_nalu (mtu : nat) (nalu : list Z) : list PacketizedChunk :=
  if (length nalu <=? mtu)%nat then [mkChunk nalu false false]
  else
    match nalu with
    | [] => []
    | header :: body =>
        let room := Nat.max (mtu - FUA_HEADER_SIZE) 1 in
        let fragments := ((length body + room - 1) / room)%nat in
        omap (fragment mtu header body fragments) (seq 0 fragments)
    end.

Definition mark_first (l : list PacketizedChunk) : list PacketizedChunk :=
  match l with [] => [] | c :: l => mkChunk (payload c) true (end_of_frame c) :: l end.
Definition mark_last (l : list PacketizedChunk) : list PacketizedChunk :=
  match last l with
  | None => l
  | Some c => <[pred (length l) := mkChunk (payload c) (start_of_frame c) true]> l
  end.

Definition packetize (mtu : nat) (au : list Z) : list PacketizedChunk :=
  mark_last (mark_first (annex_b_nalus au ≫= packetize_nalu mtu)).

(** ** Depacketizer *)

Definition MAX_ACCESS_UNIT_SIZE : Z := 16 * 1024 * 1024.

Inductive DepacketizationError :=
| EmptyPayload
| InvalidNalType (ty : Z)
| InvalidStapA
| InvalidFuA
| UnexpectedFuA
| IncompleteFuA
| UnexpectedFrameBoundary
| AccessUnitTooLarge.

Record Depacketizer := mkDepacketizer {
  frame : list Z;
  fua : option (Z * list Z);
  started : bool;
  max_access_unit_size : Z;
}.

Definition depacketizer_new : Depacketizer := mkDepacketizer [] None false MAX_ACCESS_UNIT_SIZE.
Definition with_max_access_unit_size (n : Z) : Depacketizer := mkDepacketizer [] None false (Z.max n 1).
Definition reset (d : Depacketizer) : Depacketizer := mkDepacketizer [] None false (max_access_unit_size d).

Abbreviation outcome := (result DepacketizationError).

Definition ensure_capacity (d : Depacketizer) (additional : nat) : outcome unit :=
  if max_access_unit_size d <? Z.of_nat (length (frame d) + additional) then Err AccessUnitTooLarge else Ok ().

(** A NAL unit appended with its start code. *)
Definition append_unit (d : Depacketizer) (unit : list Z) : Depacketizer :=
  mkDepacketizer (frame d ++ ANNEX_B_START_CODE ++ unit) (fua d) (started d) (max_access_unit_size d).

Definition nalu_type_in_range (ty : Z) : bool := (1 <=? ty) && (ty <=? 23).

(** The [while] of the STAP-A case, on what is left from [offset] on; each turn
    takes at least three bytes. *)
Fixpoint stap_units (fuel : nat) (rest : list Z) : outcome (list (list Z)) :=
  match fuel, rest with
  | _, [] => Ok []
  | S fuel, hi :: lo :: body =>
      let size := Z.to_nat (be_decode [hi; lo]) in
      unit ← ok_or (slice 0 size body) InvalidStapA;
      match unit with
      | [] => Err InvalidStapA
      | header :: _ =>
          if has header 0x80 || negb (nalu_type_in_range (Z.land header NALU_TYPE_MASK)) then Err InvalidStapA
          else units ← stap_units fuel (drop size body); Ok (unit :: units)
      end
  | _, _ => Err InvalidStapA
  end.

Definition push_fua (d : Depacketizer) (rest : list Z) (indicator : Z) : outcome Depacketizer :=
  match rest with
  | [] => Err InvalidFuA
  | fu_header :: body =>
      let nalu_type := Z.land fu_header NALU_TYPE_MASK in
      if negb (nalu_type_in_range nalu_type) || bool_decide (body = []) then Err InvalidFuA
      else
        let is_start := has fu_header FU_START_MASK in
        let is_end := has fu_header FU_END_MASK in
        if has indicator 0x80 || has fu_header FU_RESERVED_MASK || (is_start && is_end) then Err InvalidFuA
        else
          d ← (if is_start then
                 match fua d with
                 | Some _ => Err InvalidFuA
                 | None =>
                     let header := Z.lor (Z.land indicator 0xe0) nalu_type in
                     ensure_capacity d (length ANNEX_B_START_CODE + 1 + length body);;
                     Ok (mkDepacketizer (frame d) (Some (header, header :: body)) (started d) (max_access_unit_size d))
                 end
               else
                 match fua d with
                 | None => Err InvalidFuA
                 | Some (header, data) =>
                     if negb (Z.land header 0x1f =? nalu_type)
                        || negb (Z.land header 0xe0 =? Z.land indicator 0xe0) then Err InvalidFuA
                     else if max_access_unit_size d
                             <? Z.of_nat (length (frame d) + length ANNEX_B_START_CODE + length data + length body)
                     then Err AccessUnitTooLarge
                     else Ok (mkDepacketizer (frame d) (Some (header, data ++ body)) (started d) (max_access_unit_size d))
                 end);
          if is_end then
            match fua d with
            | None => Err InvalidFuA
            | Some (_, data) =>
                Ok (append_unit (mkDepacketizer (frame d) None (started d) (max_access_unit_size d)) data)
            end
          else Ok d
  end.

Definition push_payload (d : Depacketizer) (bytes : list Z) : outcome Depacketizer :=
  match bytes with
  | [] => Err EmptyPayload
  | indicator :: rest =>
      let ty := Z.land indicator NALU_TYPE_MASK in
      let busy := match fua d with Some _ => true | None => false end in
      if nalu_type_in_range ty then
        if busy || has indicator 0x80 then Err UnexpectedFuA
        else
          ensure_capacity d (length ANNEX_B_START_CODE + length bytes);;
          Ok (append_unit d bytes)
      else if ty =? STAPA_NALU_TYPE then
        if busy || has indicator 0x80 || (length bytes <? STAPA_HEADER_SIZE)%nat then Err InvalidStapA
        else
          units ← stap_units (length bytes) rest;
          if bool_decide (units = []) then Err InvalidStapA
          else
            ensure_capacity d (sum_list (map (fun u => length ANNEX_B_START_CODE + length u)%nat units));;
            Ok (foldl append_unit d units)
      else if ty =? FUA_NALU_TYPE then push_fua d rest indicator
      else if ty =? FUB_NALU_TYPE then Err InvalidFuA
      else Err (InvalidNalType ty)
  end.

Definition push (d : Depacketizer) (bytes : list Z) (start end_ : bool) : Depacketizer * outcome (option (list Z)) :=
  if negb start && negb (started d) then (reset d, Err UnexpectedFrameBoundary)
  else
    let d := if start then mkDepacketizer [] None true (max_access_unit_size d) else d in
    match push_payload d bytes with
    | Err e => (reset d, Err e)
    | Ok d =>
        if end_ then
          match fua d with
          | Some _ => (reset d, Err IncompleteFuA)
          | None =>
              if bool_decide (frame d = []) then (reset d, Err EmptyPayload)
              else (mkDepacketizer [] None false (max_access_unit_size d), Ok (Some (frame d)))
          end
        else (d, Ok None)
    end.

(** ** Access units *)

(** A NAL unit that may be sent alone: its header has the forbidden bit clear
    and a type of a single unit. *)
Definition nalu_ok (u : list Z) : Prop :=
  match u with
  | [] => False
  | h :: _ => is_byte h /\ has h 0x80 = false /\ nalu_type_in_range (Z.land h NALU_TYPE_MASK) = true
  end.

(** The access unit of a list of NAL units. *)
Definition annex_b (us : list (list Z)) : list Z := us ≫= (fun u => ANNEX_B_START_CODE ++ u).

(** No start code inside. *)
Definition no_start_code (u : list Z) : Prop :=
  forall i, ~ (u !! i = Some 0 /\ u !! (i + 1)%nat = Some 0 /\ u !! (i + 2)%nat = Some 1).

Lemma byte_cases (P : Z -> Prop) `{!forall h, Decision (P h)} :
  bool_decide (Forall P (seqZ 0 256)) = true -> forall h, is_byte h -> P h.
Proof.
  intros Hall%bool_decide_eq_true h Hh. rewrite Forall_forall in Hall. apply Hall, elem_of_seqZ. unfold is_byte, fits in Hh. lia.
Qed.

(** What the two bytes in front of a fragment say of the unit's header. *)
Lemma fragment_bits h (s e : bool) :
  is_byte h -> has h 0x80 = false ->
  let ind := Z.lor (Z.land h 0xe0) FUA_NALU_TYPE in
  let fu := Z.lor (Z.lor (Z.land h NALU_TYPE_MASK) (if s then FU_START_MASK else 0)) (if e then FU_END_MASK else 0) in
  Z.land ind NALU_TYPE_MASK = FUA_NALU_TYPE /\ has ind 0x80 = false /\ Z.land ind 0xe0 = Z.land h 0xe0 /\
  Z.land fu NALU_TYPE_MASK = Z.land h NALU_TYPE_MASK /\ has fu FU_START_MASK = s /\ has fu FU_END_MASK = e /\
  has fu FU_RESERVED_MASK = false /\ Z.lor (Z.land ind 0xe0) (Z.land fu NALU_TYPE_MASK) = h.
Proof.
  cbv zeta. revert h. match goal with |- forall h, is_byte h -> @?P h => apply (byte_cases P) end. destruct s, e; vm_compute; reflexivity.
Qed.

Fixpoint push_payloads (d : Depacketizer) (l : list (list Z)) : outcome Depacketizer :=
  match l with [] => Ok d | p :: l => d ← push_payload d p; push_payloads d l end.

Lemma push_payloads_app d l k :
  push_payloads d (l ++ k) = (d ← push_payloads d l; push_payloads d k).
Proof.
  revert d. induction l as [|p l IH]; intros d; [done|]. cbn. destruct (push_payload d p); [apply IH|done].
Qed.

(** Room for [n] more bytes and a start code. *)
Definition room_for (d : Depacketizer) (n : nat) : Prop := Z.of_nat (length (frame d) + 4 + n) <= max_access_unit_size d.

Lemma single_unit d u :
  fua d = None -> nalu_ok u -> room_for d (length u) -> push_payload d u = Ok (append_unit d u).
Proof.
  intros Hf Hu Hr. destruct u as [|h t]; [done|]. destruct Hu as (Hb & H80 & Hty). cbn [push_payload].
  rewrite Hty, Hf, H80. cbn [orb]. unfold ensure_capacity. unfold room_for in Hr.
  rewrite (proj2 (Z.ltb_ge _ _)); [done|]. cbn [length ANNEX_B_START_CODE] in *. lia.
Qed.

Definition with_fua (d : Depacketizer) (x : option (Z * list Z)) : Depacketizer :=
  mkDepacketizer (frame d) x (started d) (max_access_unit_size d).

(** Where a fragment is cut. *)
Lemma fragment_spec mtu h body n i :
  let room := Nat.max (mtu - FUA_HEADER_SIZE) 1 in
  n = ((length body + room - 1) / room)%nat -> (i < n)%nat ->
  exists part, part = take room (drop (i * room) body) /\ part <> [] /\
  fragment mtu h body n i = Some (mkChunk
    (Z.lor (Z.land h 0xe0) FUA_NALU_TYPE ::
     Z.lor (Z.lor (Z.land h NALU_TYPE_MASK) (if (i =? 0)%nat then FU_START_MASK else 0))
       (if (i + 1 =? n)%nat then FU_END_MASK else 0) :: part) false false).
Proof.
  intros room Hn Hi. assert (1 <= room)%nat by (unfold room; lia).
  assert (i * room < length body)%nat as Hlt.
  { pose proof (Nat.Div0.mul_div_le (length body + room - 1) room). rewrite <- Hn in *. nia. }
  exists (take room (drop (i * room) body)). split; [done|]. split.
  { intros E. apply (f_equal length) in E. rewrite length_take, length_drop in E. cbn in E. lia. }
  unfold fragment. fold room. rewrite (proj2 (Nat.leb_le _ _)) by lia.
  unfold slice. rewrite decide_True by lia. cbn [mbind option_bind]. do 4 f_equal.
  destruct (decide ((i + 1) * room <= length body)%nat); [f_equal; lia|].
  rewrite !take_ge; [done|rewrite length_drop; nia|rewrite length_drop; nia].
Qed.

(** The fragments after the first add what they carry, and the last ends the unit. *)
Lemma later_fragments mtu h body k m n d :
  let room := Nat.max (mtu - FUA_HEADER_SIZE) 1 in
  n = ((length body + room - 1) / room)%nat -> (1 <= k)%nat -> (k + m = n)%nat -> (1 <= m)%nat ->
  is_byte h -> has h 0x80 = false -> nalu_type_in_range (Z.land h NALU_TYPE_MASK) = true -> room_for d (S (length body)) ->
  fua d = Some (h, h :: take (k * room) body) ->
  push_payloads d (map payload (omap (fragment mtu h body n) (seq k m))) = Ok (append_unit (with_fua d None) (h :: body)).
Proof.
  intros room Hn Hk Hkm Hm Hb H80 Hty. revert k d Hk Hkm. induction m as [|m IH]; intros k d Hk Hkm Hr Hf; [lia|].
  destruct (fragment_spec mtu h body n k Hn ltac:(lia)) as (part & Epart & Hne & Ef). fold room in Epart.
  assert (length (take (k * room) body) + length part <= length body)%nat as Hlen.
  { rewrite Epart, !length_take, length_drop. lia. }
  assert (take (k * room) body ++ part = take (S k * room) body) as Hjoin.
  { rewrite Epart. replace (S k * room)%nat with (k * room + room)%nat by lia. by rewrite take_take_drop. }
  cbn [seq omap list_omap]. rewrite Ef. cbn [map payload push_payloads].
  destruct (fragment_bits h false (k + 1 =? n)%nat Hb H80) as (B1 & B2 & B3 & B4 & B5 & B6 & B7 & B8).
  rewrite (proj2 (Nat.eqb_neq k 0)) by lia.
  set (ind := Z.lor (Z.land h 0xe0) FUA_NALU_TYPE) in *. set (fu := Z.lor _ (if (k + 1 =? n)%nat then _ else _)) in *.
  cbn [push_payload]. rewrite B1. cbn [nalu_type_in_range Z.leb Z.eqb andb FUA_NALU_TYPE STAPA_NALU_TYPE].
  change (nalu_type_in_range 28) with false. cbn. change (28 =? 24) with false. change (28 =? 28) with true. cbn iota.
  unfold push_fua. rewrite B4, Hty, (bool_decide_false _ Hne), B2, B5, B6, B7, Hf. cbn [negb orb andb].
  rewrite B3. change 0x1f with NALU_TYPE_MASK. rewrite !Z.eqb_refl. cbn [negb orb].
  unfold room_for in Hr. rewrite (proj2 (Z.ltb_ge _ _)) by (cbn [length ANNEX_B_START_CODE]; lia). cbn [mbind result_bind fua].
  cbn [app]. rewrite Hjoin. destruct (Nat.eqb_spec (k + 1) n) as [E|Hne'].
  - assert (m = 0)%nat as -> by lia. cbn. rewrite take_ge; [done|].
    pose proof (Nat.div_mod_eq (length body + room - 1) room). pose proof (Nat.mod_upper_bound (length body + room - 1) room ltac:(lia)). nia.
  - cbn [mbind result_bind]. rewrite (IH ltac:(lia) (S k)); [done|lia|lia|exact Hr|done].
Qed.

(** A fragmented unit. *)
Lemma fragmented_unit mtu h body d :
  (3 <= mtu)%nat -> (mtu < S (length body))%nat -> fua d = None -> nalu_ok (h :: body) -> room_for d (S (length body)) ->
  push_payloads d (map payload (packetize_nalu mtu (h :: body))) = Ok (append_unit d (h :: body)).
Proof.
  intros Hmtu Hlen Hf (Hb & H80 & Hty) Hr. unfold packetize_nalu. rewrite (proj2 (Nat.leb_gt _ _)) by (cbn; lia).
  set (room := Nat.max (mtu - FUA_HEADER_SIZE) 1). set (n := ((length body + room - 1) / room)%nat).
  assert (2 <= n)%nat as Hn.
  { unfold n. apply Nat.div_le_lower_bound; unfold room, FUA_HEADER_SIZE; lia. }
  destruct (fragment_spec mtu h body n 0 eq_refl ltac:(lia)) as (part & Epart & Hne & Ef). fold room in Epart.
  destruct n as [|[|m]] eqn:En; [lia|lia|]. clear Hn. rewrite <- En in *.
  replace (seq 0 n) with (0%nat :: seq 1 (S m)) by by rewrite En. cbn [omap list_omap]. rewrite Ef. cbn [map payload push_payloads].
  destruct (fragment_bits h true false Hb H80) as (B1 & B2 & B3 & B4 & B5 & B6 & B7 & B8).
  rewrite (proj2 (Nat.eqb_neq (0 + 1) n)) by lia. rewrite Nat.eqb_refl.
  set (ind := Z.lor (Z.land h 0xe0) FUA_NALU_TYPE) in *. set (fu := Z.lor _ 0) in *. clearbody ind fu.
  cbn [push_payload]. rewrite B1. change (nalu_type_in_range FUA_NALU_TYPE) with false.
  change (FUA_NALU_TYPE =? STAPA_NALU_TYPE) with false. rewrite Z.eqb_refl. cbn iota.
  unfold push_fua. rewrite B8, B4, Hty, (bool_decide_false _ Hne), B2, B5, B6, B7, Hf. cbn [negb orb andb].
  assert (length part <= length body)%nat as Hp by (rewrite Epart, length_take, length_drop; lia).
  unfold ensure_capacity. unfold room_for in Hr. rewrite (proj2 (Z.ltb_ge _ _)) by (cbn [length ANNEX_B_START_CODE]; lia).
  cbn [mbind result_bind]. rewrite (later_fragments mtu h body 1 (S m) n); try done; try lia.
  - destruct d. cbn in *. by subst.
  - cbn. rewrite Epart. by rewrite drop_0, Nat.add_0_r.
Qed.

Lemma packetized_unit mtu u d :
  (3 <= mtu)%nat -> fua d = None -> nalu_ok u -> room_for d (length u) ->
  push_payloads d (map payload (packetize_nalu mtu u)) = Ok (append_unit d u).
Proof.
  intros Hmtu Hf Hu Hr. destruct (Nat.le_gt_cases (length u) mtu) as [Hle|Hgt].
  - unfold packetize_nalu. rewrite (proj2 (Nat.leb_le _ _)) by lia. cbn. by rewrite single_unit.
  - destruct u as [|h body]; [done|]. by apply fragmented_unit.
Qed.

Lemma length_annex_b_cons u us : length (annex_b (u :: us)) = (4 + length u + length (annex_b us))%nat.
Proof. unfold annex_b. cbn. rewrite length_app. lia. Qed.

Lemma packetized_units mtu us d :
  (3 <= mtu)%nat -> fua d = None -> Forall nalu_ok us ->
  Z.of_nat (length (frame d) + length (annex_b us)) <= max_access_unit_size d ->
  push_payloads d (map payload (us ≫= packetize_nalu mtu)) =
  Ok (mkDepacketizer (frame d ++ annex_b us) None (started d) (max_access_unit_size d)).
Proof.
  intros Hmtu. revert d. induction us as [|u us IH]; intros d Hf Hus Hr.
  - cbn. rewrite app_nil_r. destruct d. cbn in *. by subst.
  - apply Forall_cons in Hus as [Hu Hus]. rewrite length_annex_b_cons in Hr.
    change ((u :: us) ≫= packetize_nalu mtu) with (packetize_nalu mtu u ++ (us ≫= packetize_nalu mtu)).
    rewrite map_app, push_payloads_app, packetized_unit; [|done|done|done|unfold room_for; lia].
    cbn [mbind result_bind]. rewrite IH; [|done|done|cbn [append_unit frame max_access_unit_size]; rewrite !length_app; cbn [length ANNEX_B_START_CODE]; lia].
    unfold append_unit. cbn [frame started max_access_unit_size]. do 2 f_equal.
    change (annex_b (u :: us)) with ((ANNEX_B_START_CODE ++ u) ++ annex_b us). by rewrite <- !app_assoc.
Qed.

(** ** A frame of payloads *)

Fixpoint depacketize (d : Depacketizer) (cs : list PacketizedChunk) : Depacketizer * list (outcome (option (list Z))) :=
  match cs with
  | [] => (d, [])
  | c :: cs =>
      let '(d, o) := push d (payload c) (start_of_frame c) (end_of_frame c) in
      let '(d, os) := depacketize d cs in (d, o :: os)
  end.

Fixpoint flagged (first : bool) (l : list PacketizedChunk) : list PacketizedChunk :=
  match l with
  | [] => []
  | c :: l => mkChunk (payload c) first (bool_decide (l = [])) :: flagged false l
  end.

Definition plain (c : PacketizedChunk) : Prop := start_of_frame c = false /\ end_of_frame c = false.

Lemma mark_last_cons c l : l <> [] -> mark_last (c :: l) = c :: mark_last l.
Proof.
  intros Hl. unfold mark_last. rewrite last_cons. destruct (last l) as [x|] eqn:E; [|by apply last_None in E].
  destruct l as [|y l]; [done|]. cbn [length pred]. done.
Qed.

Lemma mark_last_plain l : Forall plain l -> mark_last l = flagged false l.
Proof.
  induction 1 as [|c l [Hs He] _ IH]; [done|]. destruct (decide (l = [])) as [->|Hl].
  - cbn. by rewrite Hs.
  - rewrite mark_last_cons, IH by done. cbn. rewrite bool_decide_false by done. destruct c. cbn in *. by subst.
Qed.

Lemma marked_plain l : Forall plain l -> mark_last (mark_first l) = flagged true l.
Proof.
  intros Hl. destruct Hl as [|c l [Hs He] Hl]; [done|]. cbn [mark_first]. destruct (decide (l = [])) as [->|Hne]; [done|].
  rewrite mark_last_cons, mark_last_plain by done. cbn. by rewrite bool_decide_false, He.
Qed.

Lemma packetized_plain mtu us : Forall plain (us ≫= packetize_nalu mtu).
Proof.
  apply Forall_bind, Forall_true. intros u. change (Forall plain (packetize_nalu mtu u)). unfold packetize_nalu. destruct (length u <=? mtu)%nat; [by apply Forall_singleton|].
  destruct u as [|h body]; [constructor|]. apply Forall_forall. intros c Hc. apply list_elem_of_omap in Hc as (i & _ & Hc).
  unfold fragment in Hc. apply bind_Some in Hc as (part & _ & [= <-]). done.
Qed.

(** Payloads that are accepted one by one give the frame with the last. *)
Lemma depacketize_flagged (first : bool) l d d' :
  l <> [] -> push_payloads (if first then mkDepacketizer [] None true (max_access_unit_size d) else d) (map payload l) = Ok d' ->
  fua d' = None -> frame d' <> [] -> (first = false -> started d = true) ->
  (forall d0 b d1, push_payload d0 b = Ok d1 -> started d1 = started d0) ->
  depacketize d (flagged first l) =
  (mkDepacketizer [] None false (max_access_unit_size d'), replicate (pred (length l)) (Ok None) ++ [Ok (Some (frame d'))]).
Proof.
  intros Hl Hp Hf Hne Hst Hkeep. revert first d Hl Hp Hst. induction l as [|c l IH]; intros first d Hl Hp Hst; [done|]. clear Hl.
  cbn [map push_payloads] in Hp. cbn [flagged depacketize payload start_of_frame end_of_frame]. unfold push.
  set (d0 := if first then _ else d) in *.
  assert (negb first && negb (started d) = false) as -> by (destruct first; [done|]; by rewrite Hst).
  assert (started d0 = true) as Hs0 by (unfold d0; destruct first; [done|by apply Hst]).
  destruct (push_payload d0 (payload c)) as [d1|e] eqn:E1; [|done]. cbn [mbind result_bind] in Hp.
  destruct (decide (l = [])) as [->|Hl].
  - rewrite bool_decide_true by done. cbn in Hp. injection Hp as ->. rewrite Hf, bool_decide_false by done. done.
  - rewrite bool_decide_false by done. rewrite (IH false d1); try done.
    + destruct l; [done|]. done.
    + intros _. rewrite (Hkeep _ _ _ E1). done.
Qed.

Lemma push_payload_keeps d b d' :
  push_payload d b = Ok d' -> started d' = started d /\ max_access_unit_size d' = max_access_unit_size d.
Proof.
  assert (forall us d0, started (foldl append_unit d0 us) = started d0 /\
            max_access_unit_size (foldl append_unit d0 us) = max_access_unit_size d0) as Hfold.
  { induction us as [|u us IH]; intros d0; [done|]. cbn. by destruct (IH (append_unit d0 u)) as [-> ->]. }
  destruct b as [|ind rest]; [done|]. cbn [push_payload]. destruct (nalu_type_in_range _).
  { destruct (_ || _); [done|]. unfold ensure_capacity. destruct (_ <? _); [done|]. by intros [= <-]. }
  destruct (_ =? STAPA_NALU_TYPE).
  { destruct (_ || _); [done|]. destruct (stap_units _ _) as [us|]; [|done]. cbn. case_bool_decide; [done|].
    unfold ensure_capacity. destruct (_ <? _); [done|]. intros [= <-]. apply Hfold. }
  destruct (_ =? FUA_NALU_TYPE); [|by destruct (_ =? FUB_NALU_TYPE)].
  unfold push_fua. destruct rest as [|fu body]; [done|]. destruct (_ || _); [done|]. destruct (_ || _); [done|].
  destruct (has fu FU_START_MASK); destruct (fua d) as [[h data]|] eqn:Ef; try done; [|destruct (_ || _); [done|]];
    unfold ensure_capacity; destruct (_ <? _); try done; cbn; destruct (has fu FU_END_MASK); by intros [= <-].
Qed.

(** ** Finding the NAL units again *)

Lemma start_code_at_app pre l :
  start_code_at (pre ++ l) (length pre) = (fun n => length pre + n)%nat <$> start_code_at l 0.
Proof.
  assert (forall k, (pre ++ l) !! (length pre + k)%nat = l !! k) as H
    by (intros k; rewrite lookup_app_r by lia; f_equal; lia).
  unfold start_code_at. rewrite <- (Nat.add_0_r (length pre)) at 1. rewrite !H. cbn [Nat.add].
  repeat (case_match; try done).
Qed.

(** An Annex-B stream may put either start code in front of a unit: the one of
    four bytes ([true]) or the one of three. *)
Definition start_code (four : bool) : list Z := if four then ANNEX_B_START_CODE else [0; 0; 1].

Definition annex_b_with (us : list (bool * list Z)) : list Z := us ≫= (fun '(four, u) => start_code four ++ u).

(** A zero byte in front of a three-byte code makes a four-byte one: a unit in
    front of a three-byte code does not end in zero. (No H.264 NAL unit does.) *)
Definition ends_before (u : list Z) (us : list (bool * list Z)) : Prop :=
  match us with (false, _) :: _ => last u <> Some 0 | _ => True end.

Fixpoint separable (us : list (bool * list Z)) : Prop :=
  match us with [] => True | (_, u) :: us => ends_before u us /\ separable us end.

Lemma annex_b_with_cons four u us : annex_b_with ((four, u) :: us) = start_code four ++ u ++ annex_b_with us.
Proof. unfold annex_b_with. cbn. by rewrite <- app_assoc. Qed.

(** Where the start codes of an access unit are. *)
Fixpoint positions (i : nat) (us : list (bool * list Z)) : list (nat * nat) :=
  match us with
  | [] => []
  | (four, u) :: us =>
      let start := (i + length (start_code four))%nat in (i, start) :: positions (start + length u) us
  end.

Lemma no_start_code_tail x u : no_start_code (x :: u) -> no_start_code u.
Proof. intros H i. apply (H (S i)). Qed.

Lemma ends_before_tail x u us : ends_before (x :: u) us -> ends_before u us.
Proof. destruct us as [|[[] v] us]; try done. by destruct u. Qed.

(** Inside a unit, or before the next one, no start code is seen. *)
Lemma not_a_start_code x u us :
  no_start_code (x :: u) -> ends_before (x :: u) us -> start_code_at ((x :: u) ++ annex_b_with us) 0 = None.
Proof.
  intros Hn He. pose proof (Hn 0%nat) as H0. pose proof (Hn 1%nat) as H1. unfold start_code_at.
  destruct us as [|[four v] us].
  - change (annex_b_with []) with (@nil Z). rewrite app_nil_r.
    destruct u as [|y [|z [|w u]]]; cbn in *; repeat (case_match; try done); simplify_eq; naive_solver.
  - rewrite annex_b_with_cons. destruct four, u as [|y [|z [|w u]]]; cbn in *;
      repeat (case_match; try done); simplify_eq; naive_solver.
Qed.

Lemma start_code_here four u us : start_code_at (annex_b_with ((four, u) :: us)) 0 = Some (length (start_code four)).
Proof. rewrite annex_b_with_cons. by destruct four. Qed.

Lemma start_codes_found fuel pre u us :
  no_start_code u -> ends_before u us -> separable us -> Forall (fun p => no_start_code p.2 /\ p.2 <> []) us ->
  (length u + length (annex_b_with us) <= fuel)%nat ->
  start_codes fuel (pre ++ u ++ annex_b_with us) (length pre) = positions (length pre + length u) us.
Proof.
  revert pre u us. induction fuel as [|fuel IH]; intros pre u us Hu He Hs Hus Hf.
  { destruct us as [|[[] v] us]; [done| |]; rewrite annex_b_with_cons in Hf; cbn in Hf; rewrite ?length_app in Hf; lia. }
  cbn [start_codes]. rewrite !length_app. destruct (Nat.ltb_spec (length pre + 3) (length pre + (length u + length (annex_b_with us)))) as [Hlt|Hge].
  2: { destruct us as [|[four v] us]; [done|]. apply Forall_cons in Hus as [[_ Hv] _]. rewrite annex_b_with_cons, !length_app in Hge.
       destruct v; [done|]. destruct four; cbn in Hge; lia. }
  rewrite start_code_at_app. destruct u as [|x u].
  - destruct us as [|[four v] us]; [cbn in Hlt; lia|]. apply Forall_cons in Hus as [[Hv _] Hus]. destruct Hs as [Hev Hs].
    cbn [app]. rewrite start_code_here. cbn [fmap option_fmap option_map positions length]. rewrite Nat.add_0_r. f_equal.
    specialize (IH (pre ++ start_code four) v us Hv Hev Hs Hus). rewrite length_app, <- !app_assoc in IH.
    rewrite annex_b_with_cons in Hf |- *. rewrite !length_app in Hf. cbn [length] in Hf.
    rewrite IH; [done|]. destruct four; cbn in Hf; lia.
  - rewrite not_a_start_code by done. cbn [fmap option_fmap option_map].
    specialize (IH (pre ++ [x]) u us (no_start_code_tail _ _ Hu) (ends_before_tail _ _ _ He) Hs Hus).
    rewrite length_app, <- app_assoc in IH. cbn [length app] in IH.
    change ((x :: u) ++ annex_b_with us) with (x :: u ++ annex_b_with us). cbn in Hf. rewrite IH by lia. f_equal. cbn. lia.
Qed.

Lemma units_at (starts : list (nat * nat)) pre us k :
  (forall j, starts !! (k + j)%nat = positions (length pre) us !! j) -> Forall (fun p => p.2 <> []) us ->
  omap (fun index =>
    '(_, start) ← starts !! index;
    let end_ := match starts !! (index + 1)%nat with Some (next, _) => next | None => length (pre ++ annex_b_with us) end in
    nalu ← (if (start <=? end_)%nat then slice start (end_ - start) (pre ++ annex_b_with us) else None);
    match nalu with [] => None | _ => Some nalu end) (seq k (length us)) = map snd us.
Proof.
  revert pre k. induction us as [|[four u] us IH]; intros pre k Hs Hne; [done|]. apply Forall_cons in Hne as [Hu Hne].
  cbn [length seq omap list_omap]. pose proof (Hs 0%nat) as H0. rewrite Nat.add_0_r in H0. rewrite H0. cbn [positions].
  cbv zeta. set (start := (length pre + length (start_code four))%nat).
  change ((_ :: _) !! 0%nat) with (Some (length pre, start)). cbn [mbind option_bind].
  pose proof (annex_b_with_cons four u us) as Ea.
  assert (match starts !! (k + 1)%nat with Some (next, _) => next | None => length (pre ++ annex_b_with ((four, u) :: us)) end
    = (start + length u)%nat) as ->.
  { rewrite Ea, !length_app, (Hs 1%nat). cbn [positions]. destruct us as [|[? v] vs]; [|done]. cbn. unfold start. lia. }
  rewrite (proj2 (Nat.leb_le _ _)) by lia. replace (start + length u - start)%nat with (length u) by lia.
  rewrite Ea. replace (pre ++ start_code four ++ u ++ annex_b_with us) with ((pre ++ start_code four) ++ u ++ annex_b_with us)
    by by rewrite <- !app_assoc.
  replace start with (length (pre ++ start_code four)) by (rewrite length_app; done).
  rewrite slice_app_exact. cbn [mbind option_bind]. cbn in Hu. destruct u as [|x u]; [done|]. cbn [map snd]. f_equal.
  replace ((pre ++ start_code four) ++ (x :: u) ++ annex_b_with us) with (((pre ++ start_code four) ++ x :: u) ++ annex_b_with us)
    by by rewrite <- !app_assoc.
  apply IH; [|done]. intros j. replace (S k + j)%nat with (k + S j)%nat by lia. rewrite Hs. cbn [positions].
  rewrite !length_app. done.
Qed.

Lemma nalus_of_annex_b us :
  separable us -> Forall (fun p => no_start_code p.2 /\ p.2 <> []) us -> annex_b_nalus (annex_b_with us) = map snd us.
Proof.
  intros Hs Hn. unfold annex_b_nalus.
  assert (ends_before [] us) as He by by destruct us as [|[[] ?] ?].
  pose proof (start_codes_found (length (annex_b_with us)) [] [] us ltac:(by intros i [? _]) He Hs Hn ltac:(cbn; lia)) as E.
  cbn [app length] in E. rewrite E. cbn [Nat.add]. assert (forall i, length (positions i us) = length us) as El
    by (clear; induction us as [|[]]; intros; cbn; congruence). rewrite El.
  apply (units_at (positions 0 us) [] us 0); [done|]. eapply Forall_impl; [exact Hn|]. by intros p [_ ?].
Qed.

Lemma flagged_payloads (P : list Z -> Prop) b l :
  Forall (fun c => P (payload c)) l -> Forall (fun c => P (payload c)) (flagged b l).
Proof. intros H. revert b. induction H; intros b; by constructor. Qed.

Lemma packetized_small mtu us :
  (3 <= mtu)%nat -> Forall (fun c => length (payload c) <= mtu)%nat (us ≫= packetize_nalu mtu).
Proof.
  intros Hmtu. apply Forall_bind, Forall_true. intros u. change (Forall (fun c => length (payload c) <= mtu)%nat (packetize_nalu mtu u)).
  unfold packetize_nalu. destruct (Nat.leb_spec (length u) mtu); [by apply Forall_singleton|].
  destruct u as [|h body]; [constructor|]. apply Forall_forall. intros c Hc. apply list_elem_of_omap in Hc as (i & _ & Hc).
  unfold fragment in Hc. apply bind_Some in Hc as (part & Hpart & [= <-]). cbn.
  destruct (_ <=? _)%nat; [|done]. apply slice_length in Hpart. unfold FUA_HEADER_SIZE in *. lia.
Qed.

(** C19. Packetizing an Annex-B access unit, each of its NAL units behind a start
    code of three or of four bytes, and depacketizing the payloads in order
    gives the same NAL units back, each behind a four-byte start code, whatever
    state the depacketizer was in; no payload is larger than the payload budget.
    The units are ones that may be sent alone and hold no start code, a unit in
    front of a three-byte code does not end in a zero byte, and the result is
    within the depacketizer's size limit. *)
Theorem h264_roundtrip mtu d us :
  us <> [] -> Forall (fun p => nalu_ok p.2 /\ no_start_code p.2) us -> separable us ->
  Z.of_nat (length (annex_b (map snd us))) <= max_access_unit_size d ->
  let cs := packetize (packetizer_new mtu) (annex_b_with us) in
  Forall (fun c => length (payload c) <= packetizer_new mtu)%nat cs /\
  depacketize d cs = (mkDepacketizer [] None false (max_access_unit_size d),
                      replicate (pred (length cs)) (Ok None) ++ [Ok (Some (annex_b (map snd us)))]).
Proof.
  intros Hne Hus Hsep Hmax cs. assert (3 <= packetizer_new mtu)%nat as Hmtu by (unfold packetizer_new, FUA_HEADER_SIZE; lia).
  unfold cs, packetize. rewrite nalus_of_annex_b, marked_plain;
    [|apply packetized_plain|done|eapply Forall_impl; [exact Hus|by intros [? []] []]].
  assert (Forall nalu_ok (map snd us)) as Hok by (apply Forall_map; eapply Forall_impl; [exact Hus|by intros ? []]).
  set (l := map snd us ≫= packetize_nalu (packetizer_new mtu)).
  pose proof (packetized_units _ (map snd us) (mkDepacketizer [] None true (max_access_unit_size d)) Hmtu eq_refl Hok Hmax) as Hp.
  assert (l <> []) as Hl by (intros E; fold l in Hp; rewrite E in Hp; destruct us as [|u us]; [done|]; discriminate Hp).
  assert (forall b, length (flagged b l) = length l) as El by (clear; induction l; intros; cbn; congruence).
  split.
  - apply (flagged_payloads (fun p => length p <= packetizer_new mtu)%nat), packetized_small, Hmtu.
  - rewrite El. rewrite (depacketize_flagged true l d _ Hl Hp); try done.
    + cbn. destruct us as [|u us]; done.
    + intros d0 b d1 H%push_payload_keeps. apply H.
Qed.

Definition demo_units : list (bool * list Z) := [(true, [0x67; 1; 2]); (false, [0x68; 9; 0]); (true, [0x68; 9]); (false, 0x65 :: seqZ 10 20)].

Lemma h264_roundtrip_witness :
  map (fun c => (length (payload c), start_of_frame c, end_of_frame c)) (packetize (packetizer_new 10) (annex_b_with demo_units))
    = [(3%nat, true, false); (3%nat, false, false); (2%nat, false, false); (10%nat, false, false); (10%nat, false, false); (6%nat, false, true)] /\
  depacketize depacketizer_new (packetize (packetizer_new 10) (annex_b_with demo_units)) =
    (depacketizer_new, [Ok None; Ok None; Ok None; Ok None; Ok None; Ok (Some (annex_b (map snd demo_units)))]).
Proof.
  split; [vm_compute; reflexivity|].
  destruct (h264_roundtrip 10 depacketizer_new demo_units) as [_ E]; [done| | |vm_compute; discriminate|exact E].
  - assert (forall u, bool_decide (1 ∉ u) = true -> no_start_code u) as Hno.
    { intros u H%bool_decide_eq_true i (_ & _ & E). apply H. by apply list_elem_of_lookup_2 in E. }
    repeat (apply Forall_cons_2; [split; [vm_compute; repeat split; discriminate|]|]); [|by apply Hno; vm_compute..|constructor].
    intros i (E1 & _). destruct i as [|[|[|i]]]; discriminate E1.
  - repeat split; discriminate.
Defined.

(** ** Whatever arrives *)

(** What the depacketizer holds is made of whole units, and bounded. *)
Record depacketizer_ok (d : Depacketizer) : Prop := mk_depacketizer_ok {
  do_frame : exists us, frame d = annex_b us /\ Forall nalu_ok us;
  do_size : Z.of_nat (length (frame d) + match fua d with Some (_, data) => 4 + length data | None => 0 end)%nat <= max_access_unit_size d;
  do_fua : forall h data, fua d = Some (h, data) -> exists body, data = h :: body /\ nalu_ok data;
}.

Lemma annex_b_snoc us u : annex_b us ++ ANNEX_B_START_CODE ++ u = annex_b (us ++ [u]).
Proof. unfold annex_b. rewrite bind_app. cbn. by rewrite app_nil_r. Qed.

Lemma append_unit_ok d u :
  depacketizer_ok d -> fua d = None -> nalu_ok u -> room_for d (length u) -> depacketizer_ok (append_unit d u).
Proof.
  intros [(us & Ef & Hus) Hs Hd] Hf Hu Hr. unfold room_for in Hr. split; cbn.
  - exists (us ++ [u]). rewrite Ef, <- annex_b_snoc. split; [done|]. by apply Forall_app_2; [|apply Forall_singleton].
  - rewrite Hf, !length_app. cbn. lia.
  - congruence.
Qed.

Lemma reset_ok d : 0 <= max_access_unit_size d -> depacketizer_ok (reset d).
Proof. intros H. split; cbn; [by exists []|lia|done]. Qed.

Lemma stap_units_ok fuel rest us : bytes_ok rest -> stap_units fuel rest = Ok us -> Forall nalu_ok us.
Proof.
  revert rest us. induction fuel as [|fuel IH]; intros rest us Hb; destruct rest as [|hi [|lo body]]; cbn [stap_units]; try done;
    try by intros [= <-].
  set (size := Z.to_nat _). destruct (slice 0 size body) as [u|] eqn:Es; [|done]. cbn.
  do 2 apply Forall_cons in Hb as [_ Hb]. pose proof (slice_bytes _ _ _ _ Hb Es) as Hu. destruct u as [|h t]; [done|].
  destruct (has h 0x80 || _) eqn:Eh; [done|]. apply orb_false_iff in Eh as [E1 E2%negb_false_iff].
  destruct (stap_units fuel (drop size body)) as [us'|] eqn:Er; [|done]. cbn. intros [= <-]. constructor.
  - apply Forall_cons in Hu as [Hh _]. done.
  - eapply IH; [|exact Er]. by apply Forall_drop.
Qed.

Lemma append_units_ok us d :
  depacketizer_ok d -> fua d = None -> Forall nalu_ok us ->
  Z.of_nat (length (frame d) + sum_list (map (fun u => length ANNEX_B_START_CODE + length u)%nat us)) <= max_access_unit_size d ->
  depacketizer_ok (foldl append_unit d us).
Proof.
  revert d. induction us as [|u us IH]; intros d Hd Hf Hus Hr; [done|]. apply Forall_cons in Hus as [Hu Hus].
  cbn [map sum_list_with sum_list] in Hr. cbn in Hr. cbn [foldl]. apply IH; [|done|done|].
  - apply append_unit_ok; try done. unfold room_for. lia.
  - cbn. rewrite !length_app. cbn. lia.
Qed.

(** The header a first fragment stands for. *)
Lemma fragment_header ind : is_byte ind -> has ind 0x80 = false ->
  Forall (fun ty => let h := Z.lor (Z.land ind 0xe0) ty in
    0 <= h < 256 /\ has h 0x80 = false /\ Z.land h NALU_TYPE_MASK = ty) (seqZ 0 32).
Proof.
  cbv zeta. revert ind. match goal with |- forall h, is_byte h -> @?P h => apply (byte_cases P) end. vm_compute. reflexivity.
Qed.

Lemma push_fua_ok d rest ind d' :
  depacketizer_ok d -> is_byte ind -> push_fua d rest ind = Ok d' -> depacketizer_ok d'.
Proof.
  intros Hd Hi. unfold push_fua. destruct rest as [|fu body]; [done|].
  destruct (negb _ || _) eqn:E1; [done|]. apply orb_false_iff in E1 as [Hty%negb_false_iff Hbody%bool_decide_eq_false].
  destruct (_ || _) eqn:E2; [done|]. rewrite !orb_false_iff in E2. destruct E2 as [[H80 _] Hse].
  set (ty := Z.land fu NALU_TYPE_MASK) in *.
  destruct (if has fu FU_START_MASK then _ else _) as [d1|e] eqn:E3; [|done]. cbn [mbind result_bind].
  assert (depacketizer_ok d1) as Hd1.
  { destruct Hd as [Hf Hs Hfu]. destruct (has fu FU_START_MASK).
    - destruct (fua d) eqn:Ef; [done|]. unfold ensure_capacity in E3. destruct (Z.ltb_spec (max_access_unit_size d)
        (Z.of_nat (length (frame d) + (length ANNEX_B_START_CODE + 1 + length body)))); [done|]. cbn in E3. injection E3 as <-.
      split; cbn; [done|cbn in *; lia|]. intros h data [= <- <-]. eexists. split; [done|].
      pose proof (fragment_header ind Hi H80) as Hh. rewrite Forall_forall in Hh.
      assert (0 <= ty < 32) as Hr by (unfold ty, NALU_TYPE_MASK; change 31 with (2 ^ 5 - 1); rewrite land_ones_mod by lia; apply Z.mod_pos_bound; lia).
      destruct (Hh ty) as (K1 & K2 & K3); [apply elem_of_seqZ; lia|]. cbn. rewrite K3. done.
    - destruct (fua d) as [[h data]|] eqn:Ef; [|done]. destruct (_ || _); [done|].
      destruct (Z.ltb_spec (max_access_unit_size d)
        (Z.of_nat (length (frame d) + length ANNEX_B_START_CODE + length data + length body))); [done|]. injection E3 as <-.
      destruct (Hfu h data eq_refl) as (b0 & -> & Hok). split; cbn; [done| |].
      + rewrite length_app. cbn in *. lia.
      + intros h' data' [= <- <-]. by exists (b0 ++ body). }
  destruct (has fu FU_END_MASK); [|by intros [= <-]]. destruct (fua d1) as [[h data]|] eqn:Ef; [|done]. intros [= <-].
  destruct (do_fua _ Hd1 _ _ Ef) as (b0 & -> & Hok). pose proof (do_size _ Hd1) as Hs. rewrite Ef in Hs.
  apply append_unit_ok; try done; [|unfold room_for; cbn in *; lia].
  destruct Hd1 as [H1 _ _]. split; cbn; [done|lia|done].
Qed.

Lemma push_payload_ok d b d' : depacketizer_ok d -> bytes_ok b -> push_payload d b = Ok d' -> depacketizer_ok d'.
Proof.
  intros Hd Hb. destruct b as [|ind rest]; [done|]. pose proof Hb as [Hi Hrest]%Forall_cons. cbn [push_payload].
  destruct (nalu_type_in_range _) eqn:Ety.
  { destruct (_ || _) eqn:E1; [done|]. apply orb_false_iff in E1 as [Hbusy H80]. destruct (fua d) eqn:Ef; [done|].
    unfold ensure_capacity. destruct (Z.ltb_spec (max_access_unit_size d)
      (Z.of_nat (length (frame d) + (length ANNEX_B_START_CODE + length (ind :: rest))))); [done|]. intros [= <-].
    apply append_unit_ok; try done. unfold room_for. cbn in *. lia. }
  destruct (_ =? STAPA_NALU_TYPE).
  { destruct (_ || _) eqn:E1; [done|]. rewrite !orb_false_iff in E1. destruct E1 as [[Hbusy _] _]. destruct (fua d) eqn:Ef; [done|].
    destruct (stap_units _ rest) as [us|] eqn:Eu; [|done]. cbn [mbind result_bind]. case_bool_decide; [done|]. unfold ensure_capacity.
    destruct (Z.ltb_spec (max_access_unit_size d)
      (Z.of_nat (length (frame d) + sum_list (map (fun u => length ANNEX_B_START_CODE + length u)%nat us)))); [done|].
    intros [= <-]. apply append_units_ok; try done. by eapply stap_units_ok. }
  destruct (_ =? FUA_NALU_TYPE); [by apply push_fua_ok|]. by destruct (_ =? FUB_NALU_TYPE).
Qed.

(** A whole access unit within the limit. *)
Definition whole_unit (limit : Z) (f : list Z) : Prop :=
  exists us, us <> [] /\ f = annex_b us /\ Forall nalu_ok us /\ Z.of_nat (length f) <= limit.

Lemma push_ok d b s e d' o :
  depacketizer_ok d -> 0 <= max_access_unit_size d -> bytes_ok b -> push d b s e = (d', o) ->
  depacketizer_ok d' /\ max_access_unit_size d' = max_access_unit_size d /\
  match o with
  | Ok (Some f) => whole_unit (max_access_unit_size d) f
  | Ok None => True
  | Err _ => d' = reset d
  end.
Proof.
  intros Hd Hm Hb. unfold push. destruct (negb s && _); [intros [= <- <-]; split; [by apply reset_ok|done]|].
  set (d0 := if s then _ else d). assert (depacketizer_ok d0 /\ max_access_unit_size d0 = max_access_unit_size d) as [Hd0 E0]
    by (unfold d0; destruct s; [split; [split; cbn; [by exists []|lia|done]|]|]; done).
  assert (forall x, max_access_unit_size x = max_access_unit_size d -> reset x = reset d) as Hreset
    by (intros x E; unfold reset; by rewrite E).
  destruct (push_payload d0 b) as [d1|err] eqn:E1.
  2: { intros [= <- <-]. rewrite (Hreset _ E0). split; [by apply reset_ok|done]. }
  destruct (push_payload_keeps _ _ _ E1) as [_ K]. rewrite E0 in K. pose proof (push_payload_ok _ _ _ Hd0 Hb E1) as Hd1.
  destruct e; [|by intros [= <- <-]]. destruct (fua d1) as [x|] eqn:Ef.
  { intros [= <- <-]. rewrite (Hreset _ K). split; [by apply reset_ok|done]. }
  case_bool_decide as Efr.
  { intros [= <- <-]. rewrite (Hreset _ K). split; [by apply reset_ok|done]. }
  intros [= <- <-]. destruct Hd1 as [(us & Eus & Hus) Hs _]. rewrite Ef, Nat.add_0_r, K in Hs. split_and!; [|done|].
  - split; cbn; [by exists []|lia|done].
  - exists us. split_and!; try done. intros ->. by rewrite Eus in Efr.
Qed.

(** Whatever payloads arrive, with whatever frame boundaries, a frame the
    depacketizer gives out is a non-empty sequence of well-formed NAL units,
    each after its start code, and no longer than the configured limit; and it
    never holds more than that. *)
Theorem depacketizer_output_whole n cs :
  Forall (fun c => bytes_ok (payload c)) cs ->
  let '(d, os) := depacketize (with_max_access_unit_size n) cs in
  Z.of_nat (length (frame d)) <= Z.max n 1 /\ forall f, Ok (Some f) ∈ os -> whole_unit (Z.max n 1) f.
Proof.
  assert (forall d, depacketizer_ok d -> max_access_unit_size d = Z.max n 1 -> Forall (fun c => bytes_ok (payload c)) cs ->
    let '(d', os) := depacketize d cs in
    Z.of_nat (length (frame d')) <= Z.max n 1 /\ forall f, Ok (Some f) ∈ os -> whole_unit (Z.max n 1) f) as H.
  { induction cs as [|c cs IH]; intros d Hd Hm Hcs; cbn [depacketize].
    { pose proof (do_size _ Hd) as Hs. rewrite Hm in Hs. split; [lia|]. intros f Hf. by apply elem_of_nil in Hf. }
    apply Forall_cons in Hcs as [Hc Hcs]. destruct (push d _ _ _) as [d1 o] eqn:Ep.
    destruct (push_ok _ _ _ _ _ _ Hd ltac:(lia) Hc Ep) as (Hd1 & Em & Ho). specialize (IH d1 Hd1 ltac:(congruence) Hcs).
    destruct (depacketize d1 cs) as [d2 os]. destruct IH as [IH1 IH2]. split; [done|]. intros f Hf.
    apply elem_of_cons in Hf as [<-|Hf]; [|by apply IH2]. by rewrite Hm in Ho. }
  intros Hcs. apply H; [|done|done]. split; cbn; [by exists []|lia|done].
Qed.

(** A STAP-A aggregate, a fragmented unit, and a truncated fragment. *)
Definition demo_chunks : list PacketizedChunk :=
  [mkChunk [24; 0; 2; 0x67; 1; 0; 1; 0x68] true false; mkChunk [0x7c; 0x85; 7; 8] false false; mkChunk [0x7c; 0x45; 9] false true;
   mkChunk [0x7c; 0x85; 7] true false; mkChunk [0x61; 1] false true].

Lemma depacketizer_output_whole_witness :
  (depacketize (with_max_access_unit_size 100) demo_chunks).2 =
    [Ok None; Ok None; Ok (Some [0; 0; 0; 1; 0x67; 1; 0; 0; 0; 1; 0x68; 0; 0; 0; 1; 0x65; 7; 8; 9]); Ok None; Err UnexpectedFuA] /\
  whole_unit 100 [0; 0; 0; 1; 0x67; 1; 0; 0; 0; 1; 0x68; 0; 0; 0; 1; 0x65; 7; 8; 9].
Proof.
  split; [vm_compute; reflexivity|]. pose proof (depacketizer_output_whole 100 demo_chunks) as H.
  destruct (depacketize (with_max_access_unit_size 100) demo_chunks) as [d os] eqn:E. vm_compute in E. injection E as <- <-.
  apply H.
  - repeat (apply Forall_cons_2; [repeat (apply Forall_cons_2; [vm_compute; split; congruence|]); constructor|]). constructor.
  - do 2 apply list_elem_of_further. apply list_elem_of_here.
Defined.
