(* ===== verification/Rtp.v ===== *)
(** * RTP packets inside the server

    Models [crates/pulsebeam/src/rtp/mod.rs] ([RtpPacket]), [extensions.rs],
    [time.rs], [frame_selector.rs] and [SourceEncoding] of [track.rs]. An [Arc]
    is the value it points to: the snapshots are immutable and every change
    goes through a fresh one ([set_descriptor], [set_raw_descriptor]). *)

From S2P Require Import Prelude Bits Dd Vla H264.

(** ** [time.rs] *)

Record MediaTime := mkTime { ticks : Z; frequency : Z }.
Definition numer (t : MediaTime) : Z := ticks t.

(** [PartialEq for MediaTime]: cross-multiplied, as [Ord] has it. *)
Definition media_time_eqb (a b : MediaTime) : bool :=
  saturating_mul 128 (ticks a) (frequency b) =? saturating_mul 128 (ticks b) (frequency a).

(** ** [extensions.rs] *)

Record RtpExtensions := mkExt {
  rid : option string;
  audio_level : option Z;
  raw_dependency_descriptor : option (list Z);
  dependency_descriptor : option DependencyDescriptor;
  video_layers_allocation : option VideoLayersAllocation;
  opaque : list (string * list Z);
}.

Definition ext_default : RtpExtensions := mkExt None None None None None [].
Definition set_raw_descriptor (v : list Z) (e : RtpExtensions) : RtpExtensions :=
  mkExt (rid e) (audio_level e) (Some v) (dependency_descriptor e) (video_layers_allocation e) (opaque e).
Definition set_descriptor (v : DependencyDescriptor) (e : RtpExtensions) : RtpExtensions :=
  mkExt (rid e) (audio_level e) (raw_dependency_descriptor e) (Some v) (video_layers_allocation e) (opaque e).

(** The extension's bytes and the writer's new structure. A failed [write]
    leaves the writer as it was, and its partial output is overwritten. *)
Definition write_dependency_descriptor (W : option TemplateDependencyStructure) (buf : list Z) (e : RtpExtensions)
    : option TemplateDependencyStructure * option (list Z) :=
  let fallback :=
    match raw_dependency_descriptor e with
    | None => None
    | Some raw =>
        if (length raw <=? length buf)%nat then
          Some (match dependency_descriptor e with
                | Some dd =>
                    if (MANDATORY_LEN <=? length raw)%nat
                    then take 1 raw ++ be_encode 2 (frame_number dd) ++ drop MANDATORY_LEN raw
                    else raw
                | None => raw
                end)
        else None
    end in
  match dependency_descriptor e with
  | Some dd =>
      match write W dd buf with
      | Ok (W', buf', len) => (W', Some (take (Z.to_nat len) buf'))
      | Err _ => (W, fallback)
      end
  | None => (W, fallback)
  end.

(** ** [mod.rs] *)

Definition VIDEO_FREQUENCY : Z := 90000.

Record RtpPacket := mkPacket {
  ssrc : Z;
  marker : bool;
  ext_vals : RtpExtensions;
  seq_no : Z;
  rtp_ts : MediaTime;
  arrival_ts : Z;
  playout_time : Z;
  is_keyframe : bool;
  is_frame_start : bool;
  nal : Z;
  reported_height : Z;
  payload : list Z;
}.

Abbreviation rtp_ticks p := (numer (rtp_ts p)).

Definition with_seq (s : Z) (p : RtpPacket) : RtpPacket :=
  mkPacket (ssrc p) (marker p) (ext_vals p) s (rtp_ts p) (arrival_ts p) (playout_time p) (is_keyframe p)
    (is_frame_start p) (nal p) (reported_height p) (payload p).
Definition with_ts (t : MediaTime) (p : RtpPacket) : RtpPacket :=
  mkPacket (ssrc p) (marker p) (ext_vals p) (seq_no p) t (arrival_ts p) (playout_time p) (is_keyframe p)
    (is_frame_start p) (nal p) (reported_height p) (payload p).
Definition with_ext (e : RtpExtensions) (p : RtpPacket) : RtpPacket :=
  mkPacket (ssrc p) (marker p) e (seq_no p) (rtp_ts p) (arrival_ts p) (playout_time p) (is_keyframe p)
    (is_frame_start p) (nal p) (reported_height p) (payload p).
Definition with_bounds (start m : bool) (p : RtpPacket) : RtpPacket :=
  mkPacket (ssrc p) m (ext_vals p) (seq_no p) (rtp_ts p) (arrival_ts p) (playout_time p) (is_keyframe p)
    start (nal p) (reported_height p) (payload p).
Definition with_times (arrival playout : Z) (p : RtpPacket) : RtpPacket :=
  mkPacket (ssrc p) (marker p) (ext_vals p) (seq_no p) (rtp_ts p) arrival playout (is_keyframe p)
    (is_frame_start p) (nal p) (reported_height p) (payload p).

(** ** [frame_selector.rs] *)

Inductive FrameDecision := Forward | Drop.
Inductive DecodeTargetSelection := Full | Target (dt : nat).

Definition keep (target : DecodeTargetSelection) (dd : DependencyDescriptor) : bool :=
  match target with Full => true | Target dt => is_in_decode_target dd dt end.

(** [DependencyDescriptorSelector] is its target. *)
Definition decide_frame (target : DecodeTargetSelection) (p : RtpPacket) : FrameDecision :=
  match dependency_descriptor (ext_vals p) with
  | Some dd => if negb (keep target dd) then Drop else Forward
  | None => Forward
  end.

(** ** [SourceEncoding] *)

Inductive SourceEncoding := Rid (r : option string) | SourceSsrc (s : Z).
#[export] Instance SourceEncoding_eq_dec : EqDecision SourceEncoding.
Proof. solve_decision. Defined.

Definition encoding_matches (e : SourceEncoding) (s : Z) (r : option string) : bool :=
  match e with
  | Rid expected => bool_decide (expected = r)
  | SourceSsrc expected => expected =? s
  end.
