(* ===== verification/Timeline.v ===== *)
(** * One output stream from many sources

    Models [crates/pulsebeam/src/rtp/timeline.rs]: the translation of sequence
    numbers, timestamps and dependency-descriptor frame numbers of a succession
    of source streams onto one continuous output. Sequence numbers and ticks
    are [u64] values, written out where they wrap. *)

From S2P Require Import Prelude Dd Rtp.

Record Timeline := mkTimeline {
  clock_rate : Z;
  max_output : Z;
  seq_base : Z;
  max_output_ts : Z;
  ts_base : Z;
  epoch : option (Z * Z);
  frame_interval : option Z;
  awaiting_first_frame : bool;
  max_output_dd_frame : option Z;
  dd_frame_base : option Z;
}.

(** [new_with_base]; [new] draws the base from the system's generator. *)
Definition new_with_base (rate base_seq_no : Z) : Timeline :=
  mkTimeline rate base_seq_no 0 0 0 None None false None None.

Definition timeline_new (rate random : Z) : Timeline := new_with_base rate (Z.land random 0xFFFF).

Definition min_switch_advance (t : Timeline) : Z := Z.max (clock_rate t `div` 60) 1.

Definition switch_target (t : Timeline) (raw_target : Z) : Z :=
  match (match frame_interval t with Some i => if 0 <? i then Some i else None | None => None end) with
  | None => Z.max raw_target (saturating_add 64 (max_output_ts t) (min_switch_advance t))
  | Some interval =>
      let advance := saturating_sub raw_target (max_output_ts t) in
      let frames := Z.max (saturating_add 64 advance (interval `div` 2) `div` interval) 1 in
      saturating_add 64 (max_output_ts t) (saturating_mul 64 frames interval)
  end.

Definition plausible_interval (t : Timeline) (delta : Z) : bool := (0 <? delta) && (delta <=? clock_rate t).

Definition ticks_of (t : Timeline) (d : Z) : Z :=
  let n := saturating_mul 128 d (clock_rate t) `div` NANOS_PER_SEC in
  if n <=? umax 64 then n else umax 64.

(** [rebase] and [rebase_audio] *)
Definition rebase (t : Timeline) (p : RtpPacket) : Timeline :=
  let base := wrapping_sub 64 (wrapping_add 64 (max_output t) 1) (seq_no p) in
  let tbase :=
    match epoch t with
    | None => 0
    | Some (epoch_at, epoch_ts) =>
        let elapsed := saturating_duration_since (playout_time p) epoch_at in
        let target := switch_target t (wrapping_add 64 epoch_ts (ticks_of t elapsed)) in
        wrapping_sub 64 target (rtp_ticks p)
    end in
  mkTimeline (clock_rate t) (max_output t) base (max_output_ts t) tbase (epoch t) (frame_interval t) true
    (max_output_dd_frame t) None.

Definition translate_dd_frame (base : Z) (p : RtpPacket) : RtpPacket :=
  if base =? 0 then p
  else match dependency_descriptor (ext_vals p) with
       | Some dd =>
           with_ext (set_descriptor (mkDescriptor (start_of_frame dd) (end_of_frame dd) (template_id dd)
             (wrapping_add 16 (frame_number dd) base) (attached_structure dd) (active_decode_targets dd)
             (fields dd) (frame_dependencies dd) (resolution dd)) (ext_vals p)) p
       | None => p
       end.

(** The descriptor part of [apply]: the new counter state and the packet. *)
Definition apply_dd (t : Timeline) (p : RtpPacket) : option Z * option Z * RtpPacket :=
  match dependency_descriptor (ext_vals p) with
  | None => (max_output_dd_frame t, dd_frame_base t, p)
  | Some dd =>
      let base := match dd_frame_base t with
                  | Some b => b
                  | None => match max_output_dd_frame t with
                            | None => 0
                            | Some last => wrapping_sub 16 (wrapping_add 16 last 1) (frame_number dd)
                            end
                  end in
      let output_frame := wrapping_add 16 (frame_number dd) base in
      let advances := match max_output_dd_frame t with
                      | None => true
                      | Some last => let a := wrapping_sub 16 output_frame last in (0 <? a) && (a <? 0x8000)
                      end in
      (if advances then Some output_frame else max_output_dd_frame t, Some base, translate_dd_frame base p)
  end.

Definition apply (t : Timeline) (p : RtpPacket) (output_seq output_ts : Z) : Timeline * RtpPacket :=
  let '(max_dd, dd_base, p) := apply_dd t p in
  let p := with_ts (mkTime output_ts (clock_rate t)) (with_seq output_seq p) in
  match epoch t with
  | None =>
      (mkTimeline (clock_rate t) output_seq (seq_base t) output_ts (ts_base t) (Some (playout_time p, output_ts))
         (frame_interval t) (awaiting_first_frame t) max_dd dd_base, p)
  | Some e =>
      let max_out := if max_output t <? output_seq then output_seq else max_output t in
      let '(max_ts, interval, awaiting) :=
        if max_output_ts t <? output_ts then
          let delta := saturating_sub output_ts (max_output_ts t) in
          (output_ts,
           if negb (awaiting_first_frame t) && plausible_interval t delta then Some delta else frame_interval t,
           false)
        else (max_output_ts t, frame_interval t, awaiting_first_frame t) in
      (mkTimeline (clock_rate t) max_out (seq_base t) max_ts (ts_base t) (Some e) interval awaiting max_dd dd_base, p)
  end.

Definition rewrite_live (t : Timeline) (p : RtpPacket) : Timeline * RtpPacket :=
  apply t p (wrapping_add 64 (seq_no p) (seq_base t)) (wrapping_add 64 (rtp_ticks p) (ts_base t)).

(** [None]: refused, as the packet is not ahead of the output. *)
Definition rewrite_audio (t : Timeline) (p : RtpPacket) : option (Timeline * RtpPacket) :=
  let output_seq := wrapping_add 64 (seq_no p) (seq_base t) in
  if match epoch t with Some _ => output_seq <=? max_output t | None => false end then None
  else Some (apply t p output_seq (wrapping_add 64 (rtp_ticks p) (ts_base t))).

Definition rewrite_sequential (t : Timeline) (p : RtpPacket) : Timeline * RtpPacket :=
  apply t p (wrapping_add 64 (max_output t) 1) (wrapping_add 64 (rtp_ticks p) (ts_base t)).

Definition tl_dd_frame_base (t : Timeline) : Z := default 0 (dd_frame_base t).

Definition set_sequence (t : Timeline) (out base : Z) : Timeline :=
  mkTimeline (clock_rate t) out base (max_output_ts t) (ts_base t) (epoch t) (frame_interval t)
    (awaiting_first_frame t) (max_output_dd_frame t) (dd_frame_base t).
Definition skip_output_sequence (t : Timeline) (n : Z) : Timeline :=
  set_sequence t (wrapping_add 64 (max_output t) n) (seq_base t).
Definition skip_live_sequence (t : Timeline) (n : Z) : Timeline :=
  let t := skip_output_sequence t n in set_sequence t (max_output t) (wrapping_add 64 (seq_base t) n).
Definition resync_to_input (t : Timeline) (last_input_seq : Z) : Timeline :=
  set_sequence t (max_output t) (wrapping_sub 64 (max_output t) last_input_seq).
Definition drop_input (t : Timeline) : Timeline :=
  set_sequence t (max_output t) (wrapping_sub 64 (seq_base t) 1).
