(* ===== verification/PacketCache.v ===== *)
(** * The packet cache behind a switch

    Models [crates/pulsebeam/src/rtp/cache.rs]: the fixed window of packets
    addressed by sequence number, the keyframe segment kept in it, the
    switch-ready replay of that segment and the caches of a track's encodings.

    Sequence numbers are [u64] values. The walks by sequence number
    ([open_segment], [replay], [range_after]) are bounded by the number of
    values they pass, which the window keeps below its capacity; [replay]'s
    walk stops at the newest packet, so it is given that many turns. *)

From stdpp Require Import sorting.
From S2P Require Import Prelude Dd Rtp H264.

Definition EMPTY_SLOT : Z := umax 64.
Definition PACKET_WINDOW_CAPACITY : nat := 512.
Definition CAPACITY : Z := 512.
Definition PACKET_WINDOW_MASK : Z := CAPACITY - 1.
Definition MAX_REPLAY_FRAMES : Z := 3.
Definition MAX_REPLAY_PACKETS : nat := 96.
Definition MAX_REPLAY_PACKETS_HARD : nat := 200.
Definition MAX_REPLAY_SPAN_MS : Z := 400.

Definition sequence_is_newer (candidate reference : Z) : bool :=
  let distance := wrapping_sub 64 candidate reference in
  negb (distance =? 0) && (distance <? Z.shiftl 1 63).

(** ** [PacketWindow] *)

Record PacketWindow := mkWindow {
  seqs : list Z;
  ring : list (option RtpPacket);
  newest_seq : option Z;
}.

Definition window_new : PacketWindow :=
  mkWindow (replicate PACKET_WINDOW_CAPACITY EMPTY_SLOT) (replicate PACKET_WINDOW_CAPACITY None) None.

Definition slot_of (seq : Z) : nat := Z.to_nat (Z.land seq PACKET_WINDOW_MASK).

Definition window_get (w : PacketWindow) (seq : Z) : option RtpPacket :=
  if bool_decide (seqs w !! slot_of seq = Some seq) then ring w !! slot_of seq ≫= id else None.

(** [true]: stored; [false]: handed back as too old. *)
Definition window_push (w : PacketWindow) (p : RtpPacket) : PacketWindow * bool :=
  let seq := seq_no p in
  if match newest_seq w with Some n => wrapping_add 64 seq CAPACITY <=? n | None => false end then (w, false)
  else if (slot_of seq <? length (ring w))%nat && (slot_of seq <? length (seqs w))%nat then
    (mkWindow (<[slot_of seq := seq]> (seqs w)) (<[slot_of seq := Some p]> (ring w))
       (Some (match newest_seq w with Some n => Z.max n seq | None => seq end)), true)
  else (w, false).

Definition seq_le (a b : RtpPacket) : Prop := seq_no a <= seq_no b.
#[export] Instance seq_le_dec a b : Decision (seq_le a b).
Proof. apply Z_le_dec. Defined.

(** The sort is by sequence number; stored packets have distinct ones. *)
Definition window_take_all_sorted (w : PacketWindow) : PacketWindow * list RtpPacket :=
  (mkWindow (replicate (length (seqs w)) EMPTY_SLOT) (replicate (length (ring w)) None) None,
   merge_sort seq_le (omap id (ring w))).

Definition window_clear (w : PacketWindow) : PacketWindow :=
  mkWindow (replicate (length (seqs w)) EMPTY_SLOT) (replicate (length (ring w)) None) None.

(** ** [StreamCache] *)

Record StreamCache := mkCache {
  packets : PacketWindow;
  segment_start_seq : option Z;
  segment_ts : option Z;
  sps : option RtpPacket;
  sps_seq : option Z;
  pps : option RtpPacket;
  pps_seq : option Z;
}.

Definition cache_new : StreamCache := mkCache window_new None None None None None None.

(** The walk of [open_segment] over packets of the same frame. *)
Fixpoint walk_back (fuel : nat) (w : PacketWindow) (frame_ts start : Z) : Z :=
  match fuel with
  | O => start
  | S fuel' =>
      match checked_sub start 1 with
      | None => start
      | Some prev =>
          match window_get w prev with
          | Some p => if rtp_ticks p =? frame_ts then walk_back fuel' w frame_ts prev else start
          | None => start
          end
      end
  end.

Definition set_segment (c : StreamCache) (start ts : option Z) : StreamCache :=
  mkCache (packets c) start ts (sps c) (sps_seq c) (pps c) (pps_seq c).

Definition open_segment (c : StreamCache) (kf_seq frame_ts : Z) : StreamCache :=
  set_segment c (Some (walk_back PACKET_WINDOW_CAPACITY (packets c) frame_ts kf_seq)) (Some frame_ts).

(** The parameter sets are noted before the window may refuse the packet. *)
Definition note_parameter_sets (c : StreamCache) (p : RtpPacket) : StreamCache :=
  let seq := seq_no p in
  let newer o := match o with None => true | Some previous => sequence_is_newer seq previous end in
  let c := if nal_sps (nal p) && newer (sps_seq c)
           then mkCache (packets c) (segment_start_seq c) (segment_ts c) (Some p) (Some seq) (pps c) (pps_seq c)
           else c in
  if nal_pps (nal p) && newer (pps_seq c)
  then mkCache (packets c) (segment_start_seq c) (segment_ts c) (sps c) (sps_seq c) (Some p) (Some seq)
  else c.

Definition newer_segment (c : StreamCache) (seq frame_ts : Z) : bool :=
  match segment_start_seq c, segment_ts c with
  | Some start, Some previous_ts =>
      if frame_ts =? previous_ts then sequence_is_newer start seq else sequence_is_newer seq start
  | _, _ => true
  end.

(** [true]: stored. *)
Definition cache_push (c : StreamCache) (p : RtpPacket) : StreamCache * bool :=
  let c := note_parameter_sets c p in
  let '(w, stored) := window_push (packets c) p in
  if negb stored then (c, false)
  else
    let c := mkCache w (segment_start_seq c) (segment_ts c) (sps c) (sps_seq c) (pps c) (pps_seq c) in
    let c := if is_keyframe p && newer_segment c (seq_no p) (rtp_ticks p)
             then open_segment c (seq_no p) (rtp_ticks p) else c in
    (match segment_start_seq c, newest_seq w with
     | Some start, Some newest =>
         if wrapping_add 64 start CAPACITY <=? newest then set_segment c None None else c
     | _, _ => c
     end, true).

Definition has_keyframe (c : StreamCache) : bool := match segment_ts c with Some _ => true | None => false end.

(** The packets from [seq] on, up to the first hole or [turns] of them. *)
Fixpoint contiguous_run (turns : nat) (w : PacketWindow) (seq : Z) : list RtpPacket :=
  match turns with
  | O => []
  | S turns' =>
      match window_get w seq with
      | Some p => p :: contiguous_run turns' w (saturating_add 64 seq 1)
      | None => []
      end
  end.

(** [windows(2).any(..)] *)
Fixpoint any_pair (f : RtpPacket -> RtpPacket -> bool) (l : list RtpPacket) : bool :=
  match l with
  | a :: ((b :: _) as rest) => f a b || any_pair f rest
  | _ => false
  end.

(** How many frames, and the timestamp of the last packet. *)
Fixpoint count_frames (l : list RtpPacket) (frames : Z) (seen : option Z) : Z * option Z :=
  match l with
  | [] => (frames, seen)
  | p :: l =>
      if bool_decide (seen = Some (rtp_ticks p)) then count_frames l frames seen
      else count_frames l (saturating_add 64 frames 1) (Some (rtp_ticks p))
  end.

Definition parameter_set_prefix (c : StreamCache) (segment : list RtpPacket) (segment_ts : Z)
    : option (list RtpPacket) :=
  let needs_sps := negb (existsb (fun p => nal_sps (nal p)) segment) in
  let needs_pps := negb (existsb (fun p => nal_pps (nal p)) segment) in
  if negb needs_sps && negb needs_pps then Some []
  else
    match segment with
    | [] => None
    | anchor :: _ =>
        prefix ← (if needs_sps then s ← sps c; Some [s] else Some []);
        prefix ← (if needs_pps && negb (existsb (fun p => nal_pps (nal p)) prefix)
                  then q ← pps c;
                       Some (if existsb (fun p => (ssrc p =? ssrc q) && (seq_no p =? seq_no q)) prefix
                             then prefix else prefix ++ [q])
                  else Some prefix);
        let n := Z.of_nat (length prefix) in
        Some (imap (fun i p =>
                with_seq (saturating_sub (seq_no anchor) (saturating_sub n (Z.of_nat i)))
                  (with_bounds (is_frame_start p) false
                    (with_times (arrival_ts anchor) (playout_time anchor)
                      (with_ts (mkTime segment_ts (frequency (rtp_ts p))) p)))) prefix)
    end.

Definition set_flags (start stop : bool) (dd : DependencyDescriptor) : DependencyDescriptor :=
  mkDescriptor start stop (template_id dd) (frame_number dd) (attached_structure dd) (active_decode_targets dd)
    (fields dd) (frame_dependencies dd) (resolution dd).

(** One turn of [rewrite_replay_frame_boundaries]; [b & !0b1100_0000] keeps the low six bits. *)
Definition rewrite_boundary (anchor_dd : DependencyDescriptor) (prefix_len last index : nat) (p : RtpPacket) : RtpPacket :=
  let start := (index =? 0)%nat in
  let stop := (index =? last)%nat in
  let p := with_bounds start stop p in
  let rewrite_dd p :=
    match dependency_descriptor (ext_vals p) with
    | None => p
    | Some existing =>
        let dd := if (index <? prefix_len)%nat then anchor_dd else existing in
        with_ext (set_descriptor (set_flags start stop dd) (ext_vals p)) p
    end in
  match raw_dependency_descriptor (ext_vals p) with
  | None => rewrite_dd p
  | Some [] => p
  | Some (flags :: raw) =>
      let flags := Z.lor (Z.lor (Z.land flags 0x3F) (if start then 0x80 else 0)) (if stop then 0x40 else 0) in
      rewrite_dd (with_ext (set_raw_descriptor (flags :: raw) (ext_vals p)) p)
  end.

Definition rewrite_replay_frame_boundaries (ps : list RtpPacket) (prefix_len frame_end : nat) : list RtpPacket :=
  match ps !! prefix_len ≫= (fun p => dependency_descriptor (ext_vals p)) with
  | None => ps
  | Some anchor_dd =>
      imap (rewrite_boundary anchor_dd prefix_len (frame_end - 1)) (take frame_end ps) ++ drop frame_end ps
  end.

(** The checks [replay] makes of the segment, in its order. *)
Definition segment_replayable (segment : list RtpPacket) (seg_ts : Z) : bool :=
  existsb is_keyframe segment &&
  match head segment with Some p => is_frame_start p | None => false end &&
  match last segment with Some p => marker p | None => false end &&
  negb (any_pair (fun a b => negb (media_time_eqb (rtp_ts a) (rtp_ts b)) && negb (marker a)) segment) &&
  negb (existsb (fun p => nal_sps (nal p) || nal_pps (nal p) || nal_idr (nal p)) segment &&
        negb (existsb (fun p => nal_idr (nal p)) segment)) &&
  negb (any_pair (fun a b => rtp_ticks b <? rtp_ticks a) segment) &&
  let '(frames, seen) := count_frames segment 0 None in
  negb (MAX_REPLAY_FRAMES <? frames) &&
  negb (MAX_REPLAY_PACKETS_HARD <? length segment)%nat &&
  negb ((1 <? frames) && (MAX_REPLAY_PACKETS <? length segment)%nat) &&
  match head segment with
  | None => false
  | Some p =>
      let span := saturating_sub (default seg_ts seen) seg_ts in
      negb (saturating_mul 64 (frequency (rtp_ts p)) MAX_REPLAY_SPAN_MS `div` 1000 <? span)
  end.

(** [take_while(..).count()] *)
Fixpoint leading (seg_ts : Z) (l : list RtpPacket) : nat :=
  match l with p :: l => if rtp_ticks p =? seg_ts then S (leading seg_ts l) else O | [] => O end.

Definition replay (c : StreamCache) : option (list RtpPacket) :=
  seg_ts ← segment_ts c;
  start ← segment_start_seq c;
  newest ← newest_seq (packets c);
  let segment := contiguous_run (Z.to_nat (newest - start + 1)) (packets c) start in
  if negb (segment_replayable segment seg_ts) then None
  else
    prefix ← (if existsb (fun p => nal_idr (nal p)) segment then parameter_set_prefix c segment seg_ts
              else Some []);
    let out := prefix ++ segment in
    Some (if (0 <? length prefix)%nat
          then rewrite_replay_frame_boundaries out (length prefix) (length prefix + leading seg_ts segment)
          else out).

Definition range_after (c : StreamCache) (cursor : Z) : list RtpPacket :=
  match newest_seq (packets c) with
  | Some newest =>
      if cursor <? newest then
        let lo := Z.max (wrapping_add 64 cursor 1) (saturating_sub newest (CAPACITY - 1)) in
        omap (window_get (packets c)) (seqZ lo (newest - lo + 1))
      else []
  | None => []
  end.

Definition cache_get (c : StreamCache) (seq : Z) : option RtpPacket := window_get (packets c) seq.

Definition cache_clear (c : StreamCache) : StreamCache :=
  mkCache (window_clear (packets c)) None None None None None None.

(** ** [TrackStreamCache] *)

Definition TrackStreamCache : Type := list (SourceEncoding * StreamCache).

Definition track_cache_new : TrackStreamCache := [].
Definition with_encodings (es : list SourceEncoding) : TrackStreamCache := map (fun e => (e, cache_new)) es.

Definition source (tc : TrackStreamCache) (p : RtpPacket) : option SourceEncoding :=
  '(_, e) ← list_find (fun e => encoding_matches e (ssrc p) (rid (ext_vals p)) = true) (map fst tc); Some e.

Definition encoding (tc : TrackStreamCache) (e : SourceEncoding) : option StreamCache :=
  '(_, ec) ← list_find (fun ec => ec.1 = e) tc; Some ec.2.

(** [encoding_mut(e).push(p)] *)
Definition push_encoding (tc : TrackStreamCache) (e : SourceEncoding) (p : RtpPacket) : TrackStreamCache * bool :=
  match list_find (fun ec => ec.1 = e) tc with
  | Some (pos, ec) => let '(c, stored) := cache_push ec.2 p in (<[pos := (e, c)]> tc, stored)
  | None => let '(c, stored) := cache_push cache_new p in (tc ++ [(e, c)], stored)
  end.

Definition track_push (tc : TrackStreamCache) (p : RtpPacket) : TrackStreamCache * bool :=
  push_encoding tc (Rid (rid (ext_vals p))) p.
