(* ===== verification/CacheLaws.v ===== *)
(** * What the packet cache promises its readers

    The window holds exactly the packets last stored in its slots; a replay is
    ordered, starts where its keyframe starts and never cuts a frame short.
    [serves] collects what the switcher relies on: a cache filled from one
    stream whose timestamps are [clock] of the sequence number. *)

From stdpp Require Import sorting.
From S2P Require Import Prelude Dd Rtp H264 PacketCache.

(** Sequence numbers extend a 16-bit counter; they stay far below [u64]'s end. *)
Definition SEQ_LIMIT : Z := 2 ^ 62.
Definition seq_ok (s : Z) : Prop := 0 <= s < SEQ_LIMIT.

(** ** The window *)

Record window_ok (w : PacketWindow) : Prop := mk_window_ok {
  wo_seqs : length (seqs w) = PACKET_WINDOW_CAPACITY;
  wo_ring : length (ring w) = PACKET_WINDOW_CAPACITY;
  wo_slots : forall i p, ring w !! i = Some (Some p) -> seqs w !! i = Some (seq_no p) /\ slot_of (seq_no p) = i;
  wo_newest : forall i p, ring w !! i = Some (Some p) -> exists n, newest_seq w = Some n /\ seq_no p <= n;
}.

Lemma window_slot_mod s : slot_of s = Z.to_nat (s `mod` CAPACITY).
Proof. unfold slot_of, PACKET_WINDOW_MASK. change CAPACITY with (2 ^ 9). by rewrite land_ones_mod by lia. Qed.

Lemma slot_of_lt s : (slot_of s < PACKET_WINDOW_CAPACITY)%nat.
Proof.
  rewrite window_slot_mod. pose proof (Z.mod_pos_bound s CAPACITY). unfold CAPACITY, PACKET_WINDOW_CAPACITY in *. lia.
Qed.

Lemma window_new_ok : window_ok window_new.
Proof.
  split; try done; intros i p; unfold window_new; cbn [ring]; intros [E _]%lookup_replicate_1; discriminate.
Qed.

Lemma window_get_inv w s p :
  window_get w s = Some p -> seqs w !! slot_of s = Some s /\ ring w !! slot_of s = Some (Some p).
Proof.
  unfold window_get. case_bool_decide as E; [|done]. destruct (ring w !! slot_of s) as [[q|]|]; cbn; try done.
  intros [= ->]. done.
Qed.

Lemma window_get_seq w s p : window_ok w -> window_get w s = Some p -> seq_no p = s.
Proof.
  intros Hw [E1 E2]%window_get_inv. destruct (wo_slots _ Hw _ _ E2) as [E3 _]. congruence.
Qed.

Lemma window_get_newest w s p n :
  window_ok w -> window_get w s = Some p -> newest_seq w = Some n -> s <= n.
Proof.
  intros Hw Hg Hn. pose proof (window_get_seq w s p Hw Hg) as <-. apply window_get_inv in Hg as [_ E].
  destruct (wo_newest _ Hw _ _ E) as (n' & En & Hle). congruence.
Qed.

(** What a push leaves at every sequence number. *)
Lemma window_push_spec w p w' :
  window_ok w -> window_push w p = (w', true) ->
  window_ok w' /\
  newest_seq w' = Some (match newest_seq w with Some n => Z.max n (seq_no p) | None => seq_no p end) /\
  (forall n, newest_seq w = Some n -> n < wrapping_add 64 (seq_no p) CAPACITY) /\
  forall s, window_get w' s =
    if decide (s = seq_no p) then Some p
    else if decide (slot_of s = slot_of (seq_no p)) then None else window_get w s.
Proof.
  intros Hw. unfold window_push. destruct (match newest_seq w with Some n => _ | None => _ end) eqn:Eold; [done|].
  pose proof (slot_of_lt (seq_no p)) as Hs. destruct (_ && _) eqn:Eb; [|done]. clear Eb. intros [= <-].
  pose proof (wo_seqs _ Hw) as L1. pose proof (wo_ring _ Hw) as L2. split_and!; [|done| |].
  - split; cbn [seqs ring newest_seq]; rewrite ?length_insert; try done.
    + intros i q Hq. destruct (decide (i = slot_of (seq_no p))) as [->|Hne].
      * rewrite list_lookup_insert_eq in Hq by lia. injection Hq as <-. by rewrite list_lookup_insert_eq by lia.
      * rewrite list_lookup_insert_ne in Hq by done. rewrite list_lookup_insert_ne by done. by apply (wo_slots _ Hw).
    + intros i q Hq. eexists. split; [done|]. destruct (decide (i = slot_of (seq_no p))) as [->|Hne].
      * rewrite list_lookup_insert_eq in Hq by lia. injection Hq as <-. destruct (newest_seq w); lia.
      * rewrite list_lookup_insert_ne in Hq by done. destruct (wo_newest _ Hw _ _ Hq) as (n & -> & Hle). lia.
  - intros n En. rewrite En in Eold. apply Z.leb_gt in Eold. lia.
  - intros s. unfold window_get. cbn [seqs ring]. destruct (decide (s = seq_no p)) as [->|Hne].
    + rewrite !list_lookup_insert_eq by lia. by rewrite bool_decide_true.
    + destruct (decide (slot_of s = slot_of (seq_no p))) as [E|Hslot].
      * rewrite E, !list_lookup_insert_eq by lia. rewrite bool_decide_false; [done|]. intros [= ?]. congruence.
      * by rewrite !list_lookup_insert_ne by done.
Qed.

Lemma window_push_refused w p w' : window_push w p = (w', false) -> w' = w.
Proof. unfold window_push. repeat case_match; congruence. Qed.

(** ** Pushing a run of packets *)

Fixpoint window_push_all (w : PacketWindow) (ps : list RtpPacket) : PacketWindow :=
  match ps with [] => w | p :: ps => window_push_all (window_push w p).1 ps end.

(** The packet a slot holds: the last one stored there. *)
Fixpoint slot_history (n : option Z) (ps : list RtpPacket) (i : nat) (cur : option RtpPacket) : option RtpPacket :=
  match ps with
  | [] => cur
  | p :: ps =>
      if match n with Some n => wrapping_add 64 (seq_no p) CAPACITY <=? n | None => false end
      then slot_history n ps i cur
      else slot_history (Some (match n with Some n => Z.max n (seq_no p) | None => seq_no p end)) ps i
             (if decide (slot_of (seq_no p) = i) then Some p else cur)
  end.

Lemma window_push_stored w p :
  window_ok w ->
  (window_push w p).2 =
  negb (match newest_seq w with Some n => wrapping_add 64 (seq_no p) CAPACITY <=? n | None => false end).
Proof.
  intros Hw. unfold window_push. destruct (match newest_seq w with Some n => _ | None => _ end); [done|].
  pose proof (slot_of_lt (seq_no p)). rewrite (wo_ring _ Hw), (wo_seqs _ Hw).
  rewrite (proj2 (Nat.ltb_lt _ _)) by lia. done.
Qed.

Definition if_seq (s : Z) (o : option RtpPacket) : option RtpPacket :=
  p ← o; if decide (seq_no p = s) then Some p else None.

Lemma window_push_all_history w ps s cur :
  window_ok w -> window_get w s = if_seq s cur ->
  window_get (window_push_all w ps) s = if_seq s (slot_history (newest_seq w) ps (slot_of s) cur).
Proof.
  revert w cur. induction ps as [|p ps IH]; intros w cur Hw Hc; cbn [window_push_all slot_history]; [done|].
  pose proof (window_push_stored w p Hw) as Hst. destruct (window_push w p) as [w' st] eqn:Ep. cbn [snd fst] in *.
  destruct (match newest_seq w with Some n => _ | None => _ end); subst st; cbn [negb] in Ep.
  - apply window_push_refused in Ep as ->. by apply IH.
  - destruct (window_push_spec w p w' Hw Ep) as (Hw' & En & _ & Hg). rewrite <- En. apply IH; [done|]. rewrite Hg.
    rewrite Hc. unfold if_seq. destruct (decide (slot_of (seq_no p) = slot_of s)) as [E|Hne].
    + cbn. repeat case_decide; congruence.
    + rewrite !decide_False by congruence. done.
Qed.

(** The packet window answers for a sequence number exactly when the last
    packet stored in its slot has that number: a lookup never returns a packet
    of another lap, and a packet is available until its slot is reused. *)
Theorem packet_window_exact ps s :
  window_get (window_push_all window_new ps) s = if_seq s (slot_history None ps (slot_of s) None).
Proof.
  apply window_push_all_history; [apply window_new_ok|]. unfold window_get, window_new. cbn [seqs ring].
  rewrite (lookup_replicate_2 PACKET_WINDOW_CAPACITY None) by apply slot_of_lt. by case_bool_decide.
Qed.

(** ** A cache fed by one stream *)

(** A stream as its sender sends it: the timestamp and the NAL units of each
    sequence number. *)
Record Source := mkSource { clock : Z -> Z; units : Z -> Z }.

Section Stream.
Context (src : Source).

Definition of_stream (p : RtpPacket) : Prop :=
  seq_ok (seq_no p) /\ rtp_ticks p = clock src (seq_no p) /\ 0 <= rtp_ticks p < 2 ^ 62 /\
  frequency (rtp_ts p) = VIDEO_FREQUENCY /\ nal p = units src (seq_no p).

Record cache_ok (c : StreamCache) : Prop := mk_cache_ok {
  co_window : window_ok (packets c);
  co_stored : forall s p, window_get (packets c) s = Some p -> of_stream p;
  co_newest : forall n, newest_seq (packets c) = Some n -> seq_ok n;
  co_sps : forall p, sps c = Some p -> of_stream p /\ nal_sps (nal p) = true;
  co_pps : forall p, pps c = Some p -> of_stream p /\ nal_pps (nal p) = true;
  co_segment : forall start, segment_start_seq c = Some start ->
    exists p n, window_get (packets c) start = Some p /\ segment_ts c = Some (rtp_ticks p) /\
                newest_seq (packets c) = Some n /\ n < start + CAPACITY;
  co_no_segment : segment_start_seq c = None -> segment_ts c = None;
}.

Lemma cache_new_ok : cache_ok cache_new.
Proof.
  split; cbn; try done; [apply window_new_ok|]. intros s p [_ E]%window_get_inv.
  cbn [ring window_new] in E. apply lookup_replicate_1 in E as [E _]. discriminate.
Qed.

Lemma walk_back_spec fuel w frame_ts start p :
  window_get w start = Some p -> rtp_ticks p = frame_ts ->
  exists q, window_get w (walk_back fuel w frame_ts start) = Some q /\ rtp_ticks q = frame_ts /\
            walk_back fuel w frame_ts start <= start.
Proof.
  revert start p. induction fuel as [|fuel IH]; intros start p Hg Ht; cbn [walk_back]; [eauto with lia|].
  unfold checked_sub. destruct (start - 1 <? 0); [eauto with lia|].
  destruct (window_get w (start - 1)) as [q|] eqn:Eq; [|eauto with lia].
  destruct (Z.eqb_spec (rtp_ticks q) frame_ts) as [E|]; [|eauto with lia].
  destruct (IH (start - 1) q Eq E) as (q' & Hq' & Et & Hle). exists q'. split_and!; [done|done|lia].
Qed.

Lemma wrap_capacity s : seq_ok s -> wrapping_add 64 s CAPACITY = s + CAPACITY.
Proof. intros [? ?]. unfold SEQ_LIMIT in *. apply wrap_small. unfold fits, CAPACITY. lia. Qed.

(** The segment's head stays in its slot as long as the segment is kept. *)
Lemma segment_survives c w' p start q n :
  cache_ok c -> of_stream p -> window_push (packets c) p = (w', true) ->
  window_get (packets c) start = Some q -> newest_seq (packets c) = Some n -> n < start + CAPACITY ->
  seq_no p < start + CAPACITY ->
  exists q', window_get w' start = Some q' /\ rtp_ticks q' = rtp_ticks q.
Proof.
  intros Hc Hp Hpush Hq En Hn Hlt. pose proof (co_window _ Hc) as Hw.
  destruct (window_push_spec _ _ _ Hw Hpush) as (_ & _ & Hold & Hg). specialize (Hold n En).
  destruct Hp as (Hs & Et & _). rewrite wrap_capacity in Hold by done. rewrite Hg.
  pose proof (window_get_seq _ _ _ Hw Hq) as Eq. destruct (co_stored _ Hc _ _ Hq) as (Hs' & Et' & _).
  pose proof (window_get_newest _ _ _ _ Hw Hq En).
  destruct (decide (start = seq_no p)) as [->|Hne]; [exists p; split; [done|congruence]|].
  rewrite decide_False; [by exists q|]. rewrite !window_slot_mod. unfold seq_ok, CAPACITY in *. dlia.
Qed.

Lemma note_parameter_sets_ok c p :
  cache_ok c -> of_stream p ->
  cache_ok (note_parameter_sets c p) /\ packets (note_parameter_sets c p) = packets c /\
  segment_start_seq (note_parameter_sets c p) = segment_start_seq c /\
  segment_ts (note_parameter_sets c p) = segment_ts c.
Proof.
  intros [H1 H2 H3 H4 H5 H6 H7] Hp. unfold note_parameter_sets. cbv zeta.
  destruct (nal_sps (nal p) && _) eqn:E1; destruct (nal_pps (nal p) && _) eqn:E2;
    try (apply andb_true_iff in E1 as [E1 _]); try (apply andb_true_iff in E2 as [E2 _]);
    split_and!; try done; split; cbn; try done; intros ? [= <-]; done.
Qed.

Lemma cache_push_ok c p : cache_ok c -> of_stream p -> cache_ok (cache_push c p).1.
Proof.
  intros Hc0 Hp. unfold cache_push. destruct (note_parameter_sets_ok c p Hc0 Hp) as (Hc & Ep & Es & Et).
  set (c1 := note_parameter_sets c p) in *. clearbody c1. clear Hc0 Ep Es Et c.
  destruct (window_push (packets c1) p) as [w stored] eqn:Epush. destruct stored; [|done]. cbn [negb].
  destruct (window_push_spec _ _ _ (co_window _ Hc) Epush) as (Hw & En & Hold & Hg).
  assert (forall s q, window_get w s = Some q -> of_stream q) as Hst.
  { intros s q. rewrite Hg. repeat case_decide; try congruence. apply (co_stored _ Hc). }
  assert (forall n, newest_seq w = Some n -> seq_ok n) as Hnew.
  { intros n. rewrite En. intros [= <-]. destruct Hp as [? _]. destruct (newest_seq (packets c1)) eqn:E; [|done].
    pose proof (co_newest _ Hc _ E). unfold seq_ok in *. lia. }
  set (c2 := mkCache w _ _ _ _ _ _). set (c3 := if _ && _ then _ else c2).
  assert (packets c3 = w /\ sps c3 = sps c1 /\ pps c3 = pps c1) as (Ew & Esps & Epps) by (unfold c3; by destruct (_ && _)).
  assert (forall start, segment_start_seq c3 = Some start -> forall n, newest_seq w = Some n -> n < start + CAPACITY ->
    exists q, window_get w start = Some q /\ segment_ts c3 = Some (rtp_ticks q)) as Hseg.
  { unfold c3. destruct (_ && _) eqn:Eo; cbn -[walk_back].
    - intros start [= <-] n _ _. destruct (walk_back_spec PACKET_WINDOW_CAPACITY w (rtp_ticks p) (seq_no p) p) as (q & Hq & Etq & _);
        [by rewrite Hg, decide_True|done|]. exists q. by rewrite Etq.
    - intros start Es n Enw Hlt. destruct (co_segment _ Hc _ Es) as (q & n0 & Hq & Et & En0 & Hn0).
      rewrite En, En0 in Enw. injection Enw as <-.
      destruct (segment_survives c1 w p start q n0 Hc Hp Epush Hq En0 Hn0 ltac:(lia)) as (q' & Hq' & Etq).
      exists q'. by rewrite Etq. }
  assert (segment_start_seq c3 = None -> segment_ts c3 = None) as Hnone.
  { unfold c3. destruct (_ && _); [done|]. apply (co_no_segment _ Hc). }
  assert (forall start, segment_start_seq c3 = Some start -> seq_ok start) as Hstart.
  { unfold c3. destruct (_ && _) eqn:Eo; cbn -[walk_back].
    - intros start [= <-]. destruct (walk_back_spec PACKET_WINDOW_CAPACITY w (rtp_ticks p) (seq_no p) p) as (q & Hq & _ & _);
        [by rewrite Hg, decide_True|done|]. pose proof (window_get_seq _ _ _ Hw Hq) as Eq. apply Hst in Hq as [Hq _].
      rewrite Eq in Hq. exact Hq.
    - intros start Es. destruct (co_segment _ Hc _ Es) as (q & n0 & Hq & _).
      pose proof (window_get_seq _ _ _ (co_window _ Hc) Hq) as <-. by apply (co_stored _ Hc) in Hq as [? _]. }
  clearbody c3. cbn [fst]. assert (exists n, newest_seq w = Some n) as [n En'] by (rewrite En; eauto).
  assert (forall r, (packets r = w /\ sps r = sps c1 /\ pps r = pps c1) ->
    (forall start, segment_start_seq r = Some start ->
       n < start + CAPACITY /\ exists q, window_get w start = Some q /\ segment_ts r = Some (rtp_ticks q)) ->
    (segment_start_seq r = None -> segment_ts r = None) -> cache_ok r) as Hmk.
  { intros r (E1 & E2 & E3) Hs Hns. split; rewrite ?E1, ?E2, ?E3; try done; [apply (co_sps _ Hc)|apply (co_pps _ Hc)|].
    intros start Es. destruct (Hs start Es) as (Hlt & q & Hq & Et). by exists q, n. }
  rewrite En'. destruct (segment_start_seq c3) as [start|] eqn:Estart.
  - pose proof (Hstart _ eq_refl) as Hso. rewrite wrap_capacity by done. destruct (Z.leb_spec (start + CAPACITY) n).
    + by apply Hmk.
    + apply Hmk; [done| |by rewrite Estart]. intros st Est. rewrite Estart in Est. injection Est as <-.
      split; [done|]. by apply (Hseg start eq_refl n).
  - apply Hmk; [done|by rewrite Estart|by intros; apply Hnone].
Qed.

(** ** Reading *)

Lemma get_of_stream c s p : cache_ok c -> cache_get c s = Some p -> seq_no p = s /\ of_stream p.
Proof.
  intros Hc Hg. split; [by eapply window_get_seq; [apply (co_window _ Hc)|]|by eapply co_stored].
Qed.

Lemma omap_get_sorted w lo n :
  window_ok w -> StronglySorted Z.lt (map seq_no (omap (window_get w) (seqZ lo n))) /\
  Forall (fun p => lo <= seq_no p) (omap (window_get w) (seqZ lo n)).
Proof.
  intros Hw. destruct (Z.leb_spec 0 n) as [Hn|Hn]; [|rewrite seqZ_nil by lia; repeat constructor].
  revert lo. pattern n. apply natlike_ind; [|clear n Hn; intros n Hn IH lo|done].
  { intros lo. rewrite seqZ_nil by lia. repeat constructor. }
  rewrite seqZ_cons by lia. rewrite Z.pred_succ. cbn [omap list_omap]. destruct (IH (Z.succ lo)) as [H1 H2].
  destruct (window_get w lo) as [p|] eqn:Eg.
  - pose proof (window_get_seq _ _ _ Hw Eg) as Es. split.
    + cbn [map]. constructor; [done|]. rewrite Forall_map. eapply Forall_impl; [exact H2|]. intros q Hq. cbn in *. lia.
    + constructor; [lia|]. eapply Forall_impl; [exact H2|]. intros q Hq. cbn in *. lia.
  - split; [done|]. eapply Forall_impl; [exact H2|]. intros q Hq. cbn in *. lia.
Qed.

Lemma range_after_sorted c cursor :
  cache_ok c -> seq_ok cursor ->
  StronglySorted Z.lt (cursor :: map seq_no (range_after c cursor)) /\ Forall of_stream (range_after c cursor).
Proof.
  intros Hc Hcur. unfold range_after. destruct (newest_seq (packets c)) as [n|]; [|by repeat constructor].
  destruct (cursor <? n); [|by repeat constructor]. cbv zeta.
  assert (wrapping_add 64 cursor 1 = cursor + 1) as -> by (apply wrap_small; unfold fits, seq_ok, SEQ_LIMIT in *; lia).
  set (lo := Z.max _ _). destruct (omap_get_sorted (packets c) lo (n - lo + 1) (co_window _ Hc)) as [H1 H2]. split.
  - constructor; [done|]. rewrite Forall_map. eapply Forall_impl; [exact H2|]. intros q Hq. cbn in *. lia.
  - apply Forall_forall. intros q Hq. apply list_elem_of_omap in Hq as (x & _ & Hx). by eapply co_stored.
Qed.

(** Neighbours in order; a frame that ends, ends with its marker. *)
Definition linked (l : list RtpPacket) : Prop :=
  forall i a b, l !! i = Some a -> l !! S i = Some b ->
  rtp_ticks a <= rtp_ticks b /\ (rtp_ticks a < rtp_ticks b -> marker a = true).

Lemma any_pair_false f l i a b : any_pair f l = false -> l !! i = Some a -> l !! S i = Some b -> f a b = false.
Proof.
  revert i. induction l as [|x [|y l] IH]; intros i Hf Ha Hb; [done|by destruct i|].
  cbn in Hf. apply orb_false_iff in Hf as [H1 H2]. destruct i as [|i]; [cbn in *; congruence|]. by apply (IH i).
Qed.

Lemma contiguous_run_spec turns w start n :
  window_ok w -> newest_seq w = Some n -> seq_ok n -> 0 <= start ->
  forall k p, contiguous_run turns w start !! k = Some p -> window_get w (start + Z.of_nat k) = Some p.
Proof.
  intros Hw En Hn. revert start. induction turns as [|turns IH]; intros start Hs k p; cbn [contiguous_run]; [done|].
  destruct (window_get w start) as [q|] eqn:Eg; [|done].
  pose proof (window_get_newest _ _ _ _ Hw Eg En). destruct k as [|k]; cbn; [intros [= <-]; by rewrite Z.add_0_r|].
  replace (saturating_add 64 start 1) with (start + 1) by (unfold saturating_add, umax, seq_ok, SEQ_LIMIT in *; lia).
  intros Hk. rewrite <- (IH (start + 1) ltac:(lia) k p Hk). f_equal. lia.
Qed.

Lemma leading_spec seg_ts l k p : (k < leading seg_ts l)%nat -> l !! k = Some p -> rtp_ticks p = seg_ts.
Proof.
  revert k. induction l as [|x l IH]; intros k Hk Hp; [done|]. cbn [leading] in Hk.
  destruct (Z.eqb_spec (rtp_ticks x) seg_ts); [|lia]. destruct k as [|k]; cbn in Hp; [congruence|]. apply (IH k); [lia|done].
Qed.

(** A segment that passes [replay]'s checks. *)
Lemma replayable_linked seg seg_ts :
  Forall of_stream seg -> segment_replayable seg seg_ts = true -> linked seg.
Proof.
  intros Hf Hr. unfold segment_replayable in Hr. destruct (count_frames seg 0 None). rewrite !andb_true_iff, !negb_true_iff in Hr.
  destruct Hr as [[[[[[_ _] _] Hm] _] Hmono] _]. intros i a b Ha Hb.
  pose proof (any_pair_false _ _ _ _ _ Hm Ha Hb) as H1. pose proof (any_pair_false _ _ _ _ _ Hmono Ha Hb) as H2. cbv beta in *.
  apply Z.ltb_ge in H2. split; [done|]. intros Hlt. unfold media_time_eqb, saturating_mul, umax in H1.
  pose proof (Forall_lookup_1 _ _ _ _ Hf Ha) as (_ & _ & Ba & Fa & _). pose proof (Forall_lookup_1 _ _ _ _ Hf Hb) as (_ & _ & Bb & Fb & _).
  unfold numer in *. rewrite Fa, Fb in H1. unfold VIDEO_FREQUENCY in H1.
  destruct (marker a); [done|]. rewrite andb_true_r in H1. apply negb_false_iff, Z.eqb_eq in H1. lia.
Qed.

Lemma prefix_ticks c seg seg_ts prefix :
  parameter_set_prefix c seg seg_ts = Some prefix -> Forall (fun p => rtp_ticks p = seg_ts) prefix.
Proof.
  unfold parameter_set_prefix. destruct (_ && _); [intros [= <-]; constructor|]. destruct seg as [|anchor seg]; [done|].
  intros H. apply bind_Some in H as (p1 & _ & H). apply bind_Some in H as (p2 & _ & H). injection H as <-.
  apply Forall_forall. intros p Hp. apply elem_of_lookup_imap in Hp as (i & q & -> & _). done.
Qed.

Lemma rewrite_boundary_keeps dd n k i p :
  seq_no (rewrite_boundary dd n k i p) = seq_no p /\ rtp_ts (rewrite_boundary dd n k i p) = rtp_ts p /\
  marker (rewrite_boundary dd n k i p) = (i =? k)%nat.
Proof. unfold rewrite_boundary. repeat case_match; done. Qed.

(** Rewriting the frame boundaries changes neither order nor timestamps, and
    marks the end of the rewritten frame and nothing before it. *)
Lemma rewrite_boundaries_spec ps n frame_end :
  (frame_end <= length ps)%nat ->
  let out := rewrite_replay_frame_boundaries ps n frame_end in
  out = ps \/
  (length out = length ps /\
   forall i p, out !! i = Some p -> exists q, ps !! i = Some q /\ seq_no p = seq_no q /\ rtp_ts p = rtp_ts q /\
     ((i < frame_end)%nat -> marker p = (i =? frame_end - 1)%nat) /\ ((frame_end <= i)%nat -> p = q)).
Proof.
  intros Hle out. unfold out, rewrite_replay_frame_boundaries. destruct (ps !! n ≫= _) as [dd|]; [|by left]. right. split.
  { rewrite length_app, length_imap, length_take, length_drop. lia. }
  intros i p Hp. apply lookup_app_Some in Hp as [Hp|[Hi Hp]].
  - rewrite list_lookup_imap_Some in Hp. destruct Hp as (q & Hq & ->). apply lookup_take_Some in Hq as [Hq Hlt].
    destruct (rewrite_boundary_keeps dd n (frame_end - 1) i q) as (E1 & E2 & E3). exists q. split_and!; try done. lia.
  - rewrite length_imap, length_take in *. rewrite lookup_drop in Hp. exists p.
    replace (frame_end + (i - (frame_end `min` length ps)))%nat with i in Hp by lia. split_and!; try done. lia.
Qed.

Definition replay_ok (ps : list RtpPacket) : Prop :=
  Forall (fun p => 0 <= rtp_ticks p < 2 ^ 62) ps /\ linked ps /\
  exists p, last ps = Some p /\ seq_ok (seq_no p) /\ rtp_ticks p = clock src (seq_no p).

(** Any list of the prefix, then the segment, then perhaps rewritten. *)
Lemma assembled_ok prefix seg seg_ts out :
  Forall of_stream seg -> linked seg -> seg <> [] ->
  (forall p, seg !! 0%nat = Some p -> rtp_ticks p = seg_ts) ->
  Forall (fun p => rtp_ticks p = seg_ts) prefix ->
  out = rewrite_replay_frame_boundaries (prefix ++ seg) (length prefix) (length prefix + leading seg_ts seg) \/
  out = prefix ++ seg ->
  replay_ok out.
Proof.
  intros Hf Hl Hne Hhead Hpre Hout. destruct seg as [|x seg']; [done|]. set (seg := x :: seg') in *.
  assert (rtp_ticks x = seg_ts) as Hx by by apply Hhead.
  assert (leading seg_ts seg <= length seg)%nat as Hll by (clear; induction seg as [|y l IH]; cbn; [lia|case_match; lia]).
  assert (linked (prefix ++ seg)) as Hlink.
  { intros i a b Ha Hb. apply lookup_app_Some in Hb as [Hb|[Hi Hb]].
    - assert (prefix !! i = Some a) as Ha' by (rewrite lookup_app_l in Ha; [done|apply lookup_lt_Some in Hb; lia]).
      rewrite (Forall_lookup_1 _ _ _ _ Hpre Ha'), (Forall_lookup_1 _ _ _ _ Hpre Hb). lia.
    - apply lookup_app_Some in Ha as [Ha|[Hi' Ha]].
      + apply lookup_lt_Some in Ha as Hlt. replace (S i - length prefix)%nat with 0%nat in Hb by lia.
        rewrite (Forall_lookup_1 _ _ _ _ Hpre Ha), (Hhead _ Hb). lia.
      + replace (S i - length prefix)%nat with (S (i - length prefix)) in Hb by lia. by apply (Hl (i - length prefix)%nat). }
  assert (Forall (fun p => 0 <= rtp_ticks p < 2 ^ 62) (prefix ++ seg)) as Hb.
  { apply Forall_app. split.
    - eapply Forall_impl; [exact Hpre|]. intros p ->. rewrite <- Hx. apply Forall_cons in Hf as [(_ & _ & ? & _) _]. done.
    - eapply Forall_impl; [exact Hf|]. intros p (_ & _ & ? & _). done. }
  assert (exists p, last (prefix ++ seg) = Some p /\ seq_ok (seq_no p) /\ rtp_ticks p = clock src (seq_no p)) as (pl & El & Hpl).
  { destruct (last seg) as [p|] eqn:El; [|by apply last_None in El]. exists p. rewrite last_app, El. split; [done|].
    apply last_Some_elem_of in El. rewrite Forall_forall in Hf. by destruct (Hf _ El) as (? & ? & _). }
  destruct Hout as [Hout| ->]; [|by split_and!; [| |exists pl]].
  destruct (rewrite_boundaries_spec (prefix ++ seg) (length prefix) (length prefix + leading seg_ts seg)) as [E|[Elen Hr]];
    [rewrite length_app; lia| |]; rewrite <- Hout in *; [rewrite E; by split_and!; [| |exists pl]|].
  split_and!.
  - apply Forall_lookup. intros i p Hp. destruct (Hr i p Hp) as (q & Hq & _ & Et & _). rewrite Et.
    exact (Forall_lookup_1 _ _ _ _ Hb Hq).
  - intros i a b Ha Hb'. destruct (Hr i a Ha) as (qa & Hqa & _ & Eta & Hm & Hsame).
    destruct (Hr (S i) b Hb') as (qb & Hqb & _ & Etb & _). rewrite Eta, Etb.
    destruct (Hlink i qa qb Hqa Hqb) as [Hle Hmk]. split; [done|]. intros Hlt.
    destruct (decide (length prefix + leading seg_ts seg <= i)%nat) as [Hge|Hlt']; [rewrite Hsame by done; by apply Hmk|].
    rewrite Hm by lia. apply Nat.eqb_eq. destruct (decide (S i = length prefix + leading seg_ts seg)%nat); [lia|]. exfalso.
    assert (forall j q, (j < length prefix + leading seg_ts seg)%nat -> (prefix ++ seg) !! j = Some q -> rtp_ticks q = seg_ts) as Heq.
    { intros j q Hj Hq. apply lookup_app_Some in Hq as [Hq|[Hj' Hq]]; [exact (Forall_lookup_1 _ _ _ _ Hpre Hq)|].
      eapply leading_spec; [|exact Hq]. lia. }
    rewrite (Heq i qa), (Heq (S i) qb) in Hlt by (done || lia). lia.
  - rewrite last_lookup in El |- *. rewrite Elen. destruct (out !! pred (length (prefix ++ seg))) as [p|] eqn:Ep.
    + exists p. destruct (Hr _ _ Ep) as (q & Hq & Es & Et & _). rewrite El in Hq. injection Hq as <-. by rewrite Es, Et.
    + apply lookup_ge_None in Ep. apply lookup_lt_Some in El. lia.
Qed.

Lemma replay_is_ok c ps : cache_ok c -> replay c = Some ps -> replay_ok ps.
Proof.
  intros Hc H. unfold replay in H. apply bind_Some in H as (seg_ts & Ets & H).
  apply bind_Some in H as (start & Est & H). apply bind_Some in H as (n & En & H).
  destruct (co_segment _ Hc _ Est) as (p0 & n' & Hp0 & Ets' & En' & Hn). rewrite Ets in Ets'. injection Ets' as ->.
  pose proof (co_window _ Hc) as Hw. pose proof (co_newest _ Hc _ En) as Hno.
  pose proof (window_get_newest _ _ _ _ Hw Hp0 En) as Hle. pose proof (window_get_seq _ _ _ Hw Hp0) as Es0.
  assert (0 <= start) as Hs0 by (destruct (co_stored _ Hc _ _ Hp0) as [? _]; unfold seq_ok in *; lia).
  set (seg := contiguous_run _ _ _) in H. destruct (segment_replayable seg (rtp_ticks p0)) eqn:Er; [|done]. cbn [negb] in H.
  assert (Forall of_stream seg) as Hf.
  { apply Forall_lookup. intros k p Hk. eapply co_stored, contiguous_run_spec; [done|exact Hw|exact En|done|exact Hs0|exact Hk]. }
  assert (exists seg', seg = p0 :: seg') as [seg' Eseg].
  { unfold seg. destruct (Z.to_nat (n - start + 1)) as [|k] eqn:Ek; [lia|]. cbn [contiguous_run]. rewrite Hp0. eauto. }
  apply bind_Some in H as (prefix & Epre & H). injection H as H.
  apply (assembled_ok prefix seg (rtp_ticks p0)); try done.
  - by eapply replayable_linked.
  - by rewrite Eseg.
  - intros p. rewrite Eseg. by intros [= ->].
  - destruct (existsb _ seg); [by eapply prefix_ticks|]. injection Epre as <-. constructor.
  - rewrite <- H. case_match; [by left|by right].
Qed.

(** ** A replay can be decoded *)

Lemma rewrite_boundaries_nal ps n k :
  map nal (rewrite_replay_frame_boundaries ps n k) = map nal ps /\
  map is_keyframe (rewrite_replay_frame_boundaries ps n k) = map is_keyframe ps.
Proof.
  unfold rewrite_replay_frame_boundaries. destruct (ps !! n ≫= _) as [dd|]; [|done].
  assert (forall i p, nal (rewrite_boundary dd n (k - 1) i p) = nal p /\
                      is_keyframe (rewrite_boundary dd n (k - 1) i p) = is_keyframe p) as Hb.
  { intros i p. unfold rewrite_boundary. repeat case_match; done. }
  rewrite <- (take_drop k ps) at 3 6. rewrite !map_app. split; f_equal; apply list_eq; intros i;
    rewrite !list_lookup_fmap, list_lookup_imap; destruct (take k ps !! i); cbn; f_equal; apply Hb.
Qed.

Lemma existsb_map_eq {A B} (g : B -> bool) (f : A -> B) l k : map f l = map f k -> existsb (fun x => g (f x)) l = existsb (fun x => g (f x)) k.
Proof.
  revert k. induction l as [|x l IH]; intros [|y k] E; try done. injection E as E1 E2. cbn. by rewrite E1, (IH k E2).
Qed.

Lemma prefix_has_sets c seg seg_ts prefix :
  cache_ok c -> parameter_set_prefix c seg seg_ts = Some prefix ->
  existsb (fun p => nal_sps (nal p)) (prefix ++ seg) = true /\ existsb (fun p => nal_pps (nal p)) (prefix ++ seg) = true /\
  (length prefix <= 2)%nat.
Proof.
  intros Hc. rewrite !List.existsb_app. unfold parameter_set_prefix.
  set (has_sps := existsb (fun p => nal_sps (nal p)) seg). set (has_pps := existsb (fun p => nal_pps (nal p)) seg).
  destruct (negb (negb has_sps) && negb (negb has_pps)) eqn:Eb.
  { rewrite !negb_involutive in Eb. apply andb_true_iff in Eb as [-> ->]. intros [= <-]. cbn. split_and!; [done..|lia]. }
  destruct seg as [|anchor seg']; [done|]. intros H.
  apply bind_Some in H as (p1 & H1 & H). apply bind_Some in H as (p2 & H2 & H). injection H as <-.
  assert ((length p1 <= 1)%nat /\ (has_sps = false -> existsb (fun p => nal_sps (nal p)) p1 = true) /\
          Forall of_stream p1) as (L1 & F1 & O1).
  { destruct has_sps; cbn [negb] in H1; [injection H1 as <-; split_and!; [cbn; lia|done|constructor]|].
    apply bind_Some in H1 as (q & Hq & H1). injection H1 as <-. destruct (co_sps _ Hc _ Hq) as [Hs Hf].
    cbn. rewrite Hf. split_and!; [lia|done|by apply Forall_singleton]. }
  assert ((length p2 <= 2)%nat /\ (has_sps = false -> existsb (fun p => nal_sps (nal p)) p2 = true) /\
          (has_pps = false -> existsb (fun p => nal_pps (nal p)) p2 = true)) as (L2 & F2 & G2).
  { destruct (existsb (fun p => nal_pps (nal p)) p1) eqn:Ep1.
    { cbn [negb] in H2. rewrite andb_false_r in H2. injection H2 as <-. split_and!; [lia|done|done]. }
    destruct has_pps; cbn [negb andb] in H2; [injection H2 as <-; split_and!; [lia|done|done]|].
    apply bind_Some in H2 as (q & Hq & H2). injection H2 as <-. destruct (co_pps _ Hc _ Hq) as [Hs Hf].
    destruct (existsb (fun p => (ssrc p =? ssrc q) && (seq_no p =? seq_no q)) p1) eqn:Ed.
    - exfalso. apply existsb_exists in Ed as (p & Hp & Heq). apply andb_true_iff in Heq as [_ Heq]. apply Z.eqb_eq in Heq.
      rewrite Forall_forall in O1. apply list_elem_of_In in Hp. destruct (O1 _ Hp) as (_ & _ & _ & _ & En).
      destruct Hs as (_ & _ & _ & _ & En'). apply list_elem_of_In in Hp.
      assert (existsb (fun p => nal_pps (nal p)) p1 = true); [|congruence].
      apply existsb_exists. exists p. split; [done|]. by rewrite En, Heq, <- En'.
    - rewrite length_app, !List.existsb_app. cbn. rewrite Hf. split_and!; [lia| |by rewrite orb_true_r].
      intros Hh. by rewrite (F1 Hh). }
  assert (map nal (imap (fun i p => with_seq (saturating_sub (seq_no anchor) (saturating_sub (Z.of_nat (length p2)) (Z.of_nat i)))
     (with_bounds (is_frame_start p) false (with_times (arrival_ts anchor) (playout_time anchor)
        (with_ts (mkTime seg_ts (frequency (rtp_ts p))) p)))) p2) = map nal p2) as Emap.
  { apply list_eq. intros i. rewrite !list_lookup_fmap, list_lookup_imap. by destruct (p2 !! i). }
  rewrite (existsb_map_eq nal_sps nal _ _ Emap), (existsb_map_eq nal_pps nal _ _ Emap), length_imap.
  split_and!; [| |done].
  - destruct has_sps; [apply orb_true_r|]. by rewrite F2.
  - destruct has_pps; [apply orb_true_r|]. by rewrite G2.
Qed.

(** What [replay] promises of its burst. *)
Record decodable (ps : list RtpPacket) : Prop := mk_decodable {
  de_linked : linked ps;
  de_keyframe : existsb is_keyframe ps = true;
  de_complete : exists p, last ps = Some p /\ marker p = true;
  de_bounded : (length ps <= MAX_REPLAY_PACKETS_HARD + 2)%nat;
  de_h264 : existsb (fun p => nal_sps (nal p) || nal_pps (nal p) || nal_idr (nal p)) ps = true ->
    existsb (fun p => nal_idr (nal p)) ps = true /\ existsb (fun p => nal_sps (nal p)) ps = true /\
    existsb (fun p => nal_pps (nal p)) ps = true;
}.

(** The last packet keeps its marker through the rewriting of the first frame. *)
Lemma assembled_complete prefix seg seg_ts out :
  (exists p, last seg = Some p /\ marker p = true) ->
  out = rewrite_replay_frame_boundaries (prefix ++ seg) (length prefix) (length prefix + leading seg_ts seg) \/
  out = prefix ++ seg ->
  exists p, last out = Some p /\ marker p = true.
Proof.
  intros (pl & El & Hm) Hout. assert (last (prefix ++ seg) = Some pl) as Ela by by rewrite last_app, El.
  assert (leading seg_ts seg <= length seg)%nat as Hll by (clear; induction seg as [|y l IH]; cbn; [lia|case_match; lia]).
  destruct Hout as [Hout| ->]; [|by exists pl].
  destruct (rewrite_boundaries_spec (prefix ++ seg) (length prefix) (length prefix + leading seg_ts seg)) as [E|[Elen Hr]];
    [rewrite length_app; lia| |]; rewrite <- Hout in *; [rewrite E; by exists pl|].
  rewrite last_lookup in Ela |- *. rewrite Elen. destruct (out !! pred (length (prefix ++ seg))) as [p|] eqn:Ep.
  2: { apply lookup_ge_None in Ep. apply lookup_lt_Some in Ela. lia. }
  exists p. split; [done|]. destruct (Hr _ _ Ep) as (q & Hq & _ & _ & H1 & H2). rewrite Ela in Hq. injection Hq as <-.
  apply lookup_lt_Some in Ela as Hlt. destruct (decide (length prefix + leading seg_ts seg <= pred (length (prefix ++ seg)))%nat).
  - by rewrite H2 by done.
  - rewrite H1 by lia. apply Nat.eqb_eq. rewrite length_app in *. lia.
Qed.

Lemma replay_decodable c ps : cache_ok c -> replay c = Some ps -> decodable ps.
Proof.
  intros Hc Hr. pose proof (replay_is_ok c ps Hc Hr) as (_ & Hlink & _). unfold replay in Hr.
  apply bind_Some in Hr as (seg_ts & _ & H). apply bind_Some in H as (start & _ & H). apply bind_Some in H as (n & _ & H).
  set (seg := contiguous_run _ _ _) in H. clearbody seg. destruct (segment_replayable seg seg_ts) eqn:Er; [|done]. cbn [negb] in H.
  apply bind_Some in H as (prefix & Epre & H). injection H as H.
  unfold segment_replayable in Er. destruct (count_frames seg 0 None) as [frames seen].
  rewrite !andb_true_iff, !negb_true_iff in Er. destruct Er as [[[[[[Hk _] Hm] _] Hidr] _] [[[_ Hlen] _] _]].
  apply Nat.ltb_ge in Hlen.
  assert (map nal ps = map nal (prefix ++ seg) /\ map is_keyframe ps = map is_keyframe (prefix ++ seg)) as [En Ek].
  { rewrite <- H. case_match; [apply rewrite_boundaries_nal|done]. }
  assert (length ps = (length prefix + length seg)%nat) as El
    by (apply (f_equal length) in En; rewrite !length_map, length_app in En; done).
  destruct (existsb (fun p => nal_idr (nal p)) seg) eqn:Eidr.
  - destruct (prefix_has_sets c seg seg_ts prefix Hc Epre) as (H1 & H2 & H3). split; [done| | |lia|].
    + change (existsb (fun p => id (is_keyframe p)) ps = true). rewrite (existsb_map_eq id is_keyframe _ _ Ek).
      change (existsb is_keyframe (prefix ++ seg) = true). by rewrite List.existsb_app, Hk, orb_true_r.
    + eapply (assembled_complete prefix seg seg_ts); [|rewrite <- H; case_match; [by left|by right]].
      destruct (last seg) as [p|]; [by exists p|done].
    + intros _. rewrite (existsb_map_eq nal_idr nal _ _ En), (existsb_map_eq nal_sps nal _ _ En),
        (existsb_map_eq nal_pps nal _ _ En). by rewrite (List.existsb_app _ prefix seg), Eidr, orb_true_r.
  - injection Epre as <-. cbn [app length] in *. rewrite <- H in *. cbn [Nat.ltb Nat.leb] in *. split; [done|done| |lia|].
    + destruct (last seg) as [p|]; [by exists p|done].
    + intros Hany. rewrite Hany in Hidr. done.
Qed.

End Stream.

(** ** The interface to the switcher *)

(** What a reader of one stream's cache relies on. *)
Record serves (src : Source) (c : StreamCache) : Prop := mk_serves {
  sv_get : forall s p, cache_get c s = Some p -> seq_no p = s /\ of_stream src p;
  sv_range : forall cursor, seq_ok cursor ->
    StronglySorted Z.lt (cursor :: map seq_no (range_after c cursor)) /\ Forall (of_stream src) (range_after c cursor);
  sv_replay : forall ps, replay c = Some ps -> replay_ok src ps;
}.

Lemma cache_serves src c : cache_ok src c -> serves src c.
Proof.
  intros Hc. split; intros.
  - by eapply get_of_stream.
  - by apply range_after_sorted.
  - by eapply replay_is_ok.
Qed.

Lemma encoding_cons e0 c0 tc e' : encoding ((e0, c0) :: tc) e' = if decide (e0 = e') then Some c0 else encoding tc e'.
Proof. unfold encoding. cbn. case_decide; [done|]. by destruct (list_find _ tc) as [[? ?]|]. Qed.

Lemma push_encoding_cons e0 c0 tc e p :
  (push_encoding ((e0, c0) :: tc) e p).1 =
  if decide (e0 = e) then (e, (cache_push c0 p).1) :: tc else (e0, c0) :: (push_encoding tc e p).1.
Proof.
  unfold push_encoding. cbn. case_decide; cbn; [by destruct (cache_push c0 p)|].
  destruct (list_find _ tc) as [[i [e1 c1]]|]; cbn; [by destruct (cache_push c1 p)|by destruct (cache_push cache_new p)].
Qed.

(** Pushing to one encoding of a track leaves the others alone. *)
Lemma encoding_push tc e p e' :
  encoding (push_encoding tc e p).1 e' =
  if decide (e' = e) then Some (cache_push (default cache_new (encoding tc e)) p).1 else encoding tc e'.
Proof.
  induction tc as [|[e0 c0] tc IH].
  - unfold push_encoding. change (list_find _ []) with (@None (nat * (SourceEncoding * StreamCache))).
    destruct (cache_push cache_new p) as [c st] eqn:E. cbn [fst app]. rewrite encoding_cons.
    change (encoding [] e) with (@None StreamCache). cbn [default]. change (default cache_new None) with cache_new. rewrite E.
    repeat case_decide; try congruence; done.
  - rewrite push_encoding_cons, !encoding_cons. destruct (decide (e0 = e)) as [->|Hne]; rewrite encoding_cons, ?IH.
    + repeat case_decide; try congruence. done.
    + repeat case_decide; congruence.
Qed.

Fixpoint push_all (c : StreamCache) (ps : list RtpPacket) : StreamCache :=
  match ps with [] => c | p :: ps => push_all (cache_push c p).1 ps end.

Lemma push_all_ok src c ps : cache_ok src c -> Forall (of_stream src) ps -> cache_ok src (push_all c ps).
Proof.
  intros Hc Hf. revert c Hc. induction Hf as [|p ps Hp _ IH]; intros c Hc; cbn [push_all]; [done|].
  by apply IH, cache_push_ok.
Qed.

(** C16. A burst the cache offers for a switch is one a receiver can start on:
    timestamps never go back, no frame in it is cut short, it holds a keyframe
    and ends on a frame boundary, it is bounded, and if any of it is readable
    H.264 it carries an IDR and both parameter sets. This holds for whatever
    order, loss and duplication the stream's packets arrive with. *)
Theorem replay_is_decodable src ps burst :
  Forall (of_stream src) ps -> replay (push_all cache_new ps) = Some burst -> decodable burst.
Proof. intros Hf Hr. eapply replay_decodable; [|exact Hr]. apply push_all_ok; [apply cache_new_ok|done]. Qed.

(** A small H.264 stream: parameter sets, a two-packet keyframe, a delta. *)
Definition sample_source : Source :=
  mkSource (fun s => if s <? 4 then 3000 else 6000) (fun s => if s =? 1 then 3 else if s =? 2 then 4 else 0).
Definition sample_packet (s : Z) (m key start : bool) : RtpPacket :=
  mkPacket 7 m ext_default s (mkTime (clock sample_source s) VIDEO_FREQUENCY) 0 0 key start (units sample_source s) 0 [].
Definition sample_arrivals : list RtpPacket :=
  [sample_packet 1 false false true; sample_packet 3 true false false; sample_packet 2 false true false;
   sample_packet 2 false true false; sample_packet 4 true false true].

Lemma replay_is_decodable_witness :
  exists burst, replay (push_all cache_new sample_arrivals) = Some burst /\ map seq_no burst = [1; 2; 3; 4] /\ decodable burst.
Proof.
  destruct (replay (push_all cache_new sample_arrivals)) as [burst|] eqn:E.
  - exists burst. split; [reflexivity|]. split.
    + vm_compute in E. injection E as <-. reflexivity.
    + eapply (replay_is_decodable sample_source); [|exact E].
      repeat (apply Forall_cons_2; [vm_compute; repeat split; congruence|]). constructor.
  - vm_compute in E. discriminate E.
Defined.
