(* ===== verification/Switcher.v ===== *)
(** * Switching a subscriber between encodings

    Models [crates/pulsebeam/src/rtp/switcher.rs]: the state machine that
    decides which upstream stream a downstream video slot forwards and rewrites
    its packets so that they read as one continuous sender. The fields of
    [Switcher] are grouped as [stop] groups them: the roles it resets and the
    output stream it keeps. A [BTreeSet<u64>] is a finite set, iterated in
    increasing order; packets given to [emit] are a list, in order. *)

From stdpp Require Import sorting.
From S2P Require Import Prelude Dd Rtp Timeline PacketCache.

Definition millis (n : Z) : Z := n * 1000000.
Definition TAIL_DRAIN_WINDOW : Z := millis 200.
Definition MAX_TRACKED_HOLES : Z := 256.
Definition FRAME_ALIGN_GRACE : Z := millis 15.

(** ** Ordered sets *)

Definition in_order (X : gset Z) : list Z := merge_sort Z.le (elements X).
Definition span (lo hi : Z) : gset Z := list_to_set (seqZ lo (hi - lo)).

(** [while len > MAX_TRACKED_HOLES { remove the lowest }] *)
Definition trim (X : gset Z) : gset Z :=
  let l := in_order X in list_to_set (drop (length l - Z.to_nat MAX_TRACKED_HOLES) l).

Section Switcher.
Context {TrackId : Type} `{!EqDecision TrackId}.

Definition StreamId : Type := TrackId * SourceEncoding.

Record Tail := mkTail {
  tail_seq_base : Z;
  tail_ts_base : Z;
  tail_dd_frame_base : Z;
  expires_at : Z;
  tail_holes : gset Z;
}.

(** What [stop] resets. *)
Record Roles := mkRoles {
  active : option StreamId;
  active_cursor : option Z;
  active_input_holes : gset Z;
  next_expected_input : option Z;
  staging : option StreamId;
  draining : option StreamId;
  switch_blocked_since : option Z;
  tail : option Tail;
}.

(** What it keeps. *)
Record Output := mkOutput {
  last_output : option Z;
  next_expected_output : option Z;
  holes : gset Z;
  last_marker_output : option Z;
  frame_start_output : option Z;
  frame_ts : option Z;
  out_max_ts : option Z;
}.

Record Switcher := mkSwitcher {
  timeline : Timeline;
  selector : DecodeTargetSelection;
  roles : Roles;
  output : Output;
}.

Implicit Types s : Switcher.

Definition no_roles : Roles := mkRoles None None ∅ None None None None None.
Definition switcher_new (rate random : Z) : Switcher :=
  mkSwitcher (timeline_new rate random) Full no_roles (mkOutput None None ∅ None None None None).

Definition with_timeline s (t : Timeline) : Switcher := mkSwitcher t (selector s) (roles s) (output s).
Definition with_roles s (r : Roles) : Switcher := mkSwitcher (timeline s) (selector s) r (output s).
Definition with_output s (o : Output) : Switcher := mkSwitcher (timeline s) (selector s) (roles s) o.

Definition set_input_holes (X : gset Z) (r : Roles) : Roles :=
  mkRoles (active r) (active_cursor r) X (next_expected_input r) (staging r) (draining r)
    (switch_blocked_since r) (tail r).
Definition set_cursor (cursor next : option Z) (r : Roles) : Roles :=
  mkRoles (active r) cursor (active_input_holes r) next (staging r) (draining r) (switch_blocked_since r) (tail r).
Definition set_staging (st : option StreamId) (blocked : option Z) (r : Roles) : Roles :=
  mkRoles (active r) (active_cursor r) (active_input_holes r) (next_expected_input r) st (draining r) blocked (tail r).
Definition set_tail (d : option StreamId) (t : option Tail) (r : Roles) : Roles :=
  mkRoles (active r) (active_cursor r) (active_input_holes r) (next_expected_input r) (staging r) d
    (switch_blocked_since r) t.
Definition set_holes (X : gset Z) (o : Output) : Output :=
  mkOutput (last_output o) (next_expected_output o) X (last_marker_output o) (frame_start_output o) (frame_ts o)
    (out_max_ts o).

Definition switch_to s (target : StreamId) : Switcher :=
  let r := roles s in
  if bool_decide (active r = Some target) then
    match staging r with Some _ => with_roles s (set_staging None None r) | None => s end
  else if bool_decide (staging r = Some target) then s
  else
    let r := if bool_decide (draining r = Some target) then set_tail None None r else r in
    with_roles s (set_staging (Some target) None r).

Definition stop s : Switcher := with_roles s no_roles.
Definition set_decode_target s (t : DecodeTargetSelection) : Switcher :=
  mkSwitcher (timeline s) t (roles s) (output s).

(** [is_none_or] *)
Definition none_or (o : option Z) (f : Z -> bool) : bool := match o with None => true | Some v => f v end.
(** [is_some_and] *)
Definition some_and (o : option Z) (f : Z -> bool) : bool := match o with None => false | Some v => f v end.

Definition newest_frame_left_open (o : Output) : bool :=
  some_and (last_output o) (fun last => negb (bool_decide (last_marker_output o = Some last))).

Definition at_clean_frame_boundary (o : Output) : bool :=
  if newest_frame_left_open o then false
  else bool_decide (set_Forall (fun h => h < default 0 (frame_start_output o)) (holes o)).

Definition note_emitted (o : Output) (seq : Z) (m : bool) (t : Z) : Output :=
  let hs :=
    match next_expected_output o with
    | None => holes o
    | Some expected =>
        if seq =? expected then holes o
        else if expected <? seq then
          if saturating_sub seq expected <=? MAX_TRACKED_HOLES then holes o ∪ span expected seq else holes o
        else holes o ∖ {[seq]}
    end in
  let new_frame := negb (bool_decide (frame_ts o = Some t)) in
  mkOutput
    (if none_or (last_output o) (fun last => last <? seq) then Some seq else last_output o)
    (if none_or (next_expected_output o) (fun e => e <=? seq) then Some (saturating_add 64 seq 1)
     else next_expected_output o)
    (trim hs)
    (if m && none_or (last_marker_output o) (fun last => last <? seq) then Some seq else last_marker_output o)
    (if new_frame then Some seq else frame_start_output o)
    (if new_frame then Some t else frame_ts o)
    (if none_or (out_max_ts o) (fun x => x <? t) then Some t else out_max_ts o).

(** Rewrite by [f], note and emit. *)
Definition emit_with s (f : Timeline -> RtpPacket -> Timeline * RtpPacket) (p : RtpPacket) : Switcher * RtpPacket :=
  let '(t, out) := f (timeline s) p in
  (mkSwitcher t (selector s) (roles s) (note_emitted (output s) (seq_no out) (marker out) (rtp_ticks out)), out).

(** [FrameDecision::Forward] *)
Definition forward_packet s (p : RtpPacket) (output_seq output_ts : Z) : Switcher * list RtpPacket :=
  let o := output s in
  let s :=
    if newest_frame_left_open o && some_and (out_max_ts o) (fun x => x <? output_ts)
       && some_and (last_output o) (fun last => output_seq =? wrapping_add 64 last 1)
    then with_timeline (with_roles s (set_input_holes ∅ (roles s))) (skip_live_sequence (timeline s) 1)
    else s in
  let '(s, out) := emit_with s rewrite_live p in (s, [out]).

(** [FrameDecision::Drop] *)
Definition shed_packet s : Switcher :=
  if at_clean_frame_boundary (output s)
  then with_timeline (with_roles s (set_input_holes ∅ (roles s))) (drop_input (timeline s))
  else s.

(** One packet of the forward pass. *)
Definition pull_packet s (p : RtpPacket) : Switcher * list RtpPacket :=
  let input_seq := seq_no p in
  let output_seq := wrapping_add 64 input_seq (seq_base (timeline s)) in
  let output_ts := wrapping_add 64 (rtp_ticks p) (ts_base (timeline s)) in
  let advances_frontier := none_or (last_output (output s)) (fun last => last <? output_seq) in
  let drop_backward := advances_frontier && some_and (out_max_ts (output s)) (fun m => output_ts <? m) in
  let '(s, emitted) :=
    if drop_backward then (s, [])
    else
      let s :=
        match next_expected_input (roles s) with
        | Some expected =>
            if (expected <? input_seq) && (saturating_sub input_seq expected <=? MAX_TRACKED_HOLES)
            then with_roles s (set_input_holes (trim (active_input_holes (roles s) ∪ span expected input_seq)) (roles s))
            else s
        | None => s
        end in
      match decide_frame (selector s) p with
      | Drop => (shed_packet s, [])
      | Forward => forward_packet s p output_seq output_ts
      end in
  let next := if none_or (next_expected_input (roles s)) (fun e => e <=? input_seq)
              then Some (wrapping_add 64 input_seq 1) else next_expected_input (roles s) in
  (with_roles s (set_cursor (Some input_seq) next (roles s)), emitted).

(** A [for] loop that may emit. *)
Definition emit_each {A} (f : Switcher -> A -> Switcher * list RtpPacket) : list A -> Switcher -> Switcher * list RtpPacket :=
  fix go l s :=
    match l with
    | [] => (s, [])
    | a :: l => let '(s, e1) := f s a in let '(s, e2) := go l s in (s, e1 ++ e2)
    end.

Definition backfill_hole (c : StreamCache) s (input_seq : Z) : Switcher * list RtpPacket :=
  match cache_get c input_seq with
  | None => (s, [])
  | Some p =>
      let '(s, out) := emit_with s rewrite_live p in
      (with_roles s (set_input_holes (active_input_holes (roles s) ∖ {[input_seq]}) (roles s)), [out])
  end.

Definition backfill_active_holes s (c : StreamCache) : Switcher * list RtpPacket :=
  emit_each (backfill_hole c) (in_order (active_input_holes (roles s))) s.

Definition pull_active s (c : StreamCache) : Switcher * list RtpPacket :=
  match active_cursor (roles s) with
  | None => backfill_active_holes s c
  | Some cursor =>
      match range_after c cursor with
      | [] => backfill_active_holes s c
      | l => emit_each pull_packet l s
      end
  end.

Definition may_switch_now s (now : Z) : Switcher * bool :=
  if at_clean_frame_boundary (output s) then (with_roles s (set_staging (staging (roles s)) None (roles s)), true)
  else
    let since := default now (switch_blocked_since (roles s)) in
    (with_roles s (set_staging (staging (roles s)) (Some since) (roles s)),
     FRAME_ALIGN_GRACE <=? saturating_duration_since now since).

Definition open_tail s (now : Z) (reserved : option Z) : Switcher :=
  let t := timeline s in
  let hs : gset Z := set_map (fun i => wrapping_add 64 i (seq_base t)) (active_input_holes (roles s)) in
  let hs := match reserved with Some r => {[r]} ∪ hs | None => hs end in
  with_roles s (set_tail (draining (roles s))
    (Some (mkTail (seq_base t) (ts_base t) (tl_dd_frame_base t)
             (default now (instant_checked_add now TAIL_DRAIN_WINDOW)) hs)) (roles s)).

(** Burn one output sequence number if the newest frame was left open. *)
Definition reserve_hole s : Switcher * option Z :=
  if newest_frame_left_open (output s) then
    match last_output (output s) with
    | Some last =>
        let reserved := wrapping_add 64 last 1 in
        (with_output (with_timeline s (skip_output_sequence (timeline s) 1))
           (set_holes ({[reserved]} ∪ holes (output s)) (output s)), Some reserved)
    | None => (s, None)
    end
  else (s, None).

(** The staged stream becomes active; the old one drains. *)
Definition promote s (new_cursor : Z) : Switcher :=
  let r := roles s in
  mkSwitcher (timeline s) Full
    (mkRoles (staging r) (Some new_cursor) ∅ (Some (wrapping_add 64 new_cursor 1)) None (active r) None (tail r))
    (output s).

Definition burst_packet s (p : RtpPacket) : Switcher * list RtpPacket :=
  let '(s, out) := emit_with s rewrite_sequential p in (s, [out]).

Definition try_switch s (c : StreamCache) (now : Z) : Switcher * list RtpPacket :=
  let '(s, may) := may_switch_now s now in
  if negb may then (s, [])
  else
    match replay c with
    | None => (s, [])
    | Some ps =>
        match ps, last ps with
        | first :: _, Some p =>
            let new_cursor := seq_no p in
            let '(s, reserved) := reserve_hole s in
            let s := match active (roles s) with Some _ => open_tail s now reserved | None => s end in
            let s := promote s new_cursor in
            let s := with_timeline s (rebase (timeline s) first) in
            let '(s, emitted) := emit_each burst_packet ps s in
            (with_timeline s (resync_to_input (timeline s) new_cursor), emitted)
        | _, _ => (s, [])
        end
    end.

(** One hole of the tail. The packet is not noted: it is behind the output. *)
Definition drain_hole (c : StreamCache) (tl : Tail) s (output_seq : Z) : Switcher * list RtpPacket :=
  match cache_get c (wrapping_sub 64 output_seq (tail_seq_base tl)) with
  | None => (s, [])
  | Some p =>
      let out := translate_dd_frame (tail_dd_frame_base tl)
                   (with_ts (mkTime (wrapping_add 64 (rtp_ticks p) (tail_ts_base tl)) (frequency (rtp_ts p)))
                      (with_seq output_seq p)) in
      let r := roles s in
      let r := match tail r with
               | Some t => set_tail (draining r) (Some (mkTail (tail_seq_base t) (tail_ts_base t)
                             (tail_dd_frame_base t) (expires_at t) (tail_holes t ∖ {[output_seq]}))) r
               | None => r
               end in
      (with_output (with_roles s r) (set_holes (holes (output s) ∖ {[output_seq]}) (output s)), [out])
  end.

Definition drain_tail s (c : StreamCache) (now : Z) : Switcher * list RtpPacket :=
  match tail (roles s) with
  | None => (with_roles s (set_tail None None (roles s)), [])
  | Some tl =>
      if expires_at tl <=? now then (with_roles s (set_tail None None (roles s)), [])
      else
        let '(s, emitted) := emit_each (drain_hole c tl) (in_order (tail_holes tl)) s in
        (match tail (roles s) with
         | Some t => if bool_decide (tail_holes t = ∅) then with_roles s (set_tail None None (roles s)) else s
         | None => s
         end, emitted)
  end.

(** The cache a role reads: its encoding's, if it belongs to this track. *)
Definition role_cache (track : TrackId) (tc : TrackStreamCache) (role : option StreamId) : option StreamCache :=
  match role with
  | Some (t, e) => if bool_decide (t = track) then encoding tc e else None
  | None => None
  end.

Definition feed s (track : TrackId) (tc : TrackStreamCache) (now : Z) : Switcher * list RtpPacket :=
  let '(s, e1) := match role_cache track tc (active (roles s)) with
                  | Some c => pull_active s c | None => (s, []) end in
  let '(s, e2) := match role_cache track tc (draining (roles s)) with
                  | Some c => drain_tail s c now | None => (s, []) end in
  let '(s, e3) := match role_cache track tc (staging (roles s)) with
                  | Some c => try_switch s c now | None => (s, []) end in
  (s, e1 ++ e2 ++ e3).

End Switcher.
