(* ===== verification/EgressGuard.v ===== *)
(** * The guard on what a subscriber receives

    Models [crates/pulsebeam/src/rtp/egress_guard.rs]: the checks the server
    makes, in debug and simulation builds, of every packet it hands to a
    subscriber. The guard is the specification of the forwarding path: the
    theorems here characterise it and those of [SwitcherEgress] show that the
    switcher keeps it silent. *)

From S2P Require Import Prelude.

Definition HISTORY : nat := 1024.

Inductive MediaKind := KindAudio | KindVideo.

Inductive EgressViolation :=
| SequenceCollision (seq ts previous_ts : Z)
| TimestampWentBackwards (ts previous : Z)
| ReusedTimestamp (ts : Z)
| TruncatedFrameLooksComplete (ts next_ts : Z).

Record StreamHistory := mkHistory {
  max_seq : option Z;
  h_seqs : gmap Z Z;
  seq_order : list Z;
  timestamps : gset Z;
  ts_order : list Z;
  frontier_ts : option Z;
  frontier_seq : option Z;
  frontier_closed : bool;
}.

Definition history_default : StreamHistory := mkHistory None ∅ [] ∅ [] None None false.

(** [push_back], and the oldest is dropped when there are more than [HISTORY]. *)
Definition push_bounded (l : list Z) (x : Z) : list Z * option Z :=
  let l := l ++ [x] in
  if (HISTORY <? length l)%nat then match l with old :: l' => (l', Some old) | [] => (l, None) end else (l, None).

(** [Option::get_or_insert] *)
Definition or_insert (v : option EgressViolation) (x : EgressViolation) : option EgressViolation :=
  match v with Some y => Some y | None => Some x end.

(** The part of [check] for a packet that advances the stream. *)
Definition check_advance (h : StreamHistory) (seq ts : Z) (marker : bool) (kind : MediaKind)
    (violation : option EgressViolation) : StreamHistory * option EgressViolation :=
  let violation :=
    match kind, frontier_ts h, frontier_seq h with
    | KindVideo, Some frontier, Some fseq =>
        if (frontier <? ts) && negb (frontier_closed h) && (seq =? wrapping_add 64 fseq 1)
        then or_insert violation (TruncatedFrameLooksComplete frontier ts) else violation
    | _, _, _ => violation
    end in
  let '(stamps, violation) :=
    match frontier_ts h with
    | Some frontier =>
        if ts <? frontier then (timestamps h, or_insert violation (TimestampWentBackwards ts frontier))
        else if frontier <? ts then
          ({[ts]} ∪ timestamps h,
           if bool_decide (ts ∈ timestamps h) then or_insert violation (ReusedTimestamp ts) else violation)
        else (timestamps h, violation)
    | None => ({[ts]} ∪ timestamps h, violation)
    end in
  if match frontier_ts h with None => true | Some frontier => frontier <? ts end then
    let '(order, old) := push_bounded (ts_order h) ts in
    let stamps := match old with Some o => stamps ∖ {[o]} | None => stamps end in
    (mkHistory (max_seq h) (h_seqs h) (seq_order h) stamps order (Some ts) (Some seq) marker, violation)
  else
    let closed := if bool_decide (frontier_ts h = Some ts) then frontier_closed h || marker else frontier_closed h in
    (mkHistory (max_seq h) (h_seqs h) (seq_order h) stamps (ts_order h) (frontier_ts h) (Some seq) closed, violation).

Definition check_new (h : StreamHistory) (seq ts : Z) (marker : bool) (kind : MediaKind)
    (violation : option EgressViolation) : StreamHistory * option EgressViolation :=
  let advances := match max_seq h with None => true | Some m => m <? seq end in
  let h := mkHistory (Some (match max_seq h with None => seq | Some m => Z.max m seq end)) (h_seqs h) (seq_order h)
             (timestamps h) (ts_order h) (frontier_ts h) (frontier_seq h) (frontier_closed h) in
  if negb advances then (h, violation) else check_advance h seq ts marker kind violation.

Definition check (h : StreamHistory) (seq ts : Z) (marker : bool) (kind : MediaKind)
    : StreamHistory * option EgressViolation :=
  let with_seqs m order := mkHistory (max_seq h) m order (timestamps h) (ts_order h) (frontier_ts h) (frontier_seq h)
                             (frontier_closed h) in
  let m := <[seq := ts]> (h_seqs h) in
  match h_seqs h !! seq with
  | Some previous_ts =>
      if negb (previous_ts =? ts)
      then check_new (with_seqs m (seq_order h)) seq ts marker kind (Some (SequenceCollision seq ts previous_ts))
      else (with_seqs m (seq_order h), None)
  | None =>
      let '(order, old) := push_bounded (seq_order h) seq in
      let m := match old with Some o => delete o m | None => m end in
      check_new (with_seqs m order) seq ts marker kind None
  end.

(** [EgressGuard]: a history per outbound stream. *)
Definition EgressGuard : Type := gmap (string * option string) StreamHistory.

Definition guard_check (g : EgressGuard) (mid : string) (rid : option string) (seq ts : Z) (marker : bool)
    (kind : MediaKind) : EgressGuard * option EgressViolation :=
  let '(h, v) := check (default history_default (g !! (mid, rid))) seq ts marker kind in
  (<[(mid, rid) := h]> g, v).

(** ** What keeps the guard silent *)

(** The newest packet in sequence order, the newest frame's timestamp and
    whether a packet that reached it closed it. *)
Record Front := mkFront { fr_max : option Z; fr_ts : option Z; fr_closed : bool }.

Definition front0 : Front := mkFront None None false.

Definition advances (f : Front) (seq : Z) : bool := match fr_max f with None => true | Some m => m <? seq end.

Definition front_step (f : Front) (seq ts : Z) (m : bool) : Front :=
  if advances f seq then
    match fr_ts f with
    | None => mkFront (Some seq) (Some ts) m
    | Some t =>
        if t <? ts then mkFront (Some seq) (Some ts) m
        else mkFront (Some seq) (Some t) (if t =? ts then fr_closed f || m else fr_closed f)
    end
  else f.

(** A packet that moves the stream on goes forward in time, and leaves the
    previous frame only if it was closed or a gap says that it was not. *)
Definition fine (f : Front) (seq ts : Z) : Prop :=
  advances f seq = true ->
  forall t, fr_ts f = Some t -> t <= ts /\ (t < ts -> fr_closed f = true \/ fr_max f <> Some (seq - 1)).

(** One egress stream, packet by packet: every sequence number is used once. *)
Fixpoint admissible (used : gset Z) (f : Front) (l : list (Z * Z * bool)) : Prop :=
  match l with
  | [] => True
  | (seq, ts, m) :: l =>
      (seq ∉ used) /\ fine f seq ts /\ 0 <= seq < 2 ^ 63 /\ admissible ({[seq]} ∪ used) (front_step f seq ts m) l
  end.

Definition used_after (used : gset Z) (l : list (Z * Z * bool)) : gset Z :=
  foldl (fun u x => {[x.1.1]} ∪ u) used l.
Definition front_after (f : Front) (l : list (Z * Z * bool)) : Front :=
  foldl (fun f x => front_step f x.1.1 x.1.2 x.2) f l.

Lemma admissible_app used f l k :
  admissible used f (l ++ k) <-> admissible used f l /\ admissible (used_after used l) (front_after f l) k.
Proof.
  revert used f. induction l as [|[[s t] m] l IH]; intros used f; cbn; [tauto|]. rewrite IH. tauto.
Qed.

(** The guard's memory of a stream whose front is [f]. *)
Record remembers (used : gset Z) (f : Front) (h : StreamHistory) : Prop := mk_remembers {
  re_max : max_seq h = fr_max f;
  re_fseq : frontier_seq h = fr_max f;
  re_fts : frontier_ts h = fr_ts f;
  re_closed : frontier_closed h = fr_closed f;
  re_seqs : forall s t, h_seqs h !! s = Some t -> s ∈ used;
  re_stamps : forall t, t ∈ timestamps h -> exists x, fr_ts f = Some x /\ t <= x;
  re_both : fr_max f = None -> fr_ts f = None;
  re_range : forall m, fr_max f = Some m -> 0 <= m < 2 ^ 63;
}.

Lemma remembers_default : remembers ∅ front0 history_default.
Proof. by split. Qed.

(** Timestamps the guard remembers are never ahead of the frontier, so the
    advancing branch cannot find a new one among them. *)
Lemma check_advance_spec h seq ts m kind v :
  (forall t, t ∈ timestamps h -> exists x, frontier_ts h = Some x /\ t <= x) ->
  exists h', check_advance h seq ts m kind v = (h',
    let v := match kind, frontier_ts h, frontier_seq h with
             | KindVideo, Some frontier, Some fseq =>
                 if (frontier <? ts) && negb (frontier_closed h) && (seq =? wrapping_add 64 fseq 1)
                 then or_insert v (TruncatedFrameLooksComplete frontier ts) else v
             | _, _, _ => v end in
    match frontier_ts h with
    | Some frontier => if ts <? frontier then or_insert v (TimestampWentBackwards ts frontier) else v
    | None => v
    end) /\
  max_seq h' = max_seq h /\ h_seqs h' = h_seqs h /\ frontier_seq h' = Some seq /\
  frontier_ts h' = Some (match frontier_ts h with Some t => Z.max t ts | None => ts end) /\
  frontier_closed h' = (match frontier_ts h with
                        | None => m
                        | Some t => if t <? ts then m else if t =? ts then frontier_closed h || m else frontier_closed h
                        end) /\
  (forall t, t ∈ timestamps h' -> exists x, frontier_ts h' = Some x /\ t <= x).
Proof.
  intros Hst. unfold check_advance. set (v1 := match kind with KindVideo => _ | _ => _ end).
  replace (match kind, frontier_ts h, frontier_seq h with
           | KindVideo, Some frontier, Some fseq => _ | _, _, _ => v end) with v1 by (unfold v1; by destruct kind).
  destruct (frontier_ts h) as [t|] eqn:Et.
  - destruct (Z.ltb_spec ts t) as [Hlt|Hge].
    + rewrite (proj2 (Z.ltb_ge t ts)) by lia. rewrite bool_decide_false by (intros [= ->]; lia). eexists. split; [done|].
      cbn. rewrite (proj2 (Z.eqb_neq t ts)) by lia. split_and!; try done; try (f_equal; lia).
    + destruct (Z.ltb_spec t ts) as [Hlt|Hge'].
      * rewrite bool_decide_false by (intros Hin; destruct (Hst _ Hin) as (x & [= <-] & ?); lia).
        destruct (push_bounded (ts_order h) ts) as [order old]. eexists. split; [done|]. cbn.
        split_and!; try done; try (f_equal; lia). intros t' Ht'. exists ts. split; [done|].
        assert (t' ∈ {[ts]} ∪ timestamps h) as Hin by (destruct old; set_solver).
        apply elem_of_union in Hin as [->%elem_of_singleton|Hin]; [lia|].
        destruct (Hst _ Hin) as (x & [= <-] & ?). lia.
      * assert (t = ts) as -> by lia. rewrite bool_decide_true by done. eexists. split; [done|]. cbn.
        rewrite Z.eqb_refl. split_and!; try done; try (f_equal; lia).
  - destruct (push_bounded (ts_order h) ts) as [order old]. eexists. split; [done|]. cbn. split_and!; try done.
    intros t' Ht'. exists ts. split; [done|].
    assert (t' ∈ {[ts]} ∪ timestamps h) as Hin by (destruct old; set_solver).
    apply elem_of_union in Hin as [->%elem_of_singleton|Hin]; [lia|]. by destruct (Hst _ Hin) as (x & [=] & ?).
Qed.

Lemma push_bounded_old l x l' old : push_bounded l x = (l', Some old) -> old ∈ l ++ [x].
Proof.
  unfold push_bounded. destruct (_ <? _)%nat; [|done]. destruct (l ++ [x]) as [|y k]; [done|].
  intros [= _ <-]. apply list_elem_of_here.
Qed.

Lemma check_silent used f h seq ts m :
  remembers used f h -> seq ∉ used -> fine f seq ts -> 0 <= seq < 2 ^ 63 ->
  exists h', check h seq ts m KindVideo = (h', None) /\
    remembers ({[seq]} ∪ used) (front_step f seq ts m) h'.
Proof.
  intros [R1 R2 R3 R4 R5 R6 R7 R8] Hfresh Hfine Hr. unfold check.
  destruct (h_seqs h !! seq) as [t|] eqn:El; [by apply R5 in El|].
  destruct (push_bounded (seq_order h) seq) as [order old].
  set (m' := match old with Some o => delete o _ | None => _ end).
  assert (forall s t, m' !! s = Some t -> s ∈ {[seq]} ∪ used) as Hm'.
  { intros s t Hs. assert (<[seq:=ts]> (h_seqs h) !! s = Some t) as Hi.
    { unfold m' in Hs. destruct old; [|done]. by apply lookup_delete_Some in Hs as [_ Hs]. }
    apply lookup_insert_Some in Hi as [[-> _]|[_ Hi]]; [set_solver|]. apply R5 in Hi. set_solver. }
  unfold check_new.
  cbn [max_seq h_seqs seq_order timestamps ts_order frontier_ts frontier_seq frontier_closed]. rewrite R1. unfold front_step.
  change (match fr_max f with None => true | Some mx => mx <? seq end) with (advances f seq).
  destruct (advances f seq) eqn:Ead; cbn [negb].
  - destruct (check_advance_spec (mkHistory (Some (match fr_max f with None => seq | Some mx => Z.max mx seq end)) m' order
      (timestamps h) (ts_order h) (frontier_ts h) (frontier_seq h) (frontier_closed h)) seq ts m KindVideo None)
      as (h' & -> & E1 & E2 & E3 & E4 & E5 & E6); cbn [frontier_ts frontier_seq frontier_closed max_seq h_seqs timestamps] in *;
      [by rewrite R3|].
    rewrite R2, R3, R4 in *. exists h'. split.
    + f_equal. destruct (fr_ts f) as [t|] eqn:Et; [|done]. destruct (Hfine Ead t Et) as [Hle Hcl].
      rewrite (proj2 (Z.ltb_ge ts t)) by lia. destruct (fr_max f) as [mx|] eqn:Emx; [|done].
      specialize (R8 mx eq_refl). replace (wrapping_add 64 mx 1) with (mx + 1) by (symmetry; apply wrap_small; unfold fits; lia).
      destruct (Z.ltb_spec t ts) as [Hlt|]; [|done]. destruct (Hcl Hlt) as [->|Hne]; [done|].
      rewrite (proj2 (Z.eqb_neq seq (mx + 1))); [by rewrite andb_false_r|]. intros ->. apply Hne. f_equal. lia.
    + assert (max_seq h' = Some seq) as Emax.
      { rewrite E1. unfold advances in Ead. destruct (fr_max f) as [mx|]; [|done]. apply Z.ltb_lt in Ead. f_equal. lia. }
      destruct (fr_ts f) as [t|] eqn:Et; [destruct (Z.ltb_spec t ts)|]; split; cbn; try done;
        try (intros ? [= <-]; lia); try (rewrite E2; exact Hm').
      * rewrite E4. f_equal. lia.
      * intros x Hx. destruct (E6 x Hx) as (y & Ey & Hy). rewrite E4 in Ey. injection Ey as <-. exists ts. split; [done|lia].
      * rewrite E4. f_equal. lia.
      * intros x Hx. destruct (E6 x Hx) as (y & Ey & Hy). rewrite E4 in Ey. injection Ey as <-. exists t. split; [done|lia].
      * intros x Hx. destruct (E6 x Hx) as (y & Ey & Hy). rewrite E4 in Ey. injection Ey as <-. exists ts. split; [done|lia].
  - unfold advances in Ead. destruct (fr_max f) as [mx|] eqn:Emx; [|done]. apply Z.ltb_ge in Ead. eexists. split; [done|].
    split; cbn; rewrite ?Emx; try done. f_equal. lia.
Qed.

(** The guard over a whole egress stream. *)
Fixpoint check_all (h : StreamHistory) (l : list (Z * Z * bool)) : list EgressViolation :=
  match l with
  | [] => []
  | (seq, ts, m) :: l =>
      let '(h, v) := check h seq ts m KindVideo in
      match v with Some x => x :: check_all h l | None => check_all h l end
  end.

Lemma check_all_silent used f h l : remembers used f h -> admissible used f l -> check_all h l = [].
Proof.
  revert used f h. induction l as [|[[seq ts] m] l IH]; intros used f h Hr Ha; cbn; [done|].
  destruct Ha as (H1 & H2 & H3 & H4). destruct (check_silent used f h seq ts m Hr H1 H2 H3) as (h' & -> & Hr').
  by eapply IH.
Qed.

(** ** A check that cannot fire *)

Definition stamps_behind (h : StreamHistory) : Prop :=
  forall t, t ∈ timestamps h -> exists x, frontier_ts h = Some x /\ t <= x.

Lemma check_stamps_behind h seq ts m kind h' v :
  stamps_behind h -> check h seq ts m kind = (h', v) ->
  stamps_behind h' /\ forall t, v <> Some (ReusedTimestamp t).
Proof.
  intros Hs. assert (forall h0 v0, timestamps h0 = timestamps h -> frontier_ts h0 = frontier_ts h ->
    (forall t, v0 <> Some (ReusedTimestamp t)) ->
    check_new h0 seq ts m kind v0 = (h', v) -> stamps_behind h' /\ forall t, v <> Some (ReusedTimestamp t)) as Hn.
  { intros h0 v0 E1 E2 Hv. unfold check_new. set (h1 := mkHistory _ _ _ _ _ _ _ _).
    assert (stamps_behind h1) as Hs1 by (unfold h1, stamps_behind; cbn; rewrite E1, E2; exact Hs).
    destruct (negb _); [intros [= <- <-]; split; [exact Hs1|exact Hv]|]. intros Hc.
    destruct (check_advance_spec h1 seq ts m kind v0 Hs1) as (h2 & E & _ & _ & _ & _ & _ & Hs2).
    rewrite E in Hc. injection Hc as <- <-. split; [exact Hs2|]. intros t. repeat case_match; unfold or_insert; repeat case_match; congruence. }
  unfold check. destruct (h_seqs h !! seq) as [p|].
  - destruct (negb (p =? ts)); [by apply Hn|]. intros [= <- <-]. split; [exact Hs|done].
  - destruct (push_bounded (seq_order h) seq) as [order old]. by apply Hn.
Qed.

Fixpoint check_any (h : StreamHistory) (l : list (Z * Z * bool * MediaKind)) : list EgressViolation :=
  match l with
  | [] => []
  | (seq, ts, m, kind) :: l =>
      let '(h, v) := check h seq ts m kind in
      match v with Some x => x :: check_any h l | None => check_any h l end
  end.

(** The guard never reports a reused timestamp, whatever packets it is
    shown: it looks for one only among timestamps that are behind the
    frontier, and only for a packet ahead of it. *)
Theorem reused_timestamp_unreachable l t : ReusedTimestamp t ∉ check_any history_default l.
Proof.
  assert (stamps_behind history_default) as H by by intros x Hx.
  revert H. generalize history_default. induction l as [|[[[seq ts] m] kind] l IH]; intros h Hs; cbn; [apply not_elem_of_nil|].
  destruct (check h seq ts m kind) as [h' v] eqn:Ec. destruct (check_stamps_behind _ _ _ _ _ _ _ Hs Ec) as [Hs' Hv].
  destruct v as [x|]; [|by apply IH]. apply not_elem_of_cons. split; [|by apply IH]. intros <-. by apply (Hv t).
Qed.
