(* ===== verification/SwitcherEgress.v ===== *)
(** * The switcher keeps the guard silent

    The composition of [Switcher], [Timeline], [PacketCache] and [EgressGuard]:
    whatever streams are cached, in whatever order their packets arrive and
    whenever a switch is asked for, what a subscriber is sent never trips the
    egress guard, as long as no layer is shed. Two executions at the end show
    that shedding a layer breaks it. *)

From stdpp Require Import sorting.
From S2P Require Import Prelude Dd Rtp H264 Timeline PacketCache CacheLaws Switcher EgressGuard.

Definition view (p : RtpPacket) : Z * Z * bool := (seq_no p, rtp_ticks p, marker p).
Abbreviation views l := (map view l).

(** Outputs stay in the lower half of [u64]. *)
Definition bounded (p : RtpPacket) : Prop := seq_no p < 2 ^ 63 /\ rtp_ticks p < 2 ^ 63.

#[export] Instance bounded_dec p : Decision (bounded p).
Proof. unfold bounded. apply _. Defined.

(** ** Emitting one packet *)

Lemma translate_view base p : view (translate_dd_frame base p) = view p /\ playout_time (translate_dd_frame base p) = playout_time p.
Proof. unfold translate_dd_frame. repeat case_match; done. Qed.

Lemma apply_dd_view t p : view (apply_dd t p).2 = view p.
Proof. unfold apply_dd. case_match; [|done]. cbn [snd]. apply translate_view. Qed.

Lemma apply_spec t p q τ t' out :
  apply t p q τ = (t', out) ->
  view out = (q, τ, marker p) /\ seq_base t' = seq_base t /\ ts_base t' = ts_base t /\ epoch t' <> None /\
  max_output t' = (match epoch t with None => q | Some _ => Z.max (max_output t) q end) /\
  max_output_ts t' = (match epoch t with None => τ | Some _ => Z.max (max_output_ts t) τ end).
Proof.
  unfold apply. pose proof (apply_dd_view t p) as Hv. destruct (apply_dd t p) as [[a b] p'] eqn:Ed. cbn [snd] in Hv.
  injection Hv as _ _ Hm. destruct (epoch t) as [e|].
  - destruct (Z.ltb_spec (max_output_ts t) τ); destruct (Z.ltb_spec (max_output t) q); intros [= <- <-]; cbn;
      unfold view; cbn; rewrite Hm; split_and!; try done; lia.
  - intros [= <- <-]. cbn. unfold view. cbn. by rewrite Hm.
Qed.

(** The output half of the switcher and the translation agree with the front.
    Their clock is the latest sent, which a packet sent behind the front may have
    moved past the front's own. *)
Record core (used : gset Z) (f : Front) (t : Timeline) (o : Output) : Prop := mk_core {
  c_last : last_output o = fr_max f;
  c_epoch : match fr_max f with
            | None => epoch t = None /\ fr_ts f = None /\ used = ∅ /\ last_marker_output o = None /\ out_max_ts o = None
            | Some L => epoch t <> None /\ (exists T, fr_ts f = Some T /\ 0 <= T <= max_output_ts t) /\ 0 <= L < 2 ^ 63 /\
                        max_output_ts t < 2 ^ 63 /\ L <= max_output t /\ out_max_ts o = Some (max_output_ts t)
            end;
  c_used : forall x L, x ∈ used -> fr_max f = Some L -> x <= L;
  c_max : forall L, fr_max f = Some L -> L ∈ used;
  c_marker : forall x L, last_marker_output o = Some x -> fr_max f = Some L -> x <= L;
  c_closed : forall L, fr_max f = Some L -> last_marker_output o = Some L -> fr_closed f = true;
}.

(** [note_emitted] of a packet ahead of the output, and of one behind it. *)
Lemma note_ahead o q m τ :
  none_or (last_output o) (fun last => last <? q) = true -> none_or (out_max_ts o) (fun x => x <=? τ) = true ->
  let o' := note_emitted o q m τ in
  last_output o' = Some q /\ out_max_ts o' = Some τ /\
  last_marker_output o' = (if m && none_or (last_marker_output o) (fun last => last <? q) then Some q else last_marker_output o).
Proof.
  intros H1 H2. unfold note_emitted. cbn. rewrite H1. split_and!; [done| |done].
  destruct (out_max_ts o) as [x|]; cbn in *; [|done]. destruct (Z.ltb_spec x τ); [done|]. f_equal. lia.
Qed.

Lemma note_behind o q m τ L X :
  last_output o = Some L -> q < L -> out_max_ts o = Some X ->
  let o' := note_emitted o q m τ in
  last_output o' = Some L /\ out_max_ts o' = Some (Z.max X τ) /\
  last_marker_output o' = (if m && none_or (last_marker_output o) (fun last => last <? q) then Some q else last_marker_output o).
Proof.
  intros H1 Hq H2. unfold note_emitted. cbn. rewrite H1, H2. cbn [none_or].
  rewrite (proj2 (Z.ltb_ge L q)) by lia. split_and!; try done. destruct (Z.ltb_spec X τ); f_equal; lia.
Qed.

Lemma emit_core used f t o p q τ t' out :
  core used f t o -> q ∉ used -> 0 <= q < 2 ^ 63 -> 0 <= τ < 2 ^ 63 ->
  (advances f q = true -> fr_max f <> None -> max_output_ts t <= τ) ->
  apply t p q τ = (t', out) ->
  core ({[q]} ∪ used) (front_step f q τ (marker p)) t' (note_emitted o (seq_no out) (marker out) (rtp_ticks out)).
Proof.
  intros [C1 C3 C4 C7 C5 C6] Hfresh Hq Hτ Hadv Ha.
  destruct (apply_spec _ _ _ _ _ _ Ha) as (Ev & _ & _ & He & Em & Et). injection Ev as -> -> ->.
  unfold front_step. unfold advances in *. destruct (fr_max f) as [L|] eqn:EL.
  - destruct C3 as (E0 & (T & E1 & HT) & HL & HX & HM & C2). destruct (epoch t); [|done]. rewrite E1 in *. specialize (C7 L eq_refl).
    destruct (Z.ltb_spec L q) as [Hlt|Hge].
    + specialize (Hadv eq_refl ltac:(done)).
      destruct (note_ahead o q (marker p) τ) as (N1 & N2 & N3);
        [rewrite C1; cbn; lia|rewrite C2; cbn; lia|]. set (o' := note_emitted o q (marker p) τ) in *. clearbody o'.
      assert (exists b, (if T <? τ then mkFront (Some q) (Some τ) (marker p)
        else mkFront (Some q) (Some T) (if T =? τ then fr_closed f || marker p else fr_closed f))
        = mkFront (Some q) (Some τ) (b || marker p)) as [b ->].
      { destruct (Z.ltb_spec T τ) as [|]; [by exists false|]. exists (fr_closed f).
        replace τ with T by lia. by rewrite Z.eqb_refl. }
      split; cbn; try done.
      * rewrite Et, Z.max_r by lia. split_and!; try done; try lia. exists τ. split; [done|lia].
      * intros x L' Hx [= <-]. apply elem_of_union in Hx as [->%elem_of_singleton|Hx]; [lia|].
        specialize (C4 x L Hx eq_refl). lia.
      * intros L' [= <-]. set_solver.
      * intros x L' Hx [= <-]. rewrite N3 in Hx. destruct (marker p && _); [injection Hx as <-; lia|]. specialize (C5 x L Hx eq_refl). lia.
      * intros L' [= <-] Hx. rewrite N3 in Hx. destruct (marker p); [apply orb_true_r|].
        cbn [andb] in Hx. specialize (C5 q L Hx eq_refl). lia.
    + assert (q < L) as Hlt by (assert (q <> L) by (intros ->; done); lia).
      destruct (note_behind o q (marker p) τ L (max_output_ts t) C1 Hlt C2) as (N1 & N2 & N3).
      set (o' := note_emitted o q (marker p) τ) in *. clearbody o'. split; rewrite ?EL, ?E1; try done.
      * rewrite Et, N2. split_and!; try done; try lia. exists T. split; [done|lia].
      * intros x L' Hx [= <-]. apply elem_of_union in Hx as [->%elem_of_singleton|Hx]; [lia|]. by apply (C4 x L).
      * intros L' [= <-]. set_solver.
      * intros x L' Hx [= <-]. rewrite N3 in Hx. destruct (marker p && _); [injection Hx as <-; lia|]. by apply (C5 x L).
      * intros L' [= <-] Hx. rewrite N3 in Hx. destruct (marker p && _); [injection Hx as ->; lia|]. by apply (C6 L).
  - destruct C3 as (E0 & E1 & Hu & Hm & C2). rewrite E0 in *. rewrite E1.
    destruct (note_ahead o q (marker p) τ) as (N1 & N2 & N3); [by rewrite C1|by rewrite C2|].
    set (o' := note_emitted o q (marker p) τ) in *. clearbody o'. rewrite Hm in N3. cbn [none_or] in N3. split; cbn; try done.
    * rewrite Et. split_and!; try done; try lia. exists τ. split; [done|lia].
    * intros x L' Hx [= <-]. set_solver by lia.
    * intros L' [= <-]. set_solver.
    * intros x L' Hx [= <-]. rewrite N3 in Hx. destruct (marker p); [|done]. cbn in Hx. injection Hx as <-. lia.
    * intros L' [= <-] Hx. rewrite N3 in Hx. destruct (marker p); [done|]. done.
Qed.

(** ** Invariants *)

(** [n] below the top of [u64] and its 64-bit form add up to what they should. *)
Lemma wrapping_add_small a b : 0 <= a + b < 2 ^ 64 -> wrapping_add 64 a (wrap 64 b) = a + b.
Proof.
  intros H. unfold wrapping_add, wrap. rewrite Z.add_mod_idemp_r by lia. by apply Z.mod_small.
Qed.

(** A clock moved below zero wraps past every bounded output. *)
Lemma wrapping_add_clock a b :
  0 <= a < 2 ^ 62 -> - 2 ^ 62 < b < 2 ^ 63 -> wrapping_add 64 a (wrap 64 b) < 2 ^ 63 ->
  0 <= a + b /\ wrapping_add 64 a (wrap 64 b) = a + b.
Proof.
  intros Ha Hb Hlt. destruct (decide (0 <= a + b)); [split; [done|apply wrapping_add_small; lia]|]. exfalso.
  unfold wrapping_add, wrap in Hlt. rewrite Z.add_mod_idemp_r in Hlt by lia.
  rewrite <- (Z.mod_add (a + b) 1) in Hlt by lia. rewrite Z.mod_small in Hlt; lia.
Qed.

Lemma elem_of_span x lo hi : x ∈ span lo hi <-> lo <= x < hi.
Proof. unfold span. rewrite elem_of_list_to_set, elem_of_seqZ. lia. Qed.

Lemma elem_of_in_order X x : x ∈ in_order X <-> x ∈ X.
Proof. unfold in_order. rewrite merge_sort_Permutation, elem_of_elements. done. Qed.

Lemma NoDup_in_order X : NoDup (in_order X).
Proof. unfold in_order. rewrite merge_sort_Permutation. apply NoDup_elements. Qed.

Lemma trim_subset X : trim X ⊆ X.
Proof.
  intros x Hx. unfold trim in Hx. apply elem_of_list_to_set in Hx. rewrite <- elem_of_in_order.
  by eapply subseteq_drop.
Qed.

Section Egress.
Context {TrackId : Type} `{!EqDecision TrackId}.
Context (srcs : TrackId * SourceEncoding -> Source).
(** The clock of a source may go back, but a frame is not taken up again once a
    packet of an older frame has come in between. *)
Hypothesis not_resumed : forall id a b c, a < b < c ->
  clock (srcs id) b < clock (srcs id) a -> clock (srcs id) c <> clock (srcs id) a.

Abbreviation Switcher := (Switcher (TrackId := TrackId)).
Abbreviation Roles := (Roles (TrackId := TrackId)).
Implicit Types (s : Switcher) (r : Roles).

(** The active stream: read up to [cur], the newest packet of it that was sent is
    [snt], shifted by [b] in sequence and [d] in time. The latest time sent is that
    packet's, or that of an older one which filled a gap. *)
Record live_at (used : gset Z) (f : Front) (t : Timeline) r (src : Source) (cur snt b d : Z) : Prop := mk_live {
  l_cursor : active_cursor r = Some cur;
  l_cur_ok : seq_ok cur;
  l_next : next_expected_input r = Some (cur + 1);
  l_sent : 0 <= snt <= cur;
  l_clock : 0 <= clock src snt < 2 ^ 62;
  l_seq_base : seq_base t = wrap 64 b;
  l_ts_base : ts_base t = wrap 64 d;
  l_max : fr_max f = Some (snt + b);
  l_ts : fr_ts f = Some (clock src snt + d);
  l_top : max_output_ts t = clock src snt + d \/
    exists h, h < snt /\ clock src snt < clock src h /\ max_output_ts t = clock src h + d;
  l_holes : forall h, h ∈ active_input_holes r ->
    0 <= h < snt /\ 0 <= h + b /\ (h + b ∉ used) /\ forall tl, tail r = Some tl -> h + b ∉ tail_holes tl;
}.

(** Gaps of a stream that was left: unused, and behind the output. *)
Definition tail_ok (used : gset Z) (f : Front) r : Prop :=
  forall tl x, tail r = Some tl -> x ∈ tail_holes tl ->
  (x ∉ used) /\ 0 <= x /\ exists L, fr_max f = Some L /\ x < L.

Record good (used : gset Z) (f : Front) s : Prop := mk_good {
  g_core : core used f (timeline s) (output s);
  g_frontier : forall L, fr_max f = Some L -> max_output (timeline s) = L;
  g_start : 0 <= max_output (timeline s) < 2 ^ 63;
  g_tail : tail_ok used f (roles s);
  g_live : forall id, active (roles s) = Some id ->
    exists cur snt b d, live_at used f (timeline s) (roles s) (srcs id) cur snt b d;
  g_full : selector s = Full;
}.

(** What a step of the switcher may do to the egress stream. *)
Definition egress (used : gset Z) (f : Front) (es : list RtpPacket) s' : Prop :=
  admissible used f (views es) /\ good (used_after used (views es)) (front_after f (views es)) s'.

Lemma egress_nil used f s : good used f s -> egress used f [] s.
Proof. by split. Qed.

Lemma egress_app used f es1 es2 s1 s2 :
  egress used f es1 s1 ->
  (good (used_after used (views es1)) (front_after f (views es1)) s1 ->
   egress (used_after used (views es1)) (front_after f (views es1)) es2 s2) ->
  egress used f (es1 ++ es2) s2.
Proof.
  intros [A1 G1] H2. destruct (H2 G1) as [A2 G2]. unfold egress. rewrite map_app.
  split; [by apply admissible_app|]. unfold used_after, front_after in *. by rewrite !foldl_app.
Qed.

(** ** The forward pass *)

Lemma note_fresh_holes used f t o r src cur snt b d i :
  core used f t o -> tail_ok used f r -> live_at used f t r src cur snt b d -> cur < i ->
  let holes' := match next_expected_input r with
                | Some e => if (e <? i) && (saturating_sub i e <=? MAX_TRACKED_HOLES)
                            then trim (active_input_holes r ∪ span e i) else active_input_holes r
                | None => active_input_holes r end in
  forall h, h ∈ holes' ->
    0 <= h < i /\ 0 <= h + b /\ (h + b ∉ used) /\ forall tl, tail r = Some tl -> h + b ∉ tail_holes tl.
Proof.
  intros Hc Ht Hl Hi holes' h Hh. pose proof Hl as [L1 L2 L4 Ls L3 L5 L6 L7 L8 Lt L9].
  assert (h ∈ active_input_holes r ∪ span (cur + 1) i) as Hin.
  { unfold holes' in Hh. rewrite L4 in Hh. destruct (_ && _); [by apply trim_subset|]. set_solver. }
  apply elem_of_union in Hin as [Hin|[Hlo Hhi]%elem_of_span].
  { destruct (L9 h Hin) as (? & ? & ? & ?). split_and!; try done; lia. }
  pose proof (c_epoch _ _ _ _ Hc) as Hep. rewrite L7 in Hep. destruct Hep as (_ & _ & HL & _).
  unfold seq_ok in *. split_and!; try lia.
  - intros Hu. pose proof (c_used _ _ _ _ Hc _ _ Hu L7). lia.
  - intros tl Etl Hx. destruct (Ht tl _ Etl Hx) as (_ & _ & L & EL & Hlt). rewrite L7 in EL. injection EL as <-. lia.
Qed.

(** Changing the sequence half of the translation keeps the agreement. *)
Lemma core_set_sequence used f t o out base :
  core used f t o -> (forall L, fr_max f = Some L -> L <= out) -> core used f (set_sequence t out base) o.
Proof.
  intros [C1 C3 C4 C7 C5 C6] Hm. split; try done. destruct (fr_max f) as [L|]; [|done].
  destruct C3 as (? & ? & ? & ? & ? & ?). cbn. split_and!; try done; try lia. by apply Hm.
Qed.

Lemma left_open_closed used f t o L :
  core used f t o -> fr_max f = Some L -> newest_frame_left_open o = false -> fr_closed f = true.
Proof.
  intros Hc HL. unfold newest_frame_left_open. rewrite (c_last _ _ _ _ Hc), HL. cbn [some_and].
  rewrite negb_false_iff. intros Hm%bool_decide_eq_true. by eapply c_closed.
Qed.

Lemma advance_front f q τ m T : fr_ts f = Some T -> advances f q = true -> T <= τ ->
  fr_max (front_step f q τ m) = Some q /\ fr_ts (front_step f q τ m) = Some τ.
Proof.
  intros ET Ha HT. unfold front_step. rewrite Ha, ET. destruct (Z.ltb_spec T τ); [done|]. split; [done|]. cbn. f_equal. lia.
Qed.

(** Sending one packet ahead of everything sent so far. *)
Lemma ahead_egress used f t o p q τ t' out L T :
  core used f t o -> fr_max f = Some L -> fr_ts f = Some T -> L < q -> 0 <= q -> max_output_ts t <= τ ->
  (T < τ -> fr_closed f = true \/ L <> q - 1) -> apply t p q τ = (t', out) -> bounded out ->
  admissible used f (views [out]) /\
  core (used_after used (views [out])) (front_after f (views [out])) t'
    (note_emitted o (seq_no out) (marker out) (rtp_ticks out)) /\
  fr_max (front_after f (views [out])) = Some q /\ fr_ts (front_after f (views [out])) = Some τ /\
  used_after used (views [out]) = {[q]} ∪ used.
Proof.
  intros Hc HL HT Hlt Hq Hτ Hopen Eap [Hb1 Hb2]. destruct (apply_spec _ _ _ _ _ _ Eap) as (Ev & _).
  assert (views [out] = [(q, τ, marker p)]) as -> by (cbn; by rewrite Ev).
  unfold view in Ev. injection Ev as Es Et Em. rewrite Es in Hb1. rewrite Et in Hb2.
  assert (advances f q = true) as Ha by (unfold advances; rewrite HL; lia).
  assert (0 <= T <= max_output_ts t) as HT0 by (pose proof (c_epoch _ _ _ _ Hc) as Hep; rewrite HL, HT in Hep; destruct Hep as (_ & (T' & [= <-] & ?) & _); done).
  assert (q ∉ used) as Hfresh by (intros Hu; pose proof (c_used _ _ _ _ Hc _ _ Hu HL); lia).
  cbn [used_after front_after foldl fst snd]. destruct (advance_front f q τ (marker p) T HT Ha ltac:(lia)) as [F1 F2].
  split_and!; try done.
  - cbn. split_and!; try done. intros _ t0 E0. rewrite HT in E0. injection E0 as <-. split; [lia|]. intros Hl.
    destruct (Hopen Hl) as [?|Hne]; [by left|right]. rewrite HL. congruence.
  - eapply emit_core; [done|done|lia|lia|done|done].
Qed.

Lemma keep_tail used f f' r q L :
  tail_ok used f r -> fr_max f = Some L -> L < q -> fr_max f' = Some q -> tail_ok ({[q]} ∪ used) f' r.
Proof.
  intros Ht HL Hlt Hf' tl x Etl Hx. destruct (Ht tl x Etl Hx) as (H1 & H2 & L' & E' & H3). rewrite HL in E'. injection E' as <-.
  split_and!; [|done|]; [set_solver by lia|]. exists q. split; [done|lia].
Qed.

(** Where the live translation puts a packet after the last one read. *)
Lemma live_translation used f t o r id cur snt b d p :
  core used f t o -> live_at used f t r (srcs id) cur snt b d -> of_stream (srcs id) p -> cur < seq_no p ->
  let i := seq_no p in
  seq_ok i /\ rtp_ticks p = clock (srcs id) i /\ 0 <= clock (srcs id) i < 2 ^ 62 /\
  0 <= snt + b < 2 ^ 63 /\ - 2 ^ 62 < d < 2 ^ 63 /\ clock (srcs id) snt + d <= max_output_ts t < 2 ^ 63 /\
  out_max_ts o = Some (max_output_ts t) /\ wrapping_add 64 i (seq_base t) = i + b.
Proof.
  intros Hc [L1 L2 L4 Ls L3 L5 L6 L7 L8 Lt L9] (Hio & Hclk & Hticks & _) Hi i. fold i in Hio, Hclk. rewrite Hclk in *.
  pose proof (c_epoch _ _ _ _ Hc) as Hep. rewrite L7 in Hep. destruct Hep as (_ & (T & ET & HT) & HL & HX & _ & EX).
  rewrite L8 in ET. injection ET as ET. unfold seq_ok, SEQ_LIMIT in *. rewrite L5. split_and!; try done; try lia. apply wrapping_add_small; lia.
Qed.

(** Whether a gap is left for a frame that was cut short. *)
Definition cut_short (o : Output) (X τ snt i : Z) : bool :=
  newest_frame_left_open o && (X <? τ) && (i =? snt + 1).

Lemma forward_packet_sends used f s id cur snt b d p hs s' es :
  good used f s -> live_at used f (timeline s) (roles s) (srcs id) cur snt b d ->
  of_stream (srcs id) p -> cur < seq_no p ->
  let i := seq_no p in let τ := wrapping_add 64 (rtp_ticks p) (wrap 64 d) in
  let skip := cut_short (output s) (max_output_ts (timeline s)) τ snt i in let b2 := if skip then b + 1 else b in
  forward_packet (with_roles s (set_input_holes hs (roles s))) p (i + b) τ = (s', es) ->
  exists t2 t3 out,
    core used f t2 (output s) /\ max_output t2 <= i + b2 - 1 /\ max_output_ts t2 = max_output_ts (timeline s) /\
    seq_base t2 = wrap 64 b2 /\ ts_base t2 = wrap 64 d /\ apply t2 p (i + b2) τ = (t3, out) /\ es = [out] /\
    s' = mkSwitcher t3 Full (set_input_holes (if skip then ∅ else hs) (roles s))
           (note_emitted (output s) (seq_no out) (marker out) (rtp_ticks out)).
Proof.
  intros [Hc Hfr Hst Ht Hlv Hfull] Hl Hp Hi i τ skip b2 Hfw. pose proof Hl as [L1 L2 L4 Ls L3 L5 L6 L7 L8 Lt L9].
  destruct (live_translation _ _ _ _ _ _ _ _ _ _ _ Hc Hl Hp Hi) as (Hio & Hclk & Hrng & HL & Hd & HX & EX & Eq).
  fold i in Hio, Hclk, Hrng, Eq. unfold seq_ok, SEQ_LIMIT in *.
  assert (wrapping_add 64 (snt + b) 1 = snt + b + 1) as EL1 by (apply wrap_small; unfold fits; lia).
  unfold forward_packet, emit_with in Hfw. cbn [output with_roles roles timeline] in Hfw.
  rewrite EX, (c_last _ _ _ _ Hc), L7 in Hfw. cbn [some_and] in Hfw.
  set (skip0 := newest_frame_left_open (output s) && _ && _) in Hfw.
  assert (skip0 = skip) as Esk by (unfold skip0, skip, cut_short; rewrite EL1; f_equal; lia).
  rewrite Esk in Hfw. clearbody skip0. clear Esk skip0.
  set (t2 := if skip then skip_live_sequence (timeline s) 1 else timeline s). exists t2.
  assert (core used f t2 (output s) /\ max_output t2 <= i + b2 - 1 /\ max_output_ts t2 = max_output_ts (timeline s) /\
    seq_base t2 = wrap 64 b2 /\ ts_base t2 = wrap 64 d) as (K1 & K2 & K5 & K3 & K4).
  { unfold t2, b2. destruct skip; [|rewrite L5, L6, (Hfr _ L7); split_and!; [done|lia|done|done|done]].
    unfold skip_live_sequence, skip_output_sequence. cbn. rewrite (Hfr _ L7), EL1, L5, L6. split_and!; [|lia|done| |done].
    - apply core_set_sequence; [apply core_set_sequence; [done|]|]; intros L EL; rewrite L7 in EL; injection EL as <-; cbn; lia.
    - unfold wrapping_add, wrap. by rewrite Zplus_mod_idemp_l. }
  assert (rewrite_live t2 p = apply t2 p (i + b2) τ) as Erw.
  { unfold rewrite_live. rewrite K3, K4. fold i. f_equal. unfold b2. apply wrapping_add_small; destruct skip; lia. }
  destruct (apply t2 p (i + b2) τ) as [t3 out]. exists t3, out. clearbody b2. unfold t2 in *. clear t2.
  destruct skip; cbn [timeline with_timeline with_roles selector roles output] in Hfw; rewrite Erw, Hfull in Hfw;
    injection Hfw as <- <-; split_and!; done.
Qed.

(** A packet is passed over when it would take the clock back, and forwarded
    otherwise. *)
Lemma pull_packet_cases used f s id cur snt b d p :
  good used f s -> live_at used f (timeline s) (roles s) (srcs id) cur snt b d ->
  of_stream (srcs id) p -> cur < seq_no p ->
  let i := seq_no p in let τ := wrapping_add 64 (rtp_ticks p) (wrap 64 d) in
  if τ <? max_output_ts (timeline s)
  then pull_packet s p = (with_roles s (set_cursor (Some i) (Some (i + 1)) (roles s)), [])
  else exists hs,
    pull_packet s p = (let '(s2, es) := forward_packet (with_roles s (set_input_holes hs (roles s))) p (i + b) τ in
      (with_roles s2 (set_cursor (Some i) (if none_or (next_expected_input (roles s2)) (fun e => e <=? i)
         then Some (i + 1) else next_expected_input (roles s2)) (roles s2)), es)) /\
    (forall h, h ∈ hs -> 0 <= h < i /\ 0 <= h + b /\ (h + b ∉ used) /\
       forall tl, tail (roles s) = Some tl -> h + b ∉ tail_holes tl).
Proof.
  intros [Hc Hfr Hst Ht Hlv Hfull] Hl Hp Hi i τ. pose proof Hl as [L1 L2 L4 Ls L3 L5 L6 L7 L8 Lt L9].
  destruct (live_translation _ _ _ _ _ _ _ _ _ _ _ Hc Hl Hp Hi) as (Hio & Hclk & Hrng & HL & Hd & HX & EX & Eq).
  fold i in Hio, Hclk, Hrng, Eq. pose proof (note_fresh_holes _ _ _ _ _ _ cur snt b d i Hc Ht Hl Hi) as Hholes. cbv zeta in Hholes.
  set (hs := match next_expected_input (roles s) with Some e => _ | None => _ end) in Hholes.
  unfold pull_packet. fold i. rewrite Eq, L6, EX, (c_last _ _ _ _ Hc), L7. fold τ. cbn [some_and none_or].
  rewrite (proj2 (Z.ltb_lt (snt + b) (i + b))) by lia. cbn [andb]. cbv zeta.
  assert (wrapping_add 64 i 1 = i + 1) as Ei by (apply wrap_small; unfold fits, seq_ok, SEQ_LIMIT in *; lia). rewrite Ei.
  destruct (τ <? max_output_ts (timeline s)).
  { rewrite L4. cbn [none_or]. by rewrite (proj2 (Z.leb_le (cur + 1) i)) by lia. }
  exists hs. split; [|exact Hholes].
  set (s1 := match next_expected_input (roles s) with Some e => _ | None => s end).
  assert (s1 = with_roles s (set_input_holes hs (roles s))) as ->.
  { unfold s1, hs. destruct (next_expected_input (roles s)); [destruct (_ && _); [done|]|]; by destruct s as [? ? [] ?]. }
  cbn [selector with_roles]. rewrite Hfull.
  assert (decide_frame Full p = Forward) as -> by (unfold decide_frame, keep; by destruct (dependency_descriptor _)).
  by destruct (forward_packet _ p (i + b) τ) as [s2 es].
Qed.

(** Passing over a packet sends nothing and leaves the stream live. *)
Lemma passed_over used f s id cur snt b d i :
  good used f s -> active (roles s) = Some id -> live_at used f (timeline s) (roles s) (srcs id) cur snt b d -> cur < i -> seq_ok i ->
  let s' := with_roles s (set_cursor (Some i) (Some (i + 1)) (roles s)) in
  good used f s' /\ live_at used f (timeline s') (roles s') (srcs id) i snt b d.
Proof.
  intros [Hc Hfr Hst Ht Hlv Hfull] Hact [L1 L2 L4 Ls L3 L5 L6 L7 L8 Lt L9] Hi Hio s'.
  assert (live_at used f (timeline s') (roles s') (srcs id) i snt b d) as Hl by (split; try done; lia).
  split; [|done]. split; try done. intros id' Hid'. cbn in Hid'. rewrite Hact in Hid'. injection Hid' as <-. eauto.
Qed.

Lemma pull_packet_egress used f s id cur snt b d p s' es :
  good used f s -> active (roles s) = Some id -> live_at used f (timeline s) (roles s) (srcs id) cur snt b d ->
  of_stream (srcs id) p -> cur < seq_no p -> pull_packet s p = (s', es) -> Forall bounded es ->
  egress used f es s' /\ active (roles s') = Some id /\ draining (roles s') = draining (roles s) /\
  staging (roles s') = staging (roles s) /\
  exists snt' b', live_at (used_after used (views es)) (front_after f (views es)) (timeline s') (roles s') (srcs id) (seq_no p) snt' b' d.
Proof.
  intros Hg Hact Hl Hp Hi Hpull Hbd. pose proof Hl as [L1 L2 L4 Ls L3 L5 L6 L7 L8 Lt L9]. pose proof Hg as [Hc Hfr Hst Ht _ _].
  destruct (live_translation _ _ _ _ _ _ _ _ _ _ _ Hc Hl Hp Hi) as (Hio & Hclk & Hrng & HL & Hd & HX & EX & Eq).
  pose proof (pull_packet_cases used f s id cur snt b d p Hg Hl Hp Hi) as Hcases. cbv zeta in Hcases.
  set (i := seq_no p) in *. set (τ := wrapping_add 64 (rtp_ticks p) (wrap 64 d)) in *.
  destruct (Z.ltb_spec τ (max_output_ts (timeline s))) as [Hback|Hfwd].
  { rewrite Hcases in Hpull. injection Hpull as <- <-. destruct (passed_over used f s id cur snt b d i Hg Hact Hl Hi Hio) as [G1 G2].
    split_and!; [by apply egress_nil|done|done|done|]. by exists snt, b. }
  destruct Hcases as (hs & E & Hholes). rewrite E in Hpull. clear E.
  destruct (forward_packet _ p (i + b) τ) as [s2 es2] eqn:Efw.
  destruct (forward_packet_sends used f s id cur snt b d p hs s2 es2 Hg Hl Hp Hi Efw) as (t2 & t3 & out & K1 & K2 & K5 & K3 & K4 & Eap & -> & ->).
  fold i in K2, K3, Eap. fold τ in K2, K3, Eap. set (skip := cut_short (output s) (max_output_ts (timeline s)) τ snt i) in *.
  set (b2 := if skip then b + 1 else b) in *. assert (b <= b2) as Hb2 by (unfold b2; destruct skip; lia).
  cbn [roles set_input_holes next_expected_input] in Hpull. rewrite L4 in Hpull. cbn [none_or] in Hpull.
  rewrite (proj2 (Z.leb_le (cur + 1) i)) in Hpull by lia. injection Hpull as <- <-. apply Forall_cons in Hbd as [Hbo _].
  destruct (apply_spec _ _ _ _ _ _ Eap) as (Ev & B1 & B2 & B3 & B4 & B5).
  assert (0 <= clock (srcs id) i + d /\ τ = clock (srcs id) i + d) as [Hτ0 Eτ].
  { rewrite <- Hclk. apply wrapping_add_clock; [by rewrite Hclk|done|]. destruct Hbo as [_ Hbo]. unfold view in Ev. injection Ev as _ Et _. by rewrite Et in Hbo. }
  destruct (ahead_egress used f t2 (output s) p (i + b2) τ t3 out (snt + b) (clock (srcs id) snt + d))
    as (A1 & A2 & A3 & A4 & A5); try done; try lia.
  { intros Hlt. destruct (newest_frame_left_open (output s)) eqn:Eo; [right|left; by eapply left_open_closed].
    assert (max_output_ts (timeline s) < τ) as Hgt.
    { destruct Lt as [|(h & Hh & Hch & Etop)]; [lia|]. assert (τ <> max_output_ts (timeline s)); [|lia].
      rewrite Eτ, Etop. intros Eh. apply (not_resumed id h snt i ltac:(lia) Hch). lia. }
    unfold b2, skip, cut_short. rewrite Eo, (proj2 (Z.ltb_lt _ _)) by lia. cbn [andb].
    destruct (Z.eqb_spec i (snt + 1)); lia. }
  assert (max_output t3 = i + b2) as Emo by (rewrite B4; destruct (epoch t2); lia).
  assert (max_output_ts t3 = τ) as Emt by (rewrite B5; destruct (epoch t2); lia).
  assert (live_at (used_after used (views [out])) (front_after f (views [out])) t3
    (set_cursor (Some i) (Some (i + 1)) (set_input_holes (if skip then ∅ else hs) (roles s))) (srcs id) i i b2 d) as Hlive.
  { split; rewrite ?B1, ?B2, ?A3, ?A4, ?Eτ; try done; try (unfold seq_ok in Hio; lia).
    intros h Hh. cbn [active_input_holes set_cursor set_input_holes] in Hh. unfold b2 in *. destruct skip; [set_solver|]. destruct (Hholes h Hh) as (? & ? & Hu & ?).
    split_and!; try done; try lia. rewrite A5. set_solver by lia. }
  split_and!; try done; [|by exists i, b2]. split; [done|]. split; try done.
  - intros L. rewrite A3. intros [= <-]. done.
  - cbn. rewrite Emo. destruct Hbo as [Hbo _]. unfold view in Ev. injection Ev as Es _ _. lia.
  - rewrite A5. exact (keep_tail used f _ (roles s) (i + b2) (snt + b) Ht L7 ltac:(lia) A3).
  - intros id' Hid'. cbn in Hid'. rewrite Hact in Hid'. injection Hid' as <-. eauto.
Qed.

(** The roles a step of the active stream leaves alone. *)
Definition same_roles r r' : Prop :=
  active r' = active r /\ draining r' = draining r /\ staging r' = staging r.

Lemma pull_loop_egress l used f s id cur snt b d s' es :
  good used f s -> active (roles s) = Some id -> live_at used f (timeline s) (roles s) (srcs id) cur snt b d ->
  Forall (of_stream (srcs id)) l -> StronglySorted Z.lt (cur :: map seq_no l) ->
  emit_each pull_packet l s = (s', es) -> Forall bounded es ->
  egress used f es s' /\ same_roles (roles s) (roles s').
Proof.
  revert used f s cur snt b es. induction l as [|p l IH]; intros used f s cur snt b es Hg Hact Hl Hf Hs He Hb; cbn in He.
  { injection He as <- <-. split; [by apply egress_nil|done]. }
  destruct (pull_packet s p) as [s1 e1] eqn:E1. destruct (emit_each pull_packet l s1) as [s2 e2] eqn:E2.
  injection He as <- <-. apply Forall_app in Hb as [Hb1 Hb2]. apply Forall_cons in Hf as [Hp Hf].
  cbn [map] in Hs. apply StronglySorted_inv in Hs as [Hs Hlt]. apply Forall_cons in Hlt as [Hlt _].
  destruct (pull_packet_egress used f s id cur snt b d p s1 e1 Hg Hact Hl Hp Hlt E1 Hb1) as (H1 & Ha & Hd & Hst & snt' & b' & Hl').
  destruct (IH _ _ s1 (seq_no p) snt' b' e2 (proj2 H1) Ha Hl' Hf Hs E2 Hb2) as (H2 & Ha2 & Hd2 & Hst2).
  split; [by eapply egress_app|]. unfold same_roles. split_and!; congruence.
Qed.

(** ** Completing frames behind the output *)

(** Sending a packet behind the output changes nothing but what is used. *)
Lemma behind_front used f q τ m L :
  fr_max f = Some L -> q < L -> 0 <= q -> L < 2 ^ 63 -> q ∉ used ->
  admissible used f [(q, τ, m)] /\ front_after f [(q, τ, m)] = f /\ used_after used [(q, τ, m)] = {[q]} ∪ used.
Proof.
  intros HL Hlt Hq Hb Hu. assert (advances f q = false) as Ha by (unfold advances; rewrite HL; lia).
  cbn. unfold front_step. rewrite Ha. split_and!; try done; try lia. intros Ht. congruence.
Qed.

Lemma backfill_hole_egress c used f s id cur snt b d h s' es :
  good used f s -> active (roles s) = Some id -> live_at used f (timeline s) (roles s) (srcs id) cur snt b d ->
  serves (srcs id) c -> h ∈ active_input_holes (roles s) -> backfill_hole c s h = (s', es) -> Forall bounded es ->
  egress used f es s' /\ same_roles (roles s) (roles s') /\
  live_at (used_after used (views es)) (front_after f (views es)) (timeline s') (roles s') (srcs id) cur snt b d /\
  forall x, x ∈ active_input_holes (roles s) -> x <> h -> x ∈ active_input_holes (roles s').
Proof.
  intros Hg Hact Hl Hsv Hh Hb Hbd. pose proof Hl as [L1 L2 L4 Ls L3 L5 L6 L7 L8 Lt L9]. pose proof Hg as [Hc Hfr Hst Ht _ Hfull].
  unfold backfill_hole in Hb. destruct (cache_get c h) as [p|] eqn:Eg.
  2: { injection Hb as <- <-. split_and!; [by apply egress_nil|done|done|done]. }
  destruct (sv_get _ _ Hsv _ _ Eg) as (Es & Hp). destruct Hp as (_ & Hclk & Hticks & _). rewrite Es in Hclk.
  destruct (L9 h Hh) as (Hh1 & Hh2 & Hh3 & Hh6).
  pose proof (c_epoch _ _ _ _ Hc) as Hep. rewrite L7 in Hep. destruct Hep as (Hne & (T & ET & HT) & HL & HX & HM & _).
  rewrite L8 in ET. injection ET as ET. set (τ := wrapping_add 64 (rtp_ticks p) (wrap 64 d)) in *. unfold emit_with in Hb.
  assert (rewrite_live (timeline s) p = apply (timeline s) p (h + b) τ) as Erw.
  { unfold rewrite_live. rewrite Es, L5, L6. f_equal. apply wrapping_add_small; lia. }
  rewrite Erw in Hb. destruct (apply (timeline s) p (h + b) τ) as [t' out] eqn:Eap.
  destruct (apply_spec _ _ _ _ _ _ Eap) as (Ev & B1 & B2 & B3 & B4 & B5). injection Hb as <- <-. apply Forall_cons in Hbd as [[_ Hbo] _].
  assert (0 <= clock (srcs id) h + d /\ τ = clock (srcs id) h + d /\ τ < 2 ^ 63) as (Hτ0 & Eτ & Hτ).
  { pose proof Ev as Ev'. unfold view in Ev'. injection Ev' as _ Et _. rewrite Et in Hbo. rewrite <- Hclk.
    destruct (wrapping_add_clock (rtp_ticks p) d ltac:(lia) ltac:(lia) Hbo). done. }
  unfold egress. assert (views [out] = [(h + b, τ, marker p)]) as -> by (cbn; by rewrite Ev).
  destruct (behind_front used f (h + b) τ (marker p) (snt + b) L7 ltac:(lia) Hh2 ltac:(lia) Hh3) as (A1 & -> & ->).
  assert (max_output t' = max_output (timeline s) /\ max_output_ts t' = Z.max (max_output_ts (timeline s)) τ) as [Emo Emt].
  { pose proof (Hfr _ L7). destruct (epoch (timeline s)) eqn:Ee; [|done]. split; [lia|done]. }
  assert (live_at ({[h + b]} ∪ used) f t' (set_input_holes (active_input_holes (roles s) ∖ {[h]}) (roles s)) (srcs id) cur snt b d) as Hl'.
  { split; rewrite ?B1, ?B2, ?Emt; try done.
    - destruct (Z.le_gt_cases τ (max_output_ts (timeline s))); [by rewrite Z.max_l|]. rewrite Z.max_r by lia.
      right. exists h. split_and!; lia.
    - intros x Hx. cbn in Hx. apply elem_of_difference in Hx as [Hx Hxh]. destruct (L9 x Hx) as (? & ? & ? & ?). split_and!; try done; try lia.
      set_solver by lia. }
  split_and!; [done| |done|done|intros x Hx Hxh; cbn; set_solver].
  assert (core ({[h + b]} ∪ used) f t' (note_emitted (output s) (seq_no out) (marker out) (rtp_ticks out))) as Hc'.
  { pose proof (emit_core used f _ _ p (h + b) τ t' out Hc Hh3 ltac:(lia) ltac:(lia)) as H.
    unfold front_step, advances in H. rewrite L7 in H. rewrite (proj2 (Z.ltb_ge (snt + b) (h + b))) in H by lia.
    by apply H. }
  split; cbn [timeline output roles selector with_roles]; try done; rewrite ?Emo; try done.
  - intros tl x Etl Hx. destruct (Ht tl x Etl Hx) as (H1 & H2 & H3). split_and!; [|done|done].
    apply not_elem_of_union. split; [|done]. intros ->%elem_of_singleton. by apply (Hh6 tl Etl).
  - intros id' Hid'. cbn in Hid'. rewrite Hact in Hid'. injection Hid' as <-. eauto.
Qed.

(** A loop over the elements of a set the step only removes its own from. *)
Lemma backfill_loop_egress c l used f s id cur snt b d s' es :
  good used f s -> active (roles s) = Some id -> live_at used f (timeline s) (roles s) (srcs id) cur snt b d ->
  serves (srcs id) c -> NoDup l -> (forall h, h ∈ l -> h ∈ active_input_holes (roles s)) ->
  emit_each (backfill_hole c) l s = (s', es) -> Forall bounded es ->
  egress used f es s' /\ same_roles (roles s) (roles s').
Proof.
  revert used f s es. induction l as [|h l IH]; intros used f s es Hg Hact Hl Hsv Hnd Hin He Hb; cbn in He.
  { injection He as <- <-. split; [by apply egress_nil|done]. }
  destruct (backfill_hole c s h) as [s1 e1] eqn:E1. destruct (emit_each (backfill_hole c) l s1) as [s2 e2] eqn:E2.
  injection He as <- <-. apply Forall_app in Hb as [Hb1 Hb2]. apply NoDup_cons in Hnd as [Hnh Hnd].
  destruct (backfill_hole_egress c used f s id cur snt b d h s1 e1 Hg Hact Hl Hsv (Hin h ltac:(set_solver)) E1 Hb1)
    as (H1 & (Ha & Hd & Hst) & Hl' & Hkeep).
  destruct (IH _ _ s1 e2 (proj2 H1) ltac:(congruence) Hl' Hsv Hnd) as (H2 & Ha2 & Hd2 & Hst2); [|done|done|].
  - intros x Hx. apply Hkeep; [set_solver|]. intros ->. done.
  - split; [by eapply egress_app|]. unfold same_roles. split_and!; congruence.
Qed.

Lemma pull_active_egress c used f s id s' es :
  good used f s -> active (roles s) = Some id -> serves (srcs id) c -> pull_active s c = (s', es) ->
  Forall bounded es -> egress used f es s' /\ same_roles (roles s) (roles s').
Proof.
  intros Hg Hact Hsv Hp Hb. destruct (g_live _ _ _ Hg _ Hact) as (cur & snt & b & d & Hl).
  assert (backfill_active_holes s c = (s', es) -> egress used f es s' /\ same_roles (roles s) (roles s')) as Hback.
  { intros E. eapply backfill_loop_egress; [done|done|exact Hl|exact Hsv|apply NoDup_in_order| |exact E|exact Hb].
    intros h. apply elem_of_in_order. }
  unfold pull_active in Hp. rewrite (l_cursor _ _ _ _ _ _ _ _ _ Hl) in Hp.
  destruct (sv_range _ _ Hsv cur (l_cur_ok _ _ _ _ _ _ _ _ _ Hl)) as [Hs Hf].
  destruct (range_after c cur) as [|p l] eqn:Er; [by apply Hback|].
  eapply pull_loop_egress; [done|done|exact Hl|exact Hf|exact Hs|exact Hp|exact Hb].
Qed.

(** ** The tail of the stream that was left *)

Lemma drain_hole_egress c tl used f s x s' es t0 :
  good used f s -> tail (roles s) = Some t0 -> x ∈ tail_holes t0 -> drain_hole c tl s x = (s', es) ->
  egress used f es s' /\ same_roles (roles s) (roles s') /\
  exists t1, tail (roles s') = Some t1 /\ forall y, y ∈ tail_holes t0 -> y <> x -> y ∈ tail_holes t1.
Proof.
  intros Hg Etl Hx Hd. pose proof Hg as [Hc Hfr Hst Ht Hlv Hfull]. unfold drain_hole in Hd.
  destruct (cache_get c _) as [p|].
  2: { injection Hd as <- <-. split_and!; [by apply egress_nil|done|]. eauto. }
  rewrite Etl in Hd. set (out := translate_dd_frame _ _) in Hd. injection Hd as <- <-.
  destruct (Ht t0 x Etl Hx) as (H1 & H2 & L & HL & Hlt). unfold egress.
  assert (exists τ, views [out] = [(x, τ, marker p)]) as [τ ->].
  { unfold out. cbn. rewrite (proj1 (translate_view _ _)). cbn. eauto. }
  pose proof (c_epoch _ _ _ _ Hc) as Hep. rewrite HL in Hep. destruct Hep as (_ & _ & K3 & _).
  destruct (behind_front used f x τ (marker p) L HL Hlt H2 ltac:(lia) H1) as (A1 & -> & ->).
  split_and!; [done| |done|eexists; split; [done|]; cbn; set_solver].
  split; cbn [timeline output roles selector with_roles with_output]; try done.
  - destruct Hc as [C1 C3 C4 C7 C5 C6]. split; try done.
    + rewrite HL in C3 |- *. exact C3.
    + intros y L' Hy EL'. rewrite HL in EL'. injection EL' as <-. apply elem_of_union in Hy as [->%elem_of_singleton|Hy]; [lia|].
      by apply (C4 y L).
    + intros L' EL'. specialize (C7 L' EL'). set_solver.
  - intros tl' y Etl' Hy. injection Etl' as <-. cbn in Hy. apply elem_of_difference in Hy as [Hy Hne].
    destruct (Ht t0 y Etl Hy) as (M1 & M2 & M3). split_and!; try done. set_solver.
  - intros id Hid. destruct (Hlv id Hid) as (cur & snt & b & d & [M1 M2 M3 M4 M5 M6 M7 M8 M9 M10 M11]). exists cur, snt, b, d. split; try done.
    intros h Hh. destruct (M11 h Hh) as (? & ? & Hu & Hdis). split; [done|]. split; [done|]. split.
    + apply not_elem_of_union. split; [|done]. intros E%elem_of_singleton. apply (Hdis t0 Etl). by rewrite E.
    + intros tl' Etl'. injection Etl' as <-. cbn. specialize (Hdis t0 Etl). set_solver.
Qed.

Lemma drain_loop_egress c tl l used f s s' es t0 :
  good used f s -> tail (roles s) = Some t0 -> NoDup l -> (forall x, x ∈ l -> x ∈ tail_holes t0) ->
  emit_each (drain_hole c tl) l s = (s', es) -> egress used f es s' /\ same_roles (roles s) (roles s').
Proof.
  revert used f s es t0. induction l as [|x l IH]; intros used f s es t0 Hg Etl Hnd Hin He; cbn in He.
  { injection He as <- <-. split; [by apply egress_nil|done]. }
  destruct (drain_hole c tl s x) as [s1 e1] eqn:E1. destruct (emit_each (drain_hole c tl) l s1) as [s2 e2] eqn:E2.
  injection He as <- <-. apply NoDup_cons in Hnd as [Hnx Hnd].
  destruct (drain_hole_egress c tl used f s x s1 e1 t0 Hg Etl (Hin x ltac:(set_solver)) E1) as (H1 & (Ha & Hd & Hst) & t1 & Et1 & Hkeep).
  destruct (IH _ _ s1 e2 t1 (proj2 H1) Et1 Hnd) as (H2 & Ha2 & Hd2 & Hst2); [|done|].
  - intros y Hy. apply Hkeep; [set_solver|]. intros ->. done.
  - split; [by eapply egress_app|]. unfold same_roles. split_and!; congruence.
Qed.

(** Dropping the tail. *)
Lemma good_no_tail used f s d : good used f s -> good used f (with_roles s (set_tail d None (roles s))).
Proof.
  intros [Hc Hfr Hst Ht Hlv Hfull]. split; try done. intros id Hid.
  destruct (Hlv id Hid) as (cur & snt & b & d' & [M1 M2 M3 M4 M5 M6 M7 M8 M9 M10 M11]). exists cur, snt, b, d'. split; try done.
  intros h Hh. destruct (M11 h Hh) as (? & ? & ? & _). split_and!; try done; lia.
Qed.

Lemma drain_tail_egress c now used f s s' es :
  good used f s -> drain_tail s c now = (s', es) ->
  egress used f es s' /\ active (roles s') = active (roles s) /\ staging (roles s') = staging (roles s).
Proof.
  intros Hg. unfold drain_tail. destruct (tail (roles s)) as [tl|] eqn:Etl.
  2: { intros [= <- <-]. split; [by apply egress_nil, good_no_tail|done]. }
  destruct (_ <=? now); [intros [= <- <-]; split; [by apply egress_nil, good_no_tail|done]|].
  destruct (emit_each _ _ s) as [s1 e1] eqn:E1. intros [= <- <-].
  destruct (drain_loop_egress c tl _ used f s s1 e1 tl Hg Etl (NoDup_in_order _) ltac:(intros x; apply elem_of_in_order) E1)
    as ([A1 G1] & Ha & Hd & Hst).
  destruct (tail (roles s1)) as [t1|]; [|by split_and!]. case_bool_decide; [|by split_and!].
  split; [|done]. split; [done|]. by apply good_no_tail.
Qed.

(** ** The switch burst *)

(** A switch always moves the output clock forward. *)
Lemma switch_target_ahead t raw :
  0 <= max_output_ts t < 2 ^ 63 -> 0 <= raw < 2 ^ 64 -> max_output_ts t < switch_target t raw < 2 ^ 64.
Proof.
  intros Ht Hr. unfold switch_target.
  destruct (match frame_interval t with Some i => _ | None => _ end) as [iv|] eqn:Ei.
  - assert (0 < iv) as Hi by (destruct (frame_interval t) as [x|]; [|done]; destruct (Z.ltb_spec 0 x); [|done]; by injection Ei as <-).
    unfold saturating_add, saturating_mul, umax. set (frames := Z.max _ 1). assert (1 <= frames) by lia.
    assert (1 <= frames * iv) by nia. lia.
  - unfold saturating_add, umax, min_switch_advance. lia.
Qed.

(** The next packet of a burst may be sent at [M + 1]. *)
Definition may_follow (f : Front) (t : Timeline) (M τ : Z) : Prop :=
  (fr_max f <> None -> max_output_ts t <= τ) /\
  forall T, fr_ts f = Some T -> T <= τ /\ (T < τ -> fr_closed f = true \/ fr_max f <> Some M).

Lemma burst_packet_egress used f s p M d s' es :
  core used f (timeline s) (output s) -> max_output (timeline s) = M -> 0 <= M <= 2 ^ 63 -> ts_base (timeline s) = wrap 64 d ->
  0 <= rtp_ticks p + d < 2 ^ 64 -> may_follow f (timeline s) M (rtp_ticks p + d) -> burst_packet s p = (s', es) -> Forall bounded es ->
  let used' := used_after used (views es) in let f' := front_after f (views es) in
  admissible used f (views es) /\ core used' f' (timeline s') (output s') /\ roles s' = roles s /\ selector s' = selector s /\
  max_output (timeline s') = M + 1 /\ 0 <= M + 1 < 2 ^ 63 /\ ts_base (timeline s') = wrap 64 d /\ used' = {[M + 1]} ∪ used /\
  fr_max f' = Some (M + 1) /\ fr_ts f' = Some (rtp_ticks p + d) /\ rtp_ticks p + d < 2 ^ 63 /\
  (marker p = true -> fr_closed f' = true) /\ max_output_ts (timeline s') = rtp_ticks p + d.
Proof.
  intros Hc HM HM' Hd Hτ [Hx Hf] Hb Hbd used' f'. unfold burst_packet, emit_with, rewrite_sequential in Hb.
  rewrite HM, Hd in Hb. rewrite (wrapping_add_small (rtp_ticks p) d) in Hb by done.
  assert (wrapping_add 64 M 1 = M + 1) as EM by (apply wrap_small; unfold fits; lia). rewrite EM in Hb.
  set (τ := rtp_ticks p + d) in *. destruct (apply (timeline s) p (M + 1) τ) as [t' out] eqn:Eap. injection Hb as <- <-.
  apply Forall_cons in Hbd as [Hbo _]. destruct (apply_spec _ _ _ _ _ _ Eap) as (Ev & B1 & B2 & B3 & B4 & B5).
  rewrite Hd in B2. pose proof Ev as Ev'. unfold view in Ev'. injection Ev' as Es Et Em. pose proof Hbo as [Hb1 Hb2]. rewrite Es in Hb1. rewrite Et in Hb2.
  assert (forall L, fr_max f = Some L -> L < M + 1) as HLM.
  { intros L EL. pose proof (c_epoch _ _ _ _ Hc) as Hep. rewrite EL in Hep. lia. }
  assert (advances f (M + 1) = true) as Ha by (unfold advances; destruct (fr_max f); [apply Z.ltb_lt; auto|done]).
  assert (M + 1 ∉ used) as Hfresh.
  { intros Hu. destruct (fr_max f) as [L|] eqn:EL; [pose proof (c_used _ _ _ _ Hc _ _ Hu EL); specialize (HLM L eq_refl); lia|].
    pose proof (c_epoch _ _ _ _ Hc) as Hep. rewrite EL in Hep. destruct Hep as (_ & _ & -> & _). set_solver. }
  unfold used', f'. assert (views [out] = [(M + 1, τ, marker p)]) as -> by (cbn; by rewrite Ev).
  cbn [used_after front_after foldl fst snd roles selector timeline output]. split_and!; try done; try lia.
  - cbn. split_and!; try done; try lia. intros _ T ET. destruct (Hf T ET) as [? Hcl]. split; [done|]. intros Hlt.
    destruct (Hcl Hlt) as [?|Hne]; [by left|right]. by replace (M + 1 - 1) with M by lia.
  - eapply emit_core; [exact Hc|done|lia|lia| |exact Eap]. done.
  - rewrite B4. destruct (epoch (timeline s)); [lia|done].
  - unfold front_step. rewrite Ha. repeat case_match; done.
  - unfold front_step. rewrite Ha. destruct (fr_ts f) as [T|] eqn:ET; [|done]. destruct (Hf T eq_refl) as [? _].
    destruct (Z.ltb_spec T τ); [done|]. cbn. f_equal. lia.
  - intros Hm. unfold front_step. rewrite Ha, Hm. destruct (fr_ts f) as [T|] eqn:ET; [|done]. destruct (Hf T eq_refl) as [? _].
    destruct (Z.ltb_spec T τ); [done|]. cbn. rewrite (proj2 (Z.eqb_eq T τ)) by lia. apply orb_true_r.
  - rewrite B5. pose proof (c_epoch _ _ _ _ Hc) as Hep. destruct (fr_max f) as [L|]; [|by rewrite (proj1 Hep)].
    specialize (Hx ltac:(done)). destruct (epoch (timeline s)); lia.
Qed.

Lemma burst_loop_egress ps p0 used f s M d s' es :
  core used f (timeline s) (output s) -> max_output (timeline s) = M -> 0 <= M <= 2 ^ 63 -> ts_base (timeline s) = wrap 64 d ->
  0 <= rtp_ticks p0 + d < 2 ^ 64 -> may_follow f (timeline s) M (rtp_ticks p0 + d) ->
  linked (p0 :: ps) -> Forall (fun p => 0 <= rtp_ticks p < 2 ^ 62) (p0 :: ps) ->
  emit_each burst_packet (p0 :: ps) s = (s', es) -> Forall bounded es ->
  let used' := used_after used (views es) in let f' := front_after f (views es) in
  exists pl N, last (p0 :: ps) = Some pl /\ M < N /\
  admissible used f (views es) /\ core used' f' (timeline s') (output s') /\ roles s' = roles s /\ selector s' = selector s /\
  max_output (timeline s') = N /\ 0 <= N < 2 ^ 63 /\ ts_base (timeline s') = wrap 64 d /\
  fr_max f' = Some N /\ fr_ts f' = Some (rtp_ticks pl + d) /\ (forall x, x ∈ used' -> x ∈ used \/ M < x) /\
  max_output_ts (timeline s') = rtp_ticks pl + d.
Proof.
  revert p0 used f s M es. induction ps as [|p1 ps IH]; intros p0 used f s M es Hc HM HM' Hd Hτ Hf Hlk Htk He Hb; cbv zeta.
  all: cbn [emit_each] in He; destruct (burst_packet s p0) as [s1 e1] eqn:E1.
  - injection He as <- <-. rewrite app_nil_r in *.
    destruct (burst_packet_egress used f s p0 M d s1 e1 Hc HM HM' Hd Hτ Hf E1 Hb) as (A1 & A2 & A3 & A4 & A5 & A6 & A7 & A8 & A9 & A10 & _ & _ & A13).
    exists p0, (M + 1). split_and!; try done; try lia. intros x Hx. rewrite A8 in Hx.
    apply elem_of_union in Hx as [->%elem_of_singleton|Hx]; [right; lia|by left].
  - change (let '(s, e2) := (let '(s, e1) := burst_packet s1 p1 in let '(s, e2) := emit_each burst_packet ps s in (s, e1 ++ e2)) in (s, e1 ++ e2))
      with (let '(s, e2) := emit_each burst_packet (p1 :: ps) s1 in (s, e1 ++ e2)) in He.
    destruct (emit_each burst_packet (p1 :: ps) s1) as [s2 e2] eqn:E2. injection He as <- <-.
    apply Forall_app in Hb as [Hb1 Hb2]. apply Forall_cons in Htk as [Ht0 Htk]. pose proof Htk as [Ht1 _]%Forall_cons.
    destruct (burst_packet_egress used f s p0 M d s1 e1 Hc HM HM' Hd Hτ Hf E1 Hb1) as (A1 & A2 & A3 & A4 & A5 & A6 & A7 & A8 & A9 & A10 & A11 & A12 & A13).
    destruct (Hlk 0%nat p0 p1 eq_refl eq_refl) as [Hle Hmk].
    destruct (IH p1 (used_after used (views e1)) (front_after f (views e1)) s1 (M + 1) e2 A2 A5 ltac:(lia) A7)
      as (pl & N & R1 & R2 & R3 & R4 & R5 & R6 & R7 & R8 & R9 & R10 & R11 & R12 & R13); try done; try lia.
    { split; [lia|]. intros T ET. rewrite A10 in ET. injection ET as <-. split; [lia|]. intros Hlt. left. apply A12, Hmk. lia. }
    { intros i a b Ha Hb'. by apply (Hlk (S i)). }
    assert (used_after used (views (e1 ++ e2)) = used_after (used_after used (views e1)) (views e2)) as Eu
      by (unfold used_after; by rewrite map_app, foldl_app).
    assert (front_after f (views (e1 ++ e2)) = front_after (front_after f (views e1)) (views e2)) as Ef
      by (unfold front_after; by rewrite map_app, foldl_app).
    exists pl, N. rewrite Eu, Ef, map_app. split_and!; try done; try lia; try congruence.
    + by apply admissible_app.
    + intros x Hx. destruct (R12 x Hx) as [Hx'|]; [|right; lia]. rewrite A8 in Hx'.
      apply elem_of_union in Hx' as [->%elem_of_singleton|Hx']; [right; lia|by left].
Qed.

(** ** Switching *)

(** Only the staged stream and how long it has waited differ. *)
Lemma good_staging used f s st blocked : good used f s -> good used f (with_roles s (set_staging st blocked (roles s))).
Proof.
  intros [Hc Hfr Hst Ht Hlv Hfull]. split; try done. intros id Hid.
  destruct (Hlv id Hid) as (cur & snt & b & d & [M1 M2 M3 M4 M5 M6 M7 M8 M9 M10 M11]). exists cur, snt, b, d. by split.
Qed.

Lemma reserve_hole_spec used f s s1 reserved :
  good used f s -> reserve_hole s = (s1, reserved) ->
  let M := max_output (timeline s1) in
  core used f (timeline s1) (output s1) /\ roles s1 = roles s /\ 0 <= M /\ M <= 2 ^ 63 /\
  seq_base (timeline s1) = seq_base (timeline s) /\ ts_base (timeline s1) = ts_base (timeline s) /\
  max_output_ts (timeline s1) = max_output_ts (timeline s) /\ epoch (timeline s1) = epoch (timeline s) /\
  (forall L, fr_max f = Some L -> L <= M /\ (fr_closed f = true \/ L <> M)) /\
  (forall x, reserved = Some x -> x = M /\ exists L, fr_max f = Some L /\ L < x).
Proof.
  intros [Hc Hfr Hst Ht Hlv Hfull]. unfold reserve_hole. destruct (newest_frame_left_open (output s)) eqn:Eo.
  - destruct (last_output (output s)) as [L|] eqn:EL.
    2: { unfold newest_frame_left_open in Eo. by rewrite EL in Eo. }
    rewrite (c_last _ _ _ _ Hc) in EL. pose proof (Hfr L EL) as EM. intros [= <- <-].
    unfold skip_output_sequence. cbn [with_output with_timeline timeline output roles set_sequence max_output seq_base ts_base
      max_output_ts epoch]. rewrite EM.
    assert (wrapping_add 64 L 1 = L + 1) as -> by (apply wrap_small; unfold fits; lia). split_and!; try done; try lia.
    + apply core_set_sequence.
      * destruct Hc as [C1 C3 C4 C7 C5 C6]. by split.
      * intros L' EL'. rewrite EL in EL'. injection EL' as <-. lia.
    + intros L' EL'. rewrite EL in EL'. injection EL' as <-. split; [lia|right; lia].
    + intros x [= <-]. split; [done|]. exists L. split; [done|lia].
  - intros [= <- <-]. split_and!; try done; try lia. intros L EL. rewrite (Hfr L EL). split; [lia|left].
    by eapply left_open_closed.
Qed.

(** The gaps handed to the tail are unused and behind what the burst will use. *)
Lemma opened_tail used f s s1 reserved id now :
  good used f s -> reserve_hole s = (s1, reserved) -> active (roles s) = Some id ->
  exists tl, tail (roles (open_tail s1 now reserved)) = Some tl /\
  forall x, x ∈ tail_holes tl -> (x ∉ used) /\ 0 <= x <= max_output (timeline s1).
Proof.
  intros Hg Er Hact. destruct (reserve_hole_spec used f s s1 reserved Hg Er) as (Hc1 & Hr1 & HM & _ & Hsb & _ & _ & _ & HL & Hres).
  pose proof Hg as [Hc Hfr Hst Ht Hlv Hfull]. destruct (Hlv id Hact) as (cur & snt & b & d & [L1 L2 L4 Ls L3 L5 L6 L7 L8 Lt L9]).
  destruct (HL _ L7) as [HLM _]. unfold open_tail. cbn. eexists. split; [done|]. cbn. rewrite Hr1, Hsb, L5.
  assert (forall x, x ∈ (set_map (fun i => wrapping_add 64 i (wrap 64 b)) (active_input_holes (roles s)) : gset Z) ->
    (x ∉ used) /\ 0 <= x <= max_output (timeline s1)) as Hmap.
  { intros x Hx. apply elem_of_map in Hx as (h & -> & Hh). destruct (L9 h Hh) as (? & ? & ? & _).
    pose proof (c_epoch _ _ _ _ Hc) as Hep. rewrite L7 in Hep. destruct Hep as (_ & _ & ? & _).
    rewrite wrapping_add_small by lia. split; [done|lia]. }
  intros x Hx. destruct reserved as [q|]; [|by apply Hmap]. apply elem_of_union in Hx as [->%elem_of_singleton|Hx]; [|by apply Hmap].
  destruct (Hres q eq_refl) as (-> & L & EL & Hlt). split; [|lia]. intros Hu. pose proof (c_used _ _ _ _ Hc _ _ Hu EL). lia.
Qed.

(** The translation of the new stream puts its first packet after everything
    sent so far. *)
Lemma rebase_spec used f t o p M :
  core used f t o -> max_output t = M -> 0 <= rtp_ticks p < 2 ^ 62 ->
  (forall L, fr_max f = Some L -> L <= M /\ (fr_closed f = true \/ L <> M)) ->
  exists d, core used f (rebase t p) o /\ max_output (rebase t p) = M /\ ts_base (rebase t p) = wrap 64 d /\
    0 <= rtp_ticks p + d < 2 ^ 64 /\ may_follow f (rebase t p) M (rtp_ticks p + d).
Proof.
  intros Hc HM Hp HL. assert (forall sb tb, core used f (mkTimeline (clock_rate t) (max_output t) sb (max_output_ts t) tb (epoch t)
    (frame_interval t) true (max_output_dd_frame t) None) o) as Hc'.
  { intros sb tb. destruct Hc as [C1 C3 C4 C7 C5 C6]. by split. }
  unfold rebase. pose proof (c_epoch _ _ _ _ Hc) as Hep. destruct (fr_max f) as [L|] eqn:EL.
  - destruct Hep as (Hne & (T0 & ET & HT0) & HLr & HT & _). destruct (epoch t) as [[at_ ets]|] eqn:Ee; [|done].
    set (target := switch_target t _). assert (max_output_ts t < target < 2 ^ 64) as Htg.
    { apply switch_target_ahead; [lia|]. apply wrap_fits. lia. }
    exists (target - rtp_ticks p). split_and!; [rewrite <- Ee in *; apply Hc'|done|done|lia|lia|].
    replace (rtp_ticks p + (target - rtp_ticks p)) with target by lia. split; [cbn; lia|]. intros T ET'. rewrite ET in ET'. injection ET' as <-.
    split; [lia|]. intros _. destruct (HL L eq_refl) as [_ [?|?]]; [by left|right]. rewrite EL. congruence.
  - destruct Hep as (Ee & ET & _). rewrite Ee. exists 0. split_and!; [rewrite <- Ee; apply Hc'|done|done|lia|lia|].
    split; [congruence|]. intros T ET'. congruence.
Qed.

(** What the burst leaves is a live stream again. *)
Lemma landed (used : gset Z) (s : Switcher) used' f' s5 s' M N pl d id tl :
  core used' f' (timeline s') (output s') -> roles s' = roles s5 -> selector s' = Full ->
  max_output (timeline s') = N -> 0 <= N < 2 ^ 63 -> M < N -> ts_base (timeline s') = wrap 64 d ->
  fr_max f' = Some N -> fr_ts f' = Some (rtp_ticks pl + d) -> (forall x, x ∈ used' -> x ∈ used \/ M < x) ->
  max_output_ts (timeline s') = rtp_ticks pl + d -> seq_ok (seq_no pl) -> 0 <= rtp_ticks pl < 2 ^ 62 -> rtp_ticks pl = clock (srcs id) (seq_no pl) ->
  roles s5 = mkRoles (Some id) (Some (seq_no pl)) ∅ (Some (seq_no pl + 1)) None (active (roles s)) None tl ->
  (forall t x, tl = Some t -> x ∈ tail_holes t -> (x ∉ used) /\ 0 <= x <= M) ->
  good used' f' (with_timeline s' (resync_to_input (timeline s') (seq_no pl))).
Proof.
  intros Hc Hr Hsel Hmo HN HMN Htb Hfm Hft Hu Hmt Hso Htk Hclk Hr5 Htl. unfold resync_to_input. rewrite Hmo.
  split; cbn [timeline output roles selector with_timeline set_sequence max_output]; try done.
  - apply core_set_sequence; [done|]. intros L EL. rewrite Hfm in EL. injection EL as <-. lia.
  - intros L EL. congruence.
  - rewrite Hr, Hr5. intros t x Et Hx. cbn in Et. destruct (Htl t x Et Hx) as [H1 H2]. split_and!; [|lia|exists N; split; [done|lia]].
    intros Hin. destruct (Hu x Hin); [done|lia].
  - rewrite Hr, Hr5. cbn. intros id' [= <-]. exists (seq_no pl), (seq_no pl), (N - seq_no pl), d. split; cbn; try done; rewrite <- ?Hclk; try done.
    + unfold seq_ok in Hso. lia.
    + rewrite Hfm. f_equal. lia.
    + by left.
Qed.

Lemma try_switch_egress c now used f s id s' es :
  good used f s -> staging (roles s) = Some id -> serves (srcs id) c -> try_switch s c now = (s', es) ->
  Forall bounded es -> egress used f es s'.
Proof.
  intros Hg0 Hstg Hsv. unfold try_switch.
  assert (exists blocked, (may_switch_now s now).1 = with_roles s (set_staging (staging (roles s)) blocked (roles s))) as [bl Ems].
  { unfold may_switch_now. destruct (at_clean_frame_boundary _); eauto. }
  destruct (may_switch_now s now) as [s1 may]. cbn [fst] in Ems.
  assert (good used f s1 /\ staging (roles s1) = Some id /\ active (roles s1) = active (roles s)) as (Hg & Hst1 & Hac1)
    by (rewrite Ems; split_and!; [by apply good_staging|done|done]).
  clear Ems bl Hg0. destruct may; cbn [negb]; [|intros [= <- <-] _; by apply egress_nil].
  destruct (replay c) as [ps|] eqn:Erp; [|intros [= <- <-] _; by apply egress_nil].
  destruct (sv_replay _ _ Hsv ps Erp) as (Htk & Hlk & pl & El & Hso & Hclk).
  destruct ps as [|p0 ps]; [done|]. rewrite El. destruct (reserve_hole s1) as [s2 reserved] eqn:Er.
  destruct (reserve_hole_spec used f s1 s2 reserved Hg Er) as (Hc2 & Hr2 & HM0 & HM1 & _ & _ & _ & _ & HL & _).
  set (s3 := match active (roles s2) with Some _ => open_tail s2 now reserved | None => s2 end).
  assert (timeline s3 = timeline s2 /\ output s3 = output s2 /\ staging (roles s3) = Some id /\ active (roles s3) = active (roles s1))
    as (Et3 & Eo3 & Es3 & Ea3) by (unfold s3; destruct (active (roles s2)) eqn:Ea; cbn; rewrite ?Hr2 in *; split_and!; congruence).
  assert (forall t x, tail (roles s3) = Some t -> x ∈ tail_holes t -> (x ∉ used) /\ 0 <= x <= max_output (timeline s2)) as Htl.
  { unfold s3. rewrite Hr2. destruct (active (roles s1)) as [id1|] eqn:Ea.
    - destruct (opened_tail used f s1 s2 reserved id1 now Hg Er Ea) as (tl & Etl & Hx). intros t x Et. rewrite Etl in Et.
      injection Et as <-. apply Hx.
    - intros t x Et Hx. rewrite Hr2 in Et. destruct (g_tail _ _ _ Hg t x Et Hx) as (H1 & H2 & L & EL & Hlt).
      destruct (HL L EL) as [? _]. split; [done|lia]. }
  clearbody s3. cbv zeta. rewrite <- Et3, <- Eo3 in *. set (M := max_output (timeline s3)) in *.
  destruct (rebase_spec used f (timeline s3) (output s3) p0 M Hc2 eq_refl) as (d & Hc4 & HM4 & Htb & Hτ & Hfol);
    [by apply Forall_cons in Htk as [? _]|done|].
  set (s5 := with_timeline (promote s3 (seq_no pl)) _). destruct (emit_each burst_packet (p0 :: ps) s5) as [s6 e6] eqn:E6.
  intros [= <- <-] Hb.
  destruct (burst_loop_egress ps p0 used f s5 M d s6 e6 Hc4 HM4 ltac:(lia) Htb Hτ Hfol Hlk Htk E6 Hb)
    as (pl' & N & R1 & R2 & R3 & R4 & R5 & R6 & R7 & R8 & R9 & R10 & R11 & R12 & R13).
  rewrite El in R1. injection R1 as <-. split; [done|].
  assert (wrapping_add 64 (seq_no pl) 1 = seq_no pl + 1) as Ec by (apply wrap_small; unfold fits, seq_ok, SEQ_LIMIT in *; lia).
  eapply (landed used s3 _ _ s5 s6 M N pl d id (tail (roles s3))); try done; [|by unfold s5; cbn; rewrite Es3, Ec].
  apply last_Some_elem_of in El. rewrite Forall_forall in Htk. by apply Htk.
Qed.

(** ** One delivery *)

(** Every encoding of a track is served from its own stream. *)
Definition track_serves (track : TrackId) (tc : TrackStreamCache) : Prop :=
  forall e c, encoding tc e = Some c -> serves (srcs (track, e)) c.

Lemma role_cache_serves track tc role c :
  track_serves track tc -> role_cache track tc role = Some c -> exists id, role = Some id /\ serves (srcs id) c.
Proof.
  intros Ht. unfold role_cache. destruct role as [[t e]|]; [|done]. case_bool_decide as E; [|done]. subst t.
  intros Hc. exists (track, e). split; [done|by apply Ht].
Qed.

Lemma feed_egress track tc now used f s s' es :
  good used f s -> track_serves track tc -> feed s track tc now = (s', es) -> Forall bounded es -> egress used f es s'.
Proof.
  intros Hg Ht. unfold feed.
  destruct (match role_cache track tc (active (roles s)) with Some c => _ | None => _ end) as [s1 e1] eqn:E1.
  destruct (match role_cache track tc (draining (roles s1)) with Some c => _ | None => _ end) as [s2 e2] eqn:E2.
  destruct (match role_cache track tc (staging (roles s2)) with Some c => _ | None => _ end) as [s3 e3] eqn:E3.
  intros [= <- <-] Hb. apply Forall_app in Hb as [Hb1 Hb]. apply Forall_app in Hb as [_ Hb3].
  eapply (egress_app _ _ _ _ s1); [|intros Hg1; eapply (egress_app _ _ _ _ s2); [|intros Hg2]].
  - destruct (role_cache track tc (active (roles s))) as [c|] eqn:Er; [|injection E1 as <- <-; by apply egress_nil].
    destruct (role_cache_serves _ _ _ _ Ht Er) as (id & Hid & Hsv). by eapply pull_active_egress.
  - destruct (role_cache track tc (draining (roles s1))) as [c|]; [|injection E2 as <- <-; by apply egress_nil].
    by eapply drain_tail_egress.
  - destruct (role_cache track tc (staging (roles s2))) as [c|] eqn:Er; [|injection E3 as <- <-; by apply egress_nil].
    destruct (role_cache_serves _ _ _ _ Ht Er) as (id & Hid & Hsv). by eapply try_switch_egress.
Qed.

Lemma good_new rate random : good ∅ front0 (switcher_new rate random).
Proof.
  split; try done. cbn. change 0xFFFF with (Z.ones 16). rewrite Z.land_ones by lia.
  pose proof (Z.mod_pos_bound random (2 ^ 16)). lia.
Qed.

Lemma good_switch_to used f s target : good used f s -> good used f (switch_to s target).
Proof.
  intros Hg. unfold switch_to. case_bool_decide; [destruct (staging _); [by apply good_staging|done]|].
  case_bool_decide; [done|]. case_bool_decide; [|by apply good_staging].
  exact (good_staging _ _ _ (Some target) None (good_no_tail _ _ _ None Hg)).
Qed.

Lemma good_stop used f s : good used f s -> good used f (stop s).
Proof. intros [Hc Hfr Hst Ht Hlv Hfull]. by split. Qed.

(** ** A subscriber and the tracks it may be switched between *)

Inductive Event :=
| Arrive (id : StreamId (TrackId := TrackId)) (p : RtpPacket) (now : Z)
| Ask (id : StreamId (TrackId := TrackId))
| Halt.

Record System := mkSystem { caches : TrackId -> TrackStreamCache; slot : Switcher }.

Definition store (cs : TrackId -> TrackStreamCache) (id : TrackId * SourceEncoding) (p : RtpPacket) : TrackId -> TrackStreamCache :=
  fun t => if decide (t = id.1) then (push_encoding (cs t) id.2 p).1 else cs t.

(** A packet is cached and the slot is offered its track. *)
Definition run_event (y : System) (ev : Event) : System * list RtpPacket :=
  match ev with
  | Arrive id p now =>
      let cs := store (caches y) id p in
      let '(s, es) := feed (slot y) id.1 (cs id.1) now in (mkSystem cs s, es)
  | Ask id => (mkSystem (caches y) (switch_to (slot y) id), [])
  | Halt => (mkSystem (caches y) (stop (slot y)), [])
  end.

Fixpoint run (y : System) (evs : list Event) : System * list RtpPacket :=
  match evs with
  | [] => (y, [])
  | ev :: evs => let '(y, e1) := run_event y ev in let '(y, e2) := run y evs in (y, e1 ++ e2)
  end.

Definition system_new (rate random : Z) : System := mkSystem (fun _ => track_cache_new) (switcher_new rate random).

(** Each packet arrives on the stream it is of. *)
Definition event_ok (ev : Event) : Prop := match ev with Arrive id p _ => of_stream (srcs id) p | _ => True end.

Definition system_ok (y : System) : Prop :=
  forall t e c, encoding (caches y t) e = Some c -> cache_ok (srcs (t, e)) c.

Lemma push_encoding_ok (src : SourceEncoding -> Source) tc e p :
  (forall e' c, encoding tc e' = Some c -> cache_ok (src e') c) -> of_stream (src e) p ->
  forall e' c, encoding (push_encoding tc e p).1 e' = Some c -> cache_ok (src e') c.
Proof.
  intros Htc Hp e' c. rewrite encoding_push. case_decide as E; [|apply Htc]. subst e'.
  intros [= <-]. apply cache_push_ok; [|done]. destruct (encoding tc e) as [c0|] eqn:Ee; [by apply Htc|apply cache_new_ok].
Qed.

Lemma run_event_egress y ev used f y' es :
  system_ok y -> good used f (slot y) -> event_ok ev -> run_event y ev = (y', es) -> Forall bounded es ->
  system_ok y' /\ egress used f es (slot y').
Proof.
  intros Hy Hg Hev. destruct ev as [[t e] p now|id|]; cbn [run_event].
  - assert (system_ok (mkSystem (store (caches y) (t, e) p) (slot y))) as Hy'.
    { intros t' e' c. unfold store. cbn. destruct (decide (t' = t)) as [->|]; [|apply Hy].
      apply (push_encoding_ok (fun e => srcs (t, e))); [apply Hy|done]. }
    destruct (feed _ _ _ now) as [s1 e1] eqn:Ef. intros [= <- <-] Hb. split; [exact Hy'|].
    eapply feed_egress; [done| |exact Ef|done]. intros e' c Hc. by apply cache_serves, Hy'.
  - intros [= <- <-] _. split; [done|]. by apply egress_nil, good_switch_to.
  - intros [= <- <-] _. split; [done|]. by apply egress_nil, good_stop.
Qed.

Lemma run_egress evs y used f y' es :
  system_ok y -> good used f (slot y) -> Forall event_ok evs -> run y evs = (y', es) -> Forall bounded es ->
  admissible used f (views es).
Proof.
  revert y used f es. induction evs as [|ev evs IH]; intros y used f es Hy Hg Hevs Hr Hb; cbn in Hr.
  { by injection Hr as <- <-. }
  apply Forall_cons in Hevs as [Hev Hevs]. destruct (run_event y ev) as [y1 e1] eqn:E1. destruct (run y1 evs) as [y2 e2] eqn:E2.
  injection Hr as <- <-. apply Forall_app in Hb as [Hb1 Hb2].
  destruct (run_event_egress y ev used f y1 e1 Hy Hg Hev E1 Hb1) as (Hy1 & A1 & G1).
  rewrite map_app. apply admissible_app. split; [done|]. by eapply IH.
Qed.

End Egress.

(** Two encodings of one track, each frame two packets; the subscriber is
    switched from the first to the second while a packet of the first is late.
    Packet 15 has an old timestamp: it is passed over, and sent later in the gap
    that was kept for its stream. *)
Definition quarter : Z * SourceEncoding := (1, Rid (Some "q"%string)).
Definition half : Z * SourceEncoding := (1, Rid (Some "h"%string)).

Definition demo_source (id : Z * SourceEncoding) : Source :=
  mkSource (fun s => if s =? 15 then 15000 else 3000 * (s `div` 2)) (fun _ => 0).

Definition demo_packet (id : Z * SourceEncoding) (s : Z) (key : bool) : RtpPacket :=
  mkPacket 7 (Z.odd s) ext_default s (mkTime (clock (demo_source id) s) VIDEO_FREQUENCY) 0 0 key (Z.even s) 0 0 [].

Definition demo_arrive (id : Z * SourceEncoding) (s : Z) (key : bool) (now : Z) : Event :=
  Arrive id (demo_packet id s key) (millis now).

Definition demo_events : list (Event (TrackId := Z)) :=
  [Ask quarter; demo_arrive quarter 10 true 0; demo_arrive quarter 11 false 0;
   demo_arrive quarter 12 false 33; demo_arrive quarter 14 false 66;
   demo_arrive quarter 15 false 66; Ask half; demo_arrive half 100 true 66; demo_arrive half 101 false 70; demo_arrive half 102 false 90;
   demo_arrive half 103 false 95; demo_arrive quarter 13 false 96; demo_arrive half 104 false 99; Halt; demo_arrive half 105 false 105].


(** ** Shedding a layer *)

(** The same run with a lowered decode target between events. *)
Inductive Step :=
| Ev (ev : Event (TrackId := Z))
| Lower (t : DecodeTargetSelection).

Fixpoint run_steps (y : System) (l : list Step) : list RtpPacket :=
  match l with
  | [] => []
  | Ev ev :: l => let '(y, es) := run_event y ev in es ++ run_steps y l
  | Lower t :: l => run_steps (mkSystem (caches y) (set_decode_target (slot y) t)) l
  end.

Definition shed_packet_of (s t : Z) (m key : bool) (d : DecodeTargetIndication) : RtpPacket :=
  mkPacket 7 m (mkExt None None None
    (Some (mkDescriptor true true 0 0 None None 0 (mkTemplate 0 0 [d] [] []) None)) None [])
    s (mkTime t VIDEO_FREQUENCY) 0 0 key true 0 0 [].

Definition shed_start : list Step :=
  [Ev (Ask quarter); Ev (Arrive quarter (shed_packet_of 9 0 true true Switch) 0); Lower (Target 0);
   Ev (Arrive quarter (shed_packet_of 10 3000 false false Required) 1);
   Ev (Arrive quarter (shed_packet_of 12 6000 false false NotPresent) 2)].

Definition shed_switch : list Step := shed_start ++
  [Ev (Arrive quarter (shed_packet_of 14 6000 true false NotPresent) 3); Ev (Ask half);
   Ev (Arrive half (shed_packet_of 100 500 true true Switch) 4);
   Ev (Arrive half (shed_packet_of 101 3500 true false Required) (millis 20));
   Ev (Arrive quarter (shed_packet_of 13 6000 false false Required) (millis 21))].

Definition shed_backfill : list Step := shed_start ++
  [Ev (Arrive quarter (shed_packet_of 11 4000 false false Required) 3)].

(** Why frames must not be resumed: packet 11 of a newer frame fills a gap behind
    packet 12 of an older, unfinished one, and packet 13 resumes the newer frame.
    The switcher compares it with the latest time sent and leaves no gap. *)
Definition resumed : list Step :=
  [Ev (Ask quarter); Ev (Arrive quarter (shed_packet_of 9 0 true true Switch) 0);
   Ev (Arrive quarter (shed_packet_of 10 3000 false false Required) 1);
   Ev (Arrive quarter (shed_packet_of 12 3000 false false Required) 2);
   Ev (Arrive quarter (shed_packet_of 11 6000 false false Required) 3);
   Ev (Arrive quarter (shed_packet_of 13 6000 false false Required) 4)].

Lemma resumed_frame_splices :
  check_all history_default (views (run_steps (system_new 90000 0) resumed)) = [TruncatedFrameLooksComplete 3000 6000].
Proof. vm_compute. reflexivity. Qed.


(** And filling a hole that a shed packet left can advance the output: the
    frame that was cut short is then followed at once by another timestamp. *)
Lemma shed_backfill_splices :
  check_all history_default (views (run_steps (system_new 90000 0) shed_backfill)) =
    [TruncatedFrameLooksComplete 3000 4000].
Proof. vm_compute. reflexivity. Qed.
