(* ===== verification/FeedbackReceiver.v ===== *)
(** * Transport feedback: the receiving side

    Models [crates/pulsebeam-feedback/src/receiver.rs]: the bounded history of
    received packets from which feedback reports are made. A [VecDeque] is a
    list with the capacity of its backing ([backing]); what the allocator grants
    is an argument of [reserve]. [usize] and [u64] are both 64 bits wide. *)

From stdpp Require Import sorting.
From S2P Require Import Prelude.

Inductive Ecn := NotEct | Ect1 | Ect0 | Ce.
Inductive FeedbackError := InvalidConfig | InvalidRange | WrongEpoch | WrongSpace | StaleReport | Exhausted.

Inductive ReportOrder := Continuous (space : Z) | Independent.

Record ReceiverConfig := mkReceiverConfig {
  capacity : Z;
  max_report_statuses : Z;
  interval : Z;
  order : ReportOrder;
}.

Record Receipt := mkReceipt {
  r_space : Z;
  packet : Z;
  arrived_at : Z;
  ecn : option Ecn;
  tag : Z;
}.

Record Entry := mkEntry { receipt : Receipt; pending : bool }.

Inductive Observation := Inserted (retired : nat) | Duplicate | TooOld.

Record ReportWindow := mkReportWindow {
  w_epoch : Z;
  w_space : Z;
  base : Z;
  count : Z;
  w_version : Z;
}.

#[export] Instance ReportWindow_eq_dec : EqDecision ReportWindow.
Proof. solve_decision. Defined.

Record Receiver := mkReceiver {
  config : ReceiverConfig;
  epoch : Z;
  receipts : list Entry;
  backing : Z;
  highest : option Z;
  next : option Z;
  deadline : option Z;
  version : Z;
}.

Abbreviation key e := (packet (receipt e)).
Abbreviation space_of e := (r_space (receipt e)).
Abbreviation outcome := (result FeedbackError).

(** [Duration::saturating_add] *)
Definition DURATION_MAX : Z := (2 ^ 64 - 1) * NANOS_PER_SEC + (NANOS_PER_SEC - 1).
Definition duration_add (a b : Z) : Z := Z.min (a + b) DURATION_MAX.

Section Storage.
(** [size_of::<Entry>()] *)
Context (entry_size : Z).

Definition minimum_storage_bytes (c : ReceiverConfig) : option Z :=
  if capacity c * entry_size <=? umax 64 then Some (capacity c * entry_size) else None.

Definition receiver_new (c : ReceiverConfig) (e : Z) : outcome Receiver :=
  if (capacity c =? 0) || (max_report_statuses c =? 0) || (interval c =? 0)
     || bool_decide (minimum_storage_bytes c = None)
  then Err InvalidConfig
  else Ok (mkReceiver c e [] 0 None None None 0).

Definition storage_bytes (r : Receiver) : Z := saturating_mul 64 (backing r) entry_size.

Definition with_backing (b : Z) (r : Receiver) : Receiver :=
  mkReceiver (config r) (epoch r) (receipts r) b (highest r) (next r) (deadline r) (version r).

(** [granted]: the capacity [try_reserve_exact] obtains, if it does. *)
Definition reserve (r : Receiver) (limit : Z) (granted : option Z) : Receiver * outcome Z :=
  if capacity (config r) <=? backing r then
    let bytes := storage_bytes r in
    (r, if bytes <=? limit then Ok bytes else Err Exhausted)
  else
    match minimum_storage_bytes (config r) with
    | Some bytes =>
        if bytes <=? limit then
          match granted with
          | None => (r, Err Exhausted)
          | Some b =>
              if (b * entry_size <=? umax 64) && (b * entry_size <=? limit)
              then (with_backing b r, Ok (b * entry_size)) else (r, Err Exhausted)
          end
        else (r, Err Exhausted)
    | None => (r, Err Exhausted)
    end.
End Storage.

(** [binary_search_by_key] on a deque sorted by strictly increasing packet: the
    entry with that packet, or where it would go. *)
Fixpoint search (l : list Entry) (p : Z) : nat + nat :=
  match l with
  | [] => inr 0%nat
  | e :: l =>
      if key e <? p then match search l p with inl i => inl (S i) | inr i => inr (S i) end
      else if key e =? p then inl 0%nat else inr 0%nat
  end.

Definition min_of (l : list Z) : option Z :=
  foldl (fun acc x => Some (match acc with Some a => Z.min a x | None => x end)) None l.
Definition max_of (l : list Z) : option Z :=
  foldl (fun acc x => Some (match acc with Some a => Z.max a x | None => x end)) None l.

Definition highest_of (r : Receiver) (s : Z) : option Z :=
  match order (config r) with
  | Continuous expected => if s =? expected then highest r else None
  | Independent => max_of (map (fun e => key e) (filter (fun e => space_of e = s) (receipts r)))
  end.

Definition find_receipt (r : Receiver) (s p : Z) : option Receipt :=
  match order (config r) with
  | Continuous expected =>
      if s =? expected then
        match search (receipts r) p with inl i => e ← receipts r !! i; Some (receipt e) | inr _ => None end
      else None
  | Independent => '(_, e) ← list_find (fun e => space_of e = s /\ key e = p) (receipts r); Some (receipt e)
  end.

(** [VecDeque::insert] at an index within the deque. *)
Definition insert_at (i : nat) (e : Entry) (l : list Entry) : list Entry := take i l ++ e :: drop i l.

(** [while front < floor { pop_front }] *)
Fixpoint retire_below (floor : Z) (l : list Entry) : list Entry * nat :=
  match l with
  | [] => ([], 0%nat)
  | e :: l' => if key e <? floor then let '(l', n) := retire_below floor l' in (l', S n) else (l, 0%nat)
  end.

(** The end of [observe]: room for one more, and the new entry at [index]. *)
Definition admit_receipt (r : Receiver) (x : Receipt) (version' : Z) (index retired : nat) : Receiver * outcome Observation :=
  let full := Z.of_nat (length (receipts r)) =? capacity (config r) in
  let l := if full then tail (receipts r) else receipts r in
  let index := if full then pred index else index in
  let retired := if full then S retired else retired in
  (mkReceiver (config r) (epoch r) (insert_at index (mkEntry x true) l) (backing r) (highest r) (next r)
     (Some (match deadline r with Some d => d | None => duration_add (arrived_at x) (interval (config r)) end))
     version', Ok (Inserted retired)).

Definition observe (r : Receiver) (e : Z) (x : Receipt) : Receiver * outcome Observation :=
  if negb (e =? epoch r) then (r, Err WrongEpoch)
  else if packet x =? umax 64 then (r, Err InvalidRange)
  else if backing r <? capacity (config r) then (r, Err Exhausted)
  else
    match checked_add 64 (version r) 1 with
    | None => (r, Err Exhausted)
    | Some version' =>
        match order (config r) with
        | Continuous s =>
            if negb (s =? r_space x) then (r, Err WrongSpace)
            else
              let sequence := packet x in
              let h := match highest r with Some h => Z.max h sequence | None => sequence end in
              let floor := saturating_sub h (saturating_sub (capacity (config r)) 1) in
              if sequence <? floor then (r, Ok TooOld)
              else
                match search (receipts r) sequence with
                | inl _ => (r, Ok Duplicate)
                | inr index =>
                    let '(l, retired) := retire_below floor (receipts r) in
                    let n := Z.max (match next r with Some n => Z.min n sequence | None => sequence end) floor in
                    admit_receipt (mkReceiver (config r) (epoch r) l (backing r) (Some h) (Some n) (deadline r) (version r))
                      x version' (index - retired) retired
                end
        | Independent =>
            match find_receipt r (r_space x) (packet x) with
            | Some _ => (r, Ok Duplicate)
            | None => admit_receipt r x version' (length (receipts r)) 0
            end
        end
    end.

(** The window an [Independent] report covers: space, base and end. *)
Definition independent_window (r : Receiver) : option (Z * Z * Z) :=
  let max := max_report_statuses (config r) in
  '(_, e) ← list_find (fun e => pending e = true) (receipts r);
  let s := space_of e in
  let mine := filter (fun e => space_of e = s) (receipts r) in
  let due := map (fun e => key e) (filter (fun e => pending e = true) mine) in
  first ← min_of due;
  let preceding := default first (max_of (map (fun e => saturating_add 64 (key e) 1)
                     (filter (fun e => pending e = false /\ key e < first) mine))) in
  let b := Z.max preceding (saturating_sub first (saturating_sub max 1)) in
  last ← max_of (map (fun p => saturating_add 64 p 1) due);
  Some (s, b, Z.min last (saturating_add 64 b max)).

Definition continuous_window (r : Receiver) (s : Z) : option (Z * Z * Z) :=
  b ← next r;
  h ← highest r;
  h ← checked_add 64 h 1;
  Some (s, b, Z.min (saturating_add 64 b (max_report_statuses (config r))) h).

Definition report (r : Receiver) (now : Z) : option ReportWindow :=
  d ← deadline r;
  if now <? d then None
  else
    '(s, b, e) ← match order (config r) with
                 | Continuous s => continuous_window r s
                 | Independent => independent_window r
                 end;
    n ← (if e <? b then None else Some (e - b));
    if n =? 0 then None else Some (mkReportWindow (epoch r) s b n (version r)).

(** [min_by_key] returns the first of several minima. *)
Definition first_receipt (r : Receiver) (w : ReportWindow) : option Receipt :=
  if negb (w_epoch w =? epoch r) || negb (w_version w =? version r) then None
  else
    let l := filter (fun e => space_of e = w_space w /\ base w <= key e) (receipts r) in
    foldl (fun acc e => Some (match acc with Some a => if key e <? packet a then receipt e else a | None => receipt e end)) None l.

Definition settle (w : ReportWindow) (end_ : Z) (e : Entry) : Entry :=
  if (space_of e =? w_space w) && (base w <=? key e) && (key e <? end_) then mkEntry (receipt e) false else e.

Definition accept (r : Receiver) (w : ReportWindow) (n now : Z) : Receiver * outcome unit :=
  if negb (bool_decide (report r now = Some w)) then (r, Err StaleReport)
  else if (n =? 0) || (count w <? n) then (r, Err InvalidRange)
  else
    match checked_add 64 (version r) 1 with
    | None => (r, Err Exhausted)
    | Some version' =>
        match checked_add 64 (base w) n with
        | None => (r, Err InvalidRange)
        | Some end_ =>
            let l := map (settle w end_) (receipts r) in
            let '(next', more) :=
              match order (config r) with
              | Continuous _ => (Some end_, match highest r with Some h => end_ <=? h | None => false end)
              | Independent => (next r, existsb pending l)
              end in
            (mkReceiver (config r) (epoch r) l (backing r) (highest r) next' (if more : bool then Some now else None) version', Ok ())
        end
    end.

Definition defer (r : Receiver) (now until : Z) : Receiver * outcome unit :=
  if bool_decide (deadline r = None) || (until <=? now) then (r, Err InvalidRange)
  else
    match checked_add 64 (version r) 1 with
    | None => (r, Err Exhausted)
    | Some version' =>
        (mkReceiver (config r) (epoch r) (receipts r) (backing r) (highest r) (next r) (Some until) version', Ok ())
    end.

Definition clear (r : Receiver) (e : Z) : Receiver :=
  mkReceiver (config r) e [] (backing r) None None None (saturating_add 64 (version r) 1).

Definition abort (r : Receiver) : Receiver := with_backing 0 (clear r (epoch r)).

(** ** Minima, maxima, sorted deques *)

Lemma fold_pick (f : Z -> Z -> Z) (R : Z -> Z -> Prop) `{!Reflexive R, !Transitive R} l acc :
  (forall a x, (f a x = a \/ f a x = x) /\ R (f a x) a /\ R (f a x) x) ->
  match foldl (fun acc x => Some (match acc with Some a => f a x | None => x end)) acc l with
  | None => acc = None /\ l = []
  | Some m => (acc = Some m \/ m ∈ l) /\ (forall a, acc = Some a -> R m a) /\ (forall x, x ∈ l -> R m x)
  end.
Proof.
  intros Hf. revert acc. induction l as [|x l IH]; intros acc; cbn.
  { destruct acc as [a|]; [|done]. split_and!; [by left|by intros ? [= <-]|]. intros x Hx. by apply elem_of_nil in Hx. }
  specialize (IH (Some (match acc with Some a => f a x | None => x end))).
  destruct (foldl _ _ l) as [m|]; [|by destruct IH as [? _]]. destruct IH as (H1 & H2 & H3). specialize (H2 _ eq_refl).
  assert ((forall a, acc = Some a -> R m a) /\ R m x) as [Ha Hx].
  { destruct acc as [a|]; [|done]. destruct (Hf a x) as (_ & K1 & K2). split; [intros ? [= <-]|]; by etrans. }
  split_and!; [|done|].
  - destruct H1 as [[= H1]|H1]; [|right; by apply list_elem_of_further]. destruct acc as [a|]; [|subst; right; apply list_elem_of_here].
    destruct (Hf a x) as ([E|E] & _); rewrite E in H1; subst; [by left|right; apply list_elem_of_here].
  - intros y [->|Hy]%elem_of_cons; [done|by apply H3].
Qed.

Lemma min_of_spec l : match min_of l with None => l = [] | Some m => m ∈ l /\ forall x, x ∈ l -> m <= x end.
Proof.
  pose proof (fold_pick Z.min Z.le l None) as H. unfold min_of. destruct (foldl _ None l) as [m|].
  - destruct H as ([?|?] & _ & ?); [intros; lia|done|done].
  - by destruct H as [_ ?]; [intros; lia|].
Qed.

Lemma max_of_spec l : match max_of l with None => l = [] | Some m => m ∈ l /\ forall x, x ∈ l -> x <= m end.
Proof.
  pose proof (fold_pick Z.max (flip Z.le) l None) as H. unfold max_of. destruct (foldl _ None l) as [m|].
  - destruct H as ([?|?] & _ & Hx); [intros; unfold flip; lia|done|]. split; [done|]. intros x Hin. by apply Hx.
  - by destruct H as [_ ?]; [intros; unfold flip; lia|].
Qed.

Definition before (a b : Entry) : Prop := key a < key b.
Abbreviation in_order l := (StronglySorted before l).

Lemma in_order_app l k :
  in_order (l ++ k) <-> in_order l /\ in_order k /\ (forall a b, a ∈ l -> b ∈ k -> before a b).
Proof.
  induction l as [|x l IH]; cbn.
  - split; [|tauto]. intros H. split_and!; [constructor|done|]. intros a b Ha. by apply elem_of_nil in Ha.
  - split.
    + intros [H1 H2]%StronglySorted_inv. apply IH in H1 as (H3 & H4 & H5). rewrite Forall_forall in H2. split_and!; [|done|].
      * constructor; [done|]. apply Forall_forall. intros y Hy. apply H2, elem_of_app. by left.
      * intros a b [->|Ha]%elem_of_cons Hb; [apply H2, elem_of_app; by right|by apply H5].
    + intros (H1 & H2 & H3). apply StronglySorted_inv in H1 as [H1 H4]. constructor.
      * apply IH. split_and!; [done|done|]. intros a b Ha Hb. apply H3; [by apply list_elem_of_further|done].
      * apply Forall_app. split; [done|]. apply Forall_forall. intros y Hy. apply H3; [apply list_elem_of_here|done].
Qed.

Lemma search_spec l p : in_order l ->
  match search l p with
  | inl i => exists e, l !! i = Some e /\ key e = p
  | inr i => (i <= length l)%nat /\ Forall (fun e => key e < p) (take i l) /\ Forall (fun e => p < key e) (drop i l)
  end.
Proof.
  induction l as [|e l IH]; intros Hs; cbn; [by repeat constructor|]. apply StronglySorted_inv in Hs as [Hs Hall].
  specialize (IH Hs). destruct (Z.ltb_spec (key e) p) as [Hlt|Hge].
  - destruct (search l p) as [i|i]; [done|]. destruct IH as (? & ? & ?). cbn. split_and!; [lia|by constructor|done].
  - destruct (Z.eqb_spec (key e) p) as [E|Hne]; [by exists e|]. cbn. split_and!; [lia|constructor|]. constructor; [lia|].
    eapply Forall_impl; [exact Hall|]. unfold before. intros; cbn in *; lia.
Qed.

Lemma retire_spec floor l : in_order l ->
  let '(l', n) := retire_below floor l in
  l' = drop n l /\ Forall (fun e => key e < floor) (take n l) /\ Forall (fun e => floor <= key e) l'.
Proof.
  induction l as [|e l IH]; intros Hs; cbn; [by repeat constructor|]. apply StronglySorted_inv in Hs as [Hs Hall].
  specialize (IH Hs). destruct (Z.ltb_spec (key e) floor) as [Hlt|Hge].
  - destruct (retire_below floor l) as [l' n]. destruct IH as (-> & H1 & H2). cbn. split_and!; [done|by constructor|done].
  - cbn. split_and!; [done|constructor|]. constructor; [done|]. eapply Forall_impl; [exact Hall|]. unfold before. intros; cbn in *; lia.
Qed.

Lemma elem_insert_at i e l x : x ∈ insert_at i e l <-> x = e \/ x ∈ l.
Proof.
  unfold insert_at. rewrite elem_of_app, elem_of_cons. rewrite <- (take_drop i l) at 3. rewrite elem_of_app. tauto.
Qed.

(** What a packet at or above the floor does to the deque. *)
Lemma insert_sorted l floor p i l' n x :
  in_order l -> floor <= p -> packet x = p -> search l p = inr i -> retire_below floor l = (l', n) ->
  let k := insert_at (i - n) (mkEntry x true) l' in
  in_order k /\ (i - n <= length l')%nat /\ (forall e, e ∈ k <-> e = mkEntry x true \/ (e ∈ l /\ floor <= key e)) /\
  length k = S (length l') /\ ~ exists e, e ∈ l /\ key e = p.
Proof.
  intros Hs Hfp Hx Hi Hr k. pose proof (search_spec l p Hs) as Hsr. rewrite Hi in Hsr. destruct Hsr as (Hil & Hlo & Hhi).
  pose proof (retire_spec floor l Hs) as Hrt. rewrite Hr in Hrt. destruct Hrt as (-> & Hold & Hnew).
  assert (forall e, e ∈ l -> floor <= key e -> e ∈ drop n l) as Hkeep.
  { intros e He Hf. rewrite <- (take_drop n l) in He. apply elem_of_app in He as [He|He]; [|done].
    rewrite Forall_forall in Hold. specialize (Hold e He). cbn in Hold. lia. }
  assert (forall e, e ∈ drop n l -> e ∈ l) as Hsub by (intros e He; rewrite <- (take_drop n l); apply elem_of_app; by right).
  assert (n <= i \/ length l <= n)%nat as Hni.
  { destruct (decide (n <= i)%nat) as [|Hn]; [by left|right]. apply Nat.nlt_ge. intros Hlt.
    destruct (lookup_lt_is_Some_2 l i ltac:(lia)) as [e He]. rewrite !Forall_forall in *.
    assert (key e < floor). { apply (Hold e). apply list_elem_of_lookup. exists i. rewrite lookup_take_lt by lia. done. }
    assert (p < key e). { apply (Hhi e). apply list_elem_of_lookup. exists 0%nat. rewrite lookup_drop, Nat.add_0_r. done. } lia. }
  split_and!.
  - unfold k, insert_at. pose proof Hs as Hs'. rewrite <- (take_drop n l) in Hs'. apply in_order_app in Hs' as (_ & Hs' & _).
    rewrite <- (take_drop (i - n) (drop n l)) in Hs'. apply in_order_app in Hs' as (K1 & K2 & K3).
    apply in_order_app. split_and!; [done| |].
    + constructor; [done|]. rewrite drop_drop. destruct Hni as [Hni|Hni].
      * replace (n + (i - n))%nat with i by lia. eapply Forall_impl; [exact Hhi|]. unfold before. cbn. intros e He. lia.
      * rewrite drop_ge by lia. constructor.
    + intros a b Ha [->|Hb]%elem_of_cons; [|by apply K3]. unfold before. cbn. rewrite Hx. rewrite Forall_forall in Hlo. apply Hlo.
      apply list_elem_of_lookup in Ha as [j Ha]. pose proof Ha as Hlt%lookup_lt_Some. rewrite length_take in Hlt.
      rewrite lookup_take_lt, lookup_drop in Ha by lia. apply list_elem_of_lookup. exists (n + j)%nat. rewrite lookup_take_lt by lia. done.
  - rewrite length_drop. lia.
  - intros e. unfold k. rewrite elem_insert_at. split; intros [->|He]; [by left| |by left|].
    + right. split; [by apply Hsub|]. rewrite Forall_forall in Hnew. by apply Hnew.
    + right. apply Hkeep; apply He.
  - unfold k, insert_at. rewrite length_app. cbn. rewrite length_take, length_drop, !length_drop. lia.
  - intros (e & He & Ek). rewrite <- (take_drop i l) in He. rewrite !Forall_forall in *.
    apply elem_of_app in He as [He|He]; [specialize (Hlo e He)|specialize (Hhi e He)]; cbn in *; lia.
Qed.

(** ** Invariant *)

(** The lowest packet kept beside [h]. *)
Definition floor_of (r : Receiver) (h : Z) : Z := saturating_sub h (saturating_sub (capacity (config r)) 1).

Definition continuous_ok (r : Receiver) (s : Z) : Prop :=
  in_order (receipts r) /\ Forall (fun e => space_of e = s) (receipts r) /\
  match highest r, next r with
  | None, None => receipts r = [] /\ deadline r = None
  | Some h, Some n =>
      0 <= h < umax 64 /\ floor_of r h <= n <= h + 1 /\
      (forall e, e ∈ receipts r -> floor_of r h <= key e <= h) /\
      (forall e, e ∈ receipts r -> pending e = true -> n <= key e) /\ (deadline r = None <-> n = h + 1)
  | _, _ => False
  end.

Definition independent_ok (r : Receiver) : Prop :=
  NoDup (map (fun e => (space_of e, key e)) (receipts r)) /\
  (deadline r = None <-> forall e, e ∈ receipts r -> pending e = false).

Record receiver_ok (r : Receiver) : Prop := mk_receiver_ok {
  ro_capacity : 0 < capacity (config r) <= umax 64;
  ro_max : 0 < max_report_statuses (config r) <= umax 64;
  ro_length : Z.of_nat (length (receipts r)) <= capacity (config r);
  ro_keys : forall e, e ∈ receipts r -> 0 <= key e < umax 64;
  ro_order : match order (config r) with Continuous s => continuous_ok r s | Independent => independent_ok r end;
}.

Lemma in_order_nodup l : in_order l -> NoDup (map (fun e => key e) l).
Proof.
  induction 1 as [|e l _ IH Hall]; cbn; constructor; [|done]. intros (e' & Ek & He')%list_elem_of_fmap.
  rewrite Forall_forall in Hall. specialize (Hall e' He'). unfold before in Hall. lia.
Qed.

(** Keys in an interval are at most as many as it has places. *)
Lemma in_order_length l lo hi :
  in_order l -> (forall e, e ∈ l -> lo <= key e <= hi) -> lo <= hi + 1 -> Z.of_nat (length l) <= hi - lo + 1.
Proof.
  intros Hs Hl Hle. rewrite <- (length_map (fun e => key e)). apply NoDup_Z_interval; [by apply in_order_nodup| |done].
  apply Forall_forall. intros x (e & -> & He)%list_elem_of_fmap. by apply Hl.
Qed.

(** What an accepted packet of a continuous history changes. *)
Lemma observe_continuous r s x version' i l n :
  receiver_ok r -> order (config r) = Continuous s -> r_space x = s -> 0 <= packet x < umax 64 ->
  let h := match highest r with Some h => Z.max h (packet x) | None => packet x end in
  floor_of r h <= packet x -> search (receipts r) (packet x) = inr i -> retire_below (floor_of r h) (receipts r) = (l, n) ->
  let n' := Z.max (match next r with Some n => Z.min n (packet x) | None => packet x end) (floor_of r h) in
  let r0 := mkReceiver (config r) (epoch r) l (backing r) (Some h) (Some n') (deadline r) (version r) in
  let r' := (admit_receipt r0 x version' (i - n) n).1 in
  receiver_ok r' /\ (admit_receipt r0 x version' (i - n) n).2 = Ok (Inserted n) /\
  (forall e, e ∈ receipts r' <-> e = mkEntry x true \/ (e ∈ receipts r /\ floor_of r h <= key e)) /\
  (~ exists e, e ∈ receipts r /\ key e = packet x) /\ highest r' = Some h /\ config r' = config r /\
  epoch r' = epoch r /\ backing r' = backing r /\ version r' = version'.
Proof.
  intros Hok Hord Hsp Hp h Hfl Hi Hr n' r0 r'. pose proof Hok as [Hcap Hmax Hlen Hkeys Ho]. rewrite Hord in Ho.
  destruct Ho as (Hs & Hspace & Hn).
  destruct (insert_sorted (receipts r) (floor_of r h) (packet x) i l n x Hs Hfl eq_refl Hi Hr) as (K1 & K2 & K3 & K4 & K5).
  assert (0 <= h < umax 64 /\ packet x <= h) as [Hh Hph].
  { unfold h. destruct (highest r); [|lia]. destruct (next r); [|done]. destruct Hn as (? & _). lia. }
  assert (forall e, e ∈ receipts r -> key e <= h) as Hle.
  { intros e He. unfold h. destruct (highest r) as [h0|], (next r) as [n0|]; try done.
    - destruct Hn as (_ & _ & Hn & _). specialize (Hn e He). lia.
    - destruct Hn as [E _]. rewrite E in He. by apply elem_of_nil in He. }
  assert (Z.of_nat (S (length l)) <= capacity (config r)) as Hroom.
  { rewrite <- K4. etrans; [apply (in_order_length _ (floor_of r h) h K1)|].
    - intros e [->|[He Hf]]%K3; [cbn; lia|]. specialize (Hle e He). lia.
    - unfold floor_of, saturating_sub. lia.
    - unfold floor_of, saturating_sub. lia. }
  assert (r' = mkReceiver (config r) (epoch r) (insert_at (i - n) (mkEntry x true) l) (backing r) (Some h) (Some n')
    (Some (match deadline r with Some d => d | None => duration_add (arrived_at x) (interval (config r)) end)) version' /\
    (admit_receipt r0 x version' (i - n) n).2 = Ok (Inserted n)) as [Er' Eo].
  { unfold r', admit_receipt. cbn [receipts config r0]. rewrite (proj2 (Z.eqb_neq _ _)) by lia. done. }
  rewrite Er'. cbn [receipts highest config epoch backing version]. split_and!; try done. split; cbn; try done; try lia.
  - intros e [->|[He _]]%K3; [done|by apply Hkeys].
  - rewrite Hord. assert (floor_of r h <= n' <= h) as Hn'.
    { split; [unfold n'; lia|]. unfold n'. assert (floor_of r h <= h) by lia. destruct (next r); lia. }
    unfold continuous_ok. cbn [receipts highest next deadline]. change (floor_of (mkReceiver _ _ _ _ _ _ _ _) h) with (floor_of r h).
    split_and!; try done; try lia.
    + apply Forall_forall. intros e [->|[He _]]%K3; [done|]. rewrite Forall_forall in Hspace. by apply Hspace.
    + intros e [->|[He Hf]]%K3; [cbn; lia|]. specialize (Hle e He). lia.
    + intros e [->|[He Hf]]%K3 Hpe; [cbn; unfold n'; destruct (next r); lia|]. unfold n'.
      destruct (highest r) as [h0|], (next r) as [n0|]; try done.
      * destruct Hn as (_ & _ & _ & Hn & _). specialize (Hn e He Hpe). lia.
      * destruct Hn as [E _]. rewrite E in He. by apply elem_of_nil in He.
    + split; [done|]. intros E. exfalso. lia.
Qed.

Lemma observe_independent r x version' :
  receiver_ok r -> order (config r) = Independent -> 0 <= packet x < umax 64 -> find_receipt r (r_space x) (packet x) = None ->
  receiver_ok (admit_receipt r x version' (length (receipts r)) 0).1.
Proof.
  intros Hok Hord Hp Hf. pose proof Hok as [Hcap Hmax Hlen Hkeys Ho]. rewrite Hord in Ho. destruct Ho as [Hnd Hdl].
  unfold find_receipt in Hf. rewrite Hord in Hf.
  destruct (list_find (fun e => space_of e = r_space x /\ key e = packet x) (receipts r)) as [[j e]|] eqn:Ef; [done|].
  apply list_find_None in Ef. rewrite Forall_forall in Ef. unfold admit_receipt.
  set (full := _ =? capacity (config r)). set (l := if full then _ else receipts r).
  assert ((if full then pred (length (receipts r)) else length (receipts r)) = length l) as ->
    by (unfold l; destruct full; [by destruct (receipts r)|done]).
  assert (insert_at (length l) (mkEntry x true) l = l ++ [mkEntry x true]) as Ei
    by (unfold insert_at; by rewrite take_ge, drop_ge by done).
  assert (exists k, receipts r = k ++ l) as [k Ek]
    by (unfold l; destruct full; [destruct (receipts r) as [|e k]; [by exists []|by exists [e]]|by exists []]).
  assert (forall e, e ∈ l -> e ∈ receipts r) as Hsub by (intros e He; rewrite Ek; apply elem_of_app; by right).
  cbn [fst]. rewrite Ei. split; cbn [config receipts]; try done.
  - rewrite length_app. cbn [length]. unfold l, full. destruct (Z.eqb_spec (Z.of_nat (length (receipts r))) (capacity (config r))) as [E|];
      [destruct (receipts r); cbn in *; lia|lia].
  - intros e [He| ->%list_elem_of_singleton]%elem_of_app; [by apply Hkeys, Hsub|done].
  - rewrite Hord. unfold independent_ok. cbn [receipts deadline]. split.
    + rewrite map_app. apply NoDup_app. rewrite Ek, map_app in Hnd. apply NoDup_app in Hnd as (_ & _ & Hnd). split_and!; [done| |by apply NoDup_singleton].
      intros y Hy Hin%list_elem_of_singleton. subst y. apply list_elem_of_fmap in Hy as (e & [= E1 E2] & He). by apply (Ef e (Hsub e He)).
    + split; [done|]. intros Hno. specialize (Hno (mkEntry x true)). rewrite elem_of_app, list_elem_of_singleton in Hno.
      discriminate Hno. by right.
Qed.

Lemma observe_ok r ep x : receiver_ok r -> 0 <= packet x <= umax 64 -> receiver_ok (observe r ep x).1.
Proof.
  intros Hok Hp. unfold observe. destruct (negb _); [done|]. destruct (Z.eqb_spec (packet x) (umax 64)); [done|].
  destruct (backing r <? _); [done|]. destruct (checked_add 64 (version r) 1) as [v|]; [|done].
  destruct (order (config r)) as [s|] eqn:Hord.
  - destruct (Z.eqb_spec s (r_space x)) as [Hs|]; [|done]. cbn [negb].
    set (h := match highest r with Some h => _ | None => _ end). change (saturating_sub h _) with (floor_of r h).
    destruct (Z.ltb_spec (packet x) (floor_of r h)); [done|]. destruct (search (receipts r) (packet x)) as [?|i] eqn:Ei; [done|].
    destruct (retire_below _ _) as [l k] eqn:Er. apply (observe_continuous r s x v i l k); try done; lia.
  - destruct (find_receipt r _ _) eqn:Ef; [done|]. apply observe_independent; try done; lia.
Qed.

(** ** The window of a due report *)

Definition covers (w : ReportWindow) (x : Receipt) : Prop :=
  r_space x = w_space w /\ base w <= packet x < base w + count w.
#[export] Instance covers_dec w x : Decision (covers w x).
Proof. unfold covers. apply _. Defined.

Record window_ok (r : Receiver) (w : ReportWindow) : Prop := mk_window_ok {
  wk_epoch : w_epoch w = epoch r;
  wk_version : w_version w = version r;
  wk_count : 1 <= count w <= max_report_statuses (config r);
  wk_base : 0 <= base w;
  wk_end : base w + count w <= umax 64;
  wk_order : match order (config r) with
             | Continuous s => w_space w = s /\ next r = Some (base w) /\ exists h, highest r = Some h /\ base w + count w <= h + 1
             | Independent =>
                 exists first, (exists e, e ∈ receipts r /\ pending e = true /\ space_of e = w_space w /\ key e = first) /\
                   base w <= first < base w + count w /\
                   (forall e, e ∈ receipts r -> pending e = true -> space_of e = w_space w -> first <= key e) /\
                   (forall e, e ∈ receipts r -> pending e = false -> space_of e = w_space w -> key e < first -> key e < base w)
             end;
}.

Lemma saturating_succ p : p < umax 64 -> saturating_add 64 p 1 = p + 1.
Proof. intros. unfold saturating_add. lia. Qed.

Lemma independent_window_due r :
  receiver_ok r -> order (config r) = Independent -> (exists e, e ∈ receipts r /\ pending e = true) ->
  exists s b en first, independent_window r = Some (s, b, en) /\ 0 <= b <= first /\ first < en <= umax 64 /\
    en - b <= max_report_statuses (config r) /\
    (exists e, e ∈ receipts r /\ pending e = true /\ space_of e = s /\ key e = first) /\
    (forall e, e ∈ receipts r -> pending e = true -> space_of e = s -> first <= key e) /\
    (forall e, e ∈ receipts r -> pending e = false -> space_of e = s -> key e < first -> key e < b).
Proof.
  intros [Hcap Hmax Hlen Hkeys _] Hord (e0 & He0 & Hp0). unfold independent_window.
  destruct (list_find (fun e => pending e = true) (receipts r)) as [[j e]|] eqn:Ef.
  2: { apply list_find_None in Ef. rewrite Forall_forall in Ef. by destruct (Ef e0 He0). }
  apply list_find_Some in Ef as (Hj & Hpe & _). apply list_elem_of_lookup_2 in Hj. cbn [mbind option_bind].
  set (s := space_of e). set (mine := filter (fun e => space_of e = s) (receipts r)).
  set (due := map (fun e => key e) (filter (fun e => pending e = true) mine)).
  assert (forall p, p ∈ due <-> exists e, e ∈ receipts r /\ pending e = true /\ space_of e = s /\ key e = p) as Hdue.
  { intros p. unfold due. rewrite list_elem_of_fmap. unfold mine. setoid_rewrite list_elem_of_filter. setoid_rewrite list_elem_of_filter. naive_solver. }
  pose proof (min_of_spec due) as Hmin. destruct (min_of due) as [first|].
  2: { assert (key e ∈ due) as Hin by (apply Hdue; by exists e). rewrite Hmin in Hin. by apply elem_of_nil in Hin. }
  destruct Hmin as [Hf Hmin]. apply Hdue in Hf as (ef & Hef & Hpf & Hsf & Hkf). cbn [mbind option_bind].
  pose proof (Hkeys ef Hef) as Hfr. rewrite Hkf in Hfr.
  set (prev := filter (fun e => pending e = false /\ key e < first) mine).
  pose proof (max_of_spec (map (fun e => saturating_add 64 (key e) 1) prev)) as Hprev.
  set (preceding := default first _).
  assert (0 <= preceding <= first /\ forall e, e ∈ prev -> key e < preceding) as [Hpr1 Hpr2].
  { unfold preceding. destruct (max_of _) as [m|].
    - destruct Hprev as [Hm Hle]. apply list_elem_of_fmap in Hm as (e' & -> & He'). apply list_elem_of_filter in He' as [[_ Hlt] He'].
      apply list_elem_of_filter in He' as [_ He']. pose proof (Hkeys e' He'). cbn [from_option id].
      rewrite (saturating_succ (key e')) in * by lia. split; [lia|].
      intros e1 He1. assert (saturating_add 64 (key e1) 1 ∈ map (fun e => saturating_add 64 (key e) 1) prev) as Hin by (apply list_elem_of_fmap; by exists e1).
      specialize (Hle _ Hin). apply list_elem_of_filter in He1 as [[_ ?] _]. rewrite saturating_succ in Hle by lia. lia.
    - cbn [from_option id]. split; [lia|]. intros e1 He1. apply map_eq_nil in Hprev. rewrite Hprev in He1. by apply elem_of_nil in He1. }
  set (b := Z.max preceding _).
  assert (0 <= b <= first /\ first - b < max_report_statuses (config r)) as [Hb1 Hb2] by (unfold b, saturating_sub; lia).
  pose proof (max_of_spec (map (fun p => saturating_add 64 p 1) due)) as Hlast.
  destruct (max_of (map (fun p => saturating_add 64 p 1) due)) as [last|].
  2: { apply map_eq_nil in Hlast. assert (key e ∈ due) as Hin by (apply Hdue; by exists e). rewrite Hlast in Hin. by apply elem_of_nil in Hin. }
  destruct Hlast as [Hl1 Hl2]. cbn [mbind option_bind].
  assert (first < last <= umax 64) as Hlast.
  { split.
    - assert (saturating_add 64 first 1 ∈ map (fun p => saturating_add 64 p 1) due) as Hin by (apply list_elem_of_fmap; exists first; split; [done|]; apply Hdue; by exists ef).
      specialize (Hl2 _ Hin). rewrite saturating_succ in Hl2 by lia. lia.
    - apply list_elem_of_fmap in Hl1 as (p & -> & Hp). apply Hdue in Hp as (e1 & He1 & _ & _ & <-). pose proof (Hkeys e1 He1).
      rewrite saturating_succ by lia. lia. }
  exists s, b, (Z.min last (saturating_add 64 b (max_report_statuses (config r)))), first.
  split_and!; try done; try lia; try (unfold saturating_add; lia).
  - by exists ef.
  - intros e1 He1 Hp1 Hs1. apply Hmin, Hdue. by exists e1.
  - intros e1 He1 Hp1 Hs1 Hlt. apply (Z.lt_le_trans _ preceding); [|unfold b; lia]. apply Hpr2.
    unfold prev, mine. rewrite !list_elem_of_filter. done.
Qed.

Lemma report_due r d now :
  receiver_ok r -> deadline r = Some d -> d <= now -> exists w, report r now = Some w /\ window_ok r w.
Proof.
  intros Hok Hd Hnow. pose proof Hok as [Hcap Hmax Hlen Hkeys Ho]. unfold report. rewrite Hd. cbn [mbind option_bind].
  rewrite (proj2 (Z.ltb_ge _ _)) by lia. destruct (order (config r)) as [s|] eqn:Hord.
  - destruct Ho as (_ & _ & Hn). unfold continuous_window. destruct (highest r) as [h|] eqn:Eh, (next r) as [n|] eqn:En; try done.
    2: { by rewrite Hd in Hn; destruct Hn. }
    destruct Hn as (Hh & Hn & _ & _ & Hdl). assert (n <= h) as Hle by (assert (n <> h + 1) by (rewrite Hd in Hdl; naive_solver); lia).
    assert (0 <= n) by (unfold floor_of, saturating_sub in Hn; lia).
    cbn [mbind option_bind]. unfold checked_add. rewrite (proj2 (Z.leb_le _ _)) by lia. cbn [mbind option_bind].
    set (en := Z.min (saturating_add 64 n _) (h + 1)). assert (n < en <= h + 1 /\ en - n <= max_report_statuses (config r)) as [He1 He2]
      by (unfold en, saturating_add; lia).
    rewrite (proj2 (Z.ltb_ge _ _)) by lia. cbn [mbind option_bind]. rewrite (proj2 (Z.eqb_neq _ _)) by lia.
    eexists. split; [done|]. split; cbn; try done; try lia. rewrite Hord. split_and!; [done|done|]. exists h. split; [done|lia].
  - destruct Ho as [_ Hdl]. destruct (independent_window_due r Hok Hord) as (s & b & en & first & E & Hb & Hen & Hm & H1 & H2 & H3).
    { destruct (existsb pending (receipts r)) eqn:Ex.
      - apply existsb_exists in Ex as (e & He & Hp). exists e. split; [by apply list_elem_of_In|done].
      - exfalso. rewrite Hd in Hdl. enough (Some d = None) by done. apply Hdl. intros e He. destruct (pending e) eqn:Hp; [|done].
        rewrite <- Ex. symmetry. apply existsb_exists. exists e. split; [by apply list_elem_of_In|done]. }
    rewrite E. cbn [mbind option_bind]. rewrite (proj2 (Z.ltb_ge _ _)) by lia. cbn [mbind option_bind]. rewrite (proj2 (Z.eqb_neq _ _)) by lia.
    eexists. split; [done|]. split; cbn; try done; try lia. rewrite Hord. exists first. split_and!; try done; lia.
Qed.

(** ** Accepting reports *)

Lemma settle_receipt w en e : receipt (settle w en e) = receipt e.
Proof. unfold settle. by destruct (_ && _). Qed.

Lemma settle_pending w en e :
  pending (settle w en e) = true <-> pending e = true /\ ~ (space_of e = w_space w /\ base w <= key e < en).
Proof.
  unfold settle. destruct (_ && _) eqn:E; cbn.
  - rewrite !andb_true_iff in E. split; [done|]. intros [_ H]. destruct H. lia.
  - split; [|tauto]. intros H. split; [done|]. intros (H1 & H2 & H3). rewrite (proj2 (Z.eqb_eq _ _) H1) in E.
    rewrite (proj2 (Z.leb_le _ _)), (proj2 (Z.ltb_lt _ _)) in E by lia. done.
Qed.

Lemma map_settle_receipts w en l : map receipt (map (settle w en) l) = map receipt l.
Proof. rewrite map_map. apply map_ext. intros. apply settle_receipt. Qed.

Lemma elem_settled w en l e : e ∈ map (settle w en) l -> exists e0, e0 ∈ l /\ e = settle w en e0 /\ receipt e = receipt e0.
Proof. intros (e0 & -> & He0)%list_elem_of_fmap. exists e0. split_and!; [done|done|]. apply settle_receipt. Qed.

Lemma existsb_pending l : existsb pending l = false <-> forall e, e ∈ l -> pending e = false.
Proof.
  split.
  - intros E e He. destruct (pending e) eqn:Hp; [|done]. rewrite <- E. symmetry. apply existsb_exists. exists e.
    split; [by apply list_elem_of_In|done].
  - intros H. destruct (existsb pending l) eqn:E; [|done]. apply existsb_exists in E as (e & He & Hp).
    apply list_elem_of_In in He. rewrite (H e He) in Hp. done.
Qed.

(** The state after a prefix of a due window is accepted. *)
Definition accepted (r : Receiver) (w : ReportWindow) (n now : Z) : Receiver :=
  let l := map (settle w (base w + n)) (receipts r) in
  let '(next', more) :=
    match order (config r) with
    | Continuous _ => (Some (base w + n), match highest r with Some h => base w + n <=? h | None => false end)
    | Independent => (next r, existsb pending l)
    end in
  mkReceiver (config r) (epoch r) l (backing r) (highest r) next' (if more : bool then Some now else None) (version r + 1).

Lemma accept_spec r w n now :
  report r now = Some w -> window_ok r w -> 1 <= n <= count w -> version r < umax 64 ->
  accept r w n now = (accepted r w n now, Ok ()).
Proof.
  intros Hr Hw Hn Hv. pose proof (wk_end _ _ Hw). unfold accept. rewrite bool_decide_true by done. cbn [negb].
  rewrite (proj2 (Z.eqb_neq _ _)), (proj2 (Z.ltb_ge _ _)) by lia. cbn [orb]. unfold checked_add.
  rewrite !(proj2 (Z.leb_le _ _)) by lia. unfold accepted. by destruct (order (config r)).
Qed.

Lemma accepted_ok r w n now : receiver_ok r -> window_ok r w -> 1 <= n <= count w -> receiver_ok (accepted r w n now).
Proof.
  intros [Hcap Hmax Hlen Hkeys Ho] [_ _ Hc Hb He Hw] Hn. unfold accepted. set (l := map (settle w (base w + n)) (receipts r)).
  assert (map (fun e => (space_of e, key e)) l = map (fun e => (space_of e, key e)) (receipts r)) as Ekeys.
  { unfold l. rewrite map_map. apply map_ext. intros e. by rewrite settle_receipt. }
  assert (forall e, e ∈ l -> 0 <= key e < umax 64) as Hk.
  { intros e (e0 & He0 & _ & ->)%elem_settled. by apply Hkeys. }
  assert (length l = length (receipts r)) as Elen by apply length_map.
  destruct (order (config r)) as [s|] eqn:Hord; split; cbn [config receipts]; rewrite ?Elen; try done; rewrite Hord.
  - destruct Ho as (Hs & Hsp & Hn0). destruct Hw as (Ews & Enx & h & Eh & Hend). rewrite Eh, Enx in Hn0.
    destruct Hn0 as (Hh & Hfl & Hrange & Hpend & Hdl). unfold continuous_ok. cbn [receipts highest next deadline].
    rewrite Eh. change (floor_of (mkReceiver _ _ _ _ _ _ _ _) h) with (floor_of r h). rewrite Forall_forall in Hsp. split_and!; try done; try lia.
    + clear -Hs. unfold l. induction Hs as [|e k _ IH Hall]; cbn; constructor; [done|]. apply Forall_forall.
      intros x (e0 & He0 & _ & E)%elem_settled. rewrite Forall_forall in Hall. unfold before. rewrite E, settle_receipt. by apply Hall.
    + apply Forall_forall. intros e (e0 & He0 & _ & ->)%elem_settled. by apply Hsp.
    + intros e (e0 & He0 & _ & ->)%elem_settled. by apply Hrange.
    + intros e (e0 & He0 & -> & ->)%elem_settled [Hp Hnot]%settle_pending. specialize (Hpend e0 He0 Hp). specialize (Hsp e0 He0).
      destruct (decide (key e0 < base w + n)); [|lia]. destruct Hnot. split; [congruence|lia].
    + destruct (Z.leb_spec (base w + n) h); split; try done; try lia; intros; exfalso; lia.
  - destruct Ho as [Hnd Hdl]. unfold independent_ok. cbn [receipts deadline]. rewrite Ekeys. split; [done|].
    destruct (existsb pending l) eqn:Ex; [split; [done|]|by rewrite <- existsb_pending].
    intros H%existsb_pending. congruence.
Qed.

Lemma accept_ok r w n now : receiver_ok r -> 0 <= n -> receiver_ok (accept r w n now).1.
Proof.
  intros Hok Hn. destruct (decide (report r now = Some w)) as [Hr|Hr].
  2: { unfold accept. by rewrite bool_decide_false by done. }
  destruct (deadline r) as [d|] eqn:Hd; [|unfold report in Hr; by rewrite Hd in Hr].
  assert (d <= now) as Hnow by (unfold report in Hr; rewrite Hd in Hr; cbn in Hr; destruct (Z.ltb_spec now d); [done|lia]).
  destruct (report_due r d now Hok Hd Hnow) as (w' & Hr' & Hw). rewrite Hr in Hr'. injection Hr' as <-.
  destruct (decide (1 <= n <= count w /\ version r < umax 64)) as [[H1 H2]|Hno].
  - rewrite accept_spec by done. by apply accepted_ok.
  - unfold accept. rewrite bool_decide_true by done. cbn [negb].
    destruct (Z.eqb_spec n 0); [done|]. destruct (Z.ltb_spec (count w) n); [done|]. cbn [orb]. unfold checked_add at 1.
    rewrite (proj2 (Z.leb_gt _ _)) by lia. done.
Qed.

Lemma defer_ok r now until : receiver_ok r -> receiver_ok (defer r now until).1.
Proof.
  intros Hok. pose proof Hok as [Hcap Hmax Hlen Hkeys Ho]. unfold defer. case_bool_decide as Hd; [done|]. cbn [orb].
  destruct (_ <=? _); [done|]. destruct (checked_add _ _ _); [|done]. split; cbn [fst config receipts]; try done.
  destruct (order (config r)) as [s|].
  - destruct Ho as (Hs & Hsp & Hn). unfold continuous_ok. cbn [highest next deadline receipts].
    split; [done|]. split; [done|]. destruct (highest r) as [h|], (next r) as [n|]; try done; [|by destruct Hn].
    destruct Hn as (H1 & H2 & H3 & H4 & H5). do 5 (split; [done|]). intros E. destruct Hd. by apply H5.
  - destruct Ho as [Hnd Hdl]. split; [done|]. cbn [receipts deadline]. split; [done|]. intros E. destruct Hd. by apply Hdl.
Qed.

Lemma clear_ok r e : receiver_ok r -> receiver_ok (clear r e).
Proof.
  intros [Hcap Hmax Hlen Hkeys Ho]. split; cbn; try done; try lia.
  - intros x Hx. by apply elem_of_nil in Hx.
  - destruct (order (config r)); unfold continuous_ok, independent_ok; cbn.
    + split_and!; [constructor|constructor|done|done].
    + split; [constructor|]. split; [intros _ x Hx; by apply elem_of_nil in Hx|done].
Qed.

Lemma with_backing_ok r b : receiver_ok r -> receiver_ok (with_backing b r).
Proof. intros [Hcap Hmax Hlen Hkeys Ho]. by split. Qed.

(** ** Every receipt is reported *)

(** The caller's loop: take the due report, send all of it, again. *)
Fixpoint drain (fuel : nat) (r : Receiver) (now : Z) : Receiver * list ReportWindow :=
  match fuel with
  | O => (r, [])
  | S fuel =>
      match report r now with
      | None => (r, [])
      | Some w => let '(r, ws) := drain fuel (accept r w (count w) now).1 now in (r, w :: ws)
      end
  end.

(** What is left to report. *)
Definition work (r : Receiver) : Z :=
  match order (config r) with
  | Continuous _ => match highest r, next r with Some h, Some n => h + 1 - n | _, _ => 0 end
  | Independent => Z.of_nat (length (filter (fun e => pending e = true) (receipts r)))
  end.

Lemma work_bound r : receiver_ok r -> 0 <= work r <= capacity (config r).
Proof.
  intros [Hcap Hmax Hlen Hkeys Ho]. unfold work. destruct (order (config r)).
  - destruct Ho as (_ & _ & Hn). destruct (highest r), (next r); try lia.
    destruct Hn as (Hh & Hn & _). unfold floor_of, saturating_sub in Hn. lia.
  - pose proof (length_filter (fun e => pending e = true) (receipts r)). lia.
Qed.

Lemma idle_work r : receiver_ok r -> deadline r = None -> forall e, e ∈ receipts r -> pending e = false.
Proof.
  intros [Hcap Hmax Hlen Hkeys Ho] Hd e He. destruct (order (config r)).
  - destruct Ho as (_ & _ & Hn). destruct (highest r) as [h|], (next r) as [n|]; try done.
    + destruct Hn as (_ & _ & Hr & Hp & Hdl). destruct (pending e) eqn:Hpe; [|done]. specialize (Hp e He Hpe). specialize (Hr e He).
      apply Hdl in Hd. lia.
    + destruct Hn as [E _]. rewrite E in He. by apply elem_of_nil in He.
  - destruct Ho as [_ Hdl]. by apply Hdl.
Qed.

Lemma filter_settle_lt w en l :
  (exists e, e ∈ l /\ pending e = true /\ space_of e = w_space w /\ base w <= key e < en) ->
  (length (filter (fun e => pending e = true) (map (settle w en) l)) < length (filter (fun e => pending e = true) l))%nat.
Proof.
  assert (forall k, length (filter (fun e => pending e = true) (map (settle w en) k)) <= length (filter (fun e => pending e = true) k))%nat as Hle.
  { induction k as [|e k IH]; [done|]. cbn [map]. rewrite !filter_cons. destruct (decide (pending (settle w en e) = true)) as [H1|H1],
      (decide (pending e = true)) as [H2|H2]; cbn; try lia. apply settle_pending in H1 as [? _]. done. }
  intros (e & He & Hp & Hw). apply list_elem_of_split in He as (l1 & l2 & ->). rewrite map_app, !filter_app, !length_app. cbn [map].
  rewrite !filter_cons, (decide_True _ _ Hp). rewrite decide_False by (rewrite settle_pending; tauto).
  specialize (Hle l1) as H1. specialize (Hle l2) as H2. cbn. lia.
Qed.

Lemma accepted_work r w now : receiver_ok r -> window_ok r w -> work (accepted r w (count w) now) <= work r - 1.
Proof.
  intros [Hcap Hmax Hlen Hkeys Ho] [_ _ Hc Hb He Hw]. unfold work, accepted.
  destruct (order (config r)) as [s|] eqn:Hord; cbn [config highest next receipts]; rewrite Hord.
  - destruct Hw as (_ & -> & h & -> & _). lia.
  - destruct Hw as (first & (e & He1 & He2 & He3 & He4) & Hin & _).
    pose proof (filter_settle_lt w (base w + count w) (receipts r)) as H. apply inj_lt in H; [lia|]. exists e. split_and!; try done; lia.
Qed.

(** Reported already, and behind everything still due. *)
Definition passed (r : Receiver) (x : Receipt) : Prop :=
  match order (config r) with
  | Continuous _ => exists n, next r = Some n /\ packet x < n
  | Independent =>
      (exists e, e ∈ receipts r /\ receipt e = x /\ pending e = false) /\
      forall e, e ∈ receipts r -> pending e = true -> space_of e = r_space x -> packet x < key e
  end.

Lemma passed_uncovered r w x : window_ok r w -> passed r x -> ~ covers w x.
Proof.
  intros [_ _ Hc Hb He Hw] Hp [Hs Hin]. unfold passed in Hp. destruct (order (config r)).
  - destruct Hw as (_ & Hn & _). destruct Hp as (n & En & Hlt). rewrite Hn in En. injection En as <-. lia.
  - destruct Hw as (first & (e & He1 & He2 & He3 & He4) & Hf & _ & Hlow). destruct Hp as ((e' & He' & <- & Hp') & Hahead).
    specialize (Hahead e He1 He2 ltac:(congruence)). specialize (Hlow e' He' Hp' Hs ltac:(lia)). lia.
Qed.

Lemma passed_accepted r w n now x : window_ok r w -> 0 <= n -> passed r x -> passed (accepted r w n now) x.
Proof.
  intros [_ _ Hc Hb He Hw] Hn0. unfold passed, accepted. destruct (order (config r)) eqn:Hord; cbn [config next receipts]; rewrite Hord.
  - destruct Hw as (_ & Hn & _). intros (n' & En & Hlt). rewrite Hn in En. injection En as <-. exists (base w + n). split; [done|lia].
  - intros ((e & He1 & <- & Hp) & Hahead). split.
    + exists (settle w (base w + n) e). split_and!; [by apply list_elem_of_fmap_2|apply settle_receipt|].
      destruct (pending (settle _ _ e)) eqn:Hpe; [|done]. apply settle_pending in Hpe as [? _]. congruence.
    + intros e' (e0 & He0 & -> & ->)%elem_settled [Hp0 _]%settle_pending Hs. by apply Hahead.
Qed.

Lemma covered_passed r w now e :
  receiver_ok r -> window_ok r w -> e ∈ receipts r -> pending e = true -> covers w (receipt e) ->
  passed (accepted r w (count w) now) (receipt e).
Proof.
  intros Hok [_ _ Hc Hb He Hw] He0 Hp [Hs Hin]. unfold passed, accepted.
  destruct (order (config r)) eqn:Hord; cbn [config next receipts]; rewrite Hord.
  - exists (base w + count w). split; [done|lia].
  - destruct Hw as (first & _ & Hf & Hall & _). split.
    + exists (settle w (base w + count w) e). split_and!; [by apply list_elem_of_fmap_2|apply settle_receipt|].
      destruct (pending (settle _ _ e)) eqn:Hpe; [|done]. apply settle_pending in Hpe as [_ Hno]. by destruct Hno.
    + intros e' (e0 & He1 & -> & ->)%elem_settled [Hp0 Hno]%settle_pending Hs'.
      specialize (Hall e0 He1 Hp0 ltac:(congruence)). destruct (decide (key e0 < base w + count w)); [|lia].
      destruct Hno. split; [congruence|lia].
Qed.

Lemma no_work_idle r : receiver_ok r -> work r = 0 -> deadline r = None.
Proof.
  intros Hok E. destruct (deadline r) as [d|] eqn:Ed; [|done]. destruct (report_due r d d Hok Ed ltac:(lia)) as (w & _ & Hw).
  pose proof (accepted_work r w d Hok Hw). pose proof (wk_count _ _ Hw).
  pose proof (work_bound _ (accepted_ok r w (count w) d Hok Hw ltac:(lia))). lia.
Qed.

Definition covering (x : Receipt) (ws : list ReportWindow) : list ReportWindow := filter (fun w => covers w x) ws.

Lemma drain_spec fuel r now r' ws :
  receiver_ok r -> (forall d, deadline r = Some d -> d <= now) -> work r <= Z.of_nat fuel -> version r + work r <= umax 64 ->
  drain fuel r now = (r', ws) ->
  (receiver_ok r' /\ deadline r' = None /\ map receipt (receipts r') = map receipt (receipts r)) /\
  Forall (fun w => 1 <= count w <= max_report_statuses (config r)) ws /\
  (forall e, e ∈ receipts r -> pending e = true -> length (covering (receipt e) ws) = 1%nat) /\
  (forall x, passed r x -> covering x ws = []).
Proof.
  revert r ws. induction fuel as [|fuel IH]; intros r ws Hok Hd Hf Hv Hdr; cbn [drain] in Hdr.
  - injection Hdr as <- <-. assert (deadline r = None) as E by (apply no_work_idle; [done|]; pose proof (work_bound r Hok); lia).
    split_and!; try done. intros e He Hp. rewrite (idle_work r Hok E e He) in Hp. done.
  - destruct (deadline r) as [d|] eqn:Edl.
    2: { unfold report in Hdr. rewrite Edl in Hdr. injection Hdr as <- <-. split_and!; try done.
         intros e He Hp. rewrite (idle_work r Hok Edl e He) in Hp. done. }
    destruct (report_due r d now Hok Edl (Hd d eq_refl)) as (w & Er & Hw). rewrite Er in Hdr.
    pose proof (wk_count _ _ Hw) as Hc. pose proof (accepted_work r w now Hok Hw) as Hwork.
    pose proof (accepted_ok r w (count w) now Hok Hw ltac:(lia)) as Hok1. pose proof (work_bound _ Hok1) as Hwb.
    rewrite accept_spec in Hdr by (done || lia). cbn [fst] in Hdr. set (r1 := accepted r w (count w) now) in *.
    destruct (drain fuel r1 now) as [r2 ws'] eqn:E2. injection Hdr as <- <-.
    assert (config r1 = config r /\ version r1 = version r + 1 /\ receipts r1 = map (settle w (base w + count w)) (receipts r) /\
      forall d', deadline r1 = Some d' -> d' <= now) as (Ec & Ev & El & Hd1).
    { unfold r1, accepted. destruct (order (config r)); cbn; split_and!; try done; intros d' E; repeat case_match; simplify_eq; lia. }
    destruct (IH r1 ws' Hok1 Hd1 ltac:(lia) ltac:(lia) E2) as ((G1 & G2 & G3) & G4 & G5 & G6). rewrite El, map_settle_receipts in G3.
    rewrite Ec in G4. split_and!; try done; [by constructor| |].
    + intros e He Hp. unfold covering. rewrite filter_cons. destruct (decide (covers w (receipt e))) as [Hcv|Hcv].
      * pose proof (G6 _ (covered_passed r w now e Hok Hw He Hp Hcv)) as G. unfold covering in G. by rewrite G.
      * specialize (G5 (settle w (base w + count w) e)). rewrite settle_receipt in G5. apply G5.
        -- rewrite El. by apply list_elem_of_fmap_2.
        -- apply settle_pending. split; [done|]. intros H. by apply Hcv.
    + intros x Hx. unfold covering. rewrite filter_cons, decide_False by by eapply passed_uncovered.
      apply G6, passed_accepted; [done|lia|done].
Qed.

(** Every way a receiver can be used. *)
Inductive ReceiverOp :=
| OpReserve (limit : Z) (granted : option Z)
| OpObserve (e : Z) (x : Receipt)
| OpAccept (w : ReportWindow) (n now : Z)
| OpDefer (now until : Z)
| OpClear (e : Z)
| OpAbort.

Definition receiver_step (entry_size : Z) (r : Receiver) (op : ReceiverOp) : Receiver :=
  match op with
  | OpReserve limit granted => (reserve entry_size r limit granted).1
  | OpObserve e x => (observe r e x).1
  | OpAccept w n now => (accept r w n now).1
  | OpDefer now until => (defer r now until).1
  | OpClear e => clear r e
  | OpAbort => abort r
  end.

Definition op_ok (op : ReceiverOp) : Prop :=
  match op with
  | OpObserve _ x => 0 <= packet x <= umax 64
  | OpAccept _ n _ => 0 <= n
  | _ => True
  end.

Definition config_ok (c : ReceiverConfig) : Prop :=
  0 <= capacity c <= umax 64 /\ 0 <= max_report_statuses c <= umax 64.

Lemma history_reachable_ok size c ep r ops :
  config_ok c -> receiver_new size c ep = Ok r -> Forall op_ok ops -> receiver_ok (foldl (receiver_step size) r ops).
Proof.
  intros [Hc Hm] Hnew Hops. assert (receiver_ok r) as Hok.
  { unfold receiver_new in Hnew. destruct (Z.eqb_spec (capacity c) 0); [done|]. destruct (Z.eqb_spec (max_report_statuses c) 0); [done|].
    destruct (interval c =? 0); [done|]. destruct (bool_decide _); [done|]. cbn in Hnew. injection Hnew as <-.
    split; cbn; try lia.
    - intros x Hx. by apply elem_of_nil in Hx.
    - destruct (order c).
      + unfold continuous_ok. cbn. split_and!; [constructor|constructor|done|done].
      + unfold independent_ok. cbn. split; [constructor|]. split; [intros _ x Hx; by apply elem_of_nil in Hx|done]. }
  clear Hnew. revert r Hok. induction Hops as [|op ops Hop _ IH]; intros r Hok; cbn [foldl]; [done|]. apply IH. clear IH.
  destruct op as [limit granted|e x|w n now|now until|e|]; cbn in *.
  - unfold reserve. repeat case_match; try done; by apply with_backing_ok.
  - by apply observe_ok.
  - by apply accept_ok.
  - by apply defer_ok.
  - by apply clear_ok.
  - by apply with_backing_ok, clear_ok.
Qed.

(** C28. Nothing received goes unreported: in every state a receiver can be in,
    once its report is due, sending the reports it offers, at most as many as
    its capacity, reports each packet still to be reported in exactly one of
    them, and then no report is pending. *)
Theorem every_receipt_reported_once size c ep r ops now :
  config_ok c -> receiver_new size c ep = Ok r -> Forall op_ok ops ->
  let r := foldl (receiver_step size) r ops in
  (forall d, deadline r = Some d -> d <= now) -> version r + capacity (config r) <= umax 64 ->
  let '(r', ws) := drain (Z.to_nat (capacity (config r))) r now in
  deadline r' = None /\ map receipt (receipts r') = map receipt (receipts r) /\ Forall (fun e => pending e = false) (receipts r') /\
  Forall (fun w => 1 <= count w <= max_report_statuses (config r)) ws /\
  forall e, e ∈ receipts r -> pending e = true -> length (covering (receipt e) ws) = 1%nat.
Proof.
  intros Hc Hnew Hops r0 Hd Hv. pose proof (history_reachable_ok size c ep r ops Hc Hnew Hops) as Hok. fold r0 in Hok.
  destruct (drain _ r0 now) as [r' ws] eqn:E. pose proof (work_bound r0 Hok) as Hw.
  destruct (drain_spec (Z.to_nat (capacity (config r0))) r0 now r' ws Hok Hd ltac:(lia) ltac:(lia) E) as ((G1 & G2 & G3) & G4 & G5 & _).
  split_and!; try done. apply Forall_forall. by apply idle_work.
Qed.

(** ** The history is exact *)

Lemma find_receipt_elem r s p x :
  receiver_ok r -> order (config r) = Continuous s ->
  find_receipt r s p = Some x <-> exists e, e ∈ receipts r /\ receipt e = x /\ key e = p.
Proof.
  intros Hok Hord. pose proof (ro_order _ Hok) as Ho. rewrite Hord in Ho. destruct Ho as (Hs & _ & _).
  unfold find_receipt. rewrite Hord, Z.eqb_refl. pose proof (search_spec (receipts r) p Hs) as Hsr.
  destruct (search (receipts r) p) as [i|i].
  - destruct Hsr as (e0 & He0 & Hk). rewrite He0. cbn. split.
    + intros [= <-]. exists e0. split_and!; [by eapply list_elem_of_lookup_2|done|done].
    + intros (e & He & <- & Hke). f_equal. f_equal. apply list_elem_of_lookup_2 in He0.
      pose proof (in_order_nodup _ Hs) as Hnd. apply list_elem_of_lookup in He as [j1 He]. apply list_elem_of_lookup in He0 as [j2 He0].
      assert (j1 = j2) as -> by (eapply (NoDup_lookup _ j1 j2 p Hnd); rewrite list_lookup_fmap; [rewrite He|rewrite He0]; cbn; congruence). congruence.
  - split; [done|]. intros (e & He & _ & Hke). destruct Hsr as (_ & Hlo & Hhi). rewrite <- (take_drop i (receipts r)) in He.
    rewrite !Forall_forall in *. apply elem_of_app in He as [He|He]; [specialize (Hlo e He)|specialize (Hhi e He)]; cbn in *; lia.
Qed.

Definition observe_all (r : Receiver) (xs : list Receipt) : Receiver := foldl (fun r x => (observe r (epoch r) x).1) r xs.

(** The first receipt for a packet. *)
Definition first_of (p : Z) (xs : list Receipt) : option Receipt := '(_, x) ← list_find (fun x => packet x = p) xs; Some x.

Lemma first_of_snoc p xs x :
  first_of p (xs ++ [x]) = match first_of p xs with Some y => Some y | None => if decide (packet x = p) then Some x else None end.
Proof.
  unfold first_of. induction xs as [|y xs IH]; cbn; [by case_decide|]. destruct (decide (packet y = p)); [done|].
  destruct (list_find _ (xs ++ [x])) as [[? ?]|], (list_find _ xs) as [[? ?]|]; cbn in *; exact IH.
Qed.

(** The history of [xs]: bounded by the highest packet, first receipts first. *)
Record history_of (r : Receiver) (s : Z) (xs : list Receipt) : Prop := mk_history_of {
  hi_ok : receiver_ok r;
  hi_order : order (config r) = Continuous s;
  hi_highest : highest r = max_of (map packet xs);
  hi_elem : forall x, (exists e, e ∈ receipts r /\ receipt e = x) <->
              exists h, highest r = Some h /\ floor_of r h <= packet x /\ first_of (packet x) xs = Some x;
}.

Lemma first_of_Some p xs x : first_of p xs = Some x -> x ∈ xs /\ packet x = p.
Proof.
  unfold first_of. destruct (list_find _ xs) as [[i y]|] eqn:E; [|done]. intros [= <-].
  apply list_find_Some in E as (H1 & H2 & _). split; [by eapply list_elem_of_lookup_2|done].
Qed.

Lemma max_of_snoc l x : max_of (l ++ [x]) = Some (match max_of l with Some m => Z.max m x | None => x end).
Proof. unfold max_of. by rewrite foldl_app. Qed.

Lemma observe_history r s xs x :
  history_of r s xs -> r_space x = s -> 0 <= packet x < umax 64 -> capacity (config r) <= backing r -> version r < umax 64 ->
  let r' := (observe r (epoch r) x).1 in
  history_of r' s (xs ++ [x]) /\ config r' = config r /\ backing r' = backing r /\ version r' <= version r + 1.
Proof.
  intros [Hok Hord Hhi Hel] Hsp Hp Hb Hv. unfold observe. rewrite Z.eqb_refl. cbn [negb]. rewrite (proj2 (Z.eqb_neq _ _)) by lia.
  rewrite (proj2 (Z.ltb_ge _ _)) by lia. unfold checked_add. rewrite (proj2 (Z.leb_le _ _)) by lia. rewrite Hord, Hsp, Z.eqb_refl. cbn [negb].
  set (h := match highest r with Some h => _ | None => _ end). change (saturating_sub h _) with (floor_of r h).
  assert (max_of (map packet (xs ++ [x])) = Some h) as Emax.
  { rewrite map_app. cbn [map]. rewrite max_of_snoc, <- Hhi. done. }
  assert (forall h0, highest r = Some h0 -> h0 <= h) as Hmono by (intros h0 E; unfold h; rewrite E; lia).
  assert (packet x <= h) as Hxh by (unfold h; destruct (highest r); lia).
  assert (forall y, y ∈ xs -> exists h0, highest r = Some h0 /\ packet y <= h0) as Hbelow.
  { intros y Hy. rewrite Hhi. pose proof (max_of_spec (map packet xs)) as Hm. destruct (max_of _) as [m|].
    - exists m. split; [done|]. apply Hm. by apply list_elem_of_fmap_2.
    - apply map_eq_nil in Hm. rewrite Hm in Hy. by apply elem_of_nil in Hy. }
  assert (forall h0, highest r = Some h0 -> h = h0 ->
    (packet x < floor_of r h \/ exists y, first_of (packet x) xs = Some y) ->
    history_of r s (xs ++ [x])) as Hsame.
  { intros h0 Eh Eq Hor. split; try done; [congruence|]. intros y. rewrite Hel. rewrite Eh.
    split; intros (h1 & [= <-] & Hf & Hfi); exists h0; (split; [done|]); (split; [done|]).
    - by rewrite first_of_snoc, Hfi.
    - rewrite first_of_snoc in Hfi. destruct (first_of (packet y) xs) eqn:Efi; [done|]. case_decide as Ep; [|done].
      injection Hfi as <-. destruct Hor as [Hlt|(z & Hz)]; [subst; lia|congruence]. }
  destruct (Z.ltb_spec (packet x) (floor_of r h)) as [Hold|Hnew].
  { cbn [fst]. split_and!; try done; [|lia]. assert (exists h0, highest r = Some h0 /\ h = h0) as (h0 & Eh & Eq).
    { unfold h in *. destruct (highest r) as [h0|]; [|unfold floor_of, saturating_sub in Hold; pose proof (ro_capacity _ Hok); lia].
      exists h0. split; [done|]. unfold floor_of, saturating_sub in Hold. pose proof (ro_capacity _ Hok). lia. }
    apply (Hsame h0); [done|done|by left]. }
  pose proof (ro_order _ Hok) as Ho. rewrite Hord in Ho. destruct Ho as (Hs & _ & _).
  destruct (search (receipts r) (packet x)) as [i|i] eqn:Ei.
  { cbn [fst]. split_and!; try done; [|lia]. pose proof (search_spec (receipts r) (packet x) Hs) as Hsr. rewrite Ei in Hsr.
    destruct Hsr as (e & He & Hk). apply list_elem_of_lookup_2 in He. destruct (proj1 (Hel (receipt e)) ltac:(by exists e)) as (h0 & Eh & Hf & Hfi).
    pose proof (first_of_Some _ _ _ Hfi) as [Hin _]. destruct (Hbelow _ Hin) as (h1 & Eh1 & Hle). rewrite Eh in Eh1. injection Eh1 as <-.
    apply (Hsame h0); [done|unfold h; rewrite Eh; lia|]. right. exists (receipt e). by rewrite <- Hk. }
  destruct (retire_below (floor_of r h) (receipts r)) as [l n] eqn:Er.
  destruct (observe_continuous r s x (version r + 1) i l n Hok Hord Hsp Hp Hnew Ei Er)
    as (K1 & K2 & K3 & K4 & K5 & K6 & K7 & K8 & K9). fold h in K1, K2, K3, K5, K6, K7, K8, K9.
  set (r' := (admit_receipt _ x _ _ _).1) in *. clearbody r'. split_and!; try done; [|lia].
  assert (floor_of r' h = floor_of r h) as Ef by (unfold floor_of; by rewrite K6).
  split; [done|congruence|congruence|]. intros y. rewrite K5, first_of_snoc. setoid_rewrite K3. split.
  - intros (e & [->|[He Hf]] & Ey).
    + cbn in Ey. subst y. exists h. split; [done|]. split; [lia|]. destruct (first_of (packet x) xs) as [z|] eqn:Efi.
      2: { by rewrite decide_True. }
      exfalso. apply K4. pose proof (first_of_Some _ _ _ Efi) as [Hz Hpz]. destruct (Hbelow z Hz) as (h0 & Eh & Hle).
      assert (exists e, e ∈ receipts r /\ receipt e = z) as (e & He & <-).
      { apply Hel. exists h0. split; [done|]. rewrite Hpz. split; [|done]. unfold floor_of in *. specialize (Hmono h0 Eh). unfold saturating_sub in *. lia. }
      by exists e.
    + destruct (proj1 (Hel y) ltac:(by exists e)) as (h0 & Eh & _ & Hfi). exists h. rewrite Hfi. subst y. split_and!; [done|lia|done].
  - intros (h' & [= <-] & Hf & Hfi). rewrite Ef in Hf. destruct (first_of (packet y) xs) as [z|] eqn:Efi.
    + injection Hfi as ->. pose proof (first_of_Some _ _ _ Efi) as [Hz _]. destruct (Hbelow y Hz) as (h0 & Eh & _).
      destruct (proj2 (Hel y)) as (e & He & Ey).
      { exists h0. split; [done|]. split; [|done]. specialize (Hmono h0 Eh). unfold floor_of, saturating_sub in *. lia. }
      exists e. split; [right; split; [done|congruence]|done].
    + case_decide; [|done]. injection Hfi as <-. exists (mkEntry x true). split; [by left|done].
Qed.

(** A continuous history remembers exactly the packets it should: after any
    packets of its space, in any order and with any repeats, it answers for a
    packet with its first receipt, if the packet is at most [capacity - 1]
    behind the highest one seen, and with nothing otherwise. *)
Theorem continuous_history_exact c s ep backing xs p :
  config_ok c -> 0 < capacity c -> 0 < max_report_statuses c -> order c = Continuous s -> capacity c <= backing ->
  Forall (fun x => r_space x = s /\ 0 <= packet x < umax 64) xs -> Z.of_nat (length xs) <= umax 64 ->
  find_receipt (observe_all (mkReceiver c ep [] backing None None None 0) xs) s p =
  (h ← max_of (map packet xs);
   if saturating_sub h (capacity c - 1) <=? p then first_of p xs else None).
Proof.
  intros [Hc Hm] Hc0 Hm0 Hord Hb Hxs Hlen. set (r0 := mkReceiver _ _ _ _ _ _ _ _).
  assert (history_of (observe_all r0 xs) s xs /\ config (observe_all r0 xs) = c /\ FeedbackReceiver.backing (observe_all r0 xs) = backing /\
    version (observe_all r0 xs) <= Z.of_nat (length xs)) as (Hhist & Ec & _ & _).
  { induction xs as [|x xs IH] using rev_ind.
    - split_and!; try done. split; try done.
      + split; cbn; try lia; [intros e He; by apply elem_of_nil in He|]. rewrite Hord. unfold continuous_ok. cbn.
        split_and!; [constructor|constructor|done|done].
      + intros x. split; [intros (e & He & _); by apply elem_of_nil in He|intros (h & [=] & _)].
    - apply Forall_app in Hxs as [Hxs Hx]. apply Forall_singleton in Hx as [Hx1 Hx2]. rewrite length_app in *. cbn in Hlen.
      destruct (IH Hxs ltac:(lia)) as (Hh & Ec & Eb & Ev). unfold observe_all. rewrite foldl_app. cbn [foldl].
      change (foldl _ r0 xs) with (observe_all r0 xs).
      destruct (observe_history (observe_all r0 xs) s xs x Hh Hx1 Hx2 ltac:(rewrite Ec, Eb; done) ltac:(lia)) as (G1 & G2 & G3 & G4).
      split_and!; [done|congruence|congruence|cbn; lia]. }
  destruct Hhist as [Hok Ho Hhi Hel]. apply option_eq. intros x. rewrite (find_receipt_elem _ s p x Hok Ho).
  transitivity ((exists e, e ∈ receipts (observe_all r0 xs) /\ receipt e = x) /\ packet x = p).
  { split; [intros (e & He & <- & <-); split; [by exists e|done]|intros ((e & He & <-) & <-); by exists e]. }
  rewrite Hel, Hhi. unfold floor_of. rewrite Ec.
  replace (saturating_sub (capacity c) 1) with (capacity c - 1) by (unfold saturating_sub; lia). split.
  - intros ((h & -> & Hf & Hfi) & <-). cbn. by rewrite (proj2 (Z.leb_le _ _)).
  - destruct (max_of _) as [h|]; [|done]. cbn. destruct (Z.leb_spec (saturating_sub h (capacity c - 1)) p); [|done].
    intros Hfi. pose proof (first_of_Some _ _ _ Hfi) as [_ <-]. split; [|done]. by exists h.
Qed.

(** Four packets of two spaces, out of order, after one report was sent. *)
Definition demo_config (o : ReportOrder) : ReceiverConfig := mkReceiverConfig 8 3 10 o.
Definition demo_receipt (s p : Z) : Receipt := mkReceipt s p (100 + p) None 0.
Definition demo_ops : list ReceiverOp :=
  [OpReserve 10000 (Some 8); OpObserve 7 (demo_receipt 1 5); OpAccept (mkReportWindow 7 1 5 1 1) 1 200;
   OpObserve 7 (demo_receipt 1 9); OpObserve 7 (demo_receipt 2 3); OpObserve 7 (demo_receipt 1 7); OpObserve 7 (demo_receipt 2 40)].

Lemma every_receipt_reported_once_witness :
  let r := foldl (receiver_step 40) (mkReceiver (demo_config Independent) 7 [] 0 None None None 0) demo_ops in
  let '(r', ws) := drain 8 r 300 in
  map (fun w => (w_space w, base w, count w)) ws = [(1, 6, 3); (1, 8, 2); (2, 3, 3); (2, 38, 3)] /\ deadline r' = None /\
  forall e, e ∈ receipts r -> pending e = true -> length (covering (receipt e) ws) = 1%nat.
Proof.
  cbv zeta. pose proof (every_receipt_reported_once 40 (demo_config Independent) 7
    (mkReceiver (demo_config Independent) 7 [] 0 None None None 0) demo_ops 300) as H. cbv zeta in H.
  set (r := foldl _ _ demo_ops) in *. change (Z.to_nat (capacity (config r))) with 8%nat in H.
  assert (map (fun w => (w_space w, base w, count w)) (drain 8 r 300).2 = [(1, 6, 3); (1, 8, 2); (2, 3, 3); (2, 38, 3)]) as E
    by (vm_compute; reflexivity).
  destruct (drain 8 r 300) as [r' ws]. destruct H as (H1 & _ & _ & _ & H2).
  - vm_compute. intuition congruence.
  - reflexivity.
  - repeat (apply Forall_cons_2; [vm_compute; intuition congruence|]). constructor.
  - assert (deadline r = Some 119) as -> by (vm_compute; reflexivity). intros d [= <-]. lia.
  - vm_compute. congruence.
  - split; [exact E|split; [exact H1|exact H2]].
Defined.

Lemma continuous_history_exact_witness :
  let xs := map (demo_receipt 1) [5; 9; 7; 5; 14; 6] in
  let r := observe_all (mkReceiver (demo_config (Continuous 1)) 7 [] 8 None None None 0) xs in
  find_receipt r 1 9 = Some (demo_receipt 1 9) /\ find_receipt r 1 6 = None /\ find_receipt r 1 8 = None.
Proof.
  cbv zeta. split_and!;
    (rewrite (continuous_history_exact (demo_config (Continuous 1)) 1);
     [vm_compute; reflexivity|vm_compute; intuition congruence|done|done|done|done| |vm_compute; congruence]);
    repeat (apply Forall_cons_2; [vm_compute; intuition congruence|]); constructor.
Defined.
