(* ===== verification/Pacer.v ===== *)
(** * The pacer

    Models [crates/pulsebeam-cc/src/pacer.rs]: two leaky buckets, one for all
    bytes sent and one for padding, that say when the next packet may leave.
    Debts are in bits times nanoseconds, [u128]; a [Duration] is a number of
    nanoseconds. The theorems bound what can be sent, and for how long sending
    can be held back. *)

From S2P Require Import Prelude.

Definition milliseconds (n : Z) : Z := n * 1000000.
Definition MAX_DEBT : Z := milliseconds 500.
Definition MAX_ELAPSED : Z := 2 * NANOS_PER_SEC.
Definition MAX_QUEUE_TIME : Z := 2 * NANOS_PER_SEC.
Definition MAX_PADDING_REPLAY : Z := milliseconds 50.
Definition PADDING_QUANTUM : Z := milliseconds 5.
Definition MAX_BURST_BYTES : Z := 63000.
Definition DEBT_PER_BYTE : Z := 8000000000.

(** [Duration::MAX] and [Duration::checked_add] *)
Definition DURATION_MAX : Z := umax 64 * NANOS_PER_SEC + (NANOS_PER_SEC - 1).
Definition duration_checked_add (a b : Z) : option Z := if a + b <=? DURATION_MAX then Some (a + b) else None.

Record Pacer := mkPacer {
  processed_at : option Z;
  media_debt : Z;
  padding_debt : Z;
  data_rate : Z;
  configured_data_rate : Z;
  padding_rate : Z;
  burst_window : Z;
  padding_remaining : Z;
  charged_bytes : Z;
}.

Definition pacer_default : Pacer := mkPacer None 0 0 0 0 0 0 0 0.

Definition reset (p : Pacer) : Pacer := mkPacer None 0 0 0 0 0 0 0 (charged_bytes p).

Definition configure (p : Pacer) (now data padding burst : Z) : Pacer :=
  let padding := Z.min padding data in
  mkPacer (Some (default now (processed_at p))) (media_debt p) (padding_debt p) data data padding burst
    (if padding =? 0 then 0 else padding_remaining p) (charged_bytes p).

(** [u64::try_from(v).unwrap_or(u64::MAX)], also for [usize] *)
Definition to_u64 (v : Z) : Z := Z.min v (umax 64).

Definition set_data_rate (r : Z) (p : Pacer) : Pacer :=
  mkPacer (processed_at p) (media_debt p) (padding_debt p) r (configured_data_rate p) (padding_rate p)
    (burst_window p) (padding_remaining p) (charged_bytes p).

Definition update_queue (p : Pacer) (transport_bytes average_queue_time : Z) : Pacer :=
  let time_left := Z.max (saturating_sub MAX_QUEUE_TIME average_queue_time) (milliseconds 1) in
  let required := saturating_mul 128 transport_bytes DEBT_PER_BYTE `div` time_left in
  set_data_rate (Z.max (configured_data_rate p) (to_u64 required)) p.

Definition debt_limit (rate : Z) : Z := if rate =? 0 then umax 128 else saturating_mul 128 rate MAX_DEBT.

Definition drain_time (debt rate : Z) : Z :=
  if rate =? 0 then if debt =? 0 then 0 else DURATION_MAX
  else
    let nanos := div_ceil debt rate in
    if nanos `div` NANOS_PER_SEC <=? umax 64
    then (nanos `div` NANOS_PER_SEC) * NANOS_PER_SEC + nanos `mod` NANOS_PER_SEC else DURATION_MAX.

Definition burst_of (p : Pacer) : Z :=
  Z.min (burst_window p) (drain_time (saturating_mul 128 MAX_BURST_BYTES DEBT_PER_BYTE) (data_rate p)).

Definition next_deadline (p : Pacer) : option Z :=
  if data_rate p =? 0 then None
  else
    at_ ← processed_at p;
    let drain := drain_time (media_debt p) (data_rate p) in
    duration_checked_add at_ (if drain <? burst_of p then 0 else drain).

Definition eligible (p : Pacer) (now : Z) : bool :=
  match next_deadline p with Some d => d <=? now | None => false end.

Definition padding_quantum_bytes (p : Pacer) : Z :=
  to_u64 (saturating_mul 128 (padding_rate p) PADDING_QUANTUM `div` DEBT_PER_BYTE).

Definition padding_deadline (p : Pacer) : option Z :=
  if padding_quantum_bytes p =? 0 then None
  else if 0 <? padding_remaining p then next_deadline p
  else
    at_ ← processed_at p;
    duration_checked_add at_
      (Z.max (drain_time (media_debt p) (data_rate p)) (drain_time (padding_debt p) (padding_rate p))).

Definition advance (p : Pacer) (at_ : Z) : Pacer :=
  let previous := default at_ (processed_at p) in
  if at_ <=? previous then
    mkPacer (Some previous) (media_debt p) (padding_debt p) (data_rate p) (configured_data_rate p) (padding_rate p)
      (burst_window p) (padding_remaining p) (charged_bytes p)
  else
    let elapsed := Z.min (saturating_sub at_ previous) MAX_ELAPSED in
    mkPacer (Some at_) (saturating_sub (media_debt p) (saturating_mul 128 (data_rate p) elapsed))
      (saturating_sub (padding_debt p) (saturating_mul 128 (padding_rate p) elapsed))
      (data_rate p) (configured_data_rate p) (padding_rate p) (burst_window p) (padding_remaining p) (charged_bytes p).

Definition set_padding_remaining (n : Z) (p : Pacer) : Pacer :=
  mkPacer (processed_at p) (media_debt p) (padding_debt p) (data_rate p) (configured_data_rate p) (padding_rate p)
    (burst_window p) n (charged_bytes p).

Definition prepare_padding (p : Pacer) (now : Z) : Pacer * option Z :=
  match padding_deadline p with
  | None => (advance p now, None)
  | Some due =>
      if now <? due then (advance p now, None)
      else
        let p :=
          if padding_remaining p =? 0 then
            let p := advance p (Z.max due (saturating_sub now MAX_PADDING_REPLAY)) in
            set_padding_remaining (padding_quantum_bytes p) p
          else p in
        (p, Some (padding_remaining p))
  end.

Definition charge_padding (p : Pacer) (bytes : Z) : Pacer :=
  mkPacer (processed_at p) (media_debt p)
    (Z.min (saturating_add 128 (padding_debt p) (saturating_mul 128 bytes DEBT_PER_BYTE)) (saturating_mul 128 (padding_rate p) MAX_DEBT))
    (data_rate p) (configured_data_rate p) (padding_rate p) (burst_window p) (padding_remaining p) (charged_bytes p).

Definition charge_sent (p : Pacer) (bytes : Z) : Pacer :=
  let p := mkPacer (processed_at p)
    (Z.min (saturating_add 128 (media_debt p) (saturating_mul 128 bytes DEBT_PER_BYTE)) (debt_limit (data_rate p)))
    (padding_debt p) (data_rate p) (configured_data_rate p) (padding_rate p) (burst_window p) (padding_remaining p) (charged_bytes p) in
  let p := charge_padding p bytes in
  mkPacer (processed_at p) (media_debt p) (padding_debt p) (data_rate p) (configured_data_rate p) (padding_rate p)
    (burst_window p) (padding_remaining p) (saturating_add 128 (charged_bytes p) bytes).

Definition commit (p : Pacer) (now wire_bytes : Z) : Pacer :=
  charge_sent (advance (set_padding_remaining 0 p) now) wire_bytes.

Definition commit_padding (p : Pacer) (now wire_bytes : Z) : Pacer :=
  let p := advance p (saturating_sub now MAX_PADDING_REPLAY) in
  charge_sent (set_padding_remaining (saturating_sub (padding_remaining p) wire_bytes) p) wire_bytes.

Definition padding_unavailable (p : Pacer) : Pacer :=
  set_padding_remaining 0 (charge_padding p (padding_remaining p)).

Definition process_idle (p : Pacer) (now : Z) : Pacer := advance p now.

Definition padding_request_bytes (p : Pacer) : Z :=
  if 0 <? padding_remaining p then padding_remaining p else padding_quantum_bytes p.

(** ** Draining *)

Lemma div_ceil_spec a b : 0 < b -> 0 <= a -> a <= b * div_ceil a b < a + b /\ 0 <= div_ceil a b.
Proof.
  intros Hb Ha. unfold div_ceil. assert (0 <= (a + b - 1) `div` b) by (apply Z.div_pos; lia).
  pose proof (Z.div_mod (a + b - 1) b). pose proof (Z.mod_pos_bound (a + b - 1) b Hb).
  set (q := (a + b - 1) `div` b) in *. set (r := (a + b - 1) `mod` b) in *. clearbody q r. lia.
Qed.

(** A debt that drains within [x] is exactly that long in the bucket. *)
Lemma drain_time_spec debt rate x :
  0 < rate -> 0 <= debt <= rate * x -> 0 <= x <= DURATION_MAX ->
  debt <= rate * drain_time debt rate /\ 0 <= drain_time debt rate <= x.
Proof.
  intros Hr Hd Hx. unfold drain_time. rewrite (proj2 (Z.eqb_neq _ _)) by lia.
  destruct (div_ceil_spec debt rate Hr ltac:(lia)) as [Hn Hn0]. set (n := div_ceil debt rate) in *. clearbody n.
  assert (n <= x) as Hle by nia. unfold DURATION_MAX in Hx.
  assert (n `div` NANOS_PER_SEC < umax 64 + 1) by (apply Z.div_lt_upper_bound; unfold NANOS_PER_SEC in *; lia).
  rewrite (proj2 (Z.leb_le _ _)) by lia.
  pose proof (Z.div_mod n NANOS_PER_SEC ltac:(unfold NANOS_PER_SEC; lia)) as E.
  replace (n `div` NANOS_PER_SEC * NANOS_PER_SEC + n `mod` NANOS_PER_SEC) with n by lia. lia.
Qed.

(** ** The sending rate *)

Inductive PacerOp :=
| Send (now bytes : Z)
| Pad (now bytes : Z)
| NoPad (now : Z)
| Idle (now : Z)
| Configure (now data padding burst : Z)
| UpdateQueue (transport_bytes average_queue_time : Z).

Definition op_time (t : Z) (op : PacerOp) : Z :=
  match op with Send t _ | Pad t _ | NoPad t | Idle t | Configure t _ _ _ => t | UpdateQueue _ _ => t end.
Definition op_bytes (op : PacerOp) : Z := match op with Send _ b | Pad _ b => b | _ => 0 end.

(** Padding is prepared and then sent, or found unavailable. *)
Definition pacer_step (p : Pacer) (op : PacerOp) : Pacer :=
  match op with
  | Send now bytes => commit p now bytes
  | Pad now bytes => match prepare_padding p now with (p, Some _) => commit_padding p now bytes | (p, None) => p end
  | NoPad now => match prepare_padding p now with (p, Some _) => padding_unavailable p | (p, None) => p end
  | Idle now => process_idle p now
  | Configure now data padding burst => configure p now data padding burst
  | UpdateQueue transport_bytes average_queue_time => update_queue p transport_bytes average_queue_time
  end.

(** Sending is paused, or its rate is between [low] and [high]. *)
Definition rate_within (low high r : Z) : Prop := r = 0 \/ low <= r <= high.

(** Time does not go back, media leaves only when eligible, no packet is larger
    than [largest], and the rates and burst windows the pacer is given, or takes
    from its queue, stay between [low] and [high] and up to [longest]. *)
Fixpoint lawful (low high longest largest : Z) (p : Pacer) (t : Z) (ops : list PacerOp) : Prop :=
  match ops with
  | [] => True
  | op :: ops =>
      t <= op_time t op /\ 0 <= op_bytes op <= largest /\
      (match op with
       | Send now _ => eligible p now = true
       | Configure _ data padding burst => 0 <= padding /\ 0 <= data /\ burst <= longest
       | _ => True
       end) /\
      rate_within low high (data_rate (pacer_step p op)) /\
      lawful low high longest largest (pacer_step p op) (op_time t op) ops
  end.

Section Rate.
Context (low high longest largest t0 : Z).
Hypothesis low_positive : 0 < low.
Hypothesis high_range : low <= high <= umax 64.
Hypothesis largest_range : 0 <= largest <= umax 64.
Let slack := Z.max longest MAX_PADDING_REPLAY.
Hypothesis no_forgiveness : low * slack + largest * DEBT_PER_BYTE <= low * MAX_DEBT.

(** At time [t]: everything charged is paid for at the highest rate or still
    owed, and never more ahead than the slack and one packet. *)
Record paced (p : Pacer) (t : Z) : Prop := mk_paced {
  pc_rate : rate_within low high (data_rate p);
  pc_padding : 0 <= padding_rate p <= configured_data_rate p /\ configured_data_rate p <= data_rate p;
  pc_burst : burst_window p <= longest;
  pc_at : exists a, processed_at p = Some a /\ t0 <= a <= t /\
    charged_bytes p * DEBT_PER_BYTE <= high * (a - t0) + media_debt p /\
    charged_bytes p * DEBT_PER_BYTE <= high * (a - t0) + high * slack + largest * DEBT_PER_BYTE;
  pc_debt : 0 <= media_debt p <= high * MAX_DEBT;
  pc_remaining : 0 <= padding_remaining p;
  pc_charged : 0 <= charged_bytes p;
}.

Lemma slack_range : 0 <= MAX_PADDING_REPLAY <= slack /\ slack <= MAX_DEBT.
Proof. assert (0 <= MAX_PADDING_REPLAY) by by vm_compute. unfold slack, DEBT_PER_BYTE in *. nia. Qed.

Lemma product_range r e : 0 <= r <= umax 64 -> 0 <= e <= MAX_ELAPSED -> saturating_mul 128 r e = r * e.
Proof. intros Hr He. unfold saturating_mul, MAX_ELAPSED, NANOS_PER_SEC, umax in *. nia. Qed.

(** Time passing pays off debt, at most at the highest rate. *)
Lemma advance_paced p t a u :
  paced p t -> processed_at p = Some a ->
  let p' := advance p u in
  paced p' (Z.max t u) /\ processed_at p' = Some (Z.max a u) /\ charged_bytes p' = charged_bytes p /\
  data_rate p' = data_rate p /\ padding_rate p' = padding_rate p /\ padding_remaining p' = padding_remaining p.
Proof.
  intros [H1 H2 H3 (a' & Ha' & Ht & V1 & V2) H5 H6 H7] Ha. rewrite Ha in Ha'. injection Ha' as <-. unfold advance. rewrite Ha. cbn [default from_option id].
  destruct (Z.leb_spec u a) as [Hle|Hgt]; cbn.
  - rewrite (Z.max_l a u) by lia. split_and!; try done. split; try done. exists a. split_and!; try done; lia.
  - rewrite (Z.max_r a u) by lia. split_and!; try done. set (e := Z.min (saturating_sub u a) MAX_ELAPSED).
    assert (0 <= e <= MAX_ELAPSED /\ e <= u - a) as [He1 He2] by (unfold e, saturating_sub, MAX_ELAPSED, NANOS_PER_SEC; lia).
    rewrite (product_range _ e) by (done || (unfold rate_within, umax in *; lia)).
    assert (0 <= data_rate p * e /\ (data_rate p = 0 \/ data_rate p * e <= high * (u - a))) as [Hre Hre'] by (unfold rate_within in H1; nia). assert (0 <= high * (u - a)) as Hh by nia.
    split; cbn; try done; [|unfold saturating_sub; lia]. exists u. unfold saturating_sub. split_and!; try done; try lia; nia.
Qed.

Lemma charge_paced p t a b :
  paced p t -> processed_at p = Some a -> 0 < data_rate p ->
  charged_bytes p * DEBT_PER_BYTE <= high * (a - t0) + data_rate p * slack -> 0 <= b <= largest -> paced (charge_sent p b) t.
Proof.
  intros [H1 H2 H3 (a' & Ha' & Ht & V1 & V2) H5 H6 H7] Ha Hr HV Hb. rewrite Ha in Ha'. injection Ha' as <-.
  pose proof slack_range as Hsl. unfold rate_within in H1.
  assert (low <= data_rate p <= high) as Hr' by lia. clear H1.
  assert (saturating_mul 128 b DEBT_PER_BYTE = b * DEBT_PER_BYTE) as E1 by (unfold saturating_mul, DEBT_PER_BYTE, umax in *; lia).
  assert (debt_limit (data_rate p) = data_rate p * MAX_DEBT) as E2.
  { unfold debt_limit. rewrite (proj2 (Z.eqb_neq _ _)) by lia. apply product_range; [lia|by vm_compute]. }
  assert (0 <= b * DEBT_PER_BYTE <= largest * DEBT_PER_BYTE) as Hbd by (unfold DEBT_PER_BYTE; lia).
  assert (data_rate p * slack + largest * DEBT_PER_BYTE <= data_rate p * MAX_DEBT) as Hcap by nia.
  assert (data_rate p * slack <= high * slack) as Hrs by nia.
  assert (0 <= data_rate p * MAX_DEBT <= high * MAX_DEBT /\ high * MAX_DEBT <= umax 128) as Hum by (unfold MAX_DEBT, milliseconds, umax in *; lia).
  unfold charge_sent, charge_padding. cbn. rewrite E1, E2.
  assert ((charged_bytes p + b) * DEBT_PER_BYTE = charged_bytes p * DEBT_PER_BYTE + b * DEBT_PER_BYTE) as Ed by ring.
  assert (saturating_add 128 (charged_bytes p) b * DEBT_PER_BYTE <= (charged_bytes p + b) * DEBT_PER_BYTE) as Hsat.
  { apply Z.mul_le_mono_nonneg_r; [by vm_compute|]. unfold saturating_add. lia. }
  assert (saturating_add 128 (media_debt p) (b * DEBT_PER_BYTE) = media_debt p + b * DEBT_PER_BYTE) as Ea.
  { unfold saturating_add, DEBT_PER_BYTE, MAX_DEBT, milliseconds, umax in *. lia. }
  rewrite Ea. split; cbn; try done; try lia.
  - by right.
  - exists a. split_and!; try done; lia.
  - unfold saturating_add, umax. lia.
Qed.

(** How long the debt takes to drain at the rate in force. *)
Lemma drain_bound p t :
  paced p t -> 0 < data_rate p ->
  let d := drain_time (media_debt p) (data_rate p) in 0 <= d /\ media_debt p <= data_rate p * d.
Proof.
  intros Hp Hr. pose proof (pc_debt _ _ Hp) as Hd. pose proof (pc_rate _ _ Hp) as Hrate. unfold rate_within in Hrate.
  assert (0 <= high * MAX_DEBT <= DURATION_MAX) as Hx by (unfold DURATION_MAX, MAX_DEBT, milliseconds, NANOS_PER_SEC, umax in *; lia).
  destruct (drain_time_spec (media_debt p) (data_rate p) (high * MAX_DEBT)) as [D1 D2]; [done|nia|done|]. cbn. lia.
Qed.

(** What has drained by then is at most the slack ahead. *)
Lemma drained_by p t a u :
  paced p t -> processed_at p = Some a -> 0 < data_rate p -> a + drain_time (media_debt p) (data_rate p) - MAX_PADDING_REPLAY <= Z.max a u ->
  charged_bytes p * DEBT_PER_BYTE <= high * (Z.max a u - t0) + data_rate p * slack.
Proof.
  intros Hp Ha Hr Hu. destruct (drain_bound p t Hp Hr) as [D1 D2]. pose proof (pc_rate _ _ Hp) as Hrate. unfold rate_within in Hrate.
  destruct (pc_at _ _ Hp) as (a' & Ha' & _ & V1 & _). rewrite Ha in Ha'. injection Ha' as <-. pose proof slack_range as [Hsl _].
  set (d := drain_time _ _) in *. clearbody d. destruct (Z.le_gt_cases d MAX_PADDING_REPLAY); nia.
Qed.

Lemma eligible_drained p t now a u :
  paced p t -> processed_at p = Some a -> eligible p now = true -> saturating_sub now MAX_PADDING_REPLAY <= u ->
  0 < data_rate p /\ charged_bytes p * DEBT_PER_BYTE <= high * (Z.max a u - t0) + data_rate p * slack.
Proof.
  intros Hp Ha He Hu. pose proof (pc_rate _ _ Hp) as Hrate. unfold rate_within in Hrate. unfold eligible, next_deadline in He.
  destruct (Z.eqb_spec (data_rate p) 0) as [|Hne]; [done|]. rewrite Ha in He. cbn [mbind option_bind] in He. assert (0 < data_rate p) as Hr by lia. split; [done|].
  unfold duration_checked_add in He. destruct (Z.ltb_spec (drain_time (media_debt p) (data_rate p)) (burst_of p)) as [Hlt|Hge].
  - destruct (drain_bound p t Hp Hr) as [D1 D2]. destruct (pc_at _ _ Hp) as (a' & Ha' & _ & V1 & _). rewrite Ha in Ha'. injection Ha' as <-.
    pose proof (pc_burst _ _ Hp). assert (drain_time (media_debt p) (data_rate p) <= slack) by (unfold burst_of in Hlt; unfold slack; lia). nia.
  - apply (drained_by p t); try done. destruct (_ <=? _); [|done]. apply Z.leb_le in He. unfold saturating_sub in Hu. lia.
Qed.

Lemma paced_later p t u : paced p t -> t <= u -> paced p u.
Proof. intros [H1 H2 H3 (a & Ha & Ht & V1 & V2) H5 H6 H7] Hu. split; try done. exists a. split_and!; try done; lia. Qed.

Lemma remaining_paced p t n : paced p t -> 0 <= n -> paced (set_padding_remaining n p) t.
Proof. intros [H1 H2 H3 H4 H5 H6 H7] Hn. by split. Qed.

Lemma quantum_nonneg p t : paced p t -> 0 <= padding_quantum_bytes p.
Proof.
  intros Hp. pose proof (pc_padding _ _ Hp) as [? _]. unfold padding_quantum_bytes, to_u64. apply Z.min_glb; [|by vm_compute]. apply Z.div_pos; [|by vm_compute].
  unfold saturating_mul, PADDING_QUANTUM, milliseconds. apply Z.min_glb; [lia|by vm_compute].
Qed.

Lemma padding_needs_rate p t : paced p t -> padding_quantum_bytes p <> 0 -> 0 < data_rate p.
Proof.
  intros Hp Hq. pose proof (pc_padding _ _ Hp) as [H1 H2]. destruct (decide (padding_rate p = 0)) as [E|]; [|lia].
  unfold padding_quantum_bytes in Hq. rewrite E in Hq. by vm_compute in Hq.
Qed.

(** Padding is prepared once the debt has drained. *)
Lemma prepare_paced p t now p' o :
  paced p t -> t <= now -> 0 <= now -> prepare_padding p now = (p', o) ->
  paced p' now /\ (o <> None -> 0 < data_rate p' /\ exists a', processed_at p' = Some a' /\
    forall u, saturating_sub now MAX_PADDING_REPLAY <= u -> charged_bytes p' * DEBT_PER_BYTE <= high * (Z.max a' u - t0) + data_rate p' * slack).
Proof.
  intros Hp Hnow Hn0. unfold prepare_padding. destruct (pc_at _ _ Hp) as (a & Ha & Hat & _).
  assert (paced (advance p now) now) as Hadv by (destruct (advance_paced p t a now Hp Ha) as (G & _); by rewrite Z.max_r in G by lia).
  destruct (padding_deadline p) as [due|] eqn:Ed; [|by intros [= <- <-]].
  destruct (Z.ltb_spec now due) as [|Hdue]; [by intros [= <- <-]|].
  unfold padding_deadline in Ed. destruct (Z.eqb_spec (padding_quantum_bytes p) 0) as [|Hq]; [done|].
  pose proof (padding_needs_rate p t Hp Hq) as Hr. destruct (Z.ltb_spec 0 (padding_remaining p)) as [Hpos|Hzero].
  - rewrite (proj2 (Z.eqb_neq _ _)) by lia. intros [= <- <-]. split; [by apply (paced_later p t)|]. intros _. split; [done|]. exists a. split; [done|].
    intros u Hu. apply (eligible_drained p t now a u Hp Ha); [|done]. unfold eligible. rewrite Ed. by apply Z.leb_le.
  - pose proof (pc_remaining _ _ Hp). rewrite (proj2 (Z.eqb_eq (padding_remaining p) 0)) by lia. rewrite Ha in Ed. cbn [mbind option_bind] in Ed.
    unfold duration_checked_add in Ed. destruct (_ <=? _); [|done]. injection Ed as Ed.
    set (v := Z.max due (saturating_sub now MAX_PADDING_REPLAY)). assert (v <= now) as Hv by (unfold v, saturating_sub, MAX_PADDING_REPLAY, milliseconds; lia).
    destruct (advance_paced p t a v Hp Ha) as (G0 & G1 & G2 & G3 & _). set (q := advance p v) in *. intros [= <- <-].
    split; [apply remaining_paced; [apply (paced_later q (Z.max t v)); [done|lia]|by eapply quantum_nonneg]|]. intros _. cbn [data_rate processed_at charged_bytes set_padding_remaining].
    rewrite G1, G2, G3. split; [done|]. exists (Z.max a v). split; [done|]. intros u _.
    destruct (pc_rate _ _ Hp) as [|Hrate]; [lia|]. pose proof slack_range.
    transitivity (high * (Z.max a v - t0) + data_rate p * slack); [|nia]. apply (drained_by p t); try done. unfold v. lia.
Qed.

Lemma step_paced p t op :
  paced p t -> 0 <= t -> t <= op_time t op -> 0 <= op_bytes op <= largest ->
  (match op with
   | Send now _ => eligible p now = true
   | Configure _ data padding burst => 0 <= padding /\ 0 <= data /\ burst <= longest
   | _ => True
   end) ->
  rate_within low high (data_rate (pacer_step p op)) ->
  paced (pacer_step p op) (op_time t op).
Proof.
  intros Hp Ht Hnow Hb He Hrate. destruct op as [now b|now b|now|now|now data padding burst|bytes queue]; cbn in *.
  - unfold commit. set (q := set_padding_remaining 0 p). assert (paced q t) as Hq by by apply remaining_paced.
    destruct (pc_at _ _ Hq) as (a & Ha & _). destruct (advance_paced q t a now Hq Ha) as (G & Ga & Gc & Gr & _). rewrite (Z.max_r t now) in G by lia.
    destruct (eligible_drained q t now a now Hq Ha He ltac:(unfold saturating_sub, MAX_PADDING_REPLAY, milliseconds; lia)) as [Hr HV].
    apply (charge_paced _ _ _ _ G Ga); [by rewrite Gr|by rewrite Gc, Gr|done].
  - destruct (prepare_padding p now) as [q o] eqn:Epp. destruct (prepare_paced p t now q o Hp Hnow ltac:(lia) Epp) as (G1 & G2).
    destruct o as [n|]; [|done]. destruct (G2 ltac:(done)) as (Hr & a & Ha & HV). unfold commit_padding. set (u := saturating_sub now MAX_PADDING_REPLAY).
    destruct (advance_paced q now a u G1 Ha) as (K & Ka & Kc & Kr & _). rewrite (Z.max_l now u) in K by (unfold u, saturating_sub, MAX_PADDING_REPLAY, milliseconds; lia).
    apply (charge_paced _ _ (Z.max a u)); [apply remaining_paced; [done|unfold saturating_sub; lia]|done|cbn; by rewrite Kr|cbn; rewrite Kc, Kr; apply HV; done|done].
  - destruct (prepare_padding p now) as [q o] eqn:Epp. destruct (prepare_paced p t now q o Hp Hnow ltac:(lia) Epp) as (G1 & _).
    destruct o as [n|]; [|done]. destruct G1 as [M1 M2 M3 M4 M5 M6 M7]. by split.
  - unfold process_idle. destruct (pc_at _ _ Hp) as (a & Ha & _). destruct (advance_paced p t a now Hp Ha) as (G & _). by rewrite Z.max_r in G by lia.
  - destruct Hp as [M1 M2 M3 (a & Ha & Hat & V) M5 M6 M7]. split; cbn; try done; try lia; [|by destruct (_ =? 0)].
    exists a. rewrite Ha. cbn. split_and!; [done|lia|lia|apply V..].
  - destruct Hp as [M1 M2 M3 M4 M5 M6 M7]. split; cbn in *; try done. lia.
Qed.

Lemma run_paced ops p t :
  paced p t -> 0 <= t -> lawful low high longest largest p t ops ->
  paced (foldl pacer_step p ops) (foldl op_time t ops).
Proof.
  revert p t. induction ops as [|op ops IH]; intros p t Hp Ht Hl; cbn; [done|]. destruct Hl as (H1 & H2 & H3 & H4 & H5).
  apply IH; [by apply step_paced|lia|done].
Qed.
End Rate.


(** Sending is never held back for long: after a packet of any size leaves,
    the next may leave at most 500 ms later, whatever debt was there before. *)
Theorem held_back_at_most_half_a_second p now bytes :
  0 < data_rate p <= umax 64 -> 0 <= media_debt p -> 0 <= bytes ->
  (forall a, processed_at p = Some a -> 0 <= a <= now) -> 0 <= now -> now + MAX_DEBT <= DURATION_MAX ->
  eligible (commit p now bytes) (now + MAX_DEBT) = true.
Proof.
  intros Hr Hd Hb Ha Hn Hmax. set (q := advance (set_padding_remaining 0 p) now).
  assert (processed_at q = Some now /\ data_rate q = data_rate p /\ 0 <= media_debt q) as (Eat & Er & Hdq).
  { unfold q, advance. cbn. destruct (processed_at p) as [a|]; cbn.
    - specialize (Ha a eq_refl). destruct (Z.leb_spec now a); cbn; split_and!; try done; [f_equal; lia|unfold saturating_sub; lia].
    - rewrite Z.leb_refl. done. }
  unfold eligible, next_deadline, commit. fold q. unfold charge_sent, charge_padding. cbn. rewrite Er, Eat.
  rewrite (proj2 (Z.eqb_neq _ _)) by lia. cbn [mbind option_bind]. set (debt := Z.min (saturating_add 128 _ _) _).
  assert (0 <= debt <= data_rate p * MAX_DEBT) as Hdebt.
  { unfold debt, debt_limit. rewrite (proj2 (Z.eqb_neq _ _)) by lia. unfold saturating_add, saturating_mul, DEBT_PER_BYTE, MAX_DEBT, milliseconds, umax in *. lia. }
  destruct (drain_time_spec debt (data_rate p) MAX_DEBT) as [_ D]; [lia|done|by vm_compute|].
  set (d := drain_time debt (data_rate p)) in *. clearbody d. unfold duration_checked_add.
  destruct (d <? _); rewrite (proj2 (Z.leb_le _ _)) by lia; apply Z.leb_le; lia.
Qed.

Definition demo_ops : list PacerOp :=
  [Send 1000000 1200; Send 1000000 1200; Idle 5000000; Send 21000000 1000; Pad 60000000 200; NoPad 61000000; Pad 90000000 200;
   Configure 95000000 400000 0 (milliseconds 40); UpdateQueue 200000 (milliseconds 0); Send 130000000 1500;
   Configure 131000000 0 0 0; UpdateQueue 0 0; Idle 200000000].


Lemma held_back_at_most_half_a_second_witness :
  eligible (commit (configure pacer_default 0 1000000 0 0) 7 1000000) (7 + MAX_DEBT) = true.
Proof. apply held_back_at_most_half_a_second; try (vm_compute; intuition congruence). intros a [= <-]. lia. Defined.
