(* ===== verification/ShardParts.v ===== *)
(** * What a shard is made of

    Models [crates/pulsebeam/src/shard/participants.rs] ([ParticipantRegistry]),
    [shard/dirty.rs] ([DirtyTracker]), [shard/events.rs] ([EventPipeline] and the
    sink it gives a participant), and the inputs, effects and commands of
    [participant/core.rs], [participant/effect.rs], [participant/packet.rs] and
    [shard/worker.rs].

    A participant, room, connection or track identifier is an opaque integer,
    and so is a socket address. A [SlotMap] is a third-party arena: the key it
    hands out is a function of everything that was inserted and removed before,
    with the documented law that no key is handed out twice. What a participant's
    connection does with its inputs is an interface. [None] is [fatal!] or a
    panic of a part. *)

From S2P Require Import Prelude Route Clock RouteRuntime Demux Rtp PacketCache.

(** ** The slot map *)

Inductive SlotEvent := Issued (key : Z) | Freed (key : Z).

Class SlotKeys := next_key : list SlotEvent -> Z.

Definition issued (h : list SlotEvent) : list Z :=
  omap (fun e => match e with Issued k => Some k | Freed _ => None end) h.

Class SlotKeysLaws `{!SlotKeys} : Prop := next_key_new : forall h, next_key h ∉ issued h.

Record SlotMap (V : Type) := mkSlotMap { live : gmap Z V; history : list SlotEvent }.
Arguments mkSlotMap {V} _ _.
Arguments live {V} _.
Arguments history {V} _.

Definition slot_new {V} : SlotMap V := mkSlotMap ∅ [].
Definition slot_get {V} (m : SlotMap V) (k : Z) : option V := live m !! k.
Definition slot_insert `{!SlotKeys} {V} (m : SlotMap V) (v : V) : SlotMap V * Z :=
  let k := next_key (history m) in (mkSlotMap (<[k := v]> (live m)) (history m ++ [Issued k]), k).
Definition slot_remove {V} (m : SlotMap V) (k : Z) : SlotMap V * option V :=
  match live m !! k with
  | Some v => (mkSlotMap (delete k (live m)) (history m ++ [Freed k]), Some v)
  | None => (m, None)
  end.
(** [*m.get_mut(k)? = v] *)
Definition slot_set {V} (m : SlotMap V) (k : Z) (v : V) : SlotMap V :=
  if decide (is_Some (live m !! k)) then mkSlotMap (<[k := v]> (live m)) (history m) else m.

(** [TrackHandle::default()], the null key *)
Definition NULL_HANDLE : Z := 2 ^ 32 + (2 ^ 32 - 1).

(** ** Packets and frames *)

Inductive TrackKind := Audio | Video | Data.
Inductive DataLane := Latest | Lossy | Ordered.

Inductive TrackPacket := DataPacket (lane : DataLane) (bytes : list Z) | RtpTrackPacket (p : RtpPacket).
Record RoutedTrackPacket := mkRouted { routed_track : Z; routed_packet : TrackPacket }.

(** [Arc] and [Bytes] storage is copied, which leaves the value as it is. *)
Definition rehome (e : RtpExtensions) : RtpExtensions := e.
Definition ext_to_transit (e : RtpExtensions) : RtpExtensions :=
  rehome (mkExt (rid e) (audio_level e) (raw_dependency_descriptor e) (dependency_descriptor e) None (opaque e)).
Definition to_transit (p : RtpPacket) : RtpPacket := with_ext (ext_to_transit (ext_vals p)) p.

Definition set_remote_timing (playout arrival : Z) (r : RoutedTrackPacket) : RoutedTrackPacket :=
  match routed_packet r with
  | RtpTrackPacket p =>
      mkRouted (routed_track r) (RtpTrackPacket (with_ext (rehome (ext_vals p)) (with_times arrival playout p)))
  | DataPacket _ _ => r
  end.

Record ReversePacket := mkReverse { reverse_payload : list Z; dedup : ReverseDedup }.

(** [batch.data()] is [batch_data]. *)
Record RecvPacketBatch := mkBatch { batch_src : Z; batch_dst : Z; batch_data : list Z }.

Inductive ShardFrame :=
| Ingress (batch : RecvPacketBatch) (address : NodeTransportAddress) (source_shard : ShardId)
| MediaFrame (env : Envelope) (payload : RoutedTrackPacket)
| ReverseFrame (env : Envelope) (packet : ReversePacket).

Record FlowRoute := mkFlow { flow_address : NodeTransportAddress; flow_id : Z; flow_local : Z; flow_remote : Z }.

(** ** The participant's connection *)

Class ParticipantTypes := {
  Connection : Type;
  ConnectionConfig : Type;
  Track : Type;
  TrackMeta : Type;
  TrackSelector : Type;
  SelectionPolicy : Type;
  TcpFlow : Type;
  TcpPacket : Type;
  track_of : Track -> Z;
  without_reverse : Track -> Track;
  flow_route : TcpFlow -> FlowRoute;
  packet_route : TcpPacket -> FlowRoute;
}.

Section Participants.
Context {PT : ParticipantTypes}.

Inductive TrackRemoval := Withdrawn | SourceEnded.

Inductive ParticipantEffect :=
| ParticipantsChanged (added : list (Z * option string)) (removed : list Z)
| TrackCandidateAdded (track : Track)
| TrackCandidateRemoved (track_id : Z) (reason : TrackRemoval)
| EffectSubscribed (track_id : Z)
| EffectUnsubscribed (track_id : Z)
| EffectPublished (track_id : Z)
| EffectUnpublished (track_id : Z).

Definition effect_track (e : ParticipantEffect) : option Z :=
  match e with
  | ParticipantsChanged _ _ => None
  | TrackCandidateAdded track => Some (track_of track)
  | TrackCandidateRemoved t _ | EffectSubscribed t | EffectUnsubscribed t
  | EffectPublished t | EffectUnpublished t => Some t
  end.

Inductive ParticipantInput :=
| InNetwork (batch : RecvPacketBatch) (source_shard : ShardId)
| InTimeout (now : Z)
| InPublicationCutoff (reference : Z) (success : bool)
| InAuthorization (revision : Z) (expiry : option Z)
| InTrack (key : Z) (packet : TrackPacket) (cache : option TrackStreamCache)
| InReverse (stream : Z) (packet : ReversePacket).

(** [ParticipantSink]: what a poll may ask of its shard. *)
Inductive SinkCall :=
| SinkConnected (source destination : Z) (source_shard : ShardId)
| SinkActivate (track : TrackMeta)
| SinkDeactivate (track : TrackMeta)
| SinkPublish (track : Track)
| SinkUnpublish (meta : TrackMeta)
| SinkUnpublishOwned (meta : TrackMeta) (reference : Z)
| SinkSetOwnedSubscription (reference track : Z) (enabled : bool)
| SinkUnsubscribeOwned (reference : Z)
| SinkSubscribeTracks (selector : TrackSelector) (selection : SelectionPolicy)
| SinkUnsubscribeTracks (selector : TrackSelector)
| SinkRequestReverse (stream : Z) (packet : ReversePacket)
| SinkRenewAuthorization (token : string)
| SinkExit
| SinkPublishPacket (fanout : option Z) (packet : TrackPacket).

Inductive ShardEvent :=
| TransportAuthenticated (source destination : Z) (source_shard : ShardId) (address : NodeTransportAddress) (shard : ShardId)
| ParticipantClosed (participant connection : Z)
| RenewAuthorization (participant connection : Z) (token : string)
| TrackSubscribed (subscriber connection : Z) (track : TrackMeta)
| TrackUnsubscribed (subscriber connection : Z) (track : TrackMeta)
| OwnedSubscriptionSet (connection room subscriber reference track : Z) (enabled : bool)
| OwnedSubscriptionRemoved (room subscriber connection reference : Z)
| TrackSubscriptionAdded (room subscriber connection : Z) (selector : TrackSelector) (selection : SelectionPolicy)
| TrackSubscriptionRemoved (room subscriber connection : Z) (selector : TrackSelector)
| TrackPublished (track : Track)
| TrackUnpublished (meta : TrackMeta)
| OwnedTrackUnpublished (meta : TrackMeta) (reference : Z).

Inductive ParticipantEvent :=
| BindingActivated (subscriber connection : Z) (track : TrackMeta)
| BindingDeactivated (subscriber connection : Z) (track : TrackMeta)
| LifecycleConnected (participant_key source destination : Z) (source_shard : ShardId)
| LifecycleExited (participant connection : Z)
| ControlEvent (event : ShardEvent)
| ReverseRequested (stream : Z) (packet : ReversePacket).
End Participants.

(** What the shard asks of a connection. A poll's calls on its sink are a list:
    every method of the sink returns nothing. *)
Class ConnectionOps `{!ParticipantTypes} := {
  config_participant : ConnectionConfig -> Z;
  connection_new : ConnectionConfig -> ShardId -> Z -> Connection;
  participant_id : Connection -> Z;
  connection_id : Connection -> Z;
  room_id : Connection -> Z;
  input : ParticipantInput -> Connection -> Connection;
  apply_effect : ParticipantEffect -> option Z -> Connection -> Connection;
  native_rtp_demand : Z -> bool -> Connection -> Connection;
  native_ready : Connection -> Connection;
  bind_tcp_flow : TcpFlow -> Connection -> Connection * bool;
  enqueue_tcp : TcpPacket -> Connection -> Connection * bool;
  retire_tcp_flow : FlowRoute -> Connection -> Connection;
  poll : Z -> Connection -> Connection * list SinkCall * option Z;
  drain_network : Connection -> Connection;
}.

(** The identity of a connection is a field set when it is made. *)
Class ConnectionLaws `{!ParticipantTypes, !ConnectionOps} : Prop := {
  new_identity : forall c s g, participant_id (connection_new c s g) = config_participant c;
  input_identity : forall i c, participant_id (input i c) = participant_id c;
  apply_identity : forall e h c, participant_id (apply_effect e h c) = participant_id c;
  demand_identity : forall t b c, participant_id (native_rtp_demand t b c) = participant_id c;
  ready_identity : forall c, participant_id (native_ready c) = participant_id c;
  bind_identity : forall f c, participant_id (bind_tcp_flow f c).1 = participant_id c;
  enqueue_identity : forall p c, participant_id (enqueue_tcp p c).1 = participant_id c;
  retire_identity : forall r c, participant_id (retire_tcp_flow r c) = participant_id c;
  poll_identity : forall t c, participant_id (poll t c).1.1 = participant_id c;
  drain_identity : forall c, participant_id (drain_network c) = participant_id c;
}.

Section Parts.
Context `{!ParticipantTypes, !ConnectionOps, !SlotKeys}.

(** ** [DirtyTracker] *)

Record ParticipantMeta := mkMeta {
  connection : Connection;
  queued_dirty : bool;
  ingress : NodeTransportAddress;
}.

Definition with_connection (f : Connection -> Connection) (m : ParticipantMeta) : ParticipantMeta :=
  mkMeta (f (connection m)) (queued_dirty m) (ingress m).
Definition set_queued (b : bool) (m : ParticipantMeta) : ParticipantMeta := mkMeta (connection m) b (ingress m).

Record DirtyTracker := mkDirty { dirty_participants : list Z; cursor : nat }.

Definition dirty_new : DirtyTracker := mkDirty [] 0.

Definition mark (d : DirtyTracker) (key : Z) (m : ParticipantMeta) : DirtyTracker * ParticipantMeta :=
  if queued_dirty m then (d, m)
  else (mkDirty (dirty_participants d ++ [key]) (cursor d), set_queued true m).

Definition dirty_next (d : DirtyTracker) : DirtyTracker * option Z :=
  match dirty_participants d !! cursor d with
  | Some k => (mkDirty (dirty_participants d) (S (cursor d)), Some k)
  | None => (d, None)
  end.

Definition exhausted (d : DirtyTracker) : bool := (length (dirty_participants d) <=? cursor d)%nat.
Definition finish_phase (d : DirtyTracker) : DirtyTracker := mkDirty [] 0.
Definition finish_partial (d : DirtyTracker) : DirtyTracker := mkDirty (drop (cursor d) (dirty_participants d)) 0.
Definition dirty_is_empty (d : DirtyTracker) : bool := match dirty_participants d with [] => true | _ => false end.

(** ** [ParticipantRegistry] *)

Record ParticipantRegistry := mkRegistry {
  reg_shard : ShardId;
  max_gso_segments : Z;
  participants : SlotMap ParticipantMeta;
  by_id : gmap Z Z;
  transports : list (option (NodeTransportAddress * Z));
  demuxer : Demuxer (SocketAddr := Z);
  pending_close : list (NodeTransportAddress * list Z);
}.

Definition registry_new (shard : ShardId) (gso shard_count : Z) : ParticipantRegistry :=
  mkRegistry shard gso slot_new ∅ [] (for_node 0 0 shard_count) [].

Definition with_participants (r : ParticipantRegistry) ps : ParticipantRegistry :=
  mkRegistry (reg_shard r) (max_gso_segments r) ps (by_id r) (transports r) (demuxer r) (pending_close r).
Definition with_by_id (r : ParticipantRegistry) m : ParticipantRegistry :=
  mkRegistry (reg_shard r) (max_gso_segments r) (participants r) m (transports r) (demuxer r) (pending_close r).
Definition with_transports (r : ParticipantRegistry) t : ParticipantRegistry :=
  mkRegistry (reg_shard r) (max_gso_segments r) (participants r) (by_id r) t (demuxer r) (pending_close r).
Definition with_demuxer (r : ParticipantRegistry) d : ParticipantRegistry :=
  mkRegistry (reg_shard r) (max_gso_segments r) (participants r) (by_id r) (transports r) d (pending_close r).

Definition resolve_id (r : ParticipantRegistry) (p : Z) : option Z := by_id r !! p.
(** [resolve_mut]; writing through the reference is [slot_set]. *)
Definition resolve_mut (r : ParticipantRegistry) (key : Z) : option ParticipantMeta := slot_get (participants r) key.
Definition put (r : ParticipantRegistry) (key : Z) (m : ParticipantMeta) : ParticipantRegistry :=
  with_participants r (slot_set (participants r) key m).

Definition transport_index (a : NodeTransportAddress) : nat := route_index (transport_route a).

Definition resolve_transport (r : ParticipantRegistry) (a : NodeTransportAddress) : option Z :=
  match transports r !! transport_index a with
  | Some (Some (installed, handle)) => if decide (installed = a) then Some handle else None
  | _ => None
  end.

Definition install_transport (r : ParticipantRegistry) (a : NodeTransportAddress) (handle : Z) : ParticipantRegistry :=
  let i := transport_index a in
  let t := if decide (length (transports r) <= i)%nat then resize (S i) None (transports r) else transports r in
  with_transports r (<[i := Some (a, handle)]> t).

Definition retire_transport (r : ParticipantRegistry) (a : NodeTransportAddress) : ParticipantRegistry :=
  match transports r !! transport_index a with
  | Some (Some (installed, _)) =>
      if decide (installed = a) then with_transports r (<[transport_index a := None]> (transports r)) else r
  | _ => r
  end.

Definition remove_handle (r : ParticipantRegistry) (handle : Z) : option (ParticipantRegistry * option ParticipantMeta) :=
  match slot_remove (participants r) handle with
  | (_, None) => Some (r, None)
  | (ps, Some meta) =>
      let r := with_participants r ps in
      let pid := participant_id (connection meta) in
      let r := if decide (by_id r !! pid = Some handle) then with_by_id r (delete pid (by_id r)) else r in
      let r := retire_transport r (ingress meta) in
      '(d, addrs) ← unregister (demuxer r) (transport_route (ingress meta));
      Some (mkRegistry (reg_shard r) (max_gso_segments r) (participants r) (by_id r) (transports r) d
              (pending_close r ++ [(ingress meta, addrs)]), Some meta)
  end.

Definition reg_insert (r : ParticipantRegistry) (cfg : ConnectionConfig) (a : NodeTransportAddress)
    : option (ParticipantRegistry * Z) :=
  let pid := config_participant cfg in
  r ← match by_id r !! pid with
      | Some previous => fst <$> remove_handle r previous
      | None => Some r
      end;
  let c := connection_new cfg (reg_shard r) (max_gso_segments r) in
  let '(ps, handle) := slot_insert (participants r) (mkMeta c false a) in
  let r := with_by_id (with_participants r ps) (<[pid := handle]> (by_id r)) in
  Some (install_transport r a handle, handle).

Definition reg_remove (r : ParticipantRegistry) (p : Z) (a : NodeTransportAddress)
    : option (ParticipantRegistry * option ParticipantMeta) :=
  match resolve_id r p with
  | None => Some (r, None)
  | Some handle =>
      match resolve_mut r handle with
      | None => Some (r, None)
      | Some meta => if decide (ingress meta = a) then remove_handle r handle else Some (r, None)
      end
  end.

Definition reg_demux (r : ParticipantRegistry) (b : RecvPacketBatch)
    : option (ParticipantRegistry * option NodeTransportAddress) :=
  '(d, o) ← demux (demuxer r) (batch_src b) (batch_data b);
  Some (with_demuxer r d, o).

Definition learn_addr (r : ParticipantRegistry) (src : Z) (a : NodeTransportAddress) : ParticipantRegistry :=
  with_demuxer r (Demux.learn (demuxer r) src a).

Definition authenticate_addr (r : ParticipantRegistry) (src : Z) (a : NodeTransportAddress) : ParticipantRegistry :=
  with_demuxer r (Demux.authenticate (demuxer r) src a).

Definition authenticated_address (r : ParticipantRegistry) (key : Z) : option NodeTransportAddress :=
  ingress <$> slot_get (participants r) key.

Definition drain_pending_close (r : ParticipantRegistry)
    : ParticipantRegistry * list (NodeTransportAddress * list Z) :=
  (mkRegistry (reg_shard r) (max_gso_segments r) (participants r) (by_id r) (transports r) (demuxer r) [], pending_close r).

(** ** [EventPipeline] *)

Record EventPipeline := mkPipeline {
  participant_events : list ParticipantEvent;
  track_queue : list (Z * TrackPacket);
  shard_events : list ShardEvent;
  packet_capacity : nat;
}.

Definition pipeline_with_capacity (cap : nat) : EventPipeline := mkPipeline [] [] [] cap.

Definition push_event (p : EventPipeline) (e : ParticipantEvent) : EventPipeline :=
  mkPipeline (participant_events p ++ [e]) (track_queue p) (shard_events p) (packet_capacity p).

Definition push_packet (p : EventPipeline) (packet : Z * TrackPacket) : EventPipeline * bool :=
  if (packet_capacity p <=? length (track_queue p))%nat then (p, false)
  else (mkPipeline (participant_events p) (track_queue p ++ [packet]) (shard_events p) (packet_capacity p), true).

Definition push_shard_event (p : EventPipeline) (e : ShardEvent) : EventPipeline :=
  mkPipeline (participant_events p) (track_queue p) (shard_events p ++ [e]) (packet_capacity p).

Definition pop_participant_event (p : EventPipeline) : EventPipeline * option ParticipantEvent :=
  match participant_events p with
  | e :: es => (mkPipeline es (track_queue p) (shard_events p) (packet_capacity p), Some e)
  | [] => (p, None)
  end.

Definition pop_packet (p : EventPipeline) : EventPipeline * option (Z * TrackPacket) :=
  match track_queue p with
  | x :: q => (mkPipeline (participant_events p) q (shard_events p) (packet_capacity p), Some x)
  | [] => (p, None)
  end.

Definition pop_shard_event (p : EventPipeline) : EventPipeline * option ShardEvent :=
  match shard_events p with
  | e :: es => (mkPipeline (participant_events p) (track_queue p) es (packet_capacity p), Some e)
  | [] => (p, None)
  end.

Definition has_pending (p : EventPipeline) : bool :=
  match participant_events p, track_queue p, shard_events p with [], [], [] => false | _, _, _ => true end.

Record ParticipantBinding := mkBinding { who_participant : Z; who_connection : Z; who_handle : Z; who_room : Z }.

Definition sink_call (who : ParticipantBinding) (p : EventPipeline) (call : SinkCall) : EventPipeline :=
  let id := who_participant who in
  let conn := who_connection who in
  let room := who_room who in
  match call with
  | SinkConnected s d sh => push_event p (LifecycleConnected (who_handle who) s d sh)
  | SinkActivate t => push_event p (BindingActivated id conn t)
  | SinkDeactivate t => push_event p (BindingDeactivated id conn t)
  | SinkPublish t => push_event p (ControlEvent (TrackPublished (without_reverse t)))
  | SinkUnpublish m => push_event p (ControlEvent (TrackUnpublished m))
  | SinkUnpublishOwned m r => push_event p (ControlEvent (OwnedTrackUnpublished m r))
  | SinkSetOwnedSubscription r t b => push_event p (ControlEvent (OwnedSubscriptionSet conn room id r t b))
  | SinkUnsubscribeOwned r => push_event p (ControlEvent (OwnedSubscriptionRemoved room id conn r))
  | SinkSubscribeTracks s q => push_event p (ControlEvent (TrackSubscriptionAdded room id conn s q))
  | SinkUnsubscribeTracks s => push_event p (ControlEvent (TrackSubscriptionRemoved room id conn s))
  | SinkRequestReverse s q => push_event p (ReverseRequested s q)
  | SinkRenewAuthorization t => push_event p (ControlEvent (RenewAuthorization id conn t))
  | SinkExit => push_event p (LifecycleExited id conn)
  | SinkPublishPacket fanout packet =>
      match fanout with Some key => (push_packet p (key, packet)).1 | None => p end
  end.
End Parts.
