(* ===== verification/Router.v ===== *)
(** * Forwarding on a shard

    Models [crates/pulsebeam/src/shard/router.rs]: the shard's tracks, the plans
    that say who receives them, delivery to the participants of the shard and
    the numbered copies sent to other shards. [ForwardingContext] is the pair of
    the registry and the dirty tracker; frames given to the [ShardTransport] are
    returned in order with the shard they are for. *)

From S2P Require Import Prelude Route Clock RouteRuntime Rtp PacketCache ShardUpdate ShardParts.

Inductive Origin := Local | Remote.
Definition is_local (o : Origin) : bool := match o with Local => true | Remote => false end.

Record TrackRuntime := mkTrack {
  track_id : Z;
  track_origin : option Z;
  track_cache : option TrackStreamCache;
  track_publisher : option Z;
  link_seq : Z;
}.

Record InstalledTrackPlan := mkInstalled {
  plan_local : list Z;
  plan_remote : list NodeRouteAddress;
  plan_reverse : option NodeRouteAddress;
}.

(** [!plan.local.is_empty() || !plan.remote.is_empty()] *)
Definition plan_active (p : InstalledTrackPlan) : bool :=
  match plan_local p, plan_remote p with [], [] => false | _, _ => true end.

Abbreviation Sent := (list (ShardId * ShardFrame)).

Section Router.
Context `{!ParticipantTypes, !ConnectionOps, !SlotKeys}.

Record ShardRuntime := mkRuntime {
  tracks : SlotMap TrackRuntime;
  track_handles : gmap Z Z;
  routes : RouteRuntime.RouteRuntime Z;
}.

Definition runtime_new (shard : ShardId) : ShardRuntime := mkRuntime slot_new ∅ (RouteRuntime.runtime_new shard).

Definition with_tracks (rt : ShardRuntime) t : ShardRuntime := mkRuntime t (track_handles rt) (routes rt).
Definition with_routes (rt : ShardRuntime) r : ShardRuntime := mkRuntime (tracks rt) (track_handles rt) r.

Definition track_handle (rt : ShardRuntime) (t : Z) : option Z := track_handles rt !! t.
Definition track_id_of (rt : ShardRuntime) (h : Z) : option Z := track_id <$> slot_get (tracks rt) h.
Definition source_origin (rt : ShardRuntime) (h : Z) : option Z := slot_get (tracks rt) h ≫= track_origin.

Definition retire_track (rt : ShardRuntime) (t : Z) : ShardRuntime :=
  match track_handles rt !! t with
  | None => rt
  | Some h => mkRuntime (slot_remove (tracks rt) h).1 (delete t (track_handles rt)) (routes rt)
  end.

Abbreviation TrackDescriptor := (ShardUpdate.TrackDescriptor (ParticipantId := Z) (TrackKind := TrackKind) (SourceEncoding := SourceEncoding)).

Definition install_track (rt : ShardRuntime) (t : Z) (d : option TrackDescriptor) (origin publisher : option Z)
    : ShardRuntime * Z :=
  let cache := match d with
    | Some d => match ShardUpdate.kind d with Video => Some (with_encodings (ShardUpdate.encodings d)) | _ => None end
    | None => None
    end in
  match track_handles rt !! t with
  | Some h =>
      match slot_get (tracks rt) h with
      | None => (rt, h)
      | Some r =>
          (with_tracks rt (slot_set (tracks rt) h (mkTrack (track_id r) origin (track_cache r) publisher (link_seq r))), h)
      end
  | None =>
      let '(ts, h) := slot_insert (tracks rt) (mkTrack t origin cache publisher 0) in
      (mkRuntime ts (<[t := h]> (track_handles rt)) (routes rt), h)
  end.

(** ** Delivery *)

(** A participant takes an input and is marked for polling. *)
Definition deliver (ctx : ParticipantRegistry * DirtyTracker) (key : Z) (f : Connection -> Connection)
    : ParticipantRegistry * DirtyTracker :=
  let '(r, d) := ctx in
  match resolve_mut r key with
  | None => (r, d)
  | Some m => let '(d, m) := mark d key (with_connection f m) in (put r key m, d)
  end.

Definition forward_track (ctx : ParticipantRegistry * DirtyTracker) (subscriber fanout : Z) (p : TrackPacket)
    (cache : option TrackStreamCache) : ParticipantRegistry * DirtyTracker :=
  deliver ctx subscriber (input (InTrack fanout p cache)).

Definition fanout_local (plan : InstalledTrackPlan) (fanout : Z) (p : TrackPacket) (cache : option TrackStreamCache)
    (ctx : ParticipantRegistry * DirtyTracker) : ParticipantRegistry * DirtyTracker :=
  foldl (fun ctx s => forward_track ctx s fanout p cache) ctx (plan_local plan).

Fixpoint fanout_remotes (remotes : list NodeRouteAddress) (seq playout : Z) (payload : RoutedTrackPacket) : Z * Sent :=
  match remotes with
  | [] => (seq, [])
  | a :: rest =>
      let '(seq', sent) := fanout_remotes rest (wrapping_add 32 seq 1) playout payload in
      (seq', (address_shard a, MediaFrame (media a seq playout) payload) :: sent)
  end.
Definition fanout_remote (plan : InstalledTrackPlan) (seq playout : Z) (payload : RoutedTrackPacket) : Z * Sent :=
  fanout_remotes (plan_remote plan) seq playout payload.

(** The packet as the cache has it, or the one it handed back. [None]: dropped. *)
Definition store_packet (r : TrackRuntime) (pkt : RtpPacket) : TrackRuntime * option RtpPacket :=
  match track_cache r with
  | None => (r, Some pkt)
  | Some tc =>
      match source tc pkt with
      | None => (r, None)
      | Some e =>
          let '(tc, stored) := push_encoding tc e pkt in
          (mkTrack (track_id r) (track_origin r) (Some tc) (track_publisher r) (link_seq r),
           if stored then encoding tc e ≫= (fun c => cache_get c (seq_no pkt)) else Some pkt)
      end
  end.

Definition set_link_seq (s : Z) (r : TrackRuntime) : TrackRuntime :=
  mkTrack (track_id r) (track_origin r) (track_cache r) (track_publisher r) s.

Definition route_rtp_with_plan (rt : ShardRuntime) (key : Z) (o : Origin) (pkt : RtpPacket) (plan : InstalledTrackPlan)
    (wall : WallAnchor) (ctx : ParticipantRegistry * DirtyTracker)
    : ShardRuntime * (ParticipantRegistry * DirtyTracker) * Sent :=
  match slot_get (tracks rt) key with
  | None => (rt, ctx, [])
  | Some r =>
      match store_packet r pkt with
      | (r, None) => (with_tracks rt (slot_set (tracks rt) key r), ctx, [])
      | (r, Some packet) =>
          let ctx := fanout_local plan key (RtpTrackPacket packet) (track_cache r) ctx in
          let '(seq, sent) :=
            if is_local o then
              fanout_remote plan (link_seq r) (middle32 (to_ntp wall (playout_time packet)))
                (mkRouted (track_id r) (RtpTrackPacket (to_transit packet)))
            else (link_seq r, []) in
          (with_tracks rt (slot_set (tracks rt) key (set_link_seq seq r)), ctx, sent)
      end
  end.

Definition route_data_with_plan (rt : ShardRuntime) (key : Z) (o : Origin) (lane : DataLane) (bytes : list Z)
    (plan : InstalledTrackPlan) (wall : WallAnchor) (ctx : ParticipantRegistry * DirtyTracker)
    : ShardRuntime * (ParticipantRegistry * DirtyTracker) * Sent :=
  match slot_get (tracks rt) key with
  | None => (rt, ctx, [])
  | Some r =>
      let ctx := fanout_local plan key (DataPacket lane bytes) None ctx in
      let '(seq, sent) :=
        if is_local o then
          fanout_remote plan (link_seq r) (middle32 (ntp wall)) (mkRouted (track_id r) (DataPacket lane bytes))
        else (link_seq r, []) in
      (with_tracks rt (slot_set (tracks rt) key (set_link_seq seq r)), ctx, sent)
  end.

Definition route_packet_with_plan (rt : ShardRuntime) (key : Z) (o : Origin) (packet : TrackPacket)
    (plan : InstalledTrackPlan) (wall : WallAnchor) (ctx : ParticipantRegistry * DirtyTracker) :=
  match packet with
  | RtpTrackPacket p => route_rtp_with_plan rt key o p plan wall ctx
  | DataPacket lane bytes => route_data_with_plan rt key o lane bytes plan wall ctx
  end.

Definition route_reverse (packet : ReversePacket) (plan : InstalledTrackPlan) : Sent :=
  match plan_reverse plan with
  | None => []
  | Some target => [(address_shard target, ReverseFrame (feedback target) packet)]
  end.

Definition resolve_reverse (rt : ShardRuntime) (act : RouteRuntime.RouteAction Z) : option (Z * Z) :=
  match act with
  | RouteRuntime.Forward _ => None
  | RouteRuntime.Reverse target =>
      r ← slot_get (tracks rt) target;
      origin ← match track_publisher r with Some p => Some p | None => track_origin r end;
      Some (origin, target)
  end.
End Router.
