(* ===== verification/Shard.v ===== *)
(** * The shard

    Models [ShardExecution] and [ShardCore] of
    [crates/pulsebeam/src/shard/core.rs] and the commands of
    [shard/worker.rs]: one thread's share of the server, made of the
    participant registry with its demultiplexer, the tracks with their route
    table and plans, the timer wheel, the dirty tracker and the event pipeline.
    [None] is a [fatal!] of the wheel or a panic of the demultiplexer.

    The egress batch, its socket and the counters are left out: what the socket
    takes is part of [drain_network]. [Instant::now()] is an argument. *)

From S2P Require Import Prelude Route Clock RouteRuntime Timer Rtp PacketCache.
From S2P Require Import ShardUpdate UpdateApply ShardParts Router.

Definition PENDING_REPLACEMENTS : nat := 256.
Definition PARTICIPANT_CAPACITY_HINT : nat := 64.

Section Shard.
Context `{!ParticipantTypes, !ConnectionOps, !SlotKeys}.

Abbreviation ShardUpdateOp :=
  (@ShardUpdate.ShardUpdateOp Z Z TrackKind SourceEncoding ParticipantEffect).
Abbreviation TrackPlanUpdate := (@ShardUpdate.TrackPlanUpdate Z Z).

Record ShardExecution := mkShard {
  shard_id : ShardId;
  registry : ParticipantRegistry;
  pending_replacements : list (NodeTransportAddress * ConnectionConfig);
  runtime : ShardRuntime;
  plans : gmap Z InstalledTrackPlan;
  timers : TimerWheel (ParticipantHandle := Z);
  dirty : DirtyTracker;
  pipeline : EventPipeline;
  wall : WallAnchor;
}.

(** [u16::try_from(shard_count).unwrap_or(u16::MAX)] *)
Definition execution_new (shard : ShardId) (gso shard_count : Z) (w : WallAnchor) (now : Z) : ShardExecution :=
  mkShard shard (registry_new shard gso (Z.min shard_count (umax 16))) [] (runtime_new shard) ∅ (wheel_new now)
    dirty_new (pipeline_with_capacity PARTICIPANT_CAPACITY_HINT) w.

Definition with_ctx (x : ShardExecution) (ctx : ParticipantRegistry * DirtyTracker) : ShardExecution :=
  mkShard (shard_id x) ctx.1 (pending_replacements x) (runtime x) (plans x) (timers x) ctx.2 (pipeline x) (wall x).
Definition with_registry (x : ShardExecution) r : ShardExecution := with_ctx x (r, dirty x).
Definition with_pending (x : ShardExecution) ps : ShardExecution :=
  mkShard (shard_id x) (registry x) ps (runtime x) (plans x) (timers x) (dirty x) (pipeline x) (wall x).
Definition with_runtime (x : ShardExecution) rt : ShardExecution :=
  mkShard (shard_id x) (registry x) (pending_replacements x) rt (plans x) (timers x) (dirty x) (pipeline x) (wall x).
Definition with_plans (x : ShardExecution) ps : ShardExecution :=
  mkShard (shard_id x) (registry x) (pending_replacements x) (runtime x) ps (timers x) (dirty x) (pipeline x) (wall x).
Definition with_timers (x : ShardExecution) ts : ShardExecution :=
  mkShard (shard_id x) (registry x) (pending_replacements x) (runtime x) (plans x) ts (dirty x) (pipeline x) (wall x).
Definition with_pipeline (x : ShardExecution) p : ShardExecution :=
  mkShard (shard_id x) (registry x) (pending_replacements x) (runtime x) (plans x) (timers x) (dirty x) p (wall x).
Definition with_wall (x : ShardExecution) w : ShardExecution :=
  mkShard (shard_id x) (registry x) (pending_replacements x) (runtime x) (plans x) (timers x) (dirty x) (pipeline x) w.

Abbreviation ctx_of x := (registry x, dirty x).

(** [if let Some(p) = registry.resolve_mut(key) { p..; dirty.mark(key, p) }] *)
Definition give (x : ShardExecution) (key : Z) (f : Connection -> Connection) : ShardExecution :=
  with_ctx x (deliver (ctx_of x) key f).

(** ** Participants *)

Definition add_participant (x : ShardExecution) (transport : NodeTransportAddress) (cfg : ConnectionConfig)
    : option ShardExecution :=
  x ← match resolve_id (registry x) (config_participant cfg) with
      | Some previous => with_timers x <$> cancel (timers x) previous
      | None => Some x
      end;
  '(r, key) ← reg_insert (registry x) cfg transport;
  Some (give (with_registry x r) key id).

(** [(pending_replacements.iter().position(..), .remove(index))] *)
Definition take_replacement (p : Z) (l : list (NodeTransportAddress * ConnectionConfig))
    : option (NodeTransportAddress * ConnectionConfig * list (NodeTransportAddress * ConnectionConfig)) :=
  '(i, tc) ← list_find (fun tc => config_participant tc.2 = p) l;
  Some (tc, take i l ++ drop (S i) l).

Definition remove_participant (x : ShardExecution) (p : Z) (a : NodeTransportAddress) : option ShardExecution :=
  let x := with_pending x
    (filter (fun tc => tc.1 <> a \/ config_participant tc.2 <> p) (pending_replacements x)) in
  let current := match resolve_id (registry x) p with
    | Some h => match resolve_mut (registry x) h with
                | Some m => if decide (ingress m = a) then Some h else None
                | None => None
                end
    | None => None
    end in
  x ← match current with Some h => with_timers x <$> cancel (timers x) h | None => Some x end;
  '(r, removed) ← reg_remove (registry x) p a;
  let x := with_registry x r in
  match removed with
  | None => Some x
  | Some _ =>
      match take_replacement p (pending_replacements x) with
      | None => Some x
      | Some (transport, cfg, rest) => add_participant (with_pending x rest) transport cfg
      end
  end.

(** ** Updates *)

Definition insert_track_runtime (x : ShardExecution) (t : Z)
    (r : @ShardUpdate.TrackRuntime Z TrackKind SourceEncoding ParticipantEffect) : ShardExecution :=
  let d := ShardUpdate.descriptor r in
  let origin := d ≫= (fun d => resolve_id (registry x) (ShardUpdate.origin d)) in
  let publisher := ShardUpdate.publisher r ≫= resolve_id (registry x) in
  let '(rt, handle) := install_track (runtime x) t d origin publisher in
  let x := with_runtime x rt in
  match ShardUpdate.publisher r, ShardUpdate.publisher_effect r with
  | Some p, Some effect =>
      match resolve_id (registry x) p with
      | None => x
      | Some h =>
          match resolve_mut (registry x) h with
          | None => x
          | Some m => with_registry x (put (registry x) h (with_connection (apply_effect effect (Some handle)) m))
          end
      end
  | _, _ => x
  end.

Definition shard_lifecycle_op (x : ShardExecution) (op : ShardUpdateOp) : option ShardExecution :=
  match op with
  | InstallRoute address action =>
      let t := match action with ShardUpdate.Forward t => t | ShardUpdate.Reverse t => t end in
      match track_handle (runtime x) t with
      | None => Some x
      | Some h =>
          let act := match action with
            | ShardUpdate.Forward _ => RouteRuntime.Forward h | ShardUpdate.Reverse _ => RouteRuntime.Reverse h end in
          Some (with_runtime x (with_routes (runtime x) (install_action (routes (runtime x)) address act)))
      end
  | RetireRoute address => Some (with_runtime x (with_routes (runtime x) (retire (routes (runtime x)) address).1))
  | RetireTransport address => Some (with_registry x (retire_transport (registry x) address))
  | Placeholder => Some x
  | RemoveParticipant p address => remove_participant x p address
  | InsertTrackRuntime t r => Some (insert_track_runtime x t r)
  | RemoveTrackRuntime t => Some (with_runtime x (retire_track (runtime x) t))
  end.

Definition shard_effect (x : ShardExecution) (p : Z) (effect : ParticipantEffect) : ShardExecution * bool :=
  let track := effect_track effect in
  let handle := track ≫= track_handle (runtime x) in
  if bool_decide (is_Some track /\ handle = None) then (x, false)
  else
    match resolve_id (registry x) p with
    | None => (x, false)
    | Some key =>
        match resolve_mut (registry x) key with
        | None => (x, false)
        | Some _ => (give x key (apply_effect effect handle), true)
        end
    end.

Definition is_active (x : ShardExecution) (h : Z) : bool :=
  match plans x !! h with Some p => plan_active p | None => false end.

Definition shard_plan (x : ShardExecution) (op : TrackPlanUpdate) : ShardExecution * Z :=
  match track_handle (runtime x) (ShardUpdate.plan_track op) with
  | None => (x, 0)
  | Some h =>
      let previous := is_active x h in
      let '(x, cost) := match ShardUpdate.plan op with
        | Some p =>
            (with_plans x (<[h := mkInstalled (omap (resolve_id (registry x)) (ShardUpdate.local p))
                                    (ShardUpdate.remote p) (ShardUpdate.reverse_route p)]> (plans x)),
             saturating_add 64
               (saturating_add 64 (Z.of_nat (length (ShardUpdate.local p))) (Z.of_nat (length (ShardUpdate.remote p))))
               (match ShardUpdate.reverse_route p with Some _ => 1 | None => 0 end))
        | None =>
            (with_plans x (delete h (plans x)), match plans x !! h with Some _ => 1 | None => 0 end)
        end in
      let active := is_active x h in
      (if negb (Bool.eqb previous active) then
         match source_origin (runtime x) h with
         | Some publisher => give x publisher (native_rtp_demand (ShardUpdate.plan_track op) active)
         | None => x
         end
       else x, cost)
  end.

(** The process has ended: nothing more happens. *)
#[export] Instance shard_execution : UpdateApply.ShardExecution (option ShardExecution) := {|
  apply_participant_effect ox p e :=
    match ox with Some x => let '(x, done_) := shard_effect x p e in (Some x, done_) | None => (None, true) end;
  apply_plan ox op := match ox with Some x => let '(x, cost) := shard_plan x op in (Some x, cost) | None => (None, 0) end;
  execute_lifecycle_op ox op := x ← ox; shard_lifecycle_op x op;
|}.

(** ** Commands *)

Inductive ShardCommand :=
| MaterializeParticipant (transport : NodeTransportAddress) (config : ConnectionConfig)
| AuthenticateTransport (source : Z) (address : NodeTransportAddress)
| NativeReady (participant connection : Z)
| PublicationCutoffResult (participant connection reference : Z) (success : bool)
| AuthorizationResult (participant connection revision : Z) (expiry : option Z).

(** A command for one connection reaches no other incarnation of its participant. *)
Definition on_current (x : ShardExecution) (p conn : Z) (f : Connection -> Connection) : ShardExecution :=
  match resolve_id (registry x) p with
  | None => x
  | Some key =>
      match resolve_mut (registry x) key with
      | None => x
      | Some m => if connection_id (connection m) =? conn then give x key f else x
      end
  end.

(** The second component is the acknowledgement of a materialization. *)
Definition on_command (x : ShardExecution) (cmd : ShardCommand) : option (ShardExecution * option bool) :=
  match cmd with
  | MaterializeParticipant transport config =>
      match resolve_id (registry x) (config_participant config) with
      | Some _ =>
          if (PENDING_REPLACEMENTS <=? length (pending_replacements x))%nat then Some (x, Some false)
          else Some (with_pending x (pending_replacements x ++ [(transport, config)]), Some true)
      | None => x ← add_participant x transport config; Some (x, Some true)
      end
  | AuthenticateTransport source address => Some (with_registry x (authenticate_addr (registry x) source address), None)
  | NativeReady p conn => Some (on_current x p conn native_ready, None)
  | PublicationCutoffResult p conn r s => Some (on_current x p conn (input (InPublicationCutoff r s)), None)
  | AuthorizationResult p conn r e => Some (on_current x p conn (input (InAuthorization r e)), None)
  end.

(** ** Datagrams and frames *)

Definition on_owned_udp_batch (x : ShardExecution) (b : RecvPacketBatch) (a : NodeTransportAddress) (source_shard : ShardId)
    : ShardExecution :=
  match resolve_transport (registry x) a with
  | None => x
  | Some key => give x key (input (InNetwork b source_shard))
  end.

Definition on_udp_batch_routed (x : ShardExecution) (b : RecvPacketBatch) : option (ShardExecution * Sent) :=
  '(r, o) ← reg_demux (registry x) b;
  let x := with_registry x r in
  match o with
  | None => Some (x, [])
  | Some a =>
      if transport_shard a =? shard_id x then Some (on_owned_udp_batch x b a (shard_id x), [])
      else Some (x, [(transport_shard a, Ingress b a (shard_id x))])
  end.

Definition on_media_frame (x : ShardExecution) (env : Envelope) (payload : RoutedTrackPacket) (now : Z)
    : option (ShardExecution * Sent) :=
  '(rts, o) ← account_media_frame NULL_HANDLE (routes (runtime x)) (ntp (wall x)) env;
  let x := with_runtime x (with_routes (runtime x) rts) in
  match o with
  | Some (RouteRuntime.Forward key, playout) =>
      if decide (track_id_of (runtime x) key = Some (routed_track payload)) then
        match plans x !! key with
        | None => Some (x, [])
        | Some plan =>
            let payload := set_remote_timing (to_instant (wall x) playout) now payload in
            let '(rt, ctx, sent) :=
              route_packet_with_plan (runtime x) key Remote (routed_packet payload) plan (wall x) (ctx_of x) in
            Some (with_ctx (with_runtime x rt) ctx, sent)
        end
      else Some (x, [])
  | _ => Some (x, [])
  end.

Definition on_reverse_frame (x : ShardExecution) (env : Envelope) (packet : ReversePacket) (now : Z) : ShardExecution :=
  let '(rts, accepted) := accept_reverse (routes (runtime x)) (env_address env) (dedup packet) now in
  let x := with_runtime x (with_routes (runtime x) rts) in
  if negb accepted then x
  else
    match resolve (routes (runtime x)) (env_address env) ≫= resolve_reverse (runtime x) with
    | None => x
    | Some (origin, target) => give x origin (input (InReverse target packet))
    end.

Definition on_shard_frame (x : ShardExecution) (frame : ShardFrame) (now : Z) : option (ShardExecution * Sent) :=
  match frame with
  | Ingress batch address source_shard =>
      let x := match resolve_transport (registry x) address with
        | Some _ => with_registry x (learn_addr (registry x) (batch_src batch) address)
        | None => x
        end in
      Some (on_owned_udp_batch x batch address source_shard, [])
  | MediaFrame env payload => on_media_frame x env payload now
  | ReverseFrame env packet => Some (on_reverse_frame x env packet now, [])
  end.

Inductive TcpIngress := Adopt (flow : TcpFlow) (first_stun : TcpPacket) | TcpFrame (packet : TcpPacket) | TcpClosed (route : FlowRoute).

Definition tcp_route (e : TcpIngress) : FlowRoute :=
  match e with Adopt flow _ => flow_route flow | TcpFrame p => packet_route p | TcpClosed r => r end.

(** [bind_tcp_flow(flow) && enqueue_tcp(first_stun)] and its result *)
Definition adopt (flow : TcpFlow) (p : TcpPacket) (c : Connection) : Connection * bool :=
  let '(c, bound) := bind_tcp_flow flow c in if bound then enqueue_tcp p c else (c, false).

Definition on_tcp_ingress (x : ShardExecution) (e : TcpIngress) : ShardExecution * option bool :=
  let route := tcp_route e in
  if negb (transport_shard (flow_address route) =? shard_id x) then (x, None)
  else
    match resolve_transport (registry x) (flow_address route) with
    | None => (x, None)
    | Some key =>
        match resolve_mut (registry x) key with
        | None => (x, None)
        | Some m =>
            match e with
            | Adopt flow p => (give x key (fun c => (adopt flow p c).1), Some (adopt flow p (connection m)).2)
            | TcpFrame p => (give x key (fun c => (enqueue_tcp p c).1), None)
            | TcpClosed r => (give x key (retire_tcp_flow r), None)
            end
        end
    end.

(** ** Flushing and polling *)

Fixpoint flush_stream_buffers (budget : nat) (x : ShardExecution) : ShardExecution * Sent :=
  match budget with
  | O => (x, [])
  | S budget =>
      match pop_packet (pipeline x) with
      | (_, None) => (x, [])
      | (p, Some (h, packet)) =>
          let x := with_pipeline x p in
          match plans x !! h with
          | None => flush_stream_buffers budget x
          | Some plan =>
              let '(rt, ctx, sent) := route_packet_with_plan (runtime x) h Local packet plan (wall x) (ctx_of x) in
              let '(x, sent') := flush_stream_buffers budget (with_ctx (with_runtime x rt) ctx) in
              (x, sent ++ sent')
          end
      end
  end.

Definition on_participant_event (x : ShardExecution) (e : ParticipantEvent) : ShardExecution * Sent :=
  let push ev := with_pipeline x (push_shard_event (pipeline x) ev) in
  match e with
  | BindingActivated s c t => (push (TrackSubscribed s c t), [])
  | BindingDeactivated s c t => (push (TrackUnsubscribed s c t), [])
  | LifecycleConnected key source destination source_shard =>
      match authenticated_address (registry x) key with
      | None => (x, [])
      | Some a =>
          let x := with_registry x (authenticate_addr (registry x) source a) in
          (with_pipeline x (push_shard_event (pipeline x)
             (TransportAuthenticated source destination source_shard a (shard_id x))), [])
      end
  | LifecycleExited p c => (push (ParticipantClosed p c), [])
  | ControlEvent ev => (push ev, [])
  | ReverseRequested stream packet =>
      match plans x !! stream with None => (x, []) | Some plan => (x, route_reverse packet plan) end
  end.

Fixpoint flush_participant_events (budget : nat) (x : ShardExecution) : ShardExecution * Sent :=
  match budget with
  | O => (x, [])
  | S budget =>
      match pop_participant_event (pipeline x) with
      | (_, None) => (x, [])
      | (p, Some e) =>
          let '(x, sent) := on_participant_event (with_pipeline x p) e in
          let '(x, sent') := flush_participant_events budget x in
          (x, sent ++ sent')
      end
  end.

Definition fire_timers (x : ShardExecution) (now : Z) : option ShardExecution :=
  '(w, fired) ← drain_expired (timers x) now;
  Some (foldl (fun x key => give x key (input (InTimeout now))) (with_timers x w) fired).

(** One turn of the loop of [poll_and_flush_dirty] on a participant that is
    there: its queued flag is reset, it is polled, its timer is set, its network
    output is drained. *)
Definition poll_participant (x : ShardExecution) (key : Z) (m : ParticipantMeta) (now : Z) : option ShardExecution :=
  let m := set_queued false m in
  let c := connection m in
  let who := mkBinding (participant_id c) (connection_id c) key (room_id c) in
  let '(c', calls, deadline) := poll now c in
  let x := with_registry x (put (registry x) key (with_connection (fun _ => c') m)) in
  let x := with_pipeline x (foldl (sink_call who) (pipeline x) calls) in
  x ← match deadline with Some d => with_timers x <$> schedule (timers x) key d | None => Some x end;
  Some (match resolve_mut (registry x) key with
        | Some m => with_registry x (put (registry x) key (with_connection drain_network m))
        | None => x
        end).

(** The handles polled, in order. *)
Fixpoint poll_loop (budget : nat) (x : ShardExecution) (now : Z) : option (ShardExecution * list Z) :=
  match budget with
  | O => Some (x, [])
  | S budget =>
      match dirty_next (dirty x) with
      | (_, None) => Some (x, [])
      | (d, Some key) =>
          let x := with_ctx x (registry x, d) in
          match resolve_mut (registry x) key with
          | None => poll_loop budget x now
          | Some m =>
              x ← poll_participant x key m now;
              '(x, polled) ← poll_loop budget x now;
              Some (x, key :: polled)
          end
      end
  end.

Definition poll_and_flush_dirty (x : ShardExecution) (budget : nat) (now : Z) : option (ShardExecution * list Z) :=
  x ← fire_timers x now;
  '(x, polled) ← poll_loop budget x now;
  Some (with_ctx x (registry x, if exhausted (dirty x) then finish_phase (dirty x) else finish_partial (dirty x)), polled).

Definition next_timer_deadline (x : ShardExecution) (now : Z) : option Z :=
  if dirty_is_empty (dirty x) then next_deadline (timers x) else Some now.
End Shard.
