(* ===== verification/ShardLaws.v ===== *)
(** * What holds of a shard in every run

    The invariant of [Shard] ties its parts together: identities and handles are
    a bijection, an installed transport names a live participant with that
    address, a participant is queued for polling exactly when its flag says so,
    timers belong to live participants, a waiting replacement has an incarnation
    to replace. Every operation keeps it and none of them fails. *)

From S2P Require Import Prelude Route Clock RouteRuntime Demux Timer TimerRefine Rtp PacketCache.
From S2P Require Import ShardUpdate UpdateApply ShardParts Router Shard.

Section ShardLaws.
Context {PT : ParticipantTypes} {CO : ConnectionOps} {CL : ConnectionLaws} {SK : SlotKeys} {SL : SlotKeysLaws}.

(** ** Slot maps *)

Definition slot_ok {V} (m : SlotMap V) : Prop := forall k v, live m !! k = Some v -> k ∈ issued (history m).

Lemma issued_snoc h k : issued (h ++ [Issued k]) = issued h ++ [k].
Proof. unfold issued. by rewrite omap_app. Qed.
Lemma issued_freed h k : issued (h ++ [Freed k]) = issued h.
Proof. unfold issued. rewrite omap_app. cbn. apply app_nil_r. Qed.

Lemma slot_insert_ok {V} (m : SlotMap V) v :
  slot_ok m -> (let '(m', k) := slot_insert m v in
  slot_ok m' /\ (k ∉ issued (history m)) /\ live m !! k = None /\ live m' = <[k := v]> (live m) /\
  issued (history m') = (issued (history m) ++ [k])).
Proof.
  intros Hm. unfold slot_insert. cbn. pose proof (next_key_new (history m)) as Hk.
  split_and!; [|done| |done|apply issued_snoc].
  - intros k' v'. cbn. rewrite issued_snoc, lookup_insert_Some. intros [[<- _]|[_ Hl]]; [set_solver|]. apply elem_of_app. left. by eapply Hm.
  - destruct (live m !! _) as [v'|] eqn:E; [|done]. by apply Hm in E.
Qed.

Lemma slot_remove_ok {V} (m : SlotMap V) k v :
  slot_ok m -> live m !! k = Some v ->
  exists m', slot_remove m k = (m', Some v) /\ slot_ok m' /\ live m' = delete k (live m) /\ issued (history m') = issued (history m).
Proof.
  intros Hm Hk. unfold slot_remove. rewrite Hk. eexists. split; [done|]. cbn. split_and!; [|done|apply issued_freed].
  intros k' v'. cbn. rewrite issued_freed, lookup_delete_Some. intros [_ Hl]. by eapply Hm.
Qed.

Lemma slot_set_ok {V} (m : SlotMap V) k v v0 :
  slot_ok m -> live m !! k = Some v0 ->
  slot_set m k v = mkSlotMap (<[k := v]> (live m)) (history m) /\ slot_ok (slot_set m k v).
Proof.
  intros Hm Hk. unfold slot_set. rewrite decide_True by by eexists. split; [done|].
  intros k' v'. cbn. rewrite lookup_insert_Some. intros [[<- _]|[_ Hl]]; by eapply Hm.
Qed.

(** ** The registry and the dirty queue *)

Abbreviation Ctx := (ParticipantRegistry * DirtyTracker)%type.
Abbreviation people c := (live (participants (fst c))).
Definition pid (m : ParticipantMeta) : Z := participant_id (connection m).

Record registry_ok (r : ParticipantRegistry) : Prop := mk_registry_ok {
  ro_keys : slot_ok (participants r);
  ro_by_id : forall p h, by_id r !! p = Some h <-> exists m, live (participants r) !! h = Some m /\ pid m = p;
  ro_transports : forall i a h, transports r !! i = Some (Some (a, h)) ->
    transport_index a = i /\ exists m, live (participants r) !! h = Some m /\ ingress m = a;
  ro_demux : exists L, rep (demuxer r) L;
}.

(** [queue] is what is still to be polled. *)
Record queue_ok (r : ParticipantRegistry) (queue : list Z) : Prop := mk_queue_ok {
  qo_nodup : NoDup queue;
  qo_issued : forall k, k ∈ queue -> k ∈ issued (history (participants r));
  qo_flag : forall k m, live (participants r) !! k = Some m -> (queued_dirty m = true <-> k ∈ queue);
}.

Definition to_poll (d : DirtyTracker) : list Z := drop (cursor d) (dirty_participants d).

(** Nobody comes or goes, nobody changes identity or address. *)
Record same_people (r r' : ParticipantRegistry) : Prop := mk_same_people {
  sp_by_id : by_id r' = by_id r;
  sp_transports : transports r' = transports r;
  sp_history : history (participants r') = history (participants r);
  sp_shape : forall k, (fun m => (pid m, ingress m)) <$> live (participants r') !! k =
                       (fun m => (pid m, ingress m)) <$> live (participants r) !! k;
}.

(** What changed since will be polled, and nobody loses their place in the queue. *)
Definition wakes (c c' : Ctx) : Prop :=
  to_poll c.2 `prefix_of` to_poll c'.2 /\
  forall k m m', people c !! k = Some m -> people c' !! k = Some m' -> connection m' = connection m \/ k ∈ to_poll c'.2.

Lemma same_people_refl r : same_people r r.
Proof. by split. Qed.
Lemma same_people_trans r1 r2 r3 : same_people r1 r2 -> same_people r2 r3 -> same_people r1 r3.
Proof. intros [A1 A2 A3 A4] [B1 B2 B3 B4]. split; [congruence..|]. intros k. by rewrite B4, A4. Qed.

Lemma same_people_live r r' k : same_people r r' -> is_Some (live (participants r) !! k) <-> is_Some (live (participants r') !! k).
Proof. intros Hs. by rewrite <- (fmap_is_Some (fun m => (pid m, ingress m))), <- (sp_shape _ _ Hs), fmap_is_Some. Qed.

Lemma same_people_some r r' k m :
  same_people r r' -> live (participants r) !! k = Some m ->
  exists m', live (participants r') !! k = Some m' /\ pid m' = pid m /\ ingress m' = ingress m.
Proof.
  intros Hs E. pose proof (sp_shape _ _ Hs k) as E'. rewrite E in E'. cbn in E'. apply fmap_Some in E' as (m' & Em & [= E1 E2]). by exists m'.
Qed.

Lemma same_people_sym r r' : same_people r r' -> same_people r' r.
Proof. intros [A1 A2 A3 A4]. by split. Qed.

Lemma wakes_refl c : wakes c c.
Proof. split; [done|]. intros k m m' H1 H2. left. congruence. Qed.

Lemma wakes_trans c1 c2 c3 : same_people c1.1 c2.1 -> wakes c1 c2 -> wakes c2 c3 -> wakes c1 c3.
Proof.
  intros Hs [A1 A2] [B1 B2]. split; [by etransitivity|]. intros k m m' H1 H3.
  destruct (same_people_some _ _ _ _ Hs H1) as (m2 & H2 & _).
  destruct (A2 _ _ _ H1 H2) as [E|Hk]; [|right; by eapply elem_of_prefix]. destruct (B2 _ _ _ H2 H3) as [E'|?]; [|by right]. left. congruence.
Qed.

Lemma registry_ok_same r r' :
  registry_ok r -> same_people r r' -> slot_ok (participants r') -> (exists L, rep (demuxer r') L) -> registry_ok r'.
Proof.
  intros [H1 H2 H3 H4] Hs Hk Hd. split; try done.
  - intros p h. rewrite (sp_by_id _ _ Hs), H2. split; intros (m & Hm & Hp).
    + destruct (same_people_some _ _ _ _ Hs Hm) as (m' & ? & ? & _). exists m'. split; [done|congruence].
    + destruct (same_people_some _ _ _ _ (same_people_sym _ _ Hs) Hm) as (m' & ? & ? & _). exists m'. split; [done|congruence].
  - intros i a h. rewrite (sp_transports _ _ Hs). intros Ht. destruct (H3 _ _ _ Ht) as (? & m & Hm & Hi). split; [done|].
    destruct (same_people_some _ _ _ _ Hs Hm) as (m' & ? & _ & ?). exists m'. split; [done|congruence].
Qed.

(** Between two polls. *)
Record ctx_ok (c : Ctx) : Prop := mk_ctx_ok {
  co_registry : registry_ok c.1;
  co_queue : queue_ok c.1 (to_poll c.2);
  co_cursor : cursor c.2 = 0%nat;
}.

Record evolves (c c' : Ctx) : Prop := mk_evolves {
  ev_ok : ctx_ok c';
  ev_same : same_people c.1 c'.1;
  ev_wakes : wakes c c';
}.

Definition keeps_identity (f : Connection -> Connection) : Prop := forall c, participant_id (f c) = participant_id c.

Lemma evolves_refl c : ctx_ok c -> evolves c c.
Proof. intros Hc. split; [done|apply same_people_refl|apply wakes_refl]. Qed.
Lemma evolves_trans c1 c2 c3 : evolves c1 c2 -> evolves c2 c3 -> evolves c1 c3.
Proof.
  intros [A1 A2 A3] [B1 B2 B3]. split; [done|by eapply same_people_trans|by eapply wakes_trans].
Qed.

(** Writing a participant back with the same identity and address. *)
Lemma put_same r k m m' :
  registry_ok r -> live (participants r) !! k = Some m -> pid m' = pid m -> ingress m' = ingress m ->
  let r' := put r k m' in
  registry_ok r' /\ same_people r r' /\ live (participants r') = <[k := m']> (live (participants r)).
Proof.
  intros Hr Hk Hp Hi r'. destruct (slot_set_ok (participants r) k m' m (ro_keys _ Hr) Hk) as [E Hs].
  assert (live (participants r') = <[k := m']> (live (participants r))) as El by (unfold r', put; cbn; by rewrite E).
  assert (same_people r r') as Hsp.
  { split; try done; [unfold r', put; cbn; by rewrite E|]. intros j. rewrite El.
    destruct (decide (j = k)) as [->|Hne]; [rewrite lookup_insert_eq, Hk; cbn; by rewrite Hp, Hi|by rewrite lookup_insert_ne]. }
  split_and!; [|done|done]. apply (registry_ok_same r); [done|done|exact Hs|apply Hr].
Qed.

Lemma deliver_evolves c k f : ctx_ok c -> keeps_identity f -> evolves c (deliver c k f).
Proof.
  destruct c as [r d]. intros [Hr Hq Hc] Hf. cbn in *. unfold deliver, resolve_mut, slot_get.
  destruct (live (participants r) !! k) as [m|] eqn:Hk; [|by apply evolves_refl].
  unfold to_poll in *. rewrite Hc in *. rewrite drop_0 in *. pose proof Hq as [Hnd Hi Hfl]. unfold mark.
  set (b := queued_dirty (with_connection f m)). assert (b = queued_dirty m) as Eb by done.
  set (m' := set_queued true (with_connection f m)).
  assert (exists d', (if b then (d, with_connection f m) else (mkDirty (dirty_participants d ++ [k]) (cursor d), m')) = (d', m') /\
    cursor d' = 0%nat /\ dirty_participants d `prefix_of` dirty_participants d' /\ NoDup (dirty_participants d') /\ (forall j, j ∈ dirty_participants d' <-> j ∈ dirty_participants d \/ j = k))
    as (d' & -> & Hc' & Hpre & Hnd' & Hel).
  { destruct b eqn:Ebb; eexists; (split; [try done|]).
    - unfold m', set_queued, with_connection. cbn. by rewrite <- Eb.
    - split_and!; [done|done|done|]. intros j. split; [by left|]. intros [?| ->]; [done|]. by apply (Hfl k m Hk).
    - cbn. split_and!; [done|by apply prefix_app_r| |].
      + apply NoDup_snoc; [done|]. rewrite <- (Hfl k m Hk). by rewrite <- Eb.
      + intros j. rewrite elem_of_app, list_elem_of_singleton. done. }
  destruct (put_same r k m m' Hr Hk (Hf _) eq_refl) as (Hr' & Hsp & El). set (r' := put r k m') in *. clearbody r'.
  split.
  - split; cbn; [done| |done]. unfold to_poll. rewrite Hc', drop_0. split; [done| |].
    + intros j Hj. rewrite (sp_history _ _ Hsp). apply Hel in Hj as [Hj| ->]; [by apply Hi|by eapply (ro_keys _ Hr)].
    + intros j mj. rewrite El, Hel. destruct (decide (j = k)) as [->|Hne].
      * rewrite lookup_insert_eq. intros [= <-]. split; [by right|done].
      * rewrite lookup_insert_ne by done. intros Hj. rewrite (Hfl j mj Hj). split; [by left|]. by intros [?|?].
  - done.
  - unfold wakes, to_poll. cbn. rewrite Hc, Hc', !drop_0, El. split; [done|].
    intros j mj mj' Hj. destruct (decide (j = k)) as [->|Hne]; [intros _; right; apply Hel; by right|].
    rewrite lookup_insert_ne by done. intros Hj'. left. congruence.
Qed.

Lemma deliver_all_evolves (f : Z -> Connection -> Connection) ks c :
  ctx_ok c -> (forall k, keeps_identity (f k)) -> evolves c (foldl (fun c k => deliver c k (f k)) c ks).
Proof.
  revert c. induction ks as [|k ks IH]; intros c Hc Hf; cbn; [by apply evolves_refl|].
  pose proof (deliver_evolves c k (f k) Hc (Hf k)) as H1. eapply evolves_trans; [exact H1|]. apply IH; [apply H1|done].
Qed.

Lemma fanout_evolves plan key p cache c : ctx_ok c -> evolves c (fanout_local plan key p cache c).
Proof. intros Hc. apply (deliver_all_evolves (fun _ => input (InTrack key p cache))); [done|]. intros _ x. apply input_identity. Qed.

Lemma route_evolves rt key o p plan w c rt' c' sent :
  ctx_ok c -> route_packet_with_plan rt key o p plan w c = (rt', c', sent) -> evolves c c'.
Proof.
  intros Hc. unfold route_packet_with_plan, route_rtp_with_plan, route_data_with_plan.
  destruct p as [lane bytes|p]; (destruct (slot_get _ _) as [r|]; [|intros [= <- <- <-]; by apply evolves_refl]).
  - destruct (if is_local o then _ else _). intros [= <- <- <-]. by apply fanout_evolves.
  - destruct (store_packet r p) as [r' [q|]]; [|intros [= <- <- <-]; by apply evolves_refl].
    destruct (if is_local o then _ else _). intros [= <- <- <-]. by apply fanout_evolves.
Qed.

(** ** Coming and going *)

Lemma by_id_of r k m : registry_ok r -> live (participants r) !! k = Some m -> by_id r !! pid m = Some k.
Proof. intros Hr Hk. apply (ro_by_id _ Hr). eauto. Qed.

Lemma retire_transport_lookup r a i x h :
  transports (retire_transport r a) !! i = Some (Some (x, h)) -> transports r !! i = Some (Some (x, h)) /\ (i = transport_index a -> x <> a).
Proof.
  unfold retire_transport. destruct (transports r !! transport_index a) as [[[a' h']|]|] eqn:E; cbn.
  - case_decide as Ha; cbn.
    + rewrite list_lookup_insert_Some. intros [(-> & [= ] & _)|[Hne Hl]]. split; [done|]. by intros ->.
    + intros Hl. split; [done|]. intros -> ->. rewrite E in Hl. by injection Hl as -> ->.
  - intros Hl. split; [done|]. intros -> ->. rewrite E in Hl. done.
  - intros Hl. split; [done|]. intros -> ->. rewrite E in Hl. done.
Qed.

Lemma remove_handle_ok r k m :
  registry_ok r -> live (participants r) !! k = Some m ->
  exists r', remove_handle r k = Some (r', Some m) /\ registry_ok r' /\
    live (participants r') = delete k (live (participants r)) /\ by_id r' = delete (pid m) (by_id r) /\
    issued (history (participants r')) = issued (history (participants r)).
Proof.
  intros Hr Hk. pose proof (by_id_of _ _ _ Hr Hk) as Hb. unfold remove_handle.
  destruct (slot_remove_ok (participants r) k m (ro_keys _ Hr) Hk) as (ps & -> & Hps & El & Eh).
  cbn. rewrite decide_True by exact Hb. set (r1 := retire_transport _ _).
  assert (demuxer r1 = demuxer r /\ by_id r1 = delete (pid m) (by_id r) /\ participants r1 = ps) as (Ed & Eb & Ep).
  { unfold r1, retire_transport. cbn. destruct (transports r !! _) as [[[]|]|]; [case_decide|..]; done. }
  destruct (ro_demux _ Hr) as [L HL]. rewrite Ed.
  destruct (unregister_spec (demuxer r) L (transport_route (ingress m)) HL) as (d & -> & Hd). cbn.
  eexists. split; [done|]. cbn. rewrite Eb, Ep. split_and!; try done. split; cbn; rewrite ?Eb, ?Ep; try done; [..|by eexists].
  - intros p h. rewrite lookup_delete_Some, (ro_by_id _ Hr), El. split.
    + intros (Hne & mh & Hh & Hp). exists mh. rewrite lookup_delete_ne; [done|]. intros ->. congruence.
    + intros (mh & Hh & Hp). apply lookup_delete_Some in Hh as [Hne Hh]. split; [|eauto].
      intros E. apply Hne. pose proof (by_id_of _ _ _ Hr Hh). congruence.
  - intros i a h Ht. apply retire_transport_lookup in Ht as [Ht Hne]. cbn in Ht.
    destruct (ro_transports _ Hr _ _ _ Ht) as (Hi & mh & Hh & Ha). split; [done|]. exists mh. split; [|done].
    rewrite El, lookup_delete_ne; [done|]. intros ->. apply Hne; congruence.
Qed.

Lemma install_lookup r a h i x j :
  transports (install_transport r a h) !! i = Some (Some (x, j)) ->
  (i = transport_index a /\ x = a /\ j = h) \/ transports r !! i = Some (Some (x, j)).
Proof.
  unfold install_transport. cbn. set (t := if decide _ then _ else _). rewrite list_lookup_insert_Some.
  intros [(-> & [= <- <-] & _)|[_ Hl]]; [by left|right]. unfold t in Hl. case_decide; [|done].
  destruct (decide (i < length (transports r))%nat); [by rewrite lookup_resize in Hl by lia|].
  destruct (decide (i < S (transport_index a))%nat).
  - rewrite lookup_resize_new in Hl by lia. done.
  - rewrite lookup_resize_old in Hl by lia. done.
Qed.

Lemma resolve_installed r a h : resolve_transport (install_transport r a h) a = Some h.
Proof.
  unfold resolve_transport, install_transport. cbn. rewrite list_lookup_insert_eq.
  - by rewrite decide_True.
  - case_decide; [rewrite length_resize|]; lia.
Qed.

Lemma reg_insert_ok r cfg a :
  registry_ok r -> by_id r !! config_participant cfg = None ->
  exists r' k, reg_insert r cfg a = Some (r', k) /\ registry_ok r' /\ (k ∉ issued (history (participants r))) /\
    live (participants r) !! k = None /\
    live (participants r') = <[k := mkMeta (connection_new cfg (reg_shard r) (max_gso_segments r)) false a]> (live (participants r)) /\
    by_id r' = <[config_participant cfg := k]> (by_id r) /\
    issued (history (participants r')) = (issued (history (participants r)) ++ [k]) /\ resolve_transport r' a = Some k.
Proof.
  intros Hr Hn. unfold reg_insert. rewrite Hn. cbn [mbind option_bind]. set (m := mkMeta _ false a).
  pose proof (slot_insert_ok (participants r) m (ro_keys _ Hr)) as Hs. destruct (slot_insert _ _) as [ps k] eqn:Ei.
  destruct Hs as (Hps & Hk & Hkl & El & Eh). eexists _, k. split; [done|]. split_and!; try done; [|apply resolve_installed].
  split; cbn; try done; [..|by apply Hr].
  - intros p h. rewrite El. assert (pid m = config_participant cfg) as Ep by apply new_identity.
    destruct (decide (h = k)) as [->|Hne].
    + rewrite lookup_insert_eq. split.
      * rewrite lookup_insert_Some. intros [[<- _]|[_ Hb]]; [by exists m|]. apply (ro_by_id _ Hr) in Hb as (mh & Hh & _). congruence.
      * intros (mh & [= <-] & <-). by rewrite Ep, lookup_insert_eq.
    + rewrite (lookup_insert_ne _ k h) by congruence. rewrite <- (ro_by_id _ Hr). rewrite lookup_insert_Some. split.
      * intros [[_ ?]|[_ ?]]; [congruence|done].
      * intros Hb. right. split; [congruence|done].
  - intros i x h Ht. apply install_lookup in Ht. cbn in Ht. destruct Ht as [(-> & -> & ->)|Ht].
    + split; [done|]. exists m. by rewrite El, lookup_insert_eq.
    + destruct (ro_transports _ Hr _ _ _ Ht) as (Hi & mh & Hh & Ha). split; [done|]. exists mh. split; [|done].
      rewrite El, lookup_insert_ne; [done|]. intros ->. congruence.
Qed.

(** ** The shard *)

Record tracks_ok (rt : ShardRuntime) : Prop := mk_tracks_ok {
  to_keys : slot_ok (tracks rt);
  to_handles : forall t h, track_handles rt !! t = Some h <-> exists r, live (tracks rt) !! h = Some r /\ track_id r = t;
  to_routes : runtime_wf (routes rt);
}.

(** [absent] are the participants whose replacement is about to be put in. *)
Record shard_inv (absent : Z -> Prop) (x : ShardExecution) : Prop := mk_shard_inv {
  so_ctx : ctx_ok (registry x, dirty x);
  so_wheel : wheel_inv (timers x);
  so_timers : forall k t, pending (timers x) !! k = Some t -> is_Some (live (participants (registry x)) !! k);
  so_waiting : forall tc, tc ∈ pending_replacements x ->
    is_Some (by_id (registry x) !! config_participant tc.2) \/ absent (config_participant tc.2);
  so_room : (length (pending_replacements x) <= PENDING_REPLACEMENTS)%nat;
  so_tracks : tracks_ok (runtime x);
  so_plans : forall h p, plans x !! h = Some p -> h ∈ issued (history (tracks (runtime x)));
  so_queue : (length (track_queue (pipeline x)) <= packet_capacity (pipeline x))%nat;
}.

Definition shard_ok : ShardExecution -> Prop := shard_inv (fun _ => False).

Lemma with_ctx_ok A x c : shard_inv A x -> evolves (registry x, dirty x) c -> shard_inv A (with_ctx x c).
Proof.
  intros [H1 H2 H3 H4 H5 H6 H7 H8] [E1 E2 E3]. destruct c as [r d]. cbn in E2. split; try done.
  - intros k t Hk. rewrite <- (same_people_live _ _ k E2). by eapply H3.
  - intros tc Htc. cbn. rewrite (sp_by_id _ _ E2). by apply H4.
Qed.

Lemma give_ok A x k f :
  shard_inv A x -> keeps_identity f -> shard_inv A (give x k f) /\ evolves (registry x, dirty x) (registry (give x k f), dirty (give x k f)).
Proof.
  intros Hx Hf. pose proof (deliver_evolves (registry x, dirty x) k f (so_ctx _ _ Hx) Hf) as He.
  split; [by apply with_ctx_ok|]. unfold give, with_ctx. cbn [registry dirty]. by rewrite <- surjective_pairing.
Qed.

(** The demultiplexer alone changed. *)
Lemma with_demuxer_ok x d : shard_ok x -> (exists L, rep d L) -> shard_ok (with_registry x (with_demuxer (registry x) d)).
Proof.
  intros Hx Hd. apply with_ctx_ok; [done|]. destruct (so_ctx _ _ Hx) as [Hr Hq Hc]. cbn in *.
  assert (same_people (registry x) (with_demuxer (registry x) d)) as Hs by by split.
  split; [|done|].
  - split; [|by destruct Hq|done]. apply (registry_ok_same (registry x)); [done|done|apply Hr|done].
  - split; [done|]. cbn. intros k m m' Hm Hm'. left. congruence.
Qed.

Lemma learn_ok x s a : shard_ok x -> shard_ok (with_registry x (learn_addr (registry x) s a)).
Proof.
  intros Hx. apply with_demuxer_ok; [done|]. destruct (ro_demux _ (co_registry _ (so_ctx _ _ Hx))) as [L HL]. eexists. by apply learn_refines.
Qed.
Lemma authenticate_ok x s a : shard_ok x -> shard_ok (with_registry x (authenticate_addr (registry x) s a)).
Proof.
  intros Hx. apply with_demuxer_ok; [done|]. destruct (ro_demux _ (co_registry _ (so_ctx _ _ Hx))) as [L HL]. eexists. by apply authenticate_refines.
Qed.

Lemma with_runtime_ok x rt :
  shard_ok x -> tracks_ok rt -> (forall h, h ∈ issued (history (tracks (runtime x))) -> h ∈ issued (history (tracks rt))) ->
  shard_ok (with_runtime x rt).
Proof. intros [H1 H2 H3 H4 H5 H6 H7 H8] Hrt Hi. split; try done. intros h p Hh. by eapply Hi, H7. Qed.

Lemma with_pipeline_ok x p :
  shard_ok x -> (length (track_queue p) <= packet_capacity p)%nat -> shard_ok (with_pipeline x p).
Proof. intros [H1 H2 H3 H4 H5 H6 H7 H8] Hp. by split. Qed.

Lemma with_pending_ok x ps :
  shard_ok x -> (forall tc, tc ∈ ps -> is_Some (by_id (registry x) !! config_participant tc.2)) ->
  (length ps <= PENDING_REPLACEMENTS)%nat -> shard_ok (with_pending x ps).
Proof. intros [H1 H2 H3 H4 H5 H6 H7 H8] Hw Hl. split; try done. intros tc Htc. left. by apply Hw. Qed.

(** ** Participants of the shard *)

Lemma add_participant_ok x a cfg :
  shard_inv (eq (config_participant cfg)) x -> by_id (registry x) !! config_participant cfg = None ->
  exists x' k, add_participant x a cfg = Some x' /\ shard_ok x' /\ (k ∉ issued (history (participants (registry x)))) /\
    by_id (registry x') = <[config_participant cfg := k]> (by_id (registry x)) /\
    live (participants (registry x')) =
      <[k := mkMeta (connection_new cfg (reg_shard (registry x)) (max_gso_segments (registry x))) true a]> (live (participants (registry x))) /\
    k ∈ to_poll (dirty x') /\ to_poll (dirty x) `prefix_of` to_poll (dirty x') /\
    resolve_transport (registry x') a = Some k /\ pending_replacements x' = pending_replacements x.
Proof.
  intros Hx Hn. unfold add_participant, resolve_id. rewrite Hn. cbn [mbind option_bind].
  destruct (so_ctx _ _ Hx) as [Hr Hq Hc]. cbn in Hr, Hq, Hc.
  destruct (reg_insert_ok (registry x) cfg a Hr Hn) as (r & k & -> & Hr' & Hki & Hkl & El & Eb & Eh & Ht). cbn [mbind option_bind].
  set (m := mkMeta _ false a) in El.
  assert (shard_ok (with_registry x r)) as Hy.
  { destruct Hx as [_ H2 H3 H4 H5 H6 H7 H8]. split; try done; cbn.
    - split; cbn; [done| |done]. destruct Hq as [Hnd Hi Hf]. split; [done| |].
      + intros j Hj. rewrite Eh. apply elem_of_app. left. by apply Hi.
      + intros j mj. rewrite El, lookup_insert_Some. intros [[<- <-]|[_ Hj]]; [|by apply Hf]. cbn. split; [done|].
        intros Hj. exfalso. by apply Hki, Hi.
    - intros j t Hj. rewrite El. apply lookup_insert_is_Some. destruct (decide (k = j)); [by left|right; split; [done|by eapply H3]].
    - intros tc Htc. rewrite Eb. left. apply lookup_insert_is_Some. destruct (decide (config_participant cfg = config_participant tc.2)); [by left|right; split; [done|]]. destruct (H4 tc Htc); [done|]. congruence. }
  destruct (give_ok _ (with_registry x r) k id Hy ltac:(done)) as [Hok He]. eexists _, k. split; [done|]. split; [done|].
  assert (live (participants r) !! k = Some m) as Hk by by rewrite El, lookup_insert_eq.
  unfold give, deliver, resolve_mut, slot_get in *. cbn [registry dirty with_registry with_ctx fst snd] in *. rewrite Hk in *.
  unfold mark in *. cbn [queued_dirty with_connection m set_queued connection ingress] in *.
  unfold put, slot_set in *. rewrite decide_True in * by by rewrite Hk. cbn in *.
  split_and!; try done.
  - by rewrite El, insert_insert_eq.
  - unfold to_poll. cbn. rewrite Hc, drop_0. set_solver.
  - unfold to_poll. cbn. rewrite Hc, !drop_0. by apply prefix_app_r.
Qed.

Abbreviation ctx x := (registry x, dirty x).

Lemma not_issued_not_live x k m :
  shard_ok x -> k ∉ issued (history (participants (registry x))) -> live (participants (registry x)) !! k = Some m -> False.
Proof. intros Hx Hk Hl. apply Hk. by eapply (ro_keys _ (co_registry _ (so_ctx _ _ Hx))). Qed.

Lemma take_replacement_spec p l :
  match take_replacement p l with
  | Some (a, cfg, rest) => (a, cfg) ∈ l /\ config_participant cfg = p /\ rest ⊆ l /\ (length rest <= length l)%nat
  | None => forall tc, tc ∈ l -> config_participant tc.2 <> p
  end.
Proof.
  unfold take_replacement. destruct (list_find _ l) as [[i [a cfg]]|] eqn:E; cbn.
  - apply list_find_Some in E as (Hi & Hp & _). cbn in Hp. split_and!; [by eapply list_elem_of_lookup_2|done| |].
    + intros tc. rewrite elem_of_app. intros [Htc|Htc]; [by eapply elem_of_take in Htc as (? & ? & _); eapply list_elem_of_lookup_2|].
      apply list_elem_of_lookup in Htc as [j Hj]. rewrite lookup_drop in Hj. by eapply list_elem_of_lookup_2.
    + rewrite length_app, length_take, length_drop. lia.
  - apply list_find_None in E. rewrite Forall_forall in E. intros tc Htc. by apply E.
Qed.

(** Leaving: the timer is cancelled, then the participant is removed. *)
Lemma leave_ok x h m :
  shard_ok x -> live (participants (registry x)) !! h = Some m ->
  exists w r, cancel (timers x) h = Some w /\ remove_handle (registry x) h = Some (r, Some m) /\
    live (participants r) = delete h (live (participants (registry x))) /\ by_id r = delete (pid m) (by_id (registry x)) /\
    issued (history (participants r)) = issued (history (participants (registry x))) /\
    shard_inv (eq (pid m)) (with_registry (with_timers x w) r).
Proof.
  intros [H1 H2 H3 H4 H5 H6 H7 H8] Hh. destruct H1 as [Hr Hq Hc]. cbn in Hr, Hq, Hc.
  destruct (cancel_view (timers x) h H2) as (w & Ew & Hw & Ep & _).
  destruct (remove_handle_ok (registry x) h m Hr Hh) as (r & Er & Hr' & El & Eb & Eh).
  exists w, r. split_and!; try done. split; try done; cbn.
  - split; cbn; [done| |done]. destruct Hq as [Q1 Q2 Q3]. split; [done|by rewrite Eh|].
    intros k mk. rewrite El, lookup_delete_Some. intros [_ Hk]. by apply Q3.
  - intros k t. rewrite Ep, lookup_delete_Some, El. intros [Hne Hk]. rewrite lookup_delete_ne by done. by eapply H3.
  - intros tc Htc. rewrite Eb. destruct (decide (pid m = config_participant tc.2)); [by right|left].
    rewrite lookup_delete_ne by done. by destruct (H4 tc Htc).
Qed.

Definition still_waiting (x : ShardExecution) (p : Z) (a : NodeTransportAddress) : list (NodeTransportAddress * ConnectionConfig) :=
  filter (fun tc => tc.1 <> a \/ config_participant tc.2 <> p) (pending_replacements x).

Lemma filter_waiting_ok x p a : shard_ok x -> shard_ok (with_pending x (still_waiting x p a)).
Proof.
  intros Hx. apply with_pending_ok; [done|..].
  - intros tc Htc. apply list_elem_of_filter in Htc as [_ Htc]. by destruct (so_waiting _ _ Hx tc Htc).
  - etransitivity; [apply length_filter|apply (so_room _ _ Hx)].
Qed.

(** The participant is here under that address. *)
Definition present (x : ShardExecution) (p : Z) (a : NodeTransportAddress) (h : Z) : Prop :=
  exists m, live (participants (registry x)) !! h = Some m /\ pid m = p /\ ingress m = a.

Lemma remove_absent x p a :
  shard_ok x -> (forall h, ~ present x p a h) -> remove_participant x p a = Some (with_pending x (still_waiting x p a)).
Proof.
  intros Hx Hno. unfold remove_participant. cbn [registry with_pending].
  destruct (resolve_id (registry x) p) as [h|] eqn:Eh.
  - pose proof Eh as Eh'. apply (ro_by_id _ (co_registry _ (so_ctx _ _ Hx))) in Eh' as (m & Hm & Hp). cbn in Hm.
    assert (ingress m <> a) as Hne by (intros Ha; apply (Hno h); by exists m).
    unfold resolve_mut, slot_get. rewrite Hm, decide_False by done. cbn [mbind option_bind].
    unfold reg_remove. cbn [registry with_pending]. rewrite Eh. unfold resolve_mut, slot_get. by rewrite Hm, decide_False.
  - cbn. unfold reg_remove. cbn. by rewrite Eh.
Qed.

Lemma remove_present x p a h :
  shard_ok x -> present x p a h ->
  exists x', remove_participant x p a = Some x' /\ shard_ok x' /\ wakes (ctx x) (ctx x') /\
    live (participants (registry x')) !! h = None /\
    match take_replacement p (still_waiting x p a) with
    | None => by_id (registry x') = delete p (by_id (registry x))
    | Some (t, cfg, rest) =>
        pending_replacements x' = rest /\
        exists k, by_id (registry x') = <[p := k]> (by_id (registry x)) /\ present x' p t k /\ k ∈ to_poll (dirty x') /\
          resolve_transport (registry x') t = Some k /\ live (participants (registry x)) !! k = None
    end.
Proof.
  intros Hx0 (m & Hm & Hp & Ha). pose proof (filter_waiting_ok x p a Hx0) as Hx. unfold remove_participant. fold (still_waiting x p a).
  set (y := with_pending x _) in *. destruct (leave_ok y h m Hx Hm) as (w & r & Ew & Er & El & Eb & Eh & Hy).
  change (registry y) with (registry x) in *. change (timers y) with (timers x) in *.
  assert (resolve_id (registry x) p = Some h) as Hid by (unfold resolve_id; rewrite <- Hp; by apply by_id_of; [apply Hx|]).
  rewrite Hid. unfold resolve_mut, slot_get. rewrite Hm. rewrite (decide_True (P := ingress m = a)) by done. rewrite Ew. cbn [fmap option_fmap option_map mbind option_bind].
  unfold reg_remove. change (registry (with_timers y w)) with (registry x). rewrite Hid. unfold resolve_mut, slot_get. rewrite Hm, decide_True by done. rewrite Er. cbn [mbind option_bind].
  assert (forall j, live (participants r) !! j = if decide (j = h) then None else live (participants (registry x)) !! j) as Elj.
  { intros j. rewrite El. case_decide; [subst; by rewrite lookup_delete_eq|by rewrite lookup_delete_ne]. }
  change (pending_replacements (with_registry (with_timers y w) r)) with (still_waiting x p a).
  pose proof (take_replacement_spec p (still_waiting x p a)) as Ht. destruct (take_replacement p _) as [[[t cfg] rest]|].
  - destruct Ht as (_ & Hcfg & Hsub & Hlen). set (z := with_pending _ rest).
    assert (shard_inv (eq (config_participant cfg)) z) as Hz.
    { rewrite Hcfg, <- Hp. destruct Hy as [H1 H2 H3 H4 H5 H6 H7 H8]. split; try done; [intros tc Htc; by apply H4, Hsub|].
      etransitivity; [exact Hlen|apply H5]. }
    assert (by_id (registry z) !! config_participant cfg = None) as Hn by (cbn; rewrite Eb, Hcfg, Hp; by apply lookup_delete_eq).
    destruct (add_participant_ok z t cfg Hz Hn) as (x' & k & -> & Hx' & Hk & Eb' & El' & Hkq & Hq & Ht & Hpr). cbn in Hk, Eb', El', Hq, Hpr.
    rewrite Eh in Hk. assert (live (participants (registry x)) !! k = None) as Hkn.
    { destruct (live _ !! k) eqn:E; [|done]. exfalso. by eapply (not_issued_not_live x). }
    assert (k <> h) as Hkh by (intros ->; congruence).
    exists x'. split_and!; try done; cbn [registry dirty].
    + split; [done|]. cbn. intros j mj mj' Hj. rewrite El', lookup_insert_Some, Elj. intros [[<- _]|[_ Hj']]; [congruence|].
      left. case_decide; [done|congruence].
    + by rewrite El', lookup_insert_ne, Elj, decide_True.
    + exists k. split_and!; try done.
      * by rewrite Eb', Eb, Hcfg, Hp, insert_delete_eq.
      * eexists. rewrite El', lookup_insert_eq. split; [done|]. split; [|done]. by rewrite <- Hcfg; apply new_identity.
  - eexists. split; [done|]. cbn. split_and!.
    + destruct Hy as [H1 H2 H3 H4 H5 H6 H7 H8]. split; try done. intros tc Htc. destruct (H4 tc Htc) as [?|E]; [by left|].
      exfalso. rewrite Hp in E. by eapply Ht.
    + split; [done|]. cbn. intros j mj mj' Hj. rewrite Elj. case_decide; [done|]. intros Hj'. left. congruence.
    + by rewrite Elj, decide_True.
    + by rewrite Eb, Hp.
Qed.

(** ** Tracks *)

Lemma set_track_ok rt h r r' :
  tracks_ok rt -> live (tracks rt) !! h = Some r -> track_id r' = track_id r -> tracks_ok (with_tracks rt (slot_set (tracks rt) h r')).
Proof.
  intros [T1 T2 T3] Hh Ht. destruct (slot_set_ok (tracks rt) h r' r T1 Hh) as [E Hs]. split; [exact Hs| |exact T3].
  intros t j. cbn. rewrite E, T2. cbn. destruct (decide (j = h)) as [->|Hne].
  - rewrite lookup_insert_eq. split; [intros (? & ? & <-)|intros (? & [= <-] & <-)]; eexists; split; try done; congruence.
  - by rewrite lookup_insert_ne.
Qed.

Lemma slot_set_history {V} (m : SlotMap V) k v : history (slot_set m k v) = history m.
Proof. unfold slot_set. by case_decide. Qed.

Lemma install_track_ok rt t d o p :
  tracks_ok rt -> tracks_ok (install_track rt t d o p).1 /\
  (forall h, h ∈ issued (history (tracks rt)) -> h ∈ issued (history (tracks (install_track rt t d o p).1))).
Proof.
  intros Hrt. pose proof Hrt as [T1 T2 T3]. unfold install_track. destruct (track_handles rt !! t) as [h|] eqn:Et.
  - destruct (proj1 (T2 t h) Et) as (r & Hr & Htr). unfold slot_get. rewrite Hr. cbn. rewrite slot_set_history.
    split; [|done]. by apply (set_track_ok rt h r).
  - set (v := mkTrack _ _ _ _ _). pose proof (slot_insert_ok (tracks rt) v T1) as Hs.
    destruct (slot_insert (tracks rt) v) as [ts h]. destruct Hs as (Hts & Hh & Hhl & El & Eh). cbn. rewrite Eh.
    split; [|set_solver]. split; [done| |done]. intros t' j. cbn. rewrite El. destruct (decide (j = h)) as [->|Hne].
    + rewrite lookup_insert_eq, lookup_insert_Some. split.
      * intros [[<- _]|[_ Hb]]; [by exists v|]. apply T2 in Hb as (r & Hr & _). congruence.
      * intros (r & [= <-] & <-). by left.
    + rewrite (lookup_insert_ne _ h j) by congruence. rewrite <- T2, lookup_insert_Some. split.
      * intros [[_ ?]|[_ ?]]; [congruence|done].
      * intros Hb. right. split; [congruence|done].
Qed.

Lemma retire_track_ok rt t :
  tracks_ok rt -> tracks_ok (retire_track rt t) /\
  (forall h, h ∈ issued (history (tracks rt)) -> h ∈ issued (history (tracks (retire_track rt t)))).
Proof.
  intros Hrt. pose proof Hrt as [T1 T2 T3]. unfold retire_track. destruct (track_handles rt !! t) as [h|] eqn:Et; [|done].
  destruct (proj1 (T2 t h) Et) as (r & Hr & Htr).
  destruct (slot_remove_ok (tracks rt) h r T1 Hr) as (ts & -> & Hts & El & Eh). cbn. rewrite Eh. split; [|done].
  split; [done| |done]. intros t' j. cbn. rewrite El, lookup_delete_Some, T2. split.
  - intros (Hne & rj & Hj & Ht'). exists rj. rewrite lookup_delete_ne; [done|]. intros ->. congruence.
  - intros (rj & Hj & Ht'). apply lookup_delete_Some in Hj as [Hne Hj]. split; [|eauto]. intros <-. apply Hne.
    assert (track_handles rt !! t = Some j) by (apply T2; eauto). congruence.
Qed.

Lemma store_packet_id r p : track_id (store_packet r p).1 = track_id r.
Proof. unfold store_packet. destruct (track_cache r) as [tc|]; [|done]. destruct (source tc p); [|done]. by destruct (push_encoding _ _ _). Qed.

Lemma route_tracks_ok rt key o p plan w c rt' c' sent :
  tracks_ok rt -> route_packet_with_plan rt key o p plan w c = (rt', c', sent) ->
  tracks_ok rt' /\ history (tracks rt') = history (tracks rt).
Proof.
  intros Hrt. unfold route_packet_with_plan, route_rtp_with_plan, route_data_with_plan, slot_get.
  destruct p as [lane bytes|p]; (destruct (live (tracks rt) !! key) as [r|] eqn:Hk; [|by intros [= <- <- <-]]).
  - destruct (if is_local o then _ else _). intros [= <- <- <-]. cbn. rewrite slot_set_history. split; [|done].
    by apply (set_track_ok rt key r).
  - pose proof (store_packet_id r p) as Hid. destruct (store_packet r p) as [r' [q|]]; cbn in Hid.
    + destruct (if is_local o then _ else _). intros [= <- <- <-]. cbn. rewrite slot_set_history. split; [|done].
      by apply (set_track_ok rt key r).
    + intros [= <- <- <-]. cbn. rewrite slot_set_history. split; [|done]. by apply (set_track_ok rt key r).
Qed.

Lemma with_routes_ok rt rts : tracks_ok rt -> runtime_wf rts -> tracks_ok (with_routes rt rts).
Proof. intros [T1 T2 T3] H. by split. Qed.

Lemma route_shard_ok x key o p plan rt c sent :
  shard_ok x -> route_packet_with_plan (runtime x) key o p plan (wall x) (ctx x) = (rt, c, sent) ->
  shard_ok (with_ctx (with_runtime x rt) c) /\ evolves (ctx x) c.
Proof.
  intros Hx E. pose proof (route_evolves _ _ _ _ _ _ _ _ _ _ (so_ctx _ _ Hx) E) as He.
  destruct (route_tracks_ok _ _ _ _ _ _ _ _ _ _ (so_tracks _ _ Hx) E) as [Hrt Eh]. split; [|done].
  apply with_ctx_ok; [|done]. apply with_runtime_ok; [done|done|]. by rewrite Eh.
Qed.

(** ** The operations *)

(** The operation does not fail, keeps the invariant, and whoever it changed
    will be polled. *)
Definition settles {S} (x : ShardExecution) (o : option (ShardExecution * S)) : Prop :=
  exists x' s, o = Some (x', s) /\ shard_ok x' /\ wakes (ctx x) (ctx x').

Lemma settles_quiet {S} x x' (s : S) :
  shard_ok x' -> participants (registry x') = participants (registry x) -> dirty x' = dirty x -> settles x (Some (x', s)).
Proof.
  intros Hx Ep Ed. exists x', s. split_and!; [done|done|]. unfold wakes. cbn. rewrite Ep, Ed.
  split; [done|]. intros k m m' H1 H2. left. congruence.
Qed.

Lemma settles_give {S} x k f (s : S) : shard_ok x -> keeps_identity f -> settles x (Some (give x k f, s)).
Proof. intros Hx Hf. destruct (give_ok _ x k f Hx Hf) as [H1 H2]. eexists _, _. split_and!; [done|done|apply H2]. Qed.

(** A change that nobody's connection sees comes first. *)
Lemma settles_after {S} x y (o : option (ShardExecution * S)) :
  participants (registry y) = participants (registry x) -> dirty y = dirty x -> settles y o -> settles x o.
Proof.
  intros Ep Ed (x' & s & Eo & Hx & Hw). exists x', s. split_and!; [done|done|]. unfold wakes in *. cbn in *. by rewrite Ep, Ed in Hw.
Qed.

Lemma keeps_input i : keeps_identity (input i).
Proof. intros c. apply input_identity. Qed.
Lemma keeps_effect e h : keeps_identity (apply_effect e h).
Proof. intros c. apply apply_identity. Qed.
Lemma keeps_adopt f p : keeps_identity (fun c => (adopt f p c).1).
Proof.
  intros c. unfold adopt. pose proof (bind_identity f c) as Hb. destruct (bind_tcp_flow f c) as [c' [|]]; cbn in *; [|done].
  by rewrite enqueue_identity.
Qed.
#[local] Hint Resolve keeps_input keeps_effect keeps_adopt demand_identity ready_identity : rust.

Lemma on_current_settles {S} x p conn f (s : S) : shard_ok x -> keeps_identity f -> settles x (Some (on_current x p conn f, s)).
Proof.
  intros Hx Hf. unfold on_current. destruct (resolve_id _ _) as [k|]; [|by apply settles_quiet].
  destruct (resolve_mut _ _) as [m|]; [|by apply settles_quiet]. destruct (_ =? _); [by apply settles_give|by apply settles_quiet].
Qed.

Lemma command_settles x cmd : shard_ok x -> settles x (on_command x cmd).
Proof.
  intros Hx. destruct cmd as [a cfg|s a|p c|p c r s|p c r e]; cbn [on_command].
  - destruct (resolve_id (registry x) (config_participant cfg)) as [h|] eqn:Eh.
    + destruct (Nat.leb_spec PENDING_REPLACEMENTS (length (pending_replacements x))); [by apply settles_quiet|].
      apply settles_quiet; [|done|done]. apply with_pending_ok; [done| |rewrite length_app; cbn; lia].
      intros tc. rewrite elem_of_app, list_elem_of_singleton. intros [Htc| ->]; [by destruct (so_waiting _ _ Hx tc Htc)|].
      cbn. unfold resolve_id in Eh. by rewrite Eh.
    + destruct (add_participant_ok x a cfg) as (x' & k & -> & Hx' & Hk & _ & El & Hkq & Hq & _).
      * destruct Hx as [H1 H2 H3 H4 H5 H6 H7 H8]. split; try done. intros tc Htc. left. by destruct (H4 tc Htc).
      * exact Eh.
      * eexists _, _. split_and!; [done|done|]. split; [done|]. cbn. intros j m m' Hj. rewrite El, lookup_insert_Some.
        intros [[<- _]|[_ Hj']]; [by right|left; congruence].
  - apply settles_quiet; [by apply authenticate_ok|done|done].
  - apply on_current_settles; [done|]. intros c'. apply ready_identity.
  - apply on_current_settles; auto with rust.
  - apply on_current_settles; auto with rust.
Qed.

Lemma owned_settles {S} x b a s (v : S) : shard_ok x -> settles x (Some (on_owned_udp_batch x b a s, v)).
Proof.
  intros Hx. unfold on_owned_udp_batch. destruct (resolve_transport _ _); [|by apply settles_quiet]. apply settles_give; auto with rust.
Qed.

Lemma udp_settles x b : shard_ok x -> settles x (on_udp_batch_routed x b).
Proof.
  intros Hx. unfold on_udp_batch_routed, reg_demux. destruct (ro_demux _ (co_registry _ (so_ctx _ _ Hx))) as [L HL]. cbn in HL.
  destruct (demux_refines _ _ (batch_src b) (batch_data b) HL) as (d & -> & Hd). cbn [mbind option_bind].
  set (y := with_registry x _). assert (shard_ok y) as Hy by (apply with_demuxer_ok; [done|by eexists]).
  apply (settles_after x y); [done|done|]. destruct (lru_demux _ _ _ _).2 as [a|]; [|by apply settles_quiet].
  destruct (_ =? _); [by apply owned_settles|by apply settles_quiet].
Qed.

Lemma media_settles x env payload now : shard_ok x -> settles x (on_media_frame x env payload now).
Proof.
  intros Hx. unfold on_media_frame. destruct (account_wf NULL_HANDLE (routes (runtime x)) (ntp (wall x)) env) as (rts & o & -> & Hwf);
    [apply (so_tracks _ _ Hx)|]. cbn [mbind option_bind]. set (y := with_runtime x _).
  assert (shard_ok y) as Hy by (apply with_runtime_ok; [done| |done]; apply with_routes_ok; [apply Hx|done]).
  apply (settles_after x y); [done|done|]. destruct o as [[[key|key] playout]|]; [|by apply settles_quiet..].
  case_decide; [|by apply settles_quiet]. destruct (plans y !! key) as [plan|]; [|by apply settles_quiet].
  destruct (route_packet_with_plan _ _ _ _ _ _ _) as [[rt c] sent] eqn:E. destruct (route_shard_ok _ _ _ _ _ _ _ _ Hy E) as [H1 H2].
  eexists _, _. split_and!; [done|done|]. destruct c. apply H2.
Qed.

Lemma reverse_settles {S} x env p now (s : S) : shard_ok x -> settles x (Some (on_reverse_frame x env p now, s)).
Proof.
  intros Hx. unfold on_reverse_frame. pose proof (accept_reverse_wf (routes (runtime x)) (env_address env) (dedup p) now (to_routes _ (so_tracks _ _ Hx))) as Hwf.
  destruct (accept_reverse _ _ _ _) as [rts acc]. cbn in Hwf. set (y := with_runtime x _).
  assert (shard_ok y) as Hy by (apply with_runtime_ok; [done| |done]; apply with_routes_ok; [apply Hx|done]).
  apply (settles_after x y); [done|done|]. destruct acc; [|by apply settles_quiet]. cbn [negb].
  destruct (_ ≫= _) as [[o t]|]; [|by apply settles_quiet]. apply settles_give; auto with rust.
Qed.

Lemma frame_settles x f now : shard_ok x -> settles x (on_shard_frame x f now).
Proof.
  intros Hx. destruct f as [b a s|env p|env p]; cbn [on_shard_frame]; [|by apply media_settles|by apply reverse_settles].
  destruct (resolve_transport (registry x) a) eqn:E; [|by apply owned_settles].
  eapply settles_after; [..|apply owned_settles; by apply learn_ok]; done.
Qed.

Lemma tcp_settles x e : shard_ok x -> settles x (Some (on_tcp_ingress x e)).
Proof.
  intros Hx. unfold on_tcp_ingress. destruct (negb _); [by apply settles_quiet|].
  destruct (resolve_transport _ _) as [k|]; [|by apply settles_quiet]. destruct (resolve_mut _ _) as [m|]; [|by apply settles_quiet].
  destruct e as [f p|p|r]; apply settles_give; auto with rust; intros c; [apply enqueue_identity|apply retire_identity].
Qed.

Lemma effect_settles x p e : shard_ok x -> settles x (Some (shard_effect x p e)).
Proof.
  intros Hx. unfold shard_effect. case_bool_decide; [by apply settles_quiet|].
  destruct (resolve_id _ _) as [k|]; [|by apply settles_quiet]. destruct (resolve_mut _ _); [|by apply settles_quiet].
  apply settles_give; auto with rust.
Qed.

Lemma with_plans_ok x ps :
  shard_ok x -> (forall h p, ps !! h = Some p -> h ∈ issued (history (tracks (runtime x)))) -> shard_ok (with_plans x ps).
Proof. intros [H1 H2 H3 H4 H5 H6 H7 H8] Hps. by split. Qed.

Lemma plan_settles x op : shard_ok x -> settles x (Some (shard_plan x op)).
Proof.
  intros Hx. unfold shard_plan. destruct (track_handle _ _) as [h|] eqn:Eh; [|by apply settles_quiet].
  apply (to_handles _ (so_tracks _ _ Hx)) in Eh as (r & Hr & _).
  assert (h ∈ issued (history (tracks (runtime x)))) as Hi by by eapply (to_keys _ (so_tracks _ _ Hx)).
  set (yc := match ShardUpdate.plan op with Some _ => _ | None => _ end).
  assert (shard_ok yc.1 /\ participants (registry yc.1) = participants (registry x) /\ dirty yc.1 = dirty x) as (Hy & Ep & Ed).
  { unfold yc. destruct (ShardUpdate.plan op) as [p|]; cbn; (split; [|done]); apply with_plans_ok; try done.
    - intros j q. rewrite lookup_insert_Some. intros [[<- _]|[_ Hj]]; [done|by eapply (so_plans _ _ Hx)].
    - intros j q. rewrite lookup_delete_Some. intros [_ Hj]. by eapply (so_plans _ _ Hx). }
  destruct yc as [y cost]. cbn in Hy, Ep, Ed. apply (settles_after x y); [done|done|].
  destruct (negb _); [|by apply settles_quiet]. destruct (source_origin _ _); [|by apply settles_quiet].
  apply settles_give; [done|]. intros c. apply demand_identity.
Qed.

Lemma insert_track_ok x t r : shard_ok x -> shard_ok (insert_track_runtime x t r).
Proof.
  intros Hx. unfold insert_track_runtime. set (o := _ ≫= _). set (pb := ShardUpdate.publisher r ≫= _).
  destruct (install_track_ok (runtime x) t (ShardUpdate.descriptor r) o pb (so_tracks _ _ Hx)) as [Ht Hi].
  destruct (install_track _ _ _ _ _) as [rt h]. cbn in Ht, Hi.
  assert (shard_ok (with_runtime x rt)) as Hy by by apply with_runtime_ok.
  destruct (ShardUpdate.publisher r) as [p|]; [|done]. destruct (ShardUpdate.publisher_effect r) as [e|]; [|done].
  destruct (resolve_id _ _) as [k|]; [|done]. unfold resolve_mut, slot_get. destruct (live _ !! k) as [m|] eqn:Hk; [|done].
  destruct (so_ctx _ _ Hy) as [Hr Hq Hc]. cbn [fst snd] in *.
  destruct (put_same (registry (with_runtime x rt)) k m (with_connection (apply_effect e (Some h)) m) Hr Hk) as (Hr' & Hsp & El);
    [unfold pid; cbn; apply apply_identity|done|].
  set (r' := put _ k _) in *. clearbody r'. destruct Hy as [H1 H2 H3 H4 H5 H6 H7 H8]. split; try done.
  - split; [done| |done]. destruct Hq as [Q1 Q2 Q3]. split; [done|intros j Hj; cbn; rewrite (sp_history _ _ Hsp); by apply Q2|].
    intros j mj. cbn [fst with_registry with_ctx registry dirty]. rewrite El, lookup_insert_Some. intros [[<- <-]|[_ Hj]]; [by apply (Q3 k m)|by apply Q3].
  - intros j t' Hj. cbn [with_registry with_ctx registry fst]. rewrite <- (same_people_live _ _ j Hsp). by eapply H3.
  - intros tc Htc. cbn [with_registry with_ctx registry fst]. rewrite (sp_by_id _ _ Hsp). by apply H4.
Qed.

Lemma retire_transport_ok x a : shard_ok x -> shard_ok (with_registry x (retire_transport (registry x) a)).
Proof.
  intros [H1 H2 H3 H4 H5 H6 H7 H8]. destruct H1 as [Hr Hq Hc]. cbn [fst snd] in *. set (r := retire_transport (registry x) a).
  assert (participants r = participants (registry x) /\ by_id r = by_id (registry x) /\ demuxer r = demuxer (registry x)) as (Ep & Eb & Ed).
  { unfold r, retire_transport. destruct (transports _ !! _) as [[[]|]|]; [case_decide|..]; done. }
  destruct Hr as [R1 R2 R3 R4]. destruct Hq as [Q1 Q2 Q3].
  split; cbn [with_registry with_ctx registry dirty fst snd timers pending_replacements runtime plans pipeline]; try done; rewrite ?Ep, ?Eb; try done.
  split; cbn [fst snd]; [|split; rewrite ?Ep; done|done]. split; rewrite ?Ep, ?Eb, ?Ed; try done.
  intros i b h Ht. apply retire_transport_lookup in Ht as [Ht _]. by apply R3.
Qed.

Definition is_insert_track (op : @ShardUpdate.ShardUpdateOp Z Z TrackKind SourceEncoding ParticipantEffect) : bool :=
  match op with InsertTrackRuntime _ _ => true | _ => false end.

Lemma remove_settles x p a : shard_ok x -> exists x', remove_participant x p a = Some x' /\ shard_ok x' /\ wakes (ctx x) (ctx x').
Proof.
  intros Hx. assert ((exists h, present x p a h) \/ forall h, ~ present x p a h) as [[h Hh]|Hno].
  { destruct (by_id (registry x) !! p) as [h|] eqn:Eh.
    - apply (ro_by_id _ (co_registry _ (so_ctx _ _ Hx))) in Eh as (m & Hm & Hp). destruct (decide (ingress m = a)) as [Ha|Ha].
      + left. exists h, m. done.
      + right. intros h' (m' & Hm' & Hp' & Ha'). apply Ha. cbn in Hm.
        pose proof (by_id_of _ _ _ (co_registry _ (so_ctx _ _ Hx)) Hm) as B1. pose proof (by_id_of _ _ _ (co_registry _ (so_ctx _ _ Hx)) Hm') as B2. cbn in B1, B2.
        rewrite Hp in B1. rewrite Hp' in B2. congruence.
    - right. intros h (m & Hm & Hp & _). pose proof (by_id_of _ _ _ (co_registry _ (so_ctx _ _ Hx)) Hm) as B. cbn in B. congruence. }
  - destruct (remove_present x p a h Hx Hh) as (x' & E & Hx' & Hw & _). eauto.
  - exists (with_pending x (still_waiting x p a)). split_and!; [by apply remove_absent|by apply filter_waiting_ok|].
    split; [done|]. intros k m m' H1 H2. left. cbn in *. congruence.
Qed.

Lemma lifecycle_ok x op :
  shard_ok x -> exists x', shard_lifecycle_op x op = Some x' /\ shard_ok x' /\ (is_insert_track op = false -> wakes (ctx x) (ctx x')).
Proof.
  intros Hx. assert (forall x', shard_ok x' -> participants (registry x') = participants (registry x) -> dirty x' = dirty x ->
    exists y, Some x' = Some y /\ shard_ok y /\ (is_insert_track op = false -> wakes (ctx x) (ctx y))) as Hq.
  { intros x' H1 H2 H3. destruct (settles_quiet x x' tt H1 H2 H3) as (y & s & [= <- <-] & H4 & H5). eauto. }
  destruct op as [a act|a|a|p a|t r|t|]; cbn [shard_lifecycle_op].
  - destruct (track_handle _ _) as [h|]; [|by apply Hq]. apply Hq; [|done|done]. apply with_runtime_ok; [done| |done].
    apply with_routes_ok; [apply Hx|]. apply install_action_wf, Hx.
  - apply Hq; [|done|done]. apply with_runtime_ok; [done| |done]. apply with_routes_ok; [apply Hx|]. apply route_retire_wf, Hx.
  - apply Hq; [by apply retire_transport_ok| |done]. cbn. unfold retire_transport.
    destruct (transports _ !! _) as [[[]|]|]; [case_decide|..]; done.
  - destruct (remove_settles x p a Hx) as (x' & E & H1 & H2). eauto.
  - eexists. split_and!; [done|by apply insert_track_ok|done].
  - destruct (retire_track_ok (runtime x) t (so_tracks _ _ Hx)) as [H1 H2]. apply Hq; [by apply with_runtime_ok|done|done].
  - by apply Hq.
Qed.

(** ** Flushing *)

Lemma evolves_intro x x' :
  shard_ok x' -> same_people (registry x) (registry x') -> wakes (ctx x) (ctx x') -> evolves (ctx x) (ctx x').
Proof. intros Hx Hs Hw. split; [apply Hx|done|done]. Qed.

Lemma flush_ok budget x :
  shard_ok x -> let '(x', sent) := flush_stream_buffers budget x in shard_ok x' /\ evolves (ctx x) (ctx x').
Proof.
  revert x. induction budget as [|b IH]; intros x Hx; cbn [flush_stream_buffers]; [split; [done|by apply evolves_refl, Hx]|].
  unfold pop_packet. destruct (track_queue (pipeline x)) as [|[h p] q] eqn:Eq; [split; [done|by apply evolves_refl, Hx]|].
  set (y := with_pipeline x _). assert (shard_ok y) as Hy.
  { apply with_pipeline_ok; [done|]. cbn. pose proof (so_queue _ _ Hx) as Hl. rewrite Eq in Hl. cbn in Hl. lia. }
  destruct (plans y !! h) as [plan|]; [|by apply (IH y)].
  destruct (route_packet_with_plan _ _ _ _ _ _ _) as [[rt c] sent] eqn:E.
  destruct (route_shard_ok _ _ _ _ _ _ _ _ Hy E) as [H1 H2]. specialize (IH _ H1).
  destruct (flush_stream_buffers b _) as [x' sent']. destruct IH as [H3 H4]. split; [done|].
  eapply evolves_trans; [exact H2|]. by destruct c.
Qed.

Lemma event_ok x e :
  shard_ok x -> let '(x', sent) := on_participant_event x e in shard_ok x' /\ evolves (ctx x) (ctx x').
Proof.
  intros Hx. assert (forall ev, shard_ok (with_pipeline x (push_shard_event (pipeline x) ev)) /\ evolves (ctx x) (ctx x)) as Hp.
  { intros ev. split; [apply with_pipeline_ok; [done|apply (so_queue _ _ Hx)]|by apply evolves_refl, Hx]. }
  destruct e as [s c t|s c t|k s d ss|p c|ev|s p]; cbn [on_participant_event]; try apply Hp.
  - destruct (authenticated_address _ _) as [a|]; [|split; [done|by apply evolves_refl, Hx]].
    pose proof (authenticate_ok x s a Hx) as Hy. split; [apply with_pipeline_ok; [done|apply (so_queue _ _ Hy)]|].
    apply evolves_intro; [apply with_pipeline_ok; [done|apply (so_queue _ _ Hy)]|by split|]. split; [done|].
    cbn. intros j m m' H1 H2. left. congruence.
  - destruct (plans x !! s); (split; [done|by apply evolves_refl, Hx]).
Qed.

Lemma events_ok budget x :
  shard_ok x -> let '(x', sent) := flush_participant_events budget x in shard_ok x' /\ evolves (ctx x) (ctx x').
Proof.
  revert x. induction budget as [|b IH]; intros x Hx; cbn [flush_participant_events]; [split; [done|by apply evolves_refl, Hx]|].
  unfold pop_participant_event. destruct (participant_events (pipeline x)) as [|e es]; [split; [done|by apply evolves_refl, Hx]|].
  set (y := with_pipeline x _). assert (shard_ok y) as Hy by (apply with_pipeline_ok; [done|apply (so_queue _ _ Hx)]).
  pose proof (event_ok y e Hy) as He. destruct (on_participant_event y e) as [z s]. destruct He as [Hz Ez].
  specialize (IH z Hz). destruct (flush_participant_events b z) as [x' s']. destruct IH as [H1 H2]. split; [done|].
  by eapply evolves_trans.
Qed.

(** ** Timers and polling *)

Lemma give_all_ok ks f x :
  shard_ok x -> keeps_identity f ->
  let x' := foldl (fun x k => give x k f) x ks in shard_ok x' /\ evolves (ctx x) (ctx x').
Proof.
  intros Hx Hf. revert x Hx. induction ks as [|k ks IH]; intros x Hx; cbn; [split; [done|by apply evolves_refl, Hx]|].
  destruct (give_ok _ x k f Hx Hf) as [H1 H2]. destruct (IH _ H1) as [H3 H4]. split; [done|]. by eapply evolves_trans.
Qed.

Lemma give_all_rest ks f x :
  let x' := foldl (fun x k => give x k f) x ks in timers x' = timers x /\ runtime x' = runtime x /\ plans x' = plans x.
Proof. revert x. induction ks as [|k ks IH]; intros x; cbn; [done|]. apply (IH (give x k f)). Qed.

(** Who is not queued already is queued last. *)
Definition enqueue (q : list Z) (k : Z) : list Z := if decide (k ∈ q) then q else q ++ [k].

Lemma give_queue x k f :
  shard_ok x -> is_Some (live (participants (registry x)) !! k) -> to_poll (dirty (give x k f)) = enqueue (to_poll (dirty x)) k.
Proof.
  intros Hx [m Hm]. destruct (so_ctx _ _ Hx) as [_ Hq Hc]. cbn in Hq, Hc. pose proof (qo_flag _ _ Hq k m Hm) as Hf.
  unfold give, deliver, resolve_mut, slot_get. rewrite Hm. unfold mark, enqueue, to_poll in *. rewrite Hc in *. cbn.
  destruct (queued_dirty m); cbn; rewrite ?Hc, ?drop_0 in *.
  - by rewrite decide_True by by apply Hf.
  - rewrite decide_False; [done|]. intros Hk. by apply Hf in Hk.
Qed.

Lemma give_all_queue ks f x :
  shard_ok x -> keeps_identity f -> Forall (fun k => is_Some (live (participants (registry x)) !! k)) ks ->
  to_poll (dirty (foldl (fun x k => give x k f) x ks)) = foldl enqueue (to_poll (dirty x)) ks.
Proof.
  intros Hx Hf. revert x Hx. induction ks as [|k ks IH]; intros x Hx Hks; cbn; [done|]. apply Forall_cons in Hks as [Hk Hks].
  destruct (give_ok _ x k f Hx Hf) as [H1 H2]. rewrite (IH _ H1), (give_queue x k f Hx Hk); [done|].
  eapply Forall_impl; [exact Hks|]. intros j Hj. by apply (same_people_live _ _ j (ev_same _ _ H2)).
Qed.

Lemma fire_ok x now :
  shard_ok x -> last_now (timers x) <= now <= epoch (timers x) + HORIZON ->
  exists w fired x', drain_expired (timers x) now = Some (w, fired) /\ fire_timers x now = Some x' /\ shard_ok x' /\
    evolves (ctx x) (ctx x') /\ timers x' = w /\ runtime x' = runtime x /\ plans x' = plans x /\
    to_poll (dirty x') = foldl enqueue (to_poll (dirty x)) fired.
Proof.
  intros Hx Hnow. destruct (drain_expired_view (timers x) now (so_wheel _ _ Hx) Hnow) as (w & fired & E & Hw & _ & _ & Hf & Ep).
  unfold fire_timers. rewrite E. cbn [mbind option_bind].
  assert (shard_ok (with_timers x w)) as Hy.
  { destruct Hx as [H1 H2 H3 H4 H5 H6 H7 H8]. split; try done. intros k t. cbn [with_timers timers]. rewrite Ep. unfold without.
    rewrite map_lookup_filter_Some. intros [Hk _]. by eapply H3. }
  destruct (give_all_ok fired (input (InTimeout now)) (with_timers x w) Hy (keeps_input _)) as [H1 H2].
  destruct (give_all_rest fired (input (InTimeout now)) (with_timers x w)) as (E1 & E2 & E3).
  eexists w, fired, _. split_and!; try done. apply (give_all_queue fired (input (InTimeout now)) (with_timers x w)); [done|apply keeps_input|].
  apply Forall_forall. intros k Hk. apply Hf in Hk as (t & Hk & _). by eapply (so_timers _ _ Hx).
Qed.

Lemma sink_queue who p call :
  (length (track_queue p) <= packet_capacity p)%nat ->
  (length (track_queue (sink_call who p call)) <= packet_capacity (sink_call who p call))%nat.
Proof.
  intros Hp. destruct call as [| | | | | | | | | | | | |[k|] q]; try done. cbn. unfold push_packet.
  destruct (Nat.leb_spec (packet_capacity p) (length (track_queue p))); cbn; [done|]. rewrite length_app. cbn. lia.
Qed.

Lemma sinks_queue who calls p :
  (length (track_queue p) <= packet_capacity p)%nat ->
  (length (track_queue (foldl (sink_call who) p calls)) <= packet_capacity (foldl (sink_call who) p calls))%nat.
Proof. revert p. induction calls as [|c cs IH]; intros p Hp; cbn; [done|]. by apply IH, sink_queue. Qed.

(** The shard while it polls: [q] is still to come. *)
Definition requeue (x : ShardExecution) (q : list Z) : ShardExecution := with_ctx x (registry x, mkDirty q 0).

(** A participant is written back; it is on the new queue if its flag says so. *)
Lemma put_requeue x k m m' q q' :
  shard_ok (requeue x q) -> live (participants (registry x)) !! k = Some m ->
  pid m' = pid m -> ingress m' = ingress m -> q' ⊆ q -> NoDup q' -> (forall j, j <> k -> j ∈ q -> j ∈ q') ->
  (queued_dirty m' = true <-> k ∈ q') ->
  let y := with_registry x (put (registry x) k m') in
  shard_ok (requeue y q') /\ same_people (registry x) (registry y) /\
  live (participants (registry y)) = <[k := m']> (live (participants (registry x))).
Proof.
  intros [H1 H2 H3 H4 H5 H6 H7 H8] Hk Hp Hi Hsub Hnd Hrest Hd y. destruct H1 as [Hr Hq Hc]. cbn [requeue with_ctx registry dirty fst snd] in Hr, Hq, Hc.
  destruct (put_same (registry x) k m m' Hr Hk Hp Hi) as (Hr' & Hsp & El).
  assert (registry y = put (registry x) k m') as Ey by done. set (r' := put (registry x) k m') in *. clearbody r'.
  rewrite Ey. split_and!; [|done|done]. unfold to_poll in Hq. cbn in Hq. destruct Hq as [Q1 Q2 Q3]. split; try done.
  - split; cbn [requeue with_ctx registry dirty fst snd]; rewrite ?Ey; [done| |done]. unfold to_poll. cbn. split; [done| |].
    + intros j Hj. rewrite (sp_history _ _ Hsp). by apply Q2, Hsub.
    + intros j mj. rewrite El, lookup_insert_Some. intros [[<- <-]|[Hne Hj]]; [done|].
      rewrite (Q3 j mj Hj). split; [by apply Hrest|apply Hsub].
  - intros j t Hj. cbn [requeue with_ctx registry fst]. rewrite Ey, <- (same_people_live _ _ j Hsp). by eapply H3.
  - intros tc Htc. cbn [requeue with_ctx registry fst]. rewrite Ey, (sp_by_id _ _ Hsp). by apply H4.
Qed.

Lemma poll_one_ok x k m q now :
  shard_ok (requeue x (k :: q)) -> live (participants (registry x)) !! k = Some m ->
  exists x', poll_participant x k m now = Some x' /\ shard_ok (requeue x' q) /\ dirty x' = dirty x /\
    same_people (registry x) (registry x') /\
    (forall j, j <> k -> live (participants (registry x')) !! j = live (participants (registry x)) !! j) /\
    connection <$> live (participants (registry x')) !! k = Some (drain_network (poll now (connection m)).1.1).
Proof.
  intros Hx Hk. unfold poll_participant. cbn [set_queued connection].
  destruct (poll now (connection m)) as [[c' calls] deadline] eqn:Epoll. cbn [fst snd].
  assert (participant_id c' = participant_id (connection m)) as Hid
    by (pose proof (poll_identity now (connection m)) as Hid; by rewrite Epoll in Hid).
  set (m1 := with_connection _ _).
  pose proof (qo_nodup _ _ (co_queue _ (so_ctx _ _ Hx))) as Hnd. unfold to_poll in Hnd. cbn in Hnd. apply NoDup_cons in Hnd as [Hkq Hnd].
  destruct (put_requeue x k m m1 (k :: q) q Hx Hk Hid eq_refl) as (H1 & S1 & L1); [set_solver|done|set_solver|done|].
  set (y := with_registry x (put (registry x) k m1)) in *. set (who := mkBinding _ _ _ _).
  set (z := with_pipeline y _). assert (shard_ok (requeue z q)) as Hz.
  { apply (with_pipeline_ok (requeue y q)); [done|]. apply sinks_queue, (so_queue _ _ H1). }
  assert (live (participants (registry z)) !! k = Some m1) as Hk1 by (change (registry z) with (registry y); by rewrite L1, lookup_insert_eq).
  assert (exists z', match deadline with Some d => with_timers z <$> schedule (timers z) k d | None => Some z end = Some z' /\
    shard_ok (requeue z' q) /\ registry z' = registry z /\ dirty z' = dirty x) as (z' & -> & Hz' & Er & Ed).
  { destruct deadline as [d|]; [|by exists z]. destruct (schedule_view (timers z) k d (so_wheel _ _ Hz)) as (w & -> & Hw & Ep & _).
    eexists. split; [done|]. split_and!; [|done|done]. destruct Hz as [Z1 Z2 Z3 Z4 Z5 Z6 Z7 Z8]. split; try done.
    intros j t. cbn [requeue with_ctx with_timers timers registry fst]. rewrite Ep, lookup_insert_Some.
    intros [[<- _]|[_ Hj]]; [by rewrite Hk1|by eapply Z3]. }
  cbn [mbind option_bind]. unfold resolve_mut, slot_get. rewrite Er, Hk1.
  destruct (put_requeue z' k m1 (with_connection drain_network m1) q q Hz') as (H2 & S2 & L2); [by rewrite Er|apply drain_identity|done..|].
  eexists. split; [done|]. rewrite Er in H2, S2, L2. split_and!; [done|done|..].
  - eapply same_people_trans; [exact S1|]. exact S2.
  - intros j Hj. rewrite L2, lookup_insert_ne by done. change (registry z) with (registry y). by rewrite L1, lookup_insert_ne.
  - by rewrite L2, lookup_insert_eq.
Qed.

Definition is_live (x : ShardExecution) (k : Z) : Prop := is_Some (live (participants (registry x)) !! k).
#[export] Instance is_live_dec x k : Decision (is_live x k).
Proof. unfold is_live. apply _. Defined.

Lemma filter_is_live x x' (l : list Z) : same_people (registry x) (registry x') -> filter (is_live x') l = filter (is_live x) l.
Proof. intros Hs. apply list_filter_iff. intros k. unfold is_live. symmetry. by apply same_people_live. Qed.

Lemma skip_dead x k q : shard_ok (requeue x (k :: q)) -> ~ is_live x k -> shard_ok (requeue x q).
Proof.
  intros [H1 H2 H3 H4 H5 H6 H7 H8] Hk. split; try done. destruct H1 as [Hr Hq Hc]. split; [done| |done].
  cbn [requeue with_ctx registry dirty fst snd] in *. unfold to_poll in *. cbn in *. destruct Hq as [Q1 Q2 Q3].
  apply NoDup_cons in Q1 as [Hkq Hnd]. split; [done|intros j Hj; apply Q2; by right|].
  intros j m Hj. rewrite (Q3 j m Hj). set_unfold. split; [|by right]. intros [->|?]; [|done]. exfalso. apply Hk. unfold is_live; by rewrite Hj.
Qed.

(** What a poll made of a participant. *)
Definition polled_as (now : Z) (x x' : ShardExecution) (k : Z) : Prop :=
  forall m, live (participants (registry x)) !! k = Some m ->
    connection <$> live (participants (registry x')) !! k = Some (drain_network (poll now (connection m)).1.1).

Lemma poll_loop_ok budget x q now :
  to_poll (dirty x) = q -> shard_ok (requeue x q) ->
  exists x' polled, poll_loop budget x now = Some (x', polled) /\ shard_ok (requeue x' (drop budget q)) /\
    to_poll (dirty x') = drop budget q /\ same_people (registry x) (registry x') /\
    polled = filter (is_live x) (take budget q) /\
    (forall j, j ∉ polled -> live (participants (registry x')) !! j = live (participants (registry x)) !! j) /\
    (forall j, j ∈ polled -> polled_as now x x' j).
Proof.
  revert x q. induction budget as [|b IH]; intros x q Eq Hx; cbn [poll_loop].
  { exists x, []. split_and!; try done; intros j Hj; by apply elem_of_nil in Hj. }
  unfold dirty_next. destruct q as [|k q].
  { assert (dirty_participants (dirty x) !! cursor (dirty x) = None) as ->.
    { rewrite <- (Nat.add_0_r (cursor (dirty x))), <- lookup_drop. unfold to_poll in Eq. by rewrite Eq. }
    exists x, []. split_and!; try done; intros j Hj; by apply elem_of_nil in Hj. }
  assert (dirty_participants (dirty x) !! cursor (dirty x) = Some k) as ->.
  { rewrite <- (Nat.add_0_r (cursor (dirty x))), <- lookup_drop. unfold to_poll in Eq. by rewrite Eq. }
  set (y := with_ctx x _). assert (to_poll (dirty y) = q) as Eqy.
  { unfold to_poll in *. cbn. rewrite <- Nat.add_1_r, <- drop_drop, Eq. done. }
  unfold resolve_mut, slot_get. change (registry y) with (registry x). destruct (live (participants (registry x)) !! k) as [m|] eqn:Hk.
  - destruct (poll_one_ok y k m q now Hx Hk) as (z & -> & Hz & Ed & Sz & Lz & Cz). cbn [mbind option_bind].
    change (registry y) with (registry x) in *.
    destruct (IH z q) as (x' & polled & -> & H1 & H2 & H3 & H4 & H5 & H6); [by rewrite Ed|done|]. cbn [mbind option_bind].
    rewrite (filter_is_live x z) in H4 by done.
    assert (k ∉ polled) as Hkp.
    { rewrite H4. intros Hkf. apply list_elem_of_filter in Hkf as [_ Hkf]. pose proof (qo_nodup _ _ (co_queue _ (so_ctx _ _ Hx))) as Hnd.
      unfold to_poll in Hnd. cbn in Hnd. apply NoDup_cons in Hnd as [Hn _]. apply Hn. apply elem_of_take in Hkf as (i & Hi & _).
      by eapply list_elem_of_lookup_2. }
    eexists x', (k :: polled). split_and!; [done|done|done|by eapply same_people_trans|..].
    + cbn [take]. rewrite filter_cons_True by by (unfold is_live; rewrite Hk). by rewrite H4.
    + intros j Hj. rewrite H5 by set_solver. apply Lz. set_solver.
    + intros j Hj mj Hmj. destruct (decide (j = k)) as [->|Hne].
      * rewrite H5 by done. rewrite Hmj in Hk. injection Hk as ->. exact Cz.
      * apply H6; [set_solver|]. by rewrite Lz.
  - destruct (IH y q Eqy) as (x' & polled & -> & H1 & H2 & H3 & H4 & H5 & H6).
    { apply (skip_dead y k); [done|]. unfold is_live. change (registry y) with (registry x). by rewrite Hk. }
    change (registry y) with (registry x) in *. exists x', polled. split_and!; try done.
    cbn [take]. rewrite filter_cons_False by by (unfold is_live; rewrite Hk). done.
Qed.

(** Firing timers, polling, and what is left for the next phase. *)
Lemma poll_phase_ok x budget now :
  shard_ok x -> last_now (timers x) <= now <= epoch (timers x) + HORIZON ->
  exists w fired y x' polled, drain_expired (timers x) now = Some (w, fired) /\ fire_timers x now = Some y /\
    evolves (ctx x) (ctx y) /\
    let queue := foldl enqueue (to_poll (dirty x)) fired in
    poll_and_flush_dirty x budget now = Some (x', polled) /\ shard_ok x' /\
    polled = filter (is_live x) (take budget queue) /\ to_poll (dirty x') = drop budget queue /\
    (forall j, j ∉ polled -> live (participants (registry x')) !! j = live (participants (registry y)) !! j) /\
    (forall j, j ∈ polled -> polled_as now y x' j).
Proof.
  intros Hx Hnow. destruct (fire_ok x now Hx Hnow) as (w & fired & y & Ew & Ey & Hy & Hev & _ & _ & _ & Eq).
  exists w, fired, y. assert (shard_ok (requeue y (to_poll (dirty y)))) as Hry.
  { destruct Hy as [H1 H2 H3 H4 H5 H6 H7 H8]. split; try done. destruct H1 as [Hr Hq Hc]. by split. }
  destruct (poll_loop_ok budget y (to_poll (dirty y)) now eq_refl Hry) as (z & polled & Ez & H1 & H2 & H3 & H4 & H5 & H6).
  rewrite Eq in *. unfold poll_and_flush_dirty. rewrite Ey. cbn [mbind option_bind]. rewrite Ez. cbn [mbind option_bind].
  eexists _, polled. split_and!; [done|done|done|done|..].
  - assert ((if exhausted (dirty z) then finish_phase (dirty z) else finish_partial (dirty z)) = mkDirty (drop budget (foldl enqueue (to_poll (dirty x)) fired)) 0) as ->; [|done].
    unfold exhausted, finish_phase, finish_partial. unfold to_poll in H2 at 1. rewrite <- H2.
    destruct (Nat.leb_spec (length (dirty_participants (dirty z))) (cursor (dirty z))); [|done]. by rewrite drop_ge.
  - rewrite H4. apply filter_is_live, Hev.
  - cbn. unfold exhausted, finish_phase, finish_partial, to_poll in *. destruct (Nat.leb_spec (length (dirty_participants (dirty z))) (cursor (dirty z))); cbn.
    + rewrite <- H2. by rewrite drop_ge.
    + by rewrite drop_0.
  - done.
  - done.
Qed.
End ShardLaws.
