(* ===== verification/ShardRun.v ===== *)
(** * Runs of a shard

    A run is any sequence of the things that happen to a shard: commands and
    update operations from the control plane, datagrams, frames of other shards,
    TCP events, flushes and polls. The theorems say that no run aborts the
    shard, that it keeps the invariant of [ShardLaws], that nobody who has work
    to do is forgotten and how long it waits, and that incarnations of a
    participant follow each other without overlap. *)

From S2P Require Import Prelude Route Clock RouteRuntime Demux Timer TimerRefine Rtp PacketCache.
From S2P Require Import Ufrag Steer ShardUpdate UpdateApply ShardParts Router Shard ShardLaws.

#[local] Arguments drain_expired : simpl never.

Section ShardRun.
Context {PT : ParticipantTypes} {CO : ConnectionOps} {CL : ConnectionLaws} {SK : SlotKeys} {SL : SlotKeysLaws}.

Inductive shard_op :=
| OpCommand (cmd : ShardCommand)
| OpEffect (p : Z) (e : ParticipantEffect)
| OpPlan (op : @ShardUpdate.TrackPlanUpdate Z Z)
| OpLifecycle (op : @ShardUpdate.ShardUpdateOp Z Z TrackKind SourceEncoding ParticipantEffect)
| OpDatagram (b : RecvPacketBatch)
| OpFrame (f : ShardFrame) (now : Z)
| OpTcp (e : TcpIngress)
| OpFlush (budget : nat)
| OpEvents (budget : nat)
| OpPoll (budget : nat) (now : Z)
| OpClose
| OpObserve (at_ : ReceiveTime).

(** The new state and the participants it polled. *)
Definition shard_step (x : ShardExecution) (op : shard_op) : option (ShardExecution * list Z) :=
  match op with
  | OpCommand cmd => '(x, _) ← on_command x cmd; Some (x, [])
  | OpEffect p e => Some ((shard_effect x p e).1, [])
  | OpPlan op => Some ((shard_plan x op).1, [])
  | OpLifecycle op => x ← shard_lifecycle_op x op; Some (x, [])
  | OpDatagram b => '(x, _) ← on_udp_batch_routed x b; Some (x, [])
  | OpFrame f now => '(x, _) ← on_shard_frame x f now; Some (x, [])
  | OpTcp e => Some ((on_tcp_ingress x e).1, [])
  | OpFlush budget => Some ((flush_stream_buffers budget x).1, [])
  | OpEvents budget => Some ((flush_participant_events budget x).1, [])
  | OpPoll budget now => poll_and_flush_dirty x budget now
  | OpClose => Some (with_registry x (drain_pending_close (registry x)).1, [])
  | OpObserve at_ => Some (with_wall x (observe_execution (wall x) at_).1, [])
  end.

(** The clock does not go back, and stays in the century the wheel can count. *)
Definition op_ok (x : ShardExecution) (op : shard_op) : Prop :=
  match op with
  | OpPoll _ now => last_now (timers x) <= now <= epoch (timers x) + HORIZON
  | _ => True
  end.

Definition is_poll (op : shard_op) : bool := match op with OpPoll _ _ => true | _ => false end.
Definition binds_source (op : shard_op) : bool := match op with OpLifecycle op => is_insert_track op | _ => false end.

Inductive reachable : ShardExecution -> Prop :=
| reach_new shard gso count w now : reachable (execution_new shard gso count w now)
| reach_step x op x' polled : reachable x -> op_ok x op -> shard_step x op = Some (x', polled) -> reachable x'.

Lemma new_shard_ok shard gso count w now : shard_ok (execution_new shard gso count w now).
Proof.
  split; cbn -[pending wheel_new]; try done.
  - split; [|split; [constructor|done|done]|done]. split; cbn; try done.
    + intros p h. rewrite lookup_empty. split; [done|]. intros (m & Hm & _). done.
    + eexists. apply rep_empty.
  - apply wheel_new_inv.
  - intros tc Htc. by apply elem_of_nil in Htc.
  - unfold PENDING_REPLACEMENTS. lia.
  - split; cbn; try done.
    intros t h. rewrite lookup_empty. split; [done|]. intros (m & Hm & _). done.
  - unfold PARTICIPANT_CAPACITY_HINT. lia.
Qed.

Lemma step_ok x op :
  shard_ok x -> op_ok x op ->
  exists x' polled, shard_step x op = Some (x', polled) /\ shard_ok x' /\
    (is_poll op = false -> polled = [] /\ (binds_source op = false -> wakes (registry x, dirty x) (registry x', dirty x'))).
Proof.
  intros Hx Hop. destruct op as [cmd|p e|op|op|b|f now|e|budget|budget|budget now| |at_]; cbn [shard_step].
  - destruct (command_settles x cmd Hx) as (y & s & -> & H1 & H2). eauto 10.
  - destruct (effect_settles x p e Hx) as (y & s & E & H1 & H2). injection E as ->. eauto 10.
  - destruct (plan_settles x op Hx) as (y & s & E & H1 & H2). injection E as ->. eauto 10.
  - destruct (lifecycle_ok x op Hx) as (y & -> & H1 & H2). eauto 10.
  - destruct (udp_settles x b Hx) as (y & s & -> & H1 & H2). eauto 10.
  - destruct (frame_settles x f now Hx) as (y & s & -> & H1 & H2). eauto 10.
  - destruct (tcp_settles x e Hx) as (y & s & E & H1 & H2). injection E as ->. eauto 10.
  - pose proof (flush_ok budget x Hx) as Hf. destruct (flush_stream_buffers budget x) as [y s]. destruct Hf as [H1 [_ _ H2]]. eauto 10.
  - pose proof (events_ok budget x Hx) as Hf. destruct (flush_participant_events budget x) as [y s]. destruct Hf as [H1 [_ _ H2]]. eauto 10.
  - destruct (poll_phase_ok x budget now Hx Hop) as (w & fired & y & x' & polled & _ & _ & _ & E & H1 & _). rewrite E.
    exists x', polled. by split_and!.
  - eexists _, _. split; [done|]. assert (shard_ok (with_registry x (drain_pending_close (registry x)).1)) as Hy.
    { destruct Hx as [[[R1 R2 R3 R4] [Q1 Q2 Q3] Hc] H2 H3 H4 H5 H6 H7 H8]. by split. }
    split; [done|]. intros _. split; [done|]. intros _. split; [done|]. intros k m m' H1 H2. left. cbn in *. congruence.
  - eexists _, _. split; [done|]. assert (shard_ok (with_wall x (observe_execution (wall x) at_).1)) as Hy.
    { destruct Hx as [H1 H2 H3 H4 H5 H6 H7 H8]. by split. }
    split; [done|]. intros _. split; [done|]. intros _. apply wakes_refl.
Qed.

Lemma reachable_ok x : reachable x -> shard_ok x.
Proof.
  induction 1 as [|x op x' polled _ IH Hop E]; [apply new_shard_ok|].
  destruct (step_ok x op IH Hop) as (y & p & E' & Hy & _). congruence.
Qed.

(** ** Waiting to be polled *)

(** The runs from a state, with the states in between. *)
Fixpoint shard_run (x : ShardExecution) (ops : list shard_op) : option ShardExecution :=
  match ops with
  | [] => Some x
  | op :: ops => '(x, _) ← shard_step x op; shard_run x ops
  end.

Fixpoint ops_ok (x : ShardExecution) (ops : list shard_op) : Prop :=
  match ops with
  | [] => True
  | op :: ops => op_ok x op /\ match shard_step x op with Some (x', _) => ops_ok x' ops | None => False end
  end.

Definition poll_budget (op : shard_op) : nat := match op with OpPoll b _ => b | _ => 0%nat end.

(** [k] is polled at that point of the run, unless it has left. *)
Definition reached (x : ShardExecution) (ops : list shard_op) (k : Z) : Prop :=
  exists ops1 b now ops2 y y' polled, ops = ops1 ++ OpPoll b now :: ops2 /\ shard_run x ops1 = Some y /\
    poll_and_flush_dirty y b now = Some (y', polled) /\ (is_live y k -> k ∈ polled).

Lemma enqueue_prefix ks q : q `prefix_of` foldl enqueue q ks.
Proof.
  revert q. induction ks as [|k ks IH]; intros q; cbn; [done|]. etransitivity; [|apply IH].
  unfold enqueue. case_decide; [done|by apply prefix_app_r].
Qed.

Lemma bound_step_prefix x t r :
  shard_ok x -> to_poll (dirty (insert_track_runtime x t r)) = to_poll (dirty x).
Proof.
  intros _. unfold insert_track_runtime. destruct (install_track _ _ _ _ _) as [rt h].
  destruct (ShardUpdate.publisher r); [|done]. destruct (ShardUpdate.publisher_effect r); [|done].
  destruct (resolve_id _ _); [|done]. by destruct (resolve_mut _ _).
Qed.

Lemma step_prefix x op x' polled :
  shard_ok x -> op_ok x op -> is_poll op = false -> shard_step x op = Some (x', polled) ->
  to_poll (dirty x) `prefix_of` to_poll (dirty x').
Proof.
  intros Hx Hop Hp E. destruct (step_ok x op Hx Hop) as (y & p & E' & _ & Hw). rewrite E in E'. injection E' as <- <-.
  destruct (Hw Hp) as [_ Hw']. destruct (binds_source op) eqn:Eb; [|by destruct (Hw' eq_refl)].
  destruct op as [| | |op| | | | | | | |]; try done. destruct op as [| | | |t r| |]; try done.
  cbn in E. injection E as <- <-. by rewrite bound_step_prefix.
Qed.

Lemma queue_reached ops x i k :
  shard_ok x -> ops_ok x ops -> to_poll (dirty x) !! i = Some k -> (i < sum_list_with poll_budget ops)%nat -> reached x ops k.
Proof.
  revert x i. induction ops as [|op ops IH]; intros x i Hx Hops Hi Hsum; cbn in Hsum; [lia|].
  destruct Hops as [Hop Hrest]. destruct (shard_step x op) as [[x' pol]|] eqn:E; [|done].
  assert (forall j, shard_ok x' -> to_poll (dirty x') !! j = Some k -> (j < sum_list_with poll_budget ops)%nat -> reached x (op :: ops) k) as Hgo.
  { intros j Hx' Hj Hlt. destruct (IH x' j Hx' Hrest Hj Hlt) as (o1 & b & nw & o2 & y & y' & pl & -> & Hrun & Hpoll & Hlive).
    exists (op :: o1), b, nw, o2, y, y', pl. split_and!; try done. cbn. by rewrite E. }
  destruct (is_poll op) eqn:Ep.
  - destruct op as [| | | | | | | | |b now| |]; try done. cbn [shard_step] in E. cbn [poll_budget] in Hsum.
    destruct (poll_phase_ok x b now Hx Hop) as (w & fired & y & x1 & polled & _ & _ & Hev & E' & Hx1 & Epol & Eq & _).
    rewrite E in E'. injection E' as <- <-.
    assert (foldl enqueue (to_poll (dirty x)) fired !! i = Some k) as Hi' by (eapply prefix_lookup_Some; [exact Hi|apply enqueue_prefix]).
    destruct (decide (i < b)%nat) as [Hlt|Hge].
    + exists [], b, now, ops, x, x', pol. split_and!; try done. intros Hl. rewrite Epol. apply list_elem_of_filter. split; [done|].
      apply elem_of_take. by exists i.
    + apply (Hgo (i - b)%nat); [done| |lia]. rewrite Eq, lookup_drop. by replace (b + (i - b))%nat with i by lia.
  - destruct (step_ok x op Hx Hop) as (y & p & E' & Hy & _). rewrite E in E'. injection E' as <- <-.
    apply (Hgo i); [done| |destruct op; cbn in Hsum; try done; lia].
    eapply prefix_lookup_Some; [exact Hi|]. by eapply step_prefix.
Qed.

(** ** What a delivery does *)

Lemma deliver_live r d k f m :
  live (participants r) !! k = Some m ->
  live (participants (deliver (r, d) k f).1) = <[k := set_queued true (with_connection f m)]> (live (participants r)).
Proof.
  intros Hm. unfold deliver, resolve_mut, slot_get. rewrite Hm. unfold mark.
  assert (forall m', live (slot_set (participants r) k m') = <[k := m']> (live (participants r))) as Hs.
  { intros m'. unfold slot_set. by rewrite decide_True by by rewrite Hm. }
  destruct (queued_dirty (with_connection f m)) eqn:E; cbn; rewrite Hs; [|done].
  f_equal. unfold set_queued, with_connection in *. cbn in *. by rewrite E.
Qed.

Lemma give_live x k f m :
  live (participants (registry x)) !! k = Some m ->
  live (participants (registry (give x k f))) = <[k := set_queued true (with_connection f m)]> (live (participants (registry x))).
Proof. apply deliver_live. Qed.

Lemma give_changes x k f m :
  shard_ok x -> keeps_identity f -> live (participants (registry x)) !! k = Some m ->
  connection <$> live (participants (registry (give x k f))) !! k = Some (f (connection m)) /\ k ∈ to_poll (dirty (give x k f)) /\
  (forall j, j <> k -> live (participants (registry (give x k f))) !! j = live (participants (registry x)) !! j).
Proof.
  intros Hx Hf Hm. rewrite (give_live x k f m Hm). split_and!.
  - by rewrite lookup_insert_eq.
  - rewrite give_queue; [|done|by rewrite Hm]. unfold enqueue. case_decide; [done|set_solver].
  - intros j Hj. by rewrite lookup_insert_ne.
Qed.

Lemma resolve_transport_live x a k :
  shard_ok x -> resolve_transport (registry x) a = Some k ->
  exists m, live (participants (registry x)) !! k = Some m /\ ingress m = a.
Proof.
  intros Hx. unfold resolve_transport. destruct (transports _ !! _) as [[[a' k']|]|] eqn:E; try done. case_decide; [|done].
  intros [= ->]. destruct (ro_transports _ (co_registry _ (so_ctx _ _ Hx)) _ _ _ E) as (_ & m & Hm & Hi). exists m. subst. done.
Qed.

Lemma learned_is_cached src a L :
  (fst <$> find_addr src (lru_learn (SocketAddr := Z) src a L)) = Some a.
Proof.
  unfold lru_learn, lru_insert, find_addr. destruct (list_to_map L !! src) as [[old auth]|]; [case_decide|]; cbn; by rewrite lookup_insert_eq.
Qed.

(** A source that was learned resolves to its address when a datagram names none. *)
Lemma demux_learned r d0 L a b :
  rep d0 L -> demuxer r = learn d0 (batch_src b) a -> named_address (scope_of d0) (batch_data b) = None ->
  exists d, reg_demux r b = Some (with_demuxer r d, Some a).
Proof.
  intros HL Ed Hn. pose proof (learn_refines _ _ (batch_src b) a HL) as HL'.
  destruct (demux_refines _ _ (batch_src b) (batch_data b) HL') as (d & E & _). exists d.
  unfold reg_demux. rewrite Ed, E. cbn [mbind option_bind]. do 2 f_equal. unfold lru_demux. rewrite scope_learn, Hn. cbn. apply learned_is_cached.
Qed.

Lemma give_frame x k f :
  demuxer (registry (give x k f)) = demuxer (registry x) /\ transports (registry (give x k f)) = transports (registry x) /\
  shard_id (give x k f) = shard_id x.
Proof. unfold give, deliver, resolve_mut, slot_get. destruct (live _ !! k); [|done]. unfold mark. by destruct (queued_dirty _). Qed.

(** ** Theorems *)

(** C2. No run aborts a shard or breaks its invariant: whatever commands,
    updates, datagrams, frames and TCP events arrive in whatever order, every
    operation completes, handles and identities stay a bijection, an installed
    transport leads to a live participant with that address, a participant is
    queued for polling exactly when its flag says so and at most once, every
    armed timer belongs to a live participant, and every waiting replacement
    has an incarnation to replace. *)
Theorem shard_invariant_in_every_run x op :
  reachable x -> op_ok x op -> shard_ok x /\ exists x' polled, shard_step x op = Some (x', polled) /\ shard_ok x'.
Proof.
  intros Hr Hop. pose proof (reachable_ok x Hr) as Hx. split; [done|].
  destruct (step_ok x op Hx Hop) as (x' & polled & E & Hx' & _). eauto.
Qed.

(** Nobody with work to do is forgotten: an operation that changes what a
    participant's connection has to do leaves the participant queued for
    polling, and keeps everybody's place in the queue. The exception is the
    binding of a track's source, which needs no poll. *)
Theorem changed_participants_are_queued x op x' polled k m m' :
  reachable x -> op_ok x op -> shard_step x op = Some (x', polled) -> is_poll op = false -> binds_source op = false ->
  live (participants (registry x)) !! k = Some m -> live (participants (registry x')) !! k = Some m' ->
  to_poll (dirty x) `prefix_of` to_poll (dirty x') /\ (connection m' = connection m \/ k ∈ to_poll (dirty x')).
Proof.
  intros Hr Hop E Hp Hb Hm Hm'. destruct (step_ok x op (reachable_ok x Hr) Hop) as (y & p & E' & _ & Hw).
  rewrite E in E'. injection E' as <- <-. destruct (Hw Hp) as [_ Hw']. destruct (Hw' Hb) as [H1 H2]. split; [done|]. by eapply H2.
Qed.

(** C13. Being queued leads to being polled: whatever happens in between, a
    participant at position [i] of the queue is polled by the time the polls
    of the run have had a budget of more than [i] turns, unless it has left. *)
Theorem queued_participants_are_polled x ops i k :
  reachable x -> ops_ok x ops -> to_poll (dirty x) !! i = Some k -> (i < sum_list_with poll_budget ops)%nat -> reached x ops k.
Proof. intros Hr. by apply queue_reached, reachable_ok. Qed.

(** A datagram that lands on the wrong shard reaches its owner, and the
    flow's later ones do without a detour: the first shard hands it on to the
    shard its address names and touches no participant, the owner gives it to
    the one participant that has this address and queues it, and the next
    datagram of the source, even one that names no address, finds the same
    participant on the owner directly. *)
Theorem misdirected_flow_moves_to_its_owner x b x' dst frame rest y now k :
  reachable x -> reachable y -> on_udp_batch_routed x b = Some (x', (dst, frame) :: rest) -> shard_id y = dst ->
  exists a, frame = Ingress b a (shard_id x) /\ rest = [] /\ dst = transport_shard a /\ dst <> shard_id x /\
    participants (registry x') = participants (registry x) /\
    (resolve_transport (registry y) a = Some k ->
     exists m y', live (participants (registry y)) !! k = Some m /\ ingress m = a /\
       on_shard_frame y frame now = Some (y', []) /\ k ∈ to_poll (dirty y') /\
       connection <$> live (participants (registry y')) !! k = Some (input (InNetwork b (shard_id x)) (connection m)) /\
       (forall j, j <> k -> live (participants (registry y')) !! j = live (participants (registry y)) !! j) /\
       forall later, batch_src later = batch_src b -> named_address (scope_of (demuxer (registry y))) (batch_data later) = None ->
         exists y'', on_udp_batch_routed y' later = Some (y'', []) /\
           connection <$> live (participants (registry y'')) !! k =
             Some (input (InNetwork later dst) (input (InNetwork b (shard_id x)) (connection m)))).
Proof.
  intros Hx Hy E Ey. unfold on_udp_batch_routed in E. destruct (reg_demux (registry x) b) as [[r o]|] eqn:Ed; [|done]. cbn [mbind option_bind] in E.
  destruct o as [a|]; [|done]. destruct (Z.eqb_spec (transport_shard a) (shard_id (with_registry x r))) as [|Hne]; [done|].
  injection E as <- <- <- <-. exists a. cbn in Hne. split_and!; try done.
  { unfold reg_demux in Ed. destruct (demux _ _ _) as [[d o]|]; [|done]. by injection Ed as <- _. }
  intros Hk. pose proof (reachable_ok y Hy) as Hyo. destruct (resolve_transport_live y a k Hyo Hk) as (m & Hm & Hi).
  exists m. cbn [on_shard_frame]. rewrite Hk. set (z := with_registry y _).
  assert (resolve_transport (registry z) a = Some k) as Hkz by exact Hk. unfold on_owned_udp_batch. rewrite Hkz.
  assert (shard_ok z) as Hz by by apply learn_ok.
  destruct (give_changes z k (input (InNetwork b (shard_id x))) m Hz (keeps_input _) Hm) as (G1 & G2 & G3).
  destruct (give_ok _ z k (input (InNetwork b (shard_id x))) Hz (keeps_input _)) as [Hg _].
  destruct (give_frame z k (input (InNetwork b (shard_id x)))) as (F1 & F2 & F3).
  set (y' := give z k _) in *. exists y'. split_and!; try done.
  intros later Hsrc Hn. destruct (ro_demux _ (co_registry _ (so_ctx _ _ Hyo))) as [L HL]. cbn in HL.
  destruct (demux_learned (registry y') (demuxer (registry y)) L a later HL) as [d Ed']; [by rewrite F1, Hsrc|done|].
  unfold on_udp_batch_routed. rewrite Ed'. cbn [mbind option_bind]. cbn [with_registry with_ctx shard_id]. rewrite F3.
  change (shard_id z) with (shard_id y). rewrite Ey, Z.eqb_refl. eexists. split; [done|].
  unfold on_owned_udp_batch. assert (resolve_transport (registry (with_registry y' (with_demuxer (registry y') d))) a = Some k) as ->.
  { unfold resolve_transport. cbn [with_registry with_ctx registry fst with_demuxer transports]. rewrite F2. exact Hkz. }
  apply fmap_Some in G1 as (m1 & Hm1 & Ec). rewrite (give_live _ k _ m1) by exact Hm1. rewrite lookup_insert_eq. cbn. by rewrite <- Ec.
Qed.

(** Incarnations of a participant do not overlap: a new one that arrives
    while the old one is there waits and changes nobody, and takes its place,
    under a handle never used before, exactly when the old one is removed; it
    is then queued, reachable under its own address, and the old handle is
    dead. *)
Theorem incarnations_do_not_overlap x t cfg h m :
  reachable x -> live (participants (registry x)) !! h = Some m -> participant_id (connection m) = config_participant cfg ->
  ingress m <> t -> (length (pending_replacements x) < PENDING_REPLACEMENTS)%nat ->
  Forall (fun tc => config_participant tc.2 <> config_participant cfg) (pending_replacements x) ->
  exists x1 x2 k, on_command x (MaterializeParticipant t cfg) = Some (x1, Some true) /\ registry x1 = registry x /\
    shard_lifecycle_op x1 (RemoveParticipant (config_participant cfg) (ingress m)) = Some x2 /\
    by_id (registry x2) = <[config_participant cfg := k]> (by_id (registry x)) /\ ~ is_live x k /\ ~ is_live x2 h /\
    present x2 (config_participant cfg) t k /\ k ∈ to_poll (dirty x2) /\ resolve_transport (registry x2) t = Some k.
Proof.
  intros Hr Hm Hp Hi Hlen Hno. pose proof (reachable_ok x Hr) as Hx. cbn [on_command].
  pose proof (by_id_of _ _ _ (co_registry _ (so_ctx _ _ Hx)) Hm) as Hid. unfold pid in Hid. cbn in Hid. rewrite Hp in Hid.
  unfold resolve_id. rewrite Hid. rewrite (proj2 (Nat.leb_gt _ _)) by done.
  set (x1 := with_pending x _). exists x1.
  assert (shard_ok x1) as Hx1.
  { destruct (command_settles x (MaterializeParticipant t cfg) Hx) as (y & s & E & Hy & _). cbn [on_command] in E.
    unfold resolve_id in E. rewrite Hid, (proj2 (Nat.leb_gt _ _)) in E by done. by injection E as <- _. }
  assert (present x1 (config_participant cfg) (ingress m) h) as Hpres by by exists m.
  destruct (remove_present x1 _ _ h Hx1 Hpres) as (x2 & E2 & _ & _ & Hdead & Htake).
  assert (take_replacement (config_participant cfg) (still_waiting x1 (config_participant cfg) (ingress m)) =
          Some (t, cfg, still_waiting x (config_participant cfg) (ingress m))) as Et.
  { unfold still_waiting. cbn [x1 with_pending pending_replacements]. rewrite filter_app, filter_cons_True by (left; cbn; congruence).
    rewrite filter_nil. unfold take_replacement. rewrite list_find_app_r.
    - cbn. rewrite decide_True by done. cbn. do 2 f_equal. rewrite take_app_length.
      rewrite drop_app_ge by lia. match goal with |- context [drop ?n [_]] => replace n with 1%nat by lia end. cbn. by rewrite app_nil_r.
    - apply list_find_None, Forall_forall. intros tc Htc. apply list_elem_of_filter in Htc as [_ Htc]. rewrite Forall_forall in Hno. by apply Hno. }
  rewrite Et in Htake. destruct Htake as (_ & k & H1 & H2 & H3 & H4 & H5). exists x2, k. split_and!; try done.
  - unfold is_live. change (registry x1) with (registry x) in H5. rewrite H5. by intros [? ?].
  - unfold is_live. rewrite Hdead. by intros [? ?].
Qed.
End ShardRun.

(** ** A small shard

    Connections that count their inputs and ask to be polled a millisecond
    later; keys that are counted up. *)

Definition counted_keys (h : list SlotEvent) : Z := foldr Z.max 0 (issued h) + 1.

Lemma below_max l k : k ∈ l -> k <= foldr Z.max 0 l.
Proof. induction 1 as [l|k j l Hk IH]; cbn; lia. Qed.

#[export] Instance demo_keys : SlotKeys := counted_keys.
#[export] Instance demo_keys_laws : SlotKeysLaws.
Proof. intros h Hk. apply below_max in Hk. unfold next_key, demo_keys, counted_keys in Hk. lia. Qed.

#[export] Instance demo_types : ParticipantTypes := {|
  Connection := Z * Z; ConnectionConfig := Z; Track := Z; TrackMeta := Z; TrackSelector := Z; SelectionPolicy := Z;
  TcpFlow := FlowRoute; TcpPacket := FlowRoute;
  track_of := id; without_reverse := id; flow_route := id; packet_route := id |}.

#[export] Instance demo_connection : @ConnectionOps demo_types :=
  let count (c : Z * Z) : Z * Z := (c.1, c.2 + 1) in {|
  config_participant := (id : Z -> Z);
  connection_new cfg _ _ := (cfg, 0);
  participant_id := (fst : Z * Z -> Z); connection_id := (fst : Z * Z -> Z); room_id _ := 0;
  input _ := count; apply_effect _ _ := count; native_rtp_demand _ _ := count; native_ready := count;
  bind_tcp_flow _ c := (count c, true); enqueue_tcp _ c := (count c, true); retire_tcp_flow _ := count;
  poll now c := (c, [], Some (now + 1000000)); drain_network c := c |}.

#[export] Instance demo_connection_laws : @ConnectionLaws demo_types demo_connection.
Proof. by split. Qed.

Definition demo_transport (shard slot epoch : Z) : NodeTransportAddress :=
  mkNodeTransportAddress (mkTransportRoute (mkPackedRoute (Z.lor (Z.shiftl shard 20) slot))) epoch.

Definition demo_config (p : Z) : @ConnectionConfig demo_types := p.

(** Shard 1 with participants 7 and 8. *)
Definition demo_ops : list shard_op :=
  [OpCommand (MaterializeParticipant (demo_transport 1 3 5) (demo_config 7)); OpCommand (MaterializeParticipant (demo_transport 1 4 5) (demo_config 8))].
Definition demo_shard : ShardExecution :=
  default (execution_new 1 4 4 (anchor_new 0 0) 0) (shard_run (execution_new 1 4 4 (anchor_new 0 0) 0) demo_ops).

Lemma run_reachable ops x y : reachable x -> ops_ok x ops -> shard_run x ops = Some y -> reachable y.
Proof.
  revert x. induction ops as [|op ops IH]; intros x Hx Hok Hr; cbn in *; [by injection Hr as <-|].
  destruct Hok as [Hop Hok]. destruct (shard_step x op) as [[x' p]|] eqn:E; [|done]. cbn in Hr.
  apply (IH x'); [by eapply reach_step|done|done].
Qed.

Lemma demo_reachable : reachable demo_shard.
Proof. apply (run_reachable demo_ops (execution_new 1 4 4 (anchor_new 0 0) 0)); [constructor|by vm_compute|by vm_compute]. Qed.

(** A connectivity check for participant 8, which another shard receives. *)
Definition demo_check : RecvPacketBatch :=
  mkBatch 99 1 (stun_message 1 (replicate 12 7)
    [mkAttr USERNAME_ATTRIBUTE_TYPE
       (default [] (control.encode (control.mkIceUfrag 0 0 (transport_route (demo_transport 1 4 5)) 5)) ++ [58; 99]) [0; 0]]).
Definition demo_other : ShardExecution := execution_new 0 4 4 (anchor_new 0 0) 0.

Definition demo_handed : ShardExecution * list (ShardId * ShardFrame) :=
  default (demo_other, []) (on_udp_batch_routed demo_other demo_check).

Lemma shard_invariant_in_every_run_witness :
  shard_ok demo_shard /\ exists x' polled, shard_step demo_shard (OpPoll 64 5000000) = Some (x', polled) /\ shard_ok x'.
Proof. apply (shard_invariant_in_every_run demo_shard (OpPoll 64 5000000)); [exact demo_reachable|by vm_compute]. Defined.

(** Participant 7 is at the front; after this, participant 8 has been polled
    and then told that its session is ready. *)
Definition demo_ready : ShardExecution :=
  default demo_shard (shard_run demo_shard [OpPoll 64 1000000; OpCommand (NativeReady 8 8)]).

Lemma changed_participants_are_queued_witness :
  to_poll (dirty demo_ready) = [2].
Proof.
  set (x := default demo_shard (shard_run demo_shard [OpPoll 64 1000000])).
  assert (reachable x) as Hx by (apply (run_reachable [OpPoll 64 1000000] demo_shard); [exact demo_reachable|by vm_compute|by vm_compute]).
  destruct (changed_participants_are_queued x (OpCommand (NativeReady 8 8)) demo_ready [] 2
    (@mkMeta demo_types (8, 0) false (demo_transport 1 4 5)) (@mkMeta demo_types (8, 1) true (demo_transport 1 4 5)) Hx I) as [_ [E|Hk]];
    [by vm_compute..|done|by vm_compute].
Defined.

Lemma queued_participants_are_polled_witness :
  reached demo_shard [OpCommand (NativeReady 7 7); OpPoll 1 1000000; OpClose; OpPoll 1 1000000] 2.
Proof.
  apply (queued_participants_are_polled demo_shard _ 1); [exact demo_reachable|by vm_compute|by vm_compute|].
  vm_compute. lia.
Defined.

Lemma misdirected_flow_moves_to_its_owner_witness :
  exists a m y', demo_handed.2 = [(1, Ingress demo_check a 0)] /\ a = demo_transport 1 4 5 /\
    live (participants (registry demo_shard)) !! 2 = Some m /\
    on_shard_frame demo_shard (Ingress demo_check a 0) 0 = Some (y', []) /\ 2 ∈ to_poll (dirty y').
Proof.
  destruct (misdirected_flow_moves_to_its_owner demo_other demo_check demo_handed.1 1
    (Ingress demo_check (demo_transport 1 4 5) 0) [] demo_shard 0 2) as (a & Ea & _ & _ & _ & _ & Hgo);
    [constructor|exact demo_reachable|by vm_compute|by vm_compute|]. injection Ea as <-.
  destruct Hgo as (m & y' & Hm & _ & Hf & Hq & _); [by vm_compute|].
  exists (demo_transport 1 4 5), m, y'. split_and!; [by vm_compute|done|done|done|done].
Defined.

Lemma incarnations_do_not_overlap_witness :
  exists x1 x2 k, on_command demo_shard (MaterializeParticipant (demo_transport 1 9 1) (demo_config 7)) = Some (x1, Some true) /\
    shard_lifecycle_op x1 (RemoveParticipant 7 (demo_transport 1 3 5)) = Some x2 /\
    resolve_transport (registry x2) (demo_transport 1 9 1) = Some k /\ ~ is_live x2 1.
Proof.
  destruct (incarnations_do_not_overlap demo_shard (demo_transport 1 9 1) (demo_config 7) 1
    (@mkMeta demo_types (7, 0) true (demo_transport 1 3 5))) as (x1 & x2 & k & H1 & _ & H2 & _ & _ & H3 & _ & _ & H4);
    [exact demo_reachable|by vm_compute|by vm_compute|by vm_compute|by vm_compute; lia|constructor|].
  exists x1, x2, k. done.
Defined.
