(* ===== verification/Forwarding.v ===== *)
(** * Media between participants and shards

    The forwarding path end to end: a packet of a track reaches every subscriber
    of its plan on this shard once, and every other shard of the plan as one
    numbered frame; on the other shard the route, the playout time and the
    subscribers are recovered. The numbering is shared by all the shards a
    track goes to; [link_loss_counts_siblings] computes what each of them then
    counts as lost. *)

From S2P Require Import Prelude Route Clock RouteRuntime Demux Timer TimerRefine Rtp PacketCache.
From S2P Require Import ShardUpdate UpdateApply ShardParts Router Shard ShardLaws ShardRun.

#[local] Arguments drain_expired : simpl never.

Section Forwarding.
Context {PT : ParticipantTypes} {CO : ConnectionOps} {CL : ConnectionLaws} {SK : SlotKeys} {SL : SlotKeysLaws}.

Abbreviation people c := (live (participants (fst c))).
Abbreviation ctx_of x := (registry x, dirty x).

(** ** Delivery to a list of subscribers *)

Lemma deliver_dead r d k f : live (participants r) !! k = None -> deliver (r, d) k f = (r, d).
Proof. intros Hm. unfold deliver, resolve_mut, slot_get. by rewrite Hm. Qed.

(** Subscribers take the input once and are queued, nobody else changes. *)
Lemma deliver_each ks f c :
  NoDup ks ->
  forall k, people (foldl (fun c k => deliver c k f) c ks) !! k =
    (if decide (k ∈ ks) then (fun m => set_queued true (with_connection f m)) <$> people c !! k else people c !! k).
Proof.
  revert c. induction ks as [|j ks IH]; intros [r d] Hnd k; cbn [foldl]; [by rewrite decide_False by (by intros ?%elem_of_nil)|].
  apply NoDup_cons in Hnd as [Hj Hnd]. rewrite IH by done.
  assert (people (deliver (r, d) j f) !! k =
    if decide (k = j) then (fun m => set_queued true (with_connection f m)) <$> live (participants r) !! k else live (participants r) !! k) as ->.
  { destruct (live (participants r) !! j) as [m|] eqn:Hm.
    - rewrite (deliver_live r d j f m Hm). case_decide; [subst; by rewrite lookup_insert_eq, Hm|by rewrite lookup_insert_ne].
    - rewrite deliver_dead by done. case_decide; [subst; by rewrite Hm|done]. }
  destruct (decide (k = j)) as [->|Hne].
  - rewrite decide_False by done. by rewrite decide_True by by left.
  - destruct (decide (k ∈ ks)); [by rewrite decide_True by by right|]. rewrite decide_False; [done|]. set_solver.
Qed.

(** ** The frames of one packet *)

Lemma fanout_remotes_lookup remotes seq playout payload i a :
  0 <= seq < 2 ^ 32 -> remotes !! i = Some a ->
  (fanout_remotes remotes seq playout payload).2 !! i =
    Some (address_shard a, MediaFrame (media a (wrap 32 (seq + Z.of_nat i)) playout) payload).
Proof.
  revert seq i. induction remotes as [|b remotes IH]; intros seq i Hs Hi; [done|]. cbn.
  destruct (fanout_remotes remotes (wrapping_add 32 seq 1) playout payload) as [seq' sent] eqn:E. cbn.
  destruct i as [|i]; cbn in *.
  - injection Hi as <-. rewrite Z.add_0_r, wrap_small by done. done.
  - assert (fits 32 (wrapping_add 32 seq 1)) as Hf by (apply wrap_fits; lia).
    specialize (IH (wrapping_add 32 seq 1) i Hf Hi). rewrite E in IH. etransitivity; [exact IH|]. do 4 f_equal.
    unfold wrapping_add, wrap. rewrite Zplus_mod_idemp_l. f_equal. lia.
Qed.

Lemma fanout_remotes_end remotes seq playout payload :
  0 <= seq < 2 ^ 32 ->
  length (fanout_remotes remotes seq playout payload).2 = length remotes /\
  (fanout_remotes remotes seq playout payload).1 = wrap 32 (seq + Z.of_nat (length remotes)).
Proof.
  revert seq. induction remotes as [|b remotes IH]; intros seq Hs; cbn.
  - split; [done|]. rewrite Z.add_0_r, wrap_small by done. done.
  - assert (fits 32 (wrapping_add 32 seq 1)) as Hf by (apply wrap_fits; lia). destruct (IH _ Hf) as [H1 H2].
    destruct (fanout_remotes remotes _ _ _) as [seq' sent]. cbn in *. split; [lia|]. rewrite H2.
    unfold wrapping_add, wrap. rewrite Zplus_mod_idemp_l. f_equal. lia.
Qed.

(** ** One link *)

(** A track forwards packets one after the other. *)
Fixpoint forward_all (rt : ShardRuntime) (key : Z) (ps : list TrackPacket) (plan : InstalledTrackPlan) (w : WallAnchor)
    (c : ParticipantRegistry * DirtyTracker) : ShardRuntime * Sent :=
  match ps with
  | [] => (rt, [])
  | p :: ps =>
      let '(rt, c, sent) := route_packet_with_plan rt key Local p plan w c in
      let '(rt, sent') := forward_all rt key ps plan w c in (rt, sent ++ sent')
  end.

(** The media frames for a route, as its shard accounts for them. *)
Definition frames_for (a : NodeRouteAddress) (sent : Sent) : list Envelope :=
  omap (fun f => match f.2 with MediaFrame env _ => if decide (env_address env = a) then Some env else None | _ => None end) sent.

Fixpoint account_all (rts : RouteRuntime.RouteRuntime Z) (now : NtpTime) (envs : list Envelope) : option (RouteRuntime.RouteRuntime Z) :=
  match envs with
  | [] => Some rts
  | env :: envs => '(rts, _) ← account_media_frame NULL_HANDLE rts now env; account_all rts now envs
  end.

Lemma media_seq a s p : 0 <= s < 2 ^ 32 -> 0 <= p < 2 ^ 32 -> wrap 32 (Z.shiftr (env_extension (media a s p)) 32) = s.
Proof.
  intros Hs Hp. cbn. unfold shl. rewrite (wrap_small 64) by (rewrite Z.shiftl_mul_pow2; unfold fits; lia).
  rewrite lor_shift_add, split_high by lia. by apply wrap_small.
Qed.


Definition seq_of (env : Envelope) : Z := wrap 32 (Z.shiftr (env_extension env) 32).

Lemma observe_congr {H} (e1 e2 : RouteRuntimeEntry H) s :
  stats e1 = stats e2 -> last_link_seq e1 = last_link_seq e2 ->
  stats (observe e1 s) = stats (observe e2 s) /\ last_link_seq (observe e1 s) = last_link_seq (observe e2 s).
Proof. intros E1 E2. unfold observe. rewrite E1, E2. destruct (last_link_seq e2); [case_ifs|]; done. Qed.

Lemma account_all_observes envs rts now a e (f : RouteRuntimeEntry Z) :
  runtime_wf rts -> Forall (fun env => env_address env = a) envs -> entry rts a = Some e ->
  stats e = stats f -> last_link_seq e = last_link_seq f ->
  exists rts' e', account_all rts now envs = Some rts' /\ entry rts' a = Some e' /\
    stats e' = stats (foldl observe f (map seq_of envs)).
Proof.
  revert rts e f. induction envs as [|env envs IH]; intros rts e f Hwf Ha He E1 E2; cbn; [eauto|].
  apply Forall_cons in Ha as [Ha Hrest]. rewrite <- Ha in He.
  destruct (account_media_frame_total NULL_HANDLE rts now env e Hwf He) as (rts' & e' & out & E & He' & _ & _ & _ & _ & Hs & Hl).
  destruct (account_wf NULL_HANDLE rts now env Hwf) as (rts1 & o1 & E' & Hwf'). rewrite E in E'. injection E' as <- <-.
  rewrite E. cbn. destruct (observe_congr e f (seq_of env) E1 E2) as [C1 C2]. rewrite Ha in He'.
  apply (IH rts' e'); try done; [by rewrite Hs|by rewrite Hl].
Qed.

(** Of the frames of one packet, one is for each route of the plan. *)
Lemma frames_for_one remotes s playout payload i a :
  NoDup remotes -> 0 <= s < 2 ^ 32 -> remotes !! i = Some a ->
  frames_for a (fanout_remotes remotes s playout payload).2 = [media a (wrap 32 (s + Z.of_nat i)) playout].
Proof.
  unfold frames_for. revert s i. induction remotes as [|b remotes IH]; intros s i Hnd Hs Hi; [done|].
  apply NoDup_cons in Hnd as [Hb Hnd]. cbn [fanout_remotes].
  assert (fits 32 (wrapping_add 32 s 1)) as Hf by (apply wrap_fits; lia).
  assert (forall s', b ∉ remotes -> omap (fun f => match f.2 with MediaFrame env _ => if decide (env_address env = b) then Some env else None | _ => None end)
    (fanout_remotes remotes s' playout payload).2 = []) as Hnone.
  { clear. induction remotes as [|c remotes IH]; intros s' Hb; [done|]. cbn [fanout_remotes].
    specialize (IH (wrapping_add 32 s' 1)). destruct (fanout_remotes remotes _ _ _) as [q sent]. cbn in *.
    rewrite decide_False by set_solver. apply IH. set_solver. }
  specialize (Hnone (wrapping_add 32 s 1) Hb). specialize (IH (wrapping_add 32 s 1)).
  destruct (fanout_remotes remotes (wrapping_add 32 s 1) playout payload) as [q sent]. cbn [snd omap list_omap] in *.
  destruct i as [|i]; cbn [env_address media].
  - injection Hi as <-. rewrite decide_True by done. rewrite Z.add_0_r, wrap_small by done. by rewrite Hnone.
  - rewrite decide_False by (intros ->; apply Hb; by eapply list_elem_of_lookup_2). rewrite (IH i Hnd Hf Hi). do 2 f_equal.
    unfold wrapping_add, wrap. rewrite Zplus_mod_idemp_l. f_equal. lia.
Qed.

(** A track without a cache forwards every packet it is given. *)
Lemma forward_one rt key r p plan w c :
  live (tracks rt) !! key = Some r -> track_cache r = None -> 0 <= link_seq r < 2 ^ 32 ->
  exists rt' c' playout payload, 0 <= playout < 2 ^ 32 /\
    route_packet_with_plan rt key Local p plan w c =
      (rt', c', (fanout_remotes (plan_remote plan) (link_seq r) playout payload).2) /\
    live (tracks rt') !! key = Some (set_link_seq (wrap 32 (link_seq r + Z.of_nat (length (plan_remote plan)))) r).
Proof.
  intros Hk Hc Hs. unfold route_packet_with_plan, route_rtp_with_plan, route_data_with_plan, slot_get, store_packet, fanout_remote.
  assert (forall t, 0 <= middle32 t < 2 ^ 32) as Hm by (intros t; apply wrap_fits; lia).
  destruct p as [lane bytes|p]; rewrite Hk, ?Hc; cbn [is_local]; set (playout := middle32 _); set (payload := mkRouted _ _);
    destruct (fanout_remotes_end (plan_remote plan) (link_seq r) playout payload Hs) as [_ E];
    destruct (fanout_remotes (plan_remote plan) (link_seq r) playout payload) as [q sent] eqn:Ef; cbn in E; subst q;
    eexists _, _, playout, payload; (split_and!; [apply Hm..|by rewrite Ef|]); cbn [with_tracks tracks]; unfold slot_set;
    rewrite decide_True by (by rewrite Hk); cbn [live]; by rewrite lookup_insert_eq.
Qed.

Lemma forward_all_seqs ps rt key r plan w c i a :
  NoDup (plan_remote plan) -> plan_remote plan !! i = Some a ->
  live (tracks rt) !! key = Some r -> track_cache r = None -> 0 <= link_seq r < 2 ^ 32 ->
  let envs := frames_for a (forward_all rt key ps plan w c).2 in
  Forall (fun env => env_address env = a) envs /\
  map seq_of envs = map (fun j => wrap 32 (link_seq r + Z.of_nat i + Z.of_nat (length (plan_remote plan)) * Z.of_nat j)) (seq 0 (length ps)).
Proof.
  intros Hnd Hi. revert rt r c. induction ps as [|p ps IH]; intros rt r c Hk Hc Hs; [split; [constructor|done]|].
  cbn [forward_all length seq map].
  destruct (forward_one rt key r p plan w c Hk Hc Hs) as (rt' & c' & playout & payload & Hp & -> & Hk').
  assert (0 <= wrap 32 (link_seq r + Z.of_nat (length (plan_remote plan))) < 2 ^ 32) as Hs' by (apply wrap_fits; lia).
  specialize (IH rt' _ c' Hk' Hc Hs'). destruct (forward_all rt' key ps plan w c') as [rt2 sent2]. cbn [snd] in *. unfold frames_for in *.
  rewrite omap_app. pose proof (frames_for_one _ (link_seq r) playout payload i a Hnd Hs Hi) as E1. unfold frames_for in E1. rewrite E1.
  destruct IH as [IH1 IH2]. split; [by constructor|]. cbn [app map]. f_equal.
  - unfold seq_of. rewrite media_seq by (done || (apply wrap_fits; lia)). f_equal. lia.
  - rewrite IH2. rewrite <- seq_shift, map_map. apply map_ext. intros j. cbn [set_link_seq link_seq].
    unfold wrap. rewrite <- Z.add_assoc, Zplus_mod_idemp_l. f_equal. lia.
Qed.

Lemma highest_steps k n b : 0 <= k -> highest b (map (fun j => b + k * Z.of_nat j) (seq 1 n)) = b + k * Z.of_nat n.
Proof.
  intros Hk. induction n as [|n IH]; [cbn; lia|]. rewrite seq_S, map_app. unfold highest in *. rewrite foldl_app, IH. cbn. lia.
Qed.

Lemma windowed_steps k n m h b :
  0 < k < 2 ^ 31 -> h = b + k * (Z.of_nat m - 1) -> windowed h (map (fun j => b + k * Z.of_nat j) (seq m n)).
Proof.
  intros Hk. revert m h. induction n as [|n IH]; intros m h Hh; cbn; [done|]. split; [lia|]. apply IH. lia.
Qed.

Lemma observe_all_wraps {H A} (g : A -> Z) l (e : RouteRuntimeEntry H) :
  foldl observe e (map (fun j => wrap 32 (g j)) l) = observe_all e (map g l).
Proof. revert e. induction l as [|j l IH]; intros e; [done|]. apply IH. Qed.

(** The sequence numbers a destination sees are [k] apart. *)
Lemma observed_steps {H} (e : RouteRuntimeEntry H) b k n :
  last_link_seq e = None -> stats e = stats_default -> 0 < k < 2 ^ 31 -> k * Z.of_nat n < 2 ^ 63 ->
  let s := stats (foldl observe e (map (fun j => wrap 32 (b + k * Z.of_nat j)) (seq 0 (S n)))) in
  received s = Z.of_nat (S n) /\ duplicated s = 0 /\ lost s = (k - 1) * Z.of_nat n.
Proof.
  intros Hl Hs Hk Hn s.
  set (ns := map (fun j => b + k * Z.of_nat j) (seq 1 n)).
  assert (s = stats (observe_all e (b :: ns))) as ->.
  { unfold s. rewrite observe_all_wraps. unfold ns. cbn [seq map]. by rewrite Z.mul_0_r, Z.add_0_r. }
  assert (highest b ns = b + k * Z.of_nat n) as Hh by (apply highest_steps; lia).
  assert (length (b :: ns) = S n) as Hlen by (cbn; unfold ns; by rewrite length_map, length_seq).
  destruct (observed_run_counts e b ns Hl Hs) as (H1 & H2 & H3).
  - replace (b :: ns) with (map (fun j => b + k * Z.of_nat j) (seq 0 (S n))) by (cbn; f_equal; lia).
    apply NoDup_fmap_2_strong; [intros; nia|apply NoDup_seq].
  - apply Forall_map, Forall_forall. intros j _. lia.
  - apply windowed_steps; [done|lia].
  - rewrite Hh. lia.
  - rewrite H1, H2, H3, Hh, Hlen. lia.
Qed.

(** C35. One counter numbers a track's frames to every shard, so a shard that
    receives all of its frames in order sees gaps of the size of the plan.
    After [n] packets of a track forwarded to [k] shards, each destination has
    received [n] frames, and counts [(k - 1) (n - 1)] of them as lost. *)
Theorem link_loss_counts_siblings rt key r ps plan w c i a rts now e k n :
  k = Z.of_nat (length (plan_remote plan)) -> length ps = S n -> k < 2 ^ 31 -> k * Z.of_nat n < 2 ^ 63 ->
  NoDup (plan_remote plan) -> plan_remote plan !! i = Some a ->
  live (tracks rt) !! key = Some r -> track_cache r = None -> 0 <= link_seq r < 2 ^ 32 ->
  runtime_wf rts -> entry rts a = Some e -> last_link_seq e = None -> stats e = stats_default ->
  exists rts' e', account_all rts now (frames_for a (forward_all rt key ps plan w c).2) = Some rts' /\
    entry rts' a = Some e' /\ received (stats e') = Z.of_nat (S n) /\ duplicated (stats e') = 0 /\
    lost (stats e') = (k - 1) * Z.of_nat n.
Proof.
  intros -> Hn Hk Hkn Hnd Hi Ht Hc Hs Hwf He Hl0 Hs0.
  destruct (forward_all_seqs ps rt key r plan w c i a Hnd Hi Ht Hc Hs) as [Ha Hseq].
  destruct (account_all_observes _ rts now a e e Hwf Ha He eq_refl eq_refl) as (rts' & e' & E & He' & Hst).
  exists rts', e'. split; [done|]. split; [done|]. rewrite Hst, Hseq, Hn. apply observed_steps; try done.
  apply lookup_lt_Some in Hi. lia.
Qed.

(** ** One packet *)

(** What the subscribers of a track receive for a packet: the packet as the
    track's cache has it. [None]: of an encoding the track does not have. *)
Definition stored_packet (r : TrackRuntime) (p : TrackPacket) : TrackRuntime * option TrackPacket :=
  match p with
  | RtpTrackPacket p => let '(r, q) := store_packet r p in (r, RtpTrackPacket <$> q)
  | DataPacket _ _ => (r, Some p)
  end.

(** The cache that comes with it. *)
Definition packet_cache (r : TrackRuntime) (p : TrackPacket) : option TrackStreamCache :=
  match p with RtpTrackPacket _ => track_cache r | DataPacket _ _ => None end.

(** Everybody in [ks] was given the packet and is queued. *)
Definition received_by (ks : list Z) (key : Z) (p : TrackPacket) (cache : option TrackStreamCache)
    (c c' : ParticipantRegistry * DirtyTracker) : Prop :=
  forall k, people c' !! k =
    (if decide (k ∈ ks) then (fun m => set_queued true (with_connection (input (InTrack key p cache)) m)) <$> people c !! k
     else people c !! k).

Lemma route_packet_local rt key r p plan w c r' q o :
  NoDup (plan_local plan) -> live (tracks rt) !! key = Some r -> stored_packet r p = (r', Some q) ->
  exists rt' c' sent, route_packet_with_plan rt key o p plan w c = (rt', c', sent) /\
    received_by (plan_local plan) key q (packet_cache r' q) c c' /\ (o = Remote -> sent = []).
Proof.
  intros Hnd Hk. unfold route_packet_with_plan, route_rtp_with_plan, route_data_with_plan, slot_get, stored_packet.
  destruct p as [lane bytes|p]; rewrite Hk.
  - intros [= <- <-]. destruct (if is_local o then _ else _) as [seq sent] eqn:Es. eexists _, _, _. split; [done|]. split; [by intros k; apply deliver_each|].
    intros ->. by injection Es as <- <-.
  - destruct (store_packet r p) as [r1 [q1|]]; [|done]. cbn. intros [= <- <-].
    destruct (if is_local o then _ else _) as [seq sent] eqn:Es. eexists _, _, _. split; [done|]. split; [by intros k; apply deliver_each|].
    intros ->. by injection Es as <- <-.
Qed.

Lemma to_ntp_fits a t : fits 64 (to_ntp a t).
Proof. unfold to_ntp, ntp_wrapping_add, ntp_wrapping_sub. case_match; apply wrap_fits; lia. Qed.

Lemma store_packet_seq r p : link_seq (store_packet r p).1 = link_seq r.
Proof. unfold store_packet. destruct (track_cache r) as [tc|]; [|done]. destruct (source tc p); [|done]. by destruct (push_encoding _ _ _). Qed.

(** The frame for the [i]th shard of the plan. *)
Lemma route_packet_remote rt key r p plan w c r' q i a :
  live (tracks rt) !! key = Some r -> 0 <= link_seq r < 2 ^ 32 -> store_packet r p = (r', Some q) ->
  plan_remote plan !! i = Some a ->
  (route_packet_with_plan rt key Local (RtpTrackPacket p) plan w c).2 !! i =
    Some (address_shard a, MediaFrame (media a (wrap 32 (link_seq r + Z.of_nat i)) (middle32 (to_ntp w (playout_time q))))
                             (mkRouted (track_id r) (RtpTrackPacket (to_transit q)))).
Proof.
  intros Hk Hs Hq Hi. unfold route_packet_with_plan, route_rtp_with_plan, slot_get, fanout_remote. rewrite Hk, Hq. cbn [is_local].
  pose proof (store_packet_seq r p) as E1. pose proof (store_packet_id r p) as E2. rewrite Hq in E1, E2. cbn in E1, E2. rewrite E1, E2.
  pose proof (fanout_remotes_lookup (plan_remote plan) (link_seq r) (middle32 (to_ntp w (playout_time q)))
    (mkRouted (track_id r) (RtpTrackPacket (to_transit q))) i a Hs Hi) as Hl.
  destruct (fanout_remotes _ _ _ _) as [seq sent]. exact Hl.
Qed.

Lemma media_time a s p : 0 <= s < 2 ^ 32 -> 0 <= p < 2 ^ 32 -> wrap 32 (env_extension (media a s p)) = p.
Proof.
  intros Hs Hp. cbn. unfold shl. rewrite (wrap_small 64) by (rewrite Z.shiftl_mul_pow2; unfold fits; lia).
  rewrite lor_shift_add by lia. unfold wrap. rewrite Z.add_comm, Z.mod_add by lia. by apply Z.mod_small.
Qed.

(** A frame of a route installed on the shard reaches the track's subscribers. *)
Lemma on_media_frame_delivers y a s t payload p now e hy ry ry' qy plany :
  shard_ok y -> entry (routes (runtime y)) a = Some e -> action e = RouteRuntime.Forward hy ->
  live (tracks (runtime y)) !! hy = Some ry -> track_id ry = routed_track payload -> routed_packet payload = RtpTrackPacket p ->
  plans y !! hy = Some plany -> NoDup (plan_local plany) -> 0 <= s < 2 ^ 32 ->
  fits 64 (time_reference e (ntp (wall y))) -> fits 64 t -> within_window (time_reference e (ntp (wall y))) t ->
  store_packet ry (with_times now (to_instant (wall y) (mid_floor t)) p) = (ry', Some qy) ->
  exists y', on_media_frame y (media a s (middle32 t)) payload now = Some (y', []) /\
    received_by (plan_local plany) hy (RtpTrackPacket qy) (track_cache ry') (ctx_of y) (ctx_of y').
Proof.
  intros Hy He Ha Hry Hid Hp Hpl Hnd Hs Hr Ht Hw Hst. unfold on_media_frame.
  pose proof (to_routes _ (so_tracks _ _ Hy)) as Hwf.
  destruct (account_media_frame_total NULL_HANDLE (routes (runtime y)) (ntp (wall y)) (media a s (middle32 t)) e Hwf He)
    as (rts' & e' & out & -> & _ & _ & _ & _ & Hout & _).
  rewrite (Hout t) by (done || (apply media_time; [done|apply wrap_fits; lia])). rewrite Ha. cbn [mbind option_bind].
  rewrite decide_True by (unfold track_id_of, slot_get; cbn; rewrite Hry; cbn; by rewrite Hid). cbn [plans with_runtime wall]. rewrite Hpl.
  assert (stored_packet ry (routed_packet (set_remote_timing (to_instant (wall y) (mid_floor t)) now payload)) = (ry', Some (RtpTrackPacket qy))) as Hsp.
  { unfold set_remote_timing. rewrite Hp. cbn [routed_packet stored_packet]. replace (with_ext _ _) with (with_times now (to_instant (wall y) (mid_floor t)) p) by by destruct p.
    by rewrite Hst. }
  destruct (route_packet_local (runtime (with_runtime y (with_routes (runtime y) rts'))) hy ry _ plany (wall y) (ctx_of y) ry' _ Remote Hnd Hry Hsp)
    as (rt & c & sent & E & Hrec & Hsent).
  exists (with_ctx (with_runtime (with_runtime y (with_routes (runtime y) rts')) rt) c).
  cbn [runtime with_runtime registry dirty] in E |- *. rewrite E, (Hsent eq_refl). split; [done|].
  intros k. specialize (Hrec k). by destruct c.
Qed.

(** C12. Media crosses shards: when a shard flushes a packet of a track whose plan
    names a route on another shard, the frame sent there makes that shard give
    the packet, once, to exactly the live subscribers of its own plan, and queue
    them, and it sends the packet no further. The packet is the one the first
    shard's cache holds, less its layer allocation, with the frame's time of
    arrival and with the playout time it had, rounded down to 2^-16 s, on the
    receiving shard's clock. *)
Theorem media_crosses_shards x y h p q r r' plan i a e hy ry ry' qy plany now pl :
  reachable y ->
  pop_packet (pipeline x) = (pl, Some (h, RtpTrackPacket p)) -> plans x !! h = Some plan ->
  live (tracks (runtime x)) !! h = Some r -> 0 <= link_seq r < 2 ^ 32 -> store_packet r p = (r', Some q) ->
  plan_remote plan !! i = Some a ->
  let t := to_ntp (wall x) (playout_time q) in
  entry (routes (runtime y)) a = Some e -> action e = RouteRuntime.Forward hy ->
  live (tracks (runtime y)) !! hy = Some ry -> track_id ry = track_id r ->
  plans y !! hy = Some plany -> NoDup (plan_local plany) ->
  fits 64 (time_reference e (ntp (wall y))) -> within_window (time_reference e (ntp (wall y))) t ->
  store_packet ry (with_times now (to_instant (wall y) (mid_floor t)) (to_transit q)) = (ry', Some qy) ->
  exists f y', (flush_stream_buffers 1 x).2 !! i = Some (address_shard a, f) /\
    on_shard_frame y f now = Some (y', []) /\
    received_by (plan_local plany) hy (RtpTrackPacket qy) (track_cache ry') (ctx_of y) (ctx_of y').
Proof.
  intros Hy Hpop Hplan Hr Hs Hq Hi t He Ha Hry Hid Hpl Hnd Hf Hw Hst.
  destruct (on_media_frame_delivers y a (wrap 32 (link_seq r + Z.of_nat i)) t (mkRouted (track_id r) (RtpTrackPacket (to_transit q)))
    (to_transit q) now e hy ry ry' qy plany) as (y' & E & Hrec);
    [by apply reachable_ok|try done..|]; [apply wrap_fits; lia|apply to_ntp_fits|].
  eexists (MediaFrame _ _), y'. split; [|split; [exact E|exact Hrec]].
  cbn [flush_stream_buffers]. rewrite Hpop. cbn [plans with_pipeline]. rewrite Hplan.
  pose proof (route_packet_remote (runtime x) h r p plan (wall x) (ctx_of x) r' q i a Hr Hs Hq Hi) as El.
  cbn [runtime with_pipeline wall registry dirty]. destruct (route_packet_with_plan _ _ _ _ _ _ _) as [[rt c] sent]. cbn [snd] in *.
  rewrite app_nil_r. exact El.
Qed.
End Forwarding.

(** ** A track on three shards *)

Definition demo_route (shard slot : Z) : NodeRouteAddress :=
  mkNodeRouteAddress (mkRouteId (mkPackedRoute (Z.lor (Z.shiftl shard 20) slot))) 7.
Definition demo_track : @ShardUpdate.ShardUpdateOp Z Z TrackKind SourceEncoding ParticipantEffect :=
  InsertTrackRuntime 5 (mkTrackRuntime (Some (mkDescriptor 9 Audio [])) None None).

(** Shard 1, whose participants 7 and 8 subscribe to track 5. *)
Definition demo_receiver_ops : list shard_op :=
  [OpLifecycle demo_track; OpLifecycle (InstallRoute (demo_route 1 6) (ShardUpdate.Forward 5));
   OpPlan (mkPlanUpdate 5 (Some (mkPlan [7; 8] [] None)))].
Definition demo_receiver : ShardExecution := default demo_shard (shard_run demo_shard demo_receiver_ops).

(** Shard 0, where the track is published. *)
Definition demo_packet : RtpPacket :=
  mkPacket 11 true ext_default 40 (mkTime 960 48000) 0 123456789 false true 0 0 [1; 2].
Definition demo_sender : ShardExecution :=
  let x := default demo_other (shard_run demo_other
    [OpLifecycle demo_track; OpPlan (mkPlanUpdate 5 (Some (mkPlan [] [demo_route 1 6; demo_route 2 6] None)))]) in
  with_pipeline x (mkPipeline [] [(1, RtpTrackPacket demo_packet)] [] 4).

Definition demo_installed (x : ShardExecution) : InstalledTrackPlan := default (mkInstalled [] [] None) (plans x !! 1).
Definition demo_runtime (x : ShardExecution) : TrackRuntime := default (mkTrack 0 None None None 0) (live (tracks (runtime x)) !! 1).
Definition demo_entry (x : ShardExecution) (a : NodeRouteAddress) : RouteRuntimeEntry Z :=
  default (mkEntry 0 (RouteRuntime.Forward 0) (expander_new 0) None stats_default) (entry (routes (runtime x)) a).

Lemma demo_receiver_reachable : reachable demo_receiver.
Proof. apply (run_reachable demo_receiver_ops demo_shard); [exact demo_reachable|by vm_compute|by vm_compute]. Qed.

Lemma media_crosses_shards_witness :
  exists f y', (flush_stream_buffers 1 demo_sender).2 !! 0%nat = Some (1, f) /\
    on_shard_frame demo_receiver f 5 = Some (y', []) /\
    connection <$> live (participants (registry y')) !! 1 = Some (7, 1) /\
    connection <$> live (participants (registry y')) !! 2 = Some (8, 1).
Proof.
  destruct (media_crosses_shards demo_sender demo_receiver 1 demo_packet demo_packet (demo_runtime demo_sender) (demo_runtime demo_sender)
    (demo_installed demo_sender) 0 (demo_route 1 6) (demo_entry demo_receiver (demo_route 1 6)) 1 (demo_runtime demo_receiver)
    (demo_runtime demo_receiver)
    (with_times 5 (to_instant (wall demo_receiver) (mid_floor (to_ntp (wall demo_sender) (playout_time demo_packet)))) (to_transit demo_packet))
    (demo_installed demo_receiver) 5 (mkPipeline [] [] [] 4)) as (f & y' & H1 & H2 & H3);
    [exact demo_receiver_reachable|vm_compute; (reflexivity || (split; congruence) || idtac)..|].
  - apply (bool_decide_unpack _). by vm_compute.
  - exists f, y'. split; [exact H1|]. split; [exact H2|]. pose proof (H3 1) as E1. pose proof (H3 2) as E2. cbn [fst] in E1, E2.
    rewrite E1, E2. by vm_compute.
Defined.

Lemma link_loss_counts_siblings_witness :
  exists rts' e', account_all (routes (runtime demo_receiver)) 0
      (frames_for (demo_route 1 6) (forward_all (runtime demo_sender) 1 (replicate 10 (RtpTrackPacket demo_packet)) (demo_installed demo_sender)
         (wall demo_sender) (registry demo_sender, dirty demo_sender)).2) = Some rts' /\
    entry rts' (demo_route 1 6) = Some e' /\ received (stats e') = 10 /\ duplicated (stats e') = 0 /\ lost (stats e') = 9.
Proof.
  apply (link_loss_counts_siblings (runtime demo_sender) 1 (demo_runtime demo_sender) (replicate 10 (RtpTrackPacket demo_packet))
    (demo_installed demo_sender) (wall demo_sender) (registry demo_sender, dirty demo_sender) 0 (demo_route 1 6) (routes (runtime demo_receiver)) 0
    (demo_entry demo_receiver (demo_route 1 6)) 2 9); try (by vm_compute).
  - apply (bool_decide_unpack _). by vm_compute.
  - exact (to_routes _ (so_tracks _ _ (reachable_ok _ demo_receiver_reachable))).
Defined.
