(* ===== verification/FeedbackSender.v ===== *)
(** * Transport feedback: the sending side

    Models [crates/pulsebeam-feedback/src/sender.rs] and
    [crates/pulsebeam-feedback/src/sender/feedback.rs]: the ring of packets
    that were sent, what feedback says of each of them, and how a packet that
    feedback does not mention is given up.

    Times are durations in nanoseconds, [u64] and [usize] are 64 bits wide. A
    [BTreeMap] or [HashMap] is a finite map, the ordered set of deadlines a
    finite set with its least element. The sizes of the types and what the
    allocator grants are parameters ([Layout], [Allocator]); the hash table of a
    space is an interface, since what its [capacity] is after a removal is the
    table's choice ([IndexTable]). The ring is indexed only once a profile gave
    it its slots; [history_inv] in [SenderLaws] includes that. *)

From S2P Require Import Prelude FeedbackReceiver.

Inductive FeedbackMode := ModeContinuous | ModeIndependent.
Inductive LossOrigin := Reordering | HistoryExpiry.
Inductive ReceiverTime := Micros (t : Z) | OverRange | Unavailable.
Inductive SenderError := SendExhausted | InvalidCommit.

#[export] Instance FeedbackMode_eq_dec : EqDecision FeedbackMode.
Proof. solve_decision. Defined.
#[export] Instance LossOrigin_eq_dec : EqDecision LossOrigin.
Proof. solve_decision. Defined.

Record SenderConfig := mkSenderConfig {
  capacity : Z;
  retention : Z;
  max_expirations_per_poll : Z;
  max_ack_reordering : Z;
  max_feedback_statuses : Z;
  initial_reordering_window : Z;
  max_reordering_window : Z;
}.

Record SendIdentity := mkIdentity { i_space : Z; i_packet : Z; i_feedback_sequence : option Z; i_tag : Z }.
Record SendCommit := mkCommit { at_ : Z; c_wire_len : Z; c_path_epoch : Z; identity : SendIdentity }.

Record SendStatus := mkStatus { received : bool; arrival : option ReceiverTime; s_ecn : option Ecn; hold : option Z }.
Record IndependentReport := mkIndependent { rep_space : Z; rep_base : Z; generation : Z; statuses : list SendStatus }.
Inductive SendReport :=
| ContinuousReport (base_sequence reference_micros generation : Z) (statuses : list SendStatus)
| IndependentReports (reports : list IndependentReport).
Record SendFeedback := mkSendFeedback { received_at : Z; f_path_epoch : Z; report : SendReport }.

Record SentObservation := mkObservation {
  o_sent_id : Z;
  o_space : Z;
  o_committed_at : Z;
  transport_bytes : Z;
  o_tag : Z;
  o_received : bool;
  newly_acked : bool;
  lost : bool;
  reported_lost_for_the_first_time : bool;
  recovered : bool;
  observed_at : option Z;
  loss_origin : option LossOrigin;
  receiver_arrival : option ReceiverTime;
  o_ecn : option Ecn;
}.

Record FeedbackTiming := mkTiming { t_received_at : Z; feedback_hold : option Z; newest_send_age : option Z }.
Record AvailabilityChange := mkAvailability { a_epoch : Z; available : bool }.

Record SenderInputs := mkInputs {
  feedback : list SentObservation;
  feedback_capacity : Z;
  synthetic : list SentObservation;
  synthetic_capacity : Z;
  exhausted : bool;
  timing : option FeedbackTiming;
  fresh_network_feedback : bool;
  path_change : option AvailabilityChange;
  application_limited : bool;
  reported_in_flight : Z;
}.

Definition with_feedback (v : list SentObservation) (i : SenderInputs) : SenderInputs :=
  mkInputs v (feedback_capacity i) (synthetic i) (synthetic_capacity i) (exhausted i) (timing i)
    (fresh_network_feedback i) (path_change i) (application_limited i) (reported_in_flight i).
Definition with_feedback_capacity (v : Z) (i : SenderInputs) : SenderInputs :=
  mkInputs (feedback i) v (synthetic i) (synthetic_capacity i) (exhausted i) (timing i) (fresh_network_feedback i)
    (path_change i) (application_limited i) (reported_in_flight i).
Definition with_synthetic (v : list SentObservation) (i : SenderInputs) : SenderInputs :=
  mkInputs (feedback i) (feedback_capacity i) v (synthetic_capacity i) (exhausted i) (timing i)
    (fresh_network_feedback i) (path_change i) (application_limited i) (reported_in_flight i).
Definition with_synthetic_capacity (v : Z) (i : SenderInputs) : SenderInputs :=
  mkInputs (feedback i) (feedback_capacity i) (synthetic i) v (exhausted i) (timing i) (fresh_network_feedback i)
    (path_change i) (application_limited i) (reported_in_flight i).
Definition with_exhausted (v : bool) (i : SenderInputs) : SenderInputs :=
  mkInputs (feedback i) (feedback_capacity i) (synthetic i) (synthetic_capacity i) v (timing i)
    (fresh_network_feedback i) (path_change i) (application_limited i) (reported_in_flight i).
Definition with_timing (v : option FeedbackTiming) (i : SenderInputs) : SenderInputs :=
  mkInputs (feedback i) (feedback_capacity i) (synthetic i) (synthetic_capacity i) (exhausted i) v
    (fresh_network_feedback i) (path_change i) (application_limited i) (reported_in_flight i).
Definition with_fresh_network_feedback (v : bool) (i : SenderInputs) : SenderInputs :=
  mkInputs (feedback i) (feedback_capacity i) (synthetic i) (synthetic_capacity i) (exhausted i) (timing i) v
    (path_change i) (application_limited i) (reported_in_flight i).
Definition with_path_change (v : option AvailabilityChange) (i : SenderInputs) : SenderInputs :=
  mkInputs (feedback i) (feedback_capacity i) (synthetic i) (synthetic_capacity i) (exhausted i) (timing i)
    (fresh_network_feedback i) v (application_limited i) (reported_in_flight i).
Definition with_application_limited (v : bool) (i : SenderInputs) : SenderInputs :=
  mkInputs (feedback i) (feedback_capacity i) (synthetic i) (synthetic_capacity i) (exhausted i) (timing i)
    (fresh_network_feedback i) (path_change i) v (reported_in_flight i).
Definition with_reported_in_flight (v : Z) (i : SenderInputs) : SenderInputs :=
  mkInputs (feedback i) (feedback_capacity i) (synthetic i) (synthetic_capacity i) (exhausted i) (timing i)
    (fresh_network_feedback i) (path_change i) (application_limited i) v.

Record HistoryCounters := mkCounters {
  unknown_feedback : Z;
  duplicate_feedback : Z;
  stale_feedback : Z;
  reordered_feedback : Z;
  wrong_path_feedback : Z;
  expired : Z;
  received_packets : Z;
  not_received : Z;
}.

Definition counters_default : HistoryCounters := mkCounters 0 0 0 0 0 0 0 0.
Definition inputs_default : SenderInputs := mkInputs [] 0 [] 0 false None false None false 0.

Inductive Acknowledgment :=
| Pending
| Missing (since : Z) (higher_received_at : option Z)
| Received
| Lost
| Retired.

#[export] Instance Acknowledgment_eq_dec : EqDecision Acknowledgment.
Proof. solve_decision. Defined.

Definition is_terminal (a : Acknowledgment) : bool :=
  match a with Received | Lost | Retired => true | _ => false end.

Record SentEntry := mkSent {
  sent_id : Z;
  committed_at : Z;
  wire_len : Z;
  path_epoch : Z;
  e_space : Z;
  packet_sequence : Z;
  feedback_sequence : option Z;
  e_tag : Z;
  acknowledgment : Acknowledgment;
  network_loss_reported : bool;
  missing_since : option Z;
  frozen_reorder_deadline : option Z;
  in_flight : bool;
}.

Definition with_acknowledgment (v : Acknowledgment) (e : SentEntry) : SentEntry :=
  mkSent (sent_id e) (committed_at e) (wire_len e) (path_epoch e) (e_space e) (packet_sequence e) (feedback_sequence e)
    (e_tag e) v (network_loss_reported e) (missing_since e) (frozen_reorder_deadline e) (in_flight e).
Definition with_network_loss_reported (v : bool) (e : SentEntry) : SentEntry :=
  mkSent (sent_id e) (committed_at e) (wire_len e) (path_epoch e) (e_space e) (packet_sequence e) (feedback_sequence e)
    (e_tag e) (acknowledgment e) v (missing_since e) (frozen_reorder_deadline e) (in_flight e).
Definition with_missing_since (v : option Z) (e : SentEntry) : SentEntry :=
  mkSent (sent_id e) (committed_at e) (wire_len e) (path_epoch e) (e_space e) (packet_sequence e) (feedback_sequence e)
    (e_tag e) (acknowledgment e) (network_loss_reported e) v (frozen_reorder_deadline e) (in_flight e).
Definition with_frozen_reorder_deadline (v : option Z) (e : SentEntry) : SentEntry :=
  mkSent (sent_id e) (committed_at e) (wire_len e) (path_epoch e) (e_space e) (packet_sequence e) (feedback_sequence e)
    (e_tag e) (acknowledgment e) (network_loss_reported e) (missing_since e) v (in_flight e).
Definition with_in_flight (v : bool) (e : SentEntry) : SentEntry :=
  mkSent (sent_id e) (committed_at e) (wire_len e) (path_epoch e) (e_space e) (packet_sequence e) (feedback_sequence e)
    (e_tag e) (acknowledgment e) (network_loss_reported e) (missing_since e) (frozen_reorder_deadline e) v.

(** ** The ordered set of deadlines *)

(** The derived order: variants in this order, then their fields; [None] is
    before [Some]. *)
Inductive Readiness :=
| ReadyRetired (deadline : option Z) (space : Z)
| Unscheduled (space : Z)
| ReadyMissing (deadline sent : Z).

#[export] Instance Readiness_eq_dec : EqDecision Readiness.
Proof. solve_decision. Defined.
#[export] Instance Readiness_countable : Countable Readiness.
Proof.
  apply (inj_countable'
    (fun r => match r with ReadyRetired d s => inl (d, s) | Unscheduled s => inr (inl s) | ReadyMissing d i => inr (inr (d, i)) end)
    (fun x => match x with inl (d, s) => ReadyRetired d s | inr (inl s) => Unscheduled s | inr (inr (d, i)) => ReadyMissing d i end)).
  by intros [].
Defined.

Definition pair_ltb (a b : Z * Z) : bool := (a.1 <? b.1) || ((a.1 =? b.1) && (a.2 <? b.2)).
Definition readiness_ltb (a b : Readiness) : bool :=
  match a, b with
  | ReadyRetired None s, ReadyRetired None s' => s <? s'
  | ReadyRetired None _, ReadyRetired (Some _) _ => true
  | ReadyRetired (Some _) _, ReadyRetired None _ => false
  | ReadyRetired (Some d) s, ReadyRetired (Some d') s' => pair_ltb (d, s) (d', s')
  | ReadyRetired _ _, _ => true
  | Unscheduled _, ReadyRetired _ _ => false
  | Unscheduled s, Unscheduled s' => s <? s'
  | Unscheduled _, ReadyMissing _ _ => true
  | ReadyMissing d i, ReadyMissing d' i' => pair_ltb (d, i) (d', i')
  | ReadyMissing _ _, _ => false
  end.

(** [BTreeSet::first] *)
Definition least (l : list Readiness) : option Readiness :=
  foldl (fun acc r => match acc with None => Some r | Some a => Some (if readiness_ltb r a then r else a) end) None l.
Definition first_ready (s : gset Readiness) : option Readiness := least (elements s).

(** ** Storage the caller pays for *)

(** [size_of] of the types kept. *)
Class Layout := {
  size_entry : Z; size_index : Z; size_observation : Z;
  size_source : Z; size_missing : Z; size_source_entry : Z;
}.

(** What [try_reserve_exact(n)] of an empty vector makes its capacity. *)
Class Allocator := { grant : Z -> option Z }.

(** A [HashMap<u64, SentPacketId>]. [table_reserve n] is [new] with [try_reserve(n)]. *)
Class IndexTable (T : Type) := {
  table_reserve : Z -> option T;
  table_map : T -> gmap Z Z;
  table_capacity : T -> Z;
  table_insert : Z -> Z -> T -> T;
  table_remove : Z -> T -> T;
}.
#[export] Hint Mode IndexTable ! : typeclass_instances.

Definition checked_mul (a b : Z) : option Z := if a * b <=? umax 64 then Some (a * b) else None.
Definition duration_checked_add (a b : Z) : option Z := if a + b <=? DURATION_MAX then Some (a + b) else None.

Record FeedbackIndex := mkIndex { x_sequence : Z; x_sent_id : Z }.

Section Sender.
Context {T : Type} `{!Layout, !Allocator, !IndexTable T}.

Definition storage_bytes_for (cap feedback_cap synthetic_cap : Z) : option Z :=
  a ← checked_mul cap size_entry;
  b ← checked_mul cap size_index;
  ab ← checked_add 64 a b;
  n ← checked_add 64 feedback_cap synthetic_cap;
  c ← checked_mul n size_observation;
  checked_add 64 ab c.

Definition validate (c : SenderConfig) : result SenderError () :=
  if (capacity c =? 0) || (max_expirations_per_poll c <? 2) || (max_feedback_statuses c =? 0) || (retention c =? 0)
     || (max_reordering_window c <? initial_reordering_window c)
     || bool_decide (storage_bytes_for (capacity c) (max_feedback_statuses c) (max_expirations_per_poll c) = None)
  then Err InvalidCommit else Ok ().

Definition entry_reorder_deadline (window : Z) (e : SentEntry) : option Z :=
  match acknowledgment e with
  | Missing _ (Some anchor) =>
      match frozen_reorder_deadline e with Some d => Some d | None => duration_checked_add anchor window end
  | _ => None
  end.

Definition entry_readiness (window : Z) (e : SentEntry) : option Readiness :=
  d ← entry_reorder_deadline window e; Some (ReadyMissing d (sent_id e)).

Record SpaceHistory := mkSpace {
  first_sequence : Z;
  newest_sequence : Z;
  highest_acked_sequence : option Z;
  by_sequence : T;
  index_capacity : Z;
  last_report_generation : option (Z * Z);
  latest_commit_at : option Z;
  terminal : bool;
}.

Definition with_highest_acked_sequence (v : option Z) (p : SpaceHistory) : SpaceHistory :=
  mkSpace (first_sequence p) (newest_sequence p) v (by_sequence p) (index_capacity p) (last_report_generation p)
    (latest_commit_at p) (terminal p).
Definition with_by_sequence (v : T) (p : SpaceHistory) : SpaceHistory :=
  mkSpace (first_sequence p) (newest_sequence p) (highest_acked_sequence p) v (index_capacity p)
    (last_report_generation p) (latest_commit_at p) (terminal p).
Definition with_last_report_generation (v : option (Z * Z)) (p : SpaceHistory) : SpaceHistory :=
  mkSpace (first_sequence p) (newest_sequence p) (highest_acked_sequence p) (by_sequence p) (index_capacity p) v
    (latest_commit_at p) (terminal p).
Definition with_terminal (v : bool) (p : SpaceHistory) : SpaceHistory :=
  mkSpace (first_sequence p) (newest_sequence p) (highest_acked_sequence p) (by_sequence p) (index_capacity p)
    (last_report_generation p) (latest_commit_at p) v.

Definition space_readiness (p : SpaceHistory) (space keep : Z) : Readiness :=
  if terminal p then
    match latest_commit_at p with
    | None => ReadyRetired None space
    | Some t =>
        match duration_checked_add t keep with
        | Some d => ReadyRetired (Some d) space
        | None => Unscheduled space
        end
    end
  else Unscheduled space.

Record Sender := mkSender {
  config : SenderConfig;
  mode : option FeedbackMode;
  max_backing_bytes : Z;
  entries : list (option SentEntry);
  feedback_index : list (option FeedbackIndex);
  spaces : gmap Z SpaceHistory;
  source_backing_bytes : Z;
  readiness : gset Readiness;
  next_sent_id : Z;
  oldest_sent_id : Z;
  oldest_feedback : option Z;
  newest_feedback : option Z;
  highest_feedback_acked : option Z;
  feedback_reference : option Z;
  feedback_generation : option Z;
  active_epoch : option Z;
  last_path : option (Z * bool);
  inputs : SenderInputs;
  counters : HistoryCounters;
  bytes_in_flight : Z;
  reordering_window : Z;
  observed_reordering_window : Z;
  missing : list Z;
  missing_capacity : Z;
  loss_work : Z;
}.

Definition with_mode (v : option FeedbackMode) (s : Sender) : Sender :=
  mkSender (config s) v (max_backing_bytes s) (entries s) (feedback_index s) (spaces s) (source_backing_bytes s)
    (readiness s) (next_sent_id s) (oldest_sent_id s) (oldest_feedback s) (newest_feedback s) (highest_feedback_acked
    s) (feedback_reference s) (feedback_generation s) (active_epoch s) (last_path s) (inputs s) (counters s)
    (bytes_in_flight s) (reordering_window s) (observed_reordering_window s) (missing s) (missing_capacity s)
    (loss_work s).
Definition with_entries (v : list (option SentEntry)) (s : Sender) : Sender :=
  mkSender (config s) (mode s) (max_backing_bytes s) v (feedback_index s) (spaces s) (source_backing_bytes s)
    (readiness s) (next_sent_id s) (oldest_sent_id s) (oldest_feedback s) (newest_feedback s) (highest_feedback_acked
    s) (feedback_reference s) (feedback_generation s) (active_epoch s) (last_path s) (inputs s) (counters s)
    (bytes_in_flight s) (reordering_window s) (observed_reordering_window s) (missing s) (missing_capacity s)
    (loss_work s).
Definition with_feedback_index (v : list (option FeedbackIndex)) (s : Sender) : Sender :=
  mkSender (config s) (mode s) (max_backing_bytes s) (entries s) v (spaces s) (source_backing_bytes s) (readiness s)
    (next_sent_id s) (oldest_sent_id s) (oldest_feedback s) (newest_feedback s) (highest_feedback_acked s)
    (feedback_reference s) (feedback_generation s) (active_epoch s) (last_path s) (inputs s) (counters s)
    (bytes_in_flight s) (reordering_window s) (observed_reordering_window s) (missing s) (missing_capacity s)
    (loss_work s).
Definition with_spaces (v : gmap Z SpaceHistory) (s : Sender) : Sender :=
  mkSender (config s) (mode s) (max_backing_bytes s) (entries s) (feedback_index s) v (source_backing_bytes s)
    (readiness s) (next_sent_id s) (oldest_sent_id s) (oldest_feedback s) (newest_feedback s) (highest_feedback_acked
    s) (feedback_reference s) (feedback_generation s) (active_epoch s) (last_path s) (inputs s) (counters s)
    (bytes_in_flight s) (reordering_window s) (observed_reordering_window s) (missing s) (missing_capacity s)
    (loss_work s).
Definition with_source_backing_bytes (v : Z) (s : Sender) : Sender :=
  mkSender (config s) (mode s) (max_backing_bytes s) (entries s) (feedback_index s) (spaces s) v (readiness s)
    (next_sent_id s) (oldest_sent_id s) (oldest_feedback s) (newest_feedback s) (highest_feedback_acked s)
    (feedback_reference s) (feedback_generation s) (active_epoch s) (last_path s) (inputs s) (counters s)
    (bytes_in_flight s) (reordering_window s) (observed_reordering_window s) (missing s) (missing_capacity s)
    (loss_work s).
Definition with_readiness (v : gset Readiness) (s : Sender) : Sender :=
  mkSender (config s) (mode s) (max_backing_bytes s) (entries s) (feedback_index s) (spaces s) (source_backing_bytes
    s) v (next_sent_id s) (oldest_sent_id s) (oldest_feedback s) (newest_feedback s) (highest_feedback_acked s)
    (feedback_reference s) (feedback_generation s) (active_epoch s) (last_path s) (inputs s) (counters s)
    (bytes_in_flight s) (reordering_window s) (observed_reordering_window s) (missing s) (missing_capacity s)
    (loss_work s).
Definition with_next_sent_id (v : Z) (s : Sender) : Sender :=
  mkSender (config s) (mode s) (max_backing_bytes s) (entries s) (feedback_index s) (spaces s) (source_backing_bytes
    s) (readiness s) v (oldest_sent_id s) (oldest_feedback s) (newest_feedback s) (highest_feedback_acked s)
    (feedback_reference s) (feedback_generation s) (active_epoch s) (last_path s) (inputs s) (counters s)
    (bytes_in_flight s) (reordering_window s) (observed_reordering_window s) (missing s) (missing_capacity s)
    (loss_work s).
Definition with_oldest_sent_id (v : Z) (s : Sender) : Sender :=
  mkSender (config s) (mode s) (max_backing_bytes s) (entries s) (feedback_index s) (spaces s) (source_backing_bytes
    s) (readiness s) (next_sent_id s) v (oldest_feedback s) (newest_feedback s) (highest_feedback_acked s)
    (feedback_reference s) (feedback_generation s) (active_epoch s) (last_path s) (inputs s) (counters s)
    (bytes_in_flight s) (reordering_window s) (observed_reordering_window s) (missing s) (missing_capacity s)
    (loss_work s).
Definition with_oldest_feedback (v : option Z) (s : Sender) : Sender :=
  mkSender (config s) (mode s) (max_backing_bytes s) (entries s) (feedback_index s) (spaces s) (source_backing_bytes
    s) (readiness s) (next_sent_id s) (oldest_sent_id s) v (newest_feedback s) (highest_feedback_acked s)
    (feedback_reference s) (feedback_generation s) (active_epoch s) (last_path s) (inputs s) (counters s)
    (bytes_in_flight s) (reordering_window s) (observed_reordering_window s) (missing s) (missing_capacity s)
    (loss_work s).
Definition with_newest_feedback (v : option Z) (s : Sender) : Sender :=
  mkSender (config s) (mode s) (max_backing_bytes s) (entries s) (feedback_index s) (spaces s) (source_backing_bytes
    s) (readiness s) (next_sent_id s) (oldest_sent_id s) (oldest_feedback s) v (highest_feedback_acked s)
    (feedback_reference s) (feedback_generation s) (active_epoch s) (last_path s) (inputs s) (counters s)
    (bytes_in_flight s) (reordering_window s) (observed_reordering_window s) (missing s) (missing_capacity s)
    (loss_work s).
Definition with_highest_feedback_acked (v : option Z) (s : Sender) : Sender :=
  mkSender (config s) (mode s) (max_backing_bytes s) (entries s) (feedback_index s) (spaces s) (source_backing_bytes
    s) (readiness s) (next_sent_id s) (oldest_sent_id s) (oldest_feedback s) (newest_feedback s) v (feedback_reference
    s) (feedback_generation s) (active_epoch s) (last_path s) (inputs s) (counters s) (bytes_in_flight s)
    (reordering_window s) (observed_reordering_window s) (missing s) (missing_capacity s) (loss_work s).
Definition with_feedback_reference (v : option Z) (s : Sender) : Sender :=
  mkSender (config s) (mode s) (max_backing_bytes s) (entries s) (feedback_index s) (spaces s) (source_backing_bytes
    s) (readiness s) (next_sent_id s) (oldest_sent_id s) (oldest_feedback s) (newest_feedback s)
    (highest_feedback_acked s) v (feedback_generation s) (active_epoch s) (last_path s) (inputs s) (counters s)
    (bytes_in_flight s) (reordering_window s) (observed_reordering_window s) (missing s) (missing_capacity s)
    (loss_work s).
Definition with_feedback_generation (v : option Z) (s : Sender) : Sender :=
  mkSender (config s) (mode s) (max_backing_bytes s) (entries s) (feedback_index s) (spaces s) (source_backing_bytes
    s) (readiness s) (next_sent_id s) (oldest_sent_id s) (oldest_feedback s) (newest_feedback s)
    (highest_feedback_acked s) (feedback_reference s) v (active_epoch s) (last_path s) (inputs s) (counters s)
    (bytes_in_flight s) (reordering_window s) (observed_reordering_window s) (missing s) (missing_capacity s)
    (loss_work s).
Definition with_active_epoch (v : option Z) (s : Sender) : Sender :=
  mkSender (config s) (mode s) (max_backing_bytes s) (entries s) (feedback_index s) (spaces s) (source_backing_bytes
    s) (readiness s) (next_sent_id s) (oldest_sent_id s) (oldest_feedback s) (newest_feedback s)
    (highest_feedback_acked s) (feedback_reference s) (feedback_generation s) v (last_path s) (inputs s) (counters s)
    (bytes_in_flight s) (reordering_window s) (observed_reordering_window s) (missing s) (missing_capacity s)
    (loss_work s).
Definition with_last_path (v : option (Z * bool)) (s : Sender) : Sender :=
  mkSender (config s) (mode s) (max_backing_bytes s) (entries s) (feedback_index s) (spaces s) (source_backing_bytes
    s) (readiness s) (next_sent_id s) (oldest_sent_id s) (oldest_feedback s) (newest_feedback s)
    (highest_feedback_acked s) (feedback_reference s) (feedback_generation s) (active_epoch s) v (inputs s) (counters
    s) (bytes_in_flight s) (reordering_window s) (observed_reordering_window s) (missing s) (missing_capacity s)
    (loss_work s).
Definition with_inputs (v : SenderInputs) (s : Sender) : Sender :=
  mkSender (config s) (mode s) (max_backing_bytes s) (entries s) (feedback_index s) (spaces s) (source_backing_bytes
    s) (readiness s) (next_sent_id s) (oldest_sent_id s) (oldest_feedback s) (newest_feedback s)
    (highest_feedback_acked s) (feedback_reference s) (feedback_generation s) (active_epoch s) (last_path s) v
    (counters s) (bytes_in_flight s) (reordering_window s) (observed_reordering_window s) (missing s)
    (missing_capacity s) (loss_work s).
Definition with_counters (v : HistoryCounters) (s : Sender) : Sender :=
  mkSender (config s) (mode s) (max_backing_bytes s) (entries s) (feedback_index s) (spaces s) (source_backing_bytes
    s) (readiness s) (next_sent_id s) (oldest_sent_id s) (oldest_feedback s) (newest_feedback s)
    (highest_feedback_acked s) (feedback_reference s) (feedback_generation s) (active_epoch s) (last_path s) (inputs
    s) v (bytes_in_flight s) (reordering_window s) (observed_reordering_window s) (missing s) (missing_capacity s)
    (loss_work s).
Definition with_bytes_in_flight (v : Z) (s : Sender) : Sender :=
  mkSender (config s) (mode s) (max_backing_bytes s) (entries s) (feedback_index s) (spaces s) (source_backing_bytes
    s) (readiness s) (next_sent_id s) (oldest_sent_id s) (oldest_feedback s) (newest_feedback s)
    (highest_feedback_acked s) (feedback_reference s) (feedback_generation s) (active_epoch s) (last_path s) (inputs
    s) (counters s) v (reordering_window s) (observed_reordering_window s) (missing s) (missing_capacity s) (loss_work
    s).
Definition with_reordering_window (v : Z) (s : Sender) : Sender :=
  mkSender (config s) (mode s) (max_backing_bytes s) (entries s) (feedback_index s) (spaces s) (source_backing_bytes
    s) (readiness s) (next_sent_id s) (oldest_sent_id s) (oldest_feedback s) (newest_feedback s)
    (highest_feedback_acked s) (feedback_reference s) (feedback_generation s) (active_epoch s) (last_path s) (inputs
    s) (counters s) (bytes_in_flight s) v (observed_reordering_window s) (missing s) (missing_capacity s) (loss_work
    s).
Definition with_observed_reordering_window (v : Z) (s : Sender) : Sender :=
  mkSender (config s) (mode s) (max_backing_bytes s) (entries s) (feedback_index s) (spaces s) (source_backing_bytes
    s) (readiness s) (next_sent_id s) (oldest_sent_id s) (oldest_feedback s) (newest_feedback s)
    (highest_feedback_acked s) (feedback_reference s) (feedback_generation s) (active_epoch s) (last_path s) (inputs
    s) (counters s) (bytes_in_flight s) (reordering_window s) v (missing s) (missing_capacity s) (loss_work s).
Definition with_missing (v : list Z) (s : Sender) : Sender :=
  mkSender (config s) (mode s) (max_backing_bytes s) (entries s) (feedback_index s) (spaces s) (source_backing_bytes
    s) (readiness s) (next_sent_id s) (oldest_sent_id s) (oldest_feedback s) (newest_feedback s)
    (highest_feedback_acked s) (feedback_reference s) (feedback_generation s) (active_epoch s) (last_path s) (inputs
    s) (counters s) (bytes_in_flight s) (reordering_window s) (observed_reordering_window s) v (missing_capacity s)
    (loss_work s).
Definition with_missing_capacity (v : Z) (s : Sender) : Sender :=
  mkSender (config s) (mode s) (max_backing_bytes s) (entries s) (feedback_index s) (spaces s) (source_backing_bytes
    s) (readiness s) (next_sent_id s) (oldest_sent_id s) (oldest_feedback s) (newest_feedback s)
    (highest_feedback_acked s) (feedback_reference s) (feedback_generation s) (active_epoch s) (last_path s) (inputs
    s) (counters s) (bytes_in_flight s) (reordering_window s) (observed_reordering_window s) (missing s) v (loss_work
    s).
Definition with_loss_work (v : Z) (s : Sender) : Sender :=
  mkSender (config s) (mode s) (max_backing_bytes s) (entries s) (feedback_index s) (spaces s) (source_backing_bytes
    s) (readiness s) (next_sent_id s) (oldest_sent_id s) (oldest_feedback s) (newest_feedback s)
    (highest_feedback_acked s) (feedback_reference s) (feedback_generation s) (active_epoch s) (last_path s) (inputs
    s) (counters s) (bytes_in_flight s) (reordering_window s) (observed_reordering_window s) (missing s)
    (missing_capacity s) v.

(** ** Slots *)

Definition slot (s : Sender) (v : Z) : nat := Z.to_nat (v `mod` capacity (config s)).

Definition entry (s : Sender) (i : Z) : option SentEntry :=
  match entries s !! slot s i with
  | Some (Some e) => if sent_id e =? i then Some e else None
  | _ => None
  end.

(** The entry [entry_mut] found, written back. *)
Definition put_entry (s : Sender) (e : SentEntry) : Sender :=
  with_entries (<[slot s (sent_id e) := Some e]> (entries s)) s.

Definition insert_key (k : option Readiness) (s : Sender) : Sender :=
  match k with Some k => with_readiness ({[k]} ∪ readiness s) s | None => s end.
Definition remove_key (k : option Readiness) (s : Sender) : Sender :=
  match k with Some k => with_readiness (readiness s ∖ {[k]}) s | None => s end.

Definition on_inputs (f : SenderInputs -> SenderInputs) (s : Sender) : Sender := with_inputs (f (inputs s)) s.
Definition fail_exhausted (s : Sender) : Sender := on_inputs (with_exhausted true) s.

Definition on_counters (f : HistoryCounters -> HistoryCounters) (s : Sender) : Sender := with_counters (f (counters s)) s.
Definition add_unknown (n : Z) (s : Sender) : Sender :=
  on_counters (fun c => mkCounters (saturating_add 64 (unknown_feedback c) n) (duplicate_feedback c) (stale_feedback c)
    (reordered_feedback c) (wrong_path_feedback c) (expired c) (received_packets c) (not_received c)) s.
Definition add_duplicate (n : Z) (s : Sender) : Sender :=
  on_counters (fun c => mkCounters (unknown_feedback c) (saturating_add 64 (duplicate_feedback c) n) (stale_feedback c)
    (reordered_feedback c) (wrong_path_feedback c) (expired c) (received_packets c) (not_received c)) s.
Definition add_stale (n : Z) (s : Sender) : Sender :=
  on_counters (fun c => mkCounters (unknown_feedback c) (duplicate_feedback c) (saturating_add 64 (stale_feedback c) n)
    (reordered_feedback c) (wrong_path_feedback c) (expired c) (received_packets c) (not_received c)) s.
Definition add_reordered (n : Z) (s : Sender) : Sender :=
  on_counters (fun c => mkCounters (unknown_feedback c) (duplicate_feedback c) (stale_feedback c)
    (saturating_add 64 (reordered_feedback c) n) (wrong_path_feedback c) (expired c) (received_packets c) (not_received c)) s.
Definition add_wrong_path (n : Z) (s : Sender) : Sender :=
  on_counters (fun c => mkCounters (unknown_feedback c) (duplicate_feedback c) (stale_feedback c) (reordered_feedback c)
    (saturating_add 64 (wrong_path_feedback c) n) (expired c) (received_packets c) (not_received c)) s.
Definition add_expired (n : Z) (s : Sender) : Sender :=
  on_counters (fun c => mkCounters (unknown_feedback c) (duplicate_feedback c) (stale_feedback c) (reordered_feedback c)
    (wrong_path_feedback c) (saturating_add 64 (expired c) n) (received_packets c) (not_received c)) s.
Definition add_received (n : Z) (s : Sender) : Sender :=
  on_counters (fun c => mkCounters (unknown_feedback c) (duplicate_feedback c) (stale_feedback c) (reordered_feedback c)
    (wrong_path_feedback c) (expired c) (saturating_add 64 (received_packets c) n) (not_received c)) s.
Definition add_not_received (n : Z) (s : Sender) : Sender :=
  on_counters (fun c => mkCounters (unknown_feedback c) (duplicate_feedback c) (stale_feedback c) (reordered_feedback c)
    (wrong_path_feedback c) (expired c) (received_packets c) (saturating_add 64 (not_received c) n)) s.

(** ** Storage *)

Definition backing_bytes (s : Sender) : option Z :=
  a ← checked_add 64 (Z.of_nat (length (entries s)) * size_entry) (Z.of_nat (length (feedback_index s)) * size_index);
  n ← checked_add 64 (feedback_capacity (inputs s)) (synthetic_capacity (inputs s));
  o ← checked_mul n size_observation;
  ao ← checked_add 64 a o;
  m ← checked_mul (missing_capacity s) size_missing;
  aom ← checked_add 64 ao m;
  checked_add 64 aom (source_backing_bytes s).

(** The next capacity of a vector that is full: twice as much, within what is
    left, and at least what is needed. *)
Definition grown (current most required : Z) : Z :=
  Z.min (Z.max (default most (checked_mul current 2)) required) most.

(** A vector of [current] slots of [stride] bytes, [used] of them, gets one more.
    [None]: the budget or the allocator refuses. *)
Definition reserve_one (s : Sender) (current used stride : Z) : option Z :=
  total ← backing_bytes s;
  own ← checked_mul current stride;
  base ← checked_sub total own;
  rest ← checked_sub (max_backing_bytes s) base;
  let most := rest `div` stride in
  required ← checked_add 64 used 1;
  if most <? required then None
  else
    granted ← grant (grown current most required);
    more ← checked_mul granted stride;
    bytes ← checked_add 64 base more;
    if max_backing_bytes s <? bytes then None else Some granted.

Definition reserve_missing_slot (s : Sender) : option Sender :=
  let used := Z.of_nat (length (missing s)) in
  if used <? missing_capacity s then Some s
  else granted ← reserve_one s (missing_capacity s) used size_missing; Some (with_missing_capacity granted s).

Definition reserve_feedback_slot (s : Sender) : option Sender :=
  let used := Z.of_nat (length (feedback (inputs s))) in
  if used <? feedback_capacity (inputs s) then Some s
  else
    granted ← reserve_one s (feedback_capacity (inputs s)) used size_observation;
    Some (on_inputs (with_feedback_capacity granted) s).

Record Storage := mkStorage {
  st_entries : list (option SentEntry);
  st_index : list (option FeedbackIndex);
  st_feedback_capacity : Z;
  st_synthetic_capacity : Z;
}.

Definition within (limit : Z) (o : option Z) : result SenderError () :=
  match o with Some bytes => if bytes <=? limit then Ok () else Err SendExhausted | None => Err SendExhausted end.

Definition storage_new (c : SenderConfig) (limit : Z) : result SenderError Storage :=
  _ ← within limit (storage_bytes_for (capacity c) (max_feedback_statuses c) (max_expirations_per_poll c));
  _ ← ok_or (grant (capacity c)) SendExhausted;
  f ← ok_or (grant (max_feedback_statuses c)) SendExhausted;
  y ← ok_or (grant (max_expirations_per_poll c)) SendExhausted;
  _ ← within limit (storage_bytes_for (capacity c) f y);
  mret (mkStorage (replicate (Z.to_nat (capacity c)) None) (replicate (Z.to_nat (capacity c)) None) f y).

Definition prepare_feedback_profile (s : Sender) (profile : FeedbackMode) : result SenderError (option Storage) :=
  match mode s with
  | None => st ← storage_new (config s) (max_backing_bytes s); mret (Some st)
  | Some current => if decide (current = profile) then Ok None else Err InvalidCommit
  end.

(** [PreparedProfile::commit]; the vectors it puts in place are empty. *)
Definition commit_profile (s : Sender) (profile : FeedbackMode) (st : option Storage) : Sender :=
  let s := match st with
    | Some st =>
        on_inputs (fun i => with_synthetic_capacity (st_synthetic_capacity st) (with_synthetic []
                            (with_feedback_capacity (st_feedback_capacity st) (with_feedback [] i))))
          (with_feedback_index (st_index st) (with_entries (st_entries st) s))
    | None => s
    end in
  with_mode (Some profile) s.

Definition sender_new (c : SenderConfig) (m : option FeedbackMode) (limit : Z) : result SenderError Sender :=
  _ ← validate c;
  let s := mkSender c None limit [] [] ∅ 0 ∅ 0 0 None None None None None None None inputs_default counters_default 0
    (initial_reordering_window c) (initial_reordering_window c) [] 0 0 in
  match m with
  | Some profile => st ← prepare_feedback_profile s profile; mret (commit_profile s profile st)
  | None => mret s
  end.

(** ** Sending *)

Definition mode_allows (m : option FeedbackMode) (feedback : option Z) : bool :=
  match m, feedback with
  | Some ModeContinuous, Some _ | Some ModeIndependent, None => true
  | _, _ => false
  end.

(** A live packet of this epoch would be overwritten. *)
Definition occupied (epoch : Z) (e : option SentEntry) : bool :=
  match e with Some e => (path_epoch e =? epoch) && negb (is_terminal (acknowledgment e)) | None => false end.

Definition validate_commit (s : Sender) (c : SendCommit) : result SenderError () :=
  let epoch := c_path_epoch c in
  let i := identity c in
  if bool_decide (active_epoch s <> Some epoch)
     || match spaces s !! i_space i with
        | Some p => terminal p || bool_decide (is_Some (table_map (by_sequence p) !! i_packet i))
        | None => false
        end
     || (c_wire_len c =? 0) || (umax 32 <? c_wire_len c)
     || negb (mode_allows (mode s) (i_feedback_sequence i))
     || (next_sent_id s =? umax 64)
     || bool_decide (checked_add 64 (bytes_in_flight s) (c_wire_len c) = None)
  then Err InvalidCommit
  else
    _ ← match i_feedback_sequence i with
        | None => Ok ()
        | Some p =>
            if match newest_feedback s with Some newest => p <=? newest | None => false end then Err InvalidCommit
            else
              if occupied epoch (mjoin (feedback_index s !! slot s p) ≫= (fun x => entry s (x_sent_id x)))
              then Err SendExhausted else Ok ()
        end;
    if occupied epoch (mjoin (entries s !! slot s (next_sent_id s))) then Err SendExhausted else Ok ().

Definition table_len (t : T) : Z := Z.of_nat (size (table_map t)).

(** The replacement table and the new total of the spaces' bytes. *)
Definition reserve_table (s : Sender) (state : option SpaceHistory) (required : Z) : option (T * Z) :=
  let old_capacity := match state with Some p => index_capacity p | None => 0 end in
  let payload := match state with Some _ => 0 | None => size_source end in
  let stride := size_source_entry in
  old_bytes ← checked_mul old_capacity stride;
  total ← backing_bytes s;
  without ← checked_sub total old_bytes;
  base ← checked_add 64 without payload;
  rest ← checked_sub (max_backing_bytes s) base;
  let most := rest `div` stride in
  if most <? required then None
  else
    let target := Z.min (Z.max (if required <=? old_capacity then old_capacity
                                else default most (checked_mul old_capacity 2)) required) most in
    first ← table_reserve target;
    replacement ← (if (most <? table_capacity first) && (required <? target) then table_reserve required else Some first);
    bytes ← checked_mul (table_capacity replacement) stride;
    sum ← checked_add 64 base bytes;
    if max_backing_bytes s <? sum then None
    else
      less ← checked_sub (source_backing_bytes s) old_bytes;
      more ← checked_add 64 less payload;
      sources ← checked_add 64 more bytes;
      Some (replacement, sources).

Definition reserve_source_capacity (s : Sender) (i : SendIdentity) (required : Z) : Sender * result SenderError () :=
  let state := spaces s !! i_space i in
  if match state with Some p => required <=? table_capacity (by_sequence p) | None => false end then (s, Ok ())
  else
    match reserve_table s state required with
    | None => (s, Err SendExhausted)
    | Some (replacement, sources) =>
        let s := match state with
          | Some p =>
              with_spaces (<[i_space i :=
                mkSpace (first_sequence p) (newest_sequence p) (highest_acked_sequence p)
                  (map_fold table_insert replacement (table_map (by_sequence p))) (table_capacity replacement)
                  (last_report_generation p) (latest_commit_at p) (terminal p)]> (spaces s)) s
          | None =>
              insert_key (Some (Unscheduled (i_space i)))
                (with_spaces (<[i_space i :=
                   mkSpace (i_packet i) (i_packet i) None replacement (table_capacity replacement) None None false]> (spaces s)) s)
          end in
        (with_source_backing_bytes sources s, Ok ())
    end.

Definition prepare_commit (s : Sender) (c : SendCommit) : Sender * result SenderError () :=
  match validate_commit s c with
  | Err e => (s, Err e)
  | Ok _ =>
      let len := match spaces s !! i_space (identity c) with Some p => table_len (by_sequence p) | None => 0 end in
      match checked_add 64 len 1 with
      | None => (s, Err SendExhausted)
      | Some required => reserve_source_capacity s (identity c) required
      end
  end.

Definition preflight_commit (s : Sender) (c : SendCommit) : result SenderError () :=
  _ ← validate_commit s c;
  match spaces s !! i_space (identity c) with
  | Some p => if table_capacity (by_sequence p) <=? table_len (by_sequence p) then Err SendExhausted else Ok ()
  | None => Err SendExhausted
  end.

Definition least_above (v : Z) (l : list (option FeedbackIndex)) : option Z :=
  min_of (filter (fun x => v < x) (omap (fun x => x_sequence <$> x) l)).

Definition remove_indexes (s : Sender) (e : SentEntry) : Sender :=
  let s := remove_key (entry_readiness (reordering_window s) e) s in
  let s := match feedback_sequence e with
    | None => s
    | Some q =>
        let s := match mjoin (feedback_index s !! slot s q) with
          | Some x => if x_sent_id x =? sent_id e then with_feedback_index (<[slot s q := None]> (feedback_index s)) s else s
          | None => s
          end in
        if decide (oldest_feedback s = Some q) then with_oldest_feedback (least_above q (feedback_index s)) s else s
    end in
  match spaces s !! e_space e with
  | Some p =>
      if decide (table_map (by_sequence p) !! packet_sequence e = Some (sent_id e)) then
        with_spaces (<[e_space e := with_by_sequence (table_remove (packet_sequence e) (by_sequence p)) p]> (spaces s)) s
      else s
  | None => s
  end.

(** What sending does to its space. *)
Definition space_commit (p : SpaceHistory) (epoch at_ packet sent : Z) : SpaceHistory :=
  let moved := match last_report_generation p with Some (path, _) => negb (path =? epoch) | None => false end in
  let empty := bool_decide (table_map (by_sequence p) = ∅) in
  mkSpace
    (if empty then packet else Z.min (first_sequence p) packet)
    (if empty then packet else Z.max (newest_sequence p) packet)
    (if moved then None else highest_acked_sequence p)
    (table_insert packet sent (by_sequence p))
    (index_capacity p)
    (if moved then None else last_report_generation p)
    (Some (match latest_commit_at p with Some t => Z.max t at_ | None => at_ end))
    (terminal p).

Definition index_feedback (s : Sender) (sequence sent : Z) : Sender :=
  with_feedback_index (<[slot s sequence := Some (mkIndex sequence sent)]> (feedback_index s))
    (with_newest_feedback (Some sequence)
       (with_oldest_feedback (Some (default sequence (oldest_feedback s))) s)).

Definition sent_entry (c : SendCommit) (sent : Z) : SentEntry :=
  mkSent sent (at_ c) (c_wire_len c) (c_path_epoch c) (i_space (identity c)) (i_packet (identity c))
    (i_feedback_sequence (identity c)) (i_tag (identity c)) Pending false None None true.

Definition commit_context (s : Sender) (c : SendCommit) : Sender * result SenderError () :=
  match preflight_commit s c with
  | Err e => (s, Err e)
  | Ok _ =>
      let i := identity c in
      let sent := next_sent_id s in
      let s := match mjoin (entries s !! slot s sent) with Some previous => remove_indexes s previous | None => s end in
      match spaces s !! i_space i with
      | None => (s, Err InvalidCommit)
      | Some p =>
          let s := with_spaces (<[i_space i := space_commit p (c_path_epoch c) (at_ c) (i_packet i) sent]> (spaces s)) s in
          let s := match i_feedback_sequence i with Some q => index_feedback s q sent | None => s end in
          let s := put_entry s (sent_entry c sent) in
          match checked_add 64 (next_sent_id s) 1 with
          | None => (s, Err SendExhausted)
          | Some next =>
              let s := with_oldest_sent_id (Z.max (oldest_sent_id s) (saturating_sub next (capacity (config s))))
                         (with_next_sent_id next s) in
              match checked_add 64 (bytes_in_flight s) (c_wire_len c) with
              | None => (s, Err SendExhausted)
              | Some bytes => (on_inputs (with_reported_in_flight bytes) (with_bytes_in_flight bytes s), Ok ())
              end
          end
      end
  end.

Definition commit_preflighted (s : Sender) (c : SendCommit) : Sender * result SenderError () := commit_context s c.

(** ** Spaces and paths *)

Definition retire_source (s : Sender) (space : Z) : Sender :=
  match spaces s !! space with
  | None => s
  | Some p =>
      if terminal p then s
      else
        let previous := space_readiness p space (retention (config s)) in
        let p := with_terminal true p in
        let next := space_readiness p space (retention (config s)) in
        let s := with_spaces (<[space := p]> (spaces s)) s in
        if decide (previous = next) then s else insert_key (Some next) (remove_key (Some previous) s)
  end.

(** [readiness.pop_first()], and the space it names goes. *)
Definition reclaim_space (s : Sender) (deadline : option Z) (space : Z) : Sender :=
  let s := remove_key (Some (ReadyRetired deadline space)) s in
  match spaces s !! space with
  | Some p =>
      with_source_backing_bytes
        (wrapping_sub 64 (source_backing_bytes s) (wrapping_add 64 size_source (wrap 64 (index_capacity p * size_source_entry))))
        (with_spaces (delete space (spaces s)) s)
  | None => s
  end.

Fixpoint reclaim_loop (fuel : nat) (s : Sender) (now work limit : Z) : Sender * Z :=
  match fuel with
  | O => (s, work)
  | S fuel =>
      if (work <? limit) && (loss_work s <? max_expirations_per_poll (config s)) then
        match first_ready (readiness s) with
        | Some (ReadyRetired deadline space) =>
            if match deadline with Some d => now <? d | None => false end then (s, work)
            else
              let s := reclaim_space s deadline space in
              reclaim_loop fuel (with_loss_work (loss_work s + 1) s) now (work + 1) limit
        | _ => (s, work)
        end
      else (s, work)
  end.
Definition reclaim_sources (s : Sender) (now limit : Z) : Sender * Z := reclaim_loop (Z.to_nat limit) s now 0 limit.

(** A packet sent on a path that is no longer in use stops counting. *)
Definition leave_path (active : option Z) (e : SentEntry) (bytes : Z) : SentEntry * Z :=
  if negb (is_terminal (acknowledgment e)) && bool_decide (active <> Some (path_epoch e)) then
    let e := with_acknowledgment Retired e in
    if in_flight e then (with_in_flight false e, saturating_sub bytes (wire_len e)) else (e, bytes)
  else (e, bytes).

Fixpoint change_path (active : option Z) (l : list (option SentEntry)) (s : Sender) : Sender * list (option SentEntry) :=
  match l with
  | [] => (s, [])
  | None :: l => let '(s, l) := change_path active l s in (s, None :: l)
  | Some e :: l =>
      let s := remove_key (entry_readiness (reordering_window s) e) s in
      let s := match spaces s !! e_space e with
        | Some p =>
            with_spaces (<[e_space e := with_by_sequence (table_remove (packet_sequence e) (by_sequence p))
                             (with_highest_acked_sequence None (with_last_report_generation None p))]> (spaces s)) s
        | None => s
        end in
      let '(e, bytes) := leave_path active e (bytes_in_flight s) in
      let '(s, l) := change_path active l (with_bytes_in_flight bytes s) in
      (s, Some e :: l)
  end.

Definition set_availability (s : Sender) (epoch : Z) (available : bool) : Sender :=
  if bool_decide (last_path s = Some (epoch, available))
     || (negb available && match last_path s with Some (_, previous) => negb previous | None => false end) then s
  else
    let active := if available then Some epoch else None in
    let '(s, l) := change_path active (entries s) (with_active_epoch active (with_last_path (Some (epoch, available)) s)) in
    let s := with_entries l s in
    let s := on_inputs (fun i =>
      with_path_change (Some (mkAvailability epoch available)) (with_fresh_network_feedback false (with_timing None
        (with_synthetic [] (with_feedback [] (with_reported_in_flight (bytes_in_flight s) i)))))) s in
    with_observed_reordering_window (initial_reordering_window (config s))
      (with_reordering_window (initial_reordering_window (config s))
         (with_missing [] (with_oldest_feedback None (with_highest_feedback_acked None
            (with_feedback_generation None (with_feedback_reference None s)))))).

Definition reject_unmapped_feedback (s : Sender) (epoch n : Z) : Sender :=
  if exhausted (inputs s) then s
  else if decide (active_epoch s = Some epoch) then add_unknown n s else add_wrong_path n s.

Definition clear_observations (s : Sender) : Sender :=
  on_inputs (fun i => with_path_change None (with_fresh_network_feedback false (with_timing None (with_synthetic [] (with_feedback [] i)))))
    (with_loss_work 0 s).

Definition set_application_limited (s : Sender) (b : bool) : Sender := on_inputs (with_application_limited b) s.

Definition space_anchor (s : Sender) (space : Z) : option (Z * option Z) :=
  p ← spaces s !! space;
  Some (newest_sequence p,
        '(epoch, generation) ← last_report_generation p;
        if decide (Some epoch = active_epoch s) then Some generation else None).

Definition clear (s : Sender) (epoch : Z) : Sender :=
  let s := mkSender (config s) (mode s) (max_backing_bytes s) (map (fun _ => None) (entries s)) (map (fun _ => None) (feedback_index s)) ∅ 0 ∅
    (next_sent_id s) (next_sent_id s) None None None None None (Some epoch) (Some (epoch, true)) (inputs s) (counters s) 0
    (reordering_window s) (observed_reordering_window s) [] (missing_capacity s) (loss_work s) in
  let s := clear_observations s in
  let s := on_inputs (fun i => with_path_change (Some (mkAvailability epoch true)) (with_application_limited false
             (with_exhausted false (with_reported_in_flight 0 i)))) s in
  with_observed_reordering_window (initial_reordering_window (config s))
    (with_reordering_window (initial_reordering_window (config s)) s).

Definition abort (s : Sender) : Sender :=
  let s := clear s (default 0 (active_epoch s)) in
  let s := with_missing_capacity 0 (with_missing [] (with_feedback_index [] (with_entries [] s))) in
  let s := on_inputs (fun i => with_path_change None (with_synthetic_capacity 0 (with_synthetic []
             (with_feedback_capacity 0 (with_feedback [] i))))) s in
  with_last_path None (with_active_epoch None (with_mode None s)).

(** ** What feedback says of a packet *)

Definition feedback_sent_id (s : Sender) (sequence : Z) : option Z :=
  x ← mjoin (feedback_index s !! slot s sequence);
  if x_sequence x =? sequence then Some (x_sent_id x) else None.

Definition lookup_packet (s : Sender) (space sequence : Z) : option Z :=
  p ← spaces s !! space;
  i ← table_map (by_sequence p) !! sequence;
  e ← entry s i;
  if (e_space e =? space) && (packet_sequence e =? sequence) then Some i else None.

Definition retire_from_flight (s : Sender) (i : Z) : Sender :=
  match entry s i with
  | None => s
  | Some e =>
      if in_flight e then
        let bytes := saturating_sub (bytes_in_flight s) (wire_len e) in
        on_inputs (with_reported_in_flight bytes) (with_bytes_in_flight bytes (put_entry s (with_in_flight false e)))
      else s
  end.

(** The last observation, when it is the one [previous] tests. *)
Definition acks_previous (i : Z) (l : list SentObservation) : option (list SentObservation * SentObservation) :=
  match last l with
  | Some o =>
      if (o_sent_id o =? i) && reported_lost_for_the_first_time o && negb (o_received o)
      then Some (removelast l, o) else None
  | None => None
  end.

Definition with_newly_acked (b : bool) (o : SentObservation) : SentObservation :=
  mkObservation (o_sent_id o) (o_space o) (o_committed_at o) (transport_bytes o) (o_tag o) (o_received o) b (lost o)
    (reported_lost_for_the_first_time o) (recovered o) (observed_at o) (loss_origin o) (receiver_arrival o) (o_ecn o).

Definition is_missing (a : Acknowledgment) : bool := match a with Missing _ _ => true | _ => false end.

Definition push_observation (s : Sender) (e : SentEntry) (got acked : bool) (origin : option LossOrigin)
    (arrived : option ReceiverTime) (mark : option Ecn) (seen : option Z) : Sender :=
  let first := bool_decide (mode s = Some ModeIndependent) && negb got && negb (network_loss_reported e)
    && (bool_decide (origin = Some Reordering) || is_missing (acknowledgment e)) in
  let back := got && network_loss_reported e in
  let s := if first then put_entry s (with_network_loss_reported true e)
           else if back then put_entry s (with_network_loss_reported false e) else s in
  let sample := mkObservation (sent_id e) (e_space e) (committed_at e) (Z.min (wire_len e) (umax 32)) (e_tag e) got acked
    (bool_decide (is_Some origin)) first back seen origin arrived mark in
  match origin with
  | Some _ =>
      if Z.of_nat (length (synthetic (inputs s))) <? max_expirations_per_poll (config s)
      then on_inputs (fun i => with_synthetic (synthetic i ++ [sample]) i) s else fail_exhausted s
  | None => on_inputs (fun i => with_feedback (feedback i ++ [sample]) i) s
  end.

Definition emit_observed (s : Sender) (i : Z) (got acked : bool) (origin : option LossOrigin)
    (arrived : option ReceiverTime) (mark : option Ecn) (seen : option Z) : Sender :=
  match (if acked && negb got && bool_decide (origin = None) then acks_previous i (feedback (inputs s)) else None) with
  | Some (before, o) => on_inputs (with_feedback (before ++ [with_newly_acked true o])) s
  | None =>
      match entry s i with
      | None => s
      | Some e =>
          match (if decide (origin = None) then reserve_feedback_slot s else Some s) with
          | None => fail_exhausted s
          | Some s => push_observation s e got acked origin arrived mark seen
          end
      end
  end.
Definition emit (s : Sender) (i : Z) (got acked : bool) (origin : option LossOrigin) : Sender :=
  emit_observed s i got acked origin None None None.

Definition reorder_deadline (s : Sender) (e : SentEntry) : option Z := entry_reorder_deadline (reordering_window s) e.
Definition deadline_passed (s : Sender) (e : SentEntry) (now : Z) : bool :=
  match reorder_deadline s e with Some d => d <=? now | None => false end.
(** [now.saturating_sub(committed_at) < retention] *)
Definition retained (s : Sender) (e : SentEntry) (now : Z) : bool :=
  saturating_sub now (committed_at e) <? retention (config s).

Definition mark_lost_unbudgeted (s : Sender) (i : Z) (origin : LossOrigin) : Sender :=
  match entry s i with
  | None => s
  | Some e0 =>
      let '(s, origin) :=
        match origin with
        | HistoryExpiry =>
            (retire_from_flight s i,
             match duration_checked_add (committed_at e0) (retention (config s)), reorder_deadline s e0 with
             | Some expiry, Some d => if d <=? expiry then Reordering else HistoryExpiry
             | _, _ => HistoryExpiry
             end)
        | Reordering => (s, Reordering)
        end in
      match entry s i with
      | None => s
      | Some e =>
          if is_terminal (acknowledgment e) then s
          else
            let previous := entry_readiness (reordering_window s) e in
            emit (add_not_received 1 (remove_key previous (put_entry s (with_acknowledgment Lost e)))) i false false (Some origin)
      end
  end.

(** [false]: no loss work is left. *)
Definition mark_lost (s : Sender) (i : Z) (origin : LossOrigin) : Sender * bool :=
  match entry s i with
  | None => (s, true)
  | Some e =>
      if is_terminal (acknowledgment e) then (s, true)
      else if loss_work s =? max_expirations_per_poll (config s) then (s, false)
      else (mark_lost_unbudgeted (with_loss_work (loss_work s + 1) s) i origin, true)
  end.

Definition set_received (s : Sender) (i : Z) (acked : bool) (arrived : option ReceiverTime) (mark : option Ecn) (now : Z) : Sender :=
  match entry s i with
  | None => s
  | Some e =>
      let late := bool_decide (acknowledgment e = Lost) in
      if is_terminal (acknowledgment e) && negb (late && bool_decide (is_Some (missing_since e))) then add_duplicate 1 s
      else
        let previous := entry_readiness (reordering_window s) e in
        let e' := with_missing_since None (if late then e else with_acknowledgment Received e) in
        let s := remove_key previous (put_entry s e') in
        let s := if late then s else add_received 1 s in
        emit_observed s i true acked None arrived mark (Some now)
  end.

Definition set_missing (s : Sender) (i : Z) (now : Z) : Sender :=
  match entry s i with
  | None => s
  | Some e =>
      if decide (acknowledgment e = Pending) then
        match reserve_missing_slot s with
        | None => fail_exhausted s
        | Some s =>
            let s := put_entry s (with_missing_since (Some now) (with_acknowledgment (Missing now None) e)) in
            emit_observed (with_missing (missing s ++ [i]) s) i false false None None None (Some now)
        end
      else s
  end.

Definition is_live_feedback_entry (s : Sender) (now : Z) (e : SentEntry) : bool :=
  negb (is_terminal (acknowledgment e)) && retained s e now && negb (deadline_passed s e now).

Definition is_recoverable_entry (s : Sender) (now : Z) (e : SentEntry) : bool :=
  (is_missing (acknowledgment e) || (bool_decide (acknowledgment e = Lost) && bool_decide (is_Some (missing_since e))))
  && retained s e now.

Definition recovery_is_fresh (s : Sender) (now : Z) (is_new : bool) (e : SentEntry) : bool :=
  is_recoverable_entry s now e && (is_new || is_live_feedback_entry s now e).

Definition learn_window (s : Sender) (now since : Z) : Sender :=
  with_observed_reordering_window
    (Z.max (observed_reordering_window s) (Z.min (saturating_sub now since) (max_reordering_window (config s)))) s.

(** [entry_mut(id).and_then(|e| e.missing_since.take())], then the window. *)
Definition take_missing_since (s : Sender) (i : Z) (now : Z) : Sender :=
  match entry s i with
  | Some e =>
      match missing_since e with
      | Some since => learn_window (put_entry s (with_missing_since None e)) now since
      | None => s
      end
  | None => s
  end.

(** [true]: the receipt is a replay and was dealt with. *)
Definition reject_replayed_terminal_receipt (s : Sender) (o : option Z) (epoch now : Z) (is_new : bool) : Sender * bool :=
  match o ≫= (fun i => e ← entry s i; Some (i, e)) with
  | Some (i, e) =>
      if negb is_new && (path_epoch e =? epoch) && retained s e now
         && (bool_decide (acknowledgment e = Lost) || deadline_passed s e now) then
        let s := take_missing_since s i now in
        let '(s, marked) := mark_lost s i Reordering in
        (if marked then add_duplicate 1 s else s, true)
      else (s, false)
  | None => (s, false)
  end.

Definition recover (s : Sender) (o : option Z) (epoch : Z) (arrived : option ReceiverTime) (mark : option Ecn) (now : Z) : Sender :=
  match o ≫= (fun i => e ← entry s i; Some (i, e)) with
  | None => add_unknown 1 s
  | Some (i, e) =>
      if negb (path_epoch e =? epoch) then add_wrong_path 1 s
      else if negb (retained s e now) then
        let '(s, marked) := mark_lost s i HistoryExpiry in
        if marked then take_missing_since s i now else s
      else
        match acknowledgment e with
        | Missing since _ =>
            let '(s', go) := if deadline_passed s e now then mark_lost s i Reordering else (s, true) in
            if go then learn_window (set_received s' i false arrived mark now) now since else s'
        | Lost =>
            match missing_since e with
            | Some since => set_received (learn_window s now since) i false arrived mark now
            | None => add_duplicate 1 s
            end
        | Received | Retired => add_duplicate 1 s
        | Pending => set_received (retire_from_flight s i) i false arrived mark now
        end
  end.

Definition advance_entry (s : Sender) (o : option Z) (epoch : Z) (got : bool) (arrived : option ReceiverTime) (mark : option Ecn)
    (now : Z) : Sender :=
  match o ≫= (fun i => e ← entry s i; Some (i, e)) with
  | None => add_unknown 1 s
  | Some (i, e) =>
      if negb (path_epoch e =? epoch) then add_wrong_path 1 s
      else if negb (retained s e now) then (mark_lost s i HistoryExpiry).1
      else
        match (if negb got && bool_decide (acknowledgment e = Pending) then reserve_missing_slot s else Some s) with
        | None => fail_exhausted s
        | Some s =>
            let s := retire_from_flight s i in
            if got then
              let '(s', go) := if deadline_passed s e now then mark_lost s i Reordering else (s, true) in
              if go then set_received s' i true arrived mark now else s'
            else
              let s := set_missing s i now in
              if exhausted (inputs s) then s else emit s i false true None
        end
  end.

(** A packet still missing when one above it arrived can be given up. *)
Definition anchored (feedback_edge : option Z) (space_edge : option (Z * Z)) (e : SentEntry) : bool :=
  match feedback_edge, feedback_sequence e with Some edge, Some q => q <? edge | _, _ => false end
  || match space_edge with Some (space, edge) => (e_space e =? space) && (packet_sequence e <? edge) | None => false end.

Definition anchor_one (feedback_edge : option Z) (space_edge : option (Z * Z)) (now : Z) (s : Sender) (i : Z) : Sender :=
  match entry s i with
  | None => s
  | Some e =>
      match acknowledgment e with
      | Missing since None =>
          if anchored feedback_edge space_edge e then
            let e := with_acknowledgment (Missing since (Some now)) e in
            insert_key (entry_readiness (reordering_window s) e) (put_entry s e)
          else s
      | _ => s
      end
  end.
Definition anchor_missing (s : Sender) (feedback_edge : option Z) (space_edge : option (Z * Z)) (now : Z) : Sender :=
  foldl (anchor_one feedback_edge space_edge now) s (missing s).

(** ** Giving packets up *)

Fixpoint confirm_loop (fuel : nat) (s : Sender) (now : Z) : Sender * Z :=
  match fuel with
  | O => (s, 0)
  | S fuel =>
      match missing s with
      | [] => (s, 0)
      | i :: rest =>
          let s := with_loss_work (loss_work s + 1) (with_missing rest s) in
          let s := match entry s i with
            | None => s
            | Some e =>
                if is_missing (acknowledgment e) then
                  if deadline_passed s e now then mark_lost_unbudgeted s i Reordering else with_missing (missing s ++ [i]) s
                else s
            end in
          let '(s, work) := confirm_loop fuel s now in (s, work + 1)
      end
  end.
Definition confirm_losses (s : Sender) (now limit : Z) : Sender * Z :=
  confirm_loop (Z.to_nat (Z.min (Z.min limit (Z.of_nat (length (missing s))))
                           (saturating_sub (max_expirations_per_poll (config s)) (loss_work s)))) s now.

Fixpoint expire_loop (fuel : nat) (s : Sender) (now work limit : Z) : Sender * Z :=
  match fuel with
  | O => (s, work)
  | S fuel =>
      if (work <? limit) && (loss_work s <? max_expirations_per_poll (config s)) && (oldest_sent_id s <? next_sent_id s) then
        let i := oldest_sent_id s in
        let bump s := with_oldest_sent_id (saturating_add 64 (oldest_sent_id s) 1) s in
        match entry s i with
        | None => expire_loop fuel (with_loss_work (loss_work s + 1) (bump s)) now (work + 1) limit
        | Some e =>
            match duration_checked_add (committed_at e) (retention (config s)) with
            | None => (s, work)
            | Some d =>
                if now <? d then (s, work)
                else
                  let s := with_loss_work (loss_work s + 1) s in
                  let s := if is_terminal (acknowledgment e) then s
                           else add_expired 1 (mark_lost_unbudgeted s i HistoryExpiry) in
                  expire_loop fuel (bump s) now (work + 1) limit
            end
        end
      else (s, work)
  end.

Definition expire (s : Sender) (now limit : Z) : Sender * Z :=
  let '(s, w1) := confirm_losses s now (Z.min limit (max_expirations_per_poll (config s) `div` 2)) in
  let '(s, w2) := reclaim_sources s now (div_ceil (saturating_sub limit w1) 2) in
  expire_loop (Z.to_nat limit) s now (w1 + w2) limit.

Definition missing_deadline (s : Sender) : option Z :=
  match first_ready (filter (fun r => readiness_ltb (Unscheduled (umax 64)) r = true) (readiness s)) with
  | Some (ReadyMissing d _) => Some d
  | _ => None
  end.
Definition sent_deadline (s : Sender) : option Z :=
  if oldest_sent_id s <? next_sent_id s then
    e ← entry s (oldest_sent_id s); duration_checked_add (committed_at e) (retention (config s))
  else None.
Definition source_deadline (s : Sender) (now : Z) : option Z :=
  match first_ready (readiness s) with Some (ReadyRetired d _) => Some (default now d) | _ => None end.
Definition next_deadline (s : Sender) (now : Z) : option Z :=
  min_of (omap (fun o => o) [sent_deadline s; missing_deadline s; source_deadline s now]).

(** ** Reports *)

Definition enumerate (l : list SendStatus) : list (Z * SendStatus) := imap (fun k st => (Z.of_nat k, st)) l.

(** [base.saturating_add(offset)] *)
Definition nth_sequence (base offset : Z) : Z := saturating_add 64 base offset.

Definition range_inclusive (a b : Z) : list Z := seqZ a (b - a + 1).
Definition range (a b : Z) : list Z := seqZ a (b - a).

(** The last received status at or above [floor]. *)
Definition received_edge (base floor : Z) (l : list SendStatus) : option Z :=
  last (omap (fun '(k, st) => if (floor <=? nth_sequence base k) && received st then Some (nth_sequence base k) else None) (enumerate l)).

(** Packets that are not known, or not of this epoch. *)
Definition unknown_among (s : Sender) (find : Z -> option Z) (epoch : Z) (l : list Z) : Z :=
  Z.of_nat (length (filter (fun q => match find q ≫= entry s with Some e => negb (path_epoch e =? epoch) | None => true end = true) l)).

Definition known (s : Sender) (o : option Z) (test : SentEntry -> bool) : bool :=
  match o ≫= entry s with Some e => test e | None => false end.

Definition late_receipt (s : Sender) (find : Z -> option Z) (base floor now : Z) (is_new : bool) (l : list SendStatus) : bool :=
  existsb (fun '(k, st) => (floor <=? nth_sequence base k) && received st
                           && known s (find (nth_sequence base k)) (recovery_is_fresh s now is_new)) (enumerate l).

(** Where the edge of acknowledged packets continues. *)
Definition edge_start (floor : Z) (old_edge : option Z) : Z :=
  match old_edge with Some previous => Z.max floor (saturating_add 64 previous 1) | None => floor end.

Definition status_at (base : Z) (l : list SendStatus) (q : Z) : option SendStatus :=
  d ← checked_sub q base; l !! Z.to_nat d.

Definition advance_continuous_edge (s : Sender) (base : Z) (l : list SendStatus) (edge epoch now : Z) : Sender :=
  let start := edge_start (default base (oldest_feedback s)) (highest_feedback_acked s) in
  if (edge <? start) || (max_feedback_statuses (config s) <=? saturating_sub edge start) then s
  else if negb (known s (feedback_sent_id s edge) (fun e => path_epoch e =? epoch)) then add_unknown 1 s
  else
    let s := anchor_missing s (Some edge) None now in
    let s := foldl (fun s q =>
      let o := feedback_sent_id s q in
      match status_at base l q with
      | None => match o with Some i => emit (retire_from_flight s i) i false true None | None => s end
      | Some st => advance_entry s o epoch (received st) (arrival st) (s_ecn st) now
      end) s (range_inclusive start edge) in
    with_highest_feedback_acked (Some edge) s.

(** One status of a report, once the edge has moved. *)
Definition settle_status (find : Sender -> Z -> option Z) (base floor epoch now : Z) (old_edge : option Z) (is_new : bool)
    (s : Sender) (kst : Z * SendStatus) : Sender :=
  let '(k, st) := kst in
  let q := nth_sequence base k in
  if q <? floor then s
  else
    let o := find s q in
    if negb (received st) then match o with Some i => set_missing s i now | None => s end
    else if match old_edge with Some edge => q <=? edge | None => false end then
      let '(s, replayed) := reject_replayed_terminal_receipt s o epoch now is_new in
      if replayed then s else recover s o epoch (arrival st) (s_ecn st) now
    else s.

Definition note_report (reference count : Z) (fresh : bool) (s : Sender) : Sender :=
  let s := if match feedback_reference s with Some previous => previous <=? reference | None => true end
           then with_feedback_reference (Some reference) s else s in
  let s := if match feedback_generation s with Some previous => count <=? previous | None => false end
           then add_reordered 1 s else with_feedback_generation (Some count) s in
  on_inputs (fun i => with_fresh_network_feedback (fresh_network_feedback i || fresh) i) s.

(** A report that is taken. *)
Definition accept_continuous (s : Sender) (base reference count : Z) (l : list SendStatus) (epoch now floor last_reported : Z)
    (edge : option Z) : Sender :=
  let find := feedback_sent_id in
  let old_edge := highest_feedback_acked s in
  let is_new := match feedback_generation s with Some previous => previous <? count | None => true end in
  let late := late_receipt s (find s) base floor now is_new l in
  let fresh := negb (bool_decide (l = [])) && (is_new || late)
    && (late || existsb (fun q => known s (find s q) (is_live_feedback_entry s now)) (range_inclusive (Z.max base floor) last_reported)) in
  let s := note_report reference count fresh s in
  let s := match edge with Some edge => advance_continuous_edge s base l edge epoch now | None => s end in
  let s := foldl (settle_status find base floor epoch now old_edge is_new) s (enumerate l) in
  match edge with Some edge => anchor_missing s (Some edge) None now | None => s end.

Definition process_continuous (s : Sender) (base reference count : Z) (l : list SendStatus) (epoch now : Z) : Sender :=
  let n := Z.of_nat (length l) in
  match newest_feedback s, oldest_feedback s with
  | Some newest, Some floor =>
      if max_ack_reordering (config s) <? saturating_sub newest base then add_stale n s
      else
        match checked_add 64 base (saturating_sub n 1) with
        | None => add_unknown n s
        | Some last_reported =>
            if (newest <? base) || (newest <? last_reported) then add_unknown n s
            else if last_reported <? floor then add_stale n s
            else
              let edge := received_edge base floor l in
              let start := edge_start floor (highest_feedback_acked s) in
              let far := match edge with
                | Some edge => (start <=? edge) && (max_feedback_statuses (config s) <=? saturating_sub edge start)
                | None => false end in
              let unknown_reported := unknown_among s (feedback_sent_id s) epoch (range_inclusive (Z.max base floor) last_reported) in
              let unknown_advance := match edge with
                | Some edge => if start <=? edge
                    then unknown_among s (feedback_sent_id s) epoch (range start (Z.min base (saturating_add 64 edge 1))) else 0
                | None => 0 end in
              if bool_decide (l <> []) && far then add_unknown n s
              else if bool_decide (l <> []) && negb (unknown_reported + unknown_advance =? 0)
              then add_unknown (unknown_reported + unknown_advance) s
              else accept_continuous s base reference count l epoch now floor last_reported edge
        end
  | _, _ => add_unknown n s
  end.

(** The least hold of the receipts that are news. *)
Definition least_hold (s : Sender) (space base now : Z) (is_new : bool) (l : list SendStatus) (least : option Z) : option Z :=
  foldl (fun least '(k, st) =>
    match hold st with
    | Some h =>
        if received st && known s (lookup_packet s space (nth_sequence base k))
             (fun e => is_live_feedback_entry s now e || recovery_is_fresh s now is_new e)
        then Some (match least with Some known => Z.min known h | None => h end) else least
    | None => least
    end) least (enumerate l).

Definition on_space (s : Sender) (space : Z) (f : SpaceHistory -> SpaceHistory) : Sender :=
  match spaces s !! space with Some p => with_spaces (<[space := f p]> (spaces s)) s | None => s end.

Definition note_generation (epoch count : Z) (p : SpaceHistory) : SpaceHistory :=
  if match last_report_generation p with Some (path, previous) => negb (path =? epoch) || (previous <=? count) | None => true end
  then with_last_report_generation (Some (epoch, count)) p else p.

Definition advance_space_edge (s : Sender) (space base : Z) (l : list SendStatus) (start edge epoch now : Z) : Sender :=
  let s := anchor_missing s None (Some (space, edge)) now in
  let s := foldl (fun s q =>
    let o := lookup_packet s space q in
    match status_at base l q with
    | Some st => advance_entry s o epoch (received st) (arrival st) (s_ecn st) now
    | None => advance_entry s o epoch false None None now
    end) s (range_inclusive start edge) in
  on_space s space (with_highest_acked_sequence (Some edge)).

Definition accept_independent (s : Sender) (r : IndependentReport) (epoch now floor last_reported : Z) (old_edge : option Z)
    (is_new : bool) (edge : option Z) : Sender :=
  let space := rep_space r in
  let base := rep_base r in
  let l := statuses r in
  let find s q := lookup_packet s space q in
  let late := late_receipt s (find s) base floor now is_new l in
  let live := negb (bool_decide (l = []))
    && existsb (fun q => known s (find s q) (is_live_feedback_entry s now)) (range_inclusive (Z.max base floor) last_reported) in
  let start := edge_start floor old_edge in
  let s := match edge with
    | Some edge => if negb (bool_decide (l = [])) && (start <=? edge) then advance_space_edge s space base l start edge epoch now else s
    | None => s end in
  let s := on_inputs (fun i => with_fresh_network_feedback
             (fresh_network_feedback i || ((live || late) && (is_new || late))) i) s in
  let s := on_space s space (note_generation epoch (generation r)) in
  let s := foldl (settle_status find base floor epoch now old_edge is_new) s (enumerate l) in
  match edge with Some edge => anchor_missing s None (Some (space, edge)) now | None => s end.

Definition process_report (epoch now : Z) (acc : Sender * option Z) (r : IndependentReport) : Sender * option Z :=
  let '(s, least) := acc in
  let n := Z.of_nat (length (statuses r)) in
  let base := rep_base r in
  match spaces s !! rep_space r with
  | None => (add_unknown n s, least)
  | Some p =>
      if bool_decide (table_map (by_sequence p) = ∅) then (add_unknown n s, least)
      else
        let floor := first_sequence p in
        let newest := newest_sequence p in
        if max_ack_reordering (config s) <? saturating_sub newest base then (add_stale n s, least)
        else
          match checked_add 64 base (saturating_sub n 1) with
          | None => (add_unknown n s, least)
          | Some last_reported =>
              if (newest <? base) || (newest <? last_reported) then (add_unknown n s, least)
              else if last_reported <? floor then (add_stale n s, least)
              else
                let is_new := match last_report_generation p with
                  | Some (path, previous) => if path =? epoch then previous <? generation r else true
                  | None => true end in
                let old_edge := highest_acked_sequence p in
                let edge := received_edge base floor (statuses r) in
                let start := edge_start floor old_edge in
                let far := match edge with
                  | Some edge => (start <=? edge) && (max_feedback_statuses (config s) <=? saturating_sub edge start)
                  | None => false end in
                let find := lookup_packet s (rep_space r) in
                let unknown_reported := unknown_among s find epoch (range_inclusive (Z.max base floor) last_reported) in
                let unknown_advance := match edge with
                  | Some edge => if start <=? edge
                      then unknown_among s find epoch (range start (Z.min base (saturating_add 64 edge 1))) else 0
                  | None => 0 end in
                if bool_decide (statuses r <> []) && far then (add_unknown n s, least)
                else if bool_decide (statuses r <> []) && negb (unknown_reported + unknown_advance =? 0)
                then (add_unknown (unknown_reported + unknown_advance) s, least)
                else
                  let least := least_hold s (rep_space r) base now is_new (statuses r) least in
                  (accept_independent s r epoch now floor last_reported old_edge is_new edge, least)
          end
  end.

Definition process_independent (s : Sender) (reports : list IndependentReport) (epoch now : Z) : Sender * option Z :=
  foldl (process_report epoch now) (s, None) reports.

(** A deadline that has passed under the old window stays. *)
Definition freeze (window now : Z) (e : SentEntry) : SentEntry :=
  match frozen_reorder_deadline e, entry_reorder_deadline window e with
  | None, Some d => if d <=? now then with_frozen_reorder_deadline (Some d) e else e
  | _, _ => e
  end.

Definition swap_key (previous next : option Readiness) (ready : gset Readiness) : gset Readiness :=
  if decide (previous = next) then ready
  else match next with Some k => {[k]} | None => ∅ end ∪ (ready ∖ match previous with Some k => {[k]} | None => ∅ end).

Fixpoint rekey (old new now : Z) (l : list (option SentEntry)) (ready : gset Readiness) : gset Readiness * list (option SentEntry) :=
  match l with
  | [] => (ready, [])
  | None :: l => let '(ready, l) := rekey old new now l ready in (ready, None :: l)
  | Some e :: l =>
      let e' := freeze old now e in
      let '(ready, l) := rekey old new now l (swap_key (entry_readiness old e) (entry_readiness new e') ready) in
      (ready, Some e' :: l)
  end.

Definition apply_reordering_window (s : Sender) (now : Z) : Sender :=
  if observed_reordering_window s <=? reordering_window s then s
  else
    let '(ready, l) := rekey (reordering_window s) (observed_reordering_window s) now (entries s) (readiness s) in
    with_reordering_window (observed_reordering_window s) (with_readiness ready (with_entries l s)).

Definition feedback_status_count (r : SendReport) : Z :=
  match r with
  | ContinuousReport _ _ _ l => Z.of_nat (length l)
  | IndependentReports rs => foldl (fun n r => saturating_add 64 n (Z.of_nat (length (statuses r)))) 0 rs
  end.

Definition status_valid (st : SendStatus) : bool :=
  received st || bool_decide (arrival st = None /\ s_ecn st = None /\ hold st = None).

Definition mode_matches (m : option FeedbackMode) (r : SendReport) : bool :=
  match m, r with
  | Some ModeContinuous, ContinuousReport _ _ _ _ | Some ModeIndependent, IndependentReports _ => true
  | _, _ => false
  end.

(** The least hold of the receipts a continuous report produced. *)
Definition continuous_hold (s : Sender) (prior : nat) (base : Z) (l : list SendStatus) : option Z :=
  min_of (omap (fun o =>
    if o_received o then
      e ← entry s (o_sent_id o);
      q ← feedback_sequence e;
      st ← status_at base l q;
      hold st
    else None) (drop prior (feedback (inputs s)))).

Definition process_feedback (s : Sender) (b : SendFeedback) : Sender :=
  let now := received_at b in
  let n := feedback_status_count (report b) in
  if exhausted (inputs s) then s
  else if match report b with
          | IndependentReports rs => max_feedback_statuses (config s) <? Z.of_nat (length rs)
          | ContinuousReport _ _ _ _ => false end
  then add_unknown (match report b with IndependentReports rs => Z.of_nat (length rs) | ContinuousReport _ _ _ _ => 0 end) s
  else if bool_decide (active_epoch s <> Some (f_path_epoch b)) then add_wrong_path n s
  else if negb (mode_matches (mode s) (report b)) || (max_feedback_statuses (config s) <? n) then add_unknown n s
  else if negb (match report b with
                | ContinuousReport _ _ _ l => forallb status_valid l
                | IndependentReports rs => forallb (fun r => forallb status_valid (statuses r)) rs end)
  then add_unknown n s
  else
    let prior := length (feedback (inputs s)) in
    let '(s, held) :=
      match report b with
      | ContinuousReport base reference count l =>
          let s := process_continuous s base reference count l (f_path_epoch b) now in
          (s, continuous_hold s prior base l)
      | IndependentReports rs => process_independent s rs (f_path_epoch b) now
      end in
    let s := apply_reordering_window s now in
    let age := min_of (omap (fun o => (fun e => saturating_sub now (committed_at e)) <$> entry s (o_sent_id o))
                         (drop prior (feedback (inputs s)))) in
    if (prior <? length (feedback (inputs s)))%nat && bool_decide (is_Some age)
    then on_inputs (with_timing (Some (mkTiming now held age))) s else s.
End Sender.
