(* ===== verification/SenderLaws.v ===== *)
(** * What holds of the sender's history in every run

    The invariant of [FeedbackSender]. What it talks about is collected in
    [Core]; an operation that leaves the core alone keeps the invariant for
    free, and every change of a packet is an [edit], for which it is shown once.
    [keeps] composes these along the code. *)

From S2P Require Import Prelude FeedbackReceiver FeedbackSender.

(** ** Sums over the ring *)

Fixpoint ring_sum (f : SentEntry -> Z) (l : list (option SentEntry)) : Z :=
  match l with [] => 0 | o :: l => match o with Some e => f e | None => 0 end + ring_sum f l end.

Lemma ring_sum_insert f l k o o' :
  l !! k = Some o ->
  ring_sum f (<[k := o']> l) =
    ring_sum f l - match o with Some e => f e | None => 0 end + match o' with Some e => f e | None => 0 end.
Proof.
  revert k. induction l as [|x l IH]; intros [|k] Hk; try done.
  - injection Hk as ->. cbn. lia.
  - specialize (IH k Hk). change (<[S k := o']> (x :: l)) with (x :: <[k := o']> l). cbn [ring_sum]. lia.
Qed.

Lemma ring_sum_nonneg f l :
  (forall k e, l !! k = Some (Some e) -> 0 <= f e) -> 0 <= ring_sum f l.
Proof.
  induction l as [|x l IH]; intros Hf; cbn; [lia|].
  assert (0 <= ring_sum f l) by (apply IH; intros k e Hk; by apply (Hf (S k))).
  pose proof (Hf 0%nat) as H0. destruct x as [e|]; [specialize (H0 e eq_refl)|]; lia.
Qed.

Lemma ring_sum_le f g l :
  (forall k e, l !! k = Some (Some e) -> f e <= g e) -> ring_sum f l <= ring_sum g l.
Proof.
  induction l as [|x l IH]; intros Hf; cbn; [lia|].
  assert (ring_sum f l <= ring_sum g l) by (apply IH; intros k e Hk; by apply (Hf (S k))).
  pose proof (Hf 0%nat) as H0. destruct x as [e|]; [specialize (H0 e eq_refl)|]; lia.
Qed.

Lemma ring_sum_member f l k e :
  (forall k e, l !! k = Some (Some e) -> 0 <= f e) -> l !! k = Some (Some e) -> f e <= ring_sum f l.
Proof.
  intros Hf Hk. pose proof (ring_sum_insert f l k (Some e) None Hk) as E. cbn in E.
  assert (0 <= ring_sum f (<[k := None]> l)); [|lia]. apply ring_sum_nonneg. intros j e' Hj.
  destruct (decide (j = k)) as [->|Hne].
  - rewrite list_lookup_insert_eq in Hj by (by eapply lookup_lt_Some). done.
  - rewrite list_lookup_insert_ne in Hj by done. by eapply Hf.
Qed.

Definition live_weight (e : SentEntry) : Z := if is_terminal (acknowledgment e) then 0 else 1.
Definition flight_weight (e : SentEntry) : Z := if in_flight e then wire_len e else 0.

(** ** The core *)

Record Core := mkCore {
  k_config : SenderConfig;
  k_mode : option FeedbackMode;
  k_entries : list (option SentEntry);
  k_indexed : nat;
  k_spaces : gmap Z Readiness;
  k_ready : gset Readiness;
  k_next : Z;
  k_oldest : Z;
  k_active : option Z;
  k_path : option (Z * bool);
  k_missing : list Z;
  k_bytes : Z;
  k_window : Z;
  k_received : Z;
  k_lost : Z;
  k_work : Z;
  k_reported : Z;
  k_synthetic : nat;
}.

Definition ring_slot (c : Core) (i : Z) : nat := Z.to_nat (i `mod` capacity (k_config c)).

(** What identifies a packet does not change. *)
Definition identity_of (e : SentEntry) :=
  (sent_id e, committed_at e, wire_len e, path_epoch e, e_space e, packet_sequence e, feedback_sequence e, e_tag e).

Record config_ok (c : SenderConfig) : Prop := mk_config_ok {
  cfg_capacity : 0 < capacity c <= umax 64;
  cfg_work : 2 <= max_expirations_per_poll c <= umax 64;
  cfg_statuses : 0 < max_feedback_statuses c <= umax 64;
  cfg_retention : 0 < retention c;
}.

Record entry_ok (c : Core) (k : nat) (e : SentEntry) : Prop := mk_entry_ok {
  eo_slot : ring_slot c (sent_id e) = k;
  eo_id : 0 <= sent_id e < k_next c /\ k_next c - capacity (k_config c) <= sent_id e;
  eo_wire : 0 < wire_len e;
  eo_live : is_terminal (acknowledgment e) = false -> k_active c = Some (path_epoch e) /\ k_oldest c <= sent_id e;
  eo_missing : is_missing (acknowledgment e) = true -> sent_id e ∈ k_missing c;
  eo_pending : acknowledgment e = Pending -> sent_id e ∉ k_missing c;
}.

Record core_inv (c : Core) : Prop := mk_core_inv {
  ci_config : config_ok (k_config c);
  ci_ring : length (k_entries c) = match k_mode c with Some _ => Z.to_nat (capacity (k_config c)) | None => 0%nat end;
  ci_index : k_indexed c = length (k_entries c);
  ci_ids : 0 <= k_oldest c <= k_next c /\ k_next c <= umax 64;
  ci_entries : forall k e, k_entries c !! k = Some (Some e) -> entry_ok c k e;
  ci_spaces : forall sp r, k_spaces c !! sp = Some r -> r = Unscheduled sp \/ exists d, r = ReadyRetired d sp;
  ci_ready : forall r, r ∈ k_ready c <->
    (exists sp, k_spaces c !! sp = Some r) \/ (exists k e, k_entries c !! k = Some (Some e) /\ entry_readiness (k_window c) e = Some r);
  ci_missing : NoDup (k_missing c) /\ Forall (fun i => 0 <= i < k_next c) (k_missing c);
  ci_bytes : ring_sum flight_weight (k_entries c) <= k_bytes c <= umax 64 /\ k_reported c = k_bytes c;
  ci_count : 0 <= k_received c /\ 0 <= k_lost c /\ k_received c + k_lost c + ring_sum live_weight (k_entries c) <= k_next c;
  ci_path : k_active c = match k_path c with Some (epoch, true) => Some epoch | _ => None end;
  ci_work : 0 <= k_work c <= max_expirations_per_poll (k_config c) /\ Z.of_nat (k_synthetic c) <= k_work c;
}.

(** A packet keeps its identity, and its outcome once it has one. *)
Record carried (e e' : SentEntry) : Prop := mk_carried {
  ca_identity : identity_of e' = identity_of e;
  ca_outcome : is_terminal (acknowledgment e) = true -> acknowledgment e' = acknowledgment e;
  ca_flight : in_flight e' = true -> in_flight e = true;
}.

Lemma carried_refl e : carried e e.
Proof. by split. Qed.
Lemma carried_trans e1 e2 e3 : carried e1 e2 -> carried e2 e3 -> carried e1 e3.
Proof.
  intros [A1 A2 A3] [B1 B2 B3]. split; [congruence| |auto]. intros Ht. rewrite B2; [by apply A2|]. rewrite A2; done.
Qed.

Definition carried_slot (o o' : option SentEntry) : Prop := option_Forall2 carried o o'.

Record moves (c c' : Core) : Prop := mk_moves {
  mv_config : k_config c' = k_config c;
  mv_mode : k_mode c' = k_mode c;
  mv_next : k_next c' = k_next c;
  mv_active : k_active c' = k_active c;
  mv_path : k_path c' = k_path c;
  mv_entries : Forall2 carried_slot (k_entries c) (k_entries c');
  mv_settled : k_received c' + k_lost c' + ring_sum live_weight (k_entries c') =
               k_received c + k_lost c + ring_sum live_weight (k_entries c);
}.

Lemma carried_slots_refl l : Forall2 carried_slot l l.
Proof. induction l as [|[e|] l IH]; constructor; try done; constructor. apply carried_refl. Qed.
Lemma carried_slots_trans l1 l2 l3 : Forall2 carried_slot l1 l2 -> Forall2 carried_slot l2 l3 -> Forall2 carried_slot l1 l3.
Proof.
  intros H12. revert l3. induction H12 as [|o1 o2 l1 l2 H H12 IH]; intros l3 H23; inv H23; constructor; [|by apply IH].
  destruct H; inv H2; constructor. by eapply carried_trans.
Qed.

Lemma moves_refl c : moves c c.
Proof. split; try done. apply carried_slots_refl. Qed.
Lemma moves_trans c1 c2 c3 : moves c1 c2 -> moves c2 c3 -> moves c1 c3.
Proof. intros [] []. split; try congruence; try lia. by eapply carried_slots_trans. Qed.

(** ** Changing one packet *)

Lemma readiness_key w e r : entry_readiness w e = Some r -> exists d, r = ReadyMissing d (sent_id e).
Proof. unfold entry_readiness. destruct (entry_reorder_deadline w e); [|done]. intros [= <-]. eauto. Qed.

Lemma readiness_missing w e r : entry_readiness w e = Some r -> is_missing (acknowledgment e) = true.
Proof. unfold entry_readiness, entry_reorder_deadline. by destruct (acknowledgment e) as [|? [?|]| | |]. Qed.

Lemma same_slot c k j e e' :
  core_inv c -> k_entries c !! k = Some (Some e) -> k_entries c !! j = Some (Some e') -> sent_id e = sent_id e' -> j = k.
Proof. intros Hc Hk Hj E. rewrite <- (eo_slot c k e), <- (eo_slot c j e') by (by apply Hc). by rewrite E. Qed.

Definition pushes (e e' : SentEntry) : bool := is_missing (acknowledgment e') && negb (is_missing (acknowledgment e)).

Record edit (c c' : Core) (k : nat) (e e' : SentEntry) : Prop := mk_edit {
  ed_at : k_entries c !! k = Some (Some e);
  ed_carried : carried e e';
  ed_pending : acknowledgment e' = Pending -> acknowledgment e = Pending;
  ed_entries : k_entries c' = <[k := Some e']> (k_entries c);
  ed_frame : (k_config c', k_mode c', k_indexed c', k_spaces c', k_next c', k_oldest c', k_active c', k_path c', k_window c', k_work c', k_synthetic c') =
             (k_config c, k_mode c, k_indexed c, k_spaces c, k_next c, k_oldest c, k_active c, k_path c, k_window c, k_work c, k_synthetic c);
  ed_ready : forall r, r ∈ k_ready c' <->
    (r ∈ k_ready c /\ entry_readiness (k_window c) e <> Some r) \/ entry_readiness (k_window c) e' = Some r;
  ed_missing : k_missing c' = k_missing c ++ (if pushes e e' then [sent_id e] else []);
  ed_bytes : k_bytes c' = k_bytes c - (flight_weight e - flight_weight e') /\ k_reported c' = k_bytes c';
  ed_counts : k_received c <= k_received c' /\ k_lost c <= k_lost c' /\
    k_received c' + k_lost c' = k_received c + k_lost c + (live_weight e - live_weight e');
}.

Lemma carried_fields e e' : carried e e' ->
  sent_id e' = sent_id e /\ committed_at e' = committed_at e /\ wire_len e' = wire_len e /\ path_epoch e' = path_epoch e /\
  (is_terminal (acknowledgment e') = false -> is_terminal (acknowledgment e) = false).
Proof.
  intros [E Ho _]. unfold identity_of in E. injection E as -> -> -> -> _ _ _ _. split_and!; try done.
  intros Hf. destruct (is_terminal (acknowledgment e)) eqn:Ht; [|done]. rewrite Ho in Hf by done. congruence.
Qed.

Lemma flight_weight_range e : 0 < wire_len e -> 0 <= flight_weight e <= wire_len e.
Proof. intros. unfold flight_weight. case_match; lia. Qed.

Lemma carried_flight e e' : 0 < wire_len e -> carried e e' -> 0 <= flight_weight e - flight_weight e'.
Proof.
  intros Hw Hc. destruct (carried_fields e e' Hc) as (_ & _ & E & _). pose proof (ca_flight _ _ Hc) as Hf. unfold flight_weight. rewrite E.
  destruct (in_flight e'); [rewrite Hf by done; lia|]. case_match; lia.
Qed.

Lemma edit_moves c c' k e e' : edit c c' k e e' -> moves c c'.
Proof.
  intros [Hk Hca _ He Hf _ _ _ (_ & _ & Hs)]. injection Hf as F1 F2 _ _ F3 _ F4 F5 _ _ _. split; try done.
  - rewrite He. pose proof (carried_slots_refl (k_entries c)) as Hr. rewrite <- (list_insert_id (k_entries c) k (Some e)) at 1 by done. apply Forall2_insert; [done|]. by constructor.
  - rewrite He, (ring_sum_insert _ _ _ _ _ Hk). lia.
Qed.

Lemma edit_inv c c' k e e' : core_inv c -> edit c c' k e e' -> core_inv c'.
Proof.
  intros Hc Hed. pose proof Hed as [Hk Hca Hpe He Hf Hrd Hmi [Hb Hrep] (C1 & C2 & C3)].
  injection Hf as F1 F2 F3 F4 F5 F6 F7 FP F8 F9 F10. destruct (carried_fields e e' Hca) as (E1 & E2 & E3 & E4 & E5).
  pose proof (ci_entries _ Hc k e Hk) as Hok. pose proof (lookup_lt_Some _ _ _ Hk) as Hlt.
  destruct Hc as [I1 I2 I3 I4 I5 I6 I7 [I8 I8'] [I9 I9'] (I10 & I10' & I10'') IP I11]. pose proof Hok as [O1 O2 O3 O4 O5 O6].
  split.
  - by rewrite F1.
  - by rewrite He, length_insert, F1, F2.
  - by rewrite He, length_insert, F3.
  - by rewrite F5, F6.
  - intros j x Hj. rewrite He in Hj. destruct (decide (j = k)) as [->|Hne].
    + rewrite list_lookup_insert_eq in Hj by done. injection Hj as <-. split.
      * unfold ring_slot in *. by rewrite F1, E1.
      * by rewrite F5, F1, E1.
      * by rewrite E3.
      * intros Hl. rewrite F7, F6, E4, E1. by apply O4, E5.
      * intros Hm. rewrite Hmi, E1. apply elem_of_app. unfold pushes. rewrite Hm. destruct (is_missing (acknowledgment e)) eqn:Em.
        -- left. by apply O5.
        -- right. cbn. by left.
      * intros Hp. rewrite Hmi, E1. specialize (Hpe Hp). rewrite elem_of_app. intros [H|H]; [by apply O6|].
        unfold pushes in H. rewrite Hp in H. cbn in H. by apply elem_of_nil in H.
    + rewrite list_lookup_insert_ne in Hj by done. destruct (I5 j x Hj) as [P1 P2 P3 P4 P5 P6]. split.
      * unfold ring_slot in *. by rewrite F1.
      * by rewrite F5, F1.
      * done.
      * rewrite F7, F6. done.
      * intros Hm. rewrite Hmi. apply elem_of_app. left. by apply P5.
      * intros Hp. rewrite Hmi, elem_of_app. intros [H|H]; [by apply P6|]. destruct (pushes e e'); [|by apply elem_of_nil in H].
        apply list_elem_of_singleton in H. apply Hne. unfold ring_slot in *. congruence.
  - by rewrite F4.
  - intros r. rewrite Hrd, I7, F4, F8. rewrite He. split.
    + intros [[[Hs|(j & x & Hj & Hx)] Hne]|Hr].
      * by left.
      * right. exists j, x. split; [|done]. rewrite list_lookup_insert_ne; [done|]. intros <-. rewrite Hk in Hj. injection Hj as <-. done.
      * right. exists k, e'. split; [by apply list_lookup_insert_eq|done].
    + intros [[sp Hs]|(j & x & Hj & Hx)].
      * left. split; [by left; exists sp|]. intros Hr. apply readiness_key in Hr as [d ->].
        destruct (I6 sp _ Hs) as [|[? ?]]; done.
      * destruct (decide (j = k)) as [->|Hne].
        -- rewrite list_lookup_insert_eq in Hj by done. injection Hj as <-. by right.
        -- rewrite list_lookup_insert_ne in Hj by done. left. split; [right; by exists j, x|]. intros Hr. apply Hne.
           apply readiness_key in Hr as [d ->]. apply readiness_key in Hx as [d' Heq]. injection Heq as _ Heq.
           destruct (I5 j x Hj) as [P1 _ _ _ _ _]. unfold ring_slot in *. congruence.
  - rewrite Hmi, F5. split.
    + apply NoDup_app. split; [done|]. split; [|destruct (pushes e e'); [apply NoDup_singleton|constructor]].
      intros x Hx Hin. unfold pushes in Hin. destruct (is_missing (acknowledgment e')) eqn:Em; [|by apply elem_of_nil in Hin].
      destruct (is_missing (acknowledgment e)) eqn:Em'; [by apply elem_of_nil in Hin|]. apply list_elem_of_singleton in Hin as ->.
      destruct (acknowledgment e) eqn:Ea; try done; [by apply O6|..]; pose proof (ca_outcome _ _ Hca) as Ho; rewrite Ea in Ho; rewrite Ho in Em; done.
    + apply Forall_app. split; [done|]. destruct (pushes e e'); [constructor; [lia|constructor]|constructor].
  - rewrite He, (ring_sum_insert _ _ _ _ _ Hk), Hrep, Hb. pose proof (carried_flight e e' O3 Hca). split; [lia|done].
  - rewrite He, (ring_sum_insert _ _ _ _ _ Hk), F5. split_and!; lia.
  - by rewrite F7, FP.
  - by rewrite F9, F10, F1.
Qed.

Section Core.
Context {T : Type} `{!Layout, !Allocator, !IndexTable T}.

Abbreviation History := (Sender (T := T)).
Implicit Types s : History.

Definition space_keys (s : History) : gmap Z Readiness :=
  map_imap (fun sp p => Some (space_readiness p sp (retention (config s)))) (spaces s).

Definition core (s : History) : Core :=
  mkCore (config s) (mode s) (entries s) (length (feedback_index s)) (space_keys s) (readiness s) (next_sent_id s) (oldest_sent_id s)
    (active_epoch s) (last_path s) (missing s) (bytes_in_flight s) (reordering_window s) (received_packets (counters s)) (not_received (counters s))
    (loss_work s) (reported_in_flight (inputs s)) (length (synthetic (inputs s))).
End Core.

(** Compute fields of updated records, and nothing else. *)
Ltac fields :=
  cbn [
    core k_config k_mode k_entries k_indexed k_spaces k_ready k_next k_oldest k_active k_path k_missing k_bytes
    k_window k_received k_lost k_work k_reported k_synthetic config mode max_backing_bytes entries
    feedback_index spaces source_backing_bytes readiness next_sent_id oldest_sent_id oldest_feedback
    newest_feedback highest_feedback_acked feedback_reference feedback_generation active_epoch last_path inputs
    counters bytes_in_flight reordering_window observed_reordering_window missing missing_capacity loss_work
    with_mode with_entries with_feedback_index with_spaces with_source_backing_bytes with_readiness
    with_next_sent_id with_oldest_sent_id with_oldest_feedback with_newest_feedback with_highest_feedback_acked
    with_feedback_reference with_feedback_generation with_active_epoch with_last_path with_inputs with_counters
    with_bytes_in_flight with_reordering_window with_observed_reordering_window with_missing
    with_missing_capacity with_loss_work feedback feedback_capacity synthetic synthetic_capacity exhausted
    timing fresh_network_feedback path_change application_limited reported_in_flight with_feedback
    with_feedback_capacity with_synthetic with_synthetic_capacity with_exhausted with_timing
    with_fresh_network_feedback with_path_change with_application_limited with_reported_in_flight sent_id
    committed_at wire_len path_epoch e_space packet_sequence feedback_sequence e_tag acknowledgment
    network_loss_reported missing_since frozen_reorder_deadline in_flight with_acknowledgment
    with_network_loss_reported with_missing_since with_frozen_reorder_deadline with_in_flight unknown_feedback
    duplicate_feedback stale_feedback reordered_feedback wrong_path_feedback expired received_packets
    not_received put_entry insert_key remove_key on_inputs on_counters fail_exhausted add_unknown add_duplicate
    add_stale add_reordered add_wrong_path add_expired add_received add_not_received fst snd negb andb orb].
Ltac fields_in H :=
  cbn [
    core k_config k_mode k_entries k_indexed k_spaces k_ready k_next k_oldest k_active k_path k_missing k_bytes
    k_window k_received k_lost k_work k_reported k_synthetic config mode max_backing_bytes entries
    feedback_index spaces source_backing_bytes readiness next_sent_id oldest_sent_id oldest_feedback
    newest_feedback highest_feedback_acked feedback_reference feedback_generation active_epoch last_path inputs
    counters bytes_in_flight reordering_window observed_reordering_window missing missing_capacity loss_work
    with_mode with_entries with_feedback_index with_spaces with_source_backing_bytes with_readiness
    with_next_sent_id with_oldest_sent_id with_oldest_feedback with_newest_feedback with_highest_feedback_acked
    with_feedback_reference with_feedback_generation with_active_epoch with_last_path with_inputs with_counters
    with_bytes_in_flight with_reordering_window with_observed_reordering_window with_missing
    with_missing_capacity with_loss_work feedback feedback_capacity synthetic synthetic_capacity exhausted
    timing fresh_network_feedback path_change application_limited reported_in_flight with_feedback
    with_feedback_capacity with_synthetic with_synthetic_capacity with_exhausted with_timing
    with_fresh_network_feedback with_path_change with_application_limited with_reported_in_flight sent_id
    committed_at wire_len path_epoch e_space packet_sequence feedback_sequence e_tag acknowledgment
    network_loss_reported missing_since frozen_reorder_deadline in_flight with_acknowledgment
    with_network_loss_reported with_missing_since with_frozen_reorder_deadline with_in_flight unknown_feedback
    duplicate_feedback stale_feedback reordered_feedback wrong_path_feedback expired received_packets
    not_received put_entry insert_key remove_key on_inputs on_counters fail_exhausted add_unknown add_duplicate
    add_stale add_reordered add_wrong_path add_expired add_received add_not_received fst snd negb andb orb] in H.

Section SenderLaws.
Context {T : Type} `{!Layout, !Allocator, !IndexTable T}.

Abbreviation History := (Sender (T := T)).
Implicit Types s : History.

Definition inv (s : History) : Prop := core_inv (core s).

(** From a state with the invariant to one with it, packets carried along. *)
Definition keeps (s s' : History) : Prop := inv s -> inv s' /\ moves (core s) (core s').

Lemma keeps_core (s s' : History) : core s' = core s -> keeps s s'.
Proof. intros E Hs. unfold inv. rewrite E. split; [done|apply moves_refl]. Qed.
Lemma keeps_refl s : keeps s s.
Proof. by apply keeps_core. Qed.
Lemma keeps_trans s1 s2 s3 : keeps s1 s2 -> keeps s2 s3 -> keeps s1 s3.
Proof. intros H12 H23 H1. destruct (H12 H1) as [H2 M12]. destruct (H23 H2) as [H3 M23]. split; [done|by eapply moves_trans]. Qed.
Lemma keeps_edit s s' k e e' : (inv s -> edit (core s) (core s') k e e') -> keeps s s'.
Proof. intros Hed Hs. specialize (Hed Hs). split; [by eapply edit_inv|by eapply edit_moves]. Qed.

(** A step that needs the invariant to be described. *)
Lemma keeps_given s s' : (inv s -> keeps s s') -> keeps s s'.
Proof. intros Hgo Hs. by apply Hgo. Qed.

Lemma keeps_foldl {A} (f : History -> A -> History) l s : (forall s x, keeps s (f s x)) -> keeps s (foldl f s l).
Proof. intros Hf. revert s. induction l as [|x l IH]; intros s; [apply keeps_refl|]. eapply keeps_trans; [apply Hf|apply IH]. Qed.

Lemma entry_at (s : History) i e : entry s i = Some e -> entries s !! slot s i = Some (Some e) /\ sent_id e = i.
Proof.
  unfold entry. destruct (entries s !! slot s i) as [[x|]|]; try done. destruct (Z.eqb_spec (sent_id x) i); [|done].
  by intros [= <-].
Qed.

Lemma entry_put (s : History) e e' i :
  entry s (sent_id e) = Some e -> sent_id e' = sent_id e ->
  entry (put_entry s e') i = if decide (i = sent_id e) then Some e' else entry s i.
Proof.
  intros He E. apply entry_at in He as [Hk _]. unfold entry, put_entry, slot. cbn [entries with_entries config]. rewrite E.
  fold (slot s i) (slot s (sent_id e)). pose proof (lookup_lt_Some _ _ _ Hk) as Hlt. destruct (decide (i = sent_id e)) as [->|Hne].
  - rewrite list_lookup_insert_eq by done. by rewrite E, Z.eqb_refl.
  - destruct (decide (slot s i = slot s (sent_id e))) as [Es|Es].
    + rewrite Es, list_lookup_insert_eq, Hk by done. rewrite E. by rewrite (proj2 (Z.eqb_neq _ _)) by done.
    + by rewrite list_lookup_insert_ne by done.
Qed.

(** ** Kinds of change *)

Definition set_flight (b : Z) (c : Core) : Core :=
  mkCore (k_config c) (k_mode c) (k_entries c) (k_indexed c) (k_spaces c) (k_ready c) (k_next c) (k_oldest c) (k_active c) (k_path c) (k_missing c)
    b (k_window c) (k_received c) (k_lost c) (k_work c) b (k_synthetic c).
Definition set_work (w : Z) (n : nat) (c : Core) : Core :=
  mkCore (k_config c) (k_mode c) (k_entries c) (k_indexed c) (k_spaces c) (k_ready c) (k_next c) (k_oldest c) (k_active c) (k_path c) (k_missing c)
    (k_bytes c) (k_window c) (k_received c) (k_lost c) w (k_reported c) n.

(** Work is spent, or a loss is reported. *)
Lemma keeps_work s s' w n :
  core s' = set_work w n (core s) -> (inv s -> 0 <= w <= max_expirations_per_poll (config s) /\ Z.of_nat n <= w) -> keeps s s'.
Proof.
  intros E Hw Hs. specialize (Hw Hs). unfold inv. rewrite E. destruct Hs as [I1 I2 I3 I4 I5 I6 I7 I8 I9 I10 IP I11].
  split; [|split; try done; apply carried_slots_refl]. split; try done. intros k e Hk. destruct (I5 k e Hk). by split.
Qed.

(** Changes that leave the packet's outcome and its key alone. *)
Lemma keeps_same_key s s' e e' :
  entry s (sent_id e) = Some e -> identity_of e' = identity_of e ->
  acknowledgment e' = acknowledgment e -> frozen_reorder_deadline e' = frozen_reorder_deadline e ->
  (in_flight e' = true -> in_flight e = true) ->
  (inv s -> core s' = set_flight (bytes_in_flight s - (flight_weight e - flight_weight e')) (core (put_entry s e'))) -> keeps s s'.
Proof.
  intros He Hid Ha Hfz Hfl E. apply (keeps_edit s s' (slot s (sent_id e)) e e'). intros Hs. rewrite (E Hs).
  apply entry_at in He as [Hk _]. pose proof Hid as Hsame. injection Hid as E1 E2 E3 E4 _ _ _ _.
  assert (forall w, entry_readiness w e' = entry_readiness w e) as Hr.
  { intros w. unfold entry_readiness, entry_reorder_deadline. by rewrite Ha, Hfz, E1. }
  assert (slot s (sent_id e') = slot s (sent_id e)) as Es by by rewrite E1.
  split; unfold set_flight; fields; try done.
  - intros Hp. congruence.
  - by rewrite Es.
  - intros r. rewrite Hr. split; [|intros [[? _]|Hr']; [done|]].
    + destruct (decide (entry_readiness (reordering_window s) e = Some r)); [by right|by left].
    + apply (ci_ready _ Hs). right. exists (slot s (sent_id e)), e. done.
  - unfold pushes. rewrite Ha. destruct (is_missing _); by rewrite app_nil_r.
  - unfold live_weight. rewrite Ha. lia.
Qed.

(** The packet gets its outcome: its key goes, and it is counted. *)
Lemma keeps_settle s s' e e' :
  entry s (sent_id e) = Some e -> is_terminal (acknowledgment e) = false -> is_terminal (acknowledgment e') = true ->
  identity_of e' = identity_of e -> in_flight e' = in_flight e ->
  (inv s -> exists r l, r + l = 1 /\ 0 <= r /\ 0 <= l /\
    core s' = mkCore (config s) (mode s) (<[slot s (sent_id e) := Some e']> (entries s)) (length (feedback_index s)) (space_keys s)
      (readiness (remove_key (entry_readiness (reordering_window s) e) s)) (next_sent_id s) (oldest_sent_id s) (active_epoch s) (last_path s) (missing s)
      (bytes_in_flight s) (reordering_window s) (received_packets (counters s) + r) (not_received (counters s) + l)
      (loss_work s) (reported_in_flight (inputs s)) (length (synthetic (inputs s)))) -> keeps s s'.
Proof.
  intros He Ht Ht' Hid Hfl E. apply (keeps_edit s s' (slot s (sent_id e)) e e'). intros Hs. destruct (E Hs) as (r & l & E1 & E2 & E3 & ->).
  apply entry_at in He as [Hk _].
  assert (forall w, entry_readiness w e' = None) as Hr.
  { intros w. destruct (entry_readiness w e') eqn:Hw; [|done]. apply readiness_missing in Hw. by destruct (acknowledgment e'). }
  split; fields; try done.
  - split; [done|by rewrite Ht|by rewrite Hfl].
  - intros Hp. by rewrite Hp in Ht'.
  - intros x. rewrite Hr. unfold remove_key. destruct (entry_readiness (reordering_window s) e) as [key|]; fields; set_solver.
  - unfold pushes. destruct (acknowledgment e'); try done; by rewrite app_nil_r.
  - injection Hid as _ _ E5 _ _ _ _ _. unfold flight_weight. rewrite Hfl, E5. split; [lia|apply Hs].
  - unfold live_weight. rewrite Ht, Ht'. lia.
Qed.

(** ** Operations on a packet *)

Lemma retire_flight_keeps s i : keeps s (retire_from_flight s i).
Proof.
  unfold retire_from_flight. destruct (entry s i) as [e|] eqn:He; [|apply keeps_refl]. destruct (in_flight e) eqn:Hf; [|apply keeps_refl].
  pose proof (entry_at s i e He) as [Hk <-]. apply (keeps_same_key s _ e (with_in_flight false e)); try done. intros Hs.
  pose proof (ring_sum_member flight_weight (entries s) _ _ (fun k e Hk => proj1 (flight_weight_range e (eo_wire _ _ _ (ci_entries _ Hs k e Hk)))) Hk) as Hle.
  destruct (ci_bytes _ Hs) as [Hb _]. unfold core in Hb. cbn [k_entries k_bytes] in Hb. unfold flight_weight in Hle at 1. rewrite Hf in Hle.
  assert (saturating_sub (bytes_in_flight s) (wire_len e) = bytes_in_flight s - (flight_weight e - flight_weight (with_in_flight false e))) as ->.
  { unfold flight_weight. cbn [with_in_flight in_flight wire_len]. rewrite Hf. unfold saturating_sub. lia. }
  reflexivity.
Qed.

Lemma reserve_missing_core s s' : reserve_missing_slot s = Some s' -> core s' = core s.
Proof. unfold reserve_missing_slot. case_match; [by intros [= <-]|]. destruct (reserve_one _ _ _ _); [|done]. by intros [= <-]. Qed.
Lemma reserve_feedback_core s s' : reserve_feedback_slot s = Some s' -> core s' = core s.
Proof. unfold reserve_feedback_slot. case_match; [by intros [= <-]|]. destruct (reserve_one _ _ _ _); [|done]. by intros [= <-]. Qed.

Lemma set_flight_id s e : inv s -> set_flight (bytes_in_flight s) (core (put_entry s e)) = core (put_entry s e).
Proof. intros Hs. destruct (ci_bytes _ Hs) as [_ Hr]. unfold set_flight, core. fields. fields_in Hr. by rewrite Hr. Qed.

Lemma keeps_put s s' e e' :
  entry s (sent_id e) = Some e -> identity_of e' = identity_of e ->
  acknowledgment e' = acknowledgment e -> frozen_reorder_deadline e' = frozen_reorder_deadline e -> in_flight e' = in_flight e ->
  core s' = core (put_entry s e') -> keeps s s'.
Proof.
  intros He Hid Ha Hfz Hfl E. apply (keeps_same_key s s' e e'); try done; [by rewrite Hfl|]. intros Hs. rewrite E.
  assert (flight_weight e' = flight_weight e) as ->. { injection Hid as _ _ Ew _ _ _ _ _. unfold flight_weight. by rewrite Hfl, Ew. }
  rewrite Z.sub_diag, Z.sub_0_r. by rewrite set_flight_id.
Qed.

(** A packet's entry keeps its place when its flags change. *)
Definition flag_network (first back : bool) (s : History) (e : SentEntry) : History :=
  if first then put_entry s (with_network_loss_reported true e) else if back then put_entry s (with_network_loss_reported false e) else s.

Lemma flag_network_keeps s e first back : entry s (sent_id e) = Some e -> keeps s (flag_network first back s e).
Proof. intros He. unfold flag_network. repeat case_match; [by apply (keeps_put s _ e (with_network_loss_reported true e))|by apply (keeps_put s _ e (with_network_loss_reported false e))|apply keeps_refl]. Qed.

Lemma push_feedback_keeps s e got acked arrived mark seen :
  entry s (sent_id e) = Some e -> keeps s (push_observation s e got acked None arrived mark seen).
Proof.
  intros He. unfold push_observation. set (first := _ && _). set (back := _ && _).
  eapply keeps_trans; [by apply (flag_network_keeps s e first back)|]. by apply keeps_core.
Qed.

Lemma push_loss_keeps s e got acked o arrived mark seen :
  entry s (sent_id e) = Some e -> (inv s -> Z.of_nat (length (synthetic (inputs s))) < loss_work s) ->
  keeps s (push_observation s e got acked (Some o) arrived mark seen).
Proof.
  intros He Hroom. apply keeps_given. intros Hs. specialize (Hroom Hs). unfold push_observation. set (first := _ && _). set (back := _ && _).
  eapply keeps_trans; [by apply (flag_network_keeps s e first back)|]. fold (flag_network first back s e).
  assert (inputs (flag_network first back s e) = inputs s /\ loss_work (flag_network first back s e) = loss_work s) as [E1 E2].
  { unfold flag_network. by repeat case_match. }
  set (s1 := flag_network _ _ _ _) in *. case_match.
  - apply (keeps_work s1 _ (loss_work s1) (S (length (synthetic (inputs s1))))).
    + unfold core, set_work. fields. rewrite length_app. cbn [length]. f_equal. lia.
    + intros Hs1. destruct (ci_work _ Hs1) as [[Hw1 Hw2] _]. fields_in Hw1. fields_in Hw2. rewrite E1, E2 in *. lia.
  - by apply keeps_core.
Qed.

Lemma emit_feedback_keeps s i got acked arrived mark seen : keeps s (emit_observed s i got acked None arrived mark seen).
Proof.
  unfold emit_observed. match goal with |- keeps _ (match ?m with _ => _ end) => destruct m as [[before o]|] end; [by apply keeps_core|].
  destruct (entry s i) as [e|] eqn:He; [|apply keeps_refl].
  rewrite decide_True by done. destruct (reserve_feedback_slot s) as [s'|] eqn:Er; [|by apply keeps_core].
  pose proof (reserve_feedback_core s s' Er) as Ec. eapply keeps_trans; [by apply keeps_core|].
  pose proof (entry_at s i e He) as [_ <-]. apply push_feedback_keeps.
  assert (entries s' = entries s /\ config s' = config s) as [E1 E2].
  { split; [apply (f_equal k_entries Ec)|apply (f_equal k_config Ec)]. }
  unfold entry, slot in *. by rewrite E1, E2.
Qed.

Lemma emit_loss_keeps s i o e :
  entry s i = Some e -> (inv s -> Z.of_nat (length (synthetic (inputs s))) < loss_work s) -> keeps s (emit s i false false (Some o)).
Proof.
  intros He Hroom. unfold emit, emit_observed. cbn [andb]. rewrite He, decide_False by done.
  pose proof (entry_at s i e He) as [_ <-]. by apply push_loss_keeps.
Qed.

(** Counters that are not outcomes. *)
Lemma keeps_unknown s n : keeps s (add_unknown n s).
Proof. by apply keeps_core. Qed.
Lemma keeps_duplicate s n : keeps s (add_duplicate n s).
Proof. by apply keeps_core. Qed.
Lemma keeps_wrong_path s n : keeps s (add_wrong_path n s).
Proof. by apply keeps_core. Qed.
Lemma keeps_stale s n : keeps s (add_stale n s).
Proof. by apply keeps_core. Qed.
Lemma keeps_exhausted s : keeps s (fail_exhausted s).
Proof. by apply keeps_core. Qed.
Lemma keeps_learn s now since : keeps s (learn_window s now since).
Proof. by apply keeps_core. Qed.

Lemma entry_congr s s' i : entries s' = entries s -> config s' = config s -> entry s' i = entry s i.
Proof. intros E1 E2. unfold entry, slot. by rewrite E1, E2. Qed.

Lemma entry_put_same s e e' : entry s (sent_id e) = Some e -> sent_id e' = sent_id e -> entry (put_entry s e') (sent_id e) = Some e'.
Proof. intros He E. rewrite (entry_put s e e' (sent_id e) He E). by rewrite decide_True. Qed.

(** The count of outcomes has room for one more. *)
Lemma count_room s e :
  inv s -> entry s (sent_id e) = Some e -> is_terminal (acknowledgment e) = false ->
  0 <= received_packets (counters s) < umax 64 /\ 0 <= not_received (counters s) < umax 64.
Proof.
  intros Hs He Ht. apply entry_at in He as [Hk _]. destruct (ci_count _ Hs) as (H1 & H2 & H3). destruct (ci_ids _ Hs) as [_ Hn].
  pose proof (ring_sum_member live_weight (entries s) _ _ (fun k e _ => ltac:(unfold live_weight; case_match; lia)) Hk) as Hle.
  unfold live_weight in Hle at 1. rewrite Ht in Hle. fields_in H1. fields_in H2. fields_in H3. fields_in Hn. lia.
Qed.

(** The entry after the flight bit is taken. *)
Lemma retire_flight_entry s i e :
  entry s i = Some e ->
  entry (retire_from_flight s i) i = Some (if in_flight e then with_in_flight false e else e) /\
  loss_work (retire_from_flight s i) = loss_work s /\ length (synthetic (inputs (retire_from_flight s i))) = length (synthetic (inputs s)) /\
  config (retire_from_flight s i) = config s /\ reordering_window (retire_from_flight s i) = reordering_window s.
Proof.
  intros He. unfold retire_from_flight. rewrite He. destruct (in_flight e); [|done]. split_and!; try done.
  pose proof (entry_at s i e He) as [_ <-]. by apply (entry_put_same s e (with_in_flight false e)).
Qed.

Definition loss_room s : Prop := Z.of_nat (length (synthetic (inputs s))) < loss_work s.

Lemma set_lost_keeps s e :
  entry s (sent_id e) = Some e -> is_terminal (acknowledgment e) = false ->
  keeps s (add_not_received 1 (remove_key (entry_readiness (reordering_window s) e) (put_entry s (with_acknowledgment Lost e)))).
Proof.
  intros He Ht. apply (keeps_settle s _ e (with_acknowledgment Lost e)); try done. intros Hs. exists 0, 1. split_and!; try lia.
  destruct (count_room s e Hs He Ht) as [_ Hr]. rewrite Z.add_0_r. unfold core, remove_key.
  destruct (entry_readiness _ e) as [key|]; fields; f_equal; unfold saturating_add; lia.
Qed.

Lemma settled_put s e e' key :
  entry s (sent_id e) = Some e -> sent_id e' = sent_id e ->
  entry (add_not_received 1 (remove_key key (put_entry s e'))) (sent_id e) = Some e' /\
  entry (remove_key key (put_entry s e')) (sent_id e) = Some e' /\
  loss_work (remove_key key (put_entry s e')) = loss_work s /\ inputs (remove_key key (put_entry s e')) = inputs s.
Proof.
  intros He E. pose proof (entry_put_same s e e' He E) as Hp. split_and!.
  - rewrite <- Hp. apply entry_congr; destruct key; reflexivity.
  - rewrite <- Hp. apply entry_congr; destruct key; reflexivity.
  - by destruct key.
  - by destruct key.
Qed.

Lemma mark_lost_unbudgeted_keeps s i o : (inv s -> loss_room s) -> keeps s (mark_lost_unbudgeted s i o).
Proof.
  intros Hroom. unfold mark_lost_unbudgeted. destruct (entry s i) as [e0|] eqn:He0; [|apply keeps_refl].
  match goal with |- context [let '(_, _) := ?m in _] => assert (exists s1 o1, m = (s1, o1) /\ keeps s s1 /\ (inv s -> loss_room s1)) as (s1 & o1 & -> & Hk & Hr) end.
  { destruct o; (eexists _, _; split; [done|]); [split; [apply keeps_refl|done]|]. split; [apply retire_flight_keeps|]. intros Hs.
    destruct (retire_flight_entry s i e0 He0) as (_ & E1 & E2 & _). unfold loss_room. rewrite E1, E2. by apply Hroom. }
  apply keeps_given. intros Hs. eapply keeps_trans; [exact Hk|]. destruct (entry s1 i) as [e|] eqn:He; [|apply keeps_refl].
  destruct (is_terminal (acknowledgment e)) eqn:Ht; [apply keeps_refl|]. pose proof (entry_at s1 i e He) as [_ <-].
  eapply keeps_trans; [by apply set_lost_keeps|].
  destruct (settled_put s1 e (with_acknowledgment Lost e) (entry_readiness (reordering_window s1) e) He eq_refl) as (P1 & _ & P3 & P4).
  eapply emit_loss_keeps; [exact P1|]. intros _. unfold loss_room in Hr. fields. rewrite P3, P4. by apply Hr.
Qed.

Lemma mark_lost_keeps s i o : keeps s (mark_lost s i o).1.
Proof.
  unfold mark_lost. destruct (entry s i) as [e|]; [|apply keeps_refl]. destruct (is_terminal _); [apply keeps_refl|].
  destruct (Z.eqb_spec (loss_work s) (max_expirations_per_poll (config s))) as [|Hne]; [apply keeps_refl|]. cbn [fst].
  apply keeps_given. intros Hs. destruct (ci_work _ Hs) as [[W1 W2] W3]. fields_in W1. fields_in W2. fields_in W3.
  eapply keeps_trans; [apply (keeps_work s (with_loss_work (loss_work s + 1) s) (loss_work s + 1) (length (synthetic (inputs s)))); [done|lia]|].
  apply mark_lost_unbudgeted_keeps. intros _. unfold loss_room. fields. lia.
Qed.

Lemma set_received_keeps s i acked arrived mark now : keeps s (set_received s i acked arrived mark now).
Proof.
  unfold set_received. destruct (entry s i) as [e|] eqn:He; [|apply keeps_refl]. pose proof (entry_at s i e He) as [_ <-].
  destruct (is_terminal (acknowledgment e) && _) eqn:Hd; [apply keeps_duplicate|]. eapply keeps_trans; [|apply emit_feedback_keeps].
  destruct (bool_decide (acknowledgment e = Lost)) eqn:Hl.
  - apply bool_decide_eq_true in Hl. apply (keeps_put s _ e (with_missing_since None e)); try done.
    assert (entry_readiness (reordering_window s) e = None) as -> by (unfold entry_readiness, entry_reorder_deadline; by rewrite Hl). done.
  - assert (is_terminal (acknowledgment e) = false) as Ht by by destruct (is_terminal (acknowledgment e)).
    apply (keeps_settle s _ e (with_missing_since None (with_acknowledgment Received e))); try done. intros Hs. exists 1, 0. split_and!; try lia.
    destruct (count_room s e Hs He Ht) as [Hr _]. rewrite Z.add_0_r. unfold core, remove_key.
    destruct (entry_readiness _ e) as [key|]; fields; f_equal; unfold saturating_add; lia.
Qed.

Lemma set_missing_keeps s i now : keeps s (set_missing s i now).
Proof.
  unfold set_missing. destruct (entry s i) as [e|] eqn:He; [|apply keeps_refl]. destruct (decide (acknowledgment e = Pending)) as [Hp|]; [|apply keeps_refl].
  destruct (reserve_missing_slot s) as [s1|] eqn:Er; [|apply keeps_exhausted]. pose proof (reserve_missing_core s s1 Er) as Ec.
  eapply keeps_trans; [by apply keeps_core|]. eapply keeps_trans; [|apply emit_feedback_keeps].
  rewrite <- (entry_congr s s1 i) in He by (by apply (f_equal k_entries Ec) || by apply (f_equal k_config Ec)).
  pose proof (entry_at s1 i e He) as [Hk <-]. set (e' := with_missing_since _ _).
  apply (keeps_edit _ _ (slot s1 (sent_id e)) e e'). intros Hs.
  assert (forall w, entry_readiness w e = None /\ entry_readiness w e' = None) as Hr.
  { intros w. unfold entry_readiness, entry_reorder_deadline. rewrite Hp. by subst e'. }
  split; fields; try done.
  - split; [done|by rewrite Hp|done].
  - intros r. destruct (Hr (reordering_window s1)) as [-> ->]. set_solver.
  - unfold pushes. rewrite Hp. done.
  - unfold flight_weight. subst e'. fields. split; [lia|apply Hs].
  - unfold live_weight. rewrite Hp. subst e'. fields. cbn [is_terminal]. lia.
Qed.

Lemma take_missing_since_keeps s i now : keeps s (take_missing_since s i now).
Proof.
  unfold take_missing_since. destruct (entry s i) as [e|] eqn:He; [|apply keeps_refl]. destruct (missing_since e); [|apply keeps_refl].
  pose proof (entry_at s i e He) as [_ <-]. eapply keeps_trans; [|apply keeps_learn]. by apply (keeps_put s _ e (with_missing_since None e)).
Qed.

Lemma reject_keeps s o epoch now is_new : keeps s (reject_replayed_terminal_receipt s o epoch now is_new).1.
Proof.
  unfold reject_replayed_terminal_receipt. destruct (o ≫= _) as [[i e]|]; [|apply keeps_refl]. case_match; [|apply keeps_refl].
  eapply keeps_trans; [apply take_missing_since_keeps|]. pose proof (mark_lost_keeps (take_missing_since s i now) i Reordering) as Hm.
  destruct (mark_lost _ _ _) as [s1 []]; cbn [fst] in *; [|done]. eapply keeps_trans; [exact Hm|apply keeps_duplicate].
Qed.

(** [mark_lost] if the deadline has passed, then the rest if it could. *)
Lemma lost_then_keeps s (b : bool) i o (f : History -> History) :
  (forall s, keeps s (f s)) -> keeps s (let '(s', go) := if b then mark_lost s i o else (s, true) in if go then f s' else s').
Proof.
  intros Hf. pose proof (mark_lost_keeps s i o) as Hm. destruct b; [|apply Hf]. destruct (mark_lost s i o) as [s1 []]; [|done].
  eapply keeps_trans; [exact Hm|apply Hf].
Qed.

Lemma recover_keeps s o epoch arrived mark now : keeps s (recover s o epoch arrived mark now).
Proof.
  unfold recover. destruct (o ≫= _) as [[i e]|]; [|apply keeps_unknown]. case_match; [apply keeps_wrong_path|]. case_match.
  - pose proof (mark_lost_keeps s i HistoryExpiry) as Hm. destruct (mark_lost s i HistoryExpiry) as [s1 []]; cbn [fst] in *; [|done].
    eapply keeps_trans; [exact Hm|apply take_missing_since_keeps].
  - destruct (acknowledgment e) as [|since h| | |].
    + eapply keeps_trans; [apply retire_flight_keeps|apply set_received_keeps].
    + apply (lost_then_keeps s (deadline_passed s e now) i Reordering (fun s' => learn_window (set_received s' i false arrived mark now) now since)).
      intros s'. eapply keeps_trans; [apply set_received_keeps|apply keeps_learn].
    + apply keeps_duplicate.
    + destruct (missing_since e); [|apply keeps_duplicate]. eapply keeps_trans; [apply keeps_learn|apply set_received_keeps].
    + apply keeps_duplicate.
Qed.

Lemma advance_entry_keeps s o epoch got arrived mark now : keeps s (advance_entry s o epoch got arrived mark now).
Proof.
  unfold advance_entry. destruct (o ≫= _) as [[i e]|]; [|apply keeps_unknown]. case_match; [apply keeps_wrong_path|]. case_match; [apply mark_lost_keeps|].
  match goal with |- keeps _ (match ?m with _ => _ end) => destruct m as [s1|] eqn:Er end; [|apply keeps_exhausted].
  eapply keeps_trans.
  { apply keeps_core. destruct (negb got && _) in Er; [by apply reserve_missing_core|]. by injection Er as <-. }
  eapply keeps_trans; [apply (retire_flight_keeps s1 i)|]. destruct got.
  - apply (lost_then_keeps (retire_from_flight s1 i) (deadline_passed (retire_from_flight s1 i) e now) i Reordering (fun s' => set_received s' i true arrived mark now)).
    intros s'. apply set_received_keeps.
  - eapply keeps_trans; [apply (set_missing_keeps _ i now)|]. destruct (exhausted _); [apply keeps_refl|apply emit_feedback_keeps].
Qed.

Lemma anchor_one_keeps fe se now s i : keeps s (anchor_one fe se now s i).
Proof.
  unfold anchor_one. destruct (entry s i) as [e|] eqn:He; [|apply keeps_refl]. destruct (acknowledgment e) as [|since [h|]| | |] eqn:Ha; try apply keeps_refl.
  case_match; [|apply keeps_refl]. pose proof (entry_at s i e He) as [Hk <-]. set (e' := with_acknowledgment _ e).
  apply (keeps_edit _ _ (slot s (sent_id e)) e e'). intros Hs.
  assert (forall w, entry_readiness w e = None) as Hr by (intros w; unfold entry_readiness, entry_reorder_deadline; by rewrite Ha).
  split; try done.
  - split; [done|by rewrite Ha|done].
  - unfold insert_key. by destruct (entry_readiness _ _).
  - unfold insert_key. by destruct (entry_readiness _ _).
  - intros r. unfold insert_key. fields. rewrite Hr. destruct (entry_readiness (reordering_window s) e') as [key|]; fields; set_solver.
  - unfold insert_key, pushes. rewrite Ha. destruct (entry_readiness _ _); fields; by rewrite app_nil_r.
  - unfold flight_weight, insert_key. destruct (entry_readiness _ _); subst e'; fields; (split; [lia|apply Hs]).
  - unfold live_weight, insert_key. rewrite Ha. destruct (entry_readiness _ _); subst e'; fields; cbn [is_terminal]; lia.
Qed.

Lemma anchor_missing_keeps s fe se now : keeps s (anchor_missing s fe se now).
Proof. apply keeps_foldl. intros s' i. apply anchor_one_keeps. Qed.

(** ** Loops *)

Lemma moves_same c c' :
  k_config c' = k_config c -> k_mode c' = k_mode c -> k_next c' = k_next c -> k_active c' = k_active c -> k_path c' = k_path c -> k_entries c' = k_entries c ->
  k_received c' = k_received c -> k_lost c' = k_lost c -> moves c c'.
Proof. intros E1 E2 E3 E4 EP E5 E6 E7. split; try done; rewrite ?E5, ?E6, ?E7; try done. apply carried_slots_refl. Qed.

(** The queue of missing packets may lose whoever is no longer missing. *)
Lemma keeps_queue s l :
  (inv s -> NoDup l /\ (forall i, i ∈ l -> i ∈ missing s) /\
     forall i e, entry s i = Some e -> is_missing (acknowledgment e) = true -> i ∈ l) -> keeps s (with_missing l s).
Proof.
  intros Hl Hs. destruct (Hl Hs) as (H1 & H2 & H3). split; [|by apply moves_same].
  destruct Hs as [I1 I2 I3 I4 I5 I6 I7 [I8 I8'] I9 I10 IP I11]. split; try done.
  - intros k e Hk. destruct (I5 k e Hk) as [O1 O2 O3 O4 O5 O6]. split; try done; fields.
    + intros Hm. apply (H3 _ e); [|done]. unfold entry. unfold ring_slot in O1. fields_in O1. unfold slot. rewrite O1. fields_in Hk.
      by rewrite Hk, Z.eqb_refl.
    + intros Hp Hin. by apply O6, H2.
  - fields. split; [done|]. rewrite Forall_forall in I8' |- *. intros i Hi. by apply I8', H2.
Qed.

(** Giving a packet up does not look at the queue. *)
Lemma retire_flight_comm s l i : retire_from_flight (with_missing l s) i = with_missing l (retire_from_flight s i).
Proof. unfold retire_from_flight. change (entry (with_missing l s) i) with (entry s i). destruct (entry s i) as [e|]; [|done]. by destruct (in_flight e). Qed.

Lemma emit_loss_comm s l i o : emit (with_missing l s) i false false (Some o) = with_missing l (emit s i false false (Some o)).
Proof.
  unfold emit, emit_observed. cbn [andb]. change (entry (with_missing l s) i) with (entry s i). destruct (entry s i) as [e|]; [|done].
  rewrite !decide_False by done. unfold push_observation. change (mode (with_missing l s)) with (mode s).
  set (first := _ && _). set (back := _ && _). destruct first; [|destruct back]; fields; by case_match.
Qed.

Lemma mark_lost_comm s l i o : mark_lost_unbudgeted (with_missing l s) i o = with_missing l (mark_lost_unbudgeted s i o).
Proof.
  unfold mark_lost_unbudgeted. change (entry (with_missing l s) i) with (entry s i). destruct (entry s i) as [e|]; [|done].
  rewrite retire_flight_comm. destruct o; cbn [config reordering_window with_missing reorder_deadline].
  - change (entry (with_missing l s) i) with (entry s i). destruct (entry s i) as [x|]; [|done]. destruct (is_terminal _); [done|].
    rewrite <- emit_loss_comm. f_equal. unfold remove_key. fields. by destruct (entry_readiness _ x).
  - change (reorder_deadline (with_missing l s) e) with (reorder_deadline s e).
    change (entry (with_missing l (retire_from_flight s i)) i) with (entry (retire_from_flight s i) i).
    destruct (entry (retire_from_flight s i) i) as [x|]; [|done]. destruct (is_terminal _); [done|].
    rewrite <- emit_loss_comm. f_equal. unfold remove_key. fields. by destruct (entry_readiness _ x).
Qed.

(** Every entry is where it was, with what [carried] allows. *)
Lemma moves_entry s s' i e : inv s -> moves (core s) (core s') -> entry s i = Some e -> exists e', entry s' i = Some e' /\ carried e e'.
Proof.
  intros Hs Hm He. apply entry_at in He as [Hk <-]. pose proof (mv_entries _ _ Hm) as Hf. fields_in Hf.
  destruct (Forall2_lookup_l _ _ _ _ _ Hf Hk) as (o & Ho & Hc). inv Hc. eexists. split; [|done]. unfold entry, slot.
  pose proof (mv_config _ _ Hm) as Ec. fields_in Ec. rewrite Ec. fold (slot s (sent_id e)). rewrite Ho.
  match goal with Hc : carried _ _ |- _ => apply carried_fields in Hc as (E & _) end. by rewrite E, Z.eqb_refl.
Qed.

Lemma emit_loss_entry s i o e : entry s i = Some e -> exists e', entry (emit s i false false (Some o)) i = Some e' /\ acknowledgment e' = acknowledgment e.
Proof.
  intros He. unfold emit, emit_observed. cbn [andb]. rewrite He, decide_False by done. pose proof (entry_at s i e He) as [_ <-].
  unfold push_observation. set (first := _ && _). set (back := _ && _).
  assert (exists e', entry (flag_network first back s e) (sent_id e) = Some e' /\ acknowledgment e' = acknowledgment e) as (e' & He' & Ha).
  { unfold flag_network. destruct first; [|destruct back]; [eexists; split; [by apply entry_put_same|done]..|eauto]. }
  exists e'. split; [|done]. unfold flag_network in He'. destruct (Z.of_nat _ <? _); exact He'.
Qed.

Lemma mark_lost_outcome s i o e : entry s i = Some e -> exists e', entry (mark_lost_unbudgeted s i o) i = Some e' /\ is_terminal (acknowledgment e') = true.
Proof.
  intros He. unfold mark_lost_unbudgeted. rewrite He. destruct (retire_flight_entry s i e He) as (Hr & _).
  match goal with |- context [let '(_, _) := ?m in _] => assert (exists s1 o1 e1, m = (s1, o1) /\ entry s1 i = Some e1) as (s1 & o1 & e1 & -> & He1) end.
  { destruct o; eexists _, _, _; split; try done. }
  rewrite He1. destruct (is_terminal (acknowledgment e1)) eqn:Ht; [by exists e1|]. pose proof (entry_at s1 i e1 He1) as [_ <-].
  destruct (settled_put s1 e1 (with_acknowledgment Lost e1) (entry_readiness (reordering_window s1) e1) He1 eq_refl) as (P1 & _).
  destruct (emit_loss_entry _ _ o1 _ P1) as (e' & He' & Ha). exists e'. split; [done|]. by rewrite Ha.
Qed.

Lemma spend_keeps s : (inv s -> loss_work s < max_expirations_per_poll (config s)) -> keeps s (with_loss_work (loss_work s + 1) s).
Proof.
  intros Hw. apply (keeps_work s _ (loss_work s + 1) (length (synthetic (inputs s)))); [done|]. intros Hs.
  destruct (ci_work _ Hs) as [[W1 W2] W3]. fields_in W1. fields_in W2. fields_in W3. specialize (Hw Hs). lia.
Qed.

Lemma spend_room s : inv s -> loss_room (with_loss_work (loss_work s + 1) s).
Proof. intros Hs. destruct (ci_work _ Hs) as [[W1 W2] W3]. fields_in W3. unfold loss_room. fields. lia. Qed.

Lemma emit_loss_frame s i o :
  spaces (emit s i false false (Some o)) = spaces s /\
  loss_work (emit s i false false (Some o)) = loss_work s /\ oldest_sent_id (emit s i false false (Some o)) = oldest_sent_id s /\
  next_sent_id (emit s i false false (Some o)) = next_sent_id s.
Proof.
  unfold emit, emit_observed. cbn [andb]. destruct (entry s i) as [e|]; [|done]. rewrite decide_False by done.
  unfold push_observation. set (first := _ && _). set (back := _ && _). destruct first; [|destruct back]; fields; by case_match.
Qed.

Lemma mark_lost_frame s i o :
  spaces (mark_lost_unbudgeted s i o) = spaces s /\
  loss_work (mark_lost_unbudgeted s i o) = loss_work s /\ oldest_sent_id (mark_lost_unbudgeted s i o) = oldest_sent_id s /\
  next_sent_id (mark_lost_unbudgeted s i o) = next_sent_id s.
Proof.
  assert (spaces (retire_from_flight s i) = spaces s /\ loss_work (retire_from_flight s i) = loss_work s /\ oldest_sent_id (retire_from_flight s i) = oldest_sent_id s /\
    next_sent_id (retire_from_flight s i) = next_sent_id s) as Hr.
  { unfold retire_from_flight. destruct (entry s i) as [x|]; [|done]. by destruct (in_flight x). }
  unfold mark_lost_unbudgeted. destruct (entry s i) as [e|]; [|done].
  destruct o; [destruct (entry s i) as [x|]|destruct (entry (retire_from_flight s i) i) as [x|]]; try done; (destruct (is_terminal _); [done|]);
    match goal with |- context [emit ?y i false false (Some ?o)] => destruct (emit_loss_frame y i o) as (-> & -> & -> & ->) end;
    unfold remove_key; by destruct (entry_readiness _ x).
Qed.
Lemma mark_lost_work s i o : loss_work (mark_lost_unbudgeted s i o) = loss_work s.
Proof. apply mark_lost_frame. Qed.

(** One packet of the queue. *)
Definition confirm_one s (i : Z) (rest : list Z) (now : Z) : History :=
  let s := with_loss_work (loss_work s + 1) (with_missing rest s) in
  match entry s i with
  | None => s
  | Some e =>
      if is_missing (acknowledgment e) then
        if deadline_passed s e now then mark_lost_unbudgeted s i Reordering else with_missing (missing s ++ [i]) s
      else s
  end.

Lemma confirm_one_keeps s i rest now :
  missing s = i :: rest -> (inv s -> loss_work s < max_expirations_per_poll (config s)) ->
  keeps s (confirm_one s i rest now) /\ loss_work (confirm_one s i rest now) = loss_work s + 1.
Proof.
  intros Hq Hw. unfold confirm_one. set (s1 := with_loss_work (loss_work s + 1) s).
  change (with_loss_work (loss_work s + 1) (with_missing rest s)) with (with_missing rest s1).
  change (entry (with_missing rest s1) i) with (entry s i).
  assert (forall s2, keeps s1 s2 -> keeps s s2) as Hspend by (intros s2; apply keeps_trans; by apply spend_keeps).
  assert (forall l, l = rest \/ l = rest ++ [i] -> (l = rest -> forall e, entry s i = Some e -> is_missing (acknowledgment e) = false) -> keeps s1 (with_missing l s1)) as Hq'.
  { intros l Hl Hgone. apply keeps_queue. intros Hs1. destruct (ci_missing _ Hs1) as [Hnd _]. fields_in Hnd. change (missing s1) with (missing s) in Hnd |- *. rewrite Hq in Hnd |- *.
    apply NoDup_cons in Hnd as [Hi Hnd]. change (entry s1) with (entry s). split_and!.
    - destruct Hl as [->| ->]; [done|]. apply NoDup_app. split; [done|]. split; [|apply NoDup_singleton]. intros x Hx ->%list_elem_of_singleton. done.
    - intros x Hx. destruct Hl as [->| ->]; [by right|]. apply elem_of_app in Hx as [Hx|Hx%list_elem_of_singleton]; [by right|subst; by left].
    - intros x e He Hm. pose proof (entry_at s x e He) as [Hk Hx].
      pose proof (eo_missing _ _ _ (ci_entries _ Hs1 _ _ Hk) Hm) as Hin. fields_in Hin. change (missing s1) with (missing s) in Hin. rewrite Hq, Hx in Hin. apply elem_of_cons in Hin as [->|Hin].
      + destruct Hl as [->| ->]; [|apply elem_of_app; right; by left]. by rewrite (Hgone eq_refl e He) in Hm.
      + destruct Hl as [->| ->]; [done|]. apply elem_of_app. by left. }
  destruct (entry s i) as [e|] eqn:He; [|split; [apply Hspend, Hq'; [by left|done]|done]].
  destruct (is_missing (acknowledgment e)) eqn:Hm; [|split; [apply Hspend, Hq'; [by left|]|done]; intros _ x [= <-]; done].
  destruct (deadline_passed _ e now); [|split; [apply Hspend; apply (Hq' (rest ++ [i])); [by right|]|done]].
  - rewrite mark_lost_comm. split; [|exact (mark_lost_work s1 i Reordering)]. apply keeps_given. intros Hs.
    eapply keeps_trans; [apply Hspend, (mark_lost_unbudgeted_keeps s1 i Reordering); intros _; by apply spend_room|].
    assert (keeps s1 (mark_lost_unbudgeted s1 i Reordering)) as Hk by (apply mark_lost_unbudgeted_keeps; intros _; by apply spend_room).
    assert (inv s1) as Hs1 by (by apply (spend_keeps s Hw)).
    destruct (mark_lost_outcome s1 i Reordering e He) as (e' & He' & Ht').
    assert (missing (mark_lost_unbudgeted s1 i Reordering) = i :: rest) as Hq2.
    { change s1 with (with_missing (missing s) s1) at 1. by rewrite mark_lost_comm. }
    apply keeps_queue. intros Hs2. destruct (ci_missing _ Hs2) as [Hnd _]. fields_in Hnd. rewrite Hq2 in Hnd |- *.
    apply NoDup_cons in Hnd as [Hi Hnd]. split_and!; [done|by right|]. intros x ex Hx Hmx. pose proof (entry_at _ x ex Hx) as [Hkx Ex].
    pose proof (eo_missing _ _ _ (ci_entries _ Hs2 _ _ Hkx) Hmx) as Hin. fields_in Hin. rewrite Hq2, Ex in Hin.
    apply elem_of_cons in Hin as [->|Hin]; [|done]. rewrite He' in Hx. injection Hx as <-. by destruct (acknowledgment e').
  - intros E. apply (f_equal length) in E. rewrite length_app in E. cbn in E. lia.
Qed.

Lemma confirm_loop_keeps fuel s now :
  (inv s -> loss_work s + Z.of_nat fuel <= max_expirations_per_poll (config s)) ->
  inv s -> let '(s', work) := confirm_loop fuel s now in
  inv s' /\ moves (core s) (core s') /\ loss_work s' = loss_work s + work /\ 0 <= work <= Z.of_nat fuel.
Proof.
  revert s. induction fuel as [|fuel IH]; intros s Hw Hs; cbn [confirm_loop]; [split_and!; try done; try lia; apply moves_refl|].
  destruct (missing s) as [|i rest] eqn:Hq; [split_and!; try done; try lia; apply moves_refl|].
  specialize (Hw Hs). fold (confirm_one s i rest now).
  destruct (confirm_one_keeps s i rest now Hq ltac:(intros; lia)) as [Hk Hwk]. destruct (Hk Hs) as [Hs1 Hm1].
  pose proof (mv_config _ _ Hm1) as Ec. fields_in Ec.
  specialize (IH (confirm_one s i rest now) ltac:(intros; rewrite Hwk, Ec; lia) Hs1). destruct (confirm_loop fuel _ now) as [s2 work].
  destruct IH as (H1 & H2 & H3 & H4). split_and!; [done|by eapply moves_trans|lia|lia|lia].
Qed.

Lemma least_acc l a : exists r, foldl (fun acc r => match acc with None => Some r | Some a => Some (if readiness_ltb r a then r else a) end) (Some a) l = Some r /\ (r = a \/ r ∈ l).
Proof.
  revert a. induction l as [|x l IH]; intros a; cbn [foldl]; [eauto|].
  destruct (IH (if readiness_ltb x a then x else a)) as (r & -> & Hr). exists r. split; [done|].
  destruct Hr as [->|Hr]; [|right; by right]. case_match; [right; by left|by left].
Qed.
Lemma least_elem l r : least l = Some r -> r ∈ l.
Proof.
  unfold least. destruct l as [|a l]; [done|]. cbn [foldl]. destruct (least_acc l a) as (x & -> & Hx). intros [= <-].
  destruct Hx as [->|Hx]; [by left|by right].
Qed.
Lemma first_ready_elem (s : gset Readiness) r : first_ready s = Some r -> r ∈ s.
Proof. intros Hl%least_elem. by apply elem_of_elements. Qed.

Lemma space_keys_lookup s sp : space_keys s !! sp = (fun p => space_readiness p sp (retention (config s))) <$> spaces s !! sp.
Proof. unfold space_keys. rewrite map_lookup_imap. by destruct (spaces s !! sp). Qed.

Lemma ready_space s d sp : inv s -> ReadyRetired d sp ∈ readiness s -> is_Some (spaces s !! sp) /\ space_keys s !! sp = Some (ReadyRetired d sp).
Proof.
  intros Hs Hr. apply (ci_ready _ Hs) in Hr as [[sp' Hsp]|(k & e & _ & Hk)]; [|by apply readiness_key in Hk as [? ?]].
  fields_in Hsp. destruct (ci_spaces _ Hs sp' _ Hsp) as [|[d' Heq]]; [done|]. injection Heq as <- <-. split; [|done].
  rewrite space_keys_lookup in Hsp. destruct (spaces s !! sp); [by eexists|done].
Qed.

(** Removing a space and its key. *)
Definition drop_space (sp : Z) (r : Readiness) (c : Core) : Core :=
  mkCore (k_config c) (k_mode c) (k_entries c) (k_indexed c) (delete sp (k_spaces c)) (k_ready c ∖ {[r]}) (k_next c) (k_oldest c) (k_active c) (k_path c)
    (k_missing c) (k_bytes c) (k_window c) (k_received c) (k_lost c) (k_work c) (k_reported c) (k_synthetic c).

Lemma keeps_drop_space s s' sp d :
  space_keys s !! sp = Some (ReadyRetired d sp) -> core s' = drop_space sp (ReadyRetired d sp) (core s) -> keeps s s'.
Proof.
  intros Hsp E Hs. unfold inv. rewrite E. destruct Hs as [I1 I2 I3 I4 I5 I6 I7 I8 I9 I10 IP I11]. split; [|by apply moves_same].
  unfold drop_space. split; try done; fields.
  - intros k e Hk. destruct (I5 k e Hk). by split.
  - intros sp' r. rewrite lookup_delete_Some. intros [_ Hr]. by apply I6.
  - intros r. rewrite elem_of_difference, elem_of_singleton, I7. fields. split.
    + intros [[[sp' Hr]|Hr] Hne]; [left; exists sp'|by right]. rewrite lookup_delete_ne; [done|]. intros <-. congruence.
    + intros [[sp' Hr]|(k & e & Hk & Hr)].
      * rewrite lookup_delete_Some in Hr. destruct Hr as [Hne Hr]. split; [left; by exists sp'|]. intros ->.
        destruct (I6 sp' _ Hr) as [|[? Heq]]; [done|]. by injection Heq as _ ->.
      * split; [right; by exists k, e|]. intros ->. by apply readiness_key in Hr as [? ?].
Qed.

Lemma reclaim_space_keeps s d sp : ReadyRetired d sp ∈ readiness s -> keeps s (reclaim_space s d sp).
Proof.
  intros Hr. apply keeps_given. intros Hs. destruct (ready_space s d sp Hs Hr) as [[p Hp] Hk]. unfold reclaim_space.
  change (spaces (remove_key (Some (ReadyRetired d sp)) s)) with (spaces s). rewrite Hp.
  apply (keeps_drop_space s _ sp d Hk). unfold core, drop_space. fields. f_equal. unfold space_keys. fields.
  apply map_eq. intros j. rewrite map_lookup_imap. destruct (decide (j = sp)) as [->|Hne]; [by rewrite !lookup_delete_eq|].
  rewrite !lookup_delete_ne by done. by rewrite map_lookup_imap.
Qed.

Lemma reclaim_loop_keeps fuel s now work limit :
  inv s -> let '(s', work') := reclaim_loop fuel s now work limit in
  inv s' /\ moves (core s) (core s') /\ loss_work s' = loss_work s + (work' - work) /\ work <= work' <= Z.max work limit /\
  k_missing (core s') = k_missing (core s).
Proof.
  revert s work. induction fuel as [|fuel IH]; intros s work Hs; cbn [reclaim_loop]; [split_and!; try done; try lia; apply moves_refl|].
  destruct ((work <? limit) && (loss_work s <? max_expirations_per_poll (config s))) eqn:Hw; [|split_and!; try done; try lia; apply moves_refl].
  apply andb_true_iff in Hw as [Hw1 Hw2].
  destruct (first_ready (readiness s)) as [[d sp| |]|] eqn:Hf; try (split_and!; try done; try lia; apply moves_refl).
  destruct (match d with Some d => now <? d | None => false end); [split_and!; try done; try lia; apply moves_refl|].
  apply first_ready_elem in Hf. destruct (reclaim_space_keeps s d sp Hf Hs) as [Hs1 Hm1].
  set (s1 := reclaim_space s d sp) in *.
  assert (loss_work s1 = loss_work s /\ missing s1 = missing s) as [Ew Emi] by (unfold s1, reclaim_space; destruct (spaces _ !! sp); done).
  pose proof (mv_config _ _ Hm1) as Ec. fields_in Ec.
  destruct (spend_keeps s1 ltac:(intros _; rewrite Ew, Ec; lia) Hs1) as [Hs2 Hm2].
  specialize (IH (with_loss_work (loss_work s1 + 1) s1) (work + 1) Hs2). destruct (reclaim_loop fuel _ now (work + 1) limit) as [s3 w3].
  destruct IH as (H1 & H2 & H3 & H4 & H5). cbn [loss_work with_loss_work] in H3. split_and!; [done| |lia|lia|lia|].
  - eapply moves_trans; [exact Hm1|]. by eapply moves_trans.
  - rewrite H5. fields. done.
Qed.

Lemma entry_lookup s k e : inv s -> entries s !! k = Some (Some e) -> entry s (sent_id e) = Some e.
Proof.
  intros Hs Hk. pose proof (eo_slot _ _ _ (ci_entries _ Hs _ _ Hk)) as Hsl. unfold entry. unfold ring_slot in Hsl. fields_in Hsl. unfold slot.
  by rewrite Hsl, Hk, Z.eqb_refl.
Qed.

(** The oldest packet has its outcome: the window moves on. *)
Lemma bump_keeps s :
  oldest_sent_id s < next_sent_id s -> (forall e, entry s (oldest_sent_id s) = Some e -> is_terminal (acknowledgment e) = true) ->
  keeps s (with_oldest_sent_id (saturating_add 64 (oldest_sent_id s) 1) s).
Proof.
  intros Hlt Ht Hs. destruct (ci_ids _ Hs) as [H1 H2]. fields_in H1. fields_in H2.
  assert (saturating_add 64 (oldest_sent_id s) 1 = oldest_sent_id s + 1) as -> by (unfold saturating_add; lia).
  split; [|by apply moves_same]. pose proof Hs as [I1 I2 I3 I4 I5 I6 I7 I8 I9 I10 IP I11]. split; try done; fields; [lia|].
  intros k e Hk. destruct (I5 k e Hk) as [O1 O2 O3 O4 O5 O6]. split; try done; fields.
  intros Hl. destruct (O4 Hl) as [Ha Ho]. fields_in Ho. split; [done|].
  destruct (decide (sent_id e = oldest_sent_id s)) as [E|]; [|lia]. rewrite <- E in Ht. rewrite (Ht e) in Hl; [done|]. by eapply entry_lookup.
Qed.

Lemma expire_step_keeps s e :
  entry s (oldest_sent_id s) = Some e -> (inv s -> loss_work s < max_expirations_per_poll (config s)) ->
  keeps s (let s := with_loss_work (loss_work s + 1) s in
           if is_terminal (acknowledgment e) then s else add_expired 1 (mark_lost_unbudgeted s (oldest_sent_id s) HistoryExpiry)).
Proof.
  intros He Hw. apply keeps_given. intros Hs. eapply keeps_trans; [by apply spend_keeps|]. cbn zeta. destruct (is_terminal _); [apply keeps_refl|].
  eapply keeps_trans; [|by apply keeps_core]. apply mark_lost_unbudgeted_keeps. intros _. by apply spend_room.
Qed.

(** One packet at the old end of the ring is due. *)
Definition expire_one s (e : SentEntry) : History :=
  let s := with_loss_work (loss_work s + 1) s in
  let s := if is_terminal (acknowledgment e) then s else add_expired 1 (mark_lost_unbudgeted s (oldest_sent_id s) HistoryExpiry) in
  with_oldest_sent_id (saturating_add 64 (oldest_sent_id s) 1) s.
Definition skip_one s : History :=
  with_loss_work (loss_work s + 1) (with_oldest_sent_id (saturating_add 64 (oldest_sent_id s) 1) s).

Lemma expire_one_keeps s e :
  entry s (oldest_sent_id s) = Some e -> oldest_sent_id s < next_sent_id s -> loss_work s < max_expirations_per_poll (config s) -> keeps s (expire_one s e).
Proof.
  intros He Hlt Hw. unfold expire_one. eapply keeps_trans; [apply (expire_step_keeps s e He); by intros _|]. cbn zeta. set (s1 := if is_terminal _ then _ else _).
  assert (oldest_sent_id s1 = oldest_sent_id s /\ next_sent_id s1 = next_sent_id s) as [E1 E2].
  { unfold s1. destruct (is_terminal _); [done|]. apply (mark_lost_frame (with_loss_work (loss_work s + 1) s)). }
  apply bump_keeps; [rewrite E1, E2; lia|]. rewrite E1. intros x Hx. unfold s1 in Hx. destruct (is_terminal (acknowledgment e)) eqn:Ht.
  - change (entry s (oldest_sent_id s) = Some x) in Hx. congruence.
  - destruct (mark_lost_outcome (with_loss_work (loss_work s + 1) s) (oldest_sent_id s) HistoryExpiry e He) as (e' & He' & Ht').
    change (entry (mark_lost_unbudgeted (with_loss_work (loss_work s + 1) s) (oldest_sent_id s) HistoryExpiry) (oldest_sent_id s) = Some x) in Hx. congruence.
Qed.

Lemma skip_one_keeps s :
  entry s (oldest_sent_id s) = None -> oldest_sent_id s < next_sent_id s -> loss_work s < max_expirations_per_poll (config s) -> keeps s (skip_one s).
Proof.
  intros He Hlt Hw. unfold skip_one. eapply keeps_trans; [apply bump_keeps; [lia|]|].
  - intros x Hx. congruence.
  - apply (spend_keeps (with_oldest_sent_id _ s)). intros _. fields. lia.
Qed.

Lemma expire_loop_keeps fuel s now work limit : keeps s (expire_loop fuel s now work limit).1.
Proof.
  revert s work. induction fuel as [|fuel IH]; intros s work; cbn [expire_loop]; [apply keeps_refl|].
  destruct (_ && _ && _) eqn:Hw; [|apply keeps_refl]. apply andb_true_iff in Hw as [[_ Hw2]%andb_true_iff Hw3].
  destruct (entry s (oldest_sent_id s)) as [e|] eqn:He.
  - destruct (duration_checked_add _ _) as [d|]; [|apply keeps_refl]. destruct (now <? d); [apply keeps_refl|].
    eapply keeps_trans; [|apply IH]. apply (expire_one_keeps s e He); lia.
  - eapply keeps_trans; [|apply IH]. apply (skip_one_keeps s He); lia.
Qed.

Lemma expire_keeps s now limit : 0 <= limit -> keeps s (expire s now limit).1.
Proof.
  intros Hl Hs. unfold expire, confirm_losses, reclaim_sources. destruct (ci_work _ Hs) as [[W1 W2] _]. fields_in W1. fields_in W2.
  match goal with |- context [confirm_loop ?f s now] =>
    pose proof (confirm_loop_keeps f s now ltac:(intros _; unfold saturating_sub; lia) Hs) as Hc; destruct (confirm_loop f s now) as [s1 w1] end.
  destruct Hc as (Hs1 & Hm1 & _ & Hw1). match goal with |- context [reclaim_loop ?f s1 now 0 ?l] =>
    pose proof (reclaim_loop_keeps f s1 now 0 l Hs1) as Hr; destruct (reclaim_loop f s1 now 0 l) as [s2 w2] end.
  destruct Hr as (Hs2 & Hm2 & _). destruct (expire_loop_keeps (Z.to_nat limit) s2 now (w1 + w2) limit Hs2) as [Hs3 Hm3].
  split; [done|]. eapply moves_trans; [exact Hm1|]. by eapply moves_trans.
Qed.

(** ** A longer reordering window *)

Definition refrozen (e e' : SentEntry) : Prop := e' = e \/ exists d, e' = with_frozen_reorder_deadline (Some d) e.

Definition distinct_ids (l : list (option SentEntry)) : Prop :=
  forall j k e e', l !! j = Some (Some e) -> l !! k = Some (Some e') -> sent_id e = sent_id e' -> j = k.

Lemma distinct_tail o l : distinct_ids (o :: l) -> distinct_ids l.
Proof. intros Hd j k e e' Hj Hk E. specialize (Hd (S j) (S k) e e' Hj Hk E). lia. Qed.

Lemma distinct_head e l k e' : distinct_ids (Some e :: l) -> l !! k = Some (Some e') -> sent_id e' <> sent_id e.
Proof. intros Hd Hk E. by specialize (Hd (S k) 0%nat e' e Hk eq_refl E). Qed.

Lemma key_other w w' e e' r : sent_id e' <> sent_id e -> entry_readiness w e = Some r -> entry_readiness w' e' <> Some r.
Proof. intros Hne [d ->]%readiness_key [d' Heq]%readiness_key. injection Heq. lia. Qed.

Lemma rekey_spec old new now l ready ready' l' :
  rekey old new now l ready = (ready', l') -> distinct_ids l ->
  (forall k e r, l !! k = Some (Some e) -> entry_readiness old e = Some r -> r ∈ ready) ->
  Forall2 (option_Forall2 refrozen) l l' /\
  forall r, r ∈ ready' <-> (r ∈ ready /\ forall k e, l !! k = Some (Some e) -> entry_readiness old e <> Some r) \/
                           (exists k e', l' !! k = Some (Some e') /\ entry_readiness new e' = Some r).
Proof.
  revert ready ready' l'. induction l as [|[e|] l IH]; intros ready ready' l' E Hd Hp.
  - injection E as <- <-. split; [constructor|]. intros r. split; [left; done|]. by intros [[? _]|(k & e' & Hk & _)].
  - cbn [rekey] in E. set (e1 := freeze old now e) in E.
    assert (refrozen e e1) as Hre.
    { unfold e1, freeze. destruct (frozen_reorder_deadline e); [by left|]. destruct (entry_reorder_deadline old e) as [d|]; [|by left]. destruct (d <=? now); [right; by exists d|by left]. }
    assert (sent_id e1 = sent_id e) as Hid by (by destruct Hre as [->|[? ->]]).
    set (ready1 := swap_key _ _ _) in E. destruct (rekey old new now l ready1) as [ready2 l2] eqn:E2. injection E as <- <-.
    assert (forall r, r ∈ ready1 <-> (r ∈ ready /\ entry_readiness old e <> Some r) \/ entry_readiness new e1 = Some r) as H1.
    { intros r. specialize (Hp 0%nat e r eq_refl). unfold ready1, swap_key. case_decide as Heq.
      - rewrite Heq in *. destruct (decide (entry_readiness new e1 = Some r)) as [Hr|]; [split; [by right|by intros _; apply Hp]|]. tauto.
      - destruct (entry_readiness old e), (entry_readiness new e1); set_solver. }
    apply IH in E2 as [Hf2 H2]; [|by eapply distinct_tail|].
    2: { intros k x r Hk Hr. apply H1. left. split; [by apply (Hp (S k) x)|]. apply (key_other old old x e r); [|done].
         intros Heq. by apply (distinct_head e l k x Hd Hk). }
    split; [by constructor; [constructor|]|]. intros r. rewrite H2, H1. split.
    + intros [[[[Hr Hne]|Hr] Ht]|(k & x & Hk & Hx)]; [left|right; by exists 0%nat, e1|right; by exists (S k), x].
      split; [done|]. intros [|k] x Hk; [by injection Hk as <-|by apply (Ht k)].
    + intros [[Hr Hn]|([|k] & x & Hk & Hx)].
      * left. split; [left; split; [done|by apply (Hn 0%nat)]|]. intros k x Hk. by apply (Hn (S k)).
      * injection Hk as <-. left. split; [by right|]. intros k x Hk. apply (key_other new old e1 x r); [|done]. rewrite Hid. by apply (distinct_head e l k).
      * right. by exists k, x.
  - cbn [rekey] in E. destruct (rekey old new now l ready) as [ready2 l2] eqn:E2. injection E as <- <-.
    apply IH in E2 as [Hf2 H2]; [|by eapply distinct_tail|intros k x r Hk; by apply (Hp (S k) x)].
    split; [by constructor; [constructor|]|]. intros r. rewrite H2. split.
    + intros [[Hr Hn]|(k & x & Hk & Hx)]; [left|right; by exists (S k), x]. split; [done|]. intros [|k] x Hk; [done|by apply (Hn k)].
    + intros [[Hr Hn]|([|k] & x & Hk & Hx)]; [left|done|right; by exists k, x]. split; [done|]. intros k x Hk. by apply (Hn (S k)).
Qed.

Lemma ring_sum_rel f l l' : Forall2 (option_Forall2 (fun e e' => f e' = f e)) l l' -> ring_sum f l' = ring_sum f l.
Proof. induction 1 as [|o o' l l' Ho _ IH]; [done|]. cbn. rewrite IH. by destruct Ho as [e e' ->|]. Qed.

Lemma refrozen_slots (R : SentEntry -> SentEntry -> Prop) l l' :
  (forall e e', refrozen e e' -> R e e') -> Forall2 (option_Forall2 refrozen) l l' -> Forall2 (option_Forall2 R) l l'.
Proof. intros HR Hf. eapply Forall2_impl; [exact Hf|]. intros o o' []; constructor. by apply HR. Qed.

Lemma inv_distinct s : inv s -> distinct_ids (entries s).
Proof. intros Hs j k e e' Hj Hk E. symmetry. eapply (same_slot (core s)); [done|exact Hj|exact Hk|done]. Qed.

Lemma apply_window_keeps s now : keeps s (apply_reordering_window s now).
Proof.
  unfold apply_reordering_window. case_match; [apply keeps_refl|].
  destruct (rekey _ _ now (entries s) (readiness s)) as [ready l] eqn:E. intros Hs.
  apply rekey_spec in E as [Hf Hr]; [|by apply inv_distinct|].
  2: { intros k e r Hk Hx. apply (ci_ready _ Hs). right. by exists k, e. }
  assert (forall f, (forall e e', refrozen e e' -> f e' = f e) -> ring_sum f l = ring_sum f (entries s)) as Hsum.
  { intros f Hfe. apply ring_sum_rel. by apply (refrozen_slots _ _ _ Hfe). }
  assert (ring_sum live_weight l = ring_sum live_weight (entries s)) as El by (apply Hsum; by intros e e' [->|[? ->]]).
  assert (ring_sum flight_weight l = ring_sum flight_weight (entries s)) as Ef by (apply Hsum; by intros e e' [->|[? ->]]).
  split; [|split; try done; fields; [|by rewrite El]; apply (refrozen_slots carried); [|done]; intros e e' [->|[? ->]]; [apply carried_refl|by split]].
  destruct Hs as [I1 I2 I3 I4 I5 I6 I7 I8 I9 I10 IP I11]. split; try done; fields.
  - by rewrite <- (Forall2_length _ _ _ Hf).
  - by rewrite <- (Forall2_length _ _ _ Hf).
  - intros k e' Hk. destruct (Forall2_lookup_r _ _ _ _ _ Hf Hk) as (o & Ho & Hre). inv Hre. destruct (I5 k x Ho) as [O1 O2 O3 O4 O5 O6].
    match goal with Hre : refrozen _ _ |- _ => destruct Hre as [->|[d ->]] end; by split.
  - intros r. rewrite Hr. split.
    + intros [[Hin Hn]|Hn]; [|by right]. apply I7 in Hin as [Hin|(k & e & Hk & Hx)]; [by left|]. by destruct (Hn k e Hk).
    + intros [[sp Hsp]|Hn]; [|by right]. left. split; [apply I7; left; by exists sp|]. intros k e _ Hx. apply readiness_key in Hx as [d ->].
      destruct (I6 sp _ Hsp) as [|[? ?]]; done.
  - by rewrite Ef.
  - by rewrite El.
Qed.

(** ** Reports *)

Lemma settle_status_keeps find base floor epoch now old_edge is_new s kst :
  keeps s (settle_status find base floor epoch now old_edge is_new s kst).
Proof.
  unfold settle_status. destruct kst as [k st]. case_match; [apply keeps_refl|]. destruct (negb (received st)).
  - destruct (find s _); [apply set_missing_keeps|apply keeps_refl].
  - destruct (match old_edge with Some edge => _ | None => false end); [|apply keeps_refl].
    pose proof (reject_keeps s (find s (nth_sequence base k)) epoch now is_new) as Hr.
    destruct (reject_replayed_terminal_receipt _ _ _ _ _) as [s1 []]; cbn [fst] in Hr; [done|]. eapply keeps_trans; [exact Hr|apply recover_keeps].
Qed.

(** The outermost conditional. *)
Ltac split_if :=
  match goal with
  | |- keeps _ (if ?b then _ else _) => destruct b
  | |- keeps _ (if ?b then _ else _).1 => destruct b
  end.

Lemma settle_all_keeps find base floor epoch now old_edge is_new s l :
  keeps s (foldl (settle_status find base floor epoch now old_edge is_new) s l).
Proof. apply keeps_foldl. intros. apply settle_status_keeps. Qed.

Lemma note_report_keeps reference count fresh s : keeps s (note_report reference count fresh s).
Proof. apply keeps_core. unfold note_report. repeat case_match; reflexivity. Qed.

Lemma advance_continuous_keeps s base l edge epoch now : keeps s (advance_continuous_edge s base l edge epoch now).
Proof.
  unfold advance_continuous_edge. case_match; [apply keeps_refl|]. case_match; [apply keeps_unknown|].
  eapply keeps_trans; [apply (anchor_missing_keeps s (Some edge) None now)|]. eapply keeps_trans; [|by apply keeps_core].
  apply keeps_foldl. intros s' q. destruct (status_at base l q) as [st|]; [apply advance_entry_keeps|].
  destruct (feedback_sent_id s' q); [|apply keeps_refl]. eapply keeps_trans; [apply retire_flight_keeps|apply emit_feedback_keeps].
Qed.

Lemma accept_continuous_keeps s base reference count l epoch now floor last_reported edge :
  keeps s (accept_continuous s base reference count l epoch now floor last_reported edge).
Proof.
  unfold accept_continuous. set (is_new := match _ with Some _ => _ | None => true end). set (fresh := _ && _ && _).
  eapply keeps_trans; [apply (note_report_keeps reference count fresh s)|]. set (s1 := note_report _ _ _ s). clearbody s1.
  set (s2 := match edge with Some e => advance_continuous_edge s1 _ _ _ _ _ | None => s1 end).
  assert (keeps s1 s2) as Hk by (unfold s2; destruct edge; [apply advance_continuous_keeps|apply keeps_refl]).
  eapply keeps_trans; [exact Hk|]. clearbody s2. destruct edge; [|apply settle_all_keeps].
  eapply keeps_trans; [|apply anchor_missing_keeps]. apply settle_all_keeps.
Qed.

Lemma process_continuous_keeps s base reference count l epoch now : keeps s (process_continuous s base reference count l epoch now).
Proof.
  unfold process_continuous. destruct (newest_feedback s); [|apply keeps_unknown]. destruct (oldest_feedback s); [|apply keeps_unknown].
  split_if; [apply keeps_stale|]. destruct (checked_add 64 base _); [|apply keeps_unknown]. split_if; [apply keeps_unknown|].
  split_if; [apply keeps_stale|]. split_if; [apply keeps_unknown|]. split_if; [apply keeps_unknown|]. apply accept_continuous_keeps.
Qed.

Lemma on_space_keeps s space f :
  (forall p, space_readiness (f p) space (retention (config s)) = space_readiness p space (retention (config s))) -> keeps s (on_space s space f).
Proof.
  intros Hf. apply keeps_core. unfold on_space. destruct (spaces s !! space) as [p|] eqn:Hp; [|done]. unfold core. fields. f_equal.
  apply map_eq. intros j. rewrite !space_keys_lookup. fields. destruct (decide (j = space)) as [->|Hne].
  - rewrite lookup_insert_eq, Hp. cbn. by rewrite Hf.
  - by rewrite lookup_insert_ne.
Qed.

Lemma advance_space_keeps s space base l start edge epoch now : keeps s (advance_space_edge s space base l start edge epoch now).
Proof.
  unfold advance_space_edge. eapply keeps_trans; [apply (anchor_missing_keeps s None (Some (space, edge)) now)|].
  eapply keeps_trans; [|by apply on_space_keeps]. apply keeps_foldl. intros s' q. destruct (status_at base l q); apply advance_entry_keeps.
Qed.

Lemma note_generation_readiness epoch count (p : SpaceHistory (T := T)) space keep : space_readiness (note_generation epoch count p) space keep = space_readiness p space keep.
Proof. unfold note_generation. by case_match. Qed.

Lemma fresh_keeps s f : keeps s (on_inputs (fun i => with_fresh_network_feedback (f i) i) s).
Proof. by apply keeps_core. Qed.

Lemma accept_independent_keeps s r epoch now floor last_reported old_edge is_new edge :
  keeps s (accept_independent s r epoch now floor last_reported old_edge is_new edge).
Proof.
  unfold accept_independent. set (late := late_receipt _ _ _ _ _ _ _). set (live := _ && _). set (start := edge_start _ _). clearbody late live start.
  match goal with |- keeps s (match edge with Some e => anchor_missing (foldl ?f ?y ?l) _ _ _ | None => _ end) =>
    assert (keeps s y) as Hy; [|eapply keeps_trans; [exact Hy|]; generalize y; intros s1; clear Hy] end.
  - eapply keeps_trans; [|apply on_space_keeps; intros; apply note_generation_readiness]. eapply keeps_trans; [|apply fresh_keeps].
    destruct edge; [|apply keeps_refl]. split_if; [apply advance_space_keeps|apply keeps_refl].
  - destruct edge; [|apply settle_all_keeps]. eapply keeps_trans; [|apply anchor_missing_keeps]. apply settle_all_keeps.
Qed.

Lemma process_report_keeps epoch now acc r : keeps acc.1 (process_report epoch now acc r).1.
Proof.
  destruct acc as [s least]. unfold process_report. cbn [fst]. destruct (spaces s !! rep_space r) as [p|]; [|apply keeps_unknown].
  split_if; [apply keeps_unknown|]. split_if; [apply keeps_stale|]. destruct (checked_add 64 _ _); [|apply keeps_unknown].
  split_if; [apply keeps_unknown|]. split_if; [apply keeps_stale|]. split_if; [apply keeps_unknown|]. split_if; [apply keeps_unknown|].
  apply accept_independent_keeps.
Qed.

Lemma process_independent_keeps s rs epoch now : keeps s (process_independent s rs epoch now).1.
Proof.
  unfold process_independent. change s with (s, @None Z).1 at 1. generalize (s, @None Z). induction rs as [|r rs IH]; intros acc; [apply keeps_refl|].
  cbn [foldl]. eapply keeps_trans; [apply process_report_keeps|apply IH].
Qed.

Lemma process_feedback_keeps s b : keeps s (process_feedback s b).
Proof.
  unfold process_feedback. split_if; [apply keeps_refl|]. split_if; [apply keeps_unknown|]. split_if; [apply keeps_wrong_path|].
  split_if; [apply keeps_unknown|]. split_if; [apply keeps_unknown|].
  match goal with |- keeps s (let '(_, _) := ?m in _) => assert (keeps s m.1) as Hm; [|destruct m as [s1 held]; cbn [fst] in Hm] end.
  { destruct (report b); [apply process_continuous_keeps|apply process_independent_keeps]. }
  eapply keeps_trans; [exact Hm|]. eapply keeps_trans; [apply apply_window_keeps|]. split_if; [by apply keeps_core|apply keeps_refl].
Qed.
End SenderLaws.
