(* ===== verification/SenderRun.v ===== *)
(** * Runs of the sender's history

    Commits, reports, expiry, path changes and resets in any order. In every run
    the invariant of [SenderLaws] holds, every packet sent is settled exactly
    once, and the deadline the history asks to be polled at is the earliest at
    which it has work. The last theorem is an execution after which bytes count
    as in flight although every packet was acknowledged. *)

From S2P Require Import Prelude FeedbackReceiver FeedbackSender SenderLaws.

(** ** Changes of the core that are not moves of packets *)

(** A packet takes the next place in the ring, where the previous one has its
    outcome. *)
Lemma core_commit c e o :
  core_inv c -> k_next c < umax 64 -> k_entries c !! ring_slot c (k_next c) = Some o ->
  (forall p, o = Some p -> is_terminal (acknowledgment p) = true) ->
  sent_id e = k_next c -> acknowledgment e = Pending -> 0 < wire_len e -> k_active c = Some (path_epoch e) -> in_flight e = true ->
  k_bytes c + wire_len e <= umax 64 ->
  core_inv (mkCore (k_config c) (k_mode c) (<[ring_slot c (k_next c) := Some e]> (k_entries c)) (k_indexed c) (k_spaces c) (k_ready c)
    (k_next c + 1) (Z.max (k_oldest c) (saturating_sub (k_next c + 1) (capacity (k_config c)))) (k_active c) (k_path c) (k_missing c)
    (k_bytes c + wire_len e) (k_window c) (k_received c) (k_lost c) (k_work c) (k_bytes c + wire_len e) (k_synthetic c)).
Proof.
  intros Hc Hn Hk Ho Hid Hp Hw Ha Hf Hb. pose proof (lookup_lt_Some _ _ _ Hk) as Hlt.
  pose proof Hc as [I1 I2 I3 I4 I5 I6 I7 [I8 I8'] [I9 I9'] (I10 & I10' & I10'') IP I11]. destruct I1 as [C1 C2 C3 C4].
  assert (forall w, entry_readiness w e = None) as Hr by (intros w; unfold entry_readiness, entry_reorder_deadline; by rewrite Hp).
  assert (forall w p, o = Some p -> entry_readiness w p = None) as Hro.
  { intros w p Hop. destruct (entry_readiness w p) eqn:E; [|done]. apply readiness_missing in E. specialize (Ho p Hop). by destruct (acknowledgment p). }
  assert (forall k p, k <> ring_slot c (k_next c) -> k_entries c !! k = Some (Some p) -> k_next c - capacity (k_config c) < sent_id p) as Hyoung.
  { intros k p Hne Hkp. destruct (I5 k p Hkp) as [O1 [O2 O2'] _ _ _ _]. destruct (decide (sent_id p = k_next c - capacity (k_config c))) as [E|]; [|lia].
    exfalso. apply Hne. rewrite <- O1. unfold ring_slot. rewrite E. f_equal. replace (k_next c - capacity (k_config c)) with (k_next c + (-1) * capacity (k_config c)) by lia.
    by rewrite Z.mod_add by lia. }
  split; cbn [k_config k_mode k_entries k_indexed k_spaces k_ready k_next k_oldest k_active k_path k_missing k_bytes k_window k_received k_lost k_work k_reported k_synthetic]; try done.
  - by rewrite length_insert.
  - by rewrite length_insert.
  - unfold saturating_sub. split; lia.
  - intros k x Hx. destruct (decide (k = ring_slot c (k_next c))) as [->|Hne].
    + rewrite list_lookup_insert_eq in Hx by done. injection Hx as <-. split; cbn; try done.
      * unfold ring_slot. cbn. by rewrite Hid.
      * unfold saturating_sub. lia.
      * intros _. split; [done|]. unfold saturating_sub. lia.
      * by rewrite Hp.
      * intros _ Hin. rewrite Forall_forall in I8'. specialize (I8' _ Hin). cbn in I8'. lia.
    + rewrite list_lookup_insert_ne in Hx by done. destruct (I5 k x Hx) as [O1 O2 O3 O4 O5 O6]. specialize (Hyoung k x Hne Hx).
      split; cbn; try done; [lia|]. intros Hl. destruct (O4 Hl) as [Ha' Ho']. split; [done|]. unfold saturating_sub. lia.
  - intros r. rewrite I7. split; (intros [Hs|(k & x & Hx & Hrx)]; [by left|right]).
    + exists k, x. split; [|done]. rewrite list_lookup_insert_ne; [done|]. intros <-. rewrite Hk in Hx. injection Hx as ->. by rewrite (Hro _ x) in Hrx.
    + destruct (decide (k = ring_slot c (k_next c))) as [->|Hne].
      * rewrite list_lookup_insert_eq in Hx by done. injection Hx as <-. by rewrite Hr in Hrx.
      * rewrite list_lookup_insert_ne in Hx by done. by exists k, x.
  - split; [done|]. eapply Forall_impl; [exact I8'|]. cbn. lia.
  - rewrite (ring_sum_insert _ _ _ _ _ Hk). unfold flight_weight at 2 3. rewrite Hf. split; [|done].
    assert (0 <= match o with Some e0 => flight_weight e0 | None => 0 end).
    { destruct o as [p|]; [|lia]. apply (flight_weight_range p). by apply (I5 _ _ Hk). }
    unfold flight_weight in *. lia.
  - rewrite (ring_sum_insert _ _ _ _ _ Hk). unfold live_weight at 2 3. rewrite Hp. cbn [is_terminal].
    destruct o as [p|]; [rewrite (Ho p) by done|]; split_and!; lia.
Qed.

(** A space gets a key, in place of the one it had. *)
Definition put_space (sp : Z) (r : Readiness) (c : Core) : Core :=
  mkCore (k_config c) (k_mode c) (k_entries c) (k_indexed c) (<[sp := r]> (k_spaces c))
    ({[r]} ∪ (k_ready c ∖ match k_spaces c !! sp with Some r => {[r]} | None => ∅ end)) (k_next c) (k_oldest c) (k_active c) (k_path c)
    (k_missing c) (k_bytes c) (k_window c) (k_received c) (k_lost c) (k_work c) (k_reported c) (k_synthetic c).

Lemma core_space c sp r : core_inv c -> (r = Unscheduled sp \/ exists d, r = ReadyRetired d sp) -> core_inv (put_space sp r c).
Proof.
  intros [I1 I2 I3 I4 I5 I6 I7 I8 I9 I10 IP I11] Hr. unfold put_space. split; try done; fields.
  - intros k e Hk. destruct (I5 k e Hk). by split.
  - intros sp' x. rewrite lookup_insert_Some. intros [[<- <-]|[_ Hx]]; [done|by apply I6].
  - intros x. rewrite elem_of_union, elem_of_difference, elem_of_singleton, I7. split.
    + intros [->|[[[sp' Hx]|Hx] Hne]]; [left; exists sp; by rewrite lookup_insert_eq| |by right]. left. exists sp'.
      rewrite lookup_insert_ne; [done|]. intros <-. rewrite Hx in Hne. set_solver.
    + intros [[sp' Hx]|(k & e & Hk & Hx)].
      * rewrite lookup_insert_Some in Hx. destruct Hx as [[-> <-]|[Hne Hx]]; [by left|]. right. split; [left; by exists sp'|].
        destruct (k_spaces c !! sp) as [r0|] eqn:E0; [|set_solver]. intros ->%elem_of_singleton.
        destruct (I6 sp' _ Hx) as [->|[d ->]], (I6 sp _ E0) as [Heq|[d' Heq]]; try done; injection Heq; congruence.
      * right. split; [right; by exists k, e|]. destruct (k_spaces c !! sp) as [r0|] eqn:E0; [|set_solver]. intros ->%elem_of_singleton.
        apply readiness_key in Hx as [d ->]. destruct (I6 sp _ E0) as [|[? ?]]; done.
Qed.

Section SenderRun.
Context {T : Type} `{!Layout, !IndexTable T}.

Abbreviation History := (Sender (T := T)).
Implicit Types s : History.

(** How many packets have no outcome yet. *)
Definition live s : Z := ring_sum live_weight (entries s).
(** How many have one. *)
Definition settled s : Z := received_packets (counters s) + not_received (counters s).

(** A packet keeps its identity and its outcome for as long as it is in the ring. *)
Definition remembers s s' : Prop := forall i e, entry s i = Some e -> entry s' i = None \/ exists e', entry s' i = Some e' /\ carried e e'.

Lemma remembers_refl s : remembers s s.
Proof. intros i e He. right. exists e. split; [done|apply carried_refl]. Qed.

Lemma remembers_slots s s' : Forall2 carried_slot (entries s) (entries s') -> config s' = config s -> remembers s s'.
Proof.
  intros Hf Ec i e He. right. apply entry_at in He as [Hk <-]. destruct (Forall2_lookup_l _ _ _ _ _ Hf Hk) as (o & Ho & Hc). inv Hc.
  eexists. split; [|done]. unfold entry, slot. rewrite Ec. fold (slot s (sent_id e)). rewrite Ho.
  match goal with Hc : carried _ _ |- _ => apply carried_fields in Hc as (E & _) end. by rewrite E, Z.eqb_refl.
Qed.

(** ** Spaces *)

(** A change of spaces that leaves their keys alone. *)
Lemma space_keys_insert s sp (p p' : SpaceHistory) :
  spaces s !! sp = Some p -> space_readiness p' sp (retention (config s)) = space_readiness p sp (retention (config s)) ->
  space_keys (with_spaces (<[sp := p']> (spaces s)) s) = space_keys s.
Proof.
  intros Hp E. apply map_eq. intros j. rewrite !space_keys_lookup. fields. destruct (decide (j = sp)) as [->|Hne].
  - rewrite lookup_insert_eq, Hp. cbn. by rewrite E.
  - by rewrite lookup_insert_ne.
Qed.

Lemma remove_indexes_core s e :
  is_terminal (acknowledgment e) = true ->
  core (remove_indexes s e) = core s /\ (forall sp, is_Some (spaces (remove_indexes s e) !! sp) <-> is_Some (spaces s !! sp)) /\
  (forall sp p, spaces s !! sp = Some p -> exists p', spaces (remove_indexes s e) !! sp = Some p' /\ terminal p' = terminal p).
Proof.
  intros Ht. unfold remove_indexes.
  assert (entry_readiness (reordering_window s) e = None) as Hr.
  { destruct (entry_readiness _ e) eqn:E; [|done]. apply readiness_missing in E. by destruct (acknowledgment e). }
  rewrite Hr. cbn [remove_key]. set (s1 := match feedback_sequence e with Some _ => _ | None => s end).
  assert (core s1 = core s /\ spaces s1 = spaces s) as [E1 E2].
  { unfold s1. destruct (feedback_sequence e) as [q|]; [|done]. destruct (mjoin _) as [x|]; [destruct (x_sent_id x =? sent_id e)|];
      case_decide; (split; [|done]); unfold core; fields; by rewrite ?length_insert. }
  clearbody s1. destruct (spaces s1 !! e_space e) as [p|] eqn:Hp; [|rewrite E2; split_and!; [done|done|eauto]].
  case_decide; [|rewrite E2; split_and!; [done|done|eauto]]. split_and!.
  - rewrite <- E1. unfold core. fields. f_equal. by apply (space_keys_insert s1 (e_space e) p).
  - intros sp. fields. rewrite <- E2. destruct (decide (sp = e_space e)) as [->|Hne]; [|by rewrite lookup_insert_ne].
    rewrite lookup_insert_eq, Hp. by split; eexists.
  - intros sp q Hq. fields. rewrite <- E2 in Hq. destruct (decide (sp = e_space e)) as [->|Hne].
    + rewrite lookup_insert_eq. rewrite Hp in Hq. injection Hq as <-. by eexists.
    + rewrite lookup_insert_ne by done. eauto.
Qed.

Lemma space_keys_put s sp (p : SpaceHistory) :
  space_keys (with_spaces (<[sp := p]> (spaces s)) s) = <[sp := space_readiness p sp (retention (config s))]> (space_keys s).
Proof.
  apply map_eq. intros j. rewrite space_keys_lookup. fields. destruct (decide (j = sp)) as [->|Hne]; [by rewrite !lookup_insert_eq|].
  rewrite !lookup_insert_ne by done. by rewrite space_keys_lookup.
Qed.

Lemma space_readiness_shape (p : SpaceHistory (T := T)) sp keep :
  space_readiness p sp keep = Unscheduled sp \/ exists d, space_readiness p sp keep = ReadyRetired d sp.
Proof. unfold space_readiness. repeat case_match; eauto. Qed.

Lemma retire_source_inv s sp : inv s -> inv (retire_source s sp) /\ moves (core s) (core (retire_source s sp)).
Proof.
  intros Hs. unfold retire_source. destruct (spaces s !! sp) as [p|] eqn:Hp; [|split; [done|apply moves_refl]].
  destruct (terminal p) eqn:Ht; [split; [done|apply moves_refl]|]. set (p' := with_terminal true p).
  assert (space_keys s !! sp = Some (space_readiness p sp (retention (config s)))) as Hsp by (by rewrite space_keys_lookup, Hp).
  case_decide as Heq; (split; [|by apply moves_same]).
  - unfold inv. replace (core (with_spaces _ s)) with (core s); [done|]. unfold core. fields. f_equal. symmetry. by apply (space_keys_insert s sp p).
  - pose proof (core_space (core s) sp _ Hs (space_readiness_shape p' sp (retention (config s)))) as Hc.
    replace (put_space _ _ _) with (core (insert_key (Some (space_readiness p' sp (retention (config s))))
      (remove_key (Some (space_readiness p sp (retention (config s)))) (with_spaces (<[sp := p']> (spaces s)) s)))) in Hc; [done|].
    unfold put_space, core. fields. rewrite Hsp. f_equal. apply space_keys_put.
Qed.

Lemma reserve_source_inv `{!Allocator} s i n :
  inv s -> inv (reserve_source_capacity s i n).1 /\ moves (core s) (core (reserve_source_capacity s i n).1).
Proof.
  intros Hs. unfold reserve_source_capacity. destruct (match spaces s !! i_space i with Some p => _ | None => false end); [split; [done|apply moves_refl]|].
  destruct (reserve_table _ _ _) as [[replacement sources]|]; [|split; [done|apply moves_refl]]. cbn [fst].
  destruct (spaces s !! i_space i) as [p|] eqn:Hp; (split; [|by apply moves_same]).
  - unfold inv. replace (core (with_source_backing_bytes _ _)) with (core s); [done|]. unfold core. fields. f_equal. symmetry. by apply (space_keys_insert s (i_space i) p).
  - set (p := mkSpace _ _ _ _ _ _ _ _).
    pose proof (core_space (core s) (i_space i) _ Hs (space_readiness_shape p (i_space i) (retention (config s)))) as Hc.
    replace (put_space _ _ _) with (core (with_source_backing_bytes sources (insert_key (Some (Unscheduled (i_space i)))
      (with_spaces (<[i_space i := p]> (spaces s)) s)))) in Hc; [done|].
    assert (space_keys s !! i_space i = None) as Hn by (by rewrite space_keys_lookup, Hp).
    unfold put_space, core. fields. rewrite Hn. f_equal; [apply space_keys_put|]. unfold space_readiness. cbn. set_solver.
Qed.

(** ** Sending *)

Record accepted s (c : SendCommit) : Prop := mk_accepted {
  ac_epoch : active_epoch s = Some (c_path_epoch c);
  ac_wire : 0 < c_wire_len c;
  ac_mode : is_Some (mode s);
  ac_next : next_sent_id s <> umax 64;
  ac_bytes : bytes_in_flight s + c_wire_len c <= umax 64;
  ac_slot : occupied (c_path_epoch c) (mjoin (entries s !! slot s (next_sent_id s))) = false;
  ac_space : exists p, spaces s !! i_space (identity c) = Some p /\ terminal p = false;
}.

Lemma preflight_accepted s c : 0 <= c_wire_len c -> preflight_commit s c = Ok () -> accepted s c.
Proof.
  intros Hw. unfold preflight_commit. destruct (validate_commit s c) as [[]|] eqn:Hv; [|done]. cbn [mbind result_bind]. intros Hp.
  unfold validate_commit in Hv. destruct (_ || _) eqn:Hc in Hv; [done|]. repeat rewrite orb_false_iff in Hc.
  destruct Hc as ((((((H1 & H2) & H3) & H4) & H5) & H6) & H7).
  destruct (spaces s !! i_space (identity c)) as [p|] eqn:Hsp; [|done]. apply orb_false_iff in H2 as [H2 _].
  destruct (match i_feedback_sequence (identity c) with Some _ => _ | None => _ end) as [[]|]; [|done]. cbn [mbind result_bind] in Hv.
  destruct (occupied _ _) eqn:Ho; [done|]. split; try done.
  - apply bool_decide_eq_false in H1. by destruct (decide (active_epoch s = Some (c_path_epoch c))).
  - apply Z.eqb_neq in H3. lia.
  - destruct (mode s); [by eexists|done].
  - by apply Z.eqb_neq.
  - apply bool_decide_eq_false in H7. unfold checked_add in H7. destruct (Z.leb_spec (bytes_in_flight s + c_wire_len c) (umax 64)); [done|by destruct H7].
  - by exists p.
Qed.

Lemma space_commit_key (p : SpaceHistory (T := T)) epoch t packet sent sp keep :
  terminal p = false -> space_readiness (space_commit p epoch t packet sent) sp keep = space_readiness p sp keep.
Proof. intros Ht. unfold space_readiness, space_commit. cbn [terminal]. by rewrite Ht. Qed.

Lemma index_feedback_core s q sent : core (index_feedback s q sent) = core s.
Proof. unfold core, index_feedback. fields. by rewrite length_insert. Qed.

(** Sending either changes nothing or adds one live packet. *)
Lemma commit_inv s c :
  0 <= c_wire_len c -> inv s -> let '(s', r) := commit_context s c in
  inv s' /\ settled s' = settled s /\
  match r with
  | Ok _ => live s' = live s + 1 /\ next_sent_id s' = next_sent_id s + 1 /\ config s' = config s /\
      entries s' = <[slot s (next_sent_id s) := Some (sent_entry c (next_sent_id s))]> (entries s)
  | Err _ => s' = s
  end.
Proof.
  intros Hw Hs. unfold commit_context. destruct (preflight_commit s c) as [[]|] eqn:Hp; [|done].
  apply preflight_accepted in Hp as [A1 A2 [m A3] A4 A5 A6 (p & Hsp & Ht)]; [|done].
  pose proof Hs as [I1 I2 I3 [I4 I4'] I5 I6 I7 I8 I9 I10 IP I11]. fields_in I2. fields_in I4. fields_in I4'. rewrite A3 in I2. destruct I1 as [C1 C2 C3 C4]. fields_in C1.
  assert (slot s (next_sent_id s) < length (entries s))%nat as Hlt.
  { rewrite I2. unfold slot. pose proof (Z.mod_pos_bound (next_sent_id s) (capacity (config s))). lia. }
  destruct (lookup_lt_is_Some_2 _ _ Hlt) as [o Ho]. rewrite Ho in A6 |- *. cbn [mjoin option_join] in A6 |- *.
  assert (forall x, o = Some x -> is_terminal (acknowledgment x) = true) as Hdone.
  { intros x ->. destruct (is_terminal (acknowledgment x)) eqn:Hx; [done|]. destruct (eo_live _ _ _ (I5 _ _ Ho) Hx) as [E _]. fields_in E.
    rewrite A1 in E. injection E as E. cbn in A6. rewrite E, Z.eqb_refl, Hx in A6. done. }
  set (s1 := match o with Some previous => remove_indexes s previous | None => s end).
  assert (core s1 = core s /\ exists p1, spaces s1 !! i_space (identity c) = Some p1 /\ terminal p1 = false) as (E1 & p1 & Hp1 & Ht1).
  { unfold s1. destruct o as [x|]; [|eauto]. destruct (remove_indexes_core s x (Hdone x eq_refl)) as (E & _ & Hkeep). split; [done|].
    destruct (Hkeep _ _ Hsp) as (p' & H1 & H2). exists p'. split; [done|congruence]. }
  clearbody s1. rewrite Hp1. set (s2 := with_spaces _ s1).
  assert (core s2 = core s) as E2.
  { rewrite <- E1. unfold s2, core. fields. f_equal. apply (space_keys_insert s1 _ p1); [done|]. by apply space_commit_key. }
  clearbody s2. set (s3 := match i_feedback_sequence (identity c) with Some _ => _ | None => s2 end).
  assert (core s3 = core s) as E3 by (unfold s3; destruct (i_feedback_sequence _); [by rewrite index_feedback_core|done]).
  clearbody s3. clear s1 E1 p1 Hp1 Ht1 s2 E2.
  assert (next_sent_id s3 = next_sent_id s) as En by (exact (f_equal k_next E3)).
  assert (config s3 = config s) as Ec by (exact (f_equal k_config E3)).
  assert (bytes_in_flight s3 = bytes_in_flight s) as Eb by (exact (f_equal k_bytes E3)).
  assert (oldest_sent_id s3 = oldest_sent_id s) as Eo by (exact (f_equal k_oldest E3)).
  assert (entries s3 = entries s) as Ee by (exact (f_equal k_entries E3)).
  replace (next_sent_id (put_entry s3 _)) with (next_sent_id s) by done.
  assert (checked_add 64 (next_sent_id s) 1 = Some (next_sent_id s + 1)) as -> by (unfold checked_add; rewrite (proj2 (Z.leb_le _ _)); [done|unfold umax in *; lia]).
  replace (bytes_in_flight (with_oldest_sent_id _ _)) with (bytes_in_flight s) by done.
  assert (checked_add 64 (bytes_in_flight s) (c_wire_len c) = Some (bytes_in_flight s + c_wire_len c)) as -> by (unfold checked_add; by rewrite (proj2 (Z.leb_le _ _))).
  assert (forall x, settled x = settled s3 -> settled x = settled s) as Hset.
  { intros x ->. unfold settled. by rewrite (f_equal k_received E3 : received_packets (counters s3) = _), (f_equal k_lost E3 : not_received (counters s3) = _). }
  split_and!; [|by apply Hset| |done|done|].
  - pose proof (core_commit (core s) (sent_entry c (next_sent_id s)) o Hs) as Hc.
    unfold inv. eapply eq_ind; [apply Hc; try done; unfold sent_entry; fields; lia|]. rewrite <- E3. unfold core. fields.
    f_equal; try done; rewrite ?length_insert; try done; unfold ring_slot, slot; fields; by rewrite ?En, ?Ec, ?Eb, ?Eo.
  - unfold live. fields. rewrite Ee. unfold slot, sent_entry. fields. rewrite Ec. fold (slot s (next_sent_id s)).
    rewrite (ring_sum_insert _ _ _ _ _ Ho). unfold live_weight at 2 3. cbn [acknowledgment is_terminal].
    destruct o as [x|]; [rewrite (Hdone x eq_refl)|]; lia.
  - fields. unfold slot. by rewrite Ee, Ec, ?En.
Qed.

(** ** A new path *)

(** A packet whose path is gone. *)
Definition left_behind (e : SentEntry) : SentEntry :=
  if is_terminal (acknowledgment e) then e else with_in_flight false (with_acknowledgment Retired e).

Lemma left_behind_done e : is_terminal (acknowledgment (left_behind e)) = true.
Proof. unfold left_behind. by destruct (is_terminal (acknowledgment e)) eqn:E. Qed.
Lemma left_behind_carried e : carried e (left_behind e).
Proof. unfold left_behind. destruct (is_terminal (acknowledgment e)) eqn:E; [apply carried_refl|]. split; try done. intros Ht. congruence. Qed.

Lemma leave_path_spec active e bytes :
  (is_terminal (acknowledgment e) = false -> active <> Some (path_epoch e)) -> flight_weight e <= bytes ->
  leave_path active e bytes = (left_behind e, bytes - (flight_weight e - flight_weight (left_behind e))).
Proof.
  intros Hl Hb. unfold leave_path, left_behind. destruct (is_terminal (acknowledgment e)) eqn:Ht; cbn [negb andb]; [f_equal; lia|].
  rewrite bool_decide_true by (by apply Hl). unfold flight_weight in *. cbn [in_flight wire_len with_acknowledgment with_in_flight].
  destruct (in_flight e) eqn:Hf; [f_equal; unfold saturating_sub; lia|]. f_equal; [|lia]. destruct e. cbn in Hf. by rewrite Hf.
Qed.

Lemma change_path_spec active l s :
  (forall k e, l !! k = Some (Some e) -> (is_terminal (acknowledgment e) = false -> active <> Some (path_epoch e)) /\ 0 < wire_len e) ->
  ring_sum flight_weight l <= bytes_in_flight s ->
  exists sp ready bytes, change_path active l s = (with_spaces sp (with_readiness ready (with_bytes_in_flight bytes s)), map (fmap left_behind) l) /\
    space_keys (with_spaces sp s) = space_keys s /\
    bytes = bytes_in_flight s - (ring_sum flight_weight l - ring_sum flight_weight (map (fmap left_behind) l)) /\
    (forall r, r ∈ ready <-> r ∈ readiness s /\ forall k e, l !! k = Some (Some e) -> entry_readiness (reordering_window s) e <> Some r).
Proof.
  revert s. induction l as [|[e|] l IH]; intros s Hl Hb; cbn [change_path map ring_sum fmap option_fmap option_map].
  - exists (spaces s), (readiness s), (bytes_in_flight s). split_and!; [by destruct s|by destruct s|lia|]. intros r. split; [|by intros [? _]].
    intros Hr. split; [done|]. intros k e Hk. by rewrite lookup_nil in Hk.
  - destruct (Hl 0%nat e eq_refl) as [He Hw]. cbn [ring_sum] in Hb.
    assert (forall k e, l !! k = Some (Some e) -> 0 <= flight_weight e) as Hnn.
    { intros k x Hk. apply (flight_weight_range x). by apply (Hl (S k)). }
    pose proof (ring_sum_nonneg flight_weight l Hnn) as Hsum. pose proof (flight_weight_range e Hw) as Hfe.
    pose proof (carried_flight e (left_behind e) Hw (left_behind_carried e)) as Hfc.
    assert (0 <= flight_weight (left_behind e)) as Hfl.
    { apply flight_weight_range. destruct (carried_fields e _ (left_behind_carried e)) as (_ & _ & -> & _). done. }
    set (s1 := remove_key (entry_readiness (reordering_window s) e) s).
    assert (exists ready, s1 = with_readiness ready s /\ forall r, r ∈ ready <-> r ∈ readiness s /\ entry_readiness (reordering_window s) e <> Some r) as (ready1 & E1 & R1).
    { unfold s1. destruct (entry_readiness _ e) as [r0|]; cbn [remove_key].
      - eexists. split; [done|]. intros r. rewrite elem_of_difference, elem_of_singleton. split; intros [? Hne]; (split; [done|congruence]).
      - exists (readiness s). split; [by destruct s|]. intros r. split; [done|by intros [? _]]. }
    set (s2 := match spaces s1 !! e_space e with Some _ => _ | None => s1 end).
    assert (exists sp, s2 = with_spaces sp s1 /\ space_keys (with_spaces sp s) = space_keys s) as (sp2 & E2 & K2).
    { unfold s2. rewrite E1. fields. destruct (spaces s !! e_space e) as [p|] eqn:Hp; eexists.
      - split; [done|]. by apply (space_keys_insert s (e_space e) p).
      - split; [by destruct s|]. by destruct s. }
    clearbody s2. rewrite E2, E1. fields. rewrite (leave_path_spec active e (bytes_in_flight s) He) by lia.
    destruct (IH (with_bytes_in_flight (bytes_in_flight s - (flight_weight e - flight_weight (left_behind e))) s2)) as (sp & ready & bytes & Eq & Ek & Eb & Er).
    { intros k x Hk. by apply (Hl (S k)). }
    { rewrite E2, E1. fields. lia. }
    rewrite E2, E1 in Eq, Ek, Eb, Er. fields_in Eq. fields_in Eb. fields_in Er. rewrite Eq. exists sp, ready, bytes. split_and!; [done| |lia|].
    + rewrite <- K2. exact Ek.
    + intros r. rewrite Er, R1. split.
      * intros [[H1 H2] H3]. split; [done|]. intros [|k] x Hk; [by injection Hk as <-|by apply (H3 k)].
      * intros [H1 H2]. split; [split; [done|by apply (H2 0%nat)]|]. intros k x Hk. by apply (H2 (S k)).
  - destruct (IH s) as (sp & ready & bytes & Eq & Ek & Eb & Er).
    { intros k x Hk. by apply (Hl (S k)). }
    { exact Hb. }
    rewrite Eq. exists sp, ready, bytes. split_and!; [done|done|lia|]. intros r. rewrite Er. split; intros [H1 H2]; (split; [done|]).
    + intros [|k] x Hk; [done|by apply (H2 k)].
    + intros k x Hk. by apply (H2 (S k)).
Qed.

Lemma no_keys e w : is_terminal (acknowledgment e) = true -> entry_readiness w e = None.
Proof. intros Ht. destruct (entry_readiness w e) eqn:E; [|done]. apply readiness_missing in E. by destruct (acknowledgment e). Qed.

Lemma left_behind_slots l : Forall2 carried_slot l (map (fmap left_behind) l).
Proof. induction l as [|[e|] l IH]; constructor; try done; constructor. apply left_behind_carried. Qed.

Lemma left_behind_live l : ring_sum live_weight (map (fmap left_behind) l) = 0.
Proof. induction l as [|[e|] l IH]; cbn; [done| |done]. unfold live_weight at 1. by rewrite left_behind_done, IH. Qed.

Lemma left_behind_lookup l k x :
  map (fmap left_behind) l !! k = Some (Some x) -> exists e, l !! k = Some (Some e) /\ x = left_behind e.
Proof. rewrite list_lookup_fmap. destruct (l !! k) as [[e|]|]; [|done|done]. intros [= <-]. eauto. Qed.

(** Every packet without an outcome is left behind, and what waited for one with it. *)
Lemma core_leave c ready path w bytes :
  core_inv c ->
  bytes = k_bytes c - (ring_sum flight_weight (k_entries c) - ring_sum flight_weight (map (fmap left_behind) (k_entries c))) ->
  (forall r, r ∈ ready <-> r ∈ k_ready c /\ forall k e, k_entries c !! k = Some (Some e) -> entry_readiness (k_window c) e <> Some r) ->
  core_inv (mkCore (k_config c) (k_mode c) (map (fmap left_behind) (k_entries c)) (k_indexed c) (k_spaces c) ready (k_next c) (k_oldest c)
    (match path with Some (epoch, true) => Some epoch | _ => None end) path [] bytes w (k_received c) (k_lost c) (k_work c) bytes 0).
Proof.
  intros [I1 I2 I3 I4 I5 I6 I7 I8 [I9 I9'] (I10 & I10' & I10'') IP [I11 I11']] Eb Er.
  split; cbn [k_config k_mode k_entries k_indexed k_spaces k_ready k_next k_oldest k_active k_path k_missing k_bytes k_window k_received k_lost k_work k_reported k_synthetic]; try done.
  - by rewrite length_map.
  - by rewrite length_map.
  - intros k x Hx. apply left_behind_lookup in Hx as (e & Hk & ->). destruct (I5 k e Hk) as [O1 O2 O3 _ _ _].
    destruct (carried_fields e _ (left_behind_carried e)) as (E1 & _ & E3 & _). pose proof (left_behind_done e) as Hd.
    split; cbn; rewrite ?E1, ?E3; try done.
    + intros Ht. congruence.
    + intros Ht. by destruct (acknowledgment (left_behind e)).
    + intros Ht. by rewrite Ht in Hd.
  - intros r. rewrite Er, I7. split.
    + intros [[Hs|(k & e & Hk & Hr)] Hno]; [by left|]. by destruct (Hno k e Hk).
    + intros [[sp Hs]|(k & x & Hk & Hr)].
      * split; [left; by exists sp|]. intros k e _ Hr. apply readiness_key in Hr as [d ->]. destruct (I6 sp _ Hs) as [|[? ?]]; done.
      * apply left_behind_lookup in Hk as (e & _ & ->). by rewrite (no_keys _ _ (left_behind_done e)) in Hr.
  - split; constructor.
  - split; [|done]. assert (ring_sum flight_weight (map (fmap left_behind) (k_entries c)) <= ring_sum flight_weight (k_entries c)); [|lia].
    clear -I5. assert (forall k e, k_entries c !! k = Some (Some e) -> 0 < wire_len e) as Hw by (intros k e Hk; by apply (I5 k e Hk)).
    clear I5. induction (k_entries c) as [|[e|] l IH]; cbn; [lia| |].
    + pose proof (carried_flight e _ (Hw 0%nat e eq_refl) (left_behind_carried e)). specialize (IH (fun k => Hw (S k))). lia.
    + specialize (IH (fun k => Hw (S k))). lia.
  - rewrite left_behind_live. assert (0 <= ring_sum live_weight (k_entries c)) as Hnn; [|split_and!; lia].
    apply ring_sum_nonneg. intros k e _. unfold live_weight. destruct (is_terminal _); lia.
  - split; [done|]. cbn. lia.
Qed.

(** A change of path leaves no packet without an outcome. *)
Lemma set_availability_inv s epoch available :
  inv s -> inv (set_availability s epoch available) /\ settled (set_availability s epoch available) = settled s /\
  next_sent_id (set_availability s epoch available) = next_sent_id s /\ remembers s (set_availability s epoch available) /\
  (set_availability s epoch available = s \/ live (set_availability s epoch available) = 0).
Proof.
  intros Hs. unfold set_availability. destruct (_ || _) eqn:Hg; [split_and!; try done; [apply remembers_refl|by left]|].
  apply orb_false_iff in Hg as [Hg1%bool_decide_eq_false Hg2].
  pose proof Hs as [I1 I2 I3 I4 I5 I6 I7 I8 [I9 I9'] (I10 & I10' & I10'') IP I11].
  fields_in IP. set (active := if available then Some epoch else None).
  assert (forall k e, entries s !! k = Some (Some e) -> (is_terminal (acknowledgment e) = false -> active <> Some (path_epoch e)) /\ 0 < wire_len e) as Hl.
  { intros k e Hk. destruct (I5 k e Hk) as [_ _ O3 O4 _ _]. split; [|done]. intros Ht Ha. destruct (O4 Ht) as [Ho _]. fields_in Ho. rewrite IP in Ho.
    destruct (last_path s) as [[x []]|]; try done. injection Ho as ->. unfold active in Ha. destruct available; [|done]. injection Ha as ->. done. }
  destruct (change_path_spec active (entries s) (with_active_epoch active (with_last_path (Some (epoch, available)) s)) Hl (proj1 I9)) as
    (sp & ready & bytes & Eq & Ek & Eb & Er).
  fields_in Eb. fields_in Er. rewrite Eq.
  split_and!; [|done|done|apply remembers_slots; [apply left_behind_slots|done]|right; unfold live; fields; apply left_behind_live].
  unfold inv. eapply eq_ind; [apply (core_leave (core s) ready (Some (epoch, available)) (initial_reordering_window (config s)) bytes Hs Eb Er)|].
  unfold core. fields. f_equal; first [exact (eq_sym Ek)|by destruct available].
Qed.

(** ** Starting over *)

Lemma live_nonneg l : 0 <= ring_sum live_weight l.
Proof. apply ring_sum_nonneg. intros k e _. unfold live_weight. destruct (is_terminal _); lia. Qed.

Lemma blank_lookup (l : list (option SentEntry)) k x : Forall (eq None) l -> l !! k = Some (Some x) -> False.
Proof. intros Hl Hk. by pose proof (Forall_lookup_1 _ _ _ _ Hl Hk). Qed.
Lemma blank_sum f (l : list (option SentEntry)) : Forall (eq None) l -> ring_sum f l = 0.
Proof. induction 1 as [|o l <- _ IH]; cbn; lia. Qed.

Lemma forgets s s' : Forall (eq None) (entries s') -> remembers s s'.
Proof.
  intros Hn i e _. left. unfold entry. destruct (entries s' !! slot s' i) as [[x|]|] eqn:E; [|done|done]. by destruct (blank_lookup _ _ _ Hn E).
Qed.

(** A ring without packets. *)
Lemma core_blank c :
  config_ok (k_config c) -> length (k_entries c) = match k_mode c with Some _ => Z.to_nat (capacity (k_config c)) | None => 0%nat end ->
  k_indexed c = length (k_entries c) -> 0 <= k_oldest c <= k_next c /\ k_next c <= umax 64 -> Forall (eq None) (k_entries c) ->
  (forall sp r, k_spaces c !! sp = Some r -> r = Unscheduled sp \/ exists d, r = ReadyRetired d sp) ->
  (forall r, r ∈ k_ready c <-> exists sp, k_spaces c !! sp = Some r) ->
  NoDup (k_missing c) /\ Forall (fun i => 0 <= i < k_next c) (k_missing c) -> 0 <= k_bytes c <= umax 64 /\ k_reported c = k_bytes c ->
  0 <= k_received c /\ 0 <= k_lost c /\ k_received c + k_lost c <= k_next c ->
  k_active c = match k_path c with Some (epoch, true) => Some epoch | _ => None end ->
  0 <= k_work c <= max_expirations_per_poll (k_config c) /\ Z.of_nat (k_synthetic c) <= k_work c -> core_inv c.
Proof.
  intros C L X I B S R M Y N P W. split; try done.
  - intros k e Hk. by destruct (blank_lookup _ k e B).
  - intros r. rewrite R. split; [by left|]. intros [Hr|(k & e & Hk & _)]; [done|]. by destruct (blank_lookup _ k e B).
  - by rewrite blank_sum.
  - rewrite blank_sum by done. split_and!; lia.
Qed.

Lemma emptied {A B} (l : list A) : Forall (eq None) (map (fun _ => @None B) l).
Proof. induction l; by constructor. Qed.

Lemma no_keys_empty sp (r : Readiness) : (∅ : gmap Z Readiness) !! sp = Some r -> False.
Proof. by rewrite lookup_empty. Qed.

Lemma space_keys_empty s : spaces s = ∅ -> space_keys s = ∅.
Proof. intros E. apply map_eq. intros sp. by rewrite space_keys_lookup, E, !lookup_empty. Qed.

Lemma clear_inv s epoch :
  inv s -> inv (clear s epoch) /\ settled (clear s epoch) = settled s /\ next_sent_id (clear s epoch) = next_sent_id s /\ live (clear s epoch) = 0.
Proof.
  intros [I1 I2 I3 [I4 I4'] I5 I6 I7 I8 I9 (I10 & I10' & I10'') IP [I11 I11']].
  pose proof (live_nonneg (entries s)) as Hnn. fields_in I4. fields_in I10''.
  split_and!; [|done|done|apply blank_sum, emptied]. apply core_blank; try done; unfold clear, clear_observations; fields; try (by rewrite ?length_map).
  - split; [lia|done].
  - apply emptied.
  - intros r. rewrite space_keys_empty by done. split; [set_solver|]. by intros [sp ?%no_keys_empty].
  - split; constructor.
  - split_and!; [done|done|lia].
  - pose proof (cfg_work _ I1) as Hw. fields_in Hw. cbn. lia.
Qed.

Lemma abort_inv s :
  inv s -> inv (abort s) /\ settled (abort s) = settled s /\ next_sent_id (abort s) = next_sent_id s /\ live (abort s) = 0.
Proof.
  intros [I1 I2 I3 [I4 I4'] I5 I6 I7 I8 I9 (I10 & I10' & I10'') IP [I11 I11']].
  pose proof (live_nonneg (entries s)) as Hnn. fields_in I4. fields_in I10''.
  split_and!; try done. apply core_blank; try done; unfold abort, clear, clear_observations; fields; try done.
  - split; [lia|done].
  - intros r. rewrite space_keys_empty by done. split; [set_solver|]. by intros [sp ?%no_keys_empty].
  - split; constructor.
  - split_and!; [done|done|lia].
  - pose proof (cfg_work _ I1) as Hw. fields_in Hw. cbn. lia.
Qed.

(** ** Profiles *)

Lemma storage_new_blank `{!Allocator} c limit st :
  storage_new c limit = Ok st -> st_entries st = replicate (Z.to_nat (capacity c)) None /\ st_index st = replicate (Z.to_nat (capacity c)) None.
Proof.
  unfold storage_new. destruct (within _ _); [|done]. cbn [mbind result_bind]. destruct (grant (capacity c)); [|done]. cbn [ok_or mbind result_bind].
  destruct (grant (max_feedback_statuses c)); [|done]. cbn [ok_or mbind result_bind].
  destruct (grant (max_expirations_per_poll c)); [|done]. cbn [ok_or mbind result_bind]. destruct (within _ _); [|done]. by intros [= <-].
Qed.

Definition set_profile `{!Allocator} s (profile : FeedbackMode) : History * result SenderError () :=
  match prepare_feedback_profile s profile with Ok st => (commit_profile s profile st, Ok ()) | Err e => (s, Err e) end.

Lemma blank_replicate n : Forall (eq None) (replicate n (@None SentEntry)).
Proof. induction n; by constructor. Qed.

Lemma set_profile_inv `{!Allocator} s profile : inv s -> inv (set_profile s profile).1 /\
  settled (set_profile s profile).1 = settled s /\ next_sent_id (set_profile s profile).1 = next_sent_id s /\ live (set_profile s profile).1 = live s /\ remembers s (set_profile s profile).1.
Proof.
  intros Hs. pose proof (remembers_refl s) as Hrem. unfold set_profile, prepare_feedback_profile. destruct (mode s) as [current|] eqn:Hm.
  - case_decide as E; [subst current|done]. cbn [fst]. unfold commit_profile. rewrite <- Hm.
    replace (with_mode (mode s) s) with s by (by destruct s). done.
  - destruct (storage_new _ _) as [st|] eqn:Hst; cbn [mbind result_bind mret result_ret fst]; [|done].
    apply storage_new_blank in Hst as [E1 E2]. pose proof (ci_ring _ Hs) as Hr. fields_in Hr. rewrite Hm in Hr. apply nil_length_inv in Hr.
    destruct Hs as [I1 I2 I3 I4 I5 I6 I7 I8 [I9 I9'] (I10 & I10' & I10'') IP [I11 I11']].
    fields_in I9. fields_in I10''. fields_in I7. rewrite Hr in I9, I10'', I7. cbn in I9, I10''.
    split_and!; try done.
    + unfold commit_profile. rewrite E1, E2. apply core_blank; fields; try done.
      * by rewrite length_replicate.
      * by rewrite !length_replicate.
      * apply blank_replicate.
      * intros r. rewrite I7. split; [|by left]. intros [?|(k & e & Hk & _)]; [done|by rewrite lookup_nil in Hk].
      * split_and!; [done|done|lia].
      * split; [done|]. fields_in I11. cbn. lia.
    + unfold live, commit_profile. fields. rewrite E1, Hr, blank_sum by apply blank_replicate. done.
    + apply forgets. unfold commit_profile. fields. rewrite E1. apply blank_replicate.
Qed.

(** What the types of the fields allow. *)
Definition config_typed (c : SenderConfig) : Prop :=
  0 <= capacity c <= umax 64 /\ 0 <= retention c /\ 0 <= max_expirations_per_poll c <= umax 64 /\ 0 <= max_feedback_statuses c <= umax 64.

Lemma validate_ok c : config_typed c -> validate c = Ok () -> config_ok c.
Proof.
  intros (T1 & T2 & T3 & T4). unfold validate. destruct (_ || _) eqn:Hv; [done|]. intros _. repeat rewrite orb_false_iff in Hv.
  destruct Hv as (((((V1 & V2) & V3) & V4) & _) & _). split; lia.
Qed.

Lemma sender_new_inv `{!Allocator} c m limit s :
  config_typed c -> sender_new c m limit = Ok s -> inv s /\ next_sent_id s = 0 /\ settled s = 0 /\ live s = 0.
Proof.
  intros Ht. unfold sender_new. destruct (validate c) as [[]|] eqn:Hv; [|done]. cbn [mbind result_bind]. apply validate_ok in Hv; [|done].
  set (s0 := mkSender _ _ _ _ _ _ _ _ _ _ _ _ _ _ _ _ _ _ _ _ _ _ _ _ _).
  assert (inv s0) as Hs0.
  { apply core_blank; try done; unfold s0; fields; try done.
    - intros r. rewrite space_keys_empty by done. split; [set_solver|]. by intros [sp ?%no_keys_empty].
    - split; constructor.
    - pose proof (cfg_work _ Hv). cbn. lia. }
  destruct m as [profile|]; [|by intros [= <-]].
  destruct (set_profile_inv s0 profile Hs0) as (H1 & H2 & H3 & H4 & _). unfold set_profile in *.
  destruct (prepare_feedback_profile s0 profile) as [st|]; [|done]. intros [= <-]. by split_and!.
Qed.

(** ** Runs *)

Inductive Op :=
| Prepare (c : SendCommit)
| Commit (c : SendCommit)
| Report (b : SendFeedback)
| Expire (now limit : Z)
| RetireSource (space : Z)
| Availability (epoch : Z) (available : bool)
| Unmapped (epoch n : Z)
| ClearObservations
| ApplicationLimited (b : bool)
| Profile (profile : FeedbackMode)
| Clear (epoch : Z)
| AbortAll.

Definition op_typed (op : Op) : Prop :=
  match op with Prepare c | Commit c => 0 <= c_wire_len c | Expire _ limit => 0 <= limit | _ => True end.

Definition perform `{!Allocator} s (op : Op) : History * result SenderError () :=
  match op with
  | Prepare c => prepare_commit s c
  | Commit c => commit_context s c
  | Report b => (process_feedback s b, Ok ())
  | Expire now limit => ((expire s now limit).1, Ok ())
  | RetireSource sp => (retire_source s sp, Ok ())
  | Availability epoch b => (set_availability s epoch b, Ok ())
  | Unmapped epoch n => (reject_unmapped_feedback s epoch n, Ok ())
  | ClearObservations => (clear_observations s, Ok ())
  | ApplicationLimited b => (set_application_limited s b, Ok ())
  | Profile m => set_profile s m
  | Clear epoch => (clear s epoch, Ok ())
  | AbortAll => (abort s, Ok ())
  end.

Definition sent_by (op : Op) (r : result SenderError ()) : Z := match op, r with Commit _, Ok _ => 1 | _, _ => 0 end.

(** Only a new path, a reset and an abort give packets up without counting them. *)
Definition given_up (op : Op) s s' : Z :=
  match op with Availability _ _ | Clear _ | AbortAll => live s - live s' | _ => 0 end.

Record accounts s s' (sent gone : Z) : Prop := mk_accounts {
  acc_remembers : remembers s s';
  acc_inv : inv s';
  acc_next : next_sent_id s' = next_sent_id s + sent;
  acc_sum : settled s' + live s' + gone = settled s + live s + sent;
}.

Lemma keeps_accounts s s' : inv s -> keeps s s' -> accounts s s' 0 0.
Proof.
  intros Hs Hk. destruct (Hk Hs) as [Hs' Hm]. pose proof (mv_next _ _ Hm) as E. pose proof (mv_settled _ _ Hm) as Es. fields_in E. fields_in Es.
  split; [|done|lia|].
  - intros i e He. right. by apply (moves_entry s s').
  - unfold settled, live. lia.
Qed.

Lemma remembers_commit s s' x :
  inv s -> entries s' = <[slot s (next_sent_id s) := Some x]> (entries s) -> config s' = config s -> sent_id x = next_sent_id s -> remembers s s'.
Proof.
  intros Hs Ee Ec Hx i e He. pose proof (entry_at s i e He) as [Hk Hi]. pose proof (eo_id _ _ _ (ci_entries _ Hs _ _ Hk)) as [[_ Hlt] _]. fields_in Hlt.
  pose proof (lookup_lt_Some _ _ _ Hk) as Hlen. assert (slot s' i = slot s i) as Es by (unfold slot; by rewrite Ec).
  unfold entry. rewrite Ee, Es.
  destruct (decide (slot s i = slot s (next_sent_id s))) as [E|E].
  - left. rewrite E, list_lookup_insert_eq by (by rewrite <- E). by rewrite Hx, (proj2 (Z.eqb_neq _ _)) by lia.
  - right. rewrite list_lookup_insert_ne by done. rewrite Hk, Hi, Z.eqb_refl. exists e. split; [done|apply carried_refl].
Qed.

Lemma clear_observations_keeps s : keeps s (clear_observations s).
Proof.
  eapply (keeps_work s _ 0 0); [done|]. intros Hs. pose proof (cfg_work _ (ci_config _ Hs)) as Hw. fields_in Hw. lia.
Qed.

Lemma perform_accounts `{!Allocator} s op :
  inv s -> op_typed op -> let '(s', r) := perform s op in accounts s s' (sent_by op r) (given_up op s s').
Proof.
  intros Hs Ht. destruct op; cbn [perform sent_by given_up op_typed] in *.
  - unfold prepare_commit. destruct (validate_commit s c); [|apply (keeps_accounts s s Hs), keeps_refl]. destruct (checked_add _ _ _); [|apply (keeps_accounts s s Hs), keeps_refl].
    pose proof (reserve_source_inv s (identity c) z Hs) as Hr. destruct (reserve_source_capacity _ _ _) as [s' r]. cbn [fst] in Hr. apply keeps_accounts; [done|]. by intros _.
  - pose proof (commit_inv s c Ht Hs) as Hc. destruct (commit_context s c) as [s' [[]|]]; destruct Hc as (H1 & H2 & H3).
    + destruct H3 as (H3 & H4 & H5 & H6). split; [by eapply remembers_commit|done|lia|lia].
    + subst. by apply keeps_accounts, keeps_refl.
  - by apply keeps_accounts, process_feedback_keeps.
  - by apply keeps_accounts, expire_keeps.
  - apply keeps_accounts; [done|]. intros _. by apply retire_source_inv.
  - destruct (set_availability_inv s epoch available Hs) as (H1 & H2 & H3 & H4 & _). split; [done|done|lia|lia].
  - apply keeps_accounts; [done|]. unfold reject_unmapped_feedback. destruct (exhausted _); [apply keeps_refl|]. case_decide; [apply keeps_unknown|apply keeps_wrong_path].
  - by apply keeps_accounts, clear_observations_keeps.
  - apply keeps_accounts; [done|]. by apply keeps_core.
  - destruct (set_profile_inv s profile Hs) as (H1 & H2 & H3 & H4 & H5). destruct (set_profile s profile) as [s' [[]|]]; cbn [fst] in *; (split; [done|done|lia|lia]).
  - destruct (clear_inv s epoch Hs) as (H1 & H2 & H3 & H4). split; [apply forgets, emptied|done|lia|lia].
  - destruct (abort_inv s Hs) as (H1 & H2 & H3 & H4). split; [by apply forgets|done|lia|lia].
Qed.

(** A history after any operations in any order, with how many packets it
    accepted and how many it gave up. *)
Inductive sender_run (c : SenderConfig) : History -> Z -> Z -> Prop :=
| run_new `{!Allocator} m limit s : sender_new c m limit = Ok s -> sender_run c s 0 0
| run_op `{!Allocator} s op sent gone :
    sender_run c s sent gone -> op_typed op ->
    sender_run c (perform s op).1 (sent + sent_by op (perform s op).2) (gone + given_up op s (perform s op).1).

Lemma run_conserved c s sent gone :
  config_typed c -> sender_run c s sent gone -> inv s /\ next_sent_id s = sent /\ settled s + gone + live s = sent.
Proof.
  intros Hc Hr. induction Hr as [A m limit s Hn|A s op sent gone Hr IH Ht].
  - destruct (sender_new_inv c m limit s Hc Hn) as (H1 & H2 & H3 & H4). split_and!; [done|done|lia].
  - destruct IH as (H1 & H2 & H3). pose proof (perform_accounts s op H1 Ht) as Ha. destruct (perform s op) as [s' r]. cbn [fst snd].
    destruct Ha as [A1 A2 A3]. split_and!; [done|lia|lia].
Qed.

(** C14. A packet that was sent is counted exactly once: received, not received,
    given up by a change of path or a reset, or still waiting. In every run the
    history's counters, what was given up and what waits add up to the packets
    it accepted, which is also the next packet's number. *)
Theorem sent_packets_conserved c s sent gone :
  config_typed c -> sender_run c s sent gone ->
  inv s /\ next_sent_id s = sent /\ received_packets (counters s) + not_received (counters s) + gone + live s = sent.
Proof. apply run_conserved. Qed.

(** An outcome is final. Whatever operation comes next, in any run, a
    packet still in the ring is the same packet, and if it had been received,
    lost or retired it is so still: no late report, expiry or change of path
    revises an outcome, and a packet that left flight does not return to it. *)
Theorem packet_outcome_final `{!Allocator} c s sent gone op i e :
  config_typed c -> sender_run c s sent gone -> op_typed op -> entry s i = Some e ->
  let s' := (perform s op).1 in
  entry s' i = None \/ exists e', entry s' i = Some e' /\ identity_of e' = identity_of e /\
    (is_terminal (acknowledgment e) = true -> acknowledgment e' = acknowledgment e) /\ (in_flight e = false -> in_flight e' = false).
Proof.
  intros Hc Hr Ht He. destruct (run_conserved c s sent gone Hc Hr) as (Hs & _). pose proof (perform_accounts s op Hs Ht) as Ha.
  destruct (perform s op) as [s' r]. cbn [fst]. destruct (acc_remembers _ _ _ _ Ha i e He) as [?|(e' & He' & [C1 C2 C3])]; [by left|right].
  exists e'. split_and!; [done|done|done|]. intros Hf. destruct (in_flight e'); [|done]. by rewrite C3 in Hf.
Qed.
End SenderRun.
