(* ===== verification/SenderProgress.v ===== *)
(** * The sender's history over time

    When polled after the retention every packet gets its outcome, and the
    deadline the history asks to be polled at is the earliest at which it has
    work. The last theorem is an execution after which bytes count as in flight
    although every packet was acknowledged. *)

From S2P Require Import Prelude FeedbackReceiver FeedbackSender SenderLaws SenderRun.

Section SenderProgress.
Context {T : Type} `{!Layout, !IndexTable T, !Allocator}.

Abbreviation History := (Sender (T := T)).
Implicit Types s : History.

(** Every packet has been kept for as long as it is. *)
Definition overdue s (now : Z) : Prop :=
  forall i e, entry s i = Some e -> exists d, duration_checked_add (committed_at e) (retention (config s)) = Some d /\ d <= now.

Lemma moves_entry_back s s' i e' :
  moves (core s) (core s') -> entry s' i = Some e' -> exists e, entry s i = Some e /\ carried e e'.
Proof.
  intros Hm He. apply entry_at in He as [Hk <-]. pose proof (mv_entries _ _ Hm) as Hf. fields_in Hf.
  destruct (Forall2_lookup_r _ _ _ _ _ Hf Hk) as (o & Ho & Hc). inv Hc. eexists. split; [|done]. unfold entry, slot.
  pose proof (mv_config _ _ Hm) as Ec. fields_in Ec. unfold slot in Ho. rewrite Ec in Ho. rewrite Ho.
  match goal with Hc : carried _ _ |- _ => apply carried_fields in Hc as (E & _) end. by rewrite E, Z.eqb_refl.
Qed.

Lemma overdue_moves s s' now : moves (core s) (core s') -> overdue s now -> overdue s' now.
Proof.
  intros Hm Ho i e' He. destruct (moves_entry_back s s' i e' Hm He) as (e & He0 & Hc). destruct (Ho i e He0) as (d & Hd & Hn).
  exists d. split; [|done]. pose proof (mv_config _ _ Hm) as Ec. fields_in Ec. destruct (carried_fields e e' Hc) as (_ & E & _). by rewrite Ec, E.
Qed.

(** Spaces to reclaim and packets to look at. *)
Definition backlog s : Z := Z.of_nat (size (spaces s)) + (next_sent_id s - oldest_sent_id s).

Lemma confirm_loop_frame fuel s now :
  let s' := (confirm_loop fuel s now).1 in spaces s' = spaces s /\ oldest_sent_id s' = oldest_sent_id s /\ next_sent_id s' = next_sent_id s.
Proof.
  revert s. induction fuel as [|fuel IH]; intros s; cbn [confirm_loop]; [done|]. destruct (missing s) as [|i rest]; [done|].
  fold (confirm_one s i rest now). specialize (IH (confirm_one s i rest now)). destruct (confirm_loop fuel _ now) as [s2 w]. cbn [fst] in *.
  destruct IH as (-> & -> & ->). unfold confirm_one. set (s1 := with_loss_work _ _). destruct (entry s1 i) as [e|]; [|done].
  destruct (is_missing _); [|done]. destruct (deadline_passed _ _ _); [|done]. destruct (mark_lost_frame s1 i Reordering) as (-> & _ & -> & ->). done.
Qed.

Lemma reclaim_space_frame s d sp :
  inv s -> ReadyRetired d sp ∈ readiness s -> let s' := reclaim_space s d sp in
  Z.of_nat (size (spaces s')) + 1 = Z.of_nat (size (spaces s)) /\ oldest_sent_id s' = oldest_sent_id s /\ next_sent_id s' = next_sent_id s.
Proof.
  intros Hs Hr. destruct (ready_space s d sp Hs Hr) as [[p Hp] _]. unfold reclaim_space. fields. rewrite Hp. fields. split_and!; try done.
  rewrite map_size_delete, Hp. assert (size (spaces s) <> 0%nat); [|lia]. intros E%map_size_empty_inv. by rewrite E, lookup_empty in Hp.
Qed.

Lemma reclaim_loop_frame fuel s now work limit :
  inv s -> let '(s', work') := reclaim_loop fuel s now work limit in
  Z.of_nat (size (spaces s')) + (work' - work) = Z.of_nat (size (spaces s)) /\ oldest_sent_id s' = oldest_sent_id s /\ next_sent_id s' = next_sent_id s.
Proof.
  revert s work. induction fuel as [|fuel IH]; intros s work Hs; cbn [reclaim_loop]; [split_and!; lia|].
  destruct ((work <? limit) && _) eqn:Hw; [|split_and!; lia]. apply andb_true_iff in Hw as [_ Hw].
  destruct (first_ready (readiness s)) as [[d sp| |]|] eqn:Hf; try (split_and!; lia).
  destruct (match d with Some d => now <? d | None => false end); [split_and!; lia|].
  apply first_ready_elem in Hf. destruct (reclaim_space_keeps s d sp Hf Hs) as [Hs1 Hm1]. destruct (reclaim_space_frame s d sp Hs Hf) as (F1 & F2 & F3).
  set (s1 := reclaim_space s d sp) in *. assert (loss_work s1 = loss_work s) as Ew by (unfold s1, reclaim_space; by destruct (spaces _ !! sp)).
  pose proof (mv_config _ _ Hm1) as Ec. fields_in Ec. destruct (spend_keeps s1 ltac:(intros _; rewrite Ew, Ec; lia) Hs1) as [Hs2 _].
  specialize (IH (with_loss_work (loss_work s1 + 1) s1) (work + 1) Hs2). destruct (reclaim_loop fuel _ now (work + 1) limit) as [s3 w3]. fields_in IH.
  split_and!; lia.
Qed.

Lemma old_end_frame s (o : option SentEntry) :
  inv s -> oldest_sent_id s < next_sent_id s -> let s' := match o with Some e => expire_one s e | None => skip_one s end in
  spaces s' = spaces s /\ next_sent_id s' = next_sent_id s /\ oldest_sent_id s' = oldest_sent_id s + 1 /\ loss_work s' = loss_work s + 1.
Proof.
  intros Hs Hlt. destruct (ci_ids _ Hs) as [H1 H2]. fields_in H1. fields_in H2.
  assert (saturating_add 64 (oldest_sent_id s) 1 = oldest_sent_id s + 1) as Hb by (unfold saturating_add; lia).
  destruct o as [e|]; cbn zeta; [|unfold skip_one; fields; by rewrite Hb].
  unfold expire_one. destruct (is_terminal _); fields; [by rewrite Hb|].
  destruct (mark_lost_frame (with_loss_work (loss_work s + 1) s) (oldest_sent_id s) HistoryExpiry) as (-> & -> & -> & ->). fields. by rewrite Hb.
Qed.


Lemma expire_loop_advances fuel s now work limit :
  inv s -> overdue s now -> let s' := (expire_loop fuel s now work limit).1 in
  spaces s' = spaces s /\ next_sent_id s' = next_sent_id s /\ oldest_sent_id s <= oldest_sent_id s' /\
  (fuel <> 0%nat -> work < limit -> loss_work s < max_expirations_per_poll (config s) -> oldest_sent_id s < next_sent_id s ->
   oldest_sent_id s < oldest_sent_id s').
Proof.
  revert s work. induction fuel as [|fuel IH]; intros s work Hs Ho; cbn [expire_loop]; [done|].
  destruct (_ && _ && _) eqn:Hw; [|split_and!; try done; intros; lia]. apply andb_true_iff in Hw as [[Hw1 Hw2]%andb_true_iff Hw3].
  pose proof (old_end_frame s (entry s (oldest_sent_id s)) Hs ltac:(lia)) as Hf. destruct (entry s (oldest_sent_id s)) as [e|] eqn:He; cbn zeta in Hf.
  - destruct (Ho _ e He) as (d & -> & Hd). rewrite (proj2 (Z.ltb_ge _ _)) by done. change (expire_loop fuel _ now (work + 1) limit) with (expire_loop fuel (expire_one s e) now (work + 1) limit).
    destruct (expire_one_keeps s e He ltac:(lia) ltac:(lia) Hs) as [Hs1 Hm1]. destruct Hf as (F1 & F2 & F3 & _).
    destruct (IH (expire_one s e) (work + 1) Hs1 (overdue_moves _ _ _ Hm1 Ho)) as (R1 & R2 & R3 & _). split_and!; [congruence|congruence|lia|lia].
  - fold (skip_one s). destruct (skip_one_keeps s He ltac:(lia) ltac:(lia) Hs) as [Hs1 Hm1]. destruct Hf as (F1 & F2 & F3 & _).
    destruct (IH (skip_one s) (work + 1) Hs1 (overdue_moves _ _ _ Hm1 Ho)) as (R1 & R2 & R3 & _). split_and!; [congruence|congruence|lia|lia].
Qed.

(** The history is polled: the last poll's observations were read. *)
Definition round s (now : Z) : History := (expire (clear_observations s) now (max_expirations_per_poll (config s))).1.

Lemma round_progress s now :
  inv s -> overdue s now ->
  inv (round s now) /\ moves (core s) (core (round s now)) /\ (oldest_sent_id s < next_sent_id s -> backlog (round s now) < backlog s).
Proof.
  intros Hs Ho. destruct (clear_observations_keeps s Hs) as [Hs0 Hm0]. pose proof (cfg_work _ (ci_config _ Hs)) as Hmax. fields_in Hmax.
  pose proof (expire_keeps (clear_observations s) now (max_expirations_per_poll (config s)) ltac:(lia) Hs0) as [Hs' Hm'].
  split; [done|]. split; [by eapply moves_trans|]. intros Hlt. unfold round, expire, confirm_losses, reclaim_sources.
  set (s0 := clear_observations s) in *. set (m := max_expirations_per_poll (config s)) in *. change (config s0) with (config s). fold m.
  change (loss_work s0) with 0. match goal with |- context [confirm_loop ?f s0 now] =>
    pose proof (confirm_loop_frame f s0 now) as Fc; pose proof (confirm_loop_keeps f s0 now) as Hc; set (fuel := f) in * end.
  assert (0 <= m `div` 2 < m) as Hhalf by (split; [apply Z.div_pos; lia|apply Z.div_lt; lia]). assert (Z.of_nat fuel <= m `div` 2) as Hf by (unfold fuel; lia).
  change (loss_work s0) with 0 in Hc. change (config s0) with (config s) in Hc. fold m in Hc.
  specialize (Hc ltac:(intros _; lia) Hs0). destruct (confirm_loop fuel s0 now) as [s1 w1]. cbn [fst] in Fc.
  destruct Fc as (C1 & C2 & C3). destruct Hc as (Hs1 & Hm1 & W1 & B1).
  match goal with |- context [reclaim_loop ?f s1 now 0 ?l] =>
    pose proof (reclaim_loop_frame f s1 now 0 l Hs1) as Fr; pose proof (reclaim_loop_keeps f s1 now 0 l Hs1) as Hr; destruct (reclaim_loop f s1 now 0 l) as [s2 w2] end.
  destruct Fr as (R1 & R2 & R3). destruct Hr as (Hs2 & Hm2 & W2 & B2 & _).
  assert (overdue s2 now) as Ho2 by (do 3 (eapply overdue_moves; [done|]); done).
  destruct (expire_loop_advances (Z.to_nat m) s2 now (w1 + w2) m Hs2 Ho2) as (X1 & X2 & X3 & X4).
  pose proof (mv_config _ _ Hm1) as E1. pose proof (mv_config _ _ Hm2) as E2. fields_in E1. fields_in E2.
  unfold backlog. rewrite X1, X2. change (spaces s0) with (spaces s) in C1. change (oldest_sent_id s0) with (oldest_sent_id s) in C2.
  change (next_sent_id s0) with (next_sent_id s) in C3. rewrite C1 in R1. destruct (decide (0 < w2)); [lia|].
  assert (oldest_sent_id s2 < oldest_sent_id (expire_loop (Z.to_nat m) s2 now (w1 + w2) m).1); [|lia].
  apply X4; [lia|lia| |lia]. rewrite E2, E1. change (config s0) with (config s). fold m. lia.
Qed.

Fixpoint rounds (n : nat) s (now : Z) : History := match n with O => s | S n => rounds n (round s now) now end.

Lemma live_zero s : live s = 0 <-> forall k e, entries s !! k = Some (Some e) -> is_terminal (acknowledgment e) = true.
Proof.
  unfold live. split.
  - intros E k e Hk. pose proof (ring_sum_member live_weight (entries s) k e) as Hm. rewrite E in Hm.
    assert (live_weight e <= 0) as Hle. { apply Hm; [|done]. intros j x _. unfold live_weight. destruct (is_terminal _); lia. }
    unfold live_weight in Hle. destruct (is_terminal _); [done|lia].
  - intros Ht. induction (entries s) as [|[e|] l IH]; cbn; [done| |].
    + rewrite IH by (intros k x Hk; by apply (Ht (S k))). unfold live_weight. by rewrite (Ht 0%nat e eq_refl).
    + apply IH. intros k x Hk. by apply (Ht (S k)).
Qed.

Lemma live_moves s s' : moves (core s) (core s') -> live s = 0 -> live s' = 0.
Proof.
  intros Hm. rewrite !live_zero. intros Ht k e' Hk. pose proof (mv_entries _ _ Hm) as Hf. fields_in Hf.
  destruct (Forall2_lookup_r _ _ _ _ _ Hf Hk) as (o & Ho & Hc). inv Hc.
  match goal with Hc : carried ?e _ |- _ => rewrite (ca_outcome _ _ Hc (Ht _ _ Ho)); by apply (Ht _ _ Ho) end.
Qed.

(** Past the old end there is nothing left to decide. *)
Lemma live_caught_up s : inv s -> oldest_sent_id s = next_sent_id s -> live s = 0.
Proof.
  intros Hs E. apply live_zero. intros k e Hk. destruct (is_terminal (acknowledgment e)) eqn:Ht; [done|].
  destruct (ci_entries _ Hs k e Hk) as [_ [[_ O1] _] _ O2 _ _]. destruct (O2 Ht) as [_ O3]. fields_in O1. fields_in O3. lia.
Qed.

Lemma rounds_settle n s now :
  inv s -> overdue s now -> live s = 0 \/ backlog s <= Z.of_nat n ->
  inv (rounds n s now) /\ moves (core s) (core (rounds n s now)) /\ live (rounds n s now) = 0.
Proof.
  revert s. induction n as [|n IH]; intros s Hs Ho Hn; cbn [rounds].
  - split; [done|]. split; [apply moves_refl|]. destruct Hn as [?|Hn]; [done|]. apply live_caught_up; [done|].
    destruct (ci_ids _ Hs) as [H1 _]. fields_in H1. unfold backlog in Hn. lia.
  - destruct (round_progress s now Hs Ho) as (Hs' & Hm & Hp). destruct (IH (round s now) Hs') as (H1 & H2 & H3).
    + by eapply overdue_moves.
    + destruct Hn as [Hl|Hn]; [left; by eapply live_moves|]. destruct (ci_ids _ Hs) as [I1 _]. fields_in I1.
      destruct (decide (oldest_sent_id s < next_sent_id s)); [right; specialize (Hp ltac:(done)); lia|].
      left. eapply live_moves; [done|]. apply live_caught_up; [done|lia].
    + split; [done|]. split; [by eapply moves_trans|done].
Qed.

(** C15. Nothing waits forever. Once the retention of the packets sent has
    passed, polling as often as there are spaces and packets in the window
    gives each of them an outcome: none waits, and those counted received,
    counted not received and given up are all that were sent. Each poll spends
    at most the configured work. *)
Theorem polling_settles_every_packet c s sent gone now :
  config_typed c -> sender_run c s sent gone -> overdue s now ->
  let s' := rounds (Z.to_nat (backlog s)) s now in
  live s' = 0 /\ received_packets (counters s') + not_received (counters s') + gone = sent /\ loss_work s' <= max_expirations_per_poll (config s').
Proof.
  intros Hc Hr Ho. destruct (run_conserved c s sent gone Hc Hr) as (Hs & _ & Hsum). cbn zeta.
  assert (0 <= backlog s) as Hnn by (destruct (ci_ids _ Hs) as [I1 _]; fields_in I1; unfold backlog; lia).
  destruct (rounds_settle (Z.to_nat (backlog s)) s now Hs Ho ltac:(lia)) as (H1 & H2 & H3).
  split; [done|]. pose proof (mv_settled _ _ H2) as E. fields_in E. fold (live s) in E. fold (live (rounds (Z.to_nat (backlog s)) s now)) in E.
  split; [unfold settled in Hsum; lia|]. pose proof (ci_work _ H1) as [W _]. fields_in W. lia.
Qed.

(** ** Executing a sequence of operations *)

Definition tally (a : History * Z * Z) (op : Op) : History * Z * Z :=
  let '(s, sent, gone) := a in
  let s' := (perform s op).1 in (s', sent + sent_by op (perform s op).2, gone + given_up op s s').

Lemma run_ops c a ops :
  sender_run c a.1.1 a.1.2 a.2 -> Forall op_typed ops -> let b := foldl tally a ops in sender_run c b.1.1 b.1.2 b.2.
Proof.
  intros Hr Ho. revert a Hr. induction Ho as [|op ops Hop _ IH]; intros [[s sent] gone] Hr; [done|]. apply IH. by apply run_op.
Qed.
End SenderProgress.

(** ** A concrete history *)

Module SenderExample.
Definition Table : Type := gmap Z Z * Z.

#[export] Instance sizes : Layout :=
  { size_entry := 8; size_index := 2; size_observation := 8; size_source := 8; size_missing := 2; size_source_entry := 2 }.
#[export] Instance generous : Allocator := { grant n := Some n }.
#[export] Instance tables : IndexTable Table :=
  { table_reserve n := Some (∅, n); table_map t := t.1; table_capacity t := t.2;
    table_insert k v t := (<[k := v]> t.1, t.2); table_remove k t := (delete k t.1, t.2) }.

(** Eight packets, kept for a second; four units of work a poll. *)
Definition settings : SenderConfig := mkSenderConfig 8 1000 4 100 8 10 50.
Definition blank : Sender (T := Table) :=
  mkSender settings None 0 [] [] ∅ 0 ∅ 0 0 None None None None None None None inputs_default counters_default 0 0 0 [] 0 0.
Definition fresh : Sender (T := Table) := match sender_new settings (Some ModeIndependent) 10000 with Ok s => s | Err _ => blank end.

Definition send (t n : Z) : SendCommit := mkCommit t 100 1 (mkIdentity 7 n None 0).
Definition says (t counter n : Z) (b : bool) : SendFeedback :=
  mkSendFeedback t 1 (IndependentReports [mkIndependent 7 n counter [mkStatus b None None None]]).

(** Packet 5 is acknowledged; packet 3 of the same space is sent after it. *)
Definition filled_in : list Op :=
  [Availability 1 true; Prepare (send 1 5); Commit (send 1 5); Report (says 2 1 5 true); Prepare (send 3 3); Commit (send 3 3)].
Definition late_answers : list Op := [Report (says 4 2 3 false); Report (says 5 3 3 true)].

Definition after (ops : list Op) := foldl tally (fresh, 0, 0) ops.

Lemma fresh_run : sender_run settings fresh 0 0.
Proof. apply (run_new settings (Some ModeIndependent) 10000). vm_compute. reflexivity. Qed.

Lemma after_run ops : Forall op_typed ops -> sender_run settings (after ops).1.1 (after ops).1.2 (after ops).2.
Proof. apply (run_ops settings (fresh, 0, 0)), fresh_run. Qed.

Lemma settings_typed : config_typed settings.
Proof. by vm_compute. Qed.

Lemma sent_packets_conserved_witness :
  (after filled_in).1.2 = 2 /\ live (after filled_in).1.1 = 1 /\ received_packets (counters (after filled_in).1.1) = 1 /\
  received_packets (counters (after filled_in).1.1) + not_received (counters (after filled_in).1.1) + (after filled_in).2 + live (after filled_in).1.1 = (after filled_in).1.2.
Proof.
  split_and!; [by vm_compute..|].
  apply (sent_packets_conserved settings (after filled_in).1.1 (after filled_in).1.2 (after filled_in).2 settings_typed).
  apply after_run. repeat constructor; by vm_compute.
Defined.

(** A receipt that comes late does not revise the outcome. *)
Lemma packet_outcome_final_witness :
  let s := (after filled_in).1.1 in (acknowledgment <$> entry s 0) = Some Received /\
  let s' := (perform s (Report (says 9 4 5 false))).1 in (acknowledgment <$> entry s' 0) = Some Received.
Proof.
  cbn zeta. split; [by vm_compute|].
  destruct (entry (after filled_in).1.1 0) as [e|] eqn:He; [|vm_compute in He; done].
  assert (acknowledgment e = Received) as Hr by (vm_compute in He; by injection He as <-).
  destruct (packet_outcome_final settings (after filled_in).1.1 (after filled_in).1.2 (after filled_in).2 (Report (says 9 4 5 false)) 0 e settings_typed)
    as [Hn|(e' & -> & _ & Hk & _)]; [apply after_run; repeat constructor; by vm_compute|done|done|by vm_compute in Hn|].
  cbn. by rewrite Hk; rewrite Hr.
Defined.

Lemma overdue_by (s : Sender (T := Table)) now :
  forallb (fun o => match o with
    | Some e => match duration_checked_add (committed_at e) (retention (config s)) with Some d => d <=? now | None => false end
    | None => true end) (entries s) = true -> overdue s now.
Proof.
  intros Hf i e He. apply entry_at in He as [Hk _]. rewrite forallb_forall in Hf.
  specialize (Hf (Some e) ltac:(by apply list_elem_of_In, (list_elem_of_lookup_2 _ _ _ Hk))). cbn beta iota in Hf.
  destruct (duration_checked_add _ _) as [d|]; [|done]. exists d. split; [done|lia].
Qed.

Lemma polling_settles_every_packet_witness :
  live (after filled_in).1.1 = 1 /\ let s' := rounds (Z.to_nat (backlog (after filled_in).1.1)) (after filled_in).1.1 2000 in
  live s' = 0 /\ received_packets (counters s') + not_received (counters s') + (after filled_in).2 = (after filled_in).1.2.
Proof.
  split; [by vm_compute|].
  destruct (polling_settles_every_packet settings (after filled_in).1.1 (after filled_in).1.2 (after filled_in).2 2000 settings_typed) as (H1 & H2 & _).
  - apply after_run. repeat constructor; by vm_compute.
  - apply overdue_by. by vm_compute.
  - by split.
Defined.

End SenderExample.
