(* ===== verification/Lifecycle.v ===== *)
(** * Track lifecycle: from who wants what to updates for the shards

    Models [control/lifecycle.rs]: for every published track the placements it
    holds on the shards, who is a candidate for it and who receives it, and the
    operations that bring the shards from what they have to what the topology
    and the registry now ask for.

    [None] is a failed [expect]: a track that is not published, a publisher that
    is not in its room, an allocator without slots, a generation that ran out.
    Identities are numbers, in the order [sort] uses. The stager is the list of
    operations it collects. *)

From stdpp Require Import sorting.
From S2P Require Import Prelude Route SlotAlloc Room Registry Topology ShardUpdate.

(** What a track is besides its identity ([track.rs]). *)
Inductive TrackMedia (E : Type) := MediaAudio | MediaVideo (layers : list E) | MediaData (ordered : bool).
Arguments MediaAudio {_}. Arguments MediaVideo {_} _. Arguments MediaData {_} _.

Record TrackBody (E : Type) := mkBody {
  connection_id : Z;
  reverse : option NodeRouteAddress;
  media : TrackMedia E;
}.
Arguments mkBody {_} _ _ _. Arguments connection_id {_} _. Arguments reverse {_} _. Arguments media {_} _.

(** The effects this component stages ([participant/effect.rs]). *)
Inductive TrackRemoval := Withdrawn | SourceEnded.

Section Lifecycle.
Context {E ExternalId Lease : Type}.
Context (track_kind : Z -> TrackKind).

#[local] Abbreviation Track := (Track (ParticipantId := Z) (RoomId := Z) (TrackId := Z) (Body := TrackBody E)).
#[local] Abbreviation TrackAncestry := (TrackAncestry (ParticipantId := Z) (RoomId := Z) (TrackId := Z)).
#[local] Abbreviation TrackSelector := (TrackSelector (ParticipantId := Z) (TrackId := Z)).
#[local] Abbreviation TrackTopology :=
  (TrackTopology (ParticipantId := Z) (RoomId := Z) (TrackId := Z) (SubscriptionKey := Z) (Body := TrackBody E)).
#[local] Abbreviation RoomRegistry :=
  (RoomRegistry (ParticipantId := Z) (RoomId := Z) (ParticipantExternalId := ExternalId) (AuthorizationLease := Lease)).
#[local] Abbreviation TrackPlacement := (TrackPlacement (TrackId := Z)).

Inductive TrackEffect :=
| CandidateAdded (track : Track)
| CandidateRemoved (track_id : Z) (reason : TrackRemoval)
| Subscribed (track_id : Z)
| Unsubscribed (track_id : Z)
| Published (track_id : Z)
| Unpublished (track_id : Z).

#[local] Abbreviation ShardUpdateOp :=
  (ShardUpdateOp (ParticipantId := Z) (TrackId := Z) (TrackKind := TrackKind) (SourceEncoding := E) (ParticipantEffect := TrackEffect)).
#[local] Abbreviation TrackPlan := (TrackPlan (ParticipantId := Z)).
#[local] Abbreviation TrackPlanUpdate := (TrackPlanUpdate (ParticipantId := Z) (TrackId := Z)).

#[export] Instance TrackAncestry_eq_dec : EqDecision TrackAncestry.
Proof. solve_decision. Defined.
#[export] Instance TrackAncestry_countable : Countable TrackAncestry.
Proof.
  apply (inj_countable' (fun i => (anc_room i, anc_publisher i, anc_track i)) (fun x => mkAncestry x.1.1 x.1.2 x.2)). by intros [].
Defined.

Definition requires_reverse_route (t : Track) : bool :=
  match media (track_body t) with MediaVideo _ => true | MediaData ordered => ordered | MediaAudio => false end.
Definition layers (t : Track) : list E := match media (track_body t) with MediaVideo l => l | _ => [] end.
Definition set_reverse (r : option NodeRouteAddress) (b : TrackBody E) : TrackBody E := mkBody (connection_id b) r (media b).

(** ** Where participants are *)

Record ParticipantLocation := mkLocation { loc_shard : ShardId; loc_room : Z; materialized : bool }.
Record BoundParticipantLocation := mkBound { bound_shard : ShardId; bound_participant : Z }.

Definition locate (g : RoomRegistry) (p : Z) : option ParticipantLocation :=
  (fun m => mkLocation (meta_shard m) (meta_room m) (meta_materialized m)) <$> get_participant g p.

Definition bound_in_room (g : RoomRegistry) (p room : Z) : option BoundParticipantLocation :=
  l ← locate g p;
  if negb (loc_room l =? room) || negb (materialized l) then None else Some (mkBound (loc_shard l) p).

(** ** State *)

Record TrackDestination := mkDestination { placement : TrackPlacement; resident : bool; route_installed : bool }.
Definition reserved (p : TrackPlacement) : TrackDestination := mkDestination p false false.

Inductive TrackLifecycleOperation :=
| Update (shard : ShardId) (op : ShardUpdateOp)
| Plans (shard : ShardId) (plans : list TrackPlanUpdate)
| Effect (shard : ShardId) (participant : Z) (effect : TrackEffect).
Record TrackLifecycleOutcome := mkOutcome { out_generation : Z; operations : list TrackLifecycleOperation }.

Record TrackLifecycle := mkLifecycle {
  topology : TrackTopology;
  allocator : list SlotAllocator;
  placements : gmap (TrackAncestry * ShardId) TrackDestination;
  candidates : gmap TrackAncestry (gset Z);
  bindings : gmap TrackAncestry (gset Z);
  generation : Z;
}.

Definition with_topology (v : TrackTopology) (l : TrackLifecycle) : TrackLifecycle :=
  mkLifecycle v (allocator l) (placements l) (candidates l) (bindings l) (generation l).
Definition with_allocator (v : list SlotAllocator) (l : TrackLifecycle) : TrackLifecycle :=
  mkLifecycle (topology l) v (placements l) (candidates l) (bindings l) (generation l).
Definition with_placements (v : gmap (TrackAncestry * ShardId) TrackDestination) (l : TrackLifecycle) : TrackLifecycle :=
  mkLifecycle (topology l) (allocator l) v (candidates l) (bindings l) (generation l).
Definition with_candidates (v : gmap TrackAncestry (gset Z)) (l : TrackLifecycle) : TrackLifecycle :=
  mkLifecycle (topology l) (allocator l) (placements l) v (bindings l) (generation l).
Definition with_bindings (v : gmap TrackAncestry (gset Z)) (l : TrackLifecycle) : TrackLifecycle :=
  mkLifecycle (topology l) (allocator l) (placements l) (candidates l) v (generation l).

Definition lifecycle_new (shard_count : nat) : TrackLifecycle := mkLifecycle ∅ (placement_new shard_count) ∅ ∅ ∅ 0.

Definition next_generation (l : TrackLifecycle) : option (TrackLifecycle * Z) :=
  g ← checked_add 64 (generation l) 1;
  Some (mkLifecycle (topology l) (allocator l) (placements l) (candidates l) (bindings l) g, g).

(** [plans], which stages nothing for an empty list, and [plan]. *)
Definition stage_plans (s : ShardId) (ps : list TrackPlanUpdate) : list TrackLifecycleOperation :=
  match ps with [] => [] | _ => [Plans s ps] end.
Definition stage_plan (s : ShardId) (t : Z) (p : option TrackPlan) : list TrackLifecycleOperation := stage_plans s [mkPlanUpdate t p].

Definition sorted (x : gset Z) : list Z := merge_sort Z.le (elements x).

(** ** What a track should be *)

Record DesiredTrackState := mkDesired {
  d_track : Track;
  d_origin : BoundParticipantLocation;
  d_candidates : gset Z;
  d_bindings : gset Z;
  locations : gmap Z BoundParticipantLocation;
}.

(** The shards, other than the publisher's, of a set of participants. *)
Definition remote_shards (d : DesiredTrackState) (ps : gset Z) : list ShardId :=
  sorted (list_to_set (filter (fun s => s <> bound_shard (d_origin d)) (omap (fun p => bound_shard <$> locations d !! p) (elements ps)))).
Definition candidate_remote_shards (d : DesiredTrackState) : list ShardId := remote_shards d (d_candidates d).
Definition active_remote_shards (d : DesiredTrackState) : list ShardId := remote_shards d (d_bindings d).

Definition local_bindings (d : DesiredTrackState) (s : ShardId) : list Z :=
  sorted (filter (fun p => (bound_shard <$> locations d !! p) = Some s) (d_bindings d)).

Definition desired_state (l : TrackLifecycle) (i : TrackAncestry) (g : RoomRegistry) : option DesiredTrackState :=
  track ← topology_track (topology l) i;
  origin ← bound_in_room g (anc_publisher i) (anc_room i);
  let cs := filter (fun p => p <> anc_publisher i /\ is_Some (bound_in_room g p (anc_room i))) (topology_candidates (topology l) i) in
  let bs := filter (fun p => p ∈ cs) (topology_active (topology l) i) in
  let locs := list_to_map (omap (fun p => (fun b => (p, b)) <$> bound_in_room g p (anc_room i)) (elements cs)) in
  Some (mkDesired track origin cs bs locs).

(** ** Placements *)

Definition ensure_destination (l : TrackLifecycle) (i : TrackAncestry) (s : ShardId) (now : Z) : option (TrackLifecycle * TrackDestination) :=
  match placements l !! (i, s) with
  | Some d => Some (l, d)
  | None =>
      '(routes, p) ← placement_allocate (allocator l) s (anc_track i) now;
      let d := reserved p in
      Some (with_placements (<[(i, s) := d]> (placements l)) (with_allocator routes l), d)
  end.

Definition ensure_reverse_route (l : TrackLifecycle) (i : TrackAncestry) (t : Track) (route : NodeRouteAddress) : TrackLifecycle * Track :=
  if negb (requires_reverse_route t) || bool_decide (is_Some (reverse (track_body t))) then (l, t)
  else
    let b := set_reverse (Some route) (track_body t) in
    (with_topology (topology_put_body (topology l) i b) l, with_body b t).

Fixpoint reserve_destinations (l : TrackLifecycle) (i : TrackAncestry) (ss : list ShardId) (now : Z) : option TrackLifecycle :=
  match ss with
  | [] => Some l
  | s :: ss => '(l, _) ← ensure_destination l i s now; reserve_destinations l i ss now
  end.
Definition reserve_candidate_destinations (l : TrackLifecycle) (i : TrackAncestry) (d : DesiredTrackState) (now : Z) : option TrackLifecycle :=
  reserve_destinations l i (candidate_remote_shards d) now.

Definition destinations_of (l : TrackLifecycle) (i : TrackAncestry) : gmap ShardId TrackDestination :=
  list_to_map (omap (fun '((held, s), d) => if decide (held = i) then Some (s, d) else None) (map_to_list (placements l))).

(** The destinations of [i] other than the origin's, by shard. *)
Definition remote_destinations (l : TrackLifecycle) (i : TrackAncestry) (origin : ShardId) : list (ShardId * TrackDestination) :=
  omap (fun s => if s =? origin then None else (fun d => (s, d)) <$> placements l !! (i, s)) (sorted (dom (destinations_of l i))).

Definition set_destination (l : TrackLifecycle) (i : TrackAncestry) (s : ShardId) (f : TrackDestination -> TrackDestination) : option TrackLifecycle :=
  d ← placements l !! (i, s); Some (with_placements (<[(i, s) := f d]> (placements l)) l).
Definition set_route_installed (l : TrackLifecycle) (i : TrackAncestry) (s : ShardId) (b : bool) : option TrackLifecycle :=
  set_destination l i s (fun d => mkDestination (placement d) (resident d) b).
Definition set_resident (l : TrackLifecycle) (i : TrackAncestry) (s : ShardId) (b : bool) : option TrackLifecycle :=
  set_destination l i s (fun d => mkDestination (placement d) b (route_installed d)).
Definition set_destination_state (l : TrackLifecycle) (i : TrackAncestry) (s : ShardId) (r inst : bool) : option TrackLifecycle :=
  set_destination l i s (fun d => mkDestination (placement d) r inst).

(** ** Staging *)

Definition stage_track_effect (l : TrackLifecycle) (i : TrackAncestry) (g : RoomRegistry) (e : TrackEffect) (p : Z) : list TrackLifecycleOperation :=
  match locate g p with
  | None => []
  | Some at_ =>
      if negb (materialized at_) then []
      else if bool_decide (placements l !! (i, loc_shard at_) = None) then []
      else [Effect (loc_shard at_) p e]
  end.

(** What [i] has of participants now and should have. *)
Definition stage_participant_transitions (l : TrackLifecycle) (i : TrackAncestry) (d : DesiredTrackState) (g : RoomRegistry) : list TrackLifecycleOperation :=
  let previous_candidates := default ∅ (candidates l !! i) in
  let previous_bindings := default ∅ (bindings l !! i) in
  let t := anc_track i in
  let each e ps := sorted ps ≫= stage_track_effect l i g e in
  each (Unsubscribed t) (previous_bindings ∖ d_bindings d)
  ++ each (CandidateRemoved t Withdrawn) (previous_candidates ∖ d_candidates d)
  ++ each (CandidateAdded (d_track d)) (d_candidates d ∖ previous_candidates)
  ++ each (Subscribed t) (d_bindings d ∖ previous_bindings).

Definition stage_shard_withdrawal (s : ShardId) (x : TrackDestination) : list TrackLifecycleOperation :=
  stage_plan s (placement_track (placement x)) None
  ++ (if route_installed x then [Update s (RetireRoute (placement_route (placement x)))] else [])
  ++ [Update s (RemoveTrackRuntime (placement_track (placement x)))].

(** One remote destination. *)
Definition reconcile_residency (i : TrackAncestry) (d : DesiredTrackState) (acc : TrackLifecycle * list TrackLifecycleOperation)
    (sx : ShardId * TrackDestination) : option (TrackLifecycle * list TrackLifecycleOperation) :=
  let '(l, ops) := acc in
  let '(s, x) := sx in
  let should_be_resident := bool_decide (s ∈ candidate_remote_shards d) in
  let should_have_route := bool_decide (s ∈ active_remote_shards d) in
  if resident x && negb should_be_resident then
    l ← set_destination_state l i s false false;
    Some (l, ops ++ stage_shard_withdrawal s x)
  else if negb (route_installed x) && should_have_route then
    l ← set_route_installed l i s true;
    Some (l, ops ++ [Update s (InstallRoute (placement_route (placement x)) (Forward (placement_track (placement x))))])
  else if route_installed x && negb should_have_route then
    l ← set_route_installed l i s false;
    Some (l, ops ++ [Update s (RetireRoute (placement_route (placement x)))])
  else Some (l, ops).

Fixpoint reconcile_residencies (i : TrackAncestry) (d : DesiredTrackState) (acc : TrackLifecycle * list TrackLifecycleOperation)
    (xs : list (ShardId * TrackDestination)) : option (TrackLifecycle * list TrackLifecycleOperation) :=
  match xs with
  | [] => Some acc
  | x :: xs => acc ← reconcile_residency i d acc x; reconcile_residencies i d acc xs
  end.
Definition reconcile_remote_residency (l : TrackLifecycle) (i : TrackAncestry) (d : DesiredTrackState) : option (TrackLifecycle * list TrackLifecycleOperation) :=
  reconcile_residencies i d (l, []) (remote_destinations l i (bound_shard (d_origin d))).

Record RuntimePlan := mkRuntimePlan {
  rp_shard : ShardId;
  rp_origin : Z;
  rp_track : Track;
  rp_track_id : Z;
  rp_local : list Z;
  rp_remote : list NodeRouteAddress;
  rp_reverse : option NodeRouteAddress;
}.

Definition stage_runtime_and_plan (r : RuntimePlan) : list TrackLifecycleOperation :=
  Update (rp_shard r) (InsertTrackRuntime (rp_track_id r)
    (mkTrackRuntime (Some (mkDescriptor (rp_origin r) (track_kind (track_id (rp_track r))) (layers (rp_track r)))) None None))
  :: Update (rp_shard r) Placeholder
  :: stage_plan (rp_shard r) (rp_track_id r) (Some (plan_new (rp_local r) (rp_remote r) (rp_reverse r))).

(** The views of the shards that only receive. *)
Fixpoint stage_remote_views (l : TrackLifecycle) (i : TrackAncestry) (d : DesiredTrackState) (ss : list ShardId)
    : option (TrackLifecycle * list TrackLifecycleOperation) :=
  match ss with
  | [] => Some (l, [])
  | s :: ss =>
      x ← placements l !! (i, s);
      let ops := stage_runtime_and_plan (mkRuntimePlan s (bound_participant (d_origin d)) (d_track d) (placement_track (placement x))
                   (local_bindings d s) [] (reverse (track_body (d_track d)))) in
      l ← set_resident l i s true;
      '(l, rest) ← stage_remote_views l i d ss;
      Some (l, ops ++ rest)
  end.

Definition stage_active_views (l : TrackLifecycle) (i : TrackAncestry) (d : DesiredTrackState) : option (TrackLifecycle * list TrackLifecycleOperation) :=
  let home := bound_shard (d_origin d) in
  origin ← placements l !! (i, home);
  '(l, install) ← (if requires_reverse_route (d_track d) && negb (route_installed origin) then
      l ← set_route_installed l i home true;
      Some (l, [Update home (InstallRoute (placement_route (placement origin)) (Reverse (placement_track (placement origin))))])
    else Some (l, []));
  remote ← mapM (fun s => (fun x => placement_route (placement x)) <$> placements l !! (i, s)) (active_remote_shards d);
  let view := stage_runtime_and_plan (mkRuntimePlan home (bound_participant (d_origin d)) (d_track d) (placement_track (placement origin))
                (local_bindings d home) remote (reverse (track_body (d_track d)))) in
  l ← set_resident l i home true;
  let announce := if resident origin then [] else [Effect home (bound_participant (d_origin d)) (Published (anc_track i))] in
  '(l, rest) ← stage_remote_views l i d (candidate_remote_shards d);
  Some (l, install ++ view ++ announce ++ rest).

Definition release (l : TrackLifecycle) (i : TrackAncestry) (now : Z) (sx : ShardId * TrackDestination) : TrackLifecycle :=
  with_placements (delete (i, sx.1) (placements l)) (with_allocator (placement_release (allocator l) (placement sx.2) now) l).

Definition release_unused_destinations (l : TrackLifecycle) (i : TrackAncestry) (d : DesiredTrackState) (now : Z) : TrackLifecycle :=
  foldl (fun l sx => release l i now sx) l
    (filter (fun sx => sx.1 ∉ candidate_remote_shards d) (remote_destinations l i (bound_shard (d_origin d)))).

(** ** Reconciling a track *)

Definition bound_shards (g : RoomRegistry) (room : Z) (ps : gset Z) : option (list ShardId) :=
  mapM (fun p => bound_shard <$> bound_in_room g p room) (elements ps).

(** What a debug build asserts of a reconciled track. *)
Definition assert_committed_track (l : TrackLifecycle) (i : TrackAncestry) (g : RoomRegistry) : bool :=
  match topology_track (topology l) i, candidates l !! i, bindings l !! i, bound_in_room g (anc_publisher i) (anc_room i) with
  | Some track, Some cs, Some bs, Some origin =>
      match bound_shards g (anc_room i) cs, bound_shards g (anc_room i) (filter (fun p => p ∈ bs) cs) with
      | Some candidate_shards, Some active_shards =>
          bool_decide (bs ⊆ cs) && bool_decide (anc_publisher i ∉ cs) &&
          forallb (fun s =>
            match placements l !! (i, s) with
            | Some x =>
                (placement_track (placement x) =? anc_track i) && (address_shard (placement_route (placement x)) =? s) && resident x &&
                Bool.eqb (route_installed x) (if s =? bound_shard origin then requires_reverse_route track else bool_decide (s ∈ active_shards))
            | None => false
            end) (bound_shard origin :: candidate_shards)
      | _, _ => false
      end
  | _, _, _, _ => false
  end.

Definition reconcile (l : TrackLifecycle) (i : TrackAncestry) (g : RoomRegistry) (now : Z) : option (TrackLifecycle * TrackLifecycleOutcome) :=
  '(l, gen) ← next_generation l;
  d ← desired_state l i g;
  '(l, origin) ← ensure_destination l i (bound_shard (d_origin d)) now;
  let '(l, track) := ensure_reverse_route l i (d_track d) (placement_route (placement origin)) in
  let d := mkDesired track (d_origin d) (d_candidates d) (d_bindings d) (locations d) in
  l ← reserve_candidate_destinations l i d now;
  let transitions := stage_participant_transitions l i d g in
  '(l, residency) ← reconcile_remote_residency l i d;
  '(l, views) ← stage_active_views l i d;
  let l := release_unused_destinations l i d now in
  let l := with_bindings (<[i := d_bindings d]> (bindings l)) (with_candidates (<[i := d_candidates d]> (candidates l)) l) in
  Some (l, mkOutcome gen (transitions ++ residency ++ views)).

Fixpoint reconcile_all (l : TrackLifecycle) (ids : list TrackAncestry) (g : RoomRegistry) (now : Z) : option (TrackLifecycle * list TrackLifecycleOutcome) :=
  match ids with
  | [] => Some (l, [])
  | i :: ids =>
      '(l, o) ← reconcile l i g now;
      '(l, os) ← reconcile_all l ids g now;
      Some (l, o :: os)
  end.

(** ** Removing a track *)

Definition stage_track_removal (l : TrackLifecycle) (i : TrackAncestry) (g : RoomRegistry) : TrackLifecycle * list TrackLifecycleOperation :=
  let bs := default ∅ (bindings l !! i) in
  let cs := default ∅ (candidates l !! i) in
  let l := with_candidates (delete i (candidates l)) (with_bindings (delete i (bindings l)) l) in
  let t := anc_track i in
  let ended := match locate g (anc_publisher i) with
    | Some at_ => if materialized at_ then
        match placements l !! (i, loc_shard at_) with
        | Some x => if resident x then [Effect (loc_shard at_) (anc_publisher i) (Unpublished t)] else []
        | None => [] end else []
    | None => [] end in
  (l, (sorted bs ≫= stage_track_effect l i g (Unsubscribed t))
      ++ (sorted cs ≫= stage_track_effect l i g (CandidateRemoved t SourceEnded))
      ++ ended
      ++ (sorted (dom (destinations_of l i)) ≫= fun s =>
            match placements l !! (i, s) with Some x => if resident x then stage_shard_withdrawal s x else [] | None => [] end)).

Definition release_placements (l : TrackLifecycle) (i : TrackAncestry) (now : Z) : TrackLifecycle :=
  let l := foldl (fun l sx => release l i now sx) l (map_to_list (destinations_of l i)) in
  with_bindings (delete i (bindings l)) (with_candidates (delete i (candidates l)) l).

(** ** Operations *)

Definition publish (l : TrackLifecycle) (t : Track) (g : RoomRegistry) (now : Z) : option (TrackLifecycle * option TrackLifecycleOutcome) :=
  let '(T, published) := topology_publish track_kind (topology l) t in
  let l := with_topology T l in
  match published with
  | None => Some (l, None)
  | Some i => '(l, o) ← reconcile l i g now; Some (l, Some o)
  end.

Definition unpublish (l : TrackLifecycle) (origin t : Z) (g : RoomRegistry) (now : Z) : option (TrackLifecycle * option TrackLifecycleOutcome) :=
  match locate g origin with
  | None => Some (l, None)
  | Some at_ =>
      let i := mkAncestry (loc_room at_) origin t in
      if negb (contains (topology l) i) then Some (l, None)
      else
        '(l, gen) ← next_generation l;
        let '(l, ops) := stage_track_removal l i g in
        let l := with_topology (topology_unpublish track_kind (topology l) i).1 l in
        Some (release_placements l i now, Some (mkOutcome gen ops))
  end.

Definition activate (l : TrackLifecycle) (i : TrackAncestry) (p : Z) (g : RoomRegistry) (now : Z) : option (TrackLifecycle * TrackLifecycleOutcome) :=
  reconcile (with_topology (topology_activate (topology l) i p).1 l) i g now.
Definition deactivate (l : TrackLifecycle) (i : TrackAncestry) (p : Z) (g : RoomRegistry) (now : Z) : option (TrackLifecycle * TrackLifecycleOutcome) :=
  reconcile (with_topology (topology_deactivate (topology l) i p).1 l) i g now.

(** [id] is the key the slot map gives the subscription. *)
Definition subscribe (l : TrackLifecycle) (room p id : Z) (s : TrackSelector) (policy : SelectionPolicy) (g : RoomRegistry) (now : Z)
    : option (TrackLifecycle * list TrackLifecycleOutcome) :=
  let ids := matching_tracks track_kind (topology l) room s in
  reconcile_all (with_topology (topology_subscribe track_kind (topology l) room id p s policy).1 l) ids g now.

Definition unsubscribe (l : TrackLifecycle) (room p : Z) (s : TrackSelector) (g : RoomRegistry) (now : Z)
    : option (TrackLifecycle * list TrackLifecycleOutcome) :=
  let ids := matching_tracks track_kind (topology l) room s in
  let '(T, removed) := topology_remove_matching track_kind (topology l) room p s in
  match removed with
  | None => Some (with_topology T l, [])
  | Some _ => reconcile_all (with_topology T l) ids g now
  end.

Definition source (l : TrackLifecycle) (room subscriber t : Z) (g : RoomRegistry) : option Track :=
  _ ← bound_in_room g subscriber room;
  track ← Topology.source (topology l) room t;
  if decide (track_origin track = subscriber) then None
  else
    publisher ← get_participant g (track_origin track);
    if negb (meta_materialized publisher) || negb (meta_room publisher =? room) || negb (meta_connection publisher =? connection_id (track_body track))
    then None else Some track.

Definition set_owned_subscription (l : TrackLifecycle) (room p id ref t : Z) (enabled : bool) (g : RoomRegistry) (now : Z)
    : option (TrackLifecycle * list TrackLifecycleOutcome) :=
  match source l room p t g with
  | None => Some (l, [])
  | Some _ =>
      let ids := matching_tracks track_kind (topology l) room (selector_track t) in
      let '(T, changed) := topology_set_owned track_kind (topology l) room id p ref t enabled in
      let l := with_topology T l in
      if changed then reconcile_all l ids g now else Some (l, [])
  end.

Definition unsubscribe_owned (l : TrackLifecycle) (room p ref : Z) (g : RoomRegistry) (now : Z) : option (TrackLifecycle * list TrackLifecycleOutcome) :=
  let '(T, removed) := topology_remove_owned track_kind (topology l) room p ref in
  let l := with_topology T l in
  match removed with
  | None => Some (l, [])
  | Some s => reconcile_all l (matching_tracks track_kind (topology l) room (selector s)) g now
  end.

Definition subscribe_defaults (l : TrackLifecycle) (room p : Z) (ss : list (Z * TrackSelector * SelectionPolicy)) (g : RoomRegistry) (now : Z)
    : option (TrackLifecycle * list TrackLifecycleOutcome) :=
  let T := foldl (fun T '(id, s, policy) => (topology_subscribe track_kind T room id p s policy).1) (topology l) ss in
  let l := with_topology T l in
  reconcile_all l (filter (fun i => anc_room i = room) (identities (topology l))) g now.

Definition remove_participant (l : TrackLifecycle) (p : Z) (g : RoomRegistry) (now : Z) : option (TrackLifecycle * list TrackLifecycleOutcome) :=
  let affected := filter (fun i => anc_publisher i = p \/ p ∈ topology_candidates (topology l) i) (identities (topology l)) in
  let retiring := filter (fun i => anc_publisher i = p) affected in
  '(l, first) ← (match retiring with
    | [] => Some (l, [])
    | _ =>
        '(l, gen) ← next_generation l;
        let '(l, ops) := foldl (fun acc i => let '(l, ops) := stage_track_removal acc.1 i g in (l, acc.2 ++ ops)) (l, []) retiring in
        Some (l, [mkOutcome gen ops])
    end);
  let l := with_topology (topology_remove_participant track_kind (topology l) p) l in
  let l := foldl (fun l i => release_placements l i now) l retiring in
  '(l, rest) ← reconcile_all l (filter (fun i => contains (topology l) i = true) affected) g now;
  Some (l, first ++ rest).
End Lifecycle.
