(* ===== verification/LifecycleLaws.v ===== *)
(** * What the lifecycle's updates do to the shards

    The view a shard has of a track: its routes, its runtime, its plan.
    [books] says that the lifecycle's placements record the views of all shards
    and the slots in use exactly; every step of a reconciliation keeps it, with
    the operations it stages applied to the views.

    A track identity names one publication for good ([owner]), and its publisher
    stays on one shard while the track is published ([home]). *)

From stdpp Require Import sorting.
From S2P Require Import Prelude Route SlotAlloc Room Registry Topology ShardUpdate Lifecycle.

#[export] Instance NodeRouteAddress_countable : Countable NodeRouteAddress.
Proof.
  apply (inj_countable' (fun a => (packed_bits (route_packed (address_route a)), address_epoch a))
    (fun x => mkNodeRouteAddress (mkRouteId (mkPackedRoute x.1)) x.2)). by intros [[[]]].
Defined.

(** ** Sorted sets *)

Lemma elem_of_sorted x (X : gset Z) : x ∈ sorted X <-> x ∈ X.
Proof. unfold sorted. rewrite merge_sort_Permutation. apply elem_of_elements. Qed.
Lemma NoDup_sorted (X : gset Z) : NoDup (sorted X).
Proof. unfold sorted. rewrite merge_sort_Permutation. apply NoDup_elements. Qed.

Lemma unique_acc {K} `{!EqDecision K} (l acc : list K) :
  let r := foldl (fun result v => if decide (v ∈ result) then result else result ++ [v]) acc l in
  (forall x, x ∈ r <-> x ∈ acc \/ x ∈ l) /\ (NoDup acc -> NoDup r).
Proof.
  revert acc. induction l as [|y l IH]; intros acc; cbn.
  - split; [|done]. intros x. split; [by left|]. intros [?|?%elem_of_nil]; done.
  - destruct (IH (if decide (y ∈ acc) then acc else acc ++ [y])) as [H1 H2]. split.
    + intros x. rewrite H1. case_decide; set_solver.
    + intros Hacc. apply H2. case_decide; [done|]. by apply NoDup_snoc.
Qed.
Lemma elem_of_unique {K} `{!EqDecision K} (l : list K) x : x ∈ unique l <-> x ∈ l.
Proof. unfold unique. rewrite (proj1 (unique_acc l [])). set_solver. Qed.
Lemma NoDup_unique {K} `{!EqDecision K} (l : list K) : NoDup (unique l).
Proof. unfold unique. apply (proj2 (unique_acc l [])). constructor. Qed.

Set Default Proof Using "Type".

(** Automation that does not see functions of the context, which it could apply. *)
Ltac drop_kind := repeat match goal with H : Z -> _ |- _ => clear H end.
Tactic Notation "without_kind" tactic3(t) := drop_kind; t.

Section Laws.
Context {E ExternalId Lease : Type}.
Context (track_kind : Z -> TrackKind).

Abbreviation Ancestry := (TrackAncestry (ParticipantId := Z) (RoomId := Z) (TrackId := Z)).
Abbreviation Operation := (TrackLifecycleOperation (E := E)).
Abbreviation Life := (TrackLifecycle (E := E)).
Abbreviation Registry := (RoomRegistry (ParticipantId := Z) (RoomId := Z) (ParticipantExternalId := ExternalId) (AuthorizationLease := Lease)).

Context (owner : Z -> Ancestry) (home : Z -> ShardId).
Implicit Types (l : Life) (i : Ancestry) (g : Registry) (d : DesiredTrackState (E := E)).

(** ** Views *)

Record View := mkView {
  routes : gmap (ShardId * NodeRouteAddress) (TrackRouteAction (TrackId := Z));
  runtimes : gmap (ShardId * Z) (TrackRuntime (ParticipantId := Z) (TrackKind := TrackKind) (SourceEncoding := E) (ParticipantEffect := TrackEffect (E := E)));
  plans : gmap (ShardId * Z) (TrackPlan (ParticipantId := Z));
}.

Definition apply_plan (s : ShardId) (v : View) (u : TrackPlanUpdate (ParticipantId := Z) (TrackId := Z)) : View :=
  mkView (routes v) (runtimes v) (match plan u with Some p => <[(s, plan_track u) := p]> (plans v) | None => delete (s, plan_track u) (plans v) end).

(** What a shard does with an operation. *)
Definition apply_operation (v : View) (o : Operation) : View :=
  match o with
  | Update s (InstallRoute a act) => mkView (<[(s, a) := act]> (routes v)) (runtimes v) (plans v)
  | Update s (RetireRoute a) => mkView (delete (s, a) (routes v)) (runtimes v) (plans v)
  | Update s (InsertTrackRuntime t r) => mkView (routes v) (<[(s, t) := r]> (runtimes v)) (plans v)
  | Update s (RemoveTrackRuntime t) => mkView (routes v) (delete (s, t) (runtimes v)) (plans v)
  | Update _ _ | Effect _ _ _ => v
  | Plans s ps => foldl (apply_plan s) v ps
  end.
Definition apply_operations (v : View) (os : list Operation) : View := foldl apply_operation v os.

Lemma apply_app v a b : apply_operations v (a ++ b) = apply_operations (apply_operations v a) b.
Proof. apply foldl_app. Qed.

(** ** Books *)

Definition address (x : TrackDestination) : NodeRouteAddress := placement_route (placement x).
Definition slot_of (x : TrackDestination) : Z := route_slot (address_route (address x)).
Definition action (s : ShardId) (t : Z) : TrackRouteAction := if decide (s = home t) then Reverse t else Forward t.

Record books (l : Life) (v : View) : Prop := mk_books {
  bk_placed : forall i s x, placements l !! (i, s) = Some x ->
    owner (anc_track i) = i /\ 0 <= s /\ address_shard (address x) = s /\ placement_track (placement x) = anc_track i;
  bk_slots : forall s a, 0 <= s -> allocator l !! Z.to_nat s = Some a ->
    alloc_wf a /\ forall k, live a k <-> exists i x, placements l !! (i, s) = Some x /\ slot_of x = k;
  bk_shard : forall i s x, placements l !! (i, s) = Some x -> is_Some (allocator l !! Z.to_nat s);
  bk_distinct : forall i i' s x x', placements l !! (i, s) = Some x -> placements l !! (i', s) = Some x' -> slot_of x = slot_of x' -> i = i';
  bk_routes : forall s a act, routes v !! (s, a) = Some act <->
    exists i x, placements l !! (i, s) = Some x /\ route_installed x = true /\ address x = a /\ act = action s (anc_track i);
  bk_runtimes : forall s t, is_Some (runtimes v !! (s, t)) <-> exists i x, placements l !! (i, s) = Some x /\ resident x = true /\ anc_track i = t;
  bk_plans : forall s t, is_Some (plans v !! (s, t)) <-> exists i x, placements l !! (i, s) = Some x /\ resident x = true /\ anc_track i = t;
}.

Lemma same_track l v i i' s s' x x' :
  books l v -> placements l !! (i, s) = Some x -> placements l !! (i', s') = Some x' -> anc_track i = anc_track i' -> i = i'.
Proof. intros Hb Hx Hx' E'. destruct (bk_placed _ _ Hb _ _ _ Hx) as [<- _]. destruct (bk_placed _ _ Hb _ _ _ Hx') as [<- _]. by rewrite E'. Qed.

(** A destination changes its state, and the shard's view of the track with it. *)
Lemma books_put l v v' i s x x' :
  books l v -> placements l !! (i, s) = Some x -> placement x' = placement x ->
  routes v' = (if route_installed x' then <[(s, address x) := action s (anc_track i)]> (routes v) else delete (s, address x) (routes v)) ->
  (is_Some (runtimes v' !! (s, anc_track i)) <-> resident x' = true) -> (forall k, k <> (s, anc_track i) -> runtimes v' !! k = runtimes v !! k) ->
  (is_Some (plans v' !! (s, anc_track i)) <-> resident x' = true) -> (forall k, k <> (s, anc_track i) -> plans v' !! k = plans v !! k) ->
  books (with_placements (<[(i, s) := x']> (placements l)) l) v'.
Proof.
  intros Hb Hx Ep Er Hru Hru' Hpl Hpl'. assert (address x' = address x) as Ea by (unfold address; by rewrite Ep).
  assert (slot_of x' = slot_of x) as Es by (unfold slot_of; by rewrite Ea).
  assert (forall i' s' y, <[(i, s) := x']> (placements l) !! (i', s') = Some y ->
    exists y0, placements l !! (i', s') = Some y0 /\ placement y = placement y0 /\ slot_of y = slot_of y0) as Hold.
  { intros i' s' y. rewrite lookup_insert_Some. intros [[[= <- <-] <-]|[_ Hy]]; without_kind eauto. }
  assert (forall (P : TrackDestination -> Prop) s' t, (exists i' y, <[(i, s) := x']> (placements l) !! (i', s') = Some y /\ P y /\ anc_track i' = t) <->
    if decide ((s', t) = (s, anc_track i)) then P x' else exists i' y, placements l !! (i', s') = Some y /\ P y /\ anc_track i' = t) as Hcase.
  { intros P s' t. case_decide as Hd.
    - injection Hd as -> ->. split.
      + intros (i' & y & Hy & HP & Et). rewrite lookup_insert_Some in Hy. destruct Hy as [[[= <-] <-]|[Hne Hy]]; [done|].
        exfalso. apply Hne. by rewrite (same_track l v _ _ _ _ _ _ Hb Hy Hx Et).
      + intros HP. exists i, x'. by rewrite lookup_insert_eq.
    - split; intros (i' & y & Hy & HP & Et); exists i', y; (split; [|done]).
      + rewrite lookup_insert_Some in Hy. destruct Hy as [[[= <- <-] <-]|[_ Hy]]; [by subst|done].
      + rewrite lookup_insert_ne; [done|]. intros [= -> ->]. by subst. }
  destruct Hb as [B1 B2 B3 B4 B5 B6 B7]. split; cbn [placements allocator with_placements].
  - intros i' s' y Hy. destruct (Hold _ _ _ Hy) as (y0 & Hy0 & E0 & _). destruct (B1 _ _ _ Hy0) as (P1 & P2 & P3 & P4).
    unfold address in *. by rewrite E0.
  - intros s' a Hs' Ha. destruct (B2 s' a Hs' Ha) as [W Hl]. split; [done|]. intros k. rewrite Hl. split.
    + intros (i' & y & Hy & Hk). destruct (decide ((i', s') = (i, s))) as [[= -> ->]|Hne].
      * exists i, x'. rewrite lookup_insert_eq. split; [done|]. rewrite Hx in Hy. injection Hy as <-. congruence.
      * exists i', y. by rewrite lookup_insert_ne.
    + intros (i' & y & Hy & Hk). destruct (Hold _ _ _ Hy) as (y0 & Hy0 & _ & E0). exists i', y0. split; [done|congruence].
  - intros i' s' y Hy. destruct (Hold _ _ _ Hy) as (y0 & Hy0 & _). by apply (B3 _ _ _ Hy0).
  - intros i1 i2 s' y y' Hy Hy' E'. destruct (Hold _ _ _ Hy) as (y0 & Hy0 & _ & E0). destruct (Hold _ _ _ Hy') as (y0' & Hy0' & _ & E0').
    apply (B4 _ _ _ _ _ Hy0 Hy0'). congruence.
  - intros s' a act. rewrite Er. transitivity (if decide ((s', a) = (s, address x)) then route_installed x' = true /\ act = action s (anc_track i)
      else routes v !! (s', a) = Some act).
    { case_decide as Hd; [injection Hd as -> ->|]; destruct (route_installed x').
      - rewrite lookup_insert_eq. split; [by intros [= <-]|by intros [_ ->]].
      - rewrite lookup_delete_eq. split; [done|by intros [? _]].
      - by rewrite lookup_insert_ne.
      - by rewrite lookup_delete_ne. }
    case_decide as Hd.
    + injection Hd as -> ->. split.
      * intros [Hi ->]. exists i, x'. by rewrite lookup_insert_eq.
      * intros (i' & y & Hy & Hi & Hadr & ->). destruct (Hold _ _ _ Hy) as (y0 & Hy0 & _ & E0).
        assert (i' = i) as ->. { apply (B4 _ _ _ _ _ Hy0 Hx). rewrite <- E0. unfold slot_of. by rewrite Hadr. }
        rewrite lookup_insert_eq in Hy. by injection Hy as <-.
    + rewrite B5. split; intros (i' & y & Hy & Hi & Hadr & ->); exists i', y; (split; [|done]).
      * rewrite lookup_insert_ne; [done|]. intros [= -> ->]. rewrite Hx in Hy. injection Hy as <-. by subst.
      * rewrite lookup_insert_Some in Hy. destruct Hy as [[[= <- <-] <-]|[_ Hy]]; [|done]. rewrite Ea in Hadr. by subst.
  - intros s' t. rewrite (Hcase (fun y => resident y = true)). case_decide as Hd; [injection Hd as -> ->; done|]. by rewrite Hru', B6.
  - intros s' t. rewrite (Hcase (fun y => resident y = true)). case_decide as Hd; [injection Hd as -> ->; done|]. by rewrite Hpl', B7.
Qed.

Lemma routes_same l v i s x :
  books l v -> placements l !! (i, s) = Some x ->
  routes v = (if route_installed x then <[(s, address x) := action s (anc_track i)]> (routes v) else delete (s, address x) (routes v)).
Proof.
  intros Hb Hx. destruct (route_installed x) eqn:Hi.
  - rewrite insert_id; [done|]. apply (bk_routes _ _ Hb). by exists i, x.
  - rewrite delete_id; [done|]. destruct (routes v !! (s, address x)) as [act|] eqn:Ha; [|done].
    apply (bk_routes _ _ Hb) in Ha as (i' & y & Hy & Hyi & Eadr & _).
    assert (i' = i) as -> by (apply (bk_distinct _ _ Hb _ _ _ _ _ Hy Hx); unfold slot_of; by rewrite Eadr). congruence.
Qed.

Lemma resident_view l v i s x :
  books l v -> placements l !! (i, s) = Some x ->
  (is_Some (runtimes v !! (s, anc_track i)) <-> resident x = true) /\ (is_Some (plans v !! (s, anc_track i)) <-> resident x = true).
Proof.
  intros Hb Hx. assert ((exists i' y, placements l !! (i', s) = Some y /\ resident y = true /\ anc_track i' = anc_track i) <-> resident x = true) as He.
  { split; [|without_kind eauto]. intros (i' & y & Hy & Hr & Et). rewrite (same_track l v _ _ _ _ _ _ Hb Hy Hx Et) in Hy. congruence. }
  by rewrite (bk_runtimes _ _ Hb), (bk_plans _ _ Hb).
Qed.

Lemma placements_id (l : Life) k x : placements l !! k = Some x -> with_placements (<[k := x]> (placements l)) l = l.
Proof. intros Hx. destruct l. unfold with_placements. cbn in *. by rewrite insert_id. Qed.

(** *** The steps of a reconciliation *)

Definition marked (x : TrackDestination) (r inst : bool) : TrackDestination := mkDestination (placement x) r inst.

Lemma marked_same x r inst : resident x = r -> route_installed x = inst -> marked x r inst = x.
Proof. destruct x. by intros <- <-. Qed.

Lemma books_route l v i s x inst :
  books l v -> placements l !! (i, s) = Some x ->
  books (with_placements (<[(i, s) := marked x (resident x) inst]> (placements l)) l)
    (mkView (if inst then <[(s, address x) := action s (anc_track i)]> (routes v) else delete (s, address x) (routes v)) (runtimes v) (plans v)).
Proof. intros Hb Hx. destruct (resident_view _ _ _ _ _ Hb Hx). by eapply books_put. Qed.

Lemma books_withdraw l v i s x :
  books l v -> placements l !! (i, s) = Some x -> resident x = true ->
  books (with_placements (<[(i, s) := marked x false false]> (placements l)) l) (apply_operations v (stage_shard_withdrawal s x)).
Proof.
  intros Hb Hx Hr. destruct (bk_placed _ _ Hb _ _ _ Hx) as (_ & _ & _ & Et).
  assert (routes (apply_operations v (stage_shard_withdrawal s x)) = delete (s, address x) (routes v) /\
    runtimes (apply_operations v (stage_shard_withdrawal s x)) = delete (s, anc_track i) (runtimes v) /\
    plans (apply_operations v (stage_shard_withdrawal s x)) = delete (s, anc_track i) (plans v)) as (E1 & E2 & E3).
  { unfold stage_shard_withdrawal. rewrite Et, !apply_app. destruct (route_installed x) eqn:Hi; cbn; [done|]. split; [|done].
    pose proof (routes_same _ _ _ _ _ Hb Hx) as Hs. by rewrite Hi in Hs. }
  eapply books_put; [exact Hb|exact Hx|done|done|..]; rewrite ?E2, ?E3.
  - rewrite lookup_delete_eq. split; [by intros []|done].
  - intros k Hk. by rewrite lookup_delete_ne.
  - rewrite lookup_delete_eq. split; [by intros []|done].
  - intros k Hk. by rewrite lookup_delete_ne.
Qed.

(** A shard gets the track's runtime and its plan. *)
Lemma books_view l v i s x r :
  books l v -> placements l !! (i, s) = Some x -> rp_shard r = s -> rp_track_id r = anc_track i ->
  let v' := apply_operations v (stage_runtime_and_plan track_kind r) in
  books (with_placements (<[(i, s) := marked x true (route_installed x)]> (placements l)) l) v' /\
  plans v' = <[(s, anc_track i) := plan_new (rp_local r) (rp_remote r) (rp_reverse r)]> (plans v) /\ routes v' = routes v.
Proof.
  intros Hb Hx Es Et. cbn zeta. unfold stage_runtime_and_plan. rewrite Es, Et. cbn [apply_operations foldl apply_operation stage_plan stage_plans apply_plan plan plan_track routes runtimes plans].
  split; [|done]. eapply books_put; [exact Hb|exact Hx|done|cbn [routes route_installed marked]; by apply (routes_same l v i s x)|..]; unfold apply_plan; cbn [runtimes plans plan plan_track].
  - rewrite lookup_insert_eq. split; [done|by eexists].
  - intros k Hk. by rewrite lookup_insert_ne.
  - rewrite lookup_insert_eq. split; [done|by eexists].
  - intros k Hk. by rewrite lookup_insert_ne.
Qed.

Lemma home_action (i : Ancestry) s : s <> home (anc_track i) -> action s (anc_track i) = Forward (anc_track i).
Proof. intros Hs. unfold action. by rewrite decide_False. Qed.

Lemma residency_step l v ops i d s x l' ops' :
  books l v -> placements l !! (i, s) = Some x -> s <> home (anc_track i) -> (s ∈ active_remote_shards d -> s ∈ candidate_remote_shards d) ->
  reconcile_residency i d (l, ops) (s, x) = Some (l', ops') ->
  exists new x', ops' = ops ++ new /\ l' = with_placements (<[(i, s) := x']> (placements l)) l /\ books l' (apply_operations v new) /\
    placement x' = placement x /\ route_installed x' = bool_decide (s ∈ active_remote_shards d) /\
    (s ∉ candidate_remote_shards d -> resident x' = false).
Proof.
  intros Hb Hx Hh Hsub. destruct (bk_placed _ _ Hb _ _ _ Hx) as (_ & _ & _ & Et).
  unfold reconcile_residency, set_destination_state, set_route_installed, set_destination. rewrite Hx. cbn [mbind option_bind].
  destruct (resident x && negb (bool_decide (s ∈ candidate_remote_shards d))) eqn:H1; [|destruct (negb (route_installed x) && bool_decide (s ∈ active_remote_shards d)) eqn:H2;
    [|destruct (route_installed x && negb (bool_decide (s ∈ active_remote_shards d))) eqn:H3]]; intros [= <- <-].
  - apply andb_true_iff in H1 as [Hr Hc%negb_true_iff%bool_decide_eq_false]. exists (stage_shard_withdrawal s x), (marked x false false). split_and!; try done.
    + by apply books_withdraw.
    + cbn. symmetry. apply bool_decide_eq_false. without_kind tauto.
  - apply andb_true_iff in H2 as [Hi%negb_true_iff Ha]. eexists [_], (marked x (resident x) true). split_and!; try done.
    + pose proof (books_route l v i s x true Hb Hx) as Hbr. rewrite home_action in Hbr by done. cbn. by rewrite Et.
    + intros Hc. cbn. apply andb_false_iff in H1 as [?|H1]; [done|]. by rewrite (bool_decide_false _ Hc) in H1.
  - apply andb_true_iff in H3 as [Hi Ha%negb_true_iff]. eexists [_], (marked x (resident x) false). split_and!; try done.
    + exact (books_route l v i s x false Hb Hx).
    + intros Hc. cbn. apply andb_false_iff in H1 as [?|H1]; [done|]. by rewrite (bool_decide_false _ Hc) in H1.
  - exists [], x. rewrite app_nil_r, placements_id by done. split_and!; try done.
    + destruct (route_installed x), (bool_decide (s ∈ active_remote_shards d)); done.
    + intros Hc. apply andb_false_iff in H1 as [?|H1]; [done|]. by rewrite (bool_decide_false _ Hc) in H1.
Qed.

(** The same lifecycle up to the destinations of [i]. *)
Definition only (i : Ancestry) (l l' : Life) : Prop :=
  l' = with_placements (placements l') l /\ forall k, k.1 <> i -> placements l' !! k = placements l !! k.

Lemma only_refl i l : only i l l.
Proof. split; [by destruct l|done]. Qed.
Lemma only_put i s x l : only i l (with_placements (<[(i, s) := x]> (placements l)) l).
Proof. split; [done|]. intros [j s'] Hne. cbn in *. rewrite lookup_insert_ne; [done|]. by intros [= -> ->]. Qed.
Lemma only_trans i l1 l2 l3 : only i l1 l2 -> only i l2 l3 -> only i l1 l3.
Proof. intros [E1 P1] [E2 P2]. split; [rewrite E2, E1; done|]. intros k Hk. by rewrite P2, P1. Qed.

Lemma residencies_spec i d xs l v ops l' ops' :
  books l v -> NoDup xs.*1 -> (forall s x, (s, x) ∈ xs -> placements l !! (i, s) = Some x /\ s <> home (anc_track i)) ->
  (forall s, s ∈ active_remote_shards d -> s ∈ candidate_remote_shards d) ->
  reconcile_residencies i d (l, ops) xs = Some (l', ops') ->
  exists new, ops' = ops ++ new /\ books l' (apply_operations v new) /\ only i l l' /\
    (forall s, s ∉ xs.*1 -> placements l' !! (i, s) = placements l !! (i, s)) /\
    (forall s x, (s, x) ∈ xs -> exists x', placements l' !! (i, s) = Some x' /\ placement x' = placement x /\
       route_installed x' = bool_decide (s ∈ active_remote_shards d) /\ (s ∉ candidate_remote_shards d -> resident x' = false)).
Proof.
  revert l v ops. induction xs as [|[s x] xs IH]; intros l v ops Hb Hnd Hxs Hsub; cbn [reconcile_residencies fmap list_fmap].
  - intros [= <- <-]. exists []. rewrite app_nil_r. split_and!; try done; [apply only_refl|]. intros s x Hin. by apply elem_of_nil in Hin.
  - apply NoDup_cons in Hnd as [Hs Hnd]. destruct (Hxs s x) as [Hx Hh]; [by left|].
    destruct (reconcile_residency i d (l, ops) (s, x)) as [[l1 ops1]|] eqn:H1; [|done]. cbn [mbind option_bind]. intros Hgo.
    destruct (residency_step l v ops i d s x l1 ops1 Hb Hx Hh (Hsub s) H1) as (new & x' & -> & -> & Hb1 & Ep & Ei & Er).
    assert (forall s' y, (s', y) ∈ xs -> placements (with_placements (<[(i, s) := x']> (placements l)) l) !! (i, s') = Some y /\ s' <> home (anc_track i)) as Hxs'.
    { intros s' y Hy. destruct (Hxs s' y) as [Hy' Hh']; [by right|]. split; [|done]. cbn. rewrite lookup_insert_ne; [done|].
      intros [= <-]. apply Hs, list_elem_of_fmap. by exists (s, y). }
    destruct (IH _ _ _ Hb1 Hnd Hxs' Hsub Hgo) as (new' & -> & Hb2 & Ho & Hout & Hin).
    exists (new ++ new'). rewrite app_assoc, apply_app. split_and!; try done.
    + eapply only_trans; [apply only_put|done].
    + intros s' Hs'. apply not_elem_of_cons in Hs' as [Hne Hs']. rewrite Hout by done. cbn. rewrite lookup_insert_ne; [done|]. by intros [= ->].
    + intros s' y Hy. apply elem_of_cons in Hy as [[= -> ->]|Hy]; [|by apply Hin].
      exists x'. rewrite Hout by done. cbn. rewrite lookup_insert_eq. done.
Qed.

(** A destination that is not what is looked for makes no difference. *)
Lemma placed_insert (m : gmap (Ancestry * ShardId) TrackDestination) i s x (P : Ancestry -> TrackDestination -> Prop) s' :
  m !! (i, s) = None -> (s' = s -> ~ P i x) ->
  (exists i' y, <[(i, s) := x]> m !! (i', s') = Some y /\ P i' y) <-> (exists i' y, m !! (i', s') = Some y /\ P i' y).
Proof.
  intros Hm HP. split; intros (i' & y & Hy & Hp); exists i', y; (split; [|done]).
  - rewrite lookup_insert_Some in Hy. destruct Hy as [[[= <- <-] <-]|[_ Hy]]; [by destruct HP|done].
  - rewrite lookup_insert_ne; [done|]. intros [= <- <-]. congruence.
Qed.
Lemma placed_delete (m : gmap (Ancestry * ShardId) TrackDestination) i s x (P : Ancestry -> TrackDestination -> Prop) s' :
  m !! (i, s) = Some x -> (s' = s -> ~ P i x) ->
  (exists i' y, delete (i, s) m !! (i', s') = Some y /\ P i' y) <-> (exists i' y, m !! (i', s') = Some y /\ P i' y).
Proof.
  intros Hm HP. split; intros (i' & y & Hy & Hp); exists i', y; (split; [|done]).
  - rewrite lookup_delete_Some in Hy. by destruct Hy.
  - rewrite lookup_delete_ne; [done|]. intros [= <- <-]. rewrite Hm in Hy. injection Hy as <-. by destruct HP.
Qed.

Lemma ensure_spec l v i s now l' x :
  books l v -> owner (anc_track i) = i -> 0 <= s -> ensure_destination l i s now = Some (l', x) ->
  books l' v /\ placements l' !! (i, s) = Some x /\ (topology l', candidates l', bindings l', generation l') = (topology l, candidates l, bindings l, generation l) /\
  (forall k, k <> (i, s) -> placements l' !! k = placements l !! k) /\ (placements l !! (i, s) = None -> resident x = false /\ route_installed x = false) /\
  (forall y, placements l !! (i, s) = Some y -> x = y).
Proof.
  intros Hb Ho Hs. unfold ensure_destination. destruct (placements l !! (i, s)) as [y|] eqn:Hy.
  { intros [= <- <-]. split_and!; try done. by intros ? [= ->]. }
  unfold placement_allocate. destruct (allocator l !! Z.to_nat s) as [a|] eqn:Ha; [|done]. cbn [mbind option_bind].
  destruct (allocate a now) as [[a' [k epoch]]|] eqn:Hal; [|done]. cbn [mbind option_bind].
  destruct (route_new s k) as [r|] eqn:Hr; [|done]. cbn [mbind option_bind]. intros [= <- <-].
  destruct (bk_slots _ _ Hb s a Hs Ha) as [Hwf Hlive]. destruct (allocate_gives_unused_slot a now a' k epoch Hwf Hal) as (N1 & N2 & N3 & _ & N5).
  assert (route_shard r = s /\ route_slot r = k) as [R1 R2].
  { unfold route_new in Hr. assert (s <= PackedRoute.MAX_SHARD).
    { unfold PackedRoute.new in Hr. destruct (Z.leb_spec k PackedRoute.MAX_SLOT); [|done]. destruct (Z.leb_spec s PackedRoute.MAX_SHARD); [done|done]. }
    destruct (packed_new_spec s k) as [E1 _]; [done..|]. rewrite E1 in Hr. injection Hr as <-. by destruct (packed_mk_shard_slot s k) as (_ & ? & ?). }
  set (x := reserved (mkPlacement (anc_track i) (mkNodeRouteAddress r epoch))).
  assert (slot_of x = k) as Hsl by done. assert (address_shard (address x) = s) as Hsh by done.
  pose proof (lookup_lt_Some _ _ _ Ha) as Hlen.
  cbn [placements with_placements topology candidates bindings generation with_allocator]. split; [|split_and!; try done; [by rewrite lookup_insert_eq|intros k' Hk'; by rewrite lookup_insert_ne]].
  assert (forall s' y0, placements l !! (i, s') = Some y0 -> s' <> s) as Hnew by (intros s' y0 H0 ->; congruence).
  destruct Hb as [B1 B2 B3 B4 B5 B6 B7]. split; cbn [placements allocator with_placements with_allocator].
  - intros i' s' y. rewrite lookup_insert_Some. intros [[[= <- <-] <-]|[_ H0]]; [done|by apply B1].
  - intros s' b Hs' Hb'. rewrite list_lookup_insert_dec in Hb' by done. case_decide as Hd.
    + injection Hb' as <-. assert (s' = s) as -> by lia. split; [by eapply allocate_wf|]. intros k'. destruct (decide (k' = k)) as [->|Hne].
      * split; [|done]. intros _. exists i, x. by rewrite lookup_insert_eq.
      * rewrite N5, Hlive by done. split; intros (i' & y & H0 & Hk); exists i', y; (split; [|done]).
        -- rewrite lookup_insert_ne; [done|]. intros [= <-]. congruence.
        -- rewrite lookup_insert_Some in H0. destruct H0 as [[[= <-] <-]|[_ H0]]; [|done]. by rewrite Hsl in Hk.
    + assert (s' <> s) by (by intros ->). destruct (B2 s' b Hs' Hb') as [W Hl]. split; [done|]. intros k'. rewrite Hl.
      split; intros (i' & y & H0 & Hk); exists i', y; (split; [|done]).
      * rewrite lookup_insert_ne; [done|]. congruence.
      * rewrite lookup_insert_ne in H0; [done|]. congruence.
  - intros i' s' y. rewrite lookup_insert_Some, list_lookup_insert_dec by done. intros [[[= <- <-] <-]|[_ H0]]; case_decide; without_kind eauto.
  - intros i1 i2 s' y y'. rewrite !lookup_insert_Some. intros [[[= <- <-] <-]|[_ H0]] [[E' <-]|[_ H0']] Es; try done.
    + by injection E'.
    + exfalso. apply N1, Hlive. exists i2, y'. split; [done|]. by rewrite <- Es.
    + injection E' as <- <-. exfalso. apply N1, Hlive. exists i1, y. split; [done|]. by rewrite Es.
    + by apply (B4 _ _ _ _ _ H0 H0').
  - intros s' adr act. rewrite B5. symmetry. apply (placed_insert (placements l) i s x (fun i' y => _ /\ _ = adr /\ act = action s' _)); [done|]. by intros _ [? _].
  - intros s' t. rewrite B6. symmetry. apply (placed_insert (placements l) i s x (fun i' y => resident y = true /\ anc_track i' = t)); [done|]. by intros _ [? _].
  - intros s' t. rewrite B7. symmetry. apply (placed_insert (placements l) i s x (fun i' y => resident y = true /\ anc_track i' = t)); [done|]. by intros _ [? _].
Qed.

Definition frame (l : Life) := (topology l, candidates l, bindings l, generation l).

Lemma reserve_spec i now ss l v l' :
  books l v -> owner (anc_track i) = i -> Forall (fun s => 0 <= s) ss -> reserve_destinations l i ss now = Some l' ->
  books l' v /\ frame l' = frame l /\ (forall k, k.1 <> i -> placements l' !! k = placements l !! k) /\
  (forall s x, placements l !! (i, s) = Some x -> placements l' !! (i, s) = Some x) /\ (forall s, s ∈ ss -> is_Some (placements l' !! (i, s))) /\
  (forall s x, placements l' !! (i, s) = Some x -> placements l !! (i, s) = Some x \/ (s ∈ ss /\ resident x = false /\ route_installed x = false)).
Proof.
  revert l. induction ss as [|s ss IH]; intros l Hb Ho Hss; cbn [reserve_destinations].
  - intros [= <-]. split_and!; try done; [|by left]. intros s Hs. by apply elem_of_nil in Hs.
  - apply Forall_cons in Hss as [Hs Hss]. destruct (ensure_destination l i s now) as [[l1 x]|] eqn:He; [|done]. cbn [mbind option_bind]. intros Hgo.
    destruct (ensure_spec l v i s now l1 x Hb Ho Hs He) as (Hb1 & H1 & F1 & O1 & N1 & S1).
    destruct (IH l1 Hb1 Ho Hss Hgo) as (Hb2 & F2 & O2 & K2 & I2 & W2).
    assert (forall s' y, placements l !! (i, s') = Some y -> placements l1 !! (i, s') = Some y) as K1.
    { intros s' y Hy. destruct (decide (s' = s)) as [->|Hne]; [by rewrite H1, (S1 y Hy)|]. rewrite O1; [done|]. by intros [= ->]. }
    split_and!; [done|unfold frame in *; congruence|..].
    + intros k Hk. rewrite O2, O1; [done|by intros ->|done].
    + intros s' y Hy. by apply K2, K1.
    + intros s' Hs'. apply elem_of_cons in Hs' as [->|Hs']; [|by apply I2]. exists x. by apply K2.
    + intros s' y Hy. destruct (W2 s' y Hy) as [Hy1|(Hin & Hr)]; [|right; split; [by right|done]].
      destruct (decide (s' = s)) as [->|Hne]; [|left; rewrite <- O1; [done|by intros [= ->]]].
      rewrite H1 in Hy1. injection Hy1 as <-. destruct (placements l !! (i, s)) as [y|] eqn:Hy0; [left; by rewrite (S1 y)|].
      right. split; [by left|by apply N1].
Qed.

Lemma retire_live a k now k' : live a k -> live (retire a k now) k' <-> live a k' /\ k' <> k.
Proof.
  intros [H0 Hq]. unfold retire. rewrite Hq. unfold live. cbn [quarantined]. pose proof (lookup_lt_Some _ _ _ Hq) as Hlt.
  rewrite list_lookup_insert_dec by done. case_decide as Hd; [|split; intros; [split; [without_kind tauto|by intros ->]|without_kind tauto]].
  split; [by intros [_ ?]|]. intros [[H1 _] Hne]. lia.
Qed.

Lemma release_spec l v i s x now :
  books l v -> placements l !! (i, s) = Some x -> resident x = false -> route_installed x = false -> books (release l i now (s, x)) v.
Proof.
  intros Hb Hx Hr Hi. destruct (bk_placed _ _ Hb _ _ _ Hx) as (_ & Hs & Hsh & _). destruct (bk_shard _ _ Hb _ _ _ Hx) as [a Ha].
  destruct (bk_slots _ _ Hb s a Hs Ha) as [Hwf Hlive]. assert (live a (slot_of x)) as Hl by (apply Hlive; by exists i, x).
  pose proof (lookup_lt_Some _ _ _ Ha) as Hlen.
  assert (placement_release (allocator l) (placement x) now = <[Z.to_nat s := retire a (slot_of x) now]> (allocator l)) as Erel.
  { unfold placement_release. fold (address x). rewrite Hsh, Ha. done. }
  unfold release. cbn [fst snd]. rewrite Erel.
  assert (forall s' i' y, delete (i, s) (placements l) !! (i', s') = Some y -> placements l !! (i', s') = Some y) as Hold.
  { intros s' i' y. rewrite lookup_delete_Some. by intros [_ ?]. }
  destruct Hb as [B1 B2 B3 B4 B5 B6 B7]. split; cbn [placements allocator with_placements with_allocator].
  - intros i' s' y Hy. by apply B1, Hold.
  - intros s' b Hs' Hb'. rewrite list_lookup_insert_dec in Hb' by done. case_decide as Hd.
    + injection Hb' as <-. assert (s' = s) as -> by lia. split; [apply retire_wf; [done|apply Hl]|]. intros k. rewrite retire_live, Hlive by done. split.
      * intros [(i' & y & Hy & Hk) Hne]. exists i', y. split; [|done]. rewrite lookup_delete_ne; [done|]. intros [= <-]. rewrite Hx in Hy. by injection Hy as <-.
      * intros (i' & y & Hy & Hk). split; [exists i', y; split; [by apply Hold|done]|]. intros ->. rewrite lookup_delete_Some in Hy. destruct Hy as [Hne Hy].
        apply Hne. by rewrite (B4 _ _ _ _ _ Hy Hx Hk).
    + assert (s' <> s) by (by intros ->). destruct (B2 s' b Hs' Hb') as [W Hl']. split; [done|]. intros k. rewrite Hl'. symmetry.
      apply (placed_delete (placements l) i s x (fun _ y => slot_of y = k)); [done|]. by intros ->.
  - intros i' s' y Hy. apply Hold, B3 in Hy. rewrite list_lookup_insert_dec by done. case_decide; without_kind eauto.
  - intros i1 i2 s' y y' Hy Hy'. apply Hold in Hy, Hy'. by apply (B4 _ _ _ _ _ Hy Hy').
  - intros s' adr act. rewrite B5. symmetry. apply (placed_delete (placements l) i s x (fun i' y => _ /\ _ = adr /\ act = action s' _)); [done|]. intros _ [? _]. congruence.
  - intros s' t. rewrite B6. symmetry. apply (placed_delete (placements l) i s x (fun i' y => resident y = true /\ anc_track i' = t)); [done|]. intros _ [? _]. congruence.
  - intros s' t. rewrite B7. symmetry. apply (placed_delete (placements l) i s x (fun i' y => resident y = true /\ anc_track i' = t)); [done|]. intros _ [? _]. congruence.
Qed.

Lemma releases_spec i now xs l v :
  books l v -> NoDup xs.*1 ->
  (forall s x, (s, x) ∈ xs -> placements l !! (i, s) = Some x /\ resident x = false /\ route_installed x = false) ->
  let l' := foldl (fun l sx => release l i now sx) l xs in
  books l' v /\ frame l' = frame l /\ (forall k, k.1 <> i \/ k.2 ∉ xs.*1 -> placements l' !! k = placements l !! k) /\
  (forall s, s ∈ xs.*1 -> placements l' !! (i, s) = None).
Proof.
  revert l. induction xs as [|[s x] xs IH]; intros l Hb Hnd Hxs; cbn [foldl fmap list_fmap fst].
  - split_and!; try done. intros s Hs. by apply elem_of_nil in Hs.
  - apply NoDup_cons in Hnd as [Hs Hnd]. destruct (Hxs s x) as (Hx & Hr & Hi); [by left|].
    destruct (IH (release l i now (s, x))) as (Hb2 & F2 & O2 & D2); [by apply release_spec|done| |].
    { intros s' y Hy. destruct (Hxs s' y) as (Hy' & ?); [by right|]. split; [|done]. cbn. rewrite lookup_delete_ne; [done|].
      intros [= <-]. apply Hs, list_elem_of_fmap. by exists (s, y). }
    split_and!; [done|done|..].
    + intros [j s'] Hk. cbn [fst snd] in Hk. rewrite O2 by (cbn; without_kind set_solver). cbn. rewrite lookup_delete_ne; [done|]. intros [= -> ->]. without_kind set_solver.
    + intros s' Hs'. destruct (decide (s' ∈ xs.*1)) as [Hin|Hout]; [by apply D2|]. rewrite O2 by (by right).
      apply elem_of_cons in Hs' as [->|]; [|done]. cbn. by rewrite lookup_delete_eq.
Qed.

(** The views of the receiving shards. *)
Lemma remote_views_spec i d ss l v l' ops :
  books l v -> NoDup ss -> stage_remote_views track_kind l i d ss = Some (l', ops) ->
  let v' := apply_operations v ops in
  books l' v' /\ only i l l' /\ routes v' = routes v /\
  (forall s, s ∉ ss -> placements l' !! (i, s) = placements l !! (i, s)) /\
  (forall s, s ∈ ss -> exists x, placements l !! (i, s) = Some x /\ placements l' !! (i, s) = Some (marked x true (route_installed x)) /\
     plans v' !! (s, anc_track i) = Some (plan_new (local_bindings d s) [] (reverse (track_body (d_track d))))) /\
  (forall k, k.1 ∉ ss -> plans v' !! k = plans v !! k).
Proof.
  revert l v ops. induction ss as [|s ss IH]; intros l v ops Hb Hnd; cbn [stage_remote_views].
  - intros [= <- <-]. split_and!; try done; [apply only_refl|]. intros s Hs. by apply elem_of_nil in Hs.
  - apply NoDup_cons in Hnd as [Hs Hnd]. destruct (placements l !! (i, s)) as [x|] eqn:Hx; [|done]. cbn [mbind option_bind].
    unfold set_resident, set_destination. rewrite Hx. cbn [mbind option_bind]. set (r := mkRuntimePlan _ _ _ _ _ _ _).
    destruct (stage_remote_views _ _ _ _ _) as [[l2 rest]|] eqn:Hgo; [|done]. cbn [mbind option_bind]. intros [<- <-]%(inj Some)%pair_equal_spec.
    destruct (bk_placed _ _ Hb _ _ _ Hx) as (_ & _ & _ & Et).
    destruct (books_view l v i s x r Hb Hx eq_refl Et) as (Hb1 & P1 & R1). cbn [rp_local rp_remote rp_reverse r] in P1.
    destruct (IH _ _ _ Hb1 Hnd Hgo) as (Hb2 & O2 & R2 & K2 & I2 & P2). cbn zeta. rewrite apply_app. split_and!; [done| |congruence|..].
    + eapply only_trans; [apply only_put|done].
    + intros s' Hs'. apply not_elem_of_cons in Hs' as [Hne Hs']. rewrite K2 by done. cbn. rewrite lookup_insert_ne; [done|]. by intros [= ->].
    + intros s' Hs'. apply elem_of_cons in Hs' as [->|Hs'].
      * exists x. rewrite K2, P2, P1 by done. cbn. by rewrite !lookup_insert_eq.
      * destruct (I2 s' Hs') as (y & Y1 & Y2 & Y3). exists y. split; [|done]. cbn in Y1. rewrite lookup_insert_ne in Y1; [done|]. by intros [= ->].
    + intros [s' t] Hk. cbn in Hk. apply not_elem_of_cons in Hk as [Hne Hk]. rewrite P2, P1 by done. rewrite lookup_insert_ne; [done|]. congruence.
Qed.

Lemma elem_of_remote_shards (d : DesiredTrackState (E := E)) ps s :
  s ∈ remote_shards d ps <-> s <> bound_shard (d_origin d) /\ exists p b, p ∈ ps /\ locations d !! p = Some b /\ bound_shard b = s.
Proof.
  unfold remote_shards. rewrite elem_of_sorted, elem_of_list_to_set, list_elem_of_filter, list_elem_of_omap. split.
  - intros [Hne (p & Hp%elem_of_elements & Hs)]. split; [done|]. destruct (locations d !! p) as [b|] eqn:Hb; [|done]. injection Hs as <-. without_kind eauto.
  - intros [Hne (p & b & Hp & Hb & <-)]. split; [done|]. exists p. rewrite elem_of_elements, Hb. done.
Qed.
Lemma NoDup_remote_shards (d : DesiredTrackState (E := E)) ps : NoDup (remote_shards d ps).
Proof. apply NoDup_sorted. Qed.

(** What the shards have of a track after its views were staged. *)
Record viewed (i : Ancestry) (d : DesiredTrackState (E := E)) (l : Life) (v : View) : Prop := mk_viewed {
  vw_home : exists x, placements l !! (i, bound_shard (d_origin d)) = Some x /\ resident x = true;
  vw_remote : forall s, s ∈ candidate_remote_shards d -> exists x, placements l !! (i, s) = Some x /\ resident x = true;
  vw_plan : exists remote, plans v !! (bound_shard (d_origin d), anc_track i) = Some (plan_new (local_bindings d (bound_shard (d_origin d))) remote (reverse (track_body (d_track d)))) /\
    forall a, a ∈ remote <-> exists s x, s ∈ active_remote_shards d /\ placements l !! (i, s) = Some x /\ address x = a;
  vw_remote_plan : forall s, s ∈ candidate_remote_shards d -> plans v !! (s, anc_track i) = Some (plan_new (local_bindings d s) [] (reverse (track_body (d_track d))));
}.

(** The origin's route is there before its plan is staged, if it needs one. *)
Lemma origin_route_spec l v i (d : DesiredTrackState (E := E)) x l' ops :
  books l v -> bound_shard (d_origin d) = home (anc_track i) -> placements l !! (i, home (anc_track i)) = Some x ->
  (if requires_reverse_route (d_track d) && negb (route_installed x) then
      l ← set_route_installed l i (home (anc_track i)) true;
      Some (l, [Update (home (anc_track i)) (InstallRoute (placement_route (placement x)) (Reverse (placement_track (placement x))))])
    else Some (l, [])) = Some (l', ops) ->
  books l' (apply_operations v ops) /\ only i l l' /\
  placements l' !! (i, home (anc_track i)) = Some (marked x (resident x) (requires_reverse_route (d_track d) || route_installed x)) /\
  (forall s, s <> home (anc_track i) -> placements l' !! (i, s) = placements l !! (i, s)).
Proof.
  intros Hb Hh Hx. destruct (bk_placed _ _ Hb _ _ _ Hx) as (_ & _ & _ & Et). destruct (_ && _) eqn:Hq.
  - unfold set_route_installed, set_destination. rewrite Hx. cbn [mbind option_bind]. intros [= <- <-]. split_and!.
    + pose proof (books_route l v i (home (anc_track i)) x true Hb Hx) as Hr. unfold action in Hr. rewrite decide_True in Hr by done. cbn. by rewrite Et.
    + apply only_put.
    + cbn. rewrite lookup_insert_eq. by apply andb_true_iff in Hq as [-> _].
    + intros s Hs. cbn. rewrite lookup_insert_ne; [done|]. congruence.
  - intros [= <- <-]. split_and!; try done; [apply only_refl|]. rewrite marked_same; [done..|]. by destruct (requires_reverse_route _), (route_installed x).
Qed.

Lemma active_views_spec l v i (d : DesiredTrackState (E := E)) l' ops :
  books l v -> bound_shard (d_origin d) = home (anc_track i) -> (forall s, s ∈ active_remote_shards d -> s ∈ candidate_remote_shards d) ->
  stage_active_views track_kind l i d = Some (l', ops) ->
  books l' (apply_operations v ops) /\ only i l l' /\ viewed i d l' (apply_operations v ops) /\
  (forall s, s <> home (anc_track i) -> s ∉ candidate_remote_shards d -> placements l' !! (i, s) = placements l !! (i, s)) /\
  (forall s x, placements l !! (i, s) = Some x -> s <> home (anc_track i) -> exists x', placements l' !! (i, s) = Some x' /\ placement x' = placement x /\ route_installed x' = route_installed x) /\
  (exists x x', placements l !! (i, home (anc_track i)) = Some x /\ placements l' !! (i, home (anc_track i)) = Some x' /\
     route_installed x' = requires_reverse_route (d_track d) || route_installed x).
Proof.
  intros Hb Hh Hsub. unfold stage_active_views. rewrite Hh. destruct (placements l !! (i, home (anc_track i))) as [x|] eqn:Hx; [|done]. cbn [mbind option_bind].
  destruct (if requires_reverse_route (d_track d) && negb (route_installed x) then _ else _) as [[l1 install]|] eqn:H1; [|done]. cbn [mbind option_bind].
  destruct (origin_route_spec l v i d x l1 install Hb Hh Hx H1) as (Hb1 & O1 & Hx1 & K1).
  destruct (mapM _ (active_remote_shards d)) as [remote|] eqn:Hm; [|done]. cbn [mbind option_bind].
  unfold set_resident, set_destination. rewrite Hx1. cbn [mbind option_bind]. set (r := mkRuntimePlan _ _ _ _ _ _ _).
  destruct (stage_remote_views _ _ _ _ _) as [[l2 rest]|] eqn:Hgo; [|done]. cbn [mbind option_bind]. intros [<- <-]%(inj Some)%pair_equal_spec.
  set (announce := if resident x then [] else _).
  destruct (bk_placed _ _ Hb _ _ _ Hx) as (_ & _ & _ & Et).
  destruct (books_view l1 _ i (home (anc_track i)) _ r Hb1 Hx1 eq_refl Et) as (Hb2 & P2 & R2). cbn [rp_local rp_remote rp_reverse r] in P2.
  rewrite !apply_app. set (v1 := apply_operations v install) in *. set (v2 := apply_operations v1 (stage_runtime_and_plan track_kind r)) in *.
  assert (apply_operations v2 announce = v2) as -> by (unfold announce; by destruct (resident x)).
  destruct (remote_views_spec i d (candidate_remote_shards d) _ v2 _ _ Hb2 (NoDup_remote_shards d _) Hgo) as (Hb3 & O3 & R3 & K3 & I3 & P3).
  assert (home (anc_track i) ∉ candidate_remote_shards d) as Hnot.
  { unfold candidate_remote_shards. rewrite elem_of_remote_shards, Hh. without_kind tauto. }
  assert (forall s y, placements l !! (i, s) = Some y -> s <> home (anc_track i) -> exists y', placements l2 !! (i, s) = Some y' /\ placement y' = placement y /\ route_installed y' = route_installed y) as Hsame.
  { intros s y Hy Hne. destruct (decide (s ∈ candidate_remote_shards d)) as [Hin|Hout].
    - destruct (I3 s Hin) as (y' & Y1 & Y2 & _). cbn in Y1. rewrite lookup_insert_ne, K1, Hy in Y1 by congruence. injection Y1 as <-. eexists. split; [done|]. done.
    - exists y. rewrite K3 by done. cbn. rewrite lookup_insert_ne, K1 by congruence. done. }
  split_and!; [done| | | |done|].
  - eapply only_trans; [done|]. eapply only_trans; [apply only_put|done].
  - split; rewrite ?Hh.
    + eexists. rewrite K3 by done. cbn. rewrite lookup_insert_eq. done.
    + intros s Hs. destruct (I3 s Hs) as (y & _ & Y2 & _). eexists. split; [done|]. done.
    + exists remote. split; [rewrite P3, P2 by done; by rewrite lookup_insert_eq|].
      apply mapM_Some in Hm. intros a. split.
      * intros Ha. destruct (list_elem_of_lookup_1 _ _ Ha) as [k Hk]. destruct (Forall2_lookup_r _ _ _ _ _ Hm Hk) as (s & Hs & Hy).
        apply list_elem_of_lookup_2 in Hs. destruct (placements l1 !! (i, s)) as [y|] eqn:E1; [|done]. injection Hy as <-.
        assert (s <> home (anc_track i)) as Hne by (intros ->; by apply Hnot, Hsub). rewrite K1 in E1 by done.
        destruct (Hsame s y E1 Hne) as (y' & Y1 & Y2 & _). exists s, y'. unfold address. by rewrite Y2.
      * intros (s & y' & Hs & Hy' & <-). destruct (list_elem_of_lookup_1 _ _ Hs) as [k Hk]. destruct (Forall2_lookup_l _ _ _ _ _ Hm Hk) as (a & Ha & Hy).
        destruct (placements l1 !! (i, s)) as [y|] eqn:E1; [|done]. injection Hy as <-.
        assert (s <> home (anc_track i)) as Hne by (intros ->; by apply Hnot, Hsub). rewrite K1 in E1 by done.
        destruct (Hsame s y E1 Hne) as (y'' & Y1 & Y2 & _). rewrite Hy' in Y1. injection Y1 as <-. unfold address. rewrite Y2. by apply list_elem_of_lookup_2 in Ha.
    + intros s Hs. by destruct (I3 s Hs) as (_ & _ & _ & ?).
  - intros s Hne Hs. rewrite K3 by done. cbn. rewrite lookup_insert_ne, K1 by congruence. done.
  - eexists x, _. split; [done|]. rewrite K3 by done. cbn. rewrite lookup_insert_eq. done.
Qed.

(** ** Reconciling a track *)

(** At rest every placement holds a view. *)
Definition at_rest (l : Life) : Prop := forall k x, placements l !! k = Some x -> resident x = true.

(** The shards of a registry are numbered from zero. *)
Definition numbered (g : Registry) : Prop := forall p m, get_participant g p = Some m -> 0 <= meta_shard m.

(** The publisher of [i] is where it was. *)
Definition anchored (g : Registry) (i : Ancestry) : Prop :=
  owner (anc_track i) = i /\ forall b, bound_in_room g (anc_publisher i) (anc_room i) = Some b -> bound_shard b = home (anc_track i).

Lemma bound_shard_nonneg g p room b : numbered g -> bound_in_room g p room = Some b -> 0 <= bound_shard b.
Proof.
  intros Hn. unfold bound_in_room, locate. destruct (get_participant g p) as [m|] eqn:Hm; [|done]. cbn. case_match; [done|]. intros [= <-]. cbn. by eapply Hn.
Qed.

Lemma desired_spec l i (g : Registry) d :
  desired_state l i g = Some d ->
  (exists track, topology_track (topology l) i = Some track /\ d_track d = track) /\ bound_in_room g (anc_publisher i) (anc_room i) = Some (d_origin d) /\
  (forall p, p ∈ d_candidates d <-> p ∈ topology_candidates (topology l) i /\ p <> anc_publisher i /\ is_Some (bound_in_room g p (anc_room i))) /\
  (forall p, p ∈ d_bindings d <-> p ∈ topology_active (topology l) i /\ p ∈ d_candidates d) /\
  (forall p b, locations d !! p = Some b <-> p ∈ d_candidates d /\ bound_in_room g p (anc_room i) = Some b).
Proof.
  unfold desired_state. destruct (topology_track (topology l) i) as [track|]; [|done]. cbn [mbind option_bind].
  destruct (bound_in_room g (anc_publisher i) (anc_room i)) as [b|] eqn:Hb; [|done]. cbn [mbind option_bind].
  set (cs := filter _ (topology_candidates _ _)). intros [= <-]. cbn. split_and!; [without_kind eauto|done|..].
  - intros p. unfold cs. rewrite elem_of_filter. without_kind naive_solver.
  - intros p. rewrite elem_of_filter. without_kind naive_solver.
  - intros p b'. rewrite <- elem_of_list_to_map.
    + rewrite list_elem_of_omap. split.
      * intros (p' & Hp%elem_of_elements & Hp'). destruct (bound_in_room g p' (anc_room i)) as [b''|] eqn:E'; [|done]. by injection Hp' as <- <-.
      * intros [Hp Hb']. exists p. rewrite elem_of_elements, Hb'. done.
    + assert (forall ps, ((omap (fun p0 => (fun b0 => (p0, b0)) <$> bound_in_room g p0 (anc_room i)) ps).*1) `sublist_of` ps) as Hsub.
      { induction ps as [|q ps IH]; [done|]. cbn. destruct (bound_in_room g q (anc_room i)); cbn; [by apply sublist_skip|by apply sublist_cons]. }
      eapply sublist_NoDup; [apply (NoDup_elements cs)|apply Hsub].
Qed.

Lemma active_sub l i (g : Registry) d s : desired_state l i g = Some d -> s ∈ active_remote_shards d -> s ∈ candidate_remote_shards d.
Proof.
  intros Hd. destruct (desired_spec l i g d Hd) as (_ & _ & _ & Hbi & _). unfold active_remote_shards, candidate_remote_shards. rewrite !elem_of_remote_shards.
  intros (Hne & p & b & Hp & Hb). split; [done|]. exists p, b. apply Hbi in Hp. without_kind tauto.
Qed.

Lemma books_congr l l' v : placements l' = placements l -> allocator l' = allocator l -> books l v -> books l' v.
Proof. intros E1 E2 [B1 B2 B3 B4 B5 B6 B7]. split; rewrite ?E1, ?E2; done. Qed.

Lemma effects_leave_view v (os : list Operation) : Forall (fun o => exists s p e, o = Effect s p e) os -> apply_operations v os = v.
Proof. induction 1 as [|o os (s & p & e & ->) _ IH]; [done|]. exact IH. Qed.

Lemma staged_effects l i (g : Registry) e p : Forall (fun o => exists s p e, o = Effect s p e) (stage_track_effect l i g e p).
Proof. unfold stage_track_effect. destruct (locate g p); [|constructor]. repeat case_match; repeat constructor. without_kind eauto. Qed.

Lemma transitions_are_effects l i d (g : Registry) : Forall (fun o => exists s p e, o = Effect s p e) (stage_participant_transitions l i d g).
Proof.
  unfold stage_participant_transitions. repeat apply Forall_app_2; apply Forall_bind, Forall_true; intros p; apply staged_effects.
Qed.

Lemma destinations_spec (l : Life) i s x : destinations_of l i !! s = Some x <-> placements l !! (i, s) = Some x.
Proof.
  unfold destinations_of. rewrite <- elem_of_list_to_map.
  - rewrite list_elem_of_omap. split.
    + intros ([[j s'] y] & Hin%elem_of_map_to_list & Hy). case_decide; [|done]. injection Hy as -> ->. by subst.
    + intros Hx. exists ((i, s), x). split; [by apply elem_of_map_to_list|]. by rewrite decide_True.
  - pose proof (NoDup_fst_map_to_list (placements l)) as Hnd. induction (map_to_list (placements l)) as [|[[j s'] y] xs IH]; [constructor|].
    cbn in Hnd. apply NoDup_cons in Hnd as [Hn Hnd]. cbn. destruct (decide (j = i)) as [->|Hne]; [|by apply IH]. cbn. constructor; [|by apply IH].
    intros Hin. apply Hn. apply list_elem_of_fmap in Hin as ([s'' z] & E' & Hin). cbn in E'. subst s''. apply list_elem_of_omap in Hin as ([[j' t'] z'] & Hin & E').
    case_decide; [|done]. injection E' as -> ->. subst. apply list_elem_of_fmap. by exists ((i, s'), z).
Qed.

Lemma remote_destinations_spec (l : Life) i o s x : (s, x) ∈ remote_destinations l i o <-> s <> o /\ placements l !! (i, s) = Some x.
Proof.
  unfold remote_destinations. rewrite list_elem_of_omap. split.
  - intros (s' & _ & Hs). destruct (Z.eqb_spec s' o); [done|]. destruct (placements l !! (i, s')) as [y|] eqn:Hy; [|done]. by injection Hs as -> ->.
  - intros [Hne Hx]. exists s. rewrite (proj2 (Z.eqb_neq _ _)), Hx by done. split; [|done]. apply elem_of_sorted, elem_of_dom. exists x. by apply destinations_spec.
Qed.
Lemma NoDup_remote_destinations (l : Life) i o : NoDup (remote_destinations l i o).*1.
Proof.
  unfold remote_destinations. eapply sublist_NoDup; [apply (NoDup_sorted (dom (destinations_of l i)))|].
  induction (sorted _) as [|s ss IH]; [done|]. cbn. destruct (s =? o); [by apply sublist_cons|].
  destruct (placements l !! (i, s)); cbn; [by apply sublist_skip|by apply sublist_cons].
Qed.

Definition retracked d (t : Topology.Track) : DesiredTrackState (E := E) := mkDesired t (d_origin d) (d_candidates d) (d_bindings d) (locations d).

(** The topology but for the reverse route of a track. *)
Definition rebodied (i : Ancestry) l l' : Prop :=
  topology l' = topology l \/ exists t r, topology_track (topology l) i = Some t /\ topology l' = topology_put_body (topology l) i (set_reverse r (track_body t)).

(** What a reconciliation leaves. *)
Record reconciled (l : Life) (v : View) (i : Ancestry) (g : Registry) (l' : Life) (v' : View) : Prop := mk_reconciled {
  rc_books : books l' v';
  rc_rest : at_rest l';
  rc_desired : exists d t, desired_state l i g = Some d /\ viewed i (retracked d t) l' v' /\
    (forall s, s ∈ candidate_remote_shards d -> exists x, placements l' !! (i, s) = Some x /\ route_installed x = bool_decide (s ∈ active_remote_shards d)) /\
    (exists x, placements l' !! (i, home (anc_track i)) = Some x /\
       route_installed x = requires_reverse_route (d_track d) || from_option route_installed false (placements l !! (i, home (anc_track i)))) /\
    candidates l' = <[i := d_candidates d]> (candidates l) /\ bindings l' = <[i := d_bindings d]> (bindings l);
  rc_others : forall k, k.1 <> i -> placements l' !! k = placements l !! k;
  rc_topology : rebodied i l l';
}.

Lemma ensure_reverse_spec l i t route l' t' :
  ensure_reverse_route l i t route = (l', t') -> topology_track (topology l) i = Some t -> requires_reverse_route t' = requires_reverse_route t /\  placements l' = placements l /\ allocator l' = allocator l /\ candidates l' = candidates l /\ bindings l' = bindings l /\ rebodied i l l'.
Proof. unfold ensure_reverse_route. case_match; intros [= <- <-] Ht; split_and!; try done; [by left|right]. by eexists _, _. Qed.

Lemma remote_nonneg l i g d : numbered g -> desired_state l i g = Some d -> Forall (fun s => 0 <= s) (candidate_remote_shards d).
Proof.
  intros Hn Hd. destruct (desired_spec l i g d Hd) as (_ & _ & _ & _ & Hloc). apply Forall_forall. intros s Hs.
  apply elem_of_remote_shards in Hs as (_ & p & b & _ & Hb & <-). apply Hloc in Hb as [_ Hb]. by eapply bound_shard_nonneg.
Qed.

(** Destinations no shard needs any more are given back. *)
Lemma released_spec l v i d now :
  books l v ->
  (forall s x, s <> bound_shard (d_origin d) -> placements l !! (i, s) = Some x -> s ∉ candidate_remote_shards d -> resident x = false /\ route_installed x = false) ->
  let l' := release_unused_destinations l i d now in
  books l' v /\ frame l' = frame l /\
  (forall k, k.1 <> i \/ k.2 = bound_shard (d_origin d) \/ k.2 ∈ candidate_remote_shards d -> placements l' !! k = placements l !! k) /\
  (forall s, s <> bound_shard (d_origin d) -> s ∉ candidate_remote_shards d -> placements l' !! (i, s) = None).
Proof.
  intros Hb Hun. unfold release_unused_destinations. set (xs := filter _ _).
  assert (forall s x, (s, x) ∈ xs <-> (s ∉ candidate_remote_shards d) /\ s <> bound_shard (d_origin d) /\ placements l !! (i, s) = Some x) as Hxs.
  { intros s x. unfold xs. rewrite list_elem_of_filter, remote_destinations_spec. done. }
  assert (NoDup xs.*1) as Hnd.
  { eapply sublist_NoDup; [apply (NoDup_remote_destinations l i (bound_shard (d_origin d)))|]. apply fmap_sublist, sublist_filter. }
  destruct (releases_spec i now xs l v Hb Hnd) as (Hb' & F & K & D).
  { intros s x (Hs & Hne & Hx)%Hxs. split; [done|]. by apply (Hun s). }
  assert (forall s, s ∈ xs.*1 -> (s ∉ candidate_remote_shards d) /\ s <> bound_shard (d_origin d)) as Hfst.
  { intros s ([s' x] & -> & Hin%Hxs)%list_elem_of_fmap. cbn. without_kind tauto. }
  split_and!; [done|done|..].
  - intros k Hk. apply K. destruct Hk as [?|Hk]; [by left|right]. intros Hin%Hfst. without_kind tauto.
  - intros s Hne Hs. destruct (decide (s ∈ xs.*1)) as [Hin|Hout]; [by apply D|]. rewrite K by (by right).
    destruct (placements l !! (i, s)) as [x|] eqn:Hx; [|done]. destruct Hout. apply list_elem_of_fmap. exists (s, x). split; [done|]. by apply Hxs.
Qed.

Lemma reconcile_spec l v i g now l' o :
  books l v -> at_rest l -> anchored g i -> numbered g -> reconcile track_kind l i g now = Some (l', o) ->
  reconciled l v i g l' (apply_operations v (operations o)).
Proof.
  intros Hb Hrest [Hown Hanch] Hnum. unfold reconcile. destruct (next_generation l) as [[l0 gen]|] eqn:Hg; [|done]. cbn [mbind option_bind].
  unfold next_generation in Hg. destruct (checked_add 64 (generation l) 1); [|done]. injection Hg as <- <-.
  set (l0 := mkLifecycle _ _ _ _ _ _). change (desired_state l0 i g) with (desired_state l i g).
  destruct (desired_state l i g) as [d|] eqn:Hd; [|done]. cbn [mbind option_bind]. pose proof (active_sub l i g d) as Hsub.
  destruct (desired_spec l i g d Hd) as ((track & Htrack & Ed) & Hor & _). pose proof (Hanch _ Hor) as Hh. pose proof (bound_shard_nonneg _ _ _ _ Hnum Hor) as Hpos.
  destruct (ensure_destination l0 i _ now) as [[l1 x]|] eqn:H1; [|done]. cbn [mbind option_bind].
  assert (books l0 v) as Hb0 by (by apply (books_congr l)).
  destruct (ensure_spec l0 v i _ now l1 x Hb0 Hown Hpos H1) as (Hb1 & X1 & F1 & O1 & N1 & S1). injection F1 as T1 F1 F1' _.
  destruct (ensure_reverse_route l1 i (d_track d) _) as [l2 t] eqn:H2. destruct (ensure_reverse_spec _ _ _ _ _ _ H2) as (Q2 & E2 & A2 & C2 & D2 & T2); [rewrite T1, Ed; exact Htrack|].
  assert (books l2 v) as Hb2 by (by apply (books_congr l1)).
  change (mkDesired t (d_origin d) (d_candidates d) (d_bindings d) (locations d)) with (retracked d t).
  unfold reserve_candidate_destinations. change (candidate_remote_shards (retracked d t)) with (candidate_remote_shards d).
  destruct (reserve_destinations l2 i _ now) as [l3|] eqn:H3; [|done]. cbn [mbind option_bind].
  destruct (reserve_spec i now _ l2 v l3 Hb2 Hown (remote_nonneg l i g d Hnum Hd) H3) as (Hb3 & F3 & O3 & K3 & I3 & W3). injection F3 as T3 F3 F3' _.
  unfold reconcile_remote_residency. destruct (reconcile_residencies _ _ _ _) as [[l4 residency]|] eqn:H4; [|done]. cbn [mbind option_bind].
  destruct (residencies_spec i (retracked d t) _ l3 v [] l4 residency Hb3 (NoDup_remote_destinations l3 i (bound_shard (d_origin d)))) as (new & -> & Hb4 & O4 & K4 & I4); [|by intros s; apply Hsub|exact H4|].
  { intros s y Hy. apply remote_destinations_spec in Hy as [Hne Hy]. split; [done|]. by rewrite <- Hh. }
  destruct (stage_active_views _ l4 i _) as [[l5 views]|] eqn:H5; [|done]. cbn [mbind option_bind].
  destruct (active_views_spec l4 _ i (retracked d t) l5 views Hb4 Hh (fun s => Hsub s Hd) H5) as (Hb5 & O5 & V5 & K5 & S5 & (xh & xh' & Xh & Xh' & Fh)).
  intros [<- <-]%(inj Some)%pair_equal_spec. cbn [operations app].
  rewrite !apply_app, (effects_leave_view v) by apply transitions_are_effects. set (v' := apply_operations _ views) in *.
  destruct (released_spec l5 v' i (retracked d t) now Hb5) as (Hb6 & F6 & K6 & D6).
  { intros s y Hne Hy Hs. assert (s <> home (anc_track i)) as Hne' by (by rewrite <- Hh). rewrite K5 in Hy by done.
    destruct (placements l3 !! (i, s)) as [y3|] eqn:Hy3.
    - destruct (I4 s y3) as (y' & Hy' & _ & Ei & Er); [by apply remote_destinations_spec|]. rewrite Hy in Hy'. injection Hy' as <-.
      split; [by apply Er|]. rewrite Ei. apply bool_decide_eq_false. intros Hs'. by apply Hs, Hsub.
    - rewrite K4 in Hy; [congruence|]. intros Hin. apply list_elem_of_fmap in Hin as ([s' y'] & -> & Hin%remote_destinations_spec). destruct Hin. cbn in *. congruence. }
  set (l6 := release_unused_destinations l5 i (retracked d t) now) in *. injection F6 as T6 F6 F6' _.
  assert (forall k, k.1 <> i -> placements l6 !! k = placements l !! k) as Hother.
  { intros k Hk. rewrite K6 by (by left). rewrite (proj2 O5), (proj2 O4), O3, E2, O1 by (try done; by intros ->). done. }
  assert (forall s, s = bound_shard (d_origin d) \/ s ∈ candidate_remote_shards d -> placements l6 !! (i, s) = placements l5 !! (i, s)) as Hkeep.
  { intros s Hs. apply K6. by right. }
  split.
  - by apply (books_congr l6).
  - intros [j s] y. cbn [placements with_bindings with_candidates]. destruct (decide (j = i)) as [->|Hne]; [|rewrite Hother by done; apply Hrest].
    destruct (decide (s = bound_shard (d_origin d) \/ s ∈ candidate_remote_shards d)) as [Hs|Hs].
    + rewrite Hkeep by done. intros Hy. destruct V5 as [(y1 & Y1 & Y1') V5 _ _]. destruct Hs as [->|Hs]; [cbn in Y1; congruence|].
      destruct (V5 s Hs) as (y2 & Y2 & Y2'). congruence.
    + rewrite D6; [done|..]; intros ?; apply Hs; [by left|by right].
  - exists d, t. split; [done|]. split_and!.
    + destruct V5 as [V1 V2 (remote & V3 & V3') V4]. split; cbn [placements with_bindings with_candidates].
      * rewrite Hkeep by (by left). done.
      * intros s Hs. rewrite Hkeep by (by right). by apply V2.
      * exists remote. split; [done|]. intros adr. rewrite V3'. split; intros (s & y & Hs & Hy & Ea); exists s, y; (split; [done|]; split; [|done]).
        -- rewrite Hkeep; [done|]. right. by apply Hsub.
        -- rewrite Hkeep in Hy; [done|]. right. by apply Hsub.
      * done.
    + intros s Hc. destruct (I3 s Hc) as [y3 Hy3].
      assert (s <> bound_shard (d_origin d)) as Hne by (by apply elem_of_remote_shards in Hc as [? _]).
      destruct (I4 s y3) as (y4 & Hy4 & _ & Ei & _); [by apply remote_destinations_spec|].
      destruct (S5 s y4 Hy4) as (y5 & Hy5 & _ & Ei5); [by rewrite <- Hh|]. exists y5. cbn [placements with_bindings with_candidates].
      rewrite Hkeep by (by right). split; [done|]. by rewrite Ei5, Ei.
    + exists xh'. cbn [placements with_bindings with_candidates]. rewrite <- Hh at 1. rewrite Hkeep, Hh by (by left). split; [done|]. rewrite Fh. cbn [d_track retracked]. rewrite Q2. f_equal.
      rewrite K4 in Xh. 2:{ intros ([s' y'] & Es & Hin)%list_elem_of_fmap. apply remote_destinations_spec in Hin as [Hne _]. apply Hne. rewrite Hh. by symmetry. }
      assert (placements l3 !! (i, home (anc_track i)) = Some x) as Hx3 by (apply K3; rewrite E2, <- Hh; exact X1). rewrite Hx3 in Xh. injection Xh as <-.
      change (placements l) with (placements l0). rewrite <- Hh. destruct (placements l0 !! (i, bound_shard (d_origin d))) as [y|] eqn:Hy; cbn; [by rewrite (S1 y)|by apply N1].
    + cbn [candidates with_bindings with_candidates]. f_equal. rewrite F6, (proj1 O5), (proj1 O4). cbn [candidates with_placements]. rewrite F3, C2, F1. done.
    + cbn [bindings with_bindings with_candidates]. f_equal. rewrite F6', (proj1 O5), (proj1 O4). cbn [bindings with_placements]. rewrite F3', D2, F1'. done.
  - exact Hother.
  - unfold rebodied in *. cbn [topology with_bindings with_candidates]. rewrite T6, (proj1 O5), (proj1 O4). cbn [topology with_placements]. rewrite T3. rewrite T1 in T2. exact T2.
Qed.
End Laws.
