(* ===== verification/LifecycleRemoval.v ===== *)
(** * How a track ends

    Removing a track tells every shard that holds it to withdraw, then gives its
    slots back. Between the two the placements still say that the shards hold
    the track; [erase] is what they should say then. *)

From S2P Require Import Prelude Route SlotAlloc Room Registry Topology ShardUpdate Lifecycle LifecycleLaws.

Set Default Proof Using "Type".

Section Removal.
Context {E ExternalId Lease : Type}.

Abbreviation Ancestry := (TrackAncestry (ParticipantId := Z) (RoomId := Z) (TrackId := Z)).
Abbreviation Operation := (TrackLifecycleOperation (E := E)).
Abbreviation Life := (TrackLifecycle (E := E)).
Abbreviation Registry := (RoomRegistry (ParticipantId := Z) (RoomId := Z) (ParticipantExternalId := ExternalId) (AuthorizationLease := Lease)).
Abbreviation View := (View (E := E)).

Context (owner : Z -> Ancestry) (home : Z -> ShardId).
Abbreviation books := (books owner home).
Implicit Types (l : Life) (i : Ancestry) (g : Registry) (v : View) (K : gset (Ancestry * ShardId)).

(** The placements with those of [K] withdrawn. *)
Definition erase K l : Life :=
  with_placements (map_imap (fun k x => Some (if decide (k ∈ K) then marked x false false else x)) (placements l)) l.

Lemma erase_lookup K l k : placements (erase K l) !! k = (fun x => if decide (k ∈ K) then marked x false false else x) <$> placements l !! k.
Proof. unfold erase. cbn [placements with_placements]. rewrite map_lookup_imap. by destruct (placements l !! k). Qed.

Lemma same_life l l' : placements l = placements l' -> frame l = frame l' -> allocator l = allocator l' -> l = l'.
Proof. destruct l, l'. unfold frame. cbn. intros -> [= -> -> -> ->] ->. done. Qed.

(** Nothing of [K] is placed: nothing to erase. *)
Lemma erase_absent K l : (forall k, k ∈ K -> placements l !! k = None) -> erase K l = l.
Proof.
  intros HK. apply same_life; [|done..]. apply map_eq. intros k. rewrite erase_lookup.
  destruct (placements l !! k) eqn:Hk; [|done]. cbn. case_decide as Hin; [|done]. rewrite (HK k Hin) in Hk. done.
Qed.

Lemma erase_more K l k x : placements l !! k = Some x -> erase ({[k]} ∪ K) l = with_placements (<[k := marked x false false]> (placements (erase K l))) (erase K l).
Proof.
  intros Hx. apply same_life; [|done..]. apply map_eq. intros k'. cbn [placements with_placements]. rewrite erase_lookup.
  destruct (decide (k' = k)) as [->|Hne]; [rewrite lookup_insert_eq, Hx; cbn; by rewrite decide_True by set_solver|].
  rewrite lookup_insert_ne, erase_lookup by done. destruct (placements l !! k'); [|done]. cbn. do 2 case_decide; (done || set_solver).
Qed.

Lemma erase_release K l i now s x : (i, s) ∈ K -> erase K (release l i now (s, x)) = release (erase K l) i now (s, marked x false false).
Proof.
  intros HK. apply same_life; [|done..]. apply map_eq. intros k. cbn [placements release with_placements fst]. rewrite erase_lookup. cbn [placements release with_placements fst].
  destruct (decide (k = (i, s))) as [->|Hne]; [by rewrite !lookup_delete_eq|]. by rewrite !lookup_delete_ne, erase_lookup by done.
Qed.

(** *** Withdrawing *)

Definition withdrawal l i (s : ShardId) : list Operation :=
  match placements l !! (i, s) with Some x => if resident x then stage_shard_withdrawal s x else [] | None => [] end.

Lemma withdrawals_spec K l v i ss :
  at_rest l -> NoDup ss -> (forall s, s ∈ ss -> is_Some (placements l !! (i, s)) /\ (i, s) ∉ K) -> books (erase K l) v ->
  books (erase (list_to_set (pair i <$> ss) ∪ K) l) (apply_operations v (ss ≫= withdrawal l i)).
Proof.
  intros Hrest. revert K v. induction ss as [|s ss IH]; intros K v Hnd Hss Hb; cbn [fmap list_fmap list_to_set mbind list_bind].
  { by rewrite (left_id_L ∅ (∪)). }
  apply NoDup_cons in Hnd as [Hs Hnd]. destruct (Hss s) as [[x Hx] HK]; [by left|]. rewrite apply_app.
  replace ({[(i, s)]} ∪ list_to_set (pair i <$> ss) ∪ K) with (list_to_set (pair i <$> ss) ∪ ({[(i, s)]} ∪ K) : gset _) by set_solver.
  apply IH; [done|intros s' Hs'; destruct (Hss s') as [? HK']; [by right|]; split; [done|]; intros [[= ->]%elem_of_singleton|?]%elem_of_union; done|].
  unfold withdrawal. pose proof (Hrest _ _ Hx) as Hr. rewrite Hx, Hr, (erase_more K l _ x Hx). apply books_withdraw; [done| |done].
  rewrite erase_lookup, Hx. cbn. by rewrite decide_False.
Qed.

Definition destination_keys l i : gset (Ancestry * ShardId) := list_to_set (pair i <$> sorted (dom (destinations_of l i))).

Lemma elem_of_destination_keys l i k : k ∈ destination_keys l i <-> k.1 = i /\ is_Some (placements l !! k).
Proof.
  unfold destination_keys. rewrite elem_of_list_to_set, list_elem_of_fmap. split.
  - intros (s & -> & [x Hs%destinations_spec]%elem_of_sorted%elem_of_dom). split; [done|by eexists].
  - destruct k as [j s]. intros [E' [x Hx]]. cbn in E'. subst j. exists s. split; [done|]. apply elem_of_sorted, elem_of_dom. exists x. by apply destinations_spec.
Qed.

(** Staging the removal of [i]: the shards have nothing of it any more. *)
Lemma removal_spec K l v i g l' ops :
  at_rest l -> (forall s, (i, s) ∉ K) -> books (erase K l) v -> stage_track_removal l i g = (l', ops) ->
  books (erase (destination_keys l i ∪ K) l') (apply_operations v ops) /\ placements l' = placements l /\ topology l' = topology l /\
  allocator l' = allocator l /\ generation l' = generation l /\ candidates l' = delete i (candidates l) /\ bindings l' = delete i (bindings l).
Proof.
  intros Hrest HK Hb. unfold stage_track_removal. intros [= <- <-]. split; [|done].
  set (l' := with_candidates _ _). set (ended := match locate g (anc_publisher i) with Some _ => _ | None => _ end).
  rewrite !apply_app, (effects_leave_view v) by (apply Forall_bind, Forall_true; intros; apply staged_effects).
  rewrite (effects_leave_view v) by (apply Forall_bind, Forall_true; intros; apply staged_effects).
  rewrite (effects_leave_view v) by (unfold ended; repeat case_match; repeat constructor; eauto).
  change (destinations_of l' i) with (destinations_of l i). apply (books_congr owner home (erase (destination_keys l i ∪ K) l)); [done|done|].
  apply (withdrawals_spec K l v i (sorted (dom (destinations_of l i)))); [done|apply NoDup_sorted| |done].
  intros s [x Hs%destinations_spec]%elem_of_sorted%elem_of_dom. split; [by eexists|apply HK].
Qed.

(** *** Giving the slots back *)

Lemma erased_releases_spec K i now xs l v :
  books (erase K l) v -> NoDup xs.*1 -> (forall s x, (s, x) ∈ xs -> placements l !! (i, s) = Some x /\ (i, s) ∈ K) ->
  let l' := foldl (fun l sx => release l i now sx) l xs in
  books (erase K l') v /\ frame l' = frame l /\
  (forall k, placements l' !! k = if decide (k.1 = i /\ k.2 ∈ xs.*1) then None else placements l !! k).
Proof.
  revert l. induction xs as [|[s x] xs IH]; intros l Hb Hnd Hxs; cbn [foldl fmap list_fmap fst].
  - split_and!; try done. intros k. rewrite decide_False; [done|]. intros [_ ?%elem_of_nil]. done.
  - apply NoDup_cons in Hnd as [Hs Hnd]. destruct (Hxs s x) as [Hx HK]; [by left|].
    destruct (IH (release l i now (s, x))) as (Hb' & F & P); [|done| |].
    + rewrite erase_release by done. apply release_spec; [done| |done|done]. rewrite erase_lookup, Hx. cbn. by rewrite decide_True.
    + intros s' y Hy. destruct (Hxs s' y) as [Hy' HK']; [by right|]. split; [|done]. cbn. rewrite lookup_delete_ne; [done|].
      intros [= <-]. apply Hs, list_elem_of_fmap. by exists (s, y).
    + split_and!; [done|done|]. intros [j s']. rewrite P. cbn [fst snd release placements with_placements]. destruct (decide (j = i)) as [->|Hj].
      * destruct (decide (s' = s)) as [->|Hne]; [rewrite lookup_delete_eq; repeat case_decide; set_solver|].
        rewrite lookup_delete_ne by congruence. repeat case_decide; (done || set_solver).
      * rewrite lookup_delete_ne by congruence. by rewrite !decide_False by naive_solver.
Qed.

Lemma release_placements_spec K l v i now :
  (forall s, is_Some (placements l !! (i, s)) -> (i, s) ∈ K) -> books (erase K l) v ->
  let l' := release_placements l i now in
  books (erase K l') v /\ topology l' = topology l /\ generation l' = generation l /\
  candidates l' = delete i (candidates l) /\ bindings l' = delete i (bindings l) /\
  (forall k, placements l' !! k = if decide (k.1 = i) then None else placements l !! k).
Proof.
  intros HK Hb. unfold release_placements. destruct (erased_releases_spec K i now (map_to_list (destinations_of l i)) l v) as (Hb' & F & P); [done|apply NoDup_fst_map_to_list| |].
  { intros s x Hx%elem_of_map_to_list%destinations_spec. split; [done|]. apply HK. by eexists. }
  set (l1 := foldl _ l _) in *. injection F as F1 F2 F3 F4. cbn [topology generation candidates bindings placements with_bindings with_candidates].
  split_and!; [|done|done|by rewrite F2|by rewrite F3|].
  - apply (books_congr owner home (erase K l1)); done.
  - intros [j s]. rewrite P. cbn [fst snd]. destruct (decide (j = i)) as [->|Hne]; [|by rewrite decide_False by naive_solver].
    case_decide as Hd; [done|]. destruct (placements l !! (i, s)) as [x|] eqn:Hx; [|done]. destruct Hd. split; [done|].
    apply list_elem_of_fmap. exists (s, x). split; [done|]. by apply elem_of_map_to_list, destinations_spec.
Qed.
End Removal.
