(* ===== verification/LifecycleDeeds.v ===== *)
(** * What an outcome asks of one shard

    The operations of an outcome that are for one shard do one thing: they show
    the shard a track (a runtime and a plan, with at most one change of the
    track's route), or they withdraw tracks from it. The order the shard executes
    them in, insertions first and retirements last, then makes no difference. *)

From stdpp Require Import sorting.
From S2P Require Import Prelude Route SlotAlloc Room Registry Topology ShardUpdate Lifecycle LifecycleLaws LifecycleRemoval.

Set Default Proof Using "Type".

Section Deeds.
Context {E ExternalId Lease : Type}.
Context (track_kind : Z -> TrackKind).

Abbreviation Ancestry := (TrackAncestry (ParticipantId := Z) (RoomId := Z) (TrackId := Z)).
Abbreviation Operation := (TrackLifecycleOperation (E := E)).
Abbreviation Life := (TrackLifecycle (E := E)).
Abbreviation Registry := (RoomRegistry (ParticipantId := Z) (RoomId := Z) (ParticipantExternalId := ExternalId) (AuthorizationLease := Lease)).
Abbreviation View := (View (E := E)).
Abbreviation Runtime := (TrackRuntime (ParticipantId := Z) (TrackKind := TrackKind) (SourceEncoding := E) (ParticipantEffect := TrackEffect (E := E))).
Abbreviation Plan := (TrackPlan (ParticipantId := Z)).
Abbreviation Action := (TrackRouteAction (TrackId := Z)).

Implicit Types (l : Life) (i : Ancestry) (g : Registry) (d : DesiredTrackState (E := E)) (v : View) (s : ShardId) (o : Operation).

Definition touches s o : bool := match o with Update s' _ | Plans s' _ => s' =? s | Effect _ _ _ => false end.

(** What an outcome has for the tables of a shard. *)
Definition work_at s (os : list Operation) : list Operation := filter (fun o => touches s o = true) os.

Lemma work_app s os os' : work_at s (os ++ os') = work_at s os ++ work_at s os'.
Proof. apply filter_app. Qed.

Lemma work_effects s (os : list Operation) : Forall (fun o => exists s p e, o = Effect s p e) os -> work_at s os = [].
Proof. induction 1 as [|o os (s' & p & e & ->) _ IH]; [done|]. exact IH. Qed.

Lemma work_elsewhere s (os : list Operation) s' : Forall (fun o => touches s' o = true) os -> s' <> s -> work_at s os = [].
Proof.
  intros Hos Hne. induction Hos as [|o os Ho _ IH]; [done|]. unfold work_at. rewrite filter_cons_False; [exact IH|].
  destruct o; cbn in *; [..|done]; rewrite (proj1 (Z.eqb_eq _ _) Ho); by rewrite (proj2 (Z.eqb_neq s' s)).
Qed.
Lemma work_here s (os : list Operation) : Forall (fun o => touches s o = true) os -> work_at s os = os.
Proof. induction 1 as [|o os Ho _ IH]; [done|]. unfold work_at. rewrite filter_cons_True by done. f_equal. exact IH. Qed.

(** Work that is for each key's own shard. *)
Lemma work_bind {K} (f : K -> list Operation) (at_ : K -> ShardId) ks s :
  (forall k, k ∈ ks -> Forall (fun o => touches (at_ k) o = true) (f k)) -> NoDup (at_ <$> ks) ->
  (exists k, k ∈ ks /\ at_ k = s /\ work_at s (ks ≫= f) = f k) \/ ((forall k, k ∈ ks -> at_ k <> s) /\ work_at s (ks ≫= f) = []).
Proof.
  induction ks as [|k ks IH]; intros Hf Hnd; cbn [mbind list_bind]; [right; split; [|done]; by intros k ?%elem_of_nil|].
  cbn in Hnd. apply NoDup_cons in Hnd as [Hk Hnd]. rewrite work_app. pose proof (Hf k ltac:(by left)) as Hfk.
  destruct (decide (at_ k = s)) as [<-|Hne].
  - left. exists k. split; [by left|]. split; [done|]. rewrite work_here by done.
    destruct (IH (fun k' Hk' => Hf k' ltac:(by right)) Hnd) as [(k' & Hk' & E' & _)|[_ ->]]; [|by rewrite app_nil_r].
    destruct Hk. rewrite <- E'. by apply list_elem_of_fmap_2.
  - rewrite (work_elsewhere s (f k) (at_ k)) by done. cbn. destruct (IH (fun k' Hk' => Hf k' ltac:(by right)) Hnd) as [(k' & Hk' & E' & ->)|[Hno ->]].
    + left. exists k'. split; [by right|done].
    + right. split; [|done]. intros k' [->|Hk']%elem_of_cons; [done|by apply Hno].
Qed.

(** ** Deeds *)

Inductive RouteChange := KeepRoute | NewRoute (a : NodeRouteAddress) (act : Action) | NoRoute (a : NodeRouteAddress).

Definition change_route s (c : RouteChange) : list Operation :=
  match c with KeepRoute => [] | NewRoute a act => [Update s (InstallRoute a act)] | NoRoute a => [Update s (RetireRoute a)] end.
Definition show s (t : Z) (c : RouteChange) (r : Runtime) (p : Plan) : list Operation :=
  change_route s c ++ [Update s (InsertTrackRuntime t r); Update s Placeholder; Plans s [mkPlanUpdate t (Some p)]].
Definition withdraw s (w : Z * option NodeRouteAddress) : list Operation :=
  Plans s [mkPlanUpdate w.1 None] :: (match w.2 with Some a => [Update s (RetireRoute a)] | None => [] end) ++ [Update s (RemoveTrackRuntime w.1)].

(** The track an action is for. *)
Definition subject (act : Action) : Z := match act with Forward t => t | Reverse t => t end.

Definition fitting s (t : Z) (c : RouteChange) : Prop :=
  match c with KeepRoute => True | NewRoute a act => address_shard a = s /\ subject act = t | NoRoute a => address_shard a = s end.

Inductive deed s : list Operation -> Prop :=
| deed_show t c r p : fitting s t c -> deed s (show s t c r p)
| deed_withdraw ws : Forall (fun w => forall a, w.2 = Some a -> address_shard a = s) ws -> deed s (ws ≫= withdraw s).

Definition deeds (os : list Operation) : Prop := forall s, deed s (work_at s os).

Lemma deed_nil s : deed s [].
Proof. exact (deed_withdraw s [] (Forall_nil_2 _)). Qed.

(** ** Reconciling a track *)

Definition residency_ops d (sx : ShardId * TrackDestination) : list Operation :=
  let '(s, x) := sx in
  if resident x && negb (bool_decide (s ∈ candidate_remote_shards d)) then stage_shard_withdrawal s x
  else if negb (route_installed x) && bool_decide (s ∈ active_remote_shards d)
    then [Update s (InstallRoute (placement_route (placement x)) (Forward (placement_track (placement x))))]
  else if route_installed x && negb (bool_decide (s ∈ active_remote_shards d)) then [Update s (RetireRoute (placement_route (placement x)))]
  else [].

Lemma residencies_ops i d xs l ops l' ops' : reconcile_residencies i d (l, ops) xs = Some (l', ops') -> ops' = ops ++ (xs ≫= residency_ops d).
Proof.
  revert l ops. induction xs as [|[s x] xs IH]; intros l ops; cbn [reconcile_residencies mbind list_bind].
  - intros [= <- <-]. by rewrite app_nil_r.
  - destruct (reconcile_residency i d (l, ops) (s, x)) as [[l1 ops1]|] eqn:H1; [|done]. cbn [mbind option_bind]. intros ->%IH. rewrite app_assoc. f_equal.
    unfold reconcile_residency in H1. unfold residency_ops. repeat case_match; cbn in H1; try (apply bind_Some in H1 as (? & _ & H1)); injection H1 as <- <-; rewrite ?app_nil_r; done.
Qed.

Lemma residency_touches d sx : Forall (fun o => touches sx.1 o = true) (residency_ops d sx).
Proof.
  destruct sx as [s x]. unfold residency_ops, stage_shard_withdrawal, stage_plan, stage_plans.
  repeat case_match; repeat constructor; cbn; apply Z.eqb_refl.
Qed.

Definition view_ops d i s remote : list Operation :=
  stage_runtime_and_plan track_kind (mkRuntimePlan s (bound_participant (d_origin d)) (d_track d) (anc_track i) (local_bindings d s) remote (reverse (track_body (d_track d)))).
Lemma view_touches d i s remote : Forall (fun o => touches s o = true) (view_ops d i s remote).
Proof. unfold view_ops, stage_runtime_and_plan, stage_plan, stage_plans. repeat constructor; cbn; apply Z.eqb_refl. Qed.

Definition titled l i : Prop := forall s x, placements l !! (i, s) = Some x -> placement_track (placement x) = anc_track i.
Lemma titled_put l i s x y : titled l i -> placements l !! (i, s) = Some x -> placement y = placement x -> titled (with_placements (<[(i, s) := y]> (placements l)) l) i.
Proof.
  intros Ht Hx Ey s' z. cbn. rewrite lookup_insert_Some. intros [[[= <-] <-]|[_ Hz]]; [rewrite Ey; by apply (Ht s)|by apply (Ht s')].
Qed.

Lemma remote_views_ops i d ss l l' ops : titled l i -> stage_remote_views track_kind l i d ss = Some (l', ops) -> ops = ss ≫= fun s => view_ops d i s [].
Proof.
  revert l l' ops. induction ss as [|s ss IH]; intros l l' ops Ht; cbn [stage_remote_views mbind list_bind].
  - by intros [= <- <-].
  - unfold set_resident, set_destination. destruct (placements l !! (i, s)) as [x|] eqn:Hx; [|done]. cbn [mbind option_bind].
    destruct (stage_remote_views _ _ _ _ _) as [[l2 rest]|] eqn:Hgo; [|done]. cbn [mbind option_bind]. intros [<- <-]%(inj Some)%pair_equal_spec. rewrite (Ht s x Hx). fold (view_ops d i s []). f_equal.
    eapply IH; [|exact Hgo]. by apply (titled_put l i s x).
Qed.

Lemma active_views_ops i d l l' ops :
  titled l i -> (forall s x, placements l !! (i, s) = Some x -> address_shard (address x) = s) -> stage_active_views track_kind l i d = Some (l', ops) ->
  exists c remote announce, fitting (bound_shard (d_origin d)) (anc_track i) c /\ Forall (fun o => exists s p e, o = Effect s p e) announce /\
    ops = change_route (bound_shard (d_origin d)) c ++ view_ops d i (bound_shard (d_origin d)) remote ++ announce ++ (candidate_remote_shards d ≫= fun s => view_ops d i s []).
Proof.
  intros Ht Ha. unfold stage_active_views. set (h := bound_shard (d_origin d)). destruct (placements l !! (i, h)) as [x|] eqn:Hx; [|done]. cbn [mbind option_bind].
  destruct (if _ && _ then _ else _) as [[l1 install]|] eqn:H1; [|done]. cbn [mbind option_bind].
  assert (exists c y, fitting h (anc_track i) c /\ install = change_route h c /\ placement y = placement x /\ l1 = with_placements (<[(i, h) := y]> (placements l)) l) as (c & y & Hc & -> & Ey & ->).
  { destruct (_ && _).
    - unfold set_route_installed, set_destination in H1. rewrite Hx in H1. cbn [mbind option_bind] in H1. injection H1 as <- <-.
      exists (NewRoute (address x) (Reverse (placement_track (placement x)))). eexists. split; [split; [by apply Ha|by apply (Ht h)]|]. split; [done|]. split; [|reflexivity]. done.
    - injection H1 as <- <-. exists KeepRoute, x. split_and!; try done. by rewrite placements_id. }
  destruct (mapM _ _) as [remote|]; [|done]. cbn [mbind option_bind]. unfold set_resident, set_destination. cbn [placements with_placements]. rewrite lookup_insert_eq. cbn [mbind option_bind].
  destruct (stage_remote_views _ _ _ _ _) as [[l2 rest]|] eqn:Hgo; [|done]. cbn [mbind option_bind]. intros [<- <-]%(inj Some)%pair_equal_spec.
  exists c, remote, (if resident x then [] else [Effect h (bound_participant (d_origin d)) (Published (anc_track i))]). split_and!; [done|destruct (resident x); repeat constructor; eauto|].
  rewrite (Ht h x Hx). fold (view_ops d i h remote). do 3 f_equal. eapply remote_views_ops; [|exact Hgo].
  pose proof (titled_put l i h x y Ht Hx Ey) as Ht1. refine (titled_put (with_placements (<[(i, h) := y]> (placements l)) l) i h y (mkDestination (placement y) true (route_installed y)) Ht1 _ eq_refl). cbn. by rewrite lookup_insert_eq.
Qed.

(** The four ways a remote shard is brought up to date, and the origin's. *)
Lemma reconciled_deeds i d l l4 l5 residency views :
  titled l i -> (forall s x, placements l !! (i, s) = Some x -> address_shard (address x) = s) ->
  titled l4 i -> (forall s x, placements l4 !! (i, s) = Some x -> address_shard (address x) = s) ->
  (forall s x, placements l !! (i, s) = Some x -> s <> bound_shard (d_origin d) -> s ∉ candidate_remote_shards d -> resident x = true) ->
  (forall s, s ∈ active_remote_shards d -> s ∈ candidate_remote_shards d) ->
  reconcile_remote_residency l i d = Some (l4, residency) -> stage_active_views track_kind l4 i d = Some (l5, views) -> deeds (residency ++ views).
Proof.
  intros Ht Ha Ht4 Ha4 Hr Hsub H4 H5 s. unfold reconcile_remote_residency in H4. apply residencies_ops in H4 as ->.
  destruct (active_views_ops i d l4 l5 views Ht4 Ha4 H5) as (c & remote & announce & Hc & Hann & ->). set (h := bound_shard (d_origin d)) in *. cbn [app].
  set (xs := remote_destinations l i h). assert (NoDup xs.*1) as Hnd by apply NoDup_remote_destinations.
  rewrite !work_app, (work_effects s announce) by done. cbn [app].
  destruct (work_bind (residency_ops d) fst xs s (fun k _ => residency_touches d k) Hnd) as [([s' x] & Hin & Es & ->)|[Hno ->]];
  destruct (work_bind (fun s => view_ops d i s []) id (candidate_remote_shards d) s (fun k _ => view_touches d i k [])) as [(s'' & Hc'' & Es'' & ->)|[Hnc ->]]; try (rewrite list_fmap_id; apply NoDup_remote_shards).
  - cbn in Es, Es''. subst s' s''. apply remote_destinations_spec in Hin as [Hne Hx].
    assert (work_at s (change_route h c) = []) as -> by (apply (work_elsewhere s _ h); [destruct c; repeat constructor; cbn; apply Z.eqb_refl|congruence]).
    rewrite (work_elsewhere s (view_ops d i h remote) h) by (try apply view_touches; congruence). cbn [app].
    unfold residency_ops. rewrite (bool_decide_true (s ∈ candidate_remote_shards d)) by done. rewrite andb_false_r.
    assert (forall c, fitting s (anc_track i) c -> deed s (change_route s c ++ view_ops d i s [])) as Hshow by (intros c' Hc'; by apply deed_show).
    destruct (negb _ && _); [apply (Hshow (NewRoute (address x) (Forward (placement_track (placement x))))); split; [by apply Ha|by apply (Ht s)]|].
    destruct (_ && _); [apply (Hshow (NoRoute (address x))); by apply Ha|by apply (Hshow KeepRoute)].
  - cbn in Es. subst s'. apply remote_destinations_spec in Hin as [Hne Hx].
    assert (work_at s (change_route h c) = []) as -> by (apply (work_elsewhere s _ h); [destruct c; repeat constructor; cbn; apply Z.eqb_refl|congruence]).
    rewrite (work_elsewhere s (view_ops d i h remote) h) by (try apply view_touches; congruence). rewrite app_nil_r.
    assert (s ∉ candidate_remote_shards d) as Hout by (intros Hs; by apply (Hnc s)).
    unfold residency_ops. rewrite (bool_decide_false (s ∈ candidate_remote_shards d)), (Hr s x) by done. cbn [negb andb].
    pose proof (deed_withdraw s [(anc_track i, if route_installed x then Some (address x) else None)]) as Hw. cbn [mbind list_bind] in Hw. rewrite app_nil_r in Hw.
    unfold stage_shard_withdrawal. rewrite (Ht s x Hx). unfold withdraw in Hw. cbn [fst snd] in Hw. destruct (route_installed x); apply Hw; repeat constructor; cbn; [|done]. intros a [= <-]. by apply Ha.
  - cbn in Es''. subst s''. assert (s <> h) as Hne by (by apply elem_of_remote_shards in Hc'' as [? _]).
    assert (work_at s (change_route h c) = []) as -> by (apply (work_elsewhere s _ h); [destruct c; repeat constructor; cbn; apply Z.eqb_refl|congruence]).
    rewrite (work_elsewhere s (view_ops d i h remote) h) by (try apply view_touches; congruence). by apply (deed_show s (anc_track i) KeepRoute).
  - rewrite app_nil_r. cbn [app]. destruct (decide (h = s)) as [<-|Hne].
    + rewrite !work_here by (try apply view_touches; destruct c; repeat constructor; cbn; apply Z.eqb_refl). by apply deed_show.
    + assert (work_at s (change_route h c) = []) as -> by (apply (work_elsewhere s _ h); [destruct c; repeat constructor; cbn; apply Z.eqb_refl|done]).
      rewrite (work_elsewhere s (view_ops d i h remote) h) by (try apply view_touches; done). apply deed_nil.
Qed.

(** ** Removing a track *)

Definition withdrawn s (ws : list (Z * option NodeRouteAddress)) : Prop := Forall (fun w => forall a, w.2 = Some a -> address_shard a = s) ws.

Lemma removal_work l i g l' ops s :
  titled l i -> (forall s x, placements l !! (i, s) = Some x -> address_shard (address x) = s) -> at_rest l -> stage_track_removal l i g = (l', ops) ->
  exists ws, withdrawn s ws /\ work_at s ops = ws ≫= withdraw s.
Proof.
  intros Ht Ha Hr. unfold stage_track_removal. intros [= <- <-]. set (l' := with_candidates _ _). set (ended := match locate g (anc_publisher i) with Some _ => _ | None => _ end).
  rewrite !work_app. rewrite (work_effects s ended) by (unfold ended; repeat case_match; repeat constructor; eauto).
  rewrite !(work_effects s (sorted _ ≫= stage_track_effect _ _ _ _)) by (apply Forall_bind, Forall_true; intros; apply staged_effects). cbn [app].
  destruct (work_bind (withdrawal l i) id (sorted (dom (destinations_of l i))) s) as [(s' & Hs & Es & E')|[_ E']].
  - intros s' _. unfold withdrawal, stage_shard_withdrawal, stage_plan, stage_plans. repeat case_match; repeat constructor; cbn; apply Z.eqb_refl.
  - rewrite list_fmap_id. apply NoDup_sorted.
  - cbn in Es. subst s'. change (destinations_of l' i) with (destinations_of l i).
    assert (exists x, placements l !! (i, s) = Some x) as [x Hx] by (apply elem_of_sorted, elem_of_dom in Hs as [x Hs%destinations_spec]; eauto).
    unfold withdrawal in E' at 2. rewrite Hx, (Hr _ _ Hx) in E'.
    exists [(anc_track i, if route_installed x then Some (address x) else None)]. split.
    + constructor; [|done]. cbn. intros a. destruct (route_installed x); [|done]. intros [= <-]. by apply Ha.
    + etrans; [exact E'|]. cbn [mbind list_bind]. rewrite app_nil_r. unfold stage_shard_withdrawal, withdraw. rewrite (Ht s x Hx). cbn [fst snd]. by destruct (route_installed x).
  - exists []. split; [constructor|]. exact E'.
Qed.

(** ** Views a shard can have *)

Record tidy v : Prop := mk_tidy {
  td_routes : forall s a act, routes v !! (s, a) = Some act -> address_shard a = s /\ is_Some (runtimes v !! (s, subject act));
  td_slots : forall s a a' act act', routes v !! (s, a) = Some act -> routes v !! (s, a') = Some act' ->
    route_slot (address_route a) = route_slot (address_route a') -> a = a';
  td_plans : forall s t, is_Some (plans v !! (s, t)) <-> is_Some (runtimes v !! (s, t));
}.

Section Books.
Context (owner : Z -> Ancestry) (home : Z -> ShardId).
Abbreviation books := (books owner home).

Lemma books_tidy l v : books l v -> at_rest l -> tidy v.
Proof.
  intros Hb Hr. split.
  - intros s a act (i & x & Hx & _ & <- & ->)%(bk_routes _ _ _ _ Hb). destruct (bk_placed _ _ _ _ Hb _ _ _ Hx) as (_ & _ & Hs & _). split; [done|].
    apply (bk_runtimes _ _ _ _ Hb). exists i, x. split_and!; [done|by eapply Hr|]. unfold action. by case_decide.
  - intros s a a' act act' (i & x & Hx & _ & <- & _)%(bk_routes _ _ _ _ Hb) (i' & x' & Hx' & _ & <- & _)%(bk_routes _ _ _ _ Hb) Hs.
    assert (i = i') as <- by (by apply (bk_distinct _ _ _ _ Hb _ _ _ _ _ Hx Hx')). congruence.
  - intros s t. by rewrite (bk_plans _ _ _ _ Hb), (bk_runtimes _ _ _ _ Hb).
Qed.

Lemma books_titled l v i : books l v -> titled l i /\ forall s x, placements l !! (i, s) = Some x -> address_shard (address x) = s.
Proof. intros Hb. split; intros s x Hx; by destruct (bk_placed _ _ _ _ Hb _ _ _ Hx) as (_ & _ & ? & ?). Qed.

Lemma reconcile_deeds l v i g now l' (o : TrackLifecycleOutcome) :
  books l v -> at_rest l -> anchored owner home g i -> numbered g -> reconcile track_kind l i g now = Some (l', o) ->
  deeds (operations o) /\ out_generation o = generation l + 1 /\ generation l' = generation l + 1.
Proof.
  intros Hb Hrest [Hown Hanch] Hnum. unfold reconcile. destruct (next_generation l) as [[l0 gen]|] eqn:Hg; [|done]. cbn [mbind option_bind].
  unfold next_generation, checked_add in Hg. destruct (_ <=? _); [|done]. injection Hg as <- <-.
  set (l0 := mkLifecycle _ _ _ _ _ _). change (desired_state l0 i g) with (desired_state l i g).
  destruct (desired_state l i g) as [d|] eqn:Hd; [|done]. cbn [mbind option_bind]. pose proof (active_sub l i g d) as Hsub.
  destruct (desired_spec l i g d Hd) as (_ & Hor & _). pose proof (Hanch _ Hor) as Hh. pose proof (bound_shard_nonneg _ _ _ _ Hnum Hor) as Hpos.
  destruct (ensure_destination l0 i _ now) as [[l1 x]|] eqn:H1; [|done]. cbn [mbind option_bind].
  assert (books l0 v) as Hb0 by (by apply (books_congr owner home l)).
  destruct (ensure_spec owner home l0 v i _ now l1 x Hb0 Hown Hpos H1) as (Hb1 & X1 & F1 & O1 & _ & _). injection F1 as _ _ _ G1.
  destruct (ensure_reverse_route l1 i (d_track d) _) as [l2 t] eqn:H2.
  assert (placements l2 = placements l1 /\ allocator l2 = allocator l1 /\ generation l2 = generation l1) as (E2 & A2 & G2) by (unfold ensure_reverse_route in H2; destruct (_ || _); by injection H2 as <- _).
  assert (books l2 v) as Hb2 by (by apply (books_congr owner home l1)).
  change (mkDesired t (d_origin d) (d_candidates d) (d_bindings d) (locations d)) with (retracked d t).
  unfold reserve_candidate_destinations. change (candidate_remote_shards (retracked d t)) with (candidate_remote_shards d).
  destruct (reserve_destinations l2 i _ now) as [l3|] eqn:H3; [|done]. cbn [mbind option_bind].
  destruct (reserve_spec owner home i now _ l2 v l3 Hb2 Hown (remote_nonneg l i g d Hnum Hd) H3) as (Hb3 & F3 & _ & _ & _ & W3). injection F3 as _ _ _ G3.
  destruct (reconcile_remote_residency l3 i _) as [[l4 residency]|] eqn:H4; [|done]. cbn [mbind option_bind].
  destruct (residencies_spec owner home i (retracked d t) _ l3 v [] l4 residency Hb3 (NoDup_remote_destinations l3 i (bound_shard (d_origin d)))) as (new & _ & Hb4 & O4 & _ & _); [|by intros s; apply Hsub|exact H4|].
  { intros s y Hy. apply remote_destinations_spec in Hy as [Hne Hy]. split; [done|]. by rewrite <- Hh. }
  destruct (stage_active_views _ l4 i _) as [[l5 views]|] eqn:H5; [|done]. cbn [mbind option_bind].
  destruct (active_views_spec track_kind owner home l4 _ i (retracked d t) l5 views Hb4 Hh (fun s => Hsub s Hd) H5) as (_ & O5 & _).
  intros [<- <-]%(inj Some)%pair_equal_spec. cbn [operations out_generation generation with_bindings with_candidates]. split_and!; [|done|].
  - intros s. rewrite work_app, work_effects by apply transitions_are_effects.
    destruct (books_titled l3 v i Hb3) as [Ht3 Ha3]. destruct (books_titled l4 _ i Hb4) as [Ht4 Ha4].
    eapply (reconciled_deeds i (retracked d t) l3 l4 l5); [done..| |by intros; apply Hsub|exact H4|exact H5].
    intros s' y Hy Hne Hout. destruct (W3 s' y Hy) as [Hy2|(Hin & _)]; [|done]. rewrite E2 in Hy2. cbn in Hne. rewrite O1 in Hy2 by congruence. by eapply Hrest.
  - assert (generation l5 = generation l + 1) as <- by (rewrite (proj1 O5), (proj1 O4); cbn [generation with_placements]; by rewrite G3, G2, G1).
    unfold release_unused_destinations. generalize (filter (fun sx : ShardId * TrackDestination => sx.1 ∉ candidate_remote_shards (retracked d t)) (remote_destinations l5 i (bound_shard (d_origin (retracked d t))))).
    intros xs. clear. revert l5. induction xs as [|sx xs IH]; intros l5; cbn [foldl]; [done|]. by rewrite IH.
Qed.
End Books.

(** ** A sequence of outcomes, each of which leaves the shards in order *)

Inductive trail : Z -> View -> list (TrackLifecycleOutcome (E := E)) -> Prop :=
| trail_nil n v : trail n v []
| trail_cons n v x xs : deeds (operations x) -> out_generation x = n + 1 -> tidy (apply_operations v (operations x)) ->
    trail (n + 1) (apply_operations v (operations x)) xs -> trail n v (x :: xs).
End Deeds.
