(* ===== verification/LifecycleRun.v ===== *)
(** * Runs of the track lifecycle

    Publishing, subscribing, activating and leaving in any order. In every run
    the shards hold what the lifecycle records, a reconciled track reaches
    exactly its subscribers, and nothing is left of a track that ended. *)

From stdpp Require Import sorting.
From S2P Require Import Prelude Route SlotAlloc Room Registry Topology ShardUpdate Lifecycle LifecycleLaws LifecycleRemoval LifecycleDeeds.

Set Default Proof Using "Type".

Section Runs.
Context {E ExternalId Lease : Type}.
Context (track_kind : Z -> TrackKind).

Abbreviation Ancestry := (TrackAncestry (ParticipantId := Z) (RoomId := Z) (TrackId := Z)).
Abbreviation Operation := (TrackLifecycleOperation (E := E)).
Abbreviation Life := (TrackLifecycle (E := E)).
Abbreviation Registry := (RoomRegistry (ParticipantId := Z) (RoomId := Z) (ParticipantExternalId := ExternalId) (AuthorizationLease := Lease)).
Abbreviation View := (View (E := E)).
Abbreviation Topo := (TrackTopology (ParticipantId := Z) (RoomId := Z) (TrackId := Z) (SubscriptionKey := Z) (Body := TrackBody E)).

Context (owner : Z -> Ancestry).
Implicit Types (l : Life) (i : Ancestry) (g : Registry) (d : DesiredTrackState (E := E)) (v : View).

Section Homes.
Context (home : Z -> ShardId).
Abbreviation books := (books owner home).
Abbreviation anchored := (anchored owner home (ExternalId := ExternalId) (Lease := Lease)).

(** ** Who a packet of the track reaches *)

Definition locals v (s : ShardId) (t : Z) : list Z := match plans v !! (s, t) with Some p => local p | None => [] end.

(** From the publisher's shard to its own subscribers and, through the routes of
    its plan, to those of other shards. *)
Definition reached v (s : ShardId) (t : Z) : list Z :=
  match plans v !! (s, t) with
  | Some p => local p ++ (remote p ≫= fun a =>
      match routes v !! (address_shard a, a) with Some (Forward t') => locals v (address_shard a) t' | _ => [] end)
  | None => []
  end.

Lemma elem_of_local_bindings d s p : p ∈ local_bindings d s <-> p ∈ d_bindings d /\ exists b, locations d !! p = Some b /\ bound_shard b = s.
Proof.
  unfold local_bindings. rewrite elem_of_sorted, elem_of_filter. split.
  - intros [Hs Hp]. split; [done|]. destruct (locations d !! p) as [b|]; [|done]. injection Hs as <-. eauto.
  - intros [Hp (b & Hb & <-)]. by rewrite Hb.
Qed.

Lemma reconciled_reach l v i g l' v' d :
  anchored g i -> reconciled owner home l v i g l' v' -> desired_state l i g = Some d ->
  NoDup (reached v' (home (anc_track i)) (anc_track i)) /\ forall p, p ∈ reached v' (home (anc_track i)) (anc_track i) <-> p ∈ d_bindings d.
Proof.
  intros [_ Hanch] [Hb _ (d0 & t & Hd0 & [_ V2 (remote & V3 & V3') V4] & Hact & _) _ _] Hd. rewrite Hd in Hd0. injection Hd0 as <-.
  destruct (desired_spec l i g d Hd) as (_ & Hor & Hc & Hbi & Hloc). pose proof (Hanch _ Hor) as Hh. pose proof (active_sub l i g d) as Hsub.
  cbn [d_origin retracked] in V3. rewrite Hh in V3. unfold reached. rewrite V3. cbn [local ShardUpdate.remote plan_new].
  set (hop := fun a => match routes v' !! (address_shard a, a) with Some (Forward t') => locals v' (address_shard a) t' | _ => [] end).
  assert (forall a, a ∈ unique remote -> exists s, s ∈ active_remote_shards d /\ address_shard a = s /\ hop a = unique (local_bindings d s)) as Hhop.
  { intros a Ha. apply elem_of_unique, V3' in Ha as (s & x & Hs & Hx & Ea). exists s. pose proof (Hsub s Hd Hs) as Hcs.
    destruct (Hact s Hcs) as (x' & Hx' & Hi). rewrite Hx in Hx'. injection Hx' as <-. rewrite bool_decide_true in Hi by done. destruct (bk_placed _ _ _ _ Hb _ _ _ Hx) as (_ & _ & Hsh & _).
    rewrite Ea in Hsh. split; [done|]. split; [done|]. unfold hop. rewrite Hsh.
    assert (routes v' !! (s, a) = Some (action home s (anc_track i))) as Hr.
    { apply (bk_routes _ _ _ _ Hb). by exists i, x. }
    rewrite Hr. apply elem_of_remote_shards in Hcs as [Hne _]. rewrite Hh in Hne. unfold action. rewrite decide_False by done.
    unfold locals. rewrite (V4 s (Hsub s Hd Hs)). done. }
  split.
  - apply NoDup_app. split; [apply NoDup_unique|]. split.
    + intros p Hp Hq. apply elem_of_unique, elem_of_local_bindings in Hp as (_ & b & Hb1 & Hs1).
      apply list_elem_of_bind in Hq as (a & Hq & Ha). destruct (Hhop a Ha) as (s & Hs & _ & Eh). rewrite Eh in Hq.
      apply elem_of_unique, elem_of_local_bindings in Hq as (_ & b' & Hb2 & Hs2). cbn in Hb1. rewrite Hb1 in Hb2. injection Hb2 as <-.
      apply elem_of_remote_shards in Hs as [Hne _]. congruence.
    + apply NoDup_bind; [|intros a Ha; destruct (Hhop a Ha) as (s & _ & _ & ->); apply NoDup_unique|apply NoDup_unique].
      intros a1 a2 p H1 H2 P1 P2. destruct (Hhop a1 H1) as (s1 & S1 & A1 & E1). destruct (Hhop a2 H2) as (s2 & S2 & A2 & E2). rewrite E1 in P1. rewrite E2 in P2.
      apply elem_of_unique, elem_of_local_bindings in P1 as (_ & b1 & L1 & B1). apply elem_of_unique, elem_of_local_bindings in P2 as (_ & b2 & L2 & B2).
      assert (s1 = s2) as -> by congruence. apply elem_of_unique, V3' in H1 as (s3 & x3 & _ & X3 & E3). apply elem_of_unique, V3' in H2 as (s4 & x4 & _ & X4 & E4).
      destruct (bk_placed _ _ _ _ Hb _ _ _ X3) as (_ & _ & T3 & _). destruct (bk_placed _ _ _ _ Hb _ _ _ X4) as (_ & _ & T4 & _). congruence.
  - intros p. rewrite elem_of_app, elem_of_unique, list_elem_of_bind. split.
    + intros [Hp|(a & Hp & Ha)]; [by apply elem_of_local_bindings in Hp as [? _]|]. destruct (Hhop a Ha) as (s & _ & _ & Eh). rewrite Eh in Hp.
      by apply elem_of_unique, elem_of_local_bindings in Hp as [? _].
    + intros Hp. pose proof Hp as [_ Hp']%Hbi. destruct (proj1 (Hc p) Hp') as (_ & _ & [b Hbp]). assert (locations d !! p = Some b) as Hl by (by apply Hloc).
      destruct (decide (bound_shard b = home (anc_track i))) as [Es|Es]; [left; apply elem_of_local_bindings; cbn; eauto|right].
      assert (bound_shard b ∈ active_remote_shards d) as Hs by (apply elem_of_remote_shards; rewrite Hh; eauto 6).
      destruct (V2 _ (Hsub _ Hd Hs)) as (x & Hx & _). assert (address x ∈ unique remote) as Ha by (apply elem_of_unique, V3'; eauto).
      exists (address x). split; [|done]. destruct (Hhop _ Ha) as (s & _ & As & ->). destruct (bk_placed _ _ _ _ Hb _ _ _ Hx) as (_ & _ & Hsh & _).
      apply elem_of_unique, elem_of_local_bindings. split; [done|]. exists b. split; [done|congruence].
Qed.

(** ** The invariant of a run *)

Definition published l i : Prop := is_Some (Topology.source (topology l) (anc_room i) (anc_track i)).

Record sound l v : Prop := mk_sound {
  sd_books : books l v;
  sd_rest : at_rest l;
  sd_titled : forall room t tr, Topology.source (topology l) room t = Some tr -> owner t = mkAncestry room (track_origin tr) t;
  sd_published : forall i s x, placements l !! (i, s) = Some x -> published l i;
  sd_reverse : forall i x tr, placements l !! (i, home (anc_track i)) = Some x -> route_installed x = true ->
    Topology.source (topology l) (anc_room i) (anc_track i) = Some tr -> requires_reverse_route tr = true;
}.

Lemma sound_new n : sound (lifecycle_new n) (mkView ∅ ∅ ∅).
Proof.
  assert (forall s (a : SlotAllocator), allocator (lifecycle_new (E := E) n) !! s = Some a -> exists k, a = with_max_slots k (saturating_add 32 PackedRoute.MAX_SLOT 1)) as Ha.
  { intros s a (k & -> & _)%list_lookup_fmap_Some. by eexists. }
  split; [split| | | |]; cbn [placements lifecycle_new topology routes runtimes plans]; try (intros *; rewrite ?lookup_empty; done).
  - intros s a Hs Hal. apply Ha in Hal as [n0 ->]. split; [by apply with_max_slots_wf|]. intros k. split; [by intros [_ ?]|]. intros (i & x & Hx & _). by rewrite lookup_empty in Hx.
  - intros s a act. rewrite lookup_empty. split; [done|]. intros (i & x & Hx & _). by rewrite lookup_empty in Hx.
  - intros s t. rewrite lookup_empty. split; [by intros []|]. intros (i & x & Hx & _). by rewrite lookup_empty in Hx.
  - intros s t. rewrite lookup_empty. split; [by intros []|]. intros (i & x & Hx & _). by rewrite lookup_empty in Hx.
Qed.

Lemma sound_topology l v T :
  sound l v -> (forall r x, Topology.source T r x = Topology.source (topology l) r x) -> sound (with_topology T l) v.
Proof.
  intros [Hb Hr Ht Hp Hv] HT. split; cbn [placements topology with_topology]; [by apply (books_congr owner home l)|done| | |].
  - intros room t tr. rewrite HT. apply Ht.
  - intros i s x Hx. unfold published. cbn [topology with_topology]. rewrite HT. by eapply Hp.
  - intros i x tr. rewrite HT. apply Hv.
Qed.

Lemma rebodied_source i l l' r x :
  rebodied i l l' -> track_origin <$> Topology.source (topology l') r x = track_origin <$> Topology.source (topology l) r x /\
    requires_reverse_route <$> Topology.source (topology l') r x = requires_reverse_route <$> Topology.source (topology l) r x.
Proof.
  intros [->|(t & rev & Ht & ->)]; [done|]. rewrite source_put_body. case_decide as Hd; [|done]. injection Hd as -> ->. unfold topology_track in Ht. by rewrite Ht.
Qed.

Definition all_operations (os : list (TrackLifecycleOutcome (E := E))) : list Operation := os ≫= operations.

(** The outcomes [os] brought the shards from [v] to what [l'] says, each in order. *)
Record served l v l' (os : list TrackLifecycleOutcome) : Prop := mk_served {
  sv_sound : sound l' (apply_operations v (all_operations os));
  sv_trail : trail (generation l) v os;
  sv_generation : generation l' = generation l + Z.of_nat (length os);
}.

Lemma sound_tidy l v : sound l v -> tidy v.
Proof. intros [Hb Hr _ _ _]. by eapply books_tidy. Qed.

Lemma served_none l l' v : sound l' v -> generation l' = generation l -> served l v l' [].
Proof. intros Hs Hg. split; [exact Hs|constructor|]. cbn. lia. Qed.

Lemma served_one l l' v x :
  sound l' (apply_operations v (operations x)) -> deeds (operations x) -> out_generation x = generation l + 1 -> generation l' = generation l + 1 -> served l v l' [x].
Proof.
  intros Hs Hd Hx Hg. split; [|constructor; [done..|by eapply sound_tidy|constructor]|cbn; lia].
  change (all_operations [x]) with (operations x ++ []). by rewrite app_nil_r.
Qed.

Lemma served_topology (T : Topo) l v l' os : served (with_topology T l) v l' os -> served l v l' os.
Proof. intros [A1 A2 A3]. by split. Qed.

Lemma served_app l v l1 os l2 os' : served l v l1 os -> served l1 (apply_operations v (all_operations os)) l2 os' -> served l v l2 (os ++ os').
Proof.
  intros [A1 A2 A3] [B1 B2 B3]. rewrite A3 in B2. split; [unfold all_operations; rewrite bind_app, apply_app; exact B1| |rewrite length_app; lia].
  clear -A2 B2. revert v A2 B2. generalize (generation l). intros n v. revert n v.
  induction os as [|x os IH]; intros n v A2 B2; cbn [app].
  - cbn in B2. by rewrite Z.add_0_r in B2.
  - inversion A2 as [|? ? ? ? D1 D2 D3 D4]; subst. constructor; [done..|]. apply IH; [done|].
    replace (n + 1 + Z.of_nat (length os)) with (n + Z.of_nat (length (x :: os))) by (cbn; lia). unfold all_operations in B2. cbn [mbind list_bind] in B2. by rewrite apply_app in B2.
Qed.

Lemma reconcile_published l i g now r : reconcile track_kind l i g now = Some r -> published l i.
Proof.
  unfold reconcile, next_generation. destruct (checked_add 64 (generation l) 1); [|done]. cbn [mbind option_bind]. unfold desired_state, topology_track. cbn [topology].
  unfold published. by destruct (Topology.source _ _ _).
Qed.

Lemma reconcile_sound l v i g now l' o :
  sound l v -> (published l i -> anchored g i) -> numbered g -> reconcile track_kind l i g now = Some (l', o) ->
  served l v l' [o] /\ forall j, published l' j <-> published l j.
Proof.
  intros [Hb Hr Ht Hp Hv] Hset Hnum Hrec. assert (published l i) as Hpub by (by eapply reconcile_published). pose proof (Hset Hpub) as Hanch.
  destruct (reconcile_spec track_kind owner home l v i g now l' o Hb Hr Hanch Hnum Hrec) as [Hb' Hr' (d & t & Hd & _ & _ & (xh & Hxh & Fxh) & _) Hother Htop].
  assert (forall r x, is_Some (Topology.source (topology l) r x) -> is_Some (Topology.source (topology l') r x)) as Hkeep.
  { intros r x. rewrite <- !(fmap_is_Some track_origin). by rewrite (proj1 (rebodied_source i l l' r x Htop)). }
  split.
  2: { intros j. unfold published. rewrite <- !(fmap_is_Some track_origin). by rewrite (proj1 (rebodied_source i l l' _ _ Htop)). }
  destruct (reconcile_deeds track_kind owner home l v i g now l' o Hb Hr Hanch Hnum Hrec) as (Hd1 & Hd2 & Hd3). apply served_one; [|done..].
  split; [done|done|..].
  - intros room t' tr Htr. pose proof (rebodied_source i l l' room t' Htop) as [E' _]. rewrite Htr in E'.
    destruct (Topology.source (topology l) room t') as [tr0|] eqn:Htr0; [|done]. injection E' as ->. by apply Ht.
  - intros j s x Hx. apply Hkeep. destruct (decide (j = i)) as [->|Hne].
    + destruct (desired_spec l i g d Hd) as ((track & Htrack & _) & _). by exists track.
    + rewrite (Hother (j, s)) in Hx by done. by eapply Hp.
  - intros j x tr Hx Hi Htr. pose proof (rebodied_source i l l' (anc_room j) (anc_track j) Htop) as [_ E']. rewrite Htr in E'.
    destruct (Topology.source (topology l) (anc_room j) (anc_track j)) as [tr0|] eqn:Htr0; [|done]. injection E' as ->.
    destruct (decide (j = i)) as [->|Hne]; [|rewrite (Hother (j, home (anc_track j))) in Hx by done; by eapply Hv].
    destruct (desired_spec l i g d Hd) as ((track & Htrack & Ed) & _). unfold topology_track in Htrack. rewrite Htr0 in Htrack. injection Htrack as <-.
    rewrite Hx in Hxh. injection Hxh as <-. rewrite Hi, Ed in Fxh. destruct (requires_reverse_route tr0) eqn:Hq; [done|]. cbn in Fxh.
    destruct (placements l !! (i, home (anc_track i))) as [y|] eqn:Hy; [|done]. cbn in Fxh. rewrite <- Hq. by eapply Hv.
Qed.

Lemma reconcile_all_sound ids l v g now l' os :
  sound l v -> Forall (fun i => published l i -> anchored g i) ids -> numbered g -> reconcile_all track_kind l ids g now = Some (l', os) ->
  served l v l' os /\ forall j, published l' j <-> published l j.
Proof.
  intros Hs Hids Hnum. revert l v os Hs Hids. induction ids as [|i ids IH]; intros l v os Hs Hids; cbn [reconcile_all].
  - intros [= <- <-]. split; [by apply served_none|done].
  - destruct (reconcile track_kind l i g now) as [[l1 o]|] eqn:H1; [|done]. cbn [mbind option_bind].
    destruct (reconcile_all track_kind l1 ids g now) as [[l2 os']|] eqn:H2; [|done]. cbn [mbind option_bind]. intros [= <- <-].
    apply Forall_cons in Hids as [Hi Hids]. destruct (reconcile_sound l v i g now l1 o Hs Hi Hnum H1) as [Hs1 Hp1].
    destruct (IH l1 (apply_operations v (all_operations [o])) os' (sv_sound _ _ _ _ Hs1)) as [Hs2 Hp2]; [|done|].
    + eapply Forall_impl; [exact Hids|]. intros j Hj Hpj. by apply Hj, Hp1.
    + split; [by apply (served_app l v l1 [o] l2 os')|]. intros j. by rewrite Hp2, Hp1.
Qed.

(** ** Ending tracks *)

Lemma generation_sound l v l' gen : sound l v -> next_generation l = Some (l', gen) -> sound l' v /\ topology l' = topology l /\ placements l' = placements l.
Proof.
  unfold next_generation. destruct (checked_add 64 (generation l) 1); [|done]. intros [Hb Hr Ht Hp Hv] [= <- <-]. split; [|done]. split; try done. by apply (books_congr owner home l).
Qed.

Lemma next_generation_spec l l' gen : next_generation l = Some (l', gen) -> generation l' = generation l + 1 /\ gen = generation l + 1.
Proof. unfold next_generation, checked_add. destruct (_ <=? _); [|done]. by intros [= <- <-]. Qed.

Definition removals l g (is_ : list Ancestry) ops : Life * list Operation :=
  foldl (fun acc i => let '(l, ops) := stage_track_removal acc.1 i g in (l, acc.2 ++ ops)) (l, ops) is_.

Lemma removals_spec g v js K l ops :
  at_rest l -> NoDup js -> (forall i s, i ∈ js -> (i, s) ∉ K) -> books (erase K l) (apply_operations v ops) ->
  let r := removals l g js ops in
  exists K', books (erase K' r.1) (apply_operations v r.2) /\ (forall k, k ∈ K' <-> k ∈ K \/ (k.1 ∈ js /\ is_Some (placements l !! k))) /\
    placements r.1 = placements l /\ topology r.1 = topology l.
Proof.
  revert K l ops. induction js as [|i js IH]; intros K l ops Hr Hnd HK Hb; cbn zeta.
  - exists K. split_and!; try done. intros k. without_kind set_solver.
  - apply NoDup_cons in Hnd as [Hi Hnd]. unfold removals. cbn [foldl]. destruct (stage_track_removal (l, ops).1 i g) as [l1 ops1] eqn:H1. cbn [fst snd] in *.
    destruct (removal_spec owner home K l _ i g l1 ops1 Hr (fun s => HK i s ltac:(by left)) Hb H1) as (Hb1 & Ep & Et & _). rewrite <- apply_app in Hb1.
    destruct (IH (destination_keys l i ∪ K) l1 (ops ++ ops1)) as (K' & Hb' & HK' & Ep' & Et'); [| |..|].
    + intros k x. rewrite Ep. apply Hr.
    + done.
    + intros j s Hj [[E' _]%elem_of_destination_keys|Hin]%elem_of_union; [cbn in E'; by subst|]. by apply (HK j s); [right|].
    + done.
    + change (foldl _ (l1, ops ++ ops1) js) with (removals l1 g js (ops ++ ops1)). exists K'. split_and!; [done| |by rewrite Ep'|by rewrite Et']. intros k. rewrite HK', elem_of_union, elem_of_destination_keys, elem_of_cons, Ep. without_kind naive_solver.
Qed.

Lemma releases_all_spec K v now js l :
  (forall i s, i ∈ js -> is_Some (placements l !! (i, s)) -> (i, s) ∈ K) -> books (erase K l) v ->
  let l' := foldl (fun l i => release_placements l i now) l js in
  books (erase K l') v /\ topology l' = topology l /\ (forall k, placements l' !! k = if decide (k.1 ∈ js) then None else placements l !! k).
Proof.
  revert l. induction js as [|i js IH]; intros l HK Hb; cbn [foldl].
  - split_and!; try done.
  - destruct (release_placements_spec owner home K l v i now) as (Hb1 & T1 & _ & _ & _ & P1); [intros s; apply HK; by left|done|].
    destruct (IH (release_placements l i now)) as (Hb2 & T2 & P2); [|done|].
    + intros j s Hj Hs. rewrite P1 in Hs. cbn in Hs. case_decide; [by destruct Hs|]. apply HK; [by right|done].
    + split_and!; [done|congruence|]. intros k. rewrite P2, P1. repeat case_decide; (done || without_kind set_solver).
Qed.

Lemma removals_work g js l ops s :
  (forall i, i ∈ js -> titled l i /\ forall s x, placements l !! (i, s) = Some x -> address_shard (address x) = s) -> at_rest l ->
  (exists ws, withdrawn s ws /\ work_at s (removals l g js ops).2 = work_at s ops ++ (ws ≫= withdraw s)) /\ generation (removals l g js ops).1 = generation l.
Proof.
  revert l ops. induction js as [|i js IH]; intros l ops Hjs Hr.
  - split; [|done]. exists []. split; [constructor|]. cbn. by rewrite app_nil_r.
  - destruct (Hjs i ltac:(by left)) as [Ht Ha]. unfold removals. cbn [foldl]. destruct (stage_track_removal (l, ops).1 i g) as [l1 ops1] eqn:H1. cbn [fst snd] in *.
    destruct (removal_work l i g l1 ops1 s Ht Ha Hr H1) as (ws & Hws & Ew).
    assert (placements l1 = placements l /\ generation l1 = generation l) as [Ep Eg] by (unfold stage_track_removal in H1; by injection H1 as <- _).
    change (foldl _ (l1, ops ++ ops1) js) with (removals l1 g js (ops ++ ops1)). destruct (IH l1 (ops ++ ops1)) as [(ws' & Hws' & Ew') Eg'].
    + intros j Hj. unfold titled. rewrite Ep. apply Hjs. by right.
    + intros k x. rewrite Ep. apply Hr.
    + split; [|congruence]. exists (ws ++ ws'). split; [by apply Forall_app|]. rewrite Ew', work_app, Ew, bind_app, app_assoc. done.
Qed.

Lemma releases_generation (now : Z) js l : generation (foldl (fun l i => release_placements l i now) l js) = generation l.
Proof.
  assert (forall (xs : list (ShardId * TrackDestination)) i l, generation (foldl (fun l sx => release l i now sx) l xs) = generation l) as Hone.
  { intros xs i. induction xs as [|x xs IH]; intros l0; cbn [foldl]; [done|]. by rewrite IH. }
  revert l. induction js as [|i js IH]; intros l; cbn [foldl]; [done|]. rewrite IH. unfold release_placements. cbn [generation with_bindings with_candidates]. apply Hone.
Qed.

(** Tracks leave the topology and the shards together. *)
Lemma ended_sound l v g now js T :
  sound l v -> NoDup js -> (forall r x tr, Topology.source T r x = Some tr -> Topology.source (topology l) r x = Some tr) ->
  (forall i, owner (anc_track i) = i -> published l i -> i ∉ js -> is_Some (Topology.source T (anc_room i) (anc_track i))) ->
  let r := removals l g js [] in
  let l' := foldl (fun l i => release_placements l i now) (with_topology T r.1) js in
  sound l' (apply_operations v r.2) /\ deeds r.2 /\ generation l' = generation l /\ topology l' = T /\ (forall k, placements l' !! k = if decide (k.1 ∈ js) then None else placements l !! k).
Proof.
  intros [Hb Hr Ht Hp Hv] Hnd Hsub Hstay. cbn zeta.
  destruct (removals_spec g v js ∅ l []) as (K & Hb1 & HK & Ep & _); [done|done|without_kind set_solver|by rewrite erase_absent by without_kind set_solver|].
  destruct (releases_all_spec K (apply_operations v (removals l g js []).2) now js (with_topology T (removals l g js []).1)) as (Hb2 & T2 & P2).
  { intros i s Hi. cbn [placements with_topology]. rewrite Ep. intros Hs. apply HK. by right. }
  { by apply (books_congr owner home (erase K (removals l g js []).1)). }
  set (l' := foldl _ _ js) in *. cbn [placements topology with_topology] in *. rewrite Ep in P2.
  rewrite erase_absent in Hb2. 2:{ intros k [?%not_elem_of_empty|[Hk _]]%HK; [done|]. by rewrite P2, decide_True. }
  assert (forall s, (exists ws, withdrawn s ws /\ work_at s (removals l g js []).2 = work_at s [] ++ (ws ≫= withdraw s)) /\ generation (removals l g js []).1 = generation l) as Hwork.
  { intros s. apply removals_work; [|done]. intros i _. by apply (books_titled owner home l v). }
  split; [|split_and!; [|unfold l'; rewrite releases_generation; by destruct (Hwork 0)|done|done]].
  2: { intros s. destruct (Hwork s) as [(ws & Hws & ->) _]. by apply deed_withdraw. }
  split; [done|..].
  - intros k x. rewrite P2. case_decide; [done|]. apply Hr.
  - intros room t tr. rewrite T2. intros Htr. by apply Ht, Hsub.
  - intros i s x. rewrite P2. cbn [fst]. case_decide as Hi; [done|]. intros Hx. unfold published. rewrite T2. apply Hstay; [|by eapply Hp|done].
    by destruct (bk_placed _ _ _ _ Hb _ _ _ Hx) as [? _].
  - intros i x tr. rewrite P2, T2. case_decide; [done|]. intros Hx Hi Htr. eapply Hv; [done..|by apply Hsub].
Qed.

Lemma unpublish_sound l v o t g now l' r :
  sound l v -> anc_publisher (owner t) = o -> unpublish track_kind l o t g now = Some (l', r) ->
  served l v l' (option_list r) /\ (forall j, published l' j -> published l j) /\
  (is_Some r -> topology l' = (topology_unpublish track_kind (topology l) (owner t)).1 /\ forall k, placements l' !! k = if decide (k.1 = owner t) then None else placements l !! k).
Proof.
  intros Hs Ho. unfold unpublish. destruct (locate g o) as [at_|]; [|intros [= <- <-]; split_and!; [by apply served_none|done|by intros []]].
  set (i := mkAncestry (loc_room at_) o t). destruct (contains (topology l) i) eqn:Hc; cbn [negb]; [|intros [= <- <-]; split_and!; [by apply served_none|done|by intros []]].
  assert (owner t = i) as Ei.
  { unfold contains in Hc. cbn [anc_room anc_track i] in Hc. destruct (topology l !! loc_room at_) as [G|] eqn:HT; [|done]. apply bool_decide_eq_true in Hc as [pub Hpub].
    assert (Topology.source (topology l) (loc_room at_) t = Some (pub_track pub)) as Hsrc by (unfold Topology.source; rewrite HT; cbn; by rewrite Hpub).
    pose proof (sd_titled _ _ Hs _ _ _ Hsrc) as E'. rewrite E' in Ho. cbn in Ho. unfold i. by rewrite E', Ho. }
  destruct (next_generation l) as [[l0 gen]|] eqn:Hg; [|done]. cbn [mbind option_bind].
  assert (sound l0 v /\ placements l0 = placements l /\ topology l0 = topology l) as (Hs0 & Ep & Et).
  { destruct (generation_sound l v l0 gen Hs Hg) as (? & ? & ?). done. }
  pose proof (ended_sound l0 v g now [i] (topology_unpublish track_kind (topology l) i).1 Hs0 (NoDup_singleton i)) as Hend.
  unfold removals in Hend. cbn [foldl fst snd app] in Hend. destruct (stage_track_removal l0 i g) as [l1 ops] eqn:H1. cbn [fst snd app] in Hend.
  assert (topology l1 = topology l) as Et1 by (unfold stage_track_removal in H1; by injection H1 as <- _).
  rewrite Et1. intros [= <- <-]. destruct (next_generation_spec l l0 gen Hg) as [Eg ->].
  destruct Hend as (Hs' & Hd' & G' & T' & P').
  - intros r x tr. rewrite source_unpublish, Et. case_decide; done.
  - intros j Hj Hjp Hji%not_elem_of_cons. rewrite source_unpublish. case_decide as Hd; [|unfold published in Hjp; by rewrite Et in Hjp].
    injection Hd as E1 E2. destruct Hji as [Hji _]. destruct Hji. rewrite <- Hj, E2. cbn. by rewrite Ei.
  - split_and!; [apply served_one; [done|done|done|by rewrite G']|intros j; unfold published; rewrite T', source_unpublish; by case_decide|]. intros _. split; [by rewrite T', Ei|]. intros k. rewrite P', Ep, Ei. repeat case_decide; (done || without_kind set_solver).
Qed.

Lemma remove_participant_sound l v p g now l' os :
  sound l v -> (forall i, published l i -> owner (anc_track i) = i -> anc_publisher i <> p -> anchored g i) -> numbered g ->
  remove_participant track_kind l p g now = Some (l', os) ->
  served l v l' os /\ forall j, owner (anc_track j) = j -> published l' j -> published l j /\ anc_publisher j <> p.
Proof.
  intros Hs Hset Hnum. unfold remove_participant. set (affected := filter _ (identities (topology l))). set (retiring := filter (fun i => anc_publisher i = p) affected).
  assert (forall i, i ∈ affected -> owner (anc_track i) = i) as Haff.
  { intros i [_ (tr & Htr & Ho)%elem_of_identities]%list_elem_of_filter. rewrite (sd_titled _ _ Hs _ _ _ Htr), Ho. by destruct i. }
  destruct (match retiring with [] => _ | _ => _ end) as [[l1 first]|] eqn:H1; [|done]. cbn [mbind option_bind].
  assert (exists l0, sound l0 v /\ topology l0 = topology l /\ l1 = (removals l0 g retiring []).1 /\
    ((retiring = [] /\ first = [] /\ l0 = l) \/ (generation l0 = generation l + 1 /\ first = [mkOutcome (generation l + 1) (removals l0 g retiring []).2]))) as (l0 & Hs0 & Et & -> & Hf).
  { destruct retiring as [|i0 is0]; [injection H1 as <- <-; exists l; split_and!; try done; by left|].
    destruct (next_generation l) as [[l0 gen]|] eqn:Hg; [|done]. destruct (generation_sound l v l0 gen Hs Hg) as (Hs0 & Et & _). destruct (next_generation_spec l l0 gen Hg) as [Eg ->]. cbn [mbind option_bind] in H1.
    exists l0. fold (removals l0 g (i0 :: is0) []) in H1. destruct (removals l0 g (i0 :: is0) []) as [l1' ops]; injection H1 as <- <-. split_and!; try done. by right. }
  assert (topology (removals l0 g retiring []).1 = topology l) as Et1.
  { rewrite <- Et. destruct Hs0 as [Hb0 Hr0 _ _ _]. destruct (removals_spec g v retiring ∅ l0 []) as (K & _ & _ & _ & ?); [done| |without_kind set_solver|by rewrite erase_absent by without_kind set_solver|done].
    apply NoDup_filter, NoDup_filter, NoDup_identities. }
  rewrite Et1. destruct (ended_sound l0 v g now retiring (topology_remove_participant track_kind (topology l) p) Hs0) as (Hs2 & Hd2 & G2 & T2 & _).
  { apply NoDup_filter, NoDup_filter, NoDup_identities. }
  { intros r x tr. rewrite source_remove_participant, Et. destruct (Topology.source (topology l) r x) as [tr0|]; [|done]. cbn. by case_decide. }
  { intros i Hi [tr Htr] Hnot. rewrite Et in Htr. rewrite source_remove_participant, Htr. cbn. case_decide as Ho; [|done]. destruct Hnot.
    assert (anc_publisher i = p) as Hp by (rewrite <- Hi, (sd_titled _ _ Hs _ _ _ Htr); done).
    unfold retiring, affected. rewrite !list_elem_of_filter, elem_of_identities. split_and!; [done|by left|]. exists tr. by rewrite Hp. }
  set (l2 := foldl _ _ retiring) in *. destruct (reconcile_all track_kind l2 _ g now) as [[l3 rest]|] eqn:H3; [|done]. cbn [mbind option_bind]. intros [= <- <-].
  assert (served l v l2 first) as Hfirst.
  { destruct Hf as [(Er & -> & ->)|[Eg ->]].
    - apply served_none; [|done]. clear -Hs2 Er. rewrite Er in Hs2. exact Hs2.
    - by apply served_one; [..|by rewrite G2]. }
  assert (forall j, owner (anc_track j) = j -> published l2 j -> published l j /\ anc_publisher j <> p) as Hleft.
  { intros j Hj. unfold published. rewrite T2, source_remove_participant. destruct (Topology.source (topology l) (anc_room j) (anc_track j)) as [tr|] eqn:Htr; cbn; [|by intros []].
    case_decide as Ho; [by intros []|]. intros _. split; [done|]. rewrite <- Hj, (sd_titled _ _ Hs _ _ _ Htr). done. }
  destruct (reconcile_all_sound (filter (fun i => contains (topology l2) i = true) affected) l2 (apply_operations v (all_operations first)) g now l3 rest (sv_sound _ _ _ _ Hfirst)) as [Hs3 Hp3]; [|done|done|].
  - apply Forall_forall. intros i [_ Hi]%list_elem_of_filter Hpi. pose proof (Haff i Hi) as Hoi. destruct (Hleft i Hoi Hpi) as [? ?]. by apply Hset.
  - split; [by eapply served_app|]. intros j Hj Hpj. by apply Hleft, Hp3.
Qed.

(** ** Runs *)

Inductive LifeOp :=
| OPublish (t : Topology.Track (ParticipantId := Z) (RoomId := Z) (TrackId := Z) (Body := TrackBody E))
| OUnpublish (origin t : Z)
| OActivate (i : Ancestry) (p : Z)
| ODeactivate (i : Ancestry) (p : Z)
| OSubscribe (room p id : Z) (s : TrackSelector (ParticipantId := Z) (TrackId := Z)) (policy : SelectionPolicy)
| OUnsubscribe (room p : Z) (s : TrackSelector (ParticipantId := Z) (TrackId := Z))
| OSetOwned (room p id ref t : Z) (enabled : bool)
| OUnsubscribeOwned (room p ref : Z)
| OSubscribeDefaults (room p : Z) (ss : list (Z * TrackSelector (ParticipantId := Z) (TrackId := Z) * SelectionPolicy))
| ORemoveParticipant (p : Z).

(** A call of the controller; [None] aborts it. *)
Definition perform l (o : LifeOp) g (now : Z) : option (Life * list (TrackLifecycleOutcome (E := E))) :=
  let some := fun r : option (Life * TrackLifecycleOutcome) => '(l, x) ← r; Some (l, [x]) in
  let optional := fun r : option (Life * option TrackLifecycleOutcome) => '(l, x) ← r; Some (l, option_list x) in
  match o with
  | OPublish t => optional (publish track_kind l t g now)
  | OUnpublish origin t => optional (unpublish track_kind l origin t g now)
  | OActivate i p => some (activate track_kind l i p g now)
  | ODeactivate i p => some (deactivate track_kind l i p g now)
  | OSubscribe room p id s policy => subscribe track_kind l room p id s policy g now
  | OUnsubscribe room p s => unsubscribe track_kind l room p s g now
  | OSetOwned room p id ref t enabled => set_owned_subscription track_kind l room p id ref t enabled g now
  | OUnsubscribeOwned room p ref => unsubscribe_owned track_kind l room p ref g now
  | OSubscribeDefaults room p ss => subscribe_defaults track_kind l room p ss g now
  | ORemoveParticipant p => remove_participant track_kind l p g now
  end.

(** An operation names tracks by the publication they belong to. *)
Definition named (o : LifeOp) : Prop :=
  match o with
  | OPublish t => owner (track_id t) = from_track t
  | OUnpublish origin t => anc_publisher (owner t) = origin
  | OActivate i _ | ODeactivate i _ => owner (anc_track i) = i
  | _ => True
  end.

(** Whom an operation concerns: its publisher is where its track is at home,
    but for the tracks that end with the publisher that leaves. *)
Definition publishes (o : LifeOp) i : Prop := match o with OPublish t => from_track t = i | _ => False end.
Definition ends (o : LifeOp) i : Prop := match o with ORemoveParticipant p => anc_publisher i = p | _ => False end.
Definition settled l (o : LifeOp) g : Prop :=
  forall i b, owner (anc_track i) = i -> published l i \/ publishes o i -> ~ ends o i ->
    bound_in_room g (anc_publisher i) (anc_room i) = Some b -> bound_shard b = home (anc_track i).

Lemma publish_sound l v t g now l' r :
  sound l v -> anchored g (from_track t) -> numbered g -> publish track_kind l t g now = Some (l', r) ->
  served l v l' (option_list r) /\ forall j, owner (anc_track j) = j -> published l' j -> published l j \/ j = from_track t.
Proof.
  intros Hs Hanch Hnum. pose proof Hanch as [Ho _]. unfold publish. assert (sound (with_topology (topology_publish track_kind (topology l) t).1 l) v) as Hs1.
  { pose proof (source_publish track_kind (topology l) t) as Hsrc. destruct (topology_publish track_kind (topology l) t) as [T [i|]]; cbn [fst snd] in *; [|apply sound_topology; [done|]; apply Hsrc].
    destruct Hs as [Hb Hr Ht Hp Hv]. split; cbn [placements topology with_topology]; [by apply (books_congr owner home l)|done|..].
    - intros room x tr. rewrite (proj1 (Hsrc room x)). case_decide as Hd; [injection Hd as -> ->; intros [= <-]; done|apply Ht].
    - intros j s x Hx. unfold published. cbn [topology with_topology]. rewrite (proj1 (Hsrc _ _)). case_decide; [done|]. by eapply Hp.
    - intros j x tr Hx Hi. rewrite (proj1 (Hsrc _ _)). case_decide as Hd; [|by eapply Hv]. injection Hd as E1 E2.
      destruct (Hp _ _ _ Hx) as [tr0 Htr0]. destruct (proj2 (Hsrc 0 0) i eq_refl) as [_ Hno]. rewrite E1, E2 in Htr0. congruence. }
  assert (forall j, owner (anc_track j) = j -> published (with_topology (topology_publish track_kind (topology l) t).1 l) j -> published l j \/ j = from_track t) as Hnew.
  { intros j Hj. unfold published. cbn [topology with_topology]. pose proof (source_publish track_kind (topology l) t (anc_room j) (anc_track j)) as Hsrc.
    destruct (topology_publish track_kind (topology l) t) as [T [i|]]; cbn [fst snd] in *; [|rewrite (proj1 Hsrc); by left].
    rewrite (proj1 Hsrc). case_decide as Hd; [|by left]. intros _. right. injection Hd as E1 E2. by rewrite <- Hj, E2. }
  pose proof (proj2 (source_publish track_kind (topology l) t 0 0)) as Hi. destruct (topology_publish track_kind (topology l) t) as [T [i|]]; cbn [fst snd] in *.
  - specialize (Hi i eq_refl) as [-> _]. destruct (reconcile track_kind _ _ g now) as [[l1 o]|] eqn:H1; [|done]. cbn [mbind option_bind]. intros [= <- <-].
    destruct (reconcile_sound _ v (from_track t) g now l1 o Hs1 (fun _ => Hanch) Hnum H1) as [Hs2 Hp2].
    split; [by apply (served_topology T)|]. intros j Hj Hpj. apply Hnew; [done|]. by apply Hp2.
  - intros [= <- <-]. split; [by apply served_none|done].
Qed.

Lemma matching_owned l v (T : Topo) room s :
  sound l v -> (forall r x, Topology.source T r x = Topology.source (topology l) r x) -> Forall (fun i => owner (anc_track i) = i) (matching_tracks track_kind T room s).
Proof.
  intros Hs HT. apply Forall_forall. intros i (tr & Htr & E')%elem_of_matching_tracks. rewrite HT in Htr. by rewrite (sd_titled _ _ Hs _ _ _ Htr), <- E'.
Qed.

Lemma published_topology l (T : Topo) j :
  (forall r x, Topology.source T r x = Topology.source (topology l) r x) -> published (with_topology T l) j <-> published l j.
Proof. intros HT. unfold published. cbn [topology with_topology]. by rewrite HT. Qed.

(** What is published after an operation. *)
Definition leaves l (o : LifeOp) l' : Prop :=
  forall j, owner (anc_track j) = j -> published l' j -> (published l j \/ publishes o j) /\ ~ ends o j.

(** Reconciling tracks after their subscriptions changed. *)
Lemma reconciled_sound l v o g now (T : Topo) ids l' os :
  sound l v -> settled l o g -> numbered g -> (forall r x, Topology.source T r x = Topology.source (topology l) r x) -> (forall i, ~ ends o i) ->
  Forall (fun i => owner (anc_track i) = i) ids -> reconcile_all track_kind (with_topology T l) ids g now = Some (l', os) ->
  served l v l' os /\ leaves l o l'.
Proof.
  intros Hs Hset Hnum HT Hend Hids Hrec. destruct (reconcile_all_sound ids (with_topology T l) v g now l' os) as [Hs' Hp']; [by apply sound_topology| |done|done|].
  - eapply Forall_impl; [exact Hids|]. intros i Hi Hp%published_topology; [|done]. split; [done|]. intros b. apply Hset; [done|by left|done].
  - split; [by apply (served_topology T)|]. intros j _ Hj%Hp'%published_topology; [|done]. split; [by left|done].
Qed.

Lemma perform_sound l v o g now l' os :
  sound l v -> settled l o g -> numbered g -> named o -> perform l o g now = Some (l', os) ->
  served l v l' os /\ leaves l o l'.
Proof.
  intros Hs Hset Hnum Hn.
  assert (forall T : Topo, (forall r x, Topology.source T r x = Topology.source (topology l) r x) -> (forall i, ~ ends o i) ->
    served l v (with_topology T l) [] /\ leaves l o (with_topology T l)) as Hquiet.
  { intros T HT Hend. split; [apply served_none; [by apply sound_topology|done]|]. intros j _ Hj%published_topology; [|done]. split; [by left|done]. }
  assert (forall (T : Topo) i, (forall r x, Topology.source T r x = Topology.source (topology l) r x) -> (forall i, ~ ends o i) -> owner (anc_track i) = i ->
    ('(l, x) ← reconcile track_kind (with_topology T l) i g now; Some (l, [x])) = Some (l', os) -> served l v l' os /\ leaves l o l') as Hone.
  { intros T i HT Hend Hi H1. eapply (reconciled_sound l v o g now T [i]); [done..|by constructor|]. cbn [reconcile_all].
    destruct (reconcile track_kind (with_topology T l) i g now) as [[l1 x]|]; [|done]. exact H1. }
  destruct o as [t|o t|i p|i p|room p id s policy|room p s|room p id ref t b|room p ref|room p ss|p]; cbn [perform].
  - destruct (publish track_kind l t g now) as [[l1 r]|] eqn:H1; [|done]. intros [= <- <-].
    assert (anchored g (from_track t)) as Ha by (split; [done|intros b; apply Hset; [done|by right|by intros []]]).
    destruct (publish_sound l v t g now l1 r Hs Ha Hnum H1) as [Hs1 Hp1]. split; [done|]. intros j Hj Hpj. split; [|by intros []].
    destruct (Hp1 j Hj Hpj) as [?| ->]; [by left|by right].
  - destruct (unpublish track_kind l o t g now) as [[l1 r]|] eqn:H1; [|done]. intros [= <- <-].
    destruct (unpublish_sound l v o t g now l1 r Hs Hn H1) as (Hs1 & Hsub & _). split; [done|]. intros j _ Hj. split; [left; by apply Hsub|by intros []].
  - apply Hone; [|by intros ? []|done]. intros. apply (source_subscriptions track_kind (topology l) 0 0 p (selector_track 0) All 0 0 true i).
  - apply Hone; [|by intros ? []|done]. intros. apply (source_subscriptions track_kind (topology l) 0 0 p (selector_track 0) All 0 0 true i).
  - intros H1. eapply reconciled_sound; [done..| | | |exact H1]; [|by intros ? []|by eapply matching_owned]. intros. apply (source_subscriptions track_kind (topology l) room id p s policy 0 0 true (mkAncestry 0 0 0)).
  - unfold unsubscribe. destruct (topology_remove_matching track_kind (topology l) room p s) as [T removed] eqn:HR.
    assert (forall r x, Topology.source T r x = Topology.source (topology l) r x) as HTs.
    { intros r x. pose proof (source_subscriptions track_kind (topology l) room 0 p s All 0 0 true (mkAncestry 0 0 0) r x) as (_ & _ & _ & E' & _). by rewrite HR in E'. }
    destruct removed; [|intros [= <- <-]; apply Hquiet; [done|by intros ? []]]. intros H1. eapply reconciled_sound; [done..|by intros ? []| |exact H1]. by eapply matching_owned.
  - unfold set_owned_subscription. destruct (source l room p t g); [|intros [= <- <-]; split; [by apply served_none|]; intros j _ Hj; split; [by left|by intros []]].
    destruct (topology_set_owned track_kind (topology l) room id p ref t b) as [T changed] eqn:HR.
    assert (forall r x, Topology.source T r x = Topology.source (topology l) r x) as HTs.
    { intros r x. pose proof (source_subscriptions track_kind (topology l) room id p (selector_track t) All ref t b (mkAncestry 0 0 0) r x) as (_ & E' & _). by rewrite HR in E'. }
    destruct changed; [|intros [= <- <-]; apply Hquiet; [done|by intros ? []]]. intros H1. eapply reconciled_sound; [done..|by intros ? []| |exact H1]. by eapply matching_owned.
  - unfold unsubscribe_owned. destruct (topology_remove_owned track_kind (topology l) room p ref) as [T removed] eqn:HR.
    assert (forall r x, Topology.source T r x = Topology.source (topology l) r x) as HTs.
    { intros r x. pose proof (source_subscriptions track_kind (topology l) room 0 p (selector_track 0) All ref 0 true (mkAncestry 0 0 0) r x) as (_ & _ & E' & _). by rewrite HR in E'. }
    destruct removed; [|intros [= <- <-]; apply Hquiet; [done|by intros ? []]]. intros H1. eapply reconciled_sound; [done..|by intros ? []| |exact H1]. by eapply matching_owned.
  - unfold subscribe_defaults. set (T := foldl _ (topology l) ss).
    assert (forall r x, Topology.source T r x = Topology.source (topology l) r x) as HTs.
    { intros r x. unfold T. clear. generalize (topology l). induction ss as [|[[id s] policy] ss IH]; intros T0; cbn [foldl]; [done|]. rewrite IH.
      exact (proj1 (source_subscriptions track_kind T0 room id p s policy 0 0 true (mkAncestry 0 0 0) r x)). }
    intros H1. eapply reconciled_sound; [done..|by intros ? []| |exact H1]. apply Forall_forall.
    intros i [_ (tr & Htr & Ho)%elem_of_identities]%list_elem_of_filter. cbn [topology with_topology] in Htr. rewrite HTs in Htr. rewrite (sd_titled _ _ Hs _ _ _ Htr), Ho. by destruct i.
  - intros H1. destruct (remove_participant_sound l v p g now l' os Hs) as [Hs1 Hp1]; [|done|done|].
    + intros i Hi Ho Hne. split; [done|]. intros b. apply Hset; [done|by left|done].
    + split; [done|]. intros j Hj Hpj. destruct (Hp1 j Hj Hpj). by split; [left|].
Qed.

End Homes.

(** A publisher keeps the shard it is on while a track of its is published. *)
Definition keeps l (home home' : Z -> ShardId) : Prop :=
  forall i, owner (anc_track i) = i -> published l i -> home' (anc_track i) = home (anc_track i).

(** The runs of the lifecycle, with the shard each track is at home on. *)
Inductive life_run : (Z -> ShardId) -> Life -> View -> Prop :=
| life_new home n : life_run home (lifecycle_new n) (mkView ∅ ∅ ∅)
| life_step home home' l v o g now l' os :
    life_run home l v -> keeps l home home' -> settled home' l o g -> numbered g -> named o -> perform l o g now = Some (l', os) ->
    life_run home' l' (apply_operations v (all_operations os)).

Lemma sound_rehome home home' l v : sound home l v -> keeps l home home' -> sound home' l v.
Proof.
  intros [[B1 B2 B3 B4 B5 B6 B7] Hr Ht Hp Hv] Hk. assert (forall i s x, placements l !! (i, s) = Some x -> home' (anc_track i) = home (anc_track i)) as Hh.
  { intros i s x Hx. apply Hk; [by destruct (B1 _ _ _ Hx)|by eapply Hp]. }
  split; [split| | | |]; try done.
  - intros s a act. rewrite B5. split; intros (i & x & Hx & Hi & Ea & ->); exists i, x; split_and!; try done; unfold action; by rewrite (Hh _ _ _ Hx).
  - intros i x tr Hx. rewrite (Hh _ _ _ Hx) in Hx. by apply Hv.
Qed.

Lemma run_sound home l v : life_run home l v -> sound home l v.
Proof. induction 1 as [|home home' l v o g now l' os _ IH Hk Hset Hnum Hn Hp]; [apply sound_new|]. eapply sv_sound, perform_sound; [by eapply sound_rehome|done..]. Qed.

Section Results.
Context (home : Z -> ShardId).
Abbreviation books := (books owner home).
Abbreviation sound := (sound home).
Abbreviation life_run := (life_run home).
Abbreviation anchored := (anchored owner home (ExternalId := ExternalId) (Lease := Lease)).

(** ** When a reconciliation aborts *)

Lemma ensure_some l i s now :
  is_Some (ensure_destination l i s now) <-> is_Some (placements l !! (i, s)) \/ is_Some (placement_allocate (allocator l) s (anc_track i) now).
Proof.
  unfold ensure_destination. destruct (placements l !! (i, s)) as [x|]; [split; [by left|by eexists]|].
  destruct (placement_allocate (allocator l) s (anc_track i) now) as [[r p]|]; cbn; split.
  - right. by eexists.
  - by eexists.
  - by intros [].
  - by intros [[]|[]].
Qed.

Lemma placement_allocate_some rs s (t now : Z) :
  is_Some (placement_allocate rs s t now) <-> exists a, rs !! Z.to_nat s = Some a /\ exists a' k epoch r, allocate a now = Some (a', (k, epoch)) /\ route_new s k = Some r.
Proof.
  unfold placement_allocate. destruct (rs !! Z.to_nat s) as [a|]; cbn [mbind option_bind]; [|split; [by intros []|by intros (? & ? & _)]].
  split.
  - destruct (allocate a now) as [[a' [k epoch]]|] eqn:Ha; cbn [mbind option_bind]; [|by intros []]. destruct (route_new s k) as [r|] eqn:Hr; cbn [mbind option_bind]; [|by intros []].
    intros _. exists a. split; [done|]. by exists a', k, epoch, r.
  - intros (? & [= <-] & a' & k & epoch & r & -> & Hr). cbn [mbind option_bind]. rewrite Hr. by eexists.
Qed.

(** Placing a track on one shard leaves the others as they were. *)
Lemma ensure_other l i s now l1 x s' :
  0 <= s -> 0 <= s' -> ensure_destination l i s now = Some (l1, x) ->
  is_Some (ensure_destination l1 i s' now) <-> s' = s \/ is_Some (ensure_destination l i s' now).
Proof.
  intros Hs Hs' He. destruct (decide (s' = s)) as [->|Hne].
  { split; [by left|]. intros _. apply ensure_some. left. unfold ensure_destination in He. destruct (placements l !! (i, s)) as [y|] eqn:Hy; [injection He as <- <-; by rewrite Hy|].
    destruct (placement_allocate _ _ _ _) as [[r p]|]; [|done]. injection He as <- <-. cbn. rewrite lookup_insert_eq. by eexists. }
  transitivity (is_Some (ensure_destination l i s' now)); [|by split; [right|intros [?|?]]]. rewrite !ensure_some.
  unfold ensure_destination in He. destruct (placements l !! (i, s)) as [y|] eqn:Hy; [by injection He as <- <-|].
  destruct (placement_allocate (allocator l) s (anc_track i) now) as [[r p]|] eqn:Hp; [|done]. injection He as <- <-. cbn [placements allocator with_placements with_allocator].
  rewrite lookup_insert_ne by congruence. unfold placement_allocate in Hp. destruct (allocator l !! Z.to_nat s) as [a|] eqn:Ha; [|done]. cbn [mbind option_bind] in Hp.
  destruct (allocate a now) as [[a' [k epoch]]|]; [|done]. cbn [mbind option_bind] in Hp. destruct (route_new s k); [|done]. injection Hp as <- <-.
  apply or_iff_compat_l. rewrite !placement_allocate_some. by rewrite list_lookup_insert_ne by lia.
Qed.

Lemma reserve_some i now ss l :
  NoDup ss -> Forall (fun s => 0 <= s) ss -> is_Some (reserve_destinations l i ss now) <-> forall s, s ∈ ss -> is_Some (ensure_destination l i s now).
Proof.
  intros Hnd Hpos. revert l. induction ss as [|s ss IH]; intros l; cbn [reserve_destinations].
  { split; [by intros _ s ?%elem_of_nil|by eexists]. }
  apply NoDup_cons in Hnd as [Hs Hnd]. apply Forall_cons in Hpos as [Hp Hpos]. destruct (ensure_destination l i s now) as [[l1 x]|] eqn:He; cbn [mbind option_bind].
  - rewrite IH by done. rewrite Forall_forall in Hpos. split.
    + intros H s' [->|Hs']%elem_of_cons; [by rewrite He|]. specialize (H s' Hs'). apply (ensure_other l i s now l1 x s') in H as [->|?]; [done|done|done|by apply Hpos|done].
    + intros H s' Hs'. apply (ensure_other l i s now l1 x s'); [done|by apply Hpos|done|]. right. apply H. by right.
  - split; [by intros []|]. intros H. specialize (H s ltac:(by left)). rewrite He in H. by destruct H.
Qed.

Definition placed l i (s : ShardId) : Prop := is_Some (placements l !! (i, s)).

Lemma set_destination_some l i s f : placed l i s -> exists l', set_destination l i s f = Some l' /\ forall s', placed l i s' -> placed l' i s'.
Proof.
  intros [x Hx]. unfold set_destination. rewrite Hx. eexists. split; [done|]. intros s' Hs'. unfold placed. cbn.
  destruct (decide (s' = s)) as [->|Hne]; [rewrite lookup_insert_eq; by eexists|by rewrite lookup_insert_ne by congruence].
Qed.

Lemma residency_some i d l ops s x : placed l i s -> exists l' ops', reconcile_residency i d (l, ops) (s, x) = Some (l', ops') /\ forall s', placed l i s' -> placed l' i s'.
Proof.
  intros Hp. unfold reconcile_residency, set_destination_state, set_route_installed.
  destruct (_ && _); [|destruct (_ && _); [|destruct (_ && _)]]; [..|by eexists _, _];
    match goal with |- context [set_destination l i s ?f] => destruct (set_destination_some l i s f Hp) as (l' & -> & Hl') end; cbn [mbind option_bind]; by eexists _, _.
Qed.
Lemma residencies_some i d xs l ops : Forall (fun sx => placed l i sx.1) xs -> exists l' ops', reconcile_residencies i d (l, ops) xs = Some (l', ops') /\ forall s', placed l i s' -> placed l' i s'.
Proof.
  revert l ops. induction xs as [|[s x] xs IH]; intros l ops Hxs; cbn [reconcile_residencies]; [by eexists _, _|].
  apply Forall_cons in Hxs as [Hs Hxs]. destruct (residency_some i d l ops s x Hs) as (l1 & ops1 & -> & H1). cbn [mbind option_bind].
  destruct (IH l1 ops1) as (l2 & ops2 & -> & H2); [by eapply Forall_impl; [exact Hxs|intros sx; apply H1]|]. eexists _, _. split; [done|]. intros s' Hs'. by apply H2, H1.
Qed.

Lemma remote_views_some i d ss l : Forall (placed l i) ss -> is_Some (stage_remote_views track_kind l i d ss).
Proof.
  revert l. induction ss as [|s ss IH]; intros l Hss; cbn [stage_remote_views]; [by eexists|]. apply Forall_cons in Hss as [Hs Hss]. destruct Hs as [x Hx]. rewrite Hx. cbn [mbind option_bind].
  unfold set_resident. destruct (set_destination_some l i s (fun y => mkDestination (placement y) true (route_installed y))) as (l1 & -> & H1); [by eexists|]. cbn [mbind option_bind].
  destruct (IH l1) as [[l2 rest] ->]; [by eapply Forall_impl; [exact Hss|exact H1]|]. by eexists.
Qed.

Lemma active_views_some i d l :
  placed l i (bound_shard (d_origin d)) -> Forall (placed l i) (candidate_remote_shards d) -> (forall s, s ∈ active_remote_shards d -> s ∈ candidate_remote_shards d) ->
  is_Some (stage_active_views track_kind l i d).
Proof.
  intros Hh Hc Hsub. unfold stage_active_views, set_route_installed, set_resident. destruct Hh as [x Hx]. rewrite Hx. cbn [mbind option_bind].
  set (h := bound_shard (d_origin d)) in *. assert (exists l1 ops, (if requires_reverse_route (d_track d) && negb (route_installed x)
    then l0 ← set_destination l i h (fun y => mkDestination (placement y) (resident y) true); Some (l0, [Update h (InstallRoute (placement_route (placement x)) (Reverse (placement_track (placement x))))])
    else Some (l, [])) = Some (l1, ops) /\ forall s, placed l i s -> placed l1 i s) as (l1 & ops & -> & H1).
  { destruct (_ && _); [|by eexists _, _]. match goal with |- context [set_destination l i h ?f] => destruct (set_destination_some l i h f) as (l1 & -> & H1) end; [by eexists|]. by eexists _, _. }
  cbn [mbind option_bind]. assert (Forall (placed l1 i) (candidate_remote_shards d)) as Hc1 by (eapply Forall_impl; [exact Hc|exact H1]).
  assert (is_Some (mapM (fun s => (fun y => placement_route (placement y)) <$> placements l1 !! (i, s)) (active_remote_shards d))) as [remote ->].
  { apply mapM_is_Some, Forall_forall. intros s Hs. apply fmap_is_Some. rewrite Forall_forall in Hc1. by apply Hc1, Hsub. }
  cbn [mbind option_bind]. match goal with |- context [set_destination l1 i h ?f] => destruct (set_destination_some l1 i h f) as (l2 & -> & H2) end; [apply H1; by eexists|]. cbn [mbind option_bind].
  destruct (remote_views_some i d (candidate_remote_shards d) l2) as [[l3 rest] ->]; [by eapply Forall_impl; [exact Hc1|exact H2]|]. by eexists.
Qed.

Lemma ensure_reverse_placements l i t route l' t' : ensure_reverse_route l i t route = (l', t') -> placements l' = placements l /\ allocator l' = allocator l.
Proof. unfold ensure_reverse_route. case_match; by intros [= <- <-]. Qed.

Lemma reconcile_some l v i g now :
  sound l v -> numbered g -> owner (anc_track i) = i ->
  is_Some (reconcile track_kind l i g now) <->
  generation l + 1 < 2 ^ 64 /\ exists d, desired_state l i g = Some d /\
    forall s, s ∈ bound_shard (d_origin d) :: candidate_remote_shards d -> is_Some (ensure_destination l i s now).
Proof.
  intros Hs Hnum Ho. unfold reconcile, next_generation, checked_add.
  destruct (Z.leb_spec (generation l + 1) (umax 64)) as [Hg|Hg]; cbn [mbind option_bind]; [|split; [by intros []|unfold umax in Hg; lia]].
  set (l0 := mkLifecycle _ _ _ _ _ _). change (desired_state l0 i g) with (desired_state l i g).
  destruct (desired_state l i g) as [d|] eqn:Hd; cbn [mbind option_bind]; [|split; [by intros []|by intros (_ & ? & ? & _)]].
  pose proof (remote_nonneg l i g d Hnum Hd) as Hpos. destruct (desired_spec l i g d Hd) as (_ & Hor & _). pose proof (bound_shard_nonneg _ _ _ _ Hnum Hor) as Hh.
  transitivity (forall s, s ∈ bound_shard (d_origin d) :: candidate_remote_shards d -> is_Some (ensure_destination l0 i s now)).
  2:{ assert (forall s, is_Some (ensure_destination l0 i s now) <-> is_Some (ensure_destination l i s now)) as Hl0 by (intros s; by rewrite !ensure_some).
    split; [intros H; split; [unfold umax in Hg; lia|]; exists d; split; [done|]; intros s Hs'; by apply Hl0, H|]. intros (_ & d' & [= <-] & H) s Hs'. by apply Hl0, H. }
  destruct (ensure_destination l0 i (bound_shard (d_origin d)) now) as [[l1 x]|] eqn:H1; cbn [mbind option_bind].
  2:{ split; [by intros []|]. intros H. specialize (H _ ltac:(by left)). rewrite H1 in H. by destruct H. }
  destruct (ensure_reverse_route l1 i (d_track d) _) as [l2 t] eqn:H2. destruct (ensure_reverse_placements _ _ _ _ _ _ H2) as (E2 & A2).
  assert (forall s, s ∈ candidate_remote_shards d -> is_Some (ensure_destination l2 i s now) <-> is_Some (ensure_destination l0 i s now)) as Heq.
  { intros s Hs'. rewrite ensure_some, E2, A2, <- ensure_some. rewrite Forall_forall in Hpos. rewrite (ensure_other l0 i _ now l1 x s Hh (Hpos s Hs') H1).
    split; [intros [->|?]; [by rewrite H1|done]|by right]. }
  change (mkDesired t (d_origin d) (d_candidates d) (d_bindings d) (locations d)) with (retracked d t). unfold reserve_candidate_destinations.
  change (candidate_remote_shards (retracked d t)) with (candidate_remote_shards d).
  pose proof (reserve_some i now (candidate_remote_shards d) l2 (NoDup_remote_shards _ _) Hpos) as Hres.
  destruct (reserve_destinations l2 i (candidate_remote_shards d) now) as [l3|] eqn:H3; cbn [mbind option_bind].
  2:{ split; [by intros []|]. intros H. destruct (proj2 Hres) as [? ?]; [|done]. intros s Hs'. apply Heq; [done|]. apply H. by right. }
  transitivity True.
  2:{ split; [|done]. intros _ s [->|Hs']%elem_of_cons; [by rewrite H1|]. apply Heq; [done|]. by apply (proj1 Hres). }
  assert (books l0 v) as Hb0 by (apply (books_congr owner home l); [done..|apply Hs]).
  destruct (ensure_spec owner home l0 v i _ now l1 x Hb0 Ho Hh H1) as (Hb1 & X1 & _).
  destruct (reserve_spec owner home i now _ l2 v l3 (books_congr owner home l1 l2 v E2 A2 Hb1) Ho Hpos H3) as (_ & _ & _ & K3 & I3 & _).
  unfold reconcile_remote_residency. destruct (residencies_some i (retracked d t) (remote_destinations l3 i (bound_shard (d_origin (retracked d t)))) l3 []) as (l4 & ops4 & -> & H4).
  { apply Forall_forall. intros [s y] [_ Hy]%remote_destinations_spec. by eexists. }
  cbn [mbind option_bind]. destruct (active_views_some i (retracked d t) l4) as [[l5 ops5] ->].
  - apply H4. exists x. apply K3. by rewrite E2.
  - apply Forall_forall. intros s Hs'. apply H4, I3, Hs'.
  - intros s. by apply (active_sub l i g d).
  - cbn [mbind option_bind]. split; [done|]. intros _. by eexists.
Qed.

(** ** The theorems *)

Lemma placed_owner l v i s x : books l v -> placements l !! (i, s) = Some x -> i = owner (anc_track i).
Proof. intros Hb Hx. by destruct (bk_placed _ _ _ _ Hb _ _ _ Hx) as [-> _]. Qed.

Lemma by_track l v (s : ShardId) (t : Z) (P : TrackDestination -> Prop) :
  books l v -> anc_track (owner t) = t ->
  (exists i x, placements l !! (i, s) = Some x /\ P x /\ anc_track i = t) <-> exists x, placements l !! (owner t, s) = Some x /\ P x.
Proof.
  intros Hb Ht. split.
  - intros (i & x & Hx & HP & <-). exists x. by rewrite <- (placed_owner l v i s x).
  - intros (x & Hx & HP). by exists (owner t), x.
Qed.




(** C36. A reconciliation of the controller aborts exactly when the generation
    counter is spent, the track is not published, its publisher is not attached
    to its room, or a shard that needs a new placement has no slot for it. *)
Theorem reconcile_aborts_exactly l v i g now :
  life_run l v -> numbered g -> owner (anc_track i) = i ->
  is_Some (reconcile track_kind l i g now) <->
  generation l + 1 < 2 ^ 64 /\ contains (topology l) i = true /\ is_Some (bound_in_room g (anc_publisher i) (anc_room i)) /\
  forall d s, desired_state l i g = Some d -> s ∈ bound_shard (d_origin d) :: candidate_remote_shards d ->
    placed l i s \/ is_Some (placement_allocate (allocator l) s (anc_track i) now).
Proof.
  intros Hs%run_sound Hnum Ho. rewrite (reconcile_some l v i g now) by done. apply and_iff_compat_l.
  assert (is_Some (desired_state l i g) <-> contains (topology l) i = true /\ is_Some (bound_in_room g (anc_publisher i) (anc_room i))) as Hd.
  { unfold desired_state, topology_track, Topology.source, contains. destruct (topology l !! anc_room i) as [G|]; cbn [mbind option_bind]; [|split; [by intros []|by intros []]].
    destruct (tracks (catalog G) !! anc_track i); cbn [fmap option_fmap option_map mbind option_bind]; [rewrite bool_decide_true by done|rewrite bool_decide_false by (by intros []); split; [by intros []|by intros []]].
    destruct (bound_in_room g (anc_publisher i) (anc_room i)); cbn [mbind option_bind]; split; [by intros _|by intros _|by intros []|by intros [_ []]]. }
  split.
  - intros (d & Ed & Hall). destruct (proj1 Hd (ex_intro _ _ Ed)) as [H1 H2]. split_and!; try done. intros d' s Ed'. rewrite Ed in Ed'. injection Ed' as <-. intros Hin. by apply ensure_some, Hall.
  - intros (H1 & H2 & Hall). destruct (proj2 Hd (conj H1 H2)) as [d Ed]. exists d. split; [done|]. intros s Hin. by apply ensure_some, (Hall d s Ed).
Qed.

Lemma bound_shards_some g room (ps : gset Z) :
  (forall p, p ∈ ps -> is_Some (bound_in_room g p room)) ->
  exists ss, bound_shards g room ps = Some ss /\ forall s, s ∈ ss <-> exists p b, p ∈ ps /\ bound_in_room g p room = Some b /\ bound_shard b = s.
Proof.
  intros Hps. assert (is_Some (bound_shards g room ps)) as [ss Hss].
  { apply mapM_is_Some, Forall_forall. intros p Hp. by apply fmap_is_Some, Hps, elem_of_elements. }
  exists ss. split; [done|]. apply mapM_Some in Hss. intros s. split.
  - intros [k Hk]%list_elem_of_lookup. destruct (Forall2_lookup_r _ _ _ _ _ Hss Hk) as (p & Hp & Hs). apply list_elem_of_lookup_2 in Hp.
    destruct (bound_in_room g p room) as [b|] eqn:Hb; [|done]. injection Hs as <-. exists p, b. by rewrite <- elem_of_elements.
  - intros (p & b & Hp & Hb & <-). apply elem_of_elements, list_elem_of_lookup in Hp as [k Hk]. destruct (Forall2_lookup_l _ _ _ _ _ Hss Hk) as (s & Hs & Hs').
    rewrite Hb in Hs'. injection Hs' as <-. by apply list_elem_of_lookup_2 in Hs.
Qed.

(** What the code asserts in debug builds after every reconciliation holds
    in every run: the track's bindings are among its candidates and exclude its
    publisher, each of them is attached to the room, and on the publisher's shard
    and each candidate's the track is resident under its own address, with a
    route installed exactly where a reverse route is required or an active
    binding lives. *)
Theorem committed_track_assertions_hold l v i g now l' o :
  life_run l v -> anchored g i -> numbered g -> reconcile track_kind l i g now = Some (l', o) ->
  assert_committed_track l' i g = true.
Proof.
  intros Hs%run_sound Hanch Hnum Hrec. destruct (reconcile_sound home l v i g now l' o Hs (fun _ => Hanch) Hnum Hrec) as [[[Hb' Hr' _ _ Hv'] _ _] _].
  destruct Hs as [Hb Hr _ _ _].
  destruct (reconcile_spec track_kind owner home l v i g now l' o Hb Hr Hanch Hnum Hrec) as [_ _ (d & t & Hd & _ & Hrem & (xh & Hxh & Fxh) & Ec & Eb) _ Htop].
  destruct (desired_spec l i g d Hd) as ((track & Htrack & Ed) & Hor & Hc & Hbi & Hloc). pose proof (proj2 Hanch _ Hor) as Hh.
  pose proof (rebodied_source i l l' (anc_room i) (anc_track i) Htop) as [_ Ereq]. unfold topology_track in Htrack. rewrite Htrack in Ereq.
  unfold assert_committed_track, topology_track. destruct (Topology.source (topology l') (anc_room i) (anc_track i)) as [tr'|] eqn:Htr'; [|done]. injection Ereq as Ereq.
  rewrite Ec, Eb, !lookup_insert_eq, Hor.
  destruct (bound_shards_some g (anc_room i) (d_candidates d)) as (cs & -> & Hcs); [by intros p (_ & _ & ?)%Hc|].
  destruct (bound_shards_some g (anc_room i) (filter (fun p => p ∈ d_bindings d) (d_candidates d))) as (bs & -> & Hbs); [by intros p [_ (_ & _ & ?)%Hc]%elem_of_filter|].
  assert (forall s x, placements l' !! (i, s) = Some x -> route_installed x = (if s =? bound_shard (d_origin d) then requires_reverse_route tr' else bool_decide (s ∈ bs)) ->
    match placements l' !! (i, s) with
    | Some x => (placement_track (placement x) =? anc_track i) && (address_shard (placement_route (placement x)) =? s) && resident x &&
        Bool.eqb (route_installed x) (if s =? bound_shard (d_origin d) then requires_reverse_route tr' else bool_decide (s ∈ bs))
    | None => false end = true) as Hone.
  { intros s x Hx Hi. rewrite Hx. destruct (bk_placed _ _ _ _ Hb' _ _ _ Hx) as (_ & _ & E1 & E2). fold (address x). rewrite E1, E2, !Z.eqb_refl, (Hr' _ _ Hx), Hi. by apply eqb_reflx. }
  rewrite !andb_true_iff, !bool_decide_eq_true, forallb_forall. split_and!; [by intros p [_ ?]%Hbi|by intros (_ & ? & _)%Hc|].
  assert (forall s, In s (bound_shard (d_origin d) :: cs) -> s = bound_shard (d_origin d) \/ (s <> bound_shard (d_origin d) /\ s ∈ cs)) as Hin.
  { intros s [<-|Hs%list_elem_of_In]; [by left|]. destruct (decide (s = bound_shard (d_origin d))); [by left|by right]. }
  intros s [->|[Hne Hs]]%Hin.
  - rewrite <- Hh in Hxh. apply (Hone _ xh Hxh). rewrite Z.eqb_refl, Ereq. destruct (requires_reverse_route track) eqn:Hq; [by rewrite Fxh, Ed, Hq|].
    destruct (route_installed xh) eqn:Hi; [|done]. rewrite Hh in Hxh. pose proof (Hv' i xh tr' Hxh Hi Htr'). congruence.
  - apply Hcs in Hs as (p & b & Hp & Hpb & <-). assert (bound_shard b ∈ candidate_remote_shards d) as Hcand by (apply elem_of_remote_shards; split; [done|]; exists p, b; split; [done|]; split; [by apply Hloc|done]).
    destruct (Hrem _ Hcand) as (x & Hx & Hi). apply (Hone _ x Hx). rewrite (proj2 (Z.eqb_neq _ _) Hne), Hi. apply bool_decide_ext. unfold active_remote_shards. rewrite elem_of_remote_shards, Hbs.
    split.
    + intros (_ & q & b' & Hq & Hqb & E'). exists q, b'. apply Hbi in Hq as [Ha Hq]. rewrite elem_of_filter, Hbi. split_and!; try done. by apply Hloc.
    + intros (q & b' & [Hq Hqc]%elem_of_filter & Hqb & E'). split; [done|]. exists q, b'. split_and!; try done. by apply Hloc.
Qed.

Lemma unpublished_reconcile l i g now : topology_track (topology l) i = None -> reconcile track_kind l i g now = None.
Proof.
  intros Ht. unfold reconcile, next_generation. destruct (checked_add 64 (generation l) 1); [|done]. cbn [mbind option_bind]. unfold desired_state. cbn [topology].
  by rewrite Ht.
Qed.

(** C37. A subscriber's activation or deactivation that arrives after the
    publisher's track was unpublished aborts the controller, whatever the
    registry then says: the reconciliation it starts insists on a published
    track. *)
Theorem late_activation_aborts l v t g now l' x p g' now' :
  life_run l v -> anc_track (owner t) = t -> unpublish track_kind l (anc_publisher (owner t)) t g now = Some (l', Some x) ->
  activate track_kind l' (owner t) p g' now' = None /\ deactivate track_kind l' (owner t) p g' now' = None.
Proof.
  intros Hs%run_sound Ht Hun. destruct (unpublish_sound home l v _ t g now l' (Some x) Hs eq_refl Hun) as (_ & _ & Htop). destruct (Htop ltac:(by eexists)) as [Et _].
  assert (topology_track (topology l') (owner t) = None) as Hnone by (unfold topology_track; rewrite Et, source_unpublish; by rewrite decide_True).
  pose proof (source_subscriptions track_kind (topology l') 0 0 p (selector_track 0) All 0 0 true (owner t) (anc_room (owner t)) (anc_track (owner t))) as (_ & _ & _ & _ & E1 & E2).
  unfold topology_track in Hnone. split; apply unpublished_reconcile; unfold topology_track; cbn [topology with_topology]; [by rewrite E1|by rewrite E2].
Qed.
End Results.
End Runs.

(** ** A concrete run *)

Module LifecycleExample.
Definition kind (t : Z) : TrackKind := if t <? 20 then Video else Audio.
Definition owner (t : Z) : TrackAncestry (ParticipantId := Z) (RoomId := Z) (TrackId := Z) := mkAncestry 7 1 t.
Definition home (_ : Z) : ShardId := 0.
Abbreviation Reg := (RoomRegistry (ParticipantId := Z) (RoomId := Z) (ParticipantExternalId := unit) (AuthorizationLease := unit)).
Definition member (s : ShardId) (c : Z) : ParticipantMeta (RoomId := Z) (ParticipantExternalId := unit) (AuthorizationLease := unit) := mkMeta s 7 None None c State None true.

(** The publisher is on shard 0, its subscribers on shards 0 and 1. *)
Definition registry : Reg := mkRegistry ∅ (<[1 := member 0 10]> (<[2 := member 1 20]> (<[3 := member 0 30]> ∅))).
Definition camera : Topology.Track (ParticipantId := Z) (RoomId := Z) (TrackId := Z) (Body := TrackBody unit) := mkTrack 7 11 1 None (mkBody 10 None (MediaVideo [tt])).

Definition script : list (LifeOp (E := unit)) :=
  [OPublish camera; OSubscribe 7 2 100 (selector_kind Video) Allocated; OSubscribe 7 3 101 (selector_kind Video) All; OActivate (owner 11) 2].

Definition play (ops : list LifeOp) : option (TrackLifecycle (E := unit) * View) :=
  foldl (fun acc o => '(l, v) ← acc; '(l', os) ← perform kind l o registry 0; Some (l', apply_operations v (all_operations os))) (Some (lifecycle_new 2, mkView ∅ ∅ ∅)) ops.

Definition at_end (ops : list LifeOp) : TrackLifecycle (E := unit) * View := default (lifecycle_new 2, mkView ∅ ∅ ∅) (play ops).

Lemma registry_settled (l : TrackLifecycle (E := unit)) o : settled owner home l o registry.
Proof.
  intros [room publisher t] b [= <- <-] _ _. cbn [anc_publisher anc_room anc_track]. unfold bound_in_room, locate, get_participant, registry. cbn [metas]. rewrite lookup_insert_eq. cbn. by intros [= <-].
Qed.
Lemma registry_anchored : anchored owner home registry (owner 11).
Proof.
  split; [done|]. unfold bound_in_room, locate, get_participant, registry. cbn [metas anc_publisher owner]. rewrite lookup_insert_eq. cbn. by intros b [= <-].
Qed.
Lemma registry_numbered : numbered registry.
Proof.
  intros p m. unfold get_participant. cbn. rewrite !lookup_insert_Some. intros [[_ <-]|[_ [[_ <-]|[_ [[_ <-]|[_ Hm]]]]]]; try (cbn; lia). by rewrite lookup_empty in Hm.
Qed.

Lemma play_run ops l v : Forall (named owner) ops -> play ops = Some (l, v) -> life_run kind owner home (ExternalId := unit) (Lease := unit) l v.
Proof.
  revert l v. induction ops as [|o ops IH] using rev_ind; intros l v Hn.
  - intros [= <- <-]. apply life_new.
  - apply Forall_app in Hn as [Hn [Ho _]%Forall_cons]. unfold play. rewrite foldl_snoc. fold (play ops). destruct (play ops) as [[l0 v0]|]; [|done]. cbn [mbind option_bind].
    destruct (perform kind l0 o registry 0) as [[l1 os]|] eqn:H1; [|done]. cbn [mbind option_bind]. intros [= <- <-].
    eapply life_step; [by apply IH|done|apply registry_settled|apply registry_numbered|exact Ho|exact H1].
Qed.

Lemma script_named : Forall (named owner) script.
Proof. by repeat constructor. Qed.
Lemma script_run : life_run kind owner home (ExternalId := unit) (Lease := unit) (at_end script).1 (at_end script).2.
Proof.
  unfold at_end. destruct (play script) as [[l v]|] eqn:Hp; [|by vm_compute in Hp]. by eapply play_run; [apply script_named|].
Qed.


Definition life : TrackLifecycle (E := unit) := (at_end script).1.
Definition view : View := (at_end script).2.
#[local] Opaque life view.

Lemma camera_placed : placed life (owner 11) 1.
Proof. unfold placed. refine (bool_decide_unpack _ _). by vm_compute. Qed.


Definition again : TrackLifecycle * TrackLifecycleOutcome := default (life, mkOutcome 0 []) (reconcile kind life (owner 11) registry 5).
Lemma again_some : reconcile kind life (owner 11) registry 5 = Some (again.1, again.2).
Proof. unfold again. destruct (reconcile kind life (owner 11) registry 5) as [[]|] eqn:H; [done|]. by vm_compute in H. Qed.


Lemma committed_track_assertions_hold_witness : assert_committed_track again.1 (owner 11) registry = true.
Proof.
  exact (committed_track_assertions_hold kind owner home life view (owner 11) registry 5 again.1 again.2 script_run registry_anchored registry_numbered again_some).
Defined.

Lemma reconcile_aborts_exactly_witness : generation life + 1 < 2 ^ 64 /\ contains (topology life) (owner 11) = true.
Proof.
  destruct (reconcile_aborts_exactly kind owner home life view (owner 11) registry 5 script_run registry_numbered eq_refl) as [H _].
  destruct H as (H1 & H2 & _); [by rewrite again_some|]. by split.
Defined.

(** The publisher's track ends while the activation of participant 3 is under way. *)
Definition ended : TrackLifecycle (E := unit) * option TrackLifecycleOutcome := default (life, None) (unpublish kind life 1 11 registry 6).
Definition ended_view : View := apply_operations view (all_operations (option_list ended.2)).
Lemma ended_some : unpublish kind life 1 11 registry 6 = Some (ended.1, ended.2).
Proof. vm_compute. reflexivity. Qed.
Lemma ended_outcome : is_Some ended.2.
Proof. refine (bool_decide_unpack _ _). by vm_compute. Qed.

Lemma ended_run : life_run kind owner home (ExternalId := unit) (Lease := unit) ended.1 ended_view.
Proof.
  eapply (life_step kind owner home home life view (OUnpublish 1 11) registry 6); [apply script_run|done|apply registry_settled|apply registry_numbered|done|].
  cbn [perform]. by rewrite ended_some.
Qed.


Lemma late_activation_aborts_witness : activate kind ended.1 (owner 11) 3 registry 7 = None.
Proof.
  destruct ended_outcome as [x Hx]. pose proof ended_some as H. rewrite Hx in H.
  exact (proj1 (late_activation_aborts kind owner home life view 11 registry 6 ended.1 x 3 registry 7 script_run eq_refl H)).
Defined.
End LifecycleExample.
