(* ===== verification/RtpWire.v ===== *)
(** * RTP on the wire

    The RTP half of [crates/pulsebeam-rtc/src/packet.rs] (parsing a packet and
    its header extensions) and the encoder of [egress.rs] and [egress/layout.rs].
    Offsets and lengths are natural numbers: the code's [checked_] additions are
    of lengths of slices in memory, which do not overflow. A range is the pair of
    its ends. *)

From stdpp Require Import strings.
From S2P Require Import Prelude.

Inductive PacketError := TooShort | InvalidVersion | InvalidPadding | InvalidExtension | InvalidLength | TooManyItems | InvalidValue.

#[export] Instance PacketError_eq_dec : EqDecision PacketError.
Proof. solve_decision. Defined.

Abbreviation parsed := (result PacketError).

(** [bytes.get(a..b)] *)
Definition get_range (l : list Z) (a b : nat) : option (list Z) := if (a <=? b)%nat then slice a (b - a) l else None.

Definition read_u8 (l : list Z) (offset : nat) : parsed Z := ok_or (l !! offset) TooShort.
Definition read_u16 (l : list Z) (offset : nat) : parsed Z := ok_or (be_decode <$> slice offset 2 l) TooShort.
Definition read_u32 (l : list Z) (offset : nat) : parsed Z := ok_or (be_decode <$> slice offset 4 l) TooShort.

Definition require (b : bool) (e : PacketError) : parsed () := if b then Ok () else Err e.

Definition MAX_RTP_CSRC : nat := 15.
Definition MAX_RTP_EXTENSION_BYTES : nat := 16 * 1024.
Definition ONE_BYTE : Z := 0xBEDE.
Definition is_two_byte (profile : Z) : bool := Z.land profile 0xfff0 =? 0x1000.

(** ** Header extensions *)

(** One turn of the [while] of each profile: the next offset, or the end. *)
Fixpoint validate_one_byte (fuel : nat) (l : list Z) (offset : nat) : parsed () :=
  match fuel with
  | O => Ok ()
  | S fuel =>
      if (offset <? length l)%nat then
        byte ← ok_or (l !! offset) InvalidExtension;
        let offset := (offset + 1)%nat in
        if byte =? 0 then validate_one_byte fuel l offset
        else
          let size := Z.to_nat (Z.land byte 0x0f + 1) in
          if Z.shiftr byte 4 =? 15 then Ok ()
          else if (length l <? offset + size)%nat then Err InvalidExtension
          else validate_one_byte fuel l (offset + size)
      else Ok ()
  end.

Fixpoint validate_two_byte (fuel : nat) (l : list Z) (offset : nat) : parsed () :=
  match fuel with
  | O => Ok ()
  | S fuel =>
      if (offset <? length l)%nat then
        id ← ok_or (l !! offset) InvalidExtension;
        let offset := (offset + 1)%nat in
        if id =? 0 then validate_two_byte fuel l offset
        else
          size ← ok_or (l !! offset) InvalidExtension;
          let offset := (offset + 1)%nat in
          if (length l <? offset + Z.to_nat size)%nat then Err InvalidExtension
          else validate_two_byte fuel l (offset + Z.to_nat size)
      else Ok ()
  end.

(** Each turn moves on by at least one byte. *)
Definition validate_extension_elements (l : list Z) (profile : Z) : parsed () :=
  if profile =? ONE_BYTE then validate_one_byte (S (length l)) l 0
  else if is_two_byte profile then validate_two_byte (S (length l)) l 0
  else Ok ().

Record RtpExtension := mkExtension { ext_id : Z; ext_value : list Z; ext_range : nat * nat }.

Record ExtensionIter := mkIter { it_bytes : list Z; it_offset : nat; it_end : nat; it_profile : option Z; it_base : nat }.
Definition at_offset (it : ExtensionIter) (o : nat) : ExtensionIter := mkIter (it_bytes it) o (it_end it) (it_profile it) (it_base it).

(** [ExtensionIter::next]: padding is skipped within the call. *)
Fixpoint ext_next (fuel : nat) (it : ExtensionIter) : option RtpExtension * ExtensionIter :=
  match fuel with
  | O => (None, it)
  | S fuel =>
      if (it_offset it <? it_end it)%nat then
        match it_bytes it !! it_offset it with
        | None => (None, it)
        | Some byte =>
            let element (id : Z) (offset size : nat) :=
              if (it_end it <? offset + size)%nat then (None, at_offset it (it_end it))
              else
                match slice offset size (it_bytes it) with
                | None => (None, at_offset it offset)
                | Some value => (Some (mkExtension id value (it_base it + offset, it_base it + offset + size)%nat), at_offset it (offset + size))
                end in
            let offset := (it_offset it + 1)%nat in
            if bool_decide (it_profile it = Some ONE_BYTE) then
              if byte =? 0 then ext_next fuel (at_offset it offset)
              else if Z.shiftr byte 4 =? 15 then (None, at_offset it (it_end it))
              else element (Z.shiftr byte 4) offset (Z.to_nat (Z.land byte 0x0f + 1))
            else if match it_profile it with Some p => is_two_byte p | None => false end then
              if byte =? 0 then ext_next fuel (at_offset it offset)
              else
                match it_bytes it !! offset with
                | None => (None, at_offset it offset)
                | Some size => element byte (offset + 1)%nat (Z.to_nat size)
                end
            else (None, at_offset it (it_end it))
        end
      else (None, it)
  end.

(** What a [for] over the iterator sees. *)
Fixpoint ext_elements (fuel : nat) (it : ExtensionIter) : list RtpExtension :=
  match fuel with
  | O => []
  | S fuel' =>
      match ext_next fuel it with
      | (Some e, it) => e :: ext_elements fuel' it
      | (None, _) => []
      end
  end.

(** ** Packets *)

Record RtpPacket := mkRtpPacket {
  rtp_bytes : list Z;
  payload_range : nat * nat;
  extension_range : option (nat * nat);
  extension_profile : option Z;
  sequence : Z;
  timestamp : Z;
  rtp_ssrc : Z;
  payload_type : Z;
  marker : bool;
}.

(** The extension block that follows a header of [header] bytes. *)
Definition parse_extension_block (l : list Z) (header : nat) : parsed (nat * nat * Z) :=
  _ ← require (header + 4 <=? length l)%nat InvalidExtension;
  profile ← read_u16 l header;
  words ← read_u16 l (header + 2);
  let size := (Z.to_nat words * 4)%nat in
  _ ← require (size <=? MAX_RTP_EXTENSION_BYTES)%nat InvalidExtension;
  let start := (header + 4)%nat in
  _ ← require (start + size <=? length l)%nat InvalidExtension;
  block ← ok_or (get_range l start (start + size)) InvalidExtension;
  _ ← validate_extension_elements block profile;
  Ok (start, (start + size)%nat, profile).

Definition rtp_parse (l : list Z) : parsed RtpPacket :=
  _ ← require (12 <=? length l)%nat TooShort;
  first ← read_u8 l 0;
  _ ← require (Z.shiftr first 6 =? 2) InvalidVersion;
  let has_padding := negb (Z.land first 0x20 =? 0) in
  let has_extension := negb (Z.land first 0x10 =? 0) in
  let csrc_count := Z.to_nat (Z.land first 0x0f) in
  let header := (12 + csrc_count * 4)%nat in
  _ ← require ((csrc_count <=? MAX_RTP_CSRC) && (header <=? length l))%nat InvalidLength;
  '(extensions, profile, header) ←
    (if has_extension then
       '(start, end_, profile) ← parse_extension_block l header;
       Ok (Some (start, end_), Some profile, end_)
     else Ok (None, None, header));
  padding ←
    (if has_padding then
       value ← ok_or (last l) InvalidPadding;
       _ ← require (negb (value =? 0) && (Z.to_nat value <=? length l - header)%nat) InvalidPadding;
       Ok (Z.to_nat value)
     else Ok 0%nat);
  _ ← require (padding <=? length l)%nat InvalidPadding;
  let payload_end := (length l - padding)%nat in
  _ ← require (header <=? payload_end)%nat InvalidLength;
  seq ← read_u16 l 2;
  ts ← read_u32 l 4;
  ssrc ← read_u32 l 8;
  second ← read_u8 l 1;
  Ok (mkRtpPacket l (header, payload_end) extensions profile seq ts ssrc (Z.land second 0x7f) (negb (Z.land second 0x80 =? 0))).

Definition payload (p : RtpPacket) : list Z := default [] (get_range (rtp_bytes p) (payload_range p).1 (payload_range p).2).

(** [extensions()]; the range was checked against the bytes. *)
Definition extensions (p : RtpPacket) : parsed ExtensionIter :=
  match extension_range p with
  | None => Ok (mkIter [] 0 0 None 0)
  | Some (a, b) => block ← ok_or (get_range (rtp_bytes p) a b) InvalidExtension; Ok (mkIter block 0 (b - a) (extension_profile p) a)
  end.

Definition extension_list (p : RtpPacket) : list RtpExtension :=
  match extensions p with Ok it => ext_elements (S (it_end it)) it | Err _ => [] end.

(** ** The encoder *)

(** What the encoder reads of a sender ([EgressSenderFacts] and [Sender]). Text is
    its bytes. *)
Record EgressSenderFacts := mkSenderFacts {
  mid : list Z;
  sender_payload_type : Z;
  retransmission_payload_type : option Z;
  mid_extension_id : option Z;
  twcc_extension_id : option Z;
  playout_extension_id : option Z;
  dependency_extension_id : option Z;
  forwarded_extensions : list (Z * string);
}.
Record Sender := mkSender {
  facts : EgressSenderFacts;
  rid : option (list Z);
  rid_extension_id : option Z;
  repaired_rid_extension_id : option Z;
  sender_ssrc : Z;
  rtx_ssrc : Z;
  next_rtx_sequence : Z;
}.

Record ExtensionLayout := mkExtensionLayout { one_byte : bool; words : Z }.
Record PacketLayout := mkPacketLayout { layout_bytes : nat; layout_extensions : option ExtensionLayout }.

Definition between (lo hi x : Z) : bool := (lo <=? x) && (x <=? hi).
Definition block_bytes (one : bool) (es : list (Z * nat)) : nat := foldl (fun n '(_, size) => n + (if one then 1 else 2) + size)%nat 0%nat es.

Definition layout_new (payload_len : nat) (es : list (Z * nat)) (allow_one_byte : bool) : option PacketLayout :=
  let base := (12 + payload_len)%nat in
  match es with
  | [] => Some (mkPacketLayout base None)
  | _ =>
      if existsb (fun '(id, size) => (id =? 0) || (255 <? size)%nat) es then None
      else
        let one := allow_one_byte && forallb (fun '(id, size) => between 1 14 id && between 1 16 (Z.of_nat size)) es in
        let data := block_bytes one es in
        let w := Z.of_nat ((data + 3) `div` 4) in
        if w <=? umax 16 then Some (mkPacketLayout (base + 4 + Z.to_nat w * 4) (Some (mkExtensionLayout one w))) else None
  end.

Definition in_one_byte (o : option Z) : bool := match o with Some id => between 1 14 id | None => true end.
Definition one_byte_uri (uri : string) : bool :=
  bool_decide (uri ∈ ["urn:ietf:params:rtp-hdrext:ssrc-audio-level"; "urn:3gpp:video-orientation"; "http://www.webrtc.org/experiments/rtp-hdrext/abs-capture-time"]%string).

Definition sender_uses_one_byte_extensions (s : Sender) : bool :=
  let f := facts s in
  bool_decide (dependency_extension_id f = None)
  && match rid s with Some r => (length r <=? 16)%nat | None => true end
  && in_one_byte (rid_extension_id s) && in_one_byte (repaired_rid_extension_id s)
  && (length (mid f) <=? 16)%nat
  && in_one_byte (mid_extension_id f) && in_one_byte (twcc_extension_id f) && in_one_byte (playout_extension_id f)
  && forallb (fun '(id, uri) => between 1 14 id && one_byte_uri uri) (forwarded_extensions f).

Definition zip_option {A B} (a : option A) (b : option B) : list (A * B) :=
  match a, b with Some x, Some y => [(x, y)] | _, _ => [] end.

Definition rtp_extensions (s : Sender) (ssrc : Z) (twcc : option (list Z)) (forwarded : list (Z * list Z)) : list (Z * list Z) :=
  let f := facts s in
  forwarded
  ++ zip_option (mid_extension_id f) (Some (mid f))
  ++ zip_option (if ssrc =? rtx_ssrc s then repaired_rid_extension_id s else rid_extension_id s) (rid s)
  ++ zip_option (twcc_extension_id f) twcc.

Definition write_element (one : bool) (e : Z * list Z) : option (list Z) :=
  if one then Some (Z.lor (shl 8 e.1 4) (let n := Z.of_nat (length e.2) - 1 in if n <=? 255 then n else 0) :: e.2)
  else if (length e.2 <=? 255)%nat then Some (e.1 :: Z.of_nat (length e.2) :: e.2) else None.

(** Zeros up to a multiple of four. *)
Definition pad4 (l : list Z) : list Z := l ++ replicate ((4 - length l `mod` 4) `mod` 4) 0.

Definition write_extensions (es : list (Z * list Z)) (layout : ExtensionLayout) : option (list Z) :=
  elements ← mapM (write_element (one_byte layout)) es;
  Some ((if one_byte layout then [0xbe; 0xde] else [0x10; 0x00]) ++ be_encode 2 (words layout) ++ pad4 (concat elements)).

Definition sizes (es : list (Z * list Z)) : list (Z * nat) := (fun '(id, v) => (id, length v)) <$> es.

Definition encode_rtp (s : Sender) (mark : bool) (seq ts : Z) (twcc : option Z) (body : list Z) (pt ssrc : Z) (padding : bool)
    (forwarded : list (Z * list Z)) (capacity : nat) : option (list Z) :=
  let es := rtp_extensions s ssrc (be_encode 2 <$> twcc) forwarded in
  layout ← layout_new (length body) (sizes es) (sender_uses_one_byte_extensions s);
  if (capacity <? layout_bytes layout)%nat then None
  else
    block ← match layout_extensions layout with Some e => write_extensions es e | None => Some [] end;
    Some ([Z.lor (Z.lor 0x80 (match layout_extensions layout with Some _ => 0x10 | None => 0 end)) (if padding then 0x20 else 0); Z.lor pt (if mark then 0x80 else 0)]
      ++ be_encode 2 seq ++ be_encode 4 ts ++ be_encode 4 ssrc ++ block ++ body).

Definition build_rtp (s : Sender) (mark : bool) (seq ts : Z) (twcc : option Z) (body : list Z) (pt ssrc : Z) (padding : bool)
    (forwarded : list (Z * list Z)) : option (list Z) :=
  let es := rtp_extensions s ssrc (be_encode 2 <$> twcc) forwarded in
  layout ← layout_new (length body) (sizes es) (sender_uses_one_byte_extensions s);
  encode_rtp s mark seq ts twcc body pt ssrc padding forwarded (layout_bytes layout).

Definition padding_bytes (requested header_bytes : nat) : list Z :=
  let n := Nat.max 1 (Nat.min 255 (requested - header_bytes)) in
  replicate (n - 1) 0 ++ [Z.of_nat n].

Definition wire_u16 (v : Z) : Z := v `mod` 65536.

Definition repair_extensions (s : Sender) (original : RtpPacket) : list (Z * list Z) :=
  (fun e => (ext_id e, ext_value e)) <$>
    filter (fun e => dependency_extension_id (facts s) = Some (ext_id e) \/ ext_id e ∈ (forwarded_extensions (facts s)).*1) (extension_list original).

(** Media to send: an extension is addressed by its URI. *)
Record RtpWrite := mkRtpWrite { write_sequence : Z; write_timestamp : Z; write_marker : bool; write_payload : list Z; write_extension_values : list (string * list Z) }.

Definition DEPENDENCY_URIS : list string :=
  ["https://aomediacodec.github.io/av1-rtp-spec/#dependency-descriptor-rtp-header-extension";
   "http://www.webrtc.org/experiments/rtp-hdrext/video-dependency-descriptor"]%string.
Definition PLAYOUT_DELAY_URI : string := "http://www.webrtc.org/experiments/rtp-hdrext/playout-delay".

Definition media_extension_id (s : Sender) (uri : string) : option Z :=
  match find (fun '(_, supported) => bool_decide (supported = uri)) (forwarded_extensions (facts s)) with
  | Some (id, _) => Some id
  | None =>
      if bool_decide (uri ∈ DEPENDENCY_URIS) then dependency_extension_id (facts s)
      else if bool_decide (uri = PLAYOUT_DELAY_URI) then playout_extension_id (facts s)
      else None
  end.

Definition write_media_extensions (s : Sender) (m : RtpWrite) : list (Z * list Z) :=
  omap (fun '(uri, value) => (fun id => (id, value)) <$> media_extension_id s uri) (write_extension_values m).

(** [PacketLayout::original] *)
Definition layout_original (s : Sender) (m : RtpWrite) : option PacketLayout :=
  let f := facts s in
  let forwarded := omap (fun '(uri, value) => (fun id => (id, length value)) <$> media_extension_id s uri) (write_extension_values m) in
  let rid_id := if sender_ssrc s =? rtx_ssrc s then repaired_rid_extension_id s else rid_extension_id s in
  layout_new (length (write_payload m))
    (forwarded ++ zip_option (mid_extension_id f) (Some (length (mid f))) ++ zip_option rid_id (@length Z <$> rid s) ++ zip_option (twcc_extension_id f) (Some 2%nat))
    (sender_uses_one_byte_extensions s).

Definition repair_header_extensions (s : Sender) : list (Z * nat) :=
  let f := facts s in
  zip_option (mid_extension_id f) (Some (length (mid f))) ++ zip_option (repaired_rid_extension_id s) (@length Z <$> rid s) ++ zip_option (twcc_extension_id f) (Some 2%nat).

Definition RTP_TRANSPORT_ALLOWANCE : nat := 96.

(** [next_packet_transport_bytes], for a repair and for queued media. *)
Definition repair_transport_bytes (s : Sender) (retained : list Z) : option nat :=
  original ← match rtp_parse retained with Ok p => Some p | Err _ => None end;
  layout ← layout_new (length (payload original) + 2) (sizes (repair_extensions s original) ++ repair_header_extensions s) (sender_uses_one_byte_extensions s);
  Some (layout_bytes layout + RTP_TRANSPORT_ALLOWANCE)%nat.
Definition original_transport_bytes (s : Sender) (m : RtpWrite) : option nat :=
  layout ← layout_original s m; Some (layout_bytes layout + RTP_TRANSPORT_ALLOWANCE)%nat.

Definition padding_transport_bytes (s : Sender) (requested : nat) : option nat :=
  layout ← layout_new 0 (repair_header_extensions s) (sender_uses_one_byte_extensions s);
  let header := layout_bytes layout in
  Some (header + Nat.max 1 (Nat.min 255 (requested - header)) + RTP_TRANSPORT_ALLOWANCE)%nat.

(** The transport sequence number a packet of this sender takes. *)
Definition twcc_for (s : Sender) (next_twcc : Z) : option Z := (fun _ => wire_u16 next_twcc) <$> twcc_extension_id (facts s).

(** The wire of queued media in [prepare_one], of [prepare_padding] and of
    [prepare_repair]. *)
Definition original_packet (s : Sender) (m : RtpWrite) (twcc : option Z) (capacity : nat) : option (list Z) :=
  encode_rtp s (write_marker m) (wire_u16 (write_sequence m)) (write_timestamp m) twcc (write_payload m) (sender_payload_type (facts s)) (sender_ssrc s) false
    (write_media_extensions s m) capacity.

Definition padding_packet (s : Sender) (ts : Z) (twcc : option Z) (requested : nat) : option (list Z) :=
  packet ← build_rtp s false (wire_u16 (next_rtx_sequence s)) ts twcc [1] (default 0 (retransmission_payload_type (facts s))) (rtx_ssrc s) true [];
  let head := removelast packet in
  Some (head ++ padding_bytes requested (length head)).

Definition repair_packet (s : Sender) (retained : list Z) (retained_timestamp index : Z) (twcc : option Z) : option (list Z) :=
  pt ← retransmission_payload_type (facts s);
  original ← match rtp_parse retained with Ok p => Some p | Err _ => None end;
  build_rtp s (marker original) (wire_u16 (next_rtx_sequence s)) retained_timestamp twcc (be_encode 2 (wire_u16 index) ++ payload original) pt (rtx_ssrc s) false
    (repair_extensions s original).

(** ** Lemmas on slices and results *)

Lemma slice_at (pre mid_ post : list Z) off n : length pre = off -> length mid_ = n -> slice off n (pre ++ mid_ ++ post) = Some mid_.
Proof. intros <- <-. apply slice_app_exact. Qed.
Lemma get_range_at (pre mid_ post : list Z) a b : length pre = a -> b = (a + length mid_)%nat -> get_range (pre ++ mid_ ++ post) a b = Some mid_.
Proof.
  intros <- ->. unfold get_range. rewrite (proj2 (Nat.leb_le _ _)) by lia. replace (length pre + length mid_ - length pre)%nat with (length mid_) by lia. apply slice_app_exact.
Qed.
Lemma require_ok b e : b = true -> require b e = Ok ().
Proof. by intros ->. Qed.

Lemma require_inv {A} b e (k : () -> parsed A) r : (require b e ≫= k) = Ok r -> b = true /\ k () = Ok r.
Proof. by destruct b. Qed.
Lemma bind_ok {A B} (m : parsed A) (k : A -> parsed B) r : (x ← m; k x) = Ok r <-> exists a, m = Ok a /\ k a = Ok r.
Proof. destruct m as [a|e]; cbn; split; [intros H; by exists a|by intros (? & [= <-] & ?)|done|by intros (? & ? & _)]. Qed.

(** ** Extension blocks *)

(** A block of extension elements that starts at [base], by the layout of RFC
    8285: zeros pad, a one-byte header of id 15 ends the block. *)
Inductive block (one : bool) : nat -> list Z -> list RtpExtension -> Prop :=
| block_end base : block one base [] []
| block_pad base rest es : block one (S base) rest es -> block one base (0 :: rest) es
| block_stop base b rest : one = true -> Z.shiftr b 4 = 15 -> block one base (b :: rest) []
| block_one base b value rest es : one = true -> b <> 0 -> Z.shiftr b 4 <> 15 -> length value = Z.to_nat (Z.land b 15 + 1) ->
    block one (base + 1 + length value) rest es ->
    block one base (b :: value ++ rest) (mkExtension (Z.shiftr b 4) value (base + 1, base + 1 + length value)%nat :: es)
| block_two base id value rest es : one = false -> id <> 0 -> block one (base + 2 + length value) rest es ->
    block one base (id :: Z.of_nat (length value) :: value ++ rest) (mkExtension id value (base + 2, base + 2 + length value)%nat :: es).

Definition has_profile (one : bool) (p : Z) : Prop := if one then p = ONE_BYTE else p <> ONE_BYTE /\ is_two_byte p = true.

Lemma lookup_suffix (pre rest : list Z) k : (pre ++ rest) !! (length pre + k)%nat = rest !! k.
Proof. rewrite lookup_app_r by lia. f_equal. lia. Qed.
Lemma lookup_suffix0 (pre rest : list Z) : (pre ++ rest) !! length pre = rest !! 0%nat.
Proof. rewrite <- (lookup_suffix pre rest 0). f_equal. lia. Qed.

Lemma split_suffix (l : list Z) off n : (off + n <= length l)%nat -> exists v r, drop off l = v ++ r /\ length v = n /\ drop (off + n) l = r.
Proof. intros H. exists (take n (drop off l)), (drop n (drop off l)). rewrite take_drop, length_take, length_drop, drop_drop. split_and!; [done|lia|done]. Qed.

Lemma lookup_drop0 (l : list Z) off x : l !! off = Some x -> drop off l = x :: drop (off + 1) l.
Proof. intros H. rewrite (drop_S l x off H). f_equal. by replace (S off) with (off + 1)%nat by lia. Qed.

(** What validation accepts is a block. *)
Lemma validate_one_block fuel l off base :
  bytes_ok l -> (length l < fuel + off)%nat -> validate_one_byte fuel l off = Ok () -> exists es, block true (base + off) (drop off l) es.
Proof.
  intros Hl. revert off. induction fuel as [|fuel IH]; intros off Hf; cbn [validate_one_byte].
  { intros _. exists []. rewrite drop_ge by lia. constructor. }
  destruct (Nat.ltb_spec off (length l)) as [Hlt|Hge]; [|intros _; exists []; rewrite drop_ge by lia; constructor].
  destruct (lookup_lt_is_Some_2 l off Hlt) as [b Hb]. rewrite Hb. cbn [ok_or mbind result_bind]. rewrite (lookup_drop0 l off b Hb).
  destruct (Z.eqb_spec b 0) as [->|Hb0].
  { intros H. destruct (IH (off + 1)%nat ltac:(lia) H) as [es Hes]. exists es. constructor. by replace (S (base + off)) with (base + (off + 1))%nat by lia. }
  destruct (Z.eqb_spec (Z.shiftr b 4) 15) as [Hs|Hs]; [intros _; exists []; by apply block_stop|].
  destruct (Nat.ltb_spec (length l) (off + 1 + Z.to_nat (Z.land b 15 + 1))) as [|Hle]; [done|]. intros H.
  destruct (split_suffix l (off + 1) (Z.to_nat (Z.land b 15 + 1)) Hle) as (v & r & -> & Hv & Er).
  destruct (IH (off + 1 + Z.to_nat (Z.land b 15 + 1))%nat ltac:(lia) H) as [es Hes]. eexists. apply block_one; [done|done|done|done|]. rewrite Er in Hes. rewrite Hv.
  replace (base + off + 1 + Z.to_nat (Z.land b 15 + 1))%nat with (base + (off + 1 + Z.to_nat (Z.land b 15 + 1)))%nat by lia. exact Hes.
Qed.

Lemma validate_two_block fuel l off base :
  bytes_ok l -> (length l < fuel + off)%nat -> validate_two_byte fuel l off = Ok () -> exists es, block false (base + off) (drop off l) es.
Proof.
  intros Hl. revert off. induction fuel as [|fuel IH]; intros off Hf; cbn [validate_two_byte].
  { intros _. exists []. rewrite drop_ge by lia. constructor. }
  destruct (Nat.ltb_spec off (length l)) as [Hlt|Hge]; [|intros _; exists []; rewrite drop_ge by lia; constructor].
  destruct (lookup_lt_is_Some_2 l off Hlt) as [b Hb]. rewrite Hb. cbn [ok_or mbind result_bind]. rewrite (lookup_drop0 l off b Hb).
  destruct (Z.eqb_spec b 0) as [->|Hb0].
  { intros H. destruct (IH (off + 1)%nat ltac:(lia) H) as [es Hes]. exists es. constructor. by replace (S (base + off)) with (base + (off + 1))%nat by lia. }
  destruct (l !! (off + 1)%nat) as [n|] eqn:Hn; [|done]. cbn [ok_or mbind result_bind]. rewrite (lookup_drop0 l _ n Hn).
  assert (0 <= n) as Hn0. { unfold bytes_ok in Hl. rewrite Forall_lookup in Hl. by destruct (Hl _ _ Hn). }
  destruct (Nat.ltb_spec (length l) (off + 1 + 1 + Z.to_nat n)) as [|Hle]; [done|]. intros H.
  destruct (split_suffix l (off + 1 + 1) (Z.to_nat n) Hle) as (v & r & -> & Hv & Er).
  destruct (IH (off + 1 + 1 + Z.to_nat n)%nat ltac:(lia) H) as [es Hes]. rewrite Er in Hes. replace n with (Z.of_nat (length v)) by lia.
  eexists. apply block_two; [done|done|]. rewrite Hv. replace (base + off + 2 + Z.to_nat n)%nat with (base + (off + 1 + 1 + Z.to_nat n))%nat by lia. exact Hes.
Qed.

Lemma ext_next_pad one p fuel it :
  it_profile it = Some p -> has_profile one p -> (it_offset it < it_end it)%nat -> it_bytes it !! it_offset it = Some 0 ->
  ext_next (S fuel) it = ext_next fuel (at_offset it (it_offset it + 1)).
Proof.
  intros Hi Hp Ho Hb. cbn [ext_next]. rewrite (proj2 (Nat.ltb_lt _ _) Ho), Hb, Hi. change (0 =? 0) with true. cbn iota.
  destruct one; cbn in Hp; [subst p; by rewrite bool_decide_true|]. destruct Hp as [Hp ->]. by rewrite bool_decide_false by congruence.
Qed.

(** The iterator gives the elements of a block, in order and all of them. *)
Lemma ext_next_block one p base b rest es :
  block one b rest es -> has_profile one p -> forall pre fuel, (length rest < fuel)%nat -> b = (base + length pre)%nat ->
  let it := mkIter (pre ++ rest) (length pre) (length (pre ++ rest)) (Some p) base in
  match es with
  | [] => (ext_next fuel it).1 = None
  | e :: es' => exists pre' rest', pre' ++ rest' = pre ++ rest /\ (length rest' < length rest)%nat /\ block one (base + length pre') rest' es' /\
      ext_next fuel it = (Some e, at_offset it (length pre'))
  end.
Proof.
  intros Hb Hp. induction Hb as [b|b rest es Hb IH|b x rest -> Hx|b x value rest es -> Hx0 Hx Hv Hb _|b x value rest es -> Hx0 Hb _]; intros pre fuel Hf ->; destruct fuel as [|fuel]; try (cbn in Hf; lia).
  - cbn [ext_next it_offset it_end]. rewrite app_nil_r. by rewrite (proj2 (Nat.ltb_ge _ _)) by lia.
  - cbn zeta. rewrite (ext_next_pad one p) by (done || (cbn; rewrite ?lookup_suffix0, ?length_app; cbn; done || lia)). cbn [at_offset it_bytes it_offset it_end it_profile it_base].
    specialize (IH (pre ++ [0]) fuel). rewrite length_app in IH. cbn [length] in IH, Hf. specialize (IH ltac:(lia) ltac:(lia)). cbn zeta in IH.
    replace ((pre ++ [0]) ++ rest) with (pre ++ 0 :: rest) in IH by (by rewrite <- app_assoc).
    destruct es as [|e es]; [done|]. destruct IH as (pre' & rest' & E1 & E2 & E3 & E4). exists pre', rest'. split_and!; [done|cbn; lia|done|]. exact E4.
  - cbn zeta. cbn [ext_next it_offset it_end it_bytes it_profile it_base]. rewrite (proj2 (Nat.ltb_lt _ _)) by (rewrite length_app; cbn; lia).
    rewrite lookup_suffix0. cbn [lookup list_lookup]. cbn in Hp. subst p. rewrite bool_decide_true by done.
    destruct (Z.eqb_spec x 0) as [->|Hx0]; [done|]. by rewrite (proj2 (Z.eqb_eq _ _) Hx).
  - cbn zeta. cbn [ext_next it_offset it_end it_bytes it_profile it_base]. rewrite (proj2 (Nat.ltb_lt _ _)) by (rewrite length_app; cbn; lia).
    rewrite lookup_suffix0. cbn [lookup list_lookup]. cbn in Hp. subst p. rewrite bool_decide_true by done.
    rewrite (proj2 (Z.eqb_neq _ _) Hx0), (proj2 (Z.eqb_neq _ _) Hx), <- Hv. rewrite (proj2 (Nat.ltb_ge _ _)) by (rewrite length_app; cbn; rewrite length_app; lia).
    assert (pre ++ x :: value ++ rest = (pre ++ [x]) ++ value ++ rest) as E1 by (by rewrite <- app_assoc).
    assert (length (pre ++ [x]) = (length pre + 1)%nat) as L1 by (rewrite length_app; cbn; lia).
    rewrite E1, (slice_at (pre ++ [x]) value rest) by done. exists ((pre ++ [x]) ++ value), rest.
    split_and!; [by rewrite <- app_assoc|cbn; rewrite length_app; lia| |].
    + rewrite (length_app (pre ++ [x])), L1. replace (base + (length pre + 1 + length value))%nat with (base + length pre + 1 + length value)%nat by lia. exact Hb.
    + rewrite (length_app _ value), L1, Nat.add_assoc. done.
  - cbn zeta. cbn [ext_next it_offset it_end it_bytes it_profile it_base]. rewrite (proj2 (Nat.ltb_lt _ _)) by (rewrite length_app; cbn; lia).
    rewrite lookup_suffix0. cbn [lookup list_lookup]. cbn in Hp. destruct Hp as [Hp1 Hp2]. rewrite bool_decide_false, Hp2, (proj2 (Z.eqb_neq _ _) Hx0) by congruence.
    rewrite lookup_suffix. cbn [lookup list_lookup]. rewrite Nat2Z.id. rewrite (proj2 (Nat.ltb_ge _ _)) by (rewrite length_app; cbn; rewrite length_app; lia).
    assert (pre ++ x :: Z.of_nat (length value) :: value ++ rest = (pre ++ [x; Z.of_nat (length value)]) ++ value ++ rest) as E1 by (by rewrite <- app_assoc).
    assert (length (pre ++ [x; Z.of_nat (length value)]) = (length pre + 1 + 1)%nat) as L1 by (rewrite length_app; cbn; lia).
    rewrite E1, (slice_at (pre ++ [x; Z.of_nat (length value)]) value rest) by done. exists ((pre ++ [x; Z.of_nat (length value)]) ++ value), rest.
    split_and!; [by rewrite <- app_assoc|cbn; rewrite length_app; lia| |].
    + rewrite (length_app (pre ++ [x; _])), L1. replace (base + (length pre + 1 + 1 + length value))%nat with (base + length pre + 2 + length value)%nat by lia. exact Hb.
    + rewrite (length_app _ value), L1, !Nat.add_assoc. by replace (base + length pre + 1 + 1)%nat with (base + length pre + 2)%nat by lia.
Qed.

Lemma ext_elements_block one p base es : has_profile one p -> forall pre rest fuel,
  block one (base + length pre) rest es -> (length rest < fuel)%nat ->
  ext_elements fuel (mkIter (pre ++ rest) (length pre) (length (pre ++ rest)) (Some p) base) = es.
Proof.
  intros Hp. induction es as [|e es IH]; intros pre rest fuel Hb Hf; destruct fuel as [|fuel]; try lia; cbn [ext_elements].
  - pose proof (ext_next_block one p base _ rest [] Hb Hp pre (S fuel) Hf eq_refl) as H. cbn zeta in H. by destruct (ext_next _ _) as [[] ?].
  - destruct (ext_next_block one p base _ rest (e :: es) Hb Hp pre (S fuel) Hf eq_refl) as (pre' & rest' & E1 & E2 & E3 & E4).
    cbn zeta in E4. rewrite E4. f_equal. unfold at_offset. cbn [it_bytes it_end it_profile it_base]. rewrite <- E1. apply IH; [done|lia].
Qed.
