(* ===== verification/RtpCodec.v ===== *)
(** * RTP packets survive the wire

    What the egress encodes, the parser reads back: header, extensions, payload;
    padding packets have an empty payload and repairs carry the packet they
    repair. What the parser accepts is laid out as RFC 3550 and RFC 8285 say. *)

From S2P Require Import Prelude RtpWire.

(** ** Elements written are a block *)

Lemma one_byte_header id n : 1 <= id <= 14 -> 1 <= n <= 16 ->
  let b := Z.lor (shl 8 id 4) (n - 1) in b <> 0 /\ Z.shiftr b 4 = id /\ Z.land b 15 = n - 1.
Proof.
  intros Hi Hn. cbn zeta. unfold shl. rewrite wrap_small by (unfold fits; rewrite Z.shiftl_mul_pow2 by lia; change (2 ^ 4) with 16; change (2 ^ 8) with 256; lia).
  rewrite (lor_shift_add id (n - 1) 4) by (change (2 ^ 4) with 16; lia). change 15 with (2 ^ 4 - 1). rewrite land_ones_mod, split_high, split_low by (change (2 ^ 4) with 16; lia).
  change (2 ^ 4) with 16. lia.
Qed.

Definition fits_header (one : bool) (e : Z * list Z) : Prop :=
  if one then 1 <= e.1 <= 14 /\ (1 <= length e.2 <= 16)%nat else e.1 <> 0 /\ (length e.2 <= 255)%nat.

Definition pair_of (e : RtpExtension) : Z * list Z := (ext_id e, ext_value e).

Lemma zeros_block one base tail : Forall (eq 0) tail -> block one base tail [].
Proof. intros H. revert base. induction H as [|x tail <- _ IH]; intros base; [constructor|]. constructor. apply IH. Qed.

Lemma written_block one es els tail base :
  mapM (write_element one) es = Some els -> Forall (fits_header one) es -> Forall (eq 0) tail ->
  exists xs, block one base (concat els ++ tail) xs /\ pair_of <$> xs = es.
Proof.
  intros Hm. apply mapM_Some in Hm. revert base. induction Hm as [|[id v] el es els He _ IH]; intros base Hf Ht; [exists []; split; [by apply zeros_block|done]|].
  apply Forall_cons in Hf as [Hf1 Hf]. unfold write_element in He. cbn [fst snd] in He. destruct one; cbn [fits_header fst snd] in Hf1.
  - destruct Hf1 as [Hi Hl]. rewrite (proj2 (Z.leb_le _ _)) in He by lia. injection He as <-.
    destruct (one_byte_header id (Z.of_nat (length v)) Hi ltac:(lia)) as (N0 & Sh & La). set (b := Z.lor _ _) in *.
    destruct (IH (base + 1 + length v)%nat Hf Ht) as (xs & Hb & Ex). eexists (_ :: xs). cbn [concat app]. rewrite <- app_assoc. split.
    + apply block_one; [done|done|lia|lia|exact Hb].
    + cbn. by rewrite Ex, Sh.
  - destruct Hf1 as [Hi Hl]. rewrite (proj2 (Nat.leb_le _ _)) in He by lia. injection He as <-.
    destruct (IH (base + 2 + length v)%nat Hf Ht) as (xs & Hb & Ex). eexists (_ :: xs). cbn [concat app]. rewrite <- app_assoc. split.
    + apply block_two; [done|done|exact Hb].
    + cbn. by rewrite Ex.
Qed.

Lemma written_length one es els : mapM (write_element one) es = Some els -> length (concat els) = block_bytes one (sizes es).
Proof.
  intros Hm. apply mapM_Some in Hm. unfold block_bytes, sizes. assert (forall n, (n + length (concat els))%nat = foldl (fun n '(_, size) => n + (if one then 1 else 2) + size)%nat n ((fun '(id, v) => (id, length v)) <$> es)) as H; [|by rewrite <- H].
  induction Hm as [|[id v] el es els He _ IH]; intros n; cbn [concat]; [cbn; lia|]. cbn [fmap list_fmap foldl]. rewrite <- IH, length_app.
  unfold write_element in He. cbn [fst snd] in He. destruct one; [injection He as <-; cbn; lia|]. case_match; [|done]. injection He as <-. cbn. lia.
Qed.

Lemma pad4_spec l : exists k, pad4 l = l ++ replicate k 0 /\ length (pad4 l) = ((length l + 3) `div` 4 * 4)%nat.
Proof.
  eexists. split; [reflexivity|]. unfold pad4. rewrite length_app, length_replicate.
  pose proof (Nat.div_mod_eq (length l) 4) as Hq. pose proof (Nat.mod_upper_bound (length l) 4 ltac:(lia)) as Hr.
  set (q := (length l `div` 4)%nat) in *. set (r := (length l `mod` 4)%nat) in *.
  assert (((length l + 3) `div` 4)%nat = if decide (r = 0)%nat then q else (q + 1)%nat) as ->.
  { symmetry. case_decide; [apply (Nat.div_unique _ 4 q 3); lia|apply (Nat.div_unique _ 4 (q + 1) (r - 1)); lia]. }
  assert (((4 - r) `mod` 4)%nat = if decide (r = 0)%nat then 0%nat else (4 - r)%nat) as ->; [|case_decide; lia].
  case_decide as E; [by rewrite E|]. apply Nat.mod_small. lia.
Qed.

(** The profile a layout announces. *)
Definition profile_of (one : bool) : Z := if one then ONE_BYTE else 0x1000.
Lemma profile_of_ok one : has_profile one (profile_of one).
Proof. by destruct one. Qed.

Lemma validate_block one l es base : block one base l es -> validate_extension_elements l (profile_of one) = Ok ().
Proof.
  intros Hb. assert (forall pre rest fuel, pre ++ rest = l -> (length rest < fuel)%nat -> block one (base + length pre) rest es ->
    (if one then validate_one_byte fuel l (length pre) else validate_two_byte fuel l (length pre)) = Ok ()) as Hgo.
  2:{ unfold validate_extension_elements. specialize (Hgo [] l (S (length l)) eq_refl ltac:(lia)). rewrite Nat.add_0_r in Hgo. specialize (Hgo Hb). destruct one; exact Hgo. }
  clear Hb. intros pre rest fuel El Hf Hb. remember (base + length pre)%nat as b eqn:Eb. revert pre fuel Eb El Hf.
  induction Hb as [b|b rest es Hb IH|b x rest -> Hx|b x value rest es -> Hx0 Hx Hv Hb IH|b x value rest es -> Hx0 Hb IH]; intros pre fuel -> <- Hf; destruct fuel as [|fuel]; try lia.
  - destruct one; cbn [validate_one_byte validate_two_byte]; by rewrite app_nil_r, (proj2 (Nat.ltb_ge _ _)) by lia.
  - specialize (IH (pre ++ [0]) fuel). rewrite length_app in IH. cbn [length] in IH, Hf. specialize (IH ltac:(lia)). rewrite <- app_assoc in IH. specialize (IH eq_refl ltac:(lia)).
    destruct one; cbn [validate_one_byte validate_two_byte]; (rewrite (proj2 (Nat.ltb_lt _ _)) by (rewrite length_app; cbn; lia)); rewrite lookup_suffix0; exact IH.
  - cbn [validate_one_byte]. rewrite (proj2 (Nat.ltb_lt _ _)) by (rewrite length_app; cbn; lia). rewrite lookup_suffix0. cbn [lookup list_lookup ok_or mbind result_bind].
    destruct (Z.eqb_spec x 0) as [->|Hx0]; [done|]. by rewrite (proj2 (Z.eqb_eq _ _) Hx).
  - cbn [validate_one_byte]. rewrite (proj2 (Nat.ltb_lt _ _)) by (rewrite length_app; cbn; lia). rewrite lookup_suffix0. cbn [lookup list_lookup ok_or mbind result_bind].
    rewrite (proj2 (Z.eqb_neq _ _) Hx0), (proj2 (Z.eqb_neq _ _) Hx), <- Hv. rewrite (proj2 (Nat.ltb_ge _ _)) by (rewrite length_app; cbn; rewrite length_app; lia).
    specialize (IH (pre ++ x :: value) fuel). rewrite length_app in IH. cbn [length] in IH, Hf. rewrite length_app in Hf. specialize (IH ltac:(lia)). rewrite <- app_assoc in IH.
    specialize (IH eq_refl ltac:(lia)). by replace (length pre + 1 + length value)%nat with (length pre + S (length value))%nat by lia.
  - cbn [validate_two_byte]. rewrite (proj2 (Nat.ltb_lt _ _)) by (rewrite length_app; cbn; lia). rewrite lookup_suffix0. cbn [lookup list_lookup ok_or mbind result_bind].
    rewrite (proj2 (Z.eqb_neq _ _) Hx0), lookup_suffix. cbn [lookup list_lookup ok_or mbind result_bind]. rewrite Nat2Z.id.
    rewrite (proj2 (Nat.ltb_ge _ _)) by (rewrite length_app; cbn; rewrite length_app; lia).
    specialize (IH (pre ++ x :: Z.of_nat (length value) :: value) fuel). rewrite length_app in IH. cbn [length] in IH, Hf. rewrite length_app in Hf. specialize (IH ltac:(lia)). rewrite <- app_assoc in IH.
    specialize (IH eq_refl ltac:(lia)). by replace (length pre + 1 + 1 + length value)%nat with (length pre + S (S (length value)))%nat by lia.
Qed.

(** ** Packets *)

Definition first_byte (ext pad : bool) : Z := Z.lor (Z.lor 0x80 (if ext then 0x10 else 0)) (if pad then 0x20 else 0).
Definition second_byte (pt : Z) (mark : bool) : Z := Z.lor pt (if mark then 0x80 else 0).
Definition fixed_header (ext pad : bool) (pt : Z) (mark : bool) (seq ts ssrc : Z) : list Z :=
  [first_byte ext pad; second_byte pt mark] ++ be_encode 2 seq ++ be_encode 4 ts ++ be_encode 4 ssrc.

Lemma fixed_header_length ext pad pt mark seq ts ssrc : length (fixed_header ext pad pt mark seq ts ssrc) = 12%nat.
Proof. unfold fixed_header. by rewrite !length_app, !length_be_encode. Qed.

Lemma second_byte_spec pt mark : 0 <= pt < 128 -> Z.land (second_byte pt mark) 0x7f = pt /\ negb (Z.land (second_byte pt mark) 0x80 =? 0) = mark.
Proof.
  intros Hp. assert (second_byte pt mark = (if mark then 1 else 0) * 2 ^ 7 + pt) as ->.
  { unfold second_byte. rewrite Z.lor_comm. destruct mark; [|by rewrite Z.lor_0_l]. change 0x80 with (Z.shiftl 1 7). rewrite lor_shift_add by (change (2 ^ 7) with 128; lia). done. }
  change 0x7f with (2 ^ 7 - 1). rewrite land_ones_mod, split_low by (change (2 ^ 7) with 128; lia). split; [done|].
  assert (Z.land ((if mark then 1 else 0) * 2 ^ 7 + pt) 0x80 = if mark then 0x80 else 0) as ->; [|by destruct mark].
  apply Z.bits_inj'. intros k Hk. rewrite Z.land_spec. change 0x80 with (2 ^ 7) at 1. rewrite Z.pow2_bits_eqb by lia. destruct (Z.eqb_spec 7 k) as [<-|Hne].
  - rewrite andb_true_r, Z.testbit_odd, split_high by (change (2 ^ 7) with 128; lia). by destruct mark.
  - rewrite andb_false_r. destruct mark; [|by rewrite Z.bits_0]. change 0x80 with (2 ^ 7). rewrite Z.pow2_bits_eqb by lia. symmetry. by apply Z.eqb_neq.
Qed.

(** An extension block of the header: announced size, elements [xs]. *)
Definition extension_block (ext one : bool) (part : list Z) (xs : list RtpExtension) : Prop :=
  if ext then exists w body, part = be_encode 2 (profile_of one) ++ be_encode 2 w ++ body /\ 0 <= w <= umax 16 /\ length body = (Z.to_nat w * 4)%nat /\
    (length body <= MAX_RTP_EXTENSION_BYTES)%nat /\ block one 16 body xs
  else part = [] /\ xs = [].

Lemma read_u16_at (pre post : list Z) v off : length pre = off -> fits 16 v -> read_u16 (pre ++ be_encode 2 v ++ post) off = Ok v.
Proof. intros Ho Hv. unfold read_u16. rewrite (slice_at pre (be_encode 2 v) post off 2) by (by rewrite ?length_be_encode). cbn. by rewrite (be_decode_encode 2 v). Qed.
Lemma read_u32_at (pre post : list Z) v off : length pre = off -> fits 32 v -> read_u32 (pre ++ be_encode 4 v ++ post) off = Ok v.
Proof. intros Ho Hv. unfold read_u32. rewrite (slice_at pre (be_encode 4 v) post off 4) by (by rewrite ?length_be_encode). cbn. by rewrite (be_decode_encode 4 v). Qed.

Lemma profile_fits one : fits 16 (profile_of one).
Proof. by destruct one. Qed.

Lemma parse_block_ok (head part tail : list Z) one xs w body :
  length head = 12%nat -> part = be_encode 2 (profile_of one) ++ be_encode 2 w ++ body -> 0 <= w <= umax 16 -> length body = (Z.to_nat w * 4)%nat ->
  (length body <= MAX_RTP_EXTENSION_BYTES)%nat -> block one 16 body xs ->
  parse_extension_block (head ++ part ++ tail) 12 = Ok (16, (16 + length body)%nat, profile_of one)%nat.
Proof.
  intros Hh -> Hw Hl Hmax Hb. assert (fits 16 w) as Hwf by (unfold fits, umax in *; lia). unfold parse_extension_block.
  assert (length (head ++ (be_encode 2 (profile_of one) ++ be_encode 2 w ++ body) ++ tail) = (16 + length body + length tail)%nat) as Hlen by (rewrite !length_app, !length_be_encode; lia).
  rewrite require_ok by (apply Nat.leb_le; lia). cbn [mbind result_bind].
  assert (head ++ (be_encode 2 (profile_of one) ++ be_encode 2 w ++ body) ++ tail = head ++ be_encode 2 (profile_of one) ++ (be_encode 2 w ++ body ++ tail)) as E1 by (by rewrite !app_assoc).
  assert (head ++ (be_encode 2 (profile_of one) ++ be_encode 2 w ++ body) ++ tail = (head ++ be_encode 2 (profile_of one)) ++ be_encode 2 w ++ (body ++ tail)) as E2 by (by rewrite !app_assoc).
  assert (head ++ (be_encode 2 (profile_of one) ++ be_encode 2 w ++ body) ++ tail = (head ++ be_encode 2 (profile_of one) ++ be_encode 2 w) ++ body ++ tail) as E3 by (by rewrite !app_assoc).
  rewrite E1 at 1. rewrite (read_u16_at head) by (done || apply profile_fits). cbn [mbind result_bind].
  rewrite E2 at 1. rewrite (read_u16_at (head ++ _)) by (done || by rewrite length_app, length_be_encode, Hh). cbn [mbind result_bind].
  rewrite require_ok by (apply Nat.leb_le; lia). cbn [mbind result_bind]. rewrite require_ok by (apply Nat.leb_le; lia). cbn [mbind result_bind].
  rewrite E3 at 1. rewrite (get_range_at (head ++ _ ++ _) body tail) by (rewrite ?length_app, ?length_be_encode; lia). cbn [ok_or mbind result_bind].
  rewrite (validate_block one body xs 16 Hb). cbn [mbind result_bind]. do 2 f_equal. rewrite Hl. done.
Qed.

Lemma last_app_some {A} (l1 l2 : list A) x : last l2 = Some x -> last (l1 ++ l2) = Some x.
Proof. intros H. by rewrite last_app, H. Qed.

(** A packet put together from its parts parses to them. [n] is the padding. *)
Lemma rtp_parse_wire (ext pad one : bool) pt mark seq ts ssrc part tail xs n :
  0 <= pt < 128 -> fits 16 seq -> fits 32 ts -> fits 32 ssrc -> extension_block ext one part xs ->
  (if pad then last tail = Some (Z.of_nat n) /\ (1 <= n <= length tail)%nat else n = 0%nat) ->
  exists p, rtp_parse (fixed_header ext pad pt mark seq ts ssrc ++ part ++ tail) = Ok p /\ payload p = take (length tail - n) tail /\
    (sequence p, timestamp p, rtp_ssrc p, payload_type p, marker p) = (seq, ts, ssrc, pt, mark) /\ extension_list p = xs.
Proof.
  intros Hpt Hseq Hts Hss Hext Hpad. set (head := fixed_header ext pad pt mark seq ts ssrc). set (l := head ++ part ++ tail).
  assert (length head = 12%nat) as Hh by apply fixed_header_length.
  assert (length l = (12 + length part + length tail)%nat) as Hl by (unfold l; rewrite !length_app, Hh; lia).
  assert (exists size, (if ext then '(start, end_, profile) ← parse_extension_block l 12; Ok (Some (start, end_), Some profile, end_) else Ok (None, None, 12%nat))
    = Ok (E := PacketError) (if ext then Some (16, 16 + size)%nat else None, if ext then Some (profile_of one) else None, (12 + length part)%nat) /\
    (ext = true -> length part = (4 + size)%nat /\ exists body, part = be_encode 2 (profile_of one) ++ be_encode 2 (be_decode (take 2 (drop 2 part))) ++ body /\ length body = size /\ block one 16 body xs)) as (size & Eblock & Hpart).
  { destruct ext; cbn in Hext; [|destruct Hext as [-> ->]; exists 0%nat; split; [done|done]]. destruct Hext as (w & body & Ep & Hw & Hb & Hmax & Hblk).
    exists (length body). unfold l. rewrite (parse_block_ok head part tail one xs w body Hh Ep Hw Hb Hmax Hblk). cbn [mbind result_bind].
    assert (length part = (4 + length body)%nat) as Hlp by (rewrite Ep, !length_app, !length_be_encode; lia). split; [by rewrite Hlp|]. intros _. split; [done|].
    exists body. split; [|done]. rewrite Ep at 1. do 2 f_equal. rewrite Ep. rewrite drop_app_length' by (by rewrite length_be_encode). rewrite take_app_length' by (by rewrite length_be_encode).
    rewrite be_decode_encode; [done|]. unfold fits, umax in *. change (8 * Z.of_nat 2) with 16. lia. }
  assert ((n <= length tail)%nat) as Hn by (destruct pad; lia).
  eexists. split.
  - unfold rtp_parse. rewrite require_ok by (apply Nat.leb_le; lia). cbn [mbind result_bind].
    change (read_u8 l 0) with (Ok (E := PacketError) (first_byte ext pad)). cbn [mbind result_bind].
    rewrite (require_ok (Z.shiftr (first_byte ext pad) 6 =? 2)) by (by destruct ext, pad). cbn [mbind result_bind].
    replace (Z.to_nat (Z.land (first_byte ext pad) 0x0f)) with 0%nat by (by destruct ext, pad). cbn [Nat.mul Nat.add]. change (12 + 0)%nat with 12%nat.
    rewrite require_ok by (apply andb_true_iff; split; apply Nat.leb_le; lia). cbn [mbind result_bind].
    replace (negb (Z.land (first_byte ext pad) 0x10 =? 0)) with ext by (by destruct ext, pad). rewrite Eblock. cbn [mbind result_bind].
    replace (negb (Z.land (first_byte ext pad) 0x20 =? 0)) with pad by (by destruct ext, pad).
    assert ((if pad then value ← ok_or (last l) InvalidPadding; _ ← require (negb (value =? 0) && (Z.to_nat value <=? length l - (12 + length part))%nat) InvalidPadding; Ok (Z.to_nat value) else Ok 0%nat) = Ok (E := PacketError) n) as ->.
    { destruct pad; [|by subst n]. destruct Hpad as [Hlast Hn']. unfold l. rewrite app_assoc, (last_app_some _ tail _ Hlast). cbn [ok_or mbind result_bind]. rewrite <- app_assoc. fold l.
      rewrite Nat2Z.id, require_ok; [done|]. apply andb_true_iff. split; [apply negb_true_iff, Z.eqb_neq; lia|apply Nat.leb_le; lia]. }
    cbn [mbind result_bind]. rewrite require_ok by (apply Nat.leb_le; lia). cbn [mbind result_bind]. rewrite require_ok by (apply Nat.leb_le; lia). cbn [mbind result_bind].
    assert (read_u16 l 2 = Ok seq /\ read_u32 l 4 = Ok ts /\ read_u32 l 8 = Ok ssrc) as (-> & -> & ->).
    { unfold l, head, fixed_header. split_and!.
      - rewrite <- !app_assoc. by apply (read_u16_at [_; _]).
      - rewrite <- !app_assoc. rewrite (app_assoc [_; _]). apply read_u32_at; [by rewrite length_app, length_be_encode|done].
      - rewrite <- !app_assoc. rewrite (app_assoc [_; _]), (app_assoc ([_; _] ++ _)). apply read_u32_at; [by rewrite !length_app, !length_be_encode|done]. }
    cbn [mbind result_bind]. change (read_u8 l 1) with (Ok (E := PacketError) (second_byte pt mark)). cbn [mbind result_bind]. reflexivity.
  - cbn [payload rtp_bytes payload_range fst snd sequence timestamp rtp_ssrc payload_type marker]. destruct (second_byte_spec pt mark Hpt) as [E1 E2]. split_and!.
    + unfold payload. cbn [rtp_bytes payload_range fst snd]. assert (l = (head ++ part) ++ take (length tail - n) tail ++ drop (length tail - n) tail) as -> by (unfold l; by rewrite take_drop, app_assoc).
      rewrite (get_range_at (head ++ part)); [done|rewrite length_app; lia|]. rewrite length_take, !length_app, length_take, length_drop. lia.
    + by rewrite E1, E2.
    + unfold extension_list, extensions. cbn [extension_range rtp_bytes extension_profile]. destruct ext; [|by destruct Hext as [_ ->]].
      destruct (Hpart eq_refl) as (Hlp & body & Ep & Hb & Hblk). assert (get_range l 16 (16 + size) = Some body) as ->.
      { unfold l. rewrite Ep. rewrite <- !app_assoc. rewrite (app_assoc head), (app_assoc (head ++ _)). apply get_range_at; [|lia]. rewrite !length_app, !length_be_encode. lia. }
      cbn [ok_or mbind result_bind it_end]. replace (16 + size - 16)%nat with (length body) by lia.
      apply (ext_elements_block one (profile_of one) 16 xs (profile_of_ok one) [] body); [by rewrite Nat.add_0_r|lia].
Qed.

(** ** Encoding *)

Lemma layout_facts n es allow lay :
  layout_new n (sizes es) allow = Some lay -> Forall (fun e => 0 <= e.1) es ->
  match layout_extensions lay with
  | None => es = []
  | Some e => Forall (fits_header (one_byte e)) es /\ words e = Z.of_nat ((block_bytes (one_byte e) (sizes es) + 3) `div` 4) /\ words e <= umax 16
  end.
Proof.
  intros Hl Hid. unfold layout_new in Hl. destruct es as [|e0 es0]; [by injection Hl as <-|]. set (es := e0 :: es0) in *. cbn [sizes fmap list_fmap] in Hl.
  change (_ :: _) with (sizes es) in Hl. destruct (existsb _ (sizes es)) eqn:Hex; [done|]. set (one := allow && _) in *.
  destruct (Z.leb_spec (Z.of_nat ((block_bytes one (sizes es) + 3) `div` 4)) (umax 16)) as [Hw|]; [|done]. injection Hl as <-. cbn [layout_extensions one_byte words]. split; [|done].
  assert (forall id v, (id, v) ∈ es -> id <> 0 /\ (length v <= 255)%nat) as Hall.
  { intros id v Hin. assert (In (id, length v) (sizes es)) as Hs by (apply list_elem_of_In, list_elem_of_fmap; by exists (id, v)).
    destruct (decide (id = 0 \/ (255 < length v)%nat)) as [Hbad|Hgood]; [|lia].
    assert (existsb (fun '(id, size) => (id =? 0) || (255 <? size)%nat) (sizes es) = true) as E; [|by rewrite E in Hex].
    apply existsb_exists. exists (id, length v). split; [done|]. apply orb_true_iff. destruct Hbad; [left; by apply Z.eqb_eq|right; by apply Nat.ltb_lt]. }
  apply Forall_forall. intros [id v] Hin. destruct (Hall id v Hin) as [H1 H2]. unfold fits_header. destruct one eqn:Hone; [|done].
  unfold one in Hone. apply andb_true_iff in Hone as [_ Hone]. rewrite forallb_forall in Hone.
  specialize (Hone (id, length v)). cbn in Hone. unfold between in Hone. rewrite !andb_true_iff, !Z.leb_le in Hone.
  assert (In (id, length v) (sizes es)) as Hs by (apply list_elem_of_In, list_elem_of_fmap; by exists (id, v)). specialize (Hone Hs). cbn. lia.
Qed.

Lemma block_bytes_two one es : (block_bytes one es <= block_bytes false es)%nat.
Proof.
  unfold block_bytes. assert (forall a b, (a <= b)%nat -> (foldl (fun n '(_, size) => n + (if one then 1 else 2) + size) a es <= foldl (fun n '(_, size) => n + 2 + size) b es)%nat) as H; [|by apply H].
  induction es as [|[id n] es IH]; intros a b Hab; [done|]. cbn [foldl]. apply IH. destruct one; lia.
Qed.

Lemma written_extensions es e blk :
  write_extensions es e = Some blk -> Forall (fits_header (one_byte e)) es -> words e = Z.of_nat ((block_bytes (one_byte e) (sizes es) + 3) `div` 4) -> words e <= umax 16 ->
  (block_bytes false (sizes es) <= MAX_RTP_EXTENSION_BYTES)%nat ->
  exists xs, extension_block true (one_byte e) blk xs /\ pair_of <$> xs = es.
Proof.
  intros Hw Hf Hwords Hmax Hbytes. unfold write_extensions in Hw. destruct (mapM (write_element (one_byte e)) es) as [els|] eqn:Hm; [|done]. injection Hw as <-.
  destruct (pad4_spec (concat els)) as (k & Ek & Lk). destruct (written_block (one_byte e) es els (replicate k 0) 16 Hm Hf) as (xs & Hb & Ex).
  { apply Forall_replicate. done. }
  exists xs. split; [|done]. exists (words e), (pad4 (concat els)). rewrite Lk, (written_length _ _ _ Hm). split_and!; [by destruct (one_byte e)|lia|done|by rewrite Hwords, Nat2Z.id| |by rewrite Ek].
  pose proof (block_bytes_two (one_byte e) (sizes es)) as Hle. set (b := block_bytes (one_byte e) (sizes es)) in *.
  transitivity ((MAX_RTP_EXTENSION_BYTES + 3) `div` 4 * 4)%nat; [apply Nat.mul_le_mono_r, Nat.Div0.div_le_mono; lia|]. by apply Nat.leb_le; vm_compute.
Qed.

(** Identifiers of header extensions, as a sender has them. *)
Definition ids_ok (es : list (Z * list Z)) : Prop := Forall (fun e => 0 <= e.1) es.

Lemma encode_parts s mark seq ts twcc body pt ssrc pad forwarded cap bytes :
  encode_rtp s mark seq ts twcc body pt ssrc pad forwarded cap = Some bytes ->
  let es := rtp_extensions s ssrc (be_encode 2 <$> twcc) forwarded in
  ids_ok es -> (block_bytes false (sizes es) <= MAX_RTP_EXTENSION_BYTES)%nat ->
  exists ext one part xs, bytes = fixed_header ext pad pt mark seq ts ssrc ++ part ++ body /\ extension_block ext one part xs /\ pair_of <$> xs = es.
Proof.
  intros He es Hid Hb. unfold encode_rtp in He. fold es in He. destruct (layout_new (length body) (sizes es) _) as [lay|] eqn:Hl; [|done]. cbn [mbind option_bind] in He.
  destruct (cap <? layout_bytes lay)%nat; [done|]. pose proof (layout_facts _ _ _ _ Hl Hid) as Hlay. destruct (layout_extensions lay) as [e|].
  - destruct Hlay as (H1 & H2 & H3). destruct (write_extensions es e) as [blk|] eqn:Hw; [|done]. injection He as <-.
    destruct (written_extensions es e blk Hw H1 H2 H3 Hb) as (xs & Hx & Ex). exists true, (one_byte e), blk, xs. split_and!; [|done|done].
    unfold fixed_header, first_byte, second_byte. by rewrite <- !app_assoc.
  - injection He as <-. exists false, true, [], []. split_and!; [|done|by rewrite Hlay]. unfold fixed_header, first_byte, second_byte. by rewrite <- !app_assoc.
Qed.

(** C25. Every RTP packet the egress encodes parses back: the payload, sequence
    number, timestamp, source, payload type and marker come back as they were
    given, and the header extensions are those of the sender and those
    forwarded, with their values, in the order they were written, whichever of
    the two header forms was chosen. *)
Theorem rtp_packet_roundtrip s mark seq ts twcc body pt ssrc forwarded cap bytes :
  encode_rtp s mark seq ts twcc body pt ssrc false forwarded cap = Some bytes ->
  0 <= pt < 128 -> fits 16 seq -> fits 32 ts -> fits 32 ssrc ->
  let es := rtp_extensions s ssrc (be_encode 2 <$> twcc) forwarded in
  ids_ok es -> (block_bytes false (sizes es) <= MAX_RTP_EXTENSION_BYTES)%nat ->
  exists p, rtp_parse bytes = Ok p /\ payload p = body /\
    (sequence p, timestamp p, rtp_ssrc p, payload_type p, marker p) = (seq, ts, ssrc, pt, mark) /\ pair_of <$> extension_list p = es.
Proof.
  intros He Hpt Hseq Hts Hss es Hid Hb. destruct (encode_parts _ _ _ _ _ _ _ _ _ _ _ _ He Hid Hb) as (ext & one & part & xs & -> & Hx & Ex).
  destruct (rtp_parse_wire ext false one pt mark seq ts ssrc part body xs 0 Hpt Hseq Hts Hss Hx eq_refl) as (p & Hp & Epay & Efields & Eext).
  exists p. split_and!; [done| |done|by rewrite Eext]. rewrite Epay. apply take_ge. lia.
Qed.

(** The header extensions of a packet fit its extension block. *)
Definition sendable (s : Sender) (ssrc : Z) (twcc : option Z) (forwarded : list (Z * list Z)) : Prop :=
  let es := rtp_extensions s ssrc (be_encode 2 <$> twcc) forwarded in ids_ok es /\ (block_bytes false (sizes es) <= MAX_RTP_EXTENSION_BYTES)%nat.

Lemma build_encodes s mark seq ts twcc body pt ssrc pad forwarded bytes :
  build_rtp s mark seq ts twcc body pt ssrc pad forwarded = Some bytes -> exists cap, encode_rtp s mark seq ts twcc body pt ssrc pad forwarded cap = Some bytes.
Proof. unfold build_rtp. destruct (layout_new _ _ _) as [lay|]; [|done]. cbn [mbind option_bind]. intros H. by eexists. Qed.

Lemma wire_u16_fits v : fits 16 (wire_u16 v).
Proof. unfold wire_u16, fits. change (2 ^ 16) with 65536. apply Z.mod_pos_bound. lia. Qed.

Definition forwardable (s : Sender) (e : Z * list Z) : Prop := dependency_extension_id (facts s) = Some e.1 \/ e.1 ∈ (forwarded_extensions (facts s)).*1.
#[export] Instance forwardable_dec s e : Decision (forwardable s e).
Proof. unfold forwardable. apply _. Defined.

Lemma repair_extensions_spec s p : repair_extensions s p = filter (forwardable s) (pair_of <$> extension_list p).
Proof.
  unfold repair_extensions. induction (extension_list p) as [|e es IH]; [done|]. cbn [fmap list_fmap]. rewrite !filter_cons.
  destruct (decide (forwardable s (pair_of e))) as [H|H]; [rewrite (decide_True (P := _ \/ _)) by exact H|rewrite (decide_False (P := _ \/ _)) by exact H]; cbn [fmap list_fmap]; by rewrite IH.
Qed.

(** C26. A repair carries the packet it repairs: it parses to the original
    sequence number followed by the original payload, under the repair stream's
    source, payload type and next sequence number, with the original's marker
    and those of its extensions the sender forwards. *)
Theorem repair_carries_the_original s mark seq ts twcc body pt ssrc forwarded cap original index twcc' pt' bytes :
  encode_rtp s mark seq ts twcc body pt ssrc false forwarded cap = Some original ->
  0 <= pt < 128 -> fits 16 seq -> fits 32 ts -> fits 32 ssrc -> sendable s ssrc twcc forwarded ->
  let kept := filter (forwardable s) (rtp_extensions s ssrc (be_encode 2 <$> twcc) forwarded) in
  retransmission_payload_type (facts s) = Some pt' -> 0 <= pt' < 128 -> fits 32 (rtx_ssrc s) -> sendable s (rtx_ssrc s) twcc' kept ->
  repair_packet s original ts index twcc' = Some bytes ->
  exists p, rtp_parse bytes = Ok p /\ payload p = be_encode 2 (wire_u16 index) ++ body /\
    (sequence p, timestamp p, rtp_ssrc p, payload_type p, marker p) = (wire_u16 (next_rtx_sequence s), ts, rtx_ssrc s, pt', mark) /\
    pair_of <$> extension_list p = rtp_extensions s (rtx_ssrc s) (be_encode 2 <$> twcc') kept.
Proof.
  intros He Hpt Hseq Hts Hss [Hid Hb] kept Hpt' Hpr Hrs [Hid' Hb'] Hrep.
  destruct (encode_parts _ _ _ _ _ _ _ _ _ _ _ _ He Hid Hb) as (ext & one & part & xs & -> & Hx & Ex).
  destruct (rtp_parse_wire ext false one pt mark seq ts ssrc part body xs 0 Hpt Hseq Hts Hss Hx eq_refl) as (p & Hp & Epay & Efields & Eext).
  rewrite Nat.sub_0_r, take_ge in Epay by lia. injection Efields as _ _ _ _ Emark.
  unfold repair_packet in Hrep. rewrite Hpt', Hp in Hrep. cbn [mbind option_bind] in Hrep. rewrite repair_extensions_spec, Eext, Ex, Epay, Emark in Hrep. fold kept in Hrep.
  apply build_encodes in Hrep as [cap' Hrep]. destruct (encode_parts _ _ _ _ _ _ _ _ _ _ _ _ Hrep Hid' Hb') as (ext' & one' & part' & xs' & -> & Hx' & Ex').
  destruct (rtp_parse_wire ext' false one' pt' mark _ ts (rtx_ssrc s) part' (be_encode 2 (wire_u16 index) ++ body) xs' 0 Hpr (wire_u16_fits (next_rtx_sequence s)) Hts Hrs Hx' eq_refl) as (q & Hq & Eq & Ef & Ee).
  exists q. split_and!; [done| |exact Ef|by rewrite Ee]. rewrite Eq. apply take_ge. lia.
Qed.

Lemma padding_bytes_spec requested header : exists n, (1 <= n <= 255)%nat /\ padding_bytes requested header = replicate (n - 1) 0 ++ [Z.of_nat n].
Proof. unfold padding_bytes. eexists. split; [|reflexivity]. lia. Qed.

(** A padding packet is one the receiver discards: it parses, under the
    repair stream's source and next sequence number, to an empty payload. *)
Theorem padding_packet_is_empty s ts twcc requested bytes :
  padding_packet s ts twcc requested = Some bytes -> 0 <= default 0 (retransmission_payload_type (facts s)) < 128 -> fits 32 ts -> fits 32 (rtx_ssrc s) ->
  sendable s (rtx_ssrc s) twcc [] ->
  exists p, rtp_parse bytes = Ok p /\ payload p = [] /\ (sequence p, rtp_ssrc p) = (wire_u16 (next_rtx_sequence s), rtx_ssrc s).
Proof.
  intros Hp Hpt Hts Hrs [Hid Hb]. unfold padding_packet in Hp. destruct (build_rtp _ _ _ _ _ _ _ _ _ _) as [packet|] eqn:Hbuild; [|done]. cbn [mbind option_bind] in Hp. injection Hp as <-.
  apply build_encodes in Hbuild as [cap He]. destruct (encode_parts _ _ _ _ _ _ _ _ _ _ _ _ He Hid Hb) as (ext & one & part & xs & -> & Hx & Ex).
  rewrite app_assoc, removelast_last. destruct (padding_bytes_spec requested (length (fixed_header ext true (default 0 (retransmission_payload_type (facts s))) false (wire_u16 (next_rtx_sequence s)) ts (rtx_ssrc s) ++ part))) as (n & Hn & ->).
  rewrite <- app_assoc. assert (length (replicate (n - 1) 0 ++ [Z.of_nat n]) = n) as Hlen by (rewrite length_app, length_replicate; cbn; lia).
  destruct (rtp_parse_wire ext true one _ false _ ts (rtx_ssrc s) part (replicate (n - 1) 0 ++ [Z.of_nat n]) xs n Hpt (wire_u16_fits (next_rtx_sequence s)) Hts Hrs Hx) as (p & Hp & Epay & Ef & _).
  { rewrite last_snoc. split; [done|lia]. }
  exists p. rewrite Hlen, Nat.sub_diag in Epay. injection Ef as E1 _ E2 _ _. split_and!; [done|done|by rewrite E1, E2].
Qed.

(** ** What the parser accepts *)

Lemma block_ranges one base rest es (pre post : list Z) :
  block one base rest es -> length pre = base ->
  Forall (fun e => (base <= (ext_range e).1 <= (ext_range e).2)%nat /\ ((ext_range e).2 <= base + length rest)%nat /\
    get_range (pre ++ rest ++ post) (ext_range e).1 (ext_range e).2 = Some (ext_value e)) es.
Proof.
  intros Hb. revert pre. induction Hb as [b|b rest es Hb IH|b x rest -> Hx|b x value rest es -> Hx0 Hx Hv Hb IH|b x value rest es -> Hx0 Hb IH]; intros pre Hpre; [constructor| |constructor|..].
  - specialize (IH (pre ++ [0])). rewrite length_app, <- app_assoc in IH. specialize (IH ltac:(cbn; lia)). cbn [length]. eapply Forall_impl; [exact IH|]. cbn. intros e (? & ? & ?). split_and!; (lia || done).
  - assert (pre ++ (x :: value ++ rest) ++ post = (pre ++ [x]) ++ value ++ rest ++ post) as E1 by (rewrite <- !app_assoc; cbn; by rewrite <- app_assoc).
    rewrite E1. constructor; cbn [ext_range ext_value fst snd length].
    + rewrite length_app. split_and!; [lia|lia|lia|]. apply get_range_at; [rewrite length_app; cbn; lia|lia].
    + specialize (IH ((pre ++ [x]) ++ value)). rewrite !length_app in IH. cbn [length] in IH. rewrite <- app_assoc in IH. specialize (IH ltac:(lia)). eapply Forall_impl; [exact IH|]. cbn.
      rewrite length_app. intros e (? & ? & ?). split_and!; (lia || done).
  - assert (pre ++ (x :: Z.of_nat (length value) :: value ++ rest) ++ post = (pre ++ [x; Z.of_nat (length value)]) ++ value ++ rest ++ post) as E1 by (rewrite <- !app_assoc; cbn; by rewrite <- app_assoc).
    rewrite E1. constructor; cbn [ext_range ext_value fst snd length].
    + rewrite length_app. split_and!; [lia|lia|lia|]. apply get_range_at; [rewrite length_app; cbn; lia|lia].
    + specialize (IH ((pre ++ [x; Z.of_nat (length value)]) ++ value)). rewrite !length_app in IH. cbn [length] in IH. rewrite <- app_assoc in IH. specialize (IH ltac:(lia)). eapply Forall_impl; [exact IH|]. cbn.
      rewrite length_app. intros e (? & ? & ?). split_and!; (lia || done).
Qed.

Lemma get_range_some l a b v : get_range l a b = Some v -> (a <= b <= length l)%nat /\ l = take a l ++ v ++ drop b l /\ length v = (b - a)%nat.
Proof.
  unfold get_range, slice. destruct (Nat.leb_spec a b); [|done]. case_decide; [|done]. intros [= <-]. split; [lia|]. split; [|rewrite length_take, length_drop; lia].
  rewrite <- (take_drop a l) at 1. f_equal. rewrite <- (take_drop (b - a) (drop a l)) at 1. f_equal. rewrite drop_drop. f_equal. lia.
Qed.

Lemma parse_block_inv l header a b profile :
  bytes_ok l -> parse_extension_block l header = Ok (a, b, profile) ->
  a = (header + 4)%nat /\ exists body, get_range l a b = Some body /\ length body = (b - a)%nat /\ (a <= b <= length l)%nat /\
    forall one, has_profile one profile -> exists es, block one a body es.
Proof.
  intros Hl. unfold parse_extension_block. intros [_ H]%require_inv. apply bind_ok in H as (p & Hp & H). apply bind_ok in H as (w & Hw & H).
  apply require_inv in H as [_ H]. apply require_inv in H as [Hlen%Nat.leb_le H]. apply bind_ok in H as (body & Hbody & H). apply bind_ok in H as ([] & Hv & H). injection H as <- <- <-.
  split; [done|]. exists body. destruct (get_range l (header + 4) _) as [body'|] eqn:Hr; [|done]. injection Hbody as <-. destruct (get_range_some _ _ _ _ Hr) as (Hb1 & Hb2 & Hb3).
  split_and!; try done; try lia. intros one Hone.
  assert (bytes_ok body') as Hbo by (unfold bytes_ok in *; rewrite Hb2 in Hl; apply Forall_app in Hl as [_ Hl]; by apply Forall_app in Hl as [? _]).
  unfold validate_extension_elements in Hv. destruct one; cbn in Hone.
  - subst p. change (ONE_BYTE =? ONE_BYTE) with true in Hv. cbn iota in Hv.
    destruct (validate_one_block (S (length body')) body' 0 (header + 4) Hbo ltac:(lia) Hv) as [es Hes]. rewrite Nat.add_0_r in Hes. by exists es.
  - destruct Hone as [H1 H2]. rewrite (proj2 (Z.eqb_neq _ _) H1), H2 in Hv.
    destruct (validate_two_block (S (length body')) body' 0 (header + 4) Hbo ltac:(lia) Hv) as [es Hes]. rewrite Nat.add_0_r in Hes. by exists es.
Qed.

(** C32. A packet the parser accepts is laid out as its accessors say: the payload
    follows the header and ends within the packet, and iterating over the header
    extensions yields all the elements of the extension block, in order, each
    value being the bytes of its range inside that block. *)
Theorem accepted_packet_layout l p :
  bytes_ok l -> rtp_parse l = Ok p ->
  rtp_bytes p = l /\ (12 <= (payload_range p).1 <= (payload_range p).2)%nat /\ ((payload_range p).2 <= length l)%nat /\
  match extension_range p, extension_profile p with
  | Some (a, b), Some profile =>
      (12 <= a <= b)%nat /\ (b <= (payload_range p).1)%nat /\ forall one, has_profile one profile ->
        (exists body, get_range l a b = Some body /\ block one a body (extension_list p)) /\
        Forall (fun e => (a <= (ext_range e).1)%nat /\ ((ext_range e).2 <= b)%nat /\ get_range l (ext_range e).1 (ext_range e).2 = Some (ext_value e)) (extension_list p)
  | None, None => extension_list p = []
  | _, _ => False
  end.
Proof.
  intros Hl. unfold rtp_parse. intros [_ H]%require_inv. apply bind_ok in H as (first & _ & H). apply require_inv in H as [_ H]. apply require_inv in H as [Hh H].
  apply andb_true_iff in Hh as [_ Hh%Nat.leb_le]. set (header := (12 + Z.to_nat (Z.land first 15) * 4)%nat) in *.
  apply bind_ok in H as ([[ext profile] header'] & He & H). apply bind_ok in H as (padding & _ & H). apply require_inv in H as [_ H]. apply require_inv in H as [Hp%Nat.leb_le H].
  apply bind_ok in H as (seq & _ & H). apply bind_ok in H as (ts & _ & H). apply bind_ok in H as (ssrc & _ & H). apply bind_ok in H as (second & _ & H). injection H as <-.
  cbn [rtp_bytes payload_range fst snd extension_range extension_profile].
  destruct (negb (Z.land first 16 =? 0)).
  - apply bind_ok in He as ([[a b] prof] & Hb & He). injection He as <- <- <-. destruct (parse_block_inv l header a b prof Hl Hb) as (Ha & body & Hr & Hlen & Hab & Hblk).
    split_and!; try done; try lia. intros one Hone. destruct (Hblk one Hone) as [es Hes].
    assert (extension_list (mkRtpPacket l (b, (length l - padding)%nat) (Some (a, b)) (Some prof) seq ts ssrc (Z.land second 127) (negb (Z.land second 128 =? 0))) = es) as ->.
    { unfold extension_list, extensions. cbn [extension_range rtp_bytes extension_profile]. rewrite Hr. cbn [ok_or mbind result_bind it_end]. rewrite <- Hlen.
      apply (ext_elements_block one prof a es Hone [] body); [by rewrite Nat.add_0_r|lia]. }
    split; [by exists body|]. destruct (get_range_some _ _ _ _ Hr) as (Hab' & El & _).
    pose proof (block_ranges one a body es (take a l) (drop b l) Hes ltac:(rewrite length_take; lia)) as Hf. rewrite <- El in Hf. eapply Forall_impl; [exact Hf|].
    cbn. intros e (? & ? & ?). split_and!; (lia || done).
  - injection He as <- <- <-. split_and!; (done || lia).
Qed.

(** ** Sizes planned and sizes sent *)

Lemma layout_size n es allow lay : layout_new n es allow = Some lay ->
  layout_bytes lay = (12 + n + match layout_extensions lay with Some e => 4 + (block_bytes (one_byte e) es + 3) `div` 4 * 4 | None => 0 end)%nat /\
  match layout_extensions lay with Some _ => Forall (fun e => (e.2 <= 255)%nat) es | None => es = [] end.
Proof.
  unfold layout_new. destruct es as [|e0 es0]; [intros [= <-]; cbn; by rewrite Nat.add_0_r|]. set (es := e0 :: es0). destruct (existsb _ es) eqn:Hex; [done|].
  set (one := allow && _). case_match; [|done]. intros [= <-]. cbn [layout_bytes layout_extensions one_byte]. rewrite Nat2Z.id. split; [by rewrite Nat.add_assoc|].
  apply Forall_forall. intros [id k] Hin. destruct (decide (k <= 255)%nat) as [|Hk]; [done|].
  assert (existsb (fun '(id, size) => (id =? 0) || (255 <? size)%nat) es = true) as E; [|by rewrite E in Hex].
  apply existsb_exists. exists (id, k). split; [by apply list_elem_of_In|]. apply orb_true_iff. right. apply Nat.ltb_lt. lia.
Qed.

Lemma write_extensions_size es e : Forall (fun x => (x.2 <= 255)%nat) (sizes es) ->
  exists blk, write_extensions es e = Some blk /\ length blk = (4 + (block_bytes (one_byte e) (sizes es) + 3) `div` 4 * 4)%nat.
Proof.
  intros Hs. assert (exists els, mapM (write_element (one_byte e)) es = Some els) as [els Hm].
  { unfold sizes in Hs. rewrite Forall_fmap in Hs. induction Hs as [|[id v] es H _ [els IH]]; [by exists []|]. cbn in H.
    assert (is_Some (write_element (one_byte e) (id, v))) as [el He] by (unfold write_element; cbn [snd]; rewrite (proj2 (Nat.leb_le _ _) H); by destruct (one_byte e)).
    exists (el :: els). cbn. rewrite He. cbn. by rewrite IH. }
  unfold write_extensions. rewrite Hm. eexists. split; [reflexivity|]. destruct (pad4_spec (concat els)) as (_ & _ & Lk).
  rewrite !length_app, Lk, (written_length _ _ _ Hm), length_be_encode. destruct (one_byte e); cbn [length]; lia.
Qed.

Lemma encode_size s mark seq ts twcc body pt ssrc pad forwarded cap :
  let es := rtp_extensions s ssrc (be_encode 2 <$> twcc) forwarded in
  match layout_new (length body) (sizes es) (sender_uses_one_byte_extensions s) with
  | None => encode_rtp s mark seq ts twcc body pt ssrc pad forwarded cap = None
  | Some lay =>
      if (cap <? layout_bytes lay)%nat then encode_rtp s mark seq ts twcc body pt ssrc pad forwarded cap = None
      else exists head, encode_rtp s mark seq ts twcc body pt ssrc pad forwarded cap = Some (head ++ body) /\ length (head ++ body) = layout_bytes lay
  end.
Proof.
  intros es. unfold encode_rtp. fold es. destruct (layout_new _ _ _) as [lay|] eqn:Hl; [|done]. cbn [mbind option_bind]. destruct (cap <? layout_bytes lay)%nat; [done|].
  destruct (layout_size _ _ _ _ Hl) as [Hb Hx]. destruct (layout_extensions lay) as [e|].
  - destruct (write_extensions_size es e Hx) as (blk & -> & Lb). cbn [option_bind]. exists (fixed_header true pad pt mark seq ts ssrc ++ blk).
    split; [unfold fixed_header, first_byte, second_byte; by rewrite <- !app_assoc|]. rewrite !length_app, fixed_header_length, Lb, Hb. lia.
  - exists (fixed_header false pad pt mark seq ts ssrc). split; [unfold fixed_header, first_byte, second_byte; by rewrite <- !app_assoc|]. rewrite length_app, fixed_header_length, Hb. lia.
Qed.

Lemma build_size s mark seq ts twcc body pt ssrc pad forwarded :
  let es := rtp_extensions s ssrc (be_encode 2 <$> twcc) forwarded in
  match layout_new (length body) (sizes es) (sender_uses_one_byte_extensions s) with
  | None => build_rtp s mark seq ts twcc body pt ssrc pad forwarded = None
  | Some lay => exists head, build_rtp s mark seq ts twcc body pt ssrc pad forwarded = Some (head ++ body) /\ length (head ++ body) = layout_bytes lay
  end.
Proof.
  intros es. unfold build_rtp. fold es. destruct (layout_new _ _ _) as [lay|] eqn:Hl; [|done]. cbn [mbind option_bind].
  pose proof (encode_size s mark seq ts twcc body pt ssrc pad forwarded (layout_bytes lay)) as H. cbn zeta in H. fold es in H. by rewrite Hl, Nat.ltb_irrefl in H.
Qed.

Lemma sizes_extensions s ssrc next forwarded : sizes (rtp_extensions s ssrc (be_encode 2 <$> twcc_for s next) forwarded) =
  sizes forwarded ++ zip_option (mid_extension_id (facts s)) (Some (length (mid (facts s))))
  ++ zip_option (if ssrc =? rtx_ssrc s then repaired_rid_extension_id s else rid_extension_id s) (@length Z <$> rid s) ++ zip_option (twcc_extension_id (facts s)) (Some 2%nat).
Proof.
  unfold rtp_extensions, twcc_for, sizes. rewrite !fmap_app. repeat f_equal; unfold zip_option.
  - by destruct (mid_extension_id (facts s)).
  - destruct (if ssrc =? rtx_ssrc s then _ else _), (rid s); done.
  - by destruct (twcc_extension_id (facts s)).
Qed.

Lemma layout_original_sizes s m next :
  layout_original s m = layout_new (length (write_payload m)) (sizes (rtp_extensions s (sender_ssrc s) (be_encode 2 <$> twcc_for s next) (write_media_extensions s m))) (sender_uses_one_byte_extensions s).
Proof.
  rewrite sizes_extensions. unfold layout_original. do 2 f_equal. unfold sizes, write_media_extensions.
  induction (write_extension_values m) as [|[uri v] l IH]; [done|]. cbn. destruct (media_extension_id s uri); cbn; by rewrite IH.
Qed.

Lemma layout_shift n es allow : layout_new (S n) es allow = (fun lay => mkPacketLayout (S (layout_bytes lay)) (layout_extensions lay)) <$> layout_new n es allow.
Proof. unfold layout_new. destruct es; [done|]. case_match; [done|]. by case_match. Qed.

(** C31. The sizes planned for the pacer are the sizes sent: the size computed for
    the next queued packet, repair or padding is exactly that of the packet then
    built, plus the allowance for the transport, whatever transport sequence
    number it takes; and a packet cannot be built exactly when no size was
    computed for it. *)
Theorem planned_sizes_are_exact s next :
  (forall m cap, match original_transport_bytes s m with
    | Some n => (n <= cap + RTP_TRANSPORT_ALLOWANCE)%nat -> exists bytes, original_packet s m (twcc_for s next) cap = Some bytes /\ (length bytes + RTP_TRANSPORT_ALLOWANCE)%nat = n
    | None => original_packet s m (twcc_for s next) cap = None end) /\
  (forall retained ts index, is_Some (retransmission_payload_type (facts s)) ->
    (fun bytes => length bytes + RTP_TRANSPORT_ALLOWANCE)%nat <$> repair_packet s retained ts index (twcc_for s next) = repair_transport_bytes s retained) /\
  (forall ts requested, (fun bytes => length bytes + RTP_TRANSPORT_ALLOWANCE)%nat <$> padding_packet s ts (twcc_for s next) requested = padding_transport_bytes s requested).
Proof.
  split_and!.
  - intros m cap. unfold original_transport_bytes, original_packet. rewrite (layout_original_sizes s m next).
    pose proof (encode_size s (write_marker m) (wire_u16 (write_sequence m)) (write_timestamp m) (twcc_for s next) (write_payload m) (sender_payload_type (facts s)) (sender_ssrc s) false (write_media_extensions s m) cap) as H.
    cbn zeta in H. destruct (layout_new _ _ _) as [lay|]; [|done]. cbn [mbind option_bind]. intros Hn. rewrite (proj2 (Nat.ltb_ge _ _)) in H by lia.
    destruct H as (head & -> & <-). by eexists.
  - intros retained ts index [pt Hpt]. unfold repair_packet, repair_transport_bytes. rewrite Hpt. cbn [mbind option_bind]. destruct (rtp_parse retained) as [p|]; [|done]. cbn [mbind option_bind].
    pose proof (build_size s (marker p) (wire_u16 (next_rtx_sequence s)) ts (twcc_for s next) (be_encode 2 (wire_u16 index) ++ payload p) pt (rtx_ssrc s) false (repair_extensions s p)) as H.
    cbn zeta in H. rewrite sizes_extensions, Z.eqb_refl, length_app, length_be_encode, (Nat.add_comm 2) in H. unfold repair_header_extensions.
    destruct (layout_new _ _ _) as [lay|]; [|by rewrite H]. destruct H as (head & -> & Hlen). cbn [mbind option_bind fmap option_fmap option_map]. by rewrite Hlen.
  - intros ts requested. unfold padding_packet, padding_transport_bytes.
    pose proof (build_size s false (wire_u16 (next_rtx_sequence s)) ts (twcc_for s next) [1] (default 0 (retransmission_payload_type (facts s))) (rtx_ssrc s) true []) as H.
    cbn zeta in H. rewrite sizes_extensions, Z.eqb_refl in H. cbn [sizes fmap list_fmap app] in H. change (length [1]) with 1%nat in H. rewrite layout_shift in H. unfold repair_header_extensions.
    destruct (layout_new 0 _ _) as [lay|]; [|by rewrite H]. destruct H as (head & -> & Hlen). cbn [mbind option_bind fmap option_fmap option_map]. rewrite removelast_last. f_equal.
    rewrite length_app in Hlen. cbn in Hlen. assert (length head = layout_bytes lay) as <- by lia. unfold padding_bytes. rewrite !length_app, length_replicate. cbn [length]. lia.
Qed.

(** ** A concrete packet *)

Module RtpExample.
Definition video : Sender :=
  mkSender (mkSenderFacts [48] 96 (Some 97) (Some 4) (Some 3) None (Some 5) [(7, "urn:3gpp:video-orientation"%string)]) (Some [104; 105]) (Some 8) (Some 9) 33 77 65537.
Definition descriptor : list (Z * list Z) := [(5, [1; 2; 3]); (7, [0])].
Definition original : list Z := default [] (encode_rtp video true 40000 90000 (Some 12) [10; 20; 30] 96 33 false descriptor 1200).
Lemma original_some : encode_rtp video true 40000 90000 (Some 12) [10; 20; 30] 96 33 false descriptor 1200 = Some original.
Proof. by vm_compute. Qed.
Lemma original_sendable : sendable video 33 (Some 12) descriptor.
Proof. split; [|apply Nat.leb_le; by vm_compute]. repeat constructor; by vm_compute. Qed.

Lemma rtp_packet_roundtrip_witness : exists p, rtp_parse original = Ok p /\ payload p = [10; 20; 30].
Proof.
  destruct (rtp_packet_roundtrip video true 40000 90000 (Some 12) [10; 20; 30] 96 33 descriptor 1200 original original_some ltac:(lia) ltac:(done) ltac:(done) ltac:(done) (proj1 original_sendable) (proj2 original_sendable)) as (p & H1 & H2 & _).
  exists p. exact (conj H1 H2).
Defined.

Definition repair : list Z := default [] (repair_packet video original 90000 40000 (Some 13)).
Lemma repair_some : repair_packet video original 90000 40000 (Some 13) = Some repair.
Proof. by vm_compute. Qed.
Lemma repair_carries_the_original_witness : exists p, rtp_parse repair = Ok p /\ payload p = be_encode 2 (wire_u16 40000) ++ [10; 20; 30].
Proof.
  destruct (repair_carries_the_original video true 40000 90000 (Some 12) [10; 20; 30] 96 33 descriptor 1200 original 40000 (Some 13) 97 repair original_some ltac:(lia) ltac:(done) ltac:(done) ltac:(done) original_sendable
    eq_refl ltac:(lia) ltac:(done)) as (p & H1 & H2 & _).
  - split; [|apply Nat.leb_le; by vm_compute]. vm_compute. repeat constructor; done.
  - exact repair_some.
  - exists p. exact (conj H1 H2).
Defined.

Definition padding : list Z := default [] (padding_packet video 90000 (Some 14) 300).
Lemma padding_packet_is_empty_witness : exists p, rtp_parse padding = Ok p /\ payload p = [].
Proof.
  destruct (padding_packet_is_empty video 90000 (Some 14) 300 padding ltac:(by vm_compute) ltac:(cbn; lia) ltac:(done) ltac:(done)) as (p & H1 & H2 & _).
  - split; [|apply Nat.leb_le; by vm_compute]. vm_compute. repeat constructor; done.
  - exists p. exact (conj H1 H2).
Defined.

Lemma original_parses : exists p, rtp_parse original = Ok p.
Proof. eexists. vm_compute. reflexivity. Qed.
Lemma accepted_packet_layout_witness : exists p, rtp_parse original = Ok p /\ (12 <= (payload_range p).1)%nat.
Proof.
  destruct original_parses as [p Hp]. exists p. split; [done|].
  destruct (accepted_packet_layout original p) as (_ & H & _); [|done|lia]. apply Forall_forall. intros x Hx. assert (bool_decide (Forall (fun x => 0 <= x < 256) original)) as Hall by (by vm_compute).
  apply bool_decide_unpack in Hall. rewrite Forall_forall in Hall. by apply Hall.
Defined.

Lemma planned_sizes_are_exact_witness : exists bytes, repair_packet video original 90000 40000 (twcc_for video 13) = Some bytes /\ (length bytes + 96)%nat = default 0%nat (repair_transport_bytes video original).
Proof.
  destruct (planned_sizes_are_exact video 13) as (_ & H & _). specialize (H original 90000 40000 ltac:(by eexists)).
  destruct (repair_packet video original 90000 40000 (twcc_for video 13)) as [bytes|] eqn:E; [|by vm_compute in E].
  exists bytes. split; [reflexivity|]. rewrite <- H. reflexivity.
Defined.
End RtpExample.
