(* ===== verification/RtcpWire.v ===== *)
(** * RTCP on the wire

    The RTCP half of [crates/pulsebeam-rtc/src/packet.rs] (packets and compounds)
    and [rtcp.rs]: what the connection reads of a compound and the canonical names
    it sends. Offsets and lengths are natural numbers, as in [RtpWire]. *)

From S2P Require Import Prelude RtpWire.

Definition MAX_RTCP_PACKET_BYTES : Z := 64 * 1024.
Definition MAX_RTCP_REPORT_BLOCKS : nat := 256.
Definition MAX_FEEDBACK_STATUSES : Z := 8192.
Definition MAX_REPORT_RECEIPTS : Z := 256.
Definition MAX_RFC8888_REPORTS : Z := 16384.
Definition REPORT_BLOCK_BYTES : nat := 24.

Definition Zlen {A} (l : list A) : Z := Z.of_nat (length l).

(** [as_chunks::<n>().0] *)
Definition as_chunks (n : nat) (l : list Z) : list (list Z) := (fun i => take n (drop (i * n) l)) <$> seq 0 (length l / n).

(** ** Packets and compounds *)

Record RtcpPacket := mkRtcpPacket { rtcp_bytes : list Z; packet_type : Z; rtcp_count : Z; rtcp_padding : Z }.

Definition rtcp_packet_parse (l : list Z) : parsed RtcpPacket :=
  _ ← require (4 <=? length l)%nat TooShort;
  version ← read_u8 l 0;
  _ ← require (Z.shiftr version 6 =? 2) InvalidVersion;
  first ← read_u8 l 0;
  let has_padding := negb (Z.land first 0x20 =? 0) in
  length_words ← read_u16 l 2;
  let size := (length_words + 1) * 4 in
  _ ← require ((size =? Zlen l) && (size <=? MAX_RTCP_PACKET_BYTES)) InvalidLength;
  padding ←
    (if has_padding then
       value ← ok_or (last l) InvalidPadding;
       _ ← require (negb (value =? 0) && (value <=? size - 4)) InvalidPadding;
       Ok value
     else Ok 0);
  kind ← read_u8 l 1;
  Ok (mkRtcpPacket l kind (Z.land first 0x1f) padding).

Definition body (p : RtcpPacket) : list Z := default [] (get_range (rtcp_bytes p) 4 (length (rtcp_bytes p) - Z.to_nat (rtcp_padding p))).

Record RtcpCompound := mkCompound { c_bytes : list Z; c_offset : nat; c_reports : nat }.

Definition compound_parse (l : list Z) : parsed RtcpCompound :=
  match l with
  | [] => Err TooShort
  | _ => if MAX_RTCP_PACKET_BYTES * Z.of_nat MAX_RTCP_REPORT_BLOCKS <? Zlen l then Err TooManyItems else Ok (mkCompound l 0 0)
  end.

(** [RtcpCompound::next] *)
Definition compound_next (c : RtcpCompound) : option (parsed RtcpPacket) * RtcpCompound :=
  let stop e := (Some (Err e), mkCompound (c_bytes c) (length (c_bytes c)) (c_reports c)) in
  if (c_offset c =? length (c_bytes c))%nat then (None, c)
  else if (c_reports c =? MAX_RTCP_REPORT_BLOCKS)%nat then stop TooManyItems
  else if (length (c_bytes c) <? c_offset c + 4)%nat then stop TooShort
  else
    match read_u16 (c_bytes c) (c_offset c + 2) with
    | Err e => stop e
    | Ok words =>
        let packet_end := (c_offset c + (Z.to_nat words + 1) * 4)%nat in
        if (length (c_bytes c) <? packet_end)%nat then stop InvalidLength
        else
          let result :=
            packet ← rtcp_packet_parse (default [] (get_range (c_bytes c) (c_offset c) packet_end));
            if negb (rtcp_padding packet =? 0) && negb (packet_end =? length (c_bytes c))%nat then Err InvalidPadding else Ok packet in
          (Some result, mkCompound (c_bytes c) packet_end (S (c_reports c)))
    end.

(** ** Readers *)

Definition u8_at (l : list Z) (offset : nat) : parsed Z := ok_or (l !! offset) InvalidLength.
Definition u16_at (l : list Z) (offset : nat) : parsed Z := ok_or (be_decode <$> slice offset 2 l) InvalidLength.
Definition u32_at (l : list Z) (offset : nat) : parsed Z := ok_or (be_decode <$> slice offset 4 l) InvalidLength.

(** [bytes.get(a..)] *)
Definition get_from (l : list Z) (a : nat) : option (list Z) := get_range l a (length l).
Definition ok {A} (m : parsed A) : option A := match m with Ok a => Some a | Err _ => None end.
(** [cond.then(..).transpose()] *)
Definition then_parse {A} (b : bool) (m : parsed A) : parsed (option A) := if b then a ← m; Ok (Some a) else Ok None.

(** ** Reports *)

Record ReportBlock := mkReportBlock {
  block_ssrc : Z;
  cumulative_lost : Z;
  block_highest_sequence : Z;
  last_sender_report : Z;
  delay_since_last_sender_report : Z;
}.

Definition report_block_parse (l : list Z) : parsed ReportBlock :=
  _ ← require (length l =? REPORT_BLOCK_BYTES)%nat InvalidLength;
  b5 ← u8_at l 5;
  b6 ← u8_at l 6;
  b7 ← u8_at l 7;
  let lost := Z.lor (Z.lor (Z.shiftl b5 16) (Z.shiftl b6 8)) b7 in
  let cumulative_lost := cast_signed 32 (if negb (Z.land lost 0x800000 =? 0) then Z.lor lost 0xff000000 else lost) in
  ssrc ← u32_at l 0;
  highest ← u32_at l 8;
  last_sr ← u32_at l 16;
  delay ← u32_at l 20;
  Ok (mkReportBlock ssrc cumulative_lost highest last_sr delay).

(** [for block in reports.as_chunks().0 { ReportBlock::parse(block)?; }] *)
Definition check_report_blocks (reports : list Z) : parsed () := _ ← mapM report_block_parse (as_chunks REPORT_BLOCK_BYTES reports); Ok ().
(** [reports()] *)
Definition report_blocks (reports : list Z) : list ReportBlock := omap (fun l => ok (report_block_parse l)) (as_chunks REPORT_BLOCK_BYTES reports).

Record SenderReport := mkSenderReport { sr_ssrc : Z; ntp_seconds : Z; ntp_fraction : Z; rtp_timestamp : Z; sr_reports : list Z }.

Definition sender_report_parse (p : RtcpPacket) : parsed SenderReport :=
  let b := body p in
  _ ← require (length b =? 24 + Z.to_nat (rtcp_count p) * REPORT_BLOCK_BYTES)%nat InvalidLength;
  reports ← ok_or (get_from b 24) InvalidLength;
  _ ← check_report_blocks reports;
  ssrc ← u32_at b 0;
  seconds ← u32_at b 4;
  fraction ← u32_at b 8;
  timestamp ← u32_at b 12;
  Ok (mkSenderReport ssrc seconds fraction timestamp reports).

(** [ReceiverReport::parse]: the report blocks. *)
Definition receiver_report_parse (p : RtcpPacket) : parsed (list Z) :=
  let b := body p in
  _ ← require (length b =? 4 + Z.to_nat (rtcp_count p) * REPORT_BLOCK_BYTES)%nat InvalidLength;
  reports ← ok_or (get_from b 4) InvalidLength;
  _ ← check_report_blocks reports;
  Ok reports.

(** ** Feedback *)

Record Feedback := mkFeedback { fb_sender_ssrc : Z; fb_media_ssrc : Z; fci : list Z }.

Definition feedback_parse (p : RtcpPacket) (min_body : nat) : parsed Feedback :=
  let b := body p in
  _ ← require ((min_body <=? length b) && (8 <=? length b))%nat InvalidLength;
  sender ← u32_at b 0;
  media ← u32_at b 4;
  rest ← ok_or (get_from b 8) InvalidLength;
  Ok (mkFeedback sender media rest).

Definition is_empty (l : list Z) : bool := match l with [] => true | _ => false end.

Definition nack_parse (p : RtcpPacket) : parsed Feedback :=
  f ← feedback_parse p 8;
  _ ← require (negb (is_empty (fci f)) && (length (fci f) `mod` 4 =? 0)%nat) InvalidLength;
  Ok f.
Definition nack_pairs (f : Feedback) : list (Z * Z) :=
  omap (fun l => first ← ok (u16_at l 0); lost ← ok (u16_at l 2); Some (first, lost)) (as_chunks 4 (fci f)).

Definition pli_parse (p : RtcpPacket) : parsed Feedback :=
  f ← feedback_parse p 8;
  _ ← require (is_empty (fci f)) InvalidLength;
  Ok f.

Definition fir_reserved (l : list Z) : bool :=
  negb (default 0 (l !! 5%nat) =? 0) || negb (default 0 (l !! 6%nat) =? 0) || negb (default 0 (l !! 7%nat) =? 0).
Definition fir_parse (p : RtcpPacket) : parsed Feedback :=
  f ← feedback_parse p 8;
  _ ← require ((fb_media_ssrc f =? 0) && negb (is_empty (fci f)) && (length (fci f) `mod` 8 =? 0)%nat) InvalidLength;
  _ ← require (negb (existsb fir_reserved (as_chunks 8 (fci f)))) InvalidValue;
  Ok f.
Definition fir_entries (f : Feedback) : list (Z * Z) :=
  omap (fun l => ssrc ← ok (u32_at l 0); sequence ← l !! 4%nat; Some (ssrc, sequence)) (as_chunks 8 (fci f)).

(** ** Transport-wide feedback *)

Inductive TwccPacketStatus := PacketNotReceived (sequence : Z) | PacketReceived (sequence delta : Z).

Definition twcc_capacity (chunk : Z) : Z :=
  if Z.land chunk 0x8000 =? 0 then Z.land chunk 0x1fff else if Z.land chunk 0x4000 =? 0 then 14 else 7.

Definition twcc_chunk_symbol (chunk slot : Z) : Z :=
  if Z.land chunk 0x8000 =? 0 then Z.land (Z.shiftr chunk 13) 3
  else if Z.land chunk 0x4000 =? 0 then Z.land (Z.shiftr chunk (13 - slot)) 1
  else Z.land (Z.shiftr chunk (12 - slot * 2)) 3.

(** The first [while]: past the chunks. Each turn counts at least one status. *)
Fixpoint twcc_chunks (fuel : nat) (l : list Z) (packet_count : Z) (offset : nat) (statuses : Z) : parsed nat :=
  match fuel with
  | O => Ok offset
  | S fuel =>
      if statuses <? packet_count then
        chunk ← u16_at l offset;
        let available := twcc_capacity chunk in
        _ ← require (negb (available =? 0)) InvalidValue;
        twcc_chunks fuel l packet_count (offset + 2) (statuses + Z.min available (packet_count - statuses))
      else Ok offset
  end.

(** The [for] over the [n] slots from [slot] on: where the deltas end. *)
Fixpoint twcc_slots (n : nat) (l : list Z) (chunk slot : Z) (delta_offset : nat) : parsed nat :=
  match n with
  | O => Ok delta_offset
  | S n =>
      delta_offset ← match twcc_chunk_symbol chunk slot with
        | 0 => Ok delta_offset
        | 1 => Ok (delta_offset + 1)%nat
        | 2 => Ok (delta_offset + 2)%nat
        | _ => Err InvalidValue
        end;
      _ ← require (delta_offset <=? length l)%nat InvalidLength;
      twcc_slots n l chunk (slot + 1) delta_offset
  end.

Fixpoint twcc_deltas (fuel : nat) (l : list Z) (packet_count : Z) (chunk_offset delta_offset : nat) (checked : Z) : parsed nat :=
  match fuel with
  | O => Ok delta_offset
  | S fuel =>
      if checked <? packet_count then
        chunk ← u16_at l chunk_offset;
        let capacity := twcc_capacity chunk in
        let count := Z.min capacity (packet_count - checked) in
        _ ← require (negb (capacity =? 0)) InvalidValue;
        delta_offset ← twcc_slots (Z.to_nat count) l chunk 0 delta_offset;
        twcc_deltas fuel l packet_count (chunk_offset + 2) delta_offset (checked + count)
      else Ok delta_offset
  end.

Definition validate_twcc_chunks (l : list Z) (packet_count : Z) : parsed (nat * Z) :=
  let fuel := S (Z.to_nat packet_count) in
  delta_start ← twcc_chunks fuel l packet_count 8 0;
  delta_offset ← twcc_deltas fuel l packet_count 8 delta_start 0;
  trailing ← ok_or (get_from l delta_offset) InvalidLength;
  _ ← require (is_empty trailing) InvalidValue;
  Ok (delta_start, packet_count).

Record Twcc := mkTwcc { twcc_feedback : Feedback; twcc_base : Z; packet_count : Z; reference_time : Z; feedback_count : Z; delta_start : nat }.

Definition twcc_parse (p : RtcpPacket) : parsed Twcc :=
  f ← feedback_parse p 16;
  base ← u16_at (fci f) 0;
  count ← u16_at (fci f) 2;
  b4 ← u8_at (fci f) 4;
  b5 ← u8_at (fci f) 5;
  b6 ← u8_at (fci f) 6;
  fbc ← u8_at (fci f) 7;
  '(start, _) ← validate_twcc_chunks (fci f) count;
  Ok (mkTwcc f base count (Z.lor (Z.lor (Z.shiftl b4 16) (Z.shiftl b5 8)) b6) fbc start).

Record TwccStatuses := mkStatuses {
  t_fci : list Z;
  t_base : Z;
  t_count : Z;
  chunk_offset : nat;
  status_index : Z;
  delta_offset : nat;
  current_chunk : Z;
  chunk_remaining : Z;
  current_slot : Z;
}.

Definition twcc_statuses (t : Twcc) : TwccStatuses := mkStatuses (fci (twcc_feedback t)) (twcc_base t) (packet_count t) 8 0 (delta_start t) 0 0 0.

(** The status of the current slot of the current chunk. *)
Definition next_slot (it : TwccStatuses) : option (parsed TwccPacketStatus) * TwccStatuses :=
  let symbol := twcc_chunk_symbol (current_chunk it) (current_slot it) in
  let moved (d : nat) :=
    mkStatuses (t_fci it) (t_base it) (t_count it) (chunk_offset it) (status_index it + 1) d (current_chunk it) (chunk_remaining it - 1) (current_slot it + 1) in
  let sequence := wrapping_add 16 (t_base it) (status_index it) in
  match symbol with
  | 0 => (Some (Ok (PacketNotReceived sequence)), moved (delta_offset it))
  | 1 =>
      match t_fci it !! delta_offset it with
      | Some byte => (Some (Ok (PacketReceived sequence byte)), moved (delta_offset it + 1)%nat)
      | None => (Some (Err InvalidLength), moved (delta_offset it))
      end
  | 2 =>
      match slice (delta_offset it) 2 (t_fci it) with
      | Some v => (Some (Ok (PacketReceived sequence (cast_signed 16 (be_decode v)))), moved (delta_offset it + 2)%nat)
      | None => (Some (Err InvalidLength), moved (delta_offset it))
      end
  | _ => (Some (Err InvalidValue), moved (delta_offset it))
  end.

(** [TwccStatuses::next] *)
Definition twcc_next (it : TwccStatuses) : option (parsed TwccPacketStatus) * TwccStatuses :=
  if t_count it <=? status_index it then (None, it)
  else if chunk_remaining it =? 0 then
    match u16_at (t_fci it) (chunk_offset it) with
    | Err e => (Some (Err e), it)
    | Ok chunk =>
        let capacity := twcc_capacity chunk in
        let it := mkStatuses (t_fci it) (t_base it) (t_count it) (chunk_offset it + 2) (status_index it) (delta_offset it) chunk
                    (Z.min capacity (t_count it - status_index it)) 0 in
        if capacity =? 0 then (Some (Err InvalidValue), it) else next_slot it
    end
  else next_slot it.

(** Collecting the iterator into a [Result]: up to the first error. *)
Fixpoint twcc_collect (fuel : nat) (it : TwccStatuses) : parsed (list TwccPacketStatus) :=
  match fuel with
  | O => Ok []
  | S fuel =>
      match twcc_next it with
      | (None, _) => Ok []
      | (Some (Err e), _) => Err e
      | (Some (Ok s), it) => rest ← twcc_collect fuel it; Ok (s :: rest)
      end
  end.

(** ** RFC 8888 *)

Inductive ArrivalOffset := Ticks (v : Z) | OverRange | Unavailable.
Inductive Rfc8888Status := NotReceived | Received (ecn : Z) (arrival_offset : ArrivalOffset).
Record Rfc8888Report := mkRfc8888Report { rep_ssrc : Z; begin_sequence : Z; report_count : Z; rep_statuses : list Rfc8888Status }.
Record ParsedRfc8888 := mkParsedRfc8888 { p_sender_ssrc : Z; p_reports : list Rfc8888Report; p_timestamp : Z }.

Definition status_count (p : ParsedRfc8888) : Z := foldr (fun r n => Zlen (rep_statuses r) + n) 0 (p_reports p).

Definition metric_status (metric : Z) : parsed Rfc8888Status :=
  if Z.land metric 0x8000 =? 0 then
    if negb (metric =? 0) then Err InvalidValue else Ok NotReceived
  else
    let offset := Z.land metric 0x1fff in
    Ok (Received (Z.land (Z.shiftr metric 13) 3) (if offset =? 0x1ffe then OverRange else if offset =? 0x1fff then Unavailable else Ticks offset)).

(** One turn of the [while]: a report and the offset after it. *)
Definition rfc8888_report (b : list Z) (end_ offset : nat) : parsed (Rfc8888Report * nat) :=
  ssrc ← u32_at b offset;
  begin ← u16_at b (offset + 4);
  count ← u16_at b (offset + 6);
  _ ← require (count <=? MAX_RFC8888_REPORTS) TooManyItems;
  let offset := (offset + 8)%nat in
  let metrics_end := (offset + Z.to_nat count * 2)%nat in
  _ ← require (metrics_end <=? end_)%nat InvalidLength;
  metrics ← ok_or (get_range b offset metrics_end) InvalidLength;
  statuses ← mapM (fun m => metric_status (be_decode m)) (as_chunks 2 metrics);
  offset ←
    (if negb (count `mod` 2 =? 0) then
       pad ← u16_at b metrics_end;
       _ ← require (pad =? 0) InvalidValue;
       Ok (metrics_end + 2)%nat
     else Ok metrics_end);
  Ok (mkRfc8888Report ssrc begin count statuses, offset).

Fixpoint rfc8888_reports (fuel : nat) (b : list Z) (end_ offset : nat) : parsed (list Rfc8888Report * nat) :=
  match fuel with
  | O => Ok ([], offset)
  | S fuel =>
      if (offset <? end_)%nat then
        '(report, offset) ← rfc8888_report b end_ offset;
        '(reports, offset) ← rfc8888_reports fuel b end_ offset;
        Ok (report :: reports, offset)
      else Ok ([], offset)
  end.

(** Each report takes at least eight bytes. *)
Definition rfc8888 (p : RtcpPacket) : parsed (option ParsedRfc8888) :=
  if negb (packet_type p =? 205) || negb (rtcp_count p =? 11) then Ok None
  else
    let b := body p in
    _ ← require (12 <=? length b)%nat InvalidLength;
    sender ← u32_at b 0;
    let end_ := (length b - 4)%nat in
    '(reports, offset) ← rfc8888_reports (S (length b)) b end_ 4;
    _ ← require (offset =? end_)%nat InvalidLength;
    timestamp ← u32_at b end_;
    Ok (Some (mkParsedRfc8888 sender reports timestamp)).

(** ** Source descriptions *)

(** The [loop] of [parse_sdes_chunk]. Each turn moves on by two bytes at least. *)
Fixpoint sdes_chunk_items (fuel : nat) (l : list Z) (offset : nat) : parsed (list Z * nat) :=
  match fuel with
  | O => Err InvalidLength
  | S fuel =>
      kind ← u8_at l offset;
      let offset := (offset + 1)%nat in
      if kind =? 0 then
        chunk ← ok_or (get_range l 0 (offset - 1)) InvalidLength;
        let padded := ((offset + 3) / 4 * 4)%nat in
        _ ← require (padded <=? length l)%nat InvalidLength;
        _ ← require (match get_range l offset padded with None => false | Some padding => forallb (fun b => b =? 0) padding end) InvalidValue;
        Ok (chunk, padded)
      else
        size ← u8_at l offset;
        let offset := (offset + 1 + Z.to_nat size)%nat in
        _ ← require (offset <=? length l)%nat InvalidLength;
        sdes_chunk_items fuel l offset
  end.

Definition parse_sdes_chunk (l : list Z) : parsed (list Z * nat) :=
  _ ← require (4 <=? length l)%nat InvalidLength;
  sdes_chunk_items (length l) l 4.

Fixpoint check_sdes_chunks (n : nat) (l : list Z) : parsed (list Z) :=
  match n with
  | O => Ok l
  | S n =>
      '(_, consumed) ← parse_sdes_chunk l;
      rest ← ok_or (get_from l consumed) InvalidLength;
      check_sdes_chunks n rest
  end.

Record Sdes := mkSdes { sdes_body : list Z; sdes_count : Z }.
Definition sdes_parse (p : RtcpPacket) : parsed Sdes :=
  rest ← check_sdes_chunks (Z.to_nat (rtcp_count p)) (body p);
  _ ← require (is_empty rest) InvalidLength;
  Ok (mkSdes (body p) (rtcp_count p)).

Record SdesItem := mkSdesItem { item_kind : Z; item_value : list Z }.
Record SdesChunk := mkSdesChunk { chunk_ssrc : Z; chunk_items : list Z }.
Record SdesChunks := mkSdesChunks { ch_bytes : list Z; ch_remaining : Z }.

(** [SdesChunks::next]; [None] ends the iteration. *)
Definition chunks_next (it : SdesChunks) : option (SdesChunk * SdesChunks) :=
  if ch_remaining it =? 0 then None
  else
    '(chunk, consumed) ← ok (parse_sdes_chunk (ch_bytes it));
    rest ← get_from (ch_bytes it) consumed;
    ssrc ← ok (u32_at chunk 0);
    items ← get_from chunk 4;
    Some (mkSdesChunk ssrc items, mkSdesChunks rest (ch_remaining it - 1)).

Fixpoint chunk_list (fuel : nat) (it : SdesChunks) : list SdesChunk :=
  match fuel with
  | O => []
  | S fuel => match chunks_next it with None => [] | Some (c, it) => c :: chunk_list fuel it end
  end.
Definition sdes_chunks (s : Sdes) : list SdesChunk := chunk_list (S (Z.to_nat (sdes_count s))) (mkSdesChunks (sdes_body s) (sdes_count s)).

(** [SdesItems::next] *)
Definition items_next (l : list Z) : option (SdesItem * list Z) :=
  kind ← head l;
  if kind =? 0 then None
  else
    size ← l !! 1%nat;
    let end_ := (2 + Z.to_nat size)%nat in
    value ← get_range l 2 end_;
    rest ← get_from l end_;
    Some (mkSdesItem kind value, rest).

Fixpoint item_list (fuel : nat) (l : list Z) : list SdesItem :=
  match fuel with
  | O => []
  | S fuel => match items_next l with None => [] | Some (i, l) => i :: item_list fuel l end
  end.
Definition sdes_items (c : SdesChunk) : list SdesItem := item_list (S (length (chunk_items c))) (chunk_items c).

(** ** Goodbyes *)

Record Bye := mkBye { bye_ssrc_bytes : list Z; bye_reason : option (list Z) }.

Definition bye_parse (p : RtcpPacket) : parsed Bye :=
  let count := Z.to_nat (rtcp_count p) in
  _ ← require (negb (count =? 0)%nat) InvalidLength;
  let b := body p in
  _ ← require (count * 4 <=? length b)%nat InvalidLength;
  ssrcs ← ok_or (get_range b 0 (count * 4)) InvalidLength;
  rest ← ok_or (get_from b (count * 4)) InvalidLength;
  reason ←
    (if is_empty rest then Ok None
     else
       size ← u8_at rest 0;
       let end_ := (1 + Z.to_nat size)%nat in
       _ ← require (end_ <=? length rest)%nat InvalidLength;
       let padding := (length rest - end_)%nat in
       _ ← require ((padding <=? 3)%nat && match get_from rest end_ with None => false | Some l => forallb (fun b => b =? 0) l end) InvalidLength;
       value ← ok_or (get_range rest 1 end_) InvalidLength;
       Ok (Some value));
  Ok (mkBye ssrcs reason).
Definition bye_ssrcs (b : Bye) : list Z := omap (fun l => ok (u32_at l 0)) (as_chunks 4 (bye_ssrc_bytes b)).

(** ** UTF-8 *)

(** [str::from_utf8(l).is_ok()]: the well-formed byte sequences of the Unicode
    standard (Table 3-7). *)
Definition cont (b : Z) : bool := between 0x80 0xbf b.
Definition second_of_three (a b : Z) : bool :=
  if a =? 0xe0 then between 0xa0 0xbf b else if a =? 0xed then between 0x80 0x9f b else between 0xe1 0xef a && cont b.
Definition second_of_four (a b : Z) : bool :=
  if a =? 0xf0 then between 0x90 0xbf b else if a =? 0xf4 then between 0x80 0x8f b else between 0xf1 0xf3 a && cont b.
Fixpoint utf8_valid (l : list Z) : bool :=
  match l with
  | [] => true
  | a :: l1 =>
      if between 0 0x7f a then utf8_valid l1
      else
        match l1 with
        | [] => false
        | b :: l2 =>
            if between 0xc2 0xdf a then cont b && utf8_valid l2
            else
              match l2 with
              | [] => false
              | c :: l3 =>
                  if second_of_three a b then cont c && utf8_valid l3
                  else
                    match l3 with
                    | [] => false
                    | d :: l4 => second_of_four a b && cont c && cont d && utf8_valid l4
                    end
              end
        end
  end.

(** ** Compounds read in full *)

Inductive PacketFeedbackKind := TransportWide | Rfc8888.
#[export] Instance PacketFeedbackKind_eq_dec : EqDecision PacketFeedbackKind.
Proof. solve_decision. Defined.

Inductive LifecycleFact :=
  | FactSenderReport (ssrc seconds fraction timestamp : Z)
  | FactCname (ssrc : Z) (cname : list Z)
  | FactBye (ssrc : Z).
Inductive TwccStatus := TwccNotReceived | TwccReceived (delta_250us : Z).
Inductive FeedbackReport :=
  | ReportTwcc (media_ssrc base_sequence reference_time feedback_count : Z) (statuses : list TwccStatus)
  | ReportRfc8888 (reports : list Rfc8888Report) (report_timestamp : Z).
Record FeedbackBatch := mkBatch { received_at : Z; path_epoch : Z; batch_sender_ssrc : Z; report : FeedbackReport }.
Record ReportReceipt := mkReceipt { receipt_ssrc : Z; receipt_highest : Z }.
Record RepairRequest := mkRepairRequest { repair_ssrc : Z; repair_sequence : Z }.
Record KeyframeRequest := mkKeyframeRequest { keyframe_ssrc : Z; fir : option (Z * Z) }.

Record ParsedRtcp := mkParsedRtcp {
  lifecycle : list LifecycleFact;
  feedback : list FeedbackBatch;
  repair : list RepairRequest;
  keyframes : list KeyframeRequest;
  receipts : list ReportReceipt;
}.
Definition nothing : ParsedRtcp := mkParsedRtcp [] [] [] [] [].

Definition add_lifecycle (l : list LifecycleFact) (s : ParsedRtcp) := mkParsedRtcp (lifecycle s ++ l) (feedback s) (repair s) (keyframes s) (receipts s).
Definition add_feedback (b : FeedbackBatch) (s : ParsedRtcp) := mkParsedRtcp (lifecycle s) (feedback s ++ [b]) (repair s) (keyframes s) (receipts s).
Definition with_repair (l : list RepairRequest) (s : ParsedRtcp) := mkParsedRtcp (lifecycle s) (feedback s) l (keyframes s) (receipts s).
Definition with_keyframes (l : list KeyframeRequest) (s : ParsedRtcp) := mkParsedRtcp (lifecycle s) (feedback s) (repair s) l (receipts s).
Definition add_receipts (l : list ReportBlock) (s : ParsedRtcp) :=
  mkParsedRtcp (lifecycle s) (feedback s) (repair s) (keyframes s) (receipts s ++ ((fun b => mkReceipt (block_ssrc b) (block_highest_sequence b)) <$> l)).

(** The names of the items of a chunk. *)
Definition item_cname (ssrc : Z) (i : SdesItem) : parsed (list LifecycleFact) :=
  if item_kind i =? 1 then
    if utf8_valid (item_value i) && negb (is_empty (item_value i)) then Ok [FactCname ssrc (item_value i)] else Err InvalidValue
  else Ok [].
Definition chunk_cnames (c : SdesChunk) : parsed (list LifecycleFact) := facts ← mapM (item_cname (chunk_ssrc c)) (sdes_items c); Ok (concat facts).

(** What a negative acknowledgement asks for. *)
Definition nack_requests (ssrc : Z) (entry : Z * Z) : list RepairRequest :=
  mkRepairRequest ssrc entry.1 ::
  ((fun bit => mkRepairRequest ssrc (wrapping_add 16 entry.1 (bit + 1))) <$>
     filter (fun bit => Z.land entry.2 (Z.shiftl 1 bit) <> 0) (seqZ 0 16)).
Fixpoint push_repairs (ssrc : Z) (pairs : list (Z * Z)) (acc : list RepairRequest) : parsed (list RepairRequest) :=
  match pairs with
  | [] => Ok acc
  | entry :: pairs =>
      let acc := acc ++ nack_requests ssrc entry in
      if MAX_FEEDBACK_STATUSES <? Zlen acc then Err TooManyItems else push_repairs ssrc pairs acc
  end.
Fixpoint push_fir (sender : Z) (entries : list (Z * Z)) (acc : list KeyframeRequest) : parsed (list KeyframeRequest) :=
  match entries with
  | [] => Ok acc
  | (ssrc, sequence) :: entries =>
      let acc := acc ++ [mkKeyframeRequest ssrc (Some (sender, sequence))] in
      if 256 <? Zlen acc then Err TooManyItems else push_fir sender entries acc
  end.

Definition twcc_status (s : TwccPacketStatus) : TwccStatus := match s with PacketNotReceived _ => TwccNotReceived | PacketReceived _ d => TwccReceived d end.

Section Parse.
Context (at_ epoch : Z) (mode : option PacketFeedbackKind).

(** The facts of reports, source descriptions and goodbyes. *)
Definition read_lifecycle (p : RtcpPacket) (s : ParsedRtcp) : parsed ParsedRtcp :=
  sr ← then_parse (packet_type p =? 200) (sender_report_parse p);
  let s := match sr with
    | Some r => add_receipts (report_blocks (sr_reports r)) (add_lifecycle [FactSenderReport (sr_ssrc r) (ntp_seconds r) (ntp_fraction r) (rtp_timestamp r)] s)
    | None => s end in
  sdes ← then_parse (packet_type p =? 202) (sdes_parse p);
  facts ← match sdes with Some d => mapM chunk_cnames (sdes_chunks d) | None => Ok [] end;
  let s := add_lifecycle (concat facts) s in
  bye ← then_parse (packet_type p =? 203) (bye_parse p);
  Ok (match bye with Some b => add_lifecycle (FactBye <$> bye_ssrcs b) s | None => s end).

(** The [match] on the packet's type and count, with the statuses counted so far. *)
Definition read_feedback (p : RtcpPacket) (s : ParsedRtcp) (statuses : Z) : parsed (ParsedRtcp * Z) :=
  if packet_type p =? 201 then
    reports ← receiver_report_parse p;
    Ok (add_receipts (report_blocks reports) s, statuses)
  else if (packet_type p =? 205) && (rtcp_count p =? 15) then
    t ← twcc_parse p;
    if bool_decide (mode = Some TransportWide) then
      l ← twcc_collect (S (Z.to_nat (packet_count t))) (twcc_statuses t);
      let statuses := statuses + Zlen l in
      if MAX_FEEDBACK_STATUSES <? statuses then Err TooManyItems
      else Ok (add_feedback (mkBatch at_ epoch (fb_sender_ssrc (twcc_feedback t))
                 (ReportTwcc (fb_media_ssrc (twcc_feedback t)) (twcc_base t) (reference_time t) (feedback_count t) (twcc_status <$> l))) s, statuses)
    else Ok (s, statuses)
  else if (packet_type p =? 205) && (rtcp_count p =? 11) then
    r ← rfc8888 p;
    r ← ok_or r InvalidValue;
    if bool_decide (mode = Some Rfc8888) then
      let statuses := statuses + status_count r in
      if MAX_FEEDBACK_STATUSES <? statuses then Err TooManyItems
      else Ok (add_feedback (mkBatch at_ epoch (p_sender_ssrc r) (ReportRfc8888 (p_reports r) (p_timestamp r))) s, statuses)
    else Ok (s, statuses)
  else if (packet_type p =? 205) && (rtcp_count p =? 1) then
    f ← nack_parse p;
    l ← push_repairs (fb_media_ssrc f) (nack_pairs f) (repair s);
    Ok (with_repair l s, statuses)
  else if (packet_type p =? 206) && (rtcp_count p =? 1) then
    f ← pli_parse p;
    Ok (with_keyframes (keyframes s ++ [mkKeyframeRequest (fb_media_ssrc f) None]) s, statuses)
  else if (packet_type p =? 206) && (rtcp_count p =? 4) then
    f ← fir_parse p;
    l ← push_fir (fb_sender_ssrc f) (fir_entries f) (keyframes s);
    Ok (with_keyframes l s, statuses)
  else Ok (s, statuses).

(** The body of the [for]. *)
Definition read_packet (p : RtcpPacket) (s : ParsedRtcp) (statuses : Z) : parsed (ParsedRtcp * Z) :=
  s ← read_lifecycle p s;
  '(s, statuses) ← read_feedback p s statuses;
  if (MAX_REPORT_RECEIPTS <? Zlen (receipts s)) || (256 <? Zlen (keyframes s)) then Err TooManyItems else Ok (s, statuses).

(** The compound ends, or gives an error, after 256 packets. *)
Fixpoint read_compound (fuel : nat) (c : RtcpCompound) (s : ParsedRtcp) (statuses : Z) : parsed ParsedRtcp :=
  match fuel with
  | O => Ok s
  | S fuel =>
      match compound_next c with
      | (None, _) => Ok s
      | (Some p, c) =>
          p ← p;
          '(s, statuses) ← read_packet p s statuses;
          read_compound fuel c s statuses
      end
  end.

Definition rtcp_parse (l : list Z) : parsed ParsedRtcp :=
  c ← compound_parse l;
  read_compound (S (S MAX_RTCP_REPORT_BLOCKS)) c nothing 0.
End Parse.

(** ** Names sent with reports *)

Definition append_cname (packet : list Z) (ssrc : Z) (cname : list Z) : option (list Z) :=
  if (Zlen cname <=? 255) && negb (is_empty cname) then
    let words := ((length cname + 14) / 4)%nat in
    let size := (words * 4)%nat in
    let item := [0x81; 202] ++ be_encode 2 (Z.of_nat (words - 1)) ++ be_encode 4 ssrc ++ [1; Zlen cname] ++ cname in
    Some (packet ++ take size (item ++ replicate (size - length item) 0))
  else None.

Definition compound (packet : list Z) (sender_ssrc : Z) (cname : list Z) : option (list Z) :=
  source ← get_range packet 4 8;
  if negb (bool_decide (source = be_encode 4 sender_ssrc)) then None
  else
    match packet !! 1%nat with
    | Some 200 | Some 201 => append_cname packet sender_ssrc cname
    | _ =>
        report ← append_cname ([0x80; 201; 0; 1] ++ be_encode 4 sender_ssrc) sender_ssrc cname;
        Some (report ++ packet)
    end.
