(* ===== verification/RtcpCodec.v ===== *)
(** * RTCP compounds survive the wire

    Packets written one after another are read one after another; what the
    parser accepts of transport-wide feedback and of source descriptions is
    decoded to the last byte; what it returns is bounded. *)

From S2P Require Import Prelude RtpWire RtcpWire.

(** ** Packets *)

(** A packet without padding. *)
Record Wire := mkWire { w_count : Z; w_type : Z; w_body : list Z }.
Definition wire_ok (w : Wire) : Prop :=
  0 <= w_count w < 32 /\ (length (w_body w) `mod` 4 = 0)%nat /\ Zlen (w_body w) + 4 <= MAX_RTCP_PACKET_BYTES.
Definition wire (w : Wire) : list Z := [0x80 + w_count w; w_type w] ++ be_encode 2 (Zlen (w_body w) / 4) ++ w_body w.
Definition packet_of (w : Wire) : RtcpPacket := mkRtcpPacket (wire w) (w_type w) (w_count w) 0.

Lemma length_wire w : length (wire w) = (4 + length (w_body w))%nat.
Proof. unfold wire. rewrite !length_app, length_be_encode. cbn [length]. lia. Qed.

Lemma wire_words w : wire_ok w -> fits 16 (Zlen (w_body w) / 4) /\ (Zlen (w_body w) / 4 + 1) * 4 = Zlen (wire w).
Proof.
  intros (_ & Hm & Hmax). unfold Zlen in *. rewrite length_wire. apply Nat.Div0.mod_divides in Hm as [k Hk]. rewrite Hk in *.
  replace (Z.of_nat (4 * k)) with (Z.of_nat k * 4) by lia. rewrite Z.div_mul by lia. unfold fits, MAX_RTCP_PACKET_BYTES in *. lia.
Qed.

Lemma count_byte n : 0 <= n < 32 -> Z.shiftr (0x80 + n) 6 = 2 /\ Z.land (0x80 + n) 0x20 = 0 /\ Z.land (0x80 + n) 0x1f = n.
Proof.
  intros Hn. split_and!.
  - rewrite Z.shiftr_div_pow2 by lia. symmetry. apply (Z.div_unique_pos _ _ 2 n); change (2 ^ 6) with 64; lia.
  - assert (n ∈ seqZ 0 32) as Hin by (apply elem_of_seqZ; lia). revert Hin. apply (proj1 (Forall_forall _ (seqZ 0 32)) (ltac:(vm_compute; repeat constructor) : Forall (fun n => Z.land (0x80 + n) 0x20 = 0) (seqZ 0 32))).
  - change 0x1f with (2 ^ 5 - 1). rewrite land_ones_mod by lia. change (0x80 + n) with (4 * 2 ^ 5 + n). rewrite split_low by (change (2 ^ 5) with 32; lia). done.
Qed.

Lemma wire_parse w : wire_ok w -> rtcp_packet_parse (wire w) = Ok (packet_of w).
Proof.
  intros Hw. destruct (wire_words w Hw) as [Hf Hs]. destruct Hw as (Hc & Hm & Hmax). destruct (count_byte _ Hc) as (H1 & H2 & H3).
  unfold rtcp_packet_parse. rewrite require_ok by (apply Nat.leb_le; rewrite length_wire; lia). cbn [mbind result_bind].
  change (read_u8 (wire w) 0) with (@Ok PacketError Z (0x80 + w_count w)). change (read_u8 (wire w) 1) with (@Ok PacketError Z (w_type w)). cbn [mbind result_bind]. rewrite H1. cbn [require Z.eqb Pos.eqb mbind result_bind].
  assert (read_u16 (wire w) 2 = Ok (Zlen (w_body w) / 4)) as ->.
  { unfold wire, read_u16. rewrite (slice_at [0x80 + w_count w; w_type w] (be_encode 2 _) (w_body w) 2 2) by (done || apply length_be_encode). cbn [fmap option_fmap option_map ok_or]. by rewrite (be_decode_encode 2). }
  cbn [mbind result_bind]. rewrite Hs, H2, H3. cbn [Z.eqb negb]. rewrite Z.eqb_refl. cbn [andb].
  rewrite require_ok; [done|]. apply Z.leb_le. unfold Zlen in *. rewrite length_wire. lia.
Qed.

Lemma wire_body w : body (packet_of w) = w_body w.
Proof.
  unfold body, packet_of. cbn [rtcp_bytes rtcp_padding]. rewrite Z2Nat.inj_0, Nat.sub_0_r, length_wire. unfold wire.
  pose proof (get_range_at ([0x80 + w_count w; w_type w] ++ be_encode 2 (Zlen (w_body w) / 4)) (w_body w) [] 4 (4 + length (w_body w))) as H.
  rewrite app_nil_r, length_app, length_be_encode, <- app_assoc in H. by rewrite H.
Qed.

Lemma compound_next_wire w pre post n :
  wire_ok w -> (n < MAX_RTCP_REPORT_BLOCKS)%nat ->
  compound_next (mkCompound (pre ++ wire w ++ post) (length pre) n) = (Some (Ok (packet_of w)), mkCompound (pre ++ wire w ++ post) (length pre + length (wire w)) (S n)).
Proof.
  intros Hw Hn. destruct (wire_words w Hw) as [Hf Hs]. unfold compound_next. cbn [c_offset c_bytes c_reports]. pose proof (length_wire w) as Hl.
  assert (length (pre ++ wire w ++ post) = length pre + length (wire w) + length post)%nat as Hlen by (rewrite !length_app; lia).
  rewrite (proj2 (Nat.eqb_neq _ _)) by lia. rewrite (proj2 (Nat.eqb_neq n _)) by lia. rewrite (proj2 (Nat.ltb_ge _ _)) by lia.
  assert (read_u16 (pre ++ wire w ++ post) (length pre + 2) = Ok (Zlen (w_body w) / 4)) as ->.
  { unfold read_u16, wire. rewrite <- !app_assoc. rewrite (app_assoc pre). rewrite (slice_at (pre ++ _) (be_encode 2 _) (w_body w ++ post)); [|by rewrite length_app|apply length_be_encode].
    cbn [fmap option_fmap option_map ok_or]. by rewrite (be_decode_encode 2). }
  assert ((length pre + (Z.to_nat (Zlen (w_body w) / 4) + 1) * 4 = length pre + length (wire w))%nat) as -> by (unfold Zlen, fits in *; lia).
  rewrite (proj2 (Nat.ltb_ge _ _)) by lia. rewrite get_range_at by done. cbn [default from_option id]. rewrite (wire_parse w Hw). cbn [mbind result_bind packet_of rtcp_padding]. done.
Qed.

(** ** Compounds *)

Section Compounds.
Context (at_ epoch : Z) (mode : option PacketFeedbackKind).

(** Packets read one after another. *)
Fixpoint read_packets (ps : list RtcpPacket) (s : ParsedRtcp) (statuses : Z) : parsed ParsedRtcp :=
  match ps with
  | [] => Ok s
  | p :: ps => '(s, statuses) ← read_packet at_ epoch mode p s statuses; read_packets ps s statuses
  end.

Lemma read_compound_wires ws : Forall wire_ok ws -> forall pre n fuel s statuses,
  (n + length ws <= MAX_RTCP_REPORT_BLOCKS)%nat -> (length ws < fuel)%nat ->
  read_compound at_ epoch mode fuel (mkCompound (pre ++ concat (wire <$> ws)) (length pre) n) s statuses = read_packets (packet_of <$> ws) s statuses.
Proof.
  intros Hws. induction Hws as [|w ws Hw Hws IH]; intros pre n fuel s statuses Hn Hf; destruct fuel as [|fuel]; try lia; cbn [read_compound fmap list_fmap concat read_packets].
  - unfold compound_next. cbn [c_offset c_bytes concat]. by rewrite app_nil_r, Nat.eqb_refl.
  - cbn [length] in Hn, Hf. rewrite compound_next_wire by (done || lia). cbn [mbind result_bind].
    destruct (read_packet at_ epoch mode (packet_of w) s statuses) as [[s' n']|e]; [|done]. rewrite <- length_app. rewrite app_assoc. apply IH; lia.
Qed.

Definition compound_ok (ws : list Wire) : Prop :=
  ws <> [] /\ Forall wire_ok ws /\ (length ws <= MAX_RTCP_REPORT_BLOCKS)%nat.

Lemma compound_bytes ws : Forall wire_ok ws -> (length ws <= MAX_RTCP_REPORT_BLOCKS)%nat -> Zlen (concat (wire <$> ws)) <= MAX_RTCP_PACKET_BYTES * Z.of_nat MAX_RTCP_REPORT_BLOCKS.
Proof.
  intros Hws Hn. transitivity (MAX_RTCP_PACKET_BYTES * Z.of_nat (length ws)); [|unfold MAX_RTCP_PACKET_BYTES in *; lia]. clear Hn.
  induction Hws as [|w ws (_ & _ & Hw) _ IH]; [done|]. cbn [fmap list_fmap concat length]. unfold Zlen in *. rewrite length_app, length_wire. unfold MAX_RTCP_PACKET_BYTES in *. lia.
Qed.

Lemma rtcp_parse_wires ws : compound_ok ws -> rtcp_parse at_ epoch mode (concat (wire <$> ws)) = read_packets (packet_of <$> ws) nothing 0.
Proof.
  intros (Hne & Hws & Hn). unfold rtcp_parse, compound_parse. pose proof (compound_bytes ws Hws Hn) as Hb.
  destruct (concat (wire <$> ws)) as [|b l] eqn:E.
  { destruct ws as [|w ws]; [done|]. cbn in E. done. }
  rewrite <- E in *. rewrite (proj2 (Z.ltb_ge _ _)) by exact Hb. cbn [mbind result_bind]. apply (read_compound_wires ws Hws []); lia.
Qed.
End Compounds.

(** ** Source descriptions *)

Definition item_ok (i : SdesItem) : Prop := item_kind i <> 0 /\ bytes_ok (item_value i) /\ Zlen (item_value i) <= 255.
Definition item_wire (i : SdesItem) : list Z := item_kind i :: Zlen (item_value i) :: item_value i.
Definition items_wire (l : list SdesItem) : list Z := concat (item_wire <$> l).
(** Zeros after the items: at least one, up to a multiple of four. *)
Definition pad_after (n : nat) : nat := (4 - n `mod` 4)%nat.
Definition chunk_wire (ssrc : Z) (items : list SdesItem) : list Z :=
  be_encode 4 ssrc ++ items_wire items ++ replicate (pad_after (length (items_wire items))) 0.

Lemma pad_after_spec n : (1 <= pad_after n <= 4)%nat /\ ((n + pad_after n) = (n + 4) / 4 * 4)%nat.
Proof.
  unfold pad_after. pose proof (Nat.mod_upper_bound n 4 ltac:(lia)). pose proof (Nat.div_mod_eq n 4). split; [lia|].
  replace (n + 4)%nat with (n + 1 * 4)%nat by lia. rewrite Nat.div_add by lia. lia.
Qed.
Lemma pad_after_add4 n : pad_after (4 + n) = pad_after n.
Proof. unfold pad_after. replace (4 + n)%nat with (n + 1 * 4)%nat by lia. by rewrite Nat.Div0.mod_add. Qed.

Lemma length_item_wire i : length (item_wire i) = (2 + length (item_value i))%nat.
Proof. done. Qed.

Lemma u8_at_middle (pre post : list Z) x off : length pre = off -> u8_at (pre ++ x :: post) off = Ok x.
Proof. intros <-. unfold u8_at. by rewrite lookup_suffix0. Qed.

Lemma sdes_end_fwd fuel pre rest : (0 < fuel)%nat ->
  sdes_chunk_items fuel (pre ++ replicate (pad_after (length pre)) 0 ++ rest) (length pre) = Ok (pre, (length pre + pad_after (length pre))%nat).
Proof.
  intros Hf. destruct fuel as [|fuel]; [lia|]. destruct (pad_after_spec (length pre)) as [Hk Hs]. set (k := pad_after (length pre)) in *. cbn [sdes_chunk_items].
  destruct k as [|k]; [lia|]. cbn [replicate app]. rewrite (u8_at_middle pre _ _ (length pre)) by done. cbn [mbind result_bind Z.eqb].
  replace (length pre + 1 - 1)%nat with (length pre) by lia. pose proof (get_range_at [] pre (0 :: replicate k 0 ++ rest) 0 (length pre) eq_refl eq_refl) as E. cbn [app] in E. rewrite E. cbn [ok_or mbind result_bind].
  replace (length pre + 1 + 3)%nat with (length pre + 4)%nat by lia. rewrite <- Hs. rewrite !length_app. cbn [length]. rewrite length_app, length_replicate.
  rewrite (require_ok (_ <=? _)%nat) by (apply Nat.leb_le; lia). cbn [mbind result_bind].
  replace (pre ++ 0 :: replicate k 0 ++ rest) with ((pre ++ [0]) ++ replicate k 0 ++ rest) by (by rewrite <- app_assoc).
  rewrite (get_range_at (pre ++ [0]) (replicate k 0) rest); [|by rewrite length_app|rewrite length_replicate; lia].
  rewrite require_ok; [done|]. apply forallb_forall. intros x Hx. apply list_elem_of_In, elem_of_replicate in Hx as [-> _]. done.
Qed.

Lemma sdes_items_fwd items : Forall item_ok items -> forall pre rest fuel, (length items < fuel)%nat ->
  sdes_chunk_items fuel (pre ++ items_wire items ++ replicate (pad_after (length pre + length (items_wire items))) 0 ++ rest) (length pre)
  = Ok (pre ++ items_wire items, (length pre + length (items_wire items) + pad_after (length pre + length (items_wire items)))%nat).
Proof.
  intros Hok. induction Hok as [|i items (Hk & Hb & Hl) Hok IH]; intros pre rest fuel Hf.
  { cbn [items_wire fmap list_fmap concat app length]. rewrite Nat.add_0_r, app_nil_r. apply sdes_end_fwd. lia. }
  destruct fuel as [|fuel]; [cbn in Hf; lia|]. change (items_wire (i :: items)) with (item_wire i ++ items_wire items). cbn [length] in Hf. specialize (IH (pre ++ item_wire i) rest fuel ltac:(lia)).
  rewrite !length_app, <- !app_assoc in IH. rewrite !length_app, <- !app_assoc, Nat.add_assoc. set (l := pre ++ item_wire i ++ _) in *. cbn [sdes_chunk_items].
  assert (u8_at l (length pre) = Ok (item_kind i)) as -> by (by apply u8_at_middle). cbn [mbind result_bind]. rewrite (proj2 (Z.eqb_neq _ _) Hk).
  assert (u8_at l (length pre + 1) = Ok (Zlen (item_value i))) as ->.
  { unfold l, item_wire. cbn [app]. rewrite (cons_middle (item_kind i) pre). rewrite app_assoc. apply u8_at_middle. by rewrite length_app. }
  cbn [mbind result_bind]. unfold Zlen at 1 2. rewrite Nat2Z.id. rewrite length_item_wire in IH. replace (length pre + 1 + 1 + length (item_value i))%nat with (length pre + (2 + length (item_value i)))%nat by lia.
  rewrite require_ok; [exact IH|]. apply Nat.leb_le. unfold l. rewrite !length_app, length_item_wire. lia.
Qed.

Lemma sdes_items_inv fuel l off chunk n :
  bytes_ok l -> (off <= length l)%nat -> sdes_chunk_items fuel l off = Ok (chunk, n) ->
  exists items rest, Forall item_ok items /\ drop off l = items_wire items ++ replicate (pad_after (off + length (items_wire items))) 0 ++ rest /\
    chunk = take off l ++ items_wire items /\ n = (off + length (items_wire items) + pad_after (off + length (items_wire items)))%nat.
Proof.
  intros Hl. revert off. induction fuel as [|fuel IH]; intros off Hoff H; [done|]. cbn [sdes_chunk_items] in H. apply bind_ok in H as (kind & Hk & H).
  unfold u8_at in Hk. destruct (l !! off) as [k|] eqn:Ek; [|done]. injection Hk as <-. pose proof (lookup_lt_Some _ _ _ Ek) as Hlt. pose proof (lookup_drop0 l off k Ek) as Ed.
  destruct (Z.eqb_spec k 0) as [->|Hk0].
  - apply bind_ok in H as (c & Hc & H). apply require_inv in H as [Hp%Nat.leb_le H]. apply require_inv in H as [Hz H]. injection H as <- <-.
    replace (off + 1 - 1)%nat with off in Hc by lia. replace (off + 1 + 3)%nat with (off + 4)%nat in * by lia. destruct (pad_after_spec off) as [Hk Hs]. rewrite <- Hs in *.
    unfold get_range, slice in Hc. cbn [Nat.leb] in Hc. rewrite Nat.sub_0_r, drop_0 in Hc. case_decide; [|done]. injection Hc as <-.
    exists [], (drop (off + pad_after off) l). cbn [items_wire fmap list_fmap concat app length]. rewrite Nat.add_0_r, app_nil_r. split_and!; [constructor| |done|done].
    destruct (get_range l (off + 1) (off + pad_after off)) as [z|] eqn:Er; [|done]. rewrite Ed.
    unfold get_range in Er. destruct (Nat.leb_spec (off + 1) (off + pad_after off)); [|done]. unfold slice in Er. case_decide; [|done]. injection Er as <-.
    destruct (pad_after off) as [|p] eqn:Ep; [lia|]. cbn [replicate app]. f_equal. rewrite <- (take_drop p (drop (off + 1) l)) at 1. rewrite drop_drop. replace (off + 1 + p)%nat with (off + S p)%nat by lia. f_equal.
    replace (off + S p - (off + 1))%nat with p in Hz by lia. rewrite forallb_forall in Hz. apply list_eq_same_length with (n := p); [by rewrite length_replicate|rewrite length_take, length_drop; lia|].
    intros j x y Hj Hx Hy. apply lookup_replicate in Hy as [-> _]. apply Z.eqb_eq, Hz. apply list_elem_of_In. eapply list_elem_of_lookup_2. exact Hx.
  - apply bind_ok in H as (size & Hsz & H). unfold u8_at in Hsz. destruct (l !! (off + 1)%nat) as [sz|] eqn:Es; [|done]. injection Hsz as <-. apply require_inv in H as [Ho%Nat.leb_le H].
    pose proof (lookup_drop0 l (off + 1) sz Es) as Ed1. assert (0 <= sz < 256) as Hsz by (eapply byte_range, Forall_lookup_1; [exact Hl|exact Es]).
    destruct (split_suffix l (off + 1 + 1) (Z.to_nat sz)) as (v & r & Ev & Lv & Er); [lia|]. destruct (IH (off + 1 + 1 + Z.to_nat sz)%nat Ho H) as (items & rest & Hok & Hd & Hc & Hn).
    assert (l = take off l ++ item_wire (mkSdesItem k v) ++ drop (off + 1 + 1 + Z.to_nat sz) l) as El.
    { rewrite <- (take_drop off l) at 1. rewrite Ed, Ed1, Ev, Er. unfold item_wire, Zlen. cbn [item_kind item_value app]. by rewrite Lv, Z2Nat.id by lia. }
    assert (length (item_wire (mkSdesItem k v)) = (2 + Z.to_nat sz)%nat) as Lw by (rewrite length_item_wire; cbn; lia).
    exists (mkSdesItem k v :: items), rest. change (items_wire (_ :: items)) with (item_wire (mkSdesItem k v) ++ items_wire items).
    replace (off + length (item_wire (mkSdesItem k v) ++ items_wire items))%nat with (off + 1 + 1 + Z.to_nat sz + length (items_wire items))%nat by (rewrite length_app; lia).
    split_and!; [constructor; [|done]| | |done].
    + split_and!; [done| |unfold Zlen; cbn; lia]. cbn. unfold bytes_ok in *. rewrite El in Hl. apply Forall_app in Hl as [_ Hl]. apply Forall_app in Hl as [Hl _]. unfold item_wire in Hl. cbn in Hl. by inversion_clear Hl as [|? ? _ Hl']; inversion_clear Hl'.
    + rewrite El at 1. rewrite drop_app_length' by (rewrite length_take; lia). by rewrite <- app_assoc, Hd.
    + rewrite Hc. rewrite app_assoc. f_equal. rewrite El at 1. rewrite app_assoc. rewrite take_app_length'; [done|]. rewrite length_app, length_take, Lw. lia.
Qed.

Definition chunk_ok (c : Z * list SdesItem) : Prop := fits 32 c.1 /\ Forall item_ok c.2.
Definition chunks_wire (cs : list (Z * list SdesItem)) : list Z := concat ((fun c => chunk_wire c.1 c.2) <$> cs).
(** A chunk as the iterator gives it: its items are still bytes. *)
Definition raw_chunk (c : Z * list SdesItem) : SdesChunk := mkSdesChunk c.1 (items_wire c.2).

Lemma length_chunk_wire ssrc items : length (chunk_wire ssrc items) = (4 + length (items_wire items) + pad_after (length (items_wire items)))%nat.
Proof. unfold chunk_wire. rewrite !length_app, length_be_encode, length_replicate. lia. Qed.

Lemma length_items items : (length items <= length (items_wire items))%nat.
Proof. induction items as [|i items IH]; [done|]. change (items_wire (i :: items)) with (item_wire i ++ items_wire items). rewrite length_app, length_item_wire. cbn [length]. lia. Qed.

Lemma chunk_fwd ssrc items rest : Forall item_ok items ->
  parse_sdes_chunk (chunk_wire ssrc items ++ rest) = Ok (be_encode 4 ssrc ++ items_wire items, length (chunk_wire ssrc items)).
Proof.
  intros Hok. unfold parse_sdes_chunk. pose proof (length_chunk_wire ssrc items) as Hl. pose proof (length_items items) as Hi. rewrite require_ok by (apply Nat.leb_le; rewrite length_app; lia). cbn [mbind result_bind].
  pose proof (sdes_items_fwd items Hok (be_encode 4 ssrc) rest (length (chunk_wire ssrc items ++ rest)) ltac:(rewrite length_app; lia)) as H.
  rewrite length_be_encode, pad_after_add4 in H. unfold chunk_wire at 2. rewrite <- !app_assoc. rewrite H. f_equal. f_equal. lia.
Qed.

Lemma chunk_inv l chunk n : bytes_ok l -> parse_sdes_chunk l = Ok (chunk, n) ->
  exists c rest, chunk_ok c /\ l = chunk_wire c.1 c.2 ++ rest /\ chunk = be_encode 4 c.1 ++ items_wire c.2 /\ n = length (chunk_wire c.1 c.2).
Proof.
  intros Hl H. unfold parse_sdes_chunk in H. apply require_inv in H as [H4%Nat.leb_le H]. apply sdes_items_inv in H as (items & rest & Hok & Hd & Hc & Hn); [|done|done].
  assert (bytes_ok (take 4 l)) as Hb by (by apply Forall_take). assert (length (take 4 l) = 4%nat) as L4 by (rewrite length_take; lia).
  assert (take 4 l = be_encode 4 (be_decode (take 4 l))) as E by (rewrite <- L4 at 2; symmetry; by apply be_encode_decode).
  rewrite pad_after_add4 in *. exists (be_decode (take 4 l), items), rest. cbn [fst snd]. split_and!.
  - split; [|done]. cbn. pose proof (be_decode_fits _ Hb) as Hf. by rewrite L4 in Hf.
  - unfold chunk_wire. rewrite <- E, <- !app_assoc, <- Hd. by rewrite take_drop.
  - by rewrite <- E.
  - rewrite length_chunk_wire. lia.
Qed.

Lemma get_from_app (pre post : list Z) : get_from (pre ++ post) (length pre) = Some post.
Proof. unfold get_from. pose proof (get_range_at pre post [] (length pre) (length (pre ++ post)) eq_refl ltac:(by rewrite length_app)) as H. by rewrite app_nil_r in H. Qed.

Lemma check_chunks_fwd cs rest : Forall chunk_ok cs -> check_sdes_chunks (length cs) (chunks_wire cs ++ rest) = Ok rest.
Proof.
  intros Hok. induction Hok as [|[ssrc items] cs [_ Hi] _ IH]; [done|]. cbn [length check_sdes_chunks]. change (chunks_wire (_ :: cs)) with (chunk_wire ssrc items ++ chunks_wire cs).
  rewrite <- app_assoc, chunk_fwd by done. cbn [mbind result_bind]. rewrite get_from_app. exact IH.
Qed.

Lemma check_chunks_inv n l rest : bytes_ok l -> check_sdes_chunks n l = Ok rest -> exists cs, Forall chunk_ok cs /\ length cs = n /\ l = chunks_wire cs ++ rest.
Proof.
  revert l. induction n as [|n IH]; intros l Hl H; cbn [check_sdes_chunks] in H.
  { injection H as <-. by exists []. }
  apply bind_ok in H as ([chunk k] & Hc & H). destruct (chunk_inv l chunk k Hl Hc) as (c & r & Hok & -> & _ & ->).
  rewrite get_from_app in H. cbn [ok_or mbind result_bind] in H. apply Forall_app in Hl as [_ Hr]. destruct (IH r Hr H) as (cs & Hcs & <- & ->).
  exists (c :: cs). split_and!; [by constructor|done|]. change (chunks_wire (c :: cs)) with (chunk_wire c.1 c.2 ++ chunks_wire cs). by rewrite app_assoc.
Qed.

Lemma u32_at_head v post : fits 32 v -> u32_at (be_encode 4 v ++ post) 0 = Ok v.
Proof. intros Hv. unfold u32_at. pose proof (slice_at [] (be_encode 4 v) post 0 4 eq_refl (length_be_encode 4 v)) as E. cbn [app] in E. rewrite E. cbn [fmap option_fmap option_map ok_or]. by rewrite (be_decode_encode 4). Qed.

Lemma chunk_list_fwd cs : Forall chunk_ok cs -> chunk_list (S (length cs)) (mkSdesChunks (chunks_wire cs) (Zlen cs)) = raw_chunk <$> cs.
Proof.
  intros Hok. induction Hok as [|[ssrc items] cs [Hs Hi] _ IH]; [done|]. cbn [length]. remember (S (length cs)) as k eqn:Ek. cbn [chunk_list]. unfold chunks_next. cbn [ch_remaining ch_bytes].
  rewrite (proj2 (Z.eqb_neq _ _)) by (unfold Zlen; cbn; lia). change (chunks_wire (_ :: cs)) with (chunk_wire ssrc items ++ chunks_wire cs). rewrite chunk_fwd by done. cbn [ok mbind option_bind].
  rewrite get_from_app. cbn [mbind option_bind]. cbn [fst] in Hs. rewrite u32_at_head by done. cbn [ok mbind option_bind].
  rewrite get_from_app. cbn [mbind option_bind].
  replace (Zlen ((ssrc, items) :: cs) - 1) with (Zlen cs) by (unfold Zlen; cbn; lia). cbn [fmap list_fmap]. by rewrite IH.
Qed.

Lemma item_list_fwd items fuel : Forall item_ok items -> (length items < fuel)%nat -> item_list fuel (items_wire items) = items.
Proof.
  intros Hok. revert fuel. induction Hok as [|i items (Hk & Hb & Hl) _ IH]; intros fuel Hf; destruct fuel as [|fuel]; try (cbn in Hf; lia); [done|]. cbn [item_list].
  change (items_wire (i :: items)) with (item_wire i ++ items_wire items). assert (items_next (item_wire i ++ items_wire items) = Some (i, items_wire items)) as ->.
  { unfold items_next, item_wire. cbn [app head mbind option_bind lookup list_lookup]. rewrite (proj2 (Z.eqb_neq _ _) Hk). cbn [mbind option_bind]. unfold Zlen. rewrite Nat2Z.id.
    change (item_kind i :: ?a :: item_value i ++ items_wire items) with ([item_kind i; a] ++ item_value i ++ items_wire items). rewrite (get_range_at [item_kind i; _] (item_value i)) by done. cbn [mbind option_bind].
    rewrite app_assoc. replace (2 + length (item_value i))%nat with (length ([item_kind i; Z.of_nat (length (item_value i))] ++ item_value i)) by done. rewrite get_from_app. cbn [mbind option_bind]. by destruct i. }
  f_equal. apply IH. cbn in Hf. lia.
Qed.

Lemma body_bytes p : bytes_ok (rtcp_bytes p) -> bytes_ok (body p).
Proof.
  intros H. unfold body, get_range. destruct (4 <=? _)%nat; [|constructor]. destruct (slice 4 _ _) as [b|] eqn:E; [|constructor]. by eapply slice_bytes.
Qed.

(** A source description the parser accepts is read to its last byte: the
    packet is exactly its chunks, each with its source, its items and their zero
    padding, and iterating gives all the chunks and items with nothing left out;
    and everything laid out that way is accepted. *)
Theorem source_descriptions_read_in_full p :
  bytes_ok (rtcp_bytes p) -> 0 <= rtcp_count p ->
  (forall s, sdes_parse p = Ok s ->
    let cs := (fun c => (chunk_ssrc c, sdes_items c)) <$> sdes_chunks s in
    Forall chunk_ok cs /\ Zlen cs = rtcp_count p /\ body p = chunks_wire cs) /\
  (forall cs, Forall chunk_ok cs -> Zlen cs = rtcp_count p -> body p = chunks_wire cs -> is_Some (ok (sdes_parse p))).
Proof.
  intros Hb Hc. split.
  - intros s Hs. unfold sdes_parse in Hs. apply bind_ok in Hs as (rest & Hr & Hs). apply require_inv in Hs as [He Hs]. injection Hs as <-. destruct rest; [|done].
    destruct (check_chunks_inv _ _ _ (body_bytes p Hb) Hr) as (cs & Hok & Hlen & El). rewrite app_nil_r in El.
    assert ((fun c => (chunk_ssrc c, sdes_items c)) <$> sdes_chunks (mkSdes (body p) (rtcp_count p)) = cs) as ->.
    { unfold sdes_chunks. cbn [sdes_count sdes_body]. rewrite El, <- Hlen. replace (rtcp_count p) with (Zlen cs) by (unfold Zlen; lia). rewrite chunk_list_fwd by done.
      rewrite <- list_fmap_compose. etransitivity; [|apply list_fmap_id]. apply Forall_fmap_ext_1. eapply Forall_impl; [exact Hok|]. intros [ssrc items] [_ Hi]. cbn [fst snd] in Hi. unfold compose, id, raw_chunk, sdes_items. cbn [chunk_ssrc chunk_items fst snd]. f_equal. apply item_list_fwd; [done|].
      pose proof (length_items items). lia. }
    split_and!; [done|unfold Zlen; lia|done].
  - intros cs Hok Hlen El. unfold sdes_parse. pose proof (check_chunks_fwd cs [] Hok) as H. rewrite app_nil_r in H. rewrite El. replace (Z.to_nat (rtcp_count p)) with (length cs) by (unfold Zlen in Hlen; lia).
    rewrite H. by eexists.
Qed.

(** ** Transport-wide feedback *)

(** The statuses a chunk announces. *)
Definition chunk_symbols (chunk : Z) : list Z := twcc_chunk_symbol chunk <$> seqZ 0 (twcc_capacity chunk).

(** What the format says of a 16-bit status chunk: a symbol and how often it is
    repeated, or a vector of fourteen one-bit symbols or of seven two-bit ones,
    the first symbol in the highest bits. *)
Inductive chunk_says : Z -> list Z -> Prop :=
  | says_run symbol n : 0 <= symbol < 4 -> 0 <= n < 2 ^ 13 -> chunk_says (symbol * 2 ^ 13 + n) (replicate (Z.to_nat n) symbol)
  | says_bits symbols : length symbols = 14%nat -> Forall (fun b => 0 <= b < 2) symbols ->
      chunk_says (2 ^ 15 + foldl (fun v b => 2 * v + b) 0 symbols) symbols
  | says_pairs symbols : length symbols = 7%nat -> Forall (fun b => 0 <= b < 4) symbols ->
      chunk_says (2 ^ 15 + 2 ^ 14 + foldl (fun v b => 4 * v + b) 0 symbols) symbols.

Definition reads_as (n : nat) (r high : Z) (v : Z) : bool :=
  let l := chunk_symbols v in
  (length l =? n)%nat && forallb (fun b => (0 <=? b) && (b <? r)) l && (high + foldl (fun v b => r * v + b) 0 l =? v).

Lemma vectors_read_as :
  forallb (reads_as 14 2 (2 ^ 15)) (seqZ (2 ^ 15) (2 ^ 14)) = true /\
  forallb (reads_as 7 4 (2 ^ 15 + 2 ^ 14)) (seqZ (2 ^ 15 + 2 ^ 14) (2 ^ 14)) = true.
Proof. split; vm_compute; reflexivity. Qed.

Lemma reads_as_spec n r high v : reads_as n r high v = true ->
  length (chunk_symbols v) = n /\ Forall (fun b => 0 <= b < r) (chunk_symbols v) /\ high + foldl (fun v b => r * v + b) 0 (chunk_symbols v) = v.
Proof.
  unfold reads_as. intros [[H1%Nat.eqb_eq H2]%andb_true_iff H3%Z.eqb_eq]%andb_true_iff. split_and!; [done| |done].
  apply Forall_forall. intros b Hb. rewrite forallb_forall in H2. specialize (H2 b (proj1 (list_elem_of_In _ _) Hb)). lia.
Qed.

Lemma run_chunk_symbols v : 0 <= v < 2 ^ 15 -> chunk_symbols v = replicate (Z.to_nat (v `mod` 2 ^ 13)) (v / 2 ^ 13).
Proof.
  intros Hv. assert (Z.land v 0x8000 = 0) as H15.
  { apply Z.bits_inj'. intros i Hi. rewrite Z.land_spec, Z.bits_0. destruct (decide (i = 15)) as [->|Hne].
    - by rewrite Z.testbit_odd, Z.shiftr_div_pow2, Z.div_small by lia.
    - change 0x8000 with (2 ^ 15). rewrite Z.pow2_bits_false by lia. by rewrite andb_false_r. }
  unfold chunk_symbols, twcc_capacity, twcc_chunk_symbol. rewrite H15. cbn [Z.eqb].
  change 0x1fff with (2 ^ 13 - 1). change 3 with (2 ^ 2 - 1). rewrite !land_ones_mod by lia. rewrite Z.shiftr_div_pow2 by lia.
  pose proof (Z.mod_pos_bound v (2 ^ 13) ltac:(lia)). assert (0 <= v / 2 ^ 13 < 2 ^ 2) as Hd by (change (2 ^ 13) with 8192 in *; change (2 ^ 15) with 32768 in *; change (2 ^ 2) with 4; dlia).
  rewrite (Z.mod_small (v / _)) by done. clear. generalize (v / 2 ^ 13). intros x. generalize (v `mod` 2 ^ 13). intros n.
  apply list_eq. intros j. rewrite list_lookup_fmap. destruct (decide (Z.of_nat j < n)).
  - rewrite lookup_seqZ_lt by lia. cbn. symmetry. apply lookup_replicate_2. lia.
  - rewrite lookup_seqZ_ge by lia. cbn. symmetry. apply lookup_ge_None_2. rewrite length_replicate. lia.
Qed.

(** The code reads a chunk as the format says. *)
Lemma chunk_symbols_said v : fits 16 v -> chunk_says v (chunk_symbols v).
Proof.
  unfold fits. intros Hv. change (2 ^ 16) with 65536 in Hv. destruct (decide (v < 2 ^ 15)) as [Hlt|Hge].
  - rewrite run_chunk_symbols by (change (2 ^ 15) with 32768 in *; lia).
    rewrite (Z.div_mod v (2 ^ 13)) at 1 by lia. rewrite (Z.mul_comm (2 ^ 13)). pose proof (Z.mod_pos_bound v (2 ^ 13) ltac:(lia)).
    apply says_run; [|done]. change (2 ^ 13) with 8192 in *; change (2 ^ 15) with 32768 in *. dlia.
  - destruct vectors_read_as as [Hbits Hpairs]. rewrite forallb_forall in Hbits, Hpairs.
    change (2 ^ 15) with 32768 in *. change (2 ^ 14) with 16384 in *. destruct (decide (v < 49152)).
    + destruct (reads_as_spec _ _ _ _ (Hbits v ltac:(apply list_elem_of_In, elem_of_seqZ; lia))) as (H1 & H2 & H3).
      rewrite <- H3 at 1. by apply says_bits.
    + destruct (reads_as_spec _ _ _ _ (Hpairs v ltac:(apply list_elem_of_In, elem_of_seqZ; lia))) as (H1 & H2 & H3).
      rewrite <- H3 at 1. by apply says_pairs.
Qed.

(** What symbols and the deltas that go with them say, from the packet with index
    [i] after [base] on. *)
Inductive decodes (base : Z) : Z -> list Z -> list Z -> list TwccPacketStatus -> Prop :=
  | decodes_nil i : decodes base i [] [] []
  | decodes_lost i syms ds ss : decodes base (i + 1) syms ds ss -> decodes base i (0 :: syms) ds (PacketNotReceived (wrapping_add 16 base i) :: ss)
  | decodes_small i b syms ds ss : decodes base (i + 1) syms ds ss -> decodes base i (1 :: syms) (b :: ds) (PacketReceived (wrapping_add 16 base i) b :: ss)
  | decodes_large i v syms ds ss : length v = 2%nat -> decodes base (i + 1) syms ds ss ->
      decodes base i (2 :: syms) (v ++ ds) (PacketReceived (wrapping_add 16 base i) (cast_signed 16 (be_decode v)) :: ss).

Lemma decodes_length base i syms ds ss : decodes base i syms ds ss -> length ss = length syms.
Proof. induction 1; cbn; congruence. Qed.

Lemma decodes_app base i syms ds ss syms' ds' ss' :
  decodes base i syms ds ss -> decodes base (i + Zlen syms) syms' ds' ss' -> decodes base i (syms ++ syms') (ds ++ ds') (ss ++ ss').
Proof.
  unfold Zlen. induction 1 as [i|i syms ds ss _ IH|i b syms ds ss _ IH|i v syms ds ss Hv _ IH]; cbn [length app]; intros H'; [by rewrite Z.add_0_r in H'|..];
    (assert (decodes base (i + 1 + Z.of_nat (length syms)) syms' ds' ss') as H2 by (replace (i + 1 + Z.of_nat (length syms)) with (i + Z.of_nat (S (length syms))) by lia; done)).
  - constructor. auto.
  - constructor. auto.
  - rewrite <- app_assoc. constructor; auto.
Qed.

(** The iterator [n] statuses further on, with the deltas read up to [d]. *)
Definition advance (it : TwccStatuses) (n : Z) (d : nat) : TwccStatuses :=
  mkStatuses (t_fci it) (t_base it) (t_count it) (chunk_offset it) (status_index it + n) d (current_chunk it) (chunk_remaining it - n) (current_slot it + n).

Lemma next_slot_ok it n d' :
  twcc_slots (S n) (t_fci it) (current_chunk it) (current_slot it) (delta_offset it) = Ok d' ->
  exists d1 s ds, next_slot it = (Some (Ok s), advance it 1 d1) /\ twcc_slots n (t_fci it) (current_chunk it) (current_slot it + 1) d1 = Ok d' /\
    drop (delta_offset it) (t_fci it) = ds ++ drop d1 (t_fci it) /\ (d1 <= length (t_fci it))%nat /\
    forall syms ds' ss, decodes (t_base it) (status_index it + 1) syms ds' ss -> decodes (t_base it) (status_index it) (twcc_chunk_symbol (current_chunk it) (current_slot it) :: syms) (ds ++ ds') (s :: ss).
Proof.
  cbn [twcc_slots]. unfold next_slot. intros H. apply bind_ok in H as (d1 & Hd & H). apply require_inv in H as [Hle%Nat.leb_le H]. exists d1.
  set (symbol := twcc_chunk_symbol _ _) in *. clearbody symbol. destruct symbol as [|[p|[p|p|]|]|p]; try done; injection Hd as <-.
  - eexists _, []. split_and!; [done|done|done|done|]. intros. by constructor.
  - destruct (split_suffix (t_fci it) (delta_offset it) 2 Hle) as (v & r & Ev & Lv & Er). unfold slice. case_decide; [|lia]. rewrite Ev, <- Lv, take_app_length, Lv.
    eexists _, v. split_and!; [done|done|by rewrite Er|done|]. intros. by constructor.
  - destruct (lookup_lt_is_Some_2 (t_fci it) (delta_offset it) ltac:(lia)) as [b Eb]. rewrite Eb. eexists _, [b].
    split_and!; [done|done|by apply lookup_drop0|done|]. intros. by constructor.
Qed.

Lemma slots_collect n : forall it d',
  twcc_slots n (t_fci it) (current_chunk it) (current_slot it) (delta_offset it) = Ok d' ->
  (delta_offset it <= length (t_fci it))%nat -> chunk_remaining it = Z.of_nat n -> status_index it + Z.of_nat n <= t_count it ->
  exists ss ds, (d' <= length (t_fci it))%nat /\ drop (delta_offset it) (t_fci it) = ds ++ drop d' (t_fci it) /\
    decodes (t_base it) (status_index it) (twcc_chunk_symbol (current_chunk it) <$> seqZ (current_slot it) (Z.of_nat n)) ds ss /\
    forall k, twcc_collect (n + k) it = (rest ← twcc_collect k (advance it (Z.of_nat n) d'); Ok (ss ++ rest)).
Proof.
  induction n as [|n IH]; intros it d' H Hd Hr Hi.
  - injection H as <-. exists [], []. split_and!; [done|done|constructor|]. intros k. assert (advance it (Z.of_nat 0) (delta_offset it) = it) as ->.
    { unfold advance. rewrite !Z.add_0_r, Z.sub_0_r. by destruct it. }
    cbn [Nat.add app]. by destruct (twcc_collect k it).
  - destruct (next_slot_ok it n d' H) as (d1 & s & ds & Hs & H1 & Ed & Hd1 & Hdec). destruct (IH (advance it 1 d1) d') as (ss & ds' & Hle & Ed' & Hss & Hc); cbn [t_fci current_chunk current_slot delta_offset chunk_remaining status_index t_count advance]; try done; try lia.
    cbn [t_fci t_base current_chunk current_slot delta_offset status_index advance] in *. exists (s :: ss), (ds ++ ds'). split_and!; [done|by rewrite Ed, Ed', app_assoc| |].
    + rewrite Nat2Z.inj_succ, <- Z.add_1_l, seqZ_cons by lia. rewrite fmap_cons. replace (Z.pred (1 + Z.of_nat n)) with (Z.of_nat n) by lia. rewrite <- Z.add_1_r. by apply Hdec.
    + intros k. cbn [Nat.add twcc_collect]. unfold twcc_next. rewrite (proj2 (Z.leb_gt _ _)) by lia. rewrite (proj2 (Z.eqb_neq _ _)) by lia. rewrite Hs, Hc.
      assert (advance (advance it 1 d1) (Z.of_nat n) d' = advance it (Z.of_nat (S n)) d') as ->.
      { unfold advance. cbn. f_equal; lia. }
      destruct (twcc_collect k _); done.
Qed.

Lemma capacity_nonneg chunk : 0 <= twcc_capacity chunk.
Proof. unfold twcc_capacity. repeat case_match; try lia. apply Z.land_nonneg. by right. Qed.

Lemma twcc_walk fuel : forall l count off d checked e d' it,
  bytes_ok l -> 0 <= checked <= count -> count - checked < Z.of_nat fuel -> (off <= length l)%nat -> (d <= length l)%nat ->
  twcc_chunks fuel l count off checked = Ok e -> twcc_deltas fuel l count off d checked = Ok d' ->
  t_fci it = l -> t_count it = count -> chunk_offset it = off -> status_index it = checked -> delta_offset it = d -> chunk_remaining it = 0 ->
  exists chunks ss ds, Forall (fits 16) chunks /\ drop off l = concat (be_encode 2 <$> chunks) ++ drop e l /\ (d' <= length l)%nat /\ drop d l = ds ++ drop d' l /\
    decodes (t_base it) checked (take (Z.to_nat (count - checked)) (concat (chunk_symbols <$> chunks))) ds ss /\
    twcc_collect (S (Z.to_nat (count - checked))) it = Ok ss /\ Zlen ss = count - checked.
Proof.
  induction fuel as [|fuel IH]; intros l count off d checked e d' it Hl Hch Hf Hoff Hd Hc Hds Efci Ecount Eoff Eidx Edelta Erem; [lia|].
  cbn [twcc_chunks twcc_deltas] in Hc, Hds. destruct (Z.ltb_spec checked count) as [Hlt|Hge].
  2:{ injection Hc as <-. injection Hds as <-. exists [], [], []. replace (count - checked) with 0 by lia. split_and!; try done; [constructor|].
      cbn [Z.to_nat twcc_collect]. unfold twcc_next. by rewrite (proj2 (Z.leb_le _ _)) by lia. }
  apply bind_ok in Hc as (chunk & Hu & Hc). rewrite Hu in Hds. cbn [mbind result_bind] in Hds. apply require_inv in Hc as [Hav Hc]. apply require_inv in Hds as [_ Hds].
  apply negb_true_iff, Z.eqb_neq in Hav. pose proof (capacity_nonneg chunk) as Hcap. set (n := Z.min (twcc_capacity chunk) (count - checked)) in *.
  apply bind_ok in Hds as (d1 & Hs & Hds). set (it0 := mkStatuses l (t_base it) count (off + 2) checked d chunk n 0).
  destruct (slots_collect (Z.to_nat n) it0 d1) as (ss1 & ds1 & Hd1 & Ed1 & Hdec1 & Hcol1); [exact Hs|done|cbn; lia|cbn; lia|].
  cbn [t_fci t_base status_index delta_offset current_chunk current_slot it0] in Hd1, Ed1, Hdec1. pose proof Hu as Hu0. unfold u16_at in Hu. destruct (slice off 2 l) as [v|] eqn:Ev; [|done]. cbn [fmap option_fmap option_map ok_or] in Hu. injection Hu as Hchunk.
  assert (bytes_ok v) as Hv by (by eapply slice_bytes). assert (length v = 2%nat) as Lv by (by eapply slice_length).
  unfold slice in Ev. case_decide as Hin; [|done]. injection Ev as Ev. destruct (split_suffix l off 2 Hin) as (v' & r & E1 & L1 & E2).
  assert (v' = v) as -> by (by rewrite <- Ev, E1, <- L1, take_app_length).
  destruct (IH l count (off + 2)%nat d1 (checked + n) e d' (advance it0 (Z.of_nat (Z.to_nat n)) d1)) as (chunks & ss2 & ds2 & Hfit & Ech & Hle & Ed2 & Hdec2 & Hcol2 & Hlen2); try done; try lia; try (cbn; lia).
  cbn [t_base advance it0] in Hdec2. assert (length (take (Z.to_nat (count - checked)) (chunk_symbols chunk)) = Z.to_nat n) as Lt by (unfold chunk_symbols; rewrite length_take, length_fmap, length_seqZ; lia).
  assert (twcc_chunk_symbol chunk <$> seqZ 0 (Z.of_nat (Z.to_nat n)) = take (Z.to_nat (count - checked)) (chunk_symbols chunk)) as Esym.
  { rewrite Z2Nat.id by lia. unfold chunk_symbols, n. rewrite <- fmap_take. f_equal. apply list_eq. intros j. destruct (decide (Z.of_nat j < Z.min (twcc_capacity chunk) (count - checked))).
    - rewrite lookup_take_lt by lia. rewrite !lookup_seqZ_lt by lia. done.
    - rewrite lookup_seqZ_ge by lia. destruct (decide (j < Z.to_nat (count - checked))%nat); [rewrite lookup_take_lt, lookup_seqZ_ge by lia|rewrite lookup_take_ge by lia]; done. }
  rewrite Esym in Hdec1. exists (chunk :: chunks), (ss1 ++ ss2), (ds1 ++ ds2). split_and!.
  - constructor; [|done]. pose proof (be_decode_fits v Hv) as Hf2. rewrite Lv in Hf2. by rewrite <- Hchunk.
  - cbn [fmap list_fmap concat]. rewrite E1, <- E2, Ech, <- app_assoc. f_equal. rewrite <- Hchunk. rewrite <- Lv. symmetry. by apply be_encode_decode.
  - done.
  - by rewrite Ed1, Ed2, app_assoc.
  - cbn [fmap list_fmap concat]. rewrite take_app. apply decodes_app; [done|]. replace (checked + Zlen (take (Z.to_nat (count - checked)) (chunk_symbols chunk))) with (checked + n) by (unfold Zlen; lia).
    replace (Z.to_nat (count - checked) - length (chunk_symbols chunk))%nat with (Z.to_nat (count - (checked + n))); [done|].
    unfold chunk_symbols. rewrite length_fmap, length_seqZ. lia.
  - assert (twcc_collect (S (Z.to_nat (count - checked))) it = twcc_collect (S (Z.to_nat (count - checked))) it0) as ->.
    { cbn [twcc_collect]. assert (twcc_next it = twcc_next it0) as ->; [|done]. unfold twcc_next. rewrite Ecount, Eidx, Erem, Efci, Eoff. cbn [t_count status_index it0 chunk_remaining]. rewrite (proj2 (Z.leb_gt _ _)) by lia.
      cbn [Z.eqb]. rewrite Hu0. rewrite (proj2 (Z.eqb_neq _ _) Hav). rewrite (proj2 (Z.eqb_neq n _)) by lia. by rewrite Edelta. }
    replace (S (Z.to_nat (count - checked))) with (Z.to_nat n + S (Z.to_nat (count - (checked + n))))%nat by lia. rewrite Hcol1, Hcol2. done.
  - pose proof (decodes_length _ _ _ _ _ Hdec1) as L. unfold Zlen in *. rewrite length_app. lia.
Qed.

Lemma twcc_chunks_end fuel : forall l count off st e, (off <= length l)%nat -> twcc_chunks fuel l count off st = Ok e -> (e <= length l)%nat.
Proof.
  induction fuel as [|fuel IH]; intros l count off st e Hoff He; cbn [twcc_chunks] in He; [by injection He as <-|].
  destruct (st <? count); [|by injection He as <-]. apply bind_ok in He as (ch & Hch & He). apply require_inv in He as [_ He]. eapply IH; [|exact He].
  unfold u16_at, slice in Hch. case_decide; [lia|done].
Qed.

Lemma u16_at_bytes l o v : bytes_ok l -> u16_at l o = Ok v -> take 2 (drop o l) = be_encode 2 v.
Proof.
  intros Hl H. unfold u16_at in H. destruct (slice o 2 l) as [x|] eqn:E; [|done]. cbn in H. injection H as <-.
  pose proof (slice_bytes _ _ _ _ Hl E) as Hx. pose proof (slice_length _ _ _ _ E) as Lx. unfold slice in E. case_decide; [|done]. injection E as <-.
  symmetry. rewrite <- Lx at 1. by apply be_encode_decode.
Qed.

(** The first eight bytes: base, count, reference time and feedback count. *)
Lemma twcc_parse_header p t : bytes_ok (fci (twcc_feedback t)) -> twcc_parse p = Ok t ->
  take 8 (fci (twcc_feedback t)) = be_encode 2 (twcc_base t) ++ be_encode 2 (packet_count t) ++ be_encode 3 (reference_time t) ++ [feedback_count t].
Proof.
  intros Hl H. unfold twcc_parse in H. apply bind_ok in H as (f & Hf & H). apply bind_ok in H as (base & Hbase & H). apply bind_ok in H as (count & Hcount & H).
  apply bind_ok in H as (b4 & H4 & H). apply bind_ok in H as (b5 & H5 & H). apply bind_ok in H as (b6 & H6 & H). apply bind_ok in H as (fbc & H7 & H).
  apply bind_ok in H as ([start c'] & _ & H). injection H as <-. cbn [twcc_feedback twcc_base packet_count reference_time feedback_count] in *.
  pose proof (u16_at_bytes _ _ _ Hl Hbase) as E0. pose proof (u16_at_bytes _ _ _ Hl Hcount) as E2. unfold u8_at in *.
  destruct (fci f !! 4%nat) as [c4|] eqn:K4; [|done]. destruct (fci f !! 5%nat) as [c5|] eqn:K5; [|done]. destruct (fci f !! 6%nat) as [c6|] eqn:K6; [|done].
  destruct (fci f !! 7%nat) as [c7|] eqn:K7; [|done]. injection H4 as ->. injection H5 as ->. injection H6 as ->. injection H7 as ->.
  assert (be_encode 3 (Z.lor (Z.lor (Z.shiftl b4 16) (Z.shiftl b5 8)) b6) = [b4; b5; b6]) as ->.
  { assert (bytes_ok [b4; b5; b6]) as Hb by (unfold bytes_ok in *; rewrite Forall_forall in Hl; repeat constructor; apply Hl; by eapply list_elem_of_lookup_2).
    etransitivity; [|apply (be_encode_decode [b4; b5; b6] Hb)]. cbn [length]. f_equal.
    do 3 (apply Forall_cons in Hb as [? Hb]). unfold is_byte, fits in *. change (2 ^ 8) with 256 in *.
    replace (Z.lor (Z.shiftl b4 16) (Z.shiftl b5 8)) with (Z.shiftl (b4 * 2 ^ 8 + b5) 8).
    2: { change 16 with (8 + 8). rewrite <- Z.shiftl_shiftl by lia. rewrite <- Z.shiftl_lor. f_equal. rewrite lor_shift_add by (lia || done). done. }
    rewrite lor_shift_add by (lia || done). unfold be_decode. cbn [foldl]. change (2 ^ 8) with 256. lia. }
  rewrite <- E0, <- E2. destruct (fci f) as [|x0 [|x1 [|x2 [|x3 [|x4 [|x5 [|x6 [|x7 l]]]]]]]]; try done. cbn in *. by simplify_eq.
Qed.

(** C23. Transport-wide feedback the parser accepts is decoded in full, as the
    format says: its body is a header of eight bytes (base sequence number,
    packet count, reference time, feedback count), 16-bit status chunks, and the
    deltas of the packets they report received. The format of a chunk is
    [chunk_says]: a repeated two-bit symbol, fourteen one-bit symbols or seven
    two-bit symbols. Iterating over the feedback meets no error and gives one
    status for each of the first [packet_count] symbols, with consecutive
    sequence numbers, each received packet with its own delta and no delta left
    over. *)
Theorem accepted_twcc_is_decoded p t :
  bytes_ok (rtcp_bytes p) -> twcc_parse p = Ok t ->
  exists chunks symbols deltas statuses, Forall2 chunk_says chunks symbols /\
    fci (twcc_feedback t) = be_encode 2 (twcc_base t) ++ be_encode 2 (packet_count t) ++ be_encode 3 (reference_time t) ++ [feedback_count t]
      ++ concat (be_encode 2 <$> chunks) ++ deltas /\
    drop (delta_start t) (fci (twcc_feedback t)) = deltas /\
    decodes (twcc_base t) 0 (take (Z.to_nat (packet_count t)) (concat symbols)) deltas statuses /\
    twcc_collect (S (Z.to_nat (packet_count t))) (twcc_statuses t) = Ok statuses /\ Zlen statuses = packet_count t.
Proof.
  intros Hb H. pose proof H as Hhead. unfold twcc_parse in H. apply bind_ok in H as (f & Hf & H). apply bind_ok in H as (base & _ & H). apply bind_ok in H as (count & Hcount & H).
  apply bind_ok in H as (b4 & _ & H). apply bind_ok in H as (b5 & _ & H). apply bind_ok in H as (b6 & _ & H). apply bind_ok in H as (fbc & H7 & H). apply bind_ok in H as ([start c'] & Hv & H). injection H as <-.
  cbn [twcc_feedback delta_start packet_count twcc_base]. assert (bytes_ok (fci f)) as Hl.
  { unfold feedback_parse in Hf. apply require_inv in Hf as [_ Hf]. apply bind_ok in Hf as (a & _ & Hf). apply bind_ok in Hf as (b & _ & Hf). apply bind_ok in Hf as (rest & Hr & Hf). injection Hf as <-. cbn [fci].
    unfold get_from, get_range in Hr. destruct (8 <=? _)%nat; [|done]. destruct (slice 8 _ _) as [x|] eqn:E; [|done]. injection Hr as <-. eapply slice_bytes; [|exact E]. by apply body_bytes. }
  assert (8 <= length (fci f))%nat as H8 by (unfold u8_at in H7; destruct (fci f !! 7%nat) eqn:E; [|done]; apply lookup_lt_Some in E; lia).
  assert (fits 16 count) as Hcf.
  { unfold u16_at in Hcount. destruct (slice 2 2 (fci f)) as [v|] eqn:E; [|done]. cbn in Hcount. injection Hcount as <-. pose proof (be_decode_fits v ltac:(by eapply slice_bytes)) as Hfit. by rewrite (slice_length _ _ _ _ E) in Hfit. }
  unfold validate_twcc_chunks in Hv. apply bind_ok in Hv as (e & He & Hv). apply bind_ok in Hv as (d' & Hd' & Hv). apply bind_ok in Hv as (tr & Htr & Hv). apply require_inv in Hv as [Hem Hv]. injection Hv as <- <-.
  assert (e <= length (fci f))%nat as Hle.
  { eapply twcc_chunks_end; [|exact He]. done. }
  set (t := mkTwcc f base count _ fbc e). unfold fits in Hcf. change (2 ^ 16) with 65536 in Hcf.
  destruct (twcc_walk (S (Z.to_nat count)) (fci f) count 8 e 0 e d' (twcc_statuses t)) as (chunks & ss & ds & Hfit & Ech & Hd & Ed & Hdec & Hcol & Hlen); try done; try lia.
  rewrite Z.sub_0_r in *. assert (drop d' (fci f) = []) as En.
  { destruct tr; [|done]. unfold get_from, get_range in Htr. destruct (d' <=? _)%nat; [|done]. unfold slice in Htr. case_decide; [|done]. injection Htr as Htr. rewrite take_ge in Htr; [done|]. rewrite length_drop. lia. }
  rewrite En, app_nil_r in Ed. exists chunks, (chunk_symbols <$> chunks), (drop e (fci f)), ss. rewrite <- Ed in Hdec. split_and!; try done.
  - apply Forall2_fmap_r, Forall_Forall2_diag. eapply Forall_impl; [exact Hfit|]. apply chunk_symbols_said.
  - apply twcc_parse_header in Hhead; [|done]. cbn [twcc_feedback] in Hhead. rewrite <- (take_drop 8 (fci f)) at 1. rewrite Hhead, Ech. by rewrite <- !app_assoc.
Qed.

(** ** What a parse returns is bounded *)

Definition batch_statuses (b : FeedbackBatch) : Z :=
  match report b with
  | ReportTwcc _ _ _ _ l => Zlen l
  | ReportRfc8888 l _ => foldr (fun r n => Zlen (rep_statuses r) + n) 0 l
  end.
Definition feedback_statuses (s : ParsedRtcp) : Z := foldr (fun b n => batch_statuses b + n) 0 (feedback s).

(** The state between two packets. *)
Definition within_limits (s : ParsedRtcp) (statuses : Z) : Prop :=
  Zlen (receipts s) <= MAX_REPORT_RECEIPTS /\ Zlen (keyframes s) <= 256 /\ Zlen (repair s) <= MAX_FEEDBACK_STATUSES /\
  feedback_statuses s = statuses /\ statuses <= MAX_FEEDBACK_STATUSES.

Lemma statuses_snoc l b : foldr (fun b n => batch_statuses b + n) 0 (l ++ [b]) = foldr (fun b n => batch_statuses b + n) 0 l + batch_statuses b.
Proof. induction l as [|x l IH]; cbn; [lia|rewrite IH; lia]. Qed.

Lemma push_repairs_bound ssrc pairs : forall acc l, Zlen acc <= MAX_FEEDBACK_STATUSES -> push_repairs ssrc pairs acc = Ok l -> Zlen l <= MAX_FEEDBACK_STATUSES.
Proof.
  induction pairs as [|p pairs IH]; intros acc l Ha H; cbn [push_repairs] in H; [by injection H as <-|].
  destruct (Z.ltb_spec MAX_FEEDBACK_STATUSES (Zlen (acc ++ nack_requests ssrc p))); [done|]. by eapply IH; [|exact H].
Qed.

Lemma read_lifecycle_keeps p s s' : read_lifecycle p s = Ok s' -> feedback s' = feedback s /\ repair s' = repair s /\ keyframes s' = keyframes s.
Proof.
  unfold read_lifecycle. intros H. apply bind_ok in H as (sr & _ & H). apply bind_ok in H as (sdes & _ & H). apply bind_ok in H as (facts & _ & H). apply bind_ok in H as (bye & _ & H).
  injection H as <-. destruct sr, bye; done.
Qed.

Lemma read_feedback_limits at_ epoch mode p s n s' n' :
  read_feedback at_ epoch mode p s n = Ok (s', n') -> Zlen (repair s) <= MAX_FEEDBACK_STATUSES -> feedback_statuses s = n -> n <= MAX_FEEDBACK_STATUSES ->
  Zlen (repair s') <= MAX_FEEDBACK_STATUSES /\ feedback_statuses s' = n' /\ n' <= MAX_FEEDBACK_STATUSES.
Proof.
  unfold read_feedback. intros H Hr Hf Hn. destruct (packet_type p =? 201); [apply bind_ok in H as (l & _ & H); by injection H as <- <-|].
  destruct (_ && (rtcp_count p =? 15)).
  { apply bind_ok in H as (t & _ & H). case_bool_decide; [|by injection H as <- <-]. apply bind_ok in H as (l & _ & H). destruct (Z.ltb_spec MAX_FEEDBACK_STATUSES (n + Zlen l)); [done|]. injection H as <- <-.
    split_and!; [done| |done]. unfold feedback_statuses, add_feedback in *. cbn [feedback]. rewrite statuses_snoc, Hf. unfold batch_statuses. cbn [report]. unfold Zlen. by rewrite length_fmap. }
  destruct (_ && (rtcp_count p =? 11)).
  { apply bind_ok in H as (o & _ & H). apply bind_ok in H as (r & _ & H). case_bool_decide; [|by injection H as <- <-]. destruct (Z.ltb_spec MAX_FEEDBACK_STATUSES (n + status_count r)); [done|]. injection H as <- <-.
    split_and!; [done| |done]. unfold feedback_statuses, add_feedback in *. cbn [feedback]. by rewrite statuses_snoc, Hf. }
  destruct (_ && (rtcp_count p =? 1)).
  { apply bind_ok in H as (f & _ & H). apply bind_ok in H as (l & Hl & H). injection H as <- <-. split_and!; [|done|done]. by eapply push_repairs_bound; [|exact Hl]. }
  destruct (_ && (rtcp_count p =? 1)); [apply bind_ok in H as (f & _ & H); by injection H as <- <-|].
  destruct (_ && (rtcp_count p =? 4)); [apply bind_ok in H as (f & _ & H); apply bind_ok in H as (l & _ & H); by injection H as <- <-|].
  by injection H as <- <-.
Qed.

Lemma read_packet_limits at_ epoch mode p s n s' n' : read_packet at_ epoch mode p s n = Ok (s', n') -> within_limits s n -> within_limits s' n'.
Proof.
  unfold read_packet. intros H (Hr & Hk & Hp & Hf & Hn). apply bind_ok in H as (s1 & H1 & H). destruct (read_lifecycle_keeps _ _ _ H1) as (E1 & E2 & E3). apply bind_ok in H as ([s2 n2] & H2 & H).
  destruct (_ || _) eqn:E; [done|]. injection H as <- <-. apply orb_false_iff in E as [Ea%Z.ltb_ge Eb%Z.ltb_ge].
  destruct (read_feedback_limits _ _ _ _ _ _ _ _ H2) as (? & ? & ?); [by rewrite E2|unfold feedback_statuses; by rewrite E1|done|]. by split_and!.
Qed.

(** What a compound is read to is bounded whatever the peer sends: at most
    256 receipts and 256 keyframe requests, at most 8192 repair requests and at
    most 8192 packet statuses over all the feedback it carries. *)
Theorem parsed_rtcp_is_bounded at_ epoch mode l r :
  rtcp_parse at_ epoch mode l = Ok r ->
  Zlen (receipts r) <= 256 /\ Zlen (keyframes r) <= 256 /\ Zlen (repair r) <= 8192 /\ feedback_statuses r <= 8192.
Proof.
  unfold rtcp_parse. intros H. apply bind_ok in H as (c & _ & H). revert H. generalize (S (S MAX_RTCP_REPORT_BLOCKS)) as fuel.
  assert (within_limits nothing 0) as Hw by done. revert c Hw. generalize nothing as s, 0 as n. intros s n c Hw fuel. revert s n c Hw.
  induction fuel as [|fuel IH]; intros s n c Hw H; cbn [read_compound] in H.
  { injection H as <-. destruct Hw as (? & ? & ? & -> & ?). done. }
  destruct (compound_next c) as [[p|] c']; [|injection H as <-; by destruct Hw as (? & ? & ? & -> & ?)].
  apply bind_ok in H as (pkt & _ & H). apply bind_ok in H as ([s' n'] & Hp & H). eapply IH; [|exact H]. by eapply read_packet_limits.
Qed.

(** The iteration ends by itself: more turns than 257 change nothing. *)
Lemma read_compound_ends at_ epoch mode fuel : forall c s n, (c_reports c <= MAX_RTCP_REPORT_BLOCKS)%nat -> (MAX_RTCP_REPORT_BLOCKS + 1 < fuel + c_reports c)%nat ->
  read_compound at_ epoch mode fuel c s n = read_compound at_ epoch mode (S fuel) c s n.
Proof.
  induction fuel as [|fuel IH]; intros c s n Hle Hf; [lia|]. remember (S fuel) as g eqn:Eg. cbn [read_compound]. rewrite Eg at 1. cbn [read_compound].
  destruct (compound_next c) as [[[p|e]|] c'] eqn:E; [|done..]. cbn [mbind result_bind]. destruct (read_packet at_ epoch mode p s n) as [[s' n']|]; [|done]. cbn [mbind result_bind].
  unfold compound_next in E. case_match; [done|]. case_match; [done|]. case_match; [done|]. case_match; [|done]. case_match; [done|].
  injection E as _ <-. repeat match goal with H : (_ =? _)%nat = false |- _ => apply Nat.eqb_neq in H end. subst g. apply IH; cbn [c_reports]; lia.
Qed.

(** ** Names and compounds as they are sent *)

Definition name_ok (cname : list Z) : Prop := bytes_ok cname /\ 1 <= Zlen cname <= 255 /\ utf8_valid cname = true.
Definition cname_item (cname : list Z) : SdesItem := mkSdesItem 1 cname.
Definition cname_wire (ssrc : Z) (cname : list Z) : Wire := mkWire 1 202 (chunk_wire ssrc [cname_item cname]).
(** A receiver report without blocks. *)
Definition empty_report (ssrc : Z) : Wire := mkWire 0 201 (be_encode 4 ssrc).

Lemma cname_chunk_ok ssrc cname : fits 32 ssrc -> name_ok cname -> chunk_ok (ssrc, [cname_item cname]).
Proof. intros Hs (Hb & Hl & _). split; [done|]. repeat constructor; [done|done|cbn; lia]. Qed.

Lemma cname_body_length ssrc cname : length (chunk_wire ssrc [cname_item cname]) = (4 + (length cname + 6) / 4 * 4)%nat.
Proof.
  rewrite length_chunk_wire. unfold items_wire. cbn [fmap list_fmap concat]. rewrite app_nil_r, length_item_wire. cbn [item_value cname_item]. destruct (pad_after_spec (2 + length cname)) as [_ H].
  replace (2 + length cname + 4)%nat with (length cname + 6)%nat in H by lia. lia.
Qed.

Lemma cname_wire_ok ssrc cname : name_ok cname -> wire_ok (cname_wire ssrc cname).
Proof.
  intros (_ & Hl & _). split_and!; cbn [w_count w_body cname_wire]; [lia|done| |].
  - rewrite cname_body_length. replace (4 + (length cname + 6) / 4 * 4)%nat with ((1 + (length cname + 6) / 4) * 4)%nat by lia. apply Nat.Div0.mod_mul.
  - unfold Zlen in *. rewrite cname_body_length. pose proof (Nat.Div0.mul_div_le (length cname + 6) 4) as H. set (q := ((length cname + 6) / 4)%nat) in *. unfold MAX_RTCP_PACKET_BYTES. lia.
Qed.

Lemma append_cname_spec packet ssrc cname : name_ok cname -> append_cname packet ssrc cname = Some (packet ++ wire (cname_wire ssrc cname)).
Proof.
  intros (_ & Hl & _). unfold append_cname. rewrite (proj2 (Z.leb_le _ _)) by lia. destruct cname as [|c cname']; [unfold Zlen in Hl; cbn in Hl; lia|]. set (cname := c :: cname') in *. change (is_empty cname) with false. cbn [negb andb].
  f_equal. f_equal. unfold wire, cname_wire. cbn [w_count w_type w_body]. pose proof (cname_body_length ssrc cname) as HL.
  assert (((length cname + 14) / 4)%nat = ((length cname + 6) / 4 + 2)%nat) as -> by (replace (length cname + 14)%nat with (length cname + 6 + 2 * 4)%nat by lia; by rewrite Nat.div_add by lia).
  assert (Zlen (chunk_wire ssrc [cname_item cname]) / 4 = Z.of_nat ((length cname + 6) / 4 + 2 - 1)) as ->.
  { unfold Zlen. rewrite HL. replace (Z.of_nat (4 + (length cname + 6) / 4 * 4)) with (Z.of_nat ((length cname + 6) / 4 + 2 - 1) * 4) by lia. by rewrite Z.div_mul by lia. }
  set (q := ((length cname + 6) / 4)%nat) in *. set (head_ := be_encode 2 _).
  assert (length ([0x81; 202] ++ head_ ++ be_encode 4 ssrc ++ [1; Zlen cname] ++ cname) = (10 + length cname)%nat) as Li by (unfold head_; rewrite !length_app, !length_be_encode; cbn [length]; lia).
  rewrite Li. pose proof (Nat.div_mod_eq (length cname + 6) 4) as Hq. fold q in Hq. pose proof (Nat.mod_upper_bound (length cname + 6) 4 ltac:(lia)).
  assert ((q + 2) * 4 - (10 + length cname) = pad_after (2 + length cname))%nat as ->.
  { destruct (pad_after_spec (2 + length cname)) as [_ Hp]. replace (2 + length cname + 4)%nat with (length cname + 6)%nat in Hp by lia. fold q in Hp. lia. }
  unfold chunk_wire, items_wire. cbn [fmap list_fmap concat]. rewrite app_nil_r. rewrite length_item_wire. cbn [item_value cname_item]. rewrite take_ge.
  - unfold item_wire. cbn [item_kind item_value]. by rewrite <- !app_assoc.
  - rewrite length_app, length_replicate, Li. destruct (pad_after_spec (2 + length cname)) as [_ Hp]. replace (2 + length cname + 4)%nat with (length cname + 6)%nat in Hp by lia. fold q in Hp. lia.
Qed.

Lemma empty_report_ok ssrc : wire_ok (empty_report ssrc).
Proof. split_and!; cbn [w_count w_body empty_report]; [lia|done|by rewrite length_be_encode|]. unfold Zlen. rewrite length_be_encode. done. Qed.

Lemma u32_at_at (pre post : list Z) v off : length pre = off -> fits 32 v -> u32_at (pre ++ be_encode 4 v ++ post) off = Ok v.
Proof. intros Ho Hv. unfold u32_at. rewrite (slice_at pre (be_encode 4 v) post off 4) by (done || apply length_be_encode). cbn [fmap option_fmap option_map ok_or]. by rewrite (be_decode_encode 4). Qed.
Lemma u16_at_at (pre post : list Z) v off : length pre = off -> fits 16 v -> u16_at (pre ++ be_encode 2 v ++ post) off = Ok v.
Proof. intros Ho Hv. unfold u16_at. rewrite (slice_at pre (be_encode 2 v) post off 2) by (done || apply length_be_encode). cbn [fmap option_fmap option_map ok_or]. by rewrite (be_decode_encode 2). Qed.

Lemma add_receipts_nil s : add_receipts [] s = s.
Proof. destruct s. unfold add_receipts. cbn. by rewrite app_nil_r. Qed.
Lemma add_lifecycle_nil s : add_lifecycle [] s = s.
Proof. destruct s. unfold add_lifecycle. cbn. by rewrite app_nil_r. Qed.

Definition few (s : ParsedRtcp) : Prop := Zlen (receipts s) <= MAX_REPORT_RECEIPTS /\ Zlen (keyframes s) <= 256.

Section Written.
Context (at_ epoch : Z) (mode : option PacketFeedbackKind).
Local Abbreviation read_packet := (read_packet at_ epoch mode).
Local Abbreviation read_feedback := (read_feedback at_ epoch mode).
Local Abbreviation rtcp_parse := (rtcp_parse at_ epoch mode).

(** A packet of another type than 200, 202 and 203 states no lifecycle fact. *)
Lemma read_plain p s n s' n' : packet_type p <> 200 -> packet_type p <> 202 -> packet_type p <> 203 -> few s' ->
  read_feedback p s n = Ok (s', n') -> read_packet p s n = Ok (s', n').
Proof.
  intros H1 H2 H3 [Hr Hk] H. unfold RtcpWire.read_packet, read_lifecycle. rewrite !(proj2 (Z.eqb_neq _ _)) by done. cbn [then_parse mbind result_bind concat]. rewrite add_lifecycle_nil, H. cbn [mbind result_bind].
  by rewrite !(proj2 (Z.ltb_ge _ _)) by done.
Qed.

Lemma read_empty_report ssrc s n : few s -> read_packet (packet_of (empty_report ssrc)) s n = Ok (s, n).
Proof.
  intros Hs. apply read_plain; try done. unfold RtcpWire.read_feedback. cbn [packet_type packet_of empty_report w_type Z.eqb Pos.eqb]. unfold receiver_report_parse. rewrite wire_body. cbn [w_body empty_report rtcp_count packet_of w_count].
  rewrite require_ok by (by rewrite length_be_encode). cbn [mbind result_bind]. pose proof (get_from_app (be_encode 4 ssrc) []) as E. rewrite app_nil_r, length_be_encode in E. rewrite E. cbn. by rewrite add_receipts_nil.
Qed.

Lemma read_cname ssrc cname s n : fits 32 ssrc -> name_ok cname -> few s ->
  read_packet (packet_of (cname_wire ssrc cname)) s n = Ok (add_lifecycle [FactCname ssrc cname] s, n).
Proof.
  intros Hs Hn [Hr Hk]. pose proof (cname_chunk_ok ssrc cname Hs Hn) as Hc. unfold RtcpWire.read_packet, read_lifecycle. cbn [packet_type packet_of cname_wire w_type Z.eqb Pos.eqb then_parse mbind result_bind].
  assert (sdes_parse (packet_of (cname_wire ssrc cname)) = Ok (mkSdes (chunks_wire [(ssrc, [cname_item cname])]) 1)) as ->.
  { unfold sdes_parse. rewrite wire_body. cbn [rtcp_count packet_of cname_wire w_count w_body]. pose proof (check_chunks_fwd [(ssrc, [cname_item cname])] [] ltac:(by constructor)) as H.
    unfold chunks_wire in *. cbn [fmap list_fmap concat fst snd] in *. rewrite app_nil_r in H. rewrite app_nil_r in H. rewrite app_nil_r. change (Z.to_nat 1) with 1%nat. cbn [length] in H. by rewrite H. }
  cbn [mbind result_bind]. unfold sdes_chunks. cbn [sdes_count sdes_body]. pose proof (chunk_list_fwd [(ssrc, [cname_item cname])] ltac:(by constructor)) as H. unfold Zlen in H. cbn [length] in H. change (Z.of_nat 1) with 1 in H. change (S (Z.to_nat 1)) with 2%nat. rewrite H.
  cbn [fmap list_fmap mapM]. unfold chunk_cnames, raw_chunk. cbn [chunk_ssrc]. unfold sdes_items. cbn [chunk_items fst snd]. rewrite item_list_fwd; [|by destruct Hc|pose proof (length_items [cname_item cname]); cbn [length] in *; lia].
  destruct Hn as (_ & Hl & Hu). cbn [mapM]. unfold item_cname. cbn [item_kind item_value cname_item Z.eqb Pos.eqb]. rewrite Hu. assert (is_empty cname = false) as -> by (destruct cname; [unfold Zlen in Hl; cbn in Hl; lia|done]).
  cbn [negb andb mbind result_bind mret result_ret concat app]. unfold RtcpWire.read_feedback. cbn [packet_type packet_of cname_wire w_type Z.eqb Pos.eqb andb mbind result_bind].
  cbn [receipts keyframes add_lifecycle]. by rewrite !(proj2 (Z.ltb_ge _ _)) by done.
Qed.

Definition named (ssrc : Z) (cname : list Z) : ParsedRtcp := mkParsedRtcp [FactCname ssrc cname] [] [] [] [].

(** A feedback packet goes out behind an empty report and the name. *)
Lemma compound_feedback w ssrc cname rest s n :
  wire_ok w -> w_type w <> 200 -> w_type w <> 201 -> w_body w = be_encode 4 ssrc ++ rest -> fits 32 ssrc -> name_ok cname ->
  read_packet (packet_of w) (named ssrc cname) 0 = Ok (s, n) -> exists out, compound (wire w) ssrc cname = Some out /\ rtcp_parse out = Ok s.
Proof.
  intros Hw H0 H1 Hb Hs Hn Hread. exists (concat (wire <$> [empty_report ssrc; cname_wire ssrc cname; w])). split.
  - unfold compound. assert (get_range (wire w) 4 8 = Some (be_encode 4 ssrc)) as ->.
    { unfold wire. rewrite Hb, app_assoc. apply get_range_at; [by rewrite length_app, length_be_encode|by rewrite length_be_encode]. }
    cbn [mbind option_bind]. rewrite bool_decide_true by done. cbn [negb]. change (wire w !! 1%nat) with (Some (w_type w)). rewrite (append_cname_spec _ ssrc cname Hn). cbn [mbind option_bind].
    assert (Some ((([0x80; 201; 0; 1] ++ be_encode 4 ssrc) ++ wire (cname_wire ssrc cname)) ++ wire w) = Some (concat (wire <$> [empty_report ssrc; cname_wire ssrc cname; w]))) as E.
    { f_equal. cbn [fmap list_fmap concat]. rewrite app_nil_r, <- !app_assoc. unfold wire at 3. cbn [w_count w_type w_body empty_report]. unfold Zlen. rewrite length_be_encode. done. }
    repeat case_match; (done || congruence || exact E).
  - rewrite rtcp_parse_wires.
    2:{ split_and!; [done| |by apply Nat.leb_le]. constructor; [apply empty_report_ok|]. constructor; [by apply cname_wire_ok|]. constructor; [done|constructor]. }
    cbn [fmap list_fmap read_packets]. rewrite read_empty_report by done. cbn [mbind result_bind]. rewrite read_cname by done. cbn [mbind result_bind]. change (add_lifecycle [FactCname ssrc cname] nothing) with (named ssrc cname). by rewrite Hread.
Qed.

(** A report goes out before the name. *)
Lemma compound_report w ssrc cname rest s n :
  wire_ok w -> w_type w = 200 \/ w_type w = 201 -> w_body w = be_encode 4 ssrc ++ rest -> fits 32 ssrc -> name_ok cname -> few s ->
  read_packet (packet_of w) nothing 0 = Ok (s, n) -> exists out, compound (wire w) ssrc cname = Some out /\ rtcp_parse out = Ok (add_lifecycle [FactCname ssrc cname] s).
Proof.
  intros Hw Ht Hb Hs Hn Hf Hread. exists (concat (wire <$> [w; cname_wire ssrc cname])). split.
  - unfold compound. assert (get_range (wire w) 4 8 = Some (be_encode 4 ssrc)) as ->.
    { unfold wire. rewrite Hb, app_assoc. apply get_range_at; [by rewrite length_app, length_be_encode|by rewrite length_be_encode]. }
    cbn [mbind option_bind]. rewrite bool_decide_true by done. cbn [negb]. change (wire w !! 1%nat) with (Some (w_type w)). rewrite (append_cname_spec (wire w) ssrc cname Hn).
    cbn [fmap list_fmap concat]. rewrite app_nil_r. by destruct Ht as [-> | ->].
  - rewrite rtcp_parse_wires.
    2:{ split_and!; [done| |by apply Nat.leb_le]. constructor; [done|]. constructor; [by apply cname_wire_ok|constructor]. }
    cbn [fmap list_fmap read_packets]. rewrite Hread. cbn [mbind result_bind]. by rewrite read_cname by done.
Qed.
End Written.

(** ** Packets of the receiving side *)

Lemma as_chunks_concat n ls : n <> 0%nat -> Forall (fun l => length l = n) ls -> as_chunks n (concat ls) = ls.
Proof.
  intros Hn Hl. unfold as_chunks. assert (length (concat ls) = (length ls * n)%nat) as ->.
  { induction Hl as [|l ls Hl _ IH]; [done|]. cbn [concat length]. rewrite length_app, IH. lia. }
  rewrite Nat.div_mul by done. apply list_eq. intros i. rewrite list_lookup_fmap. destruct (decide (i < length ls)%nat) as [Hi|Hi].
  - rewrite lookup_seq_lt by done. cbn [fmap option_fmap option_map]. revert i Hi. induction Hl as [|l ls Hl _ IH]; intros i Hi; [cbn in Hi; lia|]. destruct i as [|i]; cbn [concat].
    + cbn [Nat.add Nat.mul]. rewrite drop_0, <- Hl, take_app_length. done.
    + cbn [length] in Hi. specialize (IH i ltac:(lia)). change ((l :: ls) !! S i) with (ls !! i). rewrite <- IH. cbn [Nat.add Nat.mul]. by rewrite <- drop_drop, drop_app_length' by done.
  - rewrite lookup_seq_ge by lia. by rewrite lookup_ge_None_2 by lia.
Qed.
Lemma as_chunks_one n l : n <> 0%nat -> length l = n -> as_chunks n l = [l].
Proof. intros Hn Hl. pose proof (as_chunks_concat n [l] Hn ltac:(by constructor)) as H. cbn [concat] in H. by rewrite app_nil_r in H. Qed.

Lemma land_pow2_small a n : 0 <= n -> 0 <= a < 2 ^ n -> Z.land a (2 ^ n) = 0.
Proof.
  intros Hn Ha. apply Z.bits_inj'. intros k Hk. rewrite Z.land_spec, Z.pow2_bits_eqb, Z.bits_0 by done. destruct (Z.eqb_spec n k) as [<-|]; [|apply andb_false_r].
  rewrite andb_true_r. destruct (decide (a = 0)) as [->|]; [apply Z.bits_0|]. apply Z.bits_above_log2; [lia|]. apply Z.log2_lt_pow2; lia.
Qed.

Lemma feedback_wire w a b rest m :
  w_body w = be_encode 4 a ++ be_encode 4 b ++ rest -> (m <= 8 + length rest)%nat -> fits 32 a -> fits 32 b -> feedback_parse (packet_of w) m = Ok (mkFeedback a b rest).
Proof.
  intros Hw Hm Ha Hb. unfold feedback_parse. rewrite wire_body, Hw. rewrite require_ok by (rewrite !length_app, !length_be_encode; apply andb_true_iff; split; apply Nat.leb_le; lia). cbn [mbind result_bind].
  rewrite u32_at_head by done. cbn [mbind result_bind]. rewrite u32_at_at by (done || apply length_be_encode). cbn [mbind result_bind].
  pose proof (get_from_app (be_encode 4 a ++ be_encode 4 b) rest) as E. rewrite length_app, !length_be_encode, <- app_assoc in E. change (4 + 4)%nat with 8%nat in E. by rewrite E.
Qed.

(** A request for the packet [first] and those after it marked in [lost]. *)
Definition nack_wire (sender ssrc first lost : Z) : Wire := mkWire 1 205 (be_encode 4 sender ++ be_encode 4 ssrc ++ be_encode 2 first ++ be_encode 2 lost).
Definition pli_wire (sender ssrc : Z) : Wire := mkWire 1 206 (be_encode 4 sender ++ be_encode 4 ssrc).

Section Read.
Context (at_ epoch : Z) (mode : option PacketFeedbackKind).
Local Abbreviation read_packet := (read_packet at_ epoch mode).

Lemma read_nack sender ssrc first lost s n : fits 32 sender -> fits 32 ssrc -> fits 16 first -> fits 16 lost -> few s -> Zlen (repair s) + 17 <= MAX_FEEDBACK_STATUSES ->
  read_packet (packet_of (nack_wire sender ssrc first lost)) s n = Ok (with_repair (repair s ++ nack_requests ssrc (first, lost)) s, n).
Proof.
  intros Hs Hm Hf Hl Hfew Hr. apply read_plain; try done. unfold read_feedback. cbn [packet_type rtcp_count packet_of nack_wire w_type w_count Z.eqb Pos.eqb andb].
  unfold nack_parse. rewrite (feedback_wire _ sender ssrc (be_encode 2 first ++ be_encode 2 lost)) by (done || cbn; lia). cbn [mbind result_bind fci]. rewrite require_ok by done. cbn [mbind result_bind].
  unfold nack_pairs. cbn [fci]. rewrite as_chunks_one by done. cbn [omap list_omap]. pose proof (u16_at_at [] (be_encode 2 lost) first 0 eq_refl Hf) as E. cbn [app] in E. rewrite E. cbn [ok mbind option_bind].
  pose proof (u16_at_at (be_encode 2 first) [] lost 2 (length_be_encode 2 first) Hl) as E'. rewrite app_nil_r in E'. rewrite E'. cbn [ok mbind option_bind fb_media_ssrc push_repairs].
  assert (Zlen (repair s ++ nack_requests ssrc (first, lost)) <= MAX_FEEDBACK_STATUSES) as Hle; [|by rewrite (proj2 (Z.ltb_ge _ _) Hle)].
  unfold Zlen in *. rewrite length_app. unfold nack_requests. cbn [length]. rewrite length_fmap. pose proof (length_filter (fun bit => Z.land lost (Z.shiftl 1 bit) <> 0) (seqZ 0 16)) as H. rewrite length_seqZ in H. cbn [snd]. lia.
Qed.

Lemma read_pli sender ssrc s n : fits 32 sender -> fits 32 ssrc -> few s -> Zlen (keyframes s) < 256 ->
  read_packet (packet_of (pli_wire sender ssrc)) s n = Ok (with_keyframes (keyframes s ++ [mkKeyframeRequest ssrc None]) s, n).
Proof.
  intros Hs Hm [Hr Hk] Hk'. apply read_plain; try done.
  - split; [done|]. unfold Zlen in *. cbn [keyframes with_keyframes]. rewrite length_app. cbn [length]. lia.
  - unfold read_feedback. cbn [packet_type rtcp_count packet_of pli_wire w_type w_count Z.eqb Pos.eqb andb]. unfold pli_parse.
    rewrite (feedback_wire _ sender ssrc []) by (done || (cbn; lia) || by rewrite app_nil_r). done.
Qed.

(** A report block. *)
Definition block_wire (ssrc fraction lost highest jitter last_sr delay : Z) : list Z :=
  be_encode 4 ssrc ++ (fraction :: drop 1 (be_encode 4 lost)) ++ be_encode 4 highest ++ be_encode 4 jitter ++ be_encode 4 last_sr ++ be_encode 4 delay.

Lemma be_drop1 v : fits 24 v -> exists a b c, drop 1 (be_encode 4 v) = [a; b; c] /\ Z.lor (Z.lor (Z.shiftl a 16) (Z.shiftl b 8)) c = v.
Proof.
  intros Hv. exists (Z.shiftr (Z.shiftr v 8) 8 `mod` 256), (Z.shiftr v 8 `mod` 256), (v `mod` 256). split; [done|]. unfold fits in Hv. change (2 ^ 24) with 16777216 in Hv.
  rewrite !(Z.shiftr_div_pow2 _ 8) by lia. change (2 ^ 8) with 256. set (a := (v / 256 / 256) `mod` 256). set (b := (v / 256) `mod` 256). set (c := v `mod` 256).
  assert (0 <= a < 256 /\ 0 <= b < 256 /\ 0 <= c < 256 /\ v = a * 65536 + b * 256 + c) as (Ha & Hb & Hc & Ev) by (unfold a, b, c; dlia).
  rewrite (lor_shift_add a (Z.shiftl b 8) 16) by (rewrite ?Z.shiftl_mul_pow2 by lia; change (2 ^ 16) with 65536; change (2 ^ 8) with 256; lia).
  rewrite (Z.shiftl_mul_pow2 b) by lia. replace (a * 2 ^ 16 + b * 2 ^ 8) with ((a * 2 ^ 8 + b) * 2 ^ 8) by lia.
  rewrite <- (Z.shiftl_mul_pow2 _ 8) by lia. rewrite lor_shift_add by (change (2 ^ 8) with 256; lia). change (2 ^ 8) with 256. lia.
Qed.

Lemma block_parse ssrc fraction lost highest jitter last_sr delay :
  fits 32 ssrc -> fits 23 lost -> fits 32 highest -> fits 32 last_sr -> fits 32 delay ->
  report_block_parse (block_wire ssrc fraction lost highest jitter last_sr delay) = Ok (mkReportBlock ssrc lost highest last_sr delay).
Proof.
  intros Hs Hl Hh Hlsr Hd. unfold report_block_parse. assert (fits 24 lost) as Hl24 by (unfold fits in *; change (2 ^ 24) with 16777216; change (2 ^ 23) with 8388608 in Hl; lia).
  destruct (be_drop1 lost Hl24) as (a & b & c & Eabc & Elost). unfold block_wire. rewrite Eabc.
  set (p1 := be_encode 4 ssrc). set (p2 := be_encode 4 highest). set (p3 := be_encode 4 jitter). set (p4 := be_encode 4 last_sr). set (p5 := be_encode 4 delay).
  change (u8_at (p1 ++ [fraction; a; b; c] ++ p2 ++ p3 ++ p4 ++ p5) 5) with (@Ok PacketError Z a). change (u8_at (p1 ++ [fraction; a; b; c] ++ p2 ++ p3 ++ p4 ++ p5) 6) with (@Ok PacketError Z b). change (u8_at (p1 ++ [fraction; a; b; c] ++ p2 ++ p3 ++ p4 ++ p5) 7) with (@Ok PacketError Z c).
  rewrite require_ok by done. cbn [mbind result_bind]. rewrite Elost. change 0x800000 with (2 ^ 23). rewrite (land_pow2_small lost 23) by (lia || exact Hl). cbn [Z.eqb negb].
  pose proof (u32_at_head ssrc ([fraction; a; b; c] ++ p2 ++ p3 ++ p4 ++ p5) Hs) as E1. fold p1 in E1. rewrite E1. cbn [mbind result_bind].
  pose proof (u32_at_at (p1 ++ [fraction; a; b; c]) (p3 ++ p4 ++ p5) highest 8 eq_refl Hh) as E2. fold p2 in E2. rewrite <- !app_assoc in E2. rewrite E2. cbn [mbind result_bind].
  pose proof (u32_at_at (p1 ++ [fraction; a; b; c] ++ p2 ++ p3) p5 last_sr 16 eq_refl Hlsr) as E3. fold p4 in E3. rewrite <- !app_assoc in E3. rewrite E3. cbn [mbind result_bind].
  pose proof (u32_at_at (p1 ++ [fraction; a; b; c] ++ p2 ++ p3 ++ p4) [] delay 20 eq_refl Hd) as E4. fold p5 in E4. rewrite app_nil_r, <- !app_assoc in E4. rewrite E4. cbn [mbind result_bind].
  do 2 f_equal. unfold cast_signed. rewrite (proj2 (Z.ltb_lt _ _)); [done|]. unfold fits in Hl. change (2 ^ 23) with 8388608 in Hl. change (2 ^ (32 - 1)) with 2147483648. lia.
Qed.

Definition report_wire (sender : Z) (block : list Z) : Wire := mkWire 1 201 (be_encode 4 sender ++ block).

Lemma read_report sender ssrc fraction lost highest jitter last_sr delay s n :
  fits 32 ssrc -> fits 23 lost -> fits 32 highest -> fits 32 last_sr -> fits 32 delay -> few s -> Zlen (receipts s) < MAX_REPORT_RECEIPTS ->
  read_packet (packet_of (report_wire sender (block_wire ssrc fraction lost highest jitter last_sr delay))) s n
  = Ok (add_receipts [mkReportBlock ssrc lost highest last_sr delay] s, n).
Proof.
  intros Hs Hl Hh Hlsr Hd [Hr Hk] Hr'. apply read_plain; try done.
  { split; [|done]. unfold Zlen in *. cbn [receipts add_receipts]. rewrite length_app. cbn [fmap list_fmap length]. lia. }
  unfold read_feedback. cbn [packet_type packet_of report_wire w_type Z.eqb Pos.eqb]. unfold receiver_report_parse. rewrite wire_body. cbn [w_body report_wire rtcp_count packet_of w_count].
  pose proof (block_parse ssrc fraction lost highest jitter last_sr delay Hs Hl Hh Hlsr Hd) as Hb. set (block := block_wire ssrc fraction lost highest jitter last_sr delay) in *.
  assert (length block = 24%nat) as Lb by done. rewrite require_ok by (by rewrite length_app, length_be_encode, Lb). cbn [mbind result_bind].
  pose proof (get_from_app (be_encode 4 sender) block) as E. rewrite length_be_encode in E. rewrite E. cbn [ok_or mbind result_bind]. unfold check_report_blocks, report_blocks, REPORT_BLOCK_BYTES.
  rewrite (as_chunks_one 24 block) by done. cbn [mapM omap list_omap]. rewrite Hb. cbn [mbind result_bind mret result_ret]. rewrite (as_chunks_one 24 block) by done. cbn [omap list_omap]. by rewrite Hb.
Qed.

Definition sender_report_wire (ssrc seconds fraction timestamp packets bytes : Z) : Wire :=
  mkWire 0 200 (be_encode 4 ssrc ++ be_encode 4 seconds ++ be_encode 4 fraction ++ be_encode 4 timestamp ++ be_encode 4 packets ++ be_encode 4 bytes).

Lemma read_sender_report ssrc seconds fraction timestamp packets bytes s n :
  fits 32 ssrc -> fits 32 seconds -> fits 32 fraction -> fits 32 timestamp -> few s ->
  read_packet (packet_of (sender_report_wire ssrc seconds fraction timestamp packets bytes)) s n = Ok (add_lifecycle [FactSenderReport ssrc seconds fraction timestamp] s, n).
Proof.
  intros Hs Hsec Hfr Hts [Hr Hk]. unfold RtcpWire.read_packet, read_lifecycle. cbn [packet_type packet_of sender_report_wire w_type Z.eqb Pos.eqb then_parse].
  assert (sender_report_parse (packet_of (sender_report_wire ssrc seconds fraction timestamp packets bytes)) = Ok (mkSenderReport ssrc seconds fraction timestamp [])) as ->.
  { unfold sender_report_parse. rewrite wire_body. cbn [w_body sender_report_wire rtcp_count packet_of w_count]. set (p1 := be_encode 4 ssrc). set (p2 := be_encode 4 seconds). set (p3 := be_encode 4 fraction). set (p4 := be_encode 4 timestamp). set (p5 := be_encode 4 packets). set (p6 := be_encode 4 bytes).
    rewrite require_ok by done. cbn [mbind result_bind]. change (get_from (p1 ++ p2 ++ p3 ++ p4 ++ p5 ++ p6) 24) with (Some (@nil Z)). cbn [ok_or mbind result_bind].
    change (check_report_blocks []) with (@Ok PacketError () ()). cbn [mbind result_bind].
    pose proof (u32_at_head ssrc (p2 ++ p3 ++ p4 ++ p5 ++ p6) Hs) as E1. fold p1 in E1. rewrite E1. cbn [mbind result_bind].
    pose proof (u32_at_at p1 (p3 ++ p4 ++ p5 ++ p6) seconds 4 eq_refl Hsec) as E2. fold p2 in E2. rewrite E2. cbn [mbind result_bind].
    pose proof (u32_at_at (p1 ++ p2) (p4 ++ p5 ++ p6) fraction 8 eq_refl Hfr) as E3. fold p3 in E3. rewrite <- !app_assoc in E3. rewrite E3. cbn [mbind result_bind].
    pose proof (u32_at_at (p1 ++ p2 ++ p3) (p5 ++ p6) timestamp 12 eq_refl Hts) as E4. fold p4 in E4. rewrite <- !app_assoc in E4. rewrite E4. done. }
  cbn [mbind result_bind sr_ssrc sr_reports ntp_seconds ntp_fraction rtp_timestamp concat]. change (report_blocks []) with (@nil ReportBlock). rewrite add_receipts_nil, add_lifecycle_nil.
  unfold RtcpWire.read_feedback. cbn [packet_type packet_of sender_report_wire w_type Z.eqb Pos.eqb andb mbind result_bind receipts keyframes add_lifecycle]. by rewrite !(proj2 (Z.ltb_ge _ _)) by done.
Qed.
End Read.

(** ** Concrete packets *)

Module RtcpExample.
Definition twcc_bytes : list Z := [0x8f; 205; 0; 5; 0; 0; 0; 9; 0; 0; 0; 11; 0; 1; 0; 2; 0; 0; 0; 1; 0x20; 2; 1; 1].
Definition twcc_packet : RtcpPacket := mkRtcpPacket twcc_bytes 205 15 0.
Definition twcc : Twcc := mkTwcc (mkFeedback 9 11 [0; 1; 0; 2; 0; 0; 0; 1; 0x20; 2; 1; 1]) 1 2 0 1 10.

Lemma accepted_twcc_is_decoded_witness : twcc_parse twcc_packet = Ok twcc /\ exists statuses, twcc_collect 3 (twcc_statuses twcc) = Ok statuses /\ Zlen statuses = 2.
Proof.
  assert (twcc_parse twcc_packet = Ok twcc) as Hp by (vm_compute; reflexivity). split; [exact Hp|].
  destruct (accepted_twcc_is_decoded twcc_packet twcc) as (chunks & symbols & deltas & statuses & _ & _ & _ & _ & H1 & H2); [|exact Hp|exists statuses; exact (conj H1 H2)].
  repeat constructor; discriminate.
Defined.

Definition nack_bytes : list Z := [0x81; 205; 0; 3; 0; 0; 0; 9; 0; 0; 0; 7; 0; 100; 0; 5].
Definition nack_facts : ParsedRtcp := mkParsedRtcp [] [] [mkRepairRequest 7 100; mkRepairRequest 7 101; mkRepairRequest 7 103] [] [].
Lemma parsed_rtcp_is_bounded_witness : rtcp_parse 0 0 None nack_bytes = Ok nack_facts /\ Zlen (repair nack_facts) <= 8192.
Proof.
  assert (rtcp_parse 0 0 None nack_bytes = Ok nack_facts) as Hp by (vm_compute; reflexivity). split; [exact Hp|].
  destruct (parsed_rtcp_is_bounded 0 0 None nack_bytes nack_facts Hp) as (_ & _ & H & _). exact H.
Defined.

Definition sdes_packet : RtcpPacket := mkRtcpPacket [0x81; 202; 0; 3; 0; 0; 0; 9; 1; 2; 97; 98; 0; 0; 0; 0] 202 1 0.
Lemma source_descriptions_read_in_full_witness :
  body sdes_packet = chunks_wire ((fun c => (chunk_ssrc c, sdes_items c)) <$> sdes_chunks (mkSdes (body sdes_packet) 1)).
Proof.
  destruct (source_descriptions_read_in_full sdes_packet) as [H _]; [repeat constructor; discriminate|discriminate|].
  destruct (H (mkSdes (body sdes_packet) 1) ltac:(vm_compute; reflexivity)) as (_ & _ & E). exact E.
Defined.
End RtcpExample.
