(* ===== verification/ReceiveStream.v ===== *)
(** * Receiving a primary stream

    [crates/pulsebeam-rtc/src/receive_stream.rs]: which packets of a stream count
    as new, which are asked for again, and the reception report. Instants are
    nanoseconds; [u64] arithmetic is written out where it saturates. *)

From stdpp Require Import sorting.
From S2P Require Import Prelude RtpWire RtcpWire RtcpCodec.

Definition REORDER_WINDOW : Z := 256.
Definition NACK_DELAY : Z := 10 * 1000000.
Definition NACK_INTERVAL : Z := 50 * 1000000.
Definition REPORT_INTERVAL : Z := 1000 * 1000000.

Record Missing := mkMissing { m_sequence : Z; m_next : Z; attempts : Z }.

Record ReceiveStream := mkStream {
  base : option Z;
  highest : Z;
  seen : list Z;
  received : Z;
  missing : list Missing;
  nack : bool;
  clock_rate : Z;
  previous_arrival : option (Z * Z);
  jitter_q4 : Z;
  next_report : option Z;
  expected_prior : Z;
  received_prior : Z;
  last_sr : option (Z * Z);
}.

Definition stream_new (rate : Z) (nack : bool) : ReceiveStream :=
  mkStream None 0 (replicate (Z.to_nat REORDER_WINDOW) (umax 64)) 0 [] nack rate None 0 None 0 0 None.

(** [checked_add(d).unwrap_or(at)] *)
Definition later (at_ d : Z) : Z := default at_ (instant_checked_add at_ d).

(** The extended sequence number of a packet; [None] below zero and past [u64]. *)
Definition extend (s : ReceiveStream) (sequence : Z) : option Z :=
  match base s with
  | Some _ =>
      let e := highest s + cast_signed 16 (wrapping_sub 16 sequence (wrap 16 (highest s))) in
      if (0 <=? e) && (e <=? umax 64) then Some e else None
  | None => Some sequence
  end.

Definition retain_missing (e : Z) (l : list Missing) : list Missing :=
  filter (fun m => m_sequence m <> e /\ saturating_sub e (m_sequence m) < REORDER_WINDOW) l.

(** The [for] over the gap: the oldest entry makes room when there are 256. *)
Definition push_missing (l : list Missing) (sequence next : Z) : list Missing :=
  (if Zlen l =? REORDER_WINDOW then tail l else l) ++ [mkMissing sequence next 0].
Definition note_gap (s : ReceiveStream) (e arrival : Z) (l : list Missing) : list Missing :=
  if bool_decide (is_Some (base s)) && (highest s <? e) && nack s then
    let first := Z.max (saturating_add 64 (highest s) 1) (saturating_sub e (REORDER_WINDOW - 1)) in
    foldl (fun l q => push_missing l q (later arrival NACK_DELAY)) l (seqZ first (e - first))
  else l.

Definition next_jitter (s : ReceiveStream) (timestamp arrival : Z) : Z :=
  match previous_arrival s with
  | Some (previous, previous_timestamp) =>
      let elapsed := saturating_duration_since arrival previous / 1000 * clock_rate s / 1000000 in
      let ticks := cast_signed 32 (wrapping_sub 32 timestamp previous_timestamp) in
      let difference := Z.min (Z.abs (elapsed - ticks)) (umax 64) in
      saturating_sub (saturating_add 64 (jitter_q4 s) difference) (saturating_add 64 (jitter_q4 s) 8 / 16)
  | None => jitter_q4 s
  end.

Definition accept (s : ReceiveStream) (sequence timestamp arrival : Z) (repair : bool) : ReceiveStream * bool :=
  match extend s sequence with
  | None => (s, false)
  | Some e =>
      if REORDER_WINDOW <=? saturating_sub (highest s) e then (s, false)
      else
        let index := Z.to_nat (sequence `mod` REORDER_WINDOW) in
        if bool_decide (seen s !! index = Some e) then (s, false)
        else
          let measured := negb repair && (bool_decide (base s = None) || (highest s <? e)) in
          (mkStream (Some (match base s with Some b => Z.min b e | None => e end))
             (Z.max (highest s) e)
             (<[index := e]> (seen s))
             (saturating_add 64 (received s) 1)
             (note_gap s e arrival (retain_missing e (missing s)))
             (nack s) (clock_rate s)
             (if measured then Some (arrival, timestamp) else previous_arrival s)
             (if measured then next_jitter s timestamp arrival else jitter_q4 s)
             (Some (match next_report s with Some d => d | None => later arrival REPORT_INTERVAL end))
             (expected_prior s) (received_prior s) (last_sr s),
           true)
  end.

Definition sender_report (s : ReceiveStream) (seconds fraction arrival : Z) : ReceiveStream :=
  mkStream (base s) (highest s) (seen s) (received s) (missing s) (nack s) (clock_rate s) (previous_arrival s) (jitter_q4 s) (next_report s) (expected_prior s) (received_prior s)
    (Some (Z.lor (shl 32 seconds 16) (Z.shiftr fraction 16), arrival)).

Definition minimum (l : list Z) : option Z := foldr (fun x acc => Some (match acc with Some a => Z.min x a | None => x end)) None l.
Definition next_deadline (s : ReceiveStream) : option Z := minimum ((m_next <$> missing s) ++ match next_report s with Some d => [d] | None => [] end).

Definition with_missing (l : list Missing) (s : ReceiveStream) : ReceiveStream :=
  mkStream (base s) (highest s) (seen s) (received s) l (nack s) (clock_rate s) (previous_arrival s) (jitter_q4 s) (next_report s) (expected_prior s) (received_prior s) (last_sr s).
Definition with_next_report (at_ : Z) (s : ReceiveStream) : ReceiveStream :=
  mkStream (base s) (highest s) (seen s) (received s) (missing s) (nack s) (clock_rate s) (previous_arrival s) (jitter_q4 s) (Some at_) (expected_prior s) (received_prior s) (last_sr s).
Definition with_priors (e r : Z) (s : ReceiveStream) : ReceiveStream :=
  mkStream (base s) (highest s) (seen s) (received s) (missing s) (nack s) (clock_rate s) (previous_arrival s) (jitter_q4 s) (next_report s) e r (last_sr s).

(** The first missing packet that is due. *)
Definition due (s : ReceiveStream) (now : Z) : option (nat * Missing) := list_find (fun m => m_next m <= now) (missing s).

(** Asking again for the entry [m] at position [i]: given up after five times. *)
Definition ask (i : nat) (m : Missing) (now : Z) (l : list Missing) : list Missing :=
  let m' := mkMissing (m_sequence m) (later now NACK_INTERVAL) (saturating_add 8 (attempts m) 1) in
  if 5 <=? attempts m' then delete i l else <[i := m']> l.
Definition nack_packet (receiver source sequence : Z) : list Z := [0x81; 205; 0; 3] ++ be_encode 4 receiver ++ be_encode 4 source ++ be_encode 2 sequence ++ be_encode 2 0.

(** The numbers of a reception report: fraction lost, packets lost, and what the
    next report will compare with. *)
Definition expected_of (s : ReceiveStream) (b : Z) : Z := saturating_add 64 (saturating_sub (highest s) b) 1.
Definition lost_of (s : ReceiveStream) (b : Z) : Z := Z.min (saturating_sub (expected_of s b) (received s)) 0x7fffff.
Definition fraction_of (s : ReceiveStream) (b : Z) : Z :=
  let interval_expected := saturating_sub (expected_of s b) (expected_prior s) in
  let interval_lost := saturating_sub interval_expected (saturating_sub (received s) (received_prior s)) in
  if interval_expected =? 0 then 0 else Z.min (saturating_mul 64 interval_lost 256 / interval_expected) 255.
Definition report_packet (s : ReceiveStream) (b now receiver source : Z) : list Z :=
  let '(last, delay) := match last_sr s with
    | Some (stamp, arrival) => (stamp, Z.min (saturating_duration_since now arrival / 1000 * 65536 / 1000000) (umax 32))
    | None => (0, 0) end in
  [0x81; 201; 0; 7] ++ be_encode 4 receiver ++ be_encode 4 source ++ [fraction_of s b] ++ drop 1 (be_encode 4 (lost_of s b)) ++ be_encode 4 (wrap 32 (highest s))
  ++ be_encode 4 (Z.min (jitter_q4 s / 16) (umax 32)) ++ be_encode 4 last ++ be_encode 4 delay.

Definition poll_control (s : ReceiveStream) (now receiver source : Z) : ReceiveStream * option (list Z) :=
  match due s now with
  | Some (i, m) => (with_missing (ask i m now (missing s)) s, Some (nack_packet receiver source (wrap 16 (m_sequence m))))
  | None =>
      if match next_report s with Some d => now <? d | None => true end then (s, None)
      else
        let s := with_next_report (later now REPORT_INTERVAL) s in
        match base s with
        | None => (s, None)
        | Some b => (with_priors (expected_of s b) (received s) s, Some (report_packet s b now receiver source))
        end
  end.

(** ** Runs *)

(** Membership in a list extended at its end. *)
Ltac in_snoc := rewrite ?elem_of_app, ?list_elem_of_singleton; tauto.

(** Runs of a stream, with the extended numbers it accepted, in order, and those
    it asked for. *)
Inductive run : ReceiveStream -> list Z -> list Z -> Prop :=
  | run_new rate n : run (stream_new rate n) [] []
  | run_accepted s acc req sequence timestamp arrival repair e s' :
      run s acc req -> fits 16 sequence -> extend s sequence = Some e -> e < umax 64 ->
      accept s sequence timestamp arrival repair = (s', true) -> run s' (acc ++ [e]) req
  | run_refused s acc req sequence timestamp arrival repair s' :
      run s acc req -> fits 16 sequence -> accept s sequence timestamp arrival repair = (s', false) -> run s' acc req
  | run_sender_report s acc req seconds fraction arrival :
      run s acc req -> fits 32 seconds -> fits 32 fraction -> run (sender_report s seconds fraction arrival) acc req
  | run_poll s acc req now receiver source :
      run s acc req -> run (poll_control s now receiver source).1 acc (req ++ match due s now with Some (_, m) => [m_sequence m] | None => [] end).

(** ** The history of a stream *)

(** Where the slot of an extended number is. *)
Definition slot (e : Z) : nat := Z.to_nat (e `mod` REORDER_WINDOW).

Record history (s : ReceiveStream) (acc : list Z) : Prop := {
  h_len : length (seen s) = Z.to_nat REORDER_WINDOW;
  h_seen : forall i v, seen s !! i = Some v -> v = umax 64 \/ v ∈ acc;
  h_slots : forall e, e ∈ acc -> highest s - e < REORDER_WINDOW -> seen s !! slot e = Some e;
  h_range : Forall (fun e => 0 <= e < umax 64) acc;
  h_nodup : NoDup acc;
  h_base : match base s with
    | None => acc = [] /\ highest s = 0
    | Some b => b ∈ acc /\ highest s ∈ acc /\ Forall (fun e => b <= e <= highest s) acc end;
  h_received : received s = Z.min (Zlen acc) (umax 64);
  h_stamp : match last_sr s with Some (stamp, _) => fits 32 stamp | None => True end;
}.

Lemma extend_mod s sequence e : fits 16 sequence -> extend s sequence = Some e -> e `mod` REORDER_WINDOW = sequence `mod` REORDER_WINDOW /\ 0 <= e <= umax 64.
Proof.
  intros Hs H. unfold extend in H. destruct (base s) as [b|]; [|injection H as <-; unfold fits in Hs; change (2 ^ 16) with 65536 in Hs; split; [done|change (umax 64) with 18446744073709551615; lia]].
  set (d := wrapping_sub 16 sequence (wrap 16 (highest s))) in *. destruct (_ && _) eqn:E; [|done]. injection H as <-. apply andb_true_iff in E as [E1%Z.leb_le E2%Z.leb_le]. split; [|done].
  assert (fits 16 d) as Hd by (apply wrap_fits; lia). pose proof (cast_signed_mod 16 d ltac:(lia) Hd) as Hm. unfold d, wrapping_sub, wrap, REORDER_WINDOW in *. set (c := cast_signed 16 _) in *. change (2 ^ 16) with 65536 in *.
  clearbody c. dlia.
Qed.

Lemma slot_inj e e' : slot e = slot e' -> e <> e' -> REORDER_WINDOW <= Z.abs (e - e').
Proof. unfold slot, REORDER_WINDOW. intros H Hne. assert (e `mod` 256 = e' `mod` 256) as Hm by (pose proof (Z.mod_pos_bound e 256); pose proof (Z.mod_pos_bound e' 256); lia). dlia. Qed.

(** A packet within the window is new exactly when it was not accepted before. *)
Lemma history_new s acc sequence e : history s acc -> fits 16 sequence -> extend s sequence = Some e -> e < umax 64 -> highest s - e < REORDER_WINDOW ->
  seen s !! Z.to_nat (sequence `mod` REORDER_WINDOW) = Some e <-> e ∈ acc.
Proof.
  intros H Hs He Hmax Hw. destruct (extend_mod s sequence e Hs He) as [Hm _]. rewrite <- Hm. fold (slot e). split.
  - intros Hl. destruct (h_seen _ _ H _ _ Hl) as [->|]; [lia|done].
  - intros Hin. by apply (h_slots _ _ H).
Qed.

Lemma accept_true s sequence timestamp arrival repair s' e : accept s sequence timestamp arrival repair = (s', true) -> extend s sequence = Some e ->
  highest s - e < REORDER_WINDOW /\ seen s !! Z.to_nat (sequence `mod` REORDER_WINDOW) <> Some e /\
  base s' = Some (match base s with Some b => Z.min b e | None => e end) /\ highest s' = Z.max (highest s) e /\ seen s' = <[Z.to_nat (sequence `mod` REORDER_WINDOW) := e]> (seen s) /\
  received s' = saturating_add 64 (received s) 1 /\ missing s' = note_gap s e arrival (retain_missing e (missing s)) /\ nack s' = nack s /\ last_sr s' = last_sr s.
Proof.
  unfold accept. intros H He. rewrite He in H. destruct (Z.leb_spec REORDER_WINDOW (saturating_sub (highest s) e)) as [|Hw]; [done|]. case_bool_decide; [done|]. injection H as <-.
  unfold saturating_sub in Hw. split_and!; try done. lia.
Qed.

Lemma accept_false s sequence timestamp arrival repair s' : accept s sequence timestamp arrival repair = (s', false) -> s' = s.
Proof. unfold accept. destruct (extend s sequence); [|by intros [= <-]]. case_match; [by intros [= <-]|]. case_match; [by intros [= <-]|done]. Qed.

Lemma history_accept s acc sequence timestamp arrival repair e s' :
  history s acc -> fits 16 sequence -> extend s sequence = Some e -> e < umax 64 -> accept s sequence timestamp arrival repair = (s', true) -> history s' (acc ++ [e]).
Proof.
  intros H Hs He Hmax Ha. destruct (accept_true _ _ _ _ _ _ _ Ha He) as (Hw & Hnew & Eb & Eh & Es & Er & _ & _ & El). destruct (extend_mod s sequence e Hs He) as [Hm Hrange].
  rewrite (history_new s acc sequence e H Hs He Hmax Hw) in Hnew. rewrite <- Hm in Es. fold (slot e) in Es.
  assert (slot e < length (seen s))%nat as Hlt by (rewrite (h_len _ _ H); unfold slot, REORDER_WINDOW; pose proof (Z.mod_pos_bound e 256 ltac:(lia)); lia).
  assert (forall x, x ∈ acc -> x <= highest s) as Htop.
  { intros x Hx. pose proof (h_base _ _ H) as Hb. destruct (base s); [destruct Hb as (_ & _ & Hb); rewrite Forall_forall in Hb; specialize (Hb x Hx); lia|]. destruct Hb as [-> _]. by apply not_elem_of_nil in Hx. }
  split.
  - by rewrite Es, length_insert, (h_len _ _ H).
  - rewrite Es. intros i v Hv. rewrite list_lookup_insert_dec in Hv by done. case_decide; [injection Hv as <-; right; in_snoc|]. destruct (h_seen _ _ H i v Hv); [by left|right; in_snoc].
  - rewrite Es, Eh. intros x Hx Hwx. rewrite list_lookup_insert_dec by done. apply elem_of_app in Hx as [Hx|Hx%list_elem_of_singleton]; [|subst x; by rewrite decide_True by done].
    case_decide as Hsl; [|apply (h_slots _ _ H); [done|lia]]. exfalso. assert (x <> e) as Hne by (by intros ->). pose proof (slot_inj x e ltac:(by rewrite Hsl) Hne). specialize (Htop x Hx). unfold REORDER_WINDOW in *. lia.
  - apply Forall_app. split; [apply (h_range _ _ H)|]. repeat constructor; lia.
  - apply NoDup_snoc; [apply (h_nodup _ _ H)|done].
  - rewrite Eb, Eh. pose proof (h_base _ _ H) as Hb. destruct (base s) as [b|].
    + destruct Hb as (H1 & H2 & H3). split_and!.
      * destruct (Z.min_spec b e) as [[_ ->]|[_ ->]]; in_snoc.
      * destruct (Z.max_spec (highest s) e) as [[_ ->]|[_ ->]]; in_snoc.
      * apply Forall_app. split; [eapply Forall_impl; [exact H3|]; cbn; intros; lia|]. rewrite Forall_forall in H3. specialize (H3 b H1). repeat constructor; lia.
    + destruct Hb as [-> ->]. cbn [app]. replace (Z.max 0 e) with e by lia. split_and!; [in_snoc|in_snoc|]. repeat constructor; lia.
  - rewrite Er, (h_received _ _ H). unfold saturating_add, Zlen. rewrite length_app. cbn [length]. lia.
  - rewrite El. apply (h_stamp _ _ H).
Qed.

Lemma poll_keeps s now receiver source : let s' := (poll_control s now receiver source).1 in
  base s' = base s /\ highest s' = highest s /\ seen s' = seen s /\ received s' = received s /\ nack s' = nack s /\ last_sr s' = last_sr s /\
  missing s' = match due s now with Some (i, m) => ask i m now (missing s) | None => missing s end.
Proof. unfold poll_control. destruct (due s now) as [[i m]|]; [done|]. case_match; [done|]. cbn [base with_next_report]. by destruct (base s) eqn:E. Qed.

Lemma run_history s acc req : run s acc req -> history s acc.
Proof.
  induction 1 as [rate n|s acc req sequence timestamp arrival repair e s' Hr IH Hs He Hmax Ha|s acc req sequence timestamp arrival repair s' Hr IH Hs Ha|s acc req seconds fraction arrival Hr IH Hsec Hfr|s acc req now receiver source Hr IH].
  - split; cbn [seen base stream_new highest received last_sr]; try done.
    + intros j v Hv. apply lookup_replicate in Hv as [-> _]. by left.
    + intros e He. by apply not_elem_of_nil in He.
    + constructor.
  - by eapply history_accept.
  - by apply accept_false in Ha as ->.
  - destruct IH. split; try done. cbn [last_sr sender_report]. assert (fits 16 (Z.shiftr fraction 16)) as Hf by (unfold fits in *; rewrite Z.shiftr_div_pow2 by lia; change (2 ^ 32) with 4294967296 in *; change (2 ^ 16) with 65536; dlia).
    unfold shl, wrap. rewrite Z.shiftl_mul_pow2 by lia. change (2 ^ 32) with (2 ^ 16 * 2 ^ 16). rewrite Z.mul_mod_distr_r by (change (2 ^ 16) with 65536; lia).
    rewrite <- (Z.shiftl_mul_pow2 _ 16) by lia. rewrite lor_shift_add by (lia || exact Hf). pose proof (Z.mod_pos_bound seconds (2 ^ 16) ltac:(lia)). unfold fits in *. change (2 ^ 32) with (65536 * 65536). change (2 ^ 16) with 65536 in *. lia.
  - destruct (poll_keeps s now receiver source) as (E1 & E2 & E3 & E4 & _ & E6 & _). destruct IH. split; rewrite ?E1, ?E2, ?E3, ?E4, ?E6; done.
Qed.

(** ** What is asked for again *)

Definition asked (req : list Z) (q : Z) : Z := Zlen (filter (eq q) req).
Abbreviation wanted l := (fmap m_sequence l).

Record gaps (s : ReceiveStream) (acc req : list Z) : Prop := {
  g_off : (nack s = false \/ acc = []) -> missing s = [] /\ req = [];
  g_nodup : NoDup (wanted (missing s));
  g_entries : Forall (fun m => (m_sequence m ∉ acc) /\ highest s - REORDER_WINDOW < m_sequence m < highest s /\ attempts m = asked req (m_sequence m) /\ attempts m < 5) (missing s);
  g_asked : forall q, 0 < asked req q -> q < highest s /\ asked req q <= 5;
  g_all : nack s = true -> forall f q, head acc = Some f -> f < q < highest s -> highest s - q < REORDER_WINDOW -> q ∉ acc -> q ∈ wanted (missing s) \/ asked req q = 5;
}.

Lemma asked_snoc req q q' : asked (req ++ [q']) q = asked req q + (if decide (q = q') then 1 else 0).
Proof. unfold asked, Zlen. rewrite filter_app, length_app. cbn [filter list_filter]. case_decide; cbn [length]; lia. Qed.

Lemma push_all l next top n : forall from, NoDup (wanted l) -> Forall (fun m => top - REORDER_WINDOW < m_sequence m < from) l -> top - REORDER_WINDOW < from -> from + Z.of_nat n <= top ->
  foldl (fun l q => push_missing l q next) l (seqZ from (Z.of_nat n)) = l ++ ((fun q => mkMissing q next 0) <$> seqZ from (Z.of_nat n)).
Proof.
  revert l. induction n as [|n IH]; intros l from Hnd Hl Hfrom Htop; [by rewrite app_nil_r|].
  rewrite Nat2Z.inj_succ, seqZ_cons by lia. cbn [foldl fmap list_fmap]. rewrite Z.pred_succ. rewrite <- Z.add_1_r.
  assert (Zlen l <> REORDER_WINDOW) as Hlen.
  { pose proof (NoDup_Z_interval (wanted l) (top - REORDER_WINDOW + 1) (from - 1) Hnd) as H. rewrite length_fmap in H. unfold Zlen, REORDER_WINDOW in *.
    assert (Z.of_nat (length l) <= from - 1 - (top - 256 + 1) + 1); [|lia]. apply H; [|lia]. rewrite Forall_fmap. eapply Forall_impl; [exact Hl|]. cbn. lia. }
  unfold push_missing at 2. rewrite (proj2 (Z.eqb_neq _ _) Hlen). rewrite IH.
  - by rewrite <- app_assoc.
  - rewrite fmap_app. apply NoDup_snoc; [done|]. intros (m & Em & Hm)%list_elem_of_fmap. cbn in Em. rewrite Forall_forall in Hl. specialize (Hl m Hm). lia.
  - apply Forall_app. split; [eapply Forall_impl; [exact Hl|]; cbn; lia|]. repeat constructor; cbn; unfold REORDER_WINDOW in *; lia.
  - lia.
  - lia.
Qed.

Lemma retain_wanted e l q : q ∈ wanted (retain_missing e l) <-> q ∈ wanted l /\ q <> e /\ e - q < REORDER_WINDOW.
Proof.
  unfold retain_missing. rewrite !list_elem_of_fmap. split.
  - intros (m & -> & Hm). apply list_elem_of_filter in Hm as [[H1 H2] H3]. unfold saturating_sub in H2. split_and!; [by exists m|done|lia].
  - intros ((m & -> & Hm) & Hne & Hw). exists m. split; [done|]. apply list_elem_of_filter. unfold saturating_sub, REORDER_WINDOW in *. split_and!; (done || lia).
Qed.

Lemma retain_nodup e l : NoDup (wanted l) -> NoDup (wanted (retain_missing e l)).
Proof.
  unfold retain_missing. induction l as [|m l IH]; intros Hnd; [done|]. cbn [fmap list_fmap] in Hnd. apply NoDup_cons in Hnd as [Hm Hnd]. rewrite filter_cons. case_decide; [|by apply IH].
  cbn [fmap list_fmap]. apply NoDup_cons. split; [|by apply IH]. intros Hin. apply Hm. by apply retain_wanted in Hin as [? _].
Qed.

(** The list of missing packets after a packet was accepted. *)
Lemma note_gap_spec s acc req e arrival : history s acc -> gaps s acc req -> highest s - e < REORDER_WINDOW -> 0 <= e < umax 64 ->
  note_gap s e arrival (retain_missing e (missing s)) = retain_missing e (missing s) ++
    (if bool_decide (is_Some (base s)) && (highest s <? e) && nack s
     then let first := Z.max (highest s + 1) (e - 255) in (fun q => mkMissing q (later arrival NACK_DELAY) 0) <$> seqZ first (e - first) else []).
Proof.
  intros Hh Hg Hw He. unfold note_gap. destruct (_ && _) eqn:E; [|by rewrite app_nil_r]. apply andb_true_iff in E as [[Hb Hlt%Z.ltb_lt]%andb_true_iff Hn]. apply bool_decide_eq_true in Hb as [b Hb].
  pose proof (h_base _ _ Hh) as Hbase. rewrite Hb in Hbase. destruct Hbase as (_ & Htop & _). pose proof (proj1 (Forall_forall _ _) (h_range _ _ Hh) _ Htop) as Htr. cbn in Htr. unfold saturating_add, saturating_sub, REORDER_WINDOW in *.
  replace (Z.max (Z.min (highest s + 1) (umax 64)) (Z.max 0 (e - (256 - 1)))) with (Z.max (highest s + 1) (e - 255)) by lia. cbn zeta. set (first := Z.max (highest s + 1) (e - 255)).
  replace (e - first) with (Z.of_nat (Z.to_nat (e - first))) by lia. apply (push_all _ _ e); [apply retain_nodup, (g_nodup _ _ _ Hg)| |unfold REORDER_WINDOW; lia|lia].
  apply Forall_forall. intros m Hm. assert (m_sequence m ∈ wanted (retain_missing e (missing s))) as Hq by (by apply list_elem_of_fmap_2). apply retain_wanted in Hq as (_ & _ & Hq).
  apply list_elem_of_filter in Hm as [_ Hm]. pose proof (proj1 (Forall_forall _ _) (g_entries _ _ _ Hg) m Hm) as (_ & H2 & _). unfold REORDER_WINDOW in *. lia.
Qed.

Lemma gaps_accept s acc req sequence timestamp arrival repair e s' :
  history s acc -> gaps s acc req -> fits 16 sequence -> extend s sequence = Some e -> e < umax 64 -> accept s sequence timestamp arrival repair = (s', true) -> gaps s' (acc ++ [e]) req.
Proof.
  intros Hh Hg Hs He Hmax Ha. destruct (accept_true _ _ _ _ _ _ _ Ha He) as (Hw & Hnew & _ & Eh & _ & _ & Em & En & _). destruct (extend_mod s sequence e Hs He) as [_ Hrange].
  rewrite (history_new s acc sequence e Hh Hs He Hmax Hw) in Hnew. rewrite (note_gap_spec s acc req e arrival Hh Hg Hw ltac:(lia)) in Em. set (fresh := if _ && _ && _ then _ else _) in Em.
  assert (forall q, q ∈ wanted fresh <-> acc <> [] /\ nack s = true /\ highest s < q < e /\ e - q < REORDER_WINDOW) as Hfresh.
  { intros q. unfold fresh. pose proof (h_base _ _ Hh) as Hb. destruct (base s) as [b|] eqn:Eb; cycle 1.
    { cbn. split; [intros Hq; by apply not_elem_of_nil in Hq|]. intros (Hne & _). by destruct Hb. }
    rewrite bool_decide_true by (by eexists). assert (acc <> []) as Hne by (intros ->; destruct Hb as [Hb _]; by apply not_elem_of_nil in Hb). cbn [andb]. destruct (Z.ltb_spec (highest s) e) as [Hlt|Hge]; cycle 1.
    { cbn. split; [intros Hq; by apply not_elem_of_nil in Hq|]. intros (_ & _ & Hq & _). lia. }
    cbn [andb]. destruct (nack s); cycle 1. { cbn. split; [intros Hq; by apply not_elem_of_nil in Hq|]. by intros (_ & ? & _). }
    rewrite <- list_fmap_compose. cbn zeta. change (m_sequence ∘ _) with (fun q : Z => q). rewrite list_fmap_id, elem_of_seqZ. unfold REORDER_WINDOW. split; [intros; split_and!; (done || lia)|intros (_ & _ & ? & ?); lia]. }
  assert (Forall (fun m => attempts m = 0) fresh) as Hzero by (unfold fresh; destruct (_ && _ && _); [|constructor]; apply Forall_fmap, Forall_forall; done).
  assert (forall x, x ∈ acc -> x <= highest s) as Htop.
  { intros x Hx. pose proof (h_base _ _ Hh) as Hb. destruct (base s); [destruct Hb as (_ & _ & Hb); rewrite Forall_forall in Hb; specialize (Hb x Hx); lia|]. destruct Hb as [-> _]. by apply not_elem_of_nil in Hx. }
  assert (forall q, 0 < asked req q -> q < highest s) as Hreq by (intros q Hq; by apply (g_asked _ _ _ Hg)).
  assert (forall m, m ∈ missing s -> m_sequence m < highest s) as Hold by (intros m Hm; pose proof (proj1 (Forall_forall _ _) (g_entries _ _ _ Hg) m Hm) as (_ & ? & _); lia).
  split; rewrite ?Em, ?Eh, ?En.
  - intros [Hn|Hn]; [|by destruct acc]. destruct (g_off _ _ _ Hg (or_introl Hn)) as [Hm ->]. split; [|done]. rewrite Hm. cbn [retain_missing filter list_filter app].
    unfold fresh. by rewrite Hn, andb_false_r.
  - rewrite fmap_app. apply NoDup_app. split_and!; [apply retain_nodup, (g_nodup _ _ _ Hg)| |].
    + intros q Hq Hf. apply Hfresh in Hf as (_ & _ & Hf & _). apply retain_wanted in Hq as [(m & -> & Hm)%list_elem_of_fmap _]. specialize (Hold m Hm). lia.
    + unfold fresh. destruct (_ && _ && _); [|constructor]. rewrite <- list_fmap_compose. cbn zeta. change (m_sequence ∘ _) with (fun q : Z => q). rewrite list_fmap_id. apply NoDup_seqZ.
  - apply Forall_app. split; apply Forall_forall; intros m Hm.
    + assert (m_sequence m ∈ wanted (retain_missing e (missing s))) as Hq by (by apply list_elem_of_fmap_2). apply retain_wanted in Hq as (_ & Hne & Hwin). apply list_elem_of_filter in Hm as [_ Hm].
      pose proof (proj1 (Forall_forall _ _) (g_entries _ _ _ Hg) m Hm) as (H1 & H2 & H3 & H4). split_and!; [|lia|lia|done|done]. rewrite elem_of_app, list_elem_of_singleton. tauto.
    + assert (m_sequence m ∈ wanted fresh) as Hq by (by apply list_elem_of_fmap_2). apply Hfresh in Hq as (_ & _ & Hq & Hwin). rewrite Forall_forall in Hzero. rewrite (Hzero m Hm).
      assert (asked req (m_sequence m) = 0) as ->. { destruct (decide (0 < asked req (m_sequence m))) as [Hpos|]; [specialize (Hreq _ Hpos); lia|]. unfold asked, Zlen in *. lia. }
      split_and!; [|lia|lia|done|lia]. rewrite elem_of_app, list_elem_of_singleton. intros [Hin|]; [specialize (Htop _ Hin)|]; lia.
  - intros q Hq. destruct (g_asked _ _ _ Hg q Hq). split; [lia|done].
  - intros Hn f q Hf Hq Hwin Hni. rewrite elem_of_app, list_elem_of_singleton in Hni. rewrite fmap_app, elem_of_app.
    destruct acc as [|f0 acc']; [cbn in Hf; injection Hf as <-; pose proof (h_base _ _ Hh) as Hb; destruct (base s); [destruct Hb as [Hb _]; by apply not_elem_of_nil in Hb|]; destruct Hb as [_ Hb]; lia|]. cbn in Hf. injection Hf as <-.
    destruct (Z.lt_total q (highest s)) as [Hlt|[->|Hgt]].
    + destruct (g_all _ _ _ Hg Hn f0 q eq_refl ltac:(lia) ltac:(lia) ltac:(tauto)) as [Hin|]; [|by right]. left. left. apply retain_wanted. split_and!; [done|tauto|lia].
    + exfalso. pose proof (h_base _ _ Hh) as Hb. destruct (base s); [|by destruct Hb]. destruct Hb as (_ & Hb & _). tauto.
    + left. right. apply Hfresh. split_and!; (done || lia).
Qed.

Lemma ask_split l i m now : l !! i = Some m -> 0 <= attempts m < 5 -> exists l1 l2, l = l1 ++ m :: l2 /\
  ask i m now l = l1 ++ (if decide (attempts m = 4) then [] else [mkMissing (m_sequence m) (later now NACK_INTERVAL) (attempts m + 1)]) ++ l2.
Proof.
  intros Hl Ha. exists (take i l), (drop (S i) l). pose proof (take_drop_middle l i m Hl) as E. split; [done|]. pose proof (lookup_lt_Some _ _ _ Hl) as Hlt.
  assert (length (take i l) = i) as Li by (rewrite length_take; lia). unfold ask, saturating_add. cbn [attempts]. replace (Z.min (attempts m + 1) (umax 8)) with (attempts m + 1) by (change (umax 8) with 255; lia).
  set (l1 := take i l) in *. set (l2 := drop (S i) l) in *. clearbody l1 l2. subst l i. case_decide as H4.
  - rewrite (proj2 (Z.leb_le _ _)) by lia. apply delete_middle.
  - rewrite (proj2 (Z.leb_gt _ _)) by lia. rewrite <- (Nat.add_0_r (length l1)). by rewrite insert_app_r.
Qed.

Lemma gaps_poll s acc req now receiver source : gaps s acc req -> gaps (poll_control s now receiver source).1 acc (req ++ match due s now with Some (_, m) => [m_sequence m] | None => [] end).
Proof.
  intros Hg. destruct (poll_keeps s now receiver source) as (_ & E2 & _ & _ & E5 & _ & E7). destruct (due s now) as [[i m]|] eqn:Hd.
  2:{ rewrite app_nil_r. destruct Hg. split; rewrite ?E2, ?E5, ?E7; done. }
  apply list_find_Some in Hd as (Hl & _ & _). pose proof (list_elem_of_lookup_2 _ _ _ Hl) as Hm. pose proof (proj1 (Forall_forall _ _) (g_entries _ _ _ Hg) m Hm) as (H1 & H2 & H3 & H4).
  assert (0 <= attempts m) as H0 by (rewrite H3; unfold asked, Zlen; lia). destruct (ask_split (missing s) i m now Hl (conj H0 H4)) as (l1 & l2 & El & Ea). rewrite Ea in E7.
  set (mid_ := if decide (attempts m = 4) then _ else _) in *. pose proof (g_nodup _ _ _ Hg) as Hnd. rewrite El, fmap_app in Hnd. cbn [fmap list_fmap] in Hnd. apply NoDup_app in Hnd as (Hn1 & Hn12 & Hn2). apply NoDup_cons in Hn2 as [Hn2 Hn3].
  assert (Forall (fun m' => m_sequence m' <> m_sequence m) (l1 ++ l2)) as Hother.
  { apply Forall_app. split; apply Forall_forall; intros m' Hm' Heq.
    - eapply (Hn12 (m_sequence m')); [by apply list_elem_of_fmap_2|]. rewrite Heq. constructor.
    - apply Hn2. rewrite <- Heq. by apply list_elem_of_fmap_2. }
  pose proof (g_entries _ _ _ Hg) as Hent. rewrite El in Hent. apply Forall_app in Hent as [He1 He2]. apply Forall_cons in He2 as [_ He2].
  assert (forall l, Forall (fun m' => m_sequence m' <> m_sequence m) l ->
    Forall (fun m => (m_sequence m ∉ acc) /\ highest s - REORDER_WINDOW < m_sequence m < highest s /\ attempts m = asked req (m_sequence m) /\ attempts m < 5) l ->
    Forall (fun m' => (m_sequence m' ∉ acc) /\ highest s - REORDER_WINDOW < m_sequence m' < highest s /\ attempts m' = asked (req ++ [m_sequence m]) (m_sequence m') /\ attempts m' < 5) l) as Hkeep.
  { intros l Hne Hl'. rewrite Forall_forall in Hne, Hl'. apply Forall_forall. intros m' Hm'. rewrite asked_snoc, decide_False by (by apply Hne). rewrite Z.add_0_r. by apply Hl'. }
  apply Forall_app in Hother as [Ho1 Ho2]. split; rewrite ?E2, ?E5, ?E7.
  - intros Hoff. destruct (g_off _ _ _ Hg Hoff) as [Hnil _]. rewrite Hnil in Hm. by apply not_elem_of_nil in Hm.
  - rewrite !fmap_app. unfold mid_. case_decide; cbn [fmap list_fmap app]; apply NoDup_app; split_and!; try done.
    + intros x Hx Hx2. apply (Hn12 x Hx). by constructor.
    + by apply NoDup_cons.
  - rewrite !Forall_app. split_and!; [by apply Hkeep| |by apply Hkeep]. unfold mid_. case_decide; [constructor|]. repeat constructor; cbn [m_sequence attempts]; try done; try lia. rewrite asked_snoc, decide_True by done. lia.
  - intros q Hq. rewrite asked_snoc in *. case_decide as Heq; [subst q; lia|]. rewrite Z.add_0_r in *. by apply (g_asked _ _ _ Hg).
  - intros Hn f q Hf Hq Hwin Hni. rewrite asked_snoc. destruct (g_all _ _ _ Hg Hn f q Hf Hq Hwin Hni) as [Hin|H5].
    + rewrite El, fmap_app in Hin. cbn [fmap list_fmap] in Hin. rewrite !fmap_app, !elem_of_app. apply elem_of_app in Hin as [Hin|Hin]; [by left; left|]. apply elem_of_cons in Hin as [->|Hin]; [|left; right; by right].
      rewrite decide_True by done. unfold mid_. case_decide as H44; [right; lia|]. left. right. left. cbn. constructor.
    + case_decide as Heq; [|right; lia]. exfalso. subst q. lia.
Qed.

Lemma run_gaps s acc req : run s acc req -> gaps s acc req.
Proof.
  induction 1 as [rate n|s acc req sequence timestamp arrival repair e s' Hr IH Hs He Hmax Ha|s acc req sequence timestamp arrival repair s' Hr IH Hs Ha|s acc req seconds fraction arrival Hr IH Hsec Hfr|s acc req now receiver source Hr IH].
  - split; cbn [missing nack highest stream_new]; try done; constructor.
  - eapply gaps_accept; [by eapply run_history|done..].
  - by apply accept_false in Ha as ->.
  - by destruct IH.
  - by apply gaps_poll.
Qed.

(** ** What the stream promises *)

(** The number a 16-bit sequence number stands for: the first packet's is its
    own, a later one's is the nearest to the newest accepted. It is negative for
    a packet sent before a stream whose first number is small. *)
Definition stands_for (s : ReceiveStream) (sequence e : Z) : Prop :=
  match base s with
  | None => e = sequence
  | Some _ => e `mod` 2 ^ 16 = sequence /\ - 2 ^ 15 <= e - highest s < 2 ^ 15
  end.

Lemma extend_exact s sequence e :
  fits 16 sequence -> stands_for s sequence e -> e <= umax 64 -> extend s sequence = (if 0 <=? e then Some e else None).
Proof.
  unfold stands_for, extend. intros Hs He Hmax. destruct (base s) as [b|].
  - destruct He as [Hm Hr]. set (d := wrapping_sub 16 sequence (wrap 16 (highest s))).
    assert (fits 16 d) as Hd by (apply wrap_fits; lia). pose proof (cast_signed_mod 16 d ltac:(lia) Hd) as Hc.
    pose proof (cast_signed_range 16 d ltac:(lia) Hd) as Hcr. set (c := cast_signed 16 d) in *.
    assert (highest s + c = e) as ->.
    { unfold d, wrapping_sub, wrap in Hc. change (2 ^ 16) with 65536 in *. change (2 ^ 15) with 32768 in *. change (2 ^ (16 - 1)) with 32768 in *.
      clearbody c. dlia. }
    rewrite (proj2 (Z.leb_le e (umax 64))) by done. by rewrite andb_true_r.
  - subst e. unfold fits in Hs. by rewrite (proj2 (Z.leb_le _ _)) by lia.
Qed.


(** C21. Every gap is asked for again, and nothing else: in every run of a stream
    with negative acknowledgements, each packet after the first one that has not
    arrived and still lies within 256 of the newest either waits to be asked for,
    with its count of requests, or has been asked for five times; no packet is
    asked for more than five times, and a request is only ever for a packet that
    has not been accepted and can still be. *)
Theorem gaps_are_asked_for s acc req :
  run s acc req ->
  (nack s = true -> forall f q, head acc = Some f -> f < q < highest s -> highest s - q < REORDER_WINDOW -> q ∉ acc ->
    asked req q = 5 \/ exists m, m ∈ missing s /\ m_sequence m = q /\ attempts m = asked req q) /\
  (forall q, asked req q <= 5) /\
  (forall now i m, due s now = Some (i, m) -> (m_sequence m ∉ acc) /\ highest s - REORDER_WINDOW < m_sequence m < highest s) /\
  Zlen (missing s) < REORDER_WINDOW.
Proof.
  intros Hrun. pose proof (run_gaps _ _ _ Hrun) as Hg. split_and!.
  - intros Hn f q Hf Hq Hw Hni. destruct (g_all _ _ _ Hg Hn f q Hf Hq Hw Hni) as [(m & -> & Hm)%list_elem_of_fmap|]; [|by left]. right. exists m.
    pose proof (proj1 (Forall_forall _ _) (g_entries _ _ _ Hg) m Hm) as (_ & _ & ? & _). done.
  - intros q. destruct (decide (0 < asked req q)) as [Hq|]; [|lia]. by apply (g_asked _ _ _ Hg).
  - intros now i m Hd. apply list_find_Some in Hd as (Hl & _ & _). pose proof (proj1 (Forall_forall _ _) (g_entries _ _ _ Hg) m (list_elem_of_lookup_2 _ _ _ Hl)) as (? & ? & _). done.
  - pose proof (NoDup_Z_interval (wanted (missing s)) (highest s - REORDER_WINDOW + 1) (highest s - 1) (g_nodup _ _ _ Hg)) as H. rewrite length_fmap in H. unfold Zlen, REORDER_WINDOW in *.
    assert (Z.of_nat (length (missing s)) <= highest s - 1 - (highest s - 256 + 1) + 1); [|lia]. apply H; [|lia]. rewrite Forall_fmap. eapply Forall_impl; [apply (g_entries _ _ _ Hg)|]. cbn. unfold REORDER_WINDOW. lia.
Qed.

(** A stream that starts right after a wrap of its sequence numbers has no room
    below: the packets sent before its first one are refused, however recent. *)
Lemma refused_before_the_wrap s acc req f sequence timestamp arrival repair :
  run s acc req -> acc = [f] -> f < 256 -> fits 16 sequence -> 65280 <= sequence -> (accept s sequence timestamp arrival repair).2 = false.
Proof.
  intros Hrun -> Hf Hs Hlo. pose proof (run_history _ _ _ Hrun) as Hh. pose proof (h_base _ _ Hh) as Hb. destruct (base s) as [b|] eqn:Eb; [|by destruct Hb].
  destruct Hb as (_ & Htop & _). apply list_elem_of_singleton in Htop. pose proof (h_range _ _ Hh) as Hr. apply Forall_cons in Hr as [Hr _]. unfold accept.
  assert (extend s sequence = None) as ->; [|done]. unfold extend. rewrite Eb, Htop. unfold fits in Hs. change (2 ^ 16) with 65536 in Hs. rewrite (wrap_small 16 f) by (unfold fits; change (2 ^ 16) with 65536; lia).
  assert (cast_signed 16 (wrapping_sub 16 sequence f) = sequence - f - 65536 \/ cast_signed 16 (wrapping_sub 16 sequence f) = sequence - f) as Hc.
  { unfold wrapping_sub. rewrite wrap_small by (unfold fits; change (2 ^ 16) with 65536; lia). unfold cast_signed. change (2 ^ 16) with 65536. case_ifs; lia. }
  assert (cast_signed 16 (wrapping_sub 16 sequence f) = sequence - f - 65536) as ->.
  { destruct Hc as [Hc|Hc]; [done|]. exfalso. unfold wrapping_sub in Hc. rewrite wrap_small in Hc by (unfold fits; change (2 ^ 16) with 65536; lia). unfold cast_signed in Hc. change (2 ^ (16 - 1)) with 32768 in Hc. change (2 ^ 16) with 65536 in Hc. rewrite (proj2 (Z.ltb_ge _ _)) in Hc by lia. lia. }
  by rewrite (proj2 (Z.leb_gt 0 _)) by lia.
Qed.

(** Polling [n] times at one instant: the packets sent. *)
Fixpoint poll_n (n : nat) (s : ReceiveStream) (now receiver source : Z) : ReceiveStream * list (list Z) :=
  match n with
  | O => (s, [])
  | S n =>
      let '(s, out) := poll_control s now receiver source in
      let '(s, rest) := poll_n n s now receiver source in
      (s, option_list out ++ rest)
  end.

Lemma ask_due l i m now : list_find (fun m => m_next m <= now) l = Some (i, m) -> now < later now NACK_INTERVAL ->
  filter (fun m => m_next m <= now) l = m :: filter (fun m => m_next m <= now) (ask i m now l).
Proof.
  intros Hd Hlt. apply list_find_Some in Hd as (Hl & Hm & Hbefore). pose proof (take_drop_middle l i m Hl) as E. pose proof (lookup_lt_Some _ _ _ Hl) as Hil. assert (length (take i l) = i) as Li by (rewrite length_take; lia).
  assert (filter (fun m => m_next m <= now) (take i l) = []) as Hnil.
  { destruct (filter _ (take i l)) as [|x r] eqn:Ef; [done|]. exfalso. assert (x ∈ filter (fun m => m_next m <= now) (take i l)) as Hx by (rewrite Ef; constructor). apply list_elem_of_filter in Hx as [Hx1 (j & Hj)%list_elem_of_lookup_1].
    pose proof (lookup_lt_Some _ _ _ Hj) as Hlt'. rewrite lookup_take_lt in Hj by lia. by apply (Hbefore j x Hj); [lia|]. }
  unfold ask. set (m' := mkMissing _ _ _). set (l1 := take i l) in *. set (l2 := drop (S i) l) in *. clearbody l1 l2. subst l i. rewrite filter_app, Hnil, filter_cons, decide_True by done. cbn [app]. f_equal.
  case_match.
  - by rewrite delete_middle, filter_app, Hnil.
  - rewrite <- (Nat.add_0_r (length l1)), insert_app_r. cbn [insert list_insert]. rewrite filter_app, Hnil, filter_cons. rewrite decide_False; [done|]. cbn. lia.
Qed.

(** Nothing due is left waiting: polling as often as there are packets due
    asks for each of them once, oldest entry first, and then none is due. *)
Theorem due_packets_are_asked_for s now receiver source :
  now < later now NACK_INTERVAL ->
  let waiting := filter (fun m => m_next m <= now) (missing s) in
  let '(s', out) := poll_n (length waiting) s now receiver source in
  out = (fun m => nack_packet receiver source (wrap 16 (m_sequence m))) <$> waiting /\ due s' now = None.
Proof.
  intros Hlt. cbn zeta. remember (filter (fun m => m_next m <= now) (missing s)) as waiting eqn:Ew. revert s Ew. induction waiting as [|m waiting IH]; intros s Ew; cbn [length poll_n].
  - split; [done|]. unfold due. apply list_find_None. apply Forall_forall. intros m Hm Hd. assert (m ∈ filter (fun m => m_next m <= now) (missing s)) as Hx by (by apply list_elem_of_filter). rewrite <- Ew in Hx. by apply not_elem_of_nil in Hx.
  - destruct (due s now) as [[i m0]|] eqn:Hd.
    2:{ exfalso. apply list_find_None in Hd. rewrite Forall_forall in Hd. assert (m ∈ filter (fun m => m_next m <= now) (missing s)) as Hx by (rewrite <- Ew; constructor). apply list_elem_of_filter in Hx as [Hx1 Hx2]. by apply (Hd m). }
    pose proof (ask_due _ _ _ _ Hd Hlt) as Ea. rewrite <- Ew in Ea. injection Ea as <- Ea. unfold poll_control. rewrite Hd.
    specialize (IH (with_missing (ask i m now (missing s)) s) Ea). destruct (poll_n (length waiting) _ now receiver source) as [s' out]. destruct IH as [-> Hnone]. done.
Qed.

(** ** Its control packets *)

Lemma nack_packet_wire receiver source sequence : nack_packet receiver source sequence = wire (nack_wire receiver source sequence 0).
Proof. done. Qed.

Lemma wire_ok_fixed c t b n : 0 <= c < 32 -> length b = (4 * n)%nat -> Z.of_nat n < 16384 -> wire_ok (mkWire c t b).
Proof. intros Hc Hb Hn. split_and!; cbn [w_count w_body]; [lia|lia| |]. - rewrite Hb, Nat.mul_comm. apply Nat.Div0.mod_mul. - unfold Zlen, MAX_RTCP_PACKET_BYTES. lia. Qed.

(** What the peer reads of a control packet sent now. *)
Definition control_facts (s : ReceiveStream) (now receiver source : Z) (cname : list Z) : ParsedRtcp :=
  match due s now with
  | Some (_, m) => mkParsedRtcp [FactCname receiver cname] [] [mkRepairRequest source (wrap 16 (m_sequence m))] [] []
  | None => mkParsedRtcp [FactCname receiver cname] [] [] [] [mkReceipt source (wrap 32 (highest s))]
  end.

(** C24. The control packets of a stream read back at the peer: put into a
    compound under the receiver's name, a negative acknowledgement reads as a
    request for exactly the missing packet that was due, and a reception report as
    a receipt of the stream's newest extended number; nothing else is read. *)
Theorem control_packets_read_back s acc req now receiver source cname s' packet at_ epoch mode :
  run s acc req -> fits 32 receiver -> fits 32 source -> name_ok cname -> poll_control s now receiver source = (s', Some packet) ->
  exists out, compound packet receiver cname = Some out /\ rtcp_parse at_ epoch mode out = Ok (control_facts s now receiver source cname).
Proof.
  intros Hrun Hr Hs Hn Hp. unfold control_facts. unfold poll_control in Hp. destruct (due s now) as [[i m]|].
  - injection Hp as _ <-. rewrite nack_packet_wire. assert (fits 16 (wrap 16 (m_sequence m))) as Hq by (apply wrap_fits; lia). eapply compound_feedback; try done.
    by rewrite read_nack by done.
  - case_match; [done|]. cbn [base with_next_report] in Hp. destruct (base s) as [b|] eqn:Eb; [|done]. injection Hp as _ <-. set (s1 := with_next_report _ s).
    pose proof (h_stamp _ _ (run_history _ _ _ Hrun)) as Hst. unfold report_packet. change (last_sr s1) with (last_sr s).
    assert (exists last delay, (match last_sr s with Some (stamp, arrival) => (stamp, Z.min (saturating_duration_since now arrival / 1000 * 65536 / 1000000) (umax 32)) | None => (0, 0) end) = (last, delay) /\ fits 32 last /\ fits 32 delay) as (last & delay & -> & Hlast & Hdelay).
    { destruct (last_sr s) as [[stamp arrival]|]; [|by exists 0, 0]. eexists _, _. split_and!; [done|done|]. unfold fits. change (umax 32) with (2 ^ 32 - 1). unfold saturating_duration_since.
      assert (0 <= Z.max 0 (now - arrival) / 1000 * 65536 / 1000000) by (apply Z.div_pos; [|lia]; apply Z.mul_nonneg_nonneg; [apply Z.div_pos; lia|lia]). lia. }
    assert (fits 23 (lost_of s1 b)) as Hlost by (unfold fits, lost_of, saturating_sub; change (2 ^ 23) with 8388608; lia). assert (fits 32 (wrap 32 (highest s1))) as Hhi by (apply wrap_fits; lia).
    match goal with |- context [compound ?p _ _] => assert (p = wire (report_wire receiver (block_wire source (fraction_of s1 b) (lost_of s1 b) (wrap 32 (highest s1)) (Z.min (jitter_q4 s1 / 16) (umax 32)) last delay))) as -> by done end.
    set (w := report_wire receiver _). pose proof (read_report at_ epoch mode receiver source (fraction_of s1 b) (lost_of s1 b) (wrap 32 (highest s1)) (Z.min (jitter_q4 s1 / 16) (umax 32)) last delay nothing 0 Hs Hlost Hhi Hlast Hdelay ltac:(done) ltac:(done)) as Hread. fold w in Hread.
    assert (wire_ok w) as Hw by (by apply (wire_ok_fixed _ _ _ 7)).
    by refine (compound_report at_ epoch mode w receiver cname _ _ _ Hw (or_intror eq_refl) eq_refl Hr Hn _ Hread).
Qed.

(** ** A concrete stream *)

Module StreamExample.
Definition ms (n : Z) : Z := n * 1000000.
Definition s0 : ReceiveStream := stream_new 90000 true.
Definition s1 : ReceiveStream := (accept s0 65534 0 0 false).1.
Definition s2 : ReceiveStream := (accept s1 1 3000 (ms 33) false).1.
Definition s3 : ReceiveStream := (accept s2 0 2000 (ms 34) false).1.
Definition s4 : ReceiveStream := (poll_control s3 (ms 50) 9 7).1.

Lemma s1_accepts : extend s0 65534 = Some 65534 /\ accept s0 65534 0 0 false = (s1, true).
Proof. split; vm_compute; reflexivity. Qed.
Lemma s2_accepts : extend s1 1 = Some 65537 /\ accept s1 1 3000 (ms 33) false = (s2, true).
Proof. split; vm_compute; reflexivity. Qed.
Lemma s3_accepts : extend s2 0 = Some 65536 /\ accept s2 0 2000 (ms 34) false = (s3, true).
Proof. split; vm_compute; reflexivity. Qed.
Lemma run_s2 : run s2 [65534; 65537] [].
Proof.
  pose proof (run_accepted s0 [] [] 65534 0 0 false 65534 s1 (run_new 90000 true) ltac:(done) (proj1 s1_accepts) eq_refl (proj2 s1_accepts)) as H1.
  exact (run_accepted s1 [65534] [] 1 3000 (ms 33) false 65537 s2 H1 ltac:(done) (proj1 s2_accepts) eq_refl (proj2 s2_accepts)).
Qed.
Lemma run_s3 : run s3 [65534; 65537; 65536] [].
Proof. exact (run_accepted s2 [65534; 65537] [] 0 2000 (ms 34) false 65536 s3 run_s2 ltac:(done) (proj1 s3_accepts) eq_refl (proj2 s3_accepts)). Qed.
Lemma run_s4 : run s4 [65534; 65537; 65536] [65535].
Proof. exact (run_poll s3 _ _ (ms 50) 9 7 run_s3). Qed.


Lemma gaps_are_asked_for_witness : asked [65535] 65535 = 1 /\ exists m, m ∈ missing s4 /\ m_sequence m = 65535 /\ attempts m = 1.
Proof.
  destruct (gaps_are_asked_for s4 _ _ run_s4) as (Hall & _). split; [done|].
  destruct (Hall eq_refl 65534 65535 eq_refl ltac:(split; reflexivity) ltac:(reflexivity) ltac:(intros H; repeat (apply elem_of_cons in H as [H|H]; [discriminate|]); by apply not_elem_of_nil in H)) as [H|H]; [discriminate|exact H].
Defined.

Lemma due_packets_are_asked_for_witness : exists s', poll_n 2 s2 (ms 50) 9 7 = (s', [nack_packet 9 7 65535; nack_packet 9 7 0]) /\ due s' (ms 50) = None.
Proof.
  pose proof (due_packets_are_asked_for s2 (ms 50) 9 7 ltac:(reflexivity)) as H. cbn zeta in H.
  match type of H with context [poll_n ?n _ _ _ _] => change n with 2%nat in H end.
  assert (poll_n 2 s2 (ms 50) 9 7 = ((poll_n 2 s2 (ms 50) 9 7).1, [nack_packet 9 7 65535; nack_packet 9 7 0])) as E by (vm_compute; reflexivity).
  exists (poll_n 2 s2 (ms 50) 9 7).1. split; [exact E|]. rewrite E in H. destruct H as [_ H]. exact H.
Defined.

Lemma control_packets_read_back_witness : exists out, compound (nack_packet 9 7 65535) 9 [97; 98] = Some out /\
  rtcp_parse 0 0 None out = Ok (mkParsedRtcp [FactCname 9 [97; 98]] [] [mkRepairRequest 7 65535] [] []).
Proof.
  destruct (control_packets_read_back s3 _ _ (ms 50) 9 7 [97; 98] s4 (nack_packet 9 7 65535) 0 0 None run_s3 ltac:(done) ltac:(done)) as (out & H1 & H2).
  - split_and!; [repeat constructor; done|done|done|reflexivity].
  - vm_compute. reflexivity.
  - exists out. exact (conj H1 H2).
Defined.
End StreamExample.
