(* ===== verification/ReceiveFeedback.v ===== *)
(** * Feedback on received packets

    [crates/pulsebeam-rtc/src/receive_feedback.rs]: the receiver's history turned
    into RFC 8888 reports or transport-wide feedback. The latter is serialised by
    a library that is not part of the program, the parameter [write_twcc]: the
    bytes it makes of one report, [None] when it leaves the report in its queue
    or writes nothing. *)

From S2P Require Import Prelude RtpWire RtcpWire RtcpCodec FeedbackReceiver.

Definition HISTORY : Z := 512.
Definition REPORT_STATUSES : Z := 256.
Definition INTERVAL : Z := 50 * 1000000.
Definition EPOCH : Z := 0.
Definition TRANSPORT : Z := 0.

Definition config_of (mode : PacketFeedbackKind) : ReceiverConfig :=
  mkReceiverConfig HISTORY REPORT_STATUSES INTERVAL (match mode with TransportWide => Continuous TRANSPORT | Rfc8888 => Independent end).

Record ReceiveFeedback := mkReceiveFeedback {
  rf_mode : option PacketFeedbackKind;
  origin : Z;
  receiver : option Receiver;
  rf_feedback_count : Z;
}.
Definition with_receiver (r : Receiver) (f : ReceiveFeedback) : ReceiveFeedback := mkReceiveFeedback (rf_mode f) (origin f) (Some r) (rf_feedback_count f).

Definition feedback_new (mode : option PacketFeedbackKind) (at_ : Z) : ReceiveFeedback := mkReceiveFeedback mode at_ None 0.

(** Microseconds of a duration. *)
Definition as_micros (d : Z) : Z := d / 1000.
Definition ticks (d : Z) : Z := wrap 64 (as_micros d / 250).

Definition extend (highest : option Z) (sequence : Z) : Z :=
  match highest with
  | None => sequence + 65536
  | Some h => Z.max 0 (Z.min (h + cast_signed 16 (wrapping_sub 16 sequence (wrap 16 h))) (umax 64))
  end.

(** ** RFC 8888 *)

Definition ecn_bits (e : option Ecn) : Z := match e with Some Ect1 => 1 | Some Ect0 => 2 | Some Ce => 3 | _ => 0 end.
(** Age of a receipt in units of 1/1024 second. *)
Definition age (now : Z) (x : Receipt) : Z := as_micros (saturating_sub now (arrived_at x)) * 1024 / 1000000.
Definition metric (r : Receiver) (w : ReportWindow) (now q : Z) : Z :=
  match find_receipt r (w_space w) q with
  | None => 0
  | Some x => Z.lor (Z.lor 0x8000 (Z.shiftl (ecn_bits (ecn x)) 13)) (wrap 16 (Z.min (age now x) 0x1ffe))
  end.

Definition rfc8888_packet (r : Receiver) (now sender : Z) (w : ReportWindow) : option (list Z * Z) :=
  if w_space w <=? umax 32 then
    if count w <=? umax 16 then
      end_ ← checked_add 64 (base w) (count w);
      let tail_ := be_encode 4 sender ++ be_encode 4 (w_space w) ++ be_encode 2 (wrap 16 (base w)) ++ be_encode 2 (count w)
        ++ concat ((fun q => be_encode 2 (metric r w now q)) <$> seqZ (base w) (end_ - base w))
        ++ (if count w `mod` 2 =? 0 then [] else [0; 0])
        ++ be_encode 4 (wrap 32 (as_micros now * 65536 / 1000000)) in
      let words := wrap 16 ((4 + Zlen tail_) / 4 - 1) in
      Some ([0x8b; 205] ++ be_encode 2 words ++ tail_, count w)
    else None
  else None.

(** ** Transport-wide feedback *)

Inductive Delta := Small (v : Z) | Large (v : Z).
Record TwccReport := mkTwccReport {
  tr_sender : Z;
  tr_media : Z;
  tr_base : Z;
  tr_count : Z;
  tr_reference_time : Z;
  tr_feedback_count : Z;
  tr_chunks : list Z;
  tr_deltas : list Delta;
}.

(** The statuses and deltas of the packets [qs], up to the first whose delta does
    not fit. *)
Fixpoint twcc_statuses_of (r : Receiver) (space : Z) (qs : list Z) (previous : Z) : list Z * list Delta :=
  match qs with
  | [] => ([], [])
  | q :: qs =>
      match find_receipt r space q with
      | None => let '(ss, ds) := twcc_statuses_of r space qs previous in (0 :: ss, ds)
      | Some x =>
          let now := ticks (arrived_at x) in
          let delta := now - previous in
          if (- 32768 <=? delta) && (delta <=? 32767) then
            let '(ss, ds) := twcc_statuses_of r space qs now in
            if (0 <=? delta) && (delta <=? 255) then (1 :: ss, Small delta :: ds) else (2 :: ss, Large delta :: ds)
          else ([], [])
      end
  end.

(** [chunks(7)] of the statuses, each a vector of two-bit symbols. *)
Definition vector_bits (ss : list Z) : Z := foldl (fun bits '(i, s) => Z.lor bits (Z.shiftl s ((6 - i) * 2))) 0 (zip (seqZ 0 (Zlen ss)) ss).
Fixpoint vectors (fuel : nat) (ss : list Z) : list Z :=
  match fuel, ss with
  | O, _ | _, [] => []
  | S fuel, _ => vector_bits (take 7 ss) :: vectors fuel (drop 7 ss)
  end.

Section Twcc.
Context (write_twcc : TwccReport -> option (list Z)).

Definition twcc_packet (f : ReceiveFeedback) (r : Receiver) (now sender : Z) (w : ReportWindow) : option (list Z * Z) :=
  end_ ← checked_add 64 (base w) (count w);
  first ← first_receipt r w;
  if tag first <=? umax 32 then
    let first_time := if packet first <? end_ then arrived_at first else now in
    let reference_ticks := ticks first_time / 256 in
    let '(statuses, deltas) := twcc_statuses_of r (w_space w) (seqZ (base w) (count w)) (reference_ticks * 256) in
    let n := Zlen statuses in
    if n =? 0 then None
    else if n <=? umax 16 then
      bytes ← write_twcc (mkTwccReport sender (tag first) (wrap 16 (base w)) n (Z.land (wrap 32 reference_ticks) 0x00ffffff) (rf_feedback_count f) (vectors (length statuses) statuses) deltas);
      field ← get_range bytes 14 16;
      let serialized := be_decode field in
      if (serialized =? 0) || (n <? serialized) then None else Some (bytes, serialized)
    else None
  else None.

(** ** Operations *)

Section Storage.
(** [size_of] of an entry of the history. *)
Context (entry_size : Z).

Definition set_profile (f : ReceiveFeedback) (profile : PacketFeedbackKind) (limit : Z) (granted : option Z) : ReceiveFeedback * option Z :=
  if match rf_mode f with Some m => negb (bool_decide (m = profile)) | None => false end then (f, None)
  else
    match receiver f with
    | Some r =>
        match FeedbackReceiver.reserve entry_size r limit granted with
        | (r, Ok bytes) => (mkReceiveFeedback (Some profile) (origin f) (Some r) (rf_feedback_count f), Some bytes)
        | (r, Err _) => (with_receiver r f, None)
        end
    | None =>
        match receiver_new entry_size (config_of profile) EPOCH with
        | Err _ => (f, None)
        | Ok r =>
            match FeedbackReceiver.reserve entry_size r limit granted with
            | (r, Ok bytes) => (mkReceiveFeedback (Some profile) (origin f) (Some r) (rf_feedback_count f), Some bytes)
            | (_, Err _) => (f, None)
            end
        end
    end.

Definition reserve (f : ReceiveFeedback) (limit : Z) (granted : option Z) : ReceiveFeedback * option Z :=
  match rf_mode f with Some mode => set_profile f mode limit granted | None => (f, Some 0) end.

Definition storage_bytes (f : ReceiveFeedback) : Z := match receiver f with Some r => FeedbackReceiver.storage_bytes entry_size r | None => 0 end.
End Storage.

Definition observe (f : ReceiveFeedback) (now ssrc sequence : Z) (twcc : option Z) (mark : option Ecn) : ReceiveFeedback :=
  match receiver f with
  | None => f
  | Some r =>
      match (match rf_mode f with
             | Some TransportWide => (fun q => (TRANSPORT, q)) <$> twcc
             | Some Rfc8888 => Some (ssrc, sequence)
             | None => None end) with
      | None => f
      | Some (space, sequence) =>
          let q := extend (highest_of r space) sequence in
          with_receiver (FeedbackReceiver.observe r EPOCH (mkReceipt space q (saturating_duration_since now (origin f)) mark ssrc)).1 f
      end
  end.

Definition clear (f : ReceiveFeedback) : ReceiveFeedback := match receiver f with Some r => with_receiver (FeedbackReceiver.clear r EPOCH) f | None => f end.
Definition abort (f : ReceiveFeedback) : ReceiveFeedback := match receiver f with Some r => with_receiver (FeedbackReceiver.abort r) f | None => f end.
Definition deadline (f : ReceiveFeedback) : option Z := r ← receiver f; d ← FeedbackReceiver.deadline r; instant_checked_add (origin f) d.

Definition poll (f : ReceiveFeedback) (now sender : Z) : ReceiveFeedback * option (list Z) :=
  let elapsed := saturating_duration_since now (origin f) in
  match receiver f with
  | None => (f, None)
  | Some r =>
      match report r elapsed, rf_mode f with
      | Some w, Some mode =>
          match (match mode with TransportWide => twcc_packet f r elapsed sender w | Rfc8888 => rfc8888_packet r elapsed sender w end) with
          | None => (with_receiver (defer r elapsed (duration_add elapsed INTERVAL)).1 f, None)
          | Some (bytes, n) =>
              match accept r w n elapsed with
              | (r, Err _) => (with_receiver r f, None)
              | (r, Ok _) =>
                  (mkReceiveFeedback (rf_mode f) (origin f) (Some r)
                     (if bool_decide (mode = TransportWide) then wrapping_add 8 (rf_feedback_count f) 1 else rf_feedback_count f), Some bytes)
              end
          end
      | _, _ => (f, None)
      end
  end.
End Twcc.

(** ** Reports on the wire *)

(** What a report says of a packet. *)
Definition status_of (r : Receiver) (w : ReportWindow) (now q : Z) : Rfc8888Status :=
  match find_receipt r (w_space w) q with
  | None => NotReceived
  | Some x => Received (ecn_bits (ecn x)) (if age now x <? 0x1ffe then Ticks (age now x) else OverRange)
  end.

Lemma received_metric e off : 0 <= e < 4 -> 0 <= off <= 0x1ffe ->
  let m := Z.lor (Z.lor 0x8000 (Z.shiftl e 13)) off in fits 16 m /\ metric_status m = Ok (Received e (if off <? 0x1ffe then Ticks off else OverRange)).
Proof.
  intros He Ho. cbn zeta. assert (Z.lor 0x8000 (Z.shiftl e 13) = Z.shiftl (4 + e) 13) as ->.
  { assert (e = 0 \/ e = 1 \/ e = 2 \/ e = 3) as [->|[->|[->| ->]]] by lia; reflexivity. }
  rewrite lor_shift_add by (change (2 ^ 13) with 8192; lia). set (m := (4 + e) * 2 ^ 13 + off). assert (32768 <= m < 65536) as Hm by (unfold m; change (2 ^ 13) with 8192; lia).
  split; [unfold fits; change (2 ^ 16) with 65536; lia|]. unfold metric_status.
  assert (Z.land m 0x8000 <> 0) as Hbit.
  { intros H0. assert (Z.testbit (Z.land m 0x8000) 15 = false) as Hb by (by rewrite H0, Z.bits_0). rewrite Z.land_spec in Hb. change (Z.testbit 0x8000 15) with true in Hb. rewrite andb_true_r in Hb.
    rewrite Z.testbit_odd, Z.shiftr_div_pow2 in Hb by lia. replace (m / 2 ^ 15) with 1 in Hb; [done|]. apply (Z.div_unique_pos _ _ 1 (m - 32768)); change (2 ^ 15) with 32768; lia. }
  rewrite (proj2 (Z.eqb_neq _ _) Hbit).
  assert (Z.land m 0x1fff = off) as -> by (change 0x1fff with (2 ^ 13 - 1); rewrite land_ones_mod by lia; unfold m; apply split_low; change (2 ^ 13) with 8192; lia).
  assert (Z.land (Z.shiftr m 13) 3 = e) as -> by (unfold m; rewrite split_high by (change (2 ^ 13) with 8192; lia); change 3 with (2 ^ 2 - 1); rewrite land_ones_mod by lia; change (2 ^ 2) with 4; dlia).
  do 2 f_equal. destruct (Z.eqb_spec off 0x1ffe) as [->|]; [done|]. rewrite (proj2 (Z.eqb_neq off 0x1fff)) by lia. by rewrite (proj2 (Z.ltb_lt _ _)) by lia.
Qed.

Lemma age_nonneg now x : 0 <= age now x.
Proof. unfold age, as_micros, saturating_sub. apply Z.div_pos; [|lia]. apply Z.mul_nonneg_nonneg; [apply Z.div_pos; lia|lia]. Qed.

Lemma metric_spec r w now q : fits 16 (metric r w now q) /\ metric_status (metric r w now q) = Ok (status_of r w now q).
Proof.
  unfold metric, status_of. destruct (find_receipt r (w_space w) q) as [x|]; [|done]. pose proof (age_nonneg now x) as Ha.
  assert (wrap 16 (Z.min (age now x) 0x1ffe) = Z.min (age now x) 0x1ffe) as -> by (apply wrap_small; unfold fits; change (2 ^ 16) with 65536; lia).
  destruct (received_metric (ecn_bits (ecn x)) (Z.min (age now x) 0x1ffe)) as [H1 H2]; [destruct (ecn x) as [[]|]; cbn; lia|lia|]. split; [done|]. rewrite H2. do 2 f_equal.
  destruct (Z.ltb_spec (age now x) 0x1ffe); [rewrite Z.min_l, (proj2 (Z.ltb_lt _ _)) by lia; done|by rewrite Z.min_r by lia].
Qed.

Lemma mapM_statuses (f : list Z -> parsed Rfc8888Status) (l : list (list Z)) (g : list Z -> Rfc8888Status) : Forall (fun x => f x = Ok (g x)) l -> mapM f l = Ok (g <$> l).
Proof. induction 1 as [|x l Hx _ IH]; [done|]. cbn [mapM fmap list_fmap]. rewrite Hx. cbn [mbind result_bind]. by rewrite IH. Qed.

(** The body of a report with one block. *)
Definition report_body (sender ssrc begin n ts : Z) (ms : list Z) : list Z :=
  be_encode 4 sender ++ be_encode 4 ssrc ++ be_encode 2 begin ++ be_encode 2 n ++ concat (be_encode 2 <$> ms) ++ (if n `mod` 2 =? 0 then [] else [0; 0]) ++ be_encode 4 ts.

Lemma length_metrics ms : length (concat (be_encode 2 <$> ms)) = (length ms * 2)%nat.
Proof. induction ms as [|m ms IH]; [done|]. cbn [fmap list_fmap concat length]. rewrite length_app, length_be_encode, IH. lia. Qed.

Lemma read_report_block sender ssrc begin n ts ms (statuses : list Rfc8888Status) :
  fits 32 ssrc -> fits 16 begin -> 0 <= n <= MAX_RFC8888_REPORTS -> Zlen ms = n -> Forall (fits 16) ms -> Forall2 (fun m s => metric_status m = Ok s) ms statuses ->
  let b := report_body sender ssrc begin n ts ms in
  rfc8888_report b (length b - 4) 4 = Ok (mkRfc8888Report ssrc begin n statuses, (length b - 4)%nat).
Proof.
  intros Hs Hb Hn Hlen Hfit Hst b. assert (fits 16 n) as Hn16 by (unfold fits, MAX_RFC8888_REPORTS in *; change (2 ^ 16) with 65536; lia).
  set (pad := if n `mod` 2 =? 0 then [] else [0; 0]). assert (length b = (16 + length ms * 2 + length pad + 4 - 4)%nat) as Lb by (unfold b, report_body; fold pad; rewrite !length_app, !length_be_encode, length_metrics; lia).
  unfold rfc8888_report. set (M := concat (be_encode 2 <$> ms)) in *. assert (length M = (length ms * 2)%nat) as LM by apply length_metrics.
  assert (b = be_encode 4 sender ++ be_encode 4 ssrc ++ be_encode 2 begin ++ be_encode 2 n ++ M ++ pad ++ be_encode 4 ts) as Eb by done. rewrite Eb at 1. rewrite u32_at_at by (done || apply length_be_encode). cbn [mbind result_bind].
  assert (b = (be_encode 4 sender ++ be_encode 4 ssrc) ++ be_encode 2 begin ++ (be_encode 2 n ++ M ++ pad ++ be_encode 4 ts)) as E2 by (rewrite Eb; by rewrite <- !app_assoc).
  rewrite E2 at 1. rewrite u16_at_at by (done || by rewrite length_app, !length_be_encode). cbn [mbind result_bind].
  assert (b = (be_encode 4 sender ++ be_encode 4 ssrc ++ be_encode 2 begin) ++ be_encode 2 n ++ (M ++ pad ++ be_encode 4 ts)) as E3 by (rewrite Eb; by rewrite <- !app_assoc).
  rewrite E3 at 1. rewrite u16_at_at by (done || by rewrite !length_app, !length_be_encode). cbn [mbind result_bind].
  rewrite (require_ok (n <=? MAX_RFC8888_REPORTS)) by (apply Z.leb_le; lia). cbn [mbind result_bind]. assert (Z.to_nat n = length ms) as Enat by (unfold Zlen in Hlen; lia). rewrite Enat.
  rewrite (require_ok (_ <=? _)%nat) by (apply Nat.leb_le; lia). cbn [mbind result_bind].
  assert (b = (be_encode 4 sender ++ be_encode 4 ssrc ++ be_encode 2 begin ++ be_encode 2 n) ++ M ++ (pad ++ be_encode 4 ts)) as E4 by (rewrite Eb; by rewrite <- !app_assoc).
  rewrite E4 at 1. rewrite get_range_at by (rewrite ?length_app, ?length_be_encode; lia). cbn [ok_or mbind result_bind].
  assert (mapM (fun m => metric_status (be_decode m)) (as_chunks 2 M) = Ok statuses) as ->.
  { unfold M. rewrite as_chunks_concat; [|done|apply Forall_fmap, Forall_forall; intros; apply length_be_encode]. clear - Hfit Hst. induction Hst as [|m s ms ss Hm _ IH]; [done|]. apply Forall_cons in Hfit as [Hf Hfit].
    cbn [fmap list_fmap mapM]. rewrite (be_decode_encode 2 m Hf), Hm. cbn [mbind result_bind]. by rewrite (IH Hfit). }
  cbn [mbind result_bind]. destruct (Z.eqb_spec (n `mod` 2) 0) as [E0|E0].
  - cbn [negb mbind result_bind]. assert (length pad = 0%nat) as Lp by (by unfold pad). do 2 f_equal. rewrite Lb, Lp. lia.
  - cbn [negb]. assert (length pad = 2%nat) as Lp by (by unfold pad). assert (pad = be_encode 2 0) as Ep by (by unfold pad).
    assert (b = (be_encode 4 sender ++ be_encode 4 ssrc ++ be_encode 2 begin ++ be_encode 2 n ++ M) ++ be_encode 2 0 ++ be_encode 4 ts) as E5 by (rewrite Eb, Ep; by rewrite <- !app_assoc).
    rewrite E5 at 1. rewrite u16_at_at by (done || (rewrite !length_app, !length_be_encode; lia)). cbn [mbind result_bind require Z.eqb]. do 2 f_equal. rewrite Lb, Lp. lia.
Qed.

Definition rfc8888_wire (sender ssrc begin n ts : Z) (ms : list Z) : Wire := mkWire 11 205 (report_body sender ssrc begin n ts ms).

Lemma length_report_body sender ssrc begin n ts ms : Zlen ms = n -> exists k, length (report_body sender ssrc begin n ts ms) = (4 * k)%nat /\ (16 + 2 * length ms <= 4 * k <= 18 + 2 * length ms)%nat.
Proof.
  intros Hn. unfold report_body. rewrite !length_app, !length_be_encode, length_metrics. destruct (Z.eqb_spec (n `mod` 2) 0) as [E|E]; unfold Zlen in Hn; subst n.
  - exists (4 + length ms / 2)%nat. cbn [length]. pose proof (Nat.div_mod_eq (length ms) 2). assert (length ms mod 2 = 0)%nat as Hm by (apply Nat2Z.inj; by rewrite Nat2Z.inj_mod). set (q := (length ms / 2)%nat) in *. lia.
  - exists (4 + length ms / 2 + 1)%nat. cbn [length]. pose proof (Nat.div_mod_eq (length ms) 2). assert (length ms mod 2 = 1)%nat as Hm.
    { pose proof (Nat.mod_upper_bound (length ms) 2 ltac:(lia)). assert (length ms mod 2 <> 0)%nat; [|lia]. intros Hz. apply E. rewrite <- (Nat2Z.inj_mod _ 2), Hz. done. }
    set (q := (length ms / 2)%nat) in *. lia.
Qed.

Lemma read_rfc8888 at_ epoch sender ssrc begin n ts ms statuses s :
  fits 32 sender -> fits 32 ssrc -> fits 16 begin -> fits 32 ts -> 0 <= n <= MAX_FEEDBACK_STATUSES -> Zlen ms = n -> Forall (fits 16) ms -> Forall2 (fun m s => metric_status m = Ok s) ms statuses -> few s ->
  read_packet at_ epoch (Some Rfc8888) (packet_of (rfc8888_wire sender ssrc begin n ts ms)) s 0
  = Ok (add_feedback (mkBatch at_ epoch sender (ReportRfc8888 [mkRfc8888Report ssrc begin n statuses] ts)) s, n).
Proof.
  intros Hsd Hs Hb Ht Hn Hlen Hfit Hst Hfew. apply read_plain; try done. unfold read_feedback. cbn [packet_type rtcp_count packet_of rfc8888_wire w_type w_count Z.eqb Pos.eqb andb]. unfold rfc8888. cbn [packet_type rtcp_count packet_of rfc8888_wire w_type w_count Z.eqb Pos.eqb negb orb].
  rewrite wire_body. cbn [w_body rfc8888_wire]. destruct (length_report_body sender ssrc begin n ts ms Hlen) as (k & Lk & Hk). pose proof (read_report_block sender ssrc begin n ts ms statuses Hs Hb ltac:(unfold MAX_FEEDBACK_STATUSES, MAX_RFC8888_REPORTS in *; lia) Hlen Hfit Hst) as Hblock. cbn zeta in Hblock.
  set (b := report_body sender ssrc begin n ts ms) in *. rewrite (require_ok (_ <=? _)%nat) by (apply Nat.leb_le; lia). cbn [mbind result_bind].
  assert (u32_at b 0 = Ok sender) as -> by (by apply u32_at_head). cbn [mbind result_bind].
  destruct (length b) as [|len'] eqn:Elen; [lia|]. destruct len' as [|len]; [lia|]. rewrite <- Elen in *. cbn [rfc8888_reports]. rewrite (proj2 (Nat.ltb_lt _ _)) by lia. rewrite Hblock. cbn [mbind result_bind].
  rewrite Elen at 1. cbn [rfc8888_reports]. rewrite (proj2 (Nat.ltb_ge _ _)) by lia. cbn [mbind result_bind]. rewrite (require_ok (_ =? _)%nat) by apply Nat.eqb_refl. cbn [mbind result_bind].
  assert (u32_at b (length b - 4) = Ok ts) as ->.
  { set (init := be_encode 4 sender ++ be_encode 4 ssrc ++ be_encode 2 begin ++ be_encode 2 n ++ concat (be_encode 2 <$> ms) ++ (if n `mod` 2 =? 0 then [] else [0; 0])).
    assert (b = init ++ be_encode 4 ts ++ []) as -> by (unfold b, report_body, init; rewrite app_nil_r, <- !app_assoc; done). apply u32_at_at; [|done]. rewrite !length_app, length_be_encode. cbn [length]. lia. }
  cbn [mbind result_bind ok_or]. rewrite bool_decide_true by done. unfold status_count. cbn [mbind result_bind p_reports p_sender_ssrc p_timestamp foldr rep_statuses].
  assert (Zlen statuses = n) as -> by (apply Forall2_length in Hst; unfold Zlen in *; lia). rewrite (proj2 (Z.ltb_ge _ _)) by lia. do 2 f_equal. lia.
Qed.

(** ** Runs *)

Inductive feedback_run (size : Z) (write : TwccReport -> option (list Z)) : ReceiveFeedback -> Prop :=
  | feedback_run_new mode at_ : feedback_run size write (feedback_new mode at_)
  | feedback_run_profile f profile limit granted : feedback_run size write f -> feedback_run size write (set_profile size f profile limit granted).1
  | feedback_run_reserve f limit granted : feedback_run size write f -> feedback_run size write (reserve size f limit granted).1
  | feedback_run_observe f now ssrc sequence twcc mark : feedback_run size write f -> fits 32 ssrc -> fits 16 sequence -> (forall q, twcc = Some q -> fits 16 q) ->
      feedback_run size write (observe f now ssrc sequence twcc mark)
  | feedback_run_clear f : feedback_run size write f -> feedback_run size write (clear f)
  | feedback_run_abort f : feedback_run size write f -> feedback_run size write (abort f)
  | feedback_run_poll f now sender : feedback_run size write f -> feedback_run size write (poll write f now sender).1.

(** A receiver made for a mode, with sources as spaces in RFC 8888. *)
Definition made_for (mode : PacketFeedbackKind) (r : Receiver) : Prop :=
  receiver_ok r /\ config r = config_of mode /\ (mode = Rfc8888 -> Forall (fun e => fits 32 (space_of e)) (receipts r)).
Definition feedback_ok (f : ReceiveFeedback) : Prop := forall r, receiver f = Some r -> exists mode, rf_mode f = Some mode /\ made_for mode r.

Lemma observe_config r e x : config (FeedbackReceiver.observe r e x).1 = config r.
Proof. unfold FeedbackReceiver.observe, admit_receipt. repeat case_match; done. Qed.
Lemma accept_config r w n now : config (accept r w n now).1 = config r.
Proof. unfold accept. repeat case_match; done. Qed.
Lemma defer_config r now until : config (defer r now until).1 = config r.
Proof. unfold defer. repeat case_match; done. Qed.
Lemma reserve_config size r limit granted : config (FeedbackReceiver.reserve size r limit granted).1 = config r.
Proof. unfold FeedbackReceiver.reserve. repeat case_match; done. Qed.
Lemma reserve_receipts size r limit granted : receipts (FeedbackReceiver.reserve size r limit granted).1 = receipts r.
Proof. unfold FeedbackReceiver.reserve. repeat case_match; done. Qed.

Lemma observe_spaces r e x : order (config r) = Independent -> Forall (fun e => fits 32 (space_of e)) (receipts r) -> fits 32 (r_space x) -> Forall (fun e => fits 32 (space_of e)) (receipts (FeedbackReceiver.observe r e x).1).
Proof.
  intros Ho Hr Hx. unfold FeedbackReceiver.observe. rewrite Ho. repeat case_match; try done. cbn [receipts fst]. apply Forall_forall. intros e0 He0.
  unfold admit_receipt in He0. cbn [fst receipts] in He0. apply elem_insert_at in He0 as [->|He0]; [done|]. rewrite Forall_forall in Hr. case_match; [|by apply Hr].
  apply Hr. destruct (receipts r) as [|y l]; [done|]. by constructor.
Qed.

Lemma accept_spaces r w n now : Forall (fun e => fits 32 (space_of e)) (receipts r) -> Forall (fun e => fits 32 (space_of e)) (receipts (accept r w n now).1).
Proof.
  intros Hr. unfold accept. repeat case_match; try done; cbn [fst receipts]; apply Forall_forall; intros e He; apply elem_settled in He as (e0 & He0 & _ & ->); rewrite Forall_forall in Hr; by apply Hr.
Qed.
Lemma defer_spaces r now until : Forall (fun e => fits 32 (space_of e)) (receipts r) -> Forall (fun e => fits 32 (space_of e)) (receipts (defer r now until).1).
Proof. intros Hr. unfold defer. repeat case_match; done. Qed.

Lemma extend_range h q : fits 16 q -> 0 <= extend h q <= umax 64.
Proof. unfold extend, fits. change (umax 64) with 18446744073709551615. change (2 ^ 16) with 65536. intros Hq. destruct h; lia. Qed.

Lemma new_receiver_ok size mode r : receiver_new size (config_of mode) EPOCH = Ok r -> made_for mode r.
Proof.
  intros H. split_and!.
  - apply (history_reachable_ok size (config_of mode) EPOCH r []); [split; cbn; done|done|constructor].
  - unfold receiver_new in H. case_match; [done|]. by injection H as <-.
  - intros _. unfold receiver_new in H. case_match; [done|]. injection H as <-. constructor.
Qed.

Lemma made_for_reserve size mode r limit granted : made_for mode r -> made_for mode (FeedbackReceiver.reserve size r limit granted).1.
Proof.
  intros (H1 & H2 & H3). split_and!; [|by rewrite reserve_config|by rewrite reserve_receipts]. unfold FeedbackReceiver.reserve. repeat case_match; try done; by apply with_backing_ok.
Qed.

Lemma set_profile_ok size f profile limit granted : feedback_ok f -> feedback_ok (set_profile size f profile limit granted).1.
Proof.
  intros Hf r Hr. unfold set_profile in *. destruct (match rf_mode f with Some m => _ | None => false end) eqn:Em; [by apply Hf|]. destruct (receiver f) as [r0|] eqn:E0.
  - destruct (Hf r0 E0) as (mode & Hm & Hmade). pose proof (made_for_reserve size mode r0 limit granted Hmade) as Hres. rewrite Hm in Em. apply negb_false_iff, bool_decide_eq_true in Em. subst mode.
    destruct (FeedbackReceiver.reserve size r0 limit granted) as [r1 [bytes|]]; cbn in *; injection Hr as <-; by exists profile.
  - destruct (receiver_new size (config_of profile) EPOCH) as [r0|] eqn:En; [|cbn in Hr; congruence]. pose proof (made_for_reserve size profile r0 limit granted (new_receiver_ok _ _ _ En)) as Hres.
    destruct (FeedbackReceiver.reserve size r0 limit granted) as [r1 [bytes|]]; cbn in *; [injection Hr as <-; by exists profile|congruence].
Qed.

Lemma report_window r now w : receiver_ok r -> report r now = Some w -> window_ok r w.
Proof.
  intros Hok Hw. pose proof Hw as Hw'. unfold report in Hw'. destruct (FeedbackReceiver.deadline r) as [d|] eqn:Ed; [|done]. cbn [mbind option_bind] in Hw'. destruct (Z.ltb_spec now d) as [|Hle]; [done|].
  destruct (report_due r d now Hok Ed Hle) as (w' & Hw2 & Hwk). congruence.
Qed.

(** What the library writes is bytes. *)
Definition writes_bytes (write : TwccReport -> option (list Z)) : Prop := forall t l, write t = Some l -> bytes_ok l.

Lemma twcc_packet_count write f r now sender w bytes n : writes_bytes write -> twcc_packet write f r now sender w = Some (bytes, n) -> 0 <= n.
Proof.
  intros Hw H. unfold twcc_packet in H. destruct (checked_add 64 _ _); [|done]. cbn [mbind option_bind] in H. destruct (first_receipt r w) as [x|]; [|done]. cbn [mbind option_bind] in H. case_match; [|done].
  destruct (twcc_statuses_of _ _ _ _) as [ss ds]. case_match; [done|]. case_match; [|done]. destruct (write _) as [bs|] eqn:Ew; [|done]. cbn [mbind option_bind] in H.
  destruct (get_range bs 14 16) as [fld|] eqn:Eg; [|done]. cbn [mbind option_bind] in H. case_match; [done|]. injection H as _ <-. apply Hw in Ew. unfold get_range in Eg. cbn [Nat.leb] in Eg. apply (slice_bytes _ _ _ _ Ew) in Eg. apply be_decode_fits in Eg. unfold fits in Eg. lia.
Qed.

Lemma run_feedback_ok size write f : writes_bytes write -> feedback_run size write f -> feedback_ok f.
Proof.
  intros Hwrite. induction 1 as [mode at_|f profile limit granted _ IH|f limit granted _ IH|f now ssrc sequence twcc mark _ IH Hs Hq Ht|f _ IH|f _ IH|f now sender _ IH].
  - by intros r Hr.
  - by apply set_profile_ok.
  - unfold reserve. destruct (rf_mode f); [by apply set_profile_ok|done].
  - unfold observe. destruct (receiver f) as [r0|] eqn:E0; [|done]. destruct (IH r0 E0) as (mode & Hm & H1 & H2 & H3). rewrite Hm.
    destruct (match mode with TransportWide => _ | Rfc8888 => _ end) as [[space q]|] eqn:Eq; [|done]. intros r Hr. cbn in Hr. injection Hr as <-. exists mode. split; [done|].
    assert (fits 16 q /\ (mode = Rfc8888 -> space = ssrc)) as [Hfq Hsp] by (destruct mode; [destruct twcc; [|done]; injection Eq as <- <-; split; [by apply Ht|done]|injection Eq as <- <-; done]). split_and!.
    + apply observe_ok; [done|]. by apply extend_range.
    + by rewrite observe_config.
    + intros Hmode. apply observe_spaces; [rewrite H2; by subst mode|by apply H3|cbn; by rewrite Hsp].
  - unfold clear. destruct (receiver f) as [r0|] eqn:E0; [|done]. destruct (IH r0 E0) as (mode & Hm & H1 & H2 & H3). intros r Hr. cbn in Hr. injection Hr as <-. exists mode. split; [done|]. split_and!; [by apply clear_ok|done|constructor].
  - unfold abort. destruct (receiver f) as [r0|] eqn:E0; [|done]. destruct (IH r0 E0) as (mode & Hm & H1 & H2 & H3). intros r Hr. cbn in Hr. injection Hr as <-. exists mode. split; [done|]. split_and!; [by apply with_backing_ok, clear_ok|done|constructor].
  - unfold poll. destruct (receiver f) as [r0|] eqn:E0; [|done]. destruct (IH r0 E0) as (mode & Hm & H1 & H2 & H3). rewrite Hm. destruct (report r0 _) as [w|] eqn:Ew; [|done]. set (now' := saturating_duration_since now (origin f)) in *.
    assert (feedback_ok (with_receiver (defer r0 now' (duration_add now' INTERVAL)).1 f)) as Hdefer.
    { intros r Hr. cbn in Hr. injection Hr as <-. exists mode. split; [done|]. split_and!; [by apply defer_ok|by rewrite defer_config|]. intros Hmode. apply defer_spaces, H3, Hmode. }
    destruct (match mode with TransportWide => _ | Rfc8888 => _ end) as [[bytes n]|] eqn:Ee; [|done].
    assert (0 <= n) as Hn.
    { destruct mode; [by eapply twcc_packet_count|]. pose proof (wk_count _ _ (report_window r0 now' w H1 Ew)) as Hc. unfold rfc8888_packet in Ee. case_match; [|done]. case_match; [|done]. destruct (checked_add 64 _ _); [|done]. cbn in Ee. injection Ee as _ <-. lia. }
    pose proof (accept_ok r0 w n now' H1 Hn) as Ha. pose proof (accept_config r0 w n now') as Hac. pose proof (accept_spaces r0 w n now') as Has.
    destruct (accept r0 w n now') as [r1 [u|e]]; cbn [fst] in *; intros r Hr; cbn in Hr; injection Hr as <-; exists mode; (split; [done|]); split_and!; try done; try congruence; auto.
Qed.

(** ** What the peer reads *)

Lemma rfc8888_packet_wire r now sender w : window_ok r w -> count w <= REPORT_STATUSES -> fits 32 (w_space w) ->
  rfc8888_packet r now sender w =
    Some (wire (rfc8888_wire sender (w_space w) (wrap 16 (base w)) (count w) (wrap 32 (as_micros now * 65536 / 1000000)) (metric r w now <$> seqZ (base w) (count w))), count w).
Proof.
  intros Hw Hc Hs. pose proof (wk_count _ _ Hw) as Hc1. unfold REPORT_STATUSES in Hc. unfold rfc8888_packet. rewrite (proj2 (Z.leb_le _ _)) by (unfold fits, umax in *; lia). rewrite (proj2 (Z.leb_le _ _)) by (change (umax 16) with 65535; lia).
  unfold checked_add. rewrite (proj2 (Z.leb_le _ _)) by (apply (wk_end _ _ Hw)). cbn [mbind option_bind]. replace (base w + count w - base w) with (count w) by lia. f_equal. f_equal.
  unfold wire, rfc8888_wire. cbn [w_count w_type w_body]. set (ts := wrap 32 _). set (ms := metric r w now <$> seqZ (base w) (count w)).
  assert (concat ((fun q => be_encode 2 (metric r w now q)) <$> seqZ (base w) (count w)) = concat (be_encode 2 <$> ms)) as -> by (unfold ms; by rewrite <- list_fmap_compose).
  fold (report_body sender (w_space w) (wrap 16 (base w)) (count w) ts ms).
  assert (Zlen ms = count w) as Lm by (unfold ms, Zlen; rewrite length_fmap, length_seqZ; lia). destruct (length_report_body sender (w_space w) (wrap 16 (base w)) (count w) ts ms Lm) as (k & Lk & Hk).
  set (b := report_body _ _ _ _ _ _) in *. assert (wrap 16 ((4 + Zlen b) / 4 - 1) = Zlen b / 4) as ->; [|done]. unfold Zlen in *. rewrite Lk. replace (4 + Z.of_nat (4 * k)) with ((Z.of_nat k + 1) * 4) by lia. replace (Z.of_nat (4 * k)) with (Z.of_nat k * 4) by lia.
  rewrite !Z.div_mul by lia. rewrite Z.add_simpl_r. apply wrap_small. unfold fits. change (2 ^ 16) with 65536. lia.
Qed.

Lemma due_report_parses size write f r d now sender cname at_ epoch :
  writes_bytes write -> feedback_run size write f -> rf_mode f = Some Rfc8888 -> receiver f = Some r ->
  let elapsed := saturating_duration_since now (origin f) in
  FeedbackReceiver.deadline r = Some d -> d <= elapsed -> version r < umax 64 -> fits 32 sender -> name_ok cname ->
  exists w r' bytes out, 0 < count w <= REPORT_STATUSES /\ report r elapsed = Some w /\ accept r w (count w) elapsed = (r', Ok ()) /\
    poll write f now sender = (with_receiver r' f, Some bytes) /\ compound bytes sender cname = Some out /\
    rtcp_parse at_ epoch (Some Rfc8888) out = Ok (mkParsedRtcp [FactCname sender cname]
      [mkBatch at_ epoch sender (ReportRfc8888
        [mkRfc8888Report (w_space w) (wrap 16 (base w)) (count w) (status_of r w elapsed <$> seqZ (base w) (count w))]
        (wrap 32 (as_micros elapsed * 65536 / 1000000)))] [] [] []).
Proof.
  intros Hwrite Hrun Hmode Hr elapsed Hd Hle Hver Hsd Hn. destruct (run_feedback_ok _ _ _ Hwrite Hrun r Hr) as (mode & Hm & Hok & Hcfg & Hspaces). rewrite Hmode in Hm. injection Hm as <-. specialize (Hspaces eq_refl).
  destruct (report_due r d elapsed Hok Hd Hle) as (w & Hw & Hwk). pose proof (wk_count _ _ Hwk) as Hcount. rewrite Hcfg in Hcount. cbn [max_report_statuses config_of] in Hcount. assert (count w <= REPORT_STATUSES) as Hcount' by lia. pose proof (wk_end _ _ Hwk) as Hend.
  assert (fits 32 (w_space w)) as Hs32.
  { pose proof (wk_order _ _ Hwk) as Ho. rewrite Hcfg in Ho. cbn [order config_of] in Ho. destruct Ho as (first & (e & He & _ & <- & _) & _). rewrite Forall_forall in Hspaces. by apply Hspaces. }
  pose proof (rfc8888_packet_wire r elapsed sender w Hwk ltac:(lia) Hs32) as Hpkt. set (ms := metric r w elapsed <$> seqZ (base w) (count w)) in *. set (ts := wrap 32 _) in *.
  assert (exists r', accept r w (count w) elapsed = (r', Ok ())) as [r' Hacc].
  { unfold accept. rewrite bool_decide_true by done. cbn [negb]. rewrite (proj2 (Z.eqb_neq _ _)), (proj2 (Z.ltb_ge _ _)) by lia. cbn [orb]. unfold checked_add at 1. rewrite (proj2 (Z.leb_le _ _)) by lia.
    unfold checked_add. rewrite (proj2 (Z.leb_le _ _)) by lia. destruct (match order (config r) with Continuous _ => _ | Independent => _ end) as [nx more]. by eexists. }
  assert (Zlen ms = count w) as Lm by (unfold ms, Zlen; rewrite length_fmap, length_seqZ; lia).
  assert (wire_ok (rfc8888_wire sender (w_space w) (wrap 16 (base w)) (count w) ts ms)) as Hwire.
  { destruct (length_report_body sender (w_space w) (wrap 16 (base w)) (count w) ts ms Lm) as (k & Lk & Hk). unfold REPORT_STATUSES, Zlen in *. split_and!; cbn [w_count w_body rfc8888_wire]; [lia|lia|rewrite Lk, Nat.mul_comm; apply Nat.Div0.mod_mul|].
    unfold Zlen, MAX_RTCP_PACKET_BYTES. lia. }
  destruct (compound_feedback at_ epoch (Some Rfc8888) _ sender cname _ _ _ Hwire ltac:(done) ltac:(done) eq_refl Hsd Hn
    (read_rfc8888 at_ epoch sender (w_space w) (wrap 16 (base w)) (count w) ts ms (status_of r w elapsed <$> seqZ (base w) (count w)) (named sender cname) Hsd Hs32 (wrap_fits 16 _ ltac:(lia)) (wrap_fits 32 _ ltac:(lia))
      ltac:(unfold MAX_FEEDBACK_STATUSES, REPORT_STATUSES in *; lia) Lm ltac:(apply Forall_fmap, Forall_forall; intros; apply metric_spec)
      ltac:(unfold ms; apply Forall2_fmap, Forall_Forall2_diag, Forall_forall; intros; apply metric_spec) ltac:(done))) as (out & Hcomp & Hparse).
  eexists w, r', _, out. split_and!; [lia|exact Hcount'|done|done| |exact Hcomp|exact Hparse].
  unfold poll. fold elapsed. rewrite Hr, Hw, Hmode, Hpkt, Hacc. unfold with_receiver. rewrite bool_decide_false by done. by rewrite Hmode.
Qed.

(** C22. A due RFC 8888 report reaches the peer as it is: whenever a report is due,
    polling sends one and marks its packets as reported; put into a compound under
    the receiver's name it parses to one batch about one source, which gives, for
    every packet of the report's window and in order, whether the history holds
    it, its ECN mark, and its age at the time of the report, or that the age is
    over range. *)
Theorem due_report_reaches_the_peer size write f r d now sender cname at_ epoch :
  writes_bytes write -> feedback_run size write f -> rf_mode f = Some Rfc8888 -> receiver f = Some r ->
  let elapsed := saturating_duration_since now (origin f) in
  FeedbackReceiver.deadline r = Some d -> d <= elapsed -> version r < umax 64 -> fits 32 sender -> name_ok cname ->
  exists w r' bytes out, report r elapsed = Some w /\ accept r w (count w) elapsed = (r', Ok ()) /\
    poll write f now sender = (with_receiver r' f, Some bytes) /\ compound bytes sender cname = Some out /\
    rtcp_parse at_ epoch (Some Rfc8888) out = Ok (mkParsedRtcp [FactCname sender cname]
      [mkBatch at_ epoch sender (ReportRfc8888
        [mkRfc8888Report (w_space w) (wrap 16 (base w)) (count w) (status_of r w elapsed <$> seqZ (base w) (count w))]
        (wrap 32 (as_micros elapsed * 65536 / 1000000)))] [] [] []).
Proof.
  intros Hw Hrun Hm Hr elapsed Hd Hle Hv Hs Hn.
  destruct (due_report_parses size write f r d now sender cname at_ epoch Hw Hrun Hm Hr Hd Hle Hv Hs Hn) as (w & r' & bytes & out & _ & H). by exists w, r', bytes, out.
Qed.

(** ** A concrete report *)

Module FeedbackExample.
Definition no_writer (t : TwccReport) : option (list Z) := None.
Definition f0 : ReceiveFeedback := (set_profile 40 (feedback_new (Some Rfc8888) 0) Rfc8888 100000 (Some 512)).1.
Definition f1 : ReceiveFeedback := observe f0 1000000 7 65535 None (Some Ect1).
Definition f2 : ReceiveFeedback := observe f1 3000000 7 1 None None.
Definition r2 : Receiver := default (mkReceiver (config_of Rfc8888) 0 [] 0 None None None 0) (receiver f2).

Lemma run_f2 : feedback_run 40 no_writer f2.
Proof. repeat (apply feedback_run_observe; [|done|done|done]). apply feedback_run_profile, feedback_run_new. Qed.
Lemma r2_facts : receiver f2 = Some r2 /\ FeedbackReceiver.deadline r2 = Some 51000000.
Proof. split; vm_compute; reflexivity. Qed.

Lemma due_report_reaches_the_peer_witness : exists bytes out, (poll no_writer f2 60000000 9).2 = Some bytes /\ compound bytes 9 [97; 98] = Some out /\
  rtcp_parse 0 0 (Some Rfc8888) out = Ok (mkParsedRtcp [FactCname 9 [97; 98]]
    [mkBatch 0 0 9 (ReportRfc8888 [mkRfc8888Report 7 65535 3 [Received 1 (Ticks 60); NotReceived; Received 0 (Ticks 58)]] 3932)] [] [] []).
Proof.
  destruct (due_report_reaches_the_peer 40 no_writer f2 r2 51000000 60000000 9 [97; 98] 0 0) as (w & r' & bytes & out & H1 & _ & H3 & H4 & H5).
  - intros t l H. discriminate H.
  - exact run_f2.
  - reflexivity.
  - exact (proj1 r2_facts).
  - exact (proj2 r2_facts).
  - discriminate.
  - vm_compute. reflexivity.
  - split; [discriminate|reflexivity].
  - split_and!; [repeat constructor; discriminate|discriminate|discriminate|reflexivity].
  - exists bytes, out. rewrite H3. split_and!; [reflexivity|exact H4|]. rewrite H5. vm_compute in H1. injection H1 as <-. vm_compute. reflexivity.
Defined.
End FeedbackExample.
