(* ===== verification/SenderReports.v ===== *)
(** * Sender reports and keyframe requests

    The protocol clock of [crates/pulsebeam-rtc/src/time.rs], the sender reports
    of [egress.rs] and the keyframe requests of [ingress.rs]. Instants and wall
    times are nanoseconds; wall times count from the Unix epoch and may be
    negative. *)

From stdpp Require Import gmap.
From S2P Require Import Prelude RtpWire RtcpWire RtcpCodec.

(** ** The protocol clock *)

Record ProtocolClock := mkProtocolClock { clock_instant : Z; ntp_nanos : Z }.

Definition clamp_i128 (v : Z) : Z := Z.max (- 2 ^ 127) (Z.min v (2 ^ 127 - 1)).
Definition NTP_EPOCH_NANOS : Z := 2208988800000000000.

Definition clock_new (instant wallclock : Z) : ProtocolClock := mkProtocolClock instant (clamp_i128 (clamp_i128 wallclock + NTP_EPOCH_NANOS)).

Definition ntp (c : ProtocolClock) (at_ : Z) : Z * Z :=
  let delta := clamp_i128 (at_ - clock_instant c) in
  let nanos := clamp_i128 (ntp_nanos c + delta) in
  ((nanos / 1000000000) `mod` 2 ^ 32, Z.shiftl (nanos `mod` 1000000000) 32 / 1000000000).

(** ** Sender reports *)

(** What a report reads of a sender. *)
Record ReportSource := mkReportSource {
  source_ssrc : Z;
  latest_rtp : option (Z * Z);
  source_clock_rate : Z;
  committed_packets : Z;
  committed_payload_bytes : Z;
  source_cname : option (list Z);
}.

Definition report_timestamp (s : ReportSource) (rtp wallclock at_ : Z) : Z :=
  wrapping_add 32 rtp ((Z.min (saturating_duration_since at_ wallclock * source_clock_rate s) (2 ^ 128 - 1) / 1000000000) `mod` 2 ^ 32).

Definition sender_report (s : ReportSource) (at_ : Z) (c : ProtocolClock) : option (list Z) :=
  '(rtp, wallclock) ← latest_rtp s;
  let timestamp := report_timestamp s rtp wallclock at_ in
  let '(seconds, fraction) := ntp c at_ in
  let packet := [0x80; 200; 0; 6] ++ be_encode 4 (source_ssrc s) ++ be_encode 4 seconds ++ be_encode 4 fraction ++ be_encode 4 timestamp
    ++ be_encode 4 (Z.min (committed_packets s) (umax 32)) ++ be_encode 4 (Z.min (committed_payload_bytes s) (umax 32)) in
  cname ← source_cname s;
  append_cname packet (source_ssrc s) cname.

(** ** Keyframe requests *)

Record IngressMedia := mkIngressMedia { is_video : bool; media_ssrcs : list Z; ssrc_repairs : list (Z * Z) }.
Record KeyframeView := mkKeyframeView {
  terminal_ssrcs : gset Z;
  encodings : gmap Z bool;
  media_by_ssrc : gmap Z Z;
  active : gset Z;
  media : gmap Z IngressMedia;
  receiver_ssrc : Z;
}.

(** An encoding is given by whether it is retired. *)
Definition permitted (v : KeyframeView) (ssrc : Z) : bool :=
  match encodings v !! ssrc with
  | Some retired => negb retired
  | None =>
      match media_by_ssrc v !! ssrc with
      | None => false
      | Some key =>
          bool_decide (key ∈ active v) &&
          match media v !! key with
          | None => false
          | Some m => is_video m && bool_decide (ssrc ∈ media_ssrcs m) && negb (existsb (fun '(repair, _) => repair =? ssrc) (ssrc_repairs m))
          end
      end
  end.

Definition keyframe_request (v : KeyframeView) (ssrc : Z) : option (list Z) :=
  if bool_decide (ssrc ∈ terminal_ssrcs v) then None
  else if negb (permitted v ssrc) then None
  else Some ([0x81; 206; 0; 2] ++ be_encode 4 (receiver_ssrc v) ++ be_encode 4 ssrc).

(** ** What the peer reads *)

(** The time in nanoseconds since 1900 that a clock gives, as long as it is far
    from the ends of its range. *)
Definition ntp_time (c : ProtocolClock) (at_ : Z) : Z := ntp_nanos c + (at_ - clock_instant c).
Definition in_range (c : ProtocolClock) (at_ : Z) : Prop := Z.abs (ntp_nanos c) < 2 ^ 100 /\ Z.abs (at_ - clock_instant c) < 2 ^ 100.

Lemma ntp_spec c at_ : in_range c at_ -> let '(seconds, fraction) := ntp c at_ in
  fits 32 seconds /\ fits 32 fraction /\ seconds = (ntp_time c at_ / 1000000000) `mod` 2 ^ 32 /\
  fraction * 1000000000 <= (ntp_time c at_ `mod` 1000000000) * 2 ^ 32 < (fraction + 1) * 1000000000.
Proof.
  intros [H1 H2]. unfold ntp, clamp_i128, ntp_time. replace (Z.max (- 2 ^ 127) (Z.min (at_ - clock_instant c) (2 ^ 127 - 1))) with (at_ - clock_instant c) by lia.
  replace (Z.max (- 2 ^ 127) (Z.min (ntp_nanos c + (at_ - clock_instant c)) (2 ^ 127 - 1))) with (ntp_nanos c + (at_ - clock_instant c)) by lia.
  set (n := ntp_nanos c + (at_ - clock_instant c)). cbn zeta. rewrite Z.shiftl_mul_pow2 by lia. pose proof (Z.mod_pos_bound n 1000000000 ltac:(lia)) as Hn. pose proof (Z.mod_pos_bound (n / 1000000000) (2 ^ 32) ltac:(lia)) as Hs.
  unfold fits. change (2 ^ 32) with 4294967296 in *. split_and!; try lia; dlia.
Qed.

(** A sender report reads back at the peer: it gives the sender's source, its
    wall time to within a part in 2^32 of a second, the media time of the same
    instant, extrapolated from the last packet at the stream's rate, and the
    sender's name; and a keyframe request reads as a request for its source from
    a receiver that may ask for it, and for no source that is retired. *)
Theorem sender_reports_read_back s v c at_ rtp wallclock cname ssrc t epoch mode :
  latest_rtp s = Some (rtp, wallclock) -> source_cname s = Some cname -> name_ok cname -> fits 32 (source_ssrc s) -> fits 32 rtp -> in_range c at_ -> fits 32 (receiver_ssrc v) -> fits 32 ssrc ->
  (exists bytes seconds fraction, sender_report s at_ c = Some bytes /\
    rtcp_parse t epoch mode bytes = Ok (mkParsedRtcp [FactSenderReport (source_ssrc s) seconds fraction (report_timestamp s rtp wallclock at_); FactCname (source_ssrc s) cname] [] [] [] []) /\
    seconds = (ntp_time c at_ / 1000000000) `mod` 2 ^ 32 /\ fraction * 1000000000 <= (ntp_time c at_ `mod` 1000000000) * 2 ^ 32 < (fraction + 1) * 1000000000) /\
  (forall packet, keyframe_request v ssrc = Some packet -> (ssrc ∉ terminal_ssrcs v) /\
    exists out, compound packet (receiver_ssrc v) cname = Some out /\
      rtcp_parse t epoch mode out = Ok (mkParsedRtcp [FactCname (receiver_ssrc v) cname] [] [] [mkKeyframeRequest ssrc None] [])).
Proof.
  intros Hrtp Hname Hn Hs Hr Hc Hv Hss. split.
  - pose proof (ntp_spec c at_ Hc) as Hntp. unfold sender_report. rewrite Hrtp. cbn [mbind option_bind]. destruct (ntp c at_) as [seconds fraction]. destruct Hntp as (H1 & H2 & H3 & H4). rewrite Hname. cbn [mbind option_bind].
    rewrite append_cname_spec by done. set (timestamp := report_timestamp s rtp wallclock at_). assert (fits 32 timestamp) as Hts by (apply wrap_fits; lia). set (packets := Z.min (committed_packets s) (umax 32)). set (bytes := Z.min (committed_payload_bytes s) (umax 32)).
    set (w := sender_report_wire (source_ssrc s) seconds fraction timestamp packets bytes). exists (concat (wire <$> [w; cname_wire (source_ssrc s) cname])), seconds, fraction. split_and!; try done; try lia.
    + cbn [fmap list_fmap concat]. by rewrite app_nil_r.
    + rewrite rtcp_parse_wires.
      2:{ split_and!; [done| |by apply Nat.leb_le]. constructor; [done|]. constructor; [by apply cname_wire_ok|constructor]. }
      cbn [fmap list_fmap read_packets]. unfold w. rewrite read_sender_report by done. cbn [mbind result_bind]. rewrite read_cname by done. done.
  - intros packet Hp. unfold keyframe_request in Hp. case_bool_decide as Hterm; [done|]. case_match; [done|]. assert (packet = wire (pli_wire (receiver_ssrc v) ssrc)) as -> by (by injection Hp as <-). split; [done|].
    refine (compound_feedback t epoch mode (pli_wire (receiver_ssrc v) ssrc) (receiver_ssrc v) cname _ _ _ _ _ _ eq_refl Hv Hn (read_pli t epoch mode (receiver_ssrc v) ssrc (named (receiver_ssrc v) cname) 0 Hv Hss _ _)); done.
Qed.

Module ReportExample.
Definition source : ReportSource := mkReportSource 33 (Some (90000, 1000000000)) 90000 12 3400 (Some [97; 98]).
Definition wall : ProtocolClock := clock_new 0 17000000000.
Definition view : KeyframeView := mkKeyframeView ∅ {[ 44 := false ]} ∅ ∅ ∅ 9.
Lemma sender_reports_read_back_witness : exists bytes seconds fraction, sender_report source 1750000000 wall = Some bytes /\
  rtcp_parse 0 0 None bytes = Ok (mkParsedRtcp [FactSenderReport 33 seconds fraction 157500; FactCname 33 [97; 98]] [] [] [] []).
Proof.
  destruct (sender_reports_read_back source view wall 1750000000 90000 1000000000 [97; 98] 44 0 0 None) as [(bytes & seconds & fraction & H1 & H2 & _) _]; try reflexivity.
  - split_and!; [repeat constructor; discriminate|discriminate|discriminate|reflexivity].
  - split; [discriminate|reflexivity].
  - split; [discriminate|reflexivity].
  - split; reflexivity.
  - split; [discriminate|reflexivity].
  - split; [discriminate|reflexivity].
  - exists bytes, seconds, fraction. exact (conj H1 H2).
Defined.
End ReportExample.
